(* ===== verification/_CoqProject ===== *)
-Q . S2P
Prelude.v
Bytes.v
KString.v
Mmu.v
Arm.v
Buddy.v
Alloc.v
Pipe.v
Bio.v
Log.v
Store.v
Fs.v
Content.v
Inode.v
FsSpec.v
Spin.v
Proc.v
Dir.v
File.v
FileIO.v
Syscall.v
Sysfile.v
Vm.v
PageTable.v
UserMem.v
PtFree.v
AddrSpace.v
Exec.v
ExecSpec.v
ExecLoad.v
ExecCorrect.v
Namei.v
ExecFile.v
Mkfs.v
MkfsSpec.v
MkfsCorrect.v
Grep.v
Words.v
Boot.v
Umalloc.v
Numeral.v
Console.v
Ulib.v
Sh.v
Jobs.v
Run.v
