(* ===== verification/Prelude.v ===== *)
(** * pinkyOS: a verification library of the kernel

    pinkyOS is a port of the xv6 kernel to the 64-bit ARM architecture.  This
    library models its core in shallow embedding, one file per component, and
    proves the properties each component promises to the others.

    ** How the program is put together

    System calls enter through syscall() (syscall.c), which fetches arguments
    from the caller's registers and memory and dispatches over a table.  The
    calls act on processes (proc.c, sysproc.c) or on descriptors
    (sysfile.c), which refer to open files (file.c): pipes (pipe.c) or inodes
    (fs.c).  The file system keeps inodes, directories and a block bitmap on
    the disk, reads and writes blocks through a cache (bio.c, over memide.c)
    and groups its writes into transactions of a redo log (log.c).  Memory
    comes from a buddy allocator (buddy.c) under the page tables (vm.c); exec
    (exec.c) builds a process's address space from a program file.
    Everything is protected by spinlocks (spinlock.c, arm.c).  The user side
    is a small C library (usr/ulib.c, umalloc.c, printf.c) and programs over
    it, the shell (usr/sh.c) among them.

    ** Files

    - Prelude.v: machine integers, the outcomes of kernel code, the state
      monad, total ([wp]) and partial ([wlp]) correctness, arrays.
    - Bytes.v: byte arrays, slices and little-endian fields.
    - KString.v: lib/string.c over a byte memory ([mem], address to byte).
    - Mmu.v: the rounding macros of mmu.h and the direct map of memlayout.h.
    - Arm.v: the processor's walk of its tables: which entries are valid, the
      access flag, the permission and memory attributes of a translation.
      It is written from the architecture, not from the code's macros.
    - Buddy.v: buddy.c.  State: the orders' list heads, the mark words and the
      pool's bounds; [heap] is the invariant, the set of free blocks its
      abstract state.
    - Alloc.v: what the allocator promises to its clients, as a class with
      laws ([PageAlloc], [PageAllocLaws]) and the instance for Buddy.v.
    - Pipe.v: pipe.c, the byte queue, with the sleeps as a transition system of
      any number of readers and writers.
    - Bio.v: bio.c and memide.c, the block cache as a doubly linked list over
      an array of buffers, and the disk with the history of its writes.
    - Log.v: log.c on top of Bio.v, with crashes after any prefix of the
      sector writes.
    - Store.v: the block store the file system sees inside a transaction, with
      the abstract view of it ([holds]).
    - Fs.v, Content.v, Inode.v, FsSpec.v: fs.c up to inodes: the operations,
      the contents of files as byte lists, the allocation of blocks and
      inodes, and the theorems.
    - Dir.v: the directories and path names of fs.c.
    - Spin.v: spinlock.c and the interrupt nesting of arm.c, step by step on
      the one processor the kernel runs on, with interrupts between any two
      steps whose handlers take locks in turn.
    - Proc.v: proc.c, the process table and the scheduler as a transition
      system; the code of other components it calls is a parameter.
    - File.v, FileIO.v: file.c and pipealloc, the table of open files over the
      file system and the pipes; reading and writing through it.
    - Syscall.v: syscall.c and sysproc.c.
    - Sysfile.v: sysfile.c.
    - Vm.v: vm.c and the page-table macros of mmu.h, over the byte memory.
    - PageTable.v: the tables in memory under the walk of Arm.v; well-formed
      tables, walkpgdir and mappages.
    - UserMem.v, PtFree.v, AddrSpace.v: address spaces as lists of pages;
      allocuvm, deallocuvm and the loops of copyuvm; the freeing of tables; the
      theorems about user memory, with a small machine as witness.
    - Exec.v, ExecSpec.v, ExecLoad.v, ExecCorrect.v: exec.c, with loaduvm and
      switchuvm of vm.c: the model; what a program file should become in
      memory; the loading of segments; the theorem.  exec's calls of the file
      system are behind a class ([ExecFs], [ExecFsLaws]).
    - Namei.v: the tree of directories on the disk and the walk of namex
      through it, counting references in the inode cache.
    - ExecFile.v: Fs.v as an instance of exec's file system class, its path
      lookup discharged by Namei.v.
    - Mkfs.v, MkfsSpec.v, MkfsCorrect.v: tools/mkfs.c, the program that builds
      the disk on the host: the model; the image while it is built, seen with
      the definitions of Fs.v and Content.v; the theorem.
    - Grep.v: the matcher of usr/grep.c and its regular expressions.
    - Words.v, Umalloc.v: 64-bit words in memory, and usr/umalloc.c over them;
      sbrk is a class with laws.
    - Boot.v: start.c, from the loader to kmain(): the boot page tables under
      the walk of Arm.v, the system registers.
    - Numeral.v: numerals in any base, and printf's integer conversion.
    - Console.v: console.c, the line editor over the UART's two queues,
      cprintf and console reads and writes.
    - Ulib.v: usr/ulib.c and the formats of usr/printf.c.
    - Sh.v: usr/sh.c up to the commands it builds, the parser and the printer
      it is proved against.
    - Jobs.v: processes that fork, wait and exit, running in any order, and
      what it is for them to do a given work.
    - Run.v: runcmd and the loop of sh.c, as the calls each process makes; the
      processes are put together by Jobs.v.

    Operations keep the names of the C functions (exit is [exit_]); a loop
    body is a definition of its own where a proof needs it.  A C struct is a
    record, an array a list, a pointer into an array an index, and the
    integers are [Z] with their wrap-around written out ([u32], [s32], ...).

    ** Outcomes and bounds

    Code is a function from a state to an [outcome]: a return, a panic, a step
    C leaves undefined, a sleep on a channel, a deadlock on a lock the caller
    holds, or [NoFuel].  [loop] takes a bound: the counter's range for a
    counted loop, the size of memory for a scan to a NUL, NBUF or NPROC for a
    walk over a table, the number of orders for the recursion of buddy.c.
    The theorems are of total correctness: a proof that a call returns
    excludes [NoFuel], so that each bound is shown to be enough where the
    call's theorem applies.

    A call that sleeps ends the execution: it is resumed by another definition
    (named _resume) or by a step of the component's transition system, at the
    point where the C code continues.

    ** What the theorems show

    - log: a transaction is atomic under a crash at any sector write, and
      recovery may be interrupted any number of times.
    - file system: reads and writes of file contents of any length, the freeing
      of files, allocation of blocks, the inode cache and the round trip of
      inodes through the disk, lookups and insertions in directories, the
      decomposition of paths.
    - images: the disk mkfs builds holds the files it was given, as a tree
      of well-formed inodes.
    - open files and descriptors: reference counts agree with the references
      at any time; long writes are cut into transactions that fit the log;
      what is written is read back.
    - memory: allocation and freeing keep the pool's blocks disjoint, merge
      what was split, and never hand out what is in use; mapping changes what
      the processor's walk finds for the pages mapped and for no other; growing, shrinking,
      copying and freeing an address space have the effect on its bytes they
      should, other processes keep theirs, and an allocation that fails
      half-way leaves nothing behind.
    - start: when kmain() is entered the MMU is on, and both halves of the
      address space translate to the kernel and the devices.
    - programs: exec either gives the process the address space its program
      file and arguments describe, and frees the old one, or fails and leaves
      the process as it was.
    - processes: the table's invariant in every reachable state; fork and wait
      in detail; no wakeup is lost between wait and exit.
    - pipes: bytes come out in the order they went in under any interleaving.
    - locks: whatever interrupts come, no lock is waited for on the one
      processor; and the refinement of the lock the other components are
      verified with.
    - system calls: pointers passed by a process stay inside its memory.
    - console: the editor with its wrapping indices refines a line of text and
      a queue of finished lines; numbers print as their numerals.
    - user side: malloc and free keep an ordered list of merged blocks, and
      never hand out what is in use; grep's matcher decides its regular
      expressions; printf writes what its format renders to; the shell's
      parser inverts its grammar, and its loop starts the programs of each
      line with the descriptors pipes and redirections say, in the order
      lists and waits impose and in no other, however the processes run.

    ** Hypotheses

    Code outside the sources is a parameter: the trap entry and swtch()
    (assembly), device switches ([Devsw]), exec inside sys_exec, sbrk under
    malloc, and whether a system call of the shell succeeds.  The programs
    the shell starts read none of the shell's own lines.  Reference counts
    (int in the source) do not wrap in the model.  exec_correct takes
    files whose program headers the code handles ([program_ok]: aligned, no
    sum past 4 GiB) and enough spare table pages.  copyout_correct is about
    ranges that lie inside the process, as those of exec do.  mkfs_correct takes files
    that fit in front of the log, and not one of the numbers of files (30, 62,
    ...) for which mkfs gives the root directory a block it does not have.
    The file system theorems assume a disk laid out so that the bitmap has the log's
    blocks marked in use ([ly_log] of [layout]); mkfs.c marks only the
    blocks below the data it writes.  The tenth block of a transaction
    panics (NBUF and LOGSIZE are both 10), so transactions of up to nine are
    covered.

    ** Not modelled

    - entry.S, trap_asm.S, initcode.S, usys.S, kernel/*.S and kernel/*.c:
      assembly and code that is not in the build; main.c only calls
      initialisers.
    - device/*.c (gic, picirq, timer, uart) and virtio.h: memory-mapped
      device registers; Console.v keeps the UART as its two queues.
    - trap.c: handlers that print a register dump; the system call path goes
      straight to syscall().
    - kalloc.c: an allocator the kernel no longer links (buddy.c replaced it).
    - the block of exec under CONFIG_DEBUG, which only prints.
    - usr/usertests.c, forktest.c, stressfs.c, zombie.c (tests) and the
      programs that only pass their arguments to a system call (cat, echo,
      info, init, kill, ln, ls, mkdir, rm, wc); grep's reading loop.
    - the stack walk of arm.c (getcallerpcs, show_callstk), which reads raw
      frame pointers. *)

From stdpp Require Export base gmap strings list fin_maps.
From Stdlib Require Export ZArith Lia.

#[global] Open Scope Z_scope.

(** ** Machine integers: the C types as [Z] with their wrap-around *)

Definition u8 (z : Z) : Z := z mod 2 ^ 8.
Definition u16 (z : Z) : Z := z mod 2 ^ 16.
Definition u32 (z : Z) : Z := z mod 2 ^ 32.
Definition u64 (z : Z) : Z := z mod 2 ^ 64.
(** conversion to a 32-bit or 64-bit signed integer *)
Definition s32 (z : Z) : Z := (z + 2 ^ 31) mod 2 ^ 32 - 2 ^ 31.
Definition s64 (z : Z) : Z := (z + 2 ^ 63) mod 2 ^ 64 - 2 ^ 63.
Definition s16 (z : Z) : Z := (z + 2 ^ 15) mod 2 ^ 16 - 2 ^ 15.

(** A C condition is an integer: [b2z] and [bit_set] move between the two. *)
Definition b2z (b : bool) : Z := if b then 1 else 0.

(** ** Outcomes of kernel code

    [Done] is a normal return with the new state, [Panic] a call of
    panic(), which never returns, [Undef] a step the C standard leaves
    undefined (an access outside an object), [Block] a call of sleep() on a
    channel, with the state the sleeping process leaves behind (its lock
    released), [Deadlock] an acquire() of a lock the caller already holds and
    [NoFuel] a loop whose bound was too small. *)

Inductive chan : Type := Chan (obj : string) (idx : Z).

Inductive outcome (S A : Type) : Type :=
| Done (a : A) (s : S)
| Panic (msg : string)
| Undef
| Block (c : chan) (s : S)
| Deadlock
| NoFuel.
Arguments Done {S A}.
Arguments Panic {S A}.
Arguments Undef {S A}.
Arguments Block {S A}.
Arguments Deadlock {S A}.
Arguments NoFuel {S A}.

#[export] Instance chan_eq_dec : EqDecision chan.
Proof. solve_decision. Defined.

Definition M (S A : Type) : Type := S -> outcome S A.

#[export] Instance M_ret {S} : MRet (M S) := fun A a s => Done a s.
#[export] Instance M_bind {S} : MBind (M S) := fun A B f m s =>
  match m s with
  | Done a s' => f a s'
  | Panic msg => Panic msg
  | Undef => Undef
  | Block c s' => Block c s'
  | Deadlock => Deadlock
  | NoFuel => NoFuel
  end.

Section monad.
  Context {S : Type}.

Definition get : M S S := fun s => Done s s.
Definition gets {A} (f : S -> A) : M S A := fun s => Done (f s) s.
Definition modify (f : S -> S) : M S unit := fun s => Done tt (f s).
Definition panic {A} (msg : string) : M S A := fun _ => Panic msg.
Definition undef {A} : M S A := fun _ => Undef.
Definition block {A} (c : chan) : M S A := fun s => Block c s.
  (** [if (b) panic(msg);] *)
Definition panic_if (b : bool) (msg : string) : M S unit :=
    if b then panic msg else mret tt.
  (** an object access: [None] is outside the object *)
Definition deref {A} (f : S -> option A) : M S A := fun s =>
    match f s with Some a => Done a s | None => Undef end.
  (** the result of signed [int] arithmetic: an overflow is undefined *)
Definition c_int (z : Z) : M S Z :=
    if (- 2 ^ 31 <=? z) && (z <? 2 ^ 31) then mret z else undef.
Definition when (b : bool) (m : M S unit) : M S unit :=
    if b then m else mret tt.

  (** A C loop: the body returns [inl] of the next loop variables or [inr] of
      the value the loop leaves with. *)
Fixpoint loop {V R} (fuel : nat) (body : V -> M S (V + R)) (v : V) : M S R :=
    match fuel with
    | O => fun _ => NoFuel
    | Datatypes.S fuel => body v ≫= fun r =>
        match r with inl v' => loop fuel body v' | inr r => mret r end
    end.
End monad.

(** A lock word inside a component's state. *)
Record lens (S A : Type) : Type := Lens {
  lget : S -> A;
  lset : A -> S -> S;
}.
Arguments Lens {S A}.
Arguments lget {S A}.
Arguments lset {S A}.

Class LensLaws {S A} (L : lens S A) : Prop := {
  lens_get_set : forall a s, lget L (lset L a s) = a;
  lens_set_get : forall s, lset L (lget L s) s = s;
  lens_set_set : forall a b s, lset L a (lset L b s) = lset L a s;
}.

(** The uniprocessor view of a spinlock: taking a lock that is held never
    succeeds, releasing one that is not held panics (spinlock.c). *)
Definition acquire {S} (L : lens S bool) : M S unit := fun s =>
  if lget L s then Deadlock else Done tt (lset L true s).
Definition release {S} (L : lens S bool) : M S unit := fun s =>
  if lget L s then Done tt (lset L false s) else Panic "release".
(** sleep(chan, lk): the lock is released while the process sleeps. *)
Definition sleep_on {S A} (L : lens S bool) (c : chan) : M S A :=
  release L ≫= fun _ => block c.

(** A component's code run on its part of a larger state. *)
Definition zoom {S A B} (L : lens S A) (m : M A B) : M S B := fun s =>
  match m (lget L s) with
  | Done b a => Done b (lset L a s)
  | Panic msg => Panic msg
  | Undef => Undef
  | Block c a => Block c (lset L a s)
  | Deadlock => Deadlock
  | NoFuel => NoFuel
  end.
#[global] Arguments zoom {S A B} L m s : simpl never.
(** code that keeps no state *)
Definition unit_lens {S} : lens S unit := Lens (fun _ => tt) (fun _ s => s).

(** How far a call that can sleep got before it gave up the processor:
    asleep on a channel, with the loop index it goes on from, or returned. *)
Inductive run (R : Type) : Type :=
| Asleep (c : chan) (i : Z)
| Ret (r : R).
Arguments Asleep {R}.
Arguments Ret {R}.

(** ** Total correctness

    [wp m Q s]: run from [s], [m] returns (no panic, no undefined step, no
    sleep, no exhausted bound) with a result and state in [Q]. *)

Definition wp {S A} (m : M S A) (Q : A -> S -> Prop) (s : S) : Prop :=
  match m s with Done a s' => Q a s' | _ => False end.

Section wp_rules.
  Context {S : Type}.

Lemma wp_ret {A} (a : A) Q (s : S) : Q a s -> wp (mret a) Q s.
  Proof. done. Qed.

Lemma wp_bind {A B} (m : M S A) (f : A -> M S B) Q s :
    wp m (fun a s' => wp (f a) Q s') s -> wp (m ≫= f) Q s.
  Proof. unfold wp, mbind, M_bind. by destruct (m s). Qed.

Lemma wp_bind_inv {A B} (m : M S A) (f : A -> M S B) Q s :
    wp (m ≫= f) Q s -> wp m (fun a s' => wp (f a) Q s') s.
  Proof. unfold wp, mbind, M_bind. by destruct (m s). Qed.

Lemma wp_mono {A} (m : M S A) (Q Q' : A -> S -> Prop) s :
    wp m Q s -> (forall a s', Q a s' -> Q' a s') -> wp m Q' s.
  Proof. unfold wp. destruct (m s); naive_solver. Qed.

Lemma wp_done {A} (m : M S A) Q s :
    wp m Q s <-> exists a s', m s = Done a s' /\ Q a s'.
  Proof.
    unfold wp. destruct (m s) as [a s'| | | | |];
      split; try done; intros; naive_solver.
  Qed.

Lemma wp_eq {A} (m : M S A) Q s a s' :
    m s = Done a s' -> Q a s' -> wp m Q s.
  Proof. unfold wp. by intros ->. Qed.

Lemma wp_gets {A} (f : S -> A) Q s : Q (f s) s -> wp (gets f) Q s.
  Proof. done. Qed.
Lemma wp_get Q (s : S) : Q s s -> wp get Q s.
  Proof. done. Qed.
Lemma wp_modify (f : S -> S) Q s : Q tt (f s) -> wp (modify f) Q s.
  Proof. done. Qed.
Lemma wp_panic_if b msg Q (s : S) :
    b = false -> Q tt s -> wp (panic_if b msg) Q s.
  Proof. by intros ->. Qed.
Lemma wp_deref {A} (f : S -> option A) Q s a :
    f s = Some a -> Q a s -> wp (deref f) Q s.
  Proof. unfold wp, deref. by intros ->. Qed.
Lemma wp_when (b : bool) (m : M S unit) Q s :
    (b = true -> wp m Q s) -> (b = false -> Q tt s) -> wp (when b m) Q s.
  Proof. destruct b; naive_solver. Qed.
Lemma wp_c_int z Q (s : S) : - 2 ^ 31 <= z < 2 ^ 31 -> Q z s -> wp (c_int z) Q s.
  Proof.
    intros Hz HQ. unfold wp, c_int.
    destruct (Z.leb_spec (- 2 ^ 31) z); [|lia]. destruct (Z.ltb_spec z (2 ^ 31)); [done|lia].
  Qed.
Lemma wp_acquire (L : lens S bool) Q s :
    lget L s = false -> Q tt (lset L true s) -> wp (acquire L) Q s.
  Proof. unfold wp, acquire. by intros ->. Qed.
Lemma wp_release (L : lens S bool) Q s :
    lget L s = true -> Q tt (lset L false s) -> wp (release L) Q s.
  Proof. unfold wp, release. by intros ->. Qed.

Lemma wp_zoom {A B} (L : lens S A) (m : M A B) Q (s : S) :
    wp m (fun b a => Q b (lset L a s)) (lget L s) -> wp (zoom L m) Q s.
  Proof. unfold wp, zoom. by destruct (m (lget L s)). Qed.

  (** The rule for loops: an invariant and a measure below the bound. *)
Lemma wp_loop {V R} fuel (body : V -> M S (V + R)) v s Q
      (Inv : V -> S -> Prop) (mu : V -> nat) :
    Inv v s ->
    (mu v < fuel)%nat ->
    (forall v s, Inv v s ->
       wp (body v) (fun r s' => match r with
                                | inl v' => Inv v' s' /\ (mu v' < mu v)%nat
                                | inr x => Q x s' end) s) ->
    wp (loop fuel body v) Q s.
  Proof.
    intros Hinv Hmu Hbody. revert v s Hinv Hmu.
    induction fuel as [|fuel IH]; intros v s Hinv Hmu; [lia|].
    cbn. apply wp_bind. eapply wp_mono; [by apply Hbody|].
    intros [v'|r] s'; cbn; [|by apply wp_ret].
    intros [? ?]. apply IH; [done|lia].
  Qed.

  (** A larger bound does not change what a loop that returned computed. *)
Lemma loop_fuel_mono {V R} f1 f2 (body : V -> M S (V + R)) v s r s' :
    loop f1 body v s = Done r s' -> (f1 <= f2)%nat ->
    loop f2 body v s = Done r s'.
  Proof.
    revert f2 v s. induction f1 as [|f1 IH]; intros f2 v s; cbn; [done|].
    destruct f2 as [|f2]; [lia|]. intros H Hle. cbn. revert H.
    unfold mbind, M_bind. destruct (body v s) as [[v'|x] s1| | | | |]; try done.
    intros H. apply IH; [done|lia].
  Qed.

Lemma bind_done {A B} (m : M S A) (f : A -> M S B) s a s' :
    m s = Done a s' -> (m ≫= f) s = f a s'.
  Proof. unfold mbind, M_bind. by intros ->. Qed.

Lemma bind_assoc {A B C} (m : M S A) (f : A -> M S B) (g : B -> M S C) s :
    ((m ≫= f) ≫= g) s = (m ≫= (fun a => f a ≫= g)) s.
  Proof. unfold mbind, M_bind. by destruct (m s). Qed.
End wp_rules.

(** ** Partial correctness

    [wlp m Q B s]: if [m] returns from [s], the result and state are in [Q];
    if it gives up the processor, the state it leaves is in [B].  Used where
    the callees are arbitrary. *)

Definition wlp {S A} (m : M S A) (Q : A -> S -> Prop) (B : S -> Prop) (s : S) : Prop :=
  match m s with Done a s' => Q a s' | Block _ s' => B s' | _ => True end.

Section wlp_rules.
  Context {S : Type}.

Lemma wlp_ret {A} (a : A) Q B (s : S) : Q a s -> wlp (mret a) Q B s.
  Proof. done. Qed.
Lemma wlp_bind {A A'} (m : M S A) (f : A -> M S A') Q B s :
    wlp m (fun a s' => wlp (f a) Q B s') B s -> wlp (m ≫= f) Q B s.
  Proof. unfold wlp, mbind, M_bind. by destruct (m s). Qed.
Lemma wlp_mono {A} (m : M S A) (Q Q' : A -> S -> Prop) (B B' : S -> Prop) s :
    wlp m Q B s -> (forall a s', Q a s' -> Q' a s') -> (forall s', B s' -> B' s') -> wlp m Q' B' s.
  Proof. unfold wlp. destruct (m s); naive_solver. Qed.
Lemma wlp_done {A} (m : M S A) Q B s a s' : wlp m Q B s -> m s = Done a s' -> Q a s'.
  Proof. unfold wlp. intros H E. by rewrite E in H. Qed.
Lemma wlp_block {A} (m : M S A) Q B s c s' : wlp m Q B s -> m s = Block c s' -> B s'.
  Proof. unfold wlp. intros H E. by rewrite E in H. Qed.
Lemma wlp_gets {A} (f : S -> A) Q B s : Q (f s) s -> wlp (gets f) Q B s.
  Proof. done. Qed.
Lemma wlp_modify (f : S -> S) Q B s : Q tt (f s) -> wlp (modify f) Q B s.
  Proof. done. Qed.
Lemma wlp_panic {A} msg (Q : A -> S -> Prop) B s : wlp (panic msg) Q B s.
  Proof. done. Qed.
Lemma wlp_panic_if b msg Q B (s : S) : (b = false -> Q tt s) -> wlp (panic_if b msg) Q B s.
  Proof. destruct b; [done|]. intros H. by apply H. Qed.
Lemma wlp_deref {A} (f : S -> option A) Q B s :
    (forall a, f s = Some a -> Q a s) -> wlp (deref f) Q B s.
  Proof. unfold wlp, deref. destruct (f s); naive_solver. Qed.
Lemma wlp_when (b : bool) (m : M S unit) Q B s :
    (b = true -> wlp m Q B s) -> (b = false -> Q tt s) -> wlp (when b m) Q B s.
  Proof. destruct b; naive_solver. Qed.
Lemma wlp_c_int z Q B (s : S) : (- 2 ^ 31 <= z < 2 ^ 31 -> Q z s) -> wlp (c_int z) Q B s.
  Proof.
    intros H. unfold wlp, c_int. destruct (Z.leb_spec (- 2 ^ 31) z); [|done].
    destruct (Z.ltb_spec z (2 ^ 31)); [|done]. by apply H.
  Qed.
Lemma wlp_block_at {A} (Q : A -> S -> Prop) (B : S -> Prop) c s : B s -> wlp (block c) Q B s.
  Proof. done. Qed.
Lemma wlp_zoom {A X} (L : lens S X) (m : M X A) Q (B : S -> Prop) s :
    wlp m (fun a x => Q a (lset L x s)) (fun x => B (lset L x s)) (lget L s) -> wlp (zoom L m) Q B s.
  Proof. unfold wlp, zoom. by destruct (m (lget L s)). Qed.
Lemma wlp_loop {V R} fuel (body : V -> M S (V + R)) v s Q B (Inv : V -> S -> Prop) :
    Inv v s ->
    (forall v s, Inv v s ->
       wlp (body v) (fun r s' => match r with inl v' => Inv v' s' | inr x => Q x s' end) B s) ->
    wlp (loop fuel body v) Q B s.
  Proof.
    intros Hinv Hbody. revert v s Hinv. induction fuel as [|fuel IH]; intros v s Hinv; [done|].
    cbn. apply wlp_bind. eapply wlp_mono; [by apply Hbody| |done].
    intros [v'|r] s'; cbn; [apply IH|done].
  Qed.
End wlp_rules.

Ltac wlp_step :=
  lazymatch goal with
  | |- wlp (_ ≫= _) _ _ _ => apply wlp_bind
  | |- wlp (mret _) _ _ _ => apply wlp_ret
  | |- wlp (gets _) _ _ _ => apply wlp_gets
  | |- wlp (modify _) _ _ _ => apply wlp_modify
  | |- wlp (panic _) _ _ _ => apply wlp_panic
  | |- wlp (panic_if _ _) _ _ _ => apply wlp_panic_if; intros ?
  | |- wlp (deref _) _ _ _ => apply wlp_deref; intros ? ?
  | |- wlp (c_int _) _ _ _ => apply wlp_c_int; intros ?
  | |- wlp (zoom _ _) _ _ _ => apply wlp_zoom
  | |- wlp (block _) _ _ _ => apply wlp_block_at
  end.

(** One symbolic step of a monadic program. *)
Ltac wp_step :=
  lazymatch goal with
  | |- wp (_ ≫= _) _ _ => apply wp_bind
  | |- wp (mret _) _ _ => apply wp_ret
  | |- wp (gets _) _ _ => apply wp_gets
  | |- wp get _ _ => apply wp_get
  | |- wp (modify _) _ _ => apply wp_modify
  | |- wp (panic_if _ _) _ _ => apply wp_panic_if
  | |- wp (c_int _) _ _ => apply wp_c_int
  | |- wp (acquire _) _ _ => apply wp_acquire
  | |- wp (release _) _ _ => apply wp_release
  | |- wp (deref _) _ _ => eapply wp_deref
  | |- wp (zoom _ _) _ _ => apply wp_zoom
  end.
Ltac wp_steps := repeat (wp_step; cbn beta iota; try done).

(** ** Arrays: a list indexed by a C integer; out of range is [None] *)

Section arrays.
  Context {A : Type}.
  Implicit Types (l : list A) (i j : Z).

Definition at_ (l : list A) (i : Z) : option A :=
    if 0 <=? i then l !! Z.to_nat i else None.
Definition put (l : list A) (i : Z) (x : A) : list A := <[Z.to_nat i := x]> l.

Lemma at_range l i x : at_ l i = Some x -> 0 <= i < Z.of_nat (length l).
  Proof.
    unfold at_. destruct (Z.leb_spec 0 i); [|done].
    intros ?%lookup_lt_Some. lia.
  Qed.
Lemma at_is_Some l i : 0 <= i < Z.of_nat (length l) -> is_Some (at_ l i).
  Proof.
    intros Hi. unfold at_. destruct (Z.leb_spec 0 i); [|lia].
    apply lookup_lt_is_Some_2. lia.
  Qed.
Lemma at_put_eq l i x : 0 <= i < Z.of_nat (length l) -> at_ (put l i x) i = Some x.
  Proof.
    intros Hi. unfold at_, put. destruct (Z.leb_spec 0 i); [|lia].
    apply list_lookup_insert_eq. lia.
  Qed.
Lemma at_put_ne l i j x : 0 <= i -> i <> j -> at_ (put l i x) j = at_ l j.
  Proof.
    intros Hi Hij. unfold at_, put. destruct (Z.leb_spec 0 j); [|done].
    apply list_lookup_insert_ne. lia.
  Qed.
Lemma length_put l i x : length (put l i x) = length l.
  Proof. apply length_insert. Qed.
Lemma put_put l i x y : put (put l i x) i y = put l i y.
  Proof. apply list_insert_insert_eq. Qed.
Lemma put_id l i x : at_ l i = Some x -> put l i x = l.
  Proof. unfold at_, put. destruct (Z.leb_spec 0 i); [|done]. apply list_insert_id. Qed.
Lemma at_replicate n i (x : A) : 0 <= i < Z.of_nat n -> at_ (replicate n x) i = Some x.
  Proof.
    intros Hi. unfold at_. destruct (Z.leb_spec 0 i); [|lia].
    apply lookup_replicate_2. lia.
  Qed.
End arrays.

Create Rewrite HintDb pinky.
#[export] Hint Rewrite @length_put @length_insert @length_app @length_replicate
  @length_take @length_drop : pinky.

(** membership in an explicit list *)
Ltac in_list :=
  repeat match goal with
  | H : _ ∈ _ |- _ =>
      progress repeat first [rewrite elem_of_app in H | rewrite elem_of_cons in H
                            | rewrite elem_of_nil in H]
  end;
  repeat first [rewrite elem_of_app | rewrite elem_of_cons | rewrite elem_of_nil]; tauto.

(** a decidable property of all integers of a range, by evaluation *)
Lemma forallb_seqZ (f : Z -> bool) m n : forallb f (seqZ m n) = true -> forall i, m <= i < m + n -> f i = true.
Proof.
  intros H i Hi. rewrite forallb_forall in H. apply H. apply list_elem_of_In, elem_of_seqZ. lia.
Qed.
