(* ===== verification/Bytes.v ===== *)
(** * Byte arrays: slices, copies into an array, little-endian fields

    The disk blocks, dirents and user buffers of the kernel are lists of bytes;
    memmove() between two of them is [blit] of a [sub], and a field of a
    struct stored in one is a little-endian integer at an offset.  The model of
    memmove itself is in KString.v. *)

From S2P Require Import Prelude.

Section slices.
  Context {A : Type}.
  Implicit Types (l x : list A) (o n : nat).

  (** [n] elements from [o]; [x] stored over [l] from [o] *)
Definition sub l o n : list A := take n (drop o l).
Definition blit l o x : list A := take o l ++ x ++ drop (o + length x) l.

Lemma length_sub l o n : (o + n <= length l)%nat -> length (sub l o n) = n.
  Proof. intros H. unfold sub. rewrite length_take, length_drop. lia. Qed.
Lemma length_blit l o x : (o + length x <= length l)%nat -> length (blit l o x) = length l.
  Proof. intros H. unfold blit. rewrite !length_app, length_take, length_drop. lia. Qed.

Lemma lookup_sub l o n i : (i < n)%nat -> sub l o n !! i = l !! (o + i)%nat.
  Proof. intros H. unfold sub. rewrite lookup_take_lt by lia. apply lookup_drop. Qed.
Lemma lookup_blit l o x i : (o + length x <= length l)%nat ->
    blit l o x !! i =
      if decide (o <= i < o + length x)%nat then x !! (i - o)%nat else l !! i.
  Proof.
    intros H. unfold blit. assert (length (take o l) = o) as Ht by (rewrite length_take; lia).
    case_decide.
    - rewrite lookup_app_r by lia. rewrite lookup_app_l by lia. by rewrite Ht.
    - destruct (decide (i < o)%nat).
      + rewrite lookup_app_l by lia. by apply lookup_take_lt.
      + rewrite lookup_app_r by lia. rewrite lookup_app_r by lia.
        rewrite Ht, lookup_drop. f_equal. lia.
  Qed.

Lemma list_eq_lookup l1 l2 : (forall i, l1 !! i = l2 !! i) -> l1 = l2.
  Proof. apply list_eq. Qed.

Lemma lookup_sub_ge l o n i : (n <= i)%nat -> sub l o n !! i = None.
  Proof. intros H. unfold sub. by apply lookup_take_ge. Qed.

Lemma sub_blit_same l o x : (o + length x <= length l)%nat ->
    sub (blit l o x) o (length x) = x.
  Proof.
    intros H. apply list_eq. intros i. destruct (decide (i < length x)%nat).
    - rewrite lookup_sub, lookup_blit by lia. case_decide; [|lia]. f_equal. lia.
    - rewrite lookup_sub_ge by lia. symmetry. apply lookup_ge_None_2. lia.
  Qed.
Lemma sub_blit_other l o x o' n : (o + length x <= length l)%nat ->
    (o' + n <= o \/ o + length x <= o')%nat ->
    sub (blit l o x) o' n = sub l o' n.
  Proof.
    intros H Hd. apply list_eq. intros i. destruct (decide (i < n)%nat).
    - rewrite !lookup_sub, lookup_blit by lia. case_decide; [lia|done].
    - by rewrite !lookup_sub_ge by lia.
  Qed.
Lemma blit_sub_id l o n : (o + n <= length l)%nat -> blit l o (sub l o n) = l.
  Proof.
    intros H. apply list_eq. intros i. rewrite lookup_blit by (rewrite length_sub; lia).
    rewrite length_sub by lia. case_decide; [|done]. rewrite lookup_sub by lia. f_equal. lia.
  Qed.
Lemma sub_all l n : n = length l -> sub l 0 n = l.
  Proof. intros ->. unfold sub. by rewrite drop_0, firstn_all. Qed.
Lemma blit_all l x : length x = length l -> blit l 0 x = x.
  Proof. intros H. unfold blit. by rewrite take_0, Nat.add_0_l, H, drop_all, app_nil_r. Qed.
Lemma sub_sub l o n o' n' : (o' + n' <= n)%nat -> sub (sub l o n) o' n' = sub l (o + o') n'.
  Proof.
    intros H. apply list_eq. intros i. destruct (decide (i < n')%nat).
    - rewrite !lookup_sub by lia. f_equal. lia.
    - by rewrite !lookup_sub_ge by lia.
  Qed.
Lemma sub_app l o n1 n2 : sub l o (n1 + n2) = sub l o n1 ++ sub l (o + n1) n2.
  Proof.
    unfold sub. rewrite <-drop_drop. revert n1. induction (drop o l) as [|a d IH]; intros n1.
    - by rewrite drop_nil, !take_nil.
    - destruct n1 as [|n1]; cbn; [done|]. by rewrite IH.
  Qed.
End slices.

(** ** Little-endian integers *)

Fixpoint le (n : nat) (v : Z) : list Z :=
  match n with O => [] | S n => u8 v :: le n (Z.shiftr v 8) end.
Fixpoint of_le (l : list Z) : Z :=
  match l with [] => 0 | b :: l => b + 256 * of_le l end.

Lemma length_le n v : length (le n v) = n.
Proof. revert v. induction n; intros v; cbn; auto. Qed.

Lemma of_le_le n v : of_le (le n v) = v mod 2 ^ (8 * Z.of_nat n).
Proof.
  revert v. induction n as [|n IH]; intros v; cbn [le of_le].
  - by rewrite Z.mod_1_r.
  - rewrite IH, Z.shiftr_div_pow2 by lia. unfold u8.
    replace (8 * Z.of_nat (S n)) with (8 + 8 * Z.of_nat n) by lia.
    rewrite Z.pow_add_r by lia. rewrite Z.rem_mul_r; [done|lia|].
    apply Z.pow_pos_nonneg; lia.
Qed.

Definition bytes_ok (l : list Z) : Prop := Forall (fun b => 0 <= b < 256) l.

Lemma of_le_range l : bytes_ok l -> 0 <= of_le l < 2 ^ (8 * Z.of_nat (length l)).
Proof.
  induction 1 as [|b l Hb _ IH]; cbn [of_le length]; [lia|].
  replace (8 * Z.of_nat (S (length l))) with (8 + 8 * Z.of_nat (length l)) by lia.
  rewrite Z.pow_add_r by lia. lia.
Qed.

Lemma le_of_le l n : bytes_ok l -> n = length l -> le n (of_le l) = l.
Proof.
  intros Hl ->. induction Hl as [|b l Hb Hl IH]; cbn [of_le length le]; [done|].
  f_equal.
  - unfold u8. change (2 ^ 8) with 256. rewrite Z.mul_comm, Z_mod_plus_full. by apply Z.mod_small.
  - rewrite Z.shiftr_div_pow2 by lia. change (2 ^ 8) with 256.
    rewrite Z.mul_comm, Z_div_plus_full by lia. rewrite Z.div_small by lia. exact IH.
Qed.

Lemma le_bytes n v : bytes_ok (le n v).
Proof.
  revert v. induction n; intros v; cbn; [constructor|].
  constructor; [apply Z.mod_pos_bound; lia|apply IHn].
Qed.

Lemma blit_bytes l o x : bytes_ok l -> bytes_ok x -> bytes_ok (blit l o x).
Proof.
  intros Hl Hx. unfold bytes_ok, blit. rewrite !Forall_app.
  split; [by apply Forall_take|]. split; [done|by apply Forall_drop].
Qed.
Lemma sub_bytes l o n : bytes_ok l -> bytes_ok (sub l o n).
Proof. intros Hl. by apply Forall_take, Forall_drop. Qed.

(** A field of [n] bytes at offset [o]: [None] outside the array. *)
Definition ldn (n : nat) (l : list Z) (o : Z) : option Z :=
  if (0 <=? o) && (o + Z.of_nat n <=? Z.of_nat (length l))
  then Some (of_le (sub l (Z.to_nat o) n)) else None.
Definition stn (n : nat) (l : list Z) (o v : Z) : option (list Z) :=
  if (0 <=? o) && (o + Z.of_nat n <=? Z.of_nat (length l))
  then Some (blit l (Z.to_nat o) (le n v)) else None.
Definition ld8 := ldn 1.
Definition st8 := stn 1.
Definition ld16 := ldn 2.
Definition st16 := stn 2.
Definition ld32 := ldn 4.
Definition st32 := stn 4.

Section fields.
  Variables (n : nat) (l : list Z) (o : Z).
  Hypothesis Ho : 0 <= o /\ o + Z.of_nat n <= Z.of_nat (length l).

Lemma ldn_in : ldn n l o = Some (of_le (sub l (Z.to_nat o) n)).
  Proof using Ho.
    unfold ldn. destruct (Z.leb_spec 0 o), (Z.leb_spec (o + Z.of_nat n) (Z.of_nat (length l)));
      done || lia.
  Qed.
Lemma stn_in v : stn n l o v = Some (blit l (Z.to_nat o) (le n v)).
  Proof using Ho.
    unfold stn. destruct (Z.leb_spec 0 o), (Z.leb_spec (o + Z.of_nat n) (Z.of_nat (length l)));
      done || lia.
  Qed.
Lemma length_stn v : length (blit l (Z.to_nat o) (le n v)) = length l.
  Proof using Ho. apply length_blit. rewrite length_le. lia. Qed.
Lemma ldn_stn v : ldn n (blit l (Z.to_nat o) (le n v)) o = Some (v mod 2 ^ (8 * Z.of_nat n)).
  Proof using Ho.
    unfold ldn. rewrite length_stn.
    destruct (Z.leb_spec 0 o), (Z.leb_spec (o + Z.of_nat n) (Z.of_nat (length l))); try lia.
    cbn [andb]. f_equal. rewrite <-of_le_le. f_equal.
    rewrite <-(length_le n v) at 2. apply sub_blit_same. rewrite length_le. lia.
  Qed.
Lemma ldn_stn_other n' o' v : o' + Z.of_nat n' <= o \/ o + Z.of_nat n <= o' ->
    ldn n' (blit l (Z.to_nat o) (le n v)) o' = ldn n' l o'.
  Proof using Ho.
    intros Hd. unfold ldn. rewrite length_stn.
    destruct (Z.leb_spec 0 o'); cbn [andb]; [|done].
    destruct (Z.leb_spec (o' + Z.of_nat n') (Z.of_nat (length l))); [|done].
    do 2 f_equal. apply sub_blit_other; rewrite length_le; lia.
  Qed.
End fields.
