(* ===== verification/KString.v ===== *)
(** * The kernel string library (src/src/lib/string.c)

    Every routine is translated over a byte memory [mem], a finite map from
    addresses to bytes; an access outside the mapped addresses is undefined.
    On AArch64 [char] is unsigned, so a char is a byte value 0..255.  C
    pointers are addresses in [Z]; loops run under [loop] with a bound taken
    from the count argument or, for the loops that scan for a NUL, from the
    number of mapped bytes, which a scan of consecutive addresses cannot
    exceed.  Lengths are kept as [Z]: an [int] counter would need an object of
    2 GiB to overflow. *)

From S2P Require Import Prelude.

Abbreviation mem := (gmap Z Z).

Module Mem.
  (** a byte load and a byte store *)
Definition load8 (a : Z) : M mem Z := deref (fun m => m !! a).
Definition store8 (a v : Z) : M mem unit := fun m =>
    match m !! a with Some _ => Done tt (<[a := u8 v]> m) | None => Undef end.
  (** an aligned 32-bit little-endian store *)
Definition store32 (a v : Z) : M mem unit :=
    if a mod 4 =? 0 then
      store8 a v ;;
      store8 (a + 1) (Z.shiftr v 8) ;;
      store8 (a + 2) (Z.shiftr v 16) ;;
      store8 (a + 3) (Z.shiftr v 24)
    else undef.

  (** the bytes of [l] are at address [a] *)
Definition bytes_at (m : mem) (a : Z) (l : list Z) : Prop :=
    forall i x, l !! i = Some x -> m !! (a + Z.of_nat i) = Some x.
Definition mapped (m : mem) (a : Z) (n : nat) : Prop :=
    forall i, (i < n)%nat -> is_Some (m !! (a + Z.of_nat i)).
Fixpoint write_bytes (m : mem) (a : Z) (l : list Z) : mem :=
    match l with
    | [] => m
    | x :: l => <[a := x]> (write_bytes m (a + 1) l)
    end.
  (** a NUL-terminated string with contents [s] *)
Definition cstr (m : mem) (a : Z) (s : list Z) : Prop :=
    bytes_at m a (s ++ [0]) /\ 0 ∉ s.

Lemma lookup_write_bytes m a l k :
    write_bytes m a l !! k =
      if decide (a <= k < a + Z.of_nat (length l))
      then l !! Z.to_nat (k - a) else m !! k.
  Proof.
    revert a. induction l as [|x l IH]; intros a; cbn [write_bytes length].
    { case_decide; [lia|done]. }
    destruct (decide (a = k)) as [->|Hne].
    - rewrite lookup_insert_eq, Z.sub_diag. case_decide; [done|lia].
    - rewrite lookup_insert_ne, IH by done.
      repeat case_decide; try lia; try done.
      by replace (Z.to_nat (k - a)) with (S (Z.to_nat (k - (a + 1)))) by lia.
  Qed.

Lemma write_bytes_app m a l1 l2 :
    write_bytes m a (l1 ++ l2) =
      write_bytes (write_bytes m (a + Z.of_nat (length l1)) l2) a l1.
  Proof.
    revert a. induction l1 as [|x l1 IH]; intros a; cbn [app write_bytes length].
    - by rewrite Z.add_0_r.
    - rewrite IH. do 3 f_equal. lia.
  Qed.

Lemma write_bytes_comm m a k l x :
    ~ (a <= k < a + Z.of_nat (length l)) ->
    write_bytes (<[k := x]> m) a l = <[k := x]> (write_bytes m a l).
  Proof.
    intros Hk. apply map_eq; intros j. rewrite lookup_write_bytes.
    destruct (decide (k = j)) as [->|];
      rewrite ?lookup_insert_eq, ?lookup_insert_ne, ?lookup_write_bytes by done;
      case_decide; done || lia.
  Qed.

Lemma write_bytes_snoc m a l x :
    write_bytes (<[a + Z.of_nat (length l) := x]> m) a l =
      write_bytes m a (l ++ [x]).
  Proof. by rewrite write_bytes_app. Qed.

Lemma write_bytes_cons m a x l :
    write_bytes (<[a := x]> m) (a + 1) l = write_bytes m a (x :: l).
  Proof. apply write_bytes_comm. lia. Qed.

Lemma mapped_write m a n b l :
    mapped m a n -> mapped (write_bytes m b l) a n.
  Proof.
    intros Hm i Hi. rewrite lookup_write_bytes. case_decide; [|by apply Hm].
    apply lookup_lt_is_Some. lia.
  Qed.

Lemma mapped_insert m a n k x : mapped m a n -> mapped (<[k := x]> m) a n.
  Proof. exact (mapped_write m a n k [x]). Qed.

Lemma mapped_S m a n :
    mapped m a (S n) <-> is_Some (m !! a) /\ mapped m (a + 1) n.
  Proof.
    split.
    - intros Hm. split.
      + specialize (Hm 0%nat). rewrite Z.add_0_r in Hm. apply Hm. lia.
      + intros i Hi. specialize (Hm (S i)).
        replace (a + 1 + Z.of_nat i) with (a + Z.of_nat (S i)) by lia.
        apply Hm. lia.
    - intros [H0 Hm] [|i] Hi; [by rewrite Z.add_0_r|].
      replace (a + Z.of_nat (S i)) with (a + 1 + Z.of_nat i) by lia.
      apply Hm. lia.
  Qed.

Lemma bytes_at_cons m a x l :
    bytes_at m a (x :: l) <-> m !! a = Some x /\ bytes_at m (a + 1) l.
  Proof.
    split.
    - intros Hb. split.
      + specialize (Hb 0%nat x). rewrite Z.add_0_r in Hb. by apply Hb.
      + intros i y Hi.
        replace (a + 1 + Z.of_nat i) with (a + Z.of_nat (S i)) by lia.
        by apply Hb.
    - intros [H0 Hb] [|i] y Hi; cbn in Hi.
      + rewrite Z.add_0_r. congruence.
      + replace (a + Z.of_nat (S i)) with (a + 1 + Z.of_nat i) by lia.
        by apply Hb.
  Qed.

Lemma bytes_at_mapped m a l : bytes_at m a l -> mapped m a (length l).
  Proof.
    intros Hb i Hi. destruct (l !! i) as [x|] eqn:E.
    - rewrite (Hb i x E). eauto.
    - apply lookup_ge_None in E. lia.
  Qed.

Lemma bytes_at_nil m a : bytes_at m a [].
  Proof. by intros i x. Qed.

Lemma bytes_at_app m a l1 l2 :
    bytes_at m a (l1 ++ l2) <->
      bytes_at m a l1 /\ bytes_at m (a + Z.of_nat (length l1)) l2.
  Proof.
    revert a. induction l1 as [|x l1 IH]; intros a; cbn [app length].
    - rewrite Z.add_0_r. split; [split; [apply bytes_at_nil|done] | by intros [_ ?]].
    - rewrite !bytes_at_cons, IH.
      replace (a + Z.of_nat (S (length l1))) with (a + 1 + Z.of_nat (length l1)) by lia.
      tauto.
  Qed.

Lemma bytes_at_size m a l : bytes_at m a l -> (length l <= size m)%nat.
  Proof.
    revert m a. induction l as [|x l IH]; intros m a Hb; cbn; [lia|].
    apply bytes_at_cons in Hb as [Ha Hb].
    assert (bytes_at (delete a m) (a + 1) l) as Hd.
    { intros i y Hi. rewrite lookup_delete_ne by lia. by apply Hb. }
    apply IH in Hd. rewrite (map_size_delete_Some (M := gmap Z)) in Hd by eauto.
    pose proof (map_size_ne_0_lookup_2 (M := gmap Z) m a (mk_is_Some _ _ Ha)). lia.
  Qed.

Lemma wp_load8 a x Q (m : mem) : m !! a = Some x -> Q x m -> wp (load8 a) Q m.
  Proof. apply wp_deref. Qed.

Lemma wp_store8 a v Q (m : mem) :
    is_Some (m !! a) -> Q tt (<[a := u8 v]> m) -> wp (store8 a v) Q m.
  Proof. unfold wp, store8. intros [x ->]. done. Qed.
End Mem.
Export Mem.

(** ** The routines of lib/string.c *)

Definition memset (dst v n : Z) : M mem Z :=
  let c := Z.land v 0xff in
  let val := u32 (Z.lor (Z.lor (Z.lor (Z.shiftl c 24) (Z.shiftl c 16))
                               (Z.shiftl c 8)) c) in
  (* set bytes before whole uint32 *)
  '(p, n) ← loop (S (Z.to_nat n)) (fun '(p, n) =>
    if (0 <? n) && negb (u64 p mod 4 =? 0)
    then store8 p c ;; mret (inl (p + 1, n - 1))
    else mret (inr (p, n))) (dst, n);
  (* set memory 4 bytes a time *)
  '(p4, n) ← loop (S (Z.to_nat n)) (fun '(p4, n) =>
    if 4 <=? n
    then store32 p4 val ;; mret (inl (p4 + 4, n - 4))
    else mret (inr (p4, n))) (p, n);
  (* set leftover one byte a time *)
  loop (S (Z.to_nat n)) (fun '(p, n) =>
    if 0 <? n
    then store8 p c ;; mret (inl (p + 1, n - 1))
    else mret (inr dst)) (p4, n).

(** returns [pout - 1]: the last byte read, whether or not it matched *)
Definition memchr (ptr value num : Z) : M mem Z :=
  loop (S (Z.to_nat num)) (fun '(pout, num) =>
    if num =? 0 then mret (inr (pout - 1)) else
    x ← load8 pout;
    if x =? u8 value then mret (inr (pout + 1 - 1))
    else mret (inl (pout + 1, num - 1))) (ptr, num).

Definition memcmp (v1 v2 n : Z) : M mem Z :=
  loop (S (Z.to_nat n)) (fun '(s1, s2, n) =>
    if negb (0 <? n) then mret (inr 0) else
    a ← load8 s1; b ← load8 s2;
    if negb (a =? b) then mret (inr (a - b))
    else mret (inl (s1 + 1, s2 + 1, n - 1))) (v1, v2, n).

Definition memmove (dst src n : Z) : M mem Z :=
  if (src <? dst) && (dst <? src + n) then
    loop (S (Z.to_nat n)) (fun '(d, s, n) =>
      if 0 <? n
      then x ← load8 (s - 1); store8 (d - 1) x ;; mret (inl (d - 1, s - 1, n - 1))
      else mret (inr dst)) (dst + n, src + n, n)
  else
    loop (S (Z.to_nat n)) (fun '(d, s, n) =>
      if 0 <? n
      then x ← load8 s; store8 d x ;; mret (inl (d + 1, s + 1, n - 1))
      else mret (inr dst)) (dst, src, n).

Definition memcpy (dst src n : Z) : M mem Z := memmove dst src n.

Definition strncmp (p q n : Z) : M mem Z :=
  loop (S (Z.to_nat n)) (fun '(p, q, n) =>
    if n =? 0 then mret (inr 0) else
    a ← load8 p;
    b ← load8 q;
    if negb (a =? 0) && (a =? b) then mret (inl (p + 1, q + 1, n - 1))
    else mret (inr (a - b))) (p, q, n).

(** [while (n-- > 0 && ( *s++ = *t++ ) != 0);] followed by the padding loop *)
Definition strncpy (s t n : Z) : M mem Z :=
  '(s1, n1) ← loop (S (Z.to_nat n)) (fun '(s, t, n) =>
    if 0 <? n then
      x ← load8 t; store8 s x ;;
      if negb (x =? 0) then mret (inl (s + 1, t + 1, n - 1))
      else mret (inr (s + 1, n - 1))
    else mret (inr (s, n - 1))) (s, t, n);
  loop (S (Z.to_nat n1)) (fun '(s', n) =>
    if 0 <? n then store8 s' 0 ;; mret (inl (s' + 1, n - 1))
    else mret (inr s)) (s1, n1).

Definition safestrcpy (s t n : Z) : M mem Z :=
  if n <=? 0 then mret s else
  s1 ← loop (S (Z.to_nat n)) (fun '(s, t, n) =>
    let n := n - 1 in
    if 0 <? n then
      x ← load8 t; store8 s x ;;
      if negb (x =? 0) then mret (inl (s + 1, t + 1, n)) else mret (inr (s + 1))
    else mret (inr s)) (s, t, n);
  store8 s1 0 ;; mret s.

Definition strnlen (s maxlen : Z) : M mem Z :=
  loop (S (Z.to_nat maxlen)) (fun n =>
    if n <? maxlen then
      x ← load8 (s + n); if negb (x =? 0) then mret (inl (n + 1)) else mret (inr n)
    else mret (inr n)) 0.

Definition strlen (s : Z) : M mem Z :=
  fuel ← gets (fun m : mem => S (size m));
  loop fuel (fun n =>
    x ← load8 (s + n); if negb (x =? 0) then mret (inl (n + 1)) else mret (inr n)) 0.

(** searches backwards from the NUL, with no test for the start of [str] *)
Definition strrchr (str character : Z) : M mem Z :=
  n ← strlen str;
  fuel ← gets (fun m : mem => S (size m));
  loop fuel (fun lchar =>
    x ← load8 lchar;
    if negb (x =? u8 character) then mret (inl (lchar - 1)) else mret (inr lchar))
    (str + n).

(** searches forwards, with no test for the NUL *)
Definition strchr (str character : Z) : M mem Z :=
  fuel ← gets (fun m : mem => S (size m));
  loop fuel (fun p =>
    x ← load8 p;
    if negb (x =? u8 character) then mret (inl (p + 1)) else mret (inr p)) str.

(** The digit value of a character, [None] where the loop of strtoul breaks. *)
Definition strtoul_digit (base c : Z) : option Z :=
  let lc := Z.lor c 0x20 in
  let val := if (48 <=? c) && (c <=? 57) then Some (c - 48)
             else if (97 <=? lc) && (lc <=? 102) then Some (lc - 97 + 10)
             else None in
  match val with
  | Some v => if base <=? v then None else Some v
  | None => None
  end.

(** one iteration of the loop of strtoul *)
Definition strtoul_body (base : Z) : Z * Z -> M mem (Z * Z + Z * Z) :=
  fun '(res, p) =>
    c ← load8 p;
    if c =? 0 then mret (inr (res, p)) else
    match strtoul_digit (u32 base) c with
    | None => mret (inr (res, p + 1))
    | Some val => mret (inl (u64 (res * base + val), p + 1))
    end.

(** [res] is never initialised in the source: its first value [res0] is an
    argument of the model.  Returns the result and the final [p]. *)
Definition strtoul (res0 str base : Z) : M mem (Z * Z) :=
  fuel ← gets (fun m : mem => S (size m));
  loop fuel (strtoul_body base) (res0, str).

(** ** memset *)

(** The four bytes of the fill word are the fill byte. *)
Lemma fill_word_bytes c k :
  0 <= c < 256 -> k ∈ [0; 8; 16; 24] ->
  u8 (Z.shiftr (u32 (Z.lor (Z.lor (Z.lor (Z.shiftl c 24) (Z.shiftl c 16))
                                  (Z.shiftl c 8)) c)) k) = c.
Proof.
  intros Hc Hk. assert (c = c mod 2 ^ 8) as Ec by (symmetry; apply Z.mod_small; lia).
  assert (0 <= k <= 24 /\ (8 | k)) as [Hk0 [j Hj]].
  { repeat (apply elem_of_cons in Hk as [->|Hk];
      [split; [lia|by apply Z.mod_divide]|]). by apply elem_of_nil in Hk. }
  unfold u8, u32. apply Z.bits_inj_iff'. intros i Hi.
  destruct (Z.ltb_spec i 8) as [Hi8|Hi8].
  - rewrite Z.mod_pow2_bits_low by lia. rewrite Z.shiftr_spec by lia.
    rewrite Z.mod_pow2_bits_low by lia. rewrite !Z.lor_spec, !Z.shiftl_spec by lia.
    assert (forall t, t < 0 \/ 8 <= t -> Z.testbit c t = false) as Hout.
    { intros t [?|?]; [by apply Z.testbit_neg_r|]. rewrite Ec.
      apply Z.mod_pow2_bits_high. lia. }
    assert (j = 0 \/ j = 1 \/ j = 2 \/ j = 3) as Hj4 by lia.
    destruct Hj4 as [->|[->|[->| ->]]]; subst k;
      repeat match goal with
      | |- context [Z.testbit c ?t] =>
          assert_fails (constr_eq t i);
          first [rewrite (Hout t) by lia | replace t with i by lia]
      end; by destruct (Z.testbit c i).
  - rewrite Z.mod_pow2_bits_high by lia. rewrite Ec.
    symmetry. apply Z.mod_pow2_bits_high. lia.
Qed.

Lemma wp_store32_fill c p n (m : mem) Q :
  0 <= c < 256 -> p mod 4 = 0 -> mapped m p (4 + n) ->
  Q tt (write_bytes m p (replicate 4 c)) ->
  wp (store32 p (u32 (Z.lor (Z.lor (Z.lor (Z.shiftl c 24) (Z.shiftl c 16))
                                    (Z.shiftl c 8)) c))) Q m.
Proof.
  intros Hc Hp Hm HQ. unfold store32. rewrite Hp. cbn [Z.eqb].
  assert (forall i, (i < 4)%nat -> is_Some (m !! (p + Z.of_nat i))) as H4.
  { intros i Hi. apply Hm. lia. }
  pose proof (H4 0%nat ltac:(lia)) as M0. rewrite Z.add_0_r in M0.
  pose proof (H4 1%nat ltac:(lia)) as M1. pose proof (H4 2%nat ltac:(lia)) as M2.
  pose proof (H4 3%nat ltac:(lia)) as M3.
  assert (forall k, k ∈ [8; 16; 24] -> u8 (Z.shiftr (u32 (Z.lor (Z.lor (Z.lor (Z.shiftl c 24) (Z.shiftl c 16))
                                    (Z.shiftl c 8)) c)) k) = c) as Hb.
  { intros k Hk. apply fill_word_bytes; [done|]. set_solver. }
  pose proof (fill_word_bytes c 0 Hc ltac:(set_solver)) as Hb0.
  rewrite Z.shiftr_0_r in Hb0.
  do 4 (try wp_step; apply wp_store8; [rewrite ?lookup_insert_ne by lia; done|]).
  rewrite Hb0, !Hb by set_solver.
  replace (<[p + 3 := c]> _) with (write_bytes m p (replicate 4 c)); [done|].
  cbn [replicate write_bytes].
  apply map_eq; intros j. replace (p + 1 + 1) with (p + 2) by lia.
  replace (p + 2 + 1) with (p + 3) by lia.
  repeat match goal with
  | |- context [<[?a := _]> _ !! j] =>
      destruct (decide (a = j)) as [<-|];
      [rewrite ?lookup_insert_eq; repeat rewrite lookup_insert_ne by lia;
       rewrite ?lookup_insert_eq; try done | rewrite !(lookup_insert_ne _ a) by done]
  end; done.
Qed.

(** One invariant serves the three loops of memset: [k] bytes are filled. *)
Definition fill_inv (m : mem) (dst c n : Z) (v : Z * Z) (m' : mem) : Prop :=
  exists k : nat, Z.of_nat k <= Z.max 0 n /\ v = (dst + Z.of_nat k, n - Z.of_nat k) /\
    m' = write_bytes m dst (replicate k c).

Lemma write_replicate_app m a c k1 k2 :
  write_bytes (write_bytes m a (replicate k1 c)) (a + Z.of_nat k1) (replicate k2 c) =
    write_bytes m a (replicate (k1 + k2) c).
Proof.
  apply map_eq; intros j. rewrite !lookup_write_bytes, !length_replicate.
  repeat case_decide; try lia; try done; rewrite !lookup_replicate_2 by lia; done.
Qed.

Lemma fill_inv_store (m : mem) dst c n p n1 m1 Q :
  0 <= c < 256 -> mapped m dst (Z.to_nat n) -> fill_inv m dst c n (p, n1) m1 ->
  0 < n1 -> (forall m2, fill_inv m dst c n (p + 1, n1 - 1) m2 -> Q tt m2) ->
  wp (store8 p c) Q m1.
Proof.
  intros Hc Hm (k & Hk & [= -> ->] & ->) Hn HQ. apply wp_store8.
  { apply (mapped_write _ _ _ _ _ Hm). lia. }
  apply HQ. exists (S k). split; [lia|]. split; [f_equal; lia|].
  unfold u8. rewrite Z.mod_small by done.
  rewrite <-Nat.add_1_r, <-write_replicate_app. done.
Qed.

Lemma fill_inv_store32 (m : mem) dst c n p n1 m1 Q :
  0 <= c < 256 -> mapped m dst (Z.to_nat n) -> fill_inv m dst c n (p, n1) m1 ->
  4 <= n1 -> p mod 4 = 0 ->
  (forall m2, fill_inv m dst c n (p + 4, n1 - 4) m2 -> Q tt m2) ->
  wp (store32 p (u32 (Z.lor (Z.lor (Z.lor (Z.shiftl c 24) (Z.shiftl c 16))
                                   (Z.shiftl c 8)) c))) Q m1.
Proof.
  intros Hc Hm (k & Hk & [= -> ->] & ->) Hn Hal HQ.
  apply wp_store32_fill with (n := 0%nat); [done|done| |].
  { intros i Hi. replace (dst + Z.of_nat k + Z.of_nat i) with (dst + Z.of_nat (k + i)) by lia.
    apply (mapped_write _ _ _ _ _ Hm). lia. }
  apply HQ. exists (k + 4)%nat. split; [lia|]. split; [f_equal; lia|].
  by rewrite write_replicate_app.
Qed.

Lemma u64_mod4 p : u64 p mod 4 = p mod 4.
Proof.
  unfold u64. change (2 ^ 64) with (4 * 2 ^ 62). rewrite Z.rem_mul_r by lia.
  rewrite (Z.mul_comm 4), Z_mod_plus_full. by apply Z.mod_mod.
Qed.

Lemma memset_fill (m : mem) dst v n :
  mapped m dst (Z.to_nat n) ->
  memset dst v n m =
    Done dst (write_bytes m dst (replicate (Z.to_nat n) (v mod 256))).
Proof.
  intros Hm. set (Q := fun (r : Z) (m' : mem) => r = dst /\
    m' = write_bytes m dst (replicate (Z.to_nat n) (v mod 256))).
  enough (wp (memset dst v n) Q m) as Hwp
    by (apply wp_done in Hwp as (a & s' & E & -> & ->); exact E).
  unfold memset. replace (Z.land v 0xff) with (v mod 256)
    by (symmetry; apply (Z.land_ones v 8); lia).
  set (c := v mod 256). assert (0 <= c < 256) as Hc by (apply Z.mod_pos_bound; lia).
  wp_step.
  apply wp_loop with (Inv := fill_inv m dst c n) (mu := fun v => Z.to_nat v.2); [|cbn; lia|].
  { exists 0%nat. split; [lia|]. split; [f_equal; lia|done]. }
  intros [p1 n1] m1 HI1. cbn [snd].
  destruct (Z.ltb_spec 0 n1); cbn [andb]; [destruct (Z.eqb_spec (u64 p1 mod 4) 0); cbn [negb]|].
  2: { wp_step. eapply fill_inv_store; [done|done|done|done|].
       intros m2 H2. wp_step. cbn [snd]. split; [done|lia]. }
  (* the head loop is left with [n1 <= 0] or an aligned pointer *)
  all: wp_step; wp_step;
    apply wp_loop with (mu := fun v => Z.to_nat v.2)
      (Inv := fun v m' => fill_inv m dst c n v m' /\ (4 <= v.2 -> v.1 mod 4 = 0));
    [split; [done|cbn; try lia; intros; rewrite <-u64_mod4; done] | cbn; lia |].
  all: intros [p2 n2] m2 [HI2 Hal]; cbn [fst snd] in *; destruct (Z.leb_spec 4 n2).
  1, 3: wp_step; eapply fill_inv_store32; [done|done|done|done|by apply Hal|];
    intros m3 H3; wp_step; cbn [fst snd]; split; [split; [done|]|lia];
    intros _; rewrite <-(Z_mod_plus_full (p2 + 4) (-1) 4);
    replace (p2 + 4 + -1 * 4) with p2 by lia; by apply Hal.
  all: wp_step;
    apply wp_loop with (Inv := fill_inv m dst c n) (mu := fun v => Z.to_nat v.2);
    [done | cbn; lia |].
  all: intros [p3 n3] m3 HI3; cbn [snd]; destruct (Z.ltb_spec 0 n3).
  1, 3: wp_step; eapply fill_inv_store; [done|done|done|done|];
    intros m4 H4; wp_step; cbn [snd]; split; [done|lia].
  all: wp_step; unfold Q; destruct HI3 as (k & Hk & [= -> ->] & ->);
    split; [done|]; do 2 f_equal; lia.
Qed.

(** ** memmove *)

Definition is_byte (x : Z) : Prop := 0 <= x < 256.

Lemma u8_byte x : is_byte x -> u8 x = x.
Proof. apply Z.mod_small. Qed.

Lemma bytes_at_write_disjoint (m : mem) a l b l' :
  (a + Z.of_nat (length l) <= b \/ b + Z.of_nat (length l') <= a) ->
  bytes_at m a l -> bytes_at (write_bytes m b l') a l.
Proof.
  intros Hd Hb i x Hi. pose proof (lookup_lt_Some _ _ _ Hi).
  rewrite lookup_write_bytes. case_decide; [lia|]. by apply Hb.
Qed.

(** Forward copy, right when no source byte is overwritten before it is read. *)
Lemma wp_copy_forward (m : mem) dst src l n :
  n = Z.of_nat (length l) -> bytes_at m src l -> Forall is_byte l ->
  mapped m dst (length l) -> dst <= src \/ src + n <= dst ->
  wp (loop (S (Z.to_nat n)) (fun '(d, s, n) =>
        if 0 <? n
        then x ← load8 s; store8 d x ;; mret (inl (d + 1, s + 1, n - 1))
        else mret (inr dst)) (dst, src, n))
     (fun r m' => r = dst /\ m' = write_bytes m dst l) m.
Proof.
  intros -> Hsrc Hby Hdst Hdir.
  apply wp_loop with (mu := fun v => Z.to_nat v.2)
    (Inv := fun v m' => exists k : nat, (k <= length l)%nat /\
      v = (dst + Z.of_nat k, src + Z.of_nat k, Z.of_nat (length l) - Z.of_nat k) /\
      m' = write_bytes m dst (take k l)); [|cbn; lia|].
  { exists 0%nat. rewrite take_0, !Z.add_0_r, Z.sub_0_r. split; [lia|done]. }
  intros v m' (k & Hk & -> & ->). cbn [snd]. destruct (Z.ltb_spec 0 (Z.of_nat (length l) - Z.of_nat k)).
  - destruct (lookup_lt_is_Some_2 l k ltac:(lia)) as [x Hx].
    wp_step. apply wp_load8 with x.
    { rewrite lookup_write_bytes, length_take. case_decide; [lia|]. by apply Hsrc. }
    wp_step. apply wp_store8; [apply (mapped_write _ _ _ _ _ Hdst); lia|]. wp_step.
    split; [|cbn [snd]; lia]. exists (S k). split; [lia|]. split; [do 2 (f_equal; try lia)|].
    rewrite u8_byte by (eapply Forall_lookup_1; eauto).
    rewrite (take_S_r l k x Hx), <-write_bytes_snoc, length_take, Nat.min_l by lia.
    rewrite write_bytes_comm; [done|]. rewrite length_take. lia.
  - wp_step. split; [done|]. by rewrite take_ge by lia.
Qed.

Lemma wp_copy_backward (m : mem) dst src l n :
  n = Z.of_nat (length l) -> bytes_at m src l -> Forall is_byte l ->
  mapped m dst (length l) -> src < dst ->
  wp (loop (S (Z.to_nat n)) (fun '(d, s, n) =>
        if 0 <? n
        then x ← load8 (s - 1); store8 (d - 1) x ;; mret (inl (d - 1, s - 1, n - 1))
        else mret (inr dst)) (dst + n, src + n, n))
     (fun r m' => r = dst /\ m' = write_bytes m dst l) m.
Proof.
  intros -> Hsrc Hby Hdst Hdir.
  apply wp_loop with (mu := fun v => Z.to_nat v.2)
    (Inv := fun v m' => exists k : nat, (k <= length l)%nat /\
      v = (dst + Z.of_nat k, src + Z.of_nat k, Z.of_nat k) /\
      m' = write_bytes m (dst + Z.of_nat k) (drop k l)); [|cbn; lia|].
  { exists (length l). by rewrite drop_ge. }
  intros v m' (k & Hk & -> & ->). cbn [snd]. destruct (Z.ltb_spec 0 (Z.of_nat k)).
  - destruct k as [|k]; [lia|].
    destruct (lookup_lt_is_Some_2 l k ltac:(lia)) as [x Hx].
    replace (src + Z.of_nat (S k) - 1) with (src + Z.of_nat k) by lia.
    replace (dst + Z.of_nat (S k) - 1) with (dst + Z.of_nat k) by lia.
    wp_step. apply wp_load8 with x.
    { rewrite lookup_write_bytes. case_decide; [lia|]. by apply Hsrc. }
    wp_step. apply wp_store8; [apply (mapped_write _ _ _ _ _ Hdst); lia|]. wp_step.
    split; [|cbn [snd]; lia]. exists k. split; [lia|]. split; [f_equal; lia|].
    rewrite u8_byte by (eapply Forall_lookup_1; eauto).
    rewrite (drop_S l x k Hx). cbn [write_bytes].
    by replace (dst + Z.of_nat (S k)) with (dst + Z.of_nat k + 1) by lia.
  - wp_step. assert (k = 0%nat) as -> by lia. rewrite drop_0, Z.add_0_r. done.
Qed.

Lemma memmove_copies (m : mem) dst src l :
  bytes_at m src l -> Forall is_byte l -> mapped m dst (length l) ->
  memmove dst src (Z.of_nat (length l)) m = Done dst (write_bytes m dst l).
Proof.
  intros Hsrc Hby Hdst. set (Q := fun r m' => r = dst /\ m' = write_bytes m dst l).
  enough (wp (memmove dst src (Z.of_nat (length l))) Q m) as Hwp
    by (apply wp_done in Hwp as (a & s' & E & -> & ->); exact E).
  unfold memmove.
  destruct (Z.ltb_spec src dst), (Z.ltb_spec dst (src + Z.of_nat (length l))); cbn [andb].
  - by apply wp_copy_backward.
  - apply wp_copy_forward; auto; lia.
  - apply wp_copy_forward; auto; lia.
  - apply wp_copy_forward; auto; lia.
Qed.

(** ** C strings and fixed-width names *)

(** [name_at m p n l]: the object at [p], read by a routine bounded by [n],
    holds the characters [l], cut by the bound or by a NUL. *)
Definition name_at (m : mem) (p : Z) (n : nat) (l : list Z) : Prop :=
  bytes_at m p l /\ (0 ∉ l) /\
  (length l = n \/ (length l < n)%nat /\ m !! (p + Z.of_nat (length l)) = Some 0).

Lemma cstr_name_at (m : mem) p n s : cstr m p s -> name_at m p n (take n s).
Proof.
  intros [Hb H0]. apply bytes_at_app in Hb as [Hb Hz].
  apply bytes_at_cons in Hz as [Hz _]. split.
  { rewrite <-(take_drop n s) in Hb. by apply bytes_at_app in Hb as [? _]. }
  split.
  { intros Hin. apply H0. rewrite <-(take_drop n s). set_solver. }
  rewrite length_take. destruct (decide (n <= length s)%nat).
  - left. lia.
  - right. rewrite Nat.min_r by lia. split; [lia|done].
Qed.

Lemma name_at_0 (m : mem) p l : name_at m p 0 l -> l = [].
Proof. intros (_ & _ & [H|[H _]]); [by apply nil_length_inv|lia]. Qed.

Lemma name_at_S (m : mem) p n l :
  name_at m p (S n) l ->
  (l = [] /\ m !! p = Some 0) \/
  (exists x l', l = x :: l' /\ x <> 0 /\ m !! p = Some x /\ name_at m (p + 1) n l').
Proof.
  intros (Hb & H0 & Hl). destruct l as [|x l]; cbn in *.
  - left. destruct Hl as [?|[_ Hz]]; [lia|]. by rewrite Z.add_0_r in Hz.
  - right. exists x, l. apply bytes_at_cons in Hb as [Hx Hb].
    apply not_elem_of_cons in H0 as [? H0]. do 3 (split; [done|]).
    split; [done|split; [done|]]. destruct Hl as [?|[? Hz]]; [left; lia|right].
    split; [lia|]. by replace (p + 1 + Z.of_nat (length l)) with (p + Z.of_nat (S (length l))) by lia.
Qed.

Lemma strncmp_names (m : mem) p q n l1 l2 :
  0 <= n -> name_at m p (Z.to_nat n) l1 -> name_at m q (Z.to_nat n) l2 ->
  exists r, strncmp p q n m = Done r m /\ (r = 0 <-> l1 = l2).
Proof.
  unfold strncmp. intros Hn. remember (Z.to_nat n) as k eqn:Ek.
  revert p q n l1 l2 Hn Ek.
  induction k as [|k IH]; intros p q n l1 l2 Hn Ek H1 H2; cbn [loop].
  - destruct (Z.eqb_spec n 0) as [->|]; [|lia].
    apply name_at_0 in H1 as ->, H2 as ->. by exists 0.
  - destruct (Z.eqb_spec n 0); [lia|].
    apply name_at_S in H1 as [[-> Hp]|(x & l1' & -> & Hx & Hp & H1)],
      H2 as [[-> Hq]|(y & l2' & -> & Hy & Hq & H2)];
      unfold mbind, M_bind, mret, M_ret, load8, deref; rewrite Hp, Hq.
    + by exists 0.
    + exists (0 - y). split; [done|]. split; [lia|done].
    + rewrite !(proj2 (Z.eqb_neq x 0)) by done. cbn [negb andb].
      exists (x - 0). split; [done|]. split; [lia|done].
    + rewrite (proj2 (Z.eqb_neq x 0)) by done. cbn [negb andb].
      destruct (Z.eqb_spec x y) as [->|Hne].
      * destruct (IH (p + 1) (q + 1) (n - 1) l1' l2' ltac:(lia) ltac:(lia) H1 H2)
          as (r & Hr & Hiff).
        exists r. split; [exact Hr|]. rewrite Hiff. split; congruence.
      * exists (x - y). split; [done|]. split; [lia|congruence].
Qed.

Lemma strlen_cstr (m : mem) a s :
  cstr m a s -> strlen a m = Done (Z.of_nat (length s)) m.
Proof.
  intros [Hb H0]. set (Q := fun r m' => r = Z.of_nat (length s) /\ m' = m).
  enough (wp (strlen a) Q m) as Hwp
    by (apply wp_done in Hwp as (r & s' & E & -> & ->); exact E).
  pose proof (bytes_at_size _ _ _ Hb) as Hsz. rewrite length_app in Hsz. cbn in Hsz.
  apply wp_bind, wp_gets.
  apply wp_loop with (mu := fun n => (length s - Z.to_nat n)%nat)
    (Inv := fun n m' => 0 <= n <= Z.of_nat (length s) /\ m' = m); [split; [lia|done]|cbn beta; lia|].
  intros n m' [Hn ->].
  destruct (lookup_lt_is_Some_2 (s ++ [0]) (Z.to_nat n)) as [x Hx].
  { rewrite length_app; cbn; lia. }
  wp_step. apply wp_load8 with x.
  { rewrite <-(Hb _ _ Hx). f_equal. lia. }
  apply lookup_app_Some in Hx as [Hx|[Hge Hx]].
  - destruct (Z.eqb_spec x 0) as [->|]; cbn [negb].
    { destruct H0. eapply list_elem_of_lookup_2, Hx. }
    apply lookup_lt_Some in Hx. wp_step. cbn beta. split; [split; [lia|done]|lia].
  - assert (n = Z.of_nat (length s)) as -> by lia.
    replace (Z.to_nat _ - length s)%nat with 0%nat in Hx by lia.
    injection Hx as <-. cbn [Z.eqb negb]. by wp_step.
Qed.

(** [fillpad n l]: the [n]-byte field strncpy leaves for the name [l]. *)
Definition fillpad (n : nat) (l : list Z) : list Z := l ++ replicate (n - length l) 0.

(** Copying the characters of a name from [t], up to the bound or the NUL. *)
Lemma wp_copy_name (m : mem) s t n l :
  0 <= n -> name_at m t (Z.to_nat n) l -> Forall is_byte l ->
  mapped m s (Z.to_nat n) ->
  s + n <= t \/ t + Z.of_nat (length l) < s ->
  wp (loop (S (Z.to_nat n)) (fun '(s, t, n) =>
        if 0 <? n then
          x ← load8 t; store8 s x ;;
          if negb (x =? 0) then mret (inl (s + 1, t + 1, n - 1))
          else mret (inr (s + 1, n - 1))
        else mret (inr (s, n - 1))) (s, t, n))
     (fun r m' => (Z.of_nat (length l) = n /\ r = (s + n, -1) /\ m' = write_bytes m s l) \/
        (Z.of_nat (length l) < n /\
         r = (s + Z.of_nat (length l) + 1, n - Z.of_nat (length l) - 1) /\
         m' = write_bytes m s (l ++ [0]))) m.
Proof.
  intros Hn (Hb & H0 & Hl) Hby Hs Hdisj.
  apply wp_loop with (mu := fun v => Z.to_nat v.2)
    (Inv := fun v m' => exists k : nat, (k <= length l)%nat /\
      v = (s + Z.of_nat k, t + Z.of_nat k, n - Z.of_nat k) /\
      m' = write_bytes m s (take k l)); [|cbn; lia|].
  { exists 0%nat. rewrite take_0, !Z.add_0_r, Z.sub_0_r. split; [lia|done]. }
  intros v m' (k & Hk & -> & ->). cbn [snd].
  destruct (Z.ltb_spec 0 (n - Z.of_nat k)) as [Hlt|Hge].
  - assert (is_Some (write_bytes m s (take k l) !! (s + Z.of_nat k))) as Hdst.
    { apply (mapped_write _ _ _ _ _ Hs). lia. }
    destruct (decide (k = length l)) as [->|Hne].
    + destruct Hl as [?|[_ Hz]]; [lia|].
      wp_step. apply wp_load8 with 0.
      { rewrite lookup_write_bytes, length_take. case_decide; [lia|done]. }
      wp_step. apply wp_store8; [done|]. cbn [Z.eqb negb]. wp_step. right.
      split; [lia|]. split; [f_equal; lia|].
      rewrite firstn_all, write_bytes_app. cbn [write_bytes].
      rewrite write_bytes_comm by lia. done.
    + destruct (lookup_lt_is_Some_2 l k ltac:(lia)) as [x Hx].
      wp_step. apply wp_load8 with x.
      { rewrite lookup_write_bytes, length_take. case_decide; [lia|]. by apply Hb. }
      wp_step. apply wp_store8; [done|].
      destruct (Z.eqb_spec x 0) as [->|]; cbn [negb].
      { destruct H0. eapply list_elem_of_lookup_2, Hx. }
      wp_step. split; [|cbn [snd]; lia]. exists (S k). split; [lia|].
      split; [do 2 (f_equal; try lia)|].
      rewrite u8_byte by (eapply Forall_lookup_1; eauto).
      rewrite (take_S_r l k x Hx), <-write_bytes_snoc, length_take, Nat.min_l by lia.
      rewrite write_bytes_comm; [done|]. rewrite length_take. lia.
  - wp_step. left. assert (Z.of_nat (length l) = n /\ k = length l) as [Hll ->] by lia.
    split; [done|]. split; [f_equal; lia|]. by rewrite firstn_all.
Qed.

Lemma strncpy_field (m : mem) s t n l :
  0 <= n -> name_at m t (Z.to_nat n) l -> Forall is_byte l ->
  mapped m s (Z.to_nat n) -> s + n <= t \/ t + Z.of_nat (length l) < s ->
  strncpy s t n m = Done s (write_bytes m s (fillpad (Z.to_nat n) l)).
Proof.
  intros Hn Hname Hby Hs Hdisj.
  set (Q := fun r m' => r = s /\ m' = write_bytes m s (fillpad (Z.to_nat n) l)).
  enough (wp (strncpy s t n) Q m) as Hwp
    by (apply wp_done in Hwp as (a & s' & E & -> & ->); exact E).
  unfold strncpy. apply wp_bind.
  eapply wp_mono; [by eapply wp_copy_name|]. cbn beta.
  intros [s1 n1] m1 [(Hl & [= -> ->] & ->)|(Hl & [= -> ->] & ->)].
  - cbn. split; [done|]. unfold fillpad.
    rewrite (proj2 (Nat.sub_0_le _ _)) by lia. by rewrite app_nil_r.
  - apply wp_loop with (mu := fun v => Z.to_nat v.2)
      (Inv := fun v m' => exists k : nat,
        v = (s + Z.of_nat (length l + k), n - Z.of_nat (length l + k)) /\
        Z.of_nat (length l + k) <= n /\
        m' = write_bytes m s (l ++ replicate k 0)); [|cbn; lia|].
    { exists 1%nat. split; [f_equal; lia|]. split; [lia|done]. }
    intros v m' (k & -> & Hk & ->). cbn [snd].
    destruct (Z.ltb_spec 0 (n - Z.of_nat (length l + k))).
    + wp_step. apply wp_store8; [apply (mapped_write _ _ _ _ _ Hs); lia|]. wp_step.
      split; [|cbn [snd]; lia]. exists (S k). split; [f_equal; lia|]. split; [lia|].
      rewrite replicate_S_end, app_assoc, <-write_bytes_snoc.
      rewrite length_app, length_replicate, write_bytes_comm; [done|].
      rewrite length_app, length_replicate. lia.
    + wp_step. split; [done|]. unfold fillpad. do 3 f_equal. lia.
Qed.

(** What safestrcpy leaves: the characters that fit and a NUL, and a second
    zero byte when the copy stopped at the source's own NUL. *)
Definition safe_field (n : nat) (l : list Z) : list Z :=
  l ++ replicate (Nat.min 2 (n - length l)) 0.

Lemma safestrcpy_field (m : mem) s t n l :
  0 < n -> name_at m t (Z.to_nat (n - 1)) l -> Forall is_byte l ->
  mapped m s (Z.to_nat n) -> s + n <= t \/ t + Z.of_nat (length l) < s ->
  safestrcpy s t n m = Done s (write_bytes m s (safe_field (Z.to_nat n) l)).
Proof.
  intros Hn (Hb & H0 & Hl) Hby Hs Hdisj.
  set (Q := fun r m' => r = s /\ m' = write_bytes m s (safe_field (Z.to_nat n) l)).
  enough (wp (safestrcpy s t n) Q m) as Hwp
    by (apply wp_done in Hwp as (a & s' & E & -> & ->); exact E).
  unfold safestrcpy. destruct (Z.leb_spec n 0); [lia|]. apply wp_bind.
  apply wp_loop with (mu := fun v => Z.to_nat v.2)
    (Inv := fun v m' => exists k : nat, (k <= length l)%nat /\
      v = (s + Z.of_nat k, t + Z.of_nat k, n - Z.of_nat k) /\
      m' = write_bytes m s (take k l)); [|cbn; lia|].
  { exists 0%nat. rewrite take_0, !Z.add_0_r, Z.sub_0_r. split; [lia|done]. }
  intros v m' (k & Hk & -> & ->). cbn [snd].
  assert (is_Some (write_bytes m s (take k l) !! (s + Z.of_nat k))) as Hdst.
  { apply (mapped_write _ _ _ _ _ Hs). lia. }
  destruct (Z.ltb_spec 0 (n - Z.of_nat k - 1)) as [Hlt|Hge];
    [destruct (decide (k = length l)) as [->|Hne]|].
  - (* the source's NUL is copied, then a second one stored *)
    destruct Hl as [?|[_ Hz]]; [lia|].
    wp_step. apply wp_load8 with 0.
    { rewrite lookup_write_bytes, length_take. case_decide; [lia|done]. }
    wp_step. apply wp_store8; [done|]. cbn [Z.eqb negb]. wp_step. wp_step.
    pose proof (mapped_write _ _ _ s l Hs) as Hm1.
    apply wp_store8.
    { replace (s + Z.of_nat (length l) + 1) with (s + Z.of_nat (S (length l))) by lia.
      rewrite firstn_all. apply (mapped_insert _ _ _ _ _ Hm1). lia. }
    wp_step. split; [done|]. unfold safe_field.
    rewrite Nat.min_l by lia. rewrite firstn_all, write_bytes_app.
    cbn [replicate write_bytes]. rewrite !write_bytes_comm by lia.
    apply insert_insert_ne. lia.
  - destruct (lookup_lt_is_Some_2 l k ltac:(lia)) as [x Hx].
    wp_step. apply wp_load8 with x.
    { rewrite lookup_write_bytes, length_take. case_decide; [lia|]. by apply Hb. }
    wp_step. apply wp_store8; [done|].
    destruct (Z.eqb_spec x 0) as [->|]; cbn [negb].
    { destruct H0. eapply list_elem_of_lookup_2, Hx. }
    wp_step. split; [|cbn [snd]; lia]. exists (S k). split; [lia|].
    split; [do 2 (f_equal; try lia)|].
    rewrite u8_byte by (eapply Forall_lookup_1; eauto).
    rewrite (take_S_r l k x Hx), <-write_bytes_snoc, length_take, Nat.min_l by lia.
    rewrite write_bytes_comm; [done|]. rewrite length_take. lia.
  - assert (k = length l) as -> by lia.
    wp_step. wp_step. apply wp_store8; [done|]. wp_step. split; [done|].
    unfold safe_field. rewrite Nat.min_r by lia.
    replace (Z.to_nat n - length l)%nat with 1%nat by lia. cbn [replicate].
    rewrite firstn_all, <-write_bytes_snoc, write_bytes_comm by lia. done.
Qed.

(** ** strtoul *)

Definition digits_value (base : Z) (vs : list Z) : Z :=
  fold_left (fun r v => r * base + v) vs 0.

Lemma fold_digits base vs r :
  fold_left (fun r v => r * base + v) vs r =
    r * base ^ Z.of_nat (length vs) + digits_value base vs.
Proof.
  unfold digits_value. revert r. induction vs as [|v vs IH]; intros r; cbn [fold_left length].
  - cbn. lia.
  - rewrite IH, (IH (0 * base + v)). rewrite Nat2Z.inj_succ, Z.pow_succ_r by lia. ring.
Qed.

Lemma u64_step base r v : u64 (u64 r * base + v) = u64 (r * base + v).
Proof.
  unfold u64.
  by rewrite <-(Z.add_mod_idemp_l (r mod 2 ^ 64 * base)), Z.mul_mod_idemp_l,
    Z.add_mod_idemp_l by lia.
Qed.

Lemma u64_fold_digits base vs r :
  0 <= r < 2 ^ 64 ->
  fold_left (fun r v => u64 (r * base + v)) vs r = u64 (fold_left (fun r v => r * base + v) vs r).
Proof.
  enough (forall r, fold_left (fun r v => u64 (r * base + v)) vs (u64 r) =
            u64 (fold_left (fun r v => r * base + v) vs r)) as H.
  { intros Hr. rewrite <-H. f_equal. symmetry. by apply Z.mod_small. }
  induction vs as [|v vs IH]; intros r'; cbn [fold_left]; [done|].
  by rewrite u64_step, IH.
Qed.

Lemma strtoul_body_end (m : mem) base res a c :
  0 < base < 2 ^ 32 -> m !! a = Some c -> c = 0 \/ strtoul_digit base c = None ->
  strtoul_body base (res, a) m = Done (inr (res, a + (if c =? 0 then 0 else 1))) m.
Proof.
  intros Hbase Ha Hc. unfold strtoul_body, mbind, M_bind, load8, deref. rewrite Ha.
  assert (u32 base = base) as -> by (apply Z.mod_small; lia).
  destruct (Z.eqb_spec c 0); [by rewrite Z.add_0_r|]. destruct Hc as [?|Hc]; [done|]. by rewrite Hc.
Qed.

Lemma strtoul_body_digit (m : mem) base res a d v :
  0 < base < 2 ^ 32 -> m !! a = Some d -> strtoul_digit base d = Some v ->
  strtoul_body base (res, a) m = Done (inl (u64 (res * base + v), a + 1)) m.
Proof.
  intros Hbase Ha Hd. unfold strtoul_body, mbind, M_bind, load8, deref. rewrite Ha.
  assert (u32 base = base) as -> by (apply Z.mod_small; lia).
  destruct (Z.eqb_spec d 0) as [->|]; [done|]. by rewrite Hd.
Qed.

Lemma strtoul_run (m : mem) fuel res a base ds vs c :
  0 < base < 2 ^ 32 -> (length ds < fuel)%nat ->
  bytes_at m a (ds ++ [c]) ->
  Forall2 (fun d v => strtoul_digit base d = Some v) ds vs ->
  c = 0 \/ strtoul_digit base c = None ->
  loop fuel (strtoul_body base) (res, a) m =
  Done (fold_left (fun r v => u64 (r * base + v)) vs res,
        a + Z.of_nat (length ds) + (if c =? 0 then 0 else 1)) m.
Proof.
  intros Hbase Hf Hb Hds Hc.
  revert fuel res a Hf Hb. induction Hds as [|d v ds vs Hd Hds IH]; intros fuel res a Hf Hb;
    (destruct fuel as [|fuel]; [cbn in Hf; lia|]); cbn [loop fold_left length app] in *;
    apply bytes_at_cons in Hb as [Ha Hb].
  - erewrite bind_done by (by eapply strtoul_body_end). cbn. by rewrite Z.add_0_r.
  - erewrite bind_done by (by eapply strtoul_body_digit). cbn beta iota.
    rewrite IH by (done || lia). do 2 f_equal. lia.
Qed.

Lemma strtoul_value (m : mem) res0 a base ds vs c :
  0 < base < 2 ^ 32 -> 0 <= res0 < 2 ^ 64 ->
  bytes_at m a (ds ++ [c]) ->
  Forall2 (fun d v => strtoul_digit base d = Some v) ds vs ->
  c = 0 \/ strtoul_digit base c = None ->
  strtoul res0 a base m =
    Done (u64 (res0 * base ^ Z.of_nat (length ds) + digits_value base vs),
          a + Z.of_nat (length ds) + (if c =? 0 then 0 else 1)) m.
Proof.
  intros Hbase Hres Hb Hds Hc. unfold strtoul.
  pose proof (bytes_at_size _ _ _ Hb) as Hsz. rewrite length_app in Hsz. cbn in Hsz.
  erewrite bind_done by reflexivity.
  rewrite (strtoul_run m _ res0 a base ds vs c); [|done|lia|done|done|done].
  rewrite u64_fold_digits, fold_digits by done.
  by rewrite (Forall2_length _ _ _ Hds).
Qed.

(** ** The contract of the library *)

Lemma bytes_at_written (m : mem) a l : bytes_at (write_bytes m a l) a l.
Proof.
  intros i x Hi. pose proof (lookup_lt_Some _ _ _ Hi). rewrite lookup_write_bytes.
  case_decide; [|lia]. by replace (Z.to_nat (a + Z.of_nat i - a)) with i by lia.
Qed.

Lemma name_at_write_disjoint (m : mem) p n l b l' :
  (p + Z.of_nat n <= b \/ b + Z.of_nat (length l') <= p) ->
  name_at m p n l -> name_at (write_bytes m b l') p n l.
Proof.
  intros Hd (Hb & H0 & Hl). split; [|split; [done|]].
  - apply bytes_at_write_disjoint; [|done]. destruct Hl as [?|[? _]]; lia.
  - destruct Hl as [?|[Hlt Hz]]; [by left|right]. split; [done|].
    rewrite lookup_write_bytes. case_decide; [lia|done].
Qed.

Lemma fillpad_name (m : mem) s n l :
  0 ∉ l -> (length l <= n)%nat -> name_at (write_bytes m s (fillpad n l)) s n l.
Proof.
  intros H0 Hl. pose proof (bytes_at_written m s (fillpad n l)) as Hb.
  unfold fillpad in *. apply bytes_at_app in Hb as [Hb1 Hb2]. split; [done|]. split; [done|].
  destruct (decide (length l = n)); [by left|right]. split; [lia|].
  specialize (Hb2 0%nat 0). rewrite Z.add_0_r in Hb2. apply Hb2.
  apply lookup_replicate_2. lia.
Qed.

(** memmove copies [n] bytes to the destination and
    returns it, also when source and destination overlap in either direction:
    the destination receives the bytes the source held before the call. *)
Theorem memmove_correct (m : mem) dst src l :
  bytes_at m src l -> Forall is_byte l -> mapped m dst (length l) ->
  exists m', memmove dst src (Z.of_nat (length l)) m = Done dst m' /\
    bytes_at m' dst l /\
    forall a, ~ dst <= a < dst + Z.of_nat (length l) -> m' !! a = m !! a.
Proof.
  intros Hs Hby Hd. eexists. split; [by apply memmove_copies|].
  split; [apply bytes_at_written|]. intros a Ha. rewrite lookup_write_bytes.
  by case_decide.
Qed.

Definition demo_mem : mem := write_bytes (write_bytes ∅ 0 (replicate 8 0)) 100 [97; 98; 99; 0].
Lemma demo_bytes : bytes_at demo_mem 100 [97; 98; 99; 0].
Proof. apply bytes_at_written. Qed.
Lemma demo_mapped : mapped demo_mem 0 8.
Proof. apply mapped_write. apply (bytes_at_mapped _ _ (replicate 8 0)), bytes_at_written. Qed.

Lemma memmove_correct_witness :
  exists m', memmove 101 100 3 demo_mem = Done 101 m' /\ bytes_at m' 101 [97; 98; 99].
Proof.
  destruct (memmove_correct demo_mem 101 100 [97; 98; 99]) as (m' & Hm & Hb & _).
  - exact (proj1 (proj1 (bytes_at_app demo_mem 100 [97; 98; 99] [0]) demo_bytes)).
  - repeat constructor; unfold is_byte; lia.
  - exact (bytes_at_mapped _ _ _ (proj2 (proj1 (bytes_at_cons _ _ _ _) demo_bytes))).
  - exists m'. split; [exact Hm|exact Hb].
Defined.

(** memset fills exactly [n] bytes with the low byte of its
    argument, for every alignment of the start: the three loops (head bytes,
    aligned words, tail bytes) meet without a gap or an overrun, and every
    word store is aligned. *)
Lemma memset_correct (m : mem) dst v n :
  mapped m dst (Z.to_nat n) ->
  memset dst v n m =
    Done dst (write_bytes m dst (replicate (Z.to_nat n) (v mod 256))).
Proof. apply memset_fill. Qed.

Lemma memset_correct_witness :
  memset 1 0x141 7 demo_mem = Done 1 (write_bytes demo_mem 1 (replicate 7 0x41)).
Proof.
  refine (memset_correct demo_mem 1 0x141 7 _).
  exact (proj2 (proj1 (mapped_S demo_mem 0 7) demo_mapped)).
Defined.

(** a name written into an [n]-byte field by strncpy
    and compared by strncmp matches a string exactly when the two agree on
    their first [n] characters: the field need not be NUL-terminated. *)
Theorem name_field_roundtrip (m : mem) s t q n l l2 :
  0 <= n -> cstr m t l -> cstr m q l2 -> Forall is_byte l -> mapped m s (Z.to_nat n) ->
  s + n <= t \/ t + Z.of_nat (length l) < s ->
  s + n <= q \/ q + n <= s ->
  exists m' r, strncpy s t n m = Done s m' /\ strncmp s q n m' = Done r m' /\
    (r = 0 <-> take (Z.to_nat n) l = take (Z.to_nat n) l2).
Proof.
  intros Hn Ht Hq Hby Hm Hd1 Hd2. set (k := Z.to_nat n).
  pose proof (cstr_name_at m t k l Ht) as Ht'. pose proof (cstr_name_at m q k l2 Hq) as Hq'.
  assert (Forall is_byte (take k l)) as Hbt by (by apply Forall_take).
  assert (0 ∉ take k l) as H0 by apply Ht'.
  assert (length (take k l) <= k)%nat as Hlt by (rewrite length_take; lia).
  assert (length (fillpad k (take k l)) = k) as Hfl
    by (unfold fillpad; rewrite length_app, length_replicate; lia).
  set (m' := write_bytes m s (fillpad k (take k l))).
  assert (strncpy s t n m = Done s m') as Hcpy.
  { apply strncpy_field; [done..|]. rewrite length_take. lia. }
  destruct (strncmp_names m' s q n (take k l) (take k l2) Hn) as (r & Hr & Hiff).
  - by apply fillpad_name.
  - apply name_at_write_disjoint; [|done]. rewrite Hfl. lia.
  - by exists m', r.
Qed.

Definition demo_names : mem :=
  write_bytes (write_bytes (write_bytes ∅ 0 (replicate 2 7)) 100 [97; 98; 99; 0]) 200 [97; 98; 100; 0].
Lemma name_field_roundtrip_witness :
  exists m' r, strncpy 0 100 2 demo_names = Done 0 m' /\ strncmp 0 200 2 m' = Done r m' /\ r = 0.
Proof.
  destruct (name_field_roundtrip demo_names 0 100 200 2 [97; 98; 99] [97; 98; 100])
    as (m' & r & Hc & Hr & Hiff).
  - lia.
  - split; [|by apply not_elem_of_cons; split; [lia|apply not_elem_of_cons; split; [lia|
      apply not_elem_of_cons; split; [lia|apply not_elem_of_nil]]]].
    apply bytes_at_write_disjoint; [cbn; lia|apply bytes_at_written].
  - split; [apply bytes_at_written|by apply not_elem_of_cons; split; [lia|apply not_elem_of_cons; split; [lia|
      apply not_elem_of_cons; split; [lia|apply not_elem_of_nil]]]].
  - repeat constructor; unfold is_byte; lia.
  - apply mapped_write, mapped_write. exact (bytes_at_mapped _ _ _ (bytes_at_written ∅ 0 (replicate 2 7))).
  - lia.
  - lia.
  - exists m', r. split; [exact Hc|]. split; [exact Hr|]. apply Hiff. reflexivity.
Defined.

(** strtoul stops at the first character that is no digit
    of the base and computes base^digits * res0 + the value of the digits
    modulo 2^64, where res0 is what the variable [res] happened to hold: the
    source never initialises it, so only res0 = 0 gives the number. *)
Lemma strtoul_correct (m : mem) res0 a base ds vs c :
  0 < base < 2 ^ 32 -> 0 <= res0 < 2 ^ 64 ->
  bytes_at m a (ds ++ [c]) ->
  Forall2 (fun d v => strtoul_digit base d = Some v) ds vs ->
  c = 0 \/ strtoul_digit base c = None ->
  strtoul res0 a base m =
    Done (u64 (res0 * base ^ Z.of_nat (length ds) + digits_value base vs),
          a + Z.of_nat (length ds) + (if c =? 0 then 0 else 1)) m.
Proof. apply strtoul_value. Qed.

Lemma strtoul_correct_witness :
  strtoul 5 100 16 demo_mem = Done (u64 (5 * 16 ^ 3 + 0xabc), 103) demo_mem.
Proof.
  refine (strtoul_correct demo_mem 5 100 16 [97; 98; 99] [10; 11; 12] 0 _ _ demo_bytes _ _).
  - lia.
  - lia.
  - repeat constructor.
  - left. reflexivity.
Defined.
