(* ===== verification/Mmu.v ===== *)
(** * Alignment macros and paging constants (src/src/mmu.h, memlayout.h)

    The macros used by the allocator, the page tables and exec, with the
    arithmetic of rounding to a power of two on 64-bit words. *)

From S2P Require Import Prelude.

Module Mmu.

(** [align_up]/[align_dn]: [al] must be a power of two *)
Definition align_up (sz al : Z) : Z :=
  Z.land (u64 (u64 sz + u64 al - 1)) (u64 (Z.lnot (u64 al - 1))).
Definition align_dn (sz al : Z) : Z :=
  Z.land (u64 sz) (u64 (Z.lnot (u64 al - 1))).

Definition PTE_SHIFT : Z := 12.
Definition PTE_SZ : Z := Z.shiftl 1 PTE_SHIFT.

(** the kernel's direct map (memlayout.h) *)
Definition KERNBASE : Z := 0xFFFFFFFF00000000.
Definition v2p (a : Z) : Z := u64 (a - KERNBASE).
Definition p2v (a : Z) : Z := u64 (a + KERNBASE).

Lemma land_mask x p : 0 <= x < 2 ^ 64 -> 0 <= p <= 64 ->
  Z.land x (u64 (Z.lnot (2 ^ p - 1))) = 2 ^ p * (x / 2 ^ p).
Proof.
  intros Hx Hp. replace (2 ^ p - 1) with (Z.ones p) by (rewrite Z.ones_equiv; lia).
  unfold u64. rewrite <-Z.land_ones by lia.
  rewrite (Z.land_comm _ (Z.ones 64)), Z.land_assoc, Z.land_ones by lia.
  rewrite Z.mod_small by lia. rewrite <-Z.ldiff_land, Z.ldiff_ones_r by lia.
  rewrite Z.shiftr_div_pow2, Z.shiftl_mul_pow2 by lia. apply Z.mul_comm.
Qed.

Lemma align_dn_pow2 z p : 0 <= z < 2 ^ 64 -> 0 <= p < 64 ->
  align_dn z (2 ^ p) = 2 ^ p * (z / 2 ^ p).
Proof.
  intros Hz Hp. unfold align_dn.
  assert (0 < 2 ^ p < 2 ^ 64) by (split; [apply Z.pow_pos_nonneg|apply Z.pow_lt_mono_r]; lia).
  unfold u64 at 1 3. rewrite !Z.mod_small by lia. apply land_mask; lia.
Qed.

Lemma align_up_pow2 z p : 0 <= z -> z + 2 ^ p <= 2 ^ 64 -> 0 <= p < 64 ->
  align_up z (2 ^ p) = 2 ^ p * ((z + 2 ^ p - 1) / 2 ^ p).
Proof.
  intros Hz Hz' Hp. unfold align_up.
  assert (0 < 2 ^ p < 2 ^ 64) by (split; [apply Z.pow_pos_nonneg|apply Z.pow_lt_mono_r]; lia).
  unfold u64 at 1 2 3 5. rewrite !(Z.mod_small _ (2 ^ 64)) by (rewrite ?Z.mod_small; lia).
  apply land_mask; lia.
Qed.

End Mmu.
