(* ===== verification/Arm.v ===== *)
(** * The translation the processor makes (ARMv8-A, stage 1)

    What the hardware does with the tables of vm.c and start.c, from the
    architecture and not from the code: a walk of three levels with pages of
    4 KiB and 32 bits of address in a half of the address space, which starts
    at level 1.  A descriptor takes part only when its valid bit and its type
    fit the level, a block or page only when its access flag is set.  The
    attributes that a table entry may impose on what it leads to (bits 59 to
    63) are not modelled: an entry with one of them translates nothing.  Nor
    are the contiguous hint, the secure state and hardware management of the
    access flag. *)

From S2P Require Import Prelude.

Module Arm.

(** bits [lo] to [lo + n - 1] *)
Definition field (e lo n : Z) : Z := Z.land (Z.shiftr e lo) (Z.ones n).

(** what a block or page descriptor lets through: AP[2:1], the index into MAIR, the shareability, and no execution in EL0 or EL1 *)
Record access := Access { ac_ap : Z; ac_attr : Z; ac_sh : Z; ac_uxn : bool; ac_pxn : bool }.
#[global] Instance access_eq_dec : EqDecision access.
Proof. solve_decision. Defined.
Definition access_of (e : Z) : access := Access (field e 6 2) (field e 2 3) (field e 8 2) (Z.testbit e 54) (Z.testbit e 53).

(** a block or page of [2 ^ n] bytes: its address from the descriptor, the offset from the address translated *)
Definition leaf (e n va : Z) : option (Z * access) :=
  if Z.testbit e 10 then Some (Z.shiftl (field e n (48 - n)) n + va mod 2 ^ n, access_of e) else None.
(** the table a descriptor leads to *)
Definition next_level (e : Z) : option Z :=
  if field e 59 5 =? 0 then Some (Z.shiftl (field e 12 36) 12) else None.

Section walk.
(** the 64-bit word at a physical address *)
Context (rd : Z -> option Z).
Definition level3 (t va : Z) : option (Z * access) :=
  e ← rd (t + 8 * field va 12 9);
  if field e 0 2 =? 3 then leaf e 12 va else None.
Definition level2 (t va : Z) : option (Z * access) :=
  e ← rd (t + 8 * field va 21 9);
  if field e 0 2 =? 3 then t' ← next_level e; level3 t' va
  else if field e 0 2 =? 1 then leaf e 21 va else None.
Definition walk (t va : Z) : option (Z * access) :=
  e ← rd (t + 8 * field va 30 2);
  if field e 0 2 =? 3 then t' ← next_level e; level2 t' va
  else if field e 0 2 =? 1 then leaf e 30 va else None.
End walk.

(** the memory type MAIR_EL1 gives an attribute index *)
Definition mair_attr (mair i : Z) : Z := field mair (8 * i) 8.

Lemma field_shift e lo n : 0 <= lo -> 0 <= n -> 0 <= e -> Z.shiftl (field e lo n) lo = e mod 2 ^ (lo + n) - e mod 2 ^ lo.
Proof.
  intros Hl Hn He. unfold field. rewrite Z.land_ones, Z.shiftr_div_pow2, Z.shiftl_mul_pow2 by done. rewrite Z.pow_add_r, Z.rem_mul_r by first [done | apply Z.pow_nonzero; lia | apply Z.pow_pos_nonneg; lia].
  lia.
Qed.
(** entries that hold an address and low bits *)
Lemma next_level_low a l : 0 <= a < 2 ^ 48 -> a mod 4096 = 0 -> 0 <= l < 4096 -> next_level (a + l) = Some a.
Proof.
  intros Ha Hm Hl. unfold next_level. assert (field (a + l) 59 5 = 0) as ->.
  { unfold field. rewrite Z.shiftr_div_pow2 by lia. rewrite Z.div_small by (change (2 ^ 59) with (2 ^ 48 * 2 ^ 11); Z.div_mod_to_equations; lia). apply Z.land_0_l. }
  change (0 =? 0) with true. cbn iota. f_equal. rewrite field_shift by lia. change (12 + 36) with 48. change (2 ^ 12) with 4096.
  rewrite (Z.mod_small _ (2 ^ 48)) by (Z.div_mod_to_equations; lia). Z.div_mod_to_equations; lia.
Qed.
Lemma field_low a l lo n : a mod 4096 = 0 -> 0 <= lo -> 0 <= n -> lo + n <= 12 -> 0 <= l < 4096 -> 0 <= a -> field (a + l) lo n = field l lo n.
Proof.
  intros Hm H1 H2 H3 Hl Ha. unfold field. rewrite !Z.land_ones, !Z.shiftr_div_pow2 by done.
  assert (exists q, a = q * 2 ^ lo * 2 ^ n) as [q ->].
  { exists (a / 4096 * 2 ^ (12 - lo - n)). rewrite <-!Z.mul_assoc, <-!Z.pow_add_r by lia. replace (12 - lo - n + (lo + n)) with 12 by lia. change (2 ^ 12) with 4096. Z.div_mod_to_equations; lia. }
  assert (0 < 2 ^ lo /\ 0 < 2 ^ n) as [? ?] by (split; apply Z.pow_pos_nonneg; lia).
  rewrite <-Z.mul_assoc, (Z.mul_comm (2 ^ lo)), Z.mul_assoc, Z.add_comm, Z.div_add by lia. by rewrite Z.add_comm, Z.mul_comm, Z.add_comm, (Z.mul_comm (2 ^ n)), Z.mod_add by lia.
Qed.
Lemma leaf_low a l va : 0 <= a < 2 ^ 48 -> a mod 4096 = 0 -> 0 <= l < 4096 -> Z.testbit l 10 = true ->
  leaf (a + l) 12 va = Some (a + va mod 4096, Access (field l 6 2) (field l 2 3) (field l 8 2) false false).
Proof.
  intros Ha Hm Hl Hb. unfold leaf. assert (Z.testbit (a + l) 10 = true) as ->.
  { rewrite Z.testbit_eqb in Hb |- * by lia. change (2 ^ 10) with 1024 in *. apply Z.eqb_eq in Hb. apply Z.eqb_eq. Z.div_mod_to_equations; lia. }
  f_equal. f_equal.
  - rewrite field_shift by lia. change (12 + (48 - 12)) with 48. change (2 ^ 12) with 4096.
    rewrite (Z.mod_small _ (2 ^ 48)) by (Z.div_mod_to_equations; lia). Z.div_mod_to_equations; lia.
  - unfold access_of. rewrite !(field_low a l) by (done || lia).
    assert (forall n, 48 <= n -> Z.testbit (a + l) n = false) as Hhi.
    { intros n Hn. rewrite Z.testbit_eqb by lia. rewrite Z.div_small; [done|]. split; [lia|]. eapply Z.lt_le_trans; [|apply (Z.pow_le_mono_r 2 48 n); lia].
      change (2 ^ 48) with (4096 * 2 ^ 36) in *. Z.div_mod_to_equations; lia. }
    by rewrite !Hhi.
Qed.
End Arm.
