(* ===== verification/Buddy.v ===== *)
(** * The buddy memory allocator (src/src/buddy.c)

    [kmem] is the static struct kmem, with the array of marks at [kmem.start]
    as the list [marks].  Pointers into that array are mark indices, so
    [get_mark] returns an index; an access outside the array is undefined.
    kfree/kmalloc recurse through the orders: their fuel is the number of
    orders. *)

From S2P Require Import Prelude.
From S2P Require Import Mmu.
Import Mmu.

Module Buddy.

Definition MAX_ORD : Z := 12.
Definition MIN_ORD : Z := 6.
Definition N_ORD : Z := MAX_ORD - MIN_ORD + 1.

Record mark := Mark { lnks : Z; bitmap : Z }.

Definition PRE_LNK (lnks : Z) : Z := Z.shiftr lnks 16.
Definition NEXT_LNK (lnks : Z) : Z := Z.land lnks 0xFFFF.
Definition LNKS (pre next : Z) : Z := u32 (Z.lor (Z.shiftl pre 16) (Z.land next 0xFFFF)).
Definition NIL : Z := 0xFFFF.

Record order := Order { head : Z; offset : Z }.

Record kmem := Kmem {
  lock : bool;
  start : Z;        (* start of memory for marks *)
  start_heap : Z;   (* start of allocatable memory *)
  kend : Z;         (* kmem.end *)
  orders : list order;
  marks : list mark;
}.

Definition kmem_lock : lens kmem bool :=
  Lens lock (fun b k => Kmem b (start k) (start_heap k) (kend k) (orders k) (marks k)).

(** field accesses *)
Definition ld_order (order : Z) : M kmem Buddy.order :=
  deref (fun k => at_ (orders k) (order - MIN_ORD)).
Definition st_order (order : Z) (o : Buddy.order) : M kmem unit :=
  ld_order order ;;
  modify (fun k => Kmem (lock k) (start k) (start_heap k) (kend k)
                        (put (orders k) (order - MIN_ORD) o) (marks k)).
Definition ld_mark (p : Z) : M kmem mark := deref (fun k => at_ (marks k) p).
Definition st_mark (p : Z) (m : mark) : M kmem unit :=
  ld_mark p ;;
  modify (fun k => Kmem (lock k) (start k) (start_heap k) (kend k) (orders k)
                        (put (marks k) p m)).
Definition set_head (order h : Z) : M kmem unit :=
  ord ← ld_order order; st_order order (Order h (offset ord)).

Definition get_mark (order idx : Z) : M kmem Z :=
  ord ← ld_order order; mret (u32 (offset ord + idx)).
Definition blkid2mem (order blkid : Z) : M kmem Z :=
  gets (fun k => u64 (start_heap k + s32 (Z.shiftl 1 order * blkid))).
Definition mem2blkid (order mem : Z) : M kmem Z :=
  gets (fun k => s32 (Z.shiftr (u64 (mem - start_heap k)) order)).
Definition available (bitmap blk_id : Z) : bool :=
  negb (Z.land bitmap (Z.shiftl 1 (Z.land blk_id 0x1F)) =? 0).

(** mark a block as unavailable *)
Definition unmark_blk (order blk_id : Z) : M kmem unit :=
  ord ← ld_order order;
  mk ← get_mark order (Z.shiftr blk_id 5);
  m ← ld_mark mk;
  panic_if (negb (available (bitmap m) blk_id)) "double alloc" ;;
  let bm := Z.land (bitmap m) (Z.lnot (Z.shiftl 1 (Z.land blk_id 0x1F))) in
  st_mark mk (Mark (lnks m) bm) ;;
  when (bm =? 0) (
    let blk_id := Z.shiftr blk_id 5 in
    let prev := PRE_LNK (lnks m) in
    let next := NEXT_LNK (lnks m) in
    (if negb (prev =? NIL) then
       p ← get_mark order prev; q ← ld_mark p;
       st_mark p (Mark (LNKS (PRE_LNK (lnks q)) next) (bitmap q))
     else when (head ord =? blk_id) (set_head order next)) ;;
    when (negb (next =? NIL)) (
       p ← get_mark order next; q ← ld_mark p;
       st_mark p (Mark (LNKS prev (NEXT_LNK (lnks q))) (bitmap q))) ;;
    m ← ld_mark mk;
    st_mark mk (Mark (LNKS NIL NIL) (bitmap m))).

(** mark a block as available *)
Definition mark_blk (order blk_id : Z) : M kmem unit :=
  ord ← ld_order order;
  mk ← get_mark order (Z.shiftr blk_id 5);
  m ← ld_mark mk;
  let insert := bitmap m =? 0 in
  panic_if (available (bitmap m) blk_id) "double free" ;;
  let bm := Z.lor (bitmap m) (Z.shiftl 1 (Z.land blk_id 0x1F)) in
  st_mark mk (Mark (lnks m) bm) ;;
  when insert (
    let blk_id := Z.shiftr blk_id 5 in
    st_mark mk (Mark (LNKS NIL (head ord)) bm) ;;
    when (negb (head ord =? NIL)) (
      p ← get_mark order (head ord); q ← ld_mark p;
      st_mark p (Mark (LNKS blk_id (NEXT_LNK (lnks q))) (bitmap q))) ;;
    set_head order blk_id).

(** get a block; the for loop tries the 32 bits of the first mark *)
Definition get_blk (order : Z) : M kmem Z :=
  ord ← ld_order order;
  mk ← get_mark order (head ord);
  m ← ld_mark mk;
  panic_if (bitmap m =? 0) "empty mark in the list" ;;
  loop 33 (fun i =>
    if negb (i <? 32) then mret (inr 0) else
    if negb (Z.land (bitmap m) (Z.shiftl 1 i) =? 0) then
      let blk_id := head ord * 32 + i in
      unmark_blk order blk_id ;;
      up ← blkid2mem order blk_id;
      mret (inr up)
    else mret (inl (i + 1))) 0.

Fixpoint kfree_ (fuel : nat) (mem order : Z) : M kmem unit :=
  match fuel with
  | O => fun _ => NoFuel
  | S fuel =>
    blk_id ← mem2blkid order mem;
    mk ← get_mark order (Z.shiftr blk_id 5);
    m ← ld_mark mk;
    panic_if (available (bitmap m) blk_id) "kfree: double free" ;;
    let buddy_id := Z.lxor blk_id 1 in
    if negb (available (bitmap m) buddy_id) || (order =? MAX_ORD) then
      mark_blk order blk_id
    else
      unmark_blk order buddy_id ;;
      up ← blkid2mem order (Z.land blk_id (Z.lnot 1));
      kfree_ fuel up (order + 1)
  end.

Fixpoint kmalloc_ (fuel : nat) (order : Z) : M kmem Z :=
  match fuel with
  | O => fun _ => NoFuel
  | S fuel =>
    ord ← ld_order order;
    if negb (head ord =? NIL) then get_blk order
    else if order <? MAX_ORD then
      up ← kmalloc_ fuel (order + 1);
      when (negb (up =? 0))
        (kfree_ (Z.to_nat N_ORD) (u64 (up + Z.shiftl 1 order)) order) ;;
      mret up
    else mret 0
  end.

(** allocate memory that has the size of (1 << order) *)
Definition kmalloc (order : Z) : M kmem Z :=
  panic_if ((MAX_ORD <? order) || (order <? MIN_ORD)) "kmalloc: order out of range" ;;
  acquire kmem_lock ;;
  up ← kmalloc_ (Z.to_nat N_ORD) order;
  release kmem_lock ;;
  mret up.

Definition kfree (mem order : Z) : M kmem unit :=
  panic_if ((MAX_ORD <? order) || (order <? MIN_ORD)
            || negb (Z.land mem (Z.shiftl 1 order - 1) =? 0))
    "kfree: order out of range or memory unaligned" ;;
  acquire kmem_lock ;;
  kfree_ (Z.to_nat N_ORD) mem order ;;
  release kmem_lock.

Definition free_page (v : Z) : M kmem unit := kfree v PTE_SHIFT.
Definition alloc_page : M kmem Z := kmalloc PTE_SHIFT.

Definition kmem_init : M kmem unit := modify (lset kmem_lock false).

(** one order's turn of the first loop of kmem_init2: set the order up and
    mark its [n] marks unavailable *)
Definition init_order (i total n : Z) : M kmem unit :=
  st_order (i + MIN_ORD) (Order NIL (u32 total)) ;;
  loop (S (Z.to_nat n)) (fun j =>
    if j <? n then
      mk ← get_mark (i + MIN_ORD) j;
      st_mark mk (Mark (LNKS NIL NIL) 0) ;;
      mret (inl (j + 1))
    else mret (inr tt)) 0.

Definition kmem_init2 (vstart vend : Z) : M kmem unit :=
  modify (fun k => Kmem (lock k) vstart (start_heap k) vend (orders k) (marks k)) ;;
  let len := u64 (vend - vstart) in
  let n := Z.shiftr len (MAX_ORD + 5) + 1 in
  total ← loop 8 (fun '(i, total, n) =>
    if 0 <=? i then
      init_order i total n ;;
      mret (inl (i - 1, u64 (total + n), u64 (Z.shiftl n 1)))
    else mret (inr total)) (N_ORD - 1, 0, n);
  let heap := align_up (vstart + total * 8) (Z.shiftl 1 MAX_ORD) in
  modify (fun k => Kmem (lock k) (start k) heap (kend k) (orders k) (marks k)) ;;
  loop (S (Z.to_nat (Z.shiftr len MAX_ORD + 1))) (fun i =>
    if i <? vend then kfree i MAX_ORD ;; mret (inl (i + Z.shiftl 1 MAX_ORD))
    else mret (inr tt)) heap.

(** round up power of 2, then get the order *)
Definition smear (v : Z) : Z :=
  let v := Z.lor v (Z.shiftr v 1) in
  let v := Z.lor v (Z.shiftr v 2) in
  let v := Z.lor v (Z.shiftr v 4) in
  let v := Z.lor v (Z.shiftr v 8) in
  Z.lor v (Z.shiftr v 16).
Definition get_order (v : Z) : M unit Z :=
  let v := u32 (smear (u32 (v - 1)) + 1) in
  ord ← loop 33 (fun ord =>
    if negb (ord <? 32) then mret (inr ord) else
    if negb (Z.land v (Z.shiftl 1 ord) =? 0) then mret (inr ord)
    else mret (inl (ord + 1))) 0;
  if ord <? MIN_ORD then mret MIN_ORD
  else panic_if (MAX_ORD <? ord) "order too big!" ;; mret ord.

(** ** Layer 1: the doubly linked list of marks of one order *)

Definition first_of (nxt : Z) (L : list Z) : Z :=
  match L with [] => nxt | i :: _ => i end.
Fixpoint last_of (p : Z) (L : list Z) : Z :=
  match L with [] => p | i :: L => last_of i L end.

(** the marks of [L] are chained, from the mark before ([p]) to the one after *)
Fixpoint lseg (MK : Z -> mark) (p : Z) (L : list Z) (nxt : Z) : Prop :=
  match L with
  | [] => True
  | i :: L' => lnks (MK i) = LNKS p (first_of nxt L') /\ lseg MK i L' nxt
  end.

Record dll (MK : Z -> mark) (h N : Z) (L : list Z) : Prop := {
  dll_head : h = first_of NIL L;
  dll_seg : lseg MK NIL L NIL;
  dll_nodup : NoDup L;
  dll_mem : forall i, i ∈ L <-> 0 <= i < N /\ bitmap (MK i) <> 0;
  dll_bits : forall i, 0 <= i < N -> 0 <= bitmap (MK i) < 2 ^ 32;
}.

Lemma LNKS_pre p n : 0 <= p <= NIL -> 0 <= n <= NIL -> PRE_LNK (LNKS p n) = p.
Proof.
  unfold PRE_LNK, LNKS, NIL, u32. intros Hp Hn. change 65535 with (Z.ones 16).
  rewrite Z.land_ones, (Z.mod_small n) by lia.
  apply Z.bits_inj_iff'. intros i Hi. rewrite Z.shiftr_spec by lia.
  destruct (Z.ltb_spec i 16).
  - rewrite Z.mod_pow2_bits_low by lia. rewrite Z.lor_spec, Z.shiftl_spec by lia.
    replace (i + 16 - 16) with i by lia.
    replace (Z.testbit n (i + 16)) with false; [by rewrite orb_false_r|].
    replace n with (n mod 2 ^ 16) by (apply Z.mod_small; lia).
    by rewrite Z.mod_pow2_bits_high by lia.
  - rewrite Z.mod_pow2_bits_high by lia. symmetry.
    replace p with (p mod 2 ^ 16) by (apply Z.mod_small; lia).
    by rewrite Z.mod_pow2_bits_high by lia.
Qed.

Lemma LNKS_next p n : 0 <= p <= NIL -> 0 <= n <= NIL -> NEXT_LNK (LNKS p n) = n.
Proof.
  unfold NEXT_LNK, LNKS, NIL, u32. intros Hp Hn. change 65535 with (Z.ones 16).
  rewrite !Z.land_ones, (Z.mod_small n) by lia.
  apply Z.bits_inj_iff'. intros i Hi.
  destruct (Z.ltb_spec i 16).
  - rewrite !Z.mod_pow2_bits_low by lia. rewrite Z.lor_spec, Z.shiftl_spec by lia.
    by rewrite (Z.testbit_neg_r p) by lia.
  - rewrite Z.mod_pow2_bits_high by lia. symmetry.
    replace n with (n mod 2 ^ 16) by (apply Z.mod_small; lia).
    by rewrite Z.mod_pow2_bits_high by lia.
Qed.

Lemma lseg_ext MK MK' p L nxt :
  (forall i, i ∈ L -> lnks (MK' i) = lnks (MK i)) -> lseg MK p L nxt -> lseg MK' p L nxt.
Proof.
  revert p. induction L as [|i L IH]; intros p Hext; cbn; [done|].
  intros [H1 H2]. split; [rewrite Hext by in_list; done|].
  apply IH; [|done]. intros j Hj. apply Hext. in_list.
Qed.

Lemma lseg_app MK p L1 L2 nxt :
  lseg MK p (L1 ++ L2) nxt <->
  lseg MK p L1 (first_of nxt L2) /\ lseg MK (last_of p L1) L2 nxt.
Proof.
  revert p. induction L1 as [|i L1 IH]; intros p; cbn; [tauto|].
  rewrite IH. assert (first_of nxt (L1 ++ L2) = first_of (first_of nxt L2) L1) as ->
    by (by destruct L1). tauto.
Qed.

Lemma last_of_app p L i : last_of p (L ++ [i]) = i.
Proof. revert p. by induction L as [|j L IH]; intros p; cbn. Qed.

Lemma last_of_cases p L : (L = [] /\ last_of p L = p) \/ (exists L', L = L' ++ [last_of p L]).
Proof.
  destruct L as [|i L] using rev_ind; [by left|]. right. exists L. by rewrite last_of_app.
Qed.

(** Relinking around a mark removed from the middle of the list. *)
Lemma lseg_relink_next MK MK' p L old new :
  (forall i, i ∈ L -> i <> last_of p L -> lnks (MK' i) = lnks (MK i)) ->
  (forall q, 0 <= q <= NIL -> lnks (MK (last_of p L)) = LNKS q old ->
     L <> [] -> lnks (MK' (last_of p L)) = LNKS q new) ->
  NoDup L -> 0 <= p <= NIL -> (forall i, i ∈ L -> 0 <= i < NIL) ->
  lseg MK p L old -> lseg MK' p L new.
Proof.
  intros Hoth Hlast Hnd Hp Hr Hs.
  destruct (last_of_cases p L) as [[-> _]|[L' HL]]; [done|].
  set (z := last_of p L) in *. clearbody z. subst L.
  apply NoDup_app in Hnd as (Hnd & Hni & _).
  apply lseg_app in Hs as [Hs1 Hs2]. cbn in Hs2. apply lseg_app. cbn. split.
  - eapply lseg_ext; [|exact Hs1]. intros i Hi. apply Hoth; [in_list|].
    intros ->. apply (Hni z Hi). in_list.
  - split; [|done]. apply Hlast; [|by destruct Hs2|by destruct L'].
    destruct (last_of_cases p L') as [[-> ->]|[L'' HL'']]; [done|].
    assert (0 <= last_of p L' < NIL); [|lia]. apply Hr, elem_of_app. left.
    rewrite HL'' at 2. in_list.
Qed.

Lemma lseg_relink_prev MK MK' p new L nxt :
  (forall i, i ∈ L -> i <> first_of nxt L -> lnks (MK' i) = lnks (MK i)) ->
  (forall j L', L = j :: L' -> lnks (MK j) = LNKS p (first_of nxt L') ->
     lnks (MK' j) = LNKS new (first_of nxt L')) ->
  NoDup L -> lseg MK p L nxt -> lseg MK' new L nxt.
Proof.
  intros Hoth Hfst Hnd. destruct L as [|j L]; cbn in *; [done|].
  intros [H1 H2]. split; [by eapply Hfst|].
  apply NoDup_cons in Hnd as [Hj Hnd].
  eapply lseg_ext; [|exact H2]. intros i Hi. apply Hoth; [in_list|by intros ->].
Qed.

Definition upd (MK : Z -> mark) (i : Z) (v : mark) : Z -> mark :=
  fun j => if decide (j = i) then v else MK j.
Lemma upd_eq MK i v : upd MK i v i = v.
Proof. unfold upd. by rewrite decide_True. Qed.
Lemma upd_ne MK i j v : j <> i -> upd MK i v j = MK j.
Proof. unfold upd. intros. by rewrite decide_False. Qed.
(** assigning one field of a mark *)
Definition with_lnks (m : mark) (l : Z) : mark := Mark l (bitmap m).

(** Field-wise facts about updated marks; [i], [j] are compared by [decide]. *)
Ltac marks :=
  unfold upd, with_lnks in *; repeat case_decide; cbn [lnks bitmap] in *; subst;
  try done; try lia; try congruence.

Lemma dll_setbits MK h N L i bm :
  dll MK h N L -> bitmap (MK i) <> 0 -> 0 < bm < 2 ^ 32 ->
  dll (upd MK i (Mark (lnks (MK i)) bm)) h N L.
Proof.
  intros [Hh Hs Hn Hm Hb] Hi Hbm. split; [done| |done| |].
  - eapply lseg_ext; [|done]. intros j _. marks.
  - intros j. rewrite Hm. marks.
  - intros j Hj. specialize (Hb j Hj). marks.
Qed.

Definition link_marks (MK : Z -> mark) (h i bm : Z) : Z -> mark :=
  let MK1 := upd MK i (Mark (LNKS NIL h) bm) in
  if h =? NIL then MK1
  else upd MK1 h (Mark (LNKS i (NEXT_LNK (lnks (MK1 h)))) (bitmap (MK1 h))).

Lemma link_marks_bitmap MK h i bm j :
  bitmap (link_marks MK h i bm j) = if decide (j = i) then bm else bitmap (MK j).
Proof. unfold link_marks. destruct (Z.eqb_spec h NIL); marks. Qed.

Lemma first_of_bound nxt L : (forall i, i ∈ L -> 0 <= i < NIL) -> 0 <= nxt <= NIL ->
  0 <= first_of nxt L <= NIL.
Proof.
  intros HL Hn. destruct L as [|i L]; cbn; [done|].
  assert (0 <= i < NIL) by (apply HL; in_list). lia.
Qed.

Lemma dll_range MK h N L : dll MK h N L -> N <= NIL -> forall i, i ∈ L -> 0 <= i < NIL.
Proof. intros Hd HN i Hi. apply (dll_mem _ _ _ _ Hd) in Hi. lia. Qed.

Lemma dll_insert MK h N L i bm :
  dll MK h N L -> N <= NIL -> 0 <= i < N -> bitmap (MK i) = 0 -> 0 < bm < 2 ^ 32 ->
  dll (link_marks MK h i bm) i N (i :: L).
Proof.
  intros Hd HN Hi Hz Hbm. pose proof (dll_range _ _ _ _ Hd HN) as Hr.
  destruct Hd as [Hh Hs Hn Hm Hb].
  assert (i ∉ L) as HiL by (rewrite Hm; tauto).
  split; [done| | | |].
  - assert (forall j, j ∈ L -> j <> i) as Hji by (intros j Hj ->; done).
    cbn [lseg]. split.
    + unfold link_marks. rewrite <-Hh. destruct (Z.eqb_spec h NIL) as [|Hne]; [marks|].
      rewrite upd_ne, upd_eq; [done|]. intros <-. destruct HiL.
      destruct L; cbn in Hh; subst; [done|]. in_list.
    + apply (lseg_relink_prev MK _ NIL); [| |done|done].
      * intros j Hj Hjf. specialize (Hji j Hj). unfold link_marks.
        destruct (Z.eqb_spec h NIL); marks.
      * intros j L' -> Hj. cbn in Hh. specialize (Hji j ltac:(in_list)).
        pose proof (Hr j ltac:(in_list)).
        unfold link_marks. destruct (Z.eqb_spec h NIL); [lia|]. subst h.
        rewrite upd_eq, upd_ne by done. cbn [lnks]. rewrite Hj, LNKS_next; [done| |].
        -- unfold NIL; lia.
        -- apply first_of_bound; [intros; apply Hr; in_list|unfold NIL; lia].
  - by apply NoDup_cons.
  - intros j. rewrite elem_of_cons, Hm, link_marks_bitmap.
    case_decide; subst; split; intros; try lia; tauto.
  - intros j Hj. rewrite link_marks_bitmap. case_decide; [lia|by apply Hb].
Qed.

(** unlink_marks: the marks and the head after unmark_blk empties mark [i] *)
Definition unlink_marks (MK : Z -> mark) (i : Z) : Z -> mark :=
  let prev := PRE_LNK (lnks (MK i)) in
  let next := NEXT_LNK (lnks (MK i)) in
  let MK0 := upd MK i (Mark (lnks (MK i)) 0) in
  let MK1 := if negb (prev =? NIL)
    then upd MK0 prev (Mark (LNKS (PRE_LNK (lnks (MK0 prev))) next) (bitmap (MK0 prev)))
    else MK0 in
  let MK2 := if negb (next =? NIL)
    then upd MK1 next (Mark (LNKS prev (NEXT_LNK (lnks (MK1 next)))) (bitmap (MK1 next)))
    else MK1 in
  upd MK2 i (Mark (LNKS NIL NIL) (bitmap (MK2 i))).
Definition unlink_head (MK : Z -> mark) (h i : Z) : Z :=
  if negb (PRE_LNK (lnks (MK i)) =? NIL) then h
  else if h =? i then NEXT_LNK (lnks (MK i)) else h.

Lemma unlink_marks_bitmap MK i j :
  bitmap (unlink_marks MK i j) = if decide (j = i) then 0 else bitmap (MK j).
Proof.
  unfold unlink_marks. destruct (negb (PRE_LNK _ =? NIL)), (negb (NEXT_LNK _ =? NIL)); marks.
Qed.

(** The neighbours recorded in a mark of the list. *)
Lemma dll_links MK h N L1 i L2 :
  dll MK h N (L1 ++ i :: L2) -> N <= NIL ->
  PRE_LNK (lnks (MK i)) = last_of NIL L1 /\ NEXT_LNK (lnks (MK i)) = first_of NIL L2 /\
  0 <= last_of NIL L1 <= NIL /\ 0 <= first_of NIL L2 <= NIL.
Proof.
  intros Hd HN. pose proof (dll_range _ _ _ _ Hd HN) as Hr.
  pose proof (dll_seg _ _ _ _ Hd) as Hs. apply lseg_app in Hs as [_ [Hi _]].
  assert (0 <= last_of NIL L1 <= NIL) as Hlast.
  { destruct (last_of_cases NIL L1) as [[_ ->]|[L' HL]]; [unfold NIL; lia|].
    assert (last_of NIL L1 ∈ L1) by (rewrite HL at 2; in_list).
    assert (0 <= last_of NIL L1 < NIL); [apply Hr; in_list|lia]. }
  assert (0 <= first_of NIL L2 <= NIL) as Hfirst.
  { apply first_of_bound; [intros; apply Hr; in_list|unfold NIL; lia]. }
  rewrite Hi, LNKS_pre, LNKS_next by done. done.
Qed.

(** The links of the marks that stay, when the two neighbours differ. *)
Section unlink.
  Context (MK : Z -> mark) (i : Z).
Let prev := PRE_LNK (lnks (MK i)).
Let next := NEXT_LNK (lnks (MK i)).
  Context (Hpi : prev <> i) (Hni : next <> i) (Hpn : prev = next -> prev = NIL).

Lemma unlink_other j : j <> i -> j <> prev -> j <> next ->
    lnks (unlink_marks MK i j) = lnks (MK j).
  Proof.
    intros. unfold unlink_marks. fold prev next.
    destruct (negb (prev =? NIL)), (negb (next =? NIL)); by rewrite !upd_ne by done.
  Qed.

Lemma unlink_prev : prev <> NIL ->
    lnks (unlink_marks MK i prev) = LNKS (PRE_LNK (lnks (MK prev))) next.
  Proof.
    intros Hp. unfold unlink_marks. fold prev next.
    assert (prev <> next) by (intros ?; auto).
    destruct (Z.eqb_spec prev NIL); [done|]. cbn [negb].
    destruct (negb (next =? NIL)); by rewrite !upd_ne, ?upd_eq, ?upd_ne by done.
  Qed.

Lemma unlink_next : next <> NIL ->
    lnks (unlink_marks MK i next) = LNKS prev (NEXT_LNK (lnks (MK next))).
  Proof.
    intros Hn. unfold unlink_marks. fold prev next.
    assert (next <> prev) by (intros E; apply Hn; rewrite E; auto).
    destruct (Z.eqb_spec next NIL); [done|]. cbn [negb].
    destruct (negb (prev =? NIL)); rewrite upd_ne, upd_eq by done; cbn [lnks];
      by rewrite !upd_ne by done.
  Qed.
End unlink.

Lemma dll_remove MK h N L1 i L2 :
  dll MK h N (L1 ++ i :: L2) -> N <= NIL ->
  dll (unlink_marks MK i) (unlink_head MK h i) N (L1 ++ L2).
Proof.
  intros Hd HN. pose proof (dll_range _ _ _ _ Hd HN) as Hr.
  destruct (dll_links _ _ _ _ _ _ Hd HN) as (Ep & En & Hp & Hn).
  destruct Hd as [Hh Hs Hnd Hm Hb].
  pose proof (Hr i ltac:(in_list)) as Hi.
  apply NoDup_app in Hnd as (Hnd1 & Hnd12 & Hnd2). apply NoDup_cons in Hnd2 as [HiL2 Hnd2].
  assert (i ∉ L1) as HiL1 by (intros H; apply (Hnd12 i H); in_list).
  assert (last_of NIL L1 = NIL /\ L1 = [] \/ last_of NIL L1 ∈ L1) as Hlast.
  { destruct (last_of_cases NIL L1) as [[-> _]|[L' HL]]; [by left|].
    right. rewrite HL at 2. in_list. }
  assert (first_of NIL L2 = NIL /\ L2 = [] \/ first_of NIL L2 ∈ L2) as Hfirst.
  { destruct L2; [by left|]. right. cbn. in_list. }
  assert (forall j, j ∈ L1 -> j <> NIL /\ j <> i /\ j <> first_of NIL L2) as H1.
  { intros j Hj. pose proof (Hr j ltac:(in_list)). split; [lia|]. split; [by intros ->|].
    destruct Hfirst as [[-> _]|Hf]; [lia|]. intros ->. apply (Hnd12 _ Hj). in_list. }
  assert (forall j, j ∈ L2 -> j <> NIL /\ j <> i /\ j <> last_of NIL L1) as H2.
  { intros j Hj. pose proof (Hr j ltac:(in_list)). split; [lia|]. split; [by intros ->|].
    destruct Hlast as [[-> _]|Hl]; [lia|]. intros ->. apply (Hnd12 _ Hl). in_list. }
  assert (PRE_LNK (lnks (MK i)) <> i /\ NEXT_LNK (lnks (MK i)) <> i /\
    (PRE_LNK (lnks (MK i)) = NEXT_LNK (lnks (MK i)) -> PRE_LNK (lnks (MK i)) = NIL))
    as (Hpi & Hni & Hpn).
  { rewrite Ep, En. destruct Hlast as [[-> _]|Hl]; destruct Hfirst as [[-> _]|Hf];
      repeat split; try lia; try (by apply H1); try (by apply H2).
    intros E. destruct (H1 _ Hl) as (_ & _ & ?). done. }
  apply lseg_app in Hs as [Hs1 [Hsi Hs2]].
  split.
  - unfold unlink_head. rewrite Ep, En.
    destruct Hlast as [[-> ->]|Hl]; cbn in Hh |- *.
    + subst h. by rewrite Z.eqb_refl.
    + destruct (H1 _ Hl) as (Hne & _). rewrite (proj2 (Z.eqb_neq _ _) Hne).
      destruct L1; [by apply elem_of_nil in Hl|done].
  - apply lseg_app. split.
    + eapply (lseg_relink_next MK _ NIL L1); [| |done|unfold NIL; lia|intros; apply Hr; in_list|exact Hs1].
      * intros j Hj Hjl. destruct (H1 _ Hj) as (? & ? & ?).
        apply unlink_other; congruence.
      * intros q Hq Hql Hne. destruct Hlast as [[_ ?]|Hl]; [done|].
        destruct (H1 _ Hl) as (? & ? & ?). rewrite <-Ep in Hql |- *.
        rewrite unlink_prev by (done || congruence).
        rewrite Hql, En, LNKS_pre; [done|lia|]. cbn. lia.
    + eapply (lseg_relink_prev MK _ i); [| |done|exact Hs2].
      * intros j Hj Hjl. destruct (H2 _ Hj) as (? & ? & ?).
        apply unlink_other; congruence.
      * intros j L' -> Hj. cbn in En. destruct (H2 j ltac:(in_list)) as (? & ? & ?).
        rewrite <-En, unlink_next by (done || congruence).
        rewrite En, Hj, Ep, LNKS_next; [done|lia|].
        apply first_of_bound; [intros; apply Hr; in_list|unfold NIL; lia].
  - apply NoDup_app. split; [done|]. split; [|done]. intros j Hj1 Hj2.
    apply (Hnd12 j Hj1). in_list.
  - intros j. rewrite unlink_marks_bitmap. specialize (Hm j).
    revert Hm. rewrite !elem_of_app, elem_of_cons. intros Hm.
    case_decide; [subst; split; [intros [?|?]; done | lia]|]. rewrite <-Hm. tauto.
  - intros j Hj. rewrite unlink_marks_bitmap. case_decide; [lia|by apply Hb].
Qed.

(** ** The mark array: order [o] owns the indices [off o, off o + cnt o) *)

Definition off (n0 o : Z) : Z := n0 * (2 ^ (12 - o) - 1).
Definition cnt (n0 o : Z) : Z := n0 * 2 ^ (12 - o).
Definition frame (k : kmem) : bool * Z * Z * Z := (lock k, start k, start_heap k, kend k).

(** [k] holds the heads [H] and the marks [MK] *)
Record repr (n0 : Z) (k : kmem) (H : Z -> Z) (MK : Z -> Z -> mark) : Prop := {
  rp_n0 : 0 < n0 <= 1023;
  rp_ord : forall o, 6 <= o <= 12 ->
    at_ (orders k) (o - 6) = Some (Order (H o) (off n0 o));
  rp_mark : forall o i, 6 <= o <= 12 -> 0 <= i < cnt n0 o ->
    at_ (marks k) (off n0 o + i) = Some (MK o i);
}.

Definition upd2 {A} (MK : Z -> A) (o : Z) (v : A) : Z -> A :=
  fun o' => if decide (o' = o) then v else MK o'.
Lemma upd2_eq {A} (MK : Z -> A) o v : upd2 MK o v o = v.
Proof. unfold upd2. by rewrite decide_True. Qed.
Lemma upd2_ne {A} (MK : Z -> A) o o' v : o' <> o -> upd2 MK o v o' = MK o'.
Proof. unfold upd2. intros. by rewrite decide_False. Qed.

(** case analysis on an order *)
Lemma order_cases o : 6 <= o <= 12 ->
  o = 6 \/ o = 7 \/ o = 8 \/ o = 9 \/ o = 10 \/ o = 11 \/ o = 12.
Proof. lia. Qed.
Ltac split_order H :=
  apply order_cases in H as [->|[->|[->|[->|[->|[->| ->]]]]]].

Lemma off_cnt_disjoint n0 o o' i i' :
  0 < n0 -> 6 <= o <= 12 -> 6 <= o' <= 12 -> 0 <= i < cnt n0 o -> 0 <= i' < cnt n0 o' ->
  off n0 o + i = off n0 o' + i' -> o = o' /\ i = i'.
Proof.
  unfold off, cnt. intros Hn Ho Ho' Hi Hi' E.
  split_order Ho; split_order Ho'; cbn in *; lia.
Qed.

Lemma off_cnt_bound n0 o i :
  0 < n0 <= 1023 -> 6 <= o <= 12 -> 0 <= i < cnt n0 o ->
  0 <= off n0 o /\ off n0 o + i < 127 * n0 /\ cnt n0 o <= NIL.
Proof. unfold off, cnt, NIL. intros Hn Ho Hi. split_order Ho; cbn in *; lia. Qed.

Section field_access.
  Context {n0 : Z} {k : kmem} {H : Z -> Z} {MK : Z -> Z -> mark}.
  Context (Hr : repr n0 k H MK).

Lemma wp_ld_order o Q :
    6 <= o <= 12 -> Q (Order (H o) (off n0 o)) k -> wp (ld_order o) Q k.
  Proof. intros Ho HQ. eapply wp_deref; [|done]. by apply (rp_ord _ _ _ _ Hr). Qed.

Lemma wp_get_mark o i Q :
    6 <= o <= 12 -> 0 <= i < cnt n0 o -> Q (off n0 o + i) k -> wp (get_mark o i) Q k.
  Proof.
    intros Ho Hi HQ. apply wp_bind, wp_ld_order; [done|]. wp_step. cbn [offset].
    pose proof (rp_n0 _ _ _ _ Hr) as Hn.
    destruct (off_cnt_bound n0 o i Hn Ho Hi) as (? & ? & ?).
    unfold u32. by rewrite Z.mod_small by lia.
  Qed.

Lemma wp_ld_mark o i Q :
    6 <= o <= 12 -> 0 <= i < cnt n0 o -> Q (MK o i) k -> wp (ld_mark (off n0 o + i)) Q k.
  Proof. intros Ho Hi HQ. eapply wp_deref; [|done]. by apply (rp_mark _ _ _ _ Hr). Qed.

Lemma wp_st_mark o i v Q :
    6 <= o <= 12 -> 0 <= i < cnt n0 o ->
    (forall k', repr n0 k' H (upd2 MK o (upd (MK o) i v)) -> frame k' = frame k -> Q tt k') ->
    wp (st_mark (off n0 o + i) v) Q k.
  Proof.
    intros Ho Hi HQ. pose proof (rp_n0 _ _ _ _ Hr) as Hn.
    apply wp_bind, wp_ld_mark; [done|done|]. wp_step. apply HQ; [|done].
    pose proof (at_range _ _ _ (rp_mark _ _ _ _ Hr o i Ho Hi)) as Hlen.
    split; [done|by apply (rp_ord _ _ _ _ Hr)|]. intros o' i' Ho' Hi'. cbn [marks].
    destruct (decide (off n0 o + i = off n0 o' + i')) as [E|Hne].
    - apply off_cnt_disjoint in E as [<- <-]; try done; [|lia].
      rewrite at_put_eq by done. by rewrite upd2_eq, upd_eq.
    - rewrite at_put_ne by lia. rewrite (rp_mark _ _ _ _ Hr) by done. f_equal.
      unfold upd2. case_decide; [subst|done]. rewrite upd_ne; [done|]. intros ->. done.
  Qed.

Lemma wp_set_head o h Q :
    6 <= o <= 12 ->
    (forall k', repr n0 k' (upd2 H o h) MK -> frame k' = frame k -> Q tt k') ->
    wp (set_head o h) Q k.
  Proof.
    intros Ho HQ. apply wp_bind, wp_ld_order; [done|]. apply wp_bind, wp_ld_order; [done|].
    wp_step. apply HQ; [|done]. cbn [offset].
    pose proof (at_range _ _ _ (rp_ord _ _ _ _ Hr o Ho)) as Hlen. unfold MIN_ORD.
    split; [by apply (rp_n0 _ _ _ _ Hr)| |by apply (rp_mark _ _ _ _ Hr)].
    intros o' Ho'. cbn [orders]. destruct (decide (o' = o)) as [->|Hne].
    - by rewrite at_put_eq, upd2_eq by done.
    - rewrite at_put_ne, upd2_ne by lia. by apply (rp_ord _ _ _ _ Hr).
  Qed.
End field_access.

(** ** Layer 2: the free blocks recorded in the bitmaps *)

Lemma land_31 b : Z.land b 0x1F = b mod 32.
Proof. apply (Z.land_ones b 5). lia. Qed.
Lemma shiftr_5 b : Z.shiftr b 5 = b / 32.
Proof. apply Z.shiftr_div_pow2. lia. Qed.

Lemma available_testbit bm b : available bm b = Z.testbit bm (b mod 32).
Proof.
  unfold available. rewrite land_31.
  pose proof (Z.mod_pos_bound b 32 ltac:(lia)) as Hb. set (j := b mod 32) in *.
  assert (forall i, Z.testbit (Z.land bm (Z.shiftl 1 j)) i = Z.testbit bm i && (i =? j)) as Ht.
  { intros i. rewrite Z.land_spec, Z.shiftl_1_l, Z.pow2_bits_eqb by lia.
    by rewrite (Z.eqb_sym j i). }
  destruct (Z.testbit bm j) eqn:E.
  - destruct (Z.eqb_spec (Z.land bm (Z.shiftl 1 j)) 0) as [H0|]; [|done].
    specialize (Ht j). rewrite H0, E, Z.eqb_refl, Z.bits_0 in Ht. done.
  - replace (Z.land bm (Z.shiftl 1 j)) with 0; [done|]. symmetry.
    apply Z.bits_inj_0. intros i. rewrite Ht. destruct (Z.eqb_spec i j) as [->|]; [by rewrite E|].
    apply andb_false_r.
Qed.

Lemma setbit_spec bm j i : 0 <= j ->
  Z.testbit (Z.lor bm (Z.shiftl 1 j)) i = Z.testbit bm i || (i =? j).
Proof.
  intros. rewrite Z.lor_spec, Z.shiftl_1_l, Z.pow2_bits_eqb by lia. by rewrite Z.eqb_sym.
Qed.
Lemma clearbit_spec bm j i : 0 <= j -> 0 <= i ->
  Z.testbit (Z.land bm (Z.lnot (Z.shiftl 1 j))) i = Z.testbit bm i && negb (i =? j).
Proof.
  intros. rewrite Z.land_spec, Z.lnot_spec, Z.shiftl_1_l, Z.pow2_bits_eqb by lia.
  by rewrite Z.eqb_sym.
Qed.

Lemma bits_bound x n : 0 <= n -> (forall i, n <= i -> Z.testbit x i = false) -> 0 <= x < 2 ^ n.
Proof.
  intros Hn Hx. assert (x = x mod 2 ^ n) as ->; [|apply Z.mod_pos_bound; lia].
  apply Z.bits_inj_iff'. intros i Hi. destruct (Z.ltb_spec i n).
  - by rewrite Z.mod_pow2_bits_low by lia.
  - rewrite Z.mod_pow2_bits_high by lia. by apply Hx.
Qed.
Lemma testbit_above x n i : 0 <= x < 2 ^ n -> 0 <= n <= i -> Z.testbit x i = false.
Proof.
  intros Hx Hn. replace x with (x mod 2 ^ n) by (by apply Z.mod_small).
  by apply Z.mod_pow2_bits_high.
Qed.

Lemma setbit_bound bm j : 0 <= bm < 2 ^ 32 -> 0 <= j < 32 ->
  0 < Z.lor bm (Z.shiftl 1 j) < 2 ^ 32.
Proof.
  intros Hbm Hj. assert (0 <= Z.lor bm (Z.shiftl 1 j) < 2 ^ 32) as Hb.
  { apply bits_bound; [lia|]. intros i Hi. rewrite setbit_spec by lia.
    rewrite (testbit_above bm 32) by lia. cbn. by apply Z.eqb_neq; lia. }
  assert (Z.lor bm (Z.shiftl 1 j) <> 0); [|lia]. intros E.
  pose proof (setbit_spec bm j j ltac:(lia)) as Ht. rewrite E, Z.bits_0, Z.eqb_refl in Ht.
  by rewrite orb_true_r in Ht.
Qed.
Lemma clearbit_bound bm j : 0 <= bm < 2 ^ 32 -> 0 <= j ->
  0 <= Z.land bm (Z.lnot (Z.shiftl 1 j)) < 2 ^ 32.
Proof.
  intros Hbm Hj. apply bits_bound; [lia|]. intros i Hi. rewrite clearbit_spec by lia.
  by rewrite (testbit_above bm 32) by lia.
Qed.

Definition setF (F : Z -> Z -> bool) (o b : Z) (v : bool) : Z -> Z -> bool :=
  fun o' b' => if decide (o' = o /\ b' = b) then v else F o' b'.
Lemma setF_eq F o b v : setF F o b v o b = v.
Proof. unfold setF. by rewrite decide_True. Qed.
Lemma setF_ne F o b v o' b' : ~ (o' = o /\ b' = b) -> setF F o b v o' b' = F o' b'.
Proof. unfold setF. intros. by rewrite decide_False. Qed.

Definition isfree (MK : Z -> Z -> mark) (o b : Z) : bool :=
  Z.testbit (bitmap (MK o (b / 32))) (b mod 32).

(** The allocator state [k] is well linked and [F] is its set of free blocks. *)
Definition holds (n0 : Z) (k : kmem) (F : Z -> Z -> bool) : Prop :=
  exists H MK, repr n0 k H MK /\
    (forall o, 6 <= o <= 12 -> exists L, dll (MK o) (H o) (cnt n0 o) L) /\
    (forall o b, 6 <= o <= 12 -> 0 <= b < 32 * cnt n0 o -> isfree MK o b = F o b).

Lemma blk_mark_range n0 o b : 0 <= b < 32 * cnt n0 o -> 0 <= b / 32 < cnt n0 o.
Proof.
  intros Hb. split; [apply Z.div_pos; lia|]. apply Z.div_lt_upper_bound; lia.
Qed.

(** One changed bitmap changes the free set at one block. *)
Lemma isfree_setbit (MK MK' : Z -> Z -> mark) F n0 o b v :
  6 <= o <= 12 -> 0 <= b < 32 * cnt n0 o ->
  (forall o', o' <> o -> MK' o' = MK o') ->
  (forall i, i <> b / 32 -> bitmap (MK' o i) = bitmap (MK o i)) ->
  (forall j, 0 <= j -> Z.testbit (bitmap (MK' o (b / 32))) j =
     if decide (j = b mod 32) then v else Z.testbit (bitmap (MK o (b / 32))) j) ->
  (forall o b, 6 <= o <= 12 -> 0 <= b < 32 * cnt n0 o -> isfree MK o b = F o b) ->
  forall o' b', 6 <= o' <= 12 -> 0 <= b' < 32 * cnt n0 o' -> isfree MK' o' b' = setF F o b v o' b'.
Proof.
  intros Ho Hb Hoth Hi Hj HF o' b' Ho' Hb'. unfold setF, isfree.
  destruct (decide (o' = o)) as [->|Hne].
  2: { rewrite decide_False by tauto. rewrite Hoth by done. by apply HF. }
  destruct (decide (b' / 32 = b / 32)) as [E|Hne].
  2: { rewrite decide_False by (intros [_ ->]; done). rewrite Hi by done. by apply HF. }
  rewrite E, Hj by (apply Z.mod_pos_bound; lia).
  destruct (decide (b' mod 32 = b mod 32)) as [E'|Hne].
  - rewrite decide_True; [done|]. split; [done|].
    rewrite (Z.div_mod b' 32), (Z.div_mod b 32) by lia. lia.
  - rewrite decide_False by (intros [_ ->]; done). rewrite <-E. by apply HF.
Qed.

(** Replacing the list of one order keeps the invariant of the others. *)
Lemma dlls_upd (n0 : Z) (H : Z -> Z) (MK : Z -> Z -> mark) o h MKo L :
  (forall o, 6 <= o <= 12 -> exists L, dll (MK o) (H o) (cnt n0 o) L) ->
  dll MKo h (cnt n0 o) L ->
  forall o', 6 <= o' <= 12 ->
    exists L, dll (upd2 MK o MKo o') (upd2 H o h o') (cnt n0 o') L.
Proof.
  intros Hall Ho o' Ho'. unfold upd2. case_decide; [subst; eauto|by apply Hall].
Qed.


Lemma dll_first MK h N L : dll MK h N L -> N <= NIL ->
  0 <= h <= NIL /\ (h = NIL <-> L = []) /\ (h <> NIL -> h ∈ L /\ 0 <= h < N).
Proof.
  intros Hd HN. pose proof (dll_range _ _ _ _ Hd HN) as Hr.
  pose proof (dll_mem _ _ _ _ Hd) as Hm. pose proof (dll_head _ _ _ _ Hd) as ->.
  destruct L as [|i L]; cbn [first_of]; [unfold NIL; split; [lia|split; [done|by intros []]]|].
  specialize (Hr i ltac:(in_list)). split; [lia|]. split; [split; [lia|done]|].
  intros _. split; [in_list|]. apply Hm. in_list.
Qed.

(** [repr] only looks at the marks and heads pointwise. *)
Lemma repr_ext n0 k H MK H' MK' :
  repr n0 k H MK -> (forall o, H' o = H o) -> (forall o i, MK' o i = MK o i) ->
  repr n0 k H' MK'.
Proof.
  intros [Hn Ho Hm] EH EM. split; [done| |].
  - intros. rewrite EH. by apply Ho.
  - intros. rewrite EM. by apply Hm.
Qed.

Lemma mark_blk_spec n0 k F o b :
  holds n0 k F -> 6 <= o <= 12 -> 0 <= b < 32 * cnt n0 o -> F o b = false ->
  wp (mark_blk o b) (fun _ k' => holds n0 k' (setF F o b true) /\ frame k' = frame k) k.
Proof.
  intros (H & MK & Hr & Hall & HF) Ho Hb Hfree.
  pose proof (blk_mark_range _ _ _ Hb) as Hi.
  pose proof (rp_n0 _ _ _ _ Hr) as Hn.
  destruct (off_cnt_bound n0 o (b / 32) Hn Ho Hi) as (_ & _ & HN).
  destruct (Hall o Ho) as [L HL]. destruct (dll_first _ _ _ _ HL HN) as (Hh & HhL & Hhin).
  pose proof (dll_bits _ _ _ _ HL _ Hi) as Hbm.
  pose proof (Z.mod_pos_bound b 32 ltac:(lia)) as Hj.
  unfold mark_blk. rewrite shiftr_5, land_31.
  set (i := b / 32) in *. set (bm' := Z.lor (bitmap (MK o i)) (Z.shiftl 1 (b mod 32))).
  pose proof (setbit_bound (bitmap (MK o i)) (b mod 32) Hbm Hj) as Hbm'. fold bm' in Hbm'.
  (* the bit is set and the other marks are unchanged *)
  assert (forall MK', (forall o', o' <> o -> MK' o' = MK o') ->
    (forall j, bitmap (MK' o j) = if decide (j = i) then bm' else bitmap (MK o j)) ->
    forall o' b', 6 <= o' <= 12 -> 0 <= b' < 32 * cnt n0 o' ->
      isfree MK' o' b' = setF F o b true o' b') as HFs.
  { intros MK' H1 H2. apply (isfree_setbit MK MK' F n0 o b true); try done.
    - intros j Hne. rewrite H2. by rewrite decide_False.
    - intros j Hj0. rewrite H2, decide_True by done. unfold bm'. rewrite setbit_spec by lia.
      case_decide; [subst; rewrite Z.eqb_refl; apply orb_true_r|].
      rewrite (proj2 (Z.eqb_neq _ _)) by done. apply orb_false_r. }
  wp_step. eapply wp_ld_order; [done|done|]. wp_step. eapply wp_get_mark; [done..|].
  wp_step. eapply wp_ld_mark; [done..|]. wp_step. wp_step.
  { rewrite available_testbit. rewrite <-(HF o b) in Hfree by done. exact Hfree. }
  wp_step. eapply wp_st_mark; [done..|]. intros k1 Hr1 Hf1. cbn [head].
  destruct (Z.eqb_spec (bitmap (MK o i)) 0) as [Hz|Hnz]; cbn [when].
  2: { wp_step. split; [|done]. eexists H, _. split; [exact Hr1|]. split.
       - intros o' Ho'. unfold upd2. case_decide; [subst|by apply Hall].
         exists L. apply dll_setbits; [done|done|]. exact Hbm'.
       - apply HFs; [intros; by apply upd2_ne|]. intros j. rewrite upd2_eq. unfold upd.
         by case_decide. }
  wp_step. eapply wp_st_mark; [exact Hr1|done|done|]. intros k2 Hr2 Hf2.
  pose proof (dll_insert _ _ _ _ i bm' HL HN Hi Hz Hbm') as Hins.
  wp_step. apply wp_when; intros Hhd.
  - destruct (Z.eqb_spec (H o) NIL) as [|Hne]; [done|]. destruct (Hhin Hne) as [_ HhN].
    wp_step. eapply wp_get_mark; [exact Hr2|done|done|].
    wp_step. eapply wp_ld_mark; [exact Hr2|done|done|].
    eapply wp_st_mark; [exact Hr2|done|done|]. intros k3 Hr3 Hf3.
    eapply wp_set_head; [exact Hr3|done|]. intros k4 Hr4 Hf4. split; [|congruence].
    exists (upd2 H o i), (upd2 MK o (link_marks (MK o) (H o) i bm')). split.
    { eapply repr_ext; [exact Hr4|done|]. intros o' j. unfold upd2, link_marks.
      destruct (Z.eqb_spec (H o) NIL); [done|]. case_decide; [|done].
      rewrite !decide_True by done. unfold upd. by repeat case_decide. }
    split; [by eapply dlls_upd|].
    apply HFs; [intros; by apply upd2_ne|]. intros j. rewrite upd2_eq. apply link_marks_bitmap.
  - destruct (Z.eqb_spec (H o) NIL) as [Hnil|]; [|done].
    eapply wp_set_head; [exact Hr2|done|]. intros k4 Hr4 Hf4. split; [|congruence].
    exists (upd2 H o i), (upd2 MK o (link_marks (MK o) (H o) i bm')). split.
    { eapply repr_ext; [exact Hr4|done|]. intros o' j. unfold upd2, link_marks.
      rewrite Hnil, Z.eqb_refl. case_decide; [|done].
      rewrite !decide_True by done. unfold upd. by repeat case_decide. }
    split; [by eapply dlls_upd|].
    apply HFs; [intros; by apply upd2_ne|]. intros j. rewrite upd2_eq. apply link_marks_bitmap.
Qed.

(** A free block's mark is in the list of its order. *)
Lemma free_in_list n0 MK o b L h :
  dll (MK o) h (cnt n0 o) L -> 0 <= b < 32 * cnt n0 o ->
  isfree MK o b = true -> exists L1 L2, L = L1 ++ (b / 32) :: L2.
Proof.
  intros HL Hb Hf. apply list_elem_of_split, (dll_mem _ _ _ _ HL).
  split; [by apply blk_mark_range|]. intros Hz. unfold isfree in Hf.
  by rewrite Hz, Z.bits_0 in Hf.
Qed.

(** The relinking code run on an emptied mark computes [unlink_marks]. *)
Lemma unlink_code n0 k1 k H MK o i L1 L2 Q :
  repr n0 k1 H (upd2 MK o (upd (MK o) i (Mark (lnks (MK o i)) 0))) -> frame k1 = frame k ->
  6 <= o <= 12 -> 0 <= i < cnt n0 o -> dll (MK o) (H o) (cnt n0 o) (L1 ++ i :: L2) ->
  (forall k', repr n0 k' (upd2 H o (unlink_head (MK o) (H o) i))
                (upd2 MK o (unlink_marks (MK o) i)) -> frame k' = frame k -> Q tt k') ->
  wp (let prev := PRE_LNK (lnks (MK o i)) in
      let next := NEXT_LNK (lnks (MK o i)) in
      (if negb (prev =? NIL) then
         p ← get_mark o prev; q ← ld_mark p;
         st_mark p (Mark (LNKS (PRE_LNK (lnks q)) next) (bitmap q))
       else when (H o =? i) (set_head o next)) ;;
      when (negb (next =? NIL)) (
         p ← get_mark o next; q ← ld_mark p;
         st_mark p (Mark (LNKS prev (NEXT_LNK (lnks q))) (bitmap q))) ;;
      m ← ld_mark (off n0 o + i);
      st_mark (off n0 o + i) (Mark (LNKS NIL NIL) (bitmap m))) Q k1.
Proof.
  intros Hr1 Hf1 Ho Hi HL HQ. pose proof (rp_n0 _ _ _ _ Hr1) as Hn.
  destruct (off_cnt_bound n0 o i Hn Ho Hi) as (_ & _ & HN).
  destruct (dll_links _ _ _ _ _ _ HL HN) as (Ep & En & Hp & Hnx).
  assert (PRE_LNK (lnks (MK o i)) <> NIL -> 0 <= PRE_LNK (lnks (MK o i)) < cnt n0 o) as Hpr.
  { rewrite Ep. intros Hne. destruct (last_of_cases NIL L1) as [[_ ?]|[L' HL']]; [done|].
    assert (last_of NIL L1 ∈ L1) by (rewrite HL' at 2; in_list).
    apply (dll_mem _ _ _ _ HL). in_list. }
  assert (NEXT_LNK (lnks (MK o i)) <> NIL -> 0 <= NEXT_LNK (lnks (MK o i)) < cnt n0 o) as Hnr.
  { rewrite En. intros Hne. destruct L2; [done|]. apply (dll_mem _ _ _ _ HL). cbn. in_list. }
  cbv zeta. set (prev := PRE_LNK _) in *. set (next := NEXT_LNK _) in *.
  set (MK0 := upd (MK o) i (Mark (lnks (MK o i)) 0)) in *.
  set (MK1 := if negb (prev =? NIL)
    then upd MK0 prev (Mark (LNKS (PRE_LNK (lnks (MK0 prev))) next) (bitmap (MK0 prev)))
    else MK0).
  set (MK2 := if negb (next =? NIL)
    then upd MK1 next (Mark (LNKS prev (NEXT_LNK (lnks (MK1 next)))) (bitmap (MK1 next)))
    else MK1).
  (* first the previous mark, or the head *)
  wp_step. eapply (wp_mono _ (fun _ k2 => repr n0 k2 (upd2 H o (unlink_head (MK o) (H o) i))
    (upd2 MK o MK1) /\ frame k2 = frame k)).
  { unfold MK1, unlink_head. fold prev next.
    destruct (Z.eqb_spec prev NIL) as [Epn|Hpn]; cbn [negb].
    - destruct (Z.eqb_spec (H o) i); cbn [when].
      + eapply wp_set_head; [exact Hr1|done|]. intros k2 Hr2 Hf2. split; [exact Hr2|congruence].
      + wp_step. split; [|done]. eapply repr_ext; [exact Hr1| |done].
        intros o'. unfold upd2. by case_decide; subst.
    - wp_step. eapply wp_get_mark; [exact Hr1|done|by apply Hpr|].
      wp_step. eapply wp_ld_mark; [exact Hr1|done|by apply Hpr|].
      eapply wp_st_mark; [exact Hr1|done|by apply Hpr|]. intros k2 Hr2 Hf2.
      split; [|congruence]. eapply repr_ext; [exact Hr2| |].
      + intros o'. unfold upd2. by case_decide; subst.
      + intros o' j. rewrite !upd2_eq. unfold upd2. by case_decide. }
  intros [] k2 [Hr2 Hf2].
  (* then the next mark *)
  wp_step. eapply (wp_mono _ (fun _ k3 => repr n0 k3 (upd2 H o (unlink_head (MK o) (H o) i))
    (upd2 MK o MK2) /\ frame k3 = frame k)).
  { unfold MK2. destruct (Z.eqb_spec next NIL) as [|Hnn]; cbn [negb when]; [by wp_step|].
    wp_step. eapply wp_get_mark; [exact Hr2|done|by apply Hnr|].
    wp_step. eapply wp_ld_mark; [exact Hr2|done|by apply Hnr|].
    eapply wp_st_mark; [exact Hr2|done|by apply Hnr|]. intros k3 Hr3 Hf3.
    split; [|congruence]. eapply repr_ext; [exact Hr3|done|].
    intros o' j. rewrite !upd2_eq. unfold upd2. by case_decide. }
  intros [] k3 [Hr3 Hf3].
  wp_step. eapply wp_ld_mark; [exact Hr3|done|done|].
  eapply wp_st_mark; [exact Hr3|done|done|]. intros k4 Hr4 Hf4.
  apply HQ; [|congruence]. eapply repr_ext; [exact Hr4|done|].
  intros o' j. rewrite !upd2_eq. unfold upd2. by case_decide.
Qed.

Lemma unmark_blk_spec n0 k F o b :
  holds n0 k F -> 6 <= o <= 12 -> 0 <= b < 32 * cnt n0 o -> F o b = true ->
  wp (unmark_blk o b) (fun _ k' => holds n0 k' (setF F o b false) /\ frame k' = frame k) k.
Proof.
  intros (H & MK & Hr & Hall & HF) Ho Hb Hfree.
  pose proof (blk_mark_range _ _ _ Hb) as Hi.
  pose proof (rp_n0 _ _ _ _ Hr) as Hn.
  destruct (off_cnt_bound n0 o (b / 32) Hn Ho Hi) as (_ & _ & HN).
  destruct (Hall o Ho) as [L HL].
  pose proof (dll_bits _ _ _ _ HL _ Hi) as Hbm.
  pose proof (Z.mod_pos_bound b 32 ltac:(lia)) as Hj.
  rewrite <-HF in Hfree by done.
  destruct (free_in_list _ _ _ _ _ _ HL Hb Hfree) as (L1 & L2 & ->).
  unfold unmark_blk. rewrite shiftr_5, land_31. unfold isfree in Hfree.
  set (i := b / 32) in *.
  set (bm' := Z.land (bitmap (MK o i)) (Z.lnot (Z.shiftl 1 (b mod 32)))).
  pose proof (clearbit_bound (bitmap (MK o i)) (b mod 32) Hbm ltac:(lia)) as Hbm'. fold bm' in Hbm'.
  assert (forall MK', (forall o', o' <> o -> MK' o' = MK o') ->
    (forall j, bitmap (MK' o j) = if decide (j = i) then bm' else bitmap (MK o j)) ->
    forall o' b', 6 <= o' <= 12 -> 0 <= b' < 32 * cnt n0 o' ->
      isfree MK' o' b' = setF F o b false o' b') as HFs.
  { intros MK' H1 H2. apply (isfree_setbit MK MK' F n0 o b false); try done.
    - intros j Hne. rewrite H2. by rewrite decide_False.
    - intros j Hj0. rewrite H2, decide_True by done. unfold bm'. rewrite clearbit_spec by lia.
      case_decide; [subst; rewrite Z.eqb_refl; apply andb_false_r|].
      rewrite (proj2 (Z.eqb_neq _ _)) by done. apply andb_true_r. }
  wp_step. eapply wp_ld_order; [done|done|]. wp_step. eapply wp_get_mark; [done..|].
  wp_step. eapply wp_ld_mark; [done..|]. wp_step. wp_step.
  { rewrite available_testbit. fold i. by rewrite Hfree. }
  wp_step. eapply wp_st_mark; [done..|]. intros k1 Hr1 Hf1. cbn [head]. fold bm' in Hr1 |- *.
  apply wp_when; intros Hz.
  - apply Z.eqb_eq in Hz. rewrite Hz in Hr1. eapply unlink_code; [exact Hr1|exact Hf1|done|done|exact HL|].
    intros k' Hr' Hf'. split; [|done]. eexists _, _. split; [exact Hr'|]. split.
    + eapply dlls_upd; [done|]. by apply dll_remove.
    + apply HFs; [intros; by apply upd2_ne|]. intros j. rewrite upd2_eq, unlink_marks_bitmap.
      by rewrite Hz.
  - apply Z.eqb_neq in Hz. split; [|done]. eexists H, _. split; [exact Hr1|]. split.
    + intros o' Ho'. unfold upd2. case_decide; [subst|by apply Hall].
      exists (L1 ++ i :: L2). apply dll_setbits; [done| |lia].
      intros E. unfold isfree in Hfree. by rewrite E, Z.bits_0 in Hfree.
    + apply HFs; [intros; by apply upd2_ne|]. intros j. rewrite upd2_eq. unfold upd.
      by case_decide.
Qed.

(** get_blk takes some free block of the order; the list head says whether
    there is one. *)
Lemma head_spec n0 k F o :
  holds n0 k F -> 6 <= o <= 12 ->
  exists h, ld_order o k = Done (Order h (off n0 o)) k /\
    (h = NIL -> forall b, 0 <= b < 32 * cnt n0 o -> F o b = false) /\
    (h <> NIL -> wp (get_blk o) (fun up k' => exists b, 0 <= b < 32 * cnt n0 o /\
       F o b = true /\ up = u64 (start_heap k' + s32 (Z.shiftl 1 o * b)) /\
       holds n0 k' (setF F o b false) /\ frame k' = frame k) k).
Proof.
  intros Hk Ho. pose proof Hk as (H & MK & Hr & Hall & HF).
  destruct (Hall o Ho) as [L HL]. exists (H o).
  assert (0 <= 0 < cnt n0 o) as H0.
  { unfold cnt. pose proof (rp_n0 _ _ _ _ Hr). assert (0 < 2 ^ (12 - o)) by (apply Z.pow_pos_nonneg; lia). nia. }
  destruct (off_cnt_bound n0 o 0 (rp_n0 _ _ _ _ Hr) Ho H0) as (_ & _ & HN).
  destruct (dll_first _ _ _ _ HL HN) as (_ & HLnil & Hin).
  split; [unfold ld_order, deref, MIN_ORD; by rewrite (rp_ord _ _ _ _ Hr)|]. split.
  - intros Hnil b Hb. rewrite <-HF by done. destruct (isfree MK o b) eqn:E; [|done].
    destruct (free_in_list _ _ _ _ _ _ HL Hb E) as (L1 & L2 & ->).
    apply HLnil in Hnil. by destruct L1.
  - intros Hne. destruct (Hin Hne) as [HiL Hi]. set (i := H o) in *.
    pose proof (proj1 (dll_mem _ _ _ _ HL i) HiL) as [_ Hbm].
    pose proof (dll_bits _ _ _ _ HL i Hi) as Hbb.
    unfold get_blk. wp_step. eapply wp_ld_order; [done|done|]. cbn [head]. fold i.
    wp_step. eapply wp_get_mark; [done..|]. wp_step. eapply wp_ld_mark; [done..|].
    wp_step. wp_step; [by apply Z.eqb_neq|].
    apply wp_loop with (mu := fun j => Z.to_nat (32 - j))
      (Inv := fun j k' => k' = k /\ 0 <= j <= 32 /\
         forall t, 0 <= t < j -> Z.testbit (bitmap (MK o i)) t = false); [|lia|].
    { split; [done|]. split; [lia|]. intros; lia. }
    intros j k' (-> & Hj & Hlow). destruct (Z.ltb_spec j 32) as [Hj32|]; cbn [negb].
    2: { destruct Hbm. apply Z.bits_inj_0. intros t.
         destruct (Z.ltb_spec t 0); [by apply Z.testbit_neg_r|].
         destruct (Z.ltb_spec t 32); [apply Hlow; lia|]. by apply (testbit_above _ 32). }
    pose proof (available_testbit (bitmap (MK o i)) j) as Hav. unfold available in Hav.
    rewrite land_31, Z.mod_small in Hav by lia. rewrite Hav.
    destruct (Z.testbit (bitmap (MK o i)) j) eqn:E.
    + assert ((i * 32 + j) / 32 = i /\ (i * 32 + j) mod 32 = j) as [Ed Em].
      { rewrite Z.add_comm, Z.div_add, Z.mod_add, Z.div_small, Z.mod_small by lia. lia. }
      assert (0 <= i * 32 + j < 32 * cnt n0 o) as Hb by lia.
      assert (F o (i * 32 + j) = true) as Hf.
      { rewrite <-HF by done. unfold isfree. by rewrite Ed, Em. }
      wp_step. eapply wp_mono; [by eapply unmark_blk_spec|]. intros [] k' [Hk' Hf'].
      wp_step. unfold blkid2mem. wp_step. wp_step. exists (i * 32 + j). done.
    + wp_step. split; [|lia]. split; [done|]. split; [lia|]. intros t Ht.
      destruct (decide (t = j)) as [->|]; [done|]. apply Hlow. lia.
Qed.

(** ** Layer 3: blocks and the memory they cover

    A granule is a block of the smallest order; block [b] of order [o] is the
    set of granules [g] with [g / 2 ^ (o - 6) = b].  The heap has [K] blocks of
    the largest order. *)

Definition valid (K o b : Z) : Prop := 6 <= o <= 12 /\ 0 <= b < K * 2 ^ (12 - o).
Definition in_blk (o b g : Z) : bool := g / 2 ^ (o - 6) =? b.
Definition covered (F : Z -> Z -> bool) (g : Z) : Prop :=
  exists o, 6 <= o <= 12 /\ F o (g / 2 ^ (o - 6)) = true.

(** Free blocks are in the heap, pairwise disjoint, and no two buddies are
    both free: they would have been merged. *)
Record wf (K : Z) (F : Z -> Z -> bool) : Prop := {
  wf_valid : forall o b, F o b = true -> valid K o b;
  wf_disj : forall o o' b, 6 <= o < o' -> o' <= 12 -> F o b = true ->
    F o' (b / 2 ^ (o' - o)) = false;
  wf_coal : forall o b, 6 <= o < 12 -> F o b = true -> F o (Z.lxor b 1) = false;
}.

Definition can_free (F : Z -> Z -> bool) (o b : Z) : Prop :=
  forall g, in_blk o b g = true -> ~ covered F g.

Lemma div_pow_div g o o' : 6 <= o <= o' ->
  g / 2 ^ (o - 6) / 2 ^ (o' - o) = g / 2 ^ (o' - 6).
Proof.
  intros Ho. rewrite Z.div_div by lia. rewrite <-Z.pow_add_r by lia.
  do 2 f_equal. lia.
Qed.

Lemma block_base o b : 6 <= o -> b * 2 ^ (o - 6) / 2 ^ (o - 6) = b.
Proof. intros. apply Z.div_mul. lia. Qed.

Lemma lxor_1 b : Z.lxor b 1 = if Z.even b then b + 1 else b - 1.
Proof.
  apply Z.bits_inj_iff'. intros i Hi. rewrite Z.lxor_spec.
  destruct (Z.even b) eqn:E.
  - apply Z.even_spec in E as [c ->]. destruct (Z.eqb_spec i 0) as [->|].
    + rewrite Z.testbit_even_0. rewrite Z.add_1_r. replace (Z.succ (2 * c)) with (2 * c + 1) by lia.
      by rewrite Z.testbit_odd_0.
    + replace i with (Z.succ (i - 1)) by lia.
      rewrite Z.testbit_even_succ, Z.testbit_odd_succ by lia.
      change 1 with (2 * 0 + 1) at 2. rewrite Z.testbit_odd_succ, Z.bits_0 by lia. apply xorb_false_r.
  - assert (Z.odd b = true) as Ho by (rewrite <-Z.negb_even; by rewrite E).
    apply Z.odd_spec in Ho as [c ->]. replace (2 * c + 1 - 1) with (2 * c) by lia.
    destruct (Z.eqb_spec i 0) as [->|].
    + by rewrite Z.testbit_even_0, Z.testbit_odd_0.
    + replace i with (Z.succ (i - 1)) by lia.
      rewrite Z.testbit_even_succ, Z.testbit_odd_succ by lia.
      change 1 with (2 * 0 + 1) at 2. rewrite Z.testbit_odd_succ, Z.bits_0 by lia. apply xorb_false_r.
Qed.

(** The two children of a block. *)
Lemma buddy_div2 b c : c / 2 = b / 2 <-> c = b \/ c = Z.lxor b 1.
Proof.
  rewrite lxor_1, Zeven_mod. destruct (Z.eqb_spec (b mod 2) 0) as [E|E]; rewrite ?E.
  - cbn [Z.eqb]. Z.div_mod_to_equations; lia.
  - Z.div_mod_to_equations; lia.
Qed.

Lemma lxor_1_invol b : Z.lxor (Z.lxor b 1) 1 = b.
Proof. rewrite Z.lxor_assoc, Z.lxor_nilpotent. apply Z.lxor_0_r. Qed.

(** Two free blocks never cover the same granule. *)
Lemma wf_unique K F o o' g :
  wf K F -> 6 <= o <= 12 -> 6 <= o' <= 12 ->
  F o (g / 2 ^ (o - 6)) = true -> F o' (g / 2 ^ (o' - 6)) = true -> o = o'.
Proof.
  intros Hwf Ho Ho' H H'. destruct (Z.lt_trichotomy o o') as [Hlt|[?|Hlt]]; [|done|].
  - pose proof (wf_disj _ _ Hwf o o' _ ltac:(lia) ltac:(lia) H) as Hd.
    rewrite div_pow_div in Hd by lia. congruence.
  - pose proof (wf_disj _ _ Hwf o' o _ ltac:(lia) ltac:(lia) H') as Hd.
    rewrite div_pow_div in Hd by lia. congruence.
Qed.

Lemma wf_remove K F o b :
  wf K F -> F o b = true ->
  wf K (setF F o b false) /\
  (forall g, covered (setF F o b false) g <-> covered F g /\ in_blk o b g = false).
Proof.
  intros Hwf Hb. pose proof (wf_valid _ _ Hwf _ _ Hb) as [Ho _].
  assert (forall o' b', setF F o b false o' b' = true -> F o' b' = true) as Hsub.
  { intros o' b'. unfold setF. by case_decide. }
  split.
  - split.
    + intros o' b' H. by apply (wf_valid _ _ Hwf), Hsub.
    + intros o1 o2 b1 H1 H2 H. apply Hsub in H.
      pose proof (wf_disj _ _ Hwf _ _ _ H1 H2 H). unfold setF. by case_decide.
    + intros o1 b1 H1 H. apply Hsub in H. pose proof (wf_coal _ _ Hwf _ _ H1 H).
      unfold setF. by case_decide.
  - intros g. unfold in_blk. split.
    + intros (o' & Ho' & H). split; [exists o'; auto|].
      apply Z.eqb_neq. intros E. assert (o' = o) as ->.
      { apply (wf_unique K F o' o g Hwf); auto. by rewrite E. }
      rewrite E, setF_eq in H. done.
    + intros [(o' & Ho' & H) Hn]. exists o'. split; [done|]. rewrite setF_ne; [done|].
      intros [-> E]. apply Z.eqb_neq in Hn. done.
Qed.

Lemma wf_add K F o b :
  wf K F -> valid K o b -> can_free F o b -> (o = 12 \/ F o (Z.lxor b 1) = false) ->
  wf K (setF F o b true) /\
  (forall g, covered (setF F o b true) g <-> covered F g \/ in_blk o b g = true).
Proof.
  intros Hwf Hv Hcf Hbuddy. pose proof Hv as [Ho _]. split.
  - split.
    + intros o' b'. unfold setF. case_decide as Hd; [by destruct Hd as [-> ->]|].
      apply (wf_valid _ _ Hwf).
    + intros o1 o2 b1 H1 H2. unfold setF.
      destruct (decide (o1 = o /\ b1 = b)) as [[-> ->]|Hn1].
      * intros _. rewrite decide_False by lia. destruct (F o2 _) eqn:E; [|done].
        destruct (Hcf (b * 2 ^ (o - 6))); [unfold in_blk; apply Z.eqb_eq, block_base; lia|].
        exists o2. split; [lia|]. rewrite <-(div_pow_div _ o) by lia. by rewrite block_base by lia.
      * intros H. case_decide as Hn2; [|by apply (wf_disj _ _ Hwf)].
        destruct Hn2 as [-> E]. destruct (Hcf (b1 * 2 ^ (o1 - 6))).
        { unfold in_blk. apply Z.eqb_eq. rewrite <-(div_pow_div _ o1) by lia.
          by rewrite block_base by lia. }
        exists o1. split; [lia|]. by rewrite block_base by lia.
    + intros o1 b1 H1. unfold setF.
      destruct (decide (o1 = o /\ b1 = b)) as [[-> ->]|Hn1].
      * intros _. case_decide as Hd; [|destruct Hbuddy; [lia|done]].
        destruct Hd as [_ E]. rewrite lxor_1 in E. destruct (Z.even b); lia.
      * intros H. case_decide as Hd; [|by apply (wf_coal _ _ Hwf)].
        destruct Hd as [-> E]. exfalso. destruct Hbuddy as [?|Hbuddy]; [lia|].
        rewrite <-E, lxor_1_invol in Hbuddy. congruence.
  - intros g. unfold in_blk, covered. split.
    + intros (o' & Ho' & H). unfold setF in H. case_decide as Hd; [|left; eauto].
      destruct Hd as [-> E]. right. by apply Z.eqb_eq.
    + intros [(o' & Ho' & H)|H].
      * exists o'. split; [done|]. unfold setF. by case_decide.
      * apply Z.eqb_eq in H. exists o. split; [done|]. by rewrite H, setF_eq.
Qed.

(** Merging: after its free buddy is taken out, the parent can be freed. *)
Lemma wf_merge K F o b :
  wf K F -> valid K o b -> can_free F o b -> o < 12 -> F o (Z.lxor b 1) = true ->
  let F1 := setF F o (Z.lxor b 1) false in
  wf K F1 /\ valid K (o + 1) (b / 2) /\ can_free F1 (o + 1) (b / 2) /\
  (forall g, covered F1 g \/ in_blk (o + 1) (b / 2) g = true <->
     covered F g \/ in_blk o b g = true).
Proof.
  intros Hwf [Ho Hb] Hcf Ho12 Hbud F1.
  destruct (wf_remove K F o _ Hwf Hbud) as [Hwf1 Hc1]. fold F1 in Hwf1, Hc1.
  assert (forall g, in_blk (o + 1) (b / 2) g = true <->
    in_blk o b g = true \/ in_blk o (Z.lxor b 1) g = true) as Hpar.
  { intros g. unfold in_blk. rewrite !Z.eqb_eq, <-buddy_div2.
    rewrite <-(div_pow_div g o (o + 1)) by lia. by replace (o + 1 - o) with 1 by lia. }
  split; [done|]. split; [|split].
  - split; [lia|]. replace (12 - o) with (Z.succ (12 - (o + 1))) in Hb by lia.
    rewrite Z.pow_succ_r in Hb by lia. split; [apply Z.div_pos; lia|].
    apply Z.div_lt_upper_bound; lia.
  - intros g Hg Hcov. apply Hc1 in Hcov as [Hcov Hn]. apply Hpar in Hg as [Hg|Hg]; [|congruence].
    by apply (Hcf g).
  - intros g. rewrite Hc1, Hpar. split.
    + intros [[? _]|[?|Hg]]; [tauto|tauto|]. left. exists o. split; [done|].
      apply Z.eqb_eq in Hg. by rewrite Hg.
    + destruct (in_blk o (Z.lxor b 1) g); tauto.
Qed.

(** ** The allocator refines the block algebra *)

Record heap (K n0 : Z) (k : kmem) (F : Z -> Z -> bool) : Prop := {
  hp_holds : holds n0 k F;
  hp_wf : wf K F;
  hp_K : 0 <= K <= 32 * n0;
  hp_align : start_heap k mod 4096 = 0;
  hp_pos : 0 < start_heap k;
  hp_end : start_heap k + K * 4096 <= 2 ^ 64;
}.

Lemma heap_n0 K n0 k F : heap K n0 k F -> 0 < n0 <= 1023.
Proof. intros [(H & MK & Hr & _) _ _ _ _ _]. by apply (rp_n0 _ _ _ _ Hr). Qed.

Lemma heap_step K n0 k F k' F' :
  heap K n0 k F -> holds n0 k' F' -> wf K F' -> frame k' = frame k -> heap K n0 k' F'.
Proof.
  intros [Hh Hw HK Ha Hp He] Hh' Hw' Hf.
  assert (start_heap k' = start_heap k) as E by (unfold frame in Hf; congruence).
  split; rewrite ?E; done.
Qed.

Definition addr (k : kmem) (o b : Z) : Z := start_heap k + 2 ^ o * b.

(** The byte range of a block lies inside the heap. *)
Lemma block_bytes K n0 k F o b :
  heap K n0 k F -> valid K o b ->
  0 <= 2 ^ o * b /\ 2 ^ o * b + 2 ^ o <= K * 4096 /\ 0 <= b < 32 * cnt n0 o /\
  K * 4096 < 2 ^ 31.
Proof.
  intros Hh [Ho Hb]. pose proof (heap_n0 _ _ _ _ Hh). pose proof (hp_K _ _ _ _ Hh).
  unfold cnt. split_order Ho; cbn in *; lia.
Qed.

Lemma blkid2mem_spec K n0 k F o b :
  heap K n0 k F -> valid K o b -> blkid2mem o b k = Done (addr k o b) k.
Proof.
  intros Hh Hv. destruct (block_bytes _ _ _ _ _ _ Hh Hv) as (H0 & H1 & _ & H2).
  pose proof (hp_pos _ _ _ _ Hh). pose proof (hp_end _ _ _ _ Hh). destruct Hv as [Ho Hb].
  assert (0 < 2 ^ o) by (apply Z.pow_pos_nonneg; lia).
  unfold blkid2mem, gets, addr, s32, u64. rewrite Z.shiftl_1_l.
  rewrite (Z.mod_small (2 ^ o * b + 2 ^ 31)) by lia.
  rewrite Z.mod_small by lia. f_equal. lia.
Qed.

Lemma mem2blkid_spec K n0 k F o b :
  heap K n0 k F -> valid K o b -> mem2blkid o (addr k o b) k = Done b k.
Proof.
  intros Hh Hv. destruct (block_bytes _ _ _ _ _ _ Hh Hv) as (H0 & H1 & H3 & H2).
  destruct Hv as [Ho Hb]. assert (0 < 2 ^ o) by (apply Z.pow_pos_nonneg; lia).
  unfold mem2blkid, gets, addr, s32, u64.
  replace (start_heap k + 2 ^ o * b - start_heap k) with (b * 2 ^ o) by lia.
  rewrite (Z.mod_small (b * 2 ^ o)) by lia. rewrite Z.shiftr_div_pow2, Z.div_mul by lia.
  rewrite Z.mod_small by nia. f_equal. lia.
Qed.

Lemma addr_frame k k' o b : frame k' = frame k -> addr k' o b = addr k o b.
Proof. unfold frame, addr. intros. congruence. Qed.

(** the blocks of [k] are read through [F] *)
Lemma wp_blk_bits K n0 k F o b :
  heap K n0 k F -> valid K o b ->
  wp (mk ← get_mark o (Z.shiftr b 5); ld_mark mk)
     (fun m k' => k' = k /\ available (bitmap m) b = F o b /\
        available (bitmap m) (Z.lxor b 1) = F o (Z.lxor b 1)) k.
Proof.
  intros Hh Hv. destruct (block_bytes _ _ _ _ _ _ Hh Hv) as (_ & _ & Hb & _).
  destruct (hp_holds _ _ _ _ Hh) as (H & MK & Hr & _ & HF). destruct Hv as [Ho _].
  rewrite shiftr_5. wp_step. eapply wp_get_mark; [done|done|by apply blk_mark_range|].
  eapply wp_ld_mark; [done|done|by apply blk_mark_range|]. split; [done|].
  rewrite !available_testbit. split; [by apply HF|].
  assert (Z.lxor b 1 / 32 = b / 32 /\ 0 <= Z.lxor b 1 < 32 * cnt n0 o) as [E Hx].
  { rewrite lxor_1, Zeven_mod. destruct (Z.eqb_spec (b mod 2) 0) as [E|E];
      rewrite ?E; cbn [Z.eqb]; Z.div_mod_to_equations; lia. }
  rewrite <-HF by done. unfold isfree. by rewrite E.
Qed.

Lemma land_not1 b : Z.land b (Z.lnot 1) = 2 * (b / 2).
Proof.
  rewrite <-Z.ldiff_land. change 1 with (Z.ones 1). rewrite Z.ldiff_ones_r by lia.
  rewrite Z.shiftr_div_pow2, Z.shiftl_mul_pow2 by lia. apply Z.mul_comm.
Qed.

Definition frees (K n0 : Z) (k : kmem) F (o b : Z) (k' : kmem) F' : Prop :=
  heap K n0 k' F' /\ frame k' = frame k /\
  forall g, covered F' g <-> covered F g \/ in_blk o b g = true.

Lemma can_free_false F o b : 6 <= o <= 12 -> can_free F o b -> F o b = false.
Proof.
  intros Ho Hcf. destruct (F o b) eqn:E; [|done].
  destruct (Hcf (b * 2 ^ (o - 6))); [unfold in_blk; apply Z.eqb_eq, block_base; lia|].
  exists o. split; [done|]. by rewrite block_base by lia.
Qed.

Lemma kfree__spec K n0 fuel k F o b :
  heap K n0 k F -> valid K o b -> can_free F o b -> 12 - o < Z.of_nat fuel ->
  wp (kfree_ fuel (addr k o b) o) (fun _ k' => exists F', frees K n0 k F o b k' F') k.
Proof.
  revert k F o b. induction fuel as [|fuel IH]; intros k F o b Hh Hv Hcf Hfuel;
    pose proof Hv as [Ho _]; [lia|]. cbn [kfree_].
  wp_step. eapply wp_eq; [by eapply mem2blkid_spec|].
  pose proof (wp_blk_bits _ _ _ _ _ _ Hh Hv) as Hbits. apply wp_bind_inv in Hbits.
  wp_step. eapply wp_mono; [exact Hbits|]. cbn beta. intros mk k0 Hld.
  wp_step. eapply wp_mono; [exact Hld|]. cbn beta. intros m k1 (-> & Hav & Hbud).
  wp_step. wp_step; [rewrite Hav; by apply can_free_false|]. rewrite Hbud.
  destruct (block_bytes _ _ _ _ _ _ Hh Hv) as (_ & _ & Hrange & _).
  destruct (negb (F o (Z.lxor b 1)) || (o =? MAX_ORD)) eqn:Ec.
  - eapply wp_mono; [apply (mark_blk_spec n0 k F); [apply (hp_holds _ _ _ _ Hh)|done|done|by apply can_free_false]|].
    cbn beta. intros _ k' [Hk' Hf']. eexists.
    destruct (wf_add K F o b (hp_wf _ _ _ _ Hh) Hv Hcf) as [Hw Hc].
    { apply orb_true_iff in Ec as [Ec|Ec]; [right; by apply negb_true_iff|left; by apply Z.eqb_eq]. }
    split; [by eapply heap_step|]. done.
  - apply orb_false_iff in Ec as [Ec E12]. apply negb_false_iff in Ec. apply Z.eqb_neq in E12.
    unfold MAX_ORD in E12.
    destruct (wf_merge K F o b (hp_wf _ _ _ _ Hh) Hv Hcf ltac:(lia) Ec) as (Hw1 & Hv1 & Hcf1 & Hc1).
    pose proof (wf_valid _ _ (hp_wf _ _ _ _ Hh) _ _ Ec) as Hvb.
    destruct (block_bytes _ _ _ _ _ _ Hh Hvb) as (_ & _ & Hrb & _).
    wp_step. eapply wp_mono; [apply (unmark_blk_spec n0 k F); [apply (hp_holds _ _ _ _ Hh)|done..]|].
    cbn beta. intros _ k1 [Hk1 Hf1].
    pose proof (heap_step _ _ _ _ _ _ Hh Hk1 Hw1 Hf1) as Hh1.
    assert (valid K o (2 * (b / 2))) as Hv2.
    { destruct Hv as [_ Hb]. split; [done|]. Z.div_mod_to_equations; lia. }
    rewrite land_not1. wp_step. eapply wp_eq; [by eapply blkid2mem_spec|].
    replace (addr k1 o (2 * (b / 2))) with (addr k1 (o + 1) (b / 2)).
    2: { unfold addr. rewrite Z.pow_add_r by lia. lia. }
    eapply wp_mono; [apply (IH k1 _ _ _ Hh1 Hv1 Hcf1); lia|]. cbn beta.
    intros _ k' (F' & Hh' & Hf' & Hc'). exists F'. split; [done|]. split; [congruence|].
    intros g. by rewrite Hc', Hc1.
Qed.

Definition allocs (K n0 : Z) (k : kmem) F (o : Z) (up : Z) (k' : kmem) : Prop :=
  (up = 0 /\ k' = k /\ forall o' b, o <= o' <= 12 -> F o' b = false) \/
  (exists b F', up = addr k o b /\ valid K o b /\ heap K n0 k' F' /\ frame k' = frame k /\
     (forall g, in_blk o b g = true -> covered F g) /\
     (forall g, covered F' g <-> covered F g /\ in_blk o b g = false)).

(** The two halves of a block. *)
Lemma halves o b g : 6 <= o ->
  in_blk (o + 1) b g = in_blk o (2 * b) g || in_blk o (2 * b + 1) g /\
  (in_blk o (2 * b) g = true -> in_blk o (2 * b + 1) g = false).
Proof.
  intros Ho. unfold in_blk. rewrite <-(div_pow_div g o (o + 1)) by lia.
  replace (o + 1 - o) with 1 by lia. change (2 ^ 1) with 2. set (x := g / 2 ^ (o - 6)).
  split; [|lia]. apply eq_true_iff_eq. rewrite orb_true_iff, !Z.eqb_eq.
  Z.div_mod_to_equations; lia.
Qed.

Lemma get_blk_allocs K n0 k F o h :
  heap K n0 k F -> 6 <= o <= 12 -> h <> NIL ->
  (h <> NIL -> wp (get_blk o) (fun up k' => exists b, 0 <= b < 32 * cnt n0 o /\
       F o b = true /\ up = u64 (start_heap k' + s32 (Z.shiftl 1 o * b)) /\
       holds n0 k' (setF F o b false) /\ frame k' = frame k) k) ->
  wp (get_blk o) (allocs K n0 k F o) k.
Proof.
  intros Hh Ho Hne Hget. eapply wp_mono; [by apply Hget|]. cbn beta.
  intros up k' (b & Hb & HF & -> & Hk' & Hf'). right.
  pose proof (wf_valid _ _ (hp_wf _ _ _ _ Hh) _ _ HF) as Hv.
  destruct (wf_remove K F o b (hp_wf _ _ _ _ Hh) HF) as [Hw Hc].
  pose proof (heap_step _ _ _ _ _ _ Hh Hk' Hw Hf') as Hh'.
  pose proof (blkid2mem_spec _ _ _ _ _ _ Hh' Hv) as Hmem. unfold blkid2mem, gets in Hmem.
  exists b, (setF F o b false). split; [rewrite <-(addr_frame k k') by done; congruence|].
  split; [done|]. split; [done|]. split; [done|]. split; [|done].
  intros g Hg. exists o. split; [done|]. apply Z.eqb_eq in Hg. by rewrite Hg.
Qed.

Lemma split_parent K n0 k F o b1 k1 F1 :
  heap K n0 k F -> 6 <= o < 12 -> valid K (o + 1) b1 -> heap K n0 k1 F1 -> frame k1 = frame k ->
  (forall g, in_blk (o + 1) b1 g = true -> covered F g) ->
  (forall g, covered F1 g <-> covered F g /\ in_blk (o + 1) b1 g = false) ->
  wp (kfree_ (Z.to_nat N_ORD) (u64 (addr k (o + 1) b1 + Z.shiftl 1 o)) o ;; mret (addr k (o + 1) b1))
    (allocs K n0 k F o) k1.
Proof.
  intros Hh Ho [_ Hb1] Hh1 Hf1 Hin1 Hc1.
  assert (K * 2 ^ (12 - o) = 2 * (K * 2 ^ (12 - (o + 1)))) as EK.
  { replace (12 - o) with (Z.succ (12 - (o + 1))) by lia. rewrite Z.pow_succ_r by lia. ring. }
  assert (valid K o (2 * b1) /\ valid K o (2 * b1 + 1)) as [Hv0 Hv1] by (split; split; lia).
  assert (addr k (o + 1) b1 = addr k1 o (2 * b1)) as Ea.
  { rewrite (addr_frame k k1) by done. unfold addr. rewrite Z.pow_add_r by lia. lia. }
  assert (u64 (addr k (o + 1) b1 + Z.shiftl 1 o) = addr k1 o (2 * b1 + 1)) as Ea1.
  { rewrite Ea, Z.shiftl_1_l. replace (addr k1 o (2 * b1) + 2 ^ o) with (addr k1 o (2 * b1 + 1))
      by (unfold addr; lia).
    destruct (block_bytes _ _ _ _ _ _ Hh1 Hv1) as (H0 & H1 & _).
    pose proof (hp_pos _ _ _ _ Hh1). pose proof (hp_end _ _ _ _ Hh1).
    assert (0 < 2 ^ o) by (apply Z.pow_pos_nonneg; lia).
    unfold u64, addr. apply Z.mod_small. lia. }
  rewrite Ea1. wp_step.
  eapply wp_mono; [apply (kfree__spec K n0 _ k1 F1 o (2 * b1 + 1)); [done|done| |]|].
  - intros g Hg Hcov. apply Hc1 in Hcov as [_ Hn].
    destruct (halves o b1 g ltac:(lia)) as [E _]. rewrite E, Hg, orb_true_r in Hn. done.
  - change (Z.to_nat N_ORD) with 7%nat. lia.
  - cbn beta. intros _ k' (F' & Hh' & Hf' & Hc'). wp_step. right. exists (2 * b1), F'.
    split; [rewrite Ea; by apply addr_frame|]. split; [done|]. split; [done|].
    split; [congruence|]. split.
    + intros g Hg. apply Hin1. destruct (halves o b1 g ltac:(lia)) as [E _]. by rewrite E, Hg.
    + intros g. rewrite Hc', Hc1. destruct (halves o b1 g ltac:(lia)) as [E Hx]. rewrite E.
      pose proof (Hin1 g) as Hi. rewrite E in Hi.
      destruct (in_blk o (2 * b1) g), (in_blk o (2 * b1 + 1) g); cbn in *; naive_solver.
Qed.

Lemma kmalloc__spec K n0 fuel k F o :
  heap K n0 k F -> 6 <= o <= 12 -> 12 - o < Z.of_nat fuel ->
  wp (kmalloc_ fuel o) (allocs K n0 k F o) k.
Proof.
  revert o. induction fuel as [|fuel IH]; intros o Hh Ho Hfuel; [lia|]. cbn [kmalloc_].
  destruct (head_spec n0 k F o (hp_holds _ _ _ _ Hh) Ho) as (h & Hld & Hnil & Hget).
  wp_step. eapply wp_eq; [exact Hld|]. cbn [head].
  destruct (Z.eqb_spec h NIL) as [E|Hne]; cbn [negb]; [|by eapply get_blk_allocs].
  assert (forall b, F o b = false) as Hno.
  { intros b. destruct (F o b) eqn:Eb; [|done].
    pose proof (wf_valid _ _ (hp_wf _ _ _ _ Hh) _ _ Eb) as Hv.
    destruct (block_bytes _ _ _ _ _ _ Hh Hv) as (_ & _ & Hb & _).
    rewrite (Hnil E b Hb) in Eb. done. }
  destruct (Z.ltb_spec o MAX_ORD) as [Hlt|Hge]; unfold MAX_ORD in *.
  2: { wp_step. left. split; [done|]. split; [done|]. intros o' b Ho'.
       by assert (o' = o) as -> by lia. }
  wp_step. eapply wp_mono; [apply (IH (o + 1) Hh); lia|]. cbn beta.
  intros up k1 [(-> & -> & Hn)|(b1 & F1 & -> & Hv1 & Hh1 & Hf1 & Hin1 & Hc1)].
  - cbn [Z.eqb negb when]. wp_step. wp_step. wp_step. left. split; [done|]. split; [done|].
    intros o' b Ho'. destruct (decide (o' = o)) as [->|]; [done|]. apply Hn. lia.
  - assert (0 < addr k (o + 1) b1) as Hpos.
    { destruct (block_bytes _ _ _ _ _ _ Hh Hv1) as (H0 & _).
      pose proof (hp_pos _ _ _ _ Hh). unfold addr. lia. }
    rewrite (proj2 (Z.eqb_neq _ 0)) by lia. cbn [negb when].
    eapply split_parent; done || lia.
Qed.

(** ** The allocator's specification, read off its state *)

(** block [b] of order [o] is recorded free in [k] *)
Definition free_blk (K : Z) (k : kmem) (o b : Z) : bool :=
  (6 <=? o) && (o <=? 12) && (0 <=? b) && (b <? K * 2 ^ (12 - o)) &&
  match at_ (orders k) (o - MIN_ORD) with
  | Some ord => match at_ (marks k) (offset ord + b / 32) with
                | Some m => available (bitmap m) b
                | None => false
                end
  | None => false
  end.
Definition granule_free (K : Z) (k : kmem) (g : Z) : bool :=
  existsb (fun o => free_blk K k o (g / 2 ^ (o - 6))) [6; 7; 8; 9; 10; 11; 12].

(** The allocator's invariant for a heap of [K] largest blocks. *)
Definition Inv (K : Z) (k : kmem) : Prop :=
  lock k = false /\ exists n0 F, heap K n0 k F.

Lemma free_blk_F K n0 k F o b : heap K n0 k F -> free_blk K k o b = F o b.
Proof.
  intros Hh. unfold free_blk.
  destruct (decide (valid K o b)) as [Hv|Hn].
  - pose proof Hv as [Ho Hb]. destruct (block_bytes _ _ _ _ _ _ Hh Hv) as (_ & _ & Hr & _).
    destruct (hp_holds _ _ _ _ Hh) as (H & MK & Hrep & _ & HF).
    rewrite !(proj2 (Z.leb_le _ _)), (proj2 (Z.ltb_lt _ _)) by lia. cbn [andb].
    unfold MIN_ORD. rewrite (rp_ord _ _ _ _ Hrep) by done. cbn [offset].
    rewrite (rp_mark _ _ _ _ Hrep) by (done || by apply blk_mark_range).
    rewrite available_testbit. by rewrite <-HF.
  - destruct (F o b) eqn:E; [destruct Hn; by apply (wf_valid _ _ (hp_wf _ _ _ _ Hh))|].
    destruct (Z.leb_spec 6 o), (Z.leb_spec o 12), (Z.leb_spec 0 b),
      (Z.ltb_spec b (K * 2 ^ (12 - o))); try done. destruct Hn. split; lia.
Qed.

Lemma granule_free_F K n0 k F g : heap K n0 k F -> granule_free K k g = true <-> covered F g.
Proof.
  intros Hh. unfold granule_free, covered. rewrite existsb_exists. split.
  - intros (o & Ho & HF). rewrite (free_blk_F _ _ _ _ _ _ Hh) in HF. exists o. split; [|done].
    cbn in Ho. lia.
  - intros (o & Ho & HF). exists o. rewrite (free_blk_F _ _ _ _ _ _ Hh). split; [cbn; lia|done].
Qed.

Lemma heap_lock K n0 k F b : heap K n0 k F -> heap K n0 (lset kmem_lock b k) F.
Proof.
  intros [(H & MK & [Hn Ho Hm] & Hd) Hw HK Ha Hp He]. split; try done.
  exists H, MK. split; [|done]. by split.
Qed.

Lemma unlock_id k : lock k = false -> lset kmem_lock false (lset kmem_lock true k) = k.
Proof. intros Hl. destruct k; cbn in *. by rewrite Hl. Qed.

Lemma wp_Done {S A} (m : M S A) Q s : wp m Q s -> exists a s', m s = Done a s' /\ Q a s'.
Proof. apply wp_done. Qed.

(** kmalloc either leaves the state alone, when no block of the order or a
    larger one is free, or hands out a free, aligned block and takes exactly
    its bytes out of the free memory. *)
Lemma kmalloc_spec K n0 k F o :
  lock k = false -> heap K n0 k F -> 6 <= o <= 12 ->
  wp (kmalloc o) (fun p k' => lock k' = false /\ allocs K n0 k F o p k') k.
Proof.
  intros Hl Hh Ho. unfold kmalloc, MAX_ORD, MIN_ORD.
  wp_step. wp_step; [destruct (Z.ltb_spec 12 o), (Z.ltb_spec o 6); done || lia|].
  wp_step. wp_step; [done|]. wp_step.
  eapply wp_mono; [apply (kmalloc__spec K n0 _ _ F o); [by apply heap_lock|done|change (Z.to_nat N_ORD) with 7%nat; lia]|].
  cbn beta. intros p k1 [(-> & -> & Hn)|(b & F' & -> & Hv & Hh' & Hf' & Hin & Hc)].
  - wp_step. wp_step; [done|]. wp_step. split; [done|]. left. rewrite unlock_id by done. done.
  - wp_step. wp_step; [unfold frame in Hf'; cbn in *; congruence|]. wp_step. split; [done|].
    right. exists b, F'. split; [done|]. split; [done|]. split; [by apply heap_lock|].
    split; [|done]. unfold frame in *. cbn in *. congruence.
Qed.

Lemma kfree_spec K n0 k F o b :
  lock k = false -> heap K n0 k F -> valid K o b -> can_free F o b ->
  wp (kfree (addr k o b) o) (fun _ k' => lock k' = false /\ exists F', frees K n0 k F o b k' F') k.
Proof.
  intros Hl Hh Hv Hcf. pose proof Hv as [Ho _]. unfold kfree, MAX_ORD, MIN_ORD.
  assert (Z.land (addr k o b) (Z.shiftl 1 o - 1) = 0) as Hal.
  { rewrite Z.shiftl_1_l. replace (2 ^ o - 1) with (Z.ones o) by (rewrite Z.ones_equiv; lia).
    rewrite Z.land_ones by lia. unfold addr.
    pose proof (hp_align _ _ _ _ Hh) as Ha. apply Z.mod_divide in Ha as [c ->]; [|lia].
    assert (4096 = 2 ^ o * 2 ^ (12 - o)) as -> by (rewrite <-Z.pow_add_r by lia; by replace (o + (12 - o)) with 12 by lia).
    replace (c * _ + _) with ((c * 2 ^ (12 - o) + b) * 2 ^ o) by ring.
    apply Z.mod_mul. assert (0 < 2 ^ o) by (apply Z.pow_pos_nonneg; lia). lia. }
  wp_step. wp_step.
  { rewrite Hal. destruct (Z.ltb_spec 12 o), (Z.ltb_spec o 6); done || lia. }
  wp_step. wp_step; [done|]. wp_step.
  eapply wp_mono; [apply (kfree__spec K n0 _ (lset kmem_lock true k) F o b);
    [by apply heap_lock|done|done|change (Z.to_nat N_ORD) with 7%nat; lia]|].
  cbn beta. intros _ k1 (F' & Hh' & Hf' & Hc).
  wp_step; [unfold frame in Hf'; cbn in *; congruence|]. split; [done|].
  exists F'. split; [by apply heap_lock|]. split; [|done].
  unfold frame in *. cbn in *. congruence.
Qed.

(** ** The free blocks are determined by the free memory *)

Lemma covered_block K F n b :
  wf K F -> (n <= 6)%nat ->
  (forall g, in_blk (6 + Z.of_nat n) b g = true -> covered F g) ->
  exists o', 6 + Z.of_nat n <= o' <= 12 /\ F o' (b / 2 ^ (o' - (6 + Z.of_nat n))) = true.
Proof.
  intros Hwf. revert b. induction n as [|n IH]; intros b Hn Hcov.
  - destruct (Hcov b) as (o' & Ho' & HF).
    { unfold in_blk. apply Z.eqb_eq. cbn. by rewrite Z.div_1_r. }
    exists o'. cbn. split; [lia|done].
  - set (o := 6 + Z.of_nat n) in *. replace (6 + Z.of_nat (S n)) with (o + 1) in * by lia.
    assert (forall c, c / 2 = b -> exists o', o <= o' <= 12 /\ F o' (c / 2 ^ (o' - o)) = true) as Hch.
    { intros c Hc. apply IH; [lia|]. intros g Hg. apply Hcov. unfold in_blk in *.
      apply Z.eqb_eq in Hg. apply Z.eqb_eq. rewrite <-(div_pow_div g o (o + 1)) by lia.
      rewrite Hg. by replace (o + 1 - o) with 1 by lia. }
    assert (forall c, c / 2 = b -> (exists o', o + 1 <= o' <= 12 /\ F o' (b / 2 ^ (o' - (o + 1))) = true)
      \/ F o c = true) as Hup.
    { intros c Hc. destruct (Hch c Hc) as (o' & Ho' & HF). destruct (decide (o' = o)) as [->|].
      - right. by rewrite Z.sub_diag, Z.div_1_r in HF.
      - left. exists o'. split; [lia|]. rewrite <-Hc, Z.div_div by lia.
        change 2 with (2 ^ 1) at 1. rewrite <-Z.pow_add_r by lia.
        by replace (1 + (o' - (o + 1))) with (o' - o) by lia. }
    destruct (Hup (2 * b)) as [?|H0]; [rewrite Z.mul_comm; apply Z.div_mul; lia|done|].
    destruct (Hup (2 * b + 1)) as [?|H1]; [Z.div_mod_to_equations; lia|done|].
    pose proof (wf_coal _ _ Hwf o (2 * b) ltac:(lia) H0) as Hc.
    rewrite lxor_1, Z.even_mul in Hc. cbn in Hc. congruence.
Qed.

Lemma wf_canonical K F F' :
  wf K F -> wf K F' -> (forall g, covered F g <-> covered F' g) ->
  forall o b, F o b = F' o b.
Proof.
  enough (forall F F', wf K F -> wf K F' -> (forall g, covered F g <-> covered F' g) ->
    forall o b, F o b = true -> F' o b = true) as Himp.
  { intros Hw Hw' Hc o b. apply eq_true_iff_eq. split; apply Himp; auto. intros; by rewrite Hc. }
  clear F F'. intros F F' Hw Hw' Hc o b HF.
  pose proof (wf_valid _ _ Hw _ _ HF) as [Ho _].
  assert (forall F1 F2 o b, wf K F1 -> wf K F2 -> (forall g, covered F1 g <-> covered F2 g) ->
    6 <= o <= 12 -> F1 o b = true -> exists o', o <= o' <= 12 /\ F2 o' (b / 2 ^ (o' - o)) = true) as Hex.
  { intros F1 F2 o1 b1 Hw1 Hw2 Hc12 Ho1 H1.
    destruct (covered_block K F2 (Z.to_nat (o1 - 6)) b1 Hw2 ltac:(lia)) as (o' & Ho' & H2).
    - intros g Hg. apply Hc12. exists o1. split; [done|].
      replace (6 + Z.of_nat (Z.to_nat (o1 - 6))) with o1 in Hg by lia.
      apply Z.eqb_eq in Hg. by rewrite Hg.
    - exists o'. by replace (6 + Z.of_nat (Z.to_nat (o1 - 6))) with o1 in * by lia. }
  destruct (Hex F F' o b Hw Hw' Hc Ho HF) as (o1 & Ho1 & H1).
  destruct (Hex F' F o1 _ Hw' Hw ltac:(intros; by rewrite Hc) ltac:(lia) H1) as (o2 & Ho2 & H2).
  destruct (decide (o1 = o)) as [->|]; [by rewrite Z.sub_diag, Z.div_1_r in H1|exfalso].
  rewrite Z.div_div in H2 by lia. rewrite <-Z.pow_add_r in H2 by lia.
  replace (o1 - o + (o2 - o1)) with (o2 - o) in H2 by lia.
  rewrite (wf_disj _ _ Hw o o2 b) in H2; [done|lia|lia|done].
Qed.

(** ** kmem_init2 *)

Definition blank_mark : mark := Mark (LNKS NIL NIL) 0.

(** orders [lo..12] are initialised *)
Record prep (n0 lo : Z) (k : kmem) : Prop := {
  pr_n0 : 0 < n0 <= 1023;
  pr_len : length (orders k) = 7%nat;
  pr_room : 127 * n0 <= Z.of_nat (length (marks k));
  pr_ord : forall o, lo <= o <= 12 -> 6 <= o -> at_ (orders k) (o - 6) = Some (Order NIL (off n0 o));
  pr_mark : forall o i, lo <= o <= 12 -> 6 <= o -> 0 <= i < cnt n0 o ->
    at_ (marks k) (off n0 o + i) = Some blank_mark;
}.

Lemma wp_st_order_prep n0 o k h Q :
  prep n0 (o + 1) k -> 6 <= o <= 12 ->
  (forall k', prep n0 (o + 1) k' -> at_ (orders k') (o - 6) = Some h -> frame k' = frame k -> Q tt k') ->
  wp (st_order o h) Q k.
Proof.
  intros [Hn Hl Hr Ho Hm] Hr6 HQ. unfold st_order.
  destruct (at_is_Some (orders k) (o - 6) ltac:(lia)) as [x Hx].
  wp_step. unfold ld_order. eapply wp_deref; [exact Hx|]. wp_step. apply HQ; [|cbn; unfold MIN_ORD|done].
  - split; cbn; [done|by rewrite length_put|done| |done].
    intros o' Ho' H6. unfold MIN_ORD. rewrite at_put_ne by lia. by apply Ho.
  - by rewrite at_put_eq by lia.
Qed.

Lemma init_order_spec n0 o k :
  prep n0 (o + 1) k -> 6 <= o <= 12 ->
  wp (init_order (o - 6) (off n0 o) (cnt n0 o)) (fun _ k' => prep n0 o k' /\ frame k' = frame k) k.
Proof.
  intros Hp Ho. pose proof (pr_n0 _ _ _ Hp) as Hn. unfold init_order.
  replace (o - 6 + MIN_ORD) with o by (unfold MIN_ORD; lia).
  assert (0 < cnt n0 o /\ 0 <= off n0 o /\ off n0 o + cnt n0 o <= 127 * n0) as (Hc & Ho0 & Hoc).
  { unfold cnt, off. clear Hp. split_order Ho; cbn; lia. }
  wp_step. eapply wp_st_order_prep; [done|done|]. intros k1 Hp1 Hord Hf1.
  assert (u32 (off n0 o) = off n0 o) as Eu by (apply Z.mod_small; lia). rewrite Eu in Hord.
  apply wp_loop with (mu := fun j => Z.to_nat (cnt n0 o - j))
    (Inv := fun j k' => 0 <= j <= cnt n0 o /\ prep n0 (o + 1) k' /\
       at_ (orders k') (o - 6) = Some (Order NIL (off n0 o)) /\ frame k' = frame k /\
       forall i, 0 <= i < j -> at_ (marks k') (off n0 o + i) = Some blank_mark); [|lia|].
  { split; [lia|]. split; [done|]. split; [done|]. split; [done|]. intros; lia. }
  intros j k' (Hj & Hp' & Hord' & Hf' & Hset). destruct (Z.ltb_spec j (cnt n0 o)).
  - pose proof (pr_room _ _ _ Hp') as Hroom.
    wp_step. unfold get_mark, ld_order. wp_step. eapply wp_deref; [exact Hord'|]. wp_step. cbn [offset].
    replace (u32 (off n0 o + j)) with (off n0 o + j) by (symmetry; apply Z.mod_small; lia).
    destruct (at_is_Some (marks k') (off n0 o + j) ltac:(lia)) as [x Hx].
    unfold st_mark, ld_mark. wp_step. wp_step. eapply wp_deref; [exact Hx|]. wp_step. wp_step.
    split; [|lia]. split; [lia|]. split; [|split; [done|split; [done|]]].
    + destruct Hp' as [_ Hl Hr Ho' Hm]. split; cbn; [done|done|by rewrite length_put|done|].
      intros o' i Ho'' H6 Hi. rewrite at_put_ne; [by apply Hm|lia|].
      intros E. apply off_cnt_disjoint in E; try done; lia.
    + intros i Hi. cbn. destruct (decide (i = j)) as [->|].
      * by rewrite at_put_eq by lia.
      * rewrite at_put_ne by lia. apply Hset. lia.
  - wp_step. split; [|done]. destruct Hp' as [_ Hl Hr Ho' Hm]. split; [done..| |].
    + intros o' Ho'' H6. destruct (decide (o' = o)) as [->|]; [done|]. apply Ho'; lia.
    + intros o' i Ho'' H6 Hi. destruct (decide (o' = o)) as [->|]; [apply Hset; lia|].
      apply Hm; lia.
Qed.

(** The first loop of kmem_init2 initialises the seven orders. *)
Lemma init_orders_spec n0 k :
  prep n0 13 k ->
  wp (loop 8 (fun '(i, total, n) =>
        if 0 <=? i then
          init_order i total n ;;
          mret (inl (i - 1, u64 (total + n), u64 (Z.shiftl n 1)))
        else mret (inr total)) (N_ORD - 1, 0, n0))
     (fun total k' => total = 127 * n0 /\ prep n0 6 k' /\ frame k' = frame k) k.
Proof.
  intros Hp. pose proof (pr_n0 _ _ _ Hp) as Hn.
  apply wp_loop with (mu := fun v => Z.to_nat (v.1.1 + 1))
    (Inv := fun v k' => exists o, 5 <= o <= 12 /\
       v = (o - 6, n0 * (2 ^ (12 - o) - 1), n0 * 2 ^ (12 - o)) /\
       prep n0 (o + 1) k' /\ frame k' = frame k); [|change (7 < 8)%nat; lia|].
  { exists 12. split; [lia|]. split; [|done]. change (N_ORD - 1) with 6. cbn. do 2 f_equal; lia. }
  intros v k' (o & Ho & -> & Hp' & Hf'). destruct (Z.leb_spec 0 (o - 6)).
  - wp_step. eapply wp_mono; [apply init_order_spec; [done|lia]|]. cbn beta.
    intros _ k1 [Hp1 Hf1]. wp_step. split; [|cbn; lia]. exists (o - 1).
    replace (o - 1 + 1) with o by lia. split; [lia|]. split; [|split; [done|congruence]].
    replace (12 - (o - 1)) with (Z.succ (12 - o)) by lia. rewrite Z.pow_succ_r by lia.
    assert (n0 <= n0 * 2 ^ (12 - o) <= 127 * 1023) as Hb.
    { assert (0 < 2 ^ (12 - o)) by (apply Z.pow_pos_nonneg; lia).
      assert (2 ^ (12 - o) <= 2 ^ 6) by (apply Z.pow_le_mono_r; lia). nia. }
    rewrite Z.shiftl_mul_pow2 by lia. change (2 ^ 1) with 2.
    unfold u64. rewrite !Z.mod_small by lia. f_equal; [f_equal|]; lia.
  - assert (o = 5) as -> by lia. wp_step. cbn. split; [lia|done].
Qed.

Lemma empty_heap K n0 k :
  prep n0 6 k -> 0 <= K <= 32 * n0 -> start_heap k mod 4096 = 0 -> 0 < start_heap k ->
  start_heap k + K * 4096 <= 2 ^ 64 ->
  heap K n0 k (fun _ _ => false).
Proof.
  intros [Hn _ _ Ho Hm] HK Ha Hp He. split; try done.
  exists (fun _ => NIL), (fun _ _ => blank_mark). split.
  { split; [done| |].
    - intros o Ho'. apply Ho; lia.
    - intros o i Ho' Hi. apply Hm; lia. }
  split.
  - intros o Ho'. exists []. split; cbn; try done.
    + apply NoDup_nil_2.
    + intros i. split; [by intros ?%elem_of_nil|]. by intros [_ ?].
  - intros o b Ho' Hb. unfold isfree. cbn. apply Z.bits_0.
Qed.

(** number of largest blocks between the heap's start and the memory's end *)
Definition heap_start (vstart vend : Z) : Z :=
  align_up (vstart + 127 * (Z.shiftr (vend - vstart) 17 + 1) * 8) (Z.shiftl 1 MAX_ORD).
Definition heap_blocks (vstart vend : Z) : Z :=
  Z.max 0 ((vend - heap_start vstart vend) / 4096).

(** a page-aligned memory range small enough for 16-bit mark links *)
Record pool_ok (vstart vend : Z) : Prop := {
  po_start : 0 < vstart; po_lt : vstart < vend; po_end : vend + 2 ^ 20 <= 2 ^ 64;
  po_size : vend - vstart < 1023 * 2 ^ 17;
  po_al1 : vstart mod 4096 = 0; po_al2 : vend mod 4096 = 0;
}.

Lemma heap_start_spec vstart vend :
  pool_ok vstart vend ->
  let n0 := Z.shiftr (vend - vstart) 17 + 1 in
  let h := heap_start vstart vend in
  0 < n0 <= 1023 /\ h mod 4096 = 0 /\ vstart < h /\ h <= 2 ^ 64 /\
  0 <= heap_blocks vstart vend <= 32 * n0 /\
  (forall j, 0 <= j -> h + 4096 * j < vend <-> j < heap_blocks vstart vend) /\
  h + heap_blocks vstart vend * 4096 <= 2 ^ 64.
Proof.
  intros [Hs Hlt He Hsz Ha1 Ha2] n0 h.
  assert (n0 = (vend - vstart) / 2 ^ 17 + 1) as En by (unfold n0; by rewrite Z.shiftr_div_pow2).
  assert (0 < n0 <= 1023 /\ vend - vstart < n0 * 2 ^ 17) as [Hn Hlen].
  { rewrite En. clear -Hlt Hsz. Z.div_mod_to_equations; lia. }
  assert (h = 4096 * ((vstart + 127 * n0 * 8 + 4096 - 1) / 4096)) as Eh.
  { unfold h, heap_start. fold n0. change (Z.shiftl 1 MAX_ORD) with (2 ^ 12).
    change 4096 with (2 ^ 12). apply align_up_pow2; lia. }
  unfold heap_blocks. fold h. clearbody h n0.
  assert (h mod 4096 = 0) as Hm by (rewrite Eh, Z.mul_comm; apply Z.mod_mul; lia).
  assert (vstart < h <= vstart + 127 * n0 * 8 + 4095) as Hh.
  { rewrite Eh. clear -Hn. Z.div_mod_to_equations; lia. }
  clear Eh En. split; [done|]. split; [done|]. split; [lia|]. split; [lia|].
  split; [Z.div_mod_to_equations; lia|]. split; [|Z.div_mod_to_equations; lia].
  intros j Hj. Z.div_mod_to_equations; lia.
Qed.

(** The last loop of kmem_init2 frees the heap one largest block at a time. *)
Lemma init_heap_spec n0 k vend fuel :
  let K := (vend - start_heap k) / 4096 in
  lock k = false -> heap (Z.max 0 K) n0 k (fun _ _ => false) ->
  (forall j, 0 <= j -> start_heap k + 4096 * j < vend <-> j < Z.max 0 K) ->
  Z.max 0 K < Z.of_nat fuel ->
  wp (loop fuel (fun i =>
        if i <? vend then kfree i MAX_ORD ;; mret (inl (i + Z.shiftl 1 MAX_ORD))
        else mret (inr tt)) (start_heap k))
     (fun _ k' => lock k' = false /\ start_heap k' = start_heap k /\
        exists F, heap (Z.max 0 K) n0 k' F /\
          forall g, covered F g <-> 0 <= g < 64 * Z.max 0 K) k.
Proof.
  intros K Hl Hh Hstop Hfuel. set (K' := Z.max 0 K) in *. set (h := start_heap k) in *.
  apply wp_loop with (mu := fun i => Z.to_nat (K' - (i - h) / 4096))
    (Inv := fun i k' => exists j F, 0 <= j <= K' /\ i = h + 4096 * j /\ lock k' = false /\
       start_heap k' = h /\ heap K' n0 k' F /\ forall g, covered F g <-> 0 <= g < 64 * j).
  - exists 0, (fun _ _ => false). split; [lia|]. do 4 (split; [done || lia|]).
    intros g. split; [by intros (? & _ & ?)|lia].
  - rewrite Z.sub_diag, Zdiv_0_l. lia.
  - intros i k' (j & F & Hj & -> & Hl' & Hs' & Hh' & Hc).
    replace (h + 4096 * j - h) with (j * 4096) by lia. rewrite Z.div_mul by lia.
    destruct (Z.ltb_spec (h + 4096 * j) vend) as [Hlt|Hge].
    + apply Hstop in Hlt; [|lia].
      assert (valid K' 12 j) as Hv by (split; [lia|]; cbn; lia).
      assert (h + 4096 * j = addr k' 12 j) as -> by (unfold addr; rewrite Hs'; lia).
      wp_step. eapply wp_mono; [apply (kfree_spec K' n0 k' F 12 j Hl' Hh' Hv)|].
      { intros g Hg Hcov. apply Hc in Hcov. apply Z.eqb_eq in Hg. change (2 ^ (12 - 6)) with 64 in Hg.
        clear -Hg Hcov. Z.div_mod_to_equations; lia. }
      cbn beta. intros _ k1 (Hl1 & F1 & Hh1 & Hf1 & Hc1). wp_step.
      unfold addr. rewrite Hs'. change (Z.shiftl 1 MAX_ORD) with 4096. split.
      * exists (j + 1), F1. split; [lia|]. split; [lia|]. split; [done|].
        split; [unfold frame in Hf1; congruence|]. split; [done|].
        intros g. rewrite Hc1, Hc. unfold in_blk. change (2 ^ (12 - 6)) with 64.
        rewrite Z.eqb_eq. clear -Hj. Z.div_mod_to_equations; lia.
      * replace (h + 2 ^ 12 * j + 4096 - h) with ((j + 1) * 4096) by lia.
        rewrite Z.div_mul by lia. lia.
    + wp_step. split; [done|]. split; [done|]. exists F. split; [done|].
      assert (j = K') as ->; [|done]. destruct (Z.ltb_spec j K'); [|lia].
      assert (h + 4096 * j < vend) by (apply Hstop; lia). lia.
Qed.

(** Initialising the pool: the allocator's invariant holds and exactly the
    heap's granules are free. *)
Lemma kmem_init2_spec vstart vend k :
  pool_ok vstart vend -> lock k = false -> length (orders k) = 7%nat ->
  127 * (Z.shiftr (vend - vstart) 17 + 1) <= Z.of_nat (length (marks k)) ->
  let K := heap_blocks vstart vend in
  wp (kmem_init2 vstart vend) (fun _ k' => Inv K k' /\ start_heap k' = heap_start vstart vend /\
    forall g, granule_free K k' g = true <-> 0 <= g < 64 * K) k.
Proof.
  intros Hpool Hl Hord Hroom K. destruct (heap_start_spec _ _ Hpool) as (Hn & Hm & Hgt & _ & HK & Hstop & Hend).
  destruct Hpool as [Hs Hlt He Hsz _ _]. set (n0 := Z.shiftr (vend - vstart) 17 + 1) in *.
  unfold kmem_init2. wp_step. wp_step.
  assert (u64 (vend - vstart) = vend - vstart) as -> by (apply Z.mod_small; lia).
  change (MAX_ORD + 5) with 17. fold n0. wp_step.
  eapply wp_mono; [apply init_orders_spec; split; cbn; try done; intros; lia|].
  cbn beta. intros total k1 (-> & Hp & Hf). wp_step. wp_step.
  change (align_up (vstart + 127 * n0 * 8) (Z.shiftl 1 MAX_ORD)) with (heap_start vstart vend).
  set (h := heap_start vstart vend) in *.
  set (k2 := Kmem (lock k1) (start k1) h (kend k1) (orders k1) (marks k1)).
  assert (lock k2 = false) as Hl2.
  { unfold frame in Hf. cbn in *. injection Hf. congruence. }
  eapply wp_mono; [apply (init_heap_spec n0 k2 vend)|].
  - exact Hl2.
  - apply (empty_heap K); [|done..| |]; [destruct Hp; by split|cbn; lia|done].
  - exact Hstop.
  - change (Z.max 0 ((vend - start_heap k2) / 4096)) with K.
    change (Z.shiftr (vend - vstart) MAX_ORD) with (Z.shiftr (vend - vstart) 12).
    rewrite Z.shiftr_div_pow2 by lia. unfold K, heap_blocks. fold h.
    clear -Hgt Hlt. Z.div_mod_to_equations; lia.
  - cbn beta. intros _ k' (Hl' & Hs' & F & Hh' & Hc).
    change (Z.max 0 ((vend - start_heap k2) / 4096)) with K in *.
    split; [by split; eauto|]. split; [done|]. intros g. by rewrite (granule_free_F _ _ _ _ _ Hh').
Qed.

(** ** get_order: bit smearing rounds up to a power of two *)

(** [y] has bit [i] iff [x] has one of the bits [i .. i + k - 1] *)
Definition span (x k y : Z) : Prop :=
  forall i, 0 <= i -> Z.testbit y i = true <-> exists d, 0 <= d < k /\ Z.testbit x (i + d) = true.

Lemma span_step x k y : 0 < k -> span x k y -> span x (k + k) (Z.lor y (Z.shiftr y k)).
Proof.
  intros Hk Hs i Hi. rewrite Z.lor_spec, Z.shiftr_spec, orb_true_iff by lia.
  rewrite (Hs i Hi), (Hs (i + k) ltac:(lia)). split.
  - intros [(d & Hd & Ht)|(d & Hd & Ht)]; [exists d; split; [lia|done]|].
    exists (k + d). split; [lia|]. by rewrite Z.add_assoc.
  - intros (d & Hd & Ht). destruct (Z.ltb_spec d k); [left; exists d; split; [lia|done]|].
    right. exists (d - k). split; [lia|]. by replace (i + k + (d - k)) with (i + d) by lia.
Qed.

Lemma smear_span x : span x 32 (smear x).
Proof.
  unfold smear. change 32 with (16 + 16). apply span_step; [lia|].
  change 16 with (8 + 8). apply span_step; [lia|].
  change 8 with (4 + 4). apply span_step; [lia|].
  change 4 with (2 + 2). apply span_step; [lia|].
  change 2 with (1 + 1). apply span_step; [lia|].
  intros i Hi. split.
  - intros Ht. exists 0. split; [lia|]. by rewrite Z.add_0_r.
  - intros (d & Hd & Ht). assert (d = 0) as -> by lia. by rewrite Z.add_0_r in Ht.
Qed.

(** number of significant bits *)
Definition nbits (x : Z) : Z := if x =? 0 then 0 else Z.log2 x + 1.

Lemma smear_ones x : 0 <= x < 2 ^ 32 -> smear x + 1 = 2 ^ nbits x.
Proof.
  intros Hx. unfold nbits. destruct (Z.eqb_spec x 0) as [->|Hne]; [done|].
  pose proof (Z.log2_nonneg x). assert (Z.log2 x < 32) by (apply Z.log2_lt_pow2; lia).
  enough (smear x = Z.ones (Z.log2 x + 1)) as -> by (rewrite Z.ones_equiv; lia).
  apply Z.bits_inj_iff'. intros i Hi.
  destruct (Z.ltb_spec i (Z.log2 x + 1)).
  - rewrite Z.ones_spec_low by lia. apply smear_span; [lia|].
    exists (Z.log2 x - i). split; [lia|]. replace (i + (Z.log2 x - i)) with (Z.log2 x) by lia.
    apply Z.bit_log2. lia.
  - rewrite Z.ones_spec_high by lia. apply not_true_is_false. intros Ht.
    apply smear_span in Ht as (d & Hd & Ht); [|lia].
    rewrite Z.bits_above_log2 in Ht by lia. done.
Qed.

Lemma get_order_loop v e :
  0 <= e <= 32 -> (v = 2 ^ e /\ e < 32) \/ (v = 0 /\ e = 32) ->
  loop 33 (fun ord =>
    if negb (ord <? 32) then mret (inr ord) else
    if negb (Z.land v (Z.shiftl 1 ord) =? 0) then mret (inr ord)
    else mret (inl (ord + 1))) 0 tt = Done e tt.
Proof.
  intros He Hv.
  enough (wp (loop 33 (fun ord =>
    if negb (ord <? 32) then mret (inr ord) else
    if negb (Z.land v (Z.shiftl 1 ord) =? 0) then mret (inr ord)
    else mret (inl (ord + 1))) 0) (fun r (_ : unit) => r = e) tt) as Hwp.
  { apply wp_done in Hwp as (r & [] & E & ->). exact E. }
  apply wp_loop with (mu := fun o => Z.to_nat (32 - o)) (Inv := fun o _ => 0 <= o <= e); [lia|lia|].
  intros o [] Ho. destruct (Z.ltb_spec o 32); cbn [negb].
  - destruct Hv as [[-> He32]|[-> ->]].
    + rewrite Z.shiftl_1_l. destruct (decide (o = e)) as [->|Hne].
      * rewrite Z.land_diag. destruct (Z.eqb_spec (2 ^ e) 0) as [E|]; [|cbn [negb]; by wp_step].
        assert (0 < 2 ^ e) by (apply Z.pow_pos_nonneg; lia). lia.
      * replace (Z.land (2 ^ e) (2 ^ o)) with 0; [cbn [Z.eqb negb]; wp_step; lia|]. symmetry.
        apply Z.bits_inj_0. intros i. rewrite Z.land_spec, !Z.pow2_bits_eqb by lia.
        destruct (Z.eqb_spec e i), (Z.eqb_spec o i); done || lia.
    + rewrite Z.land_0_l. change (0 =? 0) with true. cbn [negb]. wp_step. lia.
  - wp_step. lia.
Qed.

Lemma get_order_cases v : 0 <= v < 2 ^ 32 ->
  (0 < v <= 4096 /\ exists r, get_order v tt = Done r tt /\ 6 <= r <= 12 /\
     v <= 2 ^ r /\ (r = 6 \/ 2 ^ (r - 1) < v)) \/
  (~ 0 < v <= 4096 /\ get_order v tt = Panic "order too big!").
Proof.
  intros Hv. set (x := u32 (v - 1)).
  assert (0 <= x < 2 ^ 32) as Hx by (apply Z.mod_pos_bound; lia).
  assert (0 <= nbits x <= 32) as Hb.
  { unfold nbits. destruct (Z.eqb_spec x 0); [lia|]. pose proof (Z.log2_nonneg x).
    assert (Z.log2 x < 32) by (apply Z.log2_lt_pow2; lia). lia. }
  assert ((u32 (smear x + 1) = 2 ^ nbits x /\ nbits x < 32) \/
          (u32 (smear x + 1) = 0 /\ nbits x = 32)) as Hp.
  { rewrite smear_ones by done. destruct (decide (nbits x = 32)) as [->|]; [by right|left].
    split; [|lia]. apply Z.mod_small. split; [apply Z.pow_nonneg; lia|].
    apply Z.pow_lt_mono_r; lia. }
  unfold get_order. fold x. erewrite bind_done by (by apply get_order_loop).
  unfold MIN_ORD, MAX_ORD.
  destruct (decide (0 < v <= 4096)) as [Hin|Hout]; [left|right]; (split; [done|]).
  - assert (x = v - 1) as Ex by (apply Z.mod_small; lia).
    assert (x < 2 ^ nbits x /\ (x = 0 \/ 2 ^ (nbits x - 1) <= x)) as [Hlt Hge].
    { unfold nbits. destruct (Z.eqb_spec x 0) as [->|]; [cbn; lia|].
      replace (Z.log2 x + 1 - 1) with (Z.log2 x) by lia.
      pose proof (Z.log2_spec x ltac:(lia)). rewrite Z.add_1_r. lia. }
    assert (nbits x <= 12) as H12.
    { unfold nbits. destruct (Z.eqb_spec x 0); [lia|].
      assert (Z.log2 x < 12) by (apply Z.log2_lt_pow2; lia). lia. }
    destruct (Z.ltb_spec (nbits x) 6).
    + exists 6. split; [done|]. split; [lia|]. split; [|by left].
      assert (2 ^ nbits x <= 2 ^ 6) by (apply Z.pow_le_mono_r; lia). lia.
    + exists (nbits x). destruct (Z.ltb_spec 12 (nbits x)); [lia|]. split; [done|].
      split; [lia|]. split; [lia|]. right. destruct Hge as [Hz|?]; [|lia].
      exfalso. unfold nbits in *. destruct (Z.eqb_spec x 0); lia.
  - assert (4096 <= x) as Hbig.
    { unfold x, u32. destruct (decide (v = 0)) as [->|]; [by vm_compute|].
      rewrite Z.mod_small; lia. }
    assert (13 <= nbits x) as H13.
    { unfold nbits. destruct (Z.eqb_spec x 0); [lia|].
      assert (12 <= Z.log2 x) by (apply Z.log2_le_pow2; lia). lia. }
    destruct (Z.ltb_spec (nbits x) 6); [lia|]. by destruct (Z.ltb_spec 12 (nbits x)); [|lia].
Qed.

(** ** The contract of the allocator *)

Lemma Inv_intro K n0 k F : lock k = false -> heap K n0 k F -> Inv K k.
Proof. intros Hl Hh. split; [done|]. by exists n0, F. Qed.

Lemma addr_pos K n0 k F o b : heap K n0 k F -> valid K o b -> 0 < addr k o b.
Proof.
  intros Hh Hv. destruct (block_bytes _ _ _ _ _ _ Hh Hv) as (H0 & _).
  pose proof (hp_pos _ _ _ _ Hh). unfold addr. lia.
Qed.

Lemma addr_aligned K n0 k F o b : heap K n0 k F -> valid K o b -> addr k o b mod 2 ^ o = 0.
Proof.
  intros Hh [Ho _]. pose proof (hp_align _ _ _ _ Hh) as Ha.
  apply Z.mod_divide in Ha as [c Hc]; [|lia]. unfold addr. rewrite Hc.
  assert (4096 = 2 ^ o * 2 ^ (12 - o)) as ->
    by (rewrite <-Z.pow_add_r by lia; by replace (o + (12 - o)) with 12 by lia).
  replace (c * _ + _) with ((c * 2 ^ (12 - o) + b) * 2 ^ o) by ring.
  apply Z.mod_mul. assert (0 < 2 ^ o) by (apply Z.pow_pos_nonneg; lia). lia.
Qed.

(** granules freed or taken, from the block algebra to the state *)
Lemma granule_free_minus K n0 n1 k k' F F' o b :
  heap K n0 k F -> heap K n1 k' F' ->
  (forall g, covered F' g <-> covered F g /\ in_blk o b g = false) ->
  forall g, granule_free K k' g = granule_free K k g && negb (in_blk o b g).
Proof.
  intros Hh Hh' Hc g. apply eq_true_iff_eq. rewrite andb_true_iff, negb_true_iff.
  by rewrite (granule_free_F _ _ _ _ _ Hh), (granule_free_F _ _ _ _ _ Hh').
Qed.
Lemma granule_free_plus K n0 n1 k k' F F' o b :
  heap K n0 k F -> heap K n1 k' F' ->
  (forall g, covered F' g <-> covered F g \/ in_blk o b g = true) ->
  forall g, granule_free K k' g = granule_free K k g || in_blk o b g.
Proof.
  intros Hh Hh' Hc g. apply eq_true_iff_eq. rewrite orb_true_iff.
  by rewrite (granule_free_F _ _ _ _ _ Hh), (granule_free_F _ _ _ _ _ Hh').
Qed.
Lemma can_free_state K n0 k F o b :
  heap K n0 k F -> (forall g, in_blk o b g = true -> granule_free K k g = false) ->
  can_free F o b.
Proof.
  intros Hh Hn g Hg Hc. apply (granule_free_F _ _ _ _ _ Hh) in Hc.
  rewrite (Hn g Hg) in Hc. done.
Qed.

(** A small pool, for the examples: 32 KiB at 0x10000, on a state whose
    words have arbitrary contents. *)
Definition demo0 : kmem :=
  Kmem false 0 0 0 (replicate 7 (Order 3 9)) (replicate 127 (Mark 5 77)).
Definition demo : kmem :=
  match kmem_init2 0x10000 0x18000 demo0 with Done _ k => k | _ => demo0 end.
(** the state after a call *)
Definition after {A} (m : M kmem A) (k : kmem) : kmem :=
  match m k with Done _ k' => k' | _ => k end.

Lemma demo_pool : pool_ok 0x10000 0x18000.
Proof. by split. Qed.
Lemma demo_inv : Inv 7 demo.
Proof.
  pose proof (kmem_init2_spec 0x10000 0x18000 demo0 demo_pool eq_refl eq_refl) as Hw.
  apply wp_Done in Hw as ([] & k' & Hk & HI & _); [|vm_compute; done].
  unfold demo. rewrite Hk. exact HI.
Qed.
Lemma demo_free g : 0 <= g < 64 * 7 -> granule_free 7 demo g = true.
Proof.
  pose proof (kmem_init2_spec 0x10000 0x18000 demo0 demo_pool eq_refl eq_refl) as Hw.
  apply wp_Done in Hw as ([] & k' & Hk & _ & _ & Hg); [|vm_compute; done].
  unfold demo. rewrite Hk. apply Hg.
Qed.
Lemma demo_inv_malloc o p k' :
  6 <= o <= 12 -> kmalloc o demo = Done p k' -> Inv 7 k'.
Proof.
  intros Ho Hk. destruct demo_inv as [Hl (n0 & F & Hh)].
  pose proof (kmalloc_spec 7 n0 demo F o Hl Hh Ho) as Hw.
  apply wp_Done in Hw as (p1 & k1 & Hk1 & Hl1 & Ha). rewrite Hk in Hk1.
  injection Hk1 as -> ->. destruct Ha as [(_ & -> & _)|(b & F' & _ & _ & Hh' & _)];
    [exact demo_inv|by eapply Inv_intro].
Qed.

(** C12: kmalloc never panics on a heap in its invariant.  It
    returns NULL and changes nothing exactly when no free block of the order
    or a larger one is left; otherwise it returns an aligned block, all of
    whose 64-byte granules were free, takes exactly those granules out of
    the free memory, and keeps the invariant. *)
Theorem kmalloc_correct K k o :
  Inv K k -> 6 <= o <= 12 ->
  exists p k', kmalloc o k = Done p k' /\ Inv K k' /\ start_heap k' = start_heap k /\
    ((p = 0 /\ k' = k /\ forall o' b, o <= o' <= 12 -> free_blk K k o' b = false) \/
     (exists b, p = addr k o b /\ valid K o b /\ 0 < p /\ p mod 2 ^ o = 0 /\
        (forall g, in_blk o b g = true -> granule_free K k g = true) /\
        (forall g, granule_free K k' g = granule_free K k g && negb (in_blk o b g)))).
Proof.
  intros [Hl (n0 & F & Hh)] Ho. pose proof (kmalloc_spec K n0 k F o Hl Hh Ho) as Hw.
  apply wp_Done in Hw as (p & k' & Hk & Hl' & Ha). exists p, k'. split; [done|].
  destruct Ha as [(-> & -> & Hn)|(b & F' & -> & Hv & Hh' & Hf & Hin & Hc)].
  - split; [by eapply Inv_intro|]. split; [done|]. left. split; [done|]. split; [done|].
    intros o' b Ho'. rewrite (free_blk_F _ _ _ _ _ _ Hh). by apply Hn.
  - split; [by eapply Inv_intro|]. split; [unfold frame in Hf; congruence|]. right.
    exists b. split; [done|]. split; [done|]. split; [by eapply addr_pos|].
    split; [by eapply addr_aligned|]. split; [|by eapply granule_free_minus].
    intros g Hg. apply (granule_free_F _ _ _ _ _ Hh). by apply Hin.
Qed.

Lemma kmalloc_correct_witness :
  exists p k', kmalloc 6 demo = Done p k' /\ p = 0x11000 /\ Inv 7 k'.
Proof.
  destruct (kmalloc_correct 7 demo 6 demo_inv ltac:(lia)) as (p & k' & Hk & HI & _).
  exists p, k'. split; [exact Hk|]. split; [|exact HI].
  assert (match kmalloc 6 demo with Done p _ => p | _ => 0 end = 0x11000) as E by (vm_compute; reflexivity).
  rewrite Hk in E. exact E.
Defined.

(** C26: kfree of an allocated block (none of its granules free)
    returns, adds exactly the block's granules to the free memory and keeps
    the invariant, whatever merging with buddies it does. *)
Theorem kfree_correct K k o b :
  Inv K k -> valid K o b ->
  (forall g, in_blk o b g = true -> granule_free K k g = false) ->
  exists k', kfree (addr k o b) o k = Done tt k' /\ Inv K k' /\
    start_heap k' = start_heap k /\
    forall g, granule_free K k' g = granule_free K k g || in_blk o b g.
Proof.
  intros [Hl (n0 & F & Hh)] Hv Hn.
  pose proof (kfree_spec K n0 k F o b Hl Hh Hv (can_free_state _ _ _ _ _ _ Hh Hn)) as Hw.
  apply wp_Done in Hw as ([] & k' & Hk & Hl' & F' & Hh' & Hf & Hc). exists k'.
  split; [done|]. split; [by eapply Inv_intro|]. split; [unfold frame in Hf; congruence|].
  by eapply granule_free_plus.
Qed.

Lemma kfree_correct_witness :
  exists k', kfree (addr (after (kmalloc 6) demo) 6 0) 6 (after (kmalloc 6) demo) = Done tt k' /\
    granule_free 7 k' 0 = true.
Proof.
  destruct (kfree_correct 7 (after (kmalloc 6) demo) 6 0) as (k' & Hk & _ & _ & Hg).
  - unfold after. destruct (kmalloc 6 demo) as [p k'| | | | |] eqn:Hk; try exact demo_inv.
    exact (demo_inv_malloc 6 p k' ltac:(lia) Hk).
  - split; lia.
  - intros g Hg. apply Z.eqb_eq in Hg. change (2 ^ (6 - 6)) with 1 in Hg.
    rewrite Z.div_1_r in Hg. subst g. vm_compute. reflexivity.
  - exists k'. split; [exact Hk|]. rewrite Hg. vm_compute. reflexivity.
Defined.

(** freeing what kmalloc returned restores the
    very same set of free blocks of every order: the split is undone by the
    merging, down to the blocks' sizes. *)
Theorem kmalloc_kfree_roundtrip K k o p k1 :
  Inv K k -> 6 <= o <= 12 -> kmalloc o k = Done p k1 -> p <> 0 ->
  exists k2, kfree p o k1 = Done tt k2 /\ Inv K k2 /\
    forall o' b, free_blk K k2 o' b = free_blk K k o' b.
Proof.
  intros [Hl (n0 & F & Hh)] Ho Hm Hp. pose proof (kmalloc_spec K n0 k F o Hl Hh Ho) as Hw.
  apply wp_Done in Hw as (p' & k1' & Hk & Hl1 & Ha). rewrite Hm in Hk. injection Hk as <- <-.
  destruct Ha as [(-> & _)|(b & F1 & -> & Hv & Hh1 & Hf1 & Hin & Hc1)]; [done|].
  rewrite <-(addr_frame k k1) by done.
  assert (can_free F1 o b) as Hcf.
  { intros g Hg Hcov. apply Hc1 in Hcov as [_ Hno]. congruence. }
  pose proof (kfree_spec K n0 k1 F1 o b Hl1 Hh1 Hv Hcf) as Hw.
  apply wp_Done in Hw as ([] & k2 & Hk2 & Hl2 & F2 & Hh2 & _ & Hc2). exists k2.
  split; [done|]. split; [by eapply Inv_intro|]. intros o' b'.
  rewrite (free_blk_F _ _ _ _ _ _ Hh), (free_blk_F _ _ _ _ _ _ Hh2).
  apply (wf_canonical K); [apply (hp_wf _ _ _ _ Hh2)|apply (hp_wf _ _ _ _ Hh)|].
  intros g. rewrite Hc2, Hc1. destruct (in_blk o b g) eqn:E; naive_solver.
Qed.

Lemma kmalloc_kfree_roundtrip_witness :
  exists k2, kfree 0x11000 6 (after (kmalloc 6) demo) = Done tt k2 /\
    free_blk 7 k2 12 0 = true.
Proof.
  destruct (kmalloc_kfree_roundtrip 7 demo 6 0x11000 (after (kmalloc 6) demo) demo_inv
              ltac:(lia)) as (k2 & Hk & _ & Hf).
  - vm_compute. reflexivity.
  - lia.
  - exists k2. split; [exact Hk|]. rewrite Hf. vm_compute. reflexivity.
Defined.

(** freeing a block that is recorded free panics. *)
Theorem kfree_double_free K k o b :
  Inv K k -> free_blk K k o b = true ->
  kfree (addr k o b) o k = Panic "kfree: double free".
Proof.
  intros [Hl (n0 & F & Hh)] Hf. rewrite (free_blk_F _ _ _ _ _ _ Hh) in Hf.
  pose proof (wf_valid _ _ (hp_wf _ _ _ _ Hh) _ _ Hf) as Hv. pose proof Hv as [Ho _].
  pose proof (heap_lock _ _ _ _ true Hh) as Hh'.
  assert (Z.land (addr k o b) (Z.shiftl 1 o - 1) = 0) as Hal.
  { rewrite Z.shiftl_1_l. replace (2 ^ o - 1) with (Z.ones o) by (rewrite Z.ones_equiv; lia).
    rewrite Z.land_ones by lia. by eapply addr_aligned. }
  unfold kfree, MAX_ORD, MIN_ORD. rewrite Hal.
  rewrite (proj2 (Z.ltb_ge 12 o)), (proj2 (Z.ltb_ge o 6)) by lia. cbn [orb negb Z.eqb panic_if].
  rewrite (bind_done _ _ k tt k) by done.
  rewrite (bind_done _ _ k tt (lset kmem_lock true k)) by (unfold acquire; cbn; by rewrite Hl).
  change (Z.to_nat N_ORD) with 7%nat. cbn [kfree_]. rewrite bind_assoc.
  erewrite bind_done by (apply (mem2blkid_spec K n0 (lset kmem_lock true k) F o b Hh' Hv)).
  rewrite bind_assoc.
  pose proof (wp_blk_bits _ _ _ _ _ _ Hh' Hv) as Hbits. apply wp_done in Hbits as (m & k1 & Hb & -> & Ha & _).
  unfold mbind at 1, M_bind at 1 in Hb. destruct (get_mark _ _ _) as [mk k2| | | | |] eqn:Eg in Hb; try done.
  erewrite bind_done by (exact Eg). rewrite bind_assoc. erewrite bind_done by (exact Hb).
  rewrite Ha, Hf. reflexivity.
Qed.

Lemma kfree_double_free_witness : kfree 0x11000 12 demo = Panic "kfree: double free".
Proof.
  exact (kfree_double_free 7 demo 12 0 demo_inv ltac:(vm_compute; reflexivity)).
Defined.

(** on any page-aligned pool whose mark lists fit in
    16-bit links (at most 1023 * 128 KiB), with room for its marks,
    kmem_init2 establishes the invariant whatever the memory held before, and
    exactly the granules between heap start and the pool's end are free. *)
Theorem kmem_init2_correct vstart vend k :
  pool_ok vstart vend -> lock k = false -> length (orders k) = 7%nat ->
  127 * (Z.shiftr (vend - vstart) 17 + 1) <= Z.of_nat (length (marks k)) ->
  exists k', kmem_init2 vstart vend k = Done tt k' /\ Inv (heap_blocks vstart vend) k' /\
    start_heap k' = heap_start vstart vend /\
    forall g, granule_free (heap_blocks vstart vend) k' g = true <->
              0 <= g < 64 * heap_blocks vstart vend.
Proof.
  intros Hp Hl Ho Hr. pose proof (kmem_init2_spec _ _ _ Hp Hl Ho Hr) as Hw. cbn zeta in Hw.
  apply wp_Done in Hw as ([] & k' & Hk & H). by exists k'.
Qed.

Lemma kmem_init2_correct_witness :
  exists k', kmem_init2 0x10000 0x18000 demo0 = Done tt k' /\ Inv 7 k' /\ start_heap k' = 0x11000.
Proof.
  destruct (kmem_init2_correct 0x10000 0x18000 demo0 demo_pool eq_refl eq_refl)
    as (k' & Hk & HI & Hs & _); [vm_compute; discriminate|].
  exists k'. split; [exact Hk|]. split; [exact HI|]. rewrite Hs. vm_compute. reflexivity.
Defined.

(** for a request of 1 to 4096 bytes get_order returns the least
    order in [MIN_ORD .. MAX_ORD] whose blocks hold it; on every other
    32-bit value, 0 included, it panics. *)
Theorem get_order_correct v : 0 <= v < 2 ^ 32 ->
  (0 < v <= 4096 /\ exists r, get_order v tt = Done r tt /\ MIN_ORD <= r <= MAX_ORD /\
     v <= 2 ^ r /\ (r = MIN_ORD \/ 2 ^ (r - 1) < v)) \/
  (~ 0 < v <= 4096 /\ get_order v tt = Panic "order too big!").
Proof. exact (get_order_cases v). Qed.

Lemma get_order_correct_witness :
  exists r, get_order 65 tt = Done r tt /\ 65 <= 2 ^ r /\ (r = MIN_ORD \/ 2 ^ (r - 1) < 65).
Proof.
  destruct (get_order_correct 65 ltac:(lia)) as [[_ (r & Hr & _ & H)]|[H0 _]]; [|lia].
  exists r. split; [exact Hr|exact H].
Defined.

End Buddy.
