(* ===== verification/Alloc.v ===== *)
(** * The allocator interface (kmalloc and kfree of src/src/buddy.c)

    What the buddy allocator promises to the code that allocates: the blocks
    handed out and not given back are aligned, in memory, pairwise disjoint,
    and the rest of the pool is free;
    kmalloc hands out a block that is none of them, or a null pointer; kfree
    takes back any of them.  The instances show that Buddy.v keeps the
    promise; pipes, page tables and kernel stacks are verified against it. *)

From S2P Require Import Prelude.
From S2P Require Import Buddy.

Class PageAlloc (S : Type) : Type := {
  p_alloc : Z -> M S Z;            (* kmalloc(order) *)
  p_free : Z -> Z -> M S unit;     (* kfree(mem, order) *)
}.

(** [owns s lo hi A]: in state [s] the pool is the memory from [lo] to [hi], and [A] are the
    blocks of it, as address and order, in use *)
Class PageAllocLaws (S : Type) {PA : PageAlloc S} : Type := {
  owns : S -> Z -> Z -> gset (Z * Z) -> Prop;
  pa_block s lo hi A p o : owns s lo hi A -> (p, o) ∈ A ->
    6 <= o <= 12 /\ 0 < p /\ p mod 2 ^ o = 0 /\ lo <= p /\ p + 2 ^ o <= hi <= 2 ^ 64;
  pa_disj s lo hi A p o q r : owns s lo hi A -> (p, o) ∈ A -> (q, r) ∈ A -> (p, o) <> (q, r) ->
    p + 2 ^ o <= q \/ q + 2 ^ r <= p;
  pa_alloc s lo hi A o : owns s lo hi A -> 6 <= o <= 12 ->
    wp (p_alloc o) (fun p s' => p = 0 /\ s' = s \/ ((p, o) ∉ A) /\ owns s' lo hi ({[(p, o)]} ∪ A)) s;
  pa_free s lo hi A p o : owns s lo hi A -> (p, o) ∈ A ->
    wp (p_free p o) (fun _ s' => owns s' lo hi (A ∖ {[(p, o)]})) s;
}.

Module Alloc.
Import Buddy.

#[export] Instance buddy_alloc : PageAlloc Buddy.kmem := {
  p_alloc := Buddy.kmalloc;
  p_free := Buddy.kfree;
}.

(** block [b] of order [o] is out: none of its granules is free *)
Definition taken (k : kmem) (K : Z) (F : Z -> Z -> bool) (p o b : Z) : Prop :=
  p = addr k o b /\ valid K o b /\ can_free F o b.
(** the blocks of [A] are out, disjoint, and the rest of the pool is free: [A] is all that is in use *)
Definition buddy_owns (k : kmem) (lo hi : Z) (A : gset (Z * Z)) : Prop :=
  lock k = false /\ lo = start_heap k /\ exists K n0 F, hi = lo + K * 4096 /\ heap K n0 k F /\
  (forall p o, (p, o) ∈ A -> exists b, taken k K F p o b) /\
  (forall p o b q r c, (p, o) ∈ A -> (q, r) ∈ A -> (p, o) <> (q, r) -> p = addr k o b -> q = addr k r c ->
     forall g, in_blk o b g = true -> in_blk r c g = true -> False) /\
  (forall g, 0 <= g < 64 * K -> covered F g \/ exists p o b, (p, o) ∈ A /\ p = addr k o b /\ in_blk o b g = true).

Lemma in_blk_range o b g : 6 <= o -> in_blk o b g = true <-> b * 2 ^ (o - 6) <= g < (b + 1) * 2 ^ (o - 6).
Proof.
  intros Ho. unfold in_blk. rewrite Z.eqb_eq. assert (0 < 2 ^ (o - 6)) as H2 by (apply Z.pow_pos_nonneg; lia).
  pose proof (Z.div_mod g (2 ^ (o - 6)) ltac:(lia)). pose proof (Z.mod_pos_bound g _ H2). split; [intros <-; lia|].
  intros [Hg0 Hg1]. symmetry. apply (Z.div_unique_pos g (2 ^ (o - 6)) b (g - b * 2 ^ (o - 6))); lia.
Qed.
Lemma addr_inj k o b c : 0 <= o -> addr k o b = addr k o c -> b = c.
Proof. unfold addr. intros Ho H. assert (0 < 2 ^ o) by (apply Z.pow_pos_nonneg; lia). nia. Qed.

Lemma buddy_block k lo hi A p o : buddy_owns k lo hi A -> (p, o) ∈ A ->
  6 <= o <= 12 /\ 0 < p /\ p mod 2 ^ o = 0 /\ lo <= p /\ p + 2 ^ o <= hi <= 2 ^ 64.
Proof.
  intros (_ & -> & K & n0 & F & -> & Hh & HA & _ & _) Hp. destruct (HA p o Hp) as (b & -> & Hv & _).
  pose proof Hv as [Ho _]. destruct (block_bytes _ _ _ _ _ _ Hh Hv) as (H0 & H1 & _).
  pose proof (hp_end _ _ _ _ Hh). split; [done|]. split; [by eapply addr_pos|]. split; [by eapply addr_aligned|].
  unfold addr. lia.
Qed.
Lemma buddy_disj k lo hi A p o q r : buddy_owns k lo hi A -> (p, o) ∈ A -> (q, r) ∈ A -> (p, o) <> (q, r) ->
  p + 2 ^ o <= q \/ q + 2 ^ r <= p.
Proof.
  intros (_ & -> & K & n0 & F & -> & Hh & HA & Hd & _) Hp Hq Hne.
  destruct (HA p o Hp) as (b & Ep & [Ho _] & _). destruct (HA q r Hq) as (c & Eq & [Hr _] & _).
  pose proof (Hd p o b q r c Hp Hq Hne Ep Eq) as Hg.
  assert (0 < 2 ^ (o - 6) /\ 0 < 2 ^ (r - 6)) as [P1 P2] by (split; apply Z.pow_pos_nonneg; lia).
  assert (forall n, 6 <= n -> 2 ^ n = 2 ^ (n - 6) * 64) as E.
  { intros n Hn. replace n with (n - 6 + 6) at 1 by lia. by rewrite Z.pow_add_r by lia. }
  pose proof (E o ltac:(lia)) as E1. pose proof (E r ltac:(lia)) as E2.
  subst p q. unfold addr. rewrite E1, E2.
  pose proof (Hg (Z.max (b * 2 ^ (o - 6)) (c * 2 ^ (r - 6)))) as H. rewrite !in_blk_range in H by lia. nia.
Qed.

Lemma buddy_kmalloc k lo hi A o : buddy_owns k lo hi A -> 6 <= o <= 12 ->
  wp (kmalloc o) (fun p k' => p = 0 /\ k' = k \/ ((p, o) ∉ A) /\ buddy_owns k' lo hi ({[(p, o)]} ∪ A)) k.
Proof.
  intros (Hl & -> & K & n0 & F & -> & Hh & HA & Hd & Hall) Ho. eapply wp_mono; [by apply (kmalloc_spec K n0 k F o Hl Hh Ho)|].
  cbn beta. intros p k' (Hl' & [(-> & -> & _)|(b & F' & -> & Hv & Hh' & Hf & Hin & Hc)]); [by left|right].
  assert (forall o b, addr k' o b = addr k o b) as Ea by (intros; by apply addr_frame).
  assert ((addr k o b, o) ∉ A) as Hnew.
  { intros H. destruct (HA _ _ H) as (b' & E & _ & Hcf). apply addr_inj in E as <-; [|lia].
    apply (Hcf (b * 2 ^ (o - 6))); [|apply Hin]; apply in_blk_range; try lia;
      (assert (0 < 2 ^ (o - 6)) by (apply Z.pow_pos_nonneg; lia); nia). }
  assert (forall p r c, (p, r) ∈ A -> p = addr k r c -> forall g, in_blk r c g = true -> in_blk o b g = true -> False) as Hsep.
  { intros p r c Hp E g Hg1 Hg2. destruct (HA _ _ Hp) as (c' & E' & [Hr _] & Hcf). subst p.
    apply addr_inj in E' as <-; [|lia]. by apply (Hcf g Hg1), Hin. }
  assert (start_heap k' = start_heap k) as Es by (unfold frame in Hf; congruence).
  split; [done|]. split; [done|]. split; [by rewrite Es|]. exists K, n0, F'. split; [done|]. split; [done|]. split; [|split].
  - intros p r [[= -> ->]%elem_of_singleton|Hp]%elem_of_union.
    + exists b. split; [by rewrite Ea|]. split; [done|]. intros g Hg Hcov. apply Hc in Hcov as [_ Hno]. congruence.
    + destruct (HA _ _ Hp) as (c & -> & Hvc & Hcf). exists c. split; [by rewrite Ea|]. split; [done|].
      intros g Hg Hcov. apply Hc in Hcov as [Hcov _]. by apply (Hcf g Hg).
  - intros p r c q t d [[= -> ->]%elem_of_singleton|Hp]%elem_of_union [[= -> ->]%elem_of_singleton|Hq]%elem_of_union Hne;
      rewrite ?Ea; [done| | |by apply Hd].
    + intros E1 E2 g G1 G2. apply addr_inj in E1 as <-; [|lia]. by apply (Hsep q t d Hq E2 g).
    + intros E1 E2 g G1 G2. apply addr_inj in E2 as <-; [|lia]. by apply (Hsep p r c Hp E1 g).
  - intros g Hg. destruct (in_blk o b g) eqn:Eg.
    + right. exists (addr k o b), o, b. split; [set_solver|]. by rewrite Ea.
    + destruct (Hall g Hg) as [Hcov|(p & r & c & Hp & E & Hi)]; [left; by apply Hc|right]. exists p, r, c. rewrite Ea. split; [set_solver|done].
Qed.

Lemma buddy_kfree k lo hi A p o : buddy_owns k lo hi A -> (p, o) ∈ A ->
  wp (kfree p o) (fun _ k' => buddy_owns k' lo hi (A ∖ {[(p, o)]})) k.
Proof.
  intros (Hl & -> & K & n0 & F & -> & Hh & HA & Hd & Hall) Hp. destruct (HA _ _ Hp) as (b & -> & Hv & Hcf).
  eapply wp_mono; [by apply (kfree_spec K n0 k F o b Hl Hh Hv Hcf)|]. cbn beta.
  intros _ k' (Hl' & F' & Hh' & Hf & Hc).
  assert (forall o b, addr k' o b = addr k o b) as Ea by (intros; by apply addr_frame).
  assert (start_heap k' = start_heap k) as Es by (unfold frame in Hf; congruence).
  split; [done|]. split; [by rewrite Es|]. exists K, n0, F'. split; [done|]. split; [done|]. split; [|split].
  - intros q r [Hq Hne]%elem_of_difference. rewrite elem_of_singleton in Hne. destruct (HA _ _ Hq) as (c & E & Hvc & Hcc).
    exists c. split; [by rewrite Ea|]. split; [done|]. intros g Hg Hcov. apply Hc in Hcov as [Hcov|Hcov]; [by apply (Hcc g Hg)|].
    apply (Hd q r c (addr k o b) o b Hq Hp Hne E eq_refl g Hg Hcov).
  - intros q r c q' t d [Hq _]%elem_of_difference [Hq' _]%elem_of_difference Hne. rewrite !Ea. by apply Hd.
  - intros g Hg. destruct (in_blk o b g) eqn:Eg; [left; apply Hc; by right|].
    destruct (Hall g Hg) as [Hcov|(q & r & c & Hq & E & Hi)]; [left; apply Hc; by left|right]. exists q, r, c. rewrite Ea. split; [|done].
    apply elem_of_difference. split; [done|]. intros [= -> ->]%elem_of_singleton. apply addr_inj in E as <-; [congruence|]. destruct Hv. lia.
Qed.

#[export] Instance buddy_alloc_laws : PageAllocLaws Buddy.kmem := {
  owns := buddy_owns;
  pa_block := buddy_block;
  pa_disj := buddy_disj;
  pa_alloc := buddy_kmalloc;
  pa_free := buddy_kfree;
}.

(** [A] determines what is free: the bytes of the pool in none of its blocks *)
Lemma buddy_owns_free k lo hi A : buddy_owns k lo hi A -> exists K, Inv K k /\ lo = start_heap k /\ hi = lo + K * 4096 /\
  forall x, lo <= x < hi -> granule_free K k ((x - lo) / 64) = true <-> forall p o, (p, o) ∈ A -> ~ p <= x < p + 2 ^ o.
Proof.
  intros (Hl & -> & K & n0 & F & -> & Hh & HA & Hd & Hall). exists K. split; [split; eauto|]. split; [done|]. split; [done|].
  assert (forall p o b x, p = addr k o b -> 6 <= o -> in_blk o b ((x - start_heap k) / 64) = true <-> p <= x < p + 2 ^ o) as Hin.
  { intros p o b x -> Ho. rewrite in_blk_range by done. unfold addr.
    assert (2 ^ o = 64 * 2 ^ (o - 6)) as -> by (change 64 with (2 ^ 6); rewrite <-Z.pow_add_r by lia; f_equal; lia).
    set (P := 2 ^ (o - 6)). set (y := x - start_heap k). assert (64 * P * b = 64 * (b * P)) as -> by ring.
    replace ((b + 1) * P) with (b * P + P) by ring. set (c := b * P). pose proof (Z.div_mod y 64 ltac:(lia)). pose proof (Z.mod_pos_bound y 64 ltac:(lia)). lia. }
  intros x Hx. rewrite (granule_free_F _ _ _ _ _ Hh). split.
  - intros Hcov p o Hp Hxp. destruct (HA _ _ Hp) as (b & E & [Ho _] & Hcf). apply (Hcf ((x - start_heap k) / 64)); [|done]. apply (Hin p o b x E); [lia|done].
  - intros Hno. destruct (Hall ((x - start_heap k) / 64)) as [|(p & o & b & Hp & E & Hi)]; [Z.div_mod_to_equations; lia|done|].
    exfalso. destruct (HA _ _ Hp) as (_ & _ & [Ho _] & _). apply (Hno p o Hp), (Hin p o b x E); [lia|done].
Qed.

(** nothing allocated *)
Lemma buddy_owns_none K k : Inv K k -> (forall g, 0 <= g < 64 * K -> granule_free K k g = true) ->
  buddy_owns k (start_heap k) (start_heap k + K * 4096) ∅.
Proof.
  intros [Hl (n0 & F & Hh)] Hfree. split; [done|]. split; [done|]. exists K, n0, F. split; [done|]. split; [done|]. split; [set_solver|]. split; [set_solver|].
  intros g Hg. left. apply (granule_free_F _ _ _ _ _ Hh). by apply Hfree.
Qed.

End Alloc.
