(* ===== verification/Pipe.v ===== *)
(** * Pipes (src/src/pipe.c)

    struct pipe with its circular buffer and 32-bit counters; pipewrite and
    piperead are modelled from one sleep to the next: [pipewrite_from n i] is
    the code from the lock's acquisition with loop index [i] up to a return or
    the next sleep(), and a call is woken by running it again from the index
    it slept at.  wakeup() is recorded; [pstep] gives it its meaning for any
    number of processes that share the pipe. *)

From S2P Require Import Prelude.
From S2P Require Import Buddy.

Module Pipe.

Definition PIPESIZE : Z := 512.
(** sizeof(struct pipe) on AArch64 *)
Definition sizeof_pipe : Z := 592.

Record pipe := MkPipe {
  lock : bool;
  data : list Z;
  nread : Z;      (* number of bytes read *)
  nwrite : Z;     (* number of bytes written *)
  readopen : Z;   (* read fd is still open *)
  writeopen : Z;  (* write fd is still open *)
}.

(** A pipe, the caller's buffer and killed flag, the wakeups issued so far
    and the allocator the pipe came from. *)
Record st := St {
  pp : pipe;
  ubuf : list Z;
  killed : Z;
  wakes : list chan;
  kmm : Buddy.kmem;
}.

Definition set_pp (f : pipe -> pipe) (s : st) : st :=
  St (f (pp s)) (ubuf s) (killed s) (wakes s) (kmm s).
Definition pipe_lock : lens st bool :=
  Lens (fun s => lock (pp s))
       (fun b => set_pp (fun p => MkPipe b (data p) (nread p) (nwrite p) (readopen p) (writeopen p))).
Definition kmm_lens : lens st Buddy.kmem :=
  Lens kmm (fun k s => St (pp s) (ubuf s) (killed s) (wakes s) k).

(** the addresses slept on: &p->nread and &p->nwrite *)
Definition ch_nread : chan := Chan "pipe.nread" 0.
Definition ch_nwrite : chan := Chan "pipe.nwrite" 0.
Definition wakeup (c : chan) : M st unit :=
  modify (fun s => St (pp s) (ubuf s) (killed s) (wakes s ++ [c]) (kmm s)).

(** [p->data[p->nwrite++ % PIPESIZE] = c] *)
Definition push (c : Z) : M st unit := modify (set_pp (fun p =>
  MkPipe (lock p) (put (data p) (nwrite p mod PIPESIZE) c)
         (nread p) (u32 (nwrite p + 1)) (readopen p) (writeopen p))).
(** [addr[i] = p->data[p->nread++ % PIPESIZE]] *)
Definition pop (i : Z) : M st unit :=
  c ← deref (fun s => at_ (data (pp s)) (nread (pp s) mod PIPESIZE));
  deref (fun s => at_ (ubuf s) i) ;;
  modify (fun s => St
    (MkPipe (lock (pp s)) (data (pp s)) (u32 (nread (pp s) + 1)) (nwrite (pp s))
            (readopen (pp s)) (writeopen (pp s)))
    (put (ubuf s) i c) (killed s) (wakes s) (kmm s)).

Definition full (p : pipe) : bool := nwrite p =? u32 (nread p + PIPESIZE).
Definition empty (p : pipe) : bool := nread p =? nwrite p.

(** one iteration of pipewrite's for loop; [None] is the loop's normal end *)
Definition pipewrite_body (n i : Z) : M st (Z + option (run Z)) :=
  if negb (i <? n) then mret (inr None) else
  p ← gets pp;
  if full p then
    if readopen p =? 0 then release pipe_lock ;; mret (inr (Some (Ret (-1))))
    else wakeup ch_nread ;; release pipe_lock ;; mret (inr (Some (Asleep ch_nwrite i)))
  else
    c ← deref (fun s => at_ (ubuf s) i);
    push c ;;
    mret (inl (i + 1)).
Definition pipewrite_from (n i : Z) : M st (run Z) :=
  acquire pipe_lock ;;
  r ← loop (S (Z.to_nat (n - i))) (pipewrite_body n) i;
  match r with
  | Some r => mret r
  | None => wakeup ch_nread ;; release pipe_lock ;; mret (Ret n)
  end.
Definition pipewrite (n : Z) : M st (run Z) := pipewrite_from n 0.

Definition piperead_body (n i : Z) : M st (Z + Z) :=
  if negb (i <? n) then mret (inr i) else
  p ← gets pp;
  if empty p then mret (inr i) else pop i ;; mret (inl (i + 1)).
(** the reader sleeps before it copies anything, so it always resumes here *)
Definition piperead (n : Z) : M st (run Z) :=
  acquire pipe_lock ;;
  p ← gets pp;
  k ← gets killed;
  if empty p && negb (writeopen p =? 0) then
    if negb (k =? 0) then release pipe_lock ;; mret (Ret (-1))
    else release pipe_lock ;; mret (Asleep ch_nread 0)
  else
    i ← loop (S (Z.to_nat n)) (piperead_body n) 0;
    wakeup ch_nwrite ;;
    release pipe_lock ;;
    mret (Ret i).

(** [addr] is where the pipe lies: kmalloc gave it out in pipealloc *)
Definition pipeclose (addr : Z) (writable : bool) : M st unit :=
  acquire pipe_lock ;;
  (if writable then
     modify (set_pp (fun p => MkPipe (lock p) (data p) (nread p) (nwrite p) (readopen p) 0)) ;;
     wakeup ch_nread
   else
     modify (set_pp (fun p => MkPipe (lock p) (data p) (nread p) (nwrite p) 0 (writeopen p))) ;;
     wakeup ch_nwrite) ;;
  p ← gets pp;
  if (readopen p =? 0) && (writeopen p =? 0) then
    release pipe_lock ;;
    ord ← zoom unit_lens (Buddy.get_order sizeof_pipe);
    zoom kmm_lens (Buddy.kfree addr ord)
  else release pipe_lock.

(** ** The queue a pipe represents *)

Definition count (p : pipe) : Z := u32 (nwrite p - nread p).
(** the bytes between the two counters, oldest first *)
Definition contents (p : pipe) : list Z :=
  (fun j => default 0 (at_ (data p) (u32 (nread p + Z.of_nat j) mod PIPESIZE)))
    <$> seq 0 (Z.to_nat (count p)).

Record pipe_ok (p : pipe) : Prop := {
  po_data : length (data p) = 512%nat;
  po_nread : 0 <= nread p < 2 ^ 32;
  po_nwrite : 0 <= nwrite p < 2 ^ 32;
  po_count : count p <= PIPESIZE;
  po_lock : lock p = false;
}.
Definition locked (p : pipe) : pipe :=
  MkPipe true (data p) (nread p) (nwrite p) (readopen p) (writeopen p).

Lemma length_contents p : Z.of_nat (length (contents p)) = count p.
Proof.
  unfold contents. rewrite length_fmap, length_seq.
  assert (0 <= count p) by (apply Z.mod_pos_bound; lia). lia.
Qed.

Lemma full_count p : 0 <= nread p < 2 ^ 32 -> 0 <= nwrite p < 2 ^ 32 ->
  full p = (count p =? PIPESIZE).
Proof.
  intros Hr Hw. unfold full, count, u32, PIPESIZE. apply eq_true_iff_eq.
  rewrite !Z.eqb_eq. split; Z.div_mod_to_equations; lia.
Qed.
Lemma empty_count p : 0 <= nread p < 2 ^ 32 -> 0 <= nwrite p < 2 ^ 32 ->
  empty p = (count p =? 0).
Proof.
  intros Hr Hw. unfold empty, count, u32. apply eq_true_iff_eq.
  rewrite !Z.eqb_eq. split; Z.div_mod_to_equations; lia.
Qed.

Lemma contents_nil p : count p = 0 -> contents p = [].
Proof. intros E. unfold contents. by rewrite E. Qed.

Definition slot (p : pipe) (j : Z) : Z := u32 (nread p + j) mod PIPESIZE.
Lemma slot_mod p j : slot p j = (nread p + j) mod 512.
Proof. unfold slot, u32, PIPESIZE. Z.div_mod_to_equations; lia. Qed.

(** the pipe after [push c] and after taking its oldest byte *)
Definition pushed (p : pipe) (c : Z) : pipe :=
  MkPipe (lock p) (put (data p) (nwrite p mod PIPESIZE) c)
         (nread p) (u32 (nwrite p + 1)) (readopen p) (writeopen p).
Definition popped (p : pipe) : pipe :=
  MkPipe (lock p) (data p) (u32 (nread p + 1)) (nwrite p) (readopen p) (writeopen p).

Lemma count_pushed p c : count p < PIPESIZE -> count (pushed p c) = count p + 1.
Proof. unfold count, pushed, u32, PIPESIZE. cbn. Z.div_mod_to_equations; lia. Qed.
Lemma count_popped p : 0 < count p -> count (popped p) = count p - 1.
Proof. unfold count, popped, u32. cbn. Z.div_mod_to_equations; lia. Qed.
Lemma count_range p : 0 <= count p < 2 ^ 32.
Proof. apply Z.mod_pos_bound. lia. Qed.

Lemma contents_pushed p c :
  length (data p) = 512%nat -> count p < PIPESIZE ->
  contents (pushed p c) = contents p ++ [c].
Proof.
  intros Hd Hc. pose proof (count_range p) as Hr. unfold contents.
  rewrite count_pushed by done.
  replace (Z.to_nat (count p + 1)) with (S (Z.to_nat (count p))) by lia.
  rewrite seq_S, fmap_app, Nat.add_0_l. f_equal.
  - apply list_fmap_ext. intros i j Hj. apply lookup_seq in Hj as [-> Hj]. cbn.
    rewrite at_put_ne; [done|apply Z.mod_pos_bound; done|].
    change (u32 (nread p + Z.of_nat i) mod PIPESIZE) with (slot p (Z.of_nat i)).
    rewrite slot_mod. unfold count, u32, PIPESIZE in *. Z.div_mod_to_equations; lia.
  - cbn. f_equal.
    change (u32 (nread p + Z.of_nat (Z.to_nat (count p))) mod PIPESIZE)
      with (slot p (Z.of_nat (Z.to_nat (count p)))).
    rewrite slot_mod. unfold PIPESIZE.
    replace ((nread p + Z.of_nat (Z.to_nat (count p))) mod 512) with (nwrite p mod 512).
    2: { unfold count, u32 in *. Z.div_mod_to_equations; lia. }
    rewrite at_put_eq; [done|]. rewrite Hd. change (Z.of_nat 512) with 512.
    apply Z.mod_pos_bound. lia.
Qed.

Lemma contents_popped p :
  0 <= nread p < 2 ^ 32 -> 0 < count p ->
  contents p = default 0 (at_ (data p) (nread p mod PIPESIZE)) :: contents (popped p).
Proof.
  intros Hn Hc. pose proof (count_range p) as Hr. unfold contents.
  rewrite count_popped by done.
  replace (Z.to_nat (count p)) with (S (Z.to_nat (count p - 1))) by lia.
  change (seq 0 (S (Z.to_nat (count p - 1)))) with (0%nat :: seq 1 (Z.to_nat (count p - 1))).
  rewrite fmap_cons. f_equal.
  - rewrite Z.add_0_r. unfold u32. by rewrite (Z.mod_small (nread p)) by lia.
  - rewrite <-fmap_S_seq, <-list_fmap_compose. apply list_fmap_ext. intros i j _. cbn.
    do 3 f_equal. unfold u32, PIPESIZE. Z.div_mod_to_equations; lia.
Qed.

(** ** pipewrite *)

Definition with_pipe (p : pipe) (w : list chan) (s : st) : st :=
  St p (ubuf s) (killed s) (wakes s ++ w) (kmm s).

(** room left, as the number of bytes a write from [i] to [n] stores at once *)
Definition room (p : pipe) (k : Z) : Z := Z.min k (PIPESIZE - count p).
Definition bytes (l : list Z) (i k : Z) : list Z :=
  take (Z.to_nat k) (drop (Z.to_nat i) l).

Lemma bytes_snoc l i k x :
  0 <= i -> 0 <= k -> at_ l (i + k) = Some x -> bytes l i (k + 1) = bytes l i k ++ [x].
Proof.
  intros Hi Hk Hx. unfold bytes. replace (Z.to_nat (k + 1)) with (S (Z.to_nat k)) by lia.
  apply take_S_r. rewrite lookup_drop. unfold at_ in Hx.
  destruct (Z.leb_spec 0 (i + k)); [|lia]. by replace (Z.to_nat i + Z.to_nat k)%nat with (Z.to_nat (i + k)) by lia.
Qed.
Lemma length_bytes l i k : 0 <= i -> 0 <= k -> i + k <= Z.of_nat (length l) ->
  Z.of_nat (length (bytes l i k)) = k.
Proof. intros. unfold bytes. rewrite length_take, length_drop. lia. Qed.

(** [p'] is [p] with [l] queued *)
Record queued (p : pipe) (l : list Z) (p' : pipe) : Prop := {
  qd_contents : contents p' = contents p ++ l;
  qd_data : length (data p') = 512%nat;
  qd_nread : nread p' = nread p;
  qd_nwrite : 0 <= nwrite p' < 2 ^ 32;
  qd_count : count p' = count p + Z.of_nat (length l);
  qd_readopen : readopen p' = readopen p;
  qd_writeopen : writeopen p' = writeopen p;
}.

Definition write_result (s : st) (n i : Z) (r : run Z) (s' : st) : Prop :=
  let k := room (pp s) (n - i) in
  pipe_ok (pp s') /\ queued (pp s) (bytes (ubuf s) i k) (pp s') /\
  (if k =? n - i then r = Ret n /\ wakes s' = wakes s ++ [ch_nread]
   else full (pp s') = true /\
        if readopen (pp s) =? 0 then r = Ret (-1) /\ wakes s' = wakes s
        else r = Asleep ch_nwrite (i + k) /\ wakes s' = wakes s ++ [ch_nread]) /\
  ubuf s' = ubuf s /\ killed s' = killed s /\ kmm s' = kmm s.

Lemma queued_push p l p' c :
  queued p l p' -> count p' < PIPESIZE -> queued p (l ++ [c]) (pushed p' c).
Proof.
  intros [Hc Hd Hn Hw Hk Hr Hwo] Hlt. split; cbn; try done.
  - rewrite contents_pushed by done. by rewrite Hc, app_assoc.
  - by rewrite length_put.
  - apply Z.mod_pos_bound. lia.
  - rewrite count_pushed, Hk, length_app by done. cbn. lia.
Qed.

Lemma queued_nil p b :
  length (data p) = 512%nat -> 0 <= nwrite p < 2 ^ 32 ->
  queued p [] (MkPipe b (data p) (nread p) (nwrite p) (readopen p) (writeopen p)).
Proof.
  intros Hd Hw. split; try done; [by rewrite app_nil_r|].
  by rewrite Z.add_0_r.
Qed.

Lemma pipewrite_from_spec s n i :
  pipe_ok (pp s) -> 0 <= i <= n -> n <= Z.of_nat (length (ubuf s)) ->
  wp (pipewrite_from n i) (write_result s n i) s.
Proof.
  intros [Hd Hr Hw Hc Hl] Hi Hn. unfold pipewrite_from, wakeup. wp_step. wp_step; [done|].
  wp_step. eapply wp_mono with (Q := fun r s' =>
    exists k, 0 <= k <= n - i /\ queued (pp s) (bytes (ubuf s) i k) (pp s') /\ count (pp s') <= PIPESIZE /\
    ubuf s' = ubuf s /\ killed s' = killed s /\ kmm s' = kmm s /\
    match r with
    | None => k = n - i /\ wakes s' = wakes s /\ lock (pp s') = true
    | Some r => k < n - i /\ full (pp s') = true /\ lock (pp s') = false /\
        if readopen (pp s) =? 0 then r = Ret (-1) /\ wakes s' = wakes s
        else r = Asleep ch_nwrite (i + k) /\ wakes s' = wakes s ++ [ch_nread]
    end).
  - eapply wp_loop with (mu := fun v => Z.to_nat (n - v))
      (Inv := fun v s' => i <= v <= n /\ queued (pp s) (bytes (ubuf s) i (v - i)) (pp s') /\
         count (pp s') <= PIPESIZE /\ lock (pp s') = true /\
         ubuf s' = ubuf s /\ killed s' = killed s /\ kmm s' = kmm s /\ wakes s' = wakes s).
    + split; [lia|]. split.
      { rewrite Z.sub_diag. by apply queued_nil. }
      done.
    + lia.
    + intros v s1 (Hv & Hq & Hc1 & Hl1 & Hu & Hk & Hm & Hwk). unfold pipewrite_body, wakeup, push.
      destruct (Z.ltb_spec v n) as [Hlt|Hge]; cbn [negb].
      * wp_step. wp_step. pose proof Hq as [_ _ Hnr Hnw Hcnt Hro _].
        rewrite full_count by (rewrite ?Hnr; done).
        destruct (Z.eqb_spec (count (pp s1)) PIPESIZE) as [Ef|Ef].
        -- assert (full (pp s1) = true) as Hf
             by (rewrite full_count by (rewrite ?Hnr; done); by apply Z.eqb_eq).
           rewrite Hro. destruct (readopen (pp s) =? 0).
           ++ wp_step. wp_step; [done|]. wp_step. exists (v - i).
              split; [lia|]. split; [by destruct Hq|]. split; [done|]. do 3 (split; [done|]).
              split; [lia|]. by split.
           ++ wp_step. wp_step. wp_step. wp_step; [done|]. wp_step. exists (v - i).
              split; [lia|]. split; [by destruct Hq|]. split; [done|]. do 3 (split; [done|]).
              split; [lia|]. split; [done|]. split; [done|]. split; [f_equal; lia|]. cbn. by rewrite Hwk.
        -- wp_step. destruct (at_is_Some (ubuf s1) v) as [c Hat]; [rewrite Hu; lia|].
           eapply wp_deref; [exact Hat|]. wp_step. wp_step. wp_step.
           assert (count (pp s1) < PIPESIZE) as Hroom by lia.
           change (pp (set_pp _ s1)) with (pushed (pp s1) c).
           split; [|lia]. split; [lia|]. split.
           { replace (v + 1 - i) with (v - i + 1) by lia.
             rewrite (bytes_snoc _ _ _ c) by (rewrite <-?Hu; replace (i + (v - i)) with v by lia; lia || done).
             by apply queued_push. }
           rewrite count_pushed by done. split; [lia|]. done.
      * wp_step. exists (v - i). split; [lia|]. split; [done|]. split; [done|].
        do 3 (split; [done|]). split; [lia|]. done.
  - cbn beta. intros r s1 (k & Hk & Hq & Hc1 & Hu & Hkl & Hm & H).
    pose proof Hq as [_ Hd1 Hnr Hnw Hcnt _ _].
    rewrite length_bytes in Hcnt by lia.
    assert (pipe_ok (locked (pp s1)) -> lock (pp s1) = false -> pipe_ok (pp s1)) as Hok1.
    { intros [? ? ? ? _] ?. by split. }
    destruct r as [r|]; wp_step.
    + destruct H as (Hlt & Hf & Hl1 & Hres).
      pose proof Hf as Ef. rewrite full_count in Ef by (rewrite ?Hnr; done). apply Z.eqb_eq in Ef.
      assert (room (pp s) (n - i) = k) as Ek by (unfold room; lia).
      unfold write_result. rewrite Ek. split; [split; try done; by rewrite Hnr|].
      split; [done|]. split; [|done]. destruct (Z.eqb_spec k (n - i)); [lia|]. done.
    + destruct H as (-> & Hwk & Hl1). wp_step. wp_step. wp_step; [done|]. wp_step.
      assert (room (pp s) (n - i) = n - i) as Ek by (unfold room; lia).
      unfold write_result. rewrite Ek. cbn. split; [split; cbn; try done; by rewrite Hnr|].
      split; [by destruct Hq|]. rewrite Z.eqb_refl. rewrite Hwk. done.
Qed.

(** ** piperead *)

(** the pipe [p'] is [p] with its oldest [k] bytes taken out *)
Record dequeued (p : pipe) (k : Z) (p' : pipe) : Prop := {
  dq_contents : contents p = take (Z.to_nat k) (contents p) ++ contents p';
  dq_data : data p' = data p;
  dq_nread : 0 <= nread p' < 2 ^ 32;
  dq_nwrite : nwrite p' = nwrite p;
  dq_count : count p' = count p - k;
  dq_readopen : readopen p' = readopen p;
  dq_writeopen : writeopen p' = writeopen p;
}.

Definition read_result (s : st) (n : Z) (r : run Z) (s' : st) : Prop :=
  pipe_ok (pp s') /\ killed s' = killed s /\ kmm s' = kmm s /\
  if empty (pp s) && negb (writeopen (pp s) =? 0) then
    pp s' = pp s /\ ubuf s' = ubuf s /\ wakes s' = wakes s /\
    r = (if killed s =? 0 then Asleep ch_nread 0 else Ret (-1))
  else
    let k := Z.max 0 (Z.min n (count (pp s))) in
    r = Ret k /\ dequeued (pp s) k (pp s') /\
    ubuf s' = take (Z.to_nat k) (contents (pp s)) ++ drop (Z.to_nat k) (ubuf s) /\
    wakes s' = wakes s ++ [ch_nwrite].

Lemma contents_at p j : 0 <= j < count p ->
  contents p !! Z.to_nat j = Some (default 0 (at_ (data p) (slot p j))).
Proof.
  intros Hj. unfold contents. rewrite list_lookup_fmap, lookup_seq_lt by lia. cbn.
  unfold slot. by rewrite Z2Nat.id by lia.
Qed.

Lemma dequeued_0 p b :
  0 <= nread p < 2 ^ 32 ->
  dequeued p 0 (MkPipe b (data p) (nread p) (nwrite p) (readopen p) (writeopen p)).
Proof. intros Hr. split; try done. by rewrite Z.sub_0_r. Qed.

Lemma dequeued_pop p k p' c :
  0 <= k -> k < count p -> dequeued p k p' ->
  at_ (data p') (nread p' mod PIPESIZE) = Some c ->
  take (Z.to_nat (k + 1)) (contents p) = take (Z.to_nat k) (contents p) ++ [c] /\
  dequeued p (k + 1) (popped p').
Proof.
  intros Hk0 Hk [Hc Hd Hn Hw Hcnt Hr Hwo] Hat.
  pose proof (contents_popped p' Hn ltac:(lia)) as Hpop. rewrite Hat in Hpop. cbn in Hpop.
  assert (take (Z.to_nat (k + 1)) (contents p) = take (Z.to_nat k) (contents p) ++ [c]) as Ht.
  { replace (Z.to_nat (k + 1)) with (S (Z.to_nat k)) by lia. apply take_S_r.
    rewrite Hc, lookup_app_r; rewrite length_take;
      pose proof (length_contents p); [|lia].
    replace (Z.to_nat k - _)%nat with 0%nat by lia. by rewrite Hpop. }
  split; [done|]. split; cbn; try done.
  - rewrite Ht, <-app_assoc. cbn. by rewrite <-Hpop.
  - apply Z.mod_pos_bound. lia.
  - rewrite count_popped by lia. lia.
Qed.

(** one more byte copied to the caller's buffer *)
Lemma copy_snoc (u l : list Z) k c :
  (k < length u)%nat -> length l = k ->
  <[k := c]> (l ++ drop k u) = (l ++ [c]) ++ drop (S k) u.
Proof.
  intros Hk <-. rewrite insert_app_r_alt, Nat.sub_diag by lia.
  rewrite <-app_assoc. f_equal.
  destruct (lookup_lt_is_Some_2 u (length l) Hk) as [x Hx].
  by rewrite (drop_S u x) by done.
Qed.

Lemma piperead_spec s n :
  pipe_ok (pp s) -> n <= Z.of_nat (length (ubuf s)) ->
  wp (piperead n) (read_result s n) s.
Proof.
  intros [Hd Hr Hw Hc Hl] Hn. unfold piperead, wakeup. wp_step. wp_step; [done|].
  wp_step. wp_step. wp_step. wp_step. cbn [pp set_pp pipe_lock lset].
  change (empty (MkPipe _ _ _ _ _ _)) with (empty (pp s)). cbn [writeopen killed].
  change (killed (set_pp _ s)) with (killed s).
  unfold read_result.
  destruct (empty (pp s) && negb (writeopen (pp s) =? 0)) eqn:Ee.
  { assert (MkPipe false (data (pp s)) (nread (pp s)) (nwrite (pp s)) (readopen (pp s))
      (writeopen (pp s)) = pp s) as Eid by (destruct (pp s); cbn in *; by subst).
    destruct (Z.eqb_spec (killed s) 0); cbn [negb]; wp_step; (wp_step; [done|]); wp_step;
      cbn; rewrite Eid; (split; [by split|done]). }
  pose proof (count_range (pp s)) as Hcr. set (k := Z.max 0 (Z.min n (count (pp s)))).
  wp_step. eapply wp_mono with (Q := fun i s' => i = k /\ dequeued (pp s) k (pp s') /\
     lock (pp s') = true /\ ubuf s' = take (Z.to_nat k) (contents (pp s)) ++ drop (Z.to_nat k) (ubuf s) /\
     killed s' = killed s /\ kmm s' = kmm s /\ wakes s' = wakes s).
  - eapply wp_loop with (mu := fun v => Z.to_nat (n - v))
      (Inv := fun v s' => 0 <= v <= k /\ dequeued (pp s) v (pp s') /\
         lock (pp s') = true /\ ubuf s' = take (Z.to_nat v) (contents (pp s)) ++ drop (Z.to_nat v) (ubuf s) /\
         killed s' = killed s /\ kmm s' = kmm s /\ wakes s' = wakes s).
    + split; [lia|]. split; [by apply dequeued_0|]. done.
    + lia.
    + intros v s1 (Hv & Hq & Hl1 & Hu & Hk & Hm & Hwk). unfold piperead_body.
      pose proof Hq as [Hct Hd1 Hn1 Hw1 Hcnt _ _].
      destruct (Z.ltb_spec v n) as [Hlt|Hge]; cbn [negb]; wp_step.
      2: { assert (v = k) as -> by lia. done. }
      wp_step. rewrite empty_count by (rewrite ?Hw1; done).
      destruct (Z.eqb_spec (count (pp s1)) 0) as [Ef|Ef]; wp_step.
      * assert (v = k) as -> by lia. done.
      * unfold pop. wp_step.
        assert (v < count (pp s)) as Hvc by lia.
        destruct (at_is_Some (data (pp s1)) (nread (pp s1) mod PIPESIZE)) as [c Hat].
        { rewrite Hd1, Hd. apply Z.mod_pos_bound. done. }
        eapply wp_deref; [exact Hat|]. wp_step. 
        pose proof (length_contents (pp s)) as Hlc.
        assert (length (take (Z.to_nat v) (contents (pp s))) = Z.to_nat v) as Htl
          by (rewrite length_take; lia).
        destruct (at_is_Some (ubuf s1) v) as [c' Hat'].
        { rewrite Hu, length_app, length_drop. lia. }
        eapply wp_deref; [exact Hat'|]. wp_step. wp_step.
        destruct (dequeued_pop (pp s) v (pp s1) c ltac:(lia) Hvc Hq Hat) as [Ht Hq'].
        split; [|lia]. split; [lia|]. split; [exact Hq'|]. split; [done|]. split; [|done].
        cbn [ubuf]. unfold put. rewrite Hu, Ht. replace (Z.to_nat (v + 1)) with (S (Z.to_nat v)) by lia.
        apply copy_snoc; [lia|done].
  - cbn beta. intros i s1 (-> & Hq & Hl1 & Hu & Hk & Hm & Hwk).
    wp_step. wp_step. wp_step. wp_step; [done|]. wp_step. cbn.
    pose proof Hq as [Hct Hd1 Hn1 Hw1 Hcnt Hro Hwo].
    split.
    { split; cbn; try done; [by rewrite Hd1|by rewrite Hw1|].
      change (count (MkPipe _ _ _ _ _ _)) with (count (pp s1)). lia. }
    do 2 (split; [done|]). split; [done|]. split; [by destruct Hq|]. split; [done|].
    by rewrite Hwk.
Qed.

(** ** Processes sharing a pipe

    [waiting] holds the calls asleep in the pipe, each with its buffer and
    index and whether a wakeup (or a kill) has made it runnable since; [sent]
    and [recvd] record every byte stored in and taken from the pipe. *)

Inductive waiter : Type :=
| WriteAt (buf : list Z) (n i : Z) (woken : bool)
| ReadAt (n : Z) (woken : bool).

Record sys := Sys {
  spipe : pipe;
  waiting : gmap Z waiter;
  sent : list Z;
  recvd : list Z;
}.

(** wakeup() makes every sleeper on one of the channels runnable *)
Definition wake (cs : list chan) (w : waiter) : waiter :=
  match w with
  | WriteAt b n i k => WriteAt b n i (k || bool_decide (ch_nwrite ∈ cs))
  | ReadAt n k => ReadAt n (k || bool_decide (ch_nread ∈ cs))
  end.
Definition make_runnable (w : waiter) : waiter :=
  match w with
  | WriteAt b n i _ => WriteAt b n i true
  | ReadAt n _ => ReadAt n true
  end.

Definition enter (y : sys) (buf : list Z) (kl : Z) (km : Buddy.kmem) : st :=
  St (spipe y) buf kl [] km.
(** the call of [pid] gave up the processor in [s] *)
Definition leave (y : sys) (pid : Z) (s : st) (asleep : option waiter) (out inn : list Z) : sys :=
  let ws := wake (wakes s) <$> waiting y in
  Sys (pp s) (match asleep with Some w => <[pid := w]> ws | None => delete pid ws end)
      (sent y ++ out) (recvd y ++ inn).
(** bytes stored by a call, as its counter tells *)
Definition stored (p p' : pipe) : Z := u32 (nwrite p' - nwrite p).

Definition writer_at (y : sys) (pid : Z) (buf : list Z) (n i : Z) : Prop :=
  (waiting y !! pid = None /\ i = 0 /\ 0 <= n <= Z.of_nat (length buf)) \/
  waiting y !! pid = Some (WriteAt buf n i true).
Definition reader_at (y : sys) (pid n : Z) : Prop :=
  waiting y !! pid = None \/ waiting y !! pid = Some (ReadAt n true).

Inductive pstep : sys -> sys -> Prop :=
| S_write y pid buf n i kl km r s :
    writer_at y pid buf n i -> writeopen (spipe y) <> 0 ->
    pipewrite_from n i (enter y buf kl km) = Done r s ->
    pstep y (leave y pid s
      (match r with Asleep _ i' => Some (WriteAt buf n i' false) | Ret _ => None end)
      (bytes buf i (stored (spipe y) (pp s))) [])
| S_read y pid buf n kl km r s :
    reader_at y pid n -> readopen (spipe y) <> 0 -> n <= Z.of_nat (length buf) ->
    piperead n (enter y buf kl km) = Done r s ->
    pstep y (leave y pid s
      (match r with Asleep _ _ => Some (ReadAt n false) | Ret _ => None end)
      [] (match r with Ret k => take (Z.to_nat k) (ubuf s) | Asleep _ _ => [] end))
| S_close y pid (writable : bool) addr kl km s :
    (* the last file of that end: no call on it is in progress *)
    (forall q w, waiting y !! q = Some w ->
       match w with WriteAt _ _ _ _ => writable = false | ReadAt _ _ => writable = true end) ->
    waiting y !! pid = None ->
    pipeclose addr writable (enter y [] kl km) = Done tt s ->
    pstep y (leave y pid s None [] [])
| S_kill y pid w :
    waiting y !! pid = Some w ->
    pstep y (Sys (spipe y) (<[pid := make_runnable w]> (waiting y)) (sent y) (recvd y)).

(** the pipe as pipealloc leaves it *)
Definition fresh_pipe (d : list Z) : pipe := MkPipe false d 0 0 1 1.
Inductive reach : sys -> Prop :=
| R_init d : length d = 512%nat -> reach (Sys (fresh_pipe d) ∅ [] [])
| R_step y y' : reach y -> pstep y y' -> reach y'.

(** a sleeping call that nobody has woken has a reason to sleep *)
Definition justified (p : pipe) (w : waiter) : Prop :=
  match w with
  | WriteAt buf n i k => 0 <= i <= n /\ n <= Z.of_nat (length buf) /\ writeopen p <> 0 /\
      (k = false -> full p = true /\ readopen p <> 0)
  | ReadAt n k => readopen p <> 0 /\ (k = false -> empty p = true /\ writeopen p <> 0)
  end.
Record sys_ok (y : sys) : Prop := {
  so_pipe : pipe_ok (spipe y);
  so_fifo : sent y = recvd y ++ contents (spipe y);
  so_wait : map_Forall (fun _ => justified (spipe y)) (waiting y);
}.

Lemma stored_queued p l p' :
  queued p l p' -> Z.of_nat (length l) <= PIPESIZE -> stored p p' = Z.of_nat (length l).
Proof.
  intros [_ _ Hr _ Hc _ _] Hl. unfold count, stored, u32, PIPESIZE in *. rewrite Hr in Hc.
  Z.div_mod_to_equations; lia.
Qed.

Lemma wake_justified cs (ws : gmap Z waiter) (p p' : pipe) :
  (forall w, justified p w -> justified p' (wake cs w)) ->
  map_Forall (fun _ => justified p) ws -> map_Forall (fun _ => justified p') (wake cs <$> ws).
Proof.
  intros H Hws q w Hq. rewrite lookup_fmap in Hq.
  destruct (ws !! q) as [w0|] eqn:E; [|done]. injection Hq as <-. apply H. by apply (Hws q).
Qed.

Lemma write_step_ok y pid buf n i kl km r s :
  sys_ok y -> writer_at y pid buf n i -> writeopen (spipe y) <> 0 ->
  pipewrite_from n i (enter y buf kl km) = Done r s ->
  sys_ok (leave y pid s
      (match r with Asleep _ i' => Some (WriteAt buf n i' false) | Ret _ => None end)
      (bytes buf i (stored (spipe y) (pp s))) []).
Proof.
  intros [Hp Hfifo Hw] Hat Hwo Hrun.
  assert (0 <= i <= n /\ n <= Z.of_nat (length buf)) as [Hi Hn].
  { destruct Hat as [(_ & -> & ?)|Hat]; [lia|]. apply Hw in Hat. cbn in Hat. tauto. }
  pose proof (pipewrite_from_spec (enter y buf kl km) n i Hp Hi Hn) as Hspec.
  unfold wp in Hspec. rewrite Hrun in Hspec.
  destruct Hspec as (Hok & Hq & Hres & _ & _). cbn [pp enter ubuf wakes] in *.
  set (k := room (spipe y) (n - i)) in *.
  pose proof (po_count _ Hp) as Hc. pose proof (count_range (spipe y)) as Hcr.
  assert (0 <= k <= n - i /\ k <= PIPESIZE) as [Hk Hk2] by (unfold k, room; lia).
  pose proof (length_bytes buf i k ltac:(lia) ltac:(lia) ltac:(lia)) as Hlen.
  assert (stored (spipe y) (pp s) = k) as Es by (erewrite stored_queued by (done || lia); done).
  pose proof Hq as [Hct _ Hnr Hnw Hcnt Hro Hwo'].
  split; cbn.
  - done.
  - by rewrite Es, app_nil_r, Hct, Hfifo, app_assoc.
  - assert (map_Forall (fun _ => justified (pp s)) (wake (wakes s) <$> waiting y)) as Hws.
    { apply (wake_justified _ _ (spipe y)); [|done]. intros [b m j u|m u]; cbn.
      - intros (? & ? & ? & Hu). rewrite Hwo', Hro. do 3 (split; [done|]).
        intros [-> _]%orb_false_iff. destruct (Hu eq_refl) as [Hf ?]. split; [|done].
        destruct Hp as [_ ? ? _ _]. destruct Hok as [_ ? ? _ _].
        rewrite full_count in * by done. apply Z.eqb_eq in Hf. apply Z.eqb_eq.
        assert (k = 0) by (unfold k, room; lia). lia.
      - intros [Hr0 Hu]. rewrite Hwo', Hro. split; [done|].
        destruct (Z.eqb_spec (readopen (spipe y)) 0) as [|_]; [done|].
        assert (wakes s = [ch_nread]) as -> by (destruct (k =? n - i); [apply Hres|apply Hres]).
        rewrite bool_decide_true by in_list. by rewrite orb_true_r. }
    destruct (Z.eqb_spec k (n - i)) as [Ek|Ek].
    + destruct Hres as [-> _]. by apply map_Forall_delete.
    + destruct Hres as [Hf Hres]. destruct (Z.eqb_spec (readopen (spipe y)) 0) as [|Hr0].
      * destruct Hres as [-> _]. by apply map_Forall_delete.
      * destruct Hres as [-> _]. apply map_Forall_insert_2; [|done]. cbn.
        split; [lia|]. split; [done|]. rewrite Hwo', Hro. done.
Qed.

Lemma read_step_ok y pid buf n kl km r s :
  sys_ok y -> readopen (spipe y) <> 0 -> n <= Z.of_nat (length buf) ->
  piperead n (enter y buf kl km) = Done r s ->
  sys_ok (leave y pid s
      (match r with Asleep _ _ => Some (ReadAt n false) | Ret _ => None end)
      [] (match r with Ret k => take (Z.to_nat k) (ubuf s) | Asleep _ _ => [] end)).
Proof.
  intros [Hp Hfifo Hw] Hro Hn Hrun.
  pose proof (piperead_spec (enter y buf kl km) n Hp Hn) as Hspec.
  unfold wp in Hspec. rewrite Hrun in Hspec.
  destruct Hspec as (Hok & _ & _ & Hres). cbn [pp enter ubuf wakes killed] in *.
  destruct (empty (spipe y) && negb (writeopen (spipe y) =? 0)) eqn:Ee.
  - destruct Hres as (Ep & Eu & Ewk & Er). apply andb_true_iff in Ee as [Ee Hwo].
    apply negb_true_iff, Z.eqb_neq in Hwo.
    assert (wake [] <$> waiting y = waiting y) as Enw.
    { rewrite <-(map_fmap_id (waiting y)) at 2. apply map_fmap_ext. intros _ [b m j u|m u] _;
        cbn; by rewrite orb_false_r. }
    unfold leave. rewrite Ewk, Enw. destruct (kl =? 0); subst r; cbn; (split; cbn; [by rewrite Ep| |]).
    + rewrite !app_nil_r. by rewrite Ep.
    + rewrite Ep. apply map_Forall_insert_2; [|done]. cbn. done.
    + rewrite !app_nil_r. by rewrite Ep.
    + rewrite Ep. by apply map_Forall_delete.
  - destruct Hres as (-> & Hq & Eu & Ewk). pose proof Hq as [Hct _ _ _ Hcnt Hr' Hwo'].
    pose proof (length_contents (spipe y)) as Hlc. pose proof (count_range (spipe y)) as Hcr.
    set (k := Z.max 0 (Z.min n (count (spipe y)))) in *.
    assert (take (Z.to_nat k) (ubuf s) = take (Z.to_nat k) (contents (spipe y))) as Et.
    { rewrite Eu, take_app_le by (rewrite length_take; lia). rewrite take_take. f_equal. lia. }
    split; cbn; [done| |].
    + rewrite app_nil_r, Et, <-app_assoc, <-Hct. done.
    + apply map_Forall_delete, (wake_justified _ _ (spipe y)); [|done].
      intros [b m j u|m u]; cbn; rewrite Ewk, Hr', Hwo'; cbn.
      * intros (? & ? & ? & Hu). do 3 (split; [done|]).
        rewrite bool_decide_true by in_list. by rewrite orb_true_r.
      * intros [? Hu]. split; [done|]. intros [-> _]%orb_false_iff.
        destruct (Hu eq_refl) as [E1 E2]. rewrite E1 in Ee. cbn in Ee.
        apply negb_false_iff, Z.eqb_eq in Ee. done.
Qed.

(** ** pipeclose *)

Definition closed (p : pipe) (writable : bool) : pipe :=
  if writable then MkPipe (lock p) (data p) (nread p) (nwrite p) (readopen p) 0
  else MkPipe (lock p) (data p) (nread p) (nwrite p) 0 (writeopen p).
Definition ch_peer (writable : bool) : chan := if writable then ch_nread else ch_nwrite.

(** the state pipeclose leaves, before it gives the pipe's memory back *)
Definition after_close (s : st) (writable : bool) : st :=
  St (closed (pp s) writable) (ubuf s) (killed s) (wakes s ++ [ch_peer writable]) (kmm s).

Lemma pipe_order (s : st) : zoom unit_lens (Buddy.get_order sizeof_pipe) s = Done 10 s.
Proof.
  assert (Buddy.get_order sizeof_pipe tt = Done 10 tt) as Ho by (vm_compute; reflexivity).
  unfold zoom. cbn [lget unit_lens]. by rewrite Ho.
Qed.

Lemma pipeclose_eq addr writable s :
  lock (pp s) = false ->
  pipeclose addr writable s =
    let p := closed (pp s) writable in
    if (readopen p =? 0) && (writeopen p =? 0)
    then zoom kmm_lens (Buddy.kfree addr 10) (after_close s writable)
    else Done tt (after_close s writable).
Proof.
  intros Hl. destruct s as [[l d nr nw ro wo] u kl w km]. cbn in Hl. subst l.
  unfold pipeclose, acquire, release, wakeup, after_close.
  destruct writable; unfold mbind, M_bind; cbn;
    [destruct (ro =? 0); [|reflexivity]|destruct (wo =? 0); [|reflexivity]];
    cbn; rewrite pipe_order; reflexivity.
Qed.

Lemma pipeclose_done addr writable s s' :
  lock (pp s) = false -> pipeclose addr writable s = Done tt s' ->
  pp s' = closed (pp s) writable /\ wakes s' = wakes s ++ [ch_peer writable].
Proof.
  intros Hl. rewrite pipeclose_eq by done. cbn zeta.
  destruct (_ && _).
  - unfold zoom. destruct (Buddy.kfree _ _ _); [|done..]. by intros [= _ <-].
  - by intros [= <-].
Qed.

Lemma contents_closed p w : contents (closed p w) = contents p.
Proof. by destruct w. Qed.
Lemma pipe_ok_closed p w : pipe_ok p -> pipe_ok (closed p w).
Proof. intros [? ? ? ? ?]. destruct w; by split. Qed.

Lemma close_step_ok y pid writable addr kl km s :
  sys_ok y ->
  (forall q w, waiting y !! q = Some w ->
     match w with WriteAt _ _ _ _ => writable = false | ReadAt _ _ => writable = true end) ->
  pipeclose addr writable (enter y [] kl km) = Done tt s ->
  sys_ok (leave y pid s None [] []).
Proof.
  intros [Hp Hfifo Hw] Hends Hrun.
  apply pipeclose_done in Hrun as [Ep Ewk]; [|apply (po_lock _ Hp)].
  cbn [pp enter wakes] in *. split; cbn; rewrite Ep.
  - by apply pipe_ok_closed.
  - by rewrite !app_nil_r, contents_closed.
  - apply map_Forall_delete. intros q w Hq. rewrite lookup_fmap in Hq.
    destruct (waiting y !! q) as [w0|] eqn:E; [|done]. injection Hq as <-.
    pose proof (Hw q w0 E) as Hj. pose proof (Hends q w0 E) as He.
    destruct w0 as [b n i u|n u]; subst writable; rewrite Ewk; cbn in Hj |- *.
    + rewrite bool_decide_true by in_list. rewrite orb_true_r. naive_solver.
    + rewrite bool_decide_true by in_list. rewrite orb_true_r. naive_solver.
Qed.

Lemma sys_ok_step y y' : sys_ok y -> pstep y y' -> sys_ok y'.
Proof.
  intros Hy. inversion 1; subst.
  - by eapply write_step_ok.
  - by eapply read_step_ok.
  - by eapply close_step_ok.
  - destruct Hy as [Hp Hfifo Hw]. split; cbn; try done.
    apply map_Forall_insert_2; [|done].
    match goal with H : waiting y !! _ = Some _ |- _ => apply Hw in H; rename H into Hj end.
    destruct w; cbn in *; naive_solver.
Qed.

Lemma fresh_ok d : length d = 512%nat -> pipe_ok (fresh_pipe d).
Proof. by split. Qed.

Lemma reach_ok y : reach y -> sys_ok y.
Proof.
  induction 1 as [d Hd|y y' _ IH Hs]; [|by eapply sys_ok_step].
  split; cbn; [by apply fresh_ok|done|apply map_Forall_empty].
Qed.

(** ** The contract of a pipe *)

Definition demo_pipe : pipe := fresh_pipe (replicate 512 7).
Definition demo_st (buf : list Z) : st := St demo_pipe buf 0 [] (Buddy.Kmem false 0 0 0 [] []).

(** pipewrite, started or resumed at index [i], stores
    as many of the remaining bytes as fit, in order, behind the bytes already
    queued.  It returns [n] and wakes the readers when all fitted; with the
    pipe full it returns -1 when the read end is closed, else wakes the
    readers and sleeps at the index of the first byte not stored.  The
    counters may wrap around 2^32. *)
Theorem pipewrite_correct s n i :
  pipe_ok (pp s) -> 0 <= i <= n -> n <= Z.of_nat (length (ubuf s)) ->
  exists r s', pipewrite_from n i s = Done r s' /\ write_result s n i r s'.
Proof. intros Hp Hi Hn. apply wp_done. by apply pipewrite_from_spec. Qed.

Lemma pipewrite_correct_witness :
  exists r s', pipewrite_from 3 0 (demo_st [10; 20; 30]) = Done r s' /\ r = Ret 3.
Proof.
  destruct (pipewrite_correct (demo_st [10; 20; 30]) 3 0) as (r & s' & Hr & H).
  - split; vm_compute; done.
  - lia.
  - vm_compute. discriminate.
  - exists r, s'. split; [exact Hr|]. destruct H as (_ & _ & H & _). apply H.
Defined.

(** piperead sleeps on an empty pipe with an open write
    end (or returns -1 when the process was killed) and changes nothing;
    otherwise it returns the number of bytes queued, at most [n] (0 is the
    end of file), copies exactly the oldest bytes to the front of the
    caller's buffer, takes them out of the queue and wakes the writers. *)
Theorem piperead_correct s n :
  pipe_ok (pp s) -> n <= Z.of_nat (length (ubuf s)) ->
  exists r s', piperead n s = Done r s' /\ read_result s n r s'.
Proof. intros Hp Hn. apply wp_done. by apply piperead_spec. Qed.

Lemma piperead_correct_witness :
  exists r s', piperead 2 (demo_st [0; 0]) = Done r s' /\ r = Asleep ch_nread 0.
Proof.
  destruct (piperead_correct (demo_st [0; 0]) 2) as (r & s' & Hr & H).
  - split; vm_compute; done.
  - vm_compute. discriminate.
  - exists r, s'. split; [exact Hr|]. destruct H as (_ & _ & _ & H). apply H.
Defined.

(** C27: whatever the interleaving of any number of readers and
    writers, their sleeps, wakeups, kills and closes, the bytes delivered so
    far followed by the bytes queued are exactly the bytes stored, in order. *)
Theorem pipe_fifo y : reach y -> sent y = recvd y ++ contents (spipe y).
Proof. intros Hr. apply (so_fifo _ (reach_ok _ Hr)). Qed.

Definition demo_sys : sys := Sys demo_pipe ∅ [] [].
Definition demo_sys1 : sys :=
  leave demo_sys 4 (match pipewrite_from 3 0 (demo_st [10; 20; 30]) with Done _ s => s | _ => demo_st [] end)
    None [10; 20; 30] [].
Lemma demo_reach1 : reach demo_sys1.
Proof.
  eapply R_step; [apply (R_init (replicate 512 7)); done|].
  eapply (S_write demo_sys 4 [10; 20; 30] 3 0 0 (Buddy.Kmem false 0 0 0 [] []) (Ret 3)).
  - left. done.
  - done.
  - vm_compute. reflexivity.
Qed.

Lemma pipe_fifo_witness :
  sent demo_sys1 = recvd demo_sys1 ++ contents (spipe demo_sys1) /\ sent demo_sys1 = [10; 20; 30].
Proof. split; [exact (pipe_fifo demo_sys1 demo_reach1)|reflexivity]. Defined.

(** C40: no wakeup is lost.  A writer asleep that nothing
    has woken has a full pipe with an open read end before it, a reader an
    empty one with an open write end; so the two never wait for each other. *)
Theorem pipe_no_lost_wakeup y q w :
  reach y -> waiting y !! q = Some w ->
  match w with
  | WriteAt _ _ _ woken => woken = false ->
      full (spipe y) = true /\ readopen (spipe y) <> 0 /\
      (forall q' n, waiting y !! q' <> Some (ReadAt n false))
  | ReadAt _ woken => woken = false ->
      empty (spipe y) = true /\ writeopen (spipe y) <> 0
  end.
Proof.
  intros [Hp _ Hw]%reach_ok Hq. pose proof (Hw q w Hq) as Hj.
  destruct w as [b n i u|n u]; cbn in Hj; [|by destruct Hj].
  destruct Hj as (_ & _ & _ & Hj). intros Hu. destruct (Hj Hu) as [Hf Hr].
  split; [done|]. split; [done|]. intros q' m Hq'.
  destruct (Hw _ _ Hq') as [_ Hj']. destruct (Hj' eq_refl) as [He _].
  destruct Hp as [_ ? ? _ _]. rewrite full_count in Hf by done. rewrite empty_count in He by done.
  apply Z.eqb_eq in Hf, He. unfold PIPESIZE in Hf. lia.
Qed.

Definition demo_sys2 : sys :=
  leave demo_sys 5 (match piperead 2 (demo_st [0; 0]) with Done _ s => s | _ => demo_st [] end)
    (Some (ReadAt 2 false)) [] [].
Lemma demo_reach2 : reach demo_sys2.
Proof.
  eapply R_step; [apply (R_init (replicate 512 7)); done|].
  eapply (S_read demo_sys 5 [0; 0] 2 0 (Buddy.Kmem false 0 0 0 [] []) (Asleep ch_nread 0)).
  - left. done.
  - done.
  - done.
  - vm_compute. reflexivity.
Qed.
Lemma pipe_no_lost_wakeup_witness :
  waiting demo_sys2 !! 5 = Some (ReadAt 2 false) /\
  empty (spipe demo_sys2) = true /\ writeopen (spipe demo_sys2) <> 0.
Proof.
  assert (waiting demo_sys2 !! 5 = Some (ReadAt 2 false)) as Hq by (vm_compute; reflexivity).
  split; [exact Hq|].
  exact (pipe_no_lost_wakeup demo_sys2 5 (ReadAt 2 false) demo_reach2 Hq eq_refl).
Defined.

(** pipeclose closes its end and wakes the other side;
    it frees the pipe's memory (order 10) exactly when the other end is closed
    already, and otherwise leaves the queued bytes and the allocator alone. *)
Theorem pipeclose_correct addr (writable : bool) (s : st) :
  lock (pp s) = false ->
  (if writable then readopen (pp s) else writeopen (pp s)) <> 0 /\
    pipeclose addr writable s = Done tt (after_close s writable) /\
    contents (pp (after_close s writable)) = contents (pp s) \/
  (if writable then readopen (pp s) else writeopen (pp s)) = 0 /\
    pipeclose addr writable s = zoom kmm_lens (Buddy.kfree addr 10) (after_close s writable).
Proof.
  intros Hl. rewrite pipeclose_eq by done. destruct writable; cbn.
  - destruct (Z.eqb_spec (readopen (pp s)) 0); [by right|by left].
  - destruct (Z.eqb_spec (writeopen (pp s)) 0); [by right|by left].
Qed.

Lemma pipeclose_correct_witness :
  pipeclose 0x11000 true (demo_st []) = Done tt (after_close (demo_st []) true).
Proof.
  destruct (pipeclose_correct 0x11000 true (demo_st []) eq_refl) as [(_ & H & _)|(H & _)];
    [exact H|discriminate H].
Defined.

End Pipe.
