(* ===== verification/Bio.v ===== *)
(** * The block cache and the memory disk (src/src/bio.c, src/src/memide.c)

    [bufs] holds the NBUF buffers and, at index NBUF, the list head; pointers
    between buffers are indices into it.  The disk is the byte array memdisk;
    [hist] records every sector iderw stores, in order, which is what a crash
    can cut short.  sleep() on a buffer is [Block]: the sleeper runs bget again
    from its start, which is what [goto loop] does under the lock. *)

From S2P Require Import Prelude.
From S2P Require Import Bytes.

Module Bio.

Definition NBUF : Z := 10.
Definition BSIZE : Z := 512.
Definition B_BUSY : Z := 1.
Definition B_VALID : Z := 2.
Definition B_DIRTY : Z := 4.

Record buf := Buf {
  flags : Z;
  dev : Z;
  sector : Z;
  prev : Z;
  next : Z;
  data : list Z;
}.

Record st := St {
  lock : bool;                    (* bcache.lock *)
  bufs : list buf;                (* bcache.buf and bcache.head *)
  memdisk : list Z;
  disksize : Z;
  hist : list (Z * list Z);
  wakes : list chan;
}.
Definition bhead : Z := NBUF.

Definition bcache_lock : lens st bool :=
  Lens lock (fun b s => St b (bufs s) (memdisk s) (disksize s) (hist s) (wakes s)).
Definition ch_buf (b : Z) : chan := Chan "buf" b.
Definition wakeup (c : chan) : M st unit :=
  modify (fun s => St (lock s) (bufs s) (memdisk s) (disksize s) (hist s) (wakes s ++ [c])).

(** accesses through a struct buf pointer *)
Definition ld (b : Z) : M st buf := deref (fun s => at_ (bufs s) b).
Definition st_buf (b : Z) (x : buf) : M st unit :=
  ld b ;;
  modify (fun s => St (lock s) (put (bufs s) b x) (memdisk s) (disksize s) (hist s) (wakes s)).
Definition set_flags (b f : Z) : M st unit :=
  x ← ld b; st_buf b (Buf f (dev x) (sector x) (prev x) (next x) (data x)).
Definition set_dev (b d : Z) : M st unit :=
  x ← ld b; st_buf b (Buf (flags x) d (sector x) (prev x) (next x) (data x)).
Definition set_sector (b n : Z) : M st unit :=
  x ← ld b; st_buf b (Buf (flags x) (dev x) n (prev x) (next x) (data x)).
Definition set_prev (b p : Z) : M st unit :=
  x ← ld b; st_buf b (Buf (flags x) (dev x) (sector x) p (next x) (data x)).
Definition set_next (b p : Z) : M st unit :=
  x ← ld b; st_buf b (Buf (flags x) (dev x) (sector x) (prev x) p (data x)).
Definition set_data (b : Z) (d : list Z) : M st unit :=
  x ← ld b; st_buf b (Buf (flags x) (dev x) (sector x) (prev x) (next x) d).
Definition has (f bit : Z) : bool := negb (Z.land f bit =? 0).

Definition binit : M st unit :=
  modify (lset bcache_lock false) ;;
  set_prev bhead bhead ;;
  set_next bhead bhead ;;
  loop 11 (fun b =>
    if b <? NBUF then
      h ← ld bhead;
      set_next b (next h) ;;
      set_prev b bhead ;;
      set_dev b (u32 (-1)) ;;
      h ← ld bhead;
      set_prev (next h) b ;;
      set_next bhead b ;;
      mret (inl (b + 1))
    else mret (inr tt)) 0.

(** the scans of the list, forwards and backwards, up to the head *)
Definition scan_next (p : buf -> bool) (b : Z) : M st (Z + option Z) :=
  if b =? bhead then mret (inr None) else
  x ← ld b; if p x then mret (inr (Some b)) else mret (inl (next x)).
Definition scan_prev (p : buf -> bool) (b : Z) : M st (Z + option Z) :=
  if b =? bhead then mret (inr None) else
  x ← ld b; if p x then mret (inr (Some b)) else mret (inl (prev x)).
Definition is_block (d n : Z) (x : buf) : bool := (dev x =? d) && (sector x =? n).
Definition is_idle (x : buf) : bool :=
  (Z.land (flags x) B_BUSY =? 0) && (Z.land (flags x) B_DIRTY =? 0).

(** the second half of bget: the sector is not cached *)
Definition recycle (d n : Z) : M st Z :=
  h ← ld bhead;
  r ← loop 12 (scan_prev is_idle) (prev h);
  match r with
  | Some b =>
      set_dev b d ;;
      set_sector b n ;;
      set_flags b B_BUSY ;;
      release bcache_lock ;;
      mret b
  | None => panic "bget: no buffers"
  end.
Definition bget (d n : Z) : M st Z :=
  acquire bcache_lock ;;
  h ← ld bhead;
  r ← loop 12 (scan_next (is_block d n)) (next h);
  match r with
  | Some b =>
      x ← ld b;
      if negb (has (flags x) B_BUSY) then
        set_flags b (Z.lor (flags x) B_BUSY) ;;
        release bcache_lock ;;
        mret b
      else sleep_on bcache_lock (ch_buf b)
  | None => recycle d n
  end.

(** memide.c *)
Definition ideinit (img : list Z) : M st unit :=
  modify (fun s => St (lock s) (bufs s) img (Z.of_nat (length img) / 512) (hist s) (wakes s)).

Definition ld_disk (p : Z) : M st (list Z) :=
  deref (fun s => if p + 512 <=? Z.of_nat (length (memdisk s))
                  then Some (sub (memdisk s) (Z.to_nat p) 512) else None).
(** store a sector: the write a crash can separate from the next *)
Definition st_disk (n p : Z) (d : list Z) : M st unit :=
  ld_disk p ;;
  modify (fun s => St (lock s) (bufs s) (blit (memdisk s) (Z.to_nat p) d) (disksize s)
                      (hist s ++ [(n, d)]) (wakes s)).
Definition iderw (b : Z) : M st unit :=
  x ← ld b;
  panic_if (negb (has (flags x) B_BUSY)) "iderw: buf not busy" ;;
  panic_if (Z.land (flags x) (Z.lor B_VALID B_DIRTY) =? B_VALID) "iderw: nothing to do" ;;
  panic_if (negb (dev x =? 1)) "iderw: request not for disk 1" ;;
  size ← gets disksize;
  panic_if (size <=? sector x) "iderw: sector out of range" ;;
  let p := u32 (sector x * 512) in
  (if has (flags x) B_DIRTY then
     set_flags b (Z.land (flags x) (Z.lnot B_DIRTY)) ;;
     st_disk (sector x) p (data x)
   else d ← ld_disk p; set_data b d) ;;
  x ← ld b;
  set_flags b (Z.lor (flags x) B_VALID).

Definition bread (d n : Z) : M st Z :=
  b ← bget d n;
  x ← ld b;
  when (negb (has (flags x) B_VALID)) (iderw b) ;;
  mret b.

Definition bwrite (b : Z) : M st unit :=
  x ← ld b;
  panic_if (Z.land (flags x) B_BUSY =? 0) "bwrite" ;;
  set_flags b (Z.lor (flags x) B_DIRTY) ;;
  iderw b.

(** [a->f = v] where [a] is itself read through a pointer *)
Definition relink (b : Z) : M st unit :=
  x ← ld b;
  set_prev (next x) (prev x) ;;
  x ← ld b;
  set_next (prev x) (next x) ;;
  h ← ld bhead;
  set_next b (next h) ;;
  set_prev b bhead ;;
  h ← ld bhead;
  set_prev (next h) b ;;
  set_next bhead b.
Definition brelse (b : Z) : M st unit :=
  x ← ld b;
  panic_if (Z.land (flags x) B_BUSY =? 0) "brelse" ;;
  acquire bcache_lock ;;
  relink b ;;
  x ← ld b;
  set_flags b (Z.land (flags x) (Z.lnot B_BUSY)) ;;
  wakeup (ch_buf b) ;;
  release bcache_lock.

(** ** Layer 1: the ring of buffers, most recently used first *)

(** [a] and the elements of [l] are linked both ways, in this order *)
Fixpoint linked (nx pv : Z -> Z) (a : Z) (l : list Z) : Prop :=
  match l with
  | [] => True
  | b :: l' => nx a = b /\ pv b = a /\ linked nx pv b l'
  end.
Definition ring (nx pv : Z -> Z) (L : list Z) : Prop :=
  linked nx pv bhead (L ++ [bhead]) /\ NoDup L /\ bhead ∉ L.
Definition fupd (f : Z -> Z) (i v : Z) : Z -> Z := fun j => if j =? i then v else f j.

Lemma fupd_eq f i v : fupd f i v i = v.
Proof. unfold fupd. by rewrite Z.eqb_refl. Qed.
Lemma fupd_ne f i v j : j <> i -> fupd f i v j = f j.
Proof. unfold fupd. intros. by destruct (Z.eqb_spec j i). Qed.

Lemma linked_ext nx pv nx' pv' a l z :
  (forall x, x ∈ a :: l -> nx' x = nx x) -> (forall x, x ∈ l ++ [z] -> pv' x = pv x) ->
  linked nx pv a (l ++ [z]) -> linked nx' pv' a (l ++ [z]).
Proof.
  revert a. induction l as [|b l IH]; intros a Hn Hp; cbn; intros (H1 & H2 & H3);
    rewrite Hn, Hp by in_list; do 2 (split; [done|]); [done|].
  apply IH; [intros x Hx; apply Hn; in_list|intros x Hx; apply Hp; in_list|done].
Qed.

Lemma linked_app nx pv a l z l' :
  linked nx pv a (l ++ z :: l') <-> linked nx pv a (l ++ [z]) /\ linked nx pv z l'.
Proof. revert a. induction l as [|b l IH]; intros a; cbn; [tauto|]. rewrite IH. tauto. Qed.

(** the links brelse leaves: [b] unlinked, then put behind the head *)
Definition moved_nx (nx pv : Z -> Z) (b : Z) : Z -> Z :=
  let nx1 := fupd nx (pv b) (nx b) in fupd (fupd nx1 b (nx1 bhead)) bhead b.
Definition moved_pv (nx pv : Z -> Z) (b : Z) : Z -> Z :=
  let nx1 := fupd nx (pv b) (nx b) in
  fupd (fupd (fupd pv (nx b) (pv b)) b bhead) (nx1 bhead) b.

(** the part of the ring behind [b] hangs on its new predecessor [q] *)
Lemma linked_tail nx pv nx' pv' b L2 q n :
  linked nx pv b (L2 ++ [bhead]) -> NoDup (b :: L2) -> bhead ∉ L2 -> nx b = n ->
  nx' q = n -> pv' n = q ->
  (forall x, x ∈ L2 -> nx' x = nx x) ->
  (forall x, x ∈ L2 ++ [bhead] -> x <> n -> pv' x = pv x) ->
  linked nx' pv' q (L2 ++ [bhead]).
Proof.
  intros Hl Hnd Hh Hn Hq Hpn Hnx Hpv. destruct L2 as [|c L2]; cbn in *.
  - destruct Hl as (Hb & _). rewrite Hn in Hb. by subst n.
  - destruct Hl as (Hb & Hc & Hl). rewrite Hn in Hb. subst n c.
    do 2 (split; [done|]).
    apply NoDup_cons in Hnd as [_ Hnd]. apply NoDup_cons in Hnd as [Hn2 Hnd].
    apply not_elem_of_cons in Hh as [Hh1 Hh2].
    eapply linked_ext; [| |exact Hl].
    + intros x Hx. by apply Hnx.
    + intros x Hx. apply Hpv; [in_list|]. intros ->.
      apply elem_of_app in Hx as [?|Hx]; [done|]. apply list_elem_of_singleton in Hx. congruence.
Qed.

Lemma ring_move nx pv L1 b L2 :
  ring nx pv (L1 ++ b :: L2) -> ring (moved_nx nx pv b) (moved_pv nx pv b) (b :: L1 ++ L2).
Proof.
  intros (Hl & Hnd & Hh). unfold ring.
  assert (b <> bhead) as Hb by (intros ->; apply Hh; in_list).
  assert (NoDup (b :: L1 ++ L2)) as Hnd' by (by rewrite Permutation_middle).
  assert ((bhead ∉ L1) /\ (bhead ∉ L2)) as [Hh1 Hh2] by (split; intros ?; apply Hh; in_list).
  split; [|split; [done|intros [?|[?|?]%elem_of_app]%elem_of_cons; congruence]].
  rewrite <-app_assoc in Hl. cbn in Hl. apply linked_app in Hl as [Hl1 Hl2].
  pose proof Hnd' as [Hb1 Hnd12]%NoDup_cons.
  assert (NoDup (b :: L2)) as Hnd2.
  { apply NoDup_app in Hnd as (_ & _ & ?). done. }
  set (n := nx b). set (q := pv b).
  assert (n <> b /\ n ∈ L2 ++ [bhead]) as [Hnb Hnin].
  { unfold n. destruct L2 as [|c L2]; cbn in Hl2; destruct Hl2 as (-> & _ & _).
    - split; [done|in_list].
    - split; [intros ->; apply Hb1; in_list|in_list]. }
  cbn [app linked]. rewrite <-app_assoc.
  assert (forall x, x <> q -> x <> b -> x <> bhead -> moved_nx nx pv b x = nx x) as Enx.
  { intros x H1 H2 H3. unfold moved_nx. cbv zeta. fold n q. by rewrite !fupd_ne by done. }
  destruct L1 as [|f L1].
  - (* b is already in front *)
    cbn in Hl1. destruct Hl1 as (H0 & Hq & _). fold q in Hq.
    assert (forall x, x <> n -> x <> b -> moved_pv nx pv b x = pv x) as Epv.
    { intros x H1 H2. unfold moved_pv. cbv zeta. fold n q. rewrite Hq, fupd_eq.
      by rewrite !fupd_ne by done. }
    assert (moved_pv nx pv b n = b) as Epn.
    { unfold moved_pv. cbv zeta. fold n q. by rewrite Hq, !fupd_eq. }
    assert (moved_nx nx pv b b = n) as Enb.
    { unfold moved_nx. cbv zeta. fold n q. by rewrite fupd_ne, fupd_eq, Hq, fupd_eq by done. }
    assert (moved_nx nx pv b bhead = b) as Enh by apply fupd_eq.
    split; [done|]. split.
    { unfold moved_pv. cbv zeta. fold n q. rewrite Hq, fupd_eq.
      by rewrite fupd_ne, fupd_eq by done. }
    eapply (linked_tail nx pv _ _ b L2 b n); [done..|reflexivity|done|done| |].
    + intros x Hx. apply Enx; [congruence|intros ->; by apply Hb1|congruence].
    + intros x Hx Hxn. apply Epv; [done|]. intros ->.
      apply elem_of_app in Hx as [?|Hx]; [by apply Hb1|].
      by apply list_elem_of_singleton in Hx.
  - (* b leaves its predecessor q, the last of f :: L1 *)
    assert (nx bhead = f /\ pv f = bhead /\ linked nx pv f (L1 ++ [b])) as (Hf & Hpf & Hl1')
      by (by cbn in Hl1). clear Hl1.
    assert (q ∈ f :: L1) as Hq.
    { clear -Hl1'. revert f Hl1'. induction L1 as [|g L1 IH]; intros f; cbn.
      - intros (_ & E & _). unfold q. rewrite E. in_list.
      - intros (_ & _ & H). apply IH in H. in_list. }
    assert (q <> bhead) as Hqh by congruence.
    assert (q <> b) as Hqb by (intros E; apply Hb1; rewrite <-E; in_list).
    assert (f <> b) as Hfb by (intros ->; apply Hb1; in_list).
    assert (n <> f) as Hnf.
    { intros ->. apply elem_of_app in Hnin as [Hin|Hin].
      - cbn in Hnd12. apply NoDup_cons in Hnd12 as [H _]. apply H. in_list.
      - apply list_elem_of_singleton in Hin. apply Hh1. rewrite Hin. in_list. }
    assert (fupd nx q n bhead = f) as Ef by (by rewrite fupd_ne).
    assert (moved_nx nx pv b q = n) as Enq.
    { unfold moved_nx. cbv zeta. fold n q. by rewrite !fupd_ne, fupd_eq by done. }
    assert (forall x, x <> n -> x <> b -> x <> f -> moved_pv nx pv b x = pv x) as Epv.
    { intros x H1 H2 H3. unfold moved_pv. cbv zeta. fold n q. rewrite Ef. by rewrite !fupd_ne by done. }
    assert (moved_pv nx pv b n = q) as Epn.
    { unfold moved_pv. cbv zeta. fold n q. rewrite Ef. by rewrite !fupd_ne, fupd_eq by done. }
    split; [apply fupd_eq|]. split.
    { unfold moved_pv. cbv zeta. fold n q. rewrite Ef. by rewrite fupd_ne, fupd_eq by done. }
    split.
    { unfold moved_nx. cbv zeta. fold n q. by rewrite fupd_ne, fupd_eq by done. }
    split.
    { unfold moved_pv. cbv zeta. fold n q. rewrite Ef. by rewrite fupd_eq. }
    assert (forall x, x ∈ L2 -> x ∉ f :: L1) as Hdis.
    { intros x Hx Hx'. apply NoDup_app in Hnd12 as (_ & H & _). by apply (H x). }
    assert (linked (moved_nx nx pv b) (moved_pv nx pv b) q (L2 ++ [bhead])) as Htail.
    { eapply (linked_tail nx pv _ _ b L2 q n); [done..|reflexivity|done|done| |].
      - intros x Hx. apply Enx; [intros ->; by apply (Hdis q)|intros ->; apply Hb1; in_list|congruence].
      - intros x Hx Hxn. apply Epv; [done| |]; intros ->; apply elem_of_app in Hx as [Hx|Hx].
        + apply Hb1. in_list.
        + by apply list_elem_of_singleton in Hx.
        + apply (Hdis _ Hx). in_list.
        + apply list_elem_of_singleton in Hx. apply Hh1. rewrite Hx. in_list. }
    destruct L1 as [|g L1] using rev_ind; cbn [app].
    + cbn in Hl1'. destruct Hl1' as (_ & E & _). fold q in E. by rewrite <-E.
    + clear IHL1. rewrite <-app_assoc in Hl1'. cbn in Hl1'. apply linked_app in Hl1' as [Hl1' (_ & E & _)].
      fold q in E. subst g. rewrite <-app_assoc. cbn. apply linked_app. split; [|done].
      cbn in Hnd12. rewrite <-app_assoc in Hnd12. cbn in Hnd12.
      apply NoDup_cons in Hnd12 as [Hf12 Hnd12].
      apply NoDup_app in Hnd12 as (_ & Hq12 & _).
      eapply linked_ext; [| |exact Hl1'].
      * intros x Hx. apply Enx.
        -- intros ->. apply elem_of_cons in Hx as [E|Hx]; [apply Hf12; rewrite <-E; in_list|].
           apply (Hq12 q Hx). in_list.
        -- intros ->. apply Hb1. cbn. rewrite elem_of_cons in Hx. rewrite elem_of_cons, !elem_of_app. tauto.
        -- intros ->. apply Hh1. rewrite elem_of_cons in Hx. rewrite elem_of_cons, !elem_of_app. tauto.
      * intros x Hx. assert (x ∈ f :: L1 ++ [q]) as Hx' by in_list. apply Epv.
        -- intros ->. apply elem_of_app in Hnin as [Hin|Hin]; [by apply (Hdis n Hin)|].
           apply list_elem_of_singleton in Hin. apply Hh1. by rewrite <-Hin.
        -- intros ->. apply Hb1. cbn. apply elem_of_cons in Hx' as [->|Hx']; [done|].
           apply elem_of_cons. right. apply elem_of_app. by left.
        -- intros ->. apply Hf12. apply elem_of_app in Hx as [?|Hx]; [in_list|].
           apply list_elem_of_singleton in Hx. rewrite Hx. in_list.
Qed.

(** ** Layer 2: buffers as links plus contents *)

Record cont := Cont { cflags : Z; cdev : Z; csector : Z; cdata : list Z }.
Definition mkbuf (c : cont) (p n : Z) : buf :=
  Buf (cflags c) (cdev c) (csector c) p n (cdata c).
Definition frame (s : st) : bool * list Z * Z * list (Z * list Z) * list chan :=
  (lock s, memdisk s, disksize s, hist s, wakes s).

Record rep (s : st) (nx pv : Z -> Z) (ct : Z -> cont) : Prop := {
  rp_len : length (bufs s) = 11%nat;
  rp_at : forall i, 0 <= i < 11 -> at_ (bufs s) i = Some (mkbuf (ct i) (pv i) (nx i));
}.
Definition cupd (ct : Z -> cont) (i : Z) (c : cont) : Z -> cont :=
  fun j => if j =? i then c else ct j.
Lemma cupd_eq ct i c : cupd ct i c i = c.
Proof. unfold cupd. by rewrite Z.eqb_refl. Qed.
Lemma cupd_ne ct i c j : j <> i -> cupd ct i c j = ct j.
Proof. unfold cupd. intros. by destruct (Z.eqb_spec j i). Qed.

Lemma rep_ext s nx pv ct nx' pv' ct' :
  (forall i, 0 <= i < 11 -> nx' i = nx i) -> (forall i, 0 <= i < 11 -> pv' i = pv i) ->
  (forall i, 0 <= i < 11 -> ct' i = ct i) -> rep s nx pv ct -> rep s nx' pv' ct'.
Proof.
  intros Hn Hp Hc [Hl Ha]. split; [done|]. intros i Hi. by rewrite Hn, Hp, Hc, Ha by done.
Qed.

Lemma ld_spec s nx pv ct b :
  rep s nx pv ct -> 0 <= b < 11 -> ld b s = Done (mkbuf (ct b) (pv b) (nx b)) s.
Proof. intros [_ Ha] Hb. unfold ld, deref. by rewrite (Ha b Hb). Qed.

Lemma wp_ld s nx pv ct b Q :
  rep s nx pv ct -> 0 <= b < 11 -> Q (mkbuf (ct b) (pv b) (nx b)) s -> wp (ld b) Q s.
Proof. intros Hr Hb HQ. eapply wp_eq; [by eapply ld_spec|done]. Qed.

Lemma wp_st_buf s nx pv ct b c p n Q :
  rep s nx pv ct -> 0 <= b < 11 ->
  (forall s', frame s' = frame s -> rep s' (fupd nx b n) (fupd pv b p) (cupd ct b c) -> Q tt s') ->
  wp (st_buf b (mkbuf c p n)) Q s.
Proof.
  intros Hr Hb HQ. unfold st_buf. wp_step. eapply wp_ld; [done|done|]. wp_step. apply HQ; [done|].
  destruct Hr as [Hl Ha]. split; cbn; [by rewrite length_put|]. intros i Hi.
  destruct (decide (i = b)) as [->|Hne].
  - by rewrite at_put_eq, !fupd_eq, cupd_eq by (rewrite Hl; lia).
  - by rewrite at_put_ne, !fupd_ne, cupd_ne, Ha by lia.
Qed.

Lemma fupd_id f i j : fupd f i (f i) j = f j.
Proof. unfold fupd. by destruct (Z.eqb_spec j i) as [->|]. Qed.
Lemma cupd_id ct i j : cupd ct i (ct i) j = ct j.
Proof. unfold cupd. by destruct (Z.eqb_spec j i) as [->|]. Qed.

Lemma wp_set_prev s nx pv ct b p Q :
  rep s nx pv ct -> 0 <= b < 11 ->
  (forall s', frame s' = frame s -> rep s' nx (fupd pv b p) ct -> Q tt s') ->
  wp (set_prev b p) Q s.
Proof.
  intros Hr Hb HQ. unfold set_prev. wp_step. eapply wp_ld; [done|done|].
  apply (wp_st_buf s nx pv ct b (ct b) p (nx b)); [done..|]. intros s' Hf Hr'. apply HQ; [done|].
  eapply rep_ext; [| | |exact Hr']; intros; by rewrite ?fupd_id, ?cupd_id.
Qed.
Lemma wp_set_next s nx pv ct b n Q :
  rep s nx pv ct -> 0 <= b < 11 ->
  (forall s', frame s' = frame s -> rep s' (fupd nx b n) pv ct -> Q tt s') ->
  wp (set_next b n) Q s.
Proof.
  intros Hr Hb HQ. unfold set_next. wp_step. eapply wp_ld; [done|done|].
  apply (wp_st_buf s nx pv ct b (ct b) (pv b) n); [done..|]. intros s' Hf Hr'. apply HQ; [done|].
  eapply rep_ext; [| | |exact Hr']; intros; by rewrite ?fupd_id, ?cupd_id.
Qed.
(** the setters of a buffer's contents *)
Lemma wp_set_cont (set : M st unit) s nx pv ct b c Q :
  (forall Q', wp (st_buf b (mkbuf c (pv b) (nx b))) Q' s -> wp set Q' s) ->
  rep s nx pv ct -> 0 <= b < 11 ->
  (forall s', frame s' = frame s -> rep s' nx pv (cupd ct b c) -> Q tt s') ->
  wp set Q s.
Proof.
  intros Hset Hr Hb HQ. apply Hset. eapply wp_st_buf; [done..|]. intros s' Hf Hr'. apply HQ; [done|].
  eapply rep_ext; [| | |exact Hr']; intros; by rewrite ?fupd_id.
Qed.
Lemma wp_set_flags s nx pv ct b f Q :
  rep s nx pv ct -> 0 <= b < 11 ->
  (forall s', frame s' = frame s ->
     rep s' nx pv (cupd ct b (Cont f (cdev (ct b)) (csector (ct b)) (cdata (ct b)))) -> Q tt s') ->
  wp (set_flags b f) Q s.
Proof.
  intros Hr Hb HQ. eapply wp_set_cont; [|done..]. intros Q' HQ'. unfold set_flags.
  wp_step. by eapply wp_ld.
Qed.
Lemma wp_set_dev s nx pv ct b d Q :
  rep s nx pv ct -> 0 <= b < 11 ->
  (forall s', frame s' = frame s ->
     rep s' nx pv (cupd ct b (Cont (cflags (ct b)) d (csector (ct b)) (cdata (ct b)))) -> Q tt s') ->
  wp (set_dev b d) Q s.
Proof.
  intros Hr Hb HQ. eapply wp_set_cont; [|done..]. intros Q' HQ'. unfold set_dev.
  wp_step. by eapply wp_ld.
Qed.
Lemma wp_set_sector s nx pv ct b n Q :
  rep s nx pv ct -> 0 <= b < 11 ->
  (forall s', frame s' = frame s ->
     rep s' nx pv (cupd ct b (Cont (cflags (ct b)) (cdev (ct b)) n (cdata (ct b)))) -> Q tt s') ->
  wp (set_sector b n) Q s.
Proof.
  intros Hr Hb HQ. eapply wp_set_cont; [|done..]. intros Q' HQ'. unfold set_sector.
  wp_step. by eapply wp_ld.
Qed.
Lemma wp_set_data s nx pv ct b d Q :
  rep s nx pv ct -> 0 <= b < 11 ->
  (forall s', frame s' = frame s ->
     rep s' nx pv (cupd ct b (Cont (cflags (ct b)) (cdev (ct b)) (csector (ct b)) d)) -> Q tt s') ->
  wp (set_data b d) Q s.
Proof.
  intros Hr Hb HQ. eapply wp_set_cont; [|done..]. intros Q' HQ'. unfold set_data.
  wp_step. by eapply wp_ld.
Qed.

(** brelse's pointer surgery computes [moved_nx] and [moved_pv] *)
Lemma relink_spec s nx pv ct L1 b L2 :
  rep s nx pv ct -> ring nx pv (L1 ++ b :: L2) -> (forall i, i ∈ L1 ++ b :: L2 -> 0 <= i < 10) ->
  wp (relink b) (fun _ s' => frame s' = frame s /\
    exists nx' pv', rep s' nx' pv' ct /\ ring nx' pv' (b :: L1 ++ L2)) s.
Proof.
  intros Hr Hring HL. pose proof (ring_move _ _ _ _ _ Hring) as Hring'.
  assert (0 <= b < 10) as Hb by (apply HL; in_list).
  destruct Hring as (Hl & Hnd & Hh).
  rewrite <-app_assoc in Hl. cbn in Hl. pose proof Hl as Hl0. apply linked_app in Hl as [Hl1 Hl2].
  assert (0 <= nx b < 11 /\ nx b <> b) as [Hn Hnb].
  { destruct L2 as [|c L2]; cbn in Hl2; destruct Hl2 as (-> & _ & _); unfold bhead, NBUF; [lia|].
    assert (0 <= c < 10) by (apply HL; in_list). split; [lia|]. intros ->.
    apply NoDup_app in Hnd as (_ & _ & Hnd). apply NoDup_cons in Hnd as [Hc _]. apply Hc. in_list. }
  assert (0 <= pv b < 11 /\ pv b <> b) as [Hp Hpb].
  { destruct L1 as [|c L1] using rev_ind.
    - cbn in Hl1. destruct Hl1 as (_ & -> & _). unfold bhead, NBUF. lia.
    - clear IHL1. rewrite <-app_assoc in Hl1. cbn in Hl1. apply linked_app in Hl1 as [_ (_ & -> & _)].
      assert (0 <= c < 10) by (apply HL; in_list). split; [lia|]. intros ->.
      apply NoDup_app in Hnd as (_ & Hnd & _). apply (Hnd b); in_list. }
  assert (0 <= nx bhead < 10) as Hnh.
  { destruct L1 as [|c L1]; cbn in Hl0; destruct Hl0 as (-> & _ & _); [done|].
    apply HL. in_list. }
  assert (0 <= fupd nx (pv b) (nx b) bhead < 11) as Hn1h.
  { unfold fupd. destruct (_ =? _); [done|lia]. }
  assert (bhead = 10) as Ebh by done.
  unfold relink. wp_step. eapply wp_ld; [done|lia|]. cbn [next prev mkbuf].
  wp_step. eapply wp_set_prev; [done|done|]. intros s1 Hf1 Hr1.
  wp_step. eapply wp_ld; [done|lia|]. cbn [next prev mkbuf]. rewrite (fupd_ne pv) by done.
  wp_step. eapply wp_set_next; [done|done|]. intros s2 Hf2 Hr2.
  wp_step. eapply wp_ld; [done|lia|]. cbn [next mkbuf].
  wp_step. eapply wp_set_next; [done|lia|]. intros s3 Hf3 Hr3.
  wp_step. eapply wp_set_prev; [done|lia|]. intros s4 Hf4 Hr4.
  wp_step. eapply wp_ld; [done|lia|]. cbn [next mkbuf].
  rewrite (fupd_ne (fupd nx _ _) b) by lia.
  wp_step. eapply wp_set_prev; [done|done|]. intros s5 Hf5 Hr5.
  eapply wp_set_next; [done|lia|]. intros s6 Hf6 Hr6.
  split; [congruence|]. eexists _, _. split; [exact Hr6|exact Hring'].
Qed.

(** the scans visit the ring in order *)
Lemma scan_next_step s nx pv ct p b :
  rep s nx pv ct -> 0 <= b < 10 ->
  scan_next p b s = Done (if p (mkbuf (ct b) (pv b) (nx b)) then inr (Some b) else inl (nx b)) s.
Proof.
  intros Hr Hb. unfold scan_next. rewrite (proj2 (Z.eqb_neq b bhead)) by (unfold bhead, NBUF; lia).
  erewrite bind_done by (apply (ld_spec s nx pv ct b Hr); lia). by destruct (p _).
Qed.
Lemma scan_prev_step s nx pv ct p b :
  rep s nx pv ct -> 0 <= b < 10 ->
  scan_prev p b s = Done (if p (mkbuf (ct b) (pv b) (nx b)) then inr (Some b) else inl (pv b)) s.
Proof.
  intros Hr Hb. unfold scan_prev. rewrite (proj2 (Z.eqb_neq b bhead)) by (unfold bhead, NBUF; lia).
  erewrite bind_done by (apply (ld_spec s nx pv ct b Hr); lia). by destruct (p _).
Qed.
Lemma scan_next_spec s nx pv ct p L a fuel :
  rep s nx pv ct -> linked nx pv a (L ++ [bhead]) -> (forall i, i ∈ L -> 0 <= i < 10) ->
  (length L < fuel)%nat ->
  exists r, loop fuel (scan_next p) (nx a) s = Done r s /\
    match r with
    | Some b => exists A B, L = A ++ b :: B /\ p (mkbuf (ct b) (pv b) (nx b)) = true /\
        forall x, x ∈ A -> p (mkbuf (ct x) (pv x) (nx x)) = false
    | None => forall x, x ∈ L -> p (mkbuf (ct x) (pv x) (nx x)) = false
    end.
Proof.
  intros Hr. revert a fuel. induction L as [|b L IH]; intros a fuel Hl HL Hf;
    (destruct fuel as [|fuel]; [cbn in Hf; lia|]); cbn [loop].
  - cbn in Hl. destruct Hl as (-> & _ & _). exists None. split; [done|]. intros x Hx. in_list.
  - cbn in Hl. destruct Hl as (-> & Hpv & Hl).
    assert (0 <= b < 10) as Hb by (apply HL; in_list).
    erewrite bind_done by (by apply (scan_next_step s nx pv ct p b)).
    destruct (p _) eqn:Hp.
    + exists (Some b). split; [done|]. exists [], L. split; [done|]. split; [done|].
      intros x Hx. in_list.
    + destruct (IH b fuel) as (r & Hrun & Hres); [done|intros; apply HL; in_list|cbn in Hf; lia|].
      exists r. split; [exact Hrun|]. destruct r as [c|].
      * destruct Hres as (A & B & -> & Hc & HA). exists (b :: A), B. split; [done|]. split; [done|].
        intros x [->|Hx]%elem_of_cons; [done|by apply HA].
      * intros x [->|Hx]%elem_of_cons; [done|by apply Hres].
Qed.

Lemma scan_prev_spec s nx pv ct p L z fuel :
  rep s nx pv ct -> linked nx pv bhead (L ++ [z]) -> (forall i, i ∈ L -> 0 <= i < 10) ->
  (length L < fuel)%nat ->
  exists r, loop fuel (scan_prev p) (pv z) s = Done r s /\
    match r with
    | Some b => exists A B, L = A ++ b :: B /\ p (mkbuf (ct b) (pv b) (nx b)) = true /\
        forall x, x ∈ B -> p (mkbuf (ct x) (pv x) (nx x)) = false
    | None => forall x, x ∈ L -> p (mkbuf (ct x) (pv x) (nx x)) = false
    end.
Proof.
  intros Hr. revert z fuel. induction L as [|b L IH] using rev_ind; intros z fuel Hl HL Hf;
    (destruct fuel as [|fuel]; [cbn in Hf; lia|]); cbn [loop].
  - cbn in Hl. destruct Hl as (_ & -> & _). exists None. split; [done|]. intros x Hx. in_list.
  - rewrite <-app_assoc in Hl. cbn in Hl. apply linked_app in Hl as [Hl (_ & -> & _)].
    assert (0 <= b < 10) as Hb by (apply HL; in_list).
    erewrite bind_done by (by apply (scan_prev_step s nx pv ct p b)).
    destruct (p _) eqn:Hp.
    + exists (Some b). split; [done|]. exists L, []. split; [done|]. split; [done|].
      intros x Hx. in_list.
    + rewrite length_app in Hf. cbn in Hf.
      destruct (IH b fuel) as (r & Hrun & Hres); [done|intros; apply HL; in_list|lia|].
      exists r. split; [exact Hrun|]. destruct r as [c|].
      * destruct Hres as (A & B & -> & Hc & HA). exists A, (B ++ [b]).
        split; [by rewrite <-app_assoc|]. split; [done|].
        intros x [Hx| ->%list_elem_of_singleton]%elem_of_app; [by apply HA|done].
      * intros x [Hx| ->%list_elem_of_singleton]%elem_of_app; [by apply Hres|done].
Qed.

(** ** Layer 3: the cache represents the disk *)

Lemma land_bit f k : 0 <= k -> (Z.land f (2 ^ k) =? 0) = negb (Z.testbit f k).
Proof.
  intros Hk. destruct (Z.testbit f k) eqn:E; cbn.
  - apply Z.eqb_neq. intros H.
    assert (Z.testbit (Z.land f (2 ^ k)) k = false) as Hx by (rewrite H; apply Z.bits_0).
    rewrite Z.land_spec, E, Z.pow2_bits_true in Hx by lia. done.
  - apply Z.eqb_eq, Z.bits_inj_iff'. intros i Hi. rewrite Z.land_spec, Z.bits_0.
    destruct (decide (i = k)) as [->|]; [by rewrite E|].
    rewrite Z.pow2_bits_false by lia. apply andb_false_r.
Qed.
Lemma busy_bit f : (Z.land f B_BUSY =? 0) = negb (Z.testbit f 0).
Proof. apply (land_bit f 0). lia. Qed.
Lemma valid_bit f : (Z.land f B_VALID =? 0) = negb (Z.testbit f 1).
Proof. apply (land_bit f 1). lia. Qed.
Lemma dirty_bit f : (Z.land f B_DIRTY =? 0) = negb (Z.testbit f 2).
Proof. apply (land_bit f 2). lia. Qed.
Lemma small_bits c i : 0 <= c < 8 -> 3 <= i -> Z.testbit c i = false.
Proof.
  intros Hc Hi. rewrite <-(Z.mod_small c (2 ^ 3)) by lia. by apply Z.mod_pow2_bits_high.
Qed.
Lemma nothing_to_do f : (Z.land f (Z.lor B_VALID B_DIRTY) =? B_VALID) = Z.testbit f 1 && negb (Z.testbit f 2).
Proof.
  change (Z.lor B_VALID B_DIRTY) with 6. change B_VALID with 2.
  apply eq_true_iff_eq. rewrite Z.eqb_eq, andb_true_iff, negb_true_iff. split.
  - intros H. split.
    + assert (Z.testbit (Z.land f 6) 1 = true) as Hx by (by rewrite H).
      rewrite Z.land_spec in Hx. by apply andb_true_iff in Hx as [? _].
    + assert (Z.testbit (Z.land f 6) 2 = false) as Hx by (by rewrite H).
      rewrite Z.land_spec in Hx. change (Z.testbit 6 2) with true in Hx.
      by rewrite andb_true_r in Hx.
  - intros [H1 H2]. apply Z.bits_inj_iff'. intros i Hi. rewrite Z.land_spec.
    destruct (decide (i = 1)) as [->|]; [by rewrite H1|].
    destruct (decide (i = 2)) as [->|]; [by rewrite H2|].
    destruct (decide (i = 0)) as [->|]; [apply andb_false_r|].
    rewrite (small_bits 6), (small_bits 2) by lia. apply andb_false_r.
Qed.

(** the sector's bytes on the disk *)
Definition dsec (disk : list Z) (n : Z) : list Z := sub disk (Z.to_nat (n * 512)) 512.

(** What one buffer contributes: it caches nothing and is idle, or it holds
    the current contents of a sector, is locked exactly when [busy] says so
    and dirty exactly when [dirty] says so. *)
Definition buf_ok (size : Z) (busy : gmap Z Z) (dirty : gset Z) (view : Z -> list Z)
    (i : Z) (c : cont) : Prop :=
  length (cdata c) = 512%nat /\ bytes_ok (cdata c) /\
  ((cdev c <> 1 /\ Z.testbit (cflags c) 0 = false /\ Z.testbit (cflags c) 2 = false) \/
   (cdev c = 1 /\ 0 <= csector c < size /\ Z.testbit (cflags c) 1 = true /\
    view (csector c) = cdata c /\
    (Z.testbit (cflags c) 0 = true <-> busy !! csector c = Some i) /\
    (Z.testbit (cflags c) 2 = true <-> csector c ∈ dirty))).

Record cached (ct : Z -> cont) (disk : list Z) (size : Z)
    (busy : gmap Z Z) (dirty : gset Z) (view : Z -> list Z) : Prop := {
  cb_buf : forall i, 0 <= i < 10 -> buf_ok size busy dirty view i (ct i);
  cb_uniq : forall i j, 0 <= i < 10 -> 0 <= j < 10 -> i <> j ->
    cdev (ct i) = 1 -> cdev (ct j) = 1 -> csector (ct i) <> csector (ct j);
  cb_busy : forall n i, busy !! n = Some i -> 0 <= i < 10 /\ cdev (ct i) = 1 /\ csector (ct i) = n;
  cb_dirty : forall n, n ∈ dirty -> exists i, 0 <= i < 10 /\ cdev (ct i) = 1 /\ csector (ct i) = n;
  cb_clean : forall n, 0 <= n < size -> (n ∉ dirty) -> busy !! n = None -> view n = dsec disk n;
  cb_view : forall n, 0 <= n < size -> length (view n) = 512%nat /\ bytes_ok (view n);
  cb_disk : Z.of_nat (length disk) = 512 * size;
  cb_bytes : bytes_ok disk;
  cb_size : 0 <= size <= 2 ^ 23;
}.

(** [cache s busy dirty view]: the state of the block layer.  [busy] maps the
    sectors in use to their buffers, [dirty] are those whose latest contents
    must not leave the cache, and [view n] is what a reader of sector [n]
    sees. *)
Definition cache (s : st) (busy : gmap Z Z) (dirty : gset Z) (view : Z -> list Z) : Prop :=
  lock s = false /\
  exists L nx pv ct, rep s nx pv ct /\ ring nx pv L /\ (forall i, i ∈ L <-> 0 <= i < 10) /\
    cached ct (memdisk s) (disksize s) busy dirty view.

Lemma length_dsec disk size n :
  Z.of_nat (length disk) = 512 * size -> 0 <= n < size -> length (dsec disk n) = 512%nat.
Proof. intros Hd Hn. apply length_sub. lia. Qed.
Lemma dsec_blit disk size n n' d :
  Z.of_nat (length disk) = 512 * size -> length d = 512%nat -> 0 <= n < size -> 0 <= n' < size ->
  dsec (blit disk (Z.to_nat (n * 512)) d) n' = if decide (n' = n) then d else dsec disk n'.
Proof.
  intros Hl Hd Hn Hn'. unfold dsec. case_decide as E.
  - subst n'. rewrite <-Hd at 1. apply sub_blit_same. lia.
  - apply sub_blit_other; lia.
Qed.

(** Some buffer is neither locked nor dirty as long as fewer than NBUF
    sectors are. *)
Lemma idle_exists ct disk sz busy dirty view :
  cached ct disk sz busy dirty view -> (size (dom busy ∪ dirty) < 10)%nat ->
  exists i, 0 <= i < 10 /\ Z.testbit (cflags (ct i)) 0 = false /\ Z.testbit (cflags (ct i)) 2 = false.
Proof.
  intros Hc Hsz. set (P := fun i => Z.testbit (cflags (ct i)) 0 || Z.testbit (cflags (ct i)) 2).
  destruct (existsb (fun i => negb (P i)) (seqZ 0 10)) eqn:E.
  { apply existsb_exists in E as (i & Hi & HP). apply list_elem_of_In, elem_of_seqZ in Hi.
    apply negb_true_iff, orb_false_iff in HP as [? ?]. exists i. split; [lia|done]. }
  exfalso.
  assert (forall i, 0 <= i < 10 -> P i = true) as Hall.
  { intros i Hi. destruct (P i) eqn:HP; [done|].
    rewrite <-not_true_iff_false in E. destruct E. apply existsb_exists. exists i.
    split; [apply list_elem_of_In, elem_of_seqZ; lia|by rewrite HP]. }
  assert (forall i, 0 <= i < 10 -> cdev (ct i) = 1 /\ csector (ct i) ∈ dom busy ∪ dirty) as Hin.
  { intros i Hi. pose proof (Hall i Hi) as HP. unfold P in HP.
    destruct (cb_buf _ _ _ _ _ _ Hc i Hi) as (_ & _ & [(_ & H0 & H2)|(Hd & _ & _ & _ & H0 & H2)]).
    - by rewrite H0, H2 in HP.
    - split; [done|]. apply orb_true_iff in HP as [HP|HP].
      + apply elem_of_union_l, elem_of_dom. apply H0 in HP. by rewrite HP.
      + apply elem_of_union_r. by apply H2. }
  set (l := (fun i => csector (ct i)) <$> seqZ 0 10).
  assert (NoDup l) as Hnd.
  { apply NoDup_fmap_2_strong; [|apply NoDup_seqZ].
    intros i j Hi%elem_of_seqZ Hj%elem_of_seqZ Hs. destruct (decide (i = j)); [done|].
    destruct (cb_uniq _ _ _ _ _ _ Hc i j ltac:(lia) ltac:(lia) ltac:(done)
      (proj1 (Hin i ltac:(lia))) (proj1 (Hin j ltac:(lia))) Hs). }
  assert (list_to_set (C := gset Z) l ⊆ dom busy ∪ dirty) as Hsub.
  { intros x Hx. apply elem_of_list_to_set, list_elem_of_fmap in Hx as (i & -> & Hi%elem_of_seqZ).
    apply Hin. lia. }
  apply subseteq_size in Hsub. rewrite size_list_to_set in Hsub by done.
  unfold l in Hsub. rewrite length_fmap, length_seqZ in Hsub. lia.
Qed.

(** One buffer that keeps its sector changes; everything else stands. *)
Lemma cached_upd ct disk disk' sz busy busy' dirty dirty' view view' b n f' d' :
  cached ct disk sz busy dirty view ->
  0 <= b < 10 -> cdev (ct b) = 1 -> csector (ct b) = n ->
  Z.testbit f' 1 = true -> length d' = 512%nat -> bytes_ok d' -> view' n = d' ->
  (Z.testbit f' 0 = true <-> busy' !! n = Some b) -> busy' !! n = None \/ busy' !! n = Some b ->
  (Z.testbit f' 2 = true <-> n ∈ dirty') ->
  (forall m, m <> n -> busy' !! m = busy !! m) ->
  (forall m, m <> n -> m ∈ dirty' <-> m ∈ dirty) ->
  (forall m, m <> n -> view' m = view m) ->
  (forall m, m <> n -> 0 <= m < sz -> dsec disk' m = dsec disk m) ->
  length disk' = length disk -> bytes_ok disk' ->
  ((n ∉ dirty') -> busy' !! n = None -> d' = dsec disk' n) ->
  cached (cupd ct b (Cont f' 1 n d')) disk' sz busy' dirty' view'.
Proof.
  intros Hc Hb Hdev Hsec Hv Hd Hdb Hview Hbit Hbz Hdbit Hbo Hdo Hvo Hdk Hlen Hdkb Hcl.
  pose proof (cb_uniq _ _ _ _ _ _ Hc) as Hu.
  assert (0 <= n < sz) as Hn.
  { destruct (cb_buf _ _ _ _ _ _ Hc b Hb) as (_ & _ & [(? & _)|(_ & ? & _)]); [done|by subst n]. }
  split.
  - intros i Hi. destruct (decide (i = b)) as [->|Hne].
    + rewrite cupd_eq. split; [done|]. split; [done|]. by right.
    + rewrite cupd_ne by done. destruct (cb_buf _ _ _ _ _ _ Hc i Hi) as (H1 & H2 & H3).
      split; [done|]. split; [done|]. destruct H3 as [H3|(H3 & H4 & H5 & H6 & H7 & H8)]; [by left|right].
      assert (csector (ct i) <> n) as Hnn by (subst n; by apply Hu).
      rewrite Hbo, Hvo by done. rewrite (Hdo _ Hnn). done.
  - intros i j Hi Hj Hij. destruct (decide (i = b)) as [->|], (decide (j = b)) as [->|];
      rewrite ?cupd_eq, ?cupd_ne by done; cbn; intros; try done.
    + subst n. by apply Hu.
    + subst n. by apply Hu.
    + by apply Hu.
  - intros m i Hm. destruct (decide (m = n)) as [->|Hmn].
    + destruct Hbz as [Hbz|Hbz]; rewrite Hbz in Hm; [done|]. injection Hm as <-.
      by rewrite cupd_eq.
    + rewrite Hbo in Hm by done. destruct (cb_busy _ _ _ _ _ _ Hc m i Hm) as (? & ? & ?).
      rewrite cupd_ne; [done|]. intros ->. congruence.
  - intros m Hm. destruct (decide (m = n)) as [->|Hmn].
    + exists b. by rewrite cupd_eq.
    + apply Hdo in Hm; [|done]. destruct (cb_dirty _ _ _ _ _ _ Hc m Hm) as (i & ? & ? & ?).
      exists i. rewrite cupd_ne; [done|]. intros ->. congruence.
  - intros m Hm Hmd Hmb. destruct (decide (m = n)) as [->|Hmn]; [rewrite Hview; by apply Hcl|].
    rewrite Hvo, Hdk by done. apply (cb_clean _ _ _ _ _ _ Hc); [done|by rewrite <-Hdo|by rewrite <-Hbo].
  - intros m Hm. destruct (decide (m = n)) as [->|Hmn]; [by rewrite Hview|].
    rewrite Hvo by done. by apply (cb_view _ _ _ _ _ _ Hc).
  - rewrite Hlen. apply (cb_disk _ _ _ _ _ _ Hc).
  - done.
  - apply (cb_size _ _ _ _ _ _ Hc).
Qed.

(** An idle buffer is recycled for a sector that no buffer holds. *)
Lemma cached_load ct disk sz busy dirty view b n :
  cached ct disk sz busy dirty view -> 0 <= b < 10 ->
  Z.testbit (cflags (ct b)) 0 = false -> Z.testbit (cflags (ct b)) 2 = false ->
  (forall i, 0 <= i < 10 -> cdev (ct i) = 1 -> csector (ct i) <> n) ->
  0 <= n < sz -> busy !! n = None ->
  cached (cupd ct b (Cont 3 1 n (dsec disk n))) disk sz (<[n := b]> busy) dirty view.
Proof.
  intros Hc Hb H0 H2 Hno Hn Hbn.
  assert (n ∉ dirty) as Hnd.
  { intros Hin. destruct (cb_dirty _ _ _ _ _ _ Hc n Hin) as (i & ? & ? & ?). by apply (Hno i). }
  pose proof (cb_clean _ _ _ _ _ _ Hc n Hn Hnd Hbn) as Hcl.
  pose proof (cb_view _ _ _ _ _ _ Hc n Hn) as [Hvl Hvb]. rewrite Hcl in Hvl, Hvb.
  split.
  - intros i Hi. destruct (decide (i = b)) as [->|Hne].
    + rewrite cupd_eq. split; [done|]. split; [done|]. right. cbn. split; [done|]. split; [done|].
      split; [done|]. split; [done|]. rewrite lookup_insert_eq. split; [done|]. split; [done|].
      intros ?. done.
    + rewrite cupd_ne by done. destruct (cb_buf _ _ _ _ _ _ Hc i Hi) as (Hl & Hby & H3).
      split; [done|]. split; [done|]. destruct H3 as [H3|(H3 & H4 & H5 & H6 & H7 & H8)]; [by left|right].
      rewrite lookup_insert_ne; [done|]. intros E. by apply (Hno i Hi H3).
  - intros i j Hi Hj Hij. destruct (decide (i = b)) as [->|], (decide (j = b)) as [->|];
      rewrite ?cupd_eq, ?cupd_ne by done; cbn; intros Hdi Hdj; try done.
    + intros E. by apply (Hno j Hj Hdj).
    + by apply Hno.
    + by apply (cb_uniq _ _ _ _ _ _ Hc).
  - intros m i Hm. destruct (decide (m = n)) as [->|Hmn].
    + rewrite lookup_insert_eq in Hm. injection Hm as <-. by rewrite cupd_eq.
    + rewrite lookup_insert_ne in Hm by done. destruct (cb_busy _ _ _ _ _ _ Hc m i Hm) as (Hi & Hd & Hs).
      rewrite cupd_ne; [done|]. intros ->.
      destruct (cb_buf _ _ _ _ _ _ Hc b Hb) as (_ & _ & [(? & _)|(_ & _ & _ & _ & Hbit & _)]); [done|].
      rewrite Hs in Hbit. apply Hbit in Hm. congruence.
  - intros m Hm. destruct (cb_dirty _ _ _ _ _ _ Hc m Hm) as (i & Hi & Hd & Hs).
    exists i. rewrite cupd_ne; [done|]. intros ->.
    destruct (cb_buf _ _ _ _ _ _ Hc b Hb) as (_ & _ & [(? & _)|(_ & _ & _ & _ & _ & Hbit)]); [done|].
    rewrite Hs in Hbit. apply Hbit in Hm. congruence.
  - intros m Hm Hmd Hmb. apply (cb_clean _ _ _ _ _ _ Hc); [done|done|].
    destruct (decide (m = n)) as [->|]; [done|]. by rewrite lookup_insert_ne in Hmb.
  - apply (cb_view _ _ _ _ _ _ Hc).
  - apply (cb_disk _ _ _ _ _ _ Hc).
  - apply (cb_bytes _ _ _ _ _ _ Hc).
  - apply (cb_size _ _ _ _ _ _ Hc).
Qed.

(** ** The operations *)

Definition locked_st (s : st) (b : bool) : st :=
  St b (bufs s) (memdisk s) (disksize s) (hist s) (wakes s).
Lemma rep_lock s nx pv ct b : rep s nx pv ct -> rep (lset bcache_lock b s) nx pv ct.
Proof. intros [Hl Ha]. by split. Qed.
Lemma frame_lock s s' b : lock s = b -> frame s' = frame (lset bcache_lock (negb b) s) ->
  frame (lset bcache_lock b s') = frame s.
Proof. unfold frame. cbn. intros <- [= _ -> -> -> ->]. done. Qed.

Lemma u32_sector sz n : 0 <= n < sz -> sz <= 2 ^ 23 -> u32 (n * 512) = n * 512.
Proof. intros. apply Z.mod_small. lia. Qed.

(** iderw on a buffer that holds no data yet *)
Lemma iderw_read s nx pv ct disk sz n b d Q :
  rep s nx pv ct -> 0 <= b < 10 -> ct b = Cont 1 1 n d ->
  memdisk s = disk -> disksize s = sz -> Z.of_nat (length disk) = 512 * sz ->
  0 <= n < sz -> sz <= 2 ^ 23 ->
  (forall s', frame s' = frame s -> rep s' nx pv (cupd ct b (Cont 3 1 n (dsec disk n))) -> Q tt s') ->
  wp (iderw b) Q s.
Proof.
  intros Hr Hb Ec <- <- Hlen Hn Hsz HQ. unfold iderw. wp_step. eapply wp_ld; [done|lia|].
  rewrite Ec. cbn [mkbuf flags dev sector data cflags cdev csector cdata].
  wp_step. wp_step; [done|]. wp_step. wp_step; [done|]. wp_step. wp_step; [done|].
  wp_step. wp_step. wp_step. wp_step; [lia|].
  rewrite (u32_sector (disksize s)) by lia. change (has 1 B_DIRTY) with false. cbn iota.
  wp_step. wp_step. unfold ld_disk. eapply wp_deref.
  { rewrite (proj2 (Z.leb_le _ _)) by lia. reflexivity. }
  eapply wp_set_data; [done|lia|]. intros s1 Hf1 Hr1. rewrite Ec in Hr1.
  cbn [cflags cdev csector cdata] in Hr1.
  wp_step. eapply wp_ld; [done|lia|]. eapply wp_set_flags; [done|lia|].
  intros s2 Hf2 Hr2. rewrite !cupd_eq in Hr2. cbn in Hr2. apply HQ; [congruence|].
  eapply rep_ext; [| | |exact Hr2]; try done. intros i Hi. unfold cupd. by destruct (i =? b).
Qed.

Lemma bread_spec s busy dirty view n :
  cache s busy dirty view -> busy !! n = None -> 0 <= n < disksize s ->
  n ∈ dirty \/ (size (dom busy ∪ dirty) < 10)%nat ->
  wp (bread 1 n) (fun b s' => cache s' (<[n := b]> busy) dirty view /\ frame s' = frame s) s.
Proof.
  intros (Hl & L & nx & pv & ct & Hr & Hring & HL & Hc) Hbn Hn Hav.
  pose proof (cb_disk _ _ _ _ _ _ Hc) as Hdk. pose proof (cb_size _ _ _ _ _ _ Hc) as Hsz.
  pose proof Hring as (Hlk & Hnd & Hhd).
  assert (forall i, i ∈ L -> 0 <= i < 10) as HL1 by (intros i Hi; by apply HL).
  assert (length L < 12)%nat as HLlen.
  { assert (L ⊆+ seqZ 0 10) as Hsub%submseteq_length.
    { apply NoDup_submseteq; [done|]. intros i Hi. apply elem_of_seqZ. apply HL in Hi. lia. }
    rewrite length_seqZ in Hsub. lia. }
  set (s0 := lset bcache_lock true s).
  assert (rep s0 nx pv ct) as Hr0 by (by apply rep_lock).
  unfold bread, bget. wp_step. wp_step. wp_step; [done|]. fold s0.
  wp_step. eapply wp_ld; [done|unfold bhead, NBUF; lia|]. cbn [next mkbuf]. wp_step.
  destruct (scan_next_spec s0 nx pv ct (is_block 1 n) L bhead 12 Hr0 Hlk HL1 HLlen) as (r & Hrun & Hres).
  eapply wp_eq; [exact Hrun|]. destruct r as [b|].
  - destruct Hres as (A & B & -> & Hp & _).
    assert (0 <= b < 10) as Hb by (apply HL1; in_list).
    unfold is_block in Hp. apply andb_true_iff in Hp as [Hdev%Z.eqb_eq Hsec%Z.eqb_eq].
    cbn [mkbuf dev sector] in Hdev, Hsec.
    destruct (cb_buf _ _ _ _ _ _ Hc b Hb) as (Hd1 & Hd2 & [(? & _)|(_ & _ & Hval & Hview & Hbit & Hdbit)]); [done|].
    rewrite Hsec in Hbit, Hdbit, Hview.
    assert (Z.testbit (cflags (ct b)) 0 = false) as Hnb.
    { apply not_true_iff_false. rewrite Hbit, Hbn. done. }
    wp_step. eapply wp_ld; [done|lia|]. cbn [flags mkbuf]. unfold has at 1. rewrite busy_bit, Hnb. cbn [negb].
    wp_step. eapply wp_set_flags; [done|lia|]. intros s1 Hf1 Hr1. rewrite Hdev, Hsec in Hr1.
    wp_step. wp_step; [unfold frame in Hf1; cbn in *; congruence|]. wp_step.
    wp_step. eapply wp_ld; [by apply rep_lock|lia|]. cbn [flags mkbuf]. rewrite cupd_eq. cbn [cflags].
    unfold has. rewrite valid_bit, Z.lor_spec, Hval. cbn [negb orb when]. wp_step. wp_step. wp_step.
    pose proof (frame_lock s s1 false Hl Hf1) as Hfr.
    split; [|done]. split; [done|]. exists (A ++ b :: B), nx, pv, (cupd ct b (Cont (Z.lor (cflags (ct b)) 1) 1 n (cdata (ct b)))).
    split; [by apply rep_lock|]. split; [done|]. split; [done|].
    cbn [lset bcache_lock memdisk disksize].
    assert (memdisk s1 = memdisk s /\ disksize s1 = disksize s) as [-> ->] by (unfold frame in Hfr; cbn in Hfr; by injection Hfr).
    eapply cached_upd; try done.
    + by rewrite Z.lor_spec, Hval.
    + rewrite Z.lor_spec, lookup_insert_eq, orb_true_r. done.
    + right. apply lookup_insert_eq.
    + rewrite Z.lor_spec. change (Z.testbit 1 2) with false. by rewrite orb_false_r.
    + intros m Hm. by apply lookup_insert_ne.
    + apply (cb_bytes _ _ _ _ _ _ Hc).
    + rewrite lookup_insert_eq. done.
  - assert (forall i, 0 <= i < 10 -> cdev (ct i) = 1 -> csector (ct i) <> n) as Hno.
    { intros i Hi Hd Hs. pose proof (Hres i (proj2 (HL i) Hi)) as Hf. unfold is_block in Hf.
      cbn [mkbuf dev sector] in Hf. by rewrite Hd, Hs, !Z.eqb_refl in Hf. }
    destruct Hav as [Hin|Hav].
    { destruct (cb_dirty _ _ _ _ _ _ Hc n Hin) as (i & Hi & Hd & Hs). by destruct (Hno i Hi Hd). }
    destruct (idle_exists _ _ _ _ _ _ Hc Hav) as (j & Hj & Hj0 & Hj2).
    unfold recycle. wp_step. eapply wp_ld; [done|unfold bhead, NBUF; lia|]. cbn [prev mkbuf]. wp_step.
    destruct (scan_prev_spec s0 nx pv ct is_idle L bhead 12 Hr0 Hlk HL1 HLlen) as (r & Hrun' & Hres').
    eapply wp_eq; [exact Hrun'|]. destruct r as [b|].
    2: { pose proof (Hres' j (proj2 (HL j) Hj)) as Hf. unfold is_idle in Hf. cbn [mkbuf flags] in Hf.
         by rewrite busy_bit, dirty_bit, Hj0, Hj2 in Hf. }
    destruct Hres' as (A & B & EL & Hp & _).
    assert (0 <= b < 10) as Hb by (apply HL; rewrite EL; in_list).
    unfold is_idle in Hp. cbn [mkbuf flags] in Hp. rewrite busy_bit, dirty_bit in Hp.
    apply andb_true_iff in Hp as [Hb0%negb_true_iff Hb2%negb_true_iff].
    wp_step. eapply wp_set_dev; [done|lia|]. intros s1 Hf1 Hr1.
    wp_step. eapply wp_set_sector; [done|lia|]. intros s2 Hf2 Hr2.
    wp_step. eapply wp_set_flags; [done|lia|]. intros s3 Hf3 Hr3.
    rewrite !cupd_eq in Hr3. cbn [cflags cdev csector cdata] in Hr3.
    assert (frame s3 = frame s0) as Hf30 by congruence.
    wp_step. wp_step; [unfold frame in Hf30; cbn in *; congruence|]. wp_step.
    set (c := Cont B_BUSY 1 n (cdata (ct b))) in *.
    assert (rep (lset bcache_lock false s3) nx pv (cupd ct b c)) as Hr4.
    { apply rep_lock. eapply rep_ext; [| | |exact Hr3]; try done. intros i Hi. unfold cupd.
      by destruct (i =? b). }
    pose proof (frame_lock s s3 false Hl Hf30) as Hfr.
    wp_step. eapply wp_ld; [done|lia|]. cbn [flags mkbuf]. rewrite cupd_eq.
    change (has (cflags c) B_VALID) with false. cbn [negb when]. wp_step.
    eapply (iderw_read _ nx pv (cupd ct b c) (memdisk s) (disksize s) n b (cdata (ct b)));
      [done|done|by rewrite cupd_eq| | |done|done|lia|];
      [unfold frame in Hfr; cbn in Hfr |- *; by injection Hfr|unfold frame in Hfr; cbn in Hfr |- *; by injection Hfr|].
    intros s5 Hf5 Hr5. rewrite Hfr in Hf5. wp_step. split; [|done].
    assert (lock s5 = false /\ memdisk s5 = memdisk s /\ disksize s5 = disksize s) as (Hl5 & Hm5 & Hd5)
      by (unfold frame in Hf5; injection Hf5; by rewrite Hl).
    split; [done|]. exists L, nx, pv, (cupd ct b (Cont 3 1 n (dsec (memdisk s) n))).
    split.
    { eapply rep_ext; [| | |exact Hr5]; try done. intros i Hi. unfold cupd. by destruct (i =? b). }
    split; [done|]. split; [done|]. rewrite Hm5, Hd5. by apply cached_load.
Qed.

(** what the holder of a buffer sees in it *)
Lemma cache_held s busy dirty view n b :
  cache s busy dirty view -> busy !! n = Some b ->
  exists x, ld b s = Done x s /\ 0 <= b < 10 /\ dev x = 1 /\ sector x = n /\ data x = view n /\
    Z.testbit (flags x) 0 = true /\ Z.testbit (flags x) 1 = true /\
    0 <= n < disksize s /\ length (data x) = 512%nat /\ bytes_ok (data x).
Proof.
  intros (Hl & L & nx & pv & ct & Hr & _ & _ & Hc) Hbn.
  destruct (cb_busy _ _ _ _ _ _ Hc n b Hbn) as (Hb & Hd & Hs).
  destruct (cb_buf _ _ _ _ _ _ Hc b Hb) as (H1 & H2 & [(? & _)|(_ & H4 & H5 & H6 & H7 & _)]); [done|].
  exists (mkbuf (ct b) (pv b) (nx b)). split; [eapply ld_spec; [done|lia]|].
  cbn [mkbuf dev sector data flags]. rewrite Hs in H4, H6, H7. rewrite H6.
  do 4 (split; [done|]). split; [by apply H7|]. done.
Qed.

(** the cache's view with one sector changed *)
Definition vupd (view : Z -> list Z) (n : Z) (d : list Z) : Z -> list Z :=
  fun m => if m =? n then d else view m.
Lemma vupd_eq view n d : vupd view n d n = d.
Proof. unfold vupd. by rewrite Z.eqb_refl. Qed.
Lemma vupd_ne view n d m : m <> n -> vupd view n d m = view m.
Proof. unfold vupd. intros. by destruct (Z.eqb_spec m n). Qed.
Lemma vupd_id view n m : vupd view n (view n) m = view m.
Proof. unfold vupd. by destruct (Z.eqb_spec m n) as [->|]. Qed.

(** Writing to the data of a buffer one holds. *)
Lemma set_data_spec s busy dirty view n b d :
  cache s busy dirty view -> busy !! n = Some b -> length d = 512%nat -> bytes_ok d ->
  wp (set_data b d) (fun _ s' => cache s' busy dirty (vupd view n d) /\ frame s' = frame s) s.
Proof.
  intros (Hl & L & nx & pv & ct & Hr & Hring & HL & Hc) Hbn Hd Hby.
  destruct (cb_busy _ _ _ _ _ _ Hc n b Hbn) as (Hb & Hdev & Hs).
  destruct (cb_buf _ _ _ _ _ _ Hc b Hb) as (_ & _ & [(? & _)|(_ & _ & H5 & _ & H7 & H8)]); [done|].
  rewrite Hs in H7, H8.
  eapply wp_set_data; [done|lia|]. intros s1 Hf1 Hr1. split; [|done].
  assert (lock s1 = false /\ memdisk s1 = memdisk s /\ disksize s1 = disksize s) as (Hl1 & Hm1 & Hd1)
    by (unfold frame in Hf1; injection Hf1; by rewrite Hl).
  split; [done|]. eexists L, nx, pv, _. split; [exact Hr1|]. split; [done|]. split; [done|].
  rewrite Hm1, Hd1, Hdev, Hs. eapply cached_upd; try done.
  - by apply vupd_eq.
  - by right.
  - intros m Hm. by apply vupd_ne.
  - apply (cb_bytes _ _ _ _ _ _ Hc).
  - by rewrite Hbn.
Qed.

(** [b->flags |= B_DIRTY] by the holder keeps the buffer in the cache. *)
Lemma mark_dirty_spec s busy dirty view n b f :
  cache s busy dirty view -> busy !! n = Some b ->
  (forall x, ld b s = Done x s -> f = Z.lor (flags x) B_DIRTY) ->
  wp (set_flags b f) (fun _ s' => cache s' busy ({[n]} ∪ dirty) view /\ frame s' = frame s) s.
Proof.
  intros (Hl & L & nx & pv & ct & Hr & Hring & HL & Hc) Hbn Hf.
  destruct (cb_busy _ _ _ _ _ _ Hc n b Hbn) as (Hb & Hdev & Hs).
  destruct (cb_buf _ _ _ _ _ _ Hc b Hb) as (H1 & H2 & [(? & _)|(_ & _ & H5 & H6 & H7 & H8)]); [done|].
  rewrite Hs in H6, H7, H8.
  rewrite (Hf (mkbuf (ct b) (pv b) (nx b)) ltac:(eapply ld_spec; [done|lia])). cbn [flags mkbuf].
  eapply wp_set_flags; [done|lia|]. intros s1 Hf1 Hr1. split; [|done].
  assert (lock s1 = false /\ memdisk s1 = memdisk s /\ disksize s1 = disksize s) as (Hl1 & Hm1 & Hd1)
    by (unfold frame in Hf1; injection Hf1; by rewrite Hl).
  split; [done|]. eexists L, nx, pv, _. split; [exact Hr1|]. split; [done|]. split; [done|].
  rewrite Hm1, Hd1, Hdev, Hs. unfold B_DIRTY. eapply cached_upd; try done.
  - by rewrite Z.lor_spec, H5.
  - rewrite Z.lor_spec. change (Z.testbit 4 0) with false. by rewrite orb_false_r.
  - by right.
  - rewrite Z.lor_spec, orb_true_r. split; [|done]. intros _. by apply elem_of_union_l, elem_of_singleton.
  - intros m Hm. rewrite elem_of_union, elem_of_singleton. tauto.
  - apply (cb_bytes _ _ _ _ _ _ Hc).
  - by rewrite Hbn.
Qed.

(** bwrite stores the buffer's contents on the disk and makes it clean. *)
Definition wrote (s s' : st) (n : Z) (d : list Z) : Prop :=
  frame s' = (lock s, blit (memdisk s) (Z.to_nat (n * 512)) d, disksize s, hist s ++ [(n, d)], wakes s).

Lemma bwrite_bits f :
  let g := Z.lor (Z.land (Z.lor f 4) (Z.lnot 4)) 2 in
  Z.testbit g 0 = Z.testbit f 0 /\ Z.testbit g 1 = true /\ Z.testbit g 2 = false.
Proof.
  cbn zeta. rewrite !Z.lor_spec, !Z.land_spec, !Z.lor_spec, !Z.lnot_spec by lia.
  split; [|split].
  - change (Z.testbit 4 0) with false. change (Z.testbit 2 0) with false. cbn.
    by rewrite !orb_false_r, andb_true_r.
  - change (Z.testbit 2 1) with true. apply orb_true_r.
  - change (Z.testbit 4 2) with true. change (Z.testbit 2 2) with false. cbn.
    by rewrite orb_true_r.
Qed.

Lemma bwrite_spec s busy dirty view n b :
  cache s busy dirty view -> busy !! n = Some b ->
  wp (bwrite b) (fun _ s' => cache s' busy (dirty ∖ {[n]}) view /\ wrote s s' n (view n)) s.
Proof.
  intros (Hl & L & nx & pv & ct & Hr & Hring & HL & Hc) Hbn.
  destruct (cb_busy _ _ _ _ _ _ Hc n b Hbn) as (Hb & Hdev & Hs).
  destruct (cb_buf _ _ _ _ _ _ Hc b Hb) as (H1 & H2 & [(? & _)|(_ & Hn & H5 & H6 & H7 & H8)]); [done|].
  rewrite Hs in Hn, H6, H7, H8.
  pose proof (cb_disk _ _ _ _ _ _ Hc) as Hdk. pose proof (cb_size _ _ _ _ _ _ Hc) as Hsz.
  assert (Z.testbit (cflags (ct b)) 0 = true) as Hb0 by (by apply H7).
  set (f := cflags (ct b)) in *.
  unfold bwrite. wp_step. eapply wp_ld; [done|lia|]. cbn [flags mkbuf]. fold f. wp_step.
  wp_step; [by rewrite busy_bit, Hb0|]. wp_step. eapply wp_set_flags; [done|lia|]. intros s1 Hf1 Hr1.
  rewrite Hdev, Hs in Hr1.
  unfold iderw. wp_step. eapply wp_ld; [done|lia|]. rewrite cupd_eq.
  cbn [mkbuf flags dev sector data cflags cdev csector cdata].
  wp_step. wp_step; [unfold has; by rewrite busy_bit, Z.lor_spec, Hb0|].
  wp_step. wp_step.
  { rewrite nothing_to_do, !Z.lor_spec. change (Z.testbit B_DIRTY 2) with true.
    by rewrite orb_true_r, andb_false_r. }
  wp_step. wp_step; [done|]. wp_step. wp_step. wp_step.
  assert (disksize s1 = disksize s /\ memdisk s1 = memdisk s) as [Hds1 Hms1]
    by (unfold frame in Hf1; by injection Hf1).
  wp_step; [rewrite Hds1; lia|]. rewrite (u32_sector (disksize s)) by lia.
  assert (has (Z.lor f B_DIRTY) B_DIRTY = true) as ->
    by (unfold has; by rewrite dirty_bit, Z.lor_spec, orb_true_r).
  wp_step. wp_step. eapply wp_set_flags; [done|lia|]. intros s2 Hf2 Hr2.
  rewrite cupd_eq in Hr2. cbn [cflags cdev csector cdata] in Hr2.
  unfold st_disk, ld_disk. wp_step.
  assert (frame s2 = frame s) as Hf20 by congruence.
  assert (memdisk s2 = memdisk s) as Hms2 by (unfold frame in Hf20; by injection Hf20).
  eapply wp_deref.
  { rewrite (proj2 (Z.leb_le _ _)) by (rewrite Hms2; lia). reflexivity. }
  wp_step. wp_step. set (s3 := St _ _ _ _ _ _).
  assert (rep s3 nx pv (cupd ct b (Cont (Z.land (Z.lor f B_DIRTY) (Z.lnot B_DIRTY)) 1 n (cdata (ct b))))) as Hr3.
  { assert (bufs s3 = bufs s2) as Eb by done. destruct Hr2 as [Hl2 Ha2]. split; rewrite Eb; [done|].
    intros i Hi. rewrite Ha2 by done. unfold cupd. by destruct (i =? b). }
  eapply wp_ld; [done|lia|]. rewrite cupd_eq. cbn [flags mkbuf cflags].
  eapply wp_set_flags; [done|lia|]. intros s4 Hf4 Hr4. rewrite cupd_eq in Hr4.
  cbn [cflags cdev csector cdata] in Hr4.
  assert (wrote s s4 n (view n)) as Hw.
  { unfold wrote. rewrite Hf4. unfold frame, s3. cbn. unfold frame in Hf20. rewrite H6.
    injection Hf20 as -> -> -> -> ->. done. }
  split; [|done]. unfold wrote, frame in Hw. injection Hw as Hl4 Hm4 Hd4 Hh4 Hw4.
  split; [congruence|]. destruct (bwrite_bits f) as (B0 & B1 & B2).
  set (g := Z.lor (Z.land (Z.lor f 4) (Z.lnot 4)) 2) in *.
  exists L, nx, pv, (cupd ct b (Cont g 1 n (cdata (ct b)))).
  split; [eapply rep_ext; [| | |exact Hr4]; try done; intros i Hi; unfold cupd; by destruct (i =? b)|].
  split; [done|]. split; [done|]. rewrite Hm4, Hd4, H6.
  assert (length (blit (memdisk s) (Z.to_nat (n * 512)) (cdata (ct b))) = length (memdisk s)) as Hbl
    by (apply length_blit; lia).
  eapply cached_upd; try done.
  - by rewrite B0, Hb0, Hbn.
  - by right.
  - rewrite B2, elem_of_difference, elem_of_singleton. split; [done|]. by intros [_ []].
  - intros m Hm. rewrite elem_of_difference, elem_of_singleton. tauto.
  - intros m Hm Hm'. rewrite (dsec_blit _ (disksize s)) by (done || lia). by rewrite decide_False.
  - apply blit_bytes; [apply (cb_bytes _ _ _ _ _ _ Hc)|done].
  - by rewrite Hbn.
Qed.

Lemma brelse_spec s busy dirty view n b :
  cache s busy dirty view -> busy !! n = Some b ->
  n ∈ dirty \/ view n = dsec (memdisk s) n ->
  wp (brelse b) (fun _ s' => cache s' (delete n busy) dirty view /\
    frame s' = (lock s, memdisk s, disksize s, hist s, wakes s ++ [ch_buf b])) s.
Proof.
  intros (Hl & L & nx & pv & ct & Hr & Hring & HL & Hc) Hbn Hcl.
  destruct (cb_busy _ _ _ _ _ _ Hc n b Hbn) as (Hb & Hdev & Hs).
  destruct (cb_buf _ _ _ _ _ _ Hc b Hb) as (H1 & H2 & [(? & _)|(_ & Hn & H5 & H6 & H7 & H8)]); [done|].
  rewrite Hs in Hn, H6, H7, H8.
  assert (Z.testbit (cflags (ct b)) 0 = true) as Hb0 by (by apply H7).
  unfold brelse. wp_step. eapply wp_ld; [done|lia|]. cbn [flags mkbuf]. wp_step.
  wp_step; [by rewrite busy_bit, Hb0|]. wp_step. wp_step; [done|]. wp_step.
  destruct (list_elem_of_split L b (proj2 (HL b) Hb)) as (L1 & L2 & ->).
  eapply wp_mono; [apply (relink_spec _ nx pv ct L1 b L2); [by apply rep_lock|done|]|].
  { intros i Hi. by apply HL. }
  cbn beta. intros _ s1 (Hf1 & nx' & pv' & Hr1 & Hring1).
  wp_step. eapply wp_ld; [done|lia|]. cbn [flags mkbuf].
  wp_step. eapply wp_set_flags; [done|lia|]. intros s2 Hf2 Hr2. rewrite Hdev, Hs in Hr2.
  unfold wakeup. wp_step. wp_step. assert (frame s2 = frame (lset bcache_lock true s)) as Hf20 by congruence.
  unfold frame in Hf20. cbn in Hf20. injection Hf20 as Hl2 Hm2 Hd2 Hh2 Hw2.
  wp_step; [done|]. split; [|unfold frame; cbn; by rewrite Hl, Hm2, Hd2, Hh2, Hw2].
  split; [done|]. eexists (b :: L1 ++ L2), nx', pv', _. split; [|split; [exact Hring1|split]].
  - destruct Hr2 as [Hlen Hat]. split; [done|]. exact Hat.
  - intros i. rewrite <-HL. rewrite !elem_of_cons, !elem_of_app, elem_of_cons. tauto.
  - cbn [lset bcache_lock memdisk disksize]. rewrite Hm2, Hd2.
    assert (forall k, 0 <= k -> Z.testbit (Z.land (cflags (ct b)) (Z.lnot B_BUSY)) k =
              Z.testbit (cflags (ct b)) k && negb (Z.testbit 1 k)) as Hbits
      by (intros k Hk; by rewrite Z.land_spec, Z.lnot_spec by lia).
    eapply cached_upd; try done.
    + by rewrite Hbits, H5 by lia.
    + rewrite Hbits by lia. change (Z.testbit 1 0) with true. rewrite andb_false_r, lookup_delete_eq. done.
    + left. apply lookup_delete_eq.
    + rewrite Hbits by lia. change (Z.testbit 1 2) with false. by rewrite andb_true_r.
    + intros m Hm. by apply lookup_delete_ne.
    + apply (cb_bytes _ _ _ _ _ _ Hc).
    + intros Hnd _. destruct Hcl as [?|Hcl]; [done|]. congruence.
Qed.

(** ** bget on a locked sector, and with no buffer left *)

Lemma ring_scan_facts s busy dirty view L nx pv ct :
  rep s nx pv ct -> ring nx pv L -> (forall i, i ∈ L <-> 0 <= i < 10) ->
  cached ct (memdisk s) (disksize s) busy dirty view ->
  linked nx pv bhead (L ++ [bhead]) /\ (forall i, i ∈ L -> 0 <= i < 10) /\ (length L < 12)%nat.
Proof.
  intros Hr (Hlk & Hnd & Hhd) HL Hc. split; [done|]. split; [intros i Hi; by apply HL|].
  assert (L ⊆+ seqZ 0 10) as Hsub%submseteq_length.
  { apply NoDup_submseteq; [done|]. intros i Hi. apply elem_of_seqZ. apply HL in Hi. lia. }
  rewrite length_seqZ in Hsub. lia.
Qed.

Lemma bget_first_scan s nx pv ct d n L :
  lock s = false -> rep s nx pv ct -> linked nx pv bhead (L ++ [bhead]) ->
  (forall i, i ∈ L -> 0 <= i < 10) -> (length L < 12)%nat ->
  exists r, bget d n s =
    match r with
    | Some b => (x ← ld b;
        if negb (has (flags x) B_BUSY) then
          set_flags b (Z.lor (flags x) B_BUSY) ;; release bcache_lock ;; mret b
        else sleep_on bcache_lock (ch_buf b)) (lset bcache_lock true s)
    | None => recycle d n (lset bcache_lock true s)
    end /\
    match r with
    | Some b => exists A B, L = A ++ b :: B /\ is_block d n (mkbuf (ct b) (pv b) (nx b)) = true
    | None => forall x, x ∈ L -> is_block d n (mkbuf (ct x) (pv x) (nx x)) = false
    end.
Proof.
  intros Hl Hr Hlk HL Hlen. pose proof (rep_lock s nx pv ct true Hr) as Hr0.
  destruct (scan_next_spec _ nx pv ct (is_block d n) L bhead 12 Hr0 Hlk HL Hlen) as (r & Hrun & Hres).
  exists r. split.
  - unfold bget. erewrite bind_done by (unfold acquire; cbn; by rewrite Hl).
    erewrite bind_done by (eapply ld_spec; [exact Hr0|unfold bhead, NBUF; lia]). cbn [next mkbuf].
    erewrite bind_done by (exact Hrun). by destruct r.
  - destruct r as [b|]; [|done]. destruct Hres as (A & B & ? & ? & _). by exists A, B.
Qed.

Lemma bread_busy s busy dirty view n b :
  cache s busy dirty view -> busy !! n = Some b -> bread 1 n s = Block (ch_buf b) s.
Proof.
  intros (Hl & L & nx & pv & ct & Hr & Hring & HL & Hc) Hbn.
  destruct (ring_scan_facts _ _ _ _ _ _ _ _ Hr Hring HL Hc) as (Hlk & HL1 & Hlen).
  destruct (cb_busy _ _ _ _ _ _ Hc n b Hbn) as (Hb & Hdev & Hs).
  destruct (cb_buf _ _ _ _ _ _ Hc b Hb) as (_ & _ & [(? & _)|(_ & _ & _ & _ & H7 & _)]); [done|].
  rewrite Hs in H7. apply H7 in Hbn as Hb0.
  destruct (bget_first_scan s nx pv ct 1 n L Hl Hr Hlk HL1 Hlen) as (r & Hget & Hres).
  unfold bread, mbind, M_bind. rewrite Hget. destruct r as [c|].
  - destruct Hres as (A & B & EL & Hp). unfold is_block in Hp.
    apply andb_true_iff in Hp as [Hd%Z.eqb_eq Hn%Z.eqb_eq]. cbn [mkbuf dev sector] in Hd, Hn.
    assert (0 <= c < 10) as Hcr by (apply HL1; rewrite EL; in_list).
    assert (c = b) as ->.
    { destruct (decide (c = b)); [done|]. destruct (cb_uniq _ _ _ _ _ _ Hc c b); try done. congruence. }
    erewrite bind_done by (eapply ld_spec; [by apply rep_lock|lia]). cbn [flags mkbuf].
    unfold has. rewrite busy_bit, Hb0. cbn. f_equal. destruct s. cbn in *. by subst.
  - pose proof (Hres b (proj2 (HL b) Hb)) as Hf. unfold is_block in Hf. cbn [mkbuf dev sector] in Hf.
    by rewrite Hdev, Hs, !Z.eqb_refl in Hf.
Qed.

(** With NBUF sectors locked or dirty, no buffer is idle. *)
Lemma all_in_use ct disk sz busy dirty view i :
  cached ct disk sz busy dirty view -> (10 <= size (dom busy ∪ dirty))%nat -> 0 <= i < 10 ->
  cdev (ct i) = 1 /\ csector (ct i) ∈ dom busy ∪ dirty.
Proof.
  intros Hc Hsz Hi. destruct (decide (cdev (ct i) = 1 /\ csector (ct i) ∈ dom busy ∪ dirty)) as [|Hn]; [done|].
  exfalso. set (l := (fun j => csector (ct j)) <$> filter (fun j => j <> i) (seqZ 0 10)).
  assert (dom busy ∪ dirty ⊆ list_to_set (C := gset Z) l) as Hsub.
  { intros x Hx. assert (exists j, 0 <= j < 10 /\ cdev (ct j) = 1 /\ csector (ct j) = x) as (j & Hj & Hd & Hs).
    { apply elem_of_union in Hx as [Hx|Hx].
      - apply elem_of_dom in Hx as [j Hj]. exists j. apply (cb_busy _ _ _ _ _ _ Hc _ _ Hj).
      - apply (cb_dirty _ _ _ _ _ _ Hc _ Hx). }
    apply elem_of_list_to_set, list_elem_of_fmap. exists j. split; [done|].
    apply list_elem_of_filter. split; [|apply elem_of_seqZ; lia]. intros ->. apply Hn. by rewrite Hs. }
  apply subseteq_size in Hsub.
  assert (length l <= 9)%nat as Hl.
  { unfold l. rewrite length_fmap.
    assert (i ∈ seqZ 0 10) as (l1 & l2 & E)%list_elem_of_split by (apply elem_of_seqZ; lia).
    assert (length (seqZ 0 10) = 10%nat) as E10 by done. rewrite E in E10 |- *.
    rewrite filter_app, filter_cons_False by (intros H; by apply H). rewrite length_app in *. cbn in E10.
    pose proof (length_filter (fun j => j <> i) l1). pose proof (length_filter (fun j => j <> i) l2). lia. }
  assert (size (list_to_set (C := gset Z) l) <= length l)%nat; [|lia].
  clear. induction l as [|x l IH]; cbn; [by rewrite size_empty|].
  rewrite size_union_alt, size_singleton.
  assert (size (list_to_set (C := gset Z) l ∖ {[x]}) <= size (list_to_set (C := gset Z) l))%nat
    by (apply subseteq_size; set_solver). lia.
Qed.

Lemma bread_no_buffers s busy dirty view n :
  cache s busy dirty view -> busy !! n = None -> (n ∉ dirty) ->
  (10 <= size (dom busy ∪ dirty))%nat -> bread 1 n s = Panic "bget: no buffers".
Proof.
  intros (Hl & L & nx & pv & ct & Hr & Hring & HL & Hc) Hbn Hnd Hsz.
  destruct (ring_scan_facts _ _ _ _ _ _ _ _ Hr Hring HL Hc) as (Hlk & HL1 & Hlen).
  destruct (bget_first_scan s nx pv ct 1 n L Hl Hr Hlk HL1 Hlen) as (r & Hget & Hres).
  unfold bread, mbind, M_bind. rewrite Hget. destruct r as [b|].
  - exfalso. destruct Hres as (A & B & EL & Hp). unfold is_block in Hp.
    apply andb_true_iff in Hp as [_ Hn%Z.eqb_eq]. cbn [mkbuf sector] in Hn.
    assert (0 <= b < 10) as Hb by (apply HL1; rewrite EL; in_list).
    destruct (all_in_use _ _ _ _ _ _ b Hc Hsz Hb) as [_ Hin]. rewrite Hn in Hin.
    apply elem_of_union in Hin as [Hin|Hin]; [|done]. by apply elem_of_dom in Hin as [? ?%eq_None_ne_Some_1].
  - unfold recycle. pose proof (rep_lock s nx pv ct true Hr) as Hr0.
    erewrite bind_done by (eapply ld_spec; [exact Hr0|unfold bhead, NBUF; lia]). cbn [prev mkbuf].
    destruct (scan_prev_spec _ nx pv ct is_idle L bhead 12 Hr0 Hlk HL1 Hlen) as (r & Hrun & Hres').
    erewrite bind_done by (exact Hrun). destruct r as [b|]; [|done]. exfalso.
    destruct Hres' as (A & B & EL & Hp & _).
    assert (0 <= b < 10) as Hb by (apply HL1; rewrite EL; in_list).
    unfold is_idle in Hp. cbn [mkbuf flags] in Hp. rewrite busy_bit, dirty_bit in Hp.
    apply andb_true_iff in Hp as [Hb0%negb_true_iff Hb2%negb_true_iff].
    destruct (all_in_use _ _ _ _ _ _ b Hc Hsz Hb) as [Hd Hin].
    destruct (cb_buf _ _ _ _ _ _ Hc b Hb) as (_ & _ & [(? & _)|(_ & _ & _ & _ & H7 & H8)]); [done|].
    apply elem_of_union in Hin as [Hin|Hin].
    + apply elem_of_dom in Hin as [c Hin]. destruct (cb_busy _ _ _ _ _ _ Hc _ _ Hin) as (Hcr & Hcd & Hcs).
      assert (c = b) as ->.
      { destruct (decide (c = b)); [done|]. by destruct (cb_uniq _ _ _ _ _ _ Hc c b). }
      apply H7 in Hin. congruence.
    + apply H8 in Hin. congruence.
Qed.

(** ** binit *)

Lemma ring_push nx pv b L f :
  linked nx pv bhead (L ++ [bhead]) -> NoDup (b :: L) -> (bhead ∉ L) -> b <> bhead -> nx bhead = f ->
  ring (fupd (fupd nx b f) bhead b) (fupd (fupd pv b bhead) f b) (b :: L).
Proof.
  intros Hl Hnd Hh Hb Hf. split; [|split; [done|by apply not_elem_of_cons]].
  apply NoDup_cons in Hnd as [HbL Hnd]. cbn [linked app]. split; [apply fupd_eq|].
  assert (f <> b) as Hfb.
  { destruct L as [|c L]; cbn in Hl; destruct Hl as (E & _ & _); rewrite Hf in E; subst f; [done|].
    intros ->. apply HbL. in_list. }
  split; [by rewrite fupd_ne, fupd_eq by done|].
  assert (nx bhead = f) as Hf' by done.
  destruct L as [|c L]; cbn in Hl |- *; destruct Hl as (E & E' & Hl); rewrite Hf in E; subst f.
  - by rewrite fupd_ne, fupd_eq, fupd_eq by done.
  - apply not_elem_of_cons in Hh as [Hc Hh]. apply NoDup_cons in Hnd as [HcL Hnd].
    apply not_elem_of_cons in HbL as [Hbc HbL].
    split; [by rewrite fupd_ne, fupd_eq by done|]. split; [apply fupd_eq|].
    eapply linked_ext; [| |exact Hl].
    + intros x Hx. rewrite !fupd_ne; [done| |]; intros ->; in_list.
    + intros x Hx. rewrite !fupd_ne; [done| |]; intros ->.
      * apply elem_of_app in Hx as [?|Hx]; [done|]. by apply list_elem_of_singleton in Hx.
      * apply elem_of_app in Hx as [?|Hx]; [done|]. apply list_elem_of_singleton in Hx. by apply Hc.
Qed.

(** zeroed static memory, and the image embedded by ideinit *)
Record boot (s : st) : Prop := {
  bt_len : length (bufs s) = 11%nat;
  bt_buf : forall i x, at_ (bufs s) i = Some x ->
    Z.testbit (flags x) 0 = false /\ Z.testbit (flags x) 2 = false /\
    length (data x) = 512%nat /\ bytes_ok (data x);
  bt_disk : Z.of_nat (length (memdisk s)) = 512 * disksize s;
  bt_bytes : bytes_ok (memdisk s);
  bt_size : 0 <= disksize s <= 2 ^ 23;
}.

Definition mknx (s : st) (i : Z) : Z := match at_ (bufs s) i with Some x => next x | None => 0 end.
Definition mkpv (s : st) (i : Z) : Z := match at_ (bufs s) i with Some x => prev x | None => 0 end.
Definition mkct (s : st) (i : Z) : cont :=
  match at_ (bufs s) i with Some x => Cont (flags x) (dev x) (sector x) (data x) | None => Cont 0 0 0 [] end.
Lemma rep_self s : length (bufs s) = 11%nat -> rep s (mknx s) (mkpv s) (mkct s).
Proof.
  intros Hl. split; [done|]. intros i Hi. unfold mknx, mkpv, mkct.
  destruct (at_is_Some (bufs s) i) as [x ->]; [lia|]. by destruct x.
Qed.

Lemma binit_spec s : boot s ->
  wp binit (fun _ s' => cache s' ∅ ∅ (dsec (memdisk s)) /\
    frame s' = (false, memdisk s, disksize s, hist s, wakes s)) s.
Proof.
  intros [Hlen Hbuf Hdk Hby Hsz]. unfold binit. wp_step. wp_step.
  pose proof (rep_lock s _ _ _ false (rep_self s Hlen)) as Hr0. set (s0 := lset bcache_lock false s) in *.
  assert (bhead = 10) as Ebh by done.
  wp_step. eapply wp_set_prev; [exact Hr0|lia|]. intros s1 Hf1 Hr1.
  wp_step. eapply wp_set_next; [exact Hr1|lia|]. intros s2 Hf2 Hr2.
  assert (frame s2 = frame s0) as Hf20 by congruence.
  apply wp_loop with (mu := fun b => Z.to_nat (10 - b))
    (Inv := fun b s' => 0 <= b <= 10 /\ frame s' = frame s0 /\ exists L nx pv ct,
       rep s' nx pv ct /\ ring nx pv L /\ (forall i, i ∈ L <-> 0 <= i < b) /\
       (forall i, cflags (ct i) = cflags (mkct s i) /\ cdata (ct i) = cdata (mkct s i)) /\
       (forall i, 0 <= i < b -> cdev (ct i) = u32 (-1))).
  - split; [lia|]. split; [done|]. eexists [], _, _, _. split; [exact Hr2|]. split.
    { split; [|split; [apply NoDup_nil_2|apply not_elem_of_nil]]. cbn [linked app].
      by rewrite !fupd_eq. }
    split; [intros i; rewrite elem_of_nil; lia|]. split; [done|]. lia.
  - lia.
  - intros b s3 (Hb & Hf3 & L & nx & pv & ct & Hr3 & Hring & HL & Hct & Hdev).
    unfold NBUF. destruct (Z.ltb_spec b 10) as [Hlt|Hge].
    + wp_step. eapply wp_ld; [done|lia|]. cbn [next mkbuf].
      wp_step. eapply wp_set_next; [done|lia|]. intros s4 Hf4 Hr4.
      wp_step. eapply wp_set_prev; [done|lia|]. intros s5 Hf5 Hr5.
      wp_step. eapply wp_set_dev; [done|lia|]. intros s6 Hf6 Hr6.
      wp_step. eapply wp_ld; [done|lia|]. cbn [next mkbuf]. rewrite fupd_ne by lia.
      assert (0 <= nx bhead < 11) as Hnh.
      { destruct Hring as (Hl & _ & _). destruct L as [|c L]; cbn in Hl; destruct Hl as (-> & _ & _); [lia|].
        assert (0 <= c < b) by (apply HL; in_list). lia. }
      wp_step. eapply wp_set_prev; [done|lia|]. intros s7 Hf7 Hr7.
      wp_step. eapply wp_set_next; [done|lia|]. intros s8 Hf8 Hr8.
      wp_step. split; [|lia]. split; [lia|]. split; [congruence|].
      eexists (b :: L), _, _, _. split; [exact Hr8|]. split.
      { destruct Hring as (Hl & Hnd & Hhd). apply ring_push; try done; [|lia].
        apply NoDup_cons. split; [rewrite HL; lia|done]. }
      split; [intros i; rewrite elem_of_cons, HL; lia|]. split.
      * intros i. unfold cupd. destruct (Z.eqb_spec i b) as [->|]; apply Hct.
      * intros i Hi. unfold cupd. destruct (Z.eqb_spec i b) as [->|]; [done|]. apply Hdev. lia.
    + wp_step. assert (b = 10) as -> by lia.
      unfold frame in Hf3. cbn in Hf3. injection Hf3 as Hl3 Hm3 Hd3 Hh3 Hw3.
      split; [|unfold frame; congruence]. split; [done|]. exists L, nx, pv, ct.
      do 3 (split; [done|]). rewrite Hm3, Hd3. split; try done.
      * intros i Hi. destruct (Hct i) as [Hcf Hcd].
        destruct (at_is_Some (bufs s) i) as [x Hx]; [lia|].
        assert (mkct s i = Cont (flags x) (dev x) (sector x) (data x)) as Em by (unfold mkct; by rewrite Hx).
        rewrite Em in Hcf, Hcd. destruct (Hbuf i x Hx) as (H0 & H2 & Hxl & Hxb).
        unfold buf_ok. rewrite Hcf, Hcd. cbn [cflags cdata]. do 2 (split; [done|]). left.
        by rewrite (Hdev i Hi).
      * intros i j Hi Hj _ Hdi. by rewrite Hdev in Hdi.
      * intros n Hn. split; [by eapply length_dsec|by apply sub_bytes].
Qed.

(** ** The contract of the block layer *)

Definition demo_s0 : st :=
  St false (replicate 11 (Buf 0 0 0 0 0 (replicate 512 0))) (replicate 512 0 ++ replicate 512 7) 2 [] [].
Definition after_binit (s : st) : st := match binit s with Done _ s' => s' | _ => s end.
Lemma binit_cache s : boot s ->
  cache (after_binit s) ∅ ∅ (dsec (memdisk s)) /\ disksize (after_binit s) = disksize s.
Proof.
  intros Hb. pose proof (binit_spec s Hb) as Hw. unfold wp in Hw. unfold after_binit.
  destruct (binit s); [|done..]. destruct Hw as [Hc Hf]. split; [done|].
  unfold frame in Hf. by injection Hf.
Qed.
Definition demo_s : st := after_binit demo_s0.
Lemma zeros_ok n x : 0 <= x < 256 -> bytes_ok (replicate n x).
Proof. intros Hx. by apply Forall_replicate. Qed.
Lemma demo_boot : boot demo_s0.
Proof.
  split.
  - reflexivity.
  - intros i x Hx. unfold at_ in Hx. destruct (0 <=? i); [|done].
    apply lookup_replicate_1 in Hx as [-> _]. cbn [flags data].
    split; [done|]. split; [done|]. split; [apply length_replicate|by apply zeros_ok].
  - cbn [memdisk disksize demo_s0]. by rewrite length_app, !length_replicate.
  - apply Forall_app. split; by apply zeros_ok.
  - cbn [disksize demo_s0]. lia.
Qed.
Lemma demo_cache : cache demo_s ∅ ∅ (dsec (memdisk demo_s0)) /\ disksize demo_s = 2.
Proof. exact (binit_cache demo_s0 demo_boot). Qed.

(** what bread does in every state of the cache.  On a sector
    nobody holds it returns a locked buffer that holds the sector's latest
    contents (a pending write included), leaving every other sector's
    contents, the disk and the dirty set alone; the returned buffer is the
    cached one or the least recently used idle one.  On a sector in use it
    sleeps on that buffer; with NBUF sectors in use or dirty it panics. *)
Theorem bread_correct s busy dirty view n :
  cache s busy dirty view -> 0 <= n < disksize s ->
  match busy !! n with
  | Some b => bread 1 n s = Block (ch_buf b) s
  | None =>
      (n ∈ dirty \/ size (dom busy ∪ dirty) < 10)%nat /\
        (exists b x s', bread 1 n s = Done b s' /\ cache s' (<[n := b]> busy) dirty view /\
           frame s' = frame s /\ ld b s' = Done x s' /\ data x = view n) \/
      (n ∉ dirty) /\ (10 <= size (dom busy ∪ dirty))%nat /\ bread 1 n s = Panic "bget: no buffers"
  end.
Proof.
  intros Hc Hn. destruct (busy !! n) as [b|] eqn:Hbn; [by eapply bread_busy|].
  destruct (decide (n ∈ dirty \/ size (dom busy ∪ dirty) < 10)%nat) as [Hav|Hno].
  - left. split; [done|]. pose proof (bread_spec s busy dirty view n Hc Hbn Hn Hav) as Hw.
    apply wp_done in Hw as (b & s' & Hrun & Hc' & Hf).
    destruct (cache_held s' _ _ _ n b Hc' (lookup_insert_eq _ _ _)) as (x & Hld & _ & _ & _ & Hx & _).
    by exists b, x, s'.
  - right. assert ((n ∉ dirty) /\ (10 <= size (dom busy ∪ dirty))%nat) as [Hnd Hsz].
    { split; [intros ?; apply Hno; by left|]. destruct (decide (size (dom busy ∪ dirty) < 10)%nat); [|lia].
      destruct Hno. by right. }
    split; [done|]. split; [done|]. by eapply bread_no_buffers.
Qed.

Lemma bread_correct_witness :
  exists b x s', bread 1 1 demo_s = Done b s' /\ ld b s' = Done x s' /\ data x = replicate 512 7.
Proof.
  destruct demo_cache as [Hc Hd].
  pose proof (bread_correct demo_s ∅ ∅ (dsec (memdisk demo_s0)) 1 Hc ltac:(rewrite Hd; lia)) as H.
  rewrite lookup_empty in H. destruct H as [(_ & b & x & s' & Hb & _ & _ & Hx & Hdx)|(_ & Hsz & _)].
  - exists b, x, s'. split; [exact Hb|]. split; [exact Hx|]. rewrite Hdx. vm_compute. reflexivity.
  - exfalso. rewrite dom_empty_L, union_empty_l_L, size_empty in Hsz. lia.
Defined.

(** a buffer changed by its holder, written by bwrite
    and released reaches the disk: the sector, and only it, now has the new
    contents on the disk and for every later reader, the store is one sector
    write in the disk's history, and waiters on the buffer are woken. *)
Theorem bwrite_brelse_durable s busy dirty view n b d :
  cache s busy dirty view -> busy !! n = Some b -> length d = 512%nat -> bytes_ok d ->
  exists s', (set_data b d ;; bwrite b ;; brelse b) s = Done tt s' /\
    cache s' (delete n busy) (dirty ∖ {[n]}) (vupd view n d) /\
    dsec (memdisk s') n = d /\
    (forall m, m <> n -> 0 <= m < disksize s -> dsec (memdisk s') m = dsec (memdisk s) m) /\
    hist s' = hist s ++ [(n, d)] /\ wakes s' = wakes s ++ [ch_buf b].
Proof.
  intros Hc Hbn Hd Hby.
  destruct (cache_held s busy dirty view n b Hc Hbn) as (x & _ & _ & _ & _ & _ & _ & _ & Hn & _).
  enough (wp (set_data b d ;; bwrite b ;; brelse b) (fun _ s' =>
    cache s' (delete n busy) (dirty ∖ {[n]}) (vupd view n d) /\ dsec (memdisk s') n = d /\
    (forall m, m <> n -> 0 <= m < disksize s -> dsec (memdisk s') m = dsec (memdisk s) m) /\
    hist s' = hist s ++ [(n, d)] /\ wakes s' = wakes s ++ [ch_buf b]) s) as Hw.
  { apply wp_done in Hw as ([] & s' & Hrun & H). by exists s'. }
  assert (Z.of_nat (length (memdisk s)) = 512 * disksize s) as Hdk.
  { destruct Hc as (_ & L & nx & pv & ct & _ & _ & _ & Hc). apply (cb_disk _ _ _ _ _ _ Hc). }
  wp_step. eapply wp_mono; [by eapply (set_data_spec s busy dirty view n b d)|]. cbn beta.
  intros _ s1 [Hc1 Hf1]. wp_step.
  eapply wp_mono; [by eapply (bwrite_spec s1 busy dirty)|]. cbn beta. intros _ s2 [Hc2 Hw2].
  unfold wrote in Hw2. rewrite vupd_eq in Hw2.
  unfold frame in Hf1, Hw2. injection Hf1 as Hl1 Hm1 Hd1 Hh1 Hk1.
  injection Hw2 as Hl2 Hm2 Hd2 Hh2 Hk2. rewrite Hm1 in Hm2. rewrite Hd1 in Hd2.
  assert (forall m, 0 <= m < disksize s -> dsec (memdisk s2) m = if decide (m = n) then d else dsec (memdisk s) m) as Hds.
  { intros m Hm. rewrite Hm2. by apply (dsec_blit _ (disksize s)). }
  eapply wp_mono; [eapply (brelse_spec s2 busy (dirty ∖ {[n]}) (vupd view n d) n b); [done|done|]|].
  { right. rewrite vupd_eq, Hds by done. by rewrite decide_True. }
  cbn beta. intros _ s3 [Hc3 Hf3]. unfold frame in Hf3. injection Hf3 as Hl3 Hm3 Hd3 Hh3 Hk3.
  split; [done|]. rewrite Hm3. split; [rewrite Hds by done; by rewrite decide_True|].
  split; [intros m Hm Hmr; rewrite Hds by done; by rewrite decide_False|].
  split; congruence.
Qed.

Lemma demo_read : exists b s, bread 1 0 demo_s = Done b s /\
  cache s (<[0 := b]> ∅) ∅ (dsec (memdisk demo_s0)).
Proof.
  destruct demo_cache as [Hc Hd].
  assert (0 <= 0 < disksize demo_s) as Hr by (rewrite Hd; lia).
  generalize dependent demo_s. intros s0 Hc Hd Hr.
  pose proof (bread_spec s0 ∅ ∅ (dsec (memdisk demo_s0)) 0 Hc (lookup_empty _) Hr) as Hw.
  apply wp_done in Hw as (b & s & Hrun & Hcs & _); [by exists b, s|].
  right. rewrite dom_empty_L, union_empty_l_L, size_empty. lia.
Qed.

Lemma bwrite_brelse_durable_witness :
  exists b s s', bread 1 0 demo_s = Done b s /\
    (set_data b (replicate 512 9) ;; bwrite b ;; brelse b) s = Done tt s' /\
    dsec (memdisk s') 0 = replicate 512 9.
Proof.
  destruct demo_read as (b & s & Hrun & Hcs).
  destruct (bwrite_brelse_durable s (<[0 := b]> ∅) ∅ (dsec (memdisk demo_s0)) 0 b (replicate 512 9) Hcs
    (lookup_insert_eq _ _ _) (length_replicate _ _) (zeros_ok 512 9 ltac:(lia)))
    as (s' & Hrun' & _ & Hds & _).
  exists b, s, s'. split; [exact Hrun|]. split; [exact Hrun'|exact Hds].
Defined.

End Bio.
