(* ===== verification/Log.v ===== *)
(** * The redo log (src/src/log.c)

    struct log over the block cache of Bio; the header block is read and
    written as the bytes of struct logheader.  The history of sector writes
    that Bio keeps is what crash safety is stated over: a crash leaves the
    disk some prefix of the writes produced. *)

From S2P Require Import Prelude.
From S2P Require Import Bytes.
From S2P Require Import Bio.

Module Log.

Definition LOGSIZE : Z := 10.
Definition ROOTDEV : Z := 1.
(** sizeof(struct logheader) *)
Definition sizeof_logheader : Z := 4 + 4 * LOGSIZE.

Record st := St {
  bio : Bio.st;
  lock : bool;
  start : Z;
  size : Z;
  busy : Z;            (* a transaction is active *)
  dev : Z;
  lh_n : Z;            (* lh.n *)
  lh_sector : list Z;  (* lh.sector *)
  wakes : list chan;
}.

Definition bio_lens : lens st Bio.st :=
  Lens bio (fun b s => St b (lock s) (start s) (size s) (busy s) (dev s) (lh_n s) (lh_sector s) (wakes s)).
Definition log_lock : lens st bool :=
  Lens lock (fun b s => St (bio s) b (start s) (size s) (busy s) (dev s) (lh_n s) (lh_sector s) (wakes s)).
Definition set_geometry (st0 sz d : Z) : M st unit :=
  modify (fun s => St (bio s) (lock s) st0 sz (busy s) d (lh_n s) (lh_sector s) (wakes s)).
Definition set_busy (b : Z) : M st unit :=
  modify (fun s => St (bio s) (lock s) (start s) (size s) b (dev s) (lh_n s) (lh_sector s) (wakes s)).
Definition set_n (n : Z) : M st unit :=
  modify (fun s => St (bio s) (lock s) (start s) (size s) (busy s) (dev s) n (lh_sector s) (wakes s)).
Definition ch_log : chan := Chan "log" 0.
Definition wakeup (c : chan) : M st unit :=
  modify (fun s => St (bio s) (lock s) (start s) (size s) (busy s) (dev s) (lh_n s) (lh_sector s) (wakes s ++ [c])).
(** log.lh.sector[i] *)
Definition ld_sector (i : Z) : M st Z := deref (fun s => at_ (lh_sector s) i).
Definition st_sector (i v : Z) : M st unit :=
  ld_sector i ;;
  modify (fun s => St (bio s) (lock s) (start s) (size s) (busy s) (dev s) (lh_n s)
                      (put (lh_sector s) i v) (wakes s)).

Definition bread (d n : Z) : M st Z := zoom bio_lens (Bio.bread d (u32 n)).
Definition bwrite (b : Z) : M st unit := zoom bio_lens (Bio.bwrite b).
Definition brelse (b : Z) : M st unit := zoom bio_lens (Bio.brelse b).
Definition bdata (b : Z) : M st (list Z) := zoom bio_lens (x ← Bio.ld b; mret (Bio.data x)).
Definition set_bdata (b : Z) (d : list Z) : M st unit := zoom bio_lens (Bio.set_data b d).
(** memmove(a->data, b->data, BSIZE) *)
Definition copy_block (a b : Z) : M st unit := d ← bdata b; set_bdata a d.

(** struct superblock and readsb (fs.c) *)
Record superblock := Sb { sb_size : Z; sb_nblocks : Z; sb_ninodes : Z; sb_nlog : Z }.
Definition readsb (d : Z) : M st superblock :=
  bp ← bread d 1;
  x ← bdata bp;
  size ← deref (fun _ => ld32 x 0);
  nblocks ← deref (fun _ => ld32 x 4);
  ninodes ← deref (fun _ => ld32 x 8);
  nlog ← deref (fun _ => ld32 x 12);
  brelse bp ;;
  mret (Sb size nblocks ninodes nlog).

Definition install_one (tail : Z) : M st unit :=
  s ← get;
  lbuf ← bread (dev s) (start s + tail + 1);
  sec ← ld_sector tail;
  dbuf ← bread (dev s) sec;
  copy_block dbuf lbuf ;;
  bwrite dbuf ;;
  brelse lbuf ;;
  brelse dbuf.
Definition install_body (tail : Z) : M st (Z + unit) :=
  n ← gets lh_n;
  if tail <? n then install_one tail ;; mret (inl (tail + 1)) else mret (inr tt).
Definition install_trans : M st unit :=
  n ← gets lh_n;
  loop (S (Z.to_nat n)) install_body 0.

Definition read_head_body (x : list Z) (i : Z) : M st (Z + unit) :=
  n ← gets lh_n;
  if i <? n then
    v ← deref (fun _ => ld32 x (4 + 4 * i));
    st_sector i (s32 v) ;;
    mret (inl (i + 1))
  else mret (inr tt).
Definition read_head : M st unit :=
  s ← get;
  buf ← bread (dev s) (start s);
  x ← bdata buf;
  n ← deref (fun _ => ld32 x 0);
  set_n (s32 n) ;;
  loop (S (Z.to_nat (s32 n))) (read_head_body x) 0 ;;
  brelse buf.

Definition write_head_body (i_x : Z * list Z) : M st (Z * list Z + list Z) :=
  let '(i, x) := i_x in
  n ← gets lh_n;
  if i <? n then
    v ← ld_sector i;
    x' ← deref (fun _ => st32 x (4 + 4 * i) v);
    mret (inl (i + 1, x'))
  else mret (inr x).
Definition write_head : M st unit :=
  s ← get;
  buf ← bread (dev s) (start s);
  x ← bdata buf;
  x ← deref (fun _ => st32 x 0 (lh_n s));
  x ← loop (S (Z.to_nat (lh_n s))) write_head_body (0, x);
  set_bdata buf x ;;
  bwrite buf ;;
  brelse buf.

Definition recover_from_log : M st unit :=
  read_head ;;
  install_trans ;;
  set_n 0 ;;
  write_head.

Definition initlog : M st unit :=
  panic_if (Bio.BSIZE <=? sizeof_logheader) "initlog: too big logheader" ;;
  modify (lset log_lock false) ;;
  sb ← readsb ROOTDEV;
  set_geometry (s32 (sb_size sb - sb_nlog sb)) (s32 (sb_nlog sb)) ROOTDEV ;;
  recover_from_log.

Definition begin_trans : M st unit :=
  acquire log_lock ;;
  b ← gets busy;
  if negb (b =? 0) then sleep_on log_lock ch_log
  else set_busy 1 ;; release log_lock.

Definition commit_trans : M st unit :=
  n ← gets lh_n;
  when (0 <? n) (
    write_head ;;     (* write header to disk: the real commit *)
    install_trans ;;  (* now install writes to home locations *)
    set_n 0 ;;
    write_head) ;;    (* erase the transaction from the log *)
  acquire log_lock ;;
  set_busy 0 ;;
  wakeup ch_log ;;
  release log_lock.

(** the scan for a block already in the log *)
Definition absorb_body (sec i : Z) : M st (Z + Z) :=
  n ← gets lh_n;
  if i <? n then
    v ← ld_sector i;
    if u32 v =? sec then mret (inr i) else mret (inl (i + 1))
  else mret (inr i).
Definition log_write (b : Z) : M st unit :=
  s ← get;
  panic_if ((LOGSIZE <=? lh_n s) || (size s - 1 <=? lh_n s)) "too big a transaction" ;;
  panic_if (busy s =? 0) "write outside of trans" ;;
  x ← zoom bio_lens (Bio.ld b);
  i ← loop (S (Z.to_nat (lh_n s))) (absorb_body (Bio.sector x)) 0;
  st_sector i (s32 (Bio.sector x)) ;;
  lbuf ← bread (Bio.dev x) (start s + i + 1);
  copy_block lbuf b ;;
  bwrite lbuf ;;
  brelse lbuf ;;
  when (i =? lh_n s) (set_n (lh_n s + 1)) ;;
  x ← zoom bio_lens (Bio.ld b);
  zoom bio_lens (Bio.set_flags b (Z.lor (Bio.flags x) Bio.B_DIRTY)).

(** ** Buffer operations seen from the log *)

Definition wb (s : st) (b : Bio.st) : st := lset bio_lens b s.
Definition disk (s : st) : list Z := Bio.memdisk (bio s).
Definition hist (s : st) : list (Z * list Z) := Bio.hist (bio s).
Definition avail (bz : gmap Z Z) (dirty : gset Z) (n : Z) : Prop :=
  n ∈ dirty \/ (base.size (dom bz ∪ dirty) < 10)%nat.

Lemma wb_bio s b : bio (wb s b) = b.
Proof. done. Qed.
Lemma wb_wb s b b' : wb (wb s b) b' = wb s b'.
Proof. done. Qed.

(** the disk after a write of sector [n] *)
Definition wr (D : list Z) (w : Z * list Z) : list Z := blit D (Z.to_nat (w.1 * 512)) w.2.

Section buffers.
  Context (s : st) (bz : gmap Z Z) (dirty : gset Z) (view : Z -> list Z).
  Hypothesis Hc : Bio.cache (bio s) bz dirty view.

Lemma cache_disk : Z.of_nat (length (disk s)) = 512 * Bio.disksize (bio s) /\
    Bio.disksize (bio s) <= 2 ^ 23 /\ bytes_ok (disk s).
  Proof using Hc.
    destruct Hc as (_ & L & nx & pv & ct & _ & _ & _ & H).
    split; [apply (Bio.cb_disk _ _ _ _ _ _ H)|]. split; [apply (Bio.cb_size _ _ _ _ _ _ H)|].
    apply (Bio.cb_bytes _ _ _ _ _ _ H).
  Qed.
Lemma cache_view n : 0 <= n < Bio.disksize (bio s) -> length (view n) = 512%nat /\ bytes_ok (view n).
  Proof using Hc.
    destruct Hc as (_ & L & nx & pv & ct & _ & _ & _ & H). apply (Bio.cb_view _ _ _ _ _ _ H).
  Qed.
Lemma cache_clean n : 0 <= n < Bio.disksize (bio s) -> (n ∉ dirty) -> bz !! n = None ->
    view n = Bio.dsec (disk s) n.
  Proof using Hc.
    destruct Hc as (_ & L & nx & pv & ct & _ & _ & _ & H). apply (Bio.cb_clean _ _ _ _ _ _ H).
  Qed.

Lemma wp_bread n Q :
    bz !! n = None -> 0 <= n < Bio.disksize (bio s) -> avail bz dirty n ->
    (forall b B, Bio.cache B (<[n := b]> bz) dirty view -> Bio.frame B = Bio.frame (bio s) -> Q b (wb s B)) ->
    wp (bread 1 n) Q s.
  Proof using Hc.
    intros Hb Hn Hav HQ. destruct cache_disk as (_ & Hsz & _).
    unfold bread. assert (u32 n = n) as -> by (apply Z.mod_small; lia). wp_step.
    eapply wp_mono; [by apply (Bio.bread_spec _ bz dirty view n)|]. cbn beta.
    intros b B [HB Hf]. by apply HQ.
  Qed.

  Context (n b : Z).
  Hypothesis Hb : bz !! n = Some b.

Lemma wp_buf_ld Q :
    (forall x, Bio.ld b (bio s) = Done x (bio s) -> Bio.dev x = 1 -> Bio.sector x = n -> Bio.data x = view n ->
       0 <= n < Bio.disksize (bio s) -> Q x s) ->
    wp (zoom bio_lens (Bio.ld b)) Q s.
  Proof using Hc Hb.
    intros HQ. destruct (Bio.cache_held _ _ _ _ _ _ Hc Hb) as (x & Hld & _ & Hd & Hs & Hx & _ & _ & Hn & _).
    wp_step. cbn [lget bio_lens]. eapply wp_eq; [exact Hld|].
    assert (lset bio_lens (bio s) s = s) as -> by (by destruct s). by apply HQ.
  Qed.
Lemma wp_bdata Q :
    (0 <= n < Bio.disksize (bio s) -> Q (view n) s) -> wp (bdata b) Q s.
  Proof using Hc Hb.
    intros HQ. destruct (Bio.cache_held _ _ _ _ _ _ Hc Hb) as (x & Hld & _ & _ & _ & Hx & _ & _ & Hn & _).
    unfold bdata. wp_step. cbn [lget bio_lens]. wp_step. eapply wp_eq; [exact Hld|]. wp_step.
    rewrite Hx. assert (lset bio_lens (bio s) s = s) as -> by (by destruct s). by apply HQ.
  Qed.
Lemma wp_set_bdata d Q :
    length d = 512%nat -> bytes_ok d ->
    (forall B, Bio.cache B bz dirty (Bio.vupd view n d) -> Bio.frame B = Bio.frame (bio s) -> Q tt (wb s B)) ->
    wp (set_bdata b d) Q s.
  Proof using Hc Hb.
    intros Hd Hby HQ. unfold set_bdata. wp_step.
    eapply wp_mono; [by apply (Bio.set_data_spec _ bz dirty view n b d)|]. cbn beta.
    intros [] B [HB Hf]. by apply HQ.
  Qed.
Lemma wp_bwrite Q :
    (forall B, Bio.cache B bz (dirty ∖ {[n]}) view -> Bio.wrote (bio s) B n (view n) -> Q tt (wb s B)) ->
    wp (bwrite b) Q s.
  Proof using Hc Hb.
    intros HQ. unfold bwrite. wp_step.
    eapply wp_mono; [by apply (Bio.bwrite_spec _ bz dirty view n b)|]. cbn beta.
    intros [] B [HB Hf]. by apply HQ.
  Qed.
Lemma wp_brelse Q :
    n ∈ dirty \/ view n = Bio.dsec (disk s) n ->
    (forall B, Bio.cache B (delete n bz) dirty view -> Bio.memdisk B = disk s -> Bio.hist B = hist s ->
       Bio.disksize B = Bio.disksize (bio s) -> Q tt (wb s B)) ->
    wp (brelse b) Q s.
  Proof using Hc Hb.
    intros Hcl HQ. unfold brelse. wp_step.
    eapply wp_mono; [by apply (Bio.brelse_spec _ bz dirty view n b)|]. cbn beta.
    intros [] B [HB Hf]. unfold Bio.frame in Hf. injection Hf as _ Hm Hd Hh _. by apply HQ.
  Qed.
End buffers.

Lemma frame_facts B B' : Bio.frame B = Bio.frame B' ->
  Bio.memdisk B = Bio.memdisk B' /\ Bio.hist B = Bio.hist B' /\ Bio.disksize B = Bio.disksize B'.
Proof. unfold Bio.frame. by intros [= _ -> -> -> _]. Qed.
Lemma wrote_facts B B' n d : Bio.wrote B B' n d ->
  Bio.memdisk B' = wr (Bio.memdisk B) (n, d) /\ Bio.hist B' = Bio.hist B ++ [(n, d)] /\
  Bio.disksize B' = Bio.disksize B.
Proof. unfold Bio.wrote, Bio.frame, wr. by intros [= _ -> -> -> _]. Qed.

(** ** The header block *)

Definition is_header (x : list Z) (secs : list Z) : Prop :=
  length x = 512%nat /\ bytes_ok x /\ ld32 x 0 = Some (Z.of_nat (length secs)) /\
  forall i v, secs !! i = Some v -> ld32 x (4 + 4 * Z.of_nat i) = Some v.

Record geom (s : st) : Prop := {
  gm_dev : dev s = 1;
  gm_lock : lock s = false;
  gm_start : 0 < start s;
  gm_size : 1 <= size s;
  gm_end : start s + size s <= Bio.disksize (bio s);
  gm_sectors : length (lh_sector s) = 10%nat;
}.
(** lh holds the list [secs] *)
Record lh_is (s : st) (secs : list Z) : Prop := {
  lh_count : lh_n s = Z.of_nat (length secs);
  lh_len : (length secs <= 10)%nat;
  lh_at : forall i v, secs !! i = Some v -> lh_sector s !! i = Some v;
  lh_range : forall v, v ∈ secs -> 0 <= v < start s;
}.

Lemma geom_wb s B : Bio.disksize B = Bio.disksize (bio s) -> geom s -> geom (wb s B).
Proof. intros Hd [? ? ? ? ? ?]. split; try done. cbn. by rewrite Hd. Qed.
Lemma lh_is_wb s B secs : lh_is s secs -> lh_is (wb s B) secs.
Proof. intros [? ? ? ?]. by split. Qed.

Lemma ld32_st32_other l o o' v : 0 <= o /\ o + 4 <= Z.of_nat (length l) ->
  o' + 4 <= o \/ o + 4 <= o' -> ld32 (blit l (Z.to_nat o) (le 4 v)) o' = ld32 l o'.
Proof. intros Ho Hd. unfold ld32. by apply ldn_stn_other. Qed.

(** write_head's loop fills in the sector numbers *)
Lemma write_head_loop s secs x :
  lh_is s secs -> geom s -> Bio.disksize (bio s) <= 2 ^ 23 ->
  length x = 512%nat -> bytes_ok x -> ld32 x 0 = Some (Z.of_nat (length secs)) ->
  wp (loop (S (Z.to_nat (lh_n s))) write_head_body (0, x))
     (fun x' s' => s' = s /\ is_header x' secs) s.
Proof.
  intros [Hn Hl Hat Hrg] [_ _ _ Hsize Hend _] Hsz Hx Hb H0.
  apply wp_loop with (mu := fun v => (length secs - Z.to_nat v.1)%nat)
    (Inv := fun v s' => s' = s /\ 0 <= v.1 <= Z.of_nat (length secs) /\ length v.2 = 512%nat /\
       bytes_ok v.2 /\ ld32 v.2 0 = Some (Z.of_nat (length secs)) /\
       forall i w, secs !! i = Some w -> Z.of_nat i < v.1 -> ld32 v.2 (4 + 4 * Z.of_nat i) = Some w).
  - cbn. split; [done|]. split; [lia|]. do 3 (split; [done|]). lia.
  - cbn. lia.
  - intros [i y] s' (-> & Hi & Hy & Hyb & Hy0 & Hyi). cbn [fst snd] in *. unfold write_head_body.
    wp_step. wp_step. rewrite Hn. destruct (Z.ltb_spec i (Z.of_nat (length secs))) as [Hlt|Hge].
    + destruct (lookup_lt_is_Some_2 secs (Z.to_nat i) ltac:(lia)) as [w Hw].
      assert (0 <= w < 2 ^ 32) as Hwr.
      { pose proof (Hrg w (list_elem_of_lookup_2 _ _ _ Hw)). lia. }
      wp_step. unfold ld_sector. eapply wp_deref.
      { unfold at_. rewrite (proj2 (Z.leb_le 0 i)) by lia. by apply Hat. }
      wp_step. eapply wp_deref.
      { unfold st32. apply (stn_in 4 y). rewrite Hy. change (Z.of_nat 4) with 4. lia. }
      wp_step. cbn [fst snd].
      assert (0 <= 4 + 4 * i /\ 4 + 4 * i + Z.of_nat 4 <= Z.of_nat (length y)) as Hin
        by (rewrite Hy; change (Z.of_nat 4) with 4; lia).
      split; [|lia]. split; [done|]. split; [lia|].
      split; [by rewrite length_stn|]. split; [by apply blit_bytes; [|apply le_bytes]|].
      split; [rewrite ld32_st32_other by lia; done|].
      intros j v Hj Hlt'. destruct (decide (Z.of_nat j = i)) as [<-|].
      * rewrite Nat2Z.id in Hw. rewrite Hj in Hw. injection Hw as ->.
        unfold ld32. rewrite ldn_stn by done. f_equal. change (2 ^ (8 * Z.of_nat 4)) with (2 ^ 32).
        by apply Z.mod_small.
      * rewrite ld32_st32_other by lia. apply Hyi; [done|lia].
    + wp_step. split; [done|]. split; [done|]. split; [done|]. split; [done|].
      intros j v Hj. apply Hyi; [done|]. apply lookup_lt_Some in Hj. lia.
Qed.

(** write_head stores the list as the header block, with one disk write. *)
Lemma write_head_spec s dirty view secs Q :
  Bio.cache (bio s) ∅ dirty view -> geom s -> lh_is s secs ->
  (start s ∉ dirty) -> (base.size dirty < 10)%nat ->
  (forall B x, is_header x secs -> Bio.cache B ∅ dirty (Bio.vupd view (start s) x) ->
     Bio.memdisk B = wr (disk s) (start s, x) -> Bio.hist B = hist s ++ [(start s, x)] ->
     Bio.disksize B = Bio.disksize (bio s) -> Q tt (wb s B)) ->
  wp write_head Q s.
Proof.
  intros Hc Hg Hlh Hnd Hsz HQ. destruct (cache_disk _ _ _ _ Hc) as (Hdk & Hszb & Hdb).
  pose proof Hg as [Hdev _ Hst Hsize Hend Hsec]. unfold write_head.
  wp_step. wp_step. rewrite Hdev. wp_step.
  eapply (wp_bread s ∅ dirty view Hc); [apply lookup_empty|lia|right; by rewrite dom_empty_L, union_empty_l_L|].
  intros b B HB Hf. destruct (frame_facts _ _ Hf) as (Hm1 & Hh1 & Hd1).
  assert ((<[start s := b]> ∅ : gmap Z Z) !! start s = Some b) as Hbz by apply lookup_insert_eq.
  destruct (cache_view s _ _ _ Hc (start s) ltac:(lia)) as [Hvl Hvb].
  wp_step. eapply (wp_bdata (wb s B) _ _ _ HB _ _ Hbz). intros _.
  wp_step. eapply wp_deref.
  { unfold st32. apply (stn_in 4 (view (start s)) 0). rewrite Hvl. change (Z.of_nat 4) with 4. lia. }
  assert (0 <= 0 /\ 0 + Z.of_nat 4 <= Z.of_nat (length (view (start s)))) as Hin
    by (rewrite Hvl; change (Z.of_nat 4) with 4; lia).
  wp_step. eapply wp_mono; [apply (write_head_loop (wb s B) secs)|].
  - by apply lh_is_wb.
  - by apply geom_wb.
  - rewrite wb_bio, Hd1. lia.
  - by rewrite length_stn.
  - apply blit_bytes; [done|apply le_bytes].
  - unfold ld32. rewrite ldn_stn by done. rewrite (lh_count _ _ Hlh). f_equal. apply Z.mod_small.
    pose proof (lh_len _ _ Hlh). change (2 ^ (8 * Z.of_nat 4)) with (2 ^ 32). lia.
  - cbn beta. intros x s' [-> Hx]. pose proof Hx as (Hxl & Hxb & _).
    wp_step. eapply (wp_set_bdata (wb s B) _ _ _ HB _ _ Hbz); [done|done|].
    intros B2 HB2 Hf2. rewrite wb_wb. destruct (frame_facts _ _ Hf2) as (Hm2 & Hh2 & Hd2).
    wp_step. eapply (wp_bwrite (wb s B2) _ _ _ HB2 _ _ Hbz). intros B3 HB3 Hw3. rewrite wb_wb.
    destruct (wrote_facts _ _ _ _ Hw3) as (Hm3 & Hh3 & Hd3).
    rewrite Bio.vupd_eq in Hm3, Hh3. rewrite !wb_bio in *.
    assert (dirty ∖ {[start s]} = dirty) as Ed by set_solver. rewrite Ed in HB3.
    assert (Bio.memdisk B3 = wr (disk s) (start s, x)) as Hm by (rewrite Hm3, Hm2, Hm1; done).
    eapply (wp_brelse (wb s B3) _ _ _ HB3 _ _ Hbz).
    + right. rewrite Bio.vupd_eq. unfold disk at 1. rewrite wb_bio, Hm. unfold wr. cbn [fst snd].
      rewrite (Bio.dsec_blit _ (Bio.disksize (bio s))) by (done || lia). by rewrite decide_True.
    + intros B4 HB4 Hm4 Hh4 Hd4. rewrite wb_wb. unfold disk, hist in Hm4, Hh4. rewrite !wb_bio in *.
      rewrite delete_insert_id in HB4 by apply lookup_empty.
      apply (HQ B4 x); [done|done|congruence| |congruence]. rewrite Hh4, Hh3, Hh2, Hh1. done.
Qed.


(** ** Installing the logged blocks *)

Definition apply_writes (W : list (Z * list Z)) (D : list Z) : list Z := fold_left wr W D.
Definition vapply (W : list (Z * list Z)) (v : Z -> list Z) : Z -> list Z :=
  fold_left (fun v w => Bio.vupd v w.1 w.2) W v.
(** the home writes of a log with sectors [secs] whose copies are in [v] *)
Definition inst_writes (v : Z -> list Z) (st0 : Z) (secs : list Z) : list (Z * list Z) :=
  imap (fun i x => (x, v (st0 + 1 + Z.of_nat i))) secs.

Lemma vapply_snoc W w v : vapply (W ++ [w]) v = Bio.vupd (vapply W v) w.1 w.2.
Proof. unfold vapply. by rewrite fold_left_app. Qed.
Lemma apply_writes_snoc W w D : apply_writes (W ++ [w]) D = wr (apply_writes W D) w.
Proof. unfold apply_writes. by rewrite fold_left_app. Qed.

(** The last write to a sector decides what it holds. *)
Lemma vapply_cases W m :
  ((m ∉ W.*1) /\ forall v', vapply W v' m = v' m) \/
  ((m ∈ W.*1) /\ exists d, ((m, d) ∈ W) /\ forall v', vapply W v' m = d).
Proof.
  induction W as [|w W IH] using rev_ind.
  - left. split; [apply not_elem_of_nil|done].
  - rewrite fmap_app. change ([w].*1) with [w.1]. destruct (decide (m = w.1)) as [->|Hne].
    + right. split; [in_list|]. exists w.2. split; [destruct w; in_list|].
      intros v'. rewrite vapply_snoc. apply Bio.vupd_eq.
    + destruct IH as [[Hn Hv]|[Hn (d & Hd & Hv)]]; [left|right].
      * split; [intros Hin; in_list|]. intros v'. rewrite vapply_snoc, Bio.vupd_ne by done. apply Hv.
      * split; [in_list|]. exists d. split; [in_list|].
        intros v'. rewrite vapply_snoc, Bio.vupd_ne by done. apply Hv.
Qed.
Lemma vapply_other W v m : (m ∉ W.*1) -> vapply W v m = v m.
Proof. intros H. destruct (vapply_cases W m) as [[_ ->]|[? _]]; done. Qed.
Lemma vapply_ext W v v' m : v m = v' m -> vapply W v m = vapply W v' m.
Proof. intros E. destruct (vapply_cases W m) as [[_ H]|[_ (d & _ & H)]]; by rewrite !H. Qed.

Lemma inst_fst v st0 secs : (inst_writes v st0 secs).*1 = secs.
Proof.
  unfold inst_writes. rewrite fmap_imap. rewrite <-(list_fmap_id secs) at 2.
  rewrite <-imap_const. by apply imap_ext.
Qed.
Lemma length_inst v st0 secs : length (inst_writes v st0 secs) = length secs.
Proof. apply length_imap. Qed.
Lemma inst_lookup v st0 secs i x :
  secs !! i = Some x -> inst_writes v st0 secs !! i = Some (x, v (st0 + 1 + Z.of_nat i)).
Proof. intros H. unfold inst_writes. by rewrite list_lookup_imap, H. Qed.
Lemma inst_ext v v' st0 secs : (forall i, 0 <= i < Z.of_nat (length secs) -> v (st0 + 1 + i) = v' (st0 + 1 + i)) ->
  inst_writes v st0 secs = inst_writes v' st0 secs.
Proof.
  intros H. apply list_eq. intros i. unfold inst_writes. rewrite !list_lookup_imap.
  destruct (secs !! i) as [x|] eqn:E; [|done]. cbn. rewrite H; [done|].
  apply lookup_lt_Some in E. lia.
Qed.

(** writes of whole sectors inside a disk of [sz] sectors *)
Definition good_writes (sz : Z) (W : list (Z * list Z)) : Prop :=
  Forall (fun w => 0 <= w.1 < sz /\ length w.2 = 512%nat) W.

Lemma apply_writes_len W D sz :
  Z.of_nat (length D) = 512 * sz -> good_writes sz W -> length (apply_writes W D) = length D.
Proof.
  intros HD. induction W as [|w W IH] using rev_ind; intros HW; [done|].
  apply Forall_app in HW as [HW Hw]. apply Forall_singleton in Hw as [Hw1 Hw2].
  rewrite apply_writes_snoc. unfold wr. rewrite length_blit; [by apply IH|].
  rewrite (IH HW). lia.
Qed.
Lemma dsec_apply W D sz m :
  Z.of_nat (length D) = 512 * sz -> good_writes sz W -> 0 <= m < sz ->
  Bio.dsec (apply_writes W D) m = vapply W (Bio.dsec D) m.
Proof.
  intros HD. induction W as [|w W IH] using rev_ind; intros HW Hm; [done|].
  apply Forall_app in HW as [HW Hw]. apply Forall_singleton in Hw as [Hw1 Hw2].
  rewrite apply_writes_snoc, vapply_snoc. unfold wr.
  rewrite (Bio.dsec_blit _ sz); [|by rewrite (apply_writes_len _ _ sz)|done|done|done].
  unfold Bio.vupd. case_decide; destruct (Z.eqb_spec m w.1); try done. by apply IH.
Qed.

(** One turn of install_trans copies a log block to its home. *)
Lemma install_one_spec s dirty view tail sec Q :
  Bio.cache (bio s) ∅ dirty view -> geom s -> lh_sector s !! tail = Some sec ->
  0 <= sec < start s -> Z.of_nat tail < size s - 1 ->
  (base.size dirty < 10)%nat -> sec ∈ dirty \/ dirty = ∅ ->
  (start s + Z.of_nat tail + 1 ∉ dirty) ->
  let c := view (start s + 1 + Z.of_nat tail) in
  (forall B, Bio.cache B ∅ (dirty ∖ {[sec]}) (Bio.vupd view sec c) ->
     Bio.memdisk B = wr (disk s) (sec, c) -> Bio.hist B = hist s ++ [(sec, c)] ->
     Bio.disksize B = Bio.disksize (bio s) -> Q tt (wb s B)) ->
  wp (install_one (Z.of_nat tail)) Q s.
Proof.
  intros Hc Hg Hat Hsr Htl Hds Hav Hlnd c HQ.
  pose proof Hg as [Hdev _ Hst Hsize Hend Hsec].
  destruct (cache_disk _ _ _ _ Hc) as (Hdk & Hszb & Hdb).
  set (lb := start s + Z.of_nat tail + 1) in *.
  assert (c = view lb) as Ec by (unfold c, lb; f_equal; lia). clearbody c.
  destruct (cache_view s _ _ _ Hc lb ltac:(unfold lb; lia)) as [Hvl Hvb]. rewrite <-Ec in Hvl, Hvb.
  unfold install_one. wp_step. wp_step. rewrite Hdev. wp_step.
  eapply (wp_bread s ∅ dirty view Hc); [apply lookup_empty|unfold lb; lia|right; by rewrite dom_empty_L, union_empty_l_L|].
  intros b B HB Hf. destruct (frame_facts _ _ Hf) as (Hm1 & Hh1 & Hd1).
  assert ((<[lb := b]> ∅ : gmap Z Z) !! lb = Some b) as Hlb by apply lookup_insert_eq.
  assert (lb <> sec) as Hne by (unfold lb; lia).
  wp_step. unfold ld_sector. eapply wp_deref.
  { unfold at_. rewrite (proj2 (Z.leb_le 0 (Z.of_nat tail))) by lia. by rewrite Nat2Z.id. }
  wp_step. eapply (wp_bread (wb s B) _ dirty view HB); rewrite ?wb_bio.
  { by rewrite lookup_insert_ne. }
  { rewrite Hd1. lia. }
  { destruct Hav as [Hav| ->]; [by left|right].
    rewrite dom_insert_L, dom_empty_L, union_empty_r_L, union_empty_r_L, size_singleton. lia. }
  intros b2 B2 HB2 Hf2. rewrite wb_wb. destruct (frame_facts _ _ Hf2) as (Hm2 & Hh2 & Hd2).
  assert ((<[sec := b2]> (<[lb := b]> ∅) : gmap Z Z) !! sec = Some b2) as Hb2 by apply lookup_insert_eq.
  assert ((<[sec := b2]> (<[lb := b]> ∅) : gmap Z Z) !! lb = Some b) as Hlb2 by (by rewrite lookup_insert_ne).
  unfold copy_block. wp_step. wp_step.
  eapply (wp_bdata (wb s B2) _ _ _ HB2 _ _ Hlb2). intros _. rewrite <-Ec.
  eapply (wp_set_bdata (wb s B2) _ _ _ HB2 _ _ Hb2); [done|done|].
  intros B3 HB3 Hf3. rewrite wb_wb. destruct (frame_facts _ _ Hf3) as (Hm3 & Hh3 & Hd3).
  wp_step. eapply (wp_bwrite (wb s B3) _ _ _ HB3 _ _ Hb2). intros B4 HB4 Hw4. rewrite wb_wb.
  destruct (wrote_facts _ _ _ _ Hw4) as (Hm4 & Hh4 & Hd4). rewrite !wb_bio, Bio.vupd_eq in *.
  assert (Bio.memdisk B4 = wr (disk s) (sec, c)) as Hm40 by (rewrite Hm4, Hm3, Hm2, Hm1; done).
  assert (Bio.dsec (Bio.memdisk B4) lb = c /\ Bio.dsec (Bio.memdisk B4) sec = c) as [Hdl Hdsec].
  { rewrite Hm40. unfold wr. cbn [fst snd].
    rewrite !(Bio.dsec_blit _ (Bio.disksize (bio s))) by (done || (unfold lb; lia)).
    rewrite decide_False, decide_True by done. split; [|done].
    rewrite Ec. symmetry. apply (cache_clean s _ _ _ Hc); [unfold lb; lia|done|apply lookup_empty]. }
  wp_step. eapply (wp_brelse (wb s B4) _ _ _ HB4 _ _ Hlb2).
  { right. rewrite Bio.vupd_ne by done. unfold disk. rewrite wb_bio, Hdl. done. }
  intros B5 HB5 Hm5 Hh5 Hd5. rewrite wb_wb. unfold disk, hist in Hm5, Hh5. rewrite !wb_bio in *.
  eapply (wp_brelse (wb s B5) _ _ _ HB5 sec b2).
  { rewrite lookup_delete_ne by done. done. }
  { right. rewrite Bio.vupd_eq. unfold disk. by rewrite wb_bio, Hm5, Hdsec. }
  intros B6 HB6 Hm6 Hh6 Hd6. rewrite wb_wb. unfold disk, hist in Hm6, Hh6. rewrite !wb_bio in *.
  apply HQ.
  - assert (delete sec (delete lb (<[sec := b2]> (<[lb := b]> ∅))) = (∅ : gmap Z Z)) as <-; [|done].
    apply map_eq. intros i. rewrite lookup_empty. destruct (decide (i = sec)) as [->|]; [apply lookup_delete_eq|].
    rewrite lookup_delete_ne by done. destruct (decide (i = lb)) as [->|]; [apply lookup_delete_eq|].
    by rewrite lookup_delete_ne, !lookup_insert_ne by done.
  - by rewrite Hm6, Hm5.
  - rewrite Hh6, Hh5, Hh4, Hh3, Hh2, Hh1. done.
  - congruence.
Qed.

Lemma install_trans_spec s dirty view secs Q :
  Bio.cache (bio s) ∅ dirty view -> geom s -> lh_is s secs ->
  Z.of_nat (length secs) <= size s - 1 -> (base.size dirty < 10)%nat ->
  (dirty = list_to_set secs /\ NoDup secs) \/ dirty = ∅ ->
  let W := inst_writes view (start s) secs in
  (forall B, Bio.cache B ∅ ∅ (vapply W view) -> Bio.memdisk B = apply_writes W (disk s) ->
     Bio.hist B = hist s ++ W -> Bio.disksize B = Bio.disksize (bio s) -> Q tt (wb s B)) ->
  wp install_trans Q s.
Proof.
  intros Hc Hg Hlh Hlen Hds Hdir W HQ. pose proof (lh_count _ _ Hlh) as Hn.
  assert (length W = length secs) as HWl by apply length_inst.
  assert (forall x, x ∈ dirty -> x ∈ secs) as Hdsub.
  { destruct Hdir as [[-> _]| ->]; [intros x Hx; by apply elem_of_list_to_set in Hx|set_solver]. }
  unfold install_trans. wp_step. wp_step.
  apply wp_loop with (mu := fun t => (length secs - Z.to_nat t)%nat)
    (Inv := fun t s' => 0 <= t <= Z.of_nat (length secs) /\ exists B, s' = wb s B /\
       Bio.cache B ∅ (dirty ∖ list_to_set (take (Z.to_nat t) secs)) (vapply (take (Z.to_nat t) W) view) /\
       Bio.memdisk B = apply_writes (take (Z.to_nat t) W) (disk s) /\
       Bio.hist B = hist s ++ take (Z.to_nat t) W /\ Bio.disksize B = Bio.disksize (bio s)).
  - split; [lia|]. exists (bio s). split; [by destruct s|]. rewrite !take_0. cbn [list_to_set].
    rewrite difference_empty_L, app_nil_r. done.
  - lia.
  - intros t s' (Ht & B & -> & HB & Hm & Hh & Hd). unfold install_body. wp_step. wp_step.
    change (lh_n (wb s B)) with (lh_n s). rewrite Hn.
    destruct (Z.ltb_spec t (Z.of_nat (length secs))) as [Hlt|Hge].
    + destruct (lookup_lt_is_Some_2 secs (Z.to_nat t) ltac:(lia)) as [sec Hsec].
      pose proof (list_elem_of_lookup_2 _ _ _ Hsec) as Hin. pose proof (lh_range _ _ Hlh sec Hin) as Hsr.
      remember (Z.to_nat t) as k eqn:Ek. assert (t = Z.of_nat k) as Et by lia. clear Ek. subst t.
      assert (W !! k = Some (sec, view (start s + 1 + Z.of_nat k))) as HW by (by apply inst_lookup).
      assert (forall x, x ∈ (take k W).*1 -> x ∈ secs) as Hsub.
      { intros x Hx. unfold W in Hx. rewrite fmap_take, inst_fst in Hx. by apply elem_of_take in Hx as (i & Hx%list_elem_of_lookup_2 & _). }
      assert (forall j, start s <= j -> vapply (take k W) view j = view j) as Hlog.
      { intros j Hj. apply vapply_other. intros Hx%Hsub. pose proof (lh_range _ _ Hlh j Hx). lia. }
      wp_step. eapply (install_one_spec (wb s B) _ _ k sec); rewrite ?wb_bio.
      * exact HB.
      * by apply geom_wb.
      * by apply (lh_at _ _ Hlh).
      * done.
      * cbn. lia.
      * eapply Nat.le_lt_trans; [apply subseteq_size, subseteq_difference_l; reflexivity|done].
      * destruct Hdir as [[-> Hnd]| ->]; [left|right; set_solver].
        apply elem_of_difference. split; [by apply elem_of_list_to_set|].
        rewrite elem_of_list_to_set. intros (j & Hj & Hjk)%elem_of_take.
        pose proof (NoDup_lookup _ _ _ _ Hnd Hj Hsec). lia.
      * intros [Hx _]%elem_of_difference. apply Hdsub in Hx. pose proof (lh_range _ _ Hlh _ Hx). cbn in *. lia.
      * intros B' HB' Hm' Hh' Hd'. rewrite wb_wb. unfold disk, hist in Hm', Hh'.
        change (start (wb s B)) with (start s) in *. rewrite wb_bio, Hlog in * by lia.
        wp_step. split; [|lia]. split; [lia|]. exists B'. split; [done|].
        replace (Z.to_nat (Z.of_nat k + 1)) with (S k) by lia.
        rewrite (take_S_r _ _ _ HW), (take_S_r _ _ _ Hsec).
        rewrite vapply_snoc, apply_writes_snoc, list_to_set_app_L. cbn [fst snd list_to_set].
        split; [|split; [congruence|split; [|congruence]]].
        -- rewrite union_empty_r_L, difference_difference_l_L in *. done.
        -- rewrite Hh', Hh, <-app_assoc. done.
    + wp_step. assert (Z.to_nat t = length secs) as E by lia. rewrite E in *.
      rewrite <-HWl in *. rewrite firstn_all in *. apply HQ; try done.
      assert (dirty ∖ list_to_set (take (length W) secs) = ∅) as <-; [|done].
      rewrite HWl, firstn_all. apply leibniz_equiv_iff. apply elem_of_equiv_empty.
      intros x [Hx Hx2]%elem_of_difference. apply Hx2, elem_of_list_to_set. by apply Hdsub.
Qed.


(** ** Recovery *)

(** On a disk whose log header names the committed sectors (none after a
    clean shutdown), installing the log yields the home contents [target]. *)
Definition recoverable (st0 sz dsz : Z) (D : list Z) (target : Z -> list Z) : Prop :=
  exists secs, is_header (Bio.dsec D st0) secs /\ (length secs <= 10)%nat /\
    Z.of_nat (length secs) <= sz - 1 /\ (forall x, x ∈ secs -> 0 <= x < st0) /\
    forall m, 0 <= m < st0 ->
      vapply (inst_writes (Bio.dsec D) st0 secs) (Bio.dsec D) m = target m.

(** No transaction is active and the log on disk is empty. *)
Record idle (s : st) (home : Z -> list Z) : Prop := {
  id_cache : exists view, Bio.cache (bio s) ∅ ∅ view;
  id_geom : geom s;
  id_busy : busy s = 0;
  id_n : lh_n s = 0;
  id_home : forall m, 0 <= m < start s -> Bio.dsec (disk s) m = home m;
  id_hdr : is_header (Bio.dsec (disk s) (start s)) [];
}.

Lemma is_header_fun x secs : is_header x secs ->
  ld32 x 0 = Some (Z.of_nat (length secs)).
Proof. by intros (_ & _ & ? & _). Qed.

Lemma inst_good v st0 secs sz :
  (forall x, x ∈ secs -> 0 <= x < sz) ->
  (forall i, 0 <= i < Z.of_nat (length secs) -> length (v (st0 + 1 + i)) = 512%nat) ->
  good_writes sz (inst_writes v st0 secs).
Proof.
  intros Hr Hl. apply Forall_lookup. intros i w Hw. unfold inst_writes in Hw.
  rewrite list_lookup_imap in Hw. destruct (secs !! i) as [x|] eqn:E; [|done]. injection Hw as <-. cbn.
  split; [by apply Hr, list_elem_of_lookup_2 with i|]. apply Hl. apply lookup_lt_Some in E. lia.
Qed.

Lemma take_inst_subset k v st0 secs x : x ∈ (take k (inst_writes v st0 secs)).*1 -> x ∈ secs.
Proof.
  rewrite fmap_take, inst_fst. by intros (i & Hx%list_elem_of_lookup_2 & _)%elem_of_take.
Qed.

Section crash.
  Variables (st0 sz dsz : Z) (D : list Z) (secs : list Z) (target : Z -> list Z).
  Hypothesis HD : Z.of_nat (length D) = 512 * dsz.
  Hypothesis Hst : 0 < st0 /\ 1 <= sz /\ st0 + sz <= dsz.
  Hypothesis Hlen : (length secs <= 10)%nat /\ Z.of_nat (length secs) <= sz - 1.
  Hypothesis Hrg : forall x, x ∈ secs -> 0 <= x < st0.
Let W := inst_writes (Bio.dsec D) st0 secs.

Lemma inst_good_D k : good_writes dsz (take k W).
  Proof using HD Hst Hlen Hrg.
    apply Forall_take, inst_good; [intros x Hx%Hrg; lia|]. intros i Hi.
    eapply Bio.length_dsec; [exact HD|lia].
  Qed.
  (** after the header of [secs] and some of the installs, the same [target]
      is recovered *)
Lemma partial_install k x :
    is_header x secs -> (forall m, 0 <= m < st0 -> vapply W (Bio.dsec D) m = target m) ->
    recoverable st0 sz dsz (apply_writes ((st0, x) :: take k W) D) target.
  Proof using HD Hst Hlen Hrg.
    intros Hx Ht. pose proof Hx as (Hxl & _).
    assert (good_writes dsz ((st0, x) :: take k W)) as Hg.
    { constructor; [cbn; lia|apply inst_good_D]. }
    assert (forall m, 0 <= m < dsz -> Bio.dsec (apply_writes ((st0, x) :: take k W) D) m =
              vapply (take k W) (Bio.vupd (Bio.dsec D) st0 x) m) as Hds.
    { intros m Hm. by rewrite (dsec_apply _ _ dsz) by done. }
    assert (forall m, st0 <= m -> m ∉ (take k W).*1) as Hno.
    { intros m Hm Hin. apply take_inst_subset in Hin. apply Hrg in Hin. lia. }
    exists secs. split; [|split; [tauto|split; [tauto|split; [done|]]]].
    - rewrite Hds by lia. rewrite vapply_other by (apply Hno; lia). by rewrite Bio.vupd_eq.
    - intros m Hm. rewrite <-Ht by done.
      assert (inst_writes (Bio.dsec (apply_writes ((st0, x) :: take k W) D)) st0 secs = W) as ->.
      { apply inst_ext. intros i Hi. rewrite Hds by lia. rewrite vapply_other by (apply Hno; lia).
        by rewrite Bio.vupd_ne by lia. }
      destruct (vapply_cases W m) as [[Hnin Hv]|[_ (d & _ & Hv)]]; rewrite !Hv; [|done].
      rewrite Hds by lia. rewrite vapply_other; [by rewrite Bio.vupd_ne by lia|].
      intros Hin. apply Hnin. rewrite fmap_take in Hin. by apply elem_of_take in Hin as (i & ?%list_elem_of_lookup_2 & _).
  Qed.
  (** after all of them and the empty header, it is on the disk itself *)
Lemma complete_install x y :
    is_header x [] -> (length y = 512%nat) ->
    (forall m, 0 <= m < st0 -> vapply W (Bio.dsec D) m = target m) ->
    let D' := apply_writes ((st0, y) :: W ++ [(st0, x)]) D in
    recoverable st0 sz dsz D' target /\ is_header (Bio.dsec D' st0) [] /\
    forall m, 0 <= m < st0 -> Bio.dsec D' m = target m.
  Proof using HD Hst Hlen Hrg.
    intros Hx Hy Ht D'. pose proof Hx as (Hxl & _).
    assert (good_writes dsz ((st0, y) :: W ++ [(st0, x)])) as Hg.
    { constructor; [cbn; lia|]. apply Forall_app. split.
      - rewrite <-(firstn_all W). apply inst_good_D.
      - constructor; [cbn; lia|constructor]. }
    assert (forall m, 0 <= m < dsz -> Bio.dsec D' m =
              Bio.vupd (vapply W (Bio.vupd (Bio.dsec D) st0 y)) st0 x m) as Hds.
    { intros m Hm. unfold D'. rewrite (dsec_apply _ _ dsz) by done.
      change ((st0, y) :: W ++ [(st0, x)]) with (((st0, y) :: W) ++ [(st0, x)]). by rewrite vapply_snoc. }
    assert (forall m, 0 <= m < st0 -> Bio.dsec D' m = target m) as Hh.
    { intros m Hm. rewrite Hds, Bio.vupd_ne by lia. rewrite <-Ht by done. apply vapply_ext.
      by rewrite Bio.vupd_ne by lia. }
    assert (is_header (Bio.dsec D' st0) []) as Hhd by (rewrite Hds by lia; by rewrite Bio.vupd_eq).
    split; [|done]. exists []. split; [done|]. cbn. split; [lia|]. split; [lia|].
    split; [by intros z Hz%elem_of_nil|done].
  Qed.
End crash.

(** read_head reads back the list in the header. *)
Lemma read_head_spec s view secs Q :
  Bio.cache (bio s) ∅ ∅ view -> geom s -> is_header (view (start s)) secs ->
  (length secs <= 10)%nat -> (forall v, v ∈ secs -> 0 <= v < start s) ->
  (forall s' B, s' = wb s' B -> Bio.cache B ∅ ∅ view -> Bio.memdisk B = disk s -> Bio.hist B = hist s ->
     Bio.disksize B = Bio.disksize (bio s) -> geom s' -> start s' = start s -> size s' = size s ->
     busy s' = busy s -> lh_is s' secs -> Q tt s') ->
  wp read_head Q s.
Proof.
  intros Hc Hg (Hxl & Hxb & Hx0 & Hxi) Hlen Hrg HQ.
  destruct (cache_disk _ _ _ _ Hc) as (Hdk & Hszb & Hdb).
  pose proof Hg as [Hdev Hlk Hst Hsize Hend Hsec]. unfold read_head.
  assert (forall v, v ∈ secs -> s32 v = v) as Hs32.
  { intros v Hv%Hrg. unfold s32. rewrite Z.mod_small by lia. lia. }
  wp_step. wp_step. rewrite Hdev. wp_step.
  eapply (wp_bread s ∅ ∅ view Hc); [apply lookup_empty|lia|right; rewrite dom_empty_L, union_empty_l_L, size_empty; lia|].
  intros b B HB Hf. destruct (frame_facts _ _ Hf) as (Hm1 & Hh1 & Hd1).
  assert ((<[start s := b]> ∅ : gmap Z Z) !! start s = Some b) as Hbz by apply lookup_insert_eq.
  wp_step. eapply (wp_bdata (wb s B) _ _ _ HB _ _ Hbz). intros _.
  wp_step. eapply wp_deref; [exact Hx0|].
  assert (s32 (Z.of_nat (length secs)) = Z.of_nat (length secs)) as Hsn.
  { unfold s32. rewrite Z.mod_small by lia. lia. }
  rewrite Hsn. unfold set_n. wp_step. wp_step. wp_step.
  set (s1 := St _ _ _ _ _ _ _ _ _). cbn [wb lset bio_lens bio lock start size busy dev lh_n lh_sector wakes] in s1.
  apply wp_loop with (mu := fun i => (length secs - Z.to_nat i)%nat)
    (Inv := fun i s' => 0 <= i <= Z.of_nat (length secs) /\ exists l, length l = 10%nat /\
       s' = St B (lock s) (start s) (size s) (busy s) (dev s) (Z.of_nat (length secs)) l (wakes s) /\
       forall j v, secs !! j = Some v -> Z.of_nat j < i -> l !! j = Some v).
  - split; [lia|]. exists (lh_sector s). split; [done|]. split; [done|]. lia.
  - lia.
  - intros i s' (Hi & l & Hl & -> & Hat). unfold read_head_body. wp_step. wp_step. cbn [lh_n].
    destruct (Z.ltb_spec i (Z.of_nat (length secs))) as [Hlt|Hge].
    + destruct (lookup_lt_is_Some_2 secs (Z.to_nat i) ltac:(lia)) as [v Hv].
      wp_step. eapply wp_deref.
      { rewrite <-(Hxi _ _ Hv). f_equal. lia. }
      unfold st_sector, ld_sector. wp_step. wp_step.
      destruct (at_is_Some l i ltac:(rewrite Hl; lia)) as [w Hw].
      eapply wp_deref; [exact Hw|]. wp_step. wp_step. split; [|lia]. split; [lia|].
      exists (put l i (s32 v)). split; [by rewrite length_put|]. split; [done|].
      rewrite (Hs32 v) by (by eapply list_elem_of_lookup_2).
      intros j u Hj Hlt'. unfold put. destruct (decide (Z.to_nat i = j)) as [<-|Hne].
      * rewrite list_lookup_insert_eq by lia. congruence.
      * rewrite list_lookup_insert_ne by done. apply Hat; [done|lia].
    + wp_step. assert (i = Z.of_nat (length secs)) as -> by lia.
      set (s2 := St _ _ _ _ _ _ _ _ _).
      eapply (wp_brelse s2 _ _ _ HB _ _ Hbz).
      { right. change (disk s2) with (Bio.memdisk B). rewrite Hm1.
        apply (cache_clean s _ _ _ Hc); [lia|set_solver|apply lookup_empty]. }
      intros B' HB' Hm' Hh' Hd'. unfold disk, hist in Hm', Hh'. cbn in Hm', Hh', Hd'.
      rewrite delete_insert_id in HB' by apply lookup_empty.
      apply (HQ _ B'); try done.
      * by rewrite Hm', Hm1.
      * by rewrite Hh', Hh1.
      * by rewrite Hd', Hd1.
      * split; try done. cbn. rewrite Hd', Hd1. lia.
      * split; try done. intros j v Hj. apply Hat; [done|]. apply lookup_lt_Some in Hj. lia.
Qed.


(** recover_from_log on a freshly booted cache *)
Definition booted (s : st) (D : list Z) (st0 sz : Z) : Prop :=
  Bio.cache (bio s) ∅ ∅ (Bio.dsec D) /\ disk s = D /\ geom s /\ busy s = 0 /\
  start s = st0 /\ size s = sz.

Lemma lh_is_nil s : lh_n s = 0 -> lh_is s [].
Proof. intros Hn. split; [done|cbn; lia|done|by intros v Hv%elem_of_nil]. Qed.

Lemma recover_spec s D target :
  let dsz := Bio.disksize (bio s) in
  booted s D (start s) (size s) -> recoverable (start s) (size s) dsz D target ->
  wp recover_from_log (fun _ s' => idle s' target /\ start s' = start s /\ size s' = size s /\
    exists W, hist s' = hist s ++ W /\ disk s' = apply_writes W D /\
      forall k, recoverable (start s) (size s) dsz (apply_writes (take k W) D) target) s.
Proof.
  intros dsz (Hc & HD & Hg & Hb & _ & _) (secs & Hx & Hlen & Hlen2 & Hrg & Ht).
  destruct (cache_disk _ _ _ _ Hc) as (Hdk & Hszb & Hdb). rewrite HD in Hdk.
  pose proof Hg as [Hdev Hlk Hst Hsize Hend Hsec].
  unfold recover_from_log. wp_step. eapply (read_head_spec s (Bio.dsec D) secs); try done.
  intros s1 B Es1 HB HmB HhB HdB Hg1 Hst1 Hsz1 Hb1 Hlh1.
  wp_step. eapply (install_trans_spec s1 ∅ (Bio.dsec D) secs).
  { by rewrite Es1, wb_bio. }
  { done. } { done. } { rewrite Hsz1. lia. } { rewrite size_empty. lia. } { by right. }
  intros B2 HB2 Hm2 Hh2 Hd2. assert (disk s1 = D /\ hist s1 = hist s /\ Bio.disksize (bio s1) = dsz) as (Ed & Eh & Edz).
  { rewrite Es1. unfold disk, hist. rewrite wb_bio. rewrite HmB, HhB, HdB. done. }
  rewrite Hst1 in *. rewrite Ed in Hm2. rewrite Eh in Hh2. rewrite Edz in Hd2.
  set (W := inst_writes (Bio.dsec D) (start s) secs) in *.
  unfold set_n. wp_step. wp_step. set (s2 := St _ _ _ _ _ _ _ _ _).
  assert (geom s2) as Hg2.
  { destruct Hg1. split; try done. cbn. rewrite Hd2. cbn in *. lia. }
  assert (start s2 = start s /\ size s2 = size s) as [Hst2 Hsz2] by done.
  eapply (write_head_spec s2 ∅ (vapply W (Bio.dsec D)) []); [done|done|by apply lh_is_nil|set_solver|rewrite size_empty; lia|].
  rewrite Hst2. intros B3 x Hxh HB3 Hm3 Hh3 Hd3. change (disk s2) with (Bio.memdisk B2) in Hm3.
  change (hist s2) with (Bio.hist B2) in Hh3. change (Bio.disksize (bio s2)) with (Bio.disksize B2) in Hd3.
  set (hd := Bio.dsec D (start s)) in *.
  assert (Hgeo : 0 < start s /\ 1 <= size s /\ start s + size s <= dsz) by (unfold dsz; lia).
  pose proof (complete_install (start s) (size s) dsz D secs target Hdk Hgeo (conj Hlen Hlen2) Hrg x hd Hxh
    (proj1 Hx) Ht) as (Hrec & Hhd & Hhome).
  assert (forall W', apply_writes ((start s, hd) :: W') D = apply_writes W' D) as Ehd.
  { intros W'. unfold apply_writes. cbn [fold_left]. f_equal. unfold wr, hd, Bio.dsec. cbn [fst snd].
    apply blit_sub_id. lia. }
  fold W in Hrec, Hhd, Hhome. rewrite Ehd in Hrec, Hhd, Hhome.
  assert (disk (wb s2 B3) = apply_writes (W ++ [(start s, x)]) D) as Edisk.
  { unfold disk. rewrite wb_bio, Hm3, Hm2. by rewrite apply_writes_snoc. }
  split; [|split; [done|split; [done|]]].
  - split.
    + by exists (Bio.vupd (vapply W (Bio.dsec D)) (start s) x).
    + apply geom_wb; [by rewrite Hd3|done].
    + cbn. congruence.
    + done.
    + change (start (wb s2 B3)) with (start s1). rewrite Hst1, Edisk. exact Hhome.
    + change (start (wb s2 B3)) with (start s1). rewrite Hst1, Edisk. exact Hhd.
  - exists (W ++ [(start s, x)]). split; [|split; [done|]].
    { unfold hist at 1. rewrite wb_bio, Hh3, Hh2. by rewrite <-app_assoc. }
    intros k. destruct (decide (k <= length W)%nat) as [Hk|Hk].
    + rewrite take_app_le by done. rewrite <-Ehd. by apply (partial_install _ _ _ D secs).
    + rewrite take_ge; [done|]. rewrite length_app. cbn. lia.
Qed.

(** ** Transactions *)

(** The state inside a transaction: [bz] the buffers in use, [md] the blocks
    modified since they were last logged, [view] the contents the code sees,
    [secs] the blocks in the log in order, [home] what the transaction started
    from, which is still what the disk holds outside the log. *)
Record trans (s : st) (bz : gmap Z Z) (md : gset Z) (view : Z -> list Z) (secs : list Z)
    (home : Z -> list Z) : Prop := {
  tr_cache : exists v, Bio.cache (bio s) bz (list_to_set secs) v /\ forall m, 0 <= m < start s -> v m = view m;
  tr_geom : geom s;
  tr_busy : busy s = 1;
  tr_lh : lh_is s secs;
  tr_room : Z.of_nat (length secs) <= size s - 1;
  tr_nodup : NoDup secs;
  tr_copy : forall i x, secs !! i = Some x -> (x ∉ md) -> view x = Bio.dsec (disk s) (start s + 1 + Z.of_nat i);
  tr_other : forall m, 0 <= m < start s -> (m ∉ secs) -> (m ∉ md) -> view m = home m;
  tr_home : forall m, 0 <= m < start s -> Bio.dsec (disk s) m = home m;
  tr_hdr : is_header (Bio.dsec (disk s) (start s)) [];
  tr_used : forall m b, bz !! m = Some b -> m < start s;
  tr_md : forall m, m ∈ md -> is_Some (bz !! m);
}.

(** Whatever a transaction has done so far, a crash now recovers [home]. *)
Lemma empty_log_recoverable D st0 sz dsz home :
  is_header (Bio.dsec D st0) [] -> 1 <= sz -> (forall m, 0 <= m < st0 -> Bio.dsec D m = home m) ->
  recoverable st0 sz dsz D home.
Proof.
  intros Hh Hsz Hm. exists []. split; [done|]. cbn. split; [lia|]. split; [lia|].
  split; [by intros x Hx%elem_of_nil|done].
Qed.

Lemma begin_trans_spec s home view :
  idle s home -> Bio.cache (bio s) ∅ ∅ view ->
  begin_trans s = Done tt (wb (St (bio s) false (start s) (size s) 1 (dev s) (lh_n s) (lh_sector s) (wakes s)) (bio s)) /\
  trans (wb (St (bio s) false (start s) (size s) 1 (dev s) (lh_n s) (lh_sector s) (wakes s)) (bio s))
    ∅ ∅ view [] home.
Proof.
  intros [_ Hg Hb Hn Hh Hhd] Hc. pose proof Hg as [Hdev Hlk Hst Hsize Hend Hsec]. split.
  - unfold begin_trans, mbind, M_bind, acquire, release, gets, set_busy, modify. cbn. rewrite Hlk. cbn.
    by rewrite Hb.
  - split; try done.
    + by exists view.
    + by apply lh_is_nil.
    + cbn. lia.
    + apply NoDup_nil_2.
    + intros m Hm _ _. cbn in Hm. rewrite <-Hh by done.
      apply (cache_clean s _ _ _ Hc); [lia|set_solver|apply lookup_empty].
Qed.

(** The scan finds the block's slot, or the next free one. *)
Lemma absorb_spec s secs n :
  lh_is s secs -> start s <= 2 ^ 23 -> NoDup secs ->
  exists i, loop (S (Z.to_nat (lh_n s))) (absorb_body n) 0 s = Done (Z.of_nat i) s /\
    ((secs !! i = Some n) \/ (n ∉ secs) /\ i = length secs).
Proof.
  intros [Hn Hl Hat Hrg] Hsz Hnd.
  assert (wp (loop (S (Z.to_nat (lh_n s))) (absorb_body n) 0)
    (fun r s' => s' = s /\ exists i, r = Z.of_nat i /\
       ((secs !! i = Some n) \/ (n ∉ secs) /\ i = length secs)) s) as Hw.
  { apply wp_loop with (mu := fun t => (length secs - Z.to_nat t)%nat)
      (Inv := fun t s' => s' = s /\ 0 <= t <= Z.of_nat (length secs) /\
        forall j x, secs !! j = Some x -> Z.of_nat j < t -> x <> n).
    - split; [done|]. split; lia.
    - lia.
    - intros t s' (-> & Ht & Hno). unfold absorb_body. wp_step. wp_step. rewrite Hn.
      destruct (Z.ltb_spec t (Z.of_nat (length secs))) as [Hlt|Hge].
      + destruct (lookup_lt_is_Some_2 secs (Z.to_nat t) ltac:(lia)) as [v Hv].
        wp_step. unfold ld_sector. eapply wp_deref.
        { unfold at_. rewrite (proj2 (Z.leb_le 0 t)) by lia. by apply Hat. }
        assert (u32 v = v) as ->.
        { pose proof (Hrg v (list_elem_of_lookup_2 _ _ _ Hv)). apply Z.mod_small. lia. }
        destruct (Z.eqb_spec v n) as [->|Hne]; wp_step.
        * split; [done|]. exists (Z.to_nat t). split; [lia|]. by left.
        * split; [|lia]. split; [done|]. split; [lia|]. intros j x Hj Hlt'.
          destruct (decide (j = Z.to_nat t)) as [->|]; [congruence|]. apply (Hno j); [done|lia].
      + wp_step. split; [done|]. exists (length secs). split; [lia|]. right. split; [|done].
        intros (j & Hj)%list_elem_of_lookup. apply (Hno j n Hj); [|done].
        apply lookup_lt_Some in Hj. lia. }
  apply wp_done in Hw as (r & s' & Hrun & -> & i & -> & H). by exists i.
Qed.

(** the block is in the log after log_write *)
Definition logged (secs : list Z) (n : Z) : list Z :=
  if decide (n ∈ secs) then secs else secs ++ [n].
Record same_geom (s s' : st) : Prop := {
  sg_start : start s' = start s;
  sg_size : size s' = size s;
  sg_disk : Bio.disksize (bio s') = Bio.disksize (bio s);
}.

Lemma logged_set secs n : {[n]} ∪ list_to_set secs = list_to_set (C := gset Z) (logged secs n).
Proof.
  unfold logged. case_decide.
  - apply leibniz_equiv_iff. intros x. rewrite elem_of_union, elem_of_singleton, !elem_of_list_to_set.
    naive_solver.
  - rewrite list_to_set_app_L. cbn. rewrite union_empty_r_L. apply union_comm_L.
Qed.

Lemma log_write_spec s bz md view secs home n b :
  trans s bz md view secs home -> bz !! n = Some b ->
  (length secs < 10)%nat -> Z.of_nat (length secs) < size s - 1 ->
  (base.size (dom bz ∪ list_to_set secs) < 10)%nat ->
  wp (log_write b) (fun _ s' => trans s' bz (md ∖ {[n]}) view (logged secs n) home /\ same_geom s s' /\
    exists i, hist s' = hist s ++ [(start s + 1 + Z.of_nat i, view n)]) s.
Proof.
  intros [(v & Hc & Hv) Hg Hb Hlh Hroom Hnd Hcopy Hother Hhome Hhdr Hused Hmd] Hbn H10 Hsz Hav.
  destruct (cache_disk _ _ _ _ Hc) as (Hdk & Hszb & Hdb).
  pose proof Hg as [Hdev Hlk Hst Hsize Hend Hsec]. pose proof Hlh as [Hn Hl Hat Hrg].
  pose proof (Hused _ _ Hbn) as Hns.
  unfold log_write. wp_step. wp_step. unfold LOGSIZE. wp_step. wp_step.
  { rewrite Hn. destruct (Z.leb_spec 10 (Z.of_nat (length secs))), (Z.leb_spec (size s - 1) (Z.of_nat (length secs))); done || lia. }
  wp_step. wp_step; [by rewrite Hb|]. wp_step.
  eapply (wp_buf_ld s _ _ _ Hc _ _ Hbn). intros x Hx Hxd Hxs Hxdata Hnr. rewrite Hxs, Hxd.
  destruct (absorb_spec s secs n Hlh ltac:(lia) Hnd) as (i & Hrun & Hi).
  wp_step. eapply wp_eq; [exact Hrun|]. clear Hrun.
  assert (i <= length secs)%nat as Hil.
  { destruct Hi as [Hi|[_ ->]]; [apply lookup_lt_Some in Hi|]; lia. }
  assert (s32 n = n) as -> by (unfold s32; rewrite Z.mod_small by lia; lia).
  unfold st_sector, ld_sector. wp_step. wp_step.
  destruct (at_is_Some (lh_sector s) (Z.of_nat i) ltac:(lia)) as [w Hw].
  eapply wp_deref; [exact Hw|]. wp_step. wp_step. set (s1 := St _ _ _ _ _ _ _ _ _).
  set (lb := start s + Z.of_nat i + 1) in *.
  assert (lb ∉ list_to_set (C := gset Z) secs) as Hlbd.
  { rewrite elem_of_list_to_set. intros Hin%Hrg. unfold lb in Hin. lia. }
  assert (bz !! lb = None) as Hlbz.
  { destruct (bz !! lb) as [c|] eqn:E; [|done]. apply Hused in E. unfold lb in E. lia. }
  assert (Bio.cache (bio s1) bz (list_to_set secs) v) as Hc1 by done.
  eapply (wp_bread s1 _ _ v Hc1); [done|cbn; unfold lb; lia|by right|].
  intros b2 B HB Hf. destruct (frame_facts _ _ Hf) as (Hm1 & Hh1 & Hd1). cbn in Hm1, Hh1, Hd1.
  assert (lb <> n) as Hne by (unfold lb; lia).
  assert ((<[lb := b2]> bz) !! lb = Some b2) as Hb2 by apply lookup_insert_eq.
  assert ((<[lb := b2]> bz) !! n = Some b) as Hb1 by (by rewrite lookup_insert_ne).
  destruct (cache_view s _ _ _ Hc n Hnr) as [Hvl Hvb]. rewrite (Hv n) in Hvl, Hvb by lia.
  unfold copy_block. wp_step. wp_step. eapply (wp_bdata (wb s1 B) _ _ _ HB _ _ Hb1). intros _.
  rewrite (Hv n) by lia.
  eapply (wp_set_bdata (wb s1 B) _ _ _ HB _ _ Hb2); [done|done|].
  intros B3 HB3 Hf3. rewrite wb_wb. destruct (frame_facts _ _ Hf3) as (Hm3 & Hh3 & Hd3). rewrite !wb_bio in *.
  wp_step. eapply (wp_bwrite (wb s1 B3) _ _ _ HB3 _ _ Hb2). intros B4 HB4 Hw4. rewrite wb_wb.
  destruct (wrote_facts _ _ _ _ Hw4) as (Hm4 & Hh4 & Hd4). rewrite !wb_bio, Bio.vupd_eq in *.
  assert (list_to_set secs ∖ {[lb]} = list_to_set (C := gset Z) secs) as Eds by set_solver. rewrite Eds in HB4.
  assert (Bio.memdisk B4 = wr (disk s) (lb, view n)) as Hm40 by (by rewrite Hm4, Hm3, Hm1).
  assert (forall m, 0 <= m < Bio.disksize (bio s) ->
    Bio.dsec (Bio.memdisk B4) m = if decide (m = lb) then view n else Bio.dsec (disk s) m) as Hds.
  { intros m Hm. rewrite Hm40. unfold wr. cbn [fst snd]. apply (Bio.dsec_blit _ (Bio.disksize (bio s))); try done.
    unfold lb. lia. }
  wp_step. eapply (wp_brelse (wb s1 B4) _ _ _ HB4 _ _ Hb2).
  { right. rewrite Bio.vupd_eq. unfold disk. rewrite wb_bio, Hds by (unfold lb; lia). by rewrite decide_True. }
  intros B5 HB5 Hm5 Hh5 Hd5. rewrite wb_wb. unfold disk, hist in Hm5, Hh5. rewrite !wb_bio in *.
  rewrite delete_insert_id in HB5 by done. rewrite Hn.
  set (s5 := St B5 false (start s) (size s) 1 1 (Z.of_nat (length (logged secs n))) (put (lh_sector s) (Z.of_nat i) n) (wakes s)).
  wp_step. eapply wp_mono with (Q := fun _ s' => s' = s5).
  { assert (wb s1 B5 = St B5 false (start s) (size s) 1 1 (Z.of_nat (length secs)) (put (lh_sector s) (Z.of_nat i) n) (wakes s)) as ->.
    { unfold wb, s1. cbn. by rewrite Hlk, Hb, Hdev, Hn. }
    unfold logged in s5. destruct Hi as [Hi|[Hni ->]].
    - pose proof (lookup_lt_Some _ _ _ Hi). rewrite (proj2 (Z.eqb_neq _ _)) by lia. cbn [when]. wp_step.
      unfold s5. rewrite decide_True by (by eapply list_elem_of_lookup_2). done.
    - rewrite Z.eqb_refl. cbn [when]. unfold set_n. wp_step. unfold s5.
      rewrite decide_False by done. rewrite length_app. cbn. f_equal. lia. }
  cbn beta. intros _ s' ->. wp_step.
  assert (Bio.cache (bio s5) bz (list_to_set secs) (Bio.vupd v lb (view n))) as Hc5 by done.
  eapply (wp_buf_ld s5 _ _ _ Hc5 _ _ Hbn). intros y Hy _ _ _ _.
  wp_step. cbn [lget bio_lens]. eapply wp_mono; [apply (Bio.mark_dirty_spec (bio s5) bz (list_to_set secs) (Bio.vupd v lb (view n)) n b)|].
  { done. } { done. } { intros z Hz. rewrite Hy in Hz. by injection Hz as ->. }
  cbn beta. intros _ B6 [HB6 Hf6]. rewrite logged_set in HB6. destruct (frame_facts _ _ Hf6) as (Hm6 & Hh6 & Hd6).
  cbn [bio s5] in Hm6, Hh6, Hd6.
  assert (Bio.memdisk B6 = Bio.memdisk B4) as Hm64 by congruence.
  assert (Bio.disksize B6 = Bio.disksize (bio s)) as Hd60 by congruence.
  split; [|split].
  - assert (forall j z, logged secs n !! j = Some z -> (secs !! j = Some z /\ (z <> n \/ j = i)) \/ (z = n /\ j = i)) as Hlog.
    { intros j z. unfold logged. destruct Hi as [Hi|[Hni ->]].
      - rewrite decide_True by (by eapply list_elem_of_lookup_2). intros Hj.
        destruct (decide (z = n)) as [->|]; [right|left; split; [done|by left]]. split; [done|].
        exact (NoDup_lookup _ _ _ _ Hnd Hj Hi).
      - rewrite decide_False by done. intros [Hj|[Hge Hj]]%lookup_app_Some.
        + left. split; [done|]. left. intros ->. apply Hni. by eapply list_elem_of_lookup_2.
        + right. apply list_lookup_singleton_Some in Hj as [Hj <-]. split; [done|lia]. }
    assert (n ∈ logged secs n) as Hnl by (unfold logged; case_decide; [done|in_list]).
    assert (forall m, m ∈ secs -> m ∈ logged secs n) as Hsub by (intros m ?; unfold logged; case_decide; [done|in_list]).
    split; cbn [lset bio_lens bio start size busy dev lh_n lh_sector lock s5].
    + exists (Bio.vupd v lb (view n)). split; [done|]. intros m Hm. rewrite Bio.vupd_ne by (unfold lb; lia). by apply Hv.
    + split; cbn; try done; [by rewrite Hd60|by rewrite length_put].
    + done.
    + split; cbn.
      * done.
      * unfold logged. case_decide; [done|]. rewrite length_app. cbn. lia.
      * intros j z Hj. unfold put. rewrite Nat2Z.id. destruct (Hlog j z Hj) as [[Hs [Hz| ->]]|[-> ->]].
        -- rewrite list_lookup_insert_ne; [by apply Hat|]. intros <-. destruct Hi as [Hi|[Hni ->]]; [congruence|].
           apply lookup_lt_Some in Hs. lia.
        -- destruct Hi as [Hi|[Hni ->]]; [|apply lookup_lt_Some in Hs; lia].
           rewrite list_lookup_insert_eq by lia. congruence.
        -- apply list_lookup_insert_eq. lia.
      * intros z (j & Hj)%list_elem_of_lookup. destruct (Hlog j z Hj) as [[Hs _]|[-> _]]; [|lia].
        apply Hrg. by eapply list_elem_of_lookup_2.
    + unfold logged. case_decide; [lia|]. rewrite length_app. cbn. lia.
    + unfold logged. case_decide; [done|]. apply NoDup_app. split; [done|]. split; [|apply NoDup_singleton].
      intros z Hz ->%list_elem_of_singleton. done.
    + intros j z Hj Hz. unfold disk. cbn [bio lset bio_lens s5]. rewrite Hm64.
      destruct (decide (z = n)) as [->|Hzn].
      * destruct (Hlog j n Hj) as [[_ [?| ->]]|[_ ->]]; [done| |]; rewrite Hds by lia;
          rewrite decide_True by (unfold lb; lia); done.
      * destruct (Hlog j z Hj) as [[Hs _]|[? _]]; [|done]. pose proof (lookup_lt_Some _ _ _ Hs).
        rewrite Hds by lia. rewrite decide_False.
        -- apply Hcopy; [done|]. intros Hin. apply Hz, elem_of_difference. split; [done|by rewrite elem_of_singleton].
        -- unfold lb. intros E. assert (j = i) as -> by lia. destruct Hi as [Hi|[_ ->]]; [congruence|lia].
    + intros m Hm Hms Hmm. assert (m <> n) as Hmn by (by intros ->).
      apply Hother; [done|by intros ?%Hsub|]. intros Hin. apply Hmm, elem_of_difference.
      split; [done|by rewrite elem_of_singleton].
    + intros m Hm. unfold disk. cbn [bio lset bio_lens s5]. rewrite Hm64, Hds by lia.
      rewrite decide_False by (unfold lb; lia). by apply Hhome.
    + unfold disk. cbn [bio lset bio_lens s5]. rewrite Hm64, Hds by lia. by rewrite decide_False by (unfold lb; lia).
    + done.
    + intros m [Hm _]%elem_of_difference. by apply Hmd.
  - split; [done|done|]. cbn. done.
  - exists i. unfold hist. cbn [bio lset bio_lens s5]. rewrite Hh6, Hh5, Hh4, Hh3, Hh1. unfold lb. do 3 f_equal. lia.
Qed.


(** the effect of a whole commit on memory and disk *)
Definition committed (s s' : st) (home view : Z -> list Z) : Prop :=
  idle s' view /\ same_geom s s' /\
  exists W, hist s' = hist s ++ W /\ disk s' = apply_writes W (disk s) /\
    forall k, recoverable (start s) (size s) (Bio.disksize (bio s)) (apply_writes (take k W) (disk s))
                (if decide (k = 0%nat) then home else view).

Lemma install_target D st0 secs home view :
  NoDup secs ->
  (forall i x, secs !! i = Some x -> view x = Bio.dsec D (st0 + 1 + Z.of_nat i)) ->
  (forall m, 0 <= m < st0 -> (m ∉ secs) -> view m = home m) ->
  (forall m, 0 <= m < st0 -> Bio.dsec D m = home m) ->
  forall m, 0 <= m < st0 -> vapply (inst_writes (Bio.dsec D) st0 secs) (Bio.dsec D) m = view m.
Proof.
  intros Hnd Hcopy Hother Hhome m Hm.
  destruct (vapply_cases (inst_writes (Bio.dsec D) st0 secs) m) as [[Hni Hv]|[_ (d & Hin & Hv)]]; rewrite Hv.
  - rewrite inst_fst in Hni. by rewrite Hhome, Hother.
  - apply list_elem_of_lookup in Hin as [i Hi]. unfold inst_writes in Hi. rewrite list_lookup_imap in Hi.
    destruct (secs !! i) as [x|] eqn:E; [|done]. cbn in Hi. injection Hi as <- <-. symmetry. by apply Hcopy.
Qed.

(** the last steps of commit_trans and its empty case *)
Lemma commit_end s Q :
  lock s = false ->
  Q tt (St (bio s) false (start s) (size s) 0 (dev s) (lh_n s) (lh_sector s) (wakes s ++ [ch_log])) ->
  wp (acquire log_lock ;; set_busy 0 ;; wakeup ch_log ;; release log_lock) Q s.
Proof.
  intros Hl HQ. wp_step. wp_step; [done|]. unfold set_busy, wakeup. wp_step. wp_step. wp_step. wp_step.
  wp_step; [done|]. done.
Qed.

Lemma commit_trans_spec s view secs home :
  trans s ∅ ∅ view secs home -> (length secs < 10)%nat ->
  wp commit_trans (fun _ s' => committed s s' home view) s.
Proof.
  intros [(v & Hc & Hv) Hg Hb Hlh Hroom Hnd Hcopy Hother Hhome Hhdr _ _] H10.
  pose proof Hg as [Hdev Hlk Hst Hsize Hend Hsec]. pose proof Hlh as [Hn Hl Hat Hrg].
  destruct (cache_disk _ _ _ _ Hc) as (Hdk & Hszb & Hdb).
  unfold commit_trans. wp_step. wp_step. rewrite Hn. wp_step.
  destruct (Z.ltb_spec 0 (Z.of_nat (length secs))) as [Hpos|Hz]; cbn [when].
  2: { assert (secs = []) as -> by (destruct secs; [done|cbn in Hz; lia]). cbn [length] in Hn.
       wp_step. apply commit_end; [done|]. set (s' := St _ _ _ _ _ _ _ _ _).
       assert (forall m, 0 <= m < start s -> home m = view m) as Hhv.
       { intros m Hm. symmetry. apply Hother; [done|apply not_elem_of_nil|set_solver]. }
       split; [|split; [by split|]].
       - split; cbn; try done.
         + by exists v.
         + intros m Hm. change (disk s') with (disk s). rewrite Hhome by exact Hm. by apply Hhv.
       - exists []. split; [by rewrite app_nil_r|]. split; [done|]. intros k. rewrite take_nil.
         apply empty_log_recoverable; [done|lia|]. intros m Hm.
         change (apply_writes [] (disk s)) with (disk s). rewrite (Hhome m Hm). case_decide; [done|by apply Hhv]. }
  assert (forall m, m ∈ list_to_set (C := gset Z) secs -> m < start s) as Hds.
  { intros m Hm%elem_of_list_to_set%Hrg. lia. }
  assert (base.size (list_to_set (C := gset Z) secs) < 10)%nat as Hsz by (by rewrite size_list_to_set).
  assert (forall i, 0 <= i < Z.of_nat (length secs) -> v (start s + 1 + i) = Bio.dsec (disk s) (start s + 1 + i)) as Hvlog.
  { intros i Hi. apply (cache_clean s _ _ _ Hc); [lia| |apply lookup_empty]. intros Hin%Hds. lia. }
  set (W := inst_writes (Bio.dsec (disk s)) (start s) secs).
  assert (forall m, 0 <= m < start s -> vapply W (Bio.dsec (disk s)) m = view m) as Htarget.
  { apply install_target with home; try done.
    - intros i x Hx. by apply Hcopy; [|set_solver].
    - intros m Hm Hms. apply Hother; [done|done|set_solver]. }
  wp_step. eapply (write_head_spec s (list_to_set secs) v secs); [done|done|done|intros ?%Hds; lia|done|].
  intros B1 x1 Hx1 HB1 Hm1 Hh1 Hd1.
  assert (inst_writes (Bio.vupd v (start s) x1) (start s) secs = W) as EW.
  { apply inst_ext. intros i Hi. rewrite Bio.vupd_ne by lia. by apply Hvlog. }
  wp_step. eapply (install_trans_spec (wb s B1) (list_to_set secs) (Bio.vupd v (start s) x1) secs);
    [done|by apply geom_wb|by apply lh_is_wb|cbn; lia|done|by left|].
  change (start (wb s B1)) with (start s). rewrite EW. intros B2 HB2 Hm2 Hh2 Hd2.
  unfold disk, hist in Hm2, Hh2. rewrite wb_wb, !wb_bio in *.
  unfold set_n. wp_step. wp_step. set (s2 := St _ _ _ _ _ _ _ _ _).
  assert (geom s2) as Hg2 by (split; try done; cbn; rewrite Hd2, Hd1; lia).
  eapply (write_head_spec s2 ∅ _ []); [exact HB2|done|by apply lh_is_nil|set_solver|rewrite size_empty; lia|].
  intros B3 x3 Hx3 HB3 Hm3 Hh3 Hd3. cbn [s2 start] in HB3, Hm3, Hh3.
  change (disk s2) with (Bio.memdisk B2) in Hm3. change (hist s2) with (Bio.hist B2) in Hh3.
  change (Bio.disksize (bio s2)) with (Bio.disksize B2) in Hd3.
  apply commit_end; [done|]. set (s' := St _ _ _ _ _ _ _ _ _).
  assert (disk s' = apply_writes ((start s, x1) :: W ++ [(start s, x3)]) (disk s)) as Hdisk.
  { change (disk s') with (Bio.memdisk B3). rewrite Hm3, Hm2, Hm1.
    change ((start s, x1) :: W ++ [(start s, x3)]) with (((start s, x1) :: W) ++ [(start s, x3)]).
    by rewrite apply_writes_snoc. }
  assert (Hgeo : 0 < start s /\ 1 <= size s /\ start s + size s <= Bio.disksize (bio s)) by lia.
  assert (Hlens : (length secs <= 10)%nat /\ Z.of_nat (length secs) <= size s - 1) by lia.
  pose proof (complete_install (start s) (size s) _ (disk s) secs view Hdk Hgeo Hlens Hrg x3 x1 Hx3
    (proj1 Hx1) Htarget) as (Hrec & Hhd & Hhm). fold W in Hrec, Hhd, Hhm.
  split; [|split; [split; [done|done|cbn; congruence]|]].
  - split; try done.
    + by eexists.
    + split; try done. cbn. rewrite Hd3, Hd2, Hd1. lia.
    + rewrite Hdisk. exact Hhm.
    + change (start s') with (start s). rewrite Hdisk. exact Hhd.
  - exists ((start s, x1) :: W ++ [(start s, x3)]). split; [|split; [done|]].
    { change (hist s') with (Bio.hist B3). rewrite Hh3, Hh2, Hh1. by rewrite <-!app_assoc. }
    intros [|k]; cbn [take].
    + rewrite decide_True by done. by apply empty_log_recoverable; [|lia|].
    + rewrite decide_False by done. destruct (decide (k <= length W)%nat) as [Hk|Hk].
      * rewrite take_app_le by done. by apply (partial_install _ _ _ (disk s) secs).
      * rewrite take_ge; [done|]. rewrite length_app. cbn. lia.
Qed.


(** ** Buffer operations inside a transaction, as the file system uses them *)

Lemma same_geom_wb s B : Bio.disksize B = Bio.disksize (bio s) -> same_geom s (wb s B).
Proof. by split. Qed.
Lemma same_geom_refl s : same_geom s s.
Proof. by split. Qed.
Lemma same_geom_trans s s1 s2 : same_geom s s1 -> same_geom s1 s2 -> same_geom s s2.
Proof. intros [? ? ?] [? ? ?]. split; congruence. Qed.

Section in_trans.
  Context (s : st) (bz : gmap Z Z) (md : gset Z) (view : Z -> list Z) (secs : list Z) (home : Z -> list Z).
  Hypothesis Ht : trans s bz md view secs home.

  (** the log's bookkeeping survives a change of the cache that keeps the disk *)
Lemma trans_wb B bz' md' view' v :
    Bio.cache B bz' (list_to_set secs) v -> Bio.memdisk B = disk s -> Bio.disksize B = Bio.disksize (bio s) ->
    (forall m, 0 <= m < start s -> v m = view' m) ->
    (forall m, m ∈ secs -> (m ∉ md') -> (m ∉ md) /\ view' m = view m) ->
    (forall m, 0 <= m < start s -> (m ∉ secs) -> (m ∉ md') -> (m ∉ md) /\ view' m = view m) ->
    (forall m b, bz' !! m = Some b -> m < start s) ->
    (forall m, m ∈ md' -> is_Some (bz' !! m)) ->
    trans (wb s B) bz' md' view' secs home.
  Proof using Ht.
    intros HB Hm Hd Hv Hin Hout Hu Hmd. destruct Ht as [_ Hg Hb Hlh Hroom Hnd Hcopy Hother Hhome Hhdr _ _].
    split; try done.
    - by exists v.
    - by apply geom_wb.
    - by apply lh_is_wb.
    - intros i x Hx Hxm. unfold disk. rewrite wb_bio, Hm.
      destruct (Hin x) as [Hxn ->]; [by eapply list_elem_of_lookup_2|done|]. by apply Hcopy.
    - intros m Hmr Hms Hmm. destruct (Hout m Hmr Hms Hmm) as [Hn ->]. by apply Hother.
    - intros m Hmr. unfold disk. rewrite wb_bio, Hm. by apply Hhome.
    - unfold disk. by rewrite wb_bio, Hm.
  Qed.

Lemma t_bread n Q :
    bz !! n = None -> 0 <= n < start s -> avail bz (list_to_set secs) n ->
    (forall b s', trans s' (<[n := b]> bz) md view secs home -> same_geom s s' -> hist s' = hist s -> Q b s') ->
    wp (bread 1 n) Q s.
  Proof using Ht.
    intros Hn Hr Hav HQ. pose proof Ht as [(v & Hc & Hv) Hg _ _ _ _ _ _ _ _ Hu Hmd].
    pose proof (gm_end _ Hg). pose proof (gm_size _ Hg).
    eapply (wp_bread s _ _ _ Hc n); [done|lia|done|]. intros b B HB Hf.
    destruct (frame_facts _ _ Hf) as (Hm & Hh & Hd). apply HQ; [|by apply same_geom_wb|done].
    eapply trans_wb; try done.
    - intros m c. destruct (decide (m = n)) as [->|]; [lia|]. rewrite lookup_insert_ne by done. apply Hu.
    - intros m Hm'. destruct (decide (m = n)) as [->|]; [by rewrite lookup_insert_eq|].
      rewrite lookup_insert_ne by done. by apply Hmd.
  Qed.

  Context (n b : Z).
  Hypothesis Hb : bz !! n = Some b.

Lemma t_used : 0 <= n < start s.
  Proof using Ht Hb.
    pose proof Ht as [(v & Hc & _) _ _ _ _ _ _ _ _ _ Hu _].
    destruct (Bio.cache_held _ _ _ _ _ _ Hc Hb) as (x & _ & _ & _ & _ & _ & _ & _ & Hn & _).
    split; [lia|by eapply Hu].
  Qed.
Lemma t_view : length (view n) = 512%nat /\ bytes_ok (view n).
  Proof using Ht Hb.
    pose proof t_used as Hu. pose proof Ht as [(v & Hc & Hv) Hg _ _ _ _ _ _ _ _ _ _].
    rewrite <-Hv by done. pose proof (gm_end _ Hg). pose proof (gm_size _ Hg).
    apply (cache_view s _ _ _ Hc). lia.
  Qed.
Lemma t_bdata Q : Q (view n) s -> wp (bdata b) Q s.
  Proof using Ht Hb.
    intros HQ. pose proof Ht as [(v & Hc & Hv) _ _ _ _ _ _ _ _ _ _ _].
    eapply (wp_bdata s _ _ _ Hc n b Hb). intros _. by rewrite Hv by apply t_used.
  Qed.
Lemma t_set_bdata d Q :
    length d = 512%nat -> bytes_ok d ->
    (forall s', trans s' bz ({[n]} ∪ md) (Bio.vupd view n d) secs home -> same_geom s s' -> hist s' = hist s -> Q tt s') ->
    wp (set_bdata b d) Q s.
  Proof using Ht Hb.
    intros Hd Hby HQ. pose proof Ht as [(v & Hc & Hv) _ _ _ _ _ _ _ _ _ Hu Hmd].
    eapply (wp_set_bdata s _ _ _ Hc n b Hb); [done|done|]. intros B HB Hf.
    destruct (frame_facts _ _ Hf) as (Hm & Hh & Hdz). apply HQ; [|by apply same_geom_wb|done].
    assert (forall m, m ∉ ({[n]} ∪ md) -> (m ∉ md) /\ Bio.vupd view n d m = view m) as Hmm.
    { intros m Hm'. rewrite elem_of_union, elem_of_singleton in Hm'. split; [tauto|].
      apply Bio.vupd_ne. tauto. }
    eapply trans_wb; try done.
    - intros m Hmr. unfold Bio.vupd. destruct (m =? n); [done|by apply Hv].
    - intros m _. apply Hmm.
    - intros m _ _. apply Hmm.
    - intros m [->%elem_of_singleton|Hm']%elem_of_union; [by rewrite Hb|by apply Hmd].
  Qed.
Lemma t_log_write Q :
    (length secs < 10)%nat -> Z.of_nat (length secs) < size s - 1 ->
    (base.size (dom bz ∪ list_to_set secs) < 10)%nat ->
    (forall s', trans s' bz (md ∖ {[n]}) view (logged secs n) home -> same_geom s s' -> Q tt s') ->
    wp (log_write b) Q s.
  Proof using Ht Hb.
    intros H1 H2 H3 HQ. eapply wp_mono; [by apply (log_write_spec s bz md view secs home n b)|].
    cbn beta. intros [] s' (Ht' & Hg & _). by apply HQ.
  Qed.
Lemma t_brelse Q :
    (n ∉ md) ->
    (forall s', trans s' (delete n bz) md view secs home -> same_geom s s' -> hist s' = hist s -> Q tt s') ->
    wp (brelse b) Q s.
  Proof using Ht Hb.
    intros Hnm HQ. pose proof t_used as Hr.
    pose proof Ht as [(v & Hc & Hv) Hg _ _ _ _ Hcopy Hother Hhome _ Hu Hmd].
    eapply (wp_brelse s _ _ _ Hc n b Hb).
    { destruct (decide (n ∈ secs)) as [Hin|Hni]; [left; by apply elem_of_list_to_set|right].
      rewrite Hv, Hother, Hhome by done. done. }
    intros B HB Hm Hh Hd. apply HQ; [|by apply same_geom_wb|done].
    eapply trans_wb; try done.
    - intros m c. rewrite lookup_delete_Some. intros [_ ?]. by eapply Hu.
    - intros m Hm'. rewrite lookup_delete_ne; [by apply Hmd|]. by intros ->.
  Qed.
End in_trans.


(** ** The contract of the log *)

(** A log of four blocks on a disk of seven sectors, and a transaction that
    has changed block 1. *)
Definition demo_disk : list Z := replicate 3584 0.
Definition demo_bio0 : Bio.st :=
  Bio.St false (replicate 11 (Bio.Buf 0 0 0 0 0 (replicate 512 0))) demo_disk 7 [] [].
Definition demo : st := St (Bio.after_binit demo_bio0) false 3 4 0 1 0 (replicate 10 0) [].
Definition demo_home : Z -> list Z := Bio.dsec demo_disk.
Definition demo_block : list Z := replicate 512 9.
Definition txn : M st unit :=
  begin_trans ;; b ← bread 1 1; set_bdata b demo_block ;; log_write b ;; brelse b.
Definition after_txn (s : st) : st := match txn s with Done _ s' => s' | _ => s end.

Lemma log_demo_boot : Bio.boot demo_bio0.
Proof.
  split.
  - reflexivity.
  - intros i x Hx. unfold at_ in Hx. destruct (0 <=? i); [|done].
    apply lookup_replicate_1 in Hx as [-> _]. cbn [Bio.flags Bio.data].
    split; [done|]. split; [done|]. split; [apply length_replicate|by apply Bio.zeros_ok].
  - cbn [Bio.memdisk Bio.disksize demo_bio0]. unfold demo_disk. by rewrite length_replicate.
  - by apply Bio.zeros_ok.
  - cbn [Bio.disksize demo_bio0]. lia.
Qed.

Lemma binit_facts s : Bio.boot s ->
  Bio.memdisk (Bio.after_binit s) = Bio.memdisk s /\ Bio.hist (Bio.after_binit s) = Bio.hist s.
Proof.
  intros Hb. pose proof (Bio.binit_spec s Hb) as Hw. unfold wp in Hw. unfold Bio.after_binit.
  destruct (Bio.binit s); [|done..]. destruct Hw as [_ Hf]. unfold Bio.frame in Hf. by injection Hf.
Qed.

Lemma demo_header : is_header (Bio.dsec demo_disk 3) [].
Proof.
  split; [by vm_compute|]. split; [apply sub_bytes; by apply Bio.zeros_ok|].
  split; [by vm_compute|]. intros i v Hi. by rewrite lookup_nil in Hi.
Qed.

Lemma demo_idle : idle demo demo_home /\ Bio.cache (bio demo) ∅ ∅ demo_home /\ disk demo = demo_disk /\
  Bio.disksize (bio demo) = 7.
Proof.
  destruct (Bio.binit_cache demo_bio0 log_demo_boot) as [Hc Hd].
  destruct (binit_facts demo_bio0 log_demo_boot) as [Hm _]. pose proof demo_header as Hh.
  assert (disk demo = demo_disk) as Hdisk by exact Hm.
  split; [|split; [exact Hc|split; [exact Hdisk|exact Hd]]]. split.
  - exists demo_home. exact Hc.
  - split; [reflexivity|reflexivity|done|done| |reflexivity]. cbn [bio demo start size]. rewrite Hd. done.
  - reflexivity.
  - reflexivity.
  - intros m _. by rewrite Hdisk.
  - rewrite Hdisk. exact Hh.
Qed.

Lemma avail_empty n : avail ∅ (list_to_set []) n.
Proof. right. rewrite dom_empty_L, union_empty_l_L. cbn [list_to_set]. rewrite size_empty. lia. Qed.

(** one block through a whole transaction body *)
Lemma txn_spec s home view :
  idle s home -> Bio.cache (bio s) ∅ ∅ view -> 1 < start s -> 2 < size s ->
  wp txn (fun _ s' => trans s' ∅ ∅ (Bio.vupd view 1 demo_block) [1] home /\ same_geom s s') s.
Proof.
  intros Hi Hc Hst Hsz. destruct (begin_trans_spec s home view Hi Hc) as [Hbegin Ht].
  unfold txn. wp_step. eapply wp_eq; [exact Hbegin|]. clear Hbegin. set (s1 := wb _ _) in *.
  assert (same_geom s s1) as Hg1 by done. clearbody s1.
  assert (start s1 = start s /\ size s1 = size s) as [Est Esz] by (destruct Hg1; done).
  wp_step. eapply (t_bread s1 ∅ ∅ view [] home Ht 1); [apply lookup_empty|lia|apply avail_empty|].
  intros b s2 Ht2 Hg2 _. pose proof (lookup_insert_eq (∅ : gmap Z Z) 1 b) as Hb.
  wp_step. eapply (t_set_bdata s2 _ _ _ _ _ Ht2 1 b Hb); [apply length_replicate|apply Bio.zeros_ok; lia|].
  intros s3 Ht3 Hg3 _. wp_step.
  assert (size s3 = size s) as Esz3 by (destruct Hg2, Hg3; congruence).
  eapply (t_log_write s3 _ _ _ _ _ Ht3 1 b Hb); [cbn; lia|rewrite Esz3; cbn; lia| |].
  { rewrite dom_insert_L, dom_empty_L. cbn [list_to_set]. rewrite !union_empty_r_L, size_singleton. lia. }
  intros s4 Ht4 Hg4. eapply (t_brelse s4 _ _ _ _ _ Ht4 1 b Hb); [set_solver|].
  intros s5 Ht5 Hg5 _. rewrite delete_insert_id in Ht5 by apply lookup_empty.
  assert (({[1]} ∪ ∅) ∖ {[1]} = (∅ : gset Z)) as E by set_solver. rewrite E in Ht5.
  split; [exact Ht5|]. do 4 (eapply same_geom_trans; [eassumption|]). done.
Qed.

Lemma after_txn_spec s home view :
  idle s home -> Bio.cache (bio s) ∅ ∅ view -> 1 < start s -> 2 < size s ->
  trans (after_txn s) ∅ ∅ (Bio.vupd view 1 demo_block) [1] home /\ same_geom s (after_txn s).
Proof.
  intros Hi Hc H1 H2. pose proof (txn_spec s home view Hi Hc H1 H2) as Hw.
  unfold wp in Hw. unfold after_txn. destruct (txn s) as [[] s'| | | | |]; [exact Hw|done..].
Qed.
Lemma demo_trans : trans (after_txn demo) ∅ ∅ (Bio.vupd demo_home 1 demo_block) [1] demo_home /\
  same_geom demo (after_txn demo).
Proof.
  destruct demo_idle as (Hi & Hc & _). exact (after_txn_spec demo demo_home demo_home Hi Hc eq_refl eq_refl).
Qed.

(** C1: a transaction is atomic across a crash at any point
    of its commit.  commit_trans of up to nine logged blocks returns, leaves
    the log idle and the new contents [view] at home on the disk; and if the
    machine stops after any number [k] of the sector writes it makes, then on
    a machine booted from that disk recover_from_log yields exactly the
    contents from before the transaction (k = 0, header not yet written) or
    exactly the new ones (k > 0): never a mixture. *)
Theorem log_crash_atomic s view secs home :
  trans s ∅ ∅ view secs home -> (length secs < 10)%nat ->
  exists s' W, commit_trans s = Done tt s' /\ idle s' view /\ hist s' = hist s ++ W /\
    forall k sc, booted sc (apply_writes (take k W) (disk s)) (start s) (size s) ->
      Bio.disksize (bio sc) = Bio.disksize (bio s) ->
      exists sr, recover_from_log sc = Done tt sr /\
        idle sr (if decide (k = 0%nat) then home else view).
Proof.
  intros Ht Hl. pose proof (commit_trans_spec s view secs home Ht Hl) as Hw.
  apply wp_done in Hw as ([] & s' & Hrun & Hi & _ & W & Hh & _ & Hrec).
  exists s', W. split; [done|]. split; [done|]. split; [done|]. intros k sc Hb Hd.
  pose proof Hb as (_ & _ & _ & _ & Est & Esz).
  pose proof (recover_spec sc (apply_writes (take k W) (disk s)) (if decide (k = 0%nat) then home else view)) as Hw.
  cbn zeta in Hw. rewrite Hd, Est, Esz in Hw. specialize (Hw Hb (Hrec k)).
  apply wp_done in Hw as ([] & sr & Hr & Hir & _). by exists sr.
Qed.

Lemma log_crash_atomic_witness :
  exists s' W, commit_trans (after_txn demo) = Done tt s' /\ idle s' (Bio.vupd demo_home 1 demo_block) /\
    hist s' = hist (after_txn demo) ++ W.
Proof.
  destruct demo_trans as [Ht _].
  destruct (log_crash_atomic (after_txn demo) _ [1] demo_home Ht) as (s' & W & H1 & H2 & H3 & _); [cbn; lia|].
  exists s', W. split; [exact H1|]. split; [exact H2|exact H3].
Defined.

(** C28: recover_from_log brings any recoverable disk to its
    target contents with an empty log, and may itself be interrupted: after
    any prefix of the writes it makes the disk is still recoverable to the
    same target, so recovering again after a crash during recovery (any number
    of times) ends the same way. *)
Theorem recovery_idempotent s D target :
  booted s D (start s) (size s) -> recoverable (start s) (size s) (Bio.disksize (bio s)) D target ->
  exists s' W, recover_from_log s = Done tt s' /\ idle s' target /\ hist s' = hist s ++ W /\
    forall k, recoverable (start s) (size s) (Bio.disksize (bio s)) (apply_writes (take k W) D) target.
Proof.
  intros Hb Hr. pose proof (recover_spec s D target Hb Hr) as Hw.
  apply wp_done in Hw as ([] & s' & Hrun & Hi & _ & _ & W & Hh & _ & Hrec). by exists s', W.
Qed.

Lemma demo_booted : booted demo demo_disk (start demo) (size demo).
Proof.
  destruct demo_idle as ([_ Hg Hb _ _ _] & Hc & Hd & _). split; [exact Hc|]. split; [exact Hd|].
  split; [exact Hg|]. split; [exact Hb|]. by split.
Qed.
Lemma recovery_idempotent_witness :
  exists s' W, recover_from_log demo = Done tt s' /\ idle s' demo_home /\ hist s' = hist demo ++ W.
Proof.
  destruct (recovery_idempotent demo demo_disk demo_home demo_booted) as (s' & W & H1 & H2 & H3 & _).
  - apply empty_log_recoverable; [exact demo_header|cbn; lia|]. intros m _. reflexivity.
  - exists s', W. split; [exact H1|]. split; [exact H2|exact H3].
Defined.

(** inside a transaction log_write of a held block makes
    one sector write, of the block's contents to the block's slot in the log
    area: a block logged before keeps its slot (absorption), a new one is
    appended.  The block stays in the cache, and every home block on the disk
    is untouched, so that a crash now still recovers the old contents. *)
Theorem log_write_correct s bz md view secs home n b :
  trans s bz md view secs home -> bz !! n = Some b ->
  (length secs < 10)%nat -> Z.of_nat (length secs) < size s - 1 ->
  (base.size (dom bz ∪ list_to_set secs) < 10)%nat ->
  exists s' i, log_write b s = Done tt s' /\
    trans s' bz (md ∖ {[n]}) view (logged secs n) home /\
    hist s' = hist s ++ [(start s + 1 + Z.of_nat i, view n)] /\
    recoverable (start s') (size s') (Bio.disksize (bio s')) (disk s') home.
Proof.
  intros Ht Hb H1 H2 H3. pose proof (log_write_spec s bz md view secs home n b Ht Hb H1 H2 H3) as Hw.
  apply wp_done in Hw as ([] & s' & Hrun & Ht' & _ & i & Hh). exists s', i.
  split; [done|]. split; [done|]. split; [done|].
  destruct Ht'. apply empty_log_recoverable; [done|by apply gm_size|done].
Qed.

(** a block read in a fresh transaction *)
Definition hold (n : Z) : M st Z := begin_trans ;; bread 1 n.
Lemma hold_spec s home view n :
  idle s home -> Bio.cache (bio s) ∅ ∅ view -> 0 <= n < start s ->
  exists b s', hold n s = Done b s' /\ trans s' (<[n := b]> ∅) ∅ view [] home /\ same_geom s s'.
Proof.
  intros Hi Hc Hn. destruct (begin_trans_spec s home view Hi Hc) as [Hbegin Ht].
  assert (wp (hold n) (fun b s' => trans s' (<[n := b]> ∅) ∅ view [] home /\ same_geom s s') s) as Hw.
  { unfold hold. wp_step. eapply wp_eq; [exact Hbegin|]. clear Hbegin. set (s1 := wb _ _) in *.
    assert (same_geom s s1) as Hg1 by done. clearbody s1.
    eapply (t_bread s1 ∅ ∅ view [] home Ht n); [apply lookup_empty|by rewrite (sg_start _ _ Hg1)|apply avail_empty|].
    intros b s2 Ht2 Hg2 _. split; [exact Ht2|by eapply same_geom_trans]. }
  apply wp_done in Hw as (b & s' & Hrun & Ht' & Hs). by exists b, s'.
Qed.
Lemma demo_held : exists s b, hold 1 demo = Done b s /\
  trans s (<[1 := b]> ∅) ∅ demo_home [] demo_home /\ size s = 4.
Proof.
  destruct demo_idle as (Hi & Hc & _).
  destruct (hold_spec demo demo_home demo_home 1 Hi Hc ltac:(cbn; lia)) as (b & s & H1 & H2 & H3).
  exists s, b. split; [exact H1|]. split; [exact H2|]. exact (sg_size _ _ H3).
Qed.
Lemma log_write_correct_witness :
  exists s b s' i, hold 1 demo = Done b s /\ log_write b s = Done tt s' /\
    hist s' = hist s ++ [(start s + 1 + Z.of_nat i, demo_home 1)].
Proof.
  destruct demo_held as (s & b & Hrun & Ht & Hs).
  destruct (log_write_correct s _ _ _ _ _ 1 b Ht (lookup_insert_eq _ _ _)) as (s' & i & Hlw & _ & Hh & _).
  - cbn. lia.
  - rewrite Hs. cbn. lia.
  - rewrite dom_insert_L, dom_empty_L. cbn [list_to_set]. rewrite !union_empty_r_L, size_singleton. lia.
  - exists s, b, s', i. split; [exact Hrun|]. split; [exact Hlw|exact Hh].
Defined.

(** LOGSIZE is 10, but a transaction can never log a tenth
    block: with nine logged (and therefore pinned in the cache) and the tenth
    in use, no buffer is left for its log block and bget panics. *)
Theorem log_cache_limit s n b view secs home :
  trans s (<[n := b]> ∅) ∅ view secs home -> length secs = 9%nat -> (n ∉ secs) -> 10 < size s ->
  log_write b s = Panic "bget: no buffers".
Proof.
  intros [(v & Hc & Hv) Hg Hb Hlh Hroom Hnd _ _ _ _ Hused _] H9 Hni Hsz.
  destruct (cache_disk _ _ _ _ Hc) as (Hdk & Hszb & Hdb).
  pose proof Hg as [Hdev Hlk Hst Hsize Hend Hsec]. pose proof Hlh as [Hn Hl Hat Hrg].
  assert ((<[n := b]> ∅ : gmap Z Z) !! n = Some b) as Hbn by apply lookup_insert_eq.
  destruct (Bio.cache_held _ _ _ _ _ _ Hc Hbn) as (x & Hld & _ & Hxd & Hxs & _ & _ & _ & Hnr & _).
  unfold log_write. erewrite bind_done by reflexivity. unfold LOGSIZE. rewrite Hn, H9.
  rewrite (proj2 (Z.leb_gt _ _)), (proj2 (Z.leb_gt _ _)) by lia. erewrite bind_done by reflexivity.
  rewrite Hb. erewrite bind_done by reflexivity.
  erewrite bind_done by (unfold zoom; cbn [lget bio_lens]; rewrite Hld; reflexivity).
  assert (lset bio_lens (bio s) s = s) as -> by (by destruct s).
  rewrite Hxs, Hxd. destruct (absorb_spec s secs n Hlh ltac:(lia) Hnd) as (i & Hrun & Hi).
  rewrite Hn, H9 in Hrun. erewrite bind_done by exact Hrun.
  destruct Hi as [Hi|[_ ->]]; [destruct Hni; by eapply list_elem_of_lookup_2|]. rewrite H9.
  destruct (at_is_Some (lh_sector s) (Z.of_nat 9) ltac:(lia)) as [w Hw].
  unfold st_sector, ld_sector. rewrite bind_assoc.
  erewrite bind_done by (unfold deref; rewrite Hw; reflexivity).
  erewrite bind_done by reflexivity. unfold bread at 1.
  unfold mbind at 1, M_bind at 1, zoom at 1. cbn [lget bio_lens bio].
  assert (u32 (start s + Z.of_nat 9 + 1) = start s + 10) as -> by (unfold u32; rewrite Z.mod_small; lia).
  rewrite (Bio.bread_no_buffers _ _ _ _ _ Hc); [done| | |].
  - rewrite lookup_insert_ne; [apply lookup_empty|]. pose proof (Hused _ _ Hbn). lia.
  - rewrite elem_of_list_to_set. intros Hin%Hrg. lia.
  - rewrite dom_insert_L, dom_empty_L, union_empty_r_L, size_union, size_singleton, size_list_to_set, H9 by
      (done || (apply disjoint_singleton_l; by rewrite elem_of_list_to_set)). lia.
Qed.

(** nine blocks logged one after the other *)
Fixpoint log_blocks (l : list Z) : M st unit :=
  match l with
  | [] => mret tt
  | n :: l => b ← bread 1 n; log_write b ;; brelse b ;; log_blocks l
  end.
Lemma log_blocks_spec l s view secs home :
  trans s ∅ ∅ view secs home -> NoDup (secs ++ l) -> (length (secs ++ l) < 10)%nat ->
  Z.of_nat (length (secs ++ l)) <= size s - 1 -> (forall n, n ∈ l -> 0 <= n < start s) ->
  wp (log_blocks l) (fun _ s' => trans s' ∅ ∅ view (secs ++ l) home /\ same_geom s s') s.
Proof.
  revert s secs. induction l as [|n l IH]; intros s secs Ht Hnd H10 Hsz Hr; cbn [log_blocks].
  { wp_step. rewrite app_nil_r. split; [done|apply same_geom_refl]. }
  rewrite length_app in *. cbn [length] in *.
  assert (NoDup secs /\ n ∉ secs) as [Hns Hni].
  { apply NoDup_app in Hnd as (H1 & H2 & _). split; [done|]. intros Hin. apply (H2 n Hin). in_list. }
  assert (base.size (list_to_set (C := gset Z) secs) = length secs) as Hs by (by apply size_list_to_set).
  wp_step. eapply (t_bread s ∅ ∅ view secs home Ht n); [apply lookup_empty|apply Hr; in_list| |].
  { right. rewrite dom_empty_L, union_empty_l_L. lia. }
  intros b s1 Ht1 Hg1 _. pose proof (lookup_insert_eq (∅ : gmap Z Z) n b) as Hb.
  assert (size s1 = size s) as Es1 by apply Hg1.
  wp_step. eapply (t_log_write s1 _ _ _ _ _ Ht1 n b Hb); [lia|lia| |].
  { rewrite dom_insert_L, dom_empty_L, union_empty_r_L, size_union, size_singleton by
      (apply disjoint_singleton_l; by rewrite elem_of_list_to_set). lia. }
  intros s2 Ht2 Hg2. wp_step.
  eapply (t_brelse s2 _ _ _ _ _ Ht2 n b Hb); [set_solver|]. intros s3 Ht3 Hg3 _.
  rewrite delete_insert_id in Ht3 by apply lookup_empty.
  assert (∅ ∖ {[n]} = (∅ : gset Z)) as E by set_solver. rewrite E in Ht3.
  assert (logged secs n = secs ++ [n]) as El by (unfold logged; by rewrite decide_False). rewrite El in Ht3.
  assert (same_geom s s3) as Hg by (do 2 (eapply same_geom_trans; [eassumption|]); done).
  eapply wp_mono; [apply (IH s3 (secs ++ [n])); [done|by rewrite <-app_assoc| | |]|].
  - rewrite !length_app. cbn. lia.
  - rewrite !length_app. cbn. rewrite (sg_size _ _ Hg). lia.
  - intros m Hm. rewrite (sg_start _ _ Hg). apply Hr. in_list.
  - cbn beta. intros _ s' [Ht' Hg']. rewrite <-app_assoc in Ht'. split; [done|by eapply same_geom_trans].
Qed.

Definition full_disk : list Z := replicate (Z.to_nat 11264) 0.
Definition full_bio0 : Bio.st :=
  Bio.St false (replicate 11 (Bio.Buf 0 0 0 0 0 (replicate 512 0))) full_disk 22 [] [].
Definition full_demo : st := St (Bio.after_binit full_bio0) false 11 11 0 1 0 (replicate 10 0) [].
Definition log_nine : M st Z := begin_trans ;; log_blocks [1; 2; 3; 4; 5; 6; 7; 8; 9] ;; bread 1 10.

Lemma zero_disk_boot D sz :
  D = replicate (Z.to_nat (512 * sz)) 0 -> 0 <= sz <= 2 ^ 23 ->
  Bio.boot (Bio.St false (replicate 11 (Bio.Buf 0 0 0 0 0 (replicate 512 0))) D sz [] []).
Proof.
  intros -> Hsz. split.
  - reflexivity.
  - intros i x Hx. unfold at_ in Hx. destruct (0 <=? i); [|done].
    apply lookup_replicate_1 in Hx as [-> _]. cbn [Bio.flags Bio.data].
    split; [done|]. split; [done|]. split; [apply length_replicate|by apply Bio.zeros_ok].
  - cbn [Bio.memdisk Bio.disksize]. rewrite length_replicate. lia.
  - by apply Bio.zeros_ok.
  - cbn [Bio.disksize]. lia.
Qed.

Lemma zero_header n i : is_header (Bio.dsec (replicate n 0) i) [] \/ length (Bio.dsec (replicate n 0) i) <> 512%nat.
Proof.
  destruct (decide (length (Bio.dsec (replicate n 0) i) = 512%nat)) as [E|]; [left|by right].
  assert (Bio.dsec (replicate n 0) i = replicate 512 0) as ->.
  { unfold Bio.dsec, sub in *. rewrite drop_replicate, take_replicate in *. rewrite length_replicate in E.
    by rewrite E. }
  split; [by rewrite length_replicate|]. split; [by apply Bio.zeros_ok|].
  split; [by vm_compute|]. intros j v Hj. by rewrite lookup_nil in Hj.
Qed.

Lemma zero_idle s D sz :
  D = replicate (Z.to_nat (512 * sz)) 0 -> 0 <= sz <= 2 ^ 23 ->
  bio s = Bio.after_binit (Bio.St false (replicate 11 (Bio.Buf 0 0 0 0 0 (replicate 512 0))) D sz [] []) ->
  dev s = 1 -> lock s = false -> 0 < start s -> 1 <= size s -> start s + size s <= sz ->
  length (lh_sector s) = 10%nat -> busy s = 0 -> lh_n s = 0 ->
  idle s (Bio.dsec D) /\ Bio.cache (bio s) ∅ ∅ (Bio.dsec D).
Proof.
  intros HD Hsz Hbio Hdev Hl Hst Hz Hend Hs Hb Hn. pose proof (zero_disk_boot D sz HD Hsz) as Hboot.
  destruct (Bio.binit_cache _ Hboot) as [Hc Hd]. destruct (binit_facts _ Hboot) as [Hm _].
  rewrite <-Hbio in Hc, Hd, Hm. cbn [Bio.memdisk Bio.disksize] in Hc, Hd, Hm.
  split; [|exact Hc]. split; [by eexists| |exact Hb|exact Hn| |].
  - split; [exact Hdev|exact Hl|exact Hst|exact Hz|by rewrite Hd|exact Hs].
  - intros m _. unfold disk. by rewrite Hm.
  - unfold disk. rewrite Hm, HD. destruct (zero_header (Z.to_nat (512 * sz)) (start s)) as [?|Hx]; [done|].
    destruct Hx. eapply Bio.length_dsec; [rewrite length_replicate; by rewrite Z2Nat.id by lia|lia].
Qed.

Lemma log_nine_spec s home view :
  idle s home -> Bio.cache (bio s) ∅ ∅ view -> 10 < start s -> 10 < size s ->
  exists b s', log_nine s = Done b s' /\
    trans s' (<[10 := b]> ∅) ∅ view [1; 2; 3; 4; 5; 6; 7; 8; 9] home /\ size s' = size s.
Proof.
  intros Hi Hc Hst Hsz. destruct (begin_trans_spec s home view Hi Hc) as [Hbegin Ht].
  assert (wp log_nine (fun b s' => trans s' (<[10 := b]> ∅) ∅ view [1; 2; 3; 4; 5; 6; 7; 8; 9] home /\
    size s' = size s) s) as Hw.
  { unfold log_nine. wp_step. eapply wp_eq; [exact Hbegin|]. clear Hbegin. set (s1 := wb _ _) in *.
    assert (same_geom s s1) as Hg1 by done. clearbody s1.
    pose proof (sg_start _ _ Hg1). pose proof (sg_size _ _ Hg1).
    wp_step. eapply wp_mono; [apply (log_blocks_spec [1; 2; 3; 4; 5; 6; 7; 8; 9] s1 view [] home Ht)|].
    - by apply (bool_decide_unpack _).
    - cbn. lia.
    - cbn. lia.
    - intros n Hn. assert (1 <= n <= 9); [|lia]. clear -Hn.
      repeat (apply elem_of_cons in Hn as [->|Hn]; [lia|]). by apply elem_of_nil in Hn.
    - cbn beta. cbn [app]. intros _ s2 [Ht2 Hg2].
      eapply (t_bread s2 ∅ ∅ view _ home Ht2 10); [apply lookup_empty| | |].
      + rewrite (sg_start _ _ Hg2). lia.
      + right. rewrite dom_empty_L, union_empty_l_L. eapply Nat.le_lt_trans.
        { rewrite size_list_to_set by (by apply (bool_decide_unpack _)). reflexivity. }
        cbn. lia.
      + intros b s3 Ht3 Hg3 _. split; [exact Ht3|].
        rewrite (sg_size _ _ Hg3), (sg_size _ _ Hg2). lia. }
  apply wp_done in Hw as (b & s' & Hrun & H1 & H2). by exists b, s'.
Qed.

Lemma log_cache_limit_witness :
  exists b s, log_nine full_demo = Done b s /\ log_write b s = Panic "bget: no buffers".
Proof.
  destruct (zero_idle full_demo full_disk 22 eq_refl) as [Hi Hc];
    [lia|reflexivity|reflexivity|reflexivity|reflexivity|discriminate|discriminate|reflexivity|reflexivity|reflexivity|].
  destruct (log_nine_spec full_demo _ _ Hi Hc eq_refl eq_refl) as (b & s & Hrun & Ht & Hs).
  exists b, s. split; [exact Hrun|].
  refine (log_cache_limit s 10 b _ _ _ Ht eq_refl _ _).
  - exact (bool_decide_unpack (10 ∉ [1; 2; 3; 4; 5; 6; 7; 8; 9]) I).
  - rewrite Hs. reflexivity.
Defined.

End Log.
