(* ===== verification/Store.v ===== *)
(** * The transaction interface of the file system

    What log.c and bio.c promise to fs.c: the operations fs.c calls on them
    ([BlockStore]) and their laws ([BlockStoreLaws]).  The state of the layer
    below is seen through [holds act s bz md view lg]: [act] says whether a
    transaction is open, [bz] maps the blocks held by the caller to their
    buffers, [md] are the held blocks changed since they were last logged,
    [view n] is what block [n] currently contains, and [lg] the blocks the
    transaction has logged.  The file system (Fs.v) is proved against the
    laws; the instances at the end of this file discharge them with Log.v. *)

From S2P Require Import Prelude.
From S2P Require Import Bytes.
From S2P Require Import Bio.
From S2P Require Import Log.

Class BlockStore (S : Type) : Type := {
  b_bread : Z -> Z -> M S Z;             (* bread(dev, n) *)
  b_data : Z -> M S (list Z);            (* bp->data *)
  b_set : Z -> list Z -> M S unit;       (* a store through bp->data *)
  b_log : Z -> M S unit;                 (* log_write(bp) *)
  b_brelse : Z -> M S unit;              (* brelse(bp) *)
  b_begin : M S unit;                    (* begin_trans() *)
  b_commit : M S unit;                   (* commit_trans() *)
}.

Class BlockStoreLaws (S : Type) {BS : BlockStore S} : Type := {
  holds : bool -> S -> gmap Z Z -> gset Z -> (Z -> list Z) -> gset Z -> Prop;
  nblk : S -> Z;   (* blocks below this number may be used *)
  cap : S -> Z;    (* how many blocks a transaction may log *)
  bs_nblk a s bz md view lg : holds a s bz md view lg -> 0 < nblk s <= 2 ^ 23;
  bs_view a s bz md view lg n : holds a s bz md view lg -> 0 <= n < nblk s ->
    length (view n) = 512%nat /\ bytes_ok (view n);
  bs_read a s bz md view lg n : holds a s bz md view lg -> bz !! n = None -> 0 <= n < nblk s ->
    (n ∈ lg) \/ (base.size (dom bz ∪ lg) < 10)%nat ->
    wp (b_bread 1 n) (fun b s' => holds a s' (<[n := b]> bz) md view lg /\
      nblk s' = nblk s /\ cap s' = cap s) s;
  bs_data a s bz md view lg n b : holds a s bz md view lg -> bz !! n = Some b ->
    wp (b_data b) (fun d s' => d = view n /\ s' = s) s;
  bs_set s bz md view lg n b d : holds true s bz md view lg -> bz !! n = Some b ->
    length d = 512%nat -> bytes_ok d ->
    wp (b_set b d) (fun _ s' => holds true s' bz ({[n]} ∪ md) (Bio.vupd view n d) lg /\
      nblk s' = nblk s /\ cap s' = cap s) s;
  bs_log s bz md view lg n b : holds true s bz md view lg -> bz !! n = Some b ->
    Z.of_nat (base.size lg) < cap s -> (base.size (dom bz ∪ lg) < 10)%nat ->
    wp (b_log b) (fun _ s' => holds true s' bz (md ∖ {[n]}) view ({[n]} ∪ lg) /\
      nblk s' = nblk s /\ cap s' = cap s) s;
  bs_brelse a s bz md view lg n b : holds a s bz md view lg -> bz !! n = Some b -> (n ∉ md) ->
    wp (b_brelse b) (fun _ s' => holds a s' (delete n bz) md view lg /\
      nblk s' = nblk s /\ cap s' = cap s) s;
  bs_begin s view : holds false s ∅ ∅ view ∅ ->
    wp b_begin (fun _ s' => holds true s' ∅ ∅ view ∅ /\ nblk s' = nblk s /\ cap s' = cap s) s;
  bs_commit s view lg : holds true s ∅ ∅ view lg -> Z.of_nat (base.size lg) <= cap s ->
    wp b_commit (fun _ s' => holds false s' ∅ ∅ view ∅ /\ nblk s' = nblk s /\ cap s' = cap s) s;
}.

Module Store.

(** ** The log implements the interface *)

#[export] Instance log_store : BlockStore Log.st := {
  b_bread := Log.bread;
  b_data := Log.bdata;
  b_set := Log.set_bdata;
  b_log := Log.log_write;
  b_brelse := Log.brelse;
  b_begin := Log.begin_trans;
  b_commit := Log.commit_trans;
}.

Definition with_busy (b : Z) (s : Log.st) : Log.st :=
  Log.St (Log.bio s) (Log.lock s) (Log.start s) (Log.size s) b (Log.dev s) (Log.lh_n s)
    (Log.lh_sector s) (Log.wakes s).

Definition log_cap (s : Log.st) : Z := Z.min 9 (Log.size s - 1).

(** Outside a transaction the buffers are those of one that has logged
    nothing, were it opened now. *)
Definition log_holds (act : bool) (s : Log.st) (bz : gmap Z Z) (md : gset Z)
    (view : Z -> list Z) (lg : gset Z) : Prop :=
  Log.busy s = b2z act /\ (act = false -> md = ∅ /\ lg = ∅) /\
  exists secs home, lg = list_to_set secs /\ Log.trans (with_busy 1 s) bz md view secs home.

(** Code that only touches the buffers does not see the flag. *)
Lemma zoom_busy {A} (m : M Bio.st A) b s Q :
  wp (zoom Log.bio_lens m) (fun x s' => Log.busy s' = b -> Q x (with_busy (Log.busy s) s')) (with_busy b s) ->
  wp (zoom Log.bio_lens m) Q s.
Proof.
  unfold wp, zoom. destruct s as [B l st sz bs d n sec w]. cbn.
  destruct (m B) as [x B'| | | | |]; [|done..]. intros H. exact (H eq_refl).
Qed.

Lemma with_busy_id s : with_busy (Log.busy s) s = s.
Proof. by destruct s. Qed.
Lemma with_busy2 b c s : with_busy b (with_busy c s) = with_busy b s.
Proof. done. Qed.

Lemma same_geom_bounds s s' : Log.same_geom s s' ->
  Log.start s' = Log.start s /\ log_cap s' = log_cap s.
Proof. intros [H1 H2 _]. split; [done|]. unfold log_cap. by rewrite H2. Qed.

(** [Log.trans] only looks at the blocks below the log *)
Lemma trans_view_ext s bz md view view' secs home :
  Log.trans s bz md view secs home -> (forall m, 0 <= m < Log.start s -> view m = view' m) ->
  Log.trans s bz md view' secs home.
Proof.
  intros [(v & Hc & Hv) Hg Hb Hlh Hroom Hnd Hcopy Hother Hhome Hhdr Hu Hmd] He.
  split; try done.
  - exists v. split; [done|]. intros m Hm. by rewrite Hv, He.
  - intros i x Hi Hx. rewrite <-He; [by apply Hcopy|].
    apply (Log.lh_range _ _ Hlh). by eapply list_elem_of_lookup_2.
  - intros m Hm Hs Hx. rewrite <-He by done. by apply Hother.
Qed.

Section laws.
  Context (s : Log.st) (bz : gmap Z Z) (md : gset Z) (view : Z -> list Z) (lg : gset Z).

Lemma log_holds_intro a secs home s' bz' md' view' :
    Log.trans s' bz' md' view' secs home -> (a = false -> md' = ∅ /\ secs = []) -> Log.busy s' = 1 ->
    log_holds a (with_busy (b2z a) s') bz' md' view' (list_to_set secs).
Proof.
  intros Ht Ha Hb. split; [done|]. split.
  - intros E. destruct (Ha E) as [-> ->]. done.
  - exists secs, home. split; [done|]. rewrite with_busy2, <-Hb, with_busy_id. done.
Qed.

Lemma log_read a n : log_holds a s bz md view lg -> bz !! n = None -> 0 <= n < Log.start s ->
    (n ∈ lg) \/ (base.size (dom bz ∪ lg) < 10)%nat ->
    wp (Log.bread 1 n) (fun b s' => log_holds a s' (<[n := b]> bz) md view lg /\
      Log.start s' = Log.start s /\ log_cap s' = log_cap s) s.
Proof.
  intros (Hb & Ha & secs & home & -> & Ht) Hn Hr Hav. unfold Log.bread. apply (zoom_busy _ 1).
  eapply (Log.t_bread _ _ _ _ _ _ Ht n); [done|done|done|]. intros b s' Ht' Hg _ Hb'.
  apply same_geom_bounds in Hg as [H1 H2]. rewrite Hb. split; [|done].
  eapply log_holds_intro; [done| |done]. intros E. destruct (Ha E) as [-> E2].
  split; [done|]. destruct secs; [done|]. set_solver.
Qed.

Lemma log_data a n b : log_holds a s bz md view lg -> bz !! n = Some b ->
    wp (Log.bdata b) (fun d s' => d = view n /\ s' = s) s.
Proof.
  intros (Hb & _ & secs & home & -> & Ht) Hn. unfold Log.bdata. apply (zoom_busy _ 1).
  eapply (Log.t_bdata _ _ _ _ _ _ Ht n b Hn). intros _. split; [done|].
  rewrite with_busy2. apply with_busy_id.
Qed.

Lemma log_set n b d : log_holds true s bz md view lg -> bz !! n = Some b ->
    length d = 512%nat -> bytes_ok d ->
    wp (Log.set_bdata b d) (fun _ s' => log_holds true s' bz ({[n]} ∪ md) (Bio.vupd view n d) lg /\
      Log.start s' = Log.start s /\ log_cap s' = log_cap s) s.
Proof.
  intros (Hb & _ & secs & home & -> & Ht) Hn Hl Hd. unfold Log.set_bdata. apply (zoom_busy _ 1).
  eapply (Log.t_set_bdata _ _ _ _ _ _ Ht n b Hn); [done|done|]. intros s' Ht' Hg _ Hb'.
  apply same_geom_bounds in Hg as [H1 H2]. rewrite Hb. split; [|done].
  eapply (log_holds_intro true); done.
Qed.

Lemma log_logs n b : log_holds true s bz md view lg -> bz !! n = Some b ->
    Z.of_nat (base.size lg) < log_cap s -> (base.size (dom bz ∪ lg) < 10)%nat ->
    wp (Log.log_write b) (fun _ s' => log_holds true s' bz (md ∖ {[n]}) view ({[n]} ∪ lg) /\
      Log.start s' = Log.start s /\ log_cap s' = log_cap s) s.
Proof.
  intros (Hb & _ & secs & home & -> & Ht) Hn Hcap Hav.
  assert (with_busy 1 s = s) as E by (rewrite <-(with_busy_id s) at 2; by rewrite Hb).
  rewrite E in Ht. pose proof (Log.tr_nodup _ _ _ _ _ _ Ht) as Hnd.
  rewrite size_list_to_set in Hcap by done. unfold log_cap in Hcap.
  eapply (Log.t_log_write _ _ _ _ _ _ Ht n b Hn); [lia|lia|done|]. intros s' Ht' Hg.
  apply same_geom_bounds in Hg as [H1 H2]. split; [|done].
  rewrite Log.logged_set. pose proof (Log.tr_busy _ _ _ _ _ _ Ht') as Hb'.
  rewrite <-(with_busy_id s'), Hb'. by eapply (log_holds_intro true).
Qed.

Lemma log_brelses a n b : log_holds a s bz md view lg -> bz !! n = Some b -> (n ∉ md) ->
    wp (Log.brelse b) (fun _ s' => log_holds a s' (delete n bz) md view lg /\
      Log.start s' = Log.start s /\ log_cap s' = log_cap s) s.
Proof.
  intros (Hb & Ha & secs & home & -> & Ht) Hn Hm. unfold Log.brelse. apply (zoom_busy _ 1).
  eapply (Log.t_brelse _ _ _ _ _ _ Ht n b Hn); [done|]. intros s' Ht' Hg _ Hb'.
  apply same_geom_bounds in Hg as [H1 H2]. rewrite Hb. split; [|done].
  eapply log_holds_intro; [done| |done]. intros E. destruct (Ha E) as [-> E2].
  split; [done|]. destruct secs; [done|]. set_solver.
Qed.
End laws.

Lemma trans_idle s view home : Log.trans (with_busy 1 s) ∅ ∅ view [] home -> Log.busy s = 0 ->
  Log.idle s home /\ exists v, Bio.cache (Log.bio s) ∅ ∅ v /\ forall m, 0 <= m < Log.start s -> v m = view m.
Proof.
  intros [(v & Hc & Hv) [? ? ? ? ? ?] Hb Hlh Hroom Hnd Hcopy Hother Hhome Hhdr Hu Hmd] Hb0. split.
  - split; try done.
    + by exists v.
    + apply (Log.lh_count _ _ Hlh).
  - by exists v.
Qed.

Lemma log_begins s view : log_holds false s ∅ ∅ view ∅ ->
  wp Log.begin_trans (fun _ s' => log_holds true s' ∅ ∅ view ∅ /\
    Log.start s' = Log.start s /\ log_cap s' = log_cap s) s.
Proof.
  intros (Hb & _ & secs & home & Hs & Ht). assert (secs = []) as -> by (destruct secs; [done|set_solver]).
  destruct (trans_idle _ _ _ Ht Hb) as [Hi (v & Hc & Hv)].
  destruct (Log.begin_trans_spec s home v Hi Hc) as [Hbegin Ht'].
  eapply wp_eq; [exact Hbegin|]. clear Hbegin. set (s1 := Log.wb _ _) in *.
  split; [|by split]. rewrite <-(with_busy_id s1). eapply (log_holds_intro true [] home); [|done|done].
  by eapply trans_view_ext.
Qed.

Lemma idle_trans s home : Log.idle s home -> Log.trans (with_busy 1 s) ∅ ∅ home [] home.
Proof.
  intros [(v & Hc) Hg Hb Hn Hh Hhd]. pose proof Hg as [Hdev Hlk Hst Hsize Hend Hsec].
  split; try done.
  - exists v. split; [done|]. intros m Hm. cbn [Log.start with_busy] in Hm. rewrite <-Hh by done.
    apply (Log.cache_clean s _ _ _ Hc); [lia|set_solver|apply lookup_empty].
  - by apply Log.lh_is_nil.
  - cbn. lia.
  - apply NoDup_nil_2.
Qed.

Lemma log_commits s view lg : log_holds true s ∅ ∅ view lg -> Z.of_nat (base.size lg) <= log_cap s ->
  wp Log.commit_trans (fun _ s' => log_holds false s' ∅ ∅ view ∅ /\
    Log.start s' = Log.start s /\ log_cap s' = log_cap s) s.
Proof.
  intros (Hb & _ & secs & home & -> & Ht) Hcap.
  assert (with_busy 1 s = s) as E by (rewrite <-(with_busy_id s) at 2; by rewrite Hb).
  rewrite E in Ht. rewrite size_list_to_set in Hcap by apply (Log.tr_nodup _ _ _ _ _ _ Ht).
  unfold log_cap in Hcap.
  eapply wp_mono; [eapply Log.commit_trans_spec; [done|lia]|]. cbn beta.
  intros [] s' (Hi & Hg & _). apply same_geom_bounds in Hg as [H1 H2]. split; [|done].
  apply idle_trans in Hi as Hi'. rewrite <-(with_busy_id s'), (Log.id_busy _ _ Hi).
  rewrite <-(with_busy2 0 1 s'). by eapply (log_holds_intro false [] view).
Qed.

Lemma log_nblk a s bz md view lg : log_holds a s bz md view lg -> 0 < Log.start s <= 2 ^ 23.
Proof.
  intros (_ & _ & secs & home & _ & [(v & Hc & _) Hg _ _ _ _ _ _ _ _ _ _]).
  destruct (Log.cache_disk _ _ _ _ Hc) as (_ & Hsz & _). destruct Hg. cbn in *. lia.
Qed.
Lemma log_view a s bz md view lg n : log_holds a s bz md view lg -> 0 <= n < Log.start s ->
  length (view n) = 512%nat /\ bytes_ok (view n).
Proof.
  intros (_ & _ & secs & home & _ & [(v & Hc & Hv) Hg _ _ _ _ _ _ _ _ _ _]) Hn.
  rewrite <-Hv by done. eapply (Log.cache_view _ _ _ _ Hc). destruct Hg. cbn in *. lia.
Qed.

#[export] Instance log_store_laws : BlockStoreLaws Log.st := {
  holds := log_holds;
  nblk := Log.start;
  cap := log_cap;
  bs_nblk := log_nblk;
  bs_view := log_view;
  bs_read a s bz md view lg n := log_read s bz md view lg a n;
  bs_data a s bz md view lg n b := log_data s bz md view lg a n b;
  bs_set s bz md view lg n b d := log_set s bz md view lg n b d;
  bs_log s bz md view lg n b := log_logs s bz md view lg n b;
  bs_brelse a s bz md view lg n b := log_brelses s bz md view lg a n b;
  bs_begin := log_begins;
  bs_commit := log_commits;
}.

(** ** A machine that has just booted *)

(** the state after binit and a recovery that found an empty log *)
Definition boot_log (D : list Z) (start size dsz : Z) : Log.st :=
  Log.St (Bio.after_binit (Bio.St false (replicate 11 (Bio.Buf 0 0 0 0 0 (replicate 512 0))) D dsz [] []))
    false start size 0 1 0 (replicate 10 0) [].

Lemma boot_idle D start size dsz :
  Z.of_nat (length D) = 512 * dsz -> bytes_ok D -> 0 <= dsz <= 2 ^ 23 ->
  0 < start -> 1 <= size -> start + size <= dsz ->
  Log.is_header (Bio.dsec D start) [] ->
  Log.idle (boot_log D start size dsz) (Bio.dsec D).
Proof.
  intros HD Hb Hsz Hst Hz Hend Hh.
  assert (Bio.boot (Bio.St false (replicate 11 (Bio.Buf 0 0 0 0 0 (replicate 512 0))) D dsz [] [])) as Hboot.
  { split; [reflexivity| |done|done|done]. intros i x Hx. unfold at_ in Hx. destruct (0 <=? i); [|done].
    apply lookup_replicate_1 in Hx as [-> _]. cbn [Bio.flags Bio.data].
    split; [done|]. split; [done|]. split; [apply length_replicate|by apply Bio.zeros_ok; lia]. }
  destruct (Bio.binit_cache _ Hboot) as [Hc Hd]. destruct (Log.binit_facts _ Hboot) as [Hm _].
  cbn [Bio.memdisk Bio.disksize] in Hc, Hd, Hm.
  split.
  - by eexists.
  - split; [exact eq_refl|exact eq_refl|exact Hst|exact Hz| |exact eq_refl].
    cbn [Log.start Log.size Log.bio boot_log]. by rewrite Hd.
  - exact eq_refl.
  - exact eq_refl.
  - intros m _. unfold Log.disk. cbn [Log.bio boot_log]. by rewrite Hm.
  - unfold Log.disk. cbn [Log.bio Log.start boot_log]. by rewrite Hm.
Qed.

(** Reading and writing may start from there. *)
Lemma boot_holds D start size dsz a :
  Z.of_nat (length D) = 512 * dsz -> bytes_ok D -> 0 <= dsz <= 2 ^ 23 ->
  0 < start -> 1 <= size -> start + size <= dsz ->
  Log.is_header (Bio.dsec D start) [] ->
  log_holds a (with_busy (b2z a) (boot_log D start size dsz)) ∅ ∅ (Bio.dsec D) ∅.
Proof.
  intros HD Hb Hsz Hst Hz Hend Hh. pose proof (idle_trans _ _ (boot_idle D start size dsz HD Hb Hsz Hst Hz Hend Hh)) as Ht.
  rewrite <-(with_busy2 (b2z a) 1). by eapply (log_holds_intro a [] (Bio.dsec D)).
Qed.

End Store.
