(* ===== verification/Fs.v ===== *)
(** * The file system's blocks and inodes (src/src/fs.c)

    balloc and bfree over the free bitmap, the inode cache, inode contents
    (bmap, readi, writei, itrunc) and stati, written against the transaction
    interface of Store.v.  A pointer to struct inode is an index in
    icache.inode, -1 is the null pointer; devsw is the class [Devsw].  A call
    that sleeps ends in [Block] with the lock it held released. *)

From S2P Require Import Prelude.
From S2P Require Import Bytes.
From S2P Require Import Bio.
From S2P Require Import Store.

Module Fs.

Definition ROOTINO : Z := 1.
Definition NDIRECT : Z := 12.
Definition NINDIRECT : Z := 128.   (* BSIZE / sizeof(uint) *)
Definition MAXFILE : Z := NDIRECT + NINDIRECT.
Definition sizeof_dinode : Z := 64.
Definition IPB : Z := 8.           (* BSIZE / sizeof(struct dinode) *)
Definition IBLOCK (i : Z) : Z := i / IPB + 2.
Definition BPB : Z := 4096.        (* BSIZE * 8 *)
Definition BBLOCK (b ninodes : Z) : Z := b / BPB + ninodes / IPB + 3.
Definition NINODE : Z := 50.
Definition NDEV : Z := 10.
Definition BSIZE : Z := 512.
Definition T_DIR : Z := 1.
Definition T_FILE : Z := 2.
Definition T_DEV : Z := 3.
Definition I_BUSY : Z := 1.
Definition I_VALID : Z := 2.
Definition NULL : Z := -1.

(** struct superblock (fs.h) *)
Record superblock := Sb { sb_size : Z; sb_nblocks : Z; sb_ninodes : Z; sb_nlog : Z }.

(** struct inode (file.h) *)
Record inode := Inode {
  i_dev : Z;
  i_inum : Z;
  i_ref : Z;
  i_flags : Z;      (* I_BUSY, I_VALID *)
  i_type : Z;       (* copy of disk inode *)
  i_major : Z;
  i_minor : Z;
  i_nlink : Z;
  i_size : Z;
  i_addrs : list Z;
}.
Definition set_ref (r : Z) (i : inode) : inode :=
  Inode (i_dev i) (i_inum i) r (i_flags i) (i_type i) (i_major i) (i_minor i) (i_nlink i) (i_size i) (i_addrs i).
Definition set_flags (f : Z) (i : inode) : inode :=
  Inode (i_dev i) (i_inum i) (i_ref i) f (i_type i) (i_major i) (i_minor i) (i_nlink i) (i_size i) (i_addrs i).
Definition set_type (t : Z) (i : inode) : inode :=
  Inode (i_dev i) (i_inum i) (i_ref i) (i_flags i) t (i_major i) (i_minor i) (i_nlink i) (i_size i) (i_addrs i).
Definition set_nlink (n : Z) (i : inode) : inode :=
  Inode (i_dev i) (i_inum i) (i_ref i) (i_flags i) (i_type i) (i_major i) (i_minor i) n (i_size i) (i_addrs i).
Definition set_size (n : Z) (i : inode) : inode :=
  Inode (i_dev i) (i_inum i) (i_ref i) (i_flags i) (i_type i) (i_major i) (i_minor i) (i_nlink i) n (i_addrs i).
Definition set_addrs (a : list Z) (i : inode) : inode :=
  Inode (i_dev i) (i_inum i) (i_ref i) (i_flags i) (i_type i) (i_major i) (i_minor i) (i_nlink i) (i_size i) a.
Definition set_major_minor (ma mi : Z) (i : inode) : inode :=
  Inode (i_dev i) (i_inum i) (i_ref i) (i_flags i) (i_type i) ma mi (i_nlink i) (i_size i) (i_addrs i).
(** the fields ilock() copies from the disk inode *)
Definition load_fields (t ma mi nl sz : Z) (a : list Z) (i : inode) : inode :=
  Inode (i_dev i) (i_inum i) (i_ref i) (i_flags i) t ma mi nl sz a.

(** struct stat (stat.h) *)
Record stat := Stat { st_type : Z; st_dev : Z; st_ino : Z; st_nlink : Z; st_size : Z }.

(** The file system's memory over a block store [B]: icache, the inode number
    of the running process's current directory and the wakeups issued. *)
Record st (B : Type) := St {
  blk : B;
  lock : bool;            (* icache.lock *)
  inodes : list inode;    (* icache.inode *)
  cwd : Z;                (* proc->cwd *)
  wakes : list chan;
}.
Arguments St {B}.
Arguments blk {B}.
Arguments lock {B}.
Arguments inodes {B}.
Arguments cwd {B}.
Arguments wakes {B}.

Definition has (f bit : Z) : bool := negb (Z.land f bit =? 0).
(** memory read or written by memmove(), as a slice of an object *)
Definition slice (x : list Z) (o n : Z) : option (list Z) :=
  if (0 <=? o) && (o + n <=? Z.of_nat (length x)) then Some (sub x (Z.to_nat o) (Z.to_nat n)) else None.
Definition splice (x : list Z) (o : Z) (d : list Z) : option (list Z) :=
  if (0 <=? o) && (o + Z.of_nat (length d) <=? Z.of_nat (length x)) then Some (blit x (Z.to_nat o) d) else None.
(** uint a[] as bytes and back *)
Definition enc32s (a : list Z) : list Z := concat (le 4 <$> a).
Fixpoint dec32s (n : nat) (x : list Z) : list Z :=
  match n with O => [] | S n => of_le (take 4 x) :: dec32s n (drop 4 x) end.

(** devsw[major].read and .write: [None] is a null function pointer.  read
    returns its result with the bytes it stored at dst. *)
Class Devsw (B : Type) : Type := {
  dev_read : Z -> option (Z -> Z -> M (st B) (Z * list Z));
  dev_write : Z -> option (Z -> list Z -> Z -> M (st B) Z);
}.

Section fs.
Context {B : Type} {BS : BlockStore B} {DV : Devsw B}.

Definition set_blk (b : B) (s : st B) : st B := St b (lock s) (inodes s) (cwd s) (wakes s).
Definition blk_lens : lens (st B) B := Lens blk set_blk.
Definition icache_lock : lens (st B) bool :=
  Lens lock (fun b s => St (blk s) b (inodes s) (cwd s) (wakes s)).
Definition ch_inode (ip : Z) : chan := Chan "inode" ip.
Definition wakeup (c : chan) : M (st B) unit :=
  modify (fun s => St (blk s) (lock s) (inodes s) (cwd s) (wakes s ++ [c])).
Definition ld_ip (ip : Z) : M (st B) inode := deref (fun s => at_ (inodes s) ip).
Definition up_ip (ip : Z) (f : inode -> inode) : M (st B) unit :=
  x ← ld_ip ip;
  modify (fun s => St (blk s) (lock s) (put (inodes s) ip (f x)) (cwd s) (wakes s)).

Definition bread (d n : Z) : M (st B) Z := zoom blk_lens (b_bread d n).
Definition bdata (b : Z) : M (st B) (list Z) := zoom blk_lens (b_data b).
Definition set_bdata (b : Z) (x : list Z) : M (st B) unit := zoom blk_lens (b_set b x).
Definition log_write (b : Z) : M (st B) unit := zoom blk_lens (b_log b).
Definition brelse (b : Z) : M (st B) unit := zoom blk_lens (b_brelse b).
Definition begin_trans : M (st B) unit := zoom blk_lens b_begin.
Definition commit_trans : M (st B) unit := zoom blk_lens b_commit.

(** ** Blocks *)

Definition readsb (d : Z) : M (st B) superblock :=
  bp ← bread d 1;
  x ← bdata bp;
  size ← deref (fun _ => ld32 x 0);
  nblocks ← deref (fun _ => ld32 x 4);
  ninodes ← deref (fun _ => ld32 x 8);
  nlog ← deref (fun _ => ld32 x 12);
  brelse bp ;;
  mret (Sb size nblocks ninodes nlog).

Definition bzero (d bno : Z) : M (st B) unit :=
  bp ← bread d bno;
  x ← bdata bp;
  set_bdata bp (replicate (length x) 0) ;;
  log_write bp ;;
  brelse bp.

(** the inner loop: the first free bit of the block, as its index *)
Definition balloc_scan (size b bp bi : Z) : M (st B) (Z + option Z) :=
  if (bi <? BPB) && (u32 (b + bi) <? size) then
    x ← bdata bp;
    c ← deref (fun _ => at_ x (bi / 8));
    if Z.land c (Z.shiftl 1 (bi mod 8)) =? 0 then mret (inr (Some bi)) else mret (inl (bi + 1))
  else mret (inr None).
Definition balloc_body (d : Z) (sb : superblock) (b : Z) : M (st B) (Z + Z) :=
  if u32 b <? sb_size sb then
    bp ← bread d (BBLOCK b (sb_ninodes sb));
    r ← loop (S (Z.to_nat BPB)) (balloc_scan (sb_size sb) b bp) 0;
    match r with
    | Some bi =>
        x ← bdata bp;
        c ← deref (fun _ => at_ x (bi / 8));
        set_bdata bp (put x (bi / 8) (u8 (Z.lor c (Z.shiftl 1 (bi mod 8))))) ;;  (* Mark block in use. *)
        log_write bp ;;
        brelse bp ;;
        bzero d (b + bi) ;;
        mret (inr (b + bi))
    | None => brelse bp ;; mret (inl (b + BPB))
    end
  else panic "balloc: out of blocks".
Definition balloc (d : Z) : M (st B) Z :=
  sb ← readsb d;
  loop (S (Z.to_nat (sb_size sb))) (balloc_body d sb) 0.

Definition bfree (d b : Z) : M (st B) unit :=
  sb ← readsb d;
  bp ← bread d (BBLOCK b (sb_ninodes sb));
  let bi := b mod BPB in
  let m := Z.shiftl 1 (bi mod 8) in
  x ← bdata bp;
  c ← deref (fun _ => at_ x (bi / 8));
  panic_if (Z.land c m =? 0) "freeing free block" ;;
  set_bdata bp (put x (bi / 8) (u8 (Z.land c (Z.lnot m)))) ;;
  log_write bp ;;
  brelse bp.

(** ** The inode cache *)

Definition iinit : M (st B) unit := modify (lset icache_lock false).

(** the scan: the entry of (dev, inum), or the first empty slot *)
Definition iget_scan (d inum : Z) (v : Z * Z) : M (st B) (Z * Z + Z * Z) :=
  let '(i, empty) := v in
  if i <? NINODE then
    ip ← ld_ip i;
    if (0 <? i_ref ip) && (i_dev ip =? d) && (i_inum ip =? inum) then mret (inr (i, empty))
    else mret (inl (i + 1, if (empty =? NULL) && (i_ref ip =? 0) then i else empty))
  else mret (inr (i, empty)).
Definition iget (d inum : Z) : M (st B) Z :=
  acquire icache_lock ;;
  v ← loop (S (Z.to_nat NINODE)) (iget_scan d inum) (0, NULL);
  let '(i, empty) := v in
  if i <? NINODE then
    up_ip i (fun x => set_ref (i_ref x + 1) x) ;;
    release icache_lock ;;
    mret i
  else
    panic_if (empty =? NULL) "iget: no inodes" ;;
    up_ip empty (fun x => Inode d inum 1 0 (i_type x) (i_major x) (i_minor x) (i_nlink x) (i_size x) (i_addrs x)) ;;
    release icache_lock ;;
    mret empty.

Definition idup (ip : Z) : M (st B) Z :=
  acquire icache_lock ;;
  up_ip ip (fun x => set_ref (i_ref x + 1) x) ;;
  release icache_lock ;;
  mret ip.

(** the byte offset of inode [inum] in its block *)
Definition ioff (inum : Z) : Z := inum mod IPB * sizeof_dinode.

Definition ialloc_body (d ty : Z) (sb : superblock) (inum : Z) : M (st B) (Z + Z) :=
  if inum <? sb_ninodes sb then
    bp ← bread d (IBLOCK inum);
    x ← bdata bp;
    t ← deref (fun _ => ld16 x (ioff inum));
    if t =? 0 then
      y ← deref (fun _ => splice x (ioff inum) (replicate (Z.to_nat sizeof_dinode) 0));
      z ← deref (fun _ => st16 y (ioff inum) ty);
      set_bdata bp z ;;
      log_write bp ;;     (* mark it allocated on the disk *)
      brelse bp ;;
      ip ← iget d inum;
      mret (inr ip)
    else brelse bp ;; mret (inl (inum + 1))
  else panic "ialloc: no inodes".
Definition ialloc (d ty : Z) : M (st B) Z :=
  sb ← readsb d;
  loop (S (Z.to_nat (sb_ninodes sb))) (ialloc_body d ty sb) 1.

(** the stores iupdate() makes into the disk inode at [o] *)
Definition st_dinode (x : list Z) (o : Z) (ip : inode) : option (list Z) :=
  x ← st16 x o (i_type ip);
  x ← st16 x (o + 2) (i_major ip);
  x ← st16 x (o + 4) (i_minor ip);
  x ← st16 x (o + 6) (i_nlink ip);
  x ← st32 x (o + 8) (i_size ip);
  splice x (o + 12) (enc32s (i_addrs ip)).
Definition iupdate (ip : Z) : M (st B) unit :=
  n ← ld_ip ip;
  bp ← bread (i_dev n) (IBLOCK (i_inum n));
  x ← bdata bp;
  y ← deref (fun _ => st_dinode x (ioff (i_inum n)) n);
  set_bdata bp y ;;
  log_write bp ;;
  brelse bp.

(** the loads ilock() makes from the disk inode at [o] *)
Definition ld_dinode (x : list Z) (o : Z) (ip : inode) : option inode :=
  t ← ld16 x o;
  ma ← ld16 x (o + 2);
  mi ← ld16 x (o + 4);
  nl ← ld16 x (o + 6);
  sz ← ld32 x (o + 8);
  a ← slice x (o + 12) (4 * (NDIRECT + 1));
  Some (load_fields (s16 t) (s16 ma) (s16 mi) (s16 nl) sz (dec32s 13 a) ip).
Definition ilock (ip : Z) : M (st B) unit :=
  panic_if (ip =? NULL) "ilock" ;;
  n ← ld_ip ip;
  panic_if (i_ref n <? 1) "ilock" ;;
  acquire icache_lock ;;
  n ← ld_ip ip;
  if has (i_flags n) I_BUSY then sleep_on icache_lock (ch_inode ip) else
  up_ip ip (fun x => set_flags (Z.lor (i_flags x) I_BUSY) x) ;;
  release icache_lock ;;
  n ← ld_ip ip;
  when (negb (has (i_flags n) I_VALID)) (
    bp ← bread (i_dev n) (IBLOCK (i_inum n));
    x ← bdata bp;
    n' ← deref (fun _ => ld_dinode x (ioff (i_inum n)) n);
    up_ip ip (fun _ => n') ;;
    brelse bp ;;
    up_ip ip (fun x => set_flags (Z.lor (i_flags x) I_VALID) x) ;;
    n ← ld_ip ip;
    panic_if (i_type n =? 0) "ilock: no type").

Definition iunlock (ip : Z) : M (st B) unit :=
  panic_if (ip =? NULL) "iunlock" ;;
  n ← ld_ip ip;
  panic_if (negb (has (i_flags n) I_BUSY) || (i_ref n <? 1)) "iunlock" ;;
  acquire icache_lock ;;
  up_ip ip (fun x => set_flags (Z.land (i_flags x) (Z.lnot I_BUSY)) x) ;;
  wakeup (ch_inode ip) ;;
  release icache_lock.

(** ** Inode contents *)

Definition ld_addr (ip i : Z) : M (st B) Z := n ← ld_ip ip; deref (fun _ => at_ (i_addrs n) i).
Definition st_addr (ip i v : Z) : M (st B) unit :=
  ld_addr ip i ;; up_ip ip (fun n => set_addrs (put (i_addrs n) i v) n).

(** [if ((addr = ip->addrs[i]) == 0) ip->addrs[i] = addr = balloc(ip->dev);] *)
Definition bmap_addr (ip i : Z) : M (st B) Z :=
  addr ← ld_addr ip i;
  if addr =? 0 then
    n ← ld_ip ip;
    addr ← balloc (i_dev n);
    st_addr ip i addr ;;
    mret addr
  else mret addr.
(** the entry of an indirect block held in a buffer, allocated if empty *)
Definition bmap_entry (d bp bn : Z) : M (st B) Z :=
  x ← bdata bp;
  addr ← deref (fun _ => ld32 x (4 * bn));
  addr ← (if addr =? 0 then
      addr ← balloc d;
      x ← bdata bp;
      x ← deref (fun _ => st32 x (4 * bn) addr);
      set_bdata bp x ;;
      log_write bp ;;
      mret addr
    else mret addr);
  brelse bp ;;
  mret addr.
Definition bmap (ip bn : Z) : M (st B) Z :=
  if bn <? NDIRECT then bmap_addr ip bn else
  let bn := u32 (bn - NDIRECT) in
  if bn <? NINDIRECT then
    (* Load indirect block, allocating if necessary. *)
    addr ← bmap_addr ip NDIRECT;
    n ← ld_ip ip;
    bp ← bread (i_dev n) addr;
    bmap_entry (i_dev n) bp bn
  else panic "bmap: out of range".

Definition itrunc_direct (ip i : Z) : M (st B) (Z + unit) :=
  if i <? NDIRECT then
    a ← ld_addr ip i;
    when (negb (a =? 0)) (n ← ld_ip ip; bfree (i_dev n) a ;; st_addr ip i 0) ;;
    mret (inl (i + 1))
  else mret (inr tt).
Definition itrunc_indirect (ip bp j : Z) : M (st B) (Z + unit) :=
  if j <? NINDIRECT then
    x ← bdata bp;
    a ← deref (fun _ => ld32 x (4 * j));
    when (negb (a =? 0)) (n ← ld_ip ip; bfree (i_dev n) a) ;;
    mret (inl (j + 1))
  else mret (inr tt).
Definition itrunc (ip : Z) : M (st B) unit :=
  loop (S (Z.to_nat NDIRECT)) (itrunc_direct ip) 0 ;;
  a ← ld_addr ip NDIRECT;
  when (negb (a =? 0)) (
    n ← ld_ip ip;
    bp ← bread (i_dev n) a;
    loop (S (Z.to_nat NINDIRECT)) (itrunc_indirect ip bp) 0 ;;
    brelse bp ;;
    bfree (i_dev n) a ;;
    st_addr ip NDIRECT 0) ;;
  up_ip ip (set_size 0) ;;
  iupdate ip.

Definition iput (ip : Z) : M (st B) unit :=
  acquire icache_lock ;;
  n ← ld_ip ip;
  when ((i_ref n =? 1) && has (i_flags n) I_VALID && (i_nlink n =? 0)) (
    (* inode has no links: truncate and free inode. *)
    panic_if (has (i_flags n) I_BUSY) "iput busy" ;;
    up_ip ip (fun x => set_flags (Z.lor (i_flags x) I_BUSY) x) ;;
    release icache_lock ;;
    itrunc ip ;;
    up_ip ip (set_type 0) ;;
    iupdate ip ;;
    acquire icache_lock ;;
    up_ip ip (set_flags 0) ;;
    wakeup (ch_inode ip)) ;;
  up_ip ip (fun x => set_ref (i_ref x - 1) x) ;;
  release icache_lock.

Definition iunlockput (ip : Z) : M (st B) unit := iunlock ip ;; iput ip.

Definition stati (ip : Z) : M (st B) stat :=
  n ← ld_ip ip;
  mret (Stat (i_type n) (s32 (i_dev n)) (i_inum n) (i_nlink n) (i_size n)).

(** the read loop; [acc] are the bytes stored at dst so far *)
Definition readi_body (ip n : Z) (v : Z * Z * list Z) : M (st B) (Z * Z * list Z + list Z) :=
  let '(tot, off, acc) := v in
  if tot <? n then
    x ← ld_ip ip;
    addr ← bmap ip (off / BSIZE);
    bp ← bread (i_dev x) addr;
    let m := Z.min (u32 (n - tot)) (BSIZE - off mod BSIZE) in
    y ← bdata bp;
    c ← deref (fun _ => slice y (off mod BSIZE) m);
    brelse bp ;;
    mret (inl (u32 (tot + m), u32 (off + m), acc ++ c))
  else mret (inr acc).
Definition readi (ip off n : Z) : M (st B) (Z * list Z) :=
  x ← ld_ip ip;
  if i_type x =? T_DEV then
    if (i_major x <? 0) || (NDEV <=? i_major x) then mret (-1, []) else
    match dev_read (i_major x) with
    | None => mret (-1, [])
    | Some f => f ip (s32 n)
    end
  else
  if (i_size x <? off) || (u32 (off + n) <? off) then mret (-1, []) else
  let n := if i_size x <? u32 (off + n) then u32 (i_size x - off) else n in
  acc ← loop (S (Z.to_nat n)) (readi_body ip n) (0, off, []);
  mret (s32 n, acc).

Definition writei_body (ip : Z) (src : list Z) (n : Z) (v : Z * Z) : M (st B) (Z * Z + Z) :=
  let '(tot, off) := v in
  if tot <? n then
    x ← ld_ip ip;
    addr ← bmap ip (off / BSIZE);
    bp ← bread (i_dev x) addr;
    let m := Z.min (u32 (n - tot)) (BSIZE - off mod BSIZE) in
    c ← deref (fun _ => slice src tot m);
    y ← bdata bp;
    z ← deref (fun _ => splice y (off mod BSIZE) c);
    set_bdata bp z ;;
    log_write bp ;;
    brelse bp ;;
    mret (inl (u32 (tot + m), u32 (off + m)))
  else mret (inr off).
Definition writei (ip : Z) (src : list Z) (off n : Z) : M (st B) Z :=
  x ← ld_ip ip;
  if i_type x =? T_DEV then
    if (i_major x <? 0) || (NDEV <=? i_major x) then mret (-1) else
    match dev_write (i_major x) with
    | None => mret (-1)
    | Some f => f ip src (s32 n)
    end
  else
  if (i_size x <? off) || (u32 (off + n) <? off) then mret (-1) else
  if MAXFILE * BSIZE <? u32 (off + n) then mret (-1) else
  off ← loop (S (Z.to_nat n)) (writei_body ip src n) (0, off);
  x ← ld_ip ip;
  when ((0 <? n) && (i_size x <? off)) (up_ip ip (set_size off) ;; iupdate ip) ;;
  mret (s32 n).


(** ** The layer below, seen through the laws *)

Context {BL : BlockStoreLaws B}.

(** [s] with another block store of the same geometry *)
Definition same_store (s : st B) (b : B) : Prop := nblk b = nblk (blk s) /\ cap b = cap (blk s).

Lemma set_blk_id s : set_blk (blk s) s = s.
Proof. by destruct s. Qed.

Section buffers.
  Context (a : bool) (s : st B) (bz : gmap Z Z) (md : gset Z) (view : Z -> list Z) (lg : gset Z).
  Hypothesis H : holds a (blk s) bz md view lg.

Lemma f_bread n Q :
  bz !! n = None -> 0 <= n < nblk (blk s) -> (n ∈ lg) \/ (base.size (dom bz ∪ lg) < 10)%nat ->
  (forall b B', holds a B' (<[n := b]> bz) md view lg -> same_store s B' -> Q b (set_blk B' s)) ->
  wp (bread 1 n) Q s.
Proof using H.
  intros Hn Hr Hav HQ. unfold bread. wp_step. eapply wp_mono; [by eapply bs_read|].
  intros b B' (HB & H1 & H2). by apply HQ.
Qed.
Lemma f_bdata n b Q : bz !! n = Some b -> Q (view n) s -> wp (bdata b) Q s.
Proof using H.
  intros Hb HQ. unfold bdata. wp_step. eapply wp_mono; [by eapply bs_data|].
  cbn. intros x B' [-> ->]. by rewrite set_blk_id.
Qed.
Lemma f_brelse n b Q : bz !! n = Some b -> (n ∉ md) ->
  (forall B', holds a B' (delete n bz) md view lg -> same_store s B' -> Q tt (set_blk B' s)) ->
  wp (brelse b) Q s.
Proof using H.
  intros Hb Hm HQ. unfold brelse. wp_step. eapply wp_mono; [by eapply bs_brelse|].
  intros [] B' (HB & H1 & H2). by apply HQ.
Qed.
Lemma f_view n : 0 <= n < nblk (blk s) -> length (view n) = 512%nat /\ bytes_ok (view n).
Proof using H. by eapply bs_view. Qed.
End buffers.

Lemma f_set s bz md view lg n b d Q :
  holds true (blk s) bz md view lg -> bz !! n = Some b -> length d = 512%nat -> bytes_ok d ->
  (forall B', holds true B' bz ({[n]} ∪ md) (Bio.vupd view n d) lg -> same_store s B' -> Q tt (set_blk B' s)) ->
  wp (set_bdata b d) Q s.
Proof.
  intros H Hb Hl Hd HQ. unfold set_bdata. wp_step. eapply wp_mono; [by eapply bs_set|].
  intros [] B' (HB & H1 & H2). by apply HQ.
Qed.
Lemma f_log s bz md view lg n b Q :
  holds true (blk s) bz md view lg -> bz !! n = Some b ->
  Z.of_nat (base.size lg) < cap (blk s) -> (base.size (dom bz ∪ lg) < 10)%nat ->
  (forall B', holds true B' bz (md ∖ {[n]}) view ({[n]} ∪ lg) -> same_store s B' -> Q tt (set_blk B' s)) ->
  wp (log_write b) Q s.
Proof.
  intros H Hb Hl Hd HQ. unfold log_write. wp_step. eapply wp_mono; [by eapply bs_log|].
  intros [] B' (HB & H1 & H2). by apply HQ.
Qed.

Lemma same_refl s : same_store s (blk s).
Proof. done. Qed.
Lemma same_trans s B1 B2 : same_store s B1 -> same_store (set_blk B1 s) B2 -> same_store s B2.
Proof. intros [] []. cbn in *. split; congruence. Qed.

(** ** Room in the transaction

    [X] are the blocks the transaction has logged or set apart; [room] says
    that [k] more blocks can be logged and still be cached. *)
Definition room (b : B) (bz : gmap Z Z) (X : gset Z) (k : nat) : Prop :=
  (base.size (dom bz ∪ X) + k <= 9)%nat /\ Z.of_nat (base.size X + k) < cap b.

Lemma size_add (n : Z) (X : gset Z) : (base.size ({[n]} ∪ X) <= S (base.size X))%nat.
Proof.
  destruct (decide (n ∈ X)) as [Hin|Hin].
  - assert ({[n]} ∪ X = X) as -> by set_solver. lia.
  - rewrite size_union by set_solver. rewrite size_singleton. lia.
Qed.
Lemma room_use b bz X k n : room b bz X (S k) -> room b bz ({[n]} ∪ X) k.
Proof.
  intros [H1 H2]. pose proof (size_add n X). pose proof (size_add n (dom bz ∪ X)) as H3.
  assert (dom bz ∪ ({[n]} ∪ X) = {[n]} ∪ (dom bz ∪ X)) as E by set_solver.
  split; [rewrite E|]; lia.
Qed.
Lemma room_weaken b bz X j k : room b bz X k -> (j <= k)%nat -> room b bz X j.
Proof. intros [H1 H2] Hj. split; lia. Qed.
(** holding a block costs room for one more, unless it is set apart *)
Lemma room_hold b bz X k n c : room b bz X (S k) -> room b (<[n := c]> bz) X k.
Proof.
  intros [H1 H2]. pose proof (size_add n (dom bz ∪ X)) as H3.
  assert (dom (<[n := c]> bz) ∪ X = {[n]} ∪ (dom bz ∪ X)) as E by set_solver.
  split; [rewrite E|]; lia.
Qed.
Lemma room_hold_in b bz X k n c : room b bz X k -> (n ∈ X) -> room b (<[n := c]> bz) X k.
Proof.
  intros [H1 H2] Hn. assert (dom (<[n := c]> bz) ∪ X = dom bz ∪ X) as E by set_solver.
  split; [rewrite E|]; lia.
Qed.
Lemma room_same s B' bz X k : room (blk s) bz X k -> same_store s B' -> room B' bz X k.
Proof. intros [H1 H2] [_ E]. split; [done|by rewrite E]. Qed.
Lemma room_can_read b bz X k (lg : gset Z) : room b bz X k -> lg ⊆ X -> (base.size (dom bz ∪ lg) < 10)%nat.
Proof.
  intros [H1 _] Hl. assert (base.size (dom bz ∪ lg) <= base.size (dom bz ∪ X))%nat; [|lia].
  apply subseteq_size. set_solver.
Qed.
Lemma room_can_log b bz X k (lg : gset Z) : room b bz X k -> lg ⊆ X -> Z.of_nat (base.size lg) < cap b.
Proof. intros [_ H2] Hl. pose proof (subseteq_size _ _ Hl). lia. Qed.

(** ** Disk layout *)

Definition sb_at (x : list Z) (sb : superblock) : Prop :=
  ld32 x 0 = Some (sb_size sb) /\ ld32 x 4 = Some (sb_nblocks sb) /\
  ld32 x 8 = Some (sb_ninodes sb) /\ ld32 x 12 = Some (sb_nlog sb).
Definition bitmap (sb : superblock) : Z := sb_ninodes sb / IPB + 3.
(** the bit of block [b] in a bitmap block *)
Definition bit_of (x : list Z) (b : Z) : bool :=
  match at_ x (b / 8) with Some c => Z.testbit c (b mod 8) | None => true end.
Definition used (sb : superblock) (view : Z -> list Z) (b : Z) : bool := bit_of (view (bitmap sb)) b.

(** A disk of at most 4096 blocks (one bitmap block), whose metadata blocks
    and log are marked in use. *)
Record layout (sb : superblock) (view : Z -> list Z) (nb : Z) : Prop := {
  ly_sb : sb_at (view 1) sb;
  ly_size : 0 <= sb_size sb <= 4096;
  ly_ninodes : 0 < sb_ninodes sb < 2 ^ 31;
  ly_bitmap : bitmap sb < nb;
  ly_meta : forall b, 0 <= b <= bitmap sb -> b < sb_size sb -> used sb view b = true;
  ly_log : forall b, nb <= b < sb_size sb -> used sb view b = true;
  ly_inside : bitmap sb < sb_size sb;
}.
Lemma bitmap_pos sb view nb : layout sb view nb -> 3 <= bitmap sb.
Proof. intros [_ _ H _ _ _ _]. unfold bitmap, IPB. Z.div_mod_to_equations; lia. Qed.

Definition set_bit (x : list Z) (b : Z) : list Z :=
  match at_ x (b / 8) with
  | Some c => put x (b / 8) (u8 (Z.lor c (Z.shiftl 1 (b mod 8))))
  | None => x
  end.
Definition clear_bit (x : list Z) (b : Z) : list Z :=
  match at_ x (b / 8) with
  | Some c => put x (b / 8) (u8 (Z.land c (Z.lnot (Z.shiftl 1 (b mod 8)))))
  | None => x
  end.

Lemma mask_bit0 c i : 0 <= i -> (Z.land c (Z.shiftl 1 i) =? 0) = negb (Z.testbit c i).
Proof. intros Hi. rewrite Z.shiftl_1_l. by apply Bio.land_bit. Qed.

Lemma at_some_bytes x i c : bytes_ok x -> at_ x i = Some c -> 0 <= c < 256.
Proof.
  intros Hb Hx. unfold at_ in Hx. destruct (0 <=? i); [|done].
  eapply (Forall_lookup_1 _ _ _ _ Hb Hx).
Qed.

Lemma u8_testbit v i : 0 <= i < 8 -> Z.testbit (u8 v) i = Z.testbit v i.
Proof. intros Hi. unfold u8. apply Z.mod_pow2_bits_low. lia. Qed.
Lemma mask_testbit i j : 0 <= i -> 0 <= j -> Z.testbit (Z.shiftl 1 i) j = bool_decide (i = j).
Proof.
  intros Hi Hj. rewrite Z.shiftl_1_l. case_bool_decide as E.
  - subst. by apply Z.pow2_bits_true.
  - by apply Z.pow2_bits_false.
Qed.

Section bits.
  Context (x : list Z) (Hx : length x = 512%nat) (Hb : bytes_ok x).

Lemma bit_byte b : 0 <= b < 4096 -> exists c, at_ x (b / 8) = Some c /\ 0 <= c < 256.
Proof using Hx Hb.
  intros Hr. destruct (at_is_Some x (b / 8)) as [c Hc].
  { rewrite Hx. change (Z.of_nat 512) with 512. Z.div_mod_to_equations; lia. }
  exists c. split; [done|]. by eapply at_some_bytes.
Qed.
Lemma set_bit_spec b j : 0 <= b < 4096 -> 0 <= j < 4096 ->
  bit_of (set_bit x b) j = bool_decide (j = b) || bit_of x j.
Proof using Hx Hb.
  intros Hr Hj. destruct (bit_byte b Hr) as (c & Hc & Hcr). unfold set_bit, bit_of. rewrite Hc.
  assert (0 <= b mod 8 < 8) as Hm by (apply Z.mod_pos_bound; lia).
  assert (0 <= j mod 8 < 8) as Hm' by (apply Z.mod_pos_bound; lia).
  pose proof (at_range _ _ _ Hc) as Hrg.
  destruct (decide (j / 8 = b / 8)) as [E|E].
  - rewrite E, at_put_eq, Hc by done. rewrite u8_testbit, Z.lor_spec, mask_testbit by lia.
    rewrite orb_comm. f_equal. apply bool_decide_ext. Z.div_mod_to_equations; lia.
  - rewrite at_put_ne by (lia || done). rewrite bool_decide_false; [done|congruence].
Qed.
Lemma clear_bit_spec b j : 0 <= b < 4096 -> 0 <= j < 4096 ->
  bit_of (clear_bit x b) j = negb (bool_decide (j = b)) && bit_of x j.
Proof using Hx Hb.
  intros Hr Hj. destruct (bit_byte b Hr) as (c & Hc & Hcr). unfold clear_bit, bit_of. rewrite Hc.
  assert (0 <= b mod 8 < 8) as Hm by (apply Z.mod_pos_bound; lia).
  assert (0 <= j mod 8 < 8) as Hm' by (apply Z.mod_pos_bound; lia).
  pose proof (at_range _ _ _ Hc) as Hrg.
  destruct (decide (j / 8 = b / 8)) as [E|E].
  - rewrite E, at_put_eq, Hc by done.
    rewrite u8_testbit, Z.land_spec, Z.lnot_spec, mask_testbit by lia.
    rewrite andb_comm. f_equal. f_equal. apply bool_decide_ext. Z.div_mod_to_equations; lia.
  - rewrite at_put_ne by (lia || done). rewrite bool_decide_false; [done|congruence].
Qed.
Lemma put_byte_ok i v : bytes_ok (put x i (u8 v)).
Proof using Hb.
  clear Hx.
  apply Forall_insert; [done|]. unfold u8. apply Z.mod_pos_bound. lia.
Qed.
Lemma set_bit_ok b : length (set_bit x b) = 512%nat /\ bytes_ok (set_bit x b).
Proof using Hx Hb.
  unfold set_bit. destruct (at_ x (b / 8)); [|done]. rewrite length_put. split; [done|apply put_byte_ok].
Qed.
Lemma clear_bit_ok b : length (clear_bit x b) = 512%nat /\ bytes_ok (clear_bit x b).
Proof using Hx Hb.
  unfold clear_bit. destruct (at_ x (b / 8)); [|done]. rewrite length_put. split; [done|apply put_byte_ok].
Qed.
End bits.

(** ** The block allocator *)

(** [f] is the lowest free block *)
Definition first_free (sb : superblock) (view : Z -> list Z) (f : Z) : Prop :=
  0 <= f < sb_size sb /\ used sb view f = false /\ forall b, 0 <= b < f -> used sb view b = true.

Definition bzeros : list Z := replicate 512 0.
Lemma bzeros_ok : length bzeros = 512%nat /\ bytes_ok bzeros.
Proof. split; [apply length_replicate|]. by apply Bio.zeros_ok. Qed.

Lemma set_blk2 B1 B2 s : set_blk B2 (set_blk B1 s) = set_blk B2 s.
Proof. done. Qed.

(** the end of every logged change of a block *)
Lemma log_tail_then {A} s bz view lg X n b d k (K : M (st B) A) Q :
  holds true (blk s) (<[n := b]> bz) ∅ view lg -> lg ⊆ X -> (n ∈ X) -> room (blk s) bz X k ->
  bz !! n = None -> length d = 512%nat -> bytes_ok d ->
  (forall B', holds true B' bz ∅ (Bio.vupd view n d) ({[n]} ∪ lg) -> same_store s B' -> wp K Q (set_blk B' s)) ->
  wp (set_bdata b d ;; log_write b ;; brelse b ;; K) Q s.
Proof.
  intros H HX Hn Hroom Hb Hd Hdb HQ. pose proof (lookup_insert_eq bz n b) as Hbn.
  wp_step. eapply (f_set s); [exact H|exact Hbn|done|done|]. intros B2 HB2 Hs2.
  wp_step. assert (room B2 (<[n := b]> bz) X k) as Hroom2.
  { eapply room_same; [|exact Hs2]. by apply room_hold_in. }
  eapply (f_log (set_blk B2 s)); [exact HB2|exact Hbn|by eapply room_can_log|by eapply room_can_read|].
  intros B3 HB3 Hs3. assert (({[n]} ∪ ∅) ∖ {[n]} = (∅ : gset Z)) as E by set_solver. rewrite E in HB3.
  pose proof (same_trans _ _ _ Hs2 Hs3) as Hs3'. rewrite set_blk2. wp_step.
  eapply (f_brelse _ (set_blk B3 s) _ _ _ _ HB3 n b _ Hbn); [set_solver|].
  intros B4 HB4 Hs4. rewrite delete_insert_id in HB4 by done. rewrite set_blk2.
  apply HQ; [done|]. by eapply same_trans.
Qed.
Lemma log_tail s bz view lg X n b d k Q :
  holds true (blk s) (<[n := b]> bz) ∅ view lg -> lg ⊆ X -> (n ∈ X) -> room (blk s) bz X k ->
  bz !! n = None -> length d = 512%nat -> bytes_ok d ->
  (forall B', holds true B' bz ∅ (Bio.vupd view n d) ({[n]} ∪ lg) -> same_store s B' -> Q tt (set_blk B' s)) ->
  wp (set_bdata b d ;; log_write b ;; brelse b) Q s.
Proof.
  intros H HX Hn Hroom Hb Hd Hdb HQ.
  pose proof (log_tail_then s bz view lg X n b d k (mret tt) Q H HX Hn Hroom Hb Hd Hdb HQ) as Hw.
  unfold wp, mbind, M_bind in *. destruct (set_bdata b d s) as [[] s1| | | | |]; try done.
  destruct (log_write b s1) as [[] s2| | | | |]; try done. by destruct (brelse b s2) as [[] s3| | | | |].
Qed.


Lemma readsb_spec s bz view lg X sb a k Q :
  layout sb view (nblk (blk s)) ->
  holds a (blk s) bz ∅ view lg -> lg ⊆ X -> room (blk s) bz X k -> bz !! 1 = None ->
  (forall B', holds a B' bz ∅ view lg -> same_store s B' -> Q sb (set_blk B' s)) ->
  wp (readsb 1) Q s.
Proof.
  intros Hl H HX Hroom H1 HQ. pose proof (bitmap_pos _ _ _ Hl). destruct Hl as [Hsb _ _ Hbm _ _ _].
  unfold readsb. wp_step. eapply (f_bread _ _ _ _ _ _ H 1); [done|lia|right; by eapply room_can_read|].
  intros b B1 HB1 Hs1. pose proof (lookup_insert_eq bz 1 b) as Hb.
  wp_step. eapply (f_bdata _ (set_blk B1 s) _ _ _ _ HB1 1 b _ Hb).
  destruct Hsb as (E1 & E2 & E3 & E4).
  wp_step. eapply wp_deref; [exact E1|]. wp_step. eapply wp_deref; [exact E2|].
  wp_step. eapply wp_deref; [exact E3|]. wp_step. eapply wp_deref; [exact E4|].
  wp_step. eapply (f_brelse _ (set_blk B1 s) _ _ _ _ HB1 1 b _ Hb); [set_solver|].
  intros B2 HB2 Hs2. rewrite delete_insert_id in HB2 by done.
  assert (Sb (sb_size sb) (sb_nblocks sb) (sb_ninodes sb) (sb_nlog sb) = sb) as -> by (by destruct sb).
  wp_step. apply HQ; [done|]. by eapply same_trans.
Qed.

Lemma bzero_spec s bz view lg X n k Q :
  holds true (blk s) bz ∅ view lg -> lg ⊆ X -> (n ∈ X) -> room (blk s) bz X k ->
  0 <= n < nblk (blk s) -> bz !! n = None ->
  (forall B', holds true B' bz ∅ (Bio.vupd view n bzeros) ({[n]} ∪ lg) -> same_store s B' -> Q tt (set_blk B' s)) ->
  wp (bzero 1 n) Q s.
Proof.
  intros H HX Hn Hroom Hr Hb HQ. destruct bzeros_ok as [Hz1 Hz2]. unfold bzero.
  wp_step. eapply (f_bread _ _ _ _ _ _ H n); [done|done|right; by eapply room_can_read|].
  intros b B1 HB1 Hs1. pose proof (lookup_insert_eq bz n b) as Hbn.
  wp_step. eapply (f_bdata _ (set_blk B1 s) _ _ _ _ HB1 n b _ Hbn).
  destruct (f_view _ _ _ _ _ _ H n Hr) as [-> _].
  eapply (log_tail (set_blk B1 s) bz view lg X n b bzeros k); try done; [by eapply room_same|].
  intros B' HB' Hs'. rewrite set_blk2. apply HQ; [done|]. by eapply same_trans.
Qed.


Lemma set_bit_use x b c : at_ x (b / 8) = Some c ->
  put x (b / 8) (u8 (Z.lor c (Z.shiftl 1 (b mod 8)))) = set_bit x b.
Proof. intros Hc. unfold set_bit. by rewrite Hc. Qed.
Lemma clear_bit_use x b c : at_ x (b / 8) = Some c ->
  put x (b / 8) (u8 (Z.land c (Z.lnot (Z.shiftl 1 (b mod 8))))) = clear_bit x b.
Proof. intros Hc. unfold clear_bit. by rewrite Hc. Qed.

(** what balloc makes of the disk *)
Definition balloced (sb : superblock) (view : Z -> list Z) (f : Z) : Z -> list Z :=
  Bio.vupd (Bio.vupd view (bitmap sb) (set_bit (view (bitmap sb)) f)) f bzeros.

Lemma balloc_scan_spec s bz view lg sb f b :
  holds true (blk s) bz ∅ view lg -> layout sb view (nblk (blk s)) -> first_free sb view f ->
  bz !! bitmap sb = Some b ->
  wp (loop (S (Z.to_nat BPB)) (balloc_scan (sb_size sb) 0 b) 0) (fun r s' => r = Some f /\ s' = s) s.
Proof.
  intros H Hl (Hf & Hfree & Hlow) Hb. pose proof (bitmap_pos _ _ _ Hl).
  pose proof (ly_size _ _ _ Hl) as Hsz. pose proof (ly_bitmap _ _ _ Hl) as Hbm.
  destruct (f_view _ _ _ _ _ _ H (bitmap sb) ltac:(lia)) as [Hlen Hby].
  apply wp_loop with (Inv := fun bi s' => s' = s /\ 0 <= bi <= f) (mu := fun bi => Z.to_nat (BPB - bi)).
  - split; [done|lia].
  - unfold BPB. lia.
  - intros bi s' [-> Hbi]. unfold balloc_scan. unfold u32. rewrite Z.add_0_l, Z.mod_small by lia.
    destruct (Z.ltb_spec bi BPB) as [_|Hge]; [|unfold BPB in Hge; lia].
    destruct (Z.ltb_spec bi (sb_size sb)) as [_|]; [|lia]. cbn [andb].
    wp_step. eapply (f_bdata _ _ _ _ _ _ H _ _ _ Hb).
    destruct (bit_byte _ Hlen Hby bi ltac:(lia)) as (c & Hc & _).
    wp_step. eapply wp_deref; [exact Hc|].
    rewrite mask_bit0 by (apply Z.mod_pos_bound; lia).
    assert (used sb view bi = Z.testbit c (bi mod 8)) as Eu by (unfold used, bit_of; by rewrite Hc).
    rewrite <-Eu. destruct (decide (bi = f)) as [->|Hne].
    + rewrite Hfree. cbn [negb]. wp_step. done.
    + rewrite Hlow by lia. cbn [negb]. wp_step. split; [split; [done|lia]|]. unfold BPB. lia.
Qed.

Lemma balloc_spec s bz view lg X k sb f Q :
  holds true (blk s) bz ∅ view lg -> layout sb view (nblk (blk s)) -> first_free sb view f ->
  lg ⊆ X -> (bitmap sb ∈ X) -> room (blk s) bz X (S k) ->
  bz !! 1 = None -> bz !! bitmap sb = None -> bz !! f = None ->
  (forall B', holds true B' bz ∅ (balloced sb view f) ({[f]} ∪ ({[bitmap sb]} ∪ lg)) ->
     same_store s B' -> Q f (set_blk B' s)) ->
  wp (balloc 1) Q s.
Proof.
  intros H Hl Hff HX HbX Hroom H1 Hbm Hf HQ. pose proof (bitmap_pos _ _ _ Hl) as Hb3.
  pose proof Hff as (Hfr & Hfree & Hlow). pose proof (ly_bitmap _ _ _ Hl) as Hbl.
  assert (f < nblk (blk s)) as Hfn.
  { destruct (Z.ltb_spec f (nblk (blk s))); [done|]. rewrite (ly_log _ _ _ Hl f) in Hfree by lia. done. }
  unfold balloc. wp_step. eapply (readsb_spec s); try done. intros B1 HB1 Hs1.
  cbn [loop]. wp_step. match goal with |- wp _ ?P _ => set (K := P) end. unfold balloc_body. destruct (Z.ltb_spec (u32 0) (sb_size sb)) as [_|Hge].
  2: { change (u32 0) with 0 in Hge. lia. }
  change (BBLOCK 0 (sb_ninodes sb)) with (bitmap sb).
  assert (room B1 bz X (S k)) as Hr1 by (by eapply room_same). destruct Hs1 as [En1 Ec1].
  wp_step.
  eapply (f_bread _ (set_blk B1 s) _ _ _ _ HB1); [done|cbn; lia|right; by eapply room_can_read|].
  intros b B2 HB2 [En2 Ec2]. cbn [blk set_blk] in En2, Ec2. rewrite set_blk2.
  pose proof (lookup_insert_eq bz (bitmap sb) b) as Hbn.
  assert (nblk B2 = nblk (blk s)) as En2' by congruence.
  wp_step. eapply wp_mono; [eapply (balloc_scan_spec (set_blk B2 s)); [exact HB2|by rewrite <-En2' in Hl|done|exact Hbn]|].
  cbn beta. intros r s' [-> ->]. wp_step.
  destruct (f_view _ _ _ _ _ _ H (bitmap sb) ltac:(lia)) as [Hlen Hby].
  eapply (f_bdata _ (set_blk B2 s) _ _ _ _ HB2 _ _ _ Hbn). pose proof (ly_size _ _ _ Hl).
  destruct (bit_byte _ Hlen Hby f ltac:(lia)) as (c & Hc & _).
  wp_step. eapply wp_deref; [exact Hc|]. rewrite (set_bit_use _ _ _ Hc).
  destruct (set_bit_ok _ Hlen Hby f) as [Hl' Hb'].
  eapply (log_tail_then (set_blk B2 s) bz view lg X); try done.
  { eapply room_same; [exact Hroom|]. split; cbn; congruence. }
  intros B3 HB3 [En3 Ec3]. cbn [blk set_blk] in En3, Ec3. rewrite set_blk2.
  assert (room B3 bz X (S k)) as Hr3 by (eapply room_same; [exact Hroom|split; congruence]).
  wp_step. eapply (bzero_spec (set_blk B3 s) bz _ _ ({[f]} ∪ X)); try done.
  - set_solver.
  - set_solver.
  - cbn. by apply room_use.
  - cbn. lia.
  - intros B4 HB4 [En4 Ec4]. cbn [blk set_blk] in En4, Ec4. rewrite set_blk2. wp_step. unfold K. wp_step.
    rewrite Z.add_0_l. apply HQ; [done|]. split; congruence.
Qed.

Lemma bfree_spec s bz view lg X k sb b Q :
  holds true (blk s) bz ∅ view lg -> layout sb view (nblk (blk s)) ->
  0 <= b < sb_size sb -> used sb view b = true ->
  lg ⊆ X -> (bitmap sb ∈ X) -> room (blk s) bz X k ->
  bz !! 1 = None -> bz !! bitmap sb = None ->
  (forall B', holds true B' bz ∅ (Bio.vupd view (bitmap sb) (clear_bit (view (bitmap sb)) b))
       ({[bitmap sb]} ∪ lg) -> same_store s B' -> Q tt (set_blk B' s)) ->
  wp (bfree 1 b) Q s.
Proof.
  intros H Hl Hb Hu HX HbX Hroom H1 Hbm HQ. pose proof (bitmap_pos _ _ _ Hl) as Hb3.
  pose proof (ly_bitmap _ _ _ Hl) as Hbl. pose proof (ly_size _ _ _ Hl) as Hsz.
  unfold bfree. wp_step. eapply (readsb_spec s); try done. intros B1 HB1 Hs1.
  assert (BBLOCK b (sb_ninodes sb) = bitmap sb) as ->.
  { unfold BBLOCK, bitmap, BPB. rewrite Z.div_small by lia. done. }
  assert (b mod BPB = b) as -> by (apply Z.mod_small; unfold BPB; lia).
  wp_step. assert (room B1 bz X k) as Hr1 by (by eapply room_same).
  eapply (f_bread _ (set_blk B1 s) _ _ _ _ HB1); [done|cbn; destruct Hs1; lia|right; by eapply room_can_read|].
  intros bp B2 HB2 Hs2. rewrite set_blk2. pose proof (same_trans _ _ _ Hs1 Hs2) as Hs2'.
  pose proof (lookup_insert_eq bz (bitmap sb) bp) as Hbn.
  wp_step. eapply (f_bdata _ (set_blk B2 s) _ _ _ _ HB2 _ _ _ Hbn).
  destruct (f_view _ _ _ _ _ _ H (bitmap sb) ltac:(lia)) as [Hlen Hby].
  destruct (bit_byte _ Hlen Hby b ltac:(lia)) as (c & Hc & _).
  wp_step. eapply wp_deref; [exact Hc|].
  assert (Z.testbit c (b mod 8) = true) as Ht by (unfold used, bit_of in Hu; by rewrite Hc in Hu).
  wp_step. wp_step; [rewrite mask_bit0 by (apply Z.mod_pos_bound; lia); by rewrite Ht|].
  rewrite (clear_bit_use _ _ _ Hc). destruct (clear_bit_ok _ Hlen Hby b) as [Hl' Hb'].
  eapply (log_tail (set_blk B2 s) bz view lg X); try done; [by eapply room_same|].
  intros B3 HB3 Hs3. rewrite set_blk2. apply HQ; [done|by eapply same_trans].
Qed.

(** ** Free blocks *)

Definition frees (sb : superblock) (view : Z -> list Z) : gset Z :=
  list_to_set (filter (fun b => used sb view b = false) (seqZ 0 (sb_size sb))).

Lemma elem_of_frees sb view b : b ∈ frees sb view <-> 0 <= b < sb_size sb /\ used sb view b = false.
Proof.
  unfold frees. rewrite elem_of_list_to_set, list_elem_of_filter, elem_of_seqZ. split; intros; intuition lia.
Qed.

Lemma frees_first sb view : (0 < base.size (frees sb view))%nat -> exists f, first_free sb view f.
Proof.
  intros Hs. destruct (size_pos_elem_of (frees sb view) Hs) as [b Hb].
  apply elem_of_frees in Hb as [Hr Hu].
  assert (forall n : nat, forall b, Z.to_nat b = n -> 0 <= b < sb_size sb -> used sb view b = false ->
    exists f, first_free sb view f) as Hind.
  { induction n as [n IH] using lt_wf_ind. intros c <- Hc Hcu.
    destruct (decide (Exists (fun x => used sb view x = false) (seqZ 0 c))) as [He|He].
    - apply Exists_exists in He as (x & Hx & Hxu). apply elem_of_seqZ in Hx.
      apply (IH (Z.to_nat x)) with x; [lia|done|lia|done].
    - exists c. split; [done|]. split; [done|]. intros x Hx.
      rewrite <-Forall_Exists_neg in He. rewrite Forall_forall in He.
      apply not_false_is_true, He, elem_of_seqZ. lia. }
  by eapply (Hind (Z.to_nat b) b).
Qed.

Lemma balloced_other sb view f b : b <> f -> b <> bitmap sb -> balloced sb view f b = view b.
Proof. intros H1 H2. unfold balloced. by rewrite !Bio.vupd_ne. Qed.
Lemma balloced_new sb view f : balloced sb view f f = bzeros.
Proof. apply Bio.vupd_eq. Qed.

Section alloc.
  Context (sb : superblock) (view : Z -> list Z) (nb f : Z).
  Hypothesis Hl : layout sb view nb.
  Hypothesis Hf : first_free sb view f.
  Hypothesis Hbytes : length (view (bitmap sb)) = 512%nat /\ bytes_ok (view (bitmap sb)).

Lemma free_range : bitmap sb < f < nb /\ f < sb_size sb /\ used sb view f = false.
Proof using Hl Hf.
  clear Hbytes. destruct Hf as (Hr & Hu & _). destruct Hl as [_ _ _ _ Hm Hlg _].
  destruct (Z.leb_spec f (bitmap sb)); [rewrite Hm in Hu by lia; done|].
  destruct (Z.leb_spec nb f); [rewrite Hlg in Hu by lia; done|]. split; [lia|]. split; [lia|done].
Qed.
Lemma used_balloced j : 0 <= j < 4096 -> used sb (balloced sb view f) j = bool_decide (j = f) || used sb view j.
Proof using Hl Hf Hbytes.
  intros Hj. destruct free_range as (Hr & Hs & _). unfold used, balloced.
  rewrite (Bio.vupd_ne _ f) by lia. rewrite Bio.vupd_eq. destruct Hbytes as [Hlen Hb].
  pose proof (ly_size _ _ _ Hl). pose proof (bitmap_pos _ _ _ Hl). apply set_bit_spec; [done|done|lia|done].
Qed.
Lemma balloced_layout : layout sb (balloced sb view f) nb.
Proof using Hl Hf Hbytes.
  destruct free_range as (Hr & Hs & _). pose proof (bitmap_pos _ _ _ Hl) as H3. destruct Hl as [H1 H2 H4 H5 Hm Hlg Hins].
  split; try done.
  - rewrite balloced_other by lia. done.
  - intros b Hb Hbs. rewrite used_balloced by lia. rewrite Hm by lia. apply orb_true_r.
  - intros b Hb. rewrite used_balloced by lia. rewrite Hlg by lia. apply orb_true_r.
Qed.
Lemma frees_balloced : frees sb (balloced sb view f) = frees sb view ∖ {[f]}.
Proof using Hl Hf Hbytes.
  apply leibniz_equiv_iff. intros b. rewrite elem_of_difference, !elem_of_frees, elem_of_singleton.
  pose proof (ly_size _ _ _ Hl). split.
  - intros [Hb Hu]. rewrite used_balloced in Hu by lia. apply orb_false_iff in Hu as [H1 H2].
    by apply bool_decide_eq_false in H1.
  - intros [[Hb Hu] Hne]. split; [done|]. rewrite used_balloced, Hu, bool_decide_false by (done || lia). done.
Qed.
Lemma size_frees : base.size (frees sb view) = S (base.size (frees sb (balloced sb view f))).
Proof using Hl Hf Hbytes.
  rewrite frees_balloced. assert (f ∈ frees sb view) as Hin.
  { apply elem_of_frees. destruct Hf as (? & ? & _). done. }
  rewrite size_difference by set_solver. rewrite size_singleton.
  assert (base.size (frees sb view) <> 0%nat); [|lia]. intros E%size_empty_inv. set_solver.
Qed.
End alloc.

(** ** The blocks of a file *)

(** The block numbers an inode holds: slots 0 to 11 are the direct blocks, 12
    the indirect block and 13 to 140 its entries; 0 is no block. *)
Definition slot (a : list Z) (view : Z -> list Z) (i : Z) : Z :=
  if i <? 13 then default 0 (at_ a i)
  else if default 0 (at_ a 12) =? 0 then 0
  else default 0 (ld32 (view (default 0 (at_ a 12))) (4 * (i - 13))).
(** the slot of a file's block [bn] *)
Definition sl (bn : Z) : Z := if bn <? NDIRECT then bn else bn + 1.

Record file_ok (sb : superblock) (view : Z -> list Z) (nb : Z) (a : list Z) : Prop := {
  fo_len : length a = 13%nat;
  fo_range : forall i, 0 <= i < 141 -> slot a view i = 0 \/
    (bitmap sb < slot a view i < nb /\ slot a view i < sb_size sb /\ used sb view (slot a view i) = true);
  fo_inj : forall i j, 0 <= i < 141 -> 0 <= j < 141 -> i <> j -> slot a view i <> 0 ->
    slot a view i <> slot a view j;
}.

Lemma slot_small a view i : i < 13 -> slot a view i = default 0 (at_ a i).
Proof. intros Hi. unfold slot. by destruct (Z.ltb_spec i 13); [|lia]. Qed.
Lemma slot_large a view i : 13 <= i -> slot a view i =
  if slot a view 12 =? 0 then 0 else default 0 (ld32 (view (slot a view 12)) (4 * (i - 13))).
Proof. intros Hi. rewrite (slot_small a view 12) by lia. unfold slot. by destruct (Z.ltb_spec i 13); [lia|]. Qed.

(** A view that agrees on the indirect block gives the same slots. *)
Lemma slot_ext a view view' i : view' (slot a view 12) = view (slot a view 12) ->
  slot a view' i = slot a view i.
Proof.
  intros E. destruct (Z.ltb_spec i 13); [by rewrite !slot_small by lia|].
  rewrite (slot_large a view'), (slot_large a view i) by lia.
  rewrite (slot_small a view' 12), <-(slot_small a view 12), E by lia. done.
Qed.

(** one slot filled with a new block *)
Lemma file_ok_fill sb view view' nb a a' i f :
  file_ok sb view nb a -> length a' = 13%nat ->
  (forall j, 0 <= j < 141 -> slot a' view' j = if j =? i then f else slot a view j) ->
  bitmap sb < f < nb -> f < sb_size sb -> used sb view f = false -> used sb view' f = true ->
  (forall b, 0 <= b < 4096 -> used sb view b = true -> used sb view' b = true) ->
  sb_size sb <= 4096 -> 0 <= bitmap sb ->
  file_ok sb view' nb a'.
Proof.
  intros [Hlen Hr Hinj] Hlen' Hs Hf Hfs Hu Hu' Hmono Hsz Hbm. split; [done| |].
  - intros j Hj. rewrite Hs by done. destruct (j =? i); [right; done|].
    destruct (Hr j Hj) as [->|(? & ? & ?)]; [by left|right]. split; [done|]. split; [done|]. apply Hmono; [lia|done].
  - intros j k Hj Hk Hne. rewrite !Hs by done.
    destruct (Z.eqb_spec j i) as [->|Hji], (Z.eqb_spec k i) as [->|Hki]; try done.
    + intros _ E. destruct (Hr k Hk) as [E0|(? & ? & Hk')]; [lia|]. rewrite <-E in Hk'. congruence.
    + intros _ E. destruct (Hr j Hj) as [E0|(? & ? & Hk')]; [lia|]. rewrite E in Hk'. congruence.
    + by apply Hinj.
Qed.

Lemma ld32_zeros o : ld32 bzeros o = None \/ ld32 bzeros o = Some 0.
Proof.
  unfold ld32, ldn. destruct ((0 <=? o) && _) eqn:E; [right|by left]. f_equal.
  apply andb_true_iff in E as [H1%Z.leb_le H2%Z.leb_le].
  assert (sub bzeros (Z.to_nat o) 4 = replicate 4 0) as ->.
  { apply list_eq_lookup. intros i. unfold bzeros in *. rewrite length_replicate in H2.
    destruct (decide (i < 4)%nat) as [Hi|Hi].
    - rewrite lookup_sub by done. rewrite !lookup_replicate_2 by lia. done.
    - rewrite lookup_sub_ge by lia. symmetry. apply lookup_ge_None. rewrite length_replicate. lia. }
  reflexivity.
Qed.

(** *** What bmap does to a file's slots *)

(** slot [i] is [r], newly allocated if it was empty *)
Record filled (sb : superblock) (view : Z -> list Z) (nb : Z) (a : list Z) (i r : Z)
    (view' : Z -> list Z) (a' : list Z) : Prop := {
  fl_layout : layout sb view' nb;
  fl_file : file_ok sb view' nb a';
  fl_slot : slot a' view' i = r;
  fl_some : r <> 0;
  fl_others : forall j, 0 <= j < 141 -> j <> i -> slot a' view' j = slot a view j;
  fl_old : slot a view i <> 0 -> view' = view /\ a' = a;
  fl_new : slot a view i = 0 -> view' r = bzeros /\ used sb view r = false;
  fl_keep : forall b, 0 <= b < 4096 -> used sb view b = true -> b <> bitmap sb ->
    b <> slot a view 12 \/ b <= bitmap sb -> view' b = view b;
  fl_used : forall b, 0 <= b < 4096 -> used sb view b = true -> used sb view' b = true;
  fl_frees : (base.size (frees sb view) <= S (base.size (frees sb view')))%nat;
}.

Lemma filled_old sb view nb a i : layout sb view nb -> file_ok sb view nb a -> slot a view i <> 0 ->
  filled sb view nb a i (slot a view i) view a.
Proof. intros Hl Hf Hs. split; try done. lia. Qed.

(** the number of an occupied slot *)
Lemma slot_range sb view nb a i : layout sb view nb -> file_ok sb view nb a -> 0 <= i < 141 -> slot a view i <> 0 ->
  bitmap sb < slot a view i < nb /\ slot a view i < sb_size sb /\ used sb view (slot a view i) = true.
Proof. intros Hl Hf Hi Hs. by destruct (fo_range _ _ _ _ Hf i Hi). Qed.

Section fill.
  Context (sb : superblock) (view : Z -> list Z) (nb f : Z) (a : list Z).
  Hypothesis Hl : layout sb view nb.
  Hypothesis Hf : first_free sb view f.
  Hypothesis Hbytes : forall b, 0 <= b < nb -> length (view b) = 512%nat /\ bytes_ok (view b).
  Hypothesis Ha : file_ok sb view nb a.

Lemma slot_not_free i : 0 <= i < 141 -> slot a view i <> f \/ slot a view i = 0.
Proof using Hl Hf Ha.
  clear Hbytes. intros Hi. destruct (free_range _ _ _ _ Hl Hf) as (_ & _ & Hu).
  destruct (Z.eq_dec (slot a view i) 0); [by right|left]. intros E.
  destruct (slot_range _ _ _ _ _ Hl Ha Hi n) as (_ & _ & Hu'). congruence.
Qed.

(** a new block in a free slot, given what the slots become *)
Lemma filled_new i view' a' :
  0 <= i < 141 -> slot a view i = 0 -> length a' = 13%nat ->
  (forall j, 0 <= j < 141 -> slot a' view' j = if j =? i then f else slot a view j) ->
  (forall b, b <> slot a view 12 \/ b <= bitmap sb \/ b = f -> view' b = balloced sb view f b) ->
  filled sb view nb a i f view' a'.
Proof using Hl Hf Hbytes Ha.
  intros Hi Hs0 Hlen Hs Hv. destruct (free_range _ _ _ _ Hl Hf) as (Hr & Hfs & Hu).
  pose proof (bitmap_pos _ _ _ Hl). pose proof (ly_size _ _ _ Hl) as Hsz.
  pose proof (Hbytes (bitmap sb) ltac:(lia)) as Hbm.
  assert (forall b, used sb view' b = used sb (balloced sb view f) b) as Hu'.
  { intros b. unfold used. rewrite Hv; [done|right; left; lia]. }
  pose proof (balloced_layout _ _ _ _ Hl Hf Hbm) as [L1 L2 L3 L4 L5 L6 L7].
  split.
  - split; try done.
    + rewrite Hv by (right; left; lia). done.
    + intros b Hb Hbs. rewrite Hu'. by apply L5.
    + intros b Hb. rewrite Hu'. by apply L6.
  - eapply file_ok_fill; try done; try lia.
    + rewrite Hu', (used_balloced _ _ nb) by (done || lia). by rewrite bool_decide_true.
    + intros b Hb Hbu. rewrite Hu', (used_balloced _ _ nb) by (done || lia). rewrite Hbu. apply orb_true_r.
  - rewrite Hs by done. by rewrite Z.eqb_refl.
  - lia.
  - intros j Hj Hne. rewrite Hs by done. by destruct (Z.eqb_spec j i).
  - done.
  - intros _. split; [|done]. rewrite Hv by tauto. apply balloced_new.
  - intros b Hb Hbu Hbb Hbi. rewrite Hv by tauto. apply balloced_other; [congruence|done].
  - intros b Hb Hbu. rewrite Hu', (used_balloced _ _ nb) by (done || lia). rewrite Hbu. apply orb_true_r.
  - rewrite (size_frees _ _ _ _ Hl Hf Hbm).
    assert (frees sb view' = frees sb (balloced sb view f)) as ->; [|lia].
    apply leibniz_equiv_iff. intros b. rewrite !elem_of_frees, Hu'. done.
Qed.

Lemma filled_addr i : 0 <= i < 13 -> slot a view i = 0 -> filled sb view nb a i f (balloced sb view f) (put a i f).
Proof using Hl Hf Hbytes Ha.
  intros Hi Hs0. pose proof (fo_len _ _ _ _ Ha) as Hlen. apply filled_new; [lia|done|by rewrite length_put| |done].
  intros j Hj. destruct (free_range _ _ _ _ Hl Hf) as (Hr & _). pose proof (bitmap_pos _ _ _ Hl) as Hb3.
  assert (forall k, 0 <= k < 13 -> slot (put a i f) (balloced sb view f) k = if k =? i then f else slot a view k) as Hsmall.
  { intros k Hk. rewrite !slot_small by lia. destruct (Z.eqb_spec k i) as [->|Hne].
    - by rewrite at_put_eq by lia.
    - by rewrite at_put_ne by lia. }
  destruct (Z.ltb_spec j 13) as [Hlt|Hge]; [apply Hsmall; lia|].
  destruct (Z.eqb_spec j i) as [->|Hne]; [lia|].
  rewrite (slot_large (put a i f)), (slot_large a), Hsmall by lia. destruct (Z.eqb_spec 12 i) as [<-|H12].
  - rewrite Hs0. destruct (Z.eqb_spec f 0); [lia|]. rewrite balloced_new. cbn [Z.eqb].
    by destruct (ld32_zeros (4 * (j - 13))) as [->| ->].
  - destruct (Z.eqb_spec (slot a view 12) 0) as [|H0]; [done|].
    destruct (slot_range _ _ _ _ 12 Hl Ha ltac:(lia) H0) as (Hr12 & _).
    destruct (slot_not_free 12 ltac:(lia)) as [Hn|]; [|done].
    rewrite balloced_other by (done || lia). done.
Qed.

Lemma filled_entry i :
  13 <= i < 141 -> slot a view 12 <> 0 -> slot a view i = 0 ->
  filled sb view nb a i f
    (Bio.vupd (balloced sb view f) (slot a view 12)
       (blit (view (slot a view 12)) (Z.to_nat (4 * (i - 13))) (le 4 f))) a.
Proof using Hl Hf Hbytes Ha.
  intros Hi H0 Hs0. destruct (slot_range _ _ _ _ 12 Hl Ha ltac:(lia) H0) as (Hr12 & Hs12 & Hu12).
  destruct (free_range _ _ _ _ Hl Hf) as (Hr & Hfs & Hu). pose proof (bitmap_pos _ _ _ Hl) as Hb3.
  pose proof (ly_size _ _ _ Hl). destruct (Hbytes (slot a view 12) ltac:(lia)) as [Hlen Hby].
  assert (f <> slot a view 12) as Hne12 by congruence.
  apply filled_new; [lia|done|apply (fo_len _ _ _ _ Ha)| |].
  - intros j Hj. destruct (Z.ltb_spec j 13) as [Hlt|Hge].
    + rewrite !slot_small by lia. by destruct (Z.eqb_spec j i); [lia|].
    + rewrite (slot_large a (Bio.vupd _ _ _)), (slot_large a view j) by lia. rewrite (slot_small _ (Bio.vupd _ _ _) 12), <-(slot_small a view 12) by lia.
      destruct (Z.eqb_spec (slot a view 12) 0); [done|]. rewrite Bio.vupd_eq. unfold ld32.
      destruct (Z.eqb_spec j i) as [->|Hne].
      * rewrite ldn_stn by (rewrite Hlen; change (Z.of_nat 512) with 512; change (Z.of_nat 4) with 4; lia). cbn.
        apply Z.mod_small. change (2 ^ 32) with 4294967296. lia.
      * rewrite ldn_stn_other; [done|rewrite Hlen; change (Z.of_nat 512) with 512; change (Z.of_nat 4) with 4; lia|].
        change (Z.of_nat 4) with 4. lia.
  - intros b Hb. destruct (Z.eq_dec b (slot a view 12)) as [->|]; [|by apply Bio.vupd_ne].
    destruct Hb as [?|[?| ?]]; [done|lia|congruence].
Qed.
End fill.

(** ** bmap *)

(** [s] with another block store and inode [ip] *)
Definition ipst (s : st B) (b : B) (ip : Z) (n : inode) : st B :=
  St b (lock s) (put (inodes s) ip n) (cwd s) (wakes s).

Lemma set_addrs_id n : set_addrs (i_addrs n) n = n.
Proof. by destruct n. Qed.
Lemma ipst_id s b ip n : at_ (inodes s) ip = Some n -> ipst s b ip n = set_blk b s.
Proof. intros H. unfold ipst. by rewrite (put_id _ _ _ H). Qed.
Lemma ipst_ipst s b b' ip n n' : ipst (ipst s b ip n) b' ip n' = ipst s b' ip n'.
Proof. unfold ipst. cbn. by rewrite put_put. Qed.
Lemma ipst_blk s b b' ip n : set_blk b' (ipst s b ip n) = ipst s b' ip n.
Proof. done. Qed.
Lemma ipst_at s b ip n n' : at_ (inodes s) ip = Some n -> at_ (inodes (ipst s b ip n')) ip = Some n'.
Proof. intros H%at_range. by apply at_put_eq. Qed.

Lemma wp_ld_ip s ip n Q : at_ (inodes s) ip = Some n -> Q n s -> wp (ld_ip ip) Q s.
Proof. intros H HQ. unfold ld_ip. by eapply wp_deref. Qed.
Lemma wp_up_ip s ip n f Q : at_ (inodes s) ip = Some n -> Q tt (ipst s (blk s) ip (f n)) -> wp (up_ip ip f) Q s.
Proof. intros H HQ. unfold up_ip. wp_step. eapply wp_ld_ip; [done|]. by wp_step. Qed.
Lemma wp_ld_addr s ip n i v Q : at_ (inodes s) ip = Some n -> at_ (i_addrs n) i = Some v -> Q v s -> wp (ld_addr ip i) Q s.
Proof. intros H Hv HQ. unfold ld_addr. wp_step. eapply wp_ld_ip; [done|]. by eapply wp_deref. Qed.
Lemma wp_st_addr s ip n i v w Q : at_ (inodes s) ip = Some n -> at_ (i_addrs n) i = Some v ->
  Q tt (ipst s (blk s) ip (set_addrs (put (i_addrs n) i w) n)) -> wp (st_addr ip i w) Q s.
Proof. intros H Hv HQ. unfold st_addr. wp_step. eapply wp_ld_addr; [done|done|]. by eapply wp_up_ip. Qed.

Lemma slot_at a view i : length a = 13%nat -> 0 <= i < 13 -> at_ a i = Some (slot a view i).
Proof.
  intros Hl Hi. destruct (at_is_Some a i ltac:(lia)) as [v Hv]. rewrite slot_small by lia. by rewrite Hv.
Qed.

Lemma bmap_addr_spec s view lg X k sb n ip i Q :
  holds true (blk s) ∅ ∅ view lg -> layout sb view (nblk (blk s)) -> file_ok sb view (nblk (blk s)) (i_addrs n) ->
  at_ (inodes s) ip = Some n -> i_dev n = 1 -> 0 <= i < 13 ->
  lg ⊆ X -> (bitmap sb ∈ X) -> room (blk s) ∅ X (S k) -> (0 < base.size (frees sb view))%nat ->
  (forall r view' a' lg' B', holds true B' ∅ ∅ view' lg' -> same_store s B' -> lg' ⊆ {[r]} ∪ X ->
     filled sb view (nblk (blk s)) (i_addrs n) i r view' a' -> Q r (ipst s B' ip (set_addrs a' n))) ->
  wp (bmap_addr ip i) Q s.
Proof.
  intros H Hl Hfile Hip Hdev Hi HX HbX Hroom Hfree HQ.
  pose proof (slot_at _ view i (fo_len _ _ _ _ Hfile) Hi) as Hslot.
  unfold bmap_addr. wp_step. eapply wp_ld_addr; [done|exact Hslot|].
  destruct (Z.eqb_spec (slot (i_addrs n) view i) 0) as [H0|H0].
  - destruct (frees_first sb view Hfree) as [f Hf].
    wp_step. eapply wp_ld_ip; [done|]. rewrite Hdev. wp_step.
    eapply (balloc_spec s ∅ view lg X k sb f); try done. intros B' HB' Hs'.
    wp_step. eapply wp_st_addr; [exact Hip|exact Hslot|]. wp_step.
    apply (HQ f _ _ _ B' HB' Hs'); [set_solver|].
    apply filled_addr; try done; try lia. intros b Hb. by eapply f_view.
  - wp_step. rewrite <-(set_blk_id s), <-(ipst_id s _ ip n Hip).
    rewrite <-(set_addrs_id n) at 2.
    apply (HQ _ view (i_addrs n) lg (blk s) H (same_refl s)); [set_solver|]. by apply filled_old.
Qed.

(** what bmap returns and does: block [bn] of the file is [r] *)
Record bmapped (sb : superblock) (view : Z -> list Z) (nb : Z) (a : list Z) (bn r : Z)
    (view' : Z -> list Z) (a' : list Z) : Prop := {
  bm_layout : layout sb view' nb;
  bm_file : file_ok sb view' nb a';
  bm_slot : slot a' view' (sl bn) = r;
  bm_some : r <> 0;
  bm_others : forall j, 0 <= j < 141 -> j <> sl bn -> j <> 12 -> slot a' view' j = slot a view j;
  bm_ind : slot a view 12 <> 0 -> slot a' view' 12 = slot a view 12;
  bm_ind_new : slot a' view' 12 = slot a view 12 \/ used sb view (slot a' view' 12) = false;
  bm_old : slot a view (sl bn) <> 0 -> view' = view /\ a' = a;
  bm_new : slot a view (sl bn) = 0 -> view' r = bzeros /\ used sb view r = false;
  bm_keep : forall b, 0 <= b < 4096 -> used sb view b = true -> b <> bitmap sb ->
    b <> slot a view 12 \/ b <= bitmap sb -> view' b = view b;
  bm_used : forall b, 0 <= b < 4096 -> used sb view b = true -> used sb view' b = true;
  bm_frees : (base.size (frees sb view) <= 2 + base.size (frees sb view'))%nat;
}.

Lemma sl_range bn : 0 <= bn < MAXFILE -> 0 <= sl bn < 141 /\ sl bn <> 12.
Proof. unfold sl, MAXFILE, NDIRECT, NINDIRECT. intros H. destruct (Z.ltb_spec bn 12); lia. Qed.
Lemma sl_inj b1 b2 : sl b1 = sl b2 -> b1 = b2.
Proof. unfold sl, NDIRECT. destruct (Z.ltb_spec b1 12), (Z.ltb_spec b2 12); lia. Qed.

Lemma filled_direct sb view nb a bn r view' a' : 0 <= bn < 12 -> filled sb view nb a bn r view' a' ->
  bmapped sb view nb a bn r view' a'.
Proof.
  intros Hbn [F1 F2 F3 F4 F5 F6 F7 F8 F9 F10].
  assert (sl bn = bn) as E by (unfold sl, NDIRECT; by destruct (Z.ltb_spec bn 12); [|lia]).
  split; rewrite ?E; try done.
  - intros j Hj Hne _. by apply F5.
  - intros _. apply F5; lia.
  - left. apply F5; lia.
  - lia.
Qed.

Lemma filled_indirect sb view nb a bn ind r view1 a1 view' a' : 12 <= bn < MAXFILE ->
  filled sb view nb a 12 ind view1 a1 -> filled sb view1 nb a1 (bn + 1) r view' a' ->
  file_ok sb view nb a -> layout sb view nb ->
  bmapped sb view nb a bn r view' a'.
Proof.
  intros Hbn HF HG Ha Hl. pose proof HF as [F1 F2 F3 F4 F5 F6 F7 F8 F9 F10].
  pose proof HG as [G1 G2 G3 G4 G5 G6 G7 G8 G9 G10].
  unfold MAXFILE, NDIRECT, NINDIRECT in Hbn. pose proof (ly_size _ _ _ Hl) as Hsz.
  assert (sl bn = bn + 1) as E by (unfold sl, NDIRECT; destruct (Z.ltb_spec bn 12); lia).
  assert (slot a view 12 = 0 -> slot a view (bn + 1) = 0) as H12.
  { intros H0. rewrite slot_large by lia. by rewrite H0. }
  assert (slot a' view' 12 = ind) as Ei by (rewrite G5 by lia; done).
  split; rewrite ?E; try done.
  - intros j Hj Hne Hne12. rewrite G5, F5 by done. done.
  - intros H0. rewrite Ei. destruct (F6 H0) as [-> ->]. done.
  - rewrite Ei. destruct (Z.eq_dec (slot a view 12) 0) as [H0|H0]; [right; by apply F7|left].
    destruct (F6 H0) as [-> ->]. done.
  - intros H0. assert (slot a view 12 <> 0) as Hi by naive_solver.
    destruct (F6 Hi) as [-> ->]. by apply G6.
  - intros H0. destruct G7 as [Gz Gu]; [rewrite F5 by lia; done|]. split; [done|].
    destruct (used sb view r) eqn:Er; [|done]. rewrite <-G3 in Er at 1.
    destruct (slot_range _ _ _ _ (bn + 1) G1 G2 ltac:(lia) ltac:(congruence)) as (Hr & Hrs & _).
    pose proof (bitmap_pos _ _ _ Hl). rewrite F9 in Gu; [done|lia|congruence].
  - intros b Hb Hu Hbb Hb12. rewrite G8; [by apply F8|done|by apply F9|done|].
    destruct Hb12 as [Hb12|]; [left|by right]. intros ->. rewrite F3 in *. destruct (Z.eq_dec (slot a view 12) 0) as [H0|H0].
    + destruct (F7 H0) as [_ Hn]. congruence.
    + destruct (F6 H0) as [-> ->]. congruence.
  - intros b Hb Hu. apply G9; [done|]. by apply F9.
  - lia.
Qed.

(** Room for [k] data blocks, and for the indirect block unless it is set
    apart already. *)
Definition roomy (b : B) (X : gset Z) (ind : Z) (k : nat) : Prop :=
  room b ∅ X (S k) \/ (ind <> 0 /\ (ind ∈ X) /\ room b ∅ X k).

Lemma wp_deref_pure {A} (o : option A) x (s : st B) (Q : A -> st B -> Prop) :
  o = Some x -> Q x s -> wp (deref (fun _ => o)) Q s.
Proof. intros E HQ. by eapply wp_deref. Qed.

Lemma bmap_entry_spec s view lg X k sb a bp j Q :
  holds true (blk s) {[slot a view 12 := bp]} ∅ view lg -> layout sb view (nblk (blk s)) ->
  file_ok sb view (nblk (blk s)) a -> slot a view 12 <> 0 -> 0 <= j < 128 ->
  lg ⊆ X -> (bitmap sb ∈ X) -> (slot a view 12 ∈ X) -> room (blk s) ∅ X (S k) ->
  (0 < base.size (frees sb view))%nat ->
  (forall r view' lg' B', holds true B' ∅ ∅ view' lg' -> same_store s B' -> lg' ⊆ {[r]} ∪ X ->
     filled sb view (nblk (blk s)) a (13 + j) r view' a -> Q r (set_blk B' s)) ->
  wp (bmap_entry 1 bp j) Q s.
Proof.
  intros H Hl Ha H0 Hj HX HbX HiX Hroom Hfree HQ. set (ind := slot a view 12) in *.
  destruct (slot_range _ _ _ _ 12 Hl Ha ltac:(lia) H0) as (Hir & His & Hiu).
  pose proof (bitmap_pos _ _ _ Hl) as Hb3. fold ind in Hir, His, Hiu.
  destruct (f_view _ _ _ _ _ _ H ind ltac:(lia)) as [Hlen Hby].
  pose proof (lookup_insert_eq (∅ : gmap Z Z) ind bp) as Hbp.
  change ({[ind := bp]} : gmap Z Z) with (<[ind := bp]> (∅ : gmap Z Z)) in H.
  assert (0 <= 4 * j /\ 4 * j + Z.of_nat 4 <= Z.of_nat (length (view ind))) as Hin.
  { rewrite Hlen. change (Z.of_nat 512) with 512. change (Z.of_nat 4) with 4. lia. }
  assert (ld32 (view ind) (4 * j) = Some (slot a view (13 + j))) as Hent.
  { rewrite slot_large by lia. fold ind. destruct (Z.eqb_spec ind 0); [done|].
    replace (4 * (13 + j - 13)) with (4 * j) by lia. unfold ld32. by rewrite (ldn_in 4 _ _ Hin). }
  unfold bmap_entry. wp_step. eapply (f_bdata _ _ _ _ _ _ H ind bp _ Hbp).
  wp_step. eapply wp_deref_pure; [exact Hent|]. wp_step.
  assert (room (blk s) (<[ind := bp]> ∅) X (S k)) as Hroom' by (by apply room_hold_in).
  destruct (Z.eqb_spec (slot a view (13 + j)) 0) as [Hz|Hz].
  - destruct (frees_first sb view Hfree) as [f Hf]. destruct (free_range _ _ _ _ Hl Hf) as (Hfr & Hfs & Hfu).
    wp_step. eapply (balloc_spec s (<[ind := bp]> ∅) view lg X k sb f); try done;
      [rewrite lookup_insert_ne by lia; apply lookup_empty..|rewrite lookup_insert_ne by congruence; apply lookup_empty|].
    intros B1 HB1 Hs1. wp_step. eapply (f_bdata _ (set_blk B1 s) _ _ _ _ HB1 ind bp _ Hbp).
    rewrite (balloced_other sb view f ind) by (congruence || lia).
    wp_step. eapply wp_deref_pure; [by apply (stn_in 4)|].
    wp_step. eapply (f_set (set_blk B1 s)); [exact HB1|exact Hbp| |apply blit_bytes; [done|apply le_bytes]|].
    { by rewrite length_stn. }
    intros B2 HB2 Hs2. rewrite set_blk2. pose proof (same_trans _ _ _ Hs1 Hs2) as Hs2'.
    assert (room B2 (<[ind := bp]> ∅) ({[f]} ∪ X) k) as Hroom2.
    { eapply room_same; [|exact Hs2']. by apply room_use. }
    wp_step. eapply (f_log (set_blk B2 s)); [exact HB2|exact Hbp| | |].
    { eapply room_can_log; [exact Hroom2|set_solver]. }
    { eapply room_can_read; [exact Hroom2|set_solver]. }
    intros B3 HB3 Hs3. rewrite set_blk2. wp_step. wp_step. pose proof (same_trans _ _ _ Hs2' Hs3) as Hs3'.
    eapply (f_brelse _ (set_blk B3 s) _ _ _ _ HB3 ind bp _ Hbp); [set_solver|].
    intros B4 HB4 Hs4. rewrite set_blk2. wp_step.
    assert (({[ind]} ∪ ∅) ∖ {[ind]} = (∅ : gset Z)) as E by set_solver. rewrite E in HB4.
    rewrite delete_insert_id in HB4 by apply lookup_empty.
    eapply (HQ f); [exact HB4|by eapply same_trans|set_solver|].
    replace (4 * j) with (4 * (13 + j - 13)) by lia.
    apply filled_entry; try done; try lia. intros b Hb. by eapply f_view.
  - wp_step. wp_step. eapply (f_brelse _ _ _ _ _ _ H ind bp _ Hbp); [set_solver|].
    intros B1 HB1 Hs1. wp_step. rewrite delete_insert_id in HB1 by apply lookup_empty.
    eapply HQ; [exact HB1|done|set_solver|]. by apply filled_old.
Qed.

Lemma bmap_spec s view lg X k sb n ip bn Q :
  holds true (blk s) ∅ ∅ view lg -> layout sb view (nblk (blk s)) -> file_ok sb view (nblk (blk s)) (i_addrs n) ->
  at_ (inodes s) ip = Some n -> i_dev n = 1 -> 0 <= bn < MAXFILE ->
  lg ⊆ X -> (bitmap sb ∈ X) -> roomy (blk s) X (slot (i_addrs n) view 12) (S k) ->
  (2 <= base.size (frees sb view))%nat ->
  (forall r view' a' lg' X' B', holds true B' ∅ ∅ view' lg' -> same_store s B' ->
     bmapped sb view (nblk (blk s)) (i_addrs n) bn r view' a' ->
     lg' ⊆ X' -> X ⊆ X' -> (r ∈ X') -> roomy B' X' (slot a' view' 12) k ->
     Q r (ipst s B' ip (set_addrs a' n))) ->
  wp (bmap ip bn) Q s.
Proof.
  intros H Hl Hfile Hip Hdev Hbn HX HbX Hroom Hfree HQ. unfold bmap.
  unfold MAXFILE, NDIRECT, NINDIRECT in *.
  destruct (Z.ltb_spec bn 12) as [Hlt|Hge].
  - assert (exists k', room (blk s) ∅ X (S k') /\ forall b X' i', room b ∅ X' k' -> X ⊆ X' ->
      (slot (i_addrs n) view 12 <> 0 -> i' = slot (i_addrs n) view 12) -> roomy b X' i' k) as (k' & Hk & Hk').
    { destruct Hroom as [Hr|(H0 & Hin & Hr)].
      - exists (S k). split; [done|]. intros b X' i' Hr' _ _. by left.
      - exists k. split; [done|]. intros b X' i' Hr' Hsub Hi. right. rewrite (Hi H0). set_solver. }
    eapply (bmap_addr_spec s view lg X k'); try done; [lia|lia|].
    intros r view' a' lg' B' HB' Hs' Hlg Hfl. pose proof (filled_direct _ _ _ _ _ _ _ _ (conj (proj1 Hbn) Hlt) Hfl) as Hbm.
    eapply (HQ r view' a' lg' ({[r]} ∪ X)); try done; [set_solver|set_solver|].
    apply Hk'; [|set_solver|by apply (bm_ind _ _ _ _ _ _ _ _ Hbm)].
    eapply room_same; [|exact Hs']. by apply room_use.
  - assert (u32 (bn - 12) = bn - 12) as -> by (apply Z.mod_small; lia).
    destruct (Z.ltb_spec (bn - 12) 128) as [_|]; [|lia].
    assert (exists k1, room (blk s) ∅ X (S k1) /\ forall ind, (ind = slot (i_addrs n) view 12 \/ slot (i_addrs n) view 12 = 0) ->
       room (blk s) ∅ ({[ind]} ∪ X) (S k)) as (k1 & Hk1 & Hk2).
    { destruct Hroom as [Hr|(H0 & Hin & Hr)].
      - exists (S k). split; [done|]. intros ind _. by apply room_use.
      - exists k. split; [done|]. intros ind [->|]; [|done].
        assert ({[slot (i_addrs n) view 12]} ∪ X = X) as -> by set_solver. done. }
    wp_step. eapply (bmap_addr_spec s view lg X k1 sb n ip 12); try done; [lia|].
    intros ind view1 a1 lg1 B1 HB1 Hs1 Hlg1 F. pose proof F as [F1 F2 F3 F4 F5 F6 F7 F8 F9 F10].
    assert (room B1 ∅ ({[ind]} ∪ X) (S k)) as Hroom1.
    { eapply room_same; [|exact Hs1]. apply Hk2. destruct (Z.eq_dec (slot (i_addrs n) view 12) 0) as [E|E]; [by right|left].
      destruct (F6 E) as [-> ->]. done. }
    wp_step. eapply wp_ld_ip; [by apply (ipst_at s _ _ n)|]. cbn [i_dev set_addrs]. rewrite Hdev.
    destruct (slot_range _ _ _ _ 12 F1 F2 ltac:(lia) ltac:(congruence)) as (Hir & _). rewrite F3 in Hir.
    pose proof (bitmap_pos _ _ _ Hl) as Hb3. pose proof Hs1 as [En1 _].
    set (s1 := ipst s B1 ip (set_addrs a1 n)) in *.
    wp_step. eapply (f_bread _ s1 _ _ _ _ HB1 ind); [apply lookup_empty|cbn; lia|right; by eapply room_can_read|].
    intros bp B2 HB2 Hs2. eapply (bmap_entry_spec (set_blk B2 s1) view1 lg1 ({[ind]} ∪ X) k sb a1 bp (bn - 12)).
    + rewrite F3. exact HB2.
    + cbn. destruct Hs2 as [-> _]. cbn. by rewrite En1.
    + cbn. destruct Hs2 as [-> _]. cbn. by rewrite En1.
    + by rewrite F3.
    + lia.
    + done.
    + set_solver.
    + rewrite F3. set_solver.
    + cbn. eapply (room_same s1); [exact Hroom1|done].
    + lia.
    + intros r view' lg' B' HB' Hs' Hlg' G.
      assert (same_store s1 B') as Hs1' by (by eapply same_trans).
      assert (same_store s B') as HsB by (destruct Hs1', Hs1; split; cbn in *; congruence).
      assert (nblk (blk (set_blk B2 s1)) = nblk (blk s)) as En2.
      { destruct Hs2 as [E _]. cbn. rewrite E. cbn. done. }
      rewrite En2 in G. replace (13 + (bn - 12)) with (bn + 1) in G by lia.
      pose proof (filled_indirect sb view (nblk (blk s)) (i_addrs n) bn ind r view1 a1 view' a1
        ltac:(unfold MAXFILE, NDIRECT, NINDIRECT; lia) F G Hfile Hl) as Hbm.
      rewrite set_blk2. unfold s1. rewrite ipst_blk.
      eapply (HQ r view' a1 lg' ({[r]} ∪ ({[ind]} ∪ X))); try done; [set_solver|set_solver|].
      right. pose proof G as [_ _ _ _ G5 _ _ _ _ _]. rewrite G5 by lia. rewrite F3.
      split; [done|]. split; [set_solver|]. eapply room_same; [|exact Hs1']. cbn. by apply room_use.
Qed.

(** an allocated block of a file is found without changing anything *)
Lemma bmap_old a s view lg sb n ip bn Q :
  holds a (blk s) ∅ ∅ view lg -> layout sb view (nblk (blk s)) -> file_ok sb view (nblk (blk s)) (i_addrs n) ->
  at_ (inodes s) ip = Some n -> i_dev n = 1 -> 0 <= bn < MAXFILE -> (base.size lg < 10)%nat ->
  slot (i_addrs n) view (sl bn) <> 0 ->
  (forall B', holds a B' ∅ ∅ view lg -> same_store s B' -> Q (slot (i_addrs n) view (sl bn)) (set_blk B' s)) ->
  wp (bmap ip bn) Q s.
Proof.
  intros H Hl Hfile Hip Hdev Hbn Hsz Hs HQ. unfold bmap, bmap_addr, bmap_entry.
  pose proof (fo_len _ _ _ _ Hfile) as Hlen.
  unfold sl, MAXFILE, NDIRECT, NINDIRECT in *. destruct (Z.ltb_spec bn 12) as [Hlt|Hge].
  - wp_step. eapply wp_ld_addr; [done|apply (slot_at _ view); [done|lia]|].
    destruct (Z.eqb_spec (slot (i_addrs n) view bn) 0); [done|]. wp_step.
    rewrite <-(set_blk_id s) at 1. by apply HQ.
  - assert (u32 (bn - 12) = bn - 12) as -> by (apply Z.mod_small; lia).
    destruct (Z.ltb_spec (bn - 12) 128) as [_|]; [|lia].
    wp_step. wp_step. eapply wp_ld_addr; [done|apply (slot_at _ view); [done|lia]|].
    set (ind := slot (i_addrs n) view 12) in *.
    assert (ind <> 0) as H12 by (rewrite slot_large in Hs by lia; fold ind in Hs; by destruct (Z.eqb_spec ind 0)).
    destruct (Z.eqb_spec ind 0); [done|]. wp_step.
    wp_step. eapply wp_ld_ip; [done|]. rewrite Hdev.
    destruct (slot_range _ _ _ _ 12 Hl Hfile ltac:(lia) H12) as (Hir & _). fold ind in Hir.
    pose proof (bitmap_pos _ _ _ Hl) as Hb3. destruct (f_view _ _ _ _ _ _ H ind ltac:(lia)) as [Hvl _].
    wp_step. eapply (f_bread _ _ _ _ _ _ H ind); [apply lookup_empty|lia| |].
    { right. rewrite dom_empty_L, union_empty_l_L. lia. }
    intros bp B1 HB1 Hs1. pose proof (lookup_insert_eq (∅ : gmap Z Z) ind bp) as Hbp.
    wp_step. eapply (f_bdata _ (set_blk B1 s) _ _ _ _ HB1 ind bp _ Hbp).
    wp_step. eapply (wp_deref_pure _ (slot (i_addrs n) view (bn + 1))).
    { rewrite slot_large by lia. fold ind. destruct (Z.eqb_spec ind 0); [done|].
      replace (4 * (bn + 1 - 13)) with (4 * (bn - 12)) by lia. unfold ld32. rewrite ldn_in; [done|].
      rewrite Hvl. change (Z.of_nat 512) with 512. change (Z.of_nat 4) with 4. lia. }
    wp_step. destruct (Z.eqb_spec (slot (i_addrs n) view (bn + 1)) 0); [done|]. wp_step.
    wp_step. eapply (f_brelse _ (set_blk B1 s) _ _ _ _ HB1 ind bp _ Hbp); [set_solver|].
    intros B2 HB2 Hs2. rewrite delete_insert_id in HB2 by apply lookup_empty. rewrite set_blk2. wp_step.
    apply HQ; [done|]. by eapply same_trans.
Qed.
End fs.
End Fs.
