(* ===== verification/Content.v ===== *)
(** * Inode contents (src/src/fs.c)

    The bytes of a file as a function of its inode and the blocks of the disk,
    and what readi, writei, iupdate and ilock do to them. *)

From S2P Require Import Prelude.
From S2P Require Import Bytes.
From S2P Require Import Bio.
From S2P Require Import Log.
From S2P Require Import Store.
From S2P Require Import Fs.

Module Content.
Import Fs.

Section content.
Context {B : Type} {BS : BlockStore B} {DV : Devsw B} {BL : BlockStoreLaws B}.

(** ** The bytes of a file *)

Definition fblock (a : list Z) (view : Z -> list Z) (k : Z) : list Z := view (slot a view (sl k)).
Definition blocks_of (n : Z) : Z := (n + 511) / 512.
Definition content (a : list Z) (view : Z -> list Z) (n : Z) : list Z :=
  take (Z.to_nat n) (concat (fblock a view <$> seqZ 0 (blocks_of n))).
Definition fbyte (a : list Z) (view : Z -> list Z) (i : Z) : option Z :=
  fblock a view (i / 512) !! Z.to_nat (i mod 512).
(** every block below byte [n] is there *)
Definition has_blocks (a : list Z) (view : Z -> list Z) (n : Z) : Prop :=
  forall k, 0 <= k -> 512 * k < n -> slot a view (sl k) <> 0.

Lemma concat_lookup (ls : list (list Z)) i : (forall l, l ∈ ls -> length l = 512%nat) ->
  concat ls !! i = match ls !! (i / 512)%nat with Some l => l !! (i mod 512)%nat | None => None end.
Proof.
  revert i. induction ls as [|l ls IH]; intros i Hl; [done|]. cbn [concat].
  assert (length l = 512%nat) as E by (apply Hl; in_list).
  destruct (decide (i < 512)%nat) as [Hi|Hi].
  - rewrite lookup_app_l by lia. rewrite Nat.div_small, Nat.mod_small by lia. done.
  - rewrite lookup_app_r, E, IH by (try lia; intros; apply Hl; in_list).
    pose proof (Nat.div_mod_eq i 512). pose proof (Nat.div_mod_eq (i - 512) 512).
    pose proof (Nat.mod_upper_bound i 512). pose proof (Nat.mod_upper_bound (i - 512) 512).
    assert (i / 512 = S ((i - 512) / 512))%nat as -> by nia.
    assert ((i - 512) mod 512 = i mod 512)%nat as -> by nia. done.
Qed.

Section bytes.
  Context (a : list Z) (view : Z -> list Z) (n : Z).
  Hypothesis Hn : 0 <= n <= MAXFILE * 512.
  Hypothesis Hlen : forall k, 0 <= k -> 512 * k < n -> length (fblock a view k) = 512%nat.

Lemma content_lookup i : content a view n !! i = if decide (Z.of_nat i < n) then fbyte a view (Z.of_nat i) else None.
Proof using Hn Hlen.
  unfold content. case_decide as Hi.
  - rewrite lookup_take_lt by lia. rewrite concat_lookup.
    + rewrite list_lookup_fmap. unfold blocks_of, fbyte.
      rewrite lookup_seqZ_lt by (rewrite Nat2Z.inj_div; Z.div_mod_to_equations; lia).
      rewrite Z.add_0_l, Nat2Z.inj_div. cbn [fmap option_fmap option_map]. change (Z.of_nat 512) with 512.
      assert (Z.to_nat (Z.of_nat i mod 512) = (i mod 512)%nat) as ->; [|done].
      change 512 with (Z.of_nat 512). rewrite <-Nat2Z.inj_mod. apply Nat2Z.id.
    + intros l Hl. apply list_elem_of_fmap in Hl as (k & -> & Hk). apply elem_of_seqZ in Hk.
      apply Hlen; [lia|]. unfold blocks_of in Hk. Z.div_mod_to_equations; lia.
  - apply lookup_ge_None. rewrite length_take. lia.
Qed.
Lemma length_content : length (content a view n) = Z.to_nat n.
Proof using Hn Hlen.
  destruct (decide (length (content a view n) < Z.to_nat n)%nat) as [Hlt|Hge].
  - pose proof (content_lookup (length (content a view n))) as Hc. rewrite decide_True in Hc by lia.
    rewrite (proj2 (lookup_ge_None _ _)) in Hc by lia. unfold fbyte in Hc. symmetry in Hc.
    apply lookup_ge_None in Hc. rewrite Hlen in Hc by (Z.div_mod_to_equations; lia).
    pose proof (Z.mod_pos_bound (Z.of_nat (length (content a view n))) 512). lia.
  - unfold content in *. rewrite length_take in *. lia.
Qed.
(** a piece within one block *)
Lemma content_piece o m : 0 <= o -> 0 <= m -> o + m <= n -> o mod 512 + m <= 512 -> o < n ->
  sub (content a view n) (Z.to_nat o) (Z.to_nat m) = sub (fblock a view (o / 512)) (Z.to_nat (o mod 512)) (Z.to_nat m).
Proof using Hn Hlen.
  intros Ho Hm Hom Hfit Hlt. apply list_eq_lookup. intros i.
  destruct (decide (i < Z.to_nat m)%nat) as [Hi|Hi]; [|by rewrite !lookup_sub_ge by lia].
  rewrite !lookup_sub by done. rewrite content_lookup, decide_True by lia. unfold fbyte.
  replace (Z.of_nat (Z.to_nat o + i) / 512) with (o / 512) by (Z.div_mod_to_equations; lia).
  f_equal. Z.div_mod_to_equations; lia.
Qed.
End bytes.

Lemma slice_in x o m : 0 <= o -> o + m <= Z.of_nat (length x) -> slice x o m = Some (sub x (Z.to_nat o) (Z.to_nat m)).
Proof. intros H1 H2. unfold slice. destruct (Z.leb_spec 0 o), (Z.leb_spec (o + m) (Z.of_nat (length x))); done || lia. Qed.
Lemma splice_in x o d : 0 <= o -> o + Z.of_nat (length d) <= Z.of_nat (length x) ->
  splice x o d = Some (blit x (Z.to_nat o) d).
Proof.
  intros H1 H2. unfold splice.
  destruct (Z.leb_spec 0 o), (Z.leb_spec (o + Z.of_nat (length d)) (Z.of_nat (length x))); done || lia.
Qed.

Lemma u32_id z : 0 <= z < 2 ^ 32 -> u32 z = z.
Proof. apply Z.mod_small. Qed.
Lemma s32_id z : 0 <= z < 2 ^ 31 -> s32 z = z.
Proof. intros Hz. unfold s32. rewrite Z.mod_small by lia. lia. Qed.
(** A well-formed file on a well-formed disk. *)
Record ifile (sb : superblock) (view : Z -> list Z) (nb : Z) (n : inode) : Prop := {
  if_layout : layout sb view nb;
  if_file : file_ok sb view nb (i_addrs n);
  if_size : 0 <= i_size n <= MAXFILE * 512;
  if_blocks : has_blocks (i_addrs n) view (i_size n);
  if_dev : i_dev n = 1;
}.
Definition icontent (view : Z -> list Z) (n : inode) : list Z := content (i_addrs n) view (i_size n).

Lemma block_range sb view nb n k : ifile sb view nb n -> 0 <= k -> 512 * k < i_size n ->
  0 <= k < MAXFILE /\ slot (i_addrs n) view (sl k) <> 0 /\ bitmap sb < slot (i_addrs n) view (sl k) < nb.
Proof.
  intros [Hl Hf Hs Hb _] Hk Hks. unfold MAXFILE, NDIRECT, NINDIRECT in *.
  assert (0 <= k < 140) as Hk' by lia. split; [exact Hk'|]. pose proof (Hb k Hk Hks) as H0. split; [done|].
  destruct (sl_range k) as [Hr _]; [done|].
  by destruct (slot_range _ _ _ _ _ Hl Hf Hr H0) as (? & _).
Qed.
Lemma length_fblock a s bz md view lg sb n k : holds a (blk s) bz md view lg -> ifile sb view (nblk (blk s)) n ->
  0 <= k -> 512 * k < i_size n -> length (fblock (i_addrs n) view k) = 512%nat.
Proof.
  intros H Hi Hk Hks. destruct (block_range _ _ _ _ _ Hi Hk Hks) as (_ & _ & Hr).
  pose proof (bitmap_pos _ _ _ (if_layout _ _ _ _ Hi)). eapply (bs_view _ _ _ _ _ _ _ H). lia.
Qed.
Lemma length_icontent a s bz md view lg sb n : holds a (blk s) bz md view lg -> ifile sb view (nblk (blk s)) n ->
  length (icontent view n) = Z.to_nat (i_size n).
Proof.
  intros H Hi. apply length_content; [apply (if_size _ _ _ _ Hi)|]. intros k. by eapply length_fblock.
Qed.

(** the bytes of one round of the read and write loops *)
Definition piece (off left : Z) : Z := Z.min left (512 - off mod 512).
Lemma piece_range off left : 0 < left -> 0 < piece off left <= left /\ off mod 512 + piece off left <= 512.
Proof. intros Hl. unfold piece. pose proof (Z.mod_pos_bound off 512). lia. Qed.

(** ** readi *)

Lemma readi_loop a s view lg sb n ip off m :
  holds a (blk s) ∅ ∅ view lg -> ifile sb view (nblk (blk s)) n -> at_ (inodes s) ip = Some n ->
  (base.size lg < 10)%nat -> 0 <= off -> 0 <= m -> off + m <= i_size n ->
  wp (loop (S (Z.to_nat m)) (readi_body ip m) (0, off, []))
    (fun acc s' => acc = sub (icontent view n) (Z.to_nat off) (Z.to_nat m) /\
       exists B', s' = set_blk B' s /\ holds a B' ∅ ∅ view lg /\ same_store s B') s.
Proof.
  intros H Hi Hip Hsz Hoff Hm Hend. pose proof (if_size _ _ _ _ Hi) as Hsize.
  unfold MAXFILE, NDIRECT, NINDIRECT in Hsize.
  apply wp_loop with (mu := fun v => Z.to_nat (m - v.1.1))
    (Inv := fun v s' => 0 <= v.1.1 <= m /\ v.1.2 = off + v.1.1 /\
       v.2 = sub (icontent view n) (Z.to_nat off) (Z.to_nat v.1.1) /\
       exists B', s' = set_blk B' s /\ holds a B' ∅ ∅ view lg /\ same_store s B').
  - cbn. split; [lia|]. split; [lia|]. split; [done|]. exists (blk s). by rewrite set_blk_id.
  - cbn. lia.
  - intros [[tot o] acc] s' (Ht & Ho & Hacc & B1 & -> & HB1 & Hs1). cbn [fst snd] in *. subst o acc.
    unfold readi_body. destruct (Z.ltb_spec tot m) as [Hlt|Hge].
    2: { wp_step. assert (tot = m) as -> by lia. split; [done|]. by exists B1. }
    wp_step. eapply wp_ld_ip; [exact Hip|].
    pose proof Hs1 as [En1 _].
    assert (ifile sb view (nblk (blk (set_blk B1 s))) n) as Hi1 by (cbn; by rewrite En1).
    set (o := off + tot) in *. assert (512 * (o / 512) < i_size n) as Hblk by (Z.div_mod_to_equations; lia).
    destruct (block_range _ _ _ _ (o / 512) Hi ltac:(Z.div_mod_to_equations; lia) Hblk) as (Hk & H0 & Hr).
    pose proof (bitmap_pos _ _ _ (if_layout _ _ _ _ Hi)).
    wp_step. eapply (bmap_old a (set_blk B1 s)); try done; [apply (if_layout _ _ _ _ Hi1)|apply (if_file _ _ _ _ Hi1)|apply (if_dev _ _ _ _ Hi)|].
    intros B2 HB2 Hs2. rewrite set_blk2. set (r := slot (i_addrs n) view (sl (o / 512))) in *.
    rewrite (if_dev _ _ _ _ Hi). pose proof (same_trans _ _ _ Hs1 Hs2) as Hs2'. pose proof Hs2' as [En2 _].
    wp_step. eapply (f_bread _ (set_blk B2 s) _ _ _ _ HB2 r); [apply lookup_empty|cbn; lia| |].
    { right. rewrite dom_empty_L, union_empty_l_L. lia. }
    intros bp B3 HB3 Hs3. rewrite set_blk2. pose proof (lookup_insert_eq (∅ : gmap Z Z) r bp) as Hbp.
    assert (u32 (m - tot) = m - tot) as -> by (apply u32_id; lia).
    change (Z.min (m - tot) (BSIZE - o mod BSIZE)) with (piece o (m - tot)).
    destruct (piece_range o (m - tot) ltac:(lia)) as [Hp Hfit]. set (p := piece o (m - tot)) in *.
    wp_step. eapply (f_bdata _ (set_blk B3 s) _ _ _ _ HB3 r bp _ Hbp).
    destruct (f_view _ _ _ _ _ _ H r ltac:(lia)) as [Hvl _].
    change BSIZE with 512. pose proof (Z.mod_pos_bound o 512 eq_refl).
    wp_step. eapply wp_deref_pure; [apply slice_in; [lia|rewrite Hvl; change (Z.of_nat 512) with 512; lia]|].
    pose proof (same_trans _ _ _ Hs2' Hs3) as Hs3'.
    wp_step. eapply (f_brelse _ (set_blk B3 s) _ _ _ _ HB3 r bp _ Hbp); [set_solver|].
    intros B4 HB4 Hs4. rewrite set_blk2. rewrite delete_insert_id in HB4 by apply lookup_empty.
    wp_step. cbn [fst snd]. rewrite !u32_id by lia.
    split; [|lia]. split; [lia|]. split; [lia|]. split.
    + replace (Z.to_nat (tot + p)) with (Z.to_nat tot + Z.to_nat p)%nat by lia. rewrite sub_app. f_equal.
      replace (Z.to_nat off + Z.to_nat tot)%nat with (Z.to_nat o) by lia.
      symmetry. apply (content_piece (i_addrs n) view (i_size n)); try lia.
      * unfold MAXFILE, NDIRECT, NINDIRECT. lia.
      * intros k. by eapply length_fblock.
    + exists B4. split; [done|]. split; [done|]. by eapply same_trans.
Qed.

(** what readi returns for a file: a prefix of what was asked for *)
Definition readi_result (c : list Z) (off n : Z) : Z * list Z :=
  if (Z.of_nat (length c) <? off) || (u32 (off + n) <? off) then (-1, [])
  else let m := Z.min n (Z.of_nat (length c) - off) in
       (m, sub c (Z.to_nat off) (Z.to_nat m)).

Lemma readi_spec a s view lg sb n ip off m :
  holds a (blk s) ∅ ∅ view lg -> ifile sb view (nblk (blk s)) n -> at_ (inodes s) ip = Some n ->
  i_type n <> T_DEV -> (base.size lg < 10)%nat -> 0 <= off < 2 ^ 32 -> 0 <= m < 2 ^ 32 ->
  wp (readi ip off m) (fun r s' => r = readi_result (icontent view n) off m /\
       exists B', s' = set_blk B' s /\ holds a B' ∅ ∅ view lg /\ same_store s B') s.
Proof.
  intros H Hi Hip Hty Hsz Hoff Hm. pose proof (if_size _ _ _ _ Hi) as Hsize.
  unfold MAXFILE, NDIRECT, NINDIRECT in Hsize.
  unfold readi, readi_result. rewrite (length_icontent _ _ _ _ _ _ _ _ H Hi), Z2Nat.id by lia.
  wp_step. eapply wp_ld_ip; [done|]. destruct (Z.eqb_spec (i_type n) T_DEV); [done|].
  destruct (_ || _) eqn:E.
  { wp_step. split; [done|]. exists (blk s). by rewrite set_blk_id. }
  apply orb_false_iff in E as [E1%Z.ltb_ge E2%Z.ltb_ge].
  assert (off + m < 2 ^ 32) as Hno.
  { unfold u32 in E2. destruct (Z.ltb_spec (off + m) (2 ^ 32)); [done|].
    rewrite <-(Z.mod_unique (off + m) (2 ^ 32) 1 (off + m - 2 ^ 32)) in E2 by lia. lia. }
  rewrite (u32_id (off + m)) by lia.
  assert ((if i_size n <? off + m then u32 (i_size n - off) else m) = Z.min m (i_size n - off)) as ->.
  { destruct (Z.ltb_spec (i_size n) (off + m)); [rewrite u32_id by lia|]; lia. }
  wp_step. eapply wp_mono; [eapply (readi_loop a s); try done; lia|].
  cbn beta. intros acc s' (-> & HB). wp_step. rewrite s32_id by lia. done.
Qed.

(** ** The disk inode *)

Definition enc_dinode (n : inode) : list Z :=
  le 2 (i_type n) ++ le 2 (i_major n) ++ le 2 (i_minor n) ++ le 2 (i_nlink n) ++ le 4 (i_size n) ++ enc32s (i_addrs n).
(** the values the fields of a struct inode can have *)
Record fields_ok (n : inode) : Prop := {
  fk_type : - 2 ^ 15 <= i_type n < 2 ^ 15;
  fk_major : - 2 ^ 15 <= i_major n < 2 ^ 15;
  fk_minor : - 2 ^ 15 <= i_minor n < 2 ^ 15;
  fk_nlink : - 2 ^ 15 <= i_nlink n < 2 ^ 15;
  fk_size : 0 <= i_size n < 2 ^ 32;
  fk_addrs : Forall (fun v => 0 <= v < 2 ^ 32) (i_addrs n);
  fk_len : length (i_addrs n) = 13%nat;
}.
(** [ip] with the fields of [n] that are on disk *)
Definition loaded (n ip : inode) : inode :=
  load_fields (i_type n) (i_major n) (i_minor n) (i_nlink n) (i_size n) (i_addrs n) ip.
Lemma loaded_self n : loaded n n = n.
Proof. by destruct n. Qed.

Lemma blit_adj (x : list Z) o d1 d2 : (o + length d1 + length d2 <= length x)%nat ->
  blit (blit x o d1) (o + length d1) d2 = blit x o (d1 ++ d2).
Proof.
  intros Hl. apply list_eq_lookup. intros i.
  rewrite !lookup_blit by (rewrite ?length_blit, ?length_app by lia; lia). rewrite length_app.
  repeat case_decide; try lia; try done.
  - rewrite lookup_app_r by lia. f_equal. lia.
  - by rewrite lookup_app_l by lia.
Qed.

Lemma length_enc32s l : length (enc32s l) = (4 * length l)%nat.
Proof. unfold enc32s. induction l as [|v l IH]; [done|]. cbn [fmap list_fmap concat]. rewrite length_app, length_le, IH. cbn. lia. Qed.
Lemma length_enc n : length (i_addrs n) = 13%nat -> length (enc_dinode n) = 64%nat.
Proof. intros H. unfold enc_dinode. rewrite !length_app, !length_le, length_enc32s, H. done. Qed.

Lemma stn_blit k (x : list Z) (o : nat) v : (o + k <= length x)%nat ->
  stn k x (Z.of_nat o) v = Some (blit x o (le k v)).
Proof. intros H. rewrite stn_in by lia. by rewrite Nat2Z.id. Qed.

Lemma st_dinode_blit x (o : nat) n : (o + 64 <= length x)%nat -> length (i_addrs n) = 13%nat ->
  st_dinode x (Z.of_nat o) n = Some (blit x o (enc_dinode n)).
Proof.
  intros Ho Ha. unfold st_dinode, st16, st32.
  rewrite stn_blit by lia. cbn [mbind option_bind].
  replace (Z.of_nat o + 2) with (Z.of_nat (o + 2)) by lia. rewrite stn_blit by (rewrite length_blit; rewrite ?length_le; lia).
  rewrite blit_adj by (rewrite !length_le; lia). cbn [mbind option_bind].
  replace (Z.of_nat o + 4) with (Z.of_nat (o + 4)) by lia.
  rewrite stn_blit by (rewrite length_blit; rewrite ?length_app, ?length_le; lia).
  rewrite (blit_adj x o (le 2 (i_type n) ++ le 2 (i_major n))) by (rewrite !length_app, !length_le; lia).
  cbn [mbind option_bind]. rewrite <-app_assoc.
  replace (Z.of_nat o + 6) with (Z.of_nat (o + 6)) by lia.
  rewrite stn_blit by (rewrite length_blit; rewrite ?length_app, ?length_le; lia).
  rewrite (blit_adj x o (le 2 (i_type n) ++ le 2 (i_major n) ++ le 2 (i_minor n))) by (rewrite !length_app, !length_le; lia).
  cbn [mbind option_bind]. rewrite <-!app_assoc.
  replace (Z.of_nat o + 8) with (Z.of_nat (o + 8)) by lia.
  rewrite stn_blit by (rewrite length_blit; rewrite ?length_app, ?length_le; lia).
  rewrite (blit_adj x o (le 2 (i_type n) ++ le 2 (i_major n) ++ le 2 (i_minor n) ++ le 2 (i_nlink n))) by (rewrite !length_app, !length_le; lia).
  cbn [mbind option_bind]. rewrite <-!app_assoc.
  rewrite splice_in; [|lia|rewrite length_enc32s, Ha, length_blit; rewrite ?length_app, ?length_le; lia].
  replace (Z.to_nat (Z.of_nat o + 12)) with (o + 12)%nat by lia.
  rewrite (blit_adj x o (le 2 (i_type n) ++ le 2 (i_major n) ++ le 2 (i_minor n) ++ le 2 (i_nlink n) ++ le 4 (i_size n)))
    by (rewrite !length_app, !length_le, length_enc32s; lia).
  by rewrite <-!app_assoc.
Qed.

(** ilock() reads the 64 bytes of its inode only *)
Definition dec_dinode (d : list Z) (ip : inode) : inode :=
  load_fields (s16 (of_le (sub d 0 2))) (s16 (of_le (sub d 2 2))) (s16 (of_le (sub d 4 2))) (s16 (of_le (sub d 6 2)))
    (of_le (sub d 8 4)) (dec32s 13 (sub d 12 52)) ip.
Lemma ld_dinode_dec x (o : nat) ip : (o + 64 <= length x)%nat ->
  ld_dinode x (Z.of_nat o) ip = Some (dec_dinode (sub x o 64) ip).
Proof.
  intros Ho. unfold ld_dinode, ld16, ld32, dec_dinode.
  rewrite !ldn_in by lia. cbn [mbind option_bind].
  rewrite slice_in by (unfold NDIRECT; lia). cbn [mbind option_bind]. rewrite !sub_sub by lia.
  change (Z.to_nat (4 * (NDIRECT + 1))) with 52%nat.
  replace (Z.to_nat (Z.of_nat o)) with (o + 0)%nat by lia. replace (Z.to_nat (Z.of_nat o + 2)) with (o + 2)%nat by lia.
  replace (Z.to_nat (Z.of_nat o + 4)) with (o + 4)%nat by lia. replace (Z.to_nat (Z.of_nat o + 6)) with (o + 6)%nat by lia.
  replace (Z.to_nat (Z.of_nat o + 8)) with (o + 8)%nat by lia. by replace (Z.to_nat (Z.of_nat o + 12)) with (o + 12)%nat by lia.
Qed.

Lemma of_le_le_s16 v : - 2 ^ 15 <= v < 2 ^ 15 -> s16 (of_le (le 2 v)) = v.
Proof.
  intros Hv. rewrite of_le_le. change (8 * Z.of_nat 2) with 16. unfold s16.
  rewrite Zplus_mod_idemp_l. rewrite Z.mod_small by lia. lia.
Qed.
Lemma of_le_le_u32 v : 0 <= v < 2 ^ 32 -> of_le (le 4 v) = v.
Proof. intros Hv. rewrite of_le_le. by apply Z.mod_small. Qed.

Lemma dec_enc32s l : Forall (fun v => 0 <= v < 2 ^ 32) l -> dec32s (length l) (enc32s l) = l.
Proof.
  unfold enc32s. induction 1 as [|v l Hv _ IH]; [done|]. cbn [length dec32s fmap list_fmap concat].
  rewrite take_app_le, take_ge, of_le_le_u32 by (rewrite ?length_le; done).
  rewrite drop_app_ge, length_le, drop_0 by (rewrite length_le; done). by rewrite IH.
Qed.

Lemma dec_enc n ip : fields_ok n -> dec_dinode (enc_dinode n) ip = loaded n ip.
Proof.
  intros [H1 H2 H3 H4 H5 H6 H7]. unfold dec_dinode, loaded.
  assert (forall (d1 d2 : list Z) k, length d1 = k -> sub (d1 ++ d2) 0 k = d1) as Hhd.
  { intros d1 d2 k <-. unfold sub. rewrite drop_0, take_app_le, take_ge by lia. done. }
  assert (forall (d1 d2 : list Z) o k, sub (d1 ++ d2) (length d1 + o) k = sub d2 o k) as Htl.
  { intros d1 d2 o k. unfold sub. rewrite drop_app_ge by lia. do 2 f_equal. lia. }
  unfold enc_dinode.
  rewrite (Hhd (le 2 (i_type n))) by apply length_le. rewrite of_le_le_s16 by done.
  rewrite (Htl (le 2 (i_type n)) _ 0%nat), (Hhd (le 2 (i_major n))) by apply length_le. rewrite of_le_le_s16 by done.
  rewrite (Htl (le 2 (i_type n)) _ 2%nat), (Htl (le 2 (i_major n)) _ 0%nat), (Hhd (le 2 (i_minor n))) by apply length_le.
  rewrite of_le_le_s16 by done.
  rewrite (Htl (le 2 (i_type n)) _ 4%nat), (Htl (le 2 (i_major n)) _ 2%nat), (Htl (le 2 (i_minor n)) _ 0%nat),
    (Hhd (le 2 (i_nlink n))) by apply length_le. rewrite of_le_le_s16 by done.
  rewrite (Htl (le 2 (i_type n)) _ 6%nat), (Htl (le 2 (i_major n)) _ 4%nat), (Htl (le 2 (i_minor n)) _ 2%nat),
    (Htl (le 2 (i_nlink n)) _ 0%nat), (Hhd (le 4 (i_size n))) by apply length_le. rewrite of_le_le_u32 by done.
  rewrite (Htl (le 2 (i_type n)) _ 10%nat), (Htl (le 2 (i_major n)) _ 8%nat), (Htl (le 2 (i_minor n)) _ 6%nat),
    (Htl (le 2 (i_nlink n)) _ 4%nat), (Htl (le 4 (i_size n)) _ 0%nat).
  assert (sub (enc32s (i_addrs n)) 0 52 = enc32s (i_addrs n)) as ->.
  { apply sub_all. by rewrite length_enc32s, H7. }
  rewrite <-H7 at 1. rewrite dec_enc32s by done. done.
Qed.
Lemma enc_bytes n : bytes_ok (enc_dinode n).
Proof.
  unfold enc_dinode, bytes_ok. rewrite !Forall_app. repeat (split; [apply le_bytes|]).
  unfold enc32s. induction (i_addrs n) as [|v l IH]; [constructor|]. cbn [fmap list_fmap concat]. apply Forall_app. split; [apply le_bytes|done].
Qed.

(** ** iupdate *)

Definition ino_ok (sb : superblock) (n : inode) : Prop := 0 <= i_inum n < sb_ninodes sb.
Lemma iblock_range sb view nb i : layout sb view nb -> 0 <= i < sb_ninodes sb -> 2 <= IBLOCK i < bitmap sb.
Proof. intros _ Hi. unfold IBLOCK, bitmap, IPB. Z.div_mod_to_equations; lia. Qed.
Lemma ioff_range i : 0 <= ioff i /\ ioff i + 64 <= 512 /\ ioff i mod 64 = 0.
Proof. unfold ioff, IPB, sizeof_dinode. pose proof (Z.mod_pos_bound i 8). split; [lia|]. split; [lia|]. apply Z_mod_mult. Qed.

(** inode number [i] as it is on disk, read into [ip] *)
Definition dinode_of (view : Z -> list Z) (i : Z) (ip : inode) : option inode :=
  ld_dinode (view (IBLOCK i)) (ioff i) ip.
(** the disk copy of the inode is up to date *)
Definition on_disk (view : Z -> list Z) (n : inode) : Prop := dinode_of view (i_inum n) n = Some n.
Definition iupdated (view : Z -> list Z) (n : inode) : Z -> list Z :=
  Bio.vupd view (IBLOCK (i_inum n))
    (blit (view (IBLOCK (i_inum n))) (Z.to_nat (ioff (i_inum n))) (enc_dinode n)).

Lemma dinode_of_dec view i ip : length (view (IBLOCK i)) = 512%nat ->
  dinode_of view i ip = Some (dec_dinode (sub (view (IBLOCK i)) (Z.to_nat (ioff i)) 64) ip).
Proof.
  intros Hl. destruct (ioff_range i) as (H1 & H2 & _). unfold dinode_of.
  rewrite <-ld_dinode_dec by lia. by rewrite Z2Nat.id by lia.
Qed.
Lemma iupdated_on_disk view n : length (view (IBLOCK (i_inum n))) = 512%nat -> fields_ok n ->
  on_disk (iupdated view n) n.
Proof.
  intros Hl Hf. destruct (ioff_range (i_inum n)) as (H1 & H2 & _). unfold on_disk.
  pose proof (length_enc n (fk_len _ Hf)) as He.
  assert (length (blit (view (IBLOCK (i_inum n))) (Z.to_nat (ioff (i_inum n))) (enc_dinode n)) = 512%nat) as Hb.
  { rewrite length_blit; lia. }
  rewrite dinode_of_dec by (unfold iupdated; rewrite Bio.vupd_eq; exact Hb).
  unfold iupdated. rewrite Bio.vupd_eq.
  replace 64%nat with (length (enc_dinode n)) by done. rewrite sub_blit_same by lia.
  rewrite dec_enc, loaded_self by done. done.
Qed.
(** the other inodes, of the same block too, are as they were *)
Lemma iupdated_other view n i ip : length (view (IBLOCK (i_inum n))) = 512%nat -> length (i_addrs n) = 13%nat ->
  0 <= i -> 0 <= i_inum n -> i <> i_inum n -> dinode_of (iupdated view n) i ip = dinode_of view i ip.
Proof.
  intros Hl Ha Hi Hn Hne. destruct (decide (IBLOCK i = IBLOCK (i_inum n))) as [E|E].
  - destruct (ioff_range (i_inum n)) as (H1 & H2 & _). destruct (ioff_range i) as (H3 & H4 & _).
    pose proof (length_enc n Ha) as He.
    rewrite !dinode_of_dec by (unfold iupdated; rewrite ?E, ?Bio.vupd_eq, ?length_blit; lia).
    unfold iupdated. rewrite E, Bio.vupd_eq. do 2 f_equal. apply sub_blit_other; [lia|]. rewrite He.
    unfold IBLOCK, ioff, IPB, sizeof_dinode in *. Z.div_mod_to_equations; lia.
  - unfold dinode_of, iupdated. by rewrite Bio.vupd_ne.
Qed.

Lemma iupdate_spec s view lg X k sb n ip Q :
  holds true (blk s) ∅ ∅ view lg -> layout sb view (nblk (blk s)) -> ino_ok sb n ->
  at_ (inodes s) ip = Some n -> i_dev n = 1 -> length (i_addrs n) = 13%nat ->
  lg ⊆ X -> (IBLOCK (i_inum n) ∈ X) -> room (blk s) ∅ X k ->
  (forall B', holds true B' ∅ ∅ (iupdated view n) ({[IBLOCK (i_inum n)]} ∪ lg) -> same_store s B' ->
     Q tt (set_blk B' s)) ->
  wp (iupdate ip) Q s.
Proof.
  intros H Hl Hino Hip Hdev Ha HX Hin Hroom HQ. destruct (iblock_range _ _ _ _ Hl Hino) as [Hi1 Hi2].
  pose proof (ly_bitmap _ _ _ Hl). destruct (ioff_range (i_inum n)) as (Ho1 & Ho2 & _).
  destruct (f_view _ _ _ _ _ _ H (IBLOCK (i_inum n)) ltac:(lia)) as [Hvl Hvb]. pose proof (length_enc n Ha) as He.
  unfold iupdate. wp_step. eapply wp_ld_ip; [done|]. rewrite Hdev.
  wp_step. eapply (f_bread _ _ _ _ _ _ H); [apply lookup_empty|lia|right; by eapply room_can_read|].
  intros bp B1 HB1 Hs1. pose proof (lookup_insert_eq (∅ : gmap Z Z) (IBLOCK (i_inum n)) bp) as Hbp.
  wp_step. eapply (f_bdata _ (set_blk B1 s) _ _ _ _ HB1 _ _ _ Hbp).
  wp_step. eapply wp_deref_pure.
  { rewrite <-(Z2Nat.id (ioff (i_inum n))) by lia. apply st_dinode_blit; [lia|done]. }
  eapply (log_tail (set_blk B1 s) ∅ view lg X); try done.
  - by eapply room_same.
  - rewrite length_blit; lia.
  - apply blit_bytes; [done|apply enc_bytes].
  - intros B2 HB2 Hs2. rewrite set_blk2. apply HQ; [done|]. by eapply same_trans.
Qed.

(** A change to the blocks of inodes does not touch the files' blocks. *)
Lemma view_above sb view view' nb n : ifile sb view nb n ->
  view' 1 = view 1 -> (forall b, bitmap sb <= b -> view' b = view b) ->
  ifile sb view' nb n /\ icontent view' n = icontent view n.
Proof.
  intros [Hl Hf Hs Hb Hd] H1 Hv. pose proof (bitmap_pos _ _ _ Hl) as Hb3.
  assert (forall b, used sb view' b = used sb view b) as Hu by (intros b; unfold used; by rewrite Hv by lia).
  assert (forall i, slot (i_addrs n) view' i = slot (i_addrs n) view i) as Hsl.
  { intros i. destruct (Z.eq_dec (slot (i_addrs n) view 12) 0) as [E|E].
    - destruct (Z.ltb_spec i 13); [by rewrite !slot_small by lia|].
      rewrite (slot_large _ view'), (slot_large _ view) by lia.
      rewrite (slot_small _ view' 12), <-(slot_small _ view 12), E by lia. done.
    - apply slot_ext. apply Hv. destruct (slot_range _ _ _ _ 12 Hl Hf ltac:(lia) E). lia. }
  assert (layout sb view' nb) as Hl'.
  { destruct Hl as [L1 L2 L3 L4 L5 L6 L7]. split; try done.
    - by rewrite H1.
    - intros b. rewrite Hu. apply L5.
    - intros b. rewrite Hu. apply L6. }
  split; [split; try done|].
  - destruct Hf as [F1 F2 F3]. split; [done| |].
    + intros i Hi. rewrite !Hsl, Hu. by apply F2.
    + intros i j. rewrite !Hsl. apply F3.
  - intros k Hk Hks. rewrite Hsl. by apply Hb.
  - unfold icontent, content. do 2 f_equal. apply list_fmap_ext. intros j k Hk.
    apply lookup_seqZ in Hk as [-> Hk]. unfold fblock. rewrite Hsl. apply Hv.
    assert (512 * (0 + Z.of_nat j) < i_size n) as Hlt by (unfold blocks_of in Hk; Z.div_mod_to_equations; lia).
    destruct (block_range sb view nb n (0 + Z.of_nat j)) as (_ & _ & ?); [by split|lia|exact Hlt|lia].
Qed.
Lemma iupdated_files sb view nb n n' : layout sb view nb -> ino_ok sb n -> ifile sb view nb n' ->
  ifile sb (iupdated view n) nb n' /\ icontent (iupdated view n) n' = icontent view n'.
Proof.
  intros Hl Hino Hf. destruct (iblock_range _ _ _ _ Hl Hino) as [H1 H2].
  apply view_above with (sb := sb); [done|unfold iupdated; apply Bio.vupd_ne; lia|].
  intros b Hb. unfold iupdated. apply Bio.vupd_ne. lia.
Qed.

(** ** writei *)

Lemma layout_ext sb view view' nb : layout sb view nb -> view' 1 = view 1 -> view' (bitmap sb) = view (bitmap sb) ->
  layout sb view' nb.
Proof.
  intros [L1 L2 L3 L4 L5 L6 L7] H1 Hb. split; try done.
  - by rewrite H1.
  - intros b. unfold used. rewrite Hb. apply L5.
  - intros b. unfold used. rewrite Hb. apply L6.
Qed.
Lemma file_ok_ext sb view view' nb a : file_ok sb view nb a -> view' (bitmap sb) = view (bitmap sb) ->
  view' (slot a view 12) = view (slot a view 12) -> file_ok sb view' nb a.
Proof.
  intros [F1 F2 F3] Hb Hi.
  assert (forall i, slot a view' i = slot a view i) as Hsl by (intros i; by apply slot_ext).
  split; [done| |].
  - intros i Hr. rewrite !Hsl. unfold used. rewrite Hb. by apply F2.
  - intros i j. rewrite !Hsl. apply F3.
Qed.
Lemma frees_ext sb view view' : view' (bitmap sb) = view (bitmap sb) -> frees sb view' = frees sb view.
Proof. intros H. apply leibniz_equiv_iff. intros b. rewrite !elem_of_frees. unfold used. by rewrite H. Qed.

(** The state of the disk after [tot] bytes of [src] were written at [off]
    into a file that had size [sz] and blocks [a0] on [view0]. *)
Record written (sb : superblock) (view0 : Z -> list Z) (nb sz : Z) (a0 : list Z) (off : Z) (src : list Z)
    (tot : Z) (view : Z -> list Z) (a : list Z) : Prop := {
  w_layout : layout sb view nb;
  w_file : file_ok sb view nb a;
  w_blocks : has_blocks a view (Z.max sz (off + tot));
  w_bytes : forall i, 0 <= i < Z.max sz (off + tot) ->
    fbyte a view i = if decide (off <= i < off + tot) then src !! Z.to_nat (i - off) else fbyte a0 view0 i;
  w_same : off + tot <= sz -> a = a0;
  w_slots : forall j, 0 <= j < 141 -> slot a view j = 0 \/ slot a view j = slot a0 view0 j \/
    used sb view0 (slot a view j) = false;
  w_keep : forall b, 0 <= b < 4096 -> used sb view0 b = true -> b <> bitmap sb ->
    (forall j, 0 <= j < 141 -> slot a0 view0 j <> b) -> view b = view0 b;
  w_used : forall b, 0 <= b < 4096 -> used sb view0 b = true -> used sb view b = true;
}.

Lemma written_start sb view nb n off src : ifile sb view nb n -> off <= i_size n ->
  written sb view nb (i_size n) (i_addrs n) off src 0 view (i_addrs n).
Proof.
  intros [Hl Hf Hs Hb Hd] Hoff. split; try done.
  - by rewrite Z.max_l by lia.
  - intros i Hi. by rewrite decide_False by lia.
  - intros j _. right. by left.
Qed.

Section step.
  Context (sb : superblock) (view0 view view1 : Z -> list Z) (nb sz off tot : Z) (a0 a a1 src : list Z).
  Hypothesis Hw : written sb view0 nb sz a0 off src tot view a.
  Hypothesis Hsz : 0 <= sz <= MAXFILE * 512.
  Hypothesis Hoff : 0 <= off.
  Hypothesis Htot : 0 <= tot.
  Context (p r : Z).
Let o := off + tot.
Let k := o / 512.
  Hypothesis Hp : 0 < p /\ o mod 512 + p <= 512 /\ o + p <= MAXFILE * 512 /\ tot + p <= Z.of_nat (length src).
  Hypothesis Hbm : bmapped sb view nb a k r view1 a1.
  Hypothesis Hlen : forall b, 0 <= b < nb -> length (view1 b) = 512%nat.
Let view2 := Bio.vupd view1 r (blit (view1 r) (Z.to_nat (o mod 512)) (sub src (Z.to_nat tot) (Z.to_nat p))).

Lemma step_k : 0 <= k < MAXFILE.
Proof using Hoff Htot Hp.
  clear -Hoff Htot Hp. unfold k, o, MAXFILE, NDIRECT, NINDIRECT in *. Z.div_mod_to_equations; lia.
Qed.
Lemma step_slot j : 0 <= j < 141 -> slot a1 view2 j = slot a1 view1 j.
Proof using Hoff Htot Hp Hbm.
  clear Hlen Hw. intros Hj. pose proof step_k as Hk. destruct (sl_range k Hk) as [Hr Hne]. destruct Hbm as [L F S H0 _ _ _ _ _ _ _ _].
  apply slot_ext. unfold view2. apply Bio.vupd_ne. intros E.
  destruct (Z.eq_dec (slot a1 view1 12) 0) as [E0|E0]; [congruence|].
  apply (fo_inj _ _ _ _ F 12 (sl k)); first [done|lia|congruence].
Qed.
Lemma step_range : bitmap sb < r < nb.
Proof using Hoff Htot Hp Hbm.
  clear Hlen Hw. pose proof step_k as Hk. destruct (sl_range k Hk) as [Hr Hne]. destruct Hbm as [L F S H0 _ _ _ _ _ _ _ _].
  destruct (slot_range _ _ _ _ _ L F Hr) as (? & _); [congruence|]. by rewrite S in *.
Qed.
(** blocks the file had before keep their number and, but for block [k], their contents *)
Lemma step_block k' : 0 <= k' < MAXFILE -> slot a view (sl k') <> 0 ->
  slot a1 view1 (sl k') = slot a view (sl k') /\ fblock a1 view1 k' = fblock a view k'.
Proof using Hw Hbm Hp.
  clear Hlen. intros Hk' H0. destruct (sl_range k' Hk') as [Hr Hne].
  destruct Hbm as [L F S Hr0 Hoth Hi Hin Hold Hnew Hkeep Hu Hfr]. destruct Hw as [WL WF _ _ _ _ _ _].
  destruct (Z.eq_dec (sl k') (sl k)) as [E|E].
  - rewrite E in *. destruct (Hold H0) as [-> ->]. done.
  - pose proof (Hoth _ Hr E Hne) as Es. split; [done|]. unfold fblock. rewrite Es.
    destruct (slot_range _ _ _ _ _ WL WF Hr H0) as (R1 & R2 & R3).
    pose proof (bitmap_pos _ _ _ WL). pose proof (ly_size _ _ _ WL).
    apply Hkeep; [lia|done|lia|left]. apply (fo_inj _ _ _ _ WF); done || lia.
Qed.

Lemma step_new : slot a view (sl k) = 0 -> Z.max sz o <= 512 * k.
Proof using Hw Hsz Hoff Htot Hp.
  intros H0. pose proof step_k as Hk. destruct (Z.leb_spec (Z.max sz o) (512 * k)) as [|Hlt]; [done|].
  destruct (w_blocks _ _ _ _ _ _ _ _ _ _ Hw k); [lia|done|done].
Qed.

Lemma step_fblock k' : 0 <= k' < MAXFILE -> slot a1 view1 (sl k') <> 0 ->
  fblock a1 view2 k' = if k' =? k then blit (view1 r) (Z.to_nat (o mod 512)) (sub src (Z.to_nat tot) (Z.to_nat p))
    else fblock a1 view1 k'.
Proof using Hoff Htot Hp Hbm.
  clear Hw Hlen. intros Hk' H0. pose proof step_k as Hk. destruct (sl_range k Hk) as [Hr Hne]. destruct (sl_range k' Hk') as [Hr' _].
  unfold fblock. rewrite step_slot by lia. destruct Hbm as [L F S Hr0 _ _ _ _ _ _ _ _].
  destruct (Z.eqb_spec k' k) as [->|Hn].
  - rewrite S. unfold view2. apply Bio.vupd_eq.
  - unfold view2. apply Bio.vupd_ne. rewrite <-S. apply (fo_inj _ _ _ _ F); try done.
    intros E. by apply Hn, sl_inj.
Qed.

(** a block below the old or the new end *)
Lemma step_have k' : 0 <= k' -> 512 * k' < Z.max sz (o + p) -> slot a1 view1 (sl k') <> 0.
Proof using Hw Hbm Hsz Hoff Htot Hp.
  clear Hlen. intros Hk' Hlt. destruct (Z.eq_dec k' k) as [->|Hne].
  - destruct Hbm as [_ _ S Hr0 _ _ _ _ _ _ _ _]. by rewrite S.
  - assert (512 * k' < Z.max sz o) as Hlt' by (unfold k in *; Z.div_mod_to_equations; lia).
    pose proof (w_blocks _ _ _ _ _ _ _ _ _ _ Hw k' Hk' Hlt') as H0.
    destruct (step_block k') as [-> _]; [|done|done].
    unfold MAXFILE, NDIRECT, NINDIRECT in *. unfold k in *. Z.div_mod_to_equations; lia.
Qed.

Lemma step_bytes i : 0 <= i < Z.max sz (o + p) ->
  fbyte a1 view2 i = if decide (off <= i < off + (tot + p)) then src !! Z.to_nat (i - off) else fbyte a0 view0 i.
Proof using Hw Hbm Hsz Hoff Htot Hp Hlen.
  intros Hi. pose proof step_k as Hk. set (q := i / 512).
  assert (0 <= q < MAXFILE) as Hq by (unfold q, MAXFILE, NDIRECT, NINDIRECT in *; Z.div_mod_to_equations; lia).
  pose proof (step_have q ltac:(lia) ltac:(unfold q; Z.div_mod_to_equations; lia)) as Hqs.
  unfold fbyte. fold q. rewrite step_fblock by done.
  assert (length (sub src (Z.to_nat tot) (Z.to_nat p)) = Z.to_nat p) as Hls by (apply length_sub; lia).
  assert (forall old, i < Z.max sz o -> fbyte a view i = old -> ~ (o <= i < o + p) ->
    old = if decide (off <= i < off + (tot + p)) then src !! Z.to_nat (i - off) else fbyte a0 view0 i) as Hold.
  { intros old Hlt <- Hno. rewrite (w_bytes _ _ _ _ _ _ _ _ _ _ Hw) by (unfold o in *; lia).
    repeat case_decide; try done; unfold o in *; lia. }
  pose proof step_range as Hrr. pose proof (bitmap_pos _ _ _ (w_layout _ _ _ _ _ _ _ _ _ _ Hw)) as Hb3.
  pose proof (Z.mod_pos_bound i 512 eq_refl) as Hmi. pose proof (Z.mod_pos_bound o 512 eq_refl) as Hmo.
  assert (i = 512 * q + i mod 512) as Ei by (unfold q; apply Z.div_mod; lia).
  assert (o = 512 * k + o mod 512) as Eo by (unfold k; apply Z.div_mod; lia).
  destruct (Z.eqb_spec q k) as [Eq|Hne].
  - rewrite lookup_blit by (rewrite Hlen, Hls; lia). rewrite Hls.
    destruct (decide (Z.to_nat (o mod 512) <= Z.to_nat (i mod 512) < Z.to_nat (o mod 512) + Z.to_nat p)%nat) as [H1|H1].
    + rewrite decide_True by (unfold o in *; lia). rewrite lookup_sub by lia. f_equal. unfold o in *. lia.
    + assert (i < Z.max sz o) as Hlt by lia. apply Hold; [done| |lia].
      assert (slot a view (sl k) <> 0) as H0.
      { apply (w_blocks _ _ _ _ _ _ _ _ _ _ Hw); unfold o in *; lia. }
      destruct (bm_old _ _ _ _ _ _ _ _ Hbm H0) as [E1 E2]. unfold fbyte, fblock. fold q. rewrite Eq.
      rewrite <-(bm_slot _ _ _ _ _ _ _ _ Hbm), E1, E2. done.
  - assert (i < Z.max sz o) as Hlt by lia. assert (slot a view (sl q) <> 0) as H0.
    { apply (w_blocks _ _ _ _ _ _ _ _ _ _ Hw); unfold o in *; lia. }
    destruct (step_block q Hq H0) as [_ ->]. apply Hold; [done|done|lia].
Qed.

Lemma written_step : written sb view0 nb sz a0 off src (tot + p) view2 a1.
Proof using Hw Hbm Hsz Hoff Htot Hp Hlen.
  pose proof step_range as Hrr. pose proof Hw as [WL WF WB WY WS WSl WK WU].
  pose proof (bitmap_pos _ _ _ WL) as Hb3. pose proof (ly_size _ _ _ WL) as Hs4.
  pose proof Hbm as [L F S Hr0 Hoth Hi Hin Hold Hnew Hkeep Hu Hfr].
  assert (view2 (bitmap sb) = view1 (bitmap sb)) as Eb by (unfold view2; apply Bio.vupd_ne; lia).
  assert (forall b, used sb view2 b = used sb view1 b) as Hu2 by (intros b; unfold used; by rewrite Eb).
  assert (forall b, 0 <= b < 4096 -> used sb view0 b = false \/ used sb view b = true) as Hcase.
  { intros b Hb. destruct (used sb view0 b) eqn:E; [right; by apply WU|by left]. }
  assert (forall j, 0 <= j < 141 -> slot a1 view1 j = 0 \/ slot a1 view1 j = slot a0 view0 j \/
    used sb view0 (slot a1 view1 j) = false) as Hslots.
  { intros j Hj. destruct (Z.eq_dec j 12) as [->|Hj12].
    { destruct Hin as [->|Hf]; [by apply WSl|]. destruct (Z.eq_dec (slot a1 view1 12) 0) as [|E0]; [by left|right; right].
      destruct (slot_range _ _ _ _ 12 L F ltac:(lia) E0) as (R1 & R2 & _).
      destruct (Hcase (slot a1 view1 12)) as [|E]; [lia|done|congruence]. }
    destruct (Z.eq_dec j (sl k)) as [->|Hjk]; [|rewrite Hoth by done; by apply WSl].
    destruct (Z.eq_dec (slot a view (sl k)) 0) as [E0|E0].
    - right. right. rewrite S. destruct (Hnew E0) as [_ Hf].
      destruct (slot_range _ _ _ _ (sl k) L F Hj ltac:(congruence)) as (R1 & R2 & _). rewrite S in R1, R2.
      destruct (Hcase r) as [|E]; [lia|done|congruence].
    - destruct (Hold E0) as [-> ->]. by apply WSl. }
  split.
  - eapply layout_ext; [exact L| |done]. unfold view2. apply Bio.vupd_ne. lia.
  - eapply file_ok_ext; [exact F|done|]. unfold view2. apply Bio.vupd_ne. intros E.
    pose proof step_k as Hk. destruct (sl_range k Hk) as [Hr Hne].
    destruct (Z.eq_dec (slot a1 view1 12) 0) as [E0|E0]; [congruence|].
    apply (fo_inj _ _ _ _ F 12 (sl k)); first [done|lia|congruence].
  - intros k' Hk' Hlt. assert (512 * k' < Z.max sz (o + p)) as Hlt' by (unfold o in *; lia).
    assert (0 <= k' < MAXFILE) as Hkm.
    { unfold MAXFILE, NDIRECT, NINDIRECT in *. unfold o in *. lia. }
    destruct (sl_range k' Hkm) as [? _]. rewrite step_slot by done. by apply step_have.
  - intros i Hi'. apply step_bytes. unfold o. lia.
  - intros Hle. assert (slot a view (sl k) <> 0) as H0.
    { apply WB; [unfold k, o; Z.div_mod_to_equations; lia|]. unfold k, o in *. Z.div_mod_to_equations; lia. }
    destruct (Hold H0) as [_ ->]. apply WS. lia.
  - intros j Hj. rewrite step_slot by done. by apply Hslots.
  - intros b Hb Hub Hbb Hno. unfold view2. rewrite Bio.vupd_ne.
    + rewrite Hkeep; [by apply WK|done|by apply WU|done|].
      destruct (Z.leb_spec b (bitmap sb)); [by right|left]. intros ->.
      destruct (WSl 12 ltac:(lia)) as [E|[E|E]]; [lia| |congruence]. symmetry in E. by apply (Hno 12 ltac:(lia)).
    + intros ->. pose proof step_k as Hk. destruct (sl_range k Hk) as [Hr Hne].
      destruct (Hslots (sl k) Hr) as [E|[E|E]]; rewrite S in E; [lia|symmetry in E; by apply (Hno (sl k) Hr)|congruence].
  - intros b Hb Hub. rewrite Hu2. apply Hu; [done|]. by apply WU.
Qed.
End step.

(** the blocks the write loop still has to touch *)
Definition rounds (off m tot : Z) : nat :=
  if tot <? m then Z.to_nat ((off + m - 1) / 512 - (off + tot) / 512 + 1) else 0.
Lemma rounds_step off m tot : 0 <= off -> 0 <= tot < m ->
  exists k, rounds off m tot = S k /\ (rounds off m (tot + piece (off + tot) (m - tot)) <= k)%nat.
Proof.
  intros Ho Ht. unfold rounds, piece. destruct (Z.ltb_spec tot m) as [_|]; [|lia].
  exists (Z.to_nat ((off + m - 1) / 512 - (off + tot) / 512)). split.
  - assert ((off + tot) / 512 <= (off + m - 1) / 512) by (apply Z.div_le_mono; lia). lia.
  - destruct (Z.ltb_spec (tot + Z.min (m - tot) (512 - (off + tot) mod 512)) m) as [Hlt|]; [|lia].
    rewrite Z.min_r in * by lia. Z.div_mod_to_equations; lia.
Qed.

Lemma roomy_weaken b X i j k : roomy b X i k -> (j <= k)%nat -> roomy b X i j.
Proof.
  intros [H|(H1 & H2 & H3)] Hj; [left|right].
  - eapply room_weaken; [done|lia].
  - split; [done|]. split; [done|]. by eapply room_weaken.
Qed.
Lemma roomy_same s B' X i k : roomy (blk s) X i k -> same_store s B' -> roomy B' X i k.
Proof.
  intros [H|(H1 & H2 & H3)] Hs; [left; by eapply room_same|right].
  split; [done|]. split; [done|]. by eapply room_same.
Qed.
Lemma roomy_room b X i k : roomy b X i k -> room b ∅ X 0.
Proof. intros [H|(_ & _ & H)]; (eapply room_weaken; [done|lia]). Qed.

(** the part of the invariant about the transaction *)
Record in_txn (s : st B) (X0 : gset Z) (sb : superblock) (b : B) (a : list Z) (view : Z -> list Z)
    (lg X : gset Z) (k spare : nat) : Prop := {
  it_holds : holds true b ∅ ∅ view lg;
  it_same : same_store s b;
  it_lg : lg ⊆ X;
  it_X : X0 ⊆ X;
  it_room : roomy b X (slot a view 12) k;
  it_frees : (2 * k + spare <= base.size (frees sb view))%nat;
}.

Section writei_loop.
  Context (s : st B) (sb : superblock) (view0 : Z -> list Z) (X0 : gset Z) (n : inode) (ip off m : Z) (src : list Z) (spare : nat).
Let nb := nblk (blk s).
Let E := off + m.
  Hypothesis Hip : at_ (inodes s) ip = Some n.
  Hypothesis Hdev : i_dev n = 1.
  Hypothesis Hsz : 0 <= i_size n <= MAXFILE * 512.
  Hypothesis Hoff : 0 <= off.
  Hypothesis Hm : 0 <= m.
  Hypothesis HE : off + m <= MAXFILE * 512.
  Hypothesis Hsrc : m <= Z.of_nat (length src).
  Hypothesis HbX : (bitmap sb ∈ X0).
  Hypothesis Hby : bytes_ok src.

Definition winv (v : Z * Z) (s' : st B) : Prop :=
  0 <= v.1 <= m /\ v.2 = off + v.1 /\
  exists b a view lg X, s' = ipst s b ip (set_addrs a n) /\
    in_txn s X0 sb b a view lg X (rounds off m v.1) spare /\
    written sb view0 nb (i_size n) (i_addrs n) off src v.1 view a.

Lemma writei_step v s' : winv v s' -> v.1 < m ->
  wp (writei_body ip src m v) (fun r s'' => match r with
      | inl v' => winv v' s'' /\ v.1 < v'.1
      | inr _ => False end) s'.
Proof using Hip Hdev Hsz Hoff Hm HE Hsrc HbX Hby.
  destruct v as [tot o']. intros (Ht & Ho' & b & a & view & lg & X & -> & [H Hs HX HX0 Hroom Hfr] & Hw) Hlt.
  cbn [fst snd] in *. subst o'. set (o := off + tot) in *. unfold writei_body.
  destruct (Z.ltb_spec tot m) as [_|]; [|lia]. set (n1 := set_addrs a n).
  pose proof (ipst_at s b ip n n1 Hip) as Hip1.
  wp_step. eapply wp_ld_ip; [exact Hip1|].
  destruct (rounds_step off m tot Hoff ltac:(lia)) as (k & Hk & Hk'). rewrite Hk in *.
  pose proof Hs as [En Ec]. pose proof Hw as [WL WF WB WY WS WSl WK WU].
  destruct (piece_range o (m - tot) ltac:(lia)) as [Hp Hfit]. set (p := piece o (m - tot)) in *.
  assert (0 <= o / 512 < MAXFILE) as Hblk by (unfold MAXFILE, NDIRECT, NINDIRECT in *; Z.div_mod_to_equations; lia).
  wp_step. change BSIZE with 512.
  eapply (bmap_spec (ipst s b ip n1) view lg X k sb n1 ip (o / 512)); try done;
    [cbn; by rewrite En|cbn; by rewrite En|set_solver|lia|].
  intros r view1 a1 lg1 X1 B1 HB1 Hs1 Hbm Hlg1 HXX1 Hr1 Hroom1. cbn [blk ipst] in Hbm. rewrite En in Hbm.
  cbn [i_addrs n1 set_addrs] in Hbm. rewrite ipst_ipst. change (set_addrs a1 n1) with (set_addrs a1 n).
  assert (same_store s B1) as Hs1' by (destruct Hs1; split; cbn in *; congruence).
  pose proof Hs1' as [En1 Ec1]. change (i_dev n1) with (i_dev n). rewrite Hdev.
  assert (forall c, 0 <= c < nb -> length (view1 c) = 512%nat) as Hlen.
  { intros c Hc. eapply (bs_view _ _ _ _ _ _ _ HB1). unfold nb in Hc. lia. }
  assert (0 < p /\ o mod 512 + p <= 512 /\ o + p <= MAXFILE * 512 /\ tot + p <= Z.of_nat (length src)) as Hpp.
  { unfold o in *. lia. }
  pose proof (step_range sb view view1 nb off tot a a1 src Hoff ltac:(lia) p r Hpp Hbm) as Hrr.
  pose proof (bitmap_pos _ _ _ WL) as Hb3. unfold nb in Hrr.
  wp_step. eapply (f_bread _ (ipst s B1 ip (set_addrs a1 n)) _ _ _ _ HB1 r); [apply lookup_empty|cbn; lia| |].
  { right. eapply room_can_read; [by eapply roomy_room|done]. }
  intros bp B2 HB2 Hs2. rewrite ipst_blk. pose proof (lookup_insert_eq (∅ : gmap Z Z) r bp) as Hbp.
  assert (same_store s B2) as Hs2' by (destruct Hs2; split; cbn in *; congruence). pose proof Hs2' as [En2 Ec2].
  unfold MAXFILE, NDIRECT, NINDIRECT in *.
  rewrite (u32_id (m - tot)) by lia. change (Z.min (m - tot) (512 - o mod 512)) with p.
  wp_step. eapply wp_deref_pure; [apply slice_in; lia|].
  set (c := sub src (Z.to_nat tot) (Z.to_nat p)). assert (length c = Z.to_nat p) as Hc by (apply length_sub; lia).
  pose proof (Z.mod_pos_bound o 512 eq_refl) as Hmo. pose proof (Hlen r ltac:(unfold nb; lia)) as Hvl.
  wp_step. eapply (f_bdata _ (ipst s B2 ip (set_addrs a1 n)) _ _ _ _ HB2 r bp _ Hbp).
  wp_step. eapply wp_deref_pure; [apply splice_in; [lia|rewrite Hc, Hvl; change (Z.of_nat 512) with 512; lia]|].
  destruct (bs_view _ _ _ _ _ _ r HB1 ltac:(lia)) as [_ Hvb].
  eapply (log_tail_then (ipst s B2 ip (set_addrs a1 n)) ∅ view1 lg1 X1 r bp _ 0); try done.
  { cbn. eapply (room_same (ipst s B1 ip (set_addrs a1 n))); [cbn; by eapply roomy_room|done]. }
  { rewrite length_blit; lia. }
  { apply blit_bytes; [done|by apply sub_bytes]. }
  intros B3 HB3 Hs3. wp_step. rewrite ipst_blk. cbn [fst snd].
  rewrite !u32_id by (unfold o in *; lia). split; [|lia].
  assert (same_store s B3) as Hs3' by (destruct Hs3; split; cbn in *; congruence).
  set (view2 := Bio.vupd view1 r _) in *.
  assert (written sb view0 nb (i_size n) (i_addrs n) off src (tot + p) view2 a1) as Hw2.
  { eapply (written_step sb view0 view view1); try done; lia. }
  split; [cbn; lia|]. split; [cbn; lia|]. exists B3, a1, view2, ({[r]} ∪ lg1), X1. split; [done|]. split; [|exact Hw2].
  assert (view2 (bitmap sb) = view1 (bitmap sb)) as Eb by (unfold view2; apply Bio.vupd_ne; lia).
  split; try done.
  - set_solver.
  - set_solver.
  - rewrite (step_slot sb view view1 nb off tot a a1 src Hoff ltac:(lia) p r Hpp Hbm) by lia.
    eapply roomy_weaken; [|exact Hk']. eapply (roomy_same (ipst s B1 ip (set_addrs a1 n))); [exact Hroom1|].
    destruct Hs3', Hs1'; split; cbn in *; congruence.
  - rewrite (frees_ext _ view1 view2) by done. pose proof (bm_frees _ _ _ _ _ _ _ _ Hbm) as Hbf.
    clear -Hfr Hk' Hbf. cbn [fst snd]. change (rounds off m (tot + p) <= k)%nat in Hk'. lia.
Qed.

Lemma writei_loop view lg X :
  in_txn s X0 sb (blk s) (i_addrs n) view lg X (rounds off m 0) spare ->
  written sb view0 nb (i_size n) (i_addrs n) off src 0 view (i_addrs n) ->
  wp (loop (S (Z.to_nat m)) (writei_body ip src m) (0, off))
    (fun r s' => r = off + m /\ exists b a view lg X, s' = ipst s b ip (set_addrs a n) /\
      in_txn s X0 sb b a view lg X 0 spare /\ written sb view0 nb (i_size n) (i_addrs n) off src m view a) s.
Proof using Hip Hdev Hsz Hoff Hm HE Hsrc HbX Hby.
  intros Ht Hw. apply wp_loop with (mu := fun v => Z.to_nat (m - v.1)) (Inv := winv).
  - split; [cbn; lia|]. split; [cbn; lia|]. exists (blk s), (i_addrs n), view, lg, X.
    cbn [fst]. rewrite set_addrs_id, (ipst_id s _ ip n Hip), set_blk_id. done.
  - cbn. lia.
  - intros [tot o] s' Hinv. destruct (Z.ltb_spec tot m) as [Hlt|Hge].
    + eapply wp_mono; [by apply writei_step|]. cbn beta. intros [[tot' o']|r] s'' Hr; [|done].
      cbn [fst] in *. destruct Hr as [Hr Hlt']. split; [done|]. destruct Hr as [Hr _]. cbn [fst] in Hr. lia.
    + destruct Hinv as (Ht' & Ho & b & a & view' & lg' & X' & -> & Htx & Hwr). cbn [fst snd] in *.
      assert (tot = m) as -> by lia. unfold writei_body. destruct (Z.ltb_spec m m); [lia|]. wp_step.
      split; [done|]. exists b, a, view', lg', X'. split; [done|]. split; [|done].
      unfold rounds in Htx. destruct (Z.ltb_spec m m); [lia|done].
Qed.
End writei_loop.

(** A file none of whose blocks changed. *)
Lemma kept_slots a view view' : (forall j, 0 <= j < 141 -> slot a view j <> 0 -> view' (slot a view j) = view (slot a view j)) ->
  forall i, 0 <= i < 141 -> slot a view' i = slot a view i.
Proof.
  intros Hv i Hi. destruct (Z.eq_dec (slot a view 12) 0) as [E|E]; [|apply slot_ext, Hv; [lia|done]].
  destruct (Z.ltb_spec i 13); [by rewrite !slot_small by lia|].
  rewrite (slot_large _ view'), (slot_large _ view) by lia. rewrite (slot_small _ view' 12), <-(slot_small _ view 12), E by lia. done.
Qed.
Lemma kept_content sb view view' nb n : ifile sb view nb n ->
  (forall j, 0 <= j < 141 -> slot (i_addrs n) view j <> 0 -> view' (slot (i_addrs n) view j) = view (slot (i_addrs n) view j)) ->
  icontent view' n = icontent view n.
Proof.
  intros Hf Hv. unfold icontent, content. do 2 f_equal. apply list_fmap_ext. intros j k Hk.
  apply lookup_seqZ in Hk as [-> Hk]. unfold fblock.
  assert (512 * (0 + Z.of_nat j) < i_size n) as Hlt by (unfold blocks_of in Hk; Z.div_mod_to_equations; lia).
  destruct (block_range sb view nb n (0 + Z.of_nat j)) as (Hr & H0 & _); [done|lia|exact Hlt|].
  destruct (sl_range _ Hr) as [? _]. rewrite (kept_slots _ view) by done. by apply Hv.
Qed.
Lemma file_kept sb view view' nb n : ifile sb view nb n -> layout sb view' nb ->
  (forall b, 0 <= b < 4096 -> used sb view b = true -> used sb view' b = true) ->
  (forall j, 0 <= j < 141 -> slot (i_addrs n) view j <> 0 -> view' (slot (i_addrs n) view j) = view (slot (i_addrs n) view j)) ->
  ifile sb view' nb n /\ icontent view' n = icontent view n.
Proof.
  intros Hfi Hl' Hu Hv. split; [|by eapply kept_content]. pose proof (kept_slots _ _ _ Hv) as Hsl. destruct Hfi as [Hl Hf Hs Hb Hd].
  pose proof (bitmap_pos _ _ _ Hl) as Hb3. pose proof (ly_size _ _ _ Hl) as Hsz. split; try done.
  - pose proof Hf as [F1 F2 F3]. split; [done| |].
    + intros i Hi. rewrite !Hsl by done. destruct (F2 i Hi) as [|(R1 & R2 & R3)]; [by left|right].
      split; [done|]. split; [done|]. apply Hu; [lia|done].
    + intros i j Hi Hj. rewrite !Hsl by done. by apply F3.
  - intros k Hk Hks. destruct (block_range sb view nb n k) as (Hr & H0 & _); [by split|done|done|].
    destruct (sl_range _ Hr) as [? _]. by rewrite Hsl.
Qed.

(** What a successful writei of the first [m] bytes of [src] at [off] into
    inode [n] leaves: the inode [n'], the disk contents [view'] and [b]. *)
Record writei_done (s : st B) (sb : superblock) (view : Z -> list Z) (n : inode) (off m : Z) (src : list Z)
    (b : B) (n' : inode) (view' : Z -> list Z) (lg' : gset Z) : Prop := {
  wd_holds : holds true b ∅ ∅ view' lg';
  wd_same : same_store s b;
  wd_log : Z.of_nat (base.size lg') < cap b;
  wd_frees : (base.size (frees sb view) <= base.size (frees sb view') + 2 * rounds off m 0)%nat;
  wd_file : ifile sb view' (nblk b) n';
  wd_inode : exists a, n' = set_size (Z.max (i_size n) (off + m)) (set_addrs a n);
  wd_fields : fields_ok n';
  wd_disk : on_disk view' n';
  wd_content : icontent view' n' = take (Z.to_nat off) (icontent view n) ++ take (Z.to_nat m) src ++
    drop (Z.to_nat (off + m)) (icontent view n);
  (** the other inodes, and the files that share no block with this one *)
  wd_inodes : forall i ip, 0 <= i < sb_ninodes sb -> i <> i_inum n -> dinode_of view' i ip = dinode_of view i ip;
  wd_files : forall n2, ifile sb view (nblk b) n2 ->
    (forall i j, 0 <= i < 141 -> 0 <= j < 141 -> slot (i_addrs n2) view j <> 0 ->
       slot (i_addrs n) view i <> slot (i_addrs n2) view j) ->
    ifile sb view' (nblk b) n2 /\ icontent view' n2 = icontent view n2;
}.

Section written.
  Context (nb : Z) (sb : superblock) (view view' : Z -> list Z) (n : inode) (off m : Z) (a src : list Z).
  Hypothesis Hold : forall c, 0 <= c < nb -> length (view c) = 512%nat /\ bytes_ok (view c).
  Hypothesis Hnew : forall c, 0 <= c < nb -> length (view' c) = 512%nat /\ bytes_ok (view' c).
  Hypothesis Hf : ifile sb view nb n.
  Hypothesis Hnb : nb <= 2 ^ 23.
  Hypothesis Hfields : fields_ok n.
  Hypothesis Hoff : 0 <= off <= i_size n.
  Hypothesis Hm : 0 <= m <= Z.of_nat (length src).
  Hypothesis HE : off + m <= MAXFILE * 512.
  Hypothesis Hw : written sb view nb (i_size n) (i_addrs n) off src m view' a.
Let n' := set_size (Z.max (i_size n) (off + m)) (set_addrs a n).

Lemma written_ifile : ifile sb view' nb n'.
Proof using Hf Hoff Hm HE Hw.
  clear Hold Hnew Hnb Hfields. destruct Hf as [Hl Hfo Hs Hb Hd]. destruct Hw as [WL WF WB _ _ _ _ _].
  split; try done. cbn. lia.
Qed.
Lemma written_content : icontent view' n' = take (Z.to_nat off) (icontent view n) ++ take (Z.to_nat m) src ++
    drop (Z.to_nat (off + m)) (icontent view n).
Proof using Hf Hoff Hm HE Hw Hold Hnew.
  clear Hnb Hfields. pose proof (if_size _ _ _ _ Hf) as Hs. pose proof (bitmap_pos _ _ _ (if_layout _ _ _ _ Hf)) as Hb3.
  assert (forall k, 0 <= k -> 512 * k < i_size n -> length (fblock (i_addrs n) view k) = 512%nat) as Hl1.
  { intros k Hk Hks. destruct (block_range _ _ _ _ _ Hf Hk Hks) as (_ & _ & Hr). apply Hold. lia. }
  assert (forall k, 0 <= k -> 512 * k < i_size n' -> length (fblock a view' k) = 512%nat) as Hl2.
  { intros k Hk Hks. destruct (block_range _ _ _ _ _ written_ifile Hk Hks) as (_ & _ & Hr). apply Hnew.
    cbn [i_addrs n' set_size set_addrs] in Hr. lia. }
  assert (0 <= i_size n' <= MAXFILE * 512) as Hs' by apply (if_size _ _ _ _ written_ifile).
  assert (length (icontent view n) = Z.to_nat (i_size n)) as Hlc by (by apply length_content).
  apply list_eq_lookup. intros i. unfold icontent at 1. change (i_addrs n') with a.
  rewrite content_lookup by done. cbn [i_size n' set_size set_addrs].
  destruct (decide (Z.of_nat i < Z.max (i_size n) (off + m))) as [Hi|Hi].
  - rewrite (w_bytes _ _ _ _ _ _ _ _ _ _ Hw) by lia.
    destruct (decide (off <= Z.of_nat i < off + m)) as [Hin|Hin].
    + rewrite lookup_app_r by (rewrite length_take; lia).
      rewrite lookup_app_l by (rewrite !length_take; lia). rewrite length_take, lookup_take_lt by lia. f_equal. lia.
    + assert (fbyte (i_addrs n) view (Z.of_nat i) = icontent view n !! i) as ->.
      { unfold icontent. rewrite content_lookup, decide_True by (done || lia). done. }
      destruct (decide (Z.of_nat i < off)) as [Hlt|Hge].
      * rewrite lookup_app_l by (rewrite length_take; lia). by rewrite lookup_take_lt by lia.
      * rewrite !lookup_app_r by (rewrite ?length_take; lia). rewrite lookup_drop, !length_take. f_equal. lia.
  - symmetry. apply lookup_ge_None. rewrite !length_app, !length_take, length_drop. lia.
Qed.
Lemma written_fields : fields_ok n'.
Proof using Hf Hoff Hm HE Hw Hnb Hfields.
  clear Hold Hnew. destruct Hfields as [K1 K2 K3 K4 K5 K6 K7]. pose proof (w_file _ _ _ _ _ _ _ _ _ _ Hw) as [F1 F2 F3].
  pose proof (if_size _ _ _ _ Hf). unfold MAXFILE, NDIRECT, NINDIRECT in *.
  split; try done.
  - cbn. lia.
  - cbn. apply Forall_lookup_2. intros i v Hv. pose proof (lookup_lt_Some _ _ _ Hv).
    assert (slot a view' (Z.of_nat i) = v) as Es.
    { rewrite slot_small by lia. unfold at_. destruct (Z.leb_spec 0 (Z.of_nat i)); [|lia].
      by rewrite Nat2Z.id, Hv. }
    pose proof (bitmap_pos _ _ _ (if_layout _ _ _ _ Hf)).
    destruct (F2 (Z.of_nat i) ltac:(lia)) as [E|(? & _)]; lia.
Qed.
Lemma written_iblock i : 0 <= i < sb_ninodes sb -> view' (IBLOCK i) = view (IBLOCK i).
Proof using Hf Hw.
  clear Hold Hnew Hnb. intros Hi. pose proof (if_layout _ _ _ _ Hf) as Hl.
  destruct (iblock_range _ _ _ _ Hl Hi) as [H1 H2]. pose proof (ly_inside _ _ _ Hl). pose proof (ly_size _ _ _ Hl).
  apply (w_keep _ _ _ _ _ _ _ _ _ _ Hw); [lia|apply (ly_meta _ _ _ Hl); lia|lia|].
  intros j Hj. destruct (fo_range _ _ _ _ (if_file _ _ _ _ Hf) j Hj) as [->|(? & _)]; lia.
Qed.
Lemma written_files n2 : ifile sb view nb n2 ->
    (forall i j, 0 <= i < 141 -> 0 <= j < 141 -> slot (i_addrs n2) view j <> 0 ->
       slot (i_addrs n) view i <> slot (i_addrs n2) view j) ->
    ifile sb view' nb n2 /\ icontent view' n2 = icontent view n2.
Proof using Hf Hw.
  clear Hold Hnew Hnb. intros H2 Hdis. pose proof (bitmap_pos _ _ _ (if_layout _ _ _ _ Hf)).
  pose proof (ly_size _ _ _ (if_layout _ _ _ _ Hf)).
  apply (file_kept sb view view' nb); [done|apply (w_layout _ _ _ _ _ _ _ _ _ _ Hw)|apply (w_used _ _ _ _ _ _ _ _ _ _ Hw)|].
  intros j Hj Hj0. destruct (slot_range _ _ _ _ j (if_layout _ _ _ _ H2) (if_file _ _ _ _ H2) Hj Hj0) as (R1 & R2 & R3).
  apply (w_keep _ _ _ _ _ _ _ _ _ _ Hw); [lia|done|lia|]. intros i Hi. by apply Hdis.
Qed.
End written.

Lemma size_log_room bq X i k (lg : gset Z) : roomy bq X i k -> lg ⊆ X -> Z.of_nat (base.size lg) < cap bq.
Proof. intros H Hl. eapply room_can_log; [by eapply roomy_room|done]. Qed.

Section writei.
  Context (s : st B) (sb : superblock) (view : Z -> list Z) (lg X : gset Z) (n : inode) (ip off m : Z) (src : list Z).
  Hypothesis H : holds true (blk s) ∅ ∅ view lg.
  Hypothesis Hf : ifile sb view (nblk (blk s)) n.
  Hypothesis Hip : at_ (inodes s) ip = Some n.
  Hypothesis Hty : i_type n <> T_DEV.
  Hypothesis Hino : ino_ok sb n.
  Hypothesis Hfields : fields_ok n.
  Hypothesis Hdisk : on_disk view n.
  Hypothesis Hoff : 0 <= off <= i_size n.
  Hypothesis Hm : 0 <= m <= Z.of_nat (length src).
  Hypothesis HE : off + m <= MAXFILE * 512.
  Hypothesis Hby : bytes_ok src.
  Hypothesis HX : lg ⊆ X /\ (bitmap sb ∈ X) /\ (IBLOCK (i_inum n) ∈ X).
  Hypothesis Hroom : room (blk s) ∅ X (S (rounds off m 0)).
  Hypothesis Hfree : (2 * rounds off m 0 <= base.size (frees sb view))%nat.

Lemma writei_spec :
  wp (writei ip src off m) (fun r s' => r = m /\ exists b n' view' lg',
    s' = ipst s b ip n' /\ writei_done s sb view n off m src b n' view' lg') s.
Proof using All.
  pose proof (if_size _ _ _ _ Hf) as Hsz. destruct HX as (HX1 & HX2 & HX3).
  unfold MAXFILE, NDIRECT, NINDIRECT in Hsz, HE. unfold writei. wp_step. eapply wp_ld_ip; [done|].
  destruct (Z.eqb_spec (i_type n) T_DEV); [done|].
  rewrite (u32_id (off + m)) by lia.
  destruct (Z.ltb_spec (i_size n) off); [lia|]. destruct (Z.ltb_spec (off + m) off); [lia|]. cbn [orb].
  unfold BSIZE, MAXFILE, NDIRECT, NINDIRECT. destruct (Z.ltb_spec ((12 + 128) * 512) (off + m)); [lia|].
  wp_step. eapply wp_mono.
  { apply (writei_loop s sb view X n ip off m src (base.size (frees sb view) - 2 * rounds off m 0) Hip (if_dev _ _ _ _ Hf)) with (view := view) (lg := lg) (X := X);
      try done; try lia.
    - split; [done|done|done|done|by left|lia].
    - apply written_start; [done|lia]. }
  cbn beta. intros r s' (-> & b & a & view1 & lg1 & X1 & -> & [I1 I2 I3 I4 I5 I6] & Hw).
  set (n1 := set_addrs a n). set (n' := set_size (Z.max (i_size n) (off + m)) n1).
  pose proof (ipst_at s b ip n n1 Hip) as Hip1. pose proof I2 as [En Ec].
  assert (nblk b <= 2 ^ 23) as Hnb by (pose proof (bs_nblk _ _ _ _ _ _ I1); lia).
  rewrite <-En in Hw. assert (Hf' : ifile sb view (nblk b) n) by (by rewrite En).
  assert (forall c, 0 <= c < nblk b -> length (view c) = 512%nat /\ bytes_ok (view c)) as Hold.
  { intros c Hc. eapply (bs_view _ _ _ _ _ _ _ H). lia. }
  assert (forall c, 0 <= c < nblk b -> length (view1 c) = 512%nat /\ bytes_ok (view1 c)) as Hnew.
  { intros c Hc. by eapply (bs_view _ _ _ _ _ _ _ I1). }
  pose proof (written_ifile (nblk b) sb view view1 n off m a src Hf' Hoff Hm HE Hw) as R1.
  pose proof (written_content (nblk b) sb view view1 n off m a src Hold Hnew Hf' Hoff Hm HE Hw) as R2.
  pose proof (written_fields (nblk b) sb view view1 n off m a src Hf' Hnb Hfields Hoff Hm HE Hw) as R3.
  pose proof (written_iblock (nblk b) sb view view1 n off m a src Hf' Hw) as R4.
  pose proof (written_files (nblk b) sb view view1 n off m a src Hf' Hw) as R5.
  fold n1 in R1, R2, R3. change (set_size (Z.max (i_size n) (off + m)) n1) with n' in R1, R2, R3.
  wp_step. eapply wp_ld_ip; [exact Hip1|]. change (i_size n1) with (i_size n).
  assert (s32 m = m) as Em by (apply s32_id; lia).
  destruct ((0 <? m) && (i_size n <? off + m)) eqn:Eg; cbn [when].
  - apply andb_true_iff in Eg as [Eg1%Z.ltb_lt Eg2%Z.ltb_lt].
    assert (set_size (off + m) n1 = n') as En' by (unfold n'; by rewrite Z.max_r by lia).
    wp_step. wp_step. eapply wp_up_ip; [exact Hip1|]. rewrite ipst_ipst, En'.
    pose proof (ipst_at s b ip n n' Hip) as Hip2.
    eapply (iupdate_spec (ipst s b ip n') view1 lg1 X1 0 sb n' ip);
      [exact I1|apply (if_layout _ _ _ _ R1)|exact Hino|exact Hip2|apply (if_dev _ _ _ _ Hf)|apply (fk_len _ R3)|done|set_solver|by eapply roomy_room|].
    intros B2 HB2 Hs2. wp_step. rewrite Em. split; [done|]. rewrite ipst_blk.
    assert (same_store s B2) as Hs2' by (destruct Hs2; split; cbn in *; congruence). pose proof Hs2' as [En2 Ec2].
    assert (nblk B2 = nblk b) as Enb by congruence.
    pose proof (if_layout _ _ _ _ R1) as Hl1. destruct (iblock_range _ _ _ _ Hl1 Hino) as [Hi1 Hi2].
    pose proof (ly_bitmap _ _ _ Hl1) as Hlb.
    assert (length (view1 (IBLOCK (i_inum n'))) = 512%nat) as Hvl.
    { change (i_inum n') with (i_inum n). apply Hnew. lia. }
    destruct (iupdated_files sb view1 (nblk b) n' n' Hl1 Hino R1) as [R1' R2'].
    exists B2, n', (iupdated view1 n'), ({[IBLOCK (i_inum n')]} ∪ lg1). split; [done|].
    split; rewrite ?Enb; try done.
    + pose proof (size_log_room _ _ _ _ ({[IBLOCK (i_inum n')]} ∪ lg1) I5 ltac:(set_solver)). congruence || lia.
    + rewrite (frees_ext _ view1 (iupdated view1 n')); [lia|]. unfold iupdated. apply Bio.vupd_ne.
      change (i_inum n') with (i_inum n). lia.
    + by exists a.
    + by apply iupdated_on_disk.
    + by rewrite R2'.
    + intros i jp Hi Hne. pose proof Hino as Hino'. unfold ino_ok in Hino'.
      rewrite iupdated_other; [|done|apply (fk_len _ R3)|lia|cbn; lia|done]. unfold dinode_of. by rewrite R4.
    + intros n2 Hn2 Hdis. destruct (R5 n2) as [R51 R52]; [done|done|].
      rewrite <-R52. apply iupdated_files with (sb := sb); done.
  - wp_step. rewrite Em. split; [done|].
    assert (off + m <= i_size n) as Hle.
    { apply andb_false_iff in Eg as [Eg%Z.ltb_ge|Eg%Z.ltb_ge]; lia. }
    assert (n' = n) as En'.
    { unfold n', n1. rewrite Z.max_l by lia. rewrite (w_same _ _ _ _ _ _ _ _ _ _ Hw Hle), set_addrs_id. by destruct n. }
    assert (n1 = n) as En1.
    { unfold n1. by rewrite (w_same _ _ _ _ _ _ _ _ _ _ Hw Hle), set_addrs_id. }
    exists b, n', view1, lg1. split; [by rewrite En1, En'|]. split; try done.
    + by eapply size_log_room.
    + lia.
    + by exists a.
    + rewrite En'. unfold on_disk, dinode_of. rewrite R4 by exact Hino. exact Hdisk.
    + intros i jp Hi _. unfold dinode_of. by rewrite R4.
Qed.

(** the failures of writei change nothing *)
Lemma writei_fail off' m' :
  i_size n < off' \/ u32 (off' + m') < off' \/ MAXFILE * 512 < u32 (off' + m') ->
  writei ip src off' m' s = Done (-1) s.
Proof using Hip Hty.
  clear Hfree Hroom Hm HE. intros Hc. unfold writei, mbind at 1, M_bind at 1, ld_ip at 1, deref. rewrite Hip.
  destruct (Z.eqb_spec (i_type n) T_DEV); [done|]. change BSIZE with 512.
  destruct (Z.ltb_spec (i_size n) off'), (Z.ltb_spec (u32 (off' + m')) off'), (Z.ltb_spec (MAXFILE * 512) (u32 (off' + m'))); done || lia.
Qed.
End writei.

End content.
End Content.
