(* ===== verification/Inode.v ===== *)
(** * The inode cache (src/src/fs.c)

    Reference counts and locks of icache: iget, idup, ilock, iunlock, and
    iput, which frees an inode nobody refers to any more. *)

From S2P Require Import Prelude.
From S2P Require Import Bytes.
From S2P Require Import Bio.
From S2P Require Import Store.
From S2P Require Import Fs.
From S2P Require Import Content.

Module Inode.
Import Fs.
Import Content.

Section inode.
Context {B : Type} {BS : BlockStore B} {DV : Devsw B} {BL : BlockStoreLaws B}.

(** ** iget and idup *)

(** The cache: no inode has two entries in use. *)
Record icache_ok (s : st B) : Prop := {
  ic_lock : lock s = false;
  ic_len : length (inodes s) = 50%nat;
  ic_ref : forall i x, at_ (inodes s) i = Some x -> 0 <= i_ref x;
  ic_uniq : forall i j x y, at_ (inodes s) i = Some x -> at_ (inodes s) j = Some y ->
    0 < i_ref x -> 0 < i_ref y -> i_dev x = i_dev y -> i_inum x = i_inum y -> i = j;
}.

(** entry [i] is the one of inode [inum] of device [d] *)
Definition is_entry (d inum : Z) (x : inode) : bool := (0 <? i_ref x) && (i_dev x =? d) && (i_inum x =? inum).
Definition fresh_entry (d inum : Z) (x : inode) : inode :=
  Inode d inum 1 0 (i_type x) (i_major x) (i_minor x) (i_nlink x) (i_size x) (i_addrs x).

Lemma iget_scan_spec (s : st B) d inum :
  length (inodes s) = 50%nat ->
  wp (loop (S (Z.to_nat NINODE)) (iget_scan d inum) (0, NULL))
    (fun v s' => s' = s /\
       ((0 <= v.1 < 50 /\ exists x, at_ (inodes s) v.1 = Some x /\ is_entry d inum x = true) \/
        (v.1 = 50 /\ (forall j x, at_ (inodes s) j = Some x -> is_entry d inum x = false) /\
         (v.2 = NULL /\ (forall j x, at_ (inodes s) j = Some x -> i_ref x <> 0) \/
          0 <= v.2 < 50 /\ exists x, at_ (inodes s) v.2 = Some x /\ i_ref x = 0)))) s.
Proof.
  intros Hlen. apply wp_loop with (mu := fun v => Z.to_nat (50 - v.1))
    (Inv := fun v s' => s' = s /\ 0 <= v.1 <= 50 /\
       (forall j x, 0 <= j < v.1 -> at_ (inodes s) j = Some x -> is_entry d inum x = false) /\
       (v.2 = NULL /\ (forall j x, 0 <= j < v.1 -> at_ (inodes s) j = Some x -> i_ref x <> 0) \/
        0 <= v.2 < 50 /\ exists x, at_ (inodes s) v.2 = Some x /\ i_ref x = 0)).
  - cbn. split; [done|]. split; [lia|]. split; [lia|]. left. split; [done|lia].
  - unfold NINODE. cbn. lia.
  - intros [i e] s' (-> & Hi & Hno & He). cbn [fst snd] in *. unfold iget_scan, NINODE.
    destruct (Z.ltb_spec i 50) as [Hlt|Hge].
    + destruct (at_is_Some (inodes s) i ltac:(lia)) as [x Hx].
      wp_step. eapply wp_ld_ip; [exact Hx|]. change (_ && _ && _) with (is_entry d inum x).
      destruct (is_entry d inum x) eqn:Ex.
      * wp_step. split; [done|]. left. cbn. split; [lia|]. by exists x.
      * wp_step. cbn [fst snd]. split; [|lia]. split; [done|]. split; [lia|]. split.
        { intros j y Hj Hy. destruct (Z.eq_dec j i) as [->|]; [congruence|]. apply (Hno j); [lia|done]. }
        destruct (Z.eqb_spec e NULL) as [->|Hne]; cbn [andb].
        -- destruct (Z.eqb_spec (i_ref x) 0) as [E0|E0].
           ++ right. split; [lia|]. by exists x.
           ++ left. split; [done|]. intros j y Hj Hy. destruct (Z.eq_dec j i) as [->|]; [congruence|].
              destruct He as [[_ He]|[He _]]; [|unfold NULL in He; lia]. apply (He j); [lia|done].
        -- right. by destruct He as [[-> _]|He].
    + wp_step. cbn [fst snd]. assert (i = 50) as -> by lia. split; [done|]. right. split; [done|]. split.
      * intros j x Hx. pose proof (at_range _ _ _ Hx). apply (Hno j); [lia|done].
      * destruct He as [[-> He]|He]; [left|by right]. split; [done|].
        intros j x Hx. pose proof (at_range _ _ _ Hx). apply (He j); [lia|done].
Qed.

Lemma ipst_lock (s : st B) ip n : lock s = false ->
  lset icache_lock false (ipst (lset icache_lock true s) (blk s) ip n) = ipst s (blk s) ip n.
Proof. intros H. unfold ipst. cbn. by rewrite H. Qed.

(** one entry changed, its device and number aside *)
Lemma icache_ok_upd (s : st B) b ip x y : icache_ok s -> at_ (inodes s) ip = Some x ->
  (0 < i_ref y -> 0 < i_ref x) -> 0 <= i_ref y -> i_dev y = i_dev x -> i_inum y = i_inum x ->
  icache_ok (ipst s b ip y).
Proof.
  intros [H1 H2 H3 H4] Hx Hr Hr0 Hd Hi. pose proof (at_range _ _ _ Hx) as Hrg.
  assert (forall j z, at_ (inodes (ipst s b ip y)) j = Some z -> exists z', at_ (inodes s) j = Some z' /\
    (0 < i_ref z -> 0 < i_ref z') /\ 0 <= i_ref z /\ i_dev z = i_dev z' /\ i_inum z = i_inum z') as Hall.
  { intros j z Hz. destruct (Z.eq_dec j ip) as [->|Hne].
    - rewrite (ipst_at s b ip x y Hx) in Hz. injection Hz as <-. by exists x.
    - cbn in Hz. pose proof (at_range _ _ _ Hz). rewrite at_put_ne in Hz by lia. exists z.
      split_and!; [done|done|by eapply H3|done|done]. }
  split; [done|by cbn; rewrite length_put| |].
  - intros j z Hz. by destruct (Hall j z Hz) as (_ & _ & _ & ? & _).
  - intros i j z w Hz Hw Hzr Hwr Hdd Hii. destruct (Hall i z Hz) as (z' & Hz' & A1 & _ & A2 & A3).
    destruct (Hall j w Hw) as (w' & Hw' & B1 & _ & B2 & B3). eapply H4; eauto; congruence.
Qed.

(** What iget does in each case: take a reference to the inode's entry, take
    over a free entry, or panic. *)
Definition iget_post (s : st B) (d inum : Z) (o : outcome (st B) Z) : Prop :=
  (exists i x, at_ (inodes s) i = Some x /\ is_entry d inum x = true /\
     o = Done i (ipst s (blk s) i (set_ref (i_ref x + 1) x))) \/
  ((forall j x, at_ (inodes s) j = Some x -> is_entry d inum x = false) /\
   exists i x, at_ (inodes s) i = Some x /\ i_ref x = 0 /\ o = Done i (ipst s (blk s) i (fresh_entry d inum x))) \/
  ((forall j x, at_ (inodes s) j = Some x -> is_entry d inum x = false /\ i_ref x <> 0) /\
   o = Panic "iget: no inodes").

Lemma iget_spec (s : st B) d inum : icache_ok s -> iget_post s d inum (iget d inum s).
Proof.
  intros [Hl Hlen Hr Hu]. pose proof (iget_scan_spec (lset icache_lock true s) d inum Hlen) as Hscan.
  unfold iget, acquire. unfold mbind at 1, M_bind at 1. cbn [lget icache_lock]. rewrite Hl.
  apply wp_done in Hscan as ([i e] & s' & Hrun & -> & Hcase). cbn [fst snd] in Hcase.
  rewrite (bind_done _ _ _ _ _ Hrun). change (inodes (lset icache_lock true s)) with (inodes s) in Hcase.
  assert (forall j x y, at_ (inodes s) j = Some x ->
    (up_ip j (fun x => y x) ;; release icache_lock ;; mret j) (lset icache_lock true s) =
    Done j (ipst s (blk s) j (y x))) as Hup.
  { intros j x y Hx. unfold up_ip, ld_ip, deref, mbind, M_bind. cbn [inodes lset icache_lock]. rewrite Hx.
    unfold modify, release. cbn. unfold ipst. by rewrite Hl. }
  destruct Hcase as [(Hi & x & Hx & Ex)|(-> & Hno & He)].
  - left. exists i, x. split; [done|]. split; [done|].
    unfold NINODE. destruct (Z.ltb_spec i 50); [|lia]. by rewrite (Hup i x (fun x => set_ref (i_ref x + 1) x) Hx).
  - right. unfold NINODE. change (50 <? 50) with false. cbn iota.
    destruct He as [[-> He]|(Hi & x & Hx & E0)]; [right|left].
    + split; [|done]. intros j x Hx. split; [by eapply Hno|by eapply He].
    + split; [done|]. exists e, x. split; [done|]. split; [done|].
      destruct (Z.eqb_spec e NULL) as [->|_]; [unfold NULL in Hi; lia|].
      unfold panic_if. unfold mbind at 1, M_bind at 1. cbn [mret M_ret].
      exact (Hup e x (fun x => fresh_entry d inum x) Hx).
Qed.

Lemma icache_ok_fresh (s : st B) b ip x d inum : icache_ok s -> at_ (inodes s) ip = Some x -> i_ref x = 0 ->
  (forall j y, at_ (inodes s) j = Some y -> is_entry d inum y = false) ->
  icache_ok (ipst s b ip (fresh_entry d inum x)).
Proof.
  intros [H1 H2 H3 H4] Hx Hr Hno. pose proof (at_range _ _ _ Hx) as Hrg.
  assert (forall j z, j <> ip -> at_ (inodes (ipst s b ip (fresh_entry d inum x))) j = Some z -> at_ (inodes s) j = Some z) as Hne.
  { intros j z Hj Hz. cbn in Hz. by rewrite at_put_ne in Hz by lia. }
  pose proof (ipst_at s b ip x (fresh_entry d inum x) Hx) as Hip.
  assert (forall j z, j <> ip -> at_ (inodes s) j = Some z -> 0 < i_ref z -> i_dev z = d -> i_inum z = inum -> False) as Habs.
  { intros j z Hj Hz Hzr E1 E2. specialize (Hno j z Hz). unfold is_entry in Hno.
    rewrite (proj2 (Z.ltb_lt _ _)), E1, E2, !Z.eqb_refl in Hno by done. done. }
  split; [done|by cbn; rewrite length_put| |].
  - intros j z Hz. destruct (Z.eq_dec j ip) as [->|Hj]; [|eapply H3; by eapply Hne].
    rewrite Hip in Hz. injection Hz as <-. cbn. lia.
  - intros i j z w Hz Hw Hzr Hwr Hd Hi.
    destruct (Z.eq_dec i ip) as [->|Hni], (Z.eq_dec j ip) as [->|Hnj]; try done.
    + rewrite Hip in Hz. injection Hz as <-. cbn in Hd, Hi. destruct (Habs j w Hnj (Hne j w Hnj Hw)); congruence.
    + rewrite Hip in Hw. injection Hw as <-. cbn in Hd, Hi. destruct (Habs i z Hni (Hne i z Hni Hz)); congruence.
    + by apply (H4 i j z w); auto.
Qed.

Lemma idup_spec (s : st B) ip x : lock s = false -> at_ (inodes s) ip = Some x ->
  idup ip s = Done ip (ipst s (blk s) ip (set_ref (i_ref x + 1) x)).
Proof.
  intros Hl Hx. unfold idup, acquire, up_ip, ld_ip, deref, release, modify, mbind, M_bind. cbn [lget icache_lock].
  rewrite Hl. cbn [inodes lset icache_lock]. rewrite Hx. cbn. unfold ipst. by rewrite Hl.
Qed.
(** ** ilock and iunlock *)

Lemma dinode_of_loaded view i x y : dinode_of view i x = Some y ->
  y = loaded y x /\ forall x', dinode_of view i x' = Some (loaded y x').
Proof.
  unfold dinode_of, ld_dinode. destruct (ld16 (view (IBLOCK i)) (ioff i)) as [v1|]; cbn [mbind option_bind]; [|intros [=]].
  destruct (ld16 (view (IBLOCK i)) (ioff i + 2)) as [v2|]; cbn [mbind option_bind]; [|intros [=]].
  destruct (ld16 (view (IBLOCK i)) (ioff i + 4)) as [v3|]; cbn [mbind option_bind]; [|intros [=]].
  destruct (ld16 (view (IBLOCK i)) (ioff i + 6)) as [v4|]; cbn [mbind option_bind]; [|intros [=]].
  destruct (ld32 _ _) as [v5|]; cbn [mbind option_bind]; [|intros [=]].
  destruct (slice _ _ _) as [v6|]; cbn [mbind option_bind]; [|intros [=]]. by intros [= <-].
Qed.

Definition busy (n : inode) : inode := set_flags (Z.lor (i_flags n) I_BUSY) n.
Definition valid (n : inode) : inode := set_flags (Z.lor (i_flags n) I_VALID) n.

Lemma ilock_busy (s : st B) ip n : lock s = false -> ip <> NULL -> at_ (inodes s) ip = Some n -> 1 <= i_ref n ->
  has (i_flags n) I_BUSY = true -> ilock ip s = Block (ch_inode ip) s.
Proof.
  intros Hl Hn Hx Hr Hb. unfold ilock, ld_ip, deref, acquire, sleep_on, release, block, mbind, M_bind.
  destruct (Z.eqb_spec ip NULL) as [|_]; [done|]. cbn [panic_if mret M_ret]. rewrite Hx.
  destruct (Z.ltb_spec (i_ref n) 1) as [|_]; [lia|]. cbn [panic_if mret M_ret].
  cbn [lget icache_lock]. rewrite Hl. cbn [lset icache_lock inodes]. rewrite Hx, Hb. cbn. f_equal.
  destruct s; cbn in *; by subst.
Qed.

Section ilock.
  Context (a : bool) (s : st B) (view : Z -> list Z) (lg : gset Z) (sb : superblock) (ip : Z) (n : inode).
  Hypothesis Hlk : lock s = false.
  Hypothesis Hip : at_ (inodes s) ip = Some n.
  Hypothesis Href : 1 <= i_ref n.
  Hypothesis Hb : has (i_flags n) I_BUSY = false.

Lemma ip_not_null : ip <> NULL.
Proof using Hip. pose proof (at_range _ _ _ Hip). unfold NULL. lia. Qed.

Lemma ilock_prefix (K : M (st B) unit) Q : wp K Q (ipst s (blk s) ip (busy n)) ->
  wp (panic_if (ip =? NULL) "ilock" ;; n ← ld_ip ip; panic_if (i_ref n <? 1) "ilock" ;; acquire icache_lock ;;
      n ← ld_ip ip;
      if has (i_flags n) I_BUSY then sleep_on icache_lock (ch_inode ip) else
      up_ip ip (fun x => set_flags (Z.lor (i_flags x) I_BUSY) x) ;; release icache_lock ;; K) Q s.
Proof using Hlk Hip Href Hb.
  intros HQ. wp_step. wp_step; [apply Z.eqb_neq, ip_not_null|]. wp_step. eapply wp_ld_ip; [done|].
  wp_step. wp_step; [apply Z.ltb_ge; lia|]. wp_step. wp_step; [done|].
  wp_step. eapply wp_ld_ip; [exact Hip|]. rewrite Hb. wp_step. eapply wp_up_ip; [exact Hip|].
  wp_step. wp_step; [done|]. unfold ipst in HQ |- *. cbn. by rewrite <-Hlk.
Qed.

Lemma ilock_valid Q : has (i_flags n) I_VALID = true -> Q tt (ipst s (blk s) ip (busy n)) -> wp (ilock ip) Q s.
Proof using Hlk Hip Href Hb.
  intros Hv HQ. apply ilock_prefix. wp_step. eapply wp_ld_ip; [by apply (ipst_at s _ _ n)|].
  assert (has (i_flags (busy n)) I_VALID = true) as ->; [|done].
  unfold has, busy in *. cbn. rewrite !(Bio.land_bit _ 1) in * by lia. rewrite Z.lor_spec. by destruct (Z.testbit (i_flags n) 1).
Qed.

Lemma ilock_load Q d : has (i_flags n) I_VALID = false ->
  holds a (blk s) ∅ ∅ view lg -> layout sb view (nblk (blk s)) -> ino_ok sb n -> i_dev n = 1 ->
  (base.size lg < 10)%nat -> dinode_of view (i_inum n) n = Some d -> i_type d <> 0 ->
  (forall B', holds a B' ∅ ∅ view lg -> same_store s B' -> Q tt (ipst s B' ip (valid (busy (loaded d n))))) ->
  wp (ilock ip) Q s.
Proof using Hlk Hip Href Hb.
  intros Hv H Hl Hino Hdev Hsz Hd Hty HQ. apply ilock_prefix.
  wp_step. eapply wp_ld_ip; [by apply (ipst_at s _ _ n)|].
  assert (has (i_flags (busy n)) I_VALID = false) as ->.
  { unfold has, busy in *. cbn. rewrite !(Bio.land_bit _ 1) in * by lia. rewrite Z.lor_spec. by destruct (Z.testbit (i_flags n) 1). }
  cbn [negb when]. change (i_dev (busy n)) with (i_dev n). change (i_inum (busy n)) with (i_inum n). rewrite Hdev.
  destruct (iblock_range _ _ _ _ Hl Hino) as [Hi1 Hi2]. pose proof (ly_bitmap _ _ _ Hl).
  set (s1 := ipst s (blk s) ip (busy n)).
  wp_step. eapply (f_bread a s1 _ _ _ _ H (IBLOCK (i_inum n))); [apply lookup_empty|cbn; lia| |].
  { right. rewrite dom_empty_L, union_empty_l_L. lia. }
  intros bp B1 HB1 Hs1. pose proof (lookup_insert_eq (∅ : gmap Z Z) (IBLOCK (i_inum n)) bp) as Hbp.
  wp_step. eapply (f_bdata _ (set_blk B1 s1) _ _ _ _ HB1 _ _ _ Hbp).
  destruct (dinode_of_loaded _ _ _ _ Hd) as [Ed Hd'].
  wp_step. eapply wp_deref_pure; [exact (Hd' (busy n))|]. unfold s1. rewrite ipst_blk.
  wp_step. eapply wp_up_ip; [by apply (ipst_at s _ _ n)|]. rewrite ipst_ipst. cbn [blk ipst].
  wp_step. eapply (f_brelse _ (ipst s B1 ip _) _ _ _ _ HB1 _ _ _ Hbp); [set_solver|].
  intros B2 HB2 Hs2. rewrite delete_insert_id in HB2 by apply lookup_empty. rewrite ipst_blk.
  wp_step. eapply wp_up_ip; [by apply (ipst_at s _ _ n)|]. rewrite ipst_ipst. cbn [blk ipst].
  wp_step. eapply wp_ld_ip; [by apply (ipst_at s _ _ n)|].
  apply wp_panic_if; [by apply Z.eqb_neq|]. apply HQ; [done|].
  destruct Hs1, Hs2; split; cbn in *; congruence.
Qed.
End ilock.

Lemma iunlock_spec (s : st B) ip n : lock s = false -> at_ (inodes s) ip = Some n -> 1 <= i_ref n ->
  has (i_flags n) I_BUSY = true ->
  iunlock ip s = Done tt (St (blk s) (lock s) (put (inodes s) ip (set_flags (Z.land (i_flags n) (Z.lnot I_BUSY)) n))
    (cwd s) (wakes s ++ [ch_inode ip])).
Proof.
  intros Hl Hx Hr Hb. pose proof (at_range _ _ _ Hx) as Hrg.
  unfold iunlock, up_ip, ld_ip, deref, acquire, release, wakeup, modify, mbind, M_bind.
  destruct (Z.eqb_spec ip NULL) as [E|_]; [unfold NULL in E; lia|]. cbn [panic_if mret M_ret]. rewrite Hx, Hb.
  destruct (Z.ltb_spec (i_ref n) 1) as [|_]; [lia|]. cbn [panic_if mret M_ret negb orb].
  cbn [lget icache_lock]. rewrite Hl. cbn [lset icache_lock inodes]. by rewrite Hx.
Qed.

(** ** itrunc and iput *)

(** the blocks of [L] are free again, nothing else changed *)
Definition freed (sb : superblock) (view view' : Z -> list Z) (L : gset Z) : Prop :=
  (forall b, b <> bitmap sb -> view' b = view b) /\
  forall b, 0 <= b < 4096 -> used sb view' b = used sb view b && negb (bool_decide (b ∈ L)).

Lemma freed_layout sb view view' nb L : layout sb view nb -> freed sb view view' L ->
  (forall b, b ∈ L -> bitmap sb < b < nb) -> layout sb view' nb.
Proof.
  intros Hl [H1 H2] HL. pose proof (bitmap_pos _ _ _ Hl). destruct Hl as [L1 L2 L3 L4 L5 L6 L7]. split; try done.
  - rewrite H1 by lia. done.
  - intros b Hb Hbs. rewrite H2, L5 by lia. rewrite bool_decide_false; [done|]. intros Hin%HL. lia.
  - intros b Hb. rewrite H2, L6 by lia. rewrite bool_decide_false; [done|]. intros Hin%HL. lia.
Qed.

Section itrunc.
  Context (s : st B) (sb : superblock) (view : Z -> list Z) (X : gset Z) (n : inode) (ip : Z).
Let a := i_addrs n.
Let nb := nblk (blk s).
  Hypothesis Hl : layout sb view nb.
  Hypothesis Hf : file_ok sb view nb a.
  Hypothesis Hdev : i_dev n = 1.
  Hypothesis HbX : (bitmap sb ∈ X).
  Hypothesis Hip : at_ (inodes s) ip = Some n.

(** a state in which the slots in [gone] have been freed *)
Definition freeing (bz : gmap Z Z) (cut : list Z -> list Z) (gone : Z -> Prop) (s' : st B) : Prop :=
  exists b view' lg L, s' = ipst s b ip (set_addrs (cut a) n) /\
    holds true b bz ∅ view' lg /\ same_store s b /\ lg ⊆ X /\ freed sb view view' L /\
    (forall c, c ∈ L <-> c <> 0 /\ exists j, 0 <= j < 141 /\ gone j /\ slot a view j = c).

(** bfree of slot [j] *)
Lemma free_slot bz cut gone s' j k Q :
  freeing bz cut gone s' -> 0 <= j < 141 -> slot a view j <> 0 -> ~ gone j ->
  bz !! 1 = None -> bz !! bitmap sb = None ->
  room (blk s) bz X k ->
  (forall s'', freeing bz cut (fun i => i = j \/ gone i) s'' -> inodes s'' = inodes s' -> Q tt s'') ->
  wp (bfree 1 (slot a view j)) Q s'.
Proof using Hl Hf HbX.
  clear Hdev Hip. intros (b & view' & lg & L & -> & H & Hs & Hlg & [F1 F2] & HL) Hj H0 Hnd H1 Hb Hroom HQ.
  destruct (slot_range _ _ _ _ j Hl Hf Hj H0) as (R1 & R2 & R3). pose proof Hs as [En Ec].
  pose proof (ly_size _ _ _ Hl) as Hsz. pose proof (bitmap_pos _ _ _ Hl) as Hb3.
  assert (forall c, c ∈ L -> bitmap sb < c < nb) as HLr.
  { intros c Hc. apply HL in Hc as (Hc & i & Hi & _ & <-). by destruct (slot_range _ _ _ _ i Hl Hf Hi Hc) as (? & _). }
  assert (slot a view j ∉ L) as HjL.
  { intros Hin. apply HL in Hin as (_ & i & Hi & Hdi & E). destruct (Z.eq_dec i j) as [->|Hne]; [done|].
    apply (fo_inj _ _ _ _ Hf j i); try done; lia. }
  assert (layout sb view' (nblk b)) as Hl' by (rewrite En; by eapply freed_layout).
  eapply (bfree_spec (ipst s b ip (set_addrs (cut a) n)) bz view' lg X k sb); try done.
  - lia.
  - rewrite F2, R3 by lia. by rewrite bool_decide_false.
  - by eapply room_same.
  - intros B' HB' Hs'. rewrite ipst_blk. apply HQ; [|done].
    exists B', (Bio.vupd view' (bitmap sb) (clear_bit (view' (bitmap sb)) (slot a view j))), ({[bitmap sb]} ∪ lg), ({[slot a view j]} ∪ L).
    destruct (bs_view _ _ _ _ _ _ (bitmap sb) H ltac:(pose proof (ly_bitmap _ _ _ Hl'); lia)) as [Hvl Hvb].
    split; [done|]. split; [done|]. split; [destruct Hs'; split; cbn in *; congruence|]. split; [by apply union_subseteq; split; [apply singleton_subseteq_l|]|]. split.
    + split.
      * intros c Hc. rewrite Bio.vupd_ne by done. by apply F1.
      * intros c Hc. unfold used. rewrite Bio.vupd_eq, clear_bit_spec by (done || lia).
        change (bit_of (view' (bitmap sb)) c) with (used sb view' c). rewrite F2 by done.
        change (bit_of (view (bitmap sb)) c) with (used sb view c).
        destruct (Z.eq_dec c (slot a view j)) as [->|Hne].
        -- rewrite bool_decide_true by done. rewrite (bool_decide_true (slot a view j ∈ {[slot a view j]} ∪ L)) by (apply elem_of_union_l, elem_of_singleton; done).
           by rewrite andb_false_r.
        -- rewrite bool_decide_false by done. cbn [negb andb]. f_equal. f_equal. apply bool_decide_ext.
           rewrite elem_of_union, elem_of_singleton. tauto.
    + intros c. rewrite elem_of_union, elem_of_singleton, HL. split.
      * intros [->|(Hc & i & Hi & Hdi & <-)]; [split; [done|]; by exists j; auto|split; [done|]]. exists i. auto.
      * intros (Hc & i & Hi & [->|Hdi] & <-); [by left|right]. split; [done|]. by exists i.
Qed.
End itrunc.

(** the first [i] block addresses cleared *)
Definition zero_first (i : Z) (a : list Z) : list Z := replicate (Z.to_nat i) 0 ++ drop (Z.to_nat i) a.
Lemma zero_first_at a i j : 0 <= i <= j -> at_ (zero_first i a) j = at_ a j.
Proof.
  intros Hi. unfold at_, zero_first. destruct (Z.leb_spec 0 j); [|done].
  rewrite lookup_app_r by (rewrite length_replicate; lia). rewrite length_replicate, lookup_drop. f_equal. lia.
Qed.
Lemma length_zero_first a i : 0 <= i <= Z.of_nat (length a) -> length (zero_first i a) = length a.
Proof. intros Hi. unfold zero_first. rewrite length_app, length_replicate, length_drop. lia. Qed.
Lemma zero_first_put a i : 0 <= i < Z.of_nat (length a) -> put (zero_first i a) i 0 = zero_first (i + 1) a.
Proof.
  intros Hi. unfold put, zero_first.
  rewrite insert_app_r_alt, length_replicate, Nat.sub_diag by (rewrite length_replicate; lia).
  replace (Z.to_nat (i + 1)) with (S (Z.to_nat i)) by lia.
  rewrite replicate_S_end, <-app_assoc. f_equal.
  destruct (lookup_lt_is_Some_2 a (Z.to_nat i) ltac:(lia)) as [x Hx].
  by rewrite (drop_S _ _ _ Hx).
Qed.
Lemma zero_first_skip a i : at_ a i = Some 0 -> zero_first (i + 1) a = zero_first i a.
Proof.
  intros Ha. pose proof (at_range _ _ _ Ha) as Hr.
  rewrite <-zero_first_put by done. apply put_id. by rewrite zero_first_at by lia.
Qed.

Section itrunc_run.
  Context (s : st B) (sb : superblock) (view : Z -> list Z) (X : gset Z) (n : inode) (ip : Z).
Let a := i_addrs n.
Let nb := nblk (blk s).
  Hypothesis Hl : layout sb view nb.
  Hypothesis Hf : file_ok sb view nb a.
  Hypothesis Hdev : i_dev n = 1.
  Hypothesis HbX : (bitmap sb ∈ X).
  Hypothesis Hip : at_ (inodes s) ip = Some n.
  Hypothesis Hroom : room (blk s) ∅ X 1.
  
Lemma freeing_ext bz cut cut' gone gone' s' : freeing s sb view X n ip bz cut gone s' -> cut' a = cut a ->
  (forall j, 0 <= j < 141 -> slot a view j <> 0 -> (gone j <-> gone' j)) -> freeing s sb view X n ip bz cut' gone' s'.
Proof using Type.
  clear. intros (b & view' & lg & L & E & H & Hs & Hlg & F & HL) Hc Hg.
  exists b, view', lg, L. unfold a in Hc. rewrite <-Hc in E. split_and!; try done. intros c. rewrite HL. split.
  - intros (Hc0 & j & Hj & Hgj & <-). split; [done|]. exists j. rewrite <-Hg by done. done.
  - intros (Hc0 & j & Hj & Hgj & <-). split; [done|]. exists j. rewrite Hg by done. done.
Qed.
Lemma freeing_at bz cut gone s' : freeing s sb view X n ip bz cut gone s' -> at_ (inodes s') ip = Some (set_addrs (cut a) n).
Proof using Hip. intros (b & view' & lg & L & -> & _). by apply (ipst_at s b ip n). Qed.

Lemma itrunc_direct_spec s' : freeing s sb view X n ip ∅ (zero_first 0) (fun _ => False) s' ->
  wp (loop (S (Z.to_nat NDIRECT)) (itrunc_direct ip) 0) (fun _ s'' => freeing s sb view X n ip ∅ (zero_first 12) (fun j => j < 12) s'') s'.
Proof using Hl Hf Hdev HbX Hip Hroom.
  intros H0. pose proof (fo_len _ _ _ _ Hf) as Hlen. fold a in Hlen.
  apply wp_loop with (mu := fun i => Z.to_nat (12 - i))
    (Inv := fun i s'' => 0 <= i <= 12 /\ freeing s sb view X n ip ∅ (zero_first i) (fun j => j < i) s'').
  - split; [lia|]. eapply freeing_ext; [exact H0|done|]. intros j Hj _. lia.
  - unfold NDIRECT. lia.
  - intros i s1 [Hi Hfr]. unfold itrunc_direct, NDIRECT. destruct (Z.ltb_spec i 12) as [Hlt|Hge].
    2: { wp_step. by assert (i = 12) as -> by lia. }
    pose proof (freeing_at _ _ _ _ Hfr) as Hat.
    pose proof (slot_at a view i Hlen ltac:(lia)) as Hsl.
    assert (at_ (zero_first i a) i = Some (slot a view i)) as Hz by (by rewrite zero_first_at by lia).
    wp_step. eapply wp_ld_addr; [exact Hat|exact Hz|]. wp_step.
    destruct (Z.eqb_spec (slot a view i) 0) as [E|Hne]; cbn [negb when].
    + wp_step. wp_step. split; [|lia]. split; [lia|]. eapply freeing_ext; [exact Hfr| |].
      * apply zero_first_skip. by rewrite Hsl, E.
      * intros j Hj Hj0. split; [lia|]. intros Hji. destruct (Z.eq_dec j i) as [->|]; [done|lia].
    + wp_step. eapply wp_ld_ip; [exact Hat|]. change (i_dev (set_addrs (zero_first i a) n)) with (i_dev n). rewrite Hdev.
      wp_step. eapply (free_slot s sb view X n ip Hl Hf HbX ∅); [exact Hfr|lia|exact Hne|cbn; lia|done|done|exact Hroom|].
      intros s2 Hfr2 Hin. eapply wp_st_addr; [by eapply freeing_at|exact Hz|]. wp_step.
      split; [|lia]. split; [lia|]. destruct Hfr2 as (b & view' & lg & L & -> & H & Hs & Hlg & F & HL).
      cbn [i_addrs set_addrs]. rewrite ipst_ipst. change (set_addrs ?x (set_addrs ?y n)) with (set_addrs x n).
      exists b, view', lg, L. rewrite zero_first_put by lia. split_and!; try done.
      intros c. rewrite HL. split; intros (Hc & j & Hj & Hg & <-); (split; [done|]; exists j; cbn beta in *; split_and!; try done; lia).
Qed.

Lemma itrunc_indirect_spec bp s' : slot a view 12 <> 0 ->
  freeing s sb view X n ip {[slot a view 12 := bp]} (zero_first 12) (fun j => j < 12) s' ->
  wp (loop (S (Z.to_nat NINDIRECT)) (itrunc_indirect ip bp) 0)
    (fun _ s'' => freeing s sb view X n ip {[slot a view 12 := bp]} (zero_first 12) (fun j => j <> 12) s'') s'.
Proof using Hl Hf Hdev HbX Hip Hroom.
  intros Hi0 H0. set (ind := slot a view 12) in *.
  destruct (slot_range _ _ _ _ 12 Hl Hf ltac:(lia) Hi0) as (R1 & R2 & R3). fold a ind in R1, R2, R3.
  pose proof (bitmap_pos _ _ _ Hl) as Hb3.
  apply wp_loop with (mu := fun j => Z.to_nat (128 - j))
    (Inv := fun j s'' => 0 <= j <= 128 /\ freeing s sb view X n ip {[ind := bp]} (zero_first 12) (fun i => i <> 12 /\ i < 13 + j) s'').
  - split; [lia|]. eapply freeing_ext; [exact H0|done|]. intros j Hj _. lia.
  - unfold NINDIRECT. lia.
  - intros j s1 [Hj Hfr]. unfold itrunc_indirect, NINDIRECT. destruct (Z.ltb_spec j 128) as [Hlt|Hge].
    2: { wp_step. eapply freeing_ext; [exact Hfr|done|]. intros i Hi _. lia. }
    pose proof (freeing_at _ _ _ _ Hfr) as Hat. pose proof Hfr as (b & view' & lg & L & -> & H & Hs & Hlg & [F1 F2] & HL).
    wp_step. eapply (f_bdata _ (ipst s b ip (set_addrs (zero_first 12 a) n)) _ _ _ _ H ind bp _ (lookup_singleton_eq _ _)).
    destruct (bs_view _ _ _ _ _ _ ind H) as [Hvl _]; [destruct Hs as [-> _]; unfold nb in R1; lia|].
    wp_step. eapply (wp_deref_pure _ (slot a view (13 + j))).
    { rewrite slot_large by lia. fold ind. destruct (Z.eqb_spec ind 0); [done|].
      rewrite F1 in Hvl |- * by lia. replace (4 * (13 + j - 13)) with (4 * j) by lia. unfold ld32. rewrite ldn_in; [done|].
      rewrite Hvl. change (Z.of_nat 512) with 512. change (Z.of_nat 4) with 4. lia. }
    wp_step. destruct (Z.eqb_spec (slot a view (13 + j)) 0) as [E|Hne]; cbn [negb when].
    + wp_step. wp_step. split; [|lia]. split; [lia|]. eapply freeing_ext; [exact Hfr|done|].
      intros i Hi Hi0'. split; [lia|]. intros [? ?]. split; [done|].
      destruct (Z.eq_dec i (13 + j)) as [->|]; [done|lia].
    + wp_step. eapply wp_ld_ip; [exact Hat|]. change (i_dev (set_addrs (zero_first 12 a) n)) with (i_dev n). rewrite Hdev.
      eapply (free_slot s sb view X n ip Hl Hf HbX {[ind := bp]}); [exact Hfr|lia|exact Hne|cbn; lia| | | |].
      { apply lookup_singleton_ne. lia. }
      { apply lookup_singleton_ne. lia. }
      { change ({[ind := bp]} : gmap Z Z) with (<[ind := bp]> (∅ : gmap Z Z)). by apply room_hold. }
      intros s2 Hfr2 _. wp_step. split; [|lia]. split; [lia|]. eapply freeing_ext; [exact Hfr2|done|].
      intros i Hi _. lia.
Qed.

Definition emptied : inode := set_size 0 (set_addrs (replicate 13 0) n).

Lemma zero_first_all : put (zero_first 12 a) 12 0 = replicate 13 0.
Proof using Hf.
  pose proof (fo_len _ _ _ _ Hf) as Hlen. fold a in Hlen. rewrite zero_first_put by lia.
  unfold zero_first. rewrite drop_ge by lia. by rewrite app_nil_r.
Qed.

Lemma itrunc_spec view0 lg Q : view0 = view -> holds true (blk s) ∅ ∅ view0 lg -> lg ⊆ X -> ino_ok sb n -> (IBLOCK (i_inum n) ∈ X) ->
  (forall b view' lg' L, holds true b ∅ ∅ (iupdated view' emptied) lg' -> same_store s b -> lg' ⊆ X ->
     freed sb view view' L -> (forall c, c ∈ L <-> c <> 0 /\ exists j, 0 <= j < 141 /\ slot a view j = c) ->
     Q tt (ipst s b ip emptied)) ->
  wp (itrunc ip) Q s.
Proof using Hl Hf Hdev HbX Hip Hroom.
  intros -> H Hlg Hino HiX HQ. pose proof (fo_len _ _ _ _ Hf) as Hlen. fold a in Hlen.
  assert (freeing s sb view X n ip ∅ (zero_first 0) (fun _ => False) s) as H0.
  { exists (blk s), view, lg, ∅. assert (zero_first 0 (i_addrs n) = i_addrs n) as -> by done.
    rewrite set_addrs_id, (ipst_id s _ ip n Hip), set_blk_id. split_and!; try done.
    - split; [done|]. intros c Hc. rewrite bool_decide_false by apply not_elem_of_empty. by rewrite andb_true_r.
    - intros c. split; [by intros ?%elem_of_empty|]. by intros (_ & j & _ & [] & _). }
  assert (forall s', freeing s sb view X n ip ∅ (zero_first 13) (fun _ => True) s' ->
    wp (up_ip ip (set_size 0) ;; iupdate ip) Q s') as Hend.
  { intros s' (b & view' & lg' & L & -> & H' & Hs' & Hlg' & F & HL).
    assert (zero_first 13 (i_addrs n) = replicate 13 0) as Ez.
    { fold a. rewrite <-zero_first_all, zero_first_put by lia. done. }
    rewrite Ez. wp_step. eapply wp_up_ip; [by apply (ipst_at s b ip n)|]. rewrite ipst_ipst. cbn [blk ipst].
    change (set_size 0 (set_addrs (replicate 13 0) n)) with emptied.
    assert (layout sb view' (nblk b)) as Hl'.
    { destruct Hs' as [-> _]. eapply freed_layout; [exact Hl|done|]. intros c (Hc & j & Hj & _ & <-)%HL.
      by destruct (slot_range _ _ _ _ j Hl Hf Hj Hc) as (? & _). }
    eapply (iupdate_spec (ipst s b ip emptied) view' lg' X 0 sb emptied ip);
      [exact H'|exact Hl'|exact Hino|by apply (ipst_at s b ip n)|exact Hdev|done|exact Hlg'|exact HiX| |].
    { cbn. eapply room_same; [|done]. eapply room_weaken; [done|lia]. }
    intros b2 Hb2 Hs2. rewrite ipst_blk. eapply (HQ b2 view' _ L); [exact Hb2| | |done|].
    - destruct Hs', Hs2; split; cbn in *; congruence.
    - apply union_subseteq. split; [by apply singleton_subseteq_l|done].
    - intros c. rewrite HL. split; intros (Hc & j & Hj & Hx); (split; [done|]; exists j; tauto). }
  unfold itrunc. wp_step. eapply wp_mono; [by apply itrunc_direct_spec|]. cbn beta. intros _ s1 Hfr.
  pose proof (freeing_at _ _ _ _ Hfr) as Hat. pose proof (slot_at a view 12 Hlen ltac:(lia)) as Hsl.
  assert (at_ (zero_first 12 a) 12 = Some (slot a view 12)) as Hz by (by rewrite zero_first_at by lia).
  wp_step. eapply wp_ld_addr; [exact Hat|exact Hz|]. wp_step.
  destruct (Z.eqb_spec (slot a view 12) 0) as [E|Hne]; cbn [negb when].
  { wp_step. apply Hend. eapply freeing_ext; [exact Hfr|apply (zero_first_skip a 12); by rewrite Hsl, E|].
    intros j Hj Hj0. split; [done|]. intros _. destruct (Z.ltb_spec j 12); [done|].
    destruct (Z.eq_dec j 12) as [->|]; [done|]. rewrite slot_large, E in Hj0 by lia. done. }
  destruct (slot_range _ _ _ _ 12 Hl Hf ltac:(lia) Hne) as (R1 & R2 & R3). fold a in R1, R2, R3.
  pose proof (bitmap_pos _ _ _ Hl) as Hb3.
  wp_step. eapply wp_ld_ip; [exact Hat|]. change (i_dev (set_addrs (zero_first 12 a) n)) with (i_dev n). rewrite Hdev.
  pose proof Hfr as (b & view' & lg' & L & -> & H' & Hs' & Hlg' & F & HL).
  wp_step. eapply (f_bread _ (ipst s b ip (set_addrs (zero_first 12 a) n)) _ _ _ _ H'); [apply lookup_empty|destruct Hs' as [E _]; unfold nb in R1; cbn [blk ipst]; lia| |].
  { right. eapply room_can_read; [|exact Hlg']. by eapply room_same. }
  intros bp b2 Hb2 Hs2. rewrite ipst_blk.
  assert (freeing s sb view X n ip {[slot a view 12 := bp]} (zero_first 12) (fun j => j < 12) (ipst s b2 ip (set_addrs (zero_first 12 a) n))) as Hfr2.
  { exists b2, view', lg', L. split_and!; try done. destruct Hs', Hs2; split; cbn in *; congruence. }
  wp_step. eapply wp_mono; [by apply itrunc_indirect_spec|]. cbn beta. intros _ s3 (b3 & view3 & lg3 & L3 & -> & H3 & Hs3 & Hlg3 & F3 & HL3).
  wp_step. eapply (f_brelse _ (ipst s b3 ip _) _ _ _ _ H3 _ bp _ (lookup_singleton_eq _ _)); [set_solver|].
  intros b4 Hb4 Hs4. rewrite delete_singleton_eq in Hb4. rewrite ipst_blk.
  assert (freeing s sb view X n ip ∅ (zero_first 12) (fun j => j <> 12) (ipst s b4 ip (set_addrs (zero_first 12 a) n))) as Hfr4.
  { exists b4, view3, lg3, L3. split_and!; try done. destruct Hs3, Hs4; split; cbn in *; congruence. }
  wp_step. eapply (free_slot s sb view X n ip Hl Hf HbX ∅); [exact Hfr4|lia|exact Hne|cbn; lia|done|done|exact Hroom|].
  intros s5 Hfr5 _. pose proof (freeing_at _ _ _ _ Hfr5) as Hat5.
  eapply wp_st_addr; [exact Hat5|exact Hz|]. apply Hend.
  destruct Hfr5 as (b5 & view5 & lg5 & L5 & -> & H5 & Hs5 & Hlg5 & F5 & HL5). rewrite ipst_ipst. cbn [blk ipst i_addrs set_addrs].
  exists b5, view5, lg5, L5. 
  assert (zero_first 13 (i_addrs n) = put (zero_first 12 (i_addrs n)) 12 0) as -> by (fold a; by rewrite zero_first_put by lia).
  split_and!; try done.
  intros c. rewrite HL5. split; intros (Hc & j & Hj & Hx & <-); (split; [done|]; exists j; cbn beta in *; split_and!; try done; lia).
Qed.
End itrunc_run.

(** dropping a reference that is not the last one of an unlinked inode *)
Lemma iput_keep (s : st B) ip n : lock s = false -> at_ (inodes s) ip = Some n ->
  (i_ref n =? 1) && has (i_flags n) I_VALID && (i_nlink n =? 0) = false ->
  iput ip s = Done tt (ipst s (blk s) ip (set_ref (i_ref n - 1) n)).
Proof.
  intros Hl Hx Hc. unfold iput, up_ip, ld_ip, deref, acquire, release, modify, mbind, M_bind.
  cbn [lget icache_lock]. rewrite Hl. cbn [lset icache_lock inodes]. rewrite Hx, Hc. cbn [when mret M_ret].
  cbn [inodes]. rewrite Hx. cbn. unfold ipst. by rewrite Hl.
Qed.

Definition set_lock (b : bool) (s : st B) : st B := lset icache_lock b s.
Lemma set_lock_id s : set_lock (lock s) s = s.
Proof. by destruct s. Qed.

(** the entry iput leaves behind *)
Definition dropped (n : inode) : inode := set_ref (i_ref n - 1) (set_flags 0 (set_type 0 (emptied n))).
(** the inode as it is then on disk: type 0, size 0, no blocks *)
Definition unlinked (n : inode) : inode := set_type 0 (emptied (busy n)).

Lemma emptied_fields n : fields_ok n -> fields_ok (unlinked n).
Proof.
  intros [K1 K2 K3 K4 K5 K6 K7]. split; try done. apply Forall_replicate. lia.
Qed.

Section iput.
  Context (s : st B) (sb : superblock) (view : Z -> list Z) (lg X : gset Z) (n : inode) (ip : Z).
  Hypothesis H : holds true (blk s) ∅ ∅ view lg.
  Hypothesis Hl : layout sb view (nblk (blk s)).
  Hypothesis Hf : file_ok sb view (nblk (blk s)) (i_addrs n).
  Hypothesis Hdev : i_dev n = 1.
  Hypothesis Hino : ino_ok sb n.
  Hypothesis Hlk : lock s = false.
  Hypothesis Hip : at_ (inodes s) ip = Some n.
  Hypothesis Hlast : i_ref n = 1 /\ has (i_flags n) I_VALID = true /\ has (i_flags n) I_BUSY = false /\ i_nlink n = 0.
  Hypothesis HX : lg ⊆ X /\ (bitmap sb ∈ X) /\ (IBLOCK (i_inum n) ∈ X).
  Hypothesis Hroom : room (blk s) ∅ X 1.

Lemma iput_free :
  wp (iput ip) (fun _ s' => exists b view' lg' L,
    s' = St b false (put (inodes s) ip (dropped n)) (cwd s) (wakes s ++ [ch_inode ip]) /\
    holds true b ∅ ∅ (iupdated (iupdated view' (emptied (busy n))) (unlinked n)) lg' /\ same_store s b /\ lg' ⊆ X /\
    freed sb view view' L /\
    (forall c, c ∈ L <-> c <> 0 /\ exists j, 0 <= j < 141 /\ slot (i_addrs n) view j = c)) s.
Proof using H Hl Hf Hdev Hino Hlk Hip Hlast HX Hroom.
  destruct Hlast as (L1 & L2 & L3 & L4). destruct HX as (HX1 & HX2 & HX3).
  unfold iput. wp_step. wp_step; [done|]. wp_step. eapply wp_ld_ip; [exact Hip|].
  rewrite L1, L2, L4. change ((1 =? 1) && true && (0 =? 0)) with true. cbn [when].
  wp_step. wp_step. wp_step; [done|]. wp_step. eapply wp_up_ip; [exact Hip|].
  wp_step. wp_step; [done|]. fold (busy n). set (s1 := lset icache_lock false _).
  assert (s1 = ipst s (blk s) ip (busy n)) as Es1 by (unfold s1, ipst; cbn; by rewrite Hlk).
  clearbody s1. subst s1.
  wp_step. eapply (itrunc_spec (ipst s (blk s) ip (busy n)) sb view X (busy n) ip); try done;
    [by apply (ipst_at s _ _ n)|].
  intros b view' lg' L Hb Hs Hlg' HF HL. rewrite ipst_ipst.
  assert (layout sb view' (nblk b)) as Hl'.
  { destruct Hs as [En _]. cbn in En. rewrite En. eapply freed_layout; [exact Hl|done|].
    intros c (Hc & j & Hj & <-)%HL. by destruct (slot_range _ _ _ _ j Hl Hf Hj Hc) as (? & _). }
  destruct (iblock_range _ _ _ _ Hl Hino) as [Hi1 Hi2].
  wp_step. eapply wp_up_ip; [by apply (ipst_at s _ _ n)|]. rewrite ipst_ipst. cbn [blk ipst].
  change (set_type 0 (emptied (busy n))) with (unlinked n).
  wp_step. eapply (iupdate_spec (ipst s b ip (unlinked n)) (iupdated view' (emptied (busy n))) lg' X 0 sb (unlinked n) ip);
    [exact Hb| |exact Hino|by apply (ipst_at s _ _ n)|exact Hdev|done|exact Hlg'|exact HX3| |].
  { eapply layout_ext; [exact Hl'|unfold iupdated; apply Bio.vupd_ne|unfold iupdated; apply Bio.vupd_ne];
      change (i_inum (emptied (busy n))) with (i_inum n); lia. }
  { cbn. destruct Hs as [_ Ec]. cbn in Ec. destruct Hroom as [R1 R2]. split; [lia|rewrite Ec; lia]. }
  intros b2 Hb2 Hs2. rewrite ipst_blk. wp_step. wp_step; [done|].
  wp_step. eapply wp_up_ip; [by apply (ipst_at s b2 ip n)|]. unfold wakeup. wp_step. wp_step. eapply wp_up_ip; [cbn; rewrite put_put; apply at_put_eq; by eapply at_range|].
  wp_step; [done|]. exists b2, view', ({[IBLOCK (i_inum (unlinked n))]} ∪ lg'), L.
  split; [unfold ipst, dropped; cbn; rewrite !put_put; done|].
  split; [exact Hb2|]. split; [destruct Hs, Hs2; split; cbn in *; congruence|].
  split; [apply union_subseteq; split; [by apply singleton_subseteq_l|done]|]. by split.
Qed.
End iput.

End inode.
End Inode.
