(* ===== verification/FsSpec.v ===== *)
(** * The contract of the file system's lower layers (src/src/fs.c)

    The theorems about the block allocator, the contents of files and the
    inode cache that the layers above rely on, for every implementation of
    the transaction interface of Store.v; their witnesses run on the log of
    Log.v over a small disk with a root directory and one file. *)

From S2P Require Import Prelude.
From S2P Require Import Bytes.
From S2P Require Import Bio.
From S2P Require Import Log.
From S2P Require Import Store.
From S2P Require Import Fs.
From S2P Require Import Content.
From S2P Require Import Inode.

Module FsSpec.
Import Store.
Import Fs.
Import Content.
Import Inode.

(** ** A small disk *)

(** Blocks 0 to 11, then a log of a header and ten blocks: the superblock,
    one block of inodes (1 the root directory, 2 a file), the bitmap, the
    directory's entries and the file's block; blocks 6 to 11 are free. *)
Definition demo_sb : superblock := Sb 23 8 7 11.
Definition pad (n : nat) (l : list Z) : list Z := l ++ replicate (n - length l) 0.
Definition demo_dir : inode := Inode 1 1 1 0 T_DIR 0 0 1 48 (pad 13 [4]).
Definition demo_file : inode := Inode 1 2 1 3 T_FILE 0 0 1 5 (pad 13 [5]).
Definition dirent_bytes (inum : Z) (name : list Z) : list Z := le 2 inum ++ pad 14 name.
Definition demo_block (n : Z) : list Z :=
  pad 512 (
    if n =? 1 then le 4 23 ++ le 4 8 ++ le 4 7 ++ le 4 11
    else if n =? 2 then replicate 64 0 ++ enc_dinode demo_dir ++ enc_dinode demo_file
    else if n =? 3 then [63; 240; 127]
    else if n =? 4 then dirent_bytes 1 [46] ++ dirent_bytes 1 [46; 46] ++ dirent_bytes 2 [102]
    else if n =? 5 then [104; 101; 108; 108; 111]
    else []).
Definition demo_disk : list Z := concat (demo_block <$> seqZ 0 23).
Definition demo_view : Z -> list Z := Bio.dsec demo_disk.

Definition free_inode : inode := Inode 0 0 0 0 0 0 0 0 0 (replicate 13 0).
Definition demo_store : Log.st := Store.with_busy 1 (Store.boot_log demo_disk 12 11 23).
Definition demo : st Log.st := St demo_store false ([demo_dir; demo_file] ++ replicate 48 free_inode) 0 [].
#[export] Instance no_devices : Devsw Log.st := { dev_read := fun _ => None; dev_write := fun _ => None }.

Lemma demo_disk_ok : Z.of_nat (length demo_disk) = 512 * 23 /\ bytes_ok demo_disk.
Proof.
  split; [vm_compute; reflexivity|]. unfold bytes_ok. apply (bool_decide_unpack _). vm_compute. exact I.
Qed.
Lemma demo_holds : holds true (blk demo) ∅ ∅ demo_view ∅.
Proof.
  destruct demo_disk_ok as [H1 H2].
  refine (Store.boot_holds demo_disk 12 11 23 true H1 H2 _ eq_refl _ _ _); [lia|lia|lia|].
  split; [vm_compute; reflexivity|]. split; [apply sub_bytes, H2|]. split; [vm_compute; reflexivity|].
  intros i v Hi. by rewrite lookup_nil in Hi.
Qed.
Lemma demo_layout : layout demo_sb demo_view (nblk (blk demo)).
Proof.
  change (nblk (blk demo)) with 12. split.
  - split_and!; vm_compute; reflexivity.
  - cbn. lia.
  - cbn. lia.
  - reflexivity.
  - intros b Hb Hs. assert (forallb (used demo_sb demo_view) (seqZ 0 4) = true) as Hu by (vm_compute; reflexivity).
    change (bitmap demo_sb) with 3 in Hb. apply (forallb_seqZ _ _ _ Hu). lia.
  - intros b Hb. assert (forallb (used demo_sb demo_view) (seqZ 12 11) = true) as Hu by (vm_compute; reflexivity).
    cbn [sb_size demo_sb] in Hb. apply (forallb_seqZ _ _ _ Hu). lia.
  - reflexivity.
Qed.

(** well-formedness of a file, by evaluation *)
Definition file_okb (sb : superblock) (view : Z -> list Z) (nb : Z) (a : list Z) : bool :=
  (length a =? 13)%nat &&
  forallb (fun i => (slot a view i =? 0) ||
     ((bitmap sb <? slot a view i) && (slot a view i <? nb) && (slot a view i <? sb_size sb) &&
      used sb view (slot a view i))) (seqZ 0 141) &&
  forallb (fun i => (slot a view i =? 0) ||
     forallb (fun j => (i =? j) || negb (slot a view i =? slot a view j)) (seqZ 0 141)) (seqZ 0 141).
Lemma file_okb_ok sb view nb a : file_okb sb view nb a = true -> file_ok sb view nb a.
Proof.
  unfold file_okb. intros [[H1%Nat.eqb_eq H2]%andb_true_iff H3]%andb_true_iff. split; [done| |].
  - intros i Hi. pose proof (forallb_seqZ _ _ _ H2 i ltac:(lia)) as H. cbn beta in H.
    apply orb_true_iff in H as [H%Z.eqb_eq|H]; [by left|right].
    rewrite !andb_true_iff, !Z.ltb_lt in H. tauto.
  - intros i j Hi Hj Hne H0 E. pose proof (forallb_seqZ _ _ _ H3 i ltac:(lia)) as H. cbn beta in H.
    apply orb_true_iff in H as [H%Z.eqb_eq|H]; [done|].
    pose proof (forallb_seqZ _ _ _ H j ltac:(lia)) as H'. cbn beta in H'.
    apply orb_true_iff in H' as [H'%Z.eqb_eq|H']; [done|]. rewrite E, Z.eqb_refl in H'. done.
Qed.
Lemma demo_ifile : ifile demo_sb demo_view (nblk (blk demo)) demo_file.
Proof.
  split; [exact demo_layout| | |  |reflexivity].
  - apply file_okb_ok. vm_compute. reflexivity.
  - cbn. unfold MAXFILE, NDIRECT, NINDIRECT. lia.
  - intros k Hk Hks. cbn [i_size demo_file] in Hks. assert (k = 0) as -> by lia. vm_compute. discriminate.
Qed.
Lemma demo_fields : fields_ok demo_file.
Proof. split; [unfold T_FILE, demo_file; cbn [i_type i_major i_minor i_nlink i_size]; unfold T_FILE; lia..|apply (bool_decide_unpack _); vm_compute; exact I|reflexivity]. Qed.
Lemma demo_on_disk : on_disk demo_view demo_file.
Proof. vm_compute. reflexivity. Qed.
Lemma demo_content : icontent demo_view demo_file = [104; 101; 108; 108; 111].
Proof. vm_compute. reflexivity. Qed.
Lemma demo_first_free : first_free demo_sb demo_view 6.
Proof.
  split; [cbn; lia|]. split; [vm_compute; reflexivity|].
  assert (forallb (used demo_sb demo_view) (seqZ 0 6) = true) as Hu by (vm_compute; reflexivity).
  intros b Hb. apply (forallb_seqZ _ _ _ Hu). lia.
Qed.
(** ** The theorems *)

Section contract.
Context {B : Type} {BS : BlockStore B} {DV : Devsw B} {BL : BlockStoreLaws B}.
Implicit Types (s : st B) (view : Z -> list Z) (lg : gset Z) (sb : superblock).

(** a full bitmap *)
Lemma balloc_full s bz view lg X k sb :
  holds true (blk s) bz ∅ view lg -> layout sb view (nblk (blk s)) -> lg ⊆ X -> room (blk s) bz X (S k) ->
  bz !! 1 = None -> bz !! bitmap sb = None -> (forall b, 0 <= b < sb_size sb -> used sb view b = true) ->
  balloc 1 s = Panic "balloc: out of blocks".
Proof.
  intros H Hl HX Hroom H1 Hbm Hfull. pose proof (bitmap_pos _ _ _ Hl) as Hb3.
  pose proof (ly_size _ _ _ Hl) as Hsz. pose proof (ly_bitmap _ _ _ Hl) as Hbl. pose proof (ly_inside _ _ _ Hl).
  assert (wp (readsb 1) (fun r s' => r = sb /\ exists b, s' = set_blk b s /\ holds true b bz ∅ view lg /\ same_store s b) s) as Hrd.
  { eapply (readsb_spec s); try done. intros b Hb Hs. split; [done|]. by exists b. }
  apply wp_done in Hrd as (r & s1 & Hrun & -> & b1 & -> & Hb1 & Hs1).
  unfold balloc. rewrite (bind_done _ _ _ _ _ Hrun).
  destruct (Z.to_nat (sb_size sb)) as [|fuel] eqn:Ef; [lia|]. cbn [loop].
  (* the first block of bits is full *)
  assert (wp (balloc_body 1 sb 0) (fun r s' => r = inl 4096) (set_blk b1 s)) as Hround.
  { unfold balloc_body. change (u32 0) with 0. destruct (Z.ltb_spec 0 (sb_size sb)); [|lia].
    change (BBLOCK 0 (sb_ninodes sb)) with (bitmap sb). wp_step.
    eapply (f_bread _ (set_blk b1 s) _ _ _ _ Hb1); [done|destruct Hs1; cbn; lia|right; eapply room_can_read; [by eapply room_same|done]|].
    intros bp b2 Hb2 Hs2. rewrite set_blk2. pose proof (lookup_insert_eq bz (bitmap sb) bp) as Hbp.
    destruct (f_view _ _ _ _ _ _ H (bitmap sb) ltac:(lia)) as [Hlen Hby].
    wp_step. eapply wp_mono.
    { apply (wp_loop _ _ _ _ (fun r s' => r = None /\ s' = set_blk b2 s) (fun bi s' => s' = set_blk b2 s /\ 0 <= bi <= 4096) (fun bi => Z.to_nat (4096 - bi))).
      - split; [done|lia].
      - unfold BPB. lia.
      - intros bi s' [-> Hbi]. unfold balloc_scan. rewrite Z.add_0_l. unfold u32, BPB. rewrite Z.mod_small by lia.
        destruct (Z.ltb_spec bi 4096) as [Hlt|]; cbn [andb]; [|by wp_step].
        destruct (Z.ltb_spec bi (sb_size sb)) as [Hlt'|]; [|by wp_step].
        wp_step. eapply (f_bdata _ (set_blk b2 s) _ _ _ _ Hb2 _ _ _ Hbp).
        destruct (bit_byte _ Hlen Hby bi ltac:(lia)) as (c & Hc & _).
        wp_step. eapply wp_deref_pure; [exact Hc|].
        rewrite mask_bit0 by (apply Z.mod_pos_bound; lia).
        assert (used sb view bi = Z.testbit c (bi mod 8)) as Eu by (unfold used, bit_of; by rewrite Hc).
        rewrite <-Eu, Hfull by lia. cbn [negb]. wp_step. split; [split; [done|lia]|lia]. }
    cbn beta. intros r s' [-> ->]. wp_step.
    eapply (f_brelse _ (set_blk b2 s) _ _ _ _ Hb2 _ _ _ Hbp); [set_solver|]. intros b3 _ _. by wp_step. }
  apply wp_done in Hround as (r & s2 & Hrun2 & ->).
  rewrite (bind_done _ _ _ _ _ Hrun2). destruct fuel as [|fuel]; [lia|]. cbn [loop].
  unfold mbind at 1, M_bind at 1, balloc_body. change (u32 4096) with 4096.
  by destruct (Z.ltb_spec 4096 (sb_size sb)); [lia|].
Qed.

(** balloc allocates the lowest-numbered free block: the block
    was free, is marked in use, is filled with zeros, and no other bit of the
    bitmap and no other block changes; bfree of that block then makes the
    bitmap what it was.  With no free block left balloc panics. *)
Theorem balloc_bfree s view lg sb :
  holds true (blk s) ∅ ∅ view lg -> layout sb view (nblk (blk s)) ->
  room (blk s) ∅ ({[bitmap sb]} ∪ lg) 1 ->
  (exists f b view' lg', balloc 1 s = Done f (set_blk b s) /\ first_free sb view f /\
     holds true b ∅ ∅ view' lg' /\ layout sb view' (nblk b) /\ view' f = bzeros /\
     (forall c, 0 <= c < 4096 -> used sb view' c = bool_decide (c = f) || used sb view c) /\
     (forall c, c <> f -> c <> bitmap sb -> view' c = view c) /\
     exists b2 view2 lg2, bfree 1 f (set_blk b s) = Done tt (set_blk b2 s) /\
       holds true b2 ∅ ∅ view2 lg2 /\ (forall c, 0 <= c < 4096 -> used sb view2 c = used sb view c) /\
       (forall c, c <> f -> c <> bitmap sb -> view2 c = view c)) \/
  ((forall c, 0 <= c < sb_size sb -> used sb view c = true) /\ balloc 1 s = Panic "balloc: out of blocks").
Proof.
  intros H Hl Hroom. destruct (decide (base.size (frees sb view) = 0%nat)) as [E|E].
  { right. assert (forall c, 0 <= c < sb_size sb -> used sb view c = true) as Hfull.
    { intros c Hc. destruct (used sb view c) eqn:Eu; [done|]. apply size_empty_inv in E.
      destruct (E c) as [E1 _]. assert (c ∈ frees sb view) as Hin by (by apply elem_of_frees). set_solver. }
    split; [done|]. by eapply (balloc_full s ∅ view lg ({[bitmap sb]} ∪ lg) 0); try done; set_solver. }
  left. destruct (frees_first sb view ltac:(lia)) as [f Hf].
  pose proof (bitmap_pos _ _ _ Hl) as Hb3. pose proof (ly_size _ _ _ Hl) as Hsz.
  destruct (free_range _ _ _ _ Hl Hf) as (Hfr & Hfs & Hfu).
  pose proof (f_view _ _ _ _ _ _ H (bitmap sb) ltac:(lia)) as Hbytes.
  assert (wp (balloc 1) (fun r s' => r = f /\ exists b, s' = set_blk b s /\ same_store s b /\
    holds true b ∅ ∅ (balloced sb view f) ({[f]} ∪ ({[bitmap sb]} ∪ lg))) s) as Hw.
  { eapply (balloc_spec s ∅ view lg ({[bitmap sb]} ∪ lg) 0 sb f); try done; [set_solver|set_solver|].
    intros b Hb Hs. split; [done|]. by exists b. }
  apply wp_done in Hw as (r & s1 & Hrun & -> & b & -> & Hs & Hb). pose proof Hs as [En Ec].
  assert (layout sb (balloced sb view f) (nblk b)) as Hl' by (rewrite En; by apply balloced_layout).
  assert (forall c, 0 <= c < 4096 -> used sb (balloced sb view f) c = bool_decide (c = f) || used sb view c) as Hu.
  { intros c Hc. by apply (used_balloced _ _ (nblk (blk s))). }
  exists f, b, (balloced sb view f), ({[f]} ∪ ({[bitmap sb]} ∪ lg)).
  split; [done|]. split; [done|]. split; [done|]. split; [done|]. split; [apply balloced_new|].
  split; [done|]. split; [intros c H1 H2; by apply balloced_other|].
  assert (wp (bfree 1 f) (fun _ s' => exists b2, s' = set_blk b2 s /\
    holds true b2 ∅ ∅ (Bio.vupd (balloced sb view f) (bitmap sb) (clear_bit (balloced sb view f (bitmap sb)) f))
      ({[bitmap sb]} ∪ ({[f]} ∪ ({[bitmap sb]} ∪ lg)))) (set_blk b s)) as Hw.
  { eapply (bfree_spec (set_blk b s) ∅ _ _ ({[f]} ∪ ({[bitmap sb]} ∪ lg)) 0 sb f); try done.
    - cbn. lia.
    - rewrite Hu by lia. by rewrite bool_decide_true.
    - set_solver.
    - cbn. eapply room_same; [|exact Hs]. by apply room_use.
    - intros b2 Hb2 _. by exists b2. }
  apply wp_done in Hw as ([] & s2 & Hrun2 & b2 & -> & Hb2).
  eexists b2, _, _. split; [exact Hrun2|]. split; [exact Hb2|]. split.
  - intros c Hc. unfold used. rewrite Bio.vupd_eq.
    destruct (bs_view _ _ _ _ _ _ (bitmap sb) Hb ltac:(lia)) as [Hl2 Hy2].
    rewrite clear_bit_spec by (done || lia).
    change (bit_of (balloced sb view f (bitmap sb)) c) with (used sb (balloced sb view f) c). rewrite Hu by done.
    change (bit_of (view (bitmap sb)) c) with (used sb view c).
    case_bool_decide as Ecf; [subst; by rewrite Hfu|done].
  - intros c H1 H2. rewrite Bio.vupd_ne by done. by apply balloced_other.
Qed.
End contract.

Lemma demo_room k : (k <= 7)%nat -> room (blk demo) ∅ ({[bitmap demo_sb]} ∪ ∅) k.
Proof.
  intros Hk. change (bitmap demo_sb) with 3. unfold room. rewrite union_empty_r_L, dom_empty_L, union_empty_l_L, size_singleton.
  change (cap (blk demo)) with 9. lia.
Qed.
Lemma balloc_bfree_witness :
  exists b, balloc 1 demo = Done 6 (set_blk b demo).
Proof.
  destruct (balloc_bfree demo demo_view ∅ demo_sb demo_holds demo_layout (demo_room 1 ltac:(lia)))
    as [(f & b & view' & lg' & Hrun & Hf & _)|[Hfull _]].
  - exists b. assert (f = 6) as <-; [|exact Hrun].
    destruct Hf as (H1 & H2 & H3). destruct demo_first_free as (G1 & G2 & G3).
    destruct (Z.lt_trichotomy f 6) as [Hlt|[E|Hgt]]; [|exact E|].
    + rewrite (G3 f) in H2 by lia. discriminate.
    + rewrite (H3 6) in G2 by lia. discriminate.
  - exfalso. destruct demo_first_free as (G1 & G2 & _). rewrite (Hfull 6 G1) in G2. discriminate.
Defined.

Section contents.
Context {B : Type} {BS : BlockStore B} {DV : Devsw B} {BL : BlockStoreLaws B}.
Implicit Types (s : st B) (view : Z -> list Z) (lg : gset Z) (sb : superblock) (n : inode).

(** C34: readi of a file returns -1 past the end of the file or on
    a 32-bit overflow of offset plus count, and otherwise exactly the bytes of
    the file from the offset on, as many as were asked for or as there are.
    It changes neither the file nor any block, in or out of a transaction. *)
Theorem readi_correct a s view lg sb n ip off m :
  holds a (blk s) ∅ ∅ view lg -> ifile sb view (nblk (blk s)) n -> at_ (inodes s) ip = Some n ->
  i_type n <> T_DEV -> (base.size lg < 10)%nat -> 0 <= off < 2 ^ 32 -> 0 <= m < 2 ^ 32 ->
  exists b, readi ip off m s = Done (readi_result (icontent view n) off m) (set_blk b s) /\
    holds a b ∅ ∅ view lg.
Proof.
  intros H Hi Hip Hty Hsz Hoff Hm.
  pose proof (readi_spec a s view lg sb n ip off m H Hi Hip Hty Hsz Hoff Hm) as Hw.
  apply wp_done in Hw as (r & s' & Hrun & -> & b & -> & Hb & _). by exists b.
Qed.

(** C2: writei of a file or directory (no device).  When the offset is not past the end and the bytes fit the
    file's maximum size, with room in the transaction for the blocks it touches and blocks free on the disk, it returns
    the count and leaves the file with the bytes written at the offset, the rest as it was, the size grown if need be,
    and the inode on disk up to date; new blocks are allocated on the way, through the indirect block if need be.
    Every other inode and every file that shares no block with it keep their contents, and the transaction can still be
    committed.  A writei past the end of the file or past the maximum size returns -1 and changes nothing, whatever
    room and free blocks there are, and for any count below 2^32: one whose sum with the offset wraps around too. *)
Theorem writei_correct s view lg sb n ip off m src :
  holds true (blk s) ∅ ∅ view lg -> ifile sb view (nblk (blk s)) n -> at_ (inodes s) ip = Some n ->
  i_type n <> T_DEV -> ino_ok sb n -> fields_ok n -> on_disk view n ->
  0 <= off < 2 ^ 32 -> 0 <= m < 2 ^ 32 ->
  (off <= i_size n -> off + m <= MAXFILE * 512 -> m <= Z.of_nat (length src) -> bytes_ok src ->
   room (blk s) ∅ ({[bitmap sb]} ∪ ({[IBLOCK (i_inum n)]} ∪ lg)) (S (rounds off m 0)) ->
   (2 * rounds off m 0 <= base.size (frees sb view))%nat ->
   exists b n' view' lg', writei ip src off m s = Done m (ipst s b ip n') /\
     writei_done s sb view n off m src b n' view' lg') /\
  (i_size n < off \/ MAXFILE * 512 < off + m -> writei ip src off m s = Done (-1) s).
Proof.
  intros H Hf Hip Hty Hino Hfields Hdisk Hoff Hm. split.
  - intros H1 H2 Hsrc Hby Hroom Hfree.
    pose proof (writei_spec s sb view lg ({[bitmap sb]} ∪ ({[IBLOCK (i_inum n)]} ∪ lg)) n ip off m src
      H Hf Hip Hty Hino Hfields Hdisk ltac:(lia) ltac:(lia) H2 Hby ltac:(set_solver) Hroom Hfree) as Hw.
    apply wp_done in Hw as (r & s' & Hrun & -> & b & n' & view' & lg' & -> & Hd). by exists b, n', view', lg'.
  - intros Hc. eapply writei_fail; try done. destruct Hc as [Hc|Hc]; [by left|right]. unfold MAXFILE, NDIRECT, NINDIRECT in *.
    unfold u32. destruct (Z.ltb_spec (off + m) (2 ^ 32)) as [Hlt|Hge].
    + rewrite Z.mod_small by lia. tauto.
    + rewrite <-(Z.mod_unique (off + m) (2 ^ 32) 1 (off + m - 2 ^ 32)) by lia. lia.
Qed.

(** what iupdate stores is what ilock loads: after
    iupdate of inode [n], ilock of a cache entry that was just recycled for
    the same inode number fills it with the type, numbers, link count, size
    and block addresses of [n] and marks it locked and valid; the disk copy of
    every other inode, in the same block too, is unchanged. *)
Theorem ilock_iupdate_roundtrip s view lg sb n ip :
  holds true (blk s) ∅ ∅ view lg -> layout sb view (nblk (blk s)) -> at_ (inodes s) ip = Some n ->
  i_dev n = 1 -> ino_ok sb n -> fields_ok n -> i_type n <> 0 ->
  room (blk s) ∅ ({[IBLOCK (i_inum n)]} ∪ lg) 0 ->
  exists b view', iupdate ip s = Done tt (set_blk b s) /\
    holds true b ∅ ∅ view' ({[IBLOCK (i_inum n)]} ∪ lg) /\
    (forall i ip', 0 <= i -> i <> i_inum n -> dinode_of view' i ip' = dinode_of view i ip') /\
    forall a s2 lg2 jp x, holds a (blk s2) ∅ ∅ view' lg2 -> nblk (blk s2) = nblk b -> (base.size lg2 < 10)%nat ->
      lock s2 = false -> at_ (inodes s2) jp = Some x -> i_dev x = 1 -> i_inum x = i_inum n ->
      1 <= i_ref x -> i_flags x = 0 ->
      exists b2, ilock jp s2 = Done tt (ipst s2 b2 jp (valid (busy (loaded n x)))) /\ holds a b2 ∅ ∅ view' lg2.
Proof.
  intros H Hl Hip Hdev Hino Hfields Hty Hroom. destruct (iblock_range _ _ _ _ Hl Hino) as [Hi1 Hi2].
  pose proof (ly_bitmap _ _ _ Hl) as Hbl.
  assert (length (view (IBLOCK (i_inum n))) = 512%nat) as Hvl by (apply (f_view _ _ _ _ _ _ H); lia).
  assert (wp (iupdate ip) (fun _ s' => exists b, s' = set_blk b s /\ same_store s b /\
    holds true b ∅ ∅ (iupdated view n) ({[IBLOCK (i_inum n)]} ∪ lg)) s) as Hw.
  { eapply (iupdate_spec s view lg ({[IBLOCK (i_inum n)]} ∪ lg) 0 sb n ip); try done; [apply (fk_len _ Hfields)|set_solver|set_solver|].
    intros b Hb Hs. by exists b. }
  apply wp_done in Hw as ([] & s' & Hrun & b & -> & [En Ec] & Hb). exists b, (iupdated view n).
  split; [done|]. split; [done|]. split.
  { intros i ip' Hi Hne. unfold ino_ok in Hino. apply iupdated_other; try done; [apply (fk_len _ Hfields)|lia]. }
  intros a s2 lg2 jp x H2 En2 Hsz Hlk Hx Hxd Hxi Hxr Hxf.
  pose proof (iupdated_on_disk view n Hvl Hfields) as Hd. unfold on_disk in Hd. rewrite <-Hxi in Hd.
  destruct (dinode_of_loaded _ _ _ _ Hd) as [_ Hd']. specialize (Hd' x).
  assert (wp (ilock jp) (fun _ s' => exists b2, s' = ipst s2 b2 jp (valid (busy (loaded n x))) /\
    holds a b2 ∅ ∅ (iupdated view n) lg2) s2) as Hw.
  { eapply (ilock_load a s2 (iupdated view n) lg2 sb jp x); try done; try (by rewrite Hxf).
    - rewrite En2, En. eapply layout_ext; [exact Hl|unfold iupdated; apply Bio.vupd_ne; lia..].
    - unfold ino_ok. by rewrite Hxi.
    - intros b2 Hb2 _. exists b2. split; [|done]. by destruct n. }
  apply wp_done in Hw as ([] & s' & Hrun2 & b2 & -> & Hb2). by exists b2.
Qed.

(** the inode cache never holds an inode twice.  iget takes
    another reference to the entry in use for that inode; if there is none it
    takes over a free entry, with one reference and nothing valid or locked;
    and it panics exactly when neither exists. *)
Theorem iget_correct s d inum : icache_ok s ->
  iget_post s d inum (iget d inum s) /\
  forall ip s', iget d inum s = Done ip s' -> icache_ok s' /\ exists x, at_ (inodes s') ip = Some x /\
    i_dev x = d /\ i_inum x = inum /\ 1 <= i_ref x.
Proof.
  intros Hs. pose proof (iget_spec s d inum Hs) as Hp. split; [done|]. intros ip s' Hrun. rewrite Hrun in Hp.
  destruct Hp as [(i & x & Hx & He & [= -> ->])|[(Hno & i & x & Hx & Hr & [= -> ->])|[_ ?]]]; [| |done].
  - unfold is_entry in He. apply andb_true_iff in He as [[H1%Z.ltb_lt H2%Z.eqb_eq]%andb_true_iff H3%Z.eqb_eq].
    split; [eapply icache_ok_upd; try done; cbn; lia|]. eexists. split; [by eapply ipst_at|]. cbn. split_and!; try done. lia.
  - split; [by apply icache_ok_fresh|]. eexists. split; [by eapply ipst_at|]. cbn. split_and!; try done.
Qed.

(** C3: iput of the last reference to an inode with no links frees
    the file: exactly its blocks (direct, indirect and those the indirect block
    lists) become free, the inode on disk gets type 0 and loses its blocks and
    size, every other block and inode stays as it was, and the entry is
    unlocked, free, and its waiters woken.  Any other iput just drops a
    reference. *)
Theorem iput_correct s view lg sb n ip :
  holds true (blk s) ∅ ∅ view lg -> layout sb view (nblk (blk s)) -> file_ok sb view (nblk (blk s)) (i_addrs n) ->
  i_dev n = 1 -> ino_ok sb n -> fields_ok n -> lock s = false -> at_ (inodes s) ip = Some n ->
  1 <= i_ref n -> has (i_flags n) I_BUSY = false ->
  room (blk s) ∅ ({[bitmap sb]} ∪ ({[IBLOCK (i_inum n)]} ∪ lg)) 1 ->
  if (i_ref n =? 1) && has (i_flags n) I_VALID && (i_nlink n =? 0)
  then exists b view' lg', iput ip s = Done tt (St b false (put (inodes s) ip (dropped n)) (cwd s) (wakes s ++ [ch_inode ip])) /\
    holds true b ∅ ∅ view' lg' /\
    (forall c, 0 <= c < 4096 -> used sb view' c = true <->
       used sb view c = true /\ ~ (c <> 0 /\ exists j, 0 <= j < 141 /\ slot (i_addrs n) view j = c)) /\
    (forall x, dinode_of view' (i_inum n) x = Some (loaded (unlinked n) x)) /\
    (forall i x, 0 <= i < sb_ninodes sb -> i <> i_inum n -> dinode_of view' i x = dinode_of view i x) /\
    (forall c, c <> bitmap sb -> c <> IBLOCK (i_inum n) -> view' c = view c)
  else iput ip s = Done tt (ipst s (blk s) ip (set_ref (i_ref n - 1) n)).
Proof.
  intros H Hl Hf Hdev Hino Hfields Hlk Hip Href Hb Hroom. destruct (_ && _) eqn:Ec; [|by apply iput_keep].
  apply andb_true_iff in Ec as [[E1%Z.eqb_eq E2]%andb_true_iff E3%Z.eqb_eq].
  pose proof (iput_free s sb view lg ({[bitmap sb]} ∪ ({[IBLOCK (i_inum n)]} ∪ lg)) n ip H Hl Hf Hdev Hino Hlk Hip ltac:(done) ltac:(set_solver) Hroom) as Hw.
  apply wp_done in Hw as ([] & s' & Hrun & b & view' & lg' & L & -> & Hb' & [En _] & _ & [HF1 HF2] & HL).
  destruct (iblock_range _ _ _ _ Hl Hino) as [Hi1 Hi2]. pose proof (ly_bitmap _ _ _ Hl) as Hbl.
  set (e := emptied (busy n)) in *. set (u := unlinked n) in *.
  assert (i_inum e = i_inum n /\ i_inum u = i_inum n) as [Ee Eu] by done.
  pose proof (emptied_fields n Hfields) as Hfu. fold u in Hfu.
  assert (length (view' (IBLOCK (i_inum n))) = 512%nat) as Hvl.
  { rewrite HF1 by lia. apply (f_view _ _ _ _ _ _ H). lia. }
  assert (length (iupdated view' e (IBLOCK (i_inum n))) = 512%nat) as Hvl2.
  { unfold iupdated. rewrite Ee, Bio.vupd_eq. destruct (ioff_range (i_inum n)) as (O1 & O2 & _).
    rewrite length_blit; rewrite ?(length_enc e) by done; lia. }
  unfold ino_ok in Hino.
  exists b, (iupdated (iupdated view' e) u), lg'. split; [exact Hrun|]. split; [exact Hb'|].
  assert (forall c, c <> IBLOCK (i_inum n) -> iupdated (iupdated view' e) u c = view' c) as Hother.
  { intros c Hc. unfold iupdated. by rewrite !Bio.vupd_ne by (rewrite ?Ee, ?Eu; done). }
  split_and!.
  - intros c Hc. assert (used sb (iupdated (iupdated view' e) u) c = used sb view' c) as ->.
    { unfold used. by rewrite Hother by lia. }
    rewrite HF2, andb_true_iff, negb_true_iff, bool_decide_eq_false, HL by done. done.
  - intros x. pose proof (iupdated_on_disk (iupdated view' e) u Hvl2 Hfu) as Hd. unfold on_disk in Hd.
    destruct (dinode_of_loaded _ _ _ _ Hd) as [_ Hd']. apply Hd'.
  - intros i x Hi Hne. rewrite (iupdated_other (iupdated view' e) u) by (done || lia).
    rewrite (iupdated_other view' e) by (done || lia). unfold dinode_of.
    destruct (iblock_range _ _ _ _ Hl Hi) as [_ Hib]. by rewrite HF1 by lia.
  - intros c H1 H2. rewrite Hother by done. by apply HF1.
Qed.
End contents.

Lemma readi_correct_witness :
  exists b, readi 1 1 10 demo = Done (4, [101; 108; 108; 111]) (set_blk b demo).
Proof.
  destruct (readi_correct true demo demo_view ∅ demo_sb demo_file 1 1 10 demo_holds demo_ifile) as (b & Hrun & _).
  - reflexivity.
  - discriminate.
  - rewrite size_empty. lia.
  - lia.
  - lia.
  - exists b. rewrite Hrun. rewrite demo_content. vm_compute. reflexivity.
Defined.

Lemma demo_room2 k : (k <= 6)%nat -> room (blk demo) ∅ ({[bitmap demo_sb]} ∪ ({[IBLOCK (i_inum demo_file)]} ∪ ∅)) k.
Proof.
  intros Hk. change (bitmap demo_sb) with 3. change (IBLOCK (i_inum demo_file)) with 2.
  unfold room. rewrite union_empty_r_L, dom_empty_L, union_empty_l_L, size_union by set_solver. rewrite !size_singleton.
  change (cap (blk demo)) with 9. lia.
Qed.
Lemma demo_frees : (2 <= base.size (frees demo_sb demo_view))%nat.
Proof.
  assert ({[6; 7]} ⊆ frees demo_sb demo_view) as Hs.
  { intros x Hx. apply elem_of_union in Hx as [->%elem_of_singleton| ->%elem_of_singleton];
      apply elem_of_frees; (split; [cbn; lia|vm_compute; reflexivity]). }
  apply subseteq_size in Hs. rewrite size_union, !size_singleton in Hs by set_solver. exact Hs.
Qed.

(** the file "hello", with "LP!" written at offset 3, is "helLP!"; a count that wraps the offset around is refused *)
Lemma writei_correct_witness :
  (exists b n' view', writei 1 [76; 80; 33] 3 3 demo = Done 3 (ipst demo b 1 n') /\
    icontent view' n' = [104; 101; 108; 76; 80; 33]) /\
  writei 1 [76; 80; 33] 3 0xFFFFFFFF demo = Done (-1) demo.
Proof.
  assert (bytes_ok [76; 80; 33]) as Hby by (apply (bool_decide_unpack _); vm_compute; exact I).
  assert (rounds 3 3 0 = 1%nat) as Er by reflexivity. split.
  - destruct (proj1 (writei_correct demo demo_view ∅ demo_sb demo_file 1 3 3 [76; 80; 33] demo_holds demo_ifile
      eq_refl ltac:(discriminate) ltac:(unfold ino_ok; cbn; lia) demo_fields demo_on_disk ltac:(lia) ltac:(lia))
      ltac:(cbn; lia) ltac:(unfold MAXFILE, NDIRECT, NINDIRECT; cbn; lia) ltac:(cbn; lia) Hby) as (b & n' & view' & lg' & Hrun & Hd).
    + rewrite Er. apply demo_room2. lia.
    + rewrite Er. exact demo_frees.
    + exists b, n', view'. split; [exact Hrun|]. destruct Hd as [_ _ _ _ _ _ _ _ Hc _ _].
      rewrite Hc, demo_content. vm_compute. reflexivity.
  - apply (proj2 (writei_correct demo demo_view ∅ demo_sb demo_file 1 3 0xFFFFFFFF [76; 80; 33] demo_holds demo_ifile
      eq_refl ltac:(discriminate) ltac:(unfold ino_ok; cbn; lia) demo_fields demo_on_disk ltac:(lia) ltac:(lia))).
    right. reflexivity.
Defined.

Lemma demo_room1 : room (blk demo) ∅ ({[IBLOCK (i_inum demo_file)]} ∪ ∅) 0.
Proof.
  change (IBLOCK (i_inum demo_file)) with 2. unfold room.
  rewrite union_empty_r_L, dom_empty_L, union_empty_l_L, size_singleton. change (cap (blk demo)) with 9. lia.
Qed.
Lemma ilock_iupdate_roundtrip_witness :
  exists b, iupdate 1 demo = Done tt (set_blk b demo).
Proof.
  destruct (ilock_iupdate_roundtrip demo demo_view ∅ demo_sb demo_file 1 demo_holds demo_layout
    eq_refl eq_refl ltac:(unfold ino_ok; cbn; lia) demo_fields ltac:(discriminate) demo_room1) as (b & view' & Hrun & _).
  exists b. exact Hrun.
Defined.

Lemma demo_icache : icache_ok demo.
Proof.
  assert (forall i x, at_ (inodes demo) i = Some x -> i = 0 /\ x = demo_dir \/ i = 1 /\ x = demo_file \/ x = free_inode) as Hall.
  { intros i x Hx. unfold at_ in Hx. destruct (Z.leb_spec 0 i) as [Hi|]; [|discriminate].
    change (inodes demo) with (demo_dir :: demo_file :: replicate 48 free_inode) in Hx.
    destruct (Z.to_nat i) as [|[|k]] eqn:E.
    - left. injection Hx as <-. split; [lia|reflexivity].
    - right. left. injection Hx as <-. split; [lia|reflexivity].
    - right. right. by apply lookup_replicate_1 in Hx as [-> _]. }
  split; [reflexivity|reflexivity| |].
  - intros i x Hx. destruct (Hall i x Hx) as [[_ ->]|[[_ ->]| ->]]; cbn; lia.
  - intros i j x y Hx Hy Hxr Hyr _ He.
    destruct (Hall i x Hx) as [[-> ->]|[[-> ->]| ->]]; [| |cbn in Hxr; lia];
      destruct (Hall j y Hy) as [[-> ->]|[[-> ->]| ->]]; try reflexivity; try (cbn in Hyr; lia); discriminate.
Qed.
Lemma iget_correct_witness : iget_post demo 1 2 (iget 1 2 demo) /\ icache_ok demo.
Proof. split; [exact (proj1 (iget_correct demo 1 2 demo_icache))|exact demo_icache]. Defined.

(** the same disk, its file no longer linked, locked or otherwise referred to *)
Definition demo_gone : inode := Inode 1 2 1 2 T_FILE 0 0 0 5 (pad 13 [5]).
Definition demo2 : st Log.st := St demo_store false ([demo_dir; demo_gone] ++ replicate 48 free_inode) 0 [].
Lemma demo_gone_fields : fields_ok demo_gone.
Proof.
  split; [unfold demo_gone; cbn [i_type i_major i_minor i_nlink i_size]; unfold T_FILE; lia..
         |apply (bool_decide_unpack _); vm_compute; exact I|reflexivity].
Qed.
Lemma iput_correct_witness :
  exists b view', iput 1 demo2 = Done tt (St b false (put (inodes demo2) 1 (dropped demo_gone)) 0 [ch_inode 1]) /\
    used demo_sb view' 5 = false.
Proof.
  destruct (iput_correct demo2 demo_view ∅ demo_sb demo_gone 1 demo_holds demo_layout
    (if_file _ _ _ _ demo_ifile) eq_refl ltac:(unfold ino_ok; cbn; lia) demo_gone_fields eq_refl eq_refl
    ltac:(cbn; lia) eq_refl (demo_room2 1 ltac:(lia))) as (b & view' & lg' & Hrun & _ & Hu & _).
  exists b, view'. split; [exact Hrun|].
  destruct (used demo_sb view' 5) eqn:E; [|reflexivity]. exfalso.
  apply (Hu 5 ltac:(lia)) in E as [_ E]. apply E. split; [discriminate|]. exists 0. split; [lia|]. vm_compute. reflexivity.
Defined.

End FsSpec.
