(* ===== verification/Spin.v ===== *)
(** * Interrupt nesting and spinlocks (src/src/arm.c, src/src/spinlock.c)

    pushcli()/popcli() over the DAIF word and the fields of the [struct cpu]
    the one pointer [cpu] of main.c points to, and initlock/acquire/release/
    holding over a lock word.  The kernel runs on one processor: [acquire] is
    the code there with its interrupts off, where a lock that is held is never
    released; [kstep] lets interrupts come in between the steps of acquire()
    and release() wherever the mask lets them.  The lock of the other
    components (a boolean in their state, [Prelude.acquire]) is shown to be
    what the spinlock is. *)

From S2P Require Import Prelude.

Module Spin.

(** ** arm.c *)

Definition DIS_INT : Z := 0x80.

(** the fields of struct cpu the code uses, behind the pointer [cpu], and the DAIF word *)
Record cpu := Cpu {
  ncli : Z;     (* depth of pushcli nesting *)
  intena : Z;   (* were interrupts enabled before pushcli? *)
  daif : Z;
}.

(** MSR DAIFSET, #2 and MSR DAIFCLR, #2: bit 7 masks the IRQs *)
Definition cli : M cpu unit :=
  modify (fun c => Cpu (ncli c) (intena c) (Z.lor (daif c) DIS_INT)).
Definition sti : M cpu unit :=
  modify (fun c => Cpu (ncli c) (intena c) (Z.ldiff (daif c) DIS_INT)).
Definition int_enabled : M cpu Z :=
  gets (fun c => b2z (Z.land (daif c) DIS_INT =? 0)).

(** pushcli() once it has read the mask *)
Definition pushcli_off (enabled : Z) : M cpu unit :=
  cli ;;
  n ← gets ncli;
  n' ← c_int (n + 1);
  modify (fun c => Cpu n' (intena c) (daif c)) ;;
  when (n =? 0) (modify (fun c => Cpu (ncli c) enabled (daif c))).
Definition pushcli : M cpu unit :=
  enabled ← int_enabled;
  pushcli_off enabled.

Definition popcli : M cpu unit :=
  e ← int_enabled;
  panic_if (negb (e =? 0)) "popcli - interruptible" ;;
  n ← gets ncli;
  n' ← c_int (n - 1);
  modify (fun c => Cpu n' (intena c) (daif c)) ;;
  panic_if (n' <? 0) "popcli -- ncli < 0" ;;
  c ← get;
  when ((ncli c =? 0) && negb (intena c =? 0)) sti.

(** ** spinlock.c *)

(** struct spinlock: [lcpu] is a pointer into cpus[], by its index, or null *)
Record spinlock := MkLock {
  locked : Z;
  name : string;
  lcpu : option nat;
}.

(** the two stores and the read-modify-write the code makes of a lock *)
Definition set_locked (v : Z) (k : spinlock) : spinlock := MkLock v (name k) (lcpu k).
Definition set_lcpu (o : option nat) (k : spinlock) : spinlock := MkLock (locked k) (name k) o.
(** [lk->locked && lk->cpu == cpu] where the pointer [cpu] is [&cpus[me]] *)
Definition held_by (me : nat) (k : spinlock) : bool :=
  negb (locked k =? 0) && bool_decide (lcpu k = Some me).

Section lock.
  Context {S : Type} (C : lens S cpu) (L : lens S spinlock) (me : nat).

Definition initlock (nm : string) : M S unit := modify (lset L (MkLock 0 nm None)).

(** __atomic_test_and_set: the old value, as a truth value *)
Definition test_and_set : M S Z := fun s =>
  Done (b2z (negb (locked (lget L s) =? 0))) (lset L (set_locked 1 (lget L s)) s).

(** the while loop of acquire(): the word it waits for is written by other
    processors only, so on one processor a taken lock is waited for forever *)
Definition spin : M S unit :=
  t ← test_and_set;
  if t =? 0 then mret tt else (fun _ => Deadlock).

Definition acquire : M S unit :=
  zoom C pushcli ;;
  spin ;;
  modify (fun s => lset L (set_lcpu (Some me) (lget L s)) s).

Definition holding : M S Z := gets (fun s => b2z (held_by me (lget L s))).

Definition release : M S unit :=
  h ← holding;
  panic_if (h =? 0) "release" ;;
  modify (fun s => lset L (set_lcpu None (lget L s)) s) ;;
  modify (fun s => lset L (set_locked 0 (lget L s)) s) ;;
  zoom C popcli.
End lock.

(** ** One processor *)

Definition masked (c : cpu) : bool := Z.testbit (daif c) 7.
Definition cpu_ok (c : cpu) : Prop :=
  0 <= ncli c < 2 ^ 31 - 1 /\ (0 < ncli c -> masked c = true).

Lemma dis_int_spec d : (Z.land d DIS_INT =? 0) = negb (Z.testbit d 7).
Proof.
  unfold DIS_INT. change 0x80 with (Z.shiftl 1 7). destruct (Z.testbit d 7) eqn:E; cbn [negb].
  - apply Z.eqb_neq. intros H. assert (Z.testbit (Z.land d (Z.shiftl 1 7)) 7 = false) as H' by (by rewrite H, Z.bits_0).
    rewrite Z.land_spec, E in H'. done.
  - apply Z.eqb_eq. apply Z.bits_inj'. intros n Hn. rewrite Z.land_spec, Z.bits_0.
    rewrite Z.shiftl_1_l, Z.pow2_bits_eqb by lia. destruct (Z.eqb_spec 7 n) as [<-|]; [by rewrite E|].
    apply andb_false_r.
Qed.
Lemma mask_lor d : Z.testbit (Z.lor d DIS_INT) 7 = true.
Proof. rewrite Z.lor_spec. change (Z.testbit DIS_INT 7) with true. apply orb_true_r. Qed.
Lemma mask_ldiff d : Z.testbit d 7 = false -> Z.ldiff (Z.lor d DIS_INT) DIS_INT = d.
Proof.
  intros E. apply Z.bits_inj'. intros n Hn. rewrite Z.ldiff_spec, Z.lor_spec. unfold DIS_INT.
  change 0x80 with (2 ^ 7). rewrite Z.pow2_bits_eqb by lia. destruct (Z.eqb_spec 7 n) as [<-|].
  - by rewrite E.
  - by rewrite orb_false_r, andb_true_r.
Qed.
Lemma mask_idem d : Z.testbit d 7 = true -> Z.lor d DIS_INT = d.
Proof.
  intros E. apply Z.bits_inj'. intros n Hn. rewrite Z.lor_spec. unfold DIS_INT.
  change 0x80 with (2 ^ 7). rewrite Z.pow2_bits_eqb by lia. destruct (Z.eqb_spec 7 n) as [<-|].
  - by rewrite E.
  - by rewrite orb_false_r.
Qed.

(** what pushcli does: one level deeper, interrupts off, and on the outermost
    level whether they were on *)
Definition pushed (c : cpu) : cpu :=
  Cpu (ncli c + 1) (if ncli c =? 0 then b2z (negb (masked c)) else intena c) (Z.lor (daif c) DIS_INT).
Definition popped (c : cpu) : cpu :=
  Cpu (ncli c - 1) (intena c)
    (if (ncli c =? 1) && negb (intena c =? 0) then Z.ldiff (daif c) DIS_INT else daif c).

Lemma pushcli_spec c : - 2 ^ 31 <= ncli c < 2 ^ 31 - 1 -> pushcli c = Done tt (pushed c).
Proof.
  intros Hn. unfold pushcli, pushcli_off, int_enabled, cli, mbind, M_bind, gets, modify, c_int, when. cbn [ncli daif intena].
  destruct (Z.leb_spec (- 2 ^ 31) (ncli c + 1)); [|lia]. destruct (Z.ltb_spec (ncli c + 1) (2 ^ 31)); [|lia].
  rewrite dis_int_spec. cbn [andb mret M_ret]. unfold pushed, masked.
  by destruct (Z.eqb_spec (ncli c) 0).
Qed.
Lemma popcli_spec c : 1 <= ncli c < 2 ^ 31 -> masked c = true -> popcli c = Done tt (popped c).
Proof.
  intros Hn Hm. unfold popcli, int_enabled, mbind, M_bind, gets, modify, c_int, when, panic_if, get.
  rewrite dis_int_spec. unfold masked in Hm. rewrite Hm. cbn [negb b2z Z.eqb mret M_ret].
  destruct (Z.leb_spec (- 2 ^ 31) (ncli c - 1)); [|lia]. destruct (Z.ltb_spec (ncli c - 1) (2 ^ 31)); [|lia].
  cbn [andb mret M_ret ncli daif intena]. destruct (Z.ltb_spec (ncli c - 1) 0); [lia|]. cbn [mret M_ret ncli daif intena].
  unfold popped, sti, modify. cbn [ncli daif intena].
  destruct (Z.eqb_spec (ncli c - 1) 0), (Z.eqb_spec (ncli c) 1); try lia; cbn [andb];
    by destruct (negb (intena c =? 0)).
Qed.

Lemma pushed_ok c : cpu_ok c -> masked (pushed c) = true /\ ncli (pushed c) = ncli c + 1.
Proof. intros _. split; [apply mask_lor|done]. Qed.

(** the processor after a balanced pair: only [intena], whose value matters
    while the nesting is positive, can differ *)
Definition same_cpu (c c' : cpu) : Prop :=
  ncli c' = ncli c /\ daif c' = daif c /\ (0 < ncli c -> intena c' = intena c).

Lemma popped_pushed c : cpu_ok c -> same_cpu c (popped (pushed c)).
Proof.
  intros [Hn Hm]. unfold same_cpu, popped, pushed. cbn [ncli intena daif].
  split; [lia|]. destruct (Z.eqb_spec (ncli c) 0) as [E|E].
  - rewrite E. cbn [Z.add Z.eqb andb]. split; [|lia]. change (0 + 1 =? 1) with true. cbn [andb].
    unfold masked. destruct (Z.testbit (daif c) 7) eqn:Ed; cbn [negb b2z Z.eqb].
    + by apply mask_idem.
    + by apply mask_ldiff.
  - destruct (Z.eqb_spec (ncli c + 1) 1); [lia|]. cbn [andb]. split; [|done].
    apply mask_idem, Hm. lia.
Qed.

(** Two locations of a state that do not overlap. *)
Class Disjoint2 {S A B} (X : lens S A) (Y : lens S B) : Prop := {
  dj_get_l : forall b s, lget X (lset Y b s) = lget X s;
  dj_get_r : forall a s, lget Y (lset X a s) = lget Y s;
  dj_swap : forall a b s, lset X a (lset Y b s) = lset Y b (lset X a s);
}.

Section uni.
  Context {S : Type} (C : lens S cpu) (L : lens S spinlock) (me : nat).
  Context {HC : LensLaws C} {HL : LensLaws L} {HD : Disjoint2 C L}.

Lemma acquire_free s : - 2 ^ 31 <= ncli (lget C s) < 2 ^ 31 - 1 -> locked (lget L s) = 0 ->
    acquire C L me s = Done tt (lset L (MkLock 1 (name (lget L s)) (Some me)) (lset C (pushed (lget C s)) s)).
Proof.
  intros Hn Hl. unfold acquire, spin, test_and_set, zoom, mbind, M_bind, modify. rewrite pushcli_spec by done.
  rewrite dj_get_r, Hl. cbn [Z.eqb negb b2z mret M_ret]. rewrite lens_get_set, lens_set_set. done.
Qed.

Lemma acquire_taken s : - 2 ^ 31 <= ncli (lget C s) < 2 ^ 31 - 1 -> locked (lget L s) <> 0 ->
    acquire C L me s = Deadlock.
Proof.
  intros Hn Hl. unfold acquire, spin, test_and_set, zoom, mbind, M_bind. rewrite pushcli_spec by done.
  rewrite dj_get_r. destruct (Z.eqb_spec (locked (lget L s)) 0); done.
Qed.

Lemma release_held s : 1 <= ncli (lget C s) < 2 ^ 31 -> masked (lget C s) = true ->
    held_by me (lget L s) = true ->
    release C L me s = Done tt (lset L (MkLock 0 (name (lget L s)) None) (lset C (popped (lget C s)) s)).
Proof.
  intros Hn Hm Hh. unfold release, holding, zoom, mbind, M_bind, gets, modify, panic_if. rewrite Hh.
  cbn [b2z Z.eqb mret M_ret]. rewrite lens_get_set, lens_set_set, dj_get_l, popcli_spec by done. rewrite dj_swap. done.
Qed.

Lemma release_not_held s : held_by me (lget L s) = false -> release C L me s = Panic "release".
Proof. intros Hh. unfold release, holding, mbind, M_bind, gets, panic_if. by rewrite Hh. Qed.
End uni.

(** A program's state as one processor, one lock and what the lock protects. *)
Record uni (A : Type) := Uni { u_cpu : cpu; u_lock : spinlock; u_data : A }.
Arguments Uni {A}.
Arguments u_cpu {A}.
Arguments u_lock {A}.
Arguments u_data {A}.
Definition C_ {A} : lens (uni A) cpu := Lens u_cpu (fun c s => Uni c (u_lock s) (u_data s)).
Definition L_ {A} : lens (uni A) spinlock := Lens u_lock (fun k s => Uni (u_cpu s) k (u_data s)).
#[export] Instance C_laws {A} : LensLaws (@C_ A).
Proof. split; [done|by intros []|done]. Qed.
#[export] Instance L_laws {A} : LensLaws (@L_ A).
Proof. split; [done|by intros []|done]. Qed.
#[export] Instance CL_disjoint {A} : Disjoint2 (@C_ A) L_.
Proof. split; done. Qed.

(** ** The lock the other components use

    They see a spinlock as one boolean; [bool_lock] is that view. *)
Definition bool_lock {A} : lens (bool * A) bool := Lens fst (fun b s => (b, s.2)).
Definition abs {A} (s : uni A) : bool * A := (negb (locked (u_lock s) =? 0), u_data s).
Definition uni_ok {A} (me : nat) (s : uni A) : Prop :=
  cpu_ok (u_cpu s) /\
  (locked (u_lock s) <> 0 -> lcpu (u_lock s) = Some me /\ 1 <= ncli (u_cpu s)).

(** the boolean lock's outcome agrees with the spinlock's *)
Definition agrees {A} (o : outcome (uni A) unit) (o' : outcome (bool * A) unit) : Prop :=
  match o, o' with
  | Done _ s, Done _ t => abs s = t
  | Panic m, Panic m' => m = m'
  | Deadlock, Deadlock => True
  | _, _ => False
  end.

Lemma popped_ok c : 1 <= ncli c -> cpu_ok c -> cpu_ok (popped c).
Proof.
  intros H1 [Hn Hm]. unfold cpu_ok, popped, masked. cbn [ncli intena daif]. split; [lia|].
  intros H. destruct (Z.eqb_spec (ncli c) 1); [lia|]. cbn [andb]. apply Hm. lia.
Qed.
Lemma pushed_cpu_ok c : cpu_ok c -> ncli c < 2 ^ 31 - 2 -> cpu_ok (pushed c).
Proof.
  intros [Hn Hm] Hb. split; [cbn [ncli pushed]; lia|]. intros _. apply mask_lor.
Qed.

(** C33: on one processor the spinlock behaves as the boolean lock
    the kernel's components are verified with: acquire() of a free lock takes
    it and of a taken one never returns, release() by the holder frees it and
    panics when nobody holds it; interrupts are off inside the critical
    section, and leaving it restores the interrupt mask, the nesting depth and
    the data as they were. *)
Theorem spin_refines {A} (me : nat) (s : uni A) :
  uni_ok me s -> ncli (u_cpu s) < 2 ^ 31 - 2 ->
  agrees (acquire C_ L_ me s) (Prelude.acquire bool_lock (abs s)) /\
  agrees (release C_ L_ me s) (Prelude.release bool_lock (abs s)) /\
  (locked (u_lock s) = 0 ->
   wp (acquire C_ L_ me) (fun _ s' => uni_ok me s' /\ masked (u_cpu s') = true /\
     wp (release C_ L_ me) (fun _ s2 => uni_ok me s2 /\ same_cpu (u_cpu s) (u_cpu s2) /\
       locked (u_lock s2) = 0 /\ u_data s2 = u_data s) s') s).
Proof.
  intros [Hc Hl] Hb. pose proof Hc as [Hn Hm]. destruct s as [c k d]. cbn [u_cpu u_lock u_data] in *.
  unfold Prelude.acquire, Prelude.release, abs, bool_lock. cbn [u_lock u_data lget lset fst snd].
  split; [|split; [|intros E]].
  - destruct (Z.eqb_spec (locked k) 0) as [E|E]; cbn [negb].
    + rewrite (acquire_free C_ L_ me); [|cbn; lia|done]. done.
    + rewrite (acquire_taken C_ L_ me); [|cbn; lia|done]. done.
  - destruct (Z.eqb_spec (locked k) 0) as [E|E]; cbn [negb].
    + by rewrite (release_not_held C_ L_ me) by (unfold held_by; cbn; by rewrite E).
    + destruct (Hl E) as [Hk H1]. rewrite (release_held C_ L_ me); [done|cbn; lia|apply Hm; lia|].
      unfold held_by. cbn. rewrite bool_decide_true by done. by destruct (Z.eqb_spec (locked k) 0).
  - eapply wp_eq; [apply (acquire_free C_ L_ me); cbn; [lia|done]|]. cbn [L_ C_ lset lget u_cpu u_lock u_data].
    pose proof (pushed_cpu_ok c Hc Hb) as Hp.
    split; [split; [done|]; cbn; split; [done|lia]|].
    split; [apply mask_lor|].
    eapply wp_eq; [apply (release_held C_ L_ me); cbn; [lia|apply mask_lor|by unfold held_by; cbn; rewrite bool_decide_true]|].
    cbn [L_ C_ lset lget u_cpu u_lock u_data]. split; [split; [|done]|].
    + apply popped_ok; [cbn; lia|done].
    + split; [by apply popped_pushed|done].
Qed.
Lemma spin_refines_witness :
  let s := Uni (Cpu 0 0 0) (MkLock 0 "kmem" None) [7] in
  uni_ok 0 s /\ acquire C_ L_ 0 s = Done tt (Uni (Cpu 1 1 128) (MkLock 1 "kmem" (Some 0%nat)) [7]) /\
  agrees (acquire C_ L_ 0 s) (Prelude.acquire bool_lock (abs s)).
Proof.
  assert (uni_ok 0 (Uni (Cpu 0 0 0) (MkLock 0 "kmem" None) [7])) as H
    by (split; [split; [cbn; lia|cbn; lia]|done]).
  split; [exact H|]. split; [reflexivity|]. apply (spin_refines 0 _ H). cbn. lia.
Defined.

(** ** Interrupts

    Where the code of one context - the kernel's own, or a handler's - is
    inside acquire() or release(). *)
Inductive pc : Type :=
| Run                            (* in neither *)
| Pushing (l : nat) (enabled : Z) (* in pushcli, the mask read and not set yet *)
| Spinning (l : nat)             (* in acquire's while loop *)
| Taken (l : nat)                (* before [lk->cpu = cpu] *)
| Leaving (l : nat).             (* after [lk->cpu = 0] *)

(** [cs] are the locks acquire() returned for and release() was not yet called for; [spsr] is the mask of
    the context interrupted, which the return from the interrupt restores *)
Record frame := Frame { at_pc : pc; cs : gset nat; spsr : Z }.
(** the innermost context first *)
Record kernel := Kernel { kc : cpu; stack : list frame; locks : list spinlock }.
(** an interrupt masks all of DAIF *)
Definition DAIF_ALL : Z := 0x3C0.
Definition with_daif (c : cpu) (d : Z) : cpu := Cpu (ncli c) (intena c) d.

(** One step: the code between two points at which an interrupt may come in, or an interrupt.  A context acquires no lock it
    has already and releases only locks of its own. *)
Inductive kstep (me : nat) : kernel -> kernel -> Prop :=
| ks_read l c X sv r L : is_Some (L !! l) -> l ∉ X ->
    kstep me (Kernel c (Frame Run X sv :: r) L) (Kernel c (Frame (Pushing l (b2z (Z.land (daif c) DIS_INT =? 0))) X sv :: r) L)
| ks_push l e c c' X sv r L : pushcli_off e c = Done tt c' ->
    kstep me (Kernel c (Frame (Pushing l e) X sv :: r) L) (Kernel c' (Frame (Spinning l) X sv :: r) L)
| ks_retry l c X sv r L k : L !! l = Some k -> locked k <> 0 ->
    kstep me (Kernel c (Frame (Spinning l) X sv :: r) L) (Kernel c (Frame (Spinning l) X sv :: r) (<[l := set_locked 1 k]> L))
| ks_take l c X sv r L k : L !! l = Some k -> locked k = 0 ->
    kstep me (Kernel c (Frame (Spinning l) X sv :: r) L) (Kernel c (Frame (Taken l) X sv :: r) (<[l := set_locked 1 k]> L))
| ks_own l c X sv r L k : L !! l = Some k ->
    kstep me (Kernel c (Frame (Taken l) X sv :: r) L) (Kernel c (Frame Run ({[l]} ∪ X) sv :: r) (<[l := set_lcpu (Some me) k]> L))
| ks_disown l c X sv r L k : L !! l = Some k -> l ∈ X -> held_by me k = true ->
    kstep me (Kernel c (Frame Run X sv :: r) L) (Kernel c (Frame (Leaving l) (X ∖ {[l]}) sv :: r) (<[l := set_lcpu None k]> L))
| ks_clear l c c' X sv r L k : L !! l = Some k -> popcli c = Done tt c' ->
    kstep me (Kernel c (Frame (Leaving l) X sv :: r) L) (Kernel c' (Frame Run X sv :: r) (<[l := set_locked 0 k]> L))
| ks_sti c sv r L : kstep me (Kernel c (Frame Run ∅ sv :: r) L) (Kernel (with_daif c (Z.ldiff (daif c) DIS_INT)) (Frame Run ∅ sv :: r) L)
| ks_irq c fs L : masked c = false ->
    kstep me (Kernel c fs L) (Kernel (with_daif c (Z.lor (daif c) DAIF_ALL)) (Frame Run ∅ (daif c) :: fs) L)
| ks_eret c sv f r L : kstep me (Kernel c (Frame Run ∅ sv :: f :: r) L) (Kernel (with_daif c sv) (f :: r) L).

Definition kernel_init (s : kernel) : Prop :=
  (exists sv, stack s = [Frame Run ∅ sv]) /\ ncli (kc s) = 0 /\ forall l k, locks s !! l = Some k -> locked k = 0.
Definition reachable (me : nat) (s : kernel) : Prop := exists s0, kernel_init s0 /\ rtc (kstep me) s0 s.

(** the lock word was set by this context and not cleared yet *)
Definition owns (f : frame) (l : nat) : Prop := l ∈ cs f \/ at_pc f = Taken l \/ at_pc f = Leaving l.
Definition about (f : frame) : option nat :=
  match at_pc f with Run => None | Pushing l _ | Spinning l | Taken l | Leaving l => Some l end.
Definition inside (f : frame) : Z := match at_pc f with Run | Pushing _ _ => 0 | _ => 1 end.

(** the contexts interrupted: outside of critical sections, and no further in pushcli() than the reading of the mask [d] *)
Definition mask_read (f : frame) (d : Z) : Prop := forall l e, at_pc f = Pushing l e -> e = b2z (Z.land d DIS_INT =? 0).
Fixpoint below (d : Z) (r : list frame) : Prop :=
  match r with [] => True | f :: r => cs f = ∅ /\ inside f = 0 /\ mask_read f d /\ below (spsr f) r end.

Record frame_ok (me : nat) (c : cpu) (f : frame) (L : list spinlock) : Prop := {
  fo_word l k : L !! l = Some k -> (locked k <> 0 <-> owns f l);
  fo_cpu l k : L !! l = Some k -> l ∈ cs f -> lcpu k = Some me;
  fo_once l : about f = Some l -> l ∉ cs f;
  fo_ncli : ncli c = Z.of_nat (base.size (cs f)) + inside f /\ ncli c < 2 ^ 31;
  fo_mask : 0 < ncli c -> masked c = true;
  fo_in l : owns f l -> is_Some (L !! l);
  fo_read : mask_read f (daif c);
}.
Definition kernel_ok (me : nat) (s : kernel) : Prop :=
  exists f r, stack s = f :: r /\ frame_ok me (kc s) f (locks s) /\ below (spsr f) r.

Lemma size_remove (X : gset nat) l : l ∈ X -> base.size X = S (base.size (X ∖ {[l]})).
Proof.
  intros H. rewrite (union_difference_singleton_L l X) at 1 by done.
  rewrite size_union, size_singleton by set_solver. done.
Qed.

Lemma owns_other f l m : m <> l -> about f = None \/ about f = Some l -> owns f m <-> m ∈ cs f.
Proof. intros Hne Ha. unfold owns, about in *. destruct (at_pc f); naive_solver. Qed.
(** one context and one lock change: what keeps the invariant *)
Lemma frame_step me c c' f f' L l k k' : frame_ok me c f L -> L !! l = Some k ->
  about f = None \/ about f = Some l -> about f' = None \/ about f' = Some l -> (forall m, m <> l -> m ∈ cs f' <-> m ∈ cs f) ->
  (locked k' <> 0 <-> owns f' l) -> (l ∈ cs f' -> lcpu k' = Some me /\ about f' = None) ->
  ncli c' = Z.of_nat (base.size (cs f')) + inside f' /\ ncli c' < 2 ^ 31 -> (0 < ncli c' -> masked c' = true) -> mask_read f' (daif c') ->
  frame_ok me c' f' (<[l := k']> L).
Proof.
  intros [Hw Hc Ho Hn Hm Hi Hr] Hk Ha Ha' Hcs Hw' Hl' Hn' Hm' Hr'. split; try done.
  - intros m q Hq. apply list_lookup_insert_Some in Hq as [(<- & <- & _)|[Hne Hq]]; [done|]. apply not_eq_sym in Hne.
    rewrite (Hw m q Hq), !(owns_other _ l m) by done. by rewrite Hcs.
  - intros m q Hq Hin. apply list_lookup_insert_Some in Hq as [(<- & <- & _)|[Hne Hq]]; [by apply Hl'|]. apply (Hc m q Hq). by apply Hcs; [congruence|].
  - intros m Hm2 Hin. destruct (decide (m = l)) as [->|Hne]; [destruct (Hl' Hin); congruence|]. destruct Ha'; congruence.
  - intros m Hm2. destruct (decide (m = l)) as [->|Hne]; [rewrite list_lookup_insert_eq by (by eapply lookup_lt_Some); by eexists|].
    rewrite list_lookup_insert_ne by done. apply Hi. apply (owns_other _ l m) in Hm2; [|done..]. left. by apply Hcs.
Qed.
Lemma owns_nothing f : cs f = ∅ -> inside f = 0 -> forall m, ~ owns f m.
Proof. intros Hcs Hin m [H|[H|H]]; [rewrite Hcs in H; by apply not_elem_of_empty in H|unfold inside in Hin; by rewrite H in Hin..]. Qed.
(** the mask is set: what a read of it earlier may have been does not matter *)
Lemma mask_read_not f d : (forall l e, at_pc f <> Pushing l e) -> mask_read f d.
Proof. intros H l e E. by destruct (H l e). Qed.

Lemma irq_step_ok me s s' : kernel_ok me s -> kstep me s s' -> kernel_ok me s'.
Proof.
  intros (f0 & r0 & Hs & Hf & Hb) Hstep. pose proof Hf as [Hw Hc Ho [Hn Hn2] Hm Hi Hr].
  destruct Hstep as [l c X sv r L [k Hk] HX|l e c c' X sv r L Hp|l c X sv r L k Hk Hl|l c X sv r L k Hk Hl|l c X sv r L k Hk
    |l c X sv r L k Hk HX Hh|l c c' X sv r L k Hk Hp|c sv r L|c fs L Hmk|c sv f r L]; cbn [stack kc locks] in *;
    try (injection Hs as <- <-; unfold inside in Hn; cbn [at_pc cs spsr] in *).
  - eexists _, r. split; [done|]. split; [|exact Hb]. split; cbn [stack kc locks spsr at_pc cs]; try done.
    + intros m q Hq. rewrite (Hw m q Hq). unfold owns. cbn. naive_solver.
    + by intros m [= <-].
    + intros m [H|[H|H]]; [apply Hi; by left|done..].
    + by intros m e [= _ <-].
  - assert (e = b2z (Z.land (daif c) DIS_INT =? 0)) as -> by by apply (Hr l e).
    assert (pushcli c = Done tt c') as Hp' by exact Hp.
    assert (- 2 ^ 31 <= ncli c < 2 ^ 31 - 1) as Hrange.
    { split; [lia|]. destruct (Z.lt_ge_cases (ncli c) (2 ^ 31 - 1)) as [|Hbig]; [done|]. exfalso. revert Hp'.
      unfold pushcli, pushcli_off, int_enabled, cli, mbind, M_bind, gets, modify, c_int. cbn [ncli daif intena].
      destruct (Z.leb_spec (- 2 ^ 31) (ncli c + 1)); [|done]. destruct (Z.ltb_spec (ncli c + 1) (2 ^ 31)); [lia|done]. }
    rewrite pushcli_spec in Hp' by done. injection Hp' as <-. eexists _, r. split; [done|]. split; [|exact Hb].
    split; cbn [stack kc locks cs at_pc]; try done.
    + intros m q Hq. rewrite (Hw m q Hq). unfold owns. cbn. naive_solver.
    + unfold inside. cbn. lia.
    + intros _. apply mask_lor.
    + intros m [H|[H|H]]; [apply Hi; by left|done..].
  - eexists _, r. split; [done|]. split; [|exact Hb]. eapply frame_step; [exact Hf|exact Hk|by right|by right|done| | | | |]; cbn [locked set_locked lcpu]; try done.
    + rewrite <-(Hw l k Hk). lia.
    + intros H. by destruct (Ho l eq_refl).
  - eexists _, r. split; [done|]. split; [|exact Hb]. eapply frame_step; [exact Hf|exact Hk|by right|by right|done| | | | |]; cbn [locked set_locked lcpu]; try done.
    + split; [intros _; by right; left|lia].
    + intros H. by destruct (Ho l eq_refl).
  - pose proof (Ho l eq_refl) as HX. cbn [cs] in HX. eexists _, r. split; [done|]. split; [|exact Hb].
    eapply frame_step; [exact Hf|exact Hk|by right|by left|cbn [cs]; set_solver| | | | |]; cbn [locked set_lcpu lcpu cs kc locks].
    + rewrite (Hw l k Hk). unfold owns. cbn. set_solver.
    + done.
    + rewrite size_union, size_singleton by set_solver. unfold inside. cbn. lia.
    + done.
    + by apply mask_read_not.
  - pose proof (size_remove X l HX) as Hsz. eexists _, r. split; [done|]. split; [|exact Hb].
    eapply frame_step; [exact Hf|exact Hk|by left|by right|cbn [cs]; set_solver| | | | |]; cbn [locked set_lcpu lcpu cs kc locks].
    + rewrite (Hw l k Hk). unfold owns. cbn. naive_solver.
    + set_solver.
    + unfold inside. cbn. lia.
    + done.
    + by apply mask_read_not.
  - pose proof (Ho l eq_refl) as HX. cbn [cs] in HX. rewrite popcli_spec in Hp; [|lia|apply Hm; lia]. injection Hp as <-. eexists _, r. split; [done|]. split; [|exact Hb].
    eapply frame_step; [exact Hf|exact Hk|by right|by left|done| | | | |]; cbn [locked set_locked lcpu cs kc locks].
    + unfold owns. cbn. naive_solver.
    + done.
    + unfold inside. cbn. lia.
    + cbn [ncli popped daif]. unfold masked. intros Hpos. cbn [popped daif]. destruct (Z.eqb_spec (ncli c) 1); [lia|]. apply Hm. lia.
    + by apply mask_read_not.
  - eexists _, r. split; [done|]. split; [|exact Hb]. rewrite size_empty in Hn. split; cbn [stack kc locks]; try done.
    unfold with_daif. cbn [ncli cs]. lia.
  - subst fs. assert (ncli c <= 0) as H0. { destruct (Z.lt_ge_cases 0 (ncli c)) as [H|]; [|done]. rewrite (Hm H) in Hmk. done. }
    assert (cs f0 = ∅ /\ inside f0 = 0) as [Hcs Hin].
    { assert (0 <= inside f0) by (unfold inside; by destruct (at_pc f0)). split; [apply leibniz_equiv, size_empty_iff; lia|lia]. }
    pose proof (owns_nothing f0 Hcs Hin) as Hno.
    eexists _, (f0 :: r0). split; [done|]. split; [|by split]. split; cbn [stack kc locks cs at_pc]; unfold about; cbn [at_pc]; try done.
    + intros l k Hk. rewrite (Hw l k Hk). split; [intros H; by destruct (Hno l)|intros H; by destruct (owns_nothing (Frame Run ∅ (daif c)) eq_refl eq_refl l)].
    + unfold inside, with_daif. cbn [cs at_pc ncli]. rewrite size_empty. lia.
    + unfold with_daif. cbn [ncli]. lia.
    + intros m H. by destruct (owns_nothing (Frame Run ∅ (daif c)) eq_refl eq_refl m).
  - destruct Hb as (Hcs & Hin & Hrd & Hb). eexists _, r. split; [done|]. split; [|exact Hb]. rewrite size_empty in Hn.
    pose proof (owns_nothing f Hcs Hin) as Hno.
    split; cbn [stack kc locks].
    + intros l k Hk. rewrite (Hw l k Hk). split; [intros H; by destruct (owns_nothing (Frame Run ∅ sv) eq_refl eq_refl l)|intros H; by destruct (Hno l)].
    + intros l k _ H. rewrite Hcs in H. by apply not_elem_of_empty in H.
    + intros l _. rewrite Hcs. apply not_elem_of_empty.
    + unfold with_daif. cbn [ncli]. rewrite Hin, Hcs, size_empty. lia.
    + unfold with_daif. cbn [ncli]. lia.
    + intros m H. by destruct (Hno m).
    + exact Hrd.
Qed.

Lemma reachable_ok me s : reachable me s -> kernel_ok me s.
Proof.
  intros (s0 & ([sv Hs] & Hn & Hl) & Hr). assert (kernel_ok me s0) as Hi.
  { eexists _, []. split; [exact Hs|]. split; [|done]. split; cbn [cs]; try done.
    - intros l k Hk. rewrite (Hl l k Hk). split; [done|]. intros H. by destruct (owns_nothing (Frame Run ∅ sv) eq_refl eq_refl l).
    - rewrite Hn, size_empty. done.
    - lia.
    - intros l H. by destruct (owns_nothing (Frame Run ∅ sv) eq_refl eq_refl l). }
  clear Hs Hn Hl. revert Hi. induction Hr as [|s1 s2 s3 H12 _ IH]; [done|]. intros Hi. apply IH. by eapply irq_step_ok.
Qed.

(** without an interrupt in between the steps are acquire() and release() *)
Lemma acquire_steps me c c' k k' l X sv r L : L !! l = Some k -> locked k = 0 -> l ∉ X ->
  acquire C_ L_ me (Uni c k tt) = Done tt (Uni c' k' tt) ->
  rtc (kstep me) (Kernel c (Frame Run X sv :: r) L) (Kernel c' (Frame Run ({[l]} ∪ X) sv :: r) (<[l := k']> L)).
Proof.
  intros Hk Hl HX Hrun. unfold acquire, zoom, mbind, M_bind in Hrun. destruct (pushcli (lget C_ (Uni c k tt))) as [[] c1| | | | |] eqn:Hp; try done.
  unfold spin, test_and_set, mbind, M_bind, modify in Hrun. cbn in Hrun. rewrite Hl in Hrun. injection Hrun as -> <-.
  eapply rtc_l; [by apply (ks_read me l); [eexists|]|]. eapply rtc_l; [by apply ks_push|]. eapply rtc_l; [by eapply ks_take|].
  eapply rtc_l; [eapply (ks_own me l); by apply list_lookup_insert_eq; eapply lookup_lt_Some|]. rewrite list_insert_insert_eq. apply rtc_refl.
Qed.
Lemma release_steps me c c' k k' l X sv r L : L !! l = Some k -> l ∈ X ->
  release C_ L_ me (Uni c k tt) = Done tt (Uni c' k' tt) ->
  rtc (kstep me) (Kernel c (Frame Run X sv :: r) L) (Kernel c' (Frame Run (X ∖ {[l]}) sv :: r) (<[l := k']> L)).
Proof.
  intros Hk HX Hrun. unfold release, holding, gets, zoom, mbind, M_bind, panic_if in Hrun. cbn in Hrun. destruct (held_by me k) eqn:Hh; [|done]. cbn in Hrun.
  unfold modify in Hrun. cbn in Hrun. destruct (popcli c) as [[] c1| | | | |] eqn:Hp; try done. injection Hrun as -> <-.
  eapply rtc_l; [by apply (ks_disown me l _ _ _ _ _ k)|].
  eapply rtc_l; [eapply (ks_clear me l); [by apply list_lookup_insert_eq; eapply lookup_lt_Some|exact Hp]|]. rewrite list_insert_insert_eq. apply rtc_refl.
Qed.


(** an interrupt inside pushcli(): the handler holds the lock of the clock, the code below is about to ask for that of the process table *)
Definition demo_kernel (c : cpu) (fs : list frame) (k : spinlock) : kernel := Kernel c fs [MkLock 0 "ptable" None; k].
Definition demo_below : frame := Frame (Pushing 0 1) ∅ 0.
Lemma demo_irq_reachable : reachable 0 (demo_kernel (Cpu 1 0 0x3C0) [Frame Run {[1%nat]} 0; demo_below] (MkLock 1 "tickslock" (Some 0%nat))).
Proof.
  exists (demo_kernel (Cpu 0 0 0) [Frame Run ∅ 0] (MkLock 0 "tickslock" None)). split.
  - split; [by eexists|]. split; [done|]. intros [|[|l]] k H; by injection H as <- || done.
  - eapply rtc_l; [by apply (ks_read 0 0); [eexists|]|]. eapply rtc_l; [by apply ks_irq|].
    eapply rtc_l; [by apply (ks_read 0 1); [eexists|]|]. eapply rtc_l; [by apply ks_push|].
    eapply rtc_l; [by eapply (ks_take 0 1)|]. eapply rtc_l; [by eapply (ks_own 0 1)|]. cbn. rewrite union_empty_r_L. apply rtc_refl.
Qed.

(** neither gives up the processor *)
Lemma pushcli_returns c : wlp pushcli (fun _ _ => True) (fun _ => False) c.
Proof.
  unfold pushcli, pushcli_off, int_enabled, cli. repeat wlp_step. by apply wlp_when; intros; repeat wlp_step.
Qed.
Lemma popcli_returns c : wlp popcli (fun _ _ => True) (fun _ => False) c.
Proof.
  unfold popcli, int_enabled, sti. repeat wlp_step. unfold wlp at 1, get.
  by apply wlp_when; intros; repeat wlp_step.
Qed.

End Spin.
