(* ===== verification/Proc.v ===== *)
(** * Processes (src/src/proc.c)

    The process table, the current process and the scheduler.  A process
    pointer is its slot; the null pointer is [None].  swtch() to the scheduler
    is the outcome [Block ch_swtch], with the state the process leaves; what a
    process does when the scheduler switches back to it is the code after its
    sched() ([sleep_resume], [wait_resume], [yield_resume], [forkret]).

    The calls into the memory, file and log code are the operations of
    [ProcEnv], over a state of their own.  Their wakeup() calls are performed
    on the table when they return ([call]), and a sleep() inside one puts the
    current process to sleep. *)

From S2P Require Import Prelude.
From S2P Require Import Bytes.
From S2P Require Import KString.
From S2P Require Import Mmu.
From S2P Require Import Spin.

Module Proc.

(** What the process code calls in other files. *)
Class ProcEnv (E : Type) : Type := {
  alloc_page : M E Z;                    (* buddy.c *)
  free_page : Z -> M E unit;
  kpt_alloc : M E Z;                     (* vm.c *)
  inituvm : Z -> M E unit;               (* with the linked-in initcode *)
  allocuvm : Z -> Z -> Z -> M E Z;
  deallocuvm : Z -> Z -> Z -> M E Z;
  copyuvm : Z -> Z -> M E Z;
  freevm : Z -> M E unit;
  filedup : Z -> M E Z;                  (* file.c *)
  fileclose : Z -> M E unit;
  idup : Z -> M E Z;                     (* fs.c *)
  iput : Z -> M E unit;
  namei_root : M E Z;                    (* namei("/") *)
  initlog : M E unit;                    (* log.c *)
  env_wakes : E -> list chan;            (* the wakeup() calls issued so far *)
}.

(** Freeing memory only takes spinlocks. *)
Class ProcEnvLaws (E : Type) {PE : ProcEnv E} : Prop := {
  free_page_stays a e c e' : free_page a e <> Block c e';
  freevm_stays a e c e' : freevm a e <> Block c e';
}.

Definition NPROC : nat := 64.
Definition NOFILE : nat := 16.
Definition KSTACKSIZE : Z := 4096.
(** sizeof(struct trapframe): r0-r30, sp, elr, spsr; sizeof(struct context):
    r4-r29 and lr *)
Definition sizeof_tf : Z := 8 * 34.
Definition sizeof_context : Z := 8 * 27.
Definition off_lr : Z := 8 * 26.
Definition off_r30 : Z := 8 * 30.
Definition off_sp : Z := 8 * 31.
Definition off_elr : Z := 8 * 32.
Definition off_spsr : Z := 8 * 33.

Inductive procstate : Type := UNUSED | EMBRYO | SLEEPING | RUNNABLE | RUNNING | ZOMBIE.

#[export] Instance procstate_eq_dec : EqDecision procstate.
Proof. solve_decision. Defined.

Record proc := Proc {
  sz : Z;                  (* size of process memory (bytes) *)
  pgdir : Z;               (* page table *)
  kstack : Z;              (* bottom of kernel stack for this process *)
  state : procstate;
  pid : Z;
  parent : option nat;     (* parent process *)
  tf : Z;                  (* trap frame for current syscall *)
  context : Z;             (* swtch() here to run process *)
  pchan : option chan;     (* if non-zero, sleeping on chan *)
  killed : Z;              (* if non-zero, have been killed *)
  ofile : list Z;          (* open files: struct file addresses, 0 is none *)
  cwd : Z;                 (* current directory: a struct inode address *)
  pname : list Z;
}.

(** the channel an address of a table entry is *)
Definition ch_proc (i : nat) : chan := Chan "proc" (Z.of_nat i).
(** where control goes when a process gives up the processor *)
Definition ch_swtch : chan := Chan "swtch" 0.

(** code addresses stored in a new process's frame *)
Record symbols := Symbols { trapret : Z; forkret_addr : Z }.

Section proc.
  Context {E : Type} {PE : ProcEnv E} (sym : symbols).

  (** [plock] is ptable.lock, [kmem] the 64-bit words of the kernel stacks,
      [ttbr0] the user page-table register, [first] forkret's static *)
Record st := St {
  procs : list proc;
  cur : option nat;
  initproc : option nat;
  nextpid : Z;
  plock : Spin.spinlock;
  pcpu : Spin.cpu;
  ttbr0 : Z;
  kmem : gmap Z Z;
  first : Z;
  env : E;
}.

Definition set_procs (f : list proc -> list proc) (s : st) : st :=
  St (f (procs s)) (cur s) (initproc s) (nextpid s) (plock s) (pcpu s) (ttbr0 s) (kmem s) (first s) (env s).
Definition set_cur (c : option nat) (s : st) : st :=
  St (procs s) c (initproc s) (nextpid s) (plock s) (pcpu s) (ttbr0 s) (kmem s) (first s) (env s).
Definition set_init (c : option nat) (s : st) : st :=
  St (procs s) (cur s) c (nextpid s) (plock s) (pcpu s) (ttbr0 s) (kmem s) (first s) (env s).
Definition set_nextpid (n : Z) (s : st) : st :=
  St (procs s) (cur s) (initproc s) n (plock s) (pcpu s) (ttbr0 s) (kmem s) (first s) (env s).
Definition set_plock (k : Spin.spinlock) (s : st) : st :=
  St (procs s) (cur s) (initproc s) (nextpid s) k (pcpu s) (ttbr0 s) (kmem s) (first s) (env s).
Definition set_pcpu (c : Spin.cpu) (s : st) : st :=
  St (procs s) (cur s) (initproc s) (nextpid s) (plock s) c (ttbr0 s) (kmem s) (first s) (env s).
Definition set_ttbr0 (v : Z) (s : st) : st :=
  St (procs s) (cur s) (initproc s) (nextpid s) (plock s) (pcpu s) v (kmem s) (first s) (env s).
Definition set_kmem (m : gmap Z Z) (s : st) : st :=
  St (procs s) (cur s) (initproc s) (nextpid s) (plock s) (pcpu s) (ttbr0 s) m (first s) (env s).
Definition set_first (v : Z) (s : st) : st :=
  St (procs s) (cur s) (initproc s) (nextpid s) (plock s) (pcpu s) (ttbr0 s) (kmem s) v (env s).
Definition set_env (e : E) (s : st) : st :=
  St (procs s) (cur s) (initproc s) (nextpid s) (plock s) (pcpu s) (ttbr0 s) (kmem s) (first s) e.

Definition lock_lens : lens st Spin.spinlock := Lens plock set_plock.
Definition cpu_lens : lens st Spin.cpu := Lens pcpu set_pcpu.

  (** the processor is number 0 *)
Definition acquire : M st unit := Spin.acquire cpu_lens lock_lens 0.
Definition release : M st unit := Spin.release cpu_lens lock_lens 0.

Definition set_state (v : procstate) (p : proc) : proc :=
  Proc (sz p) (pgdir p) (kstack p) v (pid p) (parent p) (tf p) (context p) (pchan p) (killed p) (ofile p) (cwd p) (pname p).
Definition set_pid (v : Z) (p : proc) : proc :=
  Proc (sz p) (pgdir p) (kstack p) (state p) v (parent p) (tf p) (context p) (pchan p) (killed p) (ofile p) (cwd p) (pname p).
Definition set_parent (v : option nat) (p : proc) : proc :=
  Proc (sz p) (pgdir p) (kstack p) (state p) (pid p) v (tf p) (context p) (pchan p) (killed p) (ofile p) (cwd p) (pname p).
Definition set_chan (v : option chan) (p : proc) : proc :=
  Proc (sz p) (pgdir p) (kstack p) (state p) (pid p) (parent p) (tf p) (context p) v (killed p) (ofile p) (cwd p) (pname p).
Definition set_killed (v : Z) (p : proc) : proc :=
  Proc (sz p) (pgdir p) (kstack p) (state p) (pid p) (parent p) (tf p) (context p) (pchan p) v (ofile p) (cwd p) (pname p).
Definition set_kstack (v : Z) (p : proc) : proc :=
  Proc (sz p) (pgdir p) v (state p) (pid p) (parent p) (tf p) (context p) (pchan p) (killed p) (ofile p) (cwd p) (pname p).
Definition set_frames (t c : Z) (p : proc) : proc :=
  Proc (sz p) (pgdir p) (kstack p) (state p) (pid p) (parent p) t c (pchan p) (killed p) (ofile p) (cwd p) (pname p).
Definition set_pgdir (v : Z) (p : proc) : proc :=
  Proc (sz p) v (kstack p) (state p) (pid p) (parent p) (tf p) (context p) (pchan p) (killed p) (ofile p) (cwd p) (pname p).
Definition set_sz (v : Z) (p : proc) : proc :=
  Proc v (pgdir p) (kstack p) (state p) (pid p) (parent p) (tf p) (context p) (pchan p) (killed p) (ofile p) (cwd p) (pname p).
Definition set_ofile (v : list Z) (p : proc) : proc :=
  Proc (sz p) (pgdir p) (kstack p) (state p) (pid p) (parent p) (tf p) (context p) (pchan p) (killed p) v (cwd p) (pname p).
Definition set_cwd (v : Z) (p : proc) : proc :=
  Proc (sz p) (pgdir p) (kstack p) (state p) (pid p) (parent p) (tf p) (context p) (pchan p) (killed p) (ofile p) v (pname p).
Definition set_name (v : list Z) (p : proc) : proc :=
  Proc (sz p) (pgdir p) (kstack p) (state p) (pid p) (parent p) (tf p) (context p) (pchan p) (killed p) (ofile p) (cwd p) v.

  (** a load and a store through a struct proc pointer *)
Definition slot (i : nat) : M st proc := deref (fun s => procs s !! i).
Definition upd (i : nat) (f : proc -> proc) : M st unit :=
  slot i ;; modify (set_procs (alter f i)).
  (** [proc], dereferenced *)
Definition self : M st nat := deref cur.

Definition st64 (a v : Z) : M st unit := modify (fun s => set_kmem (<[a := v]> (kmem s)) s).
Definition ld64 (a : Z) : M st Z := deref (fun s => kmem s !! a).
  (** [n] words of zeros from [a]; [n] words copied *)
Definition zero64 (a : Z) (n : nat) : M st unit :=
  loop (S n) (fun i => if negb (i <? Z.of_nat n) then mret (inr tt) else
    st64 (a + 8 * i) 0 ;; mret (inl (i + 1))) 0.
Definition copy64 (dst src : Z) (n : nat) : M st unit :=
  loop (S n) (fun i => if negb (i <? Z.of_nat n) then mret (inr tt) else
    v ← ld64 (src + 8 * i); st64 (dst + 8 * i) v ;; mret (inl (i + 1))) 0.

Definition pinit : M st unit := Spin.initlock lock_lens "ptable".

  (** ** Sleeping and waking *)

  (** wakeup1(chan): every entry asleep on [c] becomes runnable *)
Definition wake_one (c : option chan) (p : proc) : proc :=
  if bool_decide (state p = SLEEPING) && bool_decide (pchan p = c) then set_state RUNNABLE p else p.
Definition wakeup1 (c : option chan) : M st unit := modify (set_procs (fmap (wake_one c))).

Definition wakeup (c : option chan) : M st unit :=
  acquire ;; wakeup1 c ;; release.

Definition int_enabled : M st Z := zoom cpu_lens Spin.int_enabled.

  (** sched(), up to the switch; [A] is what the caller would go on with *)
Definition sched {A} : M st A :=
  h ← Spin.holding lock_lens 0;
  panic_if (h =? 0) "sched ptable.lock" ;;
  c ← gets pcpu;
  panic_if (negb (Spin.ncli c =? 1)) "sched locks" ;;
  i ← self;
  p ← slot i;
  panic_if (bool_decide (state p = RUNNING)) "sched running" ;;
  e ← int_enabled;
  panic_if (negb (e =? 0)) "sched interruptible" ;;
  block ch_swtch.
  (** the line after the switch: [intena] is sched's local *)
Definition sched_resume (intena : Z) : M st unit :=
  modify (fun s => set_pcpu (Spin.Cpu (Spin.ncli (pcpu s)) intena (Spin.daif (pcpu s))) s).

  (** the lock sleep() is called with *)
Inductive lockref : Type := NoLock | PtableLock | OtherLock (L : lens st Spin.spinlock).

Definition sleep {A} (c : option chan) (lk : lockref) : M st A :=
  p ← gets cur;
  panic_if (bool_decide (p = None)) "sleep" ;;
  (match lk with
   | NoLock => panic "sleep without lk"
   | PtableLock => mret tt
   | OtherLock L => acquire ;; Spin.release cpu_lens L 0
   end) ;;
  i ← self;
  upd i (set_chan c) ;;
  upd i (set_state SLEEPING) ;;
  sched.
Definition sleep_resume (lk : lockref) (intena : Z) : M st unit :=
  sched_resume intena ;;
  i ← self;
  upd i (set_chan None) ;;
  match lk with
  | OtherLock L => release ;; Spin.acquire cpu_lens L 0
  | _ => mret tt
  end.

  (** ** Calls into the other components *)

Fixpoint wakeups (l : list chan) : M st unit :=
  match l with
  | [] => mret tt
  | c :: l => wakeup (Some c) ;; wakeups l
  end.
Definition issued (e e' : E) : list chan := drop (length (env_wakes e)) (env_wakes e').
  (** the callee released its lock as it went to sleep: what is left of
      sleep() is the table's part *)
Definition call {A} (m : M E A) : M st A := fun s =>
  match m (env s) with
  | Done a e' => (wakeups (issued (env s) e') ;; mret a) (set_env e' s)
  | Block c e' =>
      (wakeups (issued (env s) e') ;;
       acquire ;; i ← self; upd i (set_chan (Some c)) ;; upd i (set_state SLEEPING) ;; sched)
      (set_env e' s)
  | Panic msg => Panic msg
  | Undef => Undef
  | Deadlock => Deadlock
  | NoFuel => NoFuel
  end.

  (** switchuvm(p) (vm.c) *)
Definition switchuvm (p : proc) : M st unit :=
  zoom cpu_lens Spin.pushcli ;;
  panic_if (pgdir p =? 0) "switchuvm: no pgdir" ;;
  modify (set_ttbr0 (Z.lor (Mmu.v2p (pgdir p)) 0)) ;;
  zoom cpu_lens Spin.popcli.

  (** safestrcpy(dst, src, 16) between two name arrays *)
Definition name_copy (dst src : list Z) : M st (list Z) := fun s =>
  let n := Z.of_nat (length dst) in
  match KString.safestrcpy 0 n 16 (write_bytes (write_bytes ∅ 0 dst) n src) with
  | Done _ m => Done ((fun i => default 0 (m !! Z.of_nat i)) <$> seq 0 (length dst)) s
  | _ => Undef
  end.

  (** ** Creating processes *)

  (** the new entry's kernel stack: room for the trap frame, trapret as the
      return address, the stack's top, and a context that starts in forkret
      past its prologue *)
Definition init_stack (i : nat) (ks : Z) : M st unit :=
  let t := ks + KSTACKSIZE - sizeof_tf in
  st64 (t - 8) (trapret sym) ;;
  st64 (t - 16) (ks + KSTACKSIZE) ;;
  let c := t - 16 - sizeof_context in
  upd i (set_frames t c) ;;
  zero64 c 27 ;;
  st64 (c + off_lr) (forkret_addr sym + 8).

Definition allocproc : M st (option nat) :=
  acquire ;;
  ps ← gets procs;
  match list_find (fun p => state p = UNUSED) ps with
  | None => release ;; mret None
  | Some (i, _) =>
      upd i (set_state EMBRYO) ;;
      n ← gets nextpid;
      n' ← c_int (n + 1);
      upd i (set_pid n) ;;
      modify (set_nextpid n') ;;
      release ;;
      ks ← call alloc_page;
      upd i (set_kstack ks) ;;
      if ks =? 0 then upd i (set_state UNUSED) ;; mret None
      else init_stack i ks ;; mret (Some i)
  end.

Definition initcode_name : list Z := [105; 110; 105; 116; 99; 111; 100; 101; 0].

Definition userinit : M st unit :=
  o ← allocproc;
  modify (set_init o) ;;
  i ← (match o with Some i => mret i | None => undef end);
  pg ← call kpt_alloc;
  upd i (set_pgdir pg) ;;
  panic_if (pg =? 0) "userinit: out of memory?" ;;
  call (inituvm pg) ;;
  upd i (set_sz Mmu.PTE_SZ) ;;
  p ← slot i;
  zero64 (tf p) 34 ;;
  st64 (tf p + off_spsr) 0 ;;
  st64 (tf p + off_sp) Mmu.PTE_SZ ;;
  st64 (tf p + off_r30) 0 ;;
  st64 (tf p + off_elr) 0 ;;
  nm ← name_copy (pname p) initcode_name;
  upd i (set_name nm) ;;
  d ← call namei_root;
  upd i (set_cwd d) ;;
  upd i (set_state RUNNABLE).

  (** the sizes are [uint]; allocuvm and deallocuvm return [int] *)
Definition growproc (n : Z) : M st Z :=
  i ← self;
  p ← slot i;
  let sz0 := u32 (sz p) in
  r ← (if 0 <? n then
         v ← call (allocuvm (pgdir p) sz0 (u32 (sz0 + n)));
         mret (if u32 v =? 0 then None else Some (u32 v))
       else if n <? 0 then
         v ← call (deallocuvm (pgdir p) sz0 (u32 (sz0 + n)));
         mret (if u32 v =? 0 then None else Some (u32 v))
       else mret (Some sz0));
  match r with
  | None => mret (-1)
  | Some v =>
      upd i (set_sz v) ;;
      q ← slot i;
      switchuvm q ;;
      mret 0
  end.

Definition fork_file (me i : nat) (fd : nat) : M st (nat + unit) :=
  if negb (Nat.ltb fd NOFILE) then mret (inr tt) else
  p ← slot me;
  f ← deref (fun _ => ofile p !! fd);
  (if negb (f =? 0) then
     f' ← call (filedup f);
     upd i (fun np => set_ofile (<[fd := f']> (ofile np)) np)
   else mret tt) ;;
  mret (inl (S fd)).

Definition fork : M st Z :=
  o ← allocproc;
  match o with
  | None => mret (-1)
  | Some i =>
      me ← self;
      p ← slot me;
      pg ← call (copyuvm (pgdir p) (u32 (sz p)));
      upd i (set_pgdir pg) ;;
      np ← slot i;
      if pg =? 0 then
        call (free_page (kstack np)) ;;
        upd i (set_kstack 0) ;;
        upd i (set_state UNUSED) ;;
        mret (-1)
      else
        upd i (set_sz (sz p)) ;;
        upd i (set_parent (Some me)) ;;
        copy64 (tf np) (tf p) 34 ;;
        st64 (tf np) 0 ;;
        loop (S NOFILE) (fork_file me i) 0%nat ;;
        c ← call (idup (cwd p));
        upd i (set_cwd c) ;;
        np ← slot i;
        upd i (set_state RUNNABLE) ;;
        nm ← name_copy (pname np) (pname p);
        upd i (set_name nm) ;;
        mret (pid np)
  end.

  (** ** Ending them *)

Definition close_file (me fd : nat) : M st (nat + unit) :=
  if negb (Nat.ltb fd NOFILE) then mret (inr tt) else
  p ← slot me;
  f ← deref (fun _ => ofile p !! fd);
  (if negb (f =? 0) then
     call (fileclose f) ;;
     upd me (fun p => set_ofile (<[fd := 0]> (ofile p)) p)
   else mret tt) ;;
  mret (inl (S fd)).

  (** one entry of the loop that passes children to init *)
Definition reparent_body (me i : nat) : M st (nat + unit) :=
  if negb (Nat.ltb i NPROC) then mret (inr tt) else
  p ← slot i;
  (if bool_decide (parent p = Some me) then
     ini ← gets initproc;
     upd i (set_parent ini) ;;
     when (bool_decide (state p = ZOMBIE)) (wakeup1 (ch_proc <$> ini))
   else mret tt) ;;
  mret (inl (S i)).

Definition exit_ : M st unit :=
  c ← gets cur;
  ini ← gets initproc;
  panic_if (bool_decide (c = ini)) "init exiting" ;;
  me ← self;
  loop (S NOFILE) (close_file me) 0%nat ;;
  p ← slot me;
  call (iput (cwd p)) ;;
  upd me (set_cwd 0) ;;
  acquire ;;
  p ← slot me;
  wakeup1 (ch_proc <$> parent p) ;;
  loop (S NPROC) (reparent_body me) 0%nat ;;
  upd me (set_state ZOMBIE) ;;
  sched.

  (** freeing the entry of a zombie child *)
Definition reap (i : nat) : M st Z :=
  p ← slot i;
  call (free_page (kstack p)) ;;
  upd i (set_kstack 0) ;;
  call (freevm (pgdir p)) ;;
  upd i (set_state UNUSED) ;;
  upd i (set_pid 0) ;;
  upd i (set_parent None) ;;
  upd i (fun p => set_name (<[0%nat := 0]> (pname p)) p) ;;
  upd i (set_killed 0) ;;
  release ;;
  mret (pid p).

Definition wait_body (me : nat) : nat * bool -> M st (nat * bool + (Z + bool)) := fun '(i, havekids) =>
  if negb (Nat.ltb i NPROC) then mret (inr (inr havekids)) else
  p ← slot i;
  if negb (bool_decide (parent p = Some me)) then mret (inl (S i, havekids)) else
  if bool_decide (state p = ZOMBIE) then v ← reap i; mret (inr (inl v))
  else mret (inl (S i, true)).

  (** one pass of wait's for(;;), with ptable.lock held *)
Definition wait_pass : M st Z :=
  me ← self;
  r ← loop (S NPROC) (wait_body me) (0%nat, false);
  match r with
  | inl v => mret v
  | inr havekids =>
      p ← slot me;
      if negb havekids || negb (killed p =? 0) then release ;; mret (-1)
      else sleep (Some (ch_proc me)) PtableLock
  end.
Definition wait : M st Z := acquire ;; wait_pass.
Definition wait_resume (intena : Z) : M st Z := sleep_resume PtableLock intena ;; wait_pass.

Definition kill (pd : Z) : M st Z :=
  acquire ;;
  ps ← gets procs;
  match list_find (fun p => pid p = pd) ps with
  | Some (i, p) =>
      upd i (set_killed 1) ;;
      when (bool_decide (state p = SLEEPING)) (upd i (set_state RUNNABLE)) ;;
      release ;;
      mret 0
  | None => release ;; mret (-1)
  end.

  (** ** The scheduler *)

  (** the for loop from entry [i]: the process switched to, or the end of the
      round *)
Definition scan_body (i : nat) : M st (nat + option nat) :=
  if negb (Nat.ltb i NPROC) then release ;; mret (inr None) else
  p ← slot i;
  if negb (bool_decide (state p = RUNNABLE)) then mret (inl (S i)) else
  modify (set_cur (Some i)) ;;
  switchuvm p ;;
  upd i (set_state RUNNING) ;;
  mret (inr (Some i)).
Definition scan_from (i : nat) : M st (option nat) := loop (S NPROC) scan_body i.
Definition scheduler_round : M st (option nat) :=
  zoom cpu_lens Spin.sti ;;
  acquire ;;
  scan_from 0.
  (** after the switch back from the process of entry [i] *)
Definition scheduler_back (i : nat) : M st (option nat) :=
  modify (set_cur None) ;;
  scan_from (S i).

Definition yield : M st unit :=
  acquire ;;
  i ← self;
  upd i (set_state RUNNABLE) ;;
  sched.
Definition yield_resume (intena : Z) : M st unit := sched_resume intena ;; release.

Definition forkret : M st unit :=
  release ;;
  f ← gets first;
  when (negb (f =? 0)) (modify (set_first 0) ;; call initlog).

  (** ** procdump() *)

Definition state_name (v : procstate) : string :=
  match v with
  | UNUSED => "unused" | EMBRYO => "embryo" | SLEEPING => "sleep "
  | RUNNABLE => "runble" | RUNNING => "run   " | ZOMBIE => "zombie"
  end.
  (** the lines printed: pid, state and name of each used entry *)
Definition procdump : M st (list (Z * string * list Z)) :=
  ps ← gets procs;
  mret ((fun p => (pid p, state_name (state p), pname p)) <$> filter (fun p => state p <> UNUSED) ps).

End proc.
(** ** The kernel as a transition system

    [conts] says what each process does when it is next switched to; [sp] is
    the entry at which the scheduler's for loop is suspended. *)

Inductive kont : Type :=
| KStart               (* forkret, for the first time *)
| KWait (intena : Z)   (* in wait's sleep(); the argument is sched's local *)
| KSleep (intena : Z)  (* in a sleep() with another lock *)
| KYield (intena : Z)  (* in yield *)
| KRun.                (* in user mode or at the start of a system call *)

Section system.
  Context {E : Type} {PE : ProcEnv E} (sym : symbols).

Record config := Config { mach : @st E; sp : option nat; conts : list kont }.

Definition intena_of (s : @st E) : Z := Spin.intena (pcpu s).

  (** the current process is [i], about to go on with [c] *)
Definition running (k : config) (i : nat) (c : kont) : Prop :=
  sp k = Some i /\ cur (mach k) = Some i /\ conts k !! i = Some c /\
  exists p, procs (mach k) !! i = Some p /\ state p = RUNNING.
Definition next (i : nat) (c : kont) (k : config) (s : @st E) : config :=
  Config s (sp k) (<[i := c]> (conts k)).

  (** an entry that fork made runnable starts in forkret *)
Definition births (ps ps' : list proc) (l : list kont) : list kont :=
  imap (fun j c => match ps !! j, ps' !! j with
                   | Some p, Some p' => if bool_decide (state p = UNUSED) && bool_decide (state p' <> UNUSED)
                                        then KStart else c
                   | _, _ => c
                   end) l.

  (** kernel code a process runs from a system call to its return *)
Inductive service : M (@st E) Z -> Prop :=
| sv_fork : service (fork sym)
| sv_wait : service wait
| sv_kill pd : service (kill pd)
| sv_growproc n : service (growproc n)
| sv_call (f : M E Z) : service (call f).

  (** what sleeps in other files sleeps on is no process's address *)
Definition asleep_elsewhere (i : nat) (s : @st E) : Prop :=
  forall p, procs s !! i = Some p -> state p = SLEEPING -> forall j, pchan p <> Some (ch_proc j).

Inductive kstep : config -> config -> Prop :=
  (* the scheduler's loop, from its top and after a process gave up *)
| k_round k r s :
    sp k = None -> scheduler_round (mach k) = Done r s ->
    kstep k (Config s r (conts k))
| k_back k i p r s :
    sp k = Some i -> procs (mach k) !! i = Some p -> state p <> RUNNING ->
    scheduler_back i (mach k) = Done r s ->
    kstep k (Config s r (conts k))
  (* a process goes on from where it gave up *)
| k_start k i s :
    running k i KStart -> forkret (mach k) = Done tt s -> kstep k (next i KRun k s)
| k_woken k i n s :
    running k i (KSleep n) -> (sleep_resume PtableLock n ;; release) (mach k) = Done tt s ->
    kstep k (next i KRun k s)
| k_yielded k i n s :
    running k i (KYield n) -> yield_resume n (mach k) = Done tt s -> kstep k (next i KRun k s)
| k_waited k i n v s :
    running k i (KWait n) -> wait_resume n (mach k) = Done v s -> kstep k (next i KRun k s)
| k_waits k i n c s :
    running k i (KWait n) -> wait_resume n (mach k) = Block c s ->
    kstep k (next i (KWait (intena_of s)) k s)
  (* it calls into the kernel, returns, or gives up the processor there *)
| k_service k i f v s :
    running k i KRun -> service f -> f (mach k) = Done v s ->
    kstep k (Config s (sp k) (births (procs (mach k)) (procs s) (conts k)))
| k_wait k i c s :
    running k i KRun -> wait (mach k) = Block c s ->
    kstep k (next i (KWait (intena_of s)) k s)
| k_call k i (f : M E Z) c s :
    running k i KRun -> call f (mach k) = Block c s -> asleep_elsewhere i s ->
    kstep k (next i (KSleep (intena_of s)) k s)
| k_yield k i c s :
    running k i KRun -> yield (mach k) = Block c s ->
    kstep k (next i (KYield (intena_of s)) k s)
| k_exit k i c s :
    running k i KRun -> exit_ (mach k) = Block c s -> asleep_elsewhere i s ->
    kstep k (next i (KSleep (intena_of s)) k s)
  (* an interrupt handler wakes sleepers *)
| k_interrupt k c s :
    Spin.masked (pcpu (mach k)) = false -> wakeup (Some c) (mach k) = Done tt s ->
    kstep k (Config s (sp k) (conts k)).

  (** the table as the loader leaves it, and after pinit() and userinit() *)
Definition zero_proc : proc :=
  Proc 0 0 0 UNUSED 0 None 0 0 None 0 (replicate NOFILE 0) 0 (replicate 16 0).
Definition zeroed (e : E) : @st E :=
  St (replicate NPROC zero_proc) None None 1 (Spin.MkLock 0 "" None) (Spin.Cpu 0 0 0) 0 ∅ 1 e.
Definition booted (k : config) : Prop :=
  exists e, (pinit ;; userinit sym) (zeroed e) = Done tt (mach k) /\
    sp k = None /\ conts k = replicate NPROC KStart.
Definition reachable (k : config) : Prop := exists k0, booted k0 /\ rtc kstep k0 k.

  (** ** The process table's invariant *)

Definition live (p : proc) : bool := negb (bool_decide (state p = UNUSED)).
  (** can still call wait() *)
Definition alive (p : proc) : bool :=
  match state p with SLEEPING | RUNNABLE | RUNNING => true | _ => false end.

  (** the part of the state the invariant is about *)
Record tab := Tab { t_procs : list proc; t_cur : option nat; t_init : option nat; t_next : Z }.
Definition tab_of (s : @st E) : tab := Tab (procs s) (cur s) (initproc s) (nextpid s).

Record table_ok (t : tab) : Prop := {
  to_len : length (t_procs t) = NPROC;
  to_next : 1 <= t_next t;
  to_pid : forall i p, t_procs t !! i = Some p -> live p = true -> 1 <= pid p < t_next t;
  to_uniq : forall i j p q, t_procs t !! i = Some p -> t_procs t !! j = Some q ->
    live p = true -> live q = true -> pid p = pid q -> i = j;
  to_run : forall i p, t_procs t !! i = Some p -> state p = RUNNING -> t_cur t = Some i;
  to_parent : forall i p q, t_procs t !! i = Some p -> parent p = Some q ->
    q <> i /\ exists pq, t_procs t !! q = Some pq /\ alive pq = true;
  to_zombie : forall i p q pq, t_procs t !! i = Some p -> state p = ZOMBIE -> parent p = Some q ->
    t_procs t !! q = Some pq -> state pq = SLEEPING -> pchan pq <> Some (ch_proc q);
}.
  (** once init exists: it never ends and every other process has a parent *)
Record family_ok (t : tab) : Prop := {
  fo_init : exists i p, t_init t = Some i /\ t_procs t !! i = Some p /\ alive p = true /\ parent p = None;
  fo_orphan : forall i p, t_procs t !! i = Some p -> parent p = None ->
    state p <> UNUSED -> state p <> EMBRYO -> t_init t = Some i;
}.

End system.

(** ** What wakeups do to the table *)

Definition woke (p p' : proc) : Prop := p' = p \/ state p = SLEEPING /\ p' = set_state RUNNABLE p.
Definition woken (ps ps' : list proc) : Prop := Forall2 woke ps ps'.

Lemma woken_refl ps : woken ps ps.
Proof. induction ps; constructor; [by left|done]. Qed.
Lemma woke_trans p q r : woke p q -> woke q r -> woke p r.
Proof. intros [->|[Hp ->]] [->|[Hq ->]]; [by left|by right|by right|done]. Qed.
Lemma woken_trans a b c : woken a b -> woken b c -> woken a c.
Proof.
  intros H. revert c. induction H as [|p q ps qs Hpq _ IH]; intros c Hc; inversion Hc; subst; constructor.
  - by eapply woke_trans.
  - by apply IH.
Qed.
Lemma wake_one_woke c p : woke p (wake_one c p).
Proof.
  unfold wake_one. destruct (bool_decide_reflect (state p = SLEEPING)); cbn [andb]; [|by left].
  destruct (bool_decide (pchan p = c)); [by right|by left].
Qed.
Lemma woken_fmap c ps : woken ps (wake_one c <$> ps).
Proof. induction ps; constructor; [apply wake_one_woke|done]. Qed.
Lemma woken_lookup ps ps' i p' : woken ps ps' -> ps' !! i = Some p' ->
  exists p, ps !! i = Some p /\ woke p p'.
Proof. intros H Hi. destruct (Forall2_lookup_r _ _ _ _ _ H Hi) as (p & ? & ?). eauto. Qed.
Lemma woken_lookup_l ps ps' i p : woken ps ps' -> ps !! i = Some p ->
  exists p', ps' !! i = Some p' /\ woke p p'.
Proof. intros H Hi. destruct (Forall2_lookup_l _ _ _ _ _ H Hi) as (p' & ? & ?). eauto. Qed.

(** the fields a wakeup leaves alone *)
Lemma woke_same p p' : woke p p' ->
  pid p' = pid p /\ parent p' = parent p /\ pchan p' = pchan p /\ live p' = live p /\ alive p' = alive p /\
  (state p' = SLEEPING -> state p = SLEEPING) /\ (state p <> SLEEPING -> p' = p).
Proof.
  intros [->|[Hs ->]]; [done|]. unfold live, alive. cbn. rewrite Hs. cbn. repeat split; done.
Qed.
Lemma woke_state p p' v : woke p p' -> state p' = v -> v <> RUNNABLE -> state p = v.
Proof. intros [->|[Hs ->]]; cbn; [done|]. by intros <-. Qed.

Definition retab (f : list proc -> list proc) (t : tab) : tab :=
  Tab (f (t_procs t)) (t_cur t) (t_init t) (t_next t).

Lemma table_woken t ps : woken (t_procs t) ps -> table_ok t -> table_ok (retab (fun _ => ps) t).
Proof.
  intros Hw [Hl Hn Hp Hu Hr Hpa Hz]. split; cbn [retab t_procs t_cur t_init t_next].
  - by rewrite <-(Forall2_length _ _ _ Hw).
  - done.
  - intros i p' Hi Hlv. destruct (woken_lookup _ _ _ _ Hw Hi) as (p & Hi0 & Hwk).
    destruct (woke_same _ _ Hwk) as (-> & _ & _ & El & _). rewrite El in Hlv. by eapply Hp.
  - intros i j p' q' Hi Hj Hlp Hlq E.
    destruct (woken_lookup _ _ _ _ Hw Hi) as (p & Hi0 & Hwp), (woken_lookup _ _ _ _ Hw Hj) as (q & Hj0 & Hwq).
    destruct (woke_same _ _ Hwp) as (Ep & _ & _ & El & _), (woke_same _ _ Hwq) as (Eq & _ & _ & Elq & _).
    rewrite El in Hlp. rewrite Elq in Hlq. eapply Hu; [done|done|done|done|congruence].
  - intros i p' Hi Hs. destruct (woken_lookup _ _ _ _ Hw Hi) as (p & Hi0 & Hwp).
    eapply Hr; [done|]. by eapply woke_state.
  - intros i p' q Hi Hpar. destruct (woken_lookup _ _ _ _ Hw Hi) as (p & Hi0 & Hwp).
    destruct (woke_same _ _ Hwp) as (_ & Ep & _). rewrite Ep in Hpar.
    destruct (Hpa _ _ _ Hi0 Hpar) as (Hne & pq & Hq & Ha). split; [done|].
    destruct (woken_lookup_l _ _ _ _ Hw Hq) as (pq' & Hq' & Hwq). exists pq'. split; [done|].
    by destruct (woke_same _ _ Hwq) as (_ & _ & _ & _ & -> & _).
  - intros i p' q pq' Hi Hs Hpar Hq' Hsq.
    destruct (woken_lookup _ _ _ _ Hw Hi) as (p & Hi0 & Hwp), (woken_lookup _ _ _ _ Hw Hq') as (pq & Hq & Hwq).
    destruct (woke_same _ _ Hwp) as (_ & Ep & _), (woke_same _ _ Hwq) as (_ & _ & -> & _ & _ & Es & _).
    eapply Hz; [exact Hi0|by eapply woke_state|congruence|done|by apply Es].
Qed.
Lemma family_woken t ps : woken (t_procs t) ps -> family_ok t -> family_ok (retab (fun _ => ps) t).
Proof.
  intros Hw [(i & p & Hi & Hp & Ha & Hpar) Ho]. split; cbn [retab t_procs t_cur t_init t_next].
  - destruct (woken_lookup_l _ _ _ _ Hw Hp) as (p' & Hp' & Hwp). exists i, p'.
    destruct (woke_same _ _ Hwp) as (_ & -> & _ & _ & -> & _). done.
  - intros j q' Hj Hq Hs1 Hs2. destruct (woken_lookup _ _ _ _ Hw Hj) as (q & Hj0 & Hwq).
    destruct (woke_same _ _ Hwq) as (_ & Ep & _ & El & _ & _ & En). eapply Ho; [done|congruence| |].
    + unfold live in El. intros E. rewrite E in El. cbn in El. by rewrite bool_decide_false in El.
    + intros E. assert (q' = q) as -> by (apply En; by rewrite E). done.
Qed.

(** Changing one entry. *)
Lemma table_upd t i p p' : t_procs t !! i = Some p ->
  (live p' = true -> 1 <= pid p' < t_next t /\ forall j q, t_procs t !! j = Some q -> live q = true -> pid q = pid p' -> j = i) ->
  (state p' = RUNNING -> t_cur t = Some i) ->
  (parent p' = parent p \/ forall q, parent p' = Some q -> q <> i /\ exists pq, t_procs t !! q = Some pq /\ alive pq = true) ->
  (alive p' = true \/ forall j q, t_procs t !! j = Some q -> parent q <> Some i) ->
  (state p' = ZOMBIE -> forall q pq, parent p' = Some q -> t_procs t !! q = Some pq ->
     state pq = SLEEPING -> pchan pq <> Some (ch_proc q)) ->
  (state p' = SLEEPING -> pchan p' = Some (ch_proc i) -> forall j q, t_procs t !! j = Some q -> parent q = Some i ->
     state q <> ZOMBIE) ->
  table_ok t -> table_ok (retab (<[i := p']>) t).
Proof.
  intros Hi Hlive Hrun Hpar Hal Hzom Hslp [Hl Hn Hp Hu Hr Hpa Hz]. split; cbn [retab t_procs t_cur t_init t_next].
  - by rewrite length_insert.
  - done.
  - intros j q Hj Hlq. apply list_lookup_insert_Some in Hj as [(<- & <- & _)|[_ Hj]]; [by destruct (Hlive Hlq)|by eapply Hp].
  - intros a b q r Ha Hb Hlq Hlr E.
    apply list_lookup_insert_Some in Ha as [(<- & <- & _)|[? Ha]];
      apply list_lookup_insert_Some in Hb as [(<- & <- & _)|[? Hb]]; [done|..].
    + destruct (Hlive Hlq) as [_ Hx]. symmetry. by eapply (Hx b).
    + destruct (Hlive Hlr) as [_ Hx]. by eapply (Hx a).
    + by eapply Hu.
  - intros j q Hj Hs. apply list_lookup_insert_Some in Hj as [(<- & <- & _)|[_ Hj]]; [by apply Hrun|by eapply Hr].
  - intros j q r Hj Hq.
    assert (r <> j /\ exists pq, t_procs t !! r = Some pq /\ alive pq = true) as (Hne & pq & Hr0 & Ha).
    { apply list_lookup_insert_Some in Hj as [(<- & <- & _)|[_ Hj]]; [|by eapply Hpa].
      destruct Hpar as [E|Hx]; [|by apply Hx]. rewrite E in Hq. by eapply Hpa. }
    split; [done|]. destruct (decide (r = i)) as [->|Hri].
    + exists p'. split; [apply list_lookup_insert_eq; by eapply lookup_lt_Some|].
      destruct Hal as [?|Hno]; [done|]. exfalso.
      apply list_lookup_insert_Some in Hj as [(<- & _)|[_ Hj]]; [done|]. exact (Hno _ _ Hj Hq).
    + exists pq. by rewrite list_lookup_insert_ne.
  - intros j q r pr Hj Hs Hq Hr0 Hsr.
    apply list_lookup_insert_Some in Hj as [(<- & <- & _)|[? Hj]];
      apply list_lookup_insert_Some in Hr0 as [(<- & <- & _)|[? Hr0]].
    + congruence.
    + exact (Hzom Hs r pr Hq Hr0 Hsr).
    + intros Hc. exact (Hslp Hsr Hc j q Hj Hq Hs).
    + exact (Hz j q r pr Hj Hs Hq Hr0 Hsr).
Qed.

Section rules.
  Context {E : Type} {PE : ProcEnv E}.
  Implicit Types (s : @st E) (B : @st E -> Prop).

Lemma alter_insert {A} (f : A -> A) i (l : list A) x : l !! i = Some x -> alter f i l = <[i := f x]> l.
Proof.
  revert i. induction l as [|y l IH]; intros [|i] H; [done..| |].
  - by injection H as ->.
  - cbn. f_equal. by apply IH.
Qed.
Lemma retab_id (t : tab) : retab (fun _ => t_procs t) t = t.
Proof. by destruct t. Qed.
Lemma retab_retab f g (t : tab) : retab f (retab g t) = retab (fun l => f (g l)) t.
Proof. done. Qed.
Lemma retab_at f s : retab f (tab_of s) = retab (fun _ => f (procs s)) (tab_of s).
Proof. done. Qed.

Lemma wlp_pcpu {A} (f : M Spin.cpu A) Q B s :
  (forall a s', tab_of s' = tab_of s -> Q a s') -> (forall s', tab_of s' = tab_of s -> B s') ->
  wlp (zoom cpu_lens f) Q B s.
Proof.
  intros H HB. unfold wlp, zoom. destruct (f (lget cpu_lens s)); try done; [by apply H|by apply HB].
Qed.
Lemma wlp_acquire Q B s : (forall s', tab_of s' = tab_of s -> Q tt s') -> wlp acquire Q B s.
Proof.
  intros H. unfold acquire, Spin.acquire. wlp_step. wlp_step.
  eapply wlp_mono; [apply Spin.pushcli_returns| |done]. cbn beta. intros [] c _.
  wlp_step. unfold wlp at 1, Spin.spin, Spin.test_and_set, mbind, M_bind.
  destruct (b2z _ =? 0); [|done]. cbn [mret M_ret]. wlp_step. by apply H.
Qed.
Lemma wlp_release Q B s : (forall s', tab_of s' = tab_of s -> Q tt s') -> wlp release Q B s.
Proof.
  intros H. unfold release, Spin.release, Spin.holding. repeat wlp_step.
  eapply wlp_mono; [apply Spin.popcli_returns| |done]. cbn beta. intros [] c _. by apply H.
Qed.

Lemma wlp_slot i Q B s : (forall p, procs s !! i = Some p -> Q p s) -> wlp (slot i) Q B s.
Proof. intros H. unfold slot. wlp_step. by apply H. Qed.
Lemma wlp_self Q B s : (forall i, cur s = Some i -> Q i s) -> wlp self Q B s.
Proof. intros H. unfold self. wlp_step. by apply H. Qed.
Lemma wlp_upd i f Q B s :
  (forall p s', procs s !! i = Some p -> tab_of s' = retab (<[i := f p]>) (tab_of s) -> Q tt s') ->
  wlp (upd i f) Q B s.
Proof.
  intros H. unfold upd. wlp_step. apply wlp_slot. intros p Hp. wlp_step. eapply H; [exact Hp|].
  unfold tab_of, retab. cbn [procs cur initproc nextpid set_procs t_procs t_cur t_init t_next].
  by rewrite (alter_insert _ _ _ p).
Qed.
Lemma wlp_st64 a v Q B s : (forall s', tab_of s' = tab_of s -> Q tt s') -> wlp (st64 a v) Q B s.
Proof. intros H. unfold st64. wlp_step. by apply H. Qed.
Lemma wlp_zero64 a n Q B s : (forall s', tab_of s' = tab_of s -> Q tt s') -> wlp (zero64 a n) Q B s.
Proof.
  intros H. unfold zero64. apply wlp_loop with (Inv := fun _ s' => tab_of s' = tab_of s); [done|].
  intros v s' E'. destruct (negb _); [wlp_step; by apply H|].
  wlp_step. apply wlp_st64. intros s2 E2. wlp_step. congruence.
Qed.
Lemma wlp_copy64 a b n Q B s : (forall s', tab_of s' = tab_of s -> Q tt s') -> wlp (copy64 a b n) Q B s.
Proof.
  intros H. unfold copy64. apply wlp_loop with (Inv := fun _ s' => tab_of s' = tab_of s); [done|].
  intros v s' E'. destruct (negb _); [wlp_step; by apply H|].
  wlp_step. unfold ld64. wlp_step. wlp_step. apply wlp_st64. intros s2 E2. wlp_step. congruence.
Qed.
Lemma wlp_name_copy a b Q B s : (forall l, Q l s) -> wlp (name_copy a b) Q B s.
Proof. intros H. unfold wlp, name_copy. by destruct (safestrcpy _ _ _ _). Qed.

Lemma wlp_wakeup1 c Q B s :
  (forall s', tab_of s' = retab (fmap (wake_one c)) (tab_of s) -> Q tt s') -> wlp (wakeup1 c) Q B s.
Proof. intros H. unfold wakeup1. wlp_step. by apply H. Qed.
Lemma wlp_wakeup c Q B s :
  (forall s', tab_of s' = retab (fmap (wake_one c)) (tab_of s) -> Q tt s') -> wlp (wakeup c) Q B s.
Proof.
  intros H. unfold wakeup. wlp_step. apply wlp_acquire. intros s1 E1. wlp_step. apply wlp_wakeup1.
  intros s2 E2. apply wlp_release. intros s3 E3. apply H. by rewrite E3, E2, E1.
Qed.

Lemma wlp_sched {A} (Q : A -> @st E -> Prop) B s : B s -> wlp sched Q B s.
Proof.
  intros H. unfold sched, Spin.holding. repeat (wlp_step; try (apply wlp_self; intros ? ?); try (apply wlp_slot; intros ? ?)).
  unfold int_enabled. unfold wlp at 1, zoom, Spin.int_enabled. cbn [gets].
  assert (set_pcpu (pcpu s) s = s) as E' by (by destruct s).
  change (lset cpu_lens (lget cpu_lens s) s) with (set_pcpu (pcpu s) s). rewrite E'.
  wlp_step. wlp_step. by wlp_step.
Qed.

  (** asleep on [c] *)
Definition asleep (c : option chan) (p : proc) : proc := set_state SLEEPING (set_chan c p).

Lemma wlp_doze {A} c (Q : A -> @st E -> Prop) B s :
  (forall i p s', cur s = Some i -> procs s !! i = Some p ->
     tab_of s' = retab (<[i := asleep c p]>) (tab_of s) -> B s') ->
  wlp (i ← self; upd i (set_chan c) ;; upd i (set_state SLEEPING) ;; sched) Q B s.
Proof.
  intros H. wlp_step. apply wlp_self. intros i Hc. wlp_step. apply wlp_upd. intros p s1 Hp E1.
  wlp_step. apply wlp_upd. intros q s2 Hq E2. apply wlp_sched. apply (H i p); [done|done|].
  assert (procs s1 = <[i := set_chan c p]> (procs s)) as E3 by (change (procs s1) with (t_procs (tab_of s1)); by rewrite E1).
  rewrite E3, list_lookup_insert_eq in Hq by (by eapply lookup_lt_Some). injection Hq as <-.
  rewrite E2, E1, retab_retab. unfold retab, asleep. cbn [t_procs t_cur t_init t_next tab_of]. f_equal.
  apply list_insert_insert_eq.
Qed.

Lemma wlp_wakeups l Q B s :
  (forall s' ps, woken (procs s) ps -> tab_of s' = retab (fun _ => ps) (tab_of s) -> Q tt s') ->
  wlp (wakeups l) Q B s.
Proof.
  revert s. induction l as [|c l IH]; intros s H; cbn [wakeups].
  - wlp_step. apply (H s (procs s)); [apply woken_refl|by destruct s].
  - wlp_step. apply wlp_wakeup. intros s1 E1. apply IH. intros s2 ps Hw E2. apply (H s2 ps).
    + eapply woken_trans; [apply (woken_fmap (Some c))|].
      change (procs s1) with (t_procs (tab_of s1)) in Hw. rewrite E1 in Hw. exact Hw.
    + by rewrite E2, E1.
Qed.

Lemma wlp_call {A} (f : M E A) Q B s :
  (forall a s' ps, woken (procs s) ps -> tab_of s' = retab (fun _ => ps) (tab_of s) -> Q a s') ->
  (forall s' ps i p c e, f (env s) = Block c e -> woken (procs s) ps -> cur s = Some i -> ps !! i = Some p ->
     tab_of s' = retab (fun _ => <[i := asleep (Some c) p]> ps) (tab_of s) -> B s') ->
  wlp (call f) Q B s.
Proof.
  intros H HB. unfold wlp, call. destruct (f (env s)) as [a e| | |c e| |] eqn:Ef; try done.
  - change (wlp (wakeups (issued (env s) e) ;; mret a) Q B (set_env e s)).
    wlp_step. apply wlp_wakeups. intros s' ps Hw E'. wlp_step. by eapply H.
  - match goal with |- match ?x with _ => _ end => change (wlp (fun _ => x) Q B (set_env e s)) end.
    match goal with |- wlp (fun _ => ?x _) _ _ _ => change (wlp x Q B (set_env e s)) end.
    wlp_step. apply wlp_wakeups. intros s1 ps Hw E1. wlp_step. apply wlp_acquire. intros s2 E2.
    apply wlp_doze. intros i p s3 Hc Hp E3.
    assert (tab_of s2 = retab (fun _ => ps) (tab_of s)) as E4 by (by rewrite E2, E1).
    change (cur s2) with (t_cur (tab_of s2)) in Hc. change (procs s2) with (t_procs (tab_of s2)) in Hp.
    rewrite E4 in Hc, Hp. apply (HB s3 ps i p c e); [done|done|done|done|]. by rewrite E3, E4.
Qed.
End rules.

(** ** Each operation keeps the invariant *)

Definition both (t : tab) : Prop := table_ok t /\ family_ok t.
(** the process at work *)
Definition good (me : nat) (t : tab) : Prop :=
  both t /\ t_cur t = Some me /\ exists p, t_procs t !! me = Some p /\ state p = RUNNING.

Lemma both_woken t ps : woken (t_procs t) ps -> both t -> both (retab (fun _ => ps) t).
Proof. intros Hw [? ?]. split; [by apply table_woken|by apply family_woken]. Qed.
Lemma woken_running ps ps' i p : woken ps ps' -> ps !! i = Some p -> state p <> SLEEPING -> ps' !! i = Some p.
Proof.
  intros Hw Hi Hs. destruct (woken_lookup_l _ _ _ _ Hw Hi) as (p' & Hp' & Hwp).
  destruct (woke_same _ _ Hwp) as (_ & _ & _ & _ & _ & _ & En). by rewrite <-(En Hs).
Qed.
Lemma good_woken me t ps : woken (t_procs t) ps -> good me t -> good me (retab (fun _ => ps) t).
Proof.
  intros Hw (Hb & Hc & p & Hp & Hs). split; [by apply both_woken|]. split; [done|]. exists p.
  split; [|done]. eapply woken_running; [done|done|by rewrite Hs].
Qed.

(** changes the invariant does not see *)
Definition inert (f : proc -> proc) : Prop := forall p,
  state (f p) = state p /\ pid (f p) = pid p /\ parent (f p) = parent p /\ pchan (f p) = pchan p.
Lemma same_alive p q : state p = state q -> alive p = alive q /\ live p = live q.
Proof. intros E. unfold alive, live. by rewrite E. Qed.

Lemma table_inert t i p f : t_procs t !! i = Some p -> inert f -> table_ok t -> table_ok (retab (<[i := f p]>) t).
Proof.
  intros Hi Hf Ht. destruct (Hf p) as (Es & Ep & Epar & Ec). destruct (same_alive _ _ Es) as [Ea El].
  pose proof Ht as [Hl Hn Hp Hu Hr Hpa Hz]. eapply table_upd; [done|..|done].
  - intros Hlv. rewrite Ep. rewrite El in Hlv. split; [by eapply Hp|]. intros j q Hj Hq E. by eapply Hu.
  - rewrite Es. by eapply Hr.
  - by left.
  - rewrite Ea. destruct (alive p) eqn:Ealv; [by left|]. right. intros j q Hj Hpq.
    destruct (Hpa _ _ _ Hj Hpq) as (_ & pq & Hi' & Hal). congruence.
  - rewrite Es, Epar. intros Hs q pq. exact (Hz i p q pq Hi Hs).
  - rewrite Es, Ec. intros Hs Hch j q Hj Hq Hsz. exact (Hz j q i p Hj Hsz Hq Hi Hs Hch).
Qed.
Lemma family_inert t i p f : t_procs t !! i = Some p -> inert f -> family_ok t -> family_ok (retab (<[i := f p]>) t).
Proof.
  intros Hi Hf [(a & pa & Ha & Hpa & Hal & Hpar) Ho]. destruct (Hf p) as (Es & Ep & Epar & Ec).
  destruct (same_alive _ _ Es) as [Ea El]. split; cbn [retab t_procs t_cur t_init t_next].
  - destruct (decide (a = i)) as [->|Hne].
    + exists i, (f p). rewrite Ea, Epar. assert (pa = p) as -> by congruence.
      rewrite list_lookup_insert_eq by (by eapply lookup_lt_Some). done.
    + exists a, pa. by rewrite list_lookup_insert_ne.
  - intros j q Hj. apply list_lookup_insert_Some in Hj as [(<- & <- & _)|[_ Hj]]; [|by eapply Ho].
    rewrite Es, Epar. by apply Ho.
Qed.
Lemma good_inert me t i p f : t_procs t !! i = Some p -> inert f -> good me t -> good me (retab (<[i := f p]>) t).
Proof.
  intros Hi Hf ([Ht Hfam] & Hc & q & Hq & Hs).
  split; [split; [by apply table_inert|by apply family_inert]|]. split; [done|].
  cbn [retab t_procs]. destruct (decide (i = me)) as [->|Hne].
  - exists (f p). rewrite list_lookup_insert_eq by (by eapply lookup_lt_Some). split; [done|].
    destruct (Hf p) as [-> _]. congruence.
  - exists q. by rewrite list_lookup_insert_ne.
Qed.

Ltac inert := intros ?; done.

(** nobody's parent is an entry that is not alive *)
Lemma no_children t i p : table_ok t -> t_procs t !! i = Some p -> alive p = false ->
  forall j q, t_procs t !! j = Some q -> parent q <> Some i.
Proof.
  intros Ht Hi Ha j q Hj Hq. destruct (to_parent _ Ht _ _ _ Hj Hq) as (_ & pq & Hi' & Hal). congruence.
Qed.

(** The current process goes to sleep. *)
Lemma good_asleep me t c p : good me t -> t_procs t !! me = Some p ->
  (c = Some (ch_proc me) -> forall j q, t_procs t !! j = Some q -> parent q = Some me -> state q <> ZOMBIE) ->
  both (retab (<[me := asleep c p]>) t).
Proof.
  intros ([Ht Hf] & Hcur & q0 & Hq0 & Hrun) Hp Hz. assert (q0 = p) as -> by congruence.
  pose proof Ht as [Hl Hn Hpid Hu Hr Hpa Hzo]. split.
  - eapply table_upd; [done|..|done]; cbn [asleep set_state set_chan state pid parent pchan].
    + intros _. assert (live p = true) as Hlv by (unfold live; by rewrite Hrun). split; [by eapply Hpid|].
      intros j q Hj Hlq E. by eapply Hu.
    + done.
    + by left.
    + by left.
    + done.
    + intros _ Hch. by apply Hz.
  - destruct Hf as [(a & pa & Ha & Hpa' & Hal & Hpar) Ho]. split; cbn [retab t_procs t_cur t_init t_next].
    + destruct (decide (a = me)) as [->|Hne].
      * exists me, (asleep c p). rewrite list_lookup_insert_eq by (by eapply lookup_lt_Some).
        split; [done|]. split; [done|]. split; [done|]. cbn. congruence.
      * exists a, pa. by rewrite list_lookup_insert_ne.
    + intros j q Hj. apply list_lookup_insert_Some in Hj as [(<- & <- & _)|[_ Hj]]; [|by eapply Ho].
      cbn. intros Hpp _ _. apply (Ho me p); [done|done|by rewrite Hrun..].
Qed.

(** what a process leaves that sleeps in another file's code *)
Definition dozed (me : nat) (t : tab) : Prop :=
  t_cur t = Some me /\ exists p, t_procs t !! me = Some p /\
    ((state p = SLEEPING -> forall j, pchan p <> Some (ch_proc j)) -> both t).
(** and one that gave up the processor in this one *)
Definition rested (me : nat) (t : tab) : Prop := t_cur t = Some me /\ both t.

Section ops.
  Context {E : Type} {PE : ProcEnv E} (sym : symbols).
  Implicit Types (s : @st E) (B : @st E -> Prop).

  (** a call from a process at work *)
Lemma call_good {A} (f : M E A) me (Q : A -> @st E -> Prop) B s : good me (tab_of s) ->
    (forall a s', good me (tab_of s') -> Q a s') -> (forall s', dozed me (tab_of s') -> B s') ->
    wlp (call f) Q B s.
Proof.
  intros Hg HQ HB. apply wlp_call.
  - intros a s' ps Hw E'. apply HQ. rewrite E'. by apply good_woken.
  - intros s' ps i p c e _ Hw Hc Hp E'. apply HB. rewrite E'. pose proof Hg as (_ & Hc' & _).
    assert (i = me) as -> by (cbn in Hc'; congruence).
    assert (good me (retab (fun _ => ps) (tab_of s))) as Hg' by (by apply good_woken).
    split; [done|]. exists (asleep (Some c) p). split; [cbn [retab t_procs]; apply list_lookup_insert_eq; by eapply lookup_lt_Some|].
    intros Hel. apply (good_asleep me _ (Some c) p Hg'); [done|]. intros Hch. destruct (Hel eq_refl me). done.
Qed.
Lemma upd_good me i f (Q : unit -> @st E -> Prop) B s : good me (tab_of s) -> inert f ->
    (forall s', good me (tab_of s') -> Q tt s') -> wlp (upd i f) Q B s.
Proof.
  intros Hg Hf HQ. apply wlp_upd. intros p s' Hp E'. apply HQ. rewrite E'. by apply good_inert.
Qed.
Lemma self_good me (Q : nat -> @st E -> Prop) B s : good me (tab_of s) -> Q me s -> wlp self Q B s.
Proof. intros (_ & Hc & _) HQ. apply wlp_self. intros i Hi. cbn in Hc. congruence. Qed.

Lemma switchuvm_tab p (Q : unit -> @st E -> Prop) B s : (forall s', tab_of s' = tab_of s -> Q tt s') ->
    wlp (switchuvm p) Q B s.
Proof.
  intros H. unfold switchuvm. wlp_step. wlp_step. eapply wlp_mono; [apply Spin.pushcli_returns| |done].
  cbn beta. intros [] c _. repeat wlp_step. eapply wlp_mono; [apply Spin.popcli_returns| |done].
  cbn beta. intros [] c' _. by apply H.
Qed.

Lemma growproc_good me n B s : good me (tab_of s) -> (forall s', dozed me (tab_of s') -> B s') ->
    wlp (growproc n) (fun _ s' => good me (tab_of s')) B s.
Proof.
  intros Hg HB. unfold growproc. wlp_step. apply (self_good me); [done|]. wlp_step. apply wlp_slot. intros p Hp.
  wlp_step. apply wlp_mono with (Q := fun _ s' => good me (tab_of s')) (B := B); [|clear s Hg Hp|done].
  - destruct (0 <? n); [|destruct (n <? 0); [|by wlp_step]];
      (wlp_step; apply (call_good _ me); [done| |done]; intros a s' Hg'; by wlp_step).
  - intros [v|] s Hg; [|by wlp_step]. wlp_step. apply (upd_good me); [done|inert|].
    intros s2 H2. wlp_step. apply wlp_slot. intros q Hq. wlp_step. apply switchuvm_tab. intros s3 E3.
    wlp_step. by rewrite E3.
Qed.

Lemma kill_good me pd B s : good me (tab_of s) ->
    wlp (kill pd) (fun _ s' => good me (tab_of s')) B s.
Proof.
  intros Hg. unfold kill. wlp_step. apply wlp_acquire. intros s1 E1. wlp_step. wlp_step.
  rewrite <-E1 in Hg. clear s E1. destruct (list_find _ _) as [[i p]|] eqn:Ef.
  - apply list_find_Some in Ef as (Hi & _ & _). wlp_step. apply wlp_upd. intros p' s2 Hp' E2.
    assert (p' = p) as -> by congruence. wlp_step.
    assert (good me (tab_of s2)) as Hg2 by (rewrite E2; apply good_inert; [done|inert|done]).
    eapply wlp_mono with (B := B) (Q := fun _ s' => good me (tab_of s')); [|clear s2 E2 Hg2|done].
    + apply wlp_when; intros Hs; [|done]. apply bool_decide_eq_true in Hs.
      assert (procs s2 !! i = Some (set_killed 1 p)) as Hi2.
      { change (procs s2) with (t_procs (tab_of s2)). rewrite E2. cbn. apply list_lookup_insert_eq. by eapply lookup_lt_Some. }
      apply wlp_upd. intros q s3 Hq E3. rewrite E3. rewrite (retab_at _ s2). apply good_woken; [|done].
      assert (q = set_killed 1 p) as -> by congruence. cbn [tab_of t_procs]. clear -Hi2 Hs.
      revert i Hi2. induction (procs s2) as [|r l IH]; intros [|i] Hi; [done..| |].
      * injection Hi as ->. constructor; [by right|apply woken_refl].
      * constructor; [by left|]. by apply IH.
    + intros [] s2 Hg2. wlp_step. apply wlp_release. intros s3 E3. wlp_step. by rewrite E3.
  - wlp_step. apply wlp_release. intros s3 E3. wlp_step. by rewrite E3.
Qed.
End ops.

(** *** Creating *)

Definition claim (i : nat) (np : proc) (t : tab) : tab :=
  Tab (<[i := np]> (t_procs t)) (t_cur t) (t_init t) (t_next t + 1).

(** a free entry given the next process number *)
Lemma table_claim t i p0 np : table_ok t -> t_procs t !! i = Some p0 -> state p0 = UNUSED ->
  state np = EMBRYO \/ state np = UNUSED -> pid np = t_next t -> parent np = parent p0 ->
  table_ok (claim i np t).
Proof.
  intros Ht Hi Hs Hnp Hpid Hpar. pose proof Ht as [Hl Hn Hp Hu Hr Hpa Hz].
  assert (table_ok (Tab (t_procs t) (t_cur t) (t_init t) (t_next t + 1))) as Ht1.
  { split; cbn [t_procs t_cur t_init t_next]; try done; [lia|]. intros j q Hj Hq. specialize (Hp j q Hj Hq). lia. }
  assert (alive p0 = false) as Ha0 by (unfold alive; by rewrite Hs).
  change (claim i np t) with (retab (<[i := np]>) (Tab (t_procs t) (t_cur t) (t_init t) (t_next t + 1))).
  eapply table_upd; [exact Hi|..|exact Ht1]; cbn [t_procs t_cur t_init t_next].
  - intros _. rewrite Hpid. split; [lia|]. intros j q Hj Hq E. specialize (Hp j q Hj Hq). lia.
  - intros E. destruct Hnp; congruence.
  - by left.
  - right. by eapply no_children.
  - intros E. destruct Hnp; congruence.
  - intros E. destruct Hnp; congruence.
Qed.
Lemma family_claim t i p0 np : table_ok t -> family_ok t -> t_procs t !! i = Some p0 -> state p0 = UNUSED ->
  state np = EMBRYO \/ state np = UNUSED -> family_ok (claim i np t).
Proof.
  intros Ht [(a & pa & Ha & Hpa & Hal & Hpar) Ho] Hi Hs Hnp. split; cbn [claim t_procs t_cur t_init t_next].
  - exists a, pa. rewrite list_lookup_insert_ne; [done|]. intros ->. assert (pa = p0) as -> by congruence.
    unfold alive in Hal. by rewrite Hs in Hal.
  - intros j q Hj. apply list_lookup_insert_Some in Hj as [(<- & <- & _)|[_ Hj]]; [|by eapply Ho].
    intros _ ? ?. by destruct Hnp.
Qed.

Lemma woken_insert i np l l' np' : woken (<[i := np]> l) l' -> (i < length l)%nat -> state np <> SLEEPING ->
  woken (<[i := np']> l) (<[i := np']> l').
Proof.
  revert i l'. induction l as [|x l IH]; intros [|i] l' Hw Hlen Hs; cbn in *; [lia|lia|..].
  - inversion Hw as [|a b c d Hab Hcd]; subst. constructor; [by left|done].
  - inversion Hw as [|a b c d Hab Hcd]; subst. cbn. constructor; [done|]. apply IH; [done|lia|done].
Qed.

Section create.
  Context {E : Type} {PE : ProcEnv E} (sym : symbols).
  Implicit Types (s : @st E) (B : @st E -> Prop).

  (** what allocproc leaves: the entry [i] that was free, and wakeups *)
Definition claimed (i : nat) (v : procstate) (s s' : @st E) : Prop :=
  exists p0 np ps, procs s !! i = Some p0 /\ state p0 = UNUSED /\ state np = v /\ pid np = nextpid s /\
    parent np = parent p0 /\ woken (<[i := np]> (procs s)) ps /\
    tab_of s' = retab (fun _ => ps) (claim i np (tab_of s)).

Lemma claimed_at i v s s1 p : claimed i v s s1 -> v = EMBRYO \/ v = UNUSED -> procs s1 !! i = Some p -> state p = v.
Proof.
  intros (q0 & np & ps & Hi & Hs0 & Hs & _ & _ & Hw & E1) Hv Hp.
  change (procs s1) with (t_procs (tab_of s1)) in Hp. rewrite E1 in Hp. cbn in Hp.
  assert (ps !! i = Some np) as Hnp; [|congruence].
  eapply woken_running; [done|apply list_lookup_insert_eq; by eapply lookup_lt_Some|]. destruct Hv; congruence.
Qed.
Lemma claimed_inert i v s s1 s2 p f : claimed i v s s1 -> v = EMBRYO \/ v = UNUSED ->
    procs s1 !! i = Some p -> pid (f p) = pid p -> parent (f p) = parent p ->
    tab_of s2 = retab (<[i := f p]>) (tab_of s1) -> claimed i (state (f p)) s s2.
Proof.
  intros (p0 & np & ps & Hi & Hs0 & Hs & Hpid & Hpar & Hw & E1) Hv Hp Hfp Hfpar E2.
  assert (procs s1 = ps) as Eps by (change (procs s1) with (t_procs (tab_of s1)); by rewrite E1).
  rewrite Eps in Hp. assert (i < length (procs s))%nat as Hlen by (by eapply lookup_lt_Some).
  assert (p = np) as ->.
  { assert (ps !! i = Some np); [|congruence]. eapply woken_running; [done|by apply list_lookup_insert_eq|].
    destruct Hv; congruence. }
  exists p0, (f np), (<[i := f np]> ps). split; [done|]. split; [done|]. split; [done|].
  split; [congruence|]. split; [congruence|]. split.
  - eapply woken_insert; [done|done|destruct Hv; congruence].
  - rewrite E2, E1. done.
Qed.
Lemma claimed_woken i v s s1 s2 ps : claimed i v s s1 -> woken (procs s1) ps ->
    tab_of s2 = retab (fun _ => ps) (tab_of s1) -> claimed i v s s2.
Proof.
  intros (p0 & np & ps1 & Hi & Hs0 & Hs & Hpid & Hpar & Hw & E1) Hw2 E2.
  assert (procs s1 = ps1) as Eps by (change (procs s1) with (t_procs (tab_of s1)); by rewrite E1).
  exists p0, np, ps. rewrite Eps in Hw2. do 5 (split; [done|]). split; [by eapply woken_trans|].
  by rewrite E2, E1.
Qed.
Lemma claimed_ext i v s s1 s2 : claimed i v s s1 -> tab_of s2 = tab_of s1 -> claimed i v s s2.
Proof. intros (p0 & np & ps & H) E'. exists p0, np, ps. by rewrite E'. Qed.
Lemma claimed_ok i v s s' : claimed i v s s' -> v = EMBRYO \/ v = UNUSED -> table_ok (tab_of s) -> table_ok (tab_of s').
Proof.
  intros (p0 & np & ps & Hi & Hs0 & Hs & Hpid & Hpar & Hw & ->) Hv Ht. apply table_woken; [done|].
  by eapply table_claim; [| | |rewrite Hs| |].
Qed.
Lemma claimed_good me i v s s' : claimed i v s s' -> v = EMBRYO \/ v = UNUSED -> good me (tab_of s) -> good me (tab_of s').
Proof.
  intros (p0 & np & ps & Hi & Hs0 & Hs & Hpid & Hpar & Hw & ->) Hv ([Ht Hf] & Hc & p & Hp & Hr).
  apply good_woken; [done|]. split; [split|].
  - by eapply table_claim; [| | |rewrite Hs| |].
  - by eapply family_claim; [| | | |rewrite Hs].
  - split; [done|]. exists p. split; [|done]. cbn [claim t_procs]. rewrite list_lookup_insert_ne; [done|].
    intros ->. cbn in Hp. congruence.
Qed.

Lemma wlp_init_stack i k (Q : unit -> @st E -> Prop) B s :
    (forall s' p t c, procs s !! i = Some p -> tab_of s' = retab (<[i := set_frames t c p]>) (tab_of s) -> Q tt s') ->
    wlp (init_stack sym i k) Q B s.
Proof.
  intros H. unfold init_stack. wlp_step. apply wlp_st64. intros s1 E1. wlp_step. apply wlp_st64. intros s2 E2.
  wlp_step. apply wlp_upd. intros p s3 Hp E3. wlp_step. apply wlp_zero64. intros s4 E4. apply wlp_st64.
  intros s5 E5. eapply H.
  - change (procs s) with (t_procs (tab_of s)). rewrite <-E1, <-E2. exact Hp.
  - by rewrite E5, E4, E3, E2, E1.
Qed.

Lemma wlp_allocproc (Q : option nat -> @st E -> Prop) B s :
    (forall s', tab_of s' = tab_of s \/ (exists i, claimed i UNUSED s s') -> Q None s') ->
    (forall s' i, claimed i EMBRYO s s' -> Q (Some i) s') -> (forall s', B s') ->
    wlp (allocproc sym) Q B s.
Proof.
  intros HN HS HB. unfold allocproc. wlp_step. apply wlp_acquire. intros s1 E1. wlp_step. wlp_step.
  destruct (list_find _ _) as [[i p0]|] eqn:Ef.
  - apply list_find_Some in Ef as (Hi & Hs0 & _). wlp_step. apply wlp_upd. intros p s2 Hp E2.
    assert (p = p0) as -> by congruence. wlp_step. wlp_step. wlp_step. wlp_step.
    wlp_step. apply wlp_upd. intros p s3 Hp3 E3. wlp_step. wlp_step. wlp_step. apply wlp_release. intros s4 E4.
    assert (procs s2 = <[i := set_state EMBRYO p0]> (procs s1)) as Eps2
      by (change (procs s2) with (t_procs (tab_of s2)); by rewrite E2).
    rewrite Eps2, list_lookup_insert_eq in Hp3 by (by eapply lookup_lt_Some). injection Hp3 as <-.
    assert (nextpid s2 = nextpid s) as En
      by (change (nextpid s2) with (t_next (tab_of s2)); rewrite E2; change (t_next (tab_of s1) = nextpid s); by rewrite E1).
    assert (procs s1 = procs s) as Eps1 by (change (procs s1) with (t_procs (tab_of s1)); by rewrite E1).
    assert (claimed i EMBRYO s s4) as Hcl.
    { exists p0, (set_pid (nextpid s2) (set_state EMBRYO p0)), (<[i := set_pid (nextpid s2) (set_state EMBRYO p0)]> (procs s)).
      split; [congruence|]. do 4 (split; [done|]). split; [apply woken_refl|].
      rewrite E4. unfold tab_of at 1. cbn [set_nextpid procs cur initproc nextpid].
      assert (procs s3 = <[i := set_pid (nextpid s2) (set_state EMBRYO p0)]> (procs s)) as ->.
      { change (procs s3) with (t_procs (tab_of s3)). rewrite E3. cbn [retab t_procs tab_of]. rewrite Eps2, Eps1.
        apply list_insert_insert_eq. }
      change (cur s3) with (t_cur (tab_of s3)). change (initproc s3) with (t_init (tab_of s3)).
      rewrite E3. cbn [retab t_cur t_init]. rewrite E2. cbn [retab t_cur t_init]. rewrite E1, En. done. }
    clear -HN HS HB Hcl.
    wlp_step. apply wlp_call; [|intros; apply HB]. intros k s5 ps Hw E5.
    apply (claimed_woken _ _ _ _ _ _ Hcl Hw) in E5. clear Hcl Hw ps s4.
    wlp_step. apply wlp_upd. intros p s6 Hp E6.
    pose proof (claimed_at _ _ _ _ _ E5 (or_introl eq_refl) Hp) as Hemb.
    apply (claimed_inert _ _ _ _ _ _ (set_kstack k) E5 (or_introl eq_refl) Hp eq_refl eq_refl) in E6.
    cbn [set_kstack state] in E6. rewrite Hemb in E6. clear E5 Hp p Hemb s5.
    destruct (k =? 0).
    + wlp_step. apply wlp_upd. intros p s7 Hp E7. wlp_step. apply HN. right. exists i.
      by apply (claimed_inert _ _ _ _ _ _ (set_state UNUSED) E6 (or_introl eq_refl) Hp eq_refl eq_refl) in E7.
    + wlp_step. apply wlp_init_stack. intros s7 p a c Hp E7. wlp_step. apply HS.
      apply (claimed_inert _ _ _ _ _ _ (set_frames a c) E6 (or_introl eq_refl) Hp eq_refl eq_refl) in E7.
      cbn [set_frames state] in E7. by rewrite (claimed_at _ _ _ _ _ E6 (or_introl eq_refl) Hp) in E7.
  - wlp_step. apply wlp_release. intros s2 E2. wlp_step. apply HN. left. by rewrite E2, E1.
Qed.
End create.

(** the process at work, and the entry it is building, with its parent *)
Definition building (me i : nat) (par : option nat -> Prop) (t : tab) : Prop :=
  good me t /\ exists np, t_procs t !! i = Some np /\ state np = EMBRYO /\ par (parent np).

Lemma building_woken me i par t ps : woken (t_procs t) ps -> building me i par t -> building me i par (retab (fun _ => ps) t).
Proof.
  intros Hw (Hg & np & Hi & Hs & Hp). split; [by apply good_woken|]. exists np. split; [|done].
  eapply woken_running; [done|done|by rewrite Hs].
Qed.
Lemma building_inert me i par t j p f : t_procs t !! j = Some p -> inert f -> building me i par t ->
  building me i par (retab (<[j := f p]>) t).
Proof.
  intros Hj Hf (Hg & np & Hi & Hs & Hp). split; [by apply good_inert|]. cbn [retab t_procs].
  destruct (decide (j = i)) as [->|Hne].
  - exists (f p). rewrite list_lookup_insert_eq by (by eapply lookup_lt_Some).
    destruct (Hf p) as (-> & _ & -> & _). assert (p = np) as -> by congruence. done.
  - exists np. by rewrite list_lookup_insert_ne.
Qed.
(** the parent's slot is set, and the child started *)
Lemma building_parent me i par t np : building me i par t -> t_procs t !! i = Some np ->
  building me i (fun o => o = Some me) (retab (<[i := set_parent (Some me) np]>) t).
Proof.
  intros (([Ht Hf] & Hc & pm & Hpm & Hrun) & np' & Hi' & Hs & _) Hi. assert (np' = np) as -> by congruence.
  assert (i <> me) as Hne by (intros ->; congruence).
  assert (alive np = false) as Ha by (unfold alive; by rewrite Hs).
  assert (live np = true) as Hlv by (unfold live; by rewrite Hs).
  split; [split; [split|split; [done|]]|].
  - eapply table_upd; [done|..|done]; cbn [set_parent state pid parent pchan].
    + intros _. split; [by eapply (to_pid _ Ht)|]. intros j q Hj Hq E. by eapply (to_uniq _ Ht).
    + intros E. congruence.
    + right. intros q [= <-]. split; [done|]. exists pm. split; [done|]. unfold alive. by rewrite Hrun.
    + right. by eapply no_children.
    + intros E. congruence.
    + intros E. congruence.
  - destruct Hf as [(a & pa & Ha' & Hpa & Hal & Hpar) Ho]. split; cbn [retab t_procs t_cur t_init t_next].
    + exists a, pa. rewrite list_lookup_insert_ne; [done|]. intros ->. congruence.
    + intros j q Hj. apply list_lookup_insert_Some in Hj as [(<- & <- & _)|[_ Hj]]; [done|by eapply Ho].
  - exists pm. cbn [retab t_procs]. by rewrite list_lookup_insert_ne.
  - exists (set_parent (Some me) np). cbn [retab t_procs].
    rewrite list_lookup_insert_eq by (by eapply lookup_lt_Some). done.
Qed.
Lemma building_start me i t np v : building me i (fun o => o = Some me) t -> t_procs t !! i = Some np ->
  v = RUNNABLE \/ v = UNUSED -> good me (retab (<[i := set_state v np]>) t).
Proof.
  intros (([Ht Hf] & Hc & pm & Hpm & Hrun) & np' & Hi' & Hs & Hpar) Hi Hv. assert (np' = np) as -> by congruence.
  assert (i <> me) as Hne by (intros ->; congruence).
  assert (alive np = false) as Ha by (unfold alive; by rewrite Hs).
  assert (live np = true) as Hlv by (unfold live; by rewrite Hs).
  split; [split|split; [done|]].
  - eapply table_upd; [done|..|done]; cbn [set_state state pid parent pchan].
    + intros _. split; [by eapply (to_pid _ Ht)|]. intros j q Hj Hq E. by eapply (to_uniq _ Ht).
    + intros E. destruct Hv; congruence.
    + by left.
    + right. by eapply no_children.
    + intros E. destruct Hv; congruence.
    + intros E. destruct Hv; congruence.
  - destruct Hf as [(a & pa & Ha' & Hpa & Hal & Hp0) Ho]. split; cbn [retab t_procs t_cur t_init t_next].
    + exists a, pa. rewrite list_lookup_insert_ne; [done|]. intros ->. congruence.
    + intros j q Hj. apply list_lookup_insert_Some in Hj as [(<- & <- & _)|[_ Hj]]; [|by eapply Ho].
      cbn. congruence.
  - exists pm. cbn [retab t_procs]. by rewrite list_lookup_insert_ne.
Qed.
(** an entry given up before it was started *)
Lemma building_abandon me i par t np : building me i par t -> t_procs t !! i = Some np ->
  good me (retab (<[i := set_state UNUSED np]>) t).
Proof.
  intros (([Ht Hf] & Hc & pm & Hpm & Hrun) & np' & Hi' & Hs & Hpar) Hi. assert (np' = np) as -> by congruence.
  assert (i <> me) as Hne by (intros ->; congruence).
  assert (alive np = false) as Ha by (unfold alive; by rewrite Hs).
  split; [split|split; [done|]].
  - eapply table_upd; [done|..|done]; cbn [set_state state pid parent pchan]; try done; [by left|].
    right. by eapply no_children.
  - destruct Hf as [(a & pa & Ha' & Hpa & Hal & Hp0) Ho]. split; cbn [retab t_procs t_cur t_init t_next].
    + exists a, pa. rewrite list_lookup_insert_ne; [done|]. intros ->. congruence.
    + intros j q Hj. apply list_lookup_insert_Some in Hj as [(<- & <- & _)|[_ Hj]]; [done|by eapply Ho].
  - exists pm. cbn [retab t_procs]. by rewrite list_lookup_insert_ne.
Qed.

Section forks.
  Context {E : Type} {PE : ProcEnv E} (sym : symbols).
  Implicit Types (s : @st E) (B : @st E -> Prop).
  Abbreviation any := (fun _ : @st E => True).

Lemma call_building {A} (f : M E A) me i par (Q : A -> @st E -> Prop) s : building me i par (tab_of s) ->
    (forall a s', building me i par (tab_of s') -> Q a s') -> wlp (call f) Q any s.
Proof.
  intros Hb HQ. apply wlp_call; [|done]. intros a s' ps Hw E'. apply HQ. rewrite E'. by apply building_woken.
Qed.
Lemma upd_building me i par j f (Q : unit -> @st E -> Prop) s : building me i par (tab_of s) -> inert f ->
    (forall s', building me i par (tab_of s') -> Q tt s') -> wlp (upd j f) Q any s.
Proof.
  intros Hb Hf HQ. apply wlp_upd. intros p s' Hp E'. apply HQ. rewrite E'. by apply building_inert.
Qed.

Lemma fork_files me i par s : building me i par (tab_of s) ->
    wlp (loop (Datatypes.S NOFILE) (fork_file me i) 0%nat) (fun _ s' => building me i par (tab_of s')) any s.
Proof.
  intros Hb. apply wlp_loop with (Inv := fun _ s' => building me i par (tab_of s')); [done|]. clear s Hb.
  intros fd s Hb. unfold fork_file. destruct (negb _); [by wlp_step|].
  wlp_step. apply wlp_slot. intros p Hp. wlp_step. wlp_step. wlp_step.
  destruct (negb _); [|by repeat wlp_step].
  wlp_step. apply (call_building _ me i par); [done|]. intros f s2 H2.
  apply (upd_building me i par); [done|inert|]. intros s3 H3. by wlp_step.
Qed.

Lemma fork_good me s : good me (tab_of s) -> wlp (fork sym) (fun _ s' => good me (tab_of s')) any s.
Proof.
  intros Hg. unfold fork. wlp_step. apply wlp_allocproc; [| |done].
  - intros s1 [E1|[i Hcl]]; wlp_step; [by rewrite E1|]. by eapply claimed_good; [done|right|].
  - intros s1 i Hcl. assert (building me i (fun _ => True) (tab_of s1)) as Hb.
    { split; [by eapply claimed_good; [done|left|]|].
      destruct Hcl as (p0 & np & ps & Hi & Hs0 & Hs & _ & _ & Hw & E1). exists np. split; [|done].
      rewrite E1. cbn [retab t_procs]. eapply woken_running; [done|apply list_lookup_insert_eq; by eapply lookup_lt_Some|by rewrite Hs]. }
    clear Hg Hcl. wlp_step. apply (self_good me); [by apply Hb|]. wlp_step. apply wlp_slot. intros p Hp.
    wlp_step. apply (call_building _ me i (fun _ => True)); [done|]. clear s1 Hb Hp. intros pg s1 Hb.
    wlp_step. apply (upd_building me i (fun _ => True)); [done|inert|]. clear s1 Hb. intros s1 Hb.
    wlp_step. apply wlp_slot. intros np Hnp. destruct (pg =? 0).
    + wlp_step. apply (call_building _ me i (fun _ => True)); [done|]. intros [] s2 H2.
      wlp_step. apply (upd_building me i (fun _ => True)); [done|inert|]. intros s3 H3.
      wlp_step. apply wlp_upd. intros q s4 Hq E4. wlp_step. rewrite E4. by eapply building_abandon.
    + wlp_step. apply (upd_building me i (fun _ => True)); [done|inert|]. intros s2 H2.
      wlp_step. apply wlp_upd. intros q s3 Hq E3. assert (building me i (fun o => o = Some me) (tab_of s3)) as H3
        by (rewrite E3; by eapply building_parent). clear E3 Hq H2 s2.
      wlp_step. apply wlp_copy64. intros s4 E4. wlp_step. apply wlp_st64. intros s5 E5.
      assert (building me i (fun o => o = Some me) (tab_of s5)) as H5 by (by rewrite E5, E4). clear E4 E5 H3 s3 s4.
      wlp_step. eapply wlp_mono; [apply fork_files; exact H5| |done]. cbn beta. intros [] s6 H6. clear H5 s5.
      wlp_step. apply (call_building _ me i (fun o => o = Some me)); [done|]. intros cw s7 H7.
      wlp_step. apply (upd_building me i (fun o => o = Some me)); [done|inert|]. intros s8 H8.
      wlp_step. apply wlp_slot. intros np' Hnp'.
      wlp_step. apply wlp_upd. intros q' s9 Hq' E9. wlp_step. apply wlp_name_copy. intros nm.
      wlp_step. apply (upd_good me); [rewrite E9; eapply building_start; [done|done|by left]|inert|].
      intros s10 H10. by wlp_step.
Qed.

  (** *** The first process *)

  (** only entry [i] is in use *)
Definition first_only (i : nat) (t : tab) : Prop :=
  table_ok t /\ t_cur t = None /\ exists np, t_procs t !! i = Some np /\ state np = EMBRYO /\ parent np = None /\
    forall j q, t_procs t !! j = Some q -> j <> i -> state q = UNUSED.

Lemma first_woken i t ps : woken (t_procs t) ps -> first_only i t -> first_only i (retab (fun _ => ps) t).
Proof.
  intros Hw (Ht & Hc & np & Hi & Hs & Hp & Hu). split; [by apply table_woken|]. split; [done|].
  exists np. split; [eapply woken_running; [done|done|by rewrite Hs]|]. split; [done|]. split; [done|].
  intros j q' Hj Hne. destruct (woken_lookup _ _ _ _ Hw Hj) as (q & Hq & [->|[Hsl _]]); [by eapply Hu|].
  rewrite (Hu j q Hq Hne) in Hsl. done.
Qed.
Lemma first_inert i t j p f : t_procs t !! j = Some p -> inert f -> first_only i t ->
    first_only i (retab (<[j := f p]>) t).
Proof.
  intros Hj Hf (Ht & Hc & np & Hi & Hs & Hp & Hu). split; [by apply table_inert|]. split; [done|]. cbn [retab t_procs].
  destruct (Hf p) as (Es & Epi & Epa & Ech). destruct (decide (j = i)) as [->|Hne].
  - exists (f p). rewrite list_lookup_insert_eq by (by eapply lookup_lt_Some). assert (p = np) as -> by congruence.
    split; [done|]. split; [congruence|]. split; [congruence|]. intros k q Hk Hki. rewrite list_lookup_insert_ne in Hk by done.
    by eapply Hu.
  - exists np. rewrite list_lookup_insert_ne by done. split; [done|]. split; [done|]. split; [done|].
    intros k q Hk Hki. apply list_lookup_insert_Some in Hk as [(<- & <- & _)|[_ Hk]]; [|by eapply Hu].
    rewrite Es. by eapply Hu.
Qed.
Lemma first_start i t np : first_only i t -> t_init t = Some i -> t_procs t !! i = Some np ->
    both (retab (<[i := set_state RUNNABLE np]>) t).
Proof.
  intros (Ht & Hc & np' & Hi' & Hs & Hp & Hu) Hini Hi. assert (np' = np) as -> by congruence. split.
  - eapply table_upd; [done|..|done]; cbn [set_state state pid parent pchan]; try done.
    + intros _. assert (live np = true) as Hlv by (unfold live; by rewrite Hs).
      split; [by eapply (to_pid _ Ht)|]. intros j q Hj Hq E'. by eapply (to_uniq _ Ht).
    + by left.
    + by left.
  - split; cbn [retab t_procs t_cur t_init t_next].
    + exists i, (set_state RUNNABLE np). rewrite list_lookup_insert_eq by (by eapply lookup_lt_Some). done.
    + intros j q Hj. apply list_lookup_insert_Some in Hj as [(<- & <- & _)|[Hne Hj]]; [done|].
      intros _ Hs1. by destruct (Hs1 (Hu j q Hj (not_eq_sym Hne))).
Qed.
Lemma first_call {A} (f : M E A) i (Q : A -> @st E -> Prop) s : first_only i (tab_of s) -> initproc s = Some i ->
    (forall a s', first_only i (tab_of s') -> initproc s' = Some i -> Q a s') -> wlp (call f) Q any s.
Proof.
  intros Hf Hi HQ. apply wlp_call; [|done]. intros a s' ps Hw E'. apply HQ; [rewrite E'; by apply first_woken|].
  change (t_init (tab_of s') = Some i). by rewrite E'.
Qed.
Lemma first_upd i f (Q : unit -> @st E -> Prop) s : first_only i (tab_of s) -> initproc s = Some i -> inert f ->
    (forall s', first_only i (tab_of s') -> initproc s' = Some i -> Q tt s') -> wlp (upd i f) Q any s.
Proof.
  intros Hf Hi Hin HQ. apply wlp_upd. intros p s' Hp E'. apply HQ; [rewrite E'; by apply first_inert|].
  change (t_init (tab_of s') = Some i). by rewrite E'.
Qed.

Lemma zeroed_ok e : table_ok (tab_of (zeroed e : @st E)).
Proof.
  split; cbn [zeroed tab_of t_procs t_cur t_init t_next procs cur initproc nextpid].
  - apply length_replicate.
  - done.
  - intros i p Hi Hl. apply lookup_replicate_1 in Hi as [-> _]. done.
  - intros i j p q Hi _ Hl. apply lookup_replicate_1 in Hi as [-> _]. done.
  - intros i p Hi Hs. apply lookup_replicate_1 in Hi as [-> _]. done.
  - intros i p q Hi Hs. apply lookup_replicate_1 in Hi as [-> _]. done.
  - intros i p q pq Hi Hs. apply lookup_replicate_1 in Hi as [-> _]. done.
Qed.

Lemma boot_both e : wlp (pinit ;; userinit sym) (fun _ s' => both (tab_of s') /\ cur s' = None) any (zeroed e).
Proof.
  unfold userinit, pinit, Spin.initlock. wlp_step. wlp_step. set (s0 := lset lock_lens _ _).
  assert (tab_of s0 = tab_of (zeroed e)) as E0 by done.
  wlp_step. apply wlp_allocproc; [| |done].
  - intros s1 _. repeat wlp_step. unfold wlp. done.
  - intros s1 i Hcl. assert (first_only i (tab_of s1)) as Hf.
    { split; [by eapply claimed_ok; [done|left|rewrite E0; apply zeroed_ok]|].
      destruct Hcl as (p0 & np & ps & Hi & Hs0 & Hs & _ & Hpar & Hw & E1).
      assert (procs s0 = replicate NPROC zero_proc) as Ez by done.
      rewrite Ez in Hi. pose proof Hi as Hi'. apply lookup_replicate_1 in Hi as [-> Hlen].
      split; [by rewrite E1|]. exists np. rewrite E1. cbn [retab t_procs].
      split; [eapply woken_running; [done|rewrite Ez; apply list_lookup_insert_eq; by rewrite length_replicate|by rewrite Hs]|].
      split; [done|]. split; [done|]. intros j q' Hj Hne.
      destruct (woken_lookup _ _ _ _ Hw Hj) as (q & Hq & Hwq). rewrite list_lookup_insert_ne, Ez in Hq by done.
      apply lookup_replicate_1 in Hq as [-> _]. destruct Hwq as [->|[Hsl _]]; done. }
    clear Hcl. wlp_step. wlp_step. set (s2 := set_init (Some i) s1).
    assert (first_only i (tab_of s2)) as H2.
    { destruct Hf as ([? ? ? ? ? ? ?] & Hc & Hnp). split; [by split|]. by split. }
    assert (initproc s2 = Some i) as I2 by done. clearbody s2. clear s1 Hf. wlp_step. wlp_step.
    wlp_step. apply (first_call _ i); [done|done|]. intros pg s3 H3 I3.
    wlp_step. apply (first_upd i); [done|done|inert|]. intros s4 H4 I4. wlp_step. wlp_step.
    wlp_step. apply (first_call _ i); [done|done|]. intros [] s5 H5 I5.
    wlp_step. apply (first_upd i); [done|done|inert|]. intros s6 H6 I6.
    wlp_step. apply wlp_slot. intros p Hp. wlp_step. apply wlp_zero64. intros s7 E7.
    wlp_step. apply wlp_st64. intros s8 E8. wlp_step. apply wlp_st64. intros s9 E9.
    wlp_step. apply wlp_st64. intros s10 E10. wlp_step. apply wlp_st64. intros s11 E11.
    assert (tab_of s11 = tab_of s6) as E12 by (by rewrite E11, E10, E9, E8, E7).
    assert (first_only i (tab_of s11)) as H11 by (by rewrite E12).
    assert (initproc s11 = Some i) as I11 by (change (t_init (tab_of s11) = Some i); by rewrite E12).
    wlp_step. apply wlp_name_copy. intros nm. wlp_step. apply (first_upd i); [done|done|inert|]. intros s13 H13 I13.
    wlp_step. apply (first_call _ i); [done|done|]. intros d s14 H14 I14.
    wlp_step. apply (first_upd i); [done|done|inert|]. intros s15 H15 I15.
    apply wlp_upd. intros q s16 Hq E16. rewrite E16. split; [by apply first_start|].
    change (t_cur (tab_of s16) = None). rewrite E16. by destruct H15 as (_ & Hc & _).
Qed.
End forks.

(** *** Waiting *)

Section waits.
  Context {E : Type} {PE : ProcEnv E} {PL : ProcEnvLaws E}.
  Implicit Types (s : @st E) (B : @st E -> Prop).

  (** freeing a zombie child *)
Lemma unused_good me t i p p' : good me t -> t_procs t !! i = Some p -> state p = ZOMBIE \/ state p = UNUSED ->
    state p' = UNUSED -> parent p' = parent p \/ parent p' = None -> good me (retab (<[i := p']>) t).
Proof.
  intros ([Ht Hf] & Hc & pm & Hpm & Hrun) Hi Hs Hs' Hp'.
  assert (i <> me) as Hne by (intros ->; destruct Hs; congruence).
  assert (alive p = false) as Ha by (unfold alive; by destruct Hs as [Ez|Ez]; rewrite Ez).
  split; [split|split; [done|]].
  - eapply table_upd; [done|..|done]; try (rewrite Hs'; done).
    + unfold live. by rewrite Hs'.
    + destruct Hp' as [Ez|Ez]; rewrite Ez; [by left|by right].
    + right. by eapply no_children.
  - destruct Hf as [(a & pa & Ha' & Hpa & Hal & Hp0) Ho]. split; cbn [retab t_procs t_cur t_init t_next].
    + exists a, pa. rewrite list_lookup_insert_ne; [done|]. intros ->. congruence.
    + intros j q Hj. apply list_lookup_insert_Some in Hj as [(<- & <- & _)|[_ Hj]]; [done|by eapply Ho].
  - exists pm. cbn [retab t_procs]. by rewrite list_lookup_insert_ne.
Qed.

Definition idle_child (me i : nat) (v : procstate) (t : tab) : Prop :=
  good me t /\ exists p, t_procs t !! i = Some p /\ state p = v.

Lemma idle_woken me i v t ps : v <> SLEEPING -> woken (t_procs t) ps -> idle_child me i v t ->
    idle_child me i v (retab (fun _ => ps) t).
Proof.
  intros Hv Hw (Hg & p & Hi & Hs). split; [by apply good_woken|]. exists p. split; [|done].
  eapply woken_running; [done|done|congruence].
Qed.
Lemma idle_inert me i v t p f : t_procs t !! i = Some p -> inert f -> idle_child me i v t ->
    idle_child me i v (retab (<[i := f p]>) t).
Proof.
  intros Hi Hf (Hg & q & Hq & Hs). split; [by apply good_inert|]. exists (f p). cbn [retab t_procs].
  rewrite list_lookup_insert_eq by (by eapply lookup_lt_Some). destruct (Hf p) as [-> _].
  split; [done|congruence].
Qed.
Lemma idle_unused me i v t p p' : idle_child me i v t -> t_procs t !! i = Some p -> v = ZOMBIE \/ v = UNUSED ->
    state p' = UNUSED -> parent p' = parent p \/ parent p' = None -> idle_child me i UNUSED (retab (<[i := p']>) t).
Proof.
  intros (Hg & q & Hq & Hs) Hi Hv Hs' Hp'. assert (q = p) as -> by congruence. split.
  - eapply unused_good; [done|done| |done|done]. destruct Hv; [left|right]; congruence.
  - exists p'. cbn [retab t_procs]. by rewrite list_lookup_insert_eq by (by eapply lookup_lt_Some).
Qed.

Lemma call_idle {A} (f : M E A) me i v (Q : A -> @st E -> Prop) B s : idle_child me i v (tab_of s) -> v <> SLEEPING ->
    (forall e c e', f e <> Block c e') -> (forall a s', idle_child me i v (tab_of s') -> Q a s') ->
    wlp (call f) Q B s.
Proof.
  intros (Hg & p & Hi & Hs) Hv Hf HQ. apply wlp_call.
  - intros a s' ps Hw E'. apply HQ. rewrite E'. apply idle_woken; [done|done|]. split; [done|]. by exists p.
  - intros s' ps j q c e Hbl. by destruct (Hf _ _ _ Hbl).
Qed.

Lemma reap_good me i B s : idle_child me i ZOMBIE (tab_of s) ->
    wlp (reap i) (fun _ s' => good me (tab_of s')) B s.
Proof.
  intros Hg. unfold reap. wlp_step. apply wlp_slot. intros p Hp.
  wlp_step. apply (call_idle _ me i ZOMBIE); [done|done|apply free_page_stays|]. clear s Hg Hp. intros [] s Hg.
  wlp_step. apply wlp_upd. intros q1 s1 Hq1 E1.
  assert (idle_child me i ZOMBIE (tab_of s1)) as H1 by (rewrite E1; apply idle_inert; [done|inert|done]).
  wlp_step. apply (call_idle _ me i ZOMBIE); [done|done|apply freevm_stays|]. intros [] s2 H2.
  wlp_step. apply wlp_upd. intros q3 s3 Hq3 E3.
  assert (idle_child me i UNUSED (tab_of s3)) as H3 by (rewrite E3; eapply idle_unused; [done|done|by left|done|by left]).
  wlp_step. apply wlp_upd. intros q4 s4 Hq4 E4.
  assert (idle_child me i UNUSED (tab_of s4)) as H4.
  { rewrite E4. pose proof H3 as (_ & q & Hq & Hs). cbn in Hq. assert (q = q4) as -> by congruence.
    eapply idle_unused; [done|done|by right|done|by left]. }
  wlp_step. apply wlp_upd. intros q5 s5 Hq5 E5.
  assert (idle_child me i UNUSED (tab_of s5)) as H5.
  { rewrite E5. pose proof H4 as (_ & q & Hq & Hs). cbn in Hq. assert (q = q5) as -> by congruence.
    eapply idle_unused; [done|done|by right|done|by right]. }
  wlp_step. apply wlp_upd. intros q6 s6 Hq6 E6.
  assert (idle_child me i UNUSED (tab_of s6)) as H6 by (rewrite E6; apply (idle_inert _ _ _ _ _ (fun p => set_name (<[0%nat := 0]> (pname p)) p)); [done|inert|done]).
  wlp_step. apply wlp_upd. intros q7 s7 Hq7 E7.
  assert (idle_child me i UNUSED (tab_of s7)) as H7 by (rewrite E7; apply idle_inert; [done|inert|done]).
  wlp_step. apply wlp_release. intros s8 E8. wlp_step. rewrite E8. by apply H7.
Qed.

  (** the scan: entries passed are no zombie children *)
Definition passed (me i : nat) (t : tab) : Prop :=
  forall j q, t_procs t !! j = Some q -> (j < i)%nat -> parent q = Some me -> state q <> ZOMBIE.

Lemma wait_pass_good me B s : good me (tab_of s) -> (forall s', rested me (tab_of s') -> B s') ->
    wlp wait_pass (fun _ s' => good me (tab_of s')) B s.
Proof.
  intros Hg HB. unfold wait_pass. wlp_step. apply (self_good me); [done|]. wlp_step.
  apply wlp_mono with (B := B) (Q := fun r s' => good me (tab_of s') /\ (forall h, r = inr h -> passed me NPROC (tab_of s')));
    [| |done].
  - apply wlp_loop with (Inv := fun v s' => good me (tab_of s') /\ passed me v.1 (tab_of s')).
    { split; [done|]. intros j q _ Hlt. cbn in Hlt. lia. }
    clear s Hg. intros [i h] s [Hg Hpass]. cbn [fst] in *. unfold wait_body.
    destruct (Nat.ltb_spec i NPROC) as [Hi|Hi]; cbn [negb].
    2: { wlp_step. split; [done|]. intros h' _ j q Hj _. pose proof Hg as [[[Hlen _ _ _ _ _ _] _] _].
         apply (Hpass j q Hj). apply lookup_lt_Some in Hj. cbn in *. lia. }
    wlp_step. apply wlp_slot. intros p Hp. destruct (bool_decide_reflect (parent p = Some me)) as [Hpar|Hpar]; cbn [negb].
    2: { wlp_step. split; [done|]. intros j q Hj Hlt. destruct (decide (j = i)) as [->|]; [cbn in Hj; congruence|].
         apply (Hpass j q Hj). cbn in Hlt. lia. }
    destruct (bool_decide_reflect (state p = ZOMBIE)) as [Hz|Hz].
    + wlp_step. eapply wlp_mono; [apply (reap_good me) with (B := B)| |done].
      * split; [done|]. by exists p.
      * cbn beta. intros v s' Hg'. wlp_step. done.
    + wlp_step. split; [done|]. intros j q Hj Hlt. destruct (decide (j = i)) as [->|]; [cbn in Hj; congruence|].
      apply (Hpass j q Hj). cbn in Hlt. lia.
  - clear s Hg. intros [v|h] s [Hg Hpass]; [by wlp_step|]. specialize (Hpass h eq_refl).
    wlp_step. apply wlp_slot. intros p Hp. destruct (_ || _).
    + wlp_step. apply wlp_release. intros s1 E1. wlp_step. by rewrite E1.
    + unfold sleep. wlp_step. wlp_step. wlp_step. wlp_step. wlp_step. wlp_step. apply wlp_doze.
      intros i q s1 Hc Hq E1. apply HB. rewrite E1. pose proof Hg as ([Ht _] & Hc' & _).
      assert (i = me) as -> by (cbn in Hc'; congruence). split; [done|].
      apply (good_asleep me); [done|done|]. intros _ j r Hj Hr. apply (Hpass j r Hj); [|done].
      apply lookup_lt_Some in Hj. rewrite <-(to_len _ Ht). done.
Qed.

Lemma wait_good me B s : good me (tab_of s) -> (forall s', rested me (tab_of s') -> B s') ->
    wlp wait (fun _ s' => good me (tab_of s')) B s.
Proof.
  intros Hg HB. unfold wait. wlp_step. apply wlp_acquire. intros s1 E1. rewrite <-E1 in Hg. by apply wait_pass_good.
Qed.

(** a resumed process only forgets its channel *)
Lemma clear_chan_good me t p : good me t -> t_procs t !! me = Some p -> good me (retab (<[me := set_chan None p]>) t).
Proof.
  intros ([Ht Hf] & Hc & pm & Hpm & Hrun) Hp. assert (pm = p) as -> by congruence.
  split; [split|split; [done|]].
  - eapply table_upd; [done|..|done]; cbn [set_chan state pid parent pchan]; try congruence.
    + intros Hlv. split; [by eapply (to_pid _ Ht)|]. intros j q Hj Hq E'. by eapply (to_uniq _ Ht).
    + by left.
    + left. unfold alive. cbn. by rewrite Hrun.
  - destruct Hf as [(a & pa & Ha' & Hpa & Hal & Hp0) Ho]. split; cbn [retab t_procs t_cur t_init t_next].
    + destruct (decide (a = me)) as [->|Hne].
      * exists me, (set_chan None p). rewrite list_lookup_insert_eq by (by eapply lookup_lt_Some).
        assert (pa = p) as -> by congruence. done.
      * exists a, pa. by rewrite list_lookup_insert_ne.
    + intros j q Hj. apply list_lookup_insert_Some in Hj as [(<- & <- & _)|[_ Hj]]; [|by eapply Ho].
      cbn. by apply (Ho me p).
  - exists (set_chan None p). cbn [retab t_procs]. by rewrite list_lookup_insert_eq by (by eapply lookup_lt_Some).
Qed.
Lemma sleep_resume_good me n B (Q : unit -> @st E -> Prop) s : good me (tab_of s) ->
    (forall s', good me (tab_of s') -> Q tt s') -> wlp (sleep_resume PtableLock n) Q B s.
Proof.
  intros Hg HQ. unfold sleep_resume, sched_resume. wlp_step. wlp_step. wlp_step. apply (self_good me); [done|].
  wlp_step. apply wlp_upd. intros p s' Hp E'. wlp_step. apply HQ. rewrite E'. by apply clear_chan_good.
Qed.
Lemma wait_resume_good me n B s : good me (tab_of s) -> (forall s', rested me (tab_of s') -> B s') ->
    wlp (wait_resume n) (fun _ s' => good me (tab_of s')) B s.
Proof.
  intros Hg HB. unfold wait_resume. wlp_step. apply (sleep_resume_good me); [done|]. intros s' H'.
  by apply wait_pass_good.
Qed.
End waits.

(** *** Exiting *)

Definition leaving (me : nat) (t : tab) : Prop := good me t /\ t_init t <> Some me.
(** the parent is not asleep in wait() *)
Definition told (t : tab) (i : nat) : Prop := forall p q pq, t_procs t !! i = Some p -> parent p = Some q ->
  t_procs t !! q = Some pq -> state pq = SLEEPING -> pchan pq <> Some (ch_proc q).

Lemma fmap_at {A A2} (f : A -> A2) (l : list A) (i : nat) y : (f <$> l) !! i = Some y -> exists x, l !! i = Some x /\ y = f x.
Proof. rewrite list_lookup_fmap. destruct (l !! i) as [x|]; [|done]. intros [= <-]. eauto. Qed.
Lemma told_wakeup t i p : t_procs t !! i = Some p -> told (retab (fmap (wake_one (ch_proc <$> parent p))) t) i.
Proof.
  intros Hi p' q pq' Hp' Hpar Hq Hs Hch. cbn [retab t_procs] in *.
  apply fmap_at in Hp' as (p0 & Hp0 & ->). assert (p0 = p) as -> by congruence.
  destruct (woke_same _ _ (wake_one_woke (ch_proc <$> parent p) p)) as (_ & Ep & _). rewrite Ep in Hpar.
  apply fmap_at in Hq as (pq & Hq & ->). rewrite Hpar in Hs, Hch. revert Hs Hch.
  unfold wake_one. cbn [fmap option_fmap option_map].
  destruct (bool_decide_reflect (state pq = SLEEPING)) as [Hs|Hs]; cbn [andb]; [|done].
  destruct (bool_decide_reflect (pchan pq = Some (ch_proc q))) as [Hc|Hc]; [done|]. by intros _ ?.
Qed.
Lemma told_woken t i ps : woken (t_procs t) ps -> told t i -> told (retab (fun _ => ps) t) i.
Proof.
  intros Hw Ht p' q pq' Hp' Hpar Hq Hs. cbn [retab t_procs] in *.
  destruct (woken_lookup _ _ _ _ Hw Hp') as (p & Hp & Hwp), (woken_lookup _ _ _ _ Hw Hq) as (pq & Hq0 & Hwq).
  destruct (woke_same _ _ Hwp) as (_ & Ep & _), (woke_same _ _ Hwq) as (_ & _ & -> & _ & _ & Es & _).
  rewrite Ep in Hpar. apply (Ht p q pq); [done|done|done|by apply Es].
Qed.
Lemma told_upd t i j p p' : t_procs t !! j = Some p -> state p' = state p -> pchan p' = pchan p -> i <> j ->
  told t i -> told (retab (<[j := p']>) t) i.
Proof.
  intros Hj Es Ec Hne Ht a q pq Ha Hpar Hq Hs. cbn [retab t_procs] in *. rewrite list_lookup_insert_ne in Ha by done.
  apply list_lookup_insert_Some in Hq as [(<- & <- & _)|[_ Hq]]; [|by apply (Ht a q pq)].
  rewrite Ec. apply (Ht a j p); [done|done|done|congruence].
Qed.
Lemma leaving_woken me t ps : woken (t_procs t) ps -> leaving me t -> leaving me (retab (fun _ => ps) t).
Proof. intros Hw [Hg Hi]. split; [by apply good_woken|done]. Qed.

(** a child passed to init *)
Lemma reparent_ok me i t p : leaving me t -> t_procs t !! i = Some p -> parent p = Some me ->
  (state p = ZOMBIE -> forall a pa, t_init t = Some a -> t_procs t !! a = Some pa -> state pa = SLEEPING ->
     pchan pa <> Some (ch_proc a)) ->
  leaving me (retab (<[i := set_parent (t_init t) p]>) t).
Proof.
  intros [([Ht Hf] & Hc & pm & Hpm & Hrun) Hini] Hi Hpar Hz.
  destruct (to_parent _ Ht _ _ _ Hi Hpar) as (Hmi & _).
  pose proof Hf as [(a & pa & Ha & Hpa & Hal & Hp0) Ho].
  assert (a <> i) as Hai by (intros ->; congruence).
  split; [split; [split|split; [done|]]|done].
  - eapply table_upd; [done|..|done]; cbn [set_parent state pid parent pchan].
    + intros Hlv. split; [by eapply (to_pid _ Ht)|]. intros j q Hj Hq E. by eapply (to_uniq _ Ht).
    + by eapply (to_run _ Ht).
    + right. rewrite Ha. intros q [= <-]. split; [done|]. eauto.
    + destruct (alive p) eqn:Ealv; [by left|]. right. by eapply no_children.
    + intros Hs q pq Hq. by apply Hz.
    + intros Hs Hch j q Hj Hq Hsz. exact (to_zombie _ Ht j q i p Hj Hsz Hq Hi Hs Hch).
  - split; cbn [retab t_procs t_cur t_init t_next].
    + exists a, pa. by rewrite list_lookup_insert_ne.
    + intros j q Hj. apply list_lookup_insert_Some in Hj as [(<- & <- & _)|[_ Hj]]; [|by eapply Ho].
      cbn. congruence.
  - exists pm. cbn [retab t_procs]. by rewrite list_lookup_insert_ne.
Qed.

(** and the process itself *)
Lemma zombie_ok me t p : leaving me t -> told t me -> t_procs t !! me = Some p ->
  (forall j q, t_procs t !! j = Some q -> parent q <> Some me) -> both (retab (<[me := set_state ZOMBIE p]>) t).
Proof.
  intros [([Ht Hf] & Hc & pm & Hpm & Hrun) Hini] Htold Hp Hno. assert (pm = p) as -> by congruence.
  assert (live p = true) as Hlv by (unfold live; by rewrite Hrun). split.
  - eapply table_upd; [done|..|done]; cbn [set_state state pid parent pchan]; try done.
    + intros _. split; [by eapply (to_pid _ Ht)|]. intros j q Hj Hq E. by eapply (to_uniq _ Ht).
    + by left.
    + by right.
    + intros _ q pq Hq Hpq. by apply (Htold p q pq).
  - destruct Hf as [(a & pa & Ha & Hpa & Hal & Hp0) Ho]. split; cbn [retab t_procs t_cur t_init t_next].
    + exists a, pa. rewrite list_lookup_insert_ne; [done|congruence].
    + intros j q Hj. apply list_lookup_insert_Some in Hj as [(<- & <- & _)|[_ Hj]]; [|by eapply Ho].
      cbn. intros Hpp _ _. apply (Ho me p); [done|done|by rewrite Hrun..].
Qed.

Lemma wake_zombie c p (i : nat) (l : list proc) : state p = ZOMBIE -> wake_one c <$> <[i := p]> l = <[i := p]> (wake_one c <$> l).
Proof.
  intros Hs. rewrite list_fmap_insert. f_equal. unfold wake_one. by rewrite Hs.
Qed.

Section exits.
  Context {E : Type} {PE : ProcEnv E}.
  Implicit Types (s : @st E) (B : @st E -> Prop).

Lemma call_leaving {A} (f : M E A) me (Q : A -> @st E -> Prop) B s : leaving me (tab_of s) ->
    (forall a s', leaving me (tab_of s') -> Q a s') -> (forall s', dozed me (tab_of s') -> B s') ->
    wlp (call f) Q B s.
Proof.
  intros [Hg Hi] HQ HB. apply wlp_call.
  - intros a s' ps Hw E'. apply HQ. rewrite E'. by apply leaving_woken.
  - intros s' ps i p c e _ Hw Hc Hp E'. apply HB. rewrite E'. pose proof Hg as (_ & Hc' & _).
    assert (i = me) as -> by (cbn in Hc'; congruence).
    assert (good me (retab (fun _ => ps) (tab_of s))) as Hg' by (by apply good_woken).
    split; [done|]. exists (asleep (Some c) p). split; [cbn [retab t_procs]; apply list_lookup_insert_eq; by eapply lookup_lt_Some|].
    intros Hel. apply (good_asleep me _ (Some c) p Hg'); [done|]. intros Hch. destruct (Hel eq_refl me). done.
Qed.
Lemma upd_leaving me i f (Q : unit -> @st E -> Prop) B s : leaving me (tab_of s) -> inert f ->
    (forall s', leaving me (tab_of s') -> Q tt s') -> wlp (upd i f) Q B s.
Proof.
  intros [Hg Hi] Hf HQ. apply wlp_upd. intros p s' Hp E'. apply HQ. rewrite E'. split; [by apply good_inert|done].
Qed.

  (** the entries passed have no parent that exits *)
Definition passed_on (me i : nat) (t : tab) : Prop :=
  leaving me t /\ told t me /\ forall j q, t_procs t !! j = Some q -> (j < i)%nat -> parent q <> Some me.

Lemma reparent_step me i s B : passed_on me i (tab_of s) ->
    wlp (reparent_body me i) (fun r s' => match r with
      | inl i' => passed_on me i' (tab_of s')
      | inr _ => passed_on me NPROC (tab_of s') end) B s.
Proof.
  intros (Hg & Htold & Hdone). unfold reparent_body. destruct (Nat.ltb_spec i NPROC) as [Hi|Hi]; cbn [negb].
  2: { wlp_step. split; [done|]. split; [done|]. intros j q Hj _. apply (Hdone j q Hj).
       apply lookup_lt_Some in Hj. pose proof Hg as [([Ht _] & _) _]. rewrite (to_len _ Ht) in Hj. lia. }
  wlp_step. apply wlp_slot. intros p Hp. destruct (bool_decide_reflect (parent p = Some me)) as [Hpar|Hpar].
  2: { wlp_step. wlp_step. wlp_step. split; [done|]. split; [done|]. intros j q Hj Hlt.
       destruct (decide (j = i)) as [->|]; [cbn in Hj; congruence|]. apply (Hdone j q Hj). lia. }
  assert (i <> me) as Hne by (intros ->; pose proof Hg as [([Ht _] & _) _]; by destruct (to_parent _ Ht _ _ _ Hp Hpar)).
  assert (t_init (tab_of s) <> Some me) as Hini by apply Hg.
  wlp_step. wlp_step. wlp_step. wlp_step. apply wlp_upd. intros p' s1 Hp' E1. assert (p' = p) as -> by congruence.
  (* the table before the wakeup, and the part of the invariant it has *)
  assert (forall ps, woken (procs s) ps -> ps !! i = Some p ->
    (state p = ZOMBIE -> forall a pa, initproc s = Some a -> ps !! a = Some pa -> state pa = SLEEPING -> pchan pa <> Some (ch_proc a)) ->
    passed_on me (Datatypes.S i) (retab (fun _ => <[i := set_parent (initproc s) p]> ps) (tab_of s))) as Hgo.
  { intros ps Hw Hpi Hz. set (t2 := retab (fun _ => ps) (tab_of s)).
    change (passed_on me (Datatypes.S i) (retab (<[i := set_parent (t_init t2) p]>) t2)).
    assert (leaving me t2) as Hg2 by (by apply leaving_woken). split; [|split].
    - by apply (reparent_ok me i t2 p).
    - apply (told_upd _ _ _ p); [done|done|done|done|by apply told_woken].
    - intros j q Hj Hlt. cbn [retab t_procs t2] in Hj. apply list_lookup_insert_Some in Hj as [(<- & <- & _)|[Hji Hj]]; [done|].
      destruct (woken_lookup _ _ _ _ Hw Hj) as (q0 & Hq0 & Hwq). destruct (woke_same _ _ Hwq) as (_ & -> & _).
      apply (Hdone j q0 Hq0). lia. }
  eapply wlp_mono with (B := B) (Q := fun _ s2 => passed_on me (Datatypes.S i) (tab_of s2)); [| |done].
  - apply wlp_when; intros Hz.
    + apply bool_decide_eq_true in Hz. apply wlp_wakeup1. intros s2 E2. rewrite E2, E1, retab_retab.
      change (passed_on me (Datatypes.S i) (retab (fun _ => wake_one (ch_proc <$> initproc s) <$> <[i := set_parent (initproc s) p]> (procs s)) (tab_of s))).
      rewrite wake_zombie by done. apply Hgo.
      * apply woken_fmap.
      * rewrite list_lookup_fmap, Hp. cbn. f_equal. unfold wake_one. by rewrite Hz.
      * intros _ a pa Ha Hpa Hs Hch. rewrite Ha in Hpa. apply fmap_at in Hpa as (pa0 & Hpa0 & ->).
        revert Hs Hch. unfold wake_one. cbn [fmap option_fmap option_map].
        destruct (bool_decide_reflect (state pa0 = SLEEPING)) as [Hs|Hs]; cbn [andb]; [|done].
        by destruct (bool_decide_reflect (pchan pa0 = Some (ch_proc a))).
    + apply bool_decide_eq_false in Hz. rewrite E1. apply (Hgo (procs s)); [apply woken_refl|done|done].
  - intros [] s2 H2. by wlp_step.
Qed.

Lemma exit_good me B s : good me (tab_of s) -> (forall s', dozed me (tab_of s') \/ rested me (tab_of s') -> B s') ->
    wlp exit_ (fun _ _ => False) B s.
Proof.
  intros Hg HB. unfold exit_. wlp_step. wlp_step. wlp_step. wlp_step. wlp_step. wlp_step.
  match goal with H : bool_decide _ = false |- _ => apply bool_decide_eq_false in H; rename H into Hci end.
  assert (cur s = Some me) as Hcur by apply Hg.
  assert (leaving me (tab_of s)) as Hl by (split; [done|cbn; congruence]). clear Hg Hci Hcur.
  wlp_step. apply (self_good me); [by apply Hl|].
  wlp_step. apply wlp_mono with (Q := fun _ s' => leaving me (tab_of s')) (B := B); [|clear s Hl|done].
  { apply wlp_loop with (Inv := fun _ s' => leaving me (tab_of s')); [done|]. clear s Hl. intros fd s Hl.
    unfold close_file. destruct (negb _); [by wlp_step|]. wlp_step. apply wlp_slot. intros p Hp.
    wlp_step. wlp_step. wlp_step. destruct (negb _); [|by repeat wlp_step].
    wlp_step. apply (call_leaving _ me); [done| |intros s' Hd; apply HB; by left]. intros [] s1 H1.
    apply (upd_leaving me); [done|inert|]. intros s2 H2. by wlp_step. }
  intros [] s Hl. wlp_step. apply wlp_slot. intros p Hp. wlp_step. apply (call_leaving _ me); [done| |intros s' Hd; apply HB; by left].
  clear s Hl Hp p. intros [] s Hl. wlp_step. apply (upd_leaving me); [done|inert|]. clear s Hl. intros s Hl.
  wlp_step. apply wlp_acquire. intros s1 E1. wlp_step. apply wlp_slot. intros p Hp. wlp_step. apply wlp_wakeup1. intros s2 E2.
  assert (passed_on me 0 (tab_of s2)) as H2.
  { rewrite E2. split; [rewrite (retab_at _ s1); apply leaving_woken; [apply woken_fmap|by rewrite E1]|].
    split; [by apply told_wakeup|]. intros j q _ Hlt. lia. }
  clear Hl E1 E2 Hp p s s1. wlp_step. apply wlp_mono with (Q := fun _ s' => passed_on me NPROC (tab_of s')) (B := B); [| |done].
  - apply wlp_loop with (Inv := fun i s' => passed_on me i (tab_of s')); [done|]. intros i s Hp.
    eapply wlp_mono; [by apply reparent_step|by intros [?|?]|done].
  - clear s2 H2. intros [] s (Hl & Htold & Hno). wlp_step. apply wlp_upd. intros p s' Hp E'. apply wlp_sched. apply HB. right.
    rewrite E'. split; [apply Hl|]. apply zombie_ok; [done|done|done|]. intros j q Hj. apply (Hno j q Hj). apply lookup_lt_Some in Hj.
    pose proof Hl as [([Ht _] & _) _]. by rewrite (to_len _ Ht) in Hj.
Qed.

Lemma yield_good me B s : good me (tab_of s) -> (forall s', rested me (tab_of s') -> B s') -> wlp yield (fun _ _ => False) B s.
Proof.
  intros Hg HB. unfold yield. wlp_step. apply wlp_acquire. intros s1 E1. rewrite <-E1 in Hg. clear s E1.
  wlp_step. apply (self_good me); [done|]. wlp_step. apply wlp_upd. intros p s2 Hp E2. apply wlp_sched. apply HB. rewrite E2.
  destruct Hg as ([Ht Hf] & Hc & pm & Hpm & Hrun). assert (pm = p) as -> by (cbn in Hpm; congruence).
  split; [done|]. split.
  - eapply table_upd; [done|..|done]; cbn [set_state state pid parent pchan]; try done.
    + intros _. assert (live p = true) as Hlv by (unfold live; by rewrite Hrun).
      split; [by eapply (to_pid _ Ht)|]. intros j q Hj Hq E'. by eapply (to_uniq _ Ht).
    + by left.
    + by left.
  - destruct Hf as [(a & pa & Ha & Hpa & Hal & Hp0) Ho]. split; cbn [retab t_procs t_cur t_init t_next].
    + destruct (decide (a = me)) as [->|Hne].
      * exists me, (set_state RUNNABLE p). rewrite list_lookup_insert_eq by (by eapply lookup_lt_Some).
        cbn in Hpa. assert (pa = p) as -> by congruence. done.
      * exists a, pa. by rewrite list_lookup_insert_ne.
    + intros j q Hj. apply list_lookup_insert_Some in Hj as [(<- & <- & _)|[_ Hj]]; [|by eapply Ho].
      cbn. intros Hpp _ _. apply (Ho me p); [done|done|by rewrite Hrun..].
Qed.

  (** *** Scheduling *)

Lemma scan_body_ok i s B : both (tab_of s) -> cur s = None ->
    wlp (scan_body i) (fun r s' => match r with
      | inl _ => both (tab_of s') /\ cur s' = None
      | inr o => both (tab_of s') /\ cur s' = o end) B s.
Proof.
  intros Hb Hc. unfold scan_body. destruct (negb _).
  { wlp_step. apply wlp_release. intros s' E'. wlp_step. split; [by rewrite E'|].
    change (t_cur (tab_of s') = None). by rewrite E'. }
  wlp_step. apply wlp_slot. intros p Hp. destruct (bool_decide_reflect (state p = RUNNABLE)) as [Hr|Hr]; cbn [negb]; [|by wlp_step].
  wlp_step. wlp_step. wlp_step. apply switchuvm_tab. intros s1 E1. wlp_step. apply wlp_upd. intros p' s2 Hp' E2. wlp_step.
  change (procs s1) with (t_procs (tab_of s1)) in Hp'. rewrite E1 in Hp'. cbn in Hp'. assert (p' = p) as -> by congruence.
  rewrite E2, E1. split; [|change (t_cur (tab_of s2) = Some i); by rewrite E2, E1].
  destruct Hb as [Ht Hf]. set (t1 := tab_of (set_cur (Some i) s)).
  assert (table_ok t1) as Ht1.
  { destruct Ht as [Hl Hn Hpi Hu Hru Hpa Hz]. split; try done. intros j q Hj Hs.
    pose proof (Hru j q Hj Hs) as Hx. cbn in Hx. congruence. }
  assert (live p = true) as Hlv by (unfold live; by rewrite Hr). split.
  - eapply table_upd; [exact Hp|..|done]; cbn [set_state state pid parent pchan]; try done.
    + intros _. split; [by eapply (to_pid _ Ht)|]. intros j q Hj Hq E'. by eapply (to_uniq _ Ht).
    + by left.
    + by left.
  - destruct Hf as [(a & pa & Ha & Hpa & Hal & Hp0) Ho]. split; cbn [retab t_procs t_cur t_init t_next t1 tab_of set_cur procs initproc].
    + destruct (decide (a = i)) as [->|Hne].
      * exists i, (set_state RUNNING p). rewrite list_lookup_insert_eq by (by eapply lookup_lt_Some).
        cbn in Hpa. assert (pa = p) as -> by congruence. done.
      * exists a, pa. by rewrite list_lookup_insert_ne.
    + intros j q Hj. apply list_lookup_insert_Some in Hj as [(<- & <- & _)|[_ Hj]]; [|by eapply Ho].
      cbn. intros Hpp _ _. apply (Ho i p); [done|done|by rewrite Hr..].
Qed.
Lemma scan_ok i s B : both (tab_of s) -> cur s = None ->
    wlp (scan_from i) (fun r s' => both (tab_of s') /\ cur s' = r) B s.
Proof.
  intros Hb Hc. unfold scan_from. apply wlp_loop with (Inv := fun _ s' => both (tab_of s') /\ cur s' = None); [done|].
  intros j s' [Hb' Hc']. eapply wlp_mono; [by apply scan_body_ok|by intros [?|?]|done].
Qed.
Lemma round_ok s B : both (tab_of s) -> cur s = None ->
    wlp scheduler_round (fun r s' => both (tab_of s') /\ cur s' = r) B s.
Proof.
  intros Hb Hc. unfold scheduler_round. wlp_step. wlp_step. unfold Spin.sti. wlp_step. wlp_step. apply wlp_acquire. intros s' E'.
  apply scan_ok; [by rewrite E'|]. change (t_cur (tab_of s') = None). by rewrite E'.
Qed.
Lemma back_ok i s B : both (tab_of s) -> (forall j p, procs s !! j = Some p -> state p <> RUNNING) ->
    wlp (scheduler_back i) (fun r s' => both (tab_of s') /\ cur s' = r) B s.
Proof.
  intros [Ht Hf] Hnr. unfold scheduler_back. wlp_step. wlp_step. apply scan_ok; [|done].
  split; [|by destruct Hf]. destruct Ht as [Hl Hn Hpi Hu Hru Hpa Hz]. split; try done.
  intros j p Hj Hs. by destruct (Hnr j p Hj).
Qed.
End exits.

(** ** Every reachable state *)

Section reach.
  Context {E : Type} {PE : ProcEnv E} {PL : ProcEnvLaws E} (sym : symbols).

Definition config_ok (k : @config E) : Prop := both (tab_of (mach k)) /\ cur (mach k) = sp k.

Lemma running_good (k : @config E) i c : config_ok k -> running k i c -> good i (tab_of (mach k)).
Proof. intros [Hb _] (_ & Hc & _ & Hp). by split. Qed.
Lemma good_config i s (k : @config E) l : good i (tab_of s) -> sp k = Some i -> config_ok (Config s (sp k) l).
Proof. intros (Hb & Hc & _) Hs. split; [done|]. cbn [mach sp]. by rewrite Hs. Qed.
Lemma rested_config i s (k : @config E) l : rested i (tab_of s) -> sp k = Some i -> config_ok (Config s (sp k) l).
Proof. intros (Hc & Hb) Hs. split; [done|]. cbn [mach sp]. by rewrite Hs. Qed.
Lemma dozed_rested i (s : @st E) : dozed i (tab_of s) -> asleep_elsewhere i s -> rested i (tab_of s).
Proof. intros (Hc & p & Hp & Hb) Ha. split; [done|]. apply Hb. by apply Ha. Qed.

Lemma service_good f me (s : @st E) : service sym f -> good me (tab_of s) ->
    wlp f (fun _ s' => good me (tab_of s')) (fun _ => True) s.
Proof.
  intros [] Hg.
  - by apply fork_good.
  - by apply wait_good.
  - by apply kill_good.
  - by apply growproc_good.
  - by apply (call_good _ me).
Qed.
Lemma forkret_good me (s : @st E) : good me (tab_of s) ->
    wlp forkret (fun _ s' => good me (tab_of s')) (fun _ => True) s.
Proof.
  intros Hg. unfold forkret. wlp_step. apply wlp_release. intros s1 E1. rewrite <-E1 in Hg. wlp_step. wlp_step.
  apply wlp_when; intros _; [|done]. wlp_step. wlp_step. by apply (call_good _ me).
Qed.
Lemma woken_good me n (s : @st E) B : good me (tab_of s) ->
    wlp (sleep_resume PtableLock n ;; release) (fun _ s' => good me (tab_of s')) B s.
Proof.
  intros Hg. wlp_step. apply (sleep_resume_good me); [done|]. intros s1 H1. apply wlp_release. intros s2 E2.
  by rewrite E2.
Qed.
Lemma yielded_good me n (s : @st E) B : good me (tab_of s) ->
    wlp (yield_resume n) (fun _ s' => good me (tab_of s')) B s.
Proof.
  intros Hg. unfold yield_resume, sched_resume. wlp_step. wlp_step. apply wlp_release. intros s2 E2. by rewrite E2.
Qed.
Lemma wakeup_both c (s : @st E) B : both (tab_of s) ->
    wlp (wakeup c) (fun _ s' => both (tab_of s') /\ cur s' = cur s) B s.
Proof.
  intros Hb. apply wlp_wakeup. intros s' E'. split; [|by change (t_cur (tab_of s') = cur s); rewrite E'].
  rewrite E'. rewrite (retab_at _ s). apply both_woken; [apply woken_fmap|done].
Qed.

Lemma kstep_ok k k' : config_ok k -> kstep sym k k' -> config_ok k'.
Proof.
  intros Hk Hstep. pose proof Hk as [Hb Hcs].
  destruct Hstep as [k r s Hs H|k i p r s Hs Hp Hn H|k i s Hr H|k i n s Hr H|k i n s Hr H|k i n v s Hr H|k i n c s Hr H
    |k i f v s Hr Hf H|k i c s Hr H|k i f c s Hr H Hel|k i c s Hr H|k i c s Hr H Hel|k c s Hm H];
    try (pose proof (running_good _ _ _ Hk Hr) as Hg; pose proof Hr as (Hsp & Hcur & _)).
  - eapply (wlp_done _ _ (fun _ => True)) in H; [|apply round_ok; [done|congruence]]. exact H.
  - assert (forall j q, procs (mach k) !! j = Some q -> state q <> RUNNING) as Hnr.
    { intros j q Hj Hrun. destruct Hb as [Ht _]. pose proof (to_run _ Ht j q Hj Hrun) as Hx. cbn in Hx.
      assert (j = i) as -> by congruence. congruence. }
    eapply (wlp_done _ _ (fun _ => True)) in H; [|by apply back_ok]. exact H.
  - eapply (wlp_done _ _ (fun _ => True)) in H; [|by apply forkret_good]. eapply good_config; [exact H|done].
  - eapply (wlp_done _ _ (fun _ => True)) in H; [|by apply (woken_good i)]. eapply good_config; [exact H|done].
  - eapply (wlp_done _ _ (fun _ => True)) in H; [|by apply (yielded_good i)]. eapply good_config; [exact H|done].
  - eapply (wlp_done _ _ (fun _ => True)) in H; [|by apply wait_resume_good]. eapply good_config; [exact H|done].
  - eapply (wlp_block _ _ (rested i ∘ tab_of)) in H; [|by apply wait_resume_good]. eapply rested_config; [exact H|done].
  - eapply (wlp_done _ _ (fun _ => True)) in H; [|by apply service_good]. eapply good_config; [exact H|done].
  - eapply (wlp_block _ _ (rested i ∘ tab_of)) in H; [|by apply (wait_good i)]. eapply rested_config; [exact H|done].
  - eapply (wlp_block _ (fun _ _ => True) (dozed i ∘ tab_of)) in H; [|apply (call_good f i); [done|done|by intros ? ?]].
    eapply rested_config; [exact (dozed_rested _ _ H Hel)|done].
  - eapply (wlp_block _ _ (rested i ∘ tab_of)) in H; [|apply (yield_good i); [done|by intros ? ?]]. eapply rested_config; [exact H|done].
  - eapply (wlp_block _ _ (fun s' => dozed i (tab_of s') \/ rested i (tab_of s'))) in H; [|apply (exit_good i); [done|by intros ? ?]].
    eapply rested_config; [|done]. destruct H as [H|H]; [exact (dozed_rested _ _ H Hel)|exact H].
  - eapply (wlp_done _ _ (fun _ => True)) in H; [|by apply wakeup_both]. destruct H as [H2 E']. split; [exact H2|].
    cbn [mach sp]. rewrite E'. exact Hcs.
Qed.

Lemma reachable_config k : reachable sym k -> config_ok k.
Proof.
  intros (k0 & (e & Hboot & Hsp & _) & Hr).
  assert (config_ok k0) as H0.
  { pose proof (boot_both sym e) as Hb. apply (wlp_done _ _ _ _ _ _ Hb) in Hboot. destruct Hboot as [Hbo Hc].
    split; [exact Hbo|]. rewrite Hc, Hsp. reflexivity. }
  clear Hboot Hsp e. induction Hr as [|k1 k2 k3 H12 _ IH]; [exact H0|]. apply IH. exact (kstep_ok _ _ H0 H12).
Qed.
End reach.

(** C13: in every state the kernel can reach by scheduling,
    system calls that return, sleep or exit, and interrupts, with any
    behaviour of the memory, file and log code called: used entries have
    distinct process numbers below nextpid, at most the current process is
    RUNNING, and every process but init has a parent that can still wait for
    it; init itself never ends. *)
Theorem proc_table_invariant {E} {PE : ProcEnv E} {PL : ProcEnvLaws E} (sym : symbols) (k : @config E) :
  reachable sym k ->
  let ps := procs (mach k) in
  (forall i p, ps !! i = Some p -> live p = true -> 1 <= pid p < nextpid (mach k)) /\
  (forall i j p q, ps !! i = Some p -> ps !! j = Some q -> live p = true -> live q = true ->
     pid p = pid q -> i = j) /\
  (forall i p, ps !! i = Some p -> state p = RUNNING -> cur (mach k) = Some i) /\
  (exists i p, initproc (mach k) = Some i /\ ps !! i = Some p /\ alive p = true) /\
  (forall i p, ps !! i = Some p -> state p <> UNUSED -> state p <> EMBRYO -> initproc (mach k) <> Some i ->
     exists q pq, parent p = Some q /\ ps !! q = Some pq /\ alive pq = true).
Proof.
  intros [[[Hl Hn Hp Hu Hr Hpa Hz] [(a & pa & Ha & Hpa' & Hal & _) Ho]] _]%reachable_config. cbn in *.
  split; [done|]. split; [done|]. split; [done|]. split; [eauto|].
  intros i p Hi H1 H2 Hne. destruct (parent p) as [q|] eqn:Eq; [|by destruct (Hne (Ho i p Hi Eq H1 H2))].
  destruct (Hpa _ _ _ Hi Eq) as (_ & pq & Hq & Halq). eauto.
Qed.

(** C14: a child that has exited is never forgotten: in
    every reachable state a ZOMBIE has a live parent, and that parent is not
    asleep in wait(). *)
Theorem wait_no_lost_wakeup {E} {PE : ProcEnv E} {PL : ProcEnvLaws E} (sym : symbols) (k : @config E) c p :
  reachable sym k -> procs (mach k) !! c = Some p -> state p = ZOMBIE ->
  exists q pq, parent p = Some q /\ procs (mach k) !! q = Some pq /\ alive pq = true /\
    ~ (state pq = SLEEPING /\ pchan pq = Some (ch_proc q)).
Proof.
  intros [[[Hl Hn Hp Hu Hr Hpa Hz] [(a & pa & Ha & Hpa' & Hal & _) Ho]] _]%reachable_config Hc Hs. cbn in *.
  destruct (parent p) as [q|] eqn:Eq.
  - destruct (Hpa _ _ _ Hc Eq) as (_ & pq & Hq & Halq). exists q, pq. split; [done|]. split; [done|].
    split; [done|]. intros [Hsl Hch]. exact (Hz c p q pq Hc Hs Eq Hq Hsl Hch).
  - assert (initproc (mach k) = Some c) as E' by (apply (Ho c p); [done|done|by rewrite Hs..]).
    assert (c = a) as -> by congruence. assert (pa = p) as -> by congruence. unfold alive in Hal. by rewrite Hs in Hal.
Qed.

(** ** A run: init forks, waits, and its child exits *)

(** pages are handed out in order; nothing else has an effect *)
#[export] Instance demo_env : ProcEnv Z := {
  alloc_page := fun e => Done e (e + 4096);
  free_page _ := mret tt;
  kpt_alloc := fun e => Done e (e + 4096);
  inituvm _ := mret tt;
  allocuvm _ _ n := mret n;
  deallocuvm _ _ n := mret n;
  copyuvm _ _ := fun e => Done e (e + 4096);
  freevm _ := mret tt;
  filedup f := mret f;
  fileclose _ := mret tt;
  idup i := mret i;
  iput _ := mret tt;
  namei_root := mret 1;
  initlog := mret tt;
  env_wakes _ := [];
}.
#[export] Instance demo_laws : ProcEnvLaws Z.
Proof. by split. Qed.

Definition demo_sym : symbols := Symbols 0x1000 0x2000.
Definition state_or {A} (o : outcome (@st Z) A) (s : @st Z) : @st Z :=
  match o with Done _ s' | Block _ s' => s' | _ => s end.
Definition demo0 : @st Z := state_or ((pinit ;; userinit demo_sym) (zeroed 0x40300000)) (zeroed 0).
Definition demo1 : @st Z := state_or (scheduler_round demo0) demo0.
Definition demo2 : @st Z := state_or (forkret demo1) demo1.
Definition demo3 : @st Z := state_or (fork demo_sym demo2) demo2.
Definition demo4 : @st Z := state_or (wait demo3) demo3.
Definition demo5 : @st Z := state_or (scheduler_back 0 demo4) demo4.
Definition demo6 : @st Z := state_or (forkret demo5) demo5.
Definition demo7 : @st Z := state_or (exit_ demo6) demo6.
Definition demo_ks : list kont := replicate NPROC KStart.
Definition demo_config : @config Z :=
  Config demo7 (Some 1%nat)
    (<[1%nat := KSleep (intena_of demo7)]> (<[1%nat := KRun]>
      (<[0%nat := KWait (intena_of demo4)]> (births (procs demo2) (procs demo3) (<[0%nat := KRun]> demo_ks))))).

Definition returns {A} (o : outcome (@st Z) A) : bool := match o with Done _ _ => true | _ => false end.
Definition blocks {A} (o : outcome (@st Z) A) : bool := match o with Block _ _ => true | _ => false end.
Lemma returns_state {A} (o : outcome (@st Z) A) s : returns o = true -> exists a, o = Done a (state_or o s).
Proof. destruct o; try done. eauto. Qed.
Lemma blocks_state {A} (o : outcome (@st Z) A) s : blocks o = true -> exists c, o = Block c (state_or o s).
Proof. destruct o; try done. eauto. Qed.

Definition kc (s : @st Z) (o : option nat) (l : list kont) : @config Z := Config s o l.
Definition ks1 : list kont := <[0%nat := KRun]> demo_ks.
Definition ks2 : list kont := births (procs demo2) (procs demo3) ks1.
Definition ks3 : list kont := <[0%nat := KWait (intena_of demo4)]> ks2.

Lemma demo_running (s : @st Z) (o : option nat) l i c :
  bool_decide (o = Some i /\ cur s = Some i) && bool_decide (state <$> procs s !! i = Some RUNNING) = true ->
  l !! i = Some c -> running (kc s o l) i c.
Proof.
  intros [[H1 H2]%bool_decide_eq_true H3%bool_decide_eq_true]%andb_true_iff Hl.
  split; [done|]. split; [done|]. split; [done|]. cbn.
  destruct (procs s !! i) as [p|] eqn:Ep; [|done]. exists p. split; [done|]. by injection H3.
Qed.

Lemma run1 : running (kc demo1 (Some 0%nat) demo_ks) 0 KStart.
Proof. apply demo_running; vm_compute; reflexivity. Qed.
Lemma run2 : running (kc demo2 (Some 0%nat) ks1) 0 KRun.
Proof. apply demo_running; vm_compute; reflexivity. Qed.
Lemma run3 : running (kc demo3 (Some 0%nat) ks2) 0 KRun.
Proof. apply demo_running; vm_compute; reflexivity. Qed.
Lemma run5 : running (kc demo5 (Some 1%nat) ks3) 1 KStart.
Proof. apply demo_running; vm_compute; reflexivity. Qed.
Lemma run6 : running (kc demo6 (Some 1%nat) (<[1%nat := KRun]> ks3)) 1 KRun.
Proof. apply demo_running; vm_compute; reflexivity. Qed.

Lemma demo_reachable : reachable demo_sym demo_config.
Proof.
  destruct (returns_state ((pinit ;; userinit demo_sym) (zeroed 0x40300000)) (zeroed 0)) as [[] H0]; [by vm_compute|].
  destruct (returns_state (scheduler_round demo0) demo0) as [r1 H1]; [by vm_compute|].
  destruct (returns_state (forkret demo1) demo1) as [[] H2]; [by vm_compute|].
  destruct (returns_state (fork demo_sym demo2) demo2) as [v3 H3]; [by vm_compute|].
  destruct (blocks_state (wait demo3) demo3) as [c4 H4]; [by vm_compute|].
  destruct (returns_state (scheduler_back 0 demo4) demo4) as [r5 H5]; [by vm_compute|].
  destruct (returns_state (forkret demo5) demo5) as [[] H6]; [by vm_compute|].
  destruct (blocks_state (exit_ demo6) demo6) as [c7 H7]; [by vm_compute|].
  assert (r1 = Some 0%nat) as -> by (assert (Some r1 = Some (Some 0%nat)) as [=] by
    (transitivity (match scheduler_round demo0 with Done r _ => Some r | _ => None end); [by rewrite H1|by vm_compute]); done).
  assert (r5 = Some 1%nat) as -> by (assert (Some r5 = Some (Some 1%nat)) as [=] by
    (transitivity (match scheduler_back 0 demo4 with Done r _ => Some r | _ => None end); [by rewrite H5|by vm_compute]); done).
  exists (kc demo0 None demo_ks). split; [exists 0x40300000; split; [exact H0|split; reflexivity]|].
  eapply rtc_l; [exact (k_round demo_sym (kc demo0 None demo_ks) (Some 0%nat) demo1 eq_refl H1)|].
  eapply rtc_l; [exact (k_start demo_sym (kc demo1 (Some 0%nat) demo_ks) 0 demo2 run1 H2)|].
  eapply rtc_l; [exact (k_service demo_sym (kc demo2 (Some 0%nat) ks1) 0 _ v3 demo3
    run2 (sv_fork demo_sym) H3)|].
  eapply rtc_l; [exact (k_wait demo_sym (kc demo3 (Some 0%nat) ks2) 0 c4 demo4 run3 H4)|].
  eapply rtc_l.
  { destruct (procs demo4 !! 0%nat) as [p|] eqn:Ep; [|by vm_compute in Ep].
    apply (k_back demo_sym (kc demo4 (Some 0%nat) ks3) 0 p (Some 1%nat) demo5 eq_refl Ep); [|exact H5].
    assert (Some (state p) = Some SLEEPING) as [= ->]; [|done].
    change (state <$> Some p = Some SLEEPING). rewrite <-Ep. by vm_compute. }
  eapply rtc_l; [exact (k_start demo_sym (kc demo5 (Some 1%nat) ks3) 1 demo6 run5 H6)|].
  eapply rtc_l; [|apply rtc_refl].
  apply (k_exit demo_sym (kc demo6 (Some 1%nat) (<[1%nat := KRun]> ks3)) 1 c7 demo7 run6 H7).
  intros p Hp Hs. exfalso. assert (Some (state p) = Some ZOMBIE) as [= Hz]; [|congruence].
  change (state <$> Some p = Some ZOMBIE). rewrite <-Hp. by vm_compute.
Qed.
Lemma proc_table_invariant_witness :
  reachable demo_sym demo_config /\
  exists i p, initproc (mach demo_config) = Some i /\ procs (mach demo_config) !! i = Some p /\ alive p = true.
Proof.
  split; [exact demo_reachable|]. destruct (proc_table_invariant demo_sym demo_config demo_reachable) as (_ & _ & _ & H & _).
  exact H.
Defined.
Lemma wait_no_lost_wakeup_witness :
  exists p, procs (mach demo_config) !! 1%nat = Some p /\ state p = ZOMBIE /\
    exists q pq, parent p = Some q /\ procs (mach demo_config) !! q = Some pq /\ alive pq = true.
Proof.
  assert (state <$> procs (mach demo_config) !! 1%nat = Some ZOMBIE) as Hs by (by vm_compute).
  destruct (procs (mach demo_config) !! 1%nat) as [p|] eqn:Ep; [|discriminate Hs]. injection Hs as Hs. exists p. split; [done|]. split; [done|].
  destruct (wait_no_lost_wakeup demo_sym demo_config 1%nat p demo_reachable Ep Hs) as (q & pq & H1 & H2 & H3 & _).
  eauto.
Defined.

(** ** What the calls compute *)

Section lenses.
  Context {E : Type}.
#[export] Instance lock_laws : LensLaws (@lock_lens E).
Proof. split; [done|by intros []|done]. Qed.
#[export] Instance cpu_laws : LensLaws (@cpu_lens E).
Proof. split; [done|by intros []|done]. Qed.
#[export] Instance cpu_lock_disjoint : Spin.Disjoint2 (@cpu_lens E) lock_lens.
Proof. split; done. Qed.
End lenses.

Section calls.
  Context {E : Type} {PE : ProcEnv E} (sym : symbols).
  Implicit Types (s : @st E).

  (** ptable.lock free, and held by the code at work, which entered with the
      processor in state [c0] *)
Definition free s : Prop := Spin.locked (plock s) = 0 /\ Spin.cpu_ok (pcpu s).
Definition crit (c0 : Spin.cpu) s : Prop :=
  Spin.held_by 0 (plock s) = true /\ pcpu s = Spin.pushed c0 /\ Spin.cpu_ok c0.
  (** everything but the lock and the interrupt state *)
Definition outside s : @st E := set_plock (Spin.MkLock 0 "" None) (set_pcpu (Spin.Cpu 0 0 0) s).

Lemma free_acquire (Q : unit -> @st E -> Prop) s : free s ->
    (forall s', crit (pcpu s) s' -> outside s' = outside s -> Q tt s') -> wp acquire Q s.
Proof.
  intros [Hl Hc] HQ. unfold acquire. eapply wp_eq.
  - apply (Spin.acquire_free cpu_lens lock_lens 0); [destruct Hc; cbn; lia|done].
  - apply HQ; [|done]. split; [|done]. unfold Spin.held_by. cbn. by rewrite bool_decide_true.
Qed.
Lemma crit_release c0 (Q : unit -> @st E -> Prop) s : crit c0 s ->
    (forall s', free s' -> Spin.same_cpu c0 (pcpu s') -> outside s' = outside s -> Q tt s') -> wp release Q s.
Proof.
  intros (Hh & Hp & Hc) HQ. pose proof Hc as [Hn Hm]. unfold release. eapply wp_eq.
  - apply (Spin.release_held cpu_lens lock_lens 0); cbn; rewrite ?Hp; [cbn; lia|apply Spin.mask_lor|done].
  - apply HQ; [|cbn; rewrite Hp; by apply Spin.popped_pushed|done]. split; [done|]. cbn. rewrite Hp.
    destruct (Spin.popped_pushed c0 Hc) as (En & Ed & _). split; [rewrite En; lia|]. unfold Spin.masked. rewrite En, Ed. apply Hm.
Qed.

Lemma wp_slot i p (Q : proc -> @st E -> Prop) s : procs s !! i = Some p -> Q p s -> wp (slot i) Q s.
Proof. intros Hp HQ. unfold slot. by eapply wp_deref. Qed.
Lemma wp_self i (Q : nat -> @st E -> Prop) s : cur s = Some i -> Q i s -> wp self Q s.
Proof. intros Hp HQ. unfold self. by eapply wp_deref. Qed.
Lemma wp_upd i p f (Q : unit -> @st E -> Prop) s : procs s !! i = Some p ->
    Q tt (set_procs (fun l => <[i := f p]> l) s) -> wp (upd i f) Q s.
Proof.
  intros Hp HQ. unfold upd. apply wp_bind. eapply wp_slot; [done|]. apply wp_modify.
  unfold set_procs in *. by rewrite (alter_insert _ _ _ p).
Qed.
  (** a callee that returns and wakes nobody *)
Definition quiet {A} (f : M E A) (e : E) (a : A) (e' : E) : Prop :=
  f e = Done a e' /\ env_wakes e' = env_wakes e.
Lemma wp_quiet {A} (f : M E A) a e' (Q : A -> @st E -> Prop) s : quiet f (env s) a e' ->
    Q a (set_env e' s) -> wp (call f) Q s.
Proof.
  intros [Hf Hw] HQ. unfold wp, call. rewrite Hf. unfold issued. rewrite Hw, drop_all. exact HQ.
Qed.

Lemma outside_procs s s' : outside s' = outside s -> procs s' = procs s /\ cur s' = cur s /\ env s' = env s /\
    nextpid s' = nextpid s /\ kmem s' = kmem s /\ initproc s' = initproc s.
Proof. intros H. unfold outside in H. injection H. done. Qed.

  (** an entry that was reaped *)
Definition reaped (p : proc) : proc :=
  set_killed 0 (set_name (<[0%nat := 0]> (pname p)) (set_parent None (set_pid 0 (set_state UNUSED (set_kstack 0 p))))).

Lemma reap_spec c0 s i p e1 e2 : crit c0 s -> procs s !! i = Some p ->
    quiet (free_page (kstack p)) (env s) tt e1 -> quiet (freevm (pgdir p)) e1 tt e2 ->
    wp (reap i) (fun v s' => v = pid p /\ procs s' = <[i := reaped p]> (procs s) /\ env s' = e2 /\
      cur s' = cur s /\ Spin.same_cpu c0 (pcpu s') /\ free s') s.
Proof.
  intros Hcr Hp H1 H2. unfold reap. assert (i < length (procs s))%nat as Hlen by (by eapply lookup_lt_Some).
  apply wp_bind. apply (wp_slot i p); [done|]. apply wp_bind. apply (wp_quiet _ tt e1); [done|].
  apply wp_bind. apply (wp_upd i p); [done|]. apply wp_bind. apply (wp_quiet _ tt e2); [done|].
  apply wp_bind. eapply wp_upd; [by apply list_lookup_insert_eq|].
  do 4 (apply wp_bind; eapply wp_upd; [apply list_lookup_insert_eq; cbn; rewrite ?length_insert; exact Hlen|]).
  apply wp_bind. apply (crit_release c0); [done|]. intros s' Hf Hc Ho. apply wp_ret.
  apply outside_procs in Ho as (E1 & E2 & E3 & _). rewrite E1, E2, E3.
  cbn [set_procs set_env procs cur env]. split; [done|]. split; [|done]. by rewrite !list_insert_insert_eq.
Qed.

  (** wait()'s scan over entries that are no zombie children *)
Definition no_zombie_child (me : nat) (l : list proc) : Prop :=
  forall j q, l !! j = Some q -> parent q = Some me -> state q <> ZOMBIE.
Definition has_child (me : nat) (l : list proc) : Prop := exists j q, l !! j = Some q /\ parent q = Some me.

Lemma wait_scan_none me s : length (procs s) = NPROC -> no_zombie_child me (procs s) ->
    wp (loop (Datatypes.S NPROC) (wait_body me) (0%nat, false))
      (fun r s' => s' = s /\ exists h : bool, r = inr h /\ (h = true <-> has_child me (procs s))) s.
Proof.
  intros Hlen Hno. apply wp_loop with
    (Inv := fun '(i, h) s' => s' = s /\ (i <= NPROC)%nat /\
       (h = true <-> exists j q, (j < i)%nat /\ procs s !! j = Some q /\ parent q = Some me))
    (mu := fun '(i, h) => (NPROC - i)%nat).
  - split; [done|]. split; [lia|]. split; [done|]. intros (j & q & Hj & _). lia.
  - unfold NPROC. lia.
  - intros [i h] s' (-> & Hi & Hh). unfold wait_body. destruct (Nat.ltb_spec i NPROC) as [Hlt|Hge]; cbn [negb].
    2: { apply wp_ret. split; [done|]. exists h. split; [done|]. rewrite Hh. unfold has_child. split.
         - intros (j & q & _ & ?). eauto.
         - intros (j & q & Hj & ?). exists j, q. split; [|done]. apply lookup_lt_Some in Hj. lia. }
    destruct (lookup_lt_is_Some_2 (procs s) i) as [p Hp]; [lia|].
    apply wp_bind. eapply wp_slot; [done|]. destruct (bool_decide_reflect (parent p = Some me)) as [Hpar|Hpar]; cbn [negb].
    + rewrite bool_decide_false by (by eapply Hno). apply wp_ret. split; [|lia]. split; [done|]. split; [lia|].
      split; [|done]. intros _. exists i, p. split; [lia|done].
    + apply wp_ret. split; [|lia]. split; [done|]. split; [lia|]. rewrite Hh. split.
      * intros (j & q & Hj & ?). exists j, q. split; [lia|done].
      * intros (j & q & Hj & Hq & Hqp). exists j, q. split; [|done]. destruct (decide (j = i)) as [->|]; [congruence|lia].
Qed.

Lemma wait_scan_some c0 me s i p e1 e2 : crit c0 s -> length (procs s) = NPROC -> procs s !! i = Some p ->
    parent p = Some me -> state p = ZOMBIE ->
    (forall j q, (j < i)%nat -> procs s !! j = Some q -> parent q = Some me -> state q <> ZOMBIE) ->
    quiet (free_page (kstack p)) (env s) tt e1 -> quiet (freevm (pgdir p)) e1 tt e2 ->
    wp (loop (Datatypes.S NPROC) (wait_body me) (0%nat, false))
      (fun r s' => r = inl (pid p) /\ procs s' = <[i := reaped p]> (procs s) /\ env s' = e2 /\
        cur s' = cur s /\ Spin.same_cpu c0 (pcpu s') /\ free s') s.
Proof.
  intros Hcr Hlen Hp Hpar Hz Hno H1 H2. assert (i < NPROC)%nat as Hi by (rewrite <-Hlen; by eapply lookup_lt_Some).
  apply wp_loop with (Inv := fun v s' => s' = s /\ (v.1 <= i)%nat) (mu := fun v => (NPROC - v.1)%nat).
  - split; [done|cbn; lia].
  - cbn. unfold NPROC. lia.
  - intros [j h] s' [-> Hj]. cbn [fst] in *. unfold wait_body. destruct (Nat.ltb_spec j NPROC); [|lia]. cbn [negb].
    destruct (lookup_lt_is_Some_2 (procs s) j) as [q Hq]; [lia|]. apply wp_bind. eapply wp_slot; [done|].
    destruct (decide (j = i)) as [->|Hne].
    + assert (q = p) as -> by congruence. rewrite !bool_decide_true by done. cbn [negb]. apply wp_bind.
      eapply wp_mono; [by eapply reap_spec|]. cbn beta. intros v s' (-> & Hrest). by apply wp_ret.
    + destruct (bool_decide_reflect (parent q = Some me)) as [Hqp|]; cbn [negb].
      * rewrite bool_decide_false by (apply (Hno j q); [lia|done|done]). apply wp_ret. cbn [fst]. split; [split; [done|lia]|lia].
      * apply wp_ret. cbn [fst]. split; [split; [done|lia]|lia].
Qed.
End calls.

(** [m] runs until it gives up the processor *)
Definition stops {S A} (m : M S A) (Q : S -> Prop) (s : S) : Prop :=
  match m s with Block c s' => c = ch_swtch /\ Q s' | _ => False end.
Lemma stops_bind {S A A2} (m : M S A) (f : A -> M S A2) Q s :
  wp m (fun a s' => stops (f a) Q s') s -> stops (m ≫= f) Q s.
Proof. unfold stops, wp, mbind, M_bind. by destruct (m s). Qed.

Section waits2.
  Context {E : Type} {PE : ProcEnv E} (sym : symbols).
  Implicit Types (s : @st E).

Lemma sched_stops {A} c0 me p (Q : @st E -> Prop) s : crit c0 s -> Spin.ncli c0 = 0 -> cur s = Some me ->
    procs s !! me = Some p -> state p <> RUNNING -> Q s -> stops (A := A) sched Q s.
Proof.
  intros (Hh & Hp & Hc) Hn Hcur Hme Hs HQ. unfold sched, Spin.holding.
  apply stops_bind, wp_gets. change (lget lock_lens s) with (plock s). rewrite Hh. apply stops_bind, wp_panic_if; [done|].
  apply stops_bind, wp_gets. apply stops_bind, wp_panic_if; [rewrite Hp; cbn; by rewrite Hn|].
  apply stops_bind. apply (wp_self me); [done|]. apply stops_bind. apply (wp_slot me p); [done|].
  apply stops_bind, wp_panic_if; [by apply bool_decide_eq_false|]. unfold int_enabled, Spin.int_enabled.
  apply stops_bind, wp_zoom, wp_gets. change (lget cpu_lens s) with (pcpu s). rewrite Hp.
  apply stops_bind, wp_panic_if; [rewrite Spin.dis_int_spec; change (Spin.daif (Spin.pushed c0)) with (Z.lor (Spin.daif c0) Spin.DIS_INT); by rewrite Spin.mask_lor|].
  unfold stops, block. split; [done|]. change (lset cpu_lens (Spin.pushed c0) s) with (set_pcpu (Spin.pushed c0) s).
  rewrite <-Hp. by destruct s.
Qed.

Definition wait_ready (me : nat) (pm : proc) s : Prop :=
  free s /\ Spin.ncli (pcpu s) = 0 /\ cur s = Some me /\ length (procs s) = NPROC /\ procs s !! me = Some pm.
End waits2.

(** C22: wait() frees the first zombie child (its kernel stack, its
    memory, its entry) and returns its number; with no children, or with
    children still running and the caller killed, it returns -1; either way
    the lock is free, and the interrupt mask and nesting are as before the call.
    Otherwise the caller is asleep on its own address, the lock left to the
    scheduler.  Nothing else in the table changes. *)
Theorem wait_correct {E} {PE : ProcEnv E} (s : @st E) (me : nat) (pm : proc) :
  wait_ready me pm s ->
  (forall i p e1 e2, procs s !! i = Some p -> parent p = Some me -> state p = ZOMBIE ->
     (forall j q, (j < i)%nat -> procs s !! j = Some q -> parent q = Some me -> state q <> ZOMBIE) ->
     quiet (free_page (kstack p)) (env s) tt e1 -> quiet (freevm (pgdir p)) e1 tt e2 ->
     wp wait (fun v s' => v = pid p /\ procs s' = <[i := reaped p]> (procs s) /\ env s' = e2 /\
       cur s' = Some me /\ Spin.same_cpu (pcpu s) (pcpu s') /\ free s') s) /\
  (no_zombie_child me (procs s) -> ~ has_child me (procs s) \/ killed pm <> 0 ->
     wp wait (fun v s' => v = -1 /\ procs s' = procs s /\ env s' = env s /\
       cur s' = Some me /\ Spin.same_cpu (pcpu s) (pcpu s') /\ free s') s) /\
  (no_zombie_child me (procs s) -> has_child me (procs s) -> killed pm = 0 ->
     stops wait (fun s' => procs s' = <[me := asleep (Some (ch_proc me)) pm]> (procs s) /\ env s' = env s) s).
Proof.
  intros (Hf & Hn & Hcur & Hlen & Hme).
  assert (forall s', outside s' = outside s -> procs s' = procs s /\ cur s' = Some me /\ env s' = env s) as Hout.
  { intros s' (E1 & E2 & E3 & _)%outside_procs. by rewrite E2. }
  split; [|split].
  - intros i p e1 e2 Hp Hpar Hz Hno H1 H2. unfold wait, wait_pass. apply wp_bind. apply free_acquire; [done|].
    intros s1 Hcr (E1 & E2 & E3)%Hout. apply wp_bind. apply (wp_self me); [done|]. apply wp_bind.
    eapply wp_mono; [eapply wait_scan_some; rewrite ?E1, ?E3; eauto|]. cbn beta.
    intros r s2 (-> & H). apply wp_ret. by rewrite E1, E2 in H.
  - intros Hno Hk. unfold wait, wait_pass. apply wp_bind. apply free_acquire; [done|].
    intros s1 Hcr (E1 & E2 & E3)%Hout. apply wp_bind. apply (wp_self me); [done|]. apply wp_bind.
    eapply wp_mono; [apply wait_scan_none; by rewrite E1|]. cbn beta. intros r s2 (-> & h & -> & Hh). rewrite E1 in Hh.
    apply wp_bind. apply (wp_slot me pm); [by rewrite E1|].
    assert (negb h || negb (killed pm =? 0) = true) as ->.
    { destruct Hk as [Hk|Hk]; [destruct h; [by destruct Hk; apply Hh|done]|].
      destruct (Z.eqb_spec (killed pm) 0); [done|]. apply orb_true_r. }
    apply wp_bind. eapply crit_release; [done|]. intros s2 Hf2 Hcpu (F1 & F2 & F3 & _)%outside_procs. apply wp_ret.
    split; [done|]. split; [congruence|]. split; [congruence|]. split; [congruence|done].
  - intros Hno Hch Hk. unfold wait, wait_pass. apply stops_bind. apply free_acquire; [done|].
    intros s1 Hcr (E1 & E2 & E3)%Hout. apply stops_bind. apply (wp_self me); [done|]. apply stops_bind.
    eapply wp_mono; [apply wait_scan_none; by rewrite E1|]. cbn beta. intros r s2 (-> & h & -> & Hh). rewrite E1 in Hh.
    apply stops_bind. apply (wp_slot me pm); [by rewrite E1|].
    assert (h = true) as -> by (by apply Hh). rewrite Hk. cbn [negb Z.eqb orb].
    unfold sleep. apply stops_bind, wp_gets. apply stops_bind, wp_panic_if; [by rewrite E2|].
    apply stops_bind, wp_ret. apply stops_bind. apply (wp_self me); [done|]. apply stops_bind.
    apply (wp_upd me pm); [by rewrite E1|]. apply stops_bind.
    eapply wp_upd; [apply list_lookup_insert_eq; rewrite E1; by eapply lookup_lt_Some|].
    eapply (sched_stops (pcpu s) me (asleep (Some (ch_proc me)) pm)); [exact Hcr|exact Hn|exact E2| |done|].
    { apply list_lookup_insert_eq. cbn. rewrite length_insert, E1. by eapply lookup_lt_Some. }
    cbn [set_procs procs env]. rewrite list_insert_insert_eq, E1. done.
Qed.

(** init, with a zombie child in entry 1 *)
Definition demo_parent : @st Z :=
  set_procs (fmap (fun p => if bool_decide (state p = ZOMBIE) then p else set_chan None p)) (set_pcpu (Spin.Cpu 0 0 0)
    (set_plock (Spin.MkLock 0 "ptable" None) (set_cur (Some 0%nat) demo7))).
Lemma demo_entries : exists p0 p1, procs demo_parent !! 0%nat = Some p0 /\ procs demo_parent !! 1%nat = Some p1 /\
  parent p0 = None /\ parent p1 = Some 0%nat /\ state p1 = ZOMBIE /\ pid p1 = 2.
Proof.
  assert ((fun p => (parent p, state p, pid p)) <$> procs demo_parent !! 0%nat = Some (None, RUNNABLE, 1)) as H0 by (vm_compute; reflexivity).
  assert ((fun p => (parent p, state p, pid p)) <$> procs demo_parent !! 1%nat = Some (Some 0%nat, ZOMBIE, 2)) as H1 by (vm_compute; reflexivity).
  destruct (procs demo_parent !! 0%nat) as [p0|]; [|discriminate H0]. destruct (procs demo_parent !! 1%nat) as [p1|]; [|discriminate H1].
  injection H0 as ? ? ?. injection H1 as ? ? ?. exists p0, p1. done.
Qed.
Lemma wait_correct_witness :
  wp wait (fun v s' => v = 2 /\ (forall p, procs s' !! 1%nat = Some p -> state p = UNUSED)) demo_parent.
Proof.
  destruct demo_entries as (p0 & p1 & H0 & H1 & Hp0 & Hpar & Hz & Hpid).
  assert (wait_ready 0 p0 demo_parent) as Hr.
  { split; [split; [reflexivity|split; [cbn; lia|cbn; lia]]|]. split; [reflexivity|]. split; [reflexivity|].
    split; [vm_compute; reflexivity|exact H0]. }
  eapply wp_mono.
  - apply (proj1 (wait_correct demo_parent 0%nat p0 Hr) 1%nat p1 (env demo_parent) (env demo_parent));
      [exact H1|exact Hpar|exact Hz| |split; reflexivity|split; reflexivity].
    intros [|j] q Hj Hq; [|lia]. assert (q = p0) as -> by congruence. congruence.
  - cbn beta. intros v s' (-> & Hps & _). split; [exact Hpid|]. intros p. rewrite Hps, list_lookup_insert_eq.
    + intros [= <-]. reflexivity.
    + by eapply lookup_lt_Some.
Defined.

(** ** fork() *)

(** the words of [l] stored from [a] on *)
Fixpoint put_words (a : Z) (l : list Z) (m : gmap Z Z) : gmap Z Z :=
  match l with [] => m | x :: l => put_words (a + 8) l (<[a := x]> m) end.
Lemma put_words_snoc a l x m :
  put_words a (l ++ [x]) m = <[a + 8 * Z.of_nat (length l) := x]> (put_words a l m).
Proof.
  revert a m. induction l as [|y l IH]; intros a m; cbn [app put_words length]; [by rewrite Z.add_0_r|].
  rewrite IH. by replace (a + 8 + 8 * Z.of_nat (length l)) with (a + 8 * Z.of_nat (S (length l))) by lia.
Qed.
Lemma put_words_other a l m k : k < a \/ a + 8 * Z.of_nat (length l) <= k -> put_words a l m !! k = m !! k.
Proof.
  revert a m. induction l as [|y l IH]; intros a m Hk; cbn [put_words length] in *; [done|].
  rewrite IH by lia. by rewrite lookup_insert_ne by lia.
Qed.
Lemma put_words_at a l m i x : l !! i = Some x -> put_words a l m !! (a + 8 * Z.of_nat i) = Some x.
Proof.
  revert a m i. induction l as [|y l IH]; intros a m i Hi; [done|]. cbn [put_words]. destruct i as [|i].
  - injection Hi as ->. rewrite put_words_other by lia. replace (a + 8 * Z.of_nat 0) with a by lia. apply lookup_insert_eq.
  - replace (a + 8 * Z.of_nat (S i)) with (a + 8 + 8 * Z.of_nat i) by lia. by apply IH.
Qed.

Section fork_calls.
  Context {E : Type} {PE : ProcEnv E} (sym : symbols).
  Implicit Types (s : @st E).

Lemma wp_zero64 a n (Q : unit -> @st E -> Prop) s :
    Q tt (set_kmem (put_words a (replicate n 0) (kmem s)) s) -> wp (zero64 a n) Q s.
Proof.
  intros HQ. unfold zero64. apply wp_loop with (mu := fun i => (n - Z.to_nat i)%nat)
    (Inv := fun i s' => exists k : nat, i = Z.of_nat k /\ (k <= n)%nat /\ s' = set_kmem (put_words a (replicate k 0) (kmem s)) s).
  - exists 0%nat. split; [done|]. split; [lia|]. by destruct s.
  - lia.
  - intros i s' (k & -> & Hk & ->). destruct (Z.ltb_spec (Z.of_nat k) (Z.of_nat n)); cbn [negb].
    + apply wp_bind. unfold st64. wp_step. wp_step. split; [|lia]. exists (S k). split; [lia|]. split; [lia|].
      cbn [set_kmem kmem]. rewrite replicate_S_end, put_words_snoc, length_replicate. done.
    + wp_step. assert (k = n) as -> by lia. done.
Qed.
Lemma wp_copy64 dst src n l (Q : unit -> @st E -> Prop) s : length l = n ->
    (forall i x, l !! i = Some x -> kmem s !! (src + 8 * Z.of_nat i) = Some x) ->
    src + 8 * Z.of_nat n <= dst \/ dst + 8 * Z.of_nat n <= src ->
    Q tt (set_kmem (put_words dst l (kmem s)) s) -> wp (copy64 dst src n) Q s.
Proof.
  intros Hl Hsrc Hd HQ. unfold copy64. apply wp_loop with (mu := fun i => (n - Z.to_nat i)%nat)
    (Inv := fun i s' => exists k : nat, i = Z.of_nat k /\ (k <= n)%nat /\ s' = set_kmem (put_words dst (take k l) (kmem s)) s).
  - exists 0%nat. split; [done|]. split; [lia|]. by destruct s.
  - lia.
  - intros i s' (k & -> & Hk & ->). destruct (Z.ltb_spec (Z.of_nat k) (Z.of_nat n)); cbn [negb].
    + destruct (lookup_lt_is_Some_2 l k) as [x Hx]; [lia|]. assert (length (take k l) = k) as Hlt by (rewrite length_take; lia).
      apply wp_bind. unfold ld64. eapply wp_deref.
      { cbn [set_kmem kmem]. rewrite put_words_other by lia. by apply Hsrc. }
      apply wp_bind. unfold st64. wp_step. wp_step. split; [|lia]. exists (S k). split; [lia|]. split; [lia|].
      cbn [set_kmem kmem]. rewrite (take_S_r _ _ x) by done. rewrite put_words_snoc, Hlt. done.
    + wp_step. assert (k = n) as -> by lia. by rewrite firstn_all2 in * by lia.
Qed.

(** a name field: a string and its NUL within 16 bytes *)
Definition name_field (l : list Z) (f : list Z) : Prop :=
  length f = 16%nat /\ (length l < 16)%nat /\ (0 ∉ l) /\ Forall KString.is_byte l /\ take (S (length l)) f = l ++ [0].

Lemma name_copy_spec dst src l s : length dst = 16%nat -> name_field l src ->
    exists dst', name_copy (E := E) dst src s = Done dst' s /\ name_field l dst'.
Proof.
  intros Hd (Hs & Hl & H0 & Hb & Ht). unfold name_copy. rewrite Hd. change (Z.of_nat 16) with 16.
  set (m := write_bytes (write_bytes ∅ 0 dst) 16 src).
  assert (bytes_at m 16 (l ++ [0])) as Hat.
  { intros i x Hi. unfold m. rewrite lookup_write_bytes.
    assert (i < S (length l))%nat as Hlt by (apply lookup_lt_Some in Hi; rewrite length_app in Hi; cbn in Hi; lia).
    case_decide; [|lia]. replace (Z.to_nat (16 + Z.of_nat i - 16)) with i by lia.
    rewrite <-Hi, <-Ht. symmetry. apply lookup_take_lt. lia. }
  assert (name_at m 16 (Z.to_nat (16 - 1)) l) as Hn.
  { apply bytes_at_app in Hat as [Hat Hz]. apply bytes_at_cons in Hz as [Hz _]. split; [done|]. split; [done|].
    destruct (decide (length l = 15%nat)) as [->|]; [left; reflexivity|right]. split; [lia|done]. }
  assert (mapped m 0 (Z.to_nat 16)) as Hm.
  { unfold m. apply mapped_write. intros j Hj. rewrite lookup_write_bytes.
    case_decide; [|lia]. apply lookup_lt_is_Some_2. lia. }
  rewrite (safestrcpy_field m 0 16 16 l ltac:(lia) Hn Hb Hm ltac:(lia)). eexists. split; [done|].
  assert (length (safe_field (Z.to_nat 16) l) <= 16)%nat as Hlf.
  { unfold safe_field. rewrite length_app, length_replicate. lia. }
  split; [by rewrite length_fmap, length_seq|]. split; [done|]. split; [done|]. split; [done|].
  apply list_eq. intros i. destruct (decide (i < S (length l))%nat) as [Hi|Hi].
  - rewrite lookup_take_lt by done. rewrite list_lookup_fmap, lookup_seq_lt by lia. cbn [fmap option_fmap option_map].
    rewrite lookup_write_bytes. assert (l ++ [0] = take (S (length l)) (safe_field (Z.to_nat 16) l)) as Ef.
    { unfold safe_field. rewrite take_app. rewrite firstn_all2 by lia. f_equal.
      replace (S (length l) - length l)%nat with 1%nat by lia.
      destruct (Nat.min 2 (Z.to_nat 16 - length l)) eqn:En; [lia|done]. }
    destruct (lookup_lt_is_Some_2 (l ++ [0]) i) as [x Hx]; [rewrite length_app; cbn; lia|].
    assert (safe_field (Z.to_nat 16) l !! i = Some x) as Hx'.
    { rewrite Ef, lookup_take_lt in Hx by done. done. }
    pose proof (lookup_lt_Some _ _ _ Hx') as Hlx. case_decide; [|lia].
    replace (Z.to_nat (Z.of_nat (0 + i) - 0)) with i by lia. by rewrite Hx', Hx.
  - rewrite lookup_take_ge by lia. symmetry. apply lookup_ge_None_2. rewrite length_app. cbn. lia.
Qed.

Definition frame_of (ks : Z) : Z := ks + KSTACKSIZE - sizeof_tf.
Definition context_of (ks : Z) : Z := frame_of ks - 16 - sizeof_context.
Definition embryo (n ks : Z) (p0 : proc) : proc :=
  set_frames (frame_of ks) (context_of ks) (set_kstack ks (set_pid n (set_state EMBRYO p0))).
Definition stack_words (ks : Z) (m : gmap Z Z) : gmap Z Z :=
  <[context_of ks + off_lr := forkret_addr sym + 8]> (put_words (context_of ks) (replicate 27 0)
    (<[frame_of ks - 16 := ks + KSTACKSIZE]> (<[frame_of ks - 8 := trapret sym]> m))).

Lemma allocproc_spec s i p0 ks e1 : free s -> list_find (fun p => state p = UNUSED) (procs s) = Some (i, p0) ->
    1 <= nextpid s < 2 ^ 31 - 1 -> quiet alloc_page (env s) ks e1 -> ks <> 0 ->
    wp (allocproc sym) (fun o s' => o = Some i /\ procs s' = <[i := embryo (nextpid s) ks p0]> (procs s) /\
      kmem s' = stack_words ks (kmem s) /\ env s' = e1 /\ nextpid s' = nextpid s + 1 /\ cur s' = cur s /\
      Spin.same_cpu (pcpu s) (pcpu s') /\ free s') s.
Proof.
  intros Hf Hfind Hn Hal Hks. unfold allocproc. pose proof Hfind as (Hi & Hs0 & _)%list_find_Some.
  assert (i < length (procs s))%nat as Hlen by (by eapply lookup_lt_Some).
  apply wp_bind. apply free_acquire; [done|]. intros s1 Hcr (E1 & E2 & E3 & E4 & E5 & E6)%outside_procs.
  apply wp_bind, wp_gets. rewrite E1, Hfind. apply wp_bind. apply (wp_upd i p0); [by rewrite E1|].
  apply wp_bind, wp_gets. apply wp_bind. apply wp_c_int; [cbn; lia|]. apply wp_bind.
  eapply wp_upd; [apply list_lookup_insert_eq; cbn; by rewrite E1|]. apply wp_bind, wp_modify.
  apply wp_bind. eapply crit_release; [exact Hcr|]. intros s2 Hf2 Hcpu (F1 & F2 & F3 & F4 & F5 & F6)%outside_procs.
  cbn [set_nextpid set_procs procs cur env nextpid kmem initproc] in *. rewrite list_insert_insert_eq, E1, E4 in F1.
  apply wp_bind. apply (wp_quiet _ ks e1); [by rewrite F3, E3|]. apply wp_bind.
  eapply wp_upd; [cbn; rewrite F1; by apply list_lookup_insert_eq|].
  destruct (Z.eqb_spec ks 0); [done|]. apply wp_bind. unfold init_stack.
  apply wp_bind. unfold st64 at 1. wp_step. apply wp_bind. unfold st64 at 1. wp_step. apply wp_bind.
  eapply wp_upd; [apply list_lookup_insert_eq; cbn; rewrite F1, length_insert; exact Hlen|].
  apply wp_bind. apply wp_zero64. unfold st64. wp_step. wp_step.
  cbn [set_nextpid set_procs set_kmem set_env procs cur env nextpid kmem initproc].
  split; [done|]. split; [by rewrite F1, !list_insert_insert_eq|]. split; [by rewrite F5, E5|].
  split; [done|]. split; [congruence|]. split; [congruence|]. split; [exact Hcpu|exact Hf2].
Qed.
(** the two ways it fails *)
Lemma allocproc_full s : free s -> list_find (fun p => state p = UNUSED) (procs s) = None ->
  wp (allocproc sym) (fun o s' => o = None /\ outside s' = outside s /\ Spin.same_cpu (pcpu s) (pcpu s') /\ free s') s.
Proof.
  intros Hf Hfind. unfold allocproc. apply wp_bind. apply free_acquire; [done|]. intros s1 Hcr E1. pose proof (outside_procs _ _ E1) as (P1 & _).
  apply wp_bind, wp_gets. rewrite P1, Hfind. apply wp_bind. eapply crit_release; [exact Hcr|]. intros s2 Hf2 Hcpu E2. apply wp_ret.
  split; [done|]. split; [congruence|done].
Qed.
Lemma allocproc_no_page s i p0 e1 : free s -> list_find (fun p => state p = UNUSED) (procs s) = Some (i, p0) ->
  1 <= nextpid s < 2 ^ 31 - 1 -> quiet alloc_page (env s) 0 e1 ->
  wp (allocproc sym) (fun o s' => o = None /\ procs s' = <[i := set_kstack 0 (set_pid (nextpid s) p0)]> (procs s) /\
    kmem s' = kmem s /\ env s' = e1 /\ nextpid s' = nextpid s + 1 /\ cur s' = cur s /\ Spin.same_cpu (pcpu s) (pcpu s') /\ free s') s.
Proof.
  intros Hf Hfind Hn Hal. unfold allocproc. pose proof Hfind as (Hi & Hs0 & _)%list_find_Some.
  assert (i < length (procs s))%nat as Hlen by (by eapply lookup_lt_Some).
  apply wp_bind. apply free_acquire; [done|]. intros s1 Hcr (E1 & E2 & E3 & E4 & E5 & E6)%outside_procs.
  apply wp_bind, wp_gets. rewrite E1, Hfind. apply wp_bind. apply (wp_upd i p0); [by rewrite E1|].
  apply wp_bind, wp_gets. apply wp_bind. apply wp_c_int; [cbn; lia|]. apply wp_bind.
  eapply wp_upd; [apply list_lookup_insert_eq; cbn; by rewrite E1|]. apply wp_bind, wp_modify.
  apply wp_bind. eapply crit_release; [exact Hcr|]. intros s2 Hf2 Hcpu (F1 & F2 & F3 & F4 & F5 & F6)%outside_procs.
  cbn [set_nextpid set_procs procs cur env nextpid kmem initproc] in *. rewrite list_insert_insert_eq, E1, E4 in F1.
  apply wp_bind. apply (wp_quiet _ 0 e1); [by rewrite F3, E3|]. apply wp_bind.
  eapply wp_upd; [cbn; rewrite F1; by apply list_lookup_insert_eq|]. cbn [Z.eqb]. apply wp_bind.
  eapply wp_upd; [apply list_lookup_insert_eq; cbn; rewrite F1, length_insert; exact Hlen|]. apply wp_ret.
  cbn [set_procs set_env procs cur env nextpid kmem pcpu]. split; [done|]. split.
  { rewrite F1, !list_insert_insert_eq. f_equal. destruct p0; cbn in *; by subst. }
  split; [congruence|]. split; [done|]. split; [congruence|]. split; [congruence|]. split; [exact Hcpu|exact Hf2].
Qed.
End fork_calls.

Section fork_spec.
  Context {E : Type} {PE : ProcEnv E} (sym : symbols).
  Implicit Types (s : @st E).

  (** a reference count is taken: [d] is its effect; nobody is woken *)
Definition counts (f : Z -> M E Z) (d : Z -> E -> E) : Prop := forall x e, quiet (f x) e x (d x e).
  (** one for each open file *)
Definition taken (d : Z -> E -> E) (l : list Z) (e : E) : E := foldl (fun e f => if f =? 0 then e else d f e) e l.

  (** the first [k] of the child's descriptors: the parent's open files over what was there *)
Definition inherit (k : nat) (old par new : list Z) : Prop :=
  length new = length old /\ forall fd f, par !! fd = Some f ->
    new !! fd = if decide ((fd < k)%nat /\ f <> 0) then Some f else old !! fd.

Lemma fork_files_spec d me i p np s : counts filedup d -> procs s !! me = Some p -> procs s !! i = Some np -> i <> me ->
    length (ofile p) = NOFILE -> length (ofile np) = NOFILE ->
    wp (loop (Datatypes.S NOFILE) (fork_file me i) 0%nat) (fun _ s' => exists fs,
      inherit NOFILE (ofile np) (ofile p) fs /\ s' = set_env (taken d (ofile p) (env s)) (set_procs (fun l => <[i := set_ofile fs np]> l) s)) s.
Proof.
  intros Hdup Hp Hnp Hne Hlp Hln. assert (i < length (procs s))%nat as Hi by (by eapply lookup_lt_Some).
  apply wp_loop with (mu := fun k => (NOFILE - k)%nat)
    (Inv := fun k s' => (k <= NOFILE)%nat /\ exists fs, inherit k (ofile np) (ofile p) fs /\
      s' = set_env (taken d (take k (ofile p)) (env s)) (set_procs (fun l => <[i := set_ofile fs np]> l) s)).
  - split; [lia|]. exists (ofile np). split; [split; [done|]|].
    { intros fd f _. rewrite decide_False; [done|lia]. }
    unfold set_procs. replace (set_ofile (ofile np) np) with np by (by destruct np).
    rewrite list_insert_id by done. cbn. by destruct s.
  - lia.
  - intros k s' (Hk & fs & [Hl Hin] & ->). unfold fork_file. destruct (Nat.ltb_spec k NOFILE) as [Hlt|Hge]; cbn [negb].
    2: { wp_step. assert (k = NOFILE) as -> by lia. exists fs. split; [done|]. by rewrite <-Hlp, firstn_all. }
    destruct (lookup_lt_is_Some_2 (ofile p) k) as [f Hf]; [lia|].
    assert (taken d (take (S k) (ofile p)) (env s) = if f =? 0 then taken d (take k (ofile p)) (env s) else d f (taken d (take k (ofile p)) (env s))) as Ht.
    { unfold taken. by rewrite (take_S_r _ _ _ Hf), foldl_app. }
    apply wp_bind. apply (wp_slot me p); [cbn; by rewrite list_lookup_insert_ne|].
    apply wp_bind. eapply wp_deref; [exact Hf|]. apply wp_bind. destruct (Z.eqb_spec f 0) as [Hz|Hz]; cbn [negb].
    + wp_step. wp_step. split; [|lia]. split; [lia|]. exists fs. split; [|by rewrite Ht]. split; [done|].
      intros fd g Hg. rewrite (Hin fd g Hg). destruct (decide (fd = k)) as [->|]; [|repeat case_decide; done || lia].
      assert (g = 0) by congruence. rewrite !decide_False by lia. done.
    + apply wp_bind. apply (wp_quiet _ f (d f (taken d (take k (ofile p)) (env s)))); [apply Hdup|].
      eapply wp_upd; [apply list_lookup_insert_eq; exact Hi|]. wp_step. split; [|lia]. split; [lia|].
      exists (<[k := f]> fs). split; [|rewrite Ht; cbn; unfold set_procs, set_env; cbn; by rewrite list_insert_insert_eq]. split; [by rewrite length_insert|].
      intros fd g Hg. destruct (decide (fd = k)) as [->|].
      * rewrite list_lookup_insert_eq by lia. assert (g = f) as -> by congruence. by rewrite decide_True by lia.
      * rewrite list_lookup_insert_ne, (Hin fd g Hg) by done. repeat case_decide; done || lia.
Qed.

  (** the calling process; its registers are [w], its name [name] *)
Record fork_caller s (me : nat) (p : proc) (w name : list Z) : Prop := {
  fr_free : free s;
  fr_cur : cur s = Some me;
  fr_me : procs s !! me = Some p;
  fr_run : state p = RUNNING;
  fr_pid : 1 <= nextpid s < 2 ^ 31 - 1;
  fr_tf : length w = 34%nat /\ forall k x, w !! k = Some x -> kmem s !! (tf p + 8 * Z.of_nat k) = Some x;
  fr_files : length (ofile p) = NOFILE;
  fr_name : name_field name (pname p);
}.
  (** the first free entry, [i] *)
Definition fork_slot s (i : nat) (p0 : proc) : Prop :=
  list_find (fun p => state p = UNUSED) (procs s) = Some (i, p0) /\ length (ofile p0) = NOFILE /\ length (pname p0) = 16%nat.

  (** the caller goes on as before, the lock is free *)
Definition back s s' : Prop := cur s' = cur s /\ Spin.same_cpu (pcpu s) (pcpu s') /\ free s'.
  (** a process number is used up, and entry [i] free again *)
Definition fork_failed s (i : nat) (p0 : proc) s' : Prop :=
  back s s' /\ nextpid s' = nextpid s + 1 /\
  exists q, procs s' = <[i := q]> (procs s) /\ state q = UNUSED /\ kstack q = 0 /\ parent q = parent p0 /\ ofile q = ofile p0.
  (** the child [np] in entry [i] *)
Definition forked s (me i : nat) (p p0 : proc) (w name : list Z) (ks pg : Z) s' : Prop :=
  back s s' /\ nextpid s' = nextpid s + 1 /\
  exists np, procs s' = <[i := np]> (procs s) /\
    state np = RUNNABLE /\ pid np = nextpid s /\ parent np = Some me /\ kstack np = ks /\ pgdir np = pg /\
    sz np = sz p /\ cwd np = cwd p /\ name_field name (pname np) /\ length (ofile np) = NOFILE /\
    (forall fd f, ofile p !! fd = Some f -> ofile np !! fd = if f =? 0 then ofile p0 !! fd else Some f) /\
    (forall k x, w !! k = Some x -> kmem s' !! (tf np + 8 * Z.of_nat k) = Some (if decide (k = 0%nat) then 0 else x)) /\
    kmem s' !! (context np + off_lr) = Some (forkret_addr sym + 8).

Lemma fork_full s me p w name : fork_caller s me p w name -> list_find (fun p => state p = UNUSED) (procs s) = None ->
  wp (fork sym) (fun v s' => v = -1 /\ outside s' = outside s /\ back s s') s.
Proof.
  intros [Hf Hcur _ _ _ _ _ _] Hnone. unfold fork. apply wp_bind. eapply wp_mono; [by apply allocproc_full|]. cbn beta.
  intros o s' (-> & Ho & Hcpu & Hf'). apply wp_ret. split; [done|]. split; [done|]. split; [|done]. by apply outside_procs in Ho as (_ & ? & _).
Qed.
Lemma fork_no_stack s me p w name i p0 e1 : fork_caller s me p w name -> fork_slot s i p0 -> quiet alloc_page (env s) 0 e1 ->
  wp (fork sym) (fun v s' => v = -1 /\ env s' = e1 /\ kmem s' = kmem s /\ fork_failed s i p0 s') s.
Proof.
  intros [Hf Hcur _ _ Hpid _ _ _] (Hslot & _ & _) Hal. pose proof Hslot as (Hi & Hs0 & _)%list_find_Some.
  unfold fork. apply wp_bind. eapply wp_mono; [by apply allocproc_no_page|]. cbn beta.
  intros o s' (-> & P & M & V & N & C & Hcpu & Hf'). apply wp_ret. split; [done|]. split; [done|]. split; [done|]. split; [done|]. split; [done|].
  eexists. split; [exact P|]. by destruct p0.
Qed.
Lemma fork_no_space s me p w name i p0 ks e1 e2 e3 : fork_caller s me p w name -> fork_slot s i p0 -> quiet alloc_page (env s) ks e1 -> ks <> 0 ->
  quiet (copyuvm (pgdir p) (u32 (sz p))) e1 0 e2 -> quiet (free_page ks) e2 tt e3 ->
  wp (fork sym) (fun v s' => v = -1 /\ env s' = e3 /\ kmem s' = stack_words sym ks (kmem s) /\ fork_failed s i p0 s') s.
Proof.
  intros [Hf Hcur Hme Hrun Hpid _ _ _] (Hslot & _ & _) Hal Hks Hcp Hfr. pose proof Hslot as (Hi & Hs0 & _)%list_find_Some.
  assert (i <> me) as Hne by (intros ->; congruence). assert (i < length (procs s))%nat as Hlen by (by eapply lookup_lt_Some).
  unfold fork. apply wp_bind. eapply wp_mono; [by apply allocproc_spec|]. cbn beta.
  intros o s1 (-> & P1 & M1 & V1 & N1 & C1 & Hcpu & Hf1). apply wp_bind. apply (wp_self me); [congruence|].
  apply wp_bind. apply (wp_slot me p); [rewrite P1; by rewrite list_lookup_insert_ne|].
  apply wp_bind. apply (wp_quiet _ 0 e2); [by rewrite V1|]. apply wp_bind.
  eapply wp_upd; [cbn; rewrite P1; by apply list_lookup_insert_eq|]. apply wp_bind.
  eapply wp_slot; [apply list_lookup_insert_eq; cbn; by rewrite P1, length_insert|]. cbn [Z.eqb].
  apply wp_bind. apply (wp_quiet _ tt e3); [exact Hfr|].
  do 2 (apply wp_bind; eapply wp_upd; [apply list_lookup_insert_eq; cbn; rewrite P1, !length_insert; exact Hlen|]). apply wp_ret.
  cbn [set_procs set_env procs cur env nextpid kmem pcpu]. split; [done|]. split; [done|]. split; [exact M1|]. split; [done|]. split; [exact N1|].
  eexists. split; [cbn; by rewrite P1, !list_insert_insert_eq|]. by destruct p0.
Qed.
Lemma fork_done s dup di me i p p0 w name ks pg e1 e2 : fork_caller s me p w name -> fork_slot s i p0 ->
  quiet alloc_page (env s) ks e1 -> ks <> 0 -> quiet (copyuvm (pgdir p) (u32 (sz p))) e1 pg e2 -> pg <> 0 ->
  counts filedup dup -> counts idup di ->
  tf p + sizeof_tf <= ks \/ ks + KSTACKSIZE <= tf p ->
  wp (fork sym) (fun v s' => v = nextpid s /\ env s' = di (cwd p) (taken dup (ofile p) e2) /\ forked s me i p p0 w name ks pg s') s.
Proof.
  intros [Hf Hcur Hme Hrun Hpid [Hlw Hw] Hlo Hnm] (Hslot & Hlo0 & Hnm0) Hal Hks Hcp Hpg Hdup Hidup Hdisj.
  pose proof Hslot as (Hi & Hs0 & _)%list_find_Some. assert (i <> me) as Hne by (intros ->; congruence).
  assert (i < length (procs s))%nat as Hlen by (by eapply lookup_lt_Some).
  unfold sizeof_tf, KSTACKSIZE in Hdisj.
  unfold fork. apply wp_bind. eapply wp_mono; [by apply allocproc_spec|]. cbn beta.
  intros o s1 (-> & P1 & M1 & V1 & N1 & C1 & Hcpu & Hf1). apply wp_bind. apply (wp_self me); [congruence|].
  apply wp_bind. apply (wp_slot me p); [rewrite P1; by rewrite list_lookup_insert_ne|].
  apply wp_bind. apply (wp_quiet _ pg e2); [by rewrite V1|]. apply wp_bind.
  eapply wp_upd; [cbn; rewrite P1; by apply list_lookup_insert_eq|]. apply wp_bind.
  eapply wp_slot; [apply list_lookup_insert_eq; cbn; by rewrite P1, length_insert|].
  destruct (Z.eqb_spec pg 0); [done|].
  do 2 (apply wp_bind; eapply wp_upd; [apply list_lookup_insert_eq; cbn; rewrite P1, !length_insert; exact Hlen|]).
  set (np1 := set_parent _ _). set (s2 := set_procs _ _).
  assert (procs s2 = <[i := np1]> (procs s)) as P2 by (cbn; rewrite P1; by rewrite !list_insert_insert_eq).
  assert (kmem s2 = stack_words sym ks (kmem s)) as M2 by exact M1.
  assert (nextpid s2 = nextpid s + 1) as N2 by exact N1. assert (cur s2 = Some me) as C2 by (rewrite <-Hcur; exact C1).
  assert (free s2) as F2 by exact Hf1. assert (Spin.same_cpu (pcpu s) (pcpu s2)) as U2 by exact Hcpu. assert (env s2 = e2) as V2 by done. clearbody s2. clear P1 M1 V1 N1 C1 Hcpu Hf1 s1.
  apply wp_bind. apply (wp_copy64 _ _ 34 w); [done| | |].
  { intros k x Hx. rewrite M2. pose proof (lookup_lt_Some _ _ _ Hx). unfold stack_words, context_of, frame_of, sizeof_tf, sizeof_context, off_lr, KSTACKSIZE.
    rewrite lookup_insert_ne by lia. rewrite put_words_other by (rewrite length_replicate; lia).
    rewrite !lookup_insert_ne by lia. by apply Hw. }
  { cbn. unfold frame_of, sizeof_tf, KSTACKSIZE. lia. }
  apply wp_bind. unfold st64. wp_step. apply wp_bind.
  eapply wp_mono; [apply (fork_files_spec dup me i p np1); [done| | |done|done|done]|].
  { cbn. by rewrite P2, list_lookup_insert_ne. }
  { cbn. rewrite P2. by apply list_lookup_insert_eq. }
  cbn beta. intros _ s3 (fs & [Hfl Hfs] & ->). cbn [set_kmem env]. rewrite V2. set (e' := taken dup (ofile p) e2). set (e3 := di (cwd p) e').
  apply wp_bind. apply (wp_quiet _ (cwd p) e3); [apply Hidup|].
  apply wp_bind. eapply wp_upd; [apply list_lookup_insert_eq; cbn; by rewrite P2, length_insert|].
  apply wp_bind. eapply wp_slot; [apply list_lookup_insert_eq; cbn; by rewrite P2, !length_insert|].
  apply wp_bind. eapply wp_upd; [apply list_lookup_insert_eq; cbn; by rewrite P2, !length_insert|].
  destruct (name_copy_spec (pname p0) (pname p) name
    (set_procs (fun l => <[i := set_state RUNNABLE (set_cwd (cwd p) (set_ofile fs np1))]> l)
      (set_procs (fun l => <[i := set_cwd (cwd p) (set_ofile fs np1)]> l) (set_env e3 (set_env e'
        (set_procs (fun l => <[i := set_ofile fs np1]> l) (set_kmem (<[tf np1 := 0]> (put_words (tf np1) w (kmem s2))) s2)))))) Hnm0 Hnm)
    as (nm & Hcopy & Hnf).
  apply wp_bind. eapply wp_eq; [exact Hcopy|].
  apply wp_bind. eapply wp_upd; [apply list_lookup_insert_eq; cbn; by rewrite P2, !length_insert|].
  wp_step. cbn [set_procs set_env set_kmem nextpid cur procs kmem env pcpu]. split; [done|]. split; [done|]. split; [split; [rewrite Hcur; exact C2|split; [exact U2|exact F2]]|]. split; [done|].
  exists (set_name nm (set_state RUNNABLE (set_cwd (cwd p) (set_ofile fs np1)))).
  split; [cbn; by rewrite P2, !list_insert_insert_eq|]. do 7 (split; [done|]). split; [exact Hnf|]. split; [cbn; by rewrite Hfl|]. split; [|split].
  - cbn. intros fd f Hfd. rewrite (Hfs fd f Hfd). apply lookup_lt_Some in Hfd. rewrite Hlo in Hfd. destruct (Z.eqb_spec f 0); [by rewrite decide_False by lia|by rewrite decide_True by lia].
  - intros k x Hx. cbn [set_name set_state set_cwd set_ofile tf set_procs set_env set_kmem kmem]. destruct (decide (k = 0%nat)) as [->|Hk].
    + replace (tf np1 + 8 * Z.of_nat 0) with (tf np1) by lia. apply lookup_insert_eq.
    + rewrite lookup_insert_ne by lia. by apply put_words_at.
  - cbn [set_procs set_env set_kmem kmem set_name set_state set_cwd set_ofile context np1 set_parent set_sz set_pgdir embryo set_frames tf].
    unfold context_of, frame_of, sizeof_tf, sizeof_context, off_lr, KSTACKSIZE.
    rewrite lookup_insert_ne by lia. rewrite put_words_other by (rewrite Hlw; lia).
    rewrite M2. unfold stack_words, context_of, frame_of, sizeof_tf, sizeof_context, off_lr, KSTACKSIZE. apply lookup_insert_eq.
Qed.
End fork_spec.

(** C21: fork() makes the first free entry a runnable copy of the caller: a
    fresh process number, which it returns, the caller as parent, the copied
    address space and size, the caller's current directory and name, its open
    files - a descriptor closed in the caller is as it was in the entry - each
    with one more reference, and its registers with r0 = 0 in a new kernel stack
    whose context starts in forkret; the other entries are untouched.  With no
    free entry it returns -1 and changes nothing; when there is no page for the
    stack, or no memory for the copy, it returns -1 with the entry free, the
    stack given back and only a process number used up.  Lock, mask and nesting
    are as before in every case.  The caller's registers lie outside of the new
    stack, and the process numbers have not run out. *)
Theorem fork_correct {E} {PE : ProcEnv E} (sym : symbols) (s : @st E) dup di me p w name :
  fork_caller s me p w name -> counts filedup dup -> counts idup di ->
  (list_find (fun p => state p = UNUSED) (procs s) = None ->
   wp (fork sym) (fun v s' => v = -1 /\ outside s' = outside s /\ back s s') s) /\
  forall i p0, fork_slot s i p0 ->
    (forall e1, quiet alloc_page (env s) 0 e1 ->
       wp (fork sym) (fun v s' => v = -1 /\ env s' = e1 /\ kmem s' = kmem s /\ fork_failed s i p0 s') s) /\
    forall ks e1, quiet alloc_page (env s) ks e1 -> ks <> 0 ->
      (forall e2 e3, quiet (copyuvm (pgdir p) (u32 (sz p))) e1 0 e2 -> quiet (free_page ks) e2 tt e3 ->
         wp (fork sym) (fun v s' => v = -1 /\ env s' = e3 /\ kmem s' = stack_words sym ks (kmem s) /\ fork_failed s i p0 s') s) /\
      forall pg e2, quiet (copyuvm (pgdir p) (u32 (sz p))) e1 pg e2 -> pg <> 0 -> tf p + sizeof_tf <= ks \/ ks + KSTACKSIZE <= tf p ->
         wp (fork sym) (fun v s' => v = nextpid s /\ env s' = di (cwd p) (taken dup (ofile p) e2) /\
           forked sym s me i p p0 w name ks pg s') s.
Proof.
  intros Hc Hdup Hdi. split; [by apply (fork_full sym s me p w name)|]. intros i p0 Hslot. split; [intros e1; by apply (fork_no_stack sym s me p w name)|].
  intros ks e1 Hal Hks. split; [intros e2 e3; by eapply (fork_no_space sym s me p w name)|]. intros pg e2 Hcp Hpg Hd.
  by eapply (fork_done sym s dup di).
Qed.

Definition entry (s : @st Z) (i : nat) : proc := default zero_proc (procs s !! i).
Definition demo_words : list Z :=
  (fun k => default 0 (kmem demo2 !! (tf (entry demo2 0) + 8 * Z.of_nat k))) <$> seq 0 34.
Lemma entry_at s i : is_Some (procs s !! i) -> procs s !! i = Some (entry s i).
Proof. unfold entry. by intros [p ->]. Qed.
Lemma some_true {A} (o : option A) : match o with Some _ => true | None => false end = true -> is_Some o.
Proof. destruct o; [eauto|done]. Qed.
Definition same_words (s : @st Z) (a : Z) (w : list Z) : bool :=
  forallb (fun k => bool_decide (kmem s !! (a + 8 * Z.of_nat k) = w !! k)) (seq 0 (length w)).
Lemma same_words_spec s a w : same_words s a w = true ->
  forall k x, w !! k = Some x -> kmem s !! (a + 8 * Z.of_nat k) = Some x.
Proof.
  unfold same_words. rewrite forallb_forall. intros H k x Hk. rewrite <-Hk. apply (bool_decide_unpack _). rewrite (H k); [done|].
  apply in_seq. apply lookup_lt_Some in Hk. lia.
Qed.
Lemma demo_fork_ready : fork_caller demo2 0 (entry demo2 0) demo_words [105; 110; 105; 116; 99; 111; 100; 101] /\
  fork_slot demo2 1 (entry demo2 1).
Proof.
  assert (forall i, (i < 64)%nat -> procs demo2 !! i = Some (entry demo2 i)) as He.
  { intros i Hi. apply entry_at, lookup_lt_is_Some_2. assert (length (procs demo2) = 64%nat) as -> by (vm_compute; reflexivity). exact Hi. }
  split; [split|split; [|split]; vm_compute; reflexivity].
  - split; [vm_compute; reflexivity|]. assert (pcpu demo2 = Spin.Cpu 0 1 0) as -> by (vm_compute; reflexivity).
    split; [cbn; lia|cbn; lia].
  - vm_compute; reflexivity.
  - apply He. lia.
  - vm_compute; reflexivity.
  - assert (nextpid demo2 = 2) as -> by (vm_compute; reflexivity). lia.
  - split; [vm_compute; reflexivity|]. apply same_words_spec. vm_compute. reflexivity.
  - vm_compute; reflexivity.
  - split; [vm_compute; reflexivity|]. split; [cbn; lia|].
    split; [apply (bool_decide_unpack _); vm_compute; reflexivity|]. split; [|vm_compute; reflexivity].
    apply (bool_decide_unpack _). vm_compute. reflexivity.
Qed.
Lemma fork_correct_witness :
  wp (fork demo_sym) (fun v s' => v = 2 /\ exists np, procs s' = <[1%nat := np]> (procs demo2) /\ state np = RUNNABLE) demo2.
Proof.
  assert (env demo2 = 1076895744) as Ee by (vm_compute; reflexivity). destruct demo_fork_ready as [Hc Hslot].
  destruct (fork_correct demo_sym demo2 (fun _ e => e) (fun _ e => e) 0 _ demo_words _ Hc ltac:(intros x e; split; reflexivity) ltac:(intros x e; split; reflexivity)) as [_ Hf].
  destruct (Hf 1%nat _ Hslot) as [_ H1]. destruct (H1 1076895744 1076899840 ltac:(rewrite Ee; split; reflexivity) ltac:(lia)) as [_ H2].
  eapply wp_mono.
  - apply (H2 1076899840 1076903936); [split; reflexivity|lia|].
    assert (tf (entry demo2 0) = 1076891376) as -> by (vm_compute; reflexivity). unfold sizeof_tf, KSTACKSIZE. lia.
  - cbn beta. intros v s' (-> & _ & _ & _ & np & Hp & Hs & _). split; [vm_compute; reflexivity|]. exists np. split; [exact Hp|exact Hs].
Defined.

End Proc.
