(* ===== verification/Dir.v ===== *)
(** * Directories and path names (the end of src/src/fs.c)

    A directory's contents are 16-byte entries: a little-endian inode number
    and a name field of DIRSIZ bytes.  A C string is the list of the bytes
    from its pointer to the end of its object; strncmp and strncpy are
    KString.v's, run on a memory with the two objects. *)

From S2P Require Import Prelude.
From S2P Require Import Bytes.
From S2P Require Import KString.
From S2P Require Import Bio.
From S2P Require Import Log.
From S2P Require Import Store.
From S2P Require Import Fs.
From S2P Require Import Content.
From S2P Require Import Inode.
From S2P Require Import FsSpec.

Module Dir.
Import Fs.
Import Content.
Import Inode.

Definition DIRSIZ : Z := 14.
Definition sizeof_dirent : Z := 16.
Definition ROOTDEV : Z := 1.
Definition SLASH : Z := 47.

(** ** Names *)

(** two objects in a memory of their own *)
Definition two (s t : list Z) : mem := write_bytes (write_bytes ∅ 0 s) (Z.of_nat (length s)) t.
Definition namecmp {S} (s t : list Z) : M S Z := fun st =>
  match KString.strncmp 0 (Z.of_nat (length s)) DIRSIZ (two s t) with
  | Done v _ => Done v st
  | _ => Undef
  end.
(** strncpy(field, name, DIRSIZ): the field afterwards *)
Definition name_store {S} (field name : list Z) : M S (list Z) := fun st =>
  match KString.strncpy 0 (Z.of_nat (length field)) DIRSIZ (two field name) with
  | Done _ m => Done ((fun i => default 0 (m !! Z.of_nat i)) <$> seq 0 (length field)) st
  | _ => Undef
  end.

(** struct dirent, as loaded from its 16 bytes *)
Record dirent := Dirent { de_inum : Z; de_name : list Z }.
Definition ld_dirent (x : list Z) : option dirent :=
  n ← ld16 x 0;
  f ← slice x 2 DIRSIZ;
  Some (Dirent n f).
Definition st_dirent (de : dirent) : list Z := le 2 (u16 (de_inum de)) ++ de_name de.

Section dir.
Context {B : Type} {BS : BlockStore B} {DV : Devsw B}.

(** [readi(dp, (char* )&de, off, sizeof(de))] with its panic *)
Definition read_dirent (dp off : Z) (msg : string) : M (st B) dirent :=
  r ← readi dp off sizeof_dirent;
  panic_if (negb (r.1 =? sizeof_dirent)) msg ;;
  deref (fun _ => ld_dirent r.2).

Definition dirlookup_body (dp : Z) (name : list Z) (off : Z) : M (st B) (Z + option (Z * Z)) :=
  x ← ld_ip dp;
  if off <? i_size x then
    de ← read_dirent dp off "dirlink read";
    if de_inum de =? 0 then mret (inl (u32 (off + sizeof_dirent))) else
    c ← namecmp name (de_name de);
    if c =? 0 then
      (* entry matches path element *)
      d ← ld_ip dp;
      ip ← iget (i_dev d) (de_inum de);
      mret (inr (Some (ip, off)))
    else mret (inl (u32 (off + sizeof_dirent)))
  else mret (inr None).
(** the inode and *poff, or [None] for a null pointer *)
Definition dirlookup (dp : Z) (name : list Z) : M (st B) (option (Z * Z)) :=
  x ← ld_ip dp;
  panic_if (negb (i_type x =? T_DIR)) "dirlookup not DIR" ;;
  loop (S (Z.to_nat (i_size x))) (dirlookup_body dp name) 0.

(** the loop looking for an empty dirent *)
Definition dirlink_body (dp off : Z) : M (st B) (Z + Z) :=
  x ← ld_ip dp;
  if u32 off <? i_size x then
    de ← read_dirent dp (u32 off) "dirlink read";
    if de_inum de =? 0 then mret (inr off) else
    off' ← c_int (off + sizeof_dirent);
    mret (inl off')
  else mret (inr off).
Definition dirlink (dp : Z) (name : list Z) (inum : Z) : M (st B) Z :=
  r ← dirlookup dp name;
  match r with
  | Some (ip, _) => iput ip ;; mret (-1)
  | None =>
      x ← ld_ip dp;
      off ← loop (S (Z.to_nat (i_size x))) (dirlink_body dp) 0;
      f ← name_store (replicate (Z.to_nat DIRSIZ) 0) name;
      w ← writei dp (st_dirent (Dirent inum f)) (u32 off) sizeof_dirent;
      panic_if (negb (w =? sizeof_dirent)) "dirlink" ;;
      mret 0
  end.

(** ** Paths *)

(** [while ( *path == '/') path++] *)
Fixpoint skip_slashes (path : list Z) : option (list Z) :=
  match path with
  | [] => None
  | c :: p => if c =? SLASH then skip_slashes p else Some path
  end.
(** [while ( *path != '/' && *path != 0) path++]: what was passed, and the rest *)
Fixpoint pass_elem (path : list Z) : option (list Z * list Z) :=
  match path with
  | [] => None
  | c :: p =>
      if (c =? SLASH) || (c =? 0) then Some ([], path)
      else '(e, r) ← pass_elem p; Some (c :: e, r)
  end.
(** the rest of the path ([None] inside: no name to remove) and the name array *)
Definition skipelem (path name : list Z) : option (option (list Z) * list Z) :=
  p ← skip_slashes path;
  c ← head p;
  if c =? 0 then Some (None, name) else
  '(e, r) ← pass_elem p;
  let len := Z.of_nat (length e) in
  name' ← (if DIRSIZ <=? len then splice name 0 (take (Z.to_nat DIRSIZ) e)
           else y ← splice name 0 e; splice y len [0]);
  r' ← skip_slashes r;
  Some (Some r', name').

(** one round of namex's loop; the result says whether it returned inside *)
Definition namex_body (parent : bool) (v : Z * list Z * list Z) : M (st B) (Z * list Z * list Z + bool * Z * list Z) :=
  let '(ip, path, name) := v : Z * list Z * list Z in
  r ← deref (S := st B) (fun _ => skipelem path name);
  match r with
  | (None, name) => mret (inr (false, ip, name))
  | (Some path, name) =>
      ilock ip ;;
      x ← ld_ip ip;
      if negb (i_type x =? T_DIR) then iunlockput ip ;; mret (inr (true, NULL, name)) else
      c ← deref (fun _ => head path);
      if parent && (c =? 0) then
        (* Stop one level early. *)
        iunlock ip ;; mret (inr (true, ip, name))
      else
        r ← dirlookup ip name;
        match r with
        | None => iunlockput ip ;; mret (inr (true, NULL, name))
        | Some (next, _) => iunlockput ip ;; mret (inl (next, path, name))
        end
  end.
Definition namex (path : list Z) (parent : bool) (name : list Z) : M (st B) (Z * list Z) :=
  c ← deref (S := st B) (fun _ => head path);
  ip ← (if c =? SLASH then iget ROOTDEV ROOTINO else d ← gets cwd; idup d);
  r ← loop (Datatypes.S (length path)) (namex_body parent) (ip, path, name);
  let '(inside, ip, name) := r : bool * Z * list Z in
  if inside : bool then mret (ip, name) else
  if parent then iput ip ;; mret (NULL, name) else mret (ip, name).

Definition namei (path : list Z) : M (st B) Z :=
  r ← namex path false (replicate (Z.to_nat DIRSIZ) 0); mret r.1.
Definition nameiparent (path name : list Z) : M (st B) (Z * list Z) := namex path true name.

End dir.
(** ** Names and path elements *)

(** the characters of a name: up to [n] bytes or a NUL *)
Fixpoint chars (n : nat) (l : list Z) : list Z :=
  match n, l with
  | Datatypes.S n, c :: l => if c =? 0 then [] else c :: chars n l
  | _, _ => []
  end.
(** an object strncmp() bounded by [n] stays inside *)
Definition obj_ok (n : nat) (l : list Z) : Prop := (n <= length l)%nat \/ (0 ∈ l).

Lemma chars_app_full n e l : (0 ∉ e) -> length e = n -> chars n (e ++ l) = e.
Proof.
  intros H0 <-. induction e as [|c e IH]; cbn; [by destruct l|].
  apply not_elem_of_cons in H0 as [Hc He]. destruct (Z.eqb_spec c 0); [congruence|]. by rewrite IH.
Qed.
Lemma chars_app_nul n e l : (0 ∉ e) -> (length e < n)%nat -> chars n (e ++ 0 :: l) = e.
Proof.
  revert n. induction e as [|c e IH]; intros n H0 Hl; (destruct n as [|n]; [cbn in Hl; lia|]); [done|].
  apply not_elem_of_cons in H0 as [Hc He]. cbn in *. destruct (Z.eqb_spec c 0); [congruence|]. rewrite IH; [done|done|lia].
Qed.
Lemma chars_le n l : (length (chars n l) <= n)%nat.
Proof.
  revert l. induction n as [|n IH]; intros [|c l]; cbn; [lia..|]. destruct (c =? 0); cbn; [lia|]. specialize (IH l). lia.
Qed.
Lemma chars_no0 n l : 0 ∉ chars n l.
Proof.
  revert l. induction n as [|n IH]; intros [|c l]; cbn; try apply not_elem_of_nil.
  destruct (Z.eqb_spec c 0); [apply not_elem_of_nil|]. apply not_elem_of_cons. split; [congruence|apply IH].
Qed.
(** the characters are at the front, and a NUL or the bound ends them *)
Lemma chars_split n l : obj_ok n l -> exists r, l = chars n l ++ r /\
  (length (chars n l) = n \/ (length (chars n l) < n)%nat /\ exists r', r = 0 :: r').
Proof.
  revert l. induction n as [|n IH]; intros l Hok; [exists l; split; [done|by left]|].
  destruct l as [|c l]; [destruct Hok as [H|H]; [cbn in H; lia|by apply not_elem_of_nil in H]|]. cbn.
  destruct (Z.eqb_spec c 0) as [->|Hc]; [exists (0 :: l); split; [done|right; cbn; split; [lia|eauto]]|].
  assert (obj_ok n l) as Hok' by (destruct Hok as [H|H]; [left; cbn in H; lia|right; set_solver]).
  destruct (IH l Hok') as (r & E & Hr). exists r. split; [cbn; by rewrite <-E|]. cbn.
  destruct Hr as [Hr|[Hr ?]]; [left; lia|right; split; [lia|done]].
Qed.

Lemma name_at_chars m p n l : obj_ok n l -> bytes_at m p l -> name_at m p n (chars n l).
Proof.
  intros Hok Hb. destruct (chars_split n l Hok) as (r & E & Hr). rewrite E in Hb. apply bytes_at_app in Hb as [Hb1 Hb2].
  split; [done|]. split; [apply chars_no0|]. destruct Hr as [Hr|[Hr [r' ->]]]; [by left|right]. split; [done|].
  by apply bytes_at_cons in Hb2 as [? _].
Qed.

Lemma two_left s t : bytes_at (two s t) 0 s.
Proof. unfold two. apply bytes_at_write_disjoint; [lia|apply bytes_at_written]. Qed.
Lemma two_right s t : bytes_at (two s t) (Z.of_nat (length s)) t.
Proof. apply bytes_at_written. Qed.

(** namecmp() compares the characters *)
Lemma namecmp_spec {S} s t (st : S) : obj_ok 14 s -> obj_ok 14 t ->
  exists r, namecmp s t st = Done r st /\ (r = 0 <-> chars 14 s = chars 14 t).
Proof.
  intros Hs Ht. unfold namecmp.
  destruct (strncmp_names (two s t) 0 (Z.of_nat (length s)) DIRSIZ (chars 14 s) (chars 14 t)) as (r & Hr & Hiff).
  - unfold DIRSIZ. lia.
  - apply name_at_chars; [done|apply two_left].
  - apply name_at_chars; [done|apply two_right].
  - exists r. by rewrite Hr.
Qed.

(** *** Splitting a path *)

Fixpoint split (l : list Z) : list (list Z) :=
  match l with
  | [] => [[]]
  | c :: l =>
      if c =? SLASH then [] :: split l
      else match split l with w :: ws => (c :: w) :: ws | [] => [[c]] end
  end.
(** the elements of a path: what lies between slashes, if anything *)
Definition elements (l : list Z) : list (list Z) := filter (fun w => w <> []) (split l).

(** the names skipelem() copies, one after the other *)
Fixpoint walk (fuel : nat) (path name : list Z) : option (list (list Z)) :=
  match fuel with
  | O => None
  | Datatypes.S fuel =>
      r ← skipelem path name;
      match r with
      | (None, _) => Some []
      | (Some path, name) => ws ← walk fuel path name; Some (chars 14 name :: ws)
      end
  end.

Fixpoint strip (l : list Z) : list Z :=
  match l with [] => [] | c :: p => if c =? SLASH then strip p else l end.

Lemma elements_slash l : elements (SLASH :: l) = elements l.
Proof. done. Qed.
Lemma elements_strip l : elements (strip l) = elements l.
Proof.
  induction l as [|c l IH]; [done|]. cbn [strip]. destruct (Z.eqb_spec c SLASH) as [->|]; [|done].
  by rewrite IH, elements_slash.
Qed.
Lemma strip_le l : (length (strip l) <= length l)%nat.
Proof. induction l as [|c l IH]; cbn; [done|]. destruct (c =? SLASH); cbn; lia. Qed.
Lemma strip_head c l l' : strip l = c :: l' -> c <> SLASH.
Proof.
  induction l as [|d l IH]; cbn; [done|]. destruct (Z.eqb_spec d SLASH) as [|Hd]; [done|]. by intros [= -> ->].
Qed.
Lemma split_elem e l : (SLASH ∉ e) -> split (e ++ l) =
  match split l with w :: ws => (e ++ w) :: ws | [] => [e] end.
Proof.
  intros He. induction e as [|c e IH]; cbn [app].
  - destruct l as [|d l]; [done|]. cbn. destruct (d =? SLASH); [done|]. by destruct (split l).
  - apply not_elem_of_cons in He as [Hc He]. cbn [split]. destruct (Z.eqb_spec c SLASH); [congruence|].
    rewrite IH by done. by destruct (split l).
Qed.
Lemma elements_elem e l : (SLASH ∉ e) -> e <> [] -> l = [] \/ (exists l', l = SLASH :: l') ->
  elements (e ++ l) = e :: elements l.
Proof.
  intros He Hne Hl. unfold elements. rewrite split_elem by done. destruct Hl as [->|[l' ->]].
  - change (split []) with [@nil Z]. cbv beta iota. rewrite app_nil_r. by rewrite filter_cons_True.
  - change (split (SLASH :: l')) with ([] :: split l'). cbv beta iota. rewrite app_nil_r. by rewrite filter_cons_True.
Qed.

(** *** skipelem() *)

Lemma skip_slashes_strip s r : (0 ∉ s) -> skip_slashes (s ++ 0 :: r) = Some (strip s ++ 0 :: r).
Proof.
  intros H0. induction s as [|c s IH]; [done|]. apply not_elem_of_cons in H0 as [_ H0]. cbn.
  destruct (Z.eqb_spec c SLASH); [by apply IH|done].
Qed.
(** the element at the front of a string *)
Fixpoint first_elem (s : list Z) : list Z * list Z :=
  match s with
  | [] => ([], [])
  | c :: p => if c =? SLASH then ([], s) else let '(e, r) := first_elem p in (c :: e, r)
  end.
Lemma first_elem_spec s : s = (first_elem s).1 ++ (first_elem s).2 /\ (SLASH ∉ (first_elem s).1) /\
  ((first_elem s).2 = [] \/ exists l, (first_elem s).2 = SLASH :: l).
Proof.
  induction s as [|c s (E & Hn & Hr)]; [split; [done|]; split; [apply not_elem_of_nil|by left]|]. cbn [first_elem].
  destruct (Z.eqb_spec c SLASH) as [->|Hc].
  - split; [done|]. split; [apply not_elem_of_nil|]. right. by exists s.
  - destruct (first_elem s) as [e r]. cbn [fst snd] in *. split; [by rewrite E|]. split; [|done].
    apply not_elem_of_cons. split; [congruence|done].
Qed.
Lemma pass_elem_first s r : (0 ∉ s) -> pass_elem (s ++ 0 :: r) = Some ((first_elem s).1, (first_elem s).2 ++ 0 :: r).
Proof.
  intros H0. induction s as [|c s IH]; [done|]. apply not_elem_of_cons in H0 as [Hc H0]. cbn [app pass_elem first_elem].
  destruct (Z.eqb_spec c SLASH) as [->|]; cbn [orb]; [done|].
  destruct (Z.eqb_spec c 0); [congruence|]. rewrite IH by done. by destruct (first_elem s).
Qed.

(** the name array after an element was copied *)
Definition stored (name e : list Z) : list Z :=
  if decide (14 <= length e)%nat then blit name 0 (take 14 e) else blit (blit name 0 e) (length e) [0].
Lemma length_stored name e : length name = 14%nat -> length (stored name e) = 14%nat.
Proof.
  intros Hn. unfold stored. case_decide.
  - rewrite length_blit; [done|]. rewrite length_take. lia.
  - rewrite !length_blit; [done|lia|]. rewrite length_blit by lia. cbn. lia.
Qed.
Lemma chars_stored name e : length name = 14%nat -> (0 ∉ e) -> chars 14 (stored name e) = take 14 e.
Proof.
  intros Hn H0. unfold stored. case_decide as Hl.
  - unfold blit. rewrite take_0, app_nil_l. rewrite chars_app_full; [done| |rewrite length_take; lia].
    intros Hin. apply H0. rewrite <-(take_drop 14 e). apply elem_of_app. by left.
  - assert (take (length e) (blit name 0 e) = e) as Ht by (unfold blit; rewrite take_0, app_nil_l; apply take_app_length).
    unfold blit at 1. rewrite Ht. cbn [app]. rewrite chars_app_nul; [|done|lia]. rewrite firstn_all2; [done|lia].
Qed.

Lemma skipelem_none s r name : (0 ∉ s) -> strip s = [] -> skipelem (s ++ 0 :: r) name = Some (None, name).
Proof. intros H0 Hs. unfold skipelem. by rewrite skip_slashes_strip, Hs. Qed.

Lemma strip_elements l : elements (strip l) = [] -> strip l = [].
Proof.
  intros H. destruct (strip l) as [|c t] eqn:Es; [done|exfalso]. apply strip_head in Es as Hc. destruct (first_elem_spec (c :: t)) as (E & Hnos & Hrest).
  destruct (first_elem (c :: t)) as [e q]. cbn [fst snd] in *. destruct e as [|b e].
  - destruct Hrest as [->|[l' ->]]; [done|]. injection E as -> _. done.
  - rewrite E, elements_elem in H; done.
Qed.
(** what one call of skipelem() does to a string with a name left in it *)
Lemma skipelem_some s r name : (0 ∉ s) -> strip s <> [] -> length name = 14%nat ->
  exists e s', (0 ∉ s') /\ (0 ∉ e) /\ elements s = e :: elements s' /\ (length s' < length s)%nat /\ (elements s' = [] -> s' = []) /\
    skipelem (s ++ 0 :: r) name = Some (Some (s' ++ 0 :: r), stored name e).
Proof.
  intros H0 Hne Hn. pose proof (strip_le s) as Hle. pose proof (elements_strip s) as Hel.
  assert (forall l, (0 ∉ l) -> 0 ∉ strip l) as Hst.
  { intros l. induction l as [|c l IH]; [done|]. intros Hl. cbn. destruct (c =? SLASH); [|done]. apply IH. set_solver. }
  pose proof (Hst s H0) as H0'. destruct (strip s) as [|c t] eqn:Es; [done|]. apply strip_head in Es as Hc.
  destruct (first_elem_spec (c :: t)) as (E & Hnos & Hrest).
  set (e := (first_elem (c :: t)).1) in *. set (q := (first_elem (c :: t)).2) in *.
  assert (e <> []) as Hene.
  { intros He. rewrite He in E. destruct Hrest as [Hq|[l Hq]]; rewrite Hq in E; [done|]. injection E as -> _. done. }
  assert ((0 ∉ e) /\ (0 ∉ q)) as [H0e H0q] by (rewrite E in H0'; set_solver).
  exists e, (strip q). split; [by apply Hst|]. split; [done|]. split; [|split; [|split; [apply strip_elements|]]].
  - rewrite <-Hel, E, elements_elem by done. by rewrite elements_strip.
  - pose proof (strip_le q). assert (length (c :: t) = (length e + length q)%nat) as Hlen by (rewrite E at 1; apply length_app).
    destruct e; [done|]. cbn [length] in *. lia.
  - unfold skipelem. rewrite skip_slashes_strip, Es by done. cbn [mbind option_bind app head].
    destruct (Z.eqb_spec c 0) as [->|_]; [set_solver|].
    change (c :: t ++ 0 :: r) with ((c :: t) ++ 0 :: r). rewrite pass_elem_first by done. fold e q. cbn [mbind option_bind].
    assert ((if DIRSIZ <=? Z.of_nat (length e) then splice name 0 (take (Z.to_nat DIRSIZ) e)
      else y ← splice name 0 e; splice y (Z.of_nat (length e)) [0]) = Some (stored name e)) as ->.
    { unfold stored, DIRSIZ. change (Z.to_nat 14) with 14%nat. destruct (Z.leb_spec 14 (Z.of_nat (length e))); case_decide; try lia.
      - rewrite splice_in; [done|lia|]. rewrite length_take. lia.
      - rewrite splice_in by lia. cbn [mbind option_bind].
        rewrite splice_in; [by rewrite Nat2Z.id|lia|]. rewrite length_blit by lia. cbn [length]. lia. }
    cbn [mbind option_bind]. by rewrite skip_slashes_strip.
Qed.

Lemma strip_nil s : strip s = [] -> elements s = [].
Proof. intros H. by rewrite <-elements_strip, H. Qed.

(** walking a path with skipelem() terminates and yields
    its elements: the pieces between slashes, empty ones left out, each cut
    to the DIRSIZ characters of the name array, whatever the array held
    before and whatever follows the path's NUL. *)
Theorem skipelem_elements (s r name : list Z) :
  (0 ∉ s) -> length name = 14%nat ->
  walk (Datatypes.S (length s)) (s ++ 0 :: r) name = Some (take 14 <$> elements s).
Proof.
  intros H0 Hn. remember (length s) as k eqn:Ek.
  assert (length s <= k)%nat as Hk by lia. clear Ek. revert s name H0 Hn Hk.
  induction k as [|k IH]; intros s name H0 Hn Hk.
  - destruct s; [|cbn in Hk; lia]. done.
  - destruct (decide (strip s = [])) as [Hs|Hs].
    + cbn [walk]. rewrite skipelem_none by done. cbn [mbind option_bind]. by rewrite strip_nil.
    + destruct (skipelem_some s r name H0 Hs Hn) as (e & s' & H0' & H0e & Hel & Hlt & _ & Hsk).
      remember (Datatypes.S k) as k' eqn:Ek'. cbn [walk]. rewrite Hsk. cbn [mbind option_bind]. subst k'.
      rewrite IH by (try apply length_stored; done || lia). cbn [mbind option_bind].
      rewrite Hel, chars_stored by done. done.
Qed.
(** "///a//bb": the source's example *)
Lemma skipelem_elements_witness :
  walk 9 ([47; 47; 47; 97; 47; 47; 98; 98] ++ [0]) (replicate 14 7) = Some [[97]; [98; 98]].
Proof.
  refine (skipelem_elements [47; 47; 47; 97; 47; 47; 98; 98] [] (replicate 14 7) _ _); [|reflexivity].
  intros H. repeat (apply elem_of_cons in H as [H|H]; [discriminate H|]). by apply elem_of_nil in H.
Defined.

(** ** The entries of a directory *)

(** the entry at index [k] of a directory's contents *)
Definition dent (c : list Z) (k : nat) : dirent :=
  Dirent (of_le (sub c (16 * k) 2)) (sub c (16 * k + 2) 14).
Definition dents (c : list Z) : list dirent := dent c <$> seq 0 (length c / 16).
(** an entry in use with this name *)
Definition hit (name : list Z) (de : dirent) : Prop := de_inum de <> 0 /\ chars 14 (de_name de) = chars 14 name.
#[export] Instance hit_dec name de : Decision (hit name de).
Proof. unfold hit. apply _. Defined.

Lemma ld_dirent_dent c k : (16 * (k + 1) <= length c)%nat -> ld_dirent (sub c (16 * k) 16) = Some (dent c k).
Proof.
  intros H. unfold ld_dirent. assert (length (sub c (16 * k) 16) = 16%nat) as Hl by (rewrite length_sub; lia).
  assert (ld16 (sub c (16 * k) 16) 0 = Some (of_le (sub c (16 * k) 2))) as ->.
  { unfold ld16, ldn. rewrite Hl. cbn [Z.leb Z.add]. rewrite sub_sub by lia.
    change (Z.to_nat 0) with 0%nat. by rewrite Nat.add_0_r. }
  cbn [mbind option_bind]. unfold DIRSIZ. rewrite slice_in by lia. cbn [mbind option_bind].
  unfold dent. do 2 f_equal. change (Z.to_nat 2) with 2%nat. change (Z.to_nat 14) with 14%nat. by rewrite sub_sub by lia.
Qed.
Lemma dents_lookup c k de : dents c !! k = Some de <-> de = dent c k /\ (k < length c / 16)%nat.
Proof.
  unfold dents. rewrite list_lookup_fmap. split.
  - intros H. destruct (seq 0 (length c / 16) !! k) as [j|] eqn:E; [|done]. apply lookup_seq in E as [-> Hlt].
    injection H as <-. done.
  - intros [-> Hlt]. by rewrite lookup_seq_lt.
Qed.

Section lookups.
Context {B : Type} {BS : BlockStore B} {DV : Devsw B} {BL : BlockStoreLaws B}.

(** A directory held by the caller, and room to read it. *)
Record dir_at (a : bool) (s : st B) (view : Z -> list Z) (lg : gset Z) (sb : superblock) (dp : Z) (n : inode) : Prop := {
  da_holds : holds a (blk s) ∅ ∅ view lg;
  da_file : ifile sb view (nblk (blk s)) n;
  da_entry : at_ (inodes s) dp = Some n;
  da_type : i_type n = T_DIR;
  da_size : i_size n mod 16 = 0;
  da_room : (base.size lg < 10)%nat;
}.

Lemma dir_at_set a s view lg sb dp n B' : dir_at a s view lg sb dp n -> holds a B' ∅ ∅ view lg -> same_store s B' ->
  dir_at a (set_blk B' s) view lg sb dp n.
Proof. intros [H1 H2 H3 H4 H5 H6] Hh [E _]. split; try done. cbn. by rewrite E. Qed.
Lemma dir_size a s view lg sb dp n : dir_at a s view lg sb dp n ->
  0 <= i_size n <= 71680 /\ i_size n = Z.of_nat (length (icontent view n)) /\
  i_size n = 16 * Z.of_nat (length (icontent view n) / 16).
Proof.
  intros [H1 H2 _ _ H5 _]. pose proof (if_size _ _ _ _ H2) as Hs. unfold MAXFILE, NDIRECT, NINDIRECT in Hs.
  rewrite (length_icontent _ _ _ _ _ _ _ _ H1 H2). split; [lia|]. split; [lia|].
  rewrite Nat2Z.inj_div, Z2Nat.id by lia. change (Z.of_nat 16) with 16. Z.div_mod_to_equations. lia.
Qed.

Lemma read_dirent_spec a s view lg sb dp n k msg Q : dir_at a s view lg sb dp n ->
  (k < length (icontent view n) / 16)%nat ->
  (forall B', holds a B' ∅ ∅ view lg -> same_store s B' -> Q (dent (icontent view n) k) (set_blk B' s)) ->
  wp (read_dirent dp (16 * Z.of_nat k) msg) Q s.
Proof.
  intros Hd Hk HQ. destruct (dir_size _ _ _ _ _ _ _ Hd) as (Hs & Hlen & Hs16). pose proof Hd as [H1 H2 H3 H4 _ H6].
  set (c := icontent view n) in *. assert (16 * (k + 1) <= length c)%nat as Hfit by (pose proof (Nat.Div0.mul_div_le (length c) 16); lia).
  unfold read_dirent, sizeof_dirent. wp_step. eapply wp_mono.
  { eapply (readi_spec a s view lg sb n dp); [done|done|done|rewrite H4; done|done|lia|lia]. }
  cbn beta. intros r s' (-> & B' & -> & HB & Hsame). fold c.
  assert (readi_result c (16 * Z.of_nat k) 16 = (16, sub c (16 * k) 16)) as ->.
  { unfold readi_result. rewrite u32_id by lia. destruct (Z.ltb_spec (Z.of_nat (length c)) (16 * Z.of_nat k)); [lia|].
    destruct (Z.ltb_spec (16 * Z.of_nat k + 16) (16 * Z.of_nat k)); [lia|]. cbn [orb].
    rewrite Z.min_l by lia. do 2 f_equal; lia. }
  wp_step. wp_step; [done|]. eapply wp_deref; [by apply ld_dirent_dent|]. by apply HQ.
Qed.

Lemma length_dent_name c k : (k < length c / 16)%nat -> length (de_name (dent c k)) = 14%nat.
Proof.
  intros Hk. pose proof (Nat.Div0.mul_div_le (length c) 16). cbn [dent de_name]. rewrite length_sub; lia.
Qed.

(** the loops over the entries: none of the first [k] satisfies [P] *)
Definition scanned (a : bool) (s : st B) (view : Z -> list Z) (lg : gset Z) (c : list Z) (P : dirent -> Prop)
    (k : nat) (s' : st B) : Prop :=
  (k <= length c / 16)%nat /\ (exists B', s' = set_blk B' s /\ holds a B' ∅ ∅ view lg /\ same_store s B') /\
  forall j de, (j < k)%nat -> dents c !! j = Some de -> ~ P de.

Lemma scanned_start a s view lg sb dp n P : dir_at a s view lg sb dp n ->
  scanned a s view lg (icontent view n) P 0 s.
Proof.
  intros Hd. split; [lia|]. split; [|lia]. exists (blk s). rewrite set_blk_id. split; [done|]. split; [apply Hd|apply same_refl].
Qed.
Lemma scanned_dir a s view lg sb dp n P k s' : dir_at a s view lg sb dp n ->
  scanned a s view lg (icontent view n) P k s' -> dir_at a s' view lg sb dp n.
Proof. intros Hd (_ & (B' & -> & HB & Hs) & _). by apply dir_at_set. Qed.
Lemma scanned_next a s view lg c P k s' B2 : scanned a s view lg c P k s' -> (k < length c / 16)%nat ->
  holds a B2 ∅ ∅ view lg -> same_store s' B2 -> ~ P (dent c k) -> scanned a s view lg c P (k + 1) (set_blk B2 s').
Proof.
  intros (Hk & (B' & -> & HB & Hs) & Hno) Hlt HB2 Hs2 HP. split; [lia|]. split.
  - exists B2. split; [done|]. split; [done|]. by eapply same_trans.
  - intros j de Hj Hde. destruct (decide (j = k)) as [->|]; [|apply (Hno j de); [lia|done]].
    by apply dents_lookup in Hde as [-> _].
Qed.
Lemma scanned_find a s view lg c P `{!forall de, Decision (P de)} k s' : scanned a s view lg c P k s' ->
  (k < length c / 16)%nat -> P (dent c k) -> list_find P (dents c) = Some (k, dent c k).
Proof.
  intros (Hk & _ & Hno) Hlt HP. apply list_find_Some. split; [by apply dents_lookup|]. split; [done|].
  intros j y Hj Hlt'. by apply (Hno j y).
Qed.
Lemma scanned_none a s view lg c P `{!forall de, Decision (P de)} k s' : scanned a s view lg c P k s' ->
  (length c / 16 <= k)%nat -> list_find P (dents c) = None.
Proof.
  intros (Hk & _ & Hno) Hge. apply list_find_None, Forall_lookup. intros j de Hj.
  apply (Hno j de); [|done]. apply dents_lookup in Hj. lia.
Qed.

Lemma dirlookup_spec a s view lg sb dp n name Q : dir_at a s view lg sb dp n -> obj_ok 14 name ->
  (forall B', holds a B' ∅ ∅ view lg -> same_store s B' -> list_find (hit name) (dents (icontent view n)) = None ->
     Q None (set_blk B' s)) ->
  (forall B' k de, holds a B' ∅ ∅ view lg -> same_store s B' ->
     list_find (hit name) (dents (icontent view n)) = Some (k, de) ->
     wp (iget (i_dev n) (de_inum de)) (fun ip s' => Q (Some (ip, 16 * Z.of_nat k)) s') (set_blk B' s)) ->
  wp (dirlookup dp name) Q s.
Proof.
  intros Hd Hname HQ0 HQ1. set (c := icontent view n) in *.
  destruct (dir_size _ _ _ _ _ _ _ Hd) as (Hs & Hlen & Hs16). fold c in Hlen, Hs16.
  pose proof Hd as [_ _ Hat Hty _ _]. unfold dirlookup. wp_step. eapply wp_ld_ip; [done|].
  rewrite Hty. wp_step. wp_step; [done|].
  apply wp_loop with (mu := fun off => Z.to_nat (i_size n - off))
    (Inv := fun off s' => exists k : nat, off = 16 * Z.of_nat k /\ scanned a s view lg c (hit name) k s').
  - exists 0%nat. split; [done|]. by eapply scanned_start.
  - lia.
  - intros off s' (k & -> & Hsc). pose proof (scanned_dir _ _ _ _ _ _ _ _ _ _ Hd Hsc) as Hd'.
    unfold dirlookup_body. wp_step. eapply wp_ld_ip; [apply Hd'|]. unfold sizeof_dirent.
    destruct (Z.ltb_spec (16 * Z.of_nat k) (i_size n)) as [Hlt|Hge].
    2: { wp_step. pose proof Hsc as (_ & (B' & -> & HB & Hsm) & _). apply HQ0; [done|done|].
         eapply scanned_none; [done|lia]. }
    assert (k < length c / 16)%nat as Hke by lia. wp_step. eapply read_dirent_spec; [done|exact Hke|].
    intros B2 HB2 Hsame2. fold c. pose proof (scanned_next _ _ _ _ _ _ _ _ B2 Hsc Hke HB2 Hsame2) as Hnext.
    rewrite u32_id by lia. replace (16 * Z.of_nat k + 16) with (16 * Z.of_nat (k + 1)) by lia.
    assert (~ hit name (dent c k) -> (exists k0 : nat, 16 * Z.of_nat (k + 1) = 16 * Z.of_nat k0 /\
      scanned a s view lg c (hit name) k0 (set_blk B2 s')) /\
      (Z.to_nat (i_size n - 16 * Z.of_nat (k + 1)) < Z.to_nat (i_size n - 16 * Z.of_nat k))%nat) as Hgo.
    { intros Hnh. split; [|lia]. exists (k + 1)%nat. split; [done|]. by apply Hnext. }
    destruct (Z.eqb_spec (de_inum (dent c k)) 0) as [E0|E0].
    { wp_step. apply Hgo. by intros [? _]. }
    destruct (namecmp_spec name (de_name (dent c k)) (set_blk B2 s') Hname) as (r & Hr & Hiff).
    { left. rewrite length_dent_name by done. lia. }
    wp_step. eapply wp_eq; [exact Hr|]. destruct (Z.eqb_spec r 0) as [->|Hr0].
    + assert (hit name (dent c k)) as Hh by (split; [done|symmetry; by apply Hiff]).
      pose proof Hsc as (_ & (B' & -> & HB & Hsm) & _).
      wp_step. eapply wp_ld_ip; [exact Hat|]. wp_step. eapply wp_mono.
      * apply (HQ1 B2 k (dent c k)); [done|by eapply same_trans|]. by eapply scanned_find.
      * intros ip s2 Hq. by wp_step.
    + wp_step. apply Hgo. intros [_ Hh]. apply Hr0, Hiff. by symmetry.
Qed.
End lookups.

(** ** dirlink() *)

(** the entry dirlink writes *)
Definition new_entry (name : list Z) (inum : Z) : dirent := Dirent (u16 inum) (fillpad 14 (chars 14 name)).
(** the entries afterwards: in the first free place, or at the end *)
Definition free_index (l : list dirent) : nat :=
  match list_find (fun de => de_inum de = 0) l with Some (k, _) => k | None => length l end.
Definition linked (l : list dirent) (de : dirent) : list dirent :=
  take (free_index l) l ++ de :: drop (S (free_index l)) l.

Lemma length_fillpad n l : (length l <= n)%nat -> length (fillpad n l) = n.
Proof. intros H. unfold fillpad. rewrite length_app, length_replicate. lia. Qed.
Lemma chars_fillpad name : chars 14 (fillpad 14 (chars 14 name)) = chars 14 name.
Proof.
  pose proof (chars_le 14 name) as Hl. pose proof (chars_no0 14 name) as H0. unfold fillpad.
  destruct (decide (length (chars 14 name) = 14%nat)) as [E|E].
  - by apply chars_app_full.
  - destruct (14 - length (chars 14 name))%nat as [|k] eqn:Ek; [lia|]. cbn [replicate]. apply chars_app_nul; [done|lia].
Qed.
Lemma name_store_spec {S} name (st : S) : obj_ok 14 name -> bytes_ok name ->
  name_store (replicate 14 0) name st = Done (fillpad 14 (chars 14 name)) st.
Proof.
  intros Hok Hb. unfold name_store. rewrite length_replicate. change (Z.of_nat 14) with 14.
  pose proof (chars_le 14 name) as Hl. destruct (chars_split 14 name Hok) as (r & Er & _).
  assert (Forall is_byte (chars 14 name)) as Hby.
  { rewrite Er in Hb. apply Forall_app in Hb as [Hb _]. exact Hb. }
  assert (mapped (two (replicate 14 0) name) 0 (Z.to_nat 14)) as Hm.
  { apply mapped_write. exact (bytes_at_mapped _ _ _ (bytes_at_written ∅ 0 (replicate 14 0))). }
  rewrite (strncpy_field _ 0 14 DIRSIZ (chars 14 name)).
  - f_equal. apply list_eq. intros i. change (Z.to_nat DIRSIZ) with 14%nat.
    destruct (decide (i < 14)%nat) as [Hi|Hi].
    + rewrite list_lookup_fmap, lookup_seq_lt by done. cbn [fmap option_fmap option_map].
      assert (length (fillpad 14 (chars 14 name)) = 14%nat) as Hfl by (by apply length_fillpad).
      rewrite lookup_write_bytes, Hfl. case_decide; [|lia].
      replace (Z.to_nat (Z.of_nat (0 + i) - 0)) with i by lia.
      destruct (lookup_lt_is_Some_2 (fillpad 14 (chars 14 name)) i) as [x Hx]; [by rewrite Hfl|]. by rewrite Hx.
    + rewrite (lookup_ge_None_2 (fillpad 14 (chars 14 name))) by (rewrite length_fillpad by done; lia).
      apply lookup_ge_None_2. rewrite length_fmap, length_seq. lia.
  - unfold DIRSIZ. lia.
  - apply name_at_chars; [done|]. exact (two_right (replicate 14 0) name).
  - done.
  - exact Hm.
  - left. unfold DIRSIZ. lia.
Qed.

Lemma length_st_dirent name inum : length (st_dirent (Dirent inum (fillpad 14 (chars 14 name)))) = 16%nat.
Proof. unfold st_dirent. cbn [de_inum de_name]. rewrite length_app, length_le. unfold DIRSIZ. by rewrite length_fillpad by apply chars_le. Qed.

(** a 16-byte entry stored over, or after, the entries *)
Lemma dents_store c k x : length x = 16%nat -> (length c mod 16 = 0)%nat -> (k <= length c / 16)%nat ->
  dents (take (16 * k) c ++ x ++ drop (16 * k + 16) c) =
  take k (dents c) ++ Dirent (of_le (sub x 0 2)) (sub x 2 14) :: drop (S k) (dents c).
Proof.
  intros Hx Hm Hk. set (e := (length c / 16)%nat) in *.
  assert (length c = (16 * e)%nat) as Hc by (pose proof (Nat.div_mod_eq (length c) 16); lia).
  set (c' := take (16 * k) c ++ x ++ drop (16 * k + 16) c).
  assert (length (take (16 * k) c) = (16 * k)%nat) as Ht by (rewrite length_take; lia).
  assert (length c' = (16 * (Nat.max e (k + 1)))%nat) as Hc'.
  { unfold c'. rewrite !length_app, Ht, Hx, length_drop. lia. }
  assert (length c' / 16 = Nat.max e (k + 1))%nat as He' by (rewrite Hc', Nat.mul_comm, Nat.div_mul by lia; done).
  assert (length (dents c) = e) as Hld by (unfold dents; by rewrite length_fmap, length_seq).
  assert (forall o n, (o + n <= 16 * k)%nat -> sub c' o n = sub c o n) as Hlow.
  { intros o n Ho. apply list_eq. intros i. destruct (decide (i < n)%nat); [|by rewrite !lookup_sub_ge by lia].
    rewrite !lookup_sub by done. unfold c'. rewrite lookup_app_l by lia. apply lookup_take_lt. lia. }
  assert (forall o n, (o + n <= 16)%nat -> sub c' (16 * k + o) n = sub x o n) as Hmid.
  { intros o n Ho. apply list_eq. intros i. destruct (decide (i < n)%nat); [|by rewrite !lookup_sub_ge by lia].
    rewrite !lookup_sub by done. unfold c'. rewrite lookup_app_r by lia. rewrite lookup_app_l by lia.
    rewrite Ht. f_equal. lia. }
  assert (forall o n, (16 * k + 16 <= o)%nat -> sub c' o n = sub c o n) as Hhigh.
  { intros o n Ho. apply list_eq. intros i. destruct (decide (i < n)%nat); [|by rewrite !lookup_sub_ge by lia].
    rewrite !lookup_sub by done. unfold c'. rewrite lookup_app_r by lia. rewrite lookup_app_r by lia.
    rewrite Ht, Hx, lookup_drop. f_equal. lia. }
  apply list_eq. intros i. assert (length (take k (dents c)) = k) as Htk by (rewrite length_take; lia).
  destruct (decide (i < Nat.max e (k + 1))%nat) as [Hi|Hi].
  - assert (dents c' !! i = Some (dent c' i)) as -> by (apply dents_lookup; split; [done|by rewrite He']).
    destruct (Nat.lt_trichotomy i k) as [Hik|[->|Hik]].
    + rewrite lookup_app_l by lia. rewrite lookup_take_lt by done. symmetry. apply dents_lookup. split; [|fold e; lia].
      unfold dent. by rewrite !Hlow by lia.
    + rewrite lookup_app_r by lia. rewrite Htk, Nat.sub_diag. cbn [lookup list_lookup]. unfold dent. f_equal.
      rewrite <-(Nat.add_0_r (16 * k)) at 1. rewrite !Hmid by lia. done.
    + rewrite lookup_app_r by lia. rewrite Htk. destruct (i - k)%nat as [|d] eqn:Ed; [lia|]. cbn [lookup list_lookup].
      change (drop (S k) (dents c) !! d) with (drop (S k) (dents c) !! d). rewrite lookup_drop.
      replace (S k + d)%nat with i by lia. symmetry. apply dents_lookup. split; [|fold e; lia]. unfold dent. by rewrite !Hhigh by lia.
  - rewrite !lookup_ge_None_2; [done|rewrite length_app, Htk; cbn [length]; rewrite length_drop; lia|].
    unfold dents. rewrite length_fmap, length_seq, He'. lia.
Qed.

Lemma new_entry_decoded name inum : let x := st_dirent (Dirent inum (fillpad 14 (chars 14 name))) in
  Dirent (of_le (sub x 0 2)) (sub x 2 14) = new_entry name inum.
Proof.
  cbn zeta. unfold st_dirent, new_entry. cbn [de_inum de_name].
  assert (length (fillpad 14 (chars 14 name)) = 14%nat) as Hf by (apply length_fillpad, chars_le). f_equal.
  - unfold sub. rewrite drop_0, take_app_le by (rewrite length_le; lia). rewrite firstn_all2 by (rewrite length_le; lia).
    rewrite of_le_le. unfold u16. apply Z.mod_small. apply Z.mod_pos_bound. lia.
  - unfold sub. rewrite drop_app_ge by (rewrite length_le; lia). rewrite length_le, Nat.sub_diag, drop_0.
    apply firstn_all2. lia.
Qed.

(** ** What the callers see *)
Section calls.
Context {B : Type} {BS : BlockStore B} {DV : Devsw B} {BL : BlockStoreLaws B}.
Implicit Types (s : st B) (view : Z -> list Z) (lg : gset Z) (sb : superblock) (n : inode).

(** [s'] is [s] with one more reference to inode [inum], at [ip] *)
Definition got (s : st B) (d inum ip : Z) (s' : st B) : Prop := exists x x',
  at_ (inodes s) ip = Some x /\ s' = ipst s (blk s) ip x' /\
  (is_entry d inum x = true /\ x' = set_ref (i_ref x + 1) x \/
   (forall j y, at_ (inodes s) j = Some y -> is_entry d inum y = false) /\ i_ref x = 0 /\ x' = fresh_entry d inum x).
(** an inode-cache entry is free *)
Definition icache_room (s : st B) : Prop := exists j x, at_ (inodes s) j = Some x /\ i_ref x = 0.

Lemma iget_got s d inum : icache_ok s -> icache_room s -> exists ip s', iget d inum s = Done ip s' /\ got s d inum ip s'.
Proof.
  intros Hi (j & y & Hj & Hy). destruct (iget_spec s d inum Hi) as [(i & x & Hx & He & Hr)|[(Hno & i & x & Hx & E0 & Hr)|[Hfull _]]].
  - exists i, (ipst s (blk s) i (set_ref (i_ref x + 1) x)). split; [done|]. exists x, (set_ref (i_ref x + 1) x).
    split; [done|]. split; [done|]. by left.
  - exists i, (ipst s (blk s) i (fresh_entry d inum x)). split; [done|]. exists x, (fresh_entry d inum x).
    split; [done|]. split; [done|]. by right.
  - by destruct (Hfull j y Hj) as [_ ?].
Qed.
Lemma icache_ok_set s B' : icache_ok s -> icache_ok (set_blk B' s).
Proof. intros [H1 H2 H3 H4]. by split. Qed.

Lemma at_put_of {A} (l : list A) i x y : at_ l i = Some y -> at_ (put l i x) i = Some x.
Proof.
  intros H. apply at_put_eq. unfold at_ in H. destruct (Z.leb_spec 0 i); [|done]. apply lookup_lt_Some in H. lia.
Qed.
(** giving back at once what iget took *)
Lemma iput_got s d inum ip s' : icache_ok s -> got s d inum ip s' -> exists x',
  iput ip s' = Done tt (ipst s (blk s) ip x') /\
  (at_ (inodes s) ip = Some x' \/ x' = set_ref 0 (fresh_entry d inum x')).
Proof.
  intros [H1 H2 H3 H4] (x & x' & Hx & -> & [[He ->]|(Hno & H0 & ->)]).
  - exists x. pose proof (at_put_of _ _ (set_ref (i_ref x + 1) x) _ Hx) as Hat. split; [|by left].
    assert (0 < i_ref x) as Hpos by (unfold is_entry in He; lia).
    rewrite (iput_keep _ ip (set_ref (i_ref x + 1) x)); [|done|exact Hat|].
    + f_equal. unfold ipst. cbn [inodes blk cwd wakes i_ref set_ref]. rewrite put_put.
      rewrite Z.add_simpl_r. by destruct x.
    + cbn. destruct (Z.eqb_spec (i_ref x + 1) 1); [lia|done].
  - exists (set_ref 0 (fresh_entry d inum x)). pose proof (at_put_of _ _ (fresh_entry d inum x) _ Hx) as Hat. split.
    + rewrite (iput_keep _ ip (fresh_entry d inum x)); [|done|exact Hat|done].
      f_equal. unfold ipst. cbn [inodes blk cwd wakes]. by rewrite put_put.
    + right. by destruct x.
Qed.

(** C8: dirlookup of a name in a locked directory gives null
    when no entry in use has the name, and otherwise one more reference to the
    inode of the first such entry, with the entry's byte offset; names are
    compared as C strings of at most DIRSIZ bytes.  The loop stops, the blocks
    and the directory are unchanged. *)
Theorem dirlookup_correct a s view lg sb dp n name :
  dir_at a s view lg sb dp n -> obj_ok 14 name -> icache_ok s -> icache_room s ->
  exists b, holds a b ∅ ∅ view lg /\ same_store s b /\
    match list_find (hit name) (dents (icontent view n)) with
    | None => dirlookup dp name s = Done None (set_blk b s)
    | Some (k, de) => exists ip s', dirlookup dp name s = Done (Some (ip, 16 * Z.of_nat k)) s' /\
        got (set_blk b s) (i_dev n) (de_inum de) ip s'
    end.
Proof.
  intros Hd Hname Hic Hroom.
  set (Q := fun r s' => exists b, holds a b ∅ ∅ view lg /\ same_store s b /\
    match list_find (hit name) (dents (icontent view n)) with
    | None => r = None /\ s' = set_blk b s
    | Some (k, de) => exists ip, r = Some (ip, 16 * Z.of_nat k) /\ got (set_blk b s) (i_dev n) (de_inum de) ip s'
    end).
  assert (wp (dirlookup dp name) Q s) as Hw.
  { eapply dirlookup_spec; [exact Hd|exact Hname| |].
    - intros b Hb Hs E. exists b. rewrite E. done.
    - intros b k de Hb Hs E.
      destruct (iget_got (set_blk b s) (i_dev n) (de_inum de)) as (ip & s' & Hrun & Hg); [by apply icache_ok_set|exact Hroom|].
      apply (wp_eq _ _ _ _ _ Hrun). exists b. rewrite E. split; [done|]. split; [done|]. by exists ip. }
  apply wp_done in Hw as (r & s' & Hrun & b & Hb & Hs & HQ). exists b. split; [done|]. split; [done|].
  destruct (list_find _ _) as [[k de]|].
  - destruct HQ as (ip & -> & Hg). by exists ip, s'.
  - destruct HQ as [-> ->]. done.
Qed.

(** dirlink's search for an entry not in use *)
Lemma list_find_index (l : list dirent) : (free_index l <= length l)%nat.
Proof.
  unfold free_index. destruct (list_find _ l) as [[k de]|] eqn:E; [|done].
  apply list_find_Some in E as (E & _). apply lookup_lt_Some in E. lia.
Qed.
Lemma dirlink_search a s view lg sb dp n (Q : Z -> st B -> Prop) : dir_at a s view lg sb dp n ->
  (forall B', holds a B' ∅ ∅ view lg -> same_store s B' ->
     Q (16 * Z.of_nat (free_index (dents (icontent view n)))) (set_blk B' s)) ->
  wp (loop (S (Z.to_nat (i_size n))) (dirlink_body dp) 0) Q s.
Proof.
  intros Hd HQ. set (c := icontent view n) in *. destruct (dir_size _ _ _ _ _ _ _ Hd) as (Hs & Hlen & Hs16). fold c in Hlen, Hs16.
  set (P := fun de => de_inum de = 0).
  apply wp_loop with (mu := fun off => Z.to_nat (i_size n - off))
    (Inv := fun off s' => exists k : nat, off = 16 * Z.of_nat k /\ scanned a s view lg c P k s').
  - exists 0%nat. split; [done|]. by eapply scanned_start.
  - lia.
  - intros off s' (k & -> & Hsc). pose proof (scanned_dir _ _ _ _ _ _ _ _ _ _ Hd Hsc) as Hd'.
    assert (length (dents c) = (length c / 16)%nat) as Hld by (unfold dents; by rewrite length_fmap, length_seq).
    unfold dirlink_body. wp_step. eapply wp_ld_ip; [apply Hd'|]. pose proof Hsc as (Hk & (B' & -> & HB & Hsm) & _).
    rewrite u32_id by lia. destruct (Z.ltb_spec (16 * Z.of_nat k) (i_size n)) as [Hlt|Hge].
    2: { wp_step. replace k with (free_index (dents c)); [by apply HQ|]. unfold free_index.
         rewrite (scanned_none a s view lg c P k _ Hsc) by lia. lia. }
    assert (k < length c / 16)%nat as Hke by lia. wp_step. eapply read_dirent_spec; [exact Hd'|exact Hke|].
    intros B2 HB2 Hsame2. fold c. destruct (Z.eqb_spec (de_inum (dent c k)) 0) as [E0|E0].
    + wp_step. pose proof (scanned_find a s view lg c P k _ Hsc Hke E0) as Hf.
      assert (k = free_index (dents c)) as Ek by (unfold free_index; fold P; by rewrite Hf).
      rewrite Ek. apply HQ; [done|by eapply same_trans].
    + unfold sizeof_dirent. wp_step. apply wp_c_int; [lia|]. wp_step. split; [|lia]. exists (k + 1)%nat. split; [lia|].
      change (set_blk B2 (set_blk B' s)) with (set_blk B2 s). by eapply scanned_next with (s' := set_blk B' s) (k := k).
Qed.

Lemma chars_bytes (n : nat) l : bytes_ok l -> bytes_ok (chars n l).
Proof.
  intros H. revert l H. induction n as [|n IH]; intros l H; [apply Forall_nil_2|]. destruct l as [|x l]; [apply Forall_nil_2|].
  cbn [chars]. apply Forall_cons in H as [Hx H]. destruct (Z.eqb_spec x 0); [apply Forall_nil_2|]. apply Forall_cons. split; [done|by apply IH].
Qed.
Lemma Forall_fillpad (n : nat) l : bytes_ok l -> bytes_ok (fillpad n l).
Proof. intros H. unfold fillpad. apply Forall_app. split; [done|]. apply Forall_replicate. cbn. lia. Qed.
Lemma bytes_ok_st_dirent de : bytes_ok (de_name de) -> 0 <= de_inum de -> bytes_ok (st_dirent de).
Proof. intros H _. unfold st_dirent. apply Forall_app. split; [|done]. apply le_bytes. Qed.
Lemma linked_find l name inum : list_find (hit name) l = None -> 0 < inum < 2 ^ 16 ->
  list_find (hit name) (linked l (new_entry name inum)) = Some (free_index l, new_entry name inum).
Proof.
  intros Hno Hi. pose proof (list_find_index l) as Hf. apply list_find_None in Hno. unfold linked.
  apply list_find_Some. assert (length (take (free_index l) l) = free_index l) as Hl by (rewrite length_take; lia).
  split; [|split].
  - by rewrite list_lookup_middle.
  - split; [unfold new_entry, u16; cbn [de_inum]; rewrite Z.mod_small; lia|]. apply chars_fillpad.
  - intros j y Hy Hj. rewrite lookup_app_l in Hy by lia. rewrite lookup_take_lt in Hy by done.
    rewrite Forall_lookup in Hno. by eapply Hno.
Qed.
Lemma linked_other l de de' : de_inum de' <> 0 -> de' <> de -> de' ∈ linked l de <-> de' ∈ l.
Proof.
  intros H0 Hne. unfold linked, free_index. destruct (list_find (fun de => de_inum de = 0) l) as [[k x]|] eqn:E.
  - apply list_find_Some in E as (Hk & Ex & _). rewrite <-(take_drop_middle l k x Hk) at 3.
    rewrite !elem_of_app, !elem_of_cons. split; [tauto|]. intros [?|[->|?]]; tauto.
  - rewrite firstn_all, drop_ge by lia. rewrite elem_of_app, elem_of_cons, elem_of_nil. tauto.
Qed.

(** C5: in a transaction with room for it, dirlink of a name
    the directory does not have returns 0 and leaves the directory's entries
    as they were but for one more, the new name with the inode number, in the
    first entry not in use or at the end; every other entry in use is still
    there, and a later lookup of the name finds the new one.  When the name is
    there already dirlink returns -1, gives back the reference dirlookup took,
    and changes no block. *)
Theorem dirlink_correct s view lg sb dp n name inum : let c := icontent view n in
  dir_at true s view lg sb dp n -> obj_ok 14 name -> bytes_ok name -> icache_ok s -> icache_room s ->
  ino_ok sb n -> fields_ok n -> on_disk view n -> i_size n + 16 <= MAXFILE * 512 -> 0 < inum < 2 ^ 16 ->
  room (blk s) ∅ ({[bitmap sb]} ∪ ({[IBLOCK (i_inum n)]} ∪ lg)) 2 -> (2 <= base.size (frees sb view))%nat ->
  match list_find (hit name) (dents c) with
  | None => exists b n' view' lg', dirlink dp name inum s = Done 0 (ipst s b dp n') /\
      holds true b ∅ ∅ view' lg' /\ same_store s b /\ ifile sb view' (nblk b) n' /\ on_disk view' n' /\
      dents (icontent view' n') = linked (dents c) (new_entry name inum) /\
      list_find (hit name) (dents (icontent view' n')) = Some (free_index (dents c), new_entry name inum) /\
      (forall de, de_inum de <> 0 -> de <> new_entry name inum -> de ∈ dents (icontent view' n') <-> de ∈ dents c) /\
      (forall i x, 0 <= i < sb_ninodes sb -> i <> i_inum n -> dinode_of view' i x = dinode_of view i x)
  | Some (_, de) => exists b ip x, dirlink dp name inum s = Done (-1) (ipst s b ip x) /\
      holds true b ∅ ∅ view lg /\ (at_ (inodes s) ip = Some x \/ x = set_ref 0 (fresh_entry (i_dev n) (de_inum de) x))
  end.
Proof.
  intros c Hd Hname Hby Hic Hicr Hino Hfields Hdisk Hsz Hin Hroom Hfree.
  destruct (dir_size _ _ _ _ _ _ _ Hd) as (Hs & Hlen & Hs16). fold c in Hlen, Hs16.
  destruct (dirlookup_correct true s view lg sb dp n name Hd Hname Hic Hicr) as (b1 & Hb1 & Hsame1 & Hrun).
  fold c in Hrun. destruct (list_find (hit name) (dents c)) as [[k de]|] eqn:Efind.
  - destruct Hrun as (ip & s' & Hrun & Hg).
    destruct (iput_got _ _ _ _ _ (icache_ok_set s b1 Hic) Hg) as (x & Hput & Hx).
    exists b1, ip, x. split; [|by split]. unfold dirlink. rewrite (bind_done _ _ _ _ _ Hrun).
    by rewrite (bind_done _ _ _ _ _ Hput).
  - set (off := 16 * Z.of_nat (free_index (dents c))).
    assert (length (dents c) = (length c / 16)%nat) as Hld by (unfold dents; by rewrite length_fmap, length_seq).
    pose proof (list_find_index (dents c)) as Hfi.
    set (src := st_dirent (Dirent inum (fillpad 14 (chars 14 name)))).
    assert (length src = 16%nat) as Hsrc by apply length_st_dirent.
    assert (rounds off 16 0 = 1%nat) as Hrounds.
    { unfold rounds. change (0 <? 16) with true. cbn iota. assert (off mod 512 <= 496) by (unfold off; Z.div_mod_to_equations; lia).
      Z.div_mod_to_equations. lia. }
    set (Q := fun (r : Z) s' => r = 0 /\ exists b n' view' lg', s' = ipst s b dp n' /\
      writei_done s sb view n off 16 src b n' view' lg').
    assert (wp (dirlink dp name inum) Q s) as Hw.
    { unfold dirlink. wp_step. apply (wp_eq _ _ _ _ _ Hrun). cbn iota. wp_step.
      pose proof (dir_at_set _ _ _ _ _ _ _ b1 Hd Hb1 Hsame1) as Hd1. eapply wp_ld_ip; [apply Hd1|].
      wp_step. eapply dirlink_search; [exact Hd1|]. intros b2 Hb2 Hsame2. fold c. fold off.
      change (set_blk b2 (set_blk b1 s)) with (set_blk b2 s).
      assert (same_store s b2) as Hsame by by eapply same_trans.
      wp_step. eapply wp_eq; [by apply name_store_spec|]. wp_step. change DIRSIZ with 14.
      rewrite u32_id by (unfold off; lia). fold src. eapply wp_mono.
      { eapply (writei_spec (set_blk b2 s) sb view lg ({[bitmap sb]} ∪ ({[IBLOCK (i_inum n)]} ∪ lg)) n dp off 16 src);
          try done; try lia; try (rewrite Hrounds; done).
        - apply (dir_at_set _ _ _ _ _ _ _ b2 Hd Hb2 Hsame).
        - apply Hd.
        - by rewrite (da_type _ _ _ _ _ _ _ Hd).
        - apply bytes_ok_st_dirent; [by apply Forall_fillpad, chars_bytes|cbn; lia].
        - split; [set_solver|]. split; set_solver.
        - rewrite Hrounds. by apply (room_same s b2). }
      cbn beta. intros r s' (-> & b & n' & view' & lg' & -> & Hdone). wp_step. wp_step; [done|]. wp_step. split; [done|].
      exists b, n', view', lg'. split; [done|]. destruct Hdone as [W1 W2 W3 WF W4 W5 W6 W7 W8 W9 W10].
      split; try done. by eapply same_trans. }
    apply wp_done in Hw as (r & s' & Hr & -> & b & n' & view' & lg' & -> & Hdone).
    exists b, n', view', lg'. split; [exact Hr|]. destruct Hdone as [W1 W2 W3 WF W4 W5 W6 W7 W8 W9 W10].
    assert (dents (icontent view' n') = linked (dents c) (new_entry name inum)) as Hden.
    { rewrite W8. fold c. unfold off. rewrite (firstn_all2 src) by lia.
      replace (Z.to_nat (16 * Z.of_nat (free_index (dents c)))) with (16 * free_index (dents c))%nat by lia.
      replace (Z.to_nat (16 * Z.of_nat (free_index (dents c)) + 16)) with (16 * free_index (dents c) + 16)%nat by lia.
      rewrite dents_store; [|done| |by rewrite <-Hld].
      - unfold linked. do 2 f_equal. apply new_entry_decoded.
      - pose proof (Nat.div_mod_eq (length c) 16). lia. }
    rewrite Hden. split_and!; try done.
    + by apply linked_find.
    + intros de H0 Hne. by apply linked_other.
Qed.
End calls.

(** ** On the example disk *)
Import Store.
Import FsSpec.
Lemma demo_dir_file : ifile demo_sb demo_view (nblk (blk demo)) demo_dir.
Proof.
  split; [exact demo_layout|apply file_okb_ok; vm_compute; reflexivity| | |reflexivity].
  - unfold MAXFILE, NDIRECT, NINDIRECT. cbn. lia.
  - intros k Hk Hlt. assert (k = 0) as -> by (cbn in Hlt; lia). vm_compute. discriminate.
Qed.
Lemma demo_dir_at : dir_at true demo demo_view ∅ demo_sb 0 demo_dir.
Proof.
  split; [exact demo_holds|exact demo_dir_file|reflexivity|reflexivity|reflexivity|rewrite size_empty; lia].
Qed.
Lemma demo_icache_room : icache_room demo.
Proof. exists 2, free_inode. split; reflexivity. Qed.
Lemma demo_name (c : Z) : obj_ok 14 [c; 0].
Proof. right. set_solver. Qed.

(** "f" is the third entry *)
Lemma dirlookup_correct_witness : exists ip s, dirlookup 0 [102; 0] demo = Done (Some (ip, 32)) s.
Proof.
  destruct (dirlookup_correct true demo demo_view ∅ demo_sb 0 demo_dir [102; 0] demo_dir_at (demo_name 102)
    demo_icache demo_icache_room) as (b & _ & _ & H).
  assert (list_find (hit [102; 0]) (dents (icontent demo_view demo_dir)) =
    Some (2%nat, Dirent 2 (102 :: replicate 13 0))) as E by (vm_compute; reflexivity).
  rewrite E in H. destruct H as (ip & s' & Hrun & _). exists ip, s'. exact Hrun.
Defined.
Lemma demo_dir_fields : fields_ok demo_dir.
Proof.
  split; [unfold demo_dir; cbn [i_type i_major i_minor i_nlink i_size]; unfold T_DIR; lia..
         |apply (bool_decide_unpack _); vm_compute; exact I|reflexivity].
Qed.
Lemma demo_dir_on_disk : on_disk demo_view demo_dir.
Proof. reflexivity. Qed.
(** "g" is linked as the fourth *)
Lemma dirlink_correct_witness : exists b n', dirlink 0 [103; 0] 3 demo = Done 0 (ipst demo b 0 n').
Proof.
  assert (bytes_ok [103; 0]) as Hby by (apply (bool_decide_unpack _); vm_compute; exact I).
  pose proof (dirlink_correct demo demo_view ∅ demo_sb 0 demo_dir [103; 0] 3 demo_dir_at (demo_name 103) Hby
    demo_icache demo_icache_room ltac:(unfold ino_ok; cbn; lia) demo_dir_fields demo_dir_on_disk
    ltac:(unfold MAXFILE, NDIRECT, NINDIRECT; cbn; lia) ltac:(lia) (demo_room2 2 ltac:(lia)) demo_frees) as H.
  assert (list_find (hit [103; 0]) (dents (icontent demo_view demo_dir)) = None) as E by (vm_compute; reflexivity).
  rewrite E in H. destruct H as (b & n' & _ & _ & Hrun & _). exists b, n'. exact Hrun.
Defined.

End Dir.
