(* ===== verification/File.v ===== *)
(** * Open files (src/src/file.c and pipealloc of src/src/pipe.c)

    The table of open files over the file system of Fs.v and the pipes of
    Pipe.v.  A pointer to a struct file is its index in the table, [NULL] the
    null pointer; a pipe is named by the address kmalloc gave it.  What is
    behind a user pointer is passed as a list, the bytes from it to the end of
    its object, and returned when the call writes there. *)

From S2P Require Import Prelude.
From S2P Require Import Bytes.
From S2P Require Import Buddy.
From S2P Require Import Alloc.
From S2P Require Import Pipe.
From S2P Require Import Store.
From S2P Require Import Log.
From S2P Require Import Fs.
From S2P Require Import FsSpec.

Module File.
Import Alloc.

Definition NFILE : Z := 100.
Definition LOGSIZE : Z := 10.
(** the enum of struct file *)
Definition FD_NONE : Z := 0.
Definition FD_PIPE : Z := 1.
Definition FD_INODE : Z := 2.
Definition NULL : Z := -1.

Record file := MkFile {
  f_type : Z;
  f_ref : Z;       (* reference count *)
  f_readable : Z;
  f_writable : Z;
  f_pipe : Z;
  f_ip : Z;
  f_off : Z;
}.
Definition set_ref (r : Z) (f : file) : file :=
  MkFile (f_type f) r (f_readable f) (f_writable f) (f_pipe f) (f_ip f) (f_off f).
Definition set_type (t : Z) (f : file) : file :=
  MkFile t (f_ref f) (f_readable f) (f_writable f) (f_pipe f) (f_ip f) (f_off f).
Definition set_off (o : Z) (f : file) : file :=
  MkFile (f_type f) (f_ref f) (f_readable f) (f_writable f) (f_pipe f) (f_ip f) o.

Section file.
Context {B : Type} {BS : BlockStore B} {DV : Fs.Devsw B}.

(** The file system, the table with its lock, the pipes in use, the page
    allocator, what fresh memory holds, the caller's killed flag and the
    wakeups issued on each pipe. *)
Record st := St {
  fss : Fs.st B;
  flock : bool;
  files : list file;
  pipes : gmap Z Pipe.pipe;
  kmm : Buddy.kmem;
  raw : Z -> list Z;
  killed : Z;
  pwakes : list (Z * chan);
}.

Definition fss_lens : lens st (Fs.st B) :=
  Lens fss (fun x s => St x (flock s) (files s) (pipes s) (kmm s) (raw s) (killed s) (pwakes s)).
Definition ftable_lock : lens st bool :=
  Lens flock (fun b s => St (fss s) b (files s) (pipes s) (kmm s) (raw s) (killed s) (pwakes s)).
Definition kmm_lens : lens st Buddy.kmem :=
  Lens kmm (fun k s => St (fss s) (flock s) (files s) (pipes s) k (raw s) (killed s) (pwakes s)).
Definition set_files (l : list file) (s : st) : st :=
  St (fss s) (flock s) l (pipes s) (kmm s) (raw s) (killed s) (pwakes s).
Definition set_pipe (p : Z) (x : Pipe.pipe) (s : st) : st :=
  St (fss s) (flock s) (files s) (<[p := x]> (pipes s)) (kmm s) (raw s) (killed s) (pwakes s).

Definition ld_f (f : Z) : M st file := deref (fun s => at_ (files s) f).
Definition up_f (f : Z) (g : file -> file) : M st unit :=
  x ← ld_f f;
  modify (fun s => set_files (put (files s) f (g x)) s).

(** pipe.c's code on the pipe at address [p], with the caller's buffer *)
Definition in_pipe (p : Z) (s : st) (t : Pipe.st) : st :=
  St (fss s) (flock s) (files s) (<[p := Pipe.pp t]> (pipes s)) (Pipe.kmm t) (raw s) (killed s)
     (pwakes s ++ (pair p <$> Pipe.wakes t)).
Definition at_pipe {A} (p : Z) (buf : list Z) (m : M Pipe.st A) : M st (A * list Z) := fun s =>
  match pipes s !! p with
  | None => Undef
  | Some x =>
      match m (Pipe.St x buf (killed s) [] (kmm s)) with
      | Done a t => Done (a, Pipe.ubuf t) (in_pipe p s t)
      | Panic msg => Panic msg
      | Undef => Undef
      | Block c _ => Block c s
      | Deadlock => Deadlock
      | NoFuel => NoFuel
      end
  end.

(** a pipe closed at both ends was given to kfree: its object is gone *)
Definition closed (x : Pipe.pipe) : bool := (Pipe.readopen x =? 0) && (Pipe.writeopen x =? 0).
Definition end_pipe (p : Z) (s : st) : st :=
  match pipes s !! p with
  | Some x => if closed x then
      St (fss s) (flock s) (files s) (delete p (pipes s)) (kmm s) (raw s) (killed s) (pwakes s) else s
  | None => s
  end.

Definition fileinit : M st unit := modify (lset ftable_lock false).

(** ** The table *)

Definition filealloc_body (f : Z) : M st (Z + Z) :=
  if f <? NFILE then
    x ← ld_f f;
    if f_ref x =? 0 then
      up_f f (set_ref 1) ;;
      release ftable_lock ;;
      mret (inr f)
    else mret (inl (f + 1))
  else
    release ftable_lock ;;
    mret (inr NULL).
Definition filealloc : M st Z :=
  acquire ftable_lock ;;
  loop (S (Z.to_nat NFILE)) filealloc_body 0.

Definition filedup (f : Z) : M st Z :=
  acquire ftable_lock ;;
  x ← ld_f f;
  panic_if (f_ref x <? 1) "filedup" ;;
  up_f f (fun x => set_ref (f_ref x + 1) x) ;;
  release ftable_lock ;;
  mret f.

Definition fileclose (f : Z) : M st unit :=
  acquire ftable_lock ;;
  x ← ld_f f;
  panic_if (f_ref x <? 1) "fileclose" ;;
  up_f f (fun x => set_ref (f_ref x - 1) x) ;;
  x ← ld_f f;
  if 0 <? f_ref x then release ftable_lock else
  ff ← ld_f f;
  up_f f (set_ref 0) ;;
  up_f f (set_type FD_NONE) ;;
  release ftable_lock ;;
  if f_type ff =? FD_PIPE then
    at_pipe (f_pipe ff) [] (Pipe.pipeclose (f_pipe ff) (negb (f_writable ff =? 0))) ;;
    modify (end_pipe (f_pipe ff))
  else when (f_type ff =? FD_INODE) (
    zoom fss_lens Fs.begin_trans ;;
    zoom fss_lens (Fs.iput (f_ip ff)) ;;
    zoom fss_lens Fs.commit_trans).

(** ** Reading and writing *)

Definition filestat (f : Z) : M st (Z * option Fs.stat) :=
  x ← ld_f f;
  if f_type x =? FD_INODE then
    zoom fss_lens (Fs.ilock (f_ip x)) ;;
    x ← ld_f f;
    st ← zoom fss_lens (Fs.stati (f_ip x));
    zoom fss_lens (Fs.iunlock (f_ip x)) ;;
    mret (0, Some st)
  else mret (-1, None).

(** the bytes readi stored are those at the start of [addr]'s object *)
Definition fileread (f : Z) (addr : list Z) (n : Z) : M st (run Z * list Z) :=
  x ← ld_f f;
  if f_readable x =? 0 then mret (Ret (-1), addr) else
  if f_type x =? FD_PIPE then at_pipe (f_pipe x) addr (Pipe.piperead n) else
  if f_type x =? FD_INODE then
    zoom fss_lens (Fs.ilock (f_ip x)) ;;
    x ← ld_f f;
    r ← zoom fss_lens (Fs.readi (f_ip x) (f_off x) (u32 n));
    addr' ← deref (fun _ => Fs.splice addr 0 r.2);
    when (0 <? r.1) (up_f f (fun x => set_off (u32 (f_off x + r.1)) x)) ;;
    x ← ld_f f;
    zoom fss_lens (Fs.iunlock (f_ip x)) ;;
    mret (Ret r.1, addr')
  else panic "fileread".

(** [max] of filewrite *)
Definition max_write : Z := (LOGSIZE - 1 - 1 - 2) / 2 * 512.
Definition filewrite_body (f : Z) (addr : list Z) (n i : Z) : M st (Z + Z) :=
  if i <? n then
    let n1 := if max_write <? n - i then max_write else n - i in
    zoom fss_lens Fs.begin_trans ;;
    x ← ld_f f;
    zoom fss_lens (Fs.ilock (f_ip x)) ;;
    x ← ld_f f;
    r ← zoom fss_lens (Fs.writei (f_ip x) (drop (Z.to_nat i) addr) (f_off x) n1);
    when (0 <? r) (up_f f (fun x => set_off (u32 (f_off x + r)) x)) ;;
    x ← ld_f f;
    zoom fss_lens (Fs.iunlock (f_ip x)) ;;
    zoom fss_lens Fs.commit_trans ;;
    if r <? 0 then mret (inr i) else
    panic_if (negb (r =? n1)) "short filewrite" ;;
    mret (inl (i + r))
  else mret (inr i).
Definition filewrite (f : Z) (addr : list Z) (n : Z) : M st (run Z) :=
  x ← ld_f f;
  if f_writable x =? 0 then mret (Ret (-1)) else
  if f_type x =? FD_PIPE then r ← at_pipe (f_pipe x) addr (Pipe.pipewrite n); mret r.1 else
  if f_type x =? FD_INODE then
    i ← loop (S (Z.to_nat n)) (filewrite_body f addr n) 0;
    mret (Ret (if i =? n then n else -1))
  else panic "filewrite".

(** ** pipealloc() *)

(** what a freshly allocated struct pipe holds; its memory is as kmalloc found it *)
Definition new_pipe (junk : list Z) : Pipe.pipe := Pipe.MkPipe false junk 0 0 1 1.
Definition pipe_file (readable writable p : Z) (x : file) : file :=
  MkFile FD_PIPE (f_ref x) readable writable p (f_ip x) (f_off x).
(** the label bad *)
Definition pipealloc_bad (p f0 f1 : Z) : M st (Z * Z * Z) :=
  when (negb (p =? 0)) (
    ord ← zoom unit_lens (Buddy.get_order Pipe.sizeof_pipe);
    zoom kmm_lens (Buddy.kfree p ord)) ;;
  when (negb (f0 =? NULL)) (fileclose f0) ;;
  when (negb (f1 =? NULL)) (fileclose f1) ;;
  mret (-1, f0, f1).
(** the result with *f0 and *f1 *)
Definition pipealloc : M st (Z * Z * Z) :=
  f0 ← filealloc;
  if f0 =? NULL then pipealloc_bad 0 f0 NULL else
  f1 ← filealloc;
  if f1 =? NULL then pipealloc_bad 0 f0 f1 else
  ord ← zoom unit_lens (Buddy.get_order Pipe.sizeof_pipe);
  p ← zoom kmm_lens (Buddy.kmalloc ord);
  if p =? 0 then pipealloc_bad p f0 f1 else
  modify (fun s => set_pipe p (new_pipe (raw s p)) s) ;;
  up_f f0 (pipe_file 1 0 p) ;;
  up_f f1 (pipe_file 0 1 p) ;;
  mret (0, f0, f1).

(** ** The invariant of the table and the pipes *)

(** the end of pipe [p] that writes ([w]) or reads *)
Definition end_of (f : file) (w : bool) (p : Z) : Prop :=
  f_type f = FD_PIPE /\ f_pipe f = p /\ negb (f_writable f =? 0) = w.
Definition is_open (x : Pipe.pipe) (w : bool) : Prop := (if w then Pipe.writeopen x else Pipe.readopen x) <> 0.

(** the blocks of memory the pipes lie in *)
Definition pipe_blocks (m : gmap Z Pipe.pipe) : gset (Z * Z) := set_map (fun p => (p, 10)) (dom m).
Lemma elem_of_pipe_blocks m q o : (q, o) ∈ pipe_blocks m <-> o = 10 /\ is_Some (m !! q).
Proof. unfold pipe_blocks. rewrite elem_of_map. setoid_rewrite elem_of_dom. naive_solver. Qed.
Lemma pipe_blocks_insert m p z : pipe_blocks (<[p := z]> m) = {[(p, 10)]} ∪ pipe_blocks m.
Proof. unfold pipe_blocks. rewrite dom_insert_L. set_solver. Qed.
Lemma pipe_blocks_delete m p : pipe_blocks (delete p m) = pipe_blocks m ∖ {[(p, 10)]}.
Proof. unfold pipe_blocks. rewrite dom_delete_L. set_solver. Qed.

(** what else the allocator has given out *)
Context (others : gset (Z * Z)).

(** Every entry of type FD_PIPE is the one open end of a pipe in use, every
    open end of a pipe is held by an entry, and the pipes lie in blocks that
    the allocator has given out: with the others', these are all the blocks
    that are out, the rest of the pool is free. *)
Record files_ok (s : st) : Prop := {
  fo_lock : flock s = false;
  fo_len : length (files s) = 100%nat;
  fo_ref : forall i f, at_ (files s) i = Some f -> 0 <= f_ref f /\ (f_ref f = 0 -> f_type f = FD_NONE);
  fo_pipe : forall i f w p, at_ (files s) i = Some f -> end_of f w p -> exists x, pipes s !! p = Some x /\ is_open x w;
  fo_one : forall i j f g w p, at_ (files s) i = Some f -> at_ (files s) j = Some g -> end_of f w p -> end_of g w p -> i = j;
  fo_end : forall p x w, pipes s !! p = Some x -> is_open x w -> exists i f, at_ (files s) i = Some f /\ end_of f w p;
  fo_live : forall p x, pipes s !! p = Some x -> closed x = false /\ Pipe.lock x = false;
  fo_mem : exists lo hi, owns (kmm s) lo hi (others ∪ pipe_blocks (pipes s)) /\ forall p x, pipes s !! p = Some x -> (p, 10) ∉ others;
}.

Lemma wp_ld_f f Q s x : at_ (files s) f = Some x -> Q x s -> wp (ld_f f) Q s.
Proof. intros H HQ. unfold ld_f. by eapply wp_deref. Qed.
Lemma ld_f_eq s f x : at_ (files s) f = Some x -> ld_f f s = Done x s.
Proof. intros H. unfold ld_f, deref. by rewrite H. Qed.
Lemma up_f_eq s f g x : at_ (files s) f = Some x -> up_f f g s = Done tt (set_files (put (files s) f (g x)) s).
Proof. intros H. unfold up_f. by rewrite (bind_done _ _ _ _ _ (ld_f_eq s f x H)). Qed.
Lemma wp_up_f f g Q s x : at_ (files s) f = Some x -> Q tt (set_files (put (files s) f (g x)) s) -> wp (up_f f g) Q s.
Proof. intros H HQ. unfold up_f. wp_step. eapply wp_ld_f; [done|]. by wp_step. Qed.
Lemma wp_at_pipe {A} p buf (m : M Pipe.st A) Q s x : pipes s !! p = Some x ->
  wp m (fun a t => Q (a, Pipe.ubuf t) (in_pipe p s t)) (Pipe.St x buf (killed s) [] (kmm s)) -> wp (at_pipe p buf m) Q s.
Proof. intros H HQ. unfold wp, at_pipe in *. rewrite H. by destruct (m _). Qed.

(** a change that leaves an entry's kind and pipe end alone *)
Lemma files_inert s i x y : files_ok s -> at_ (files s) i = Some x ->
  (f_type y = FD_PIPE <-> f_type x = FD_PIPE) -> f_pipe y = f_pipe x -> f_writable y = f_writable x ->
  0 <= f_ref y /\ (f_ref y = 0 -> f_type y = FD_NONE) -> files_ok (set_files (put (files s) i y) s).
Proof.
  intros [Hl Hn Hr Hp Ho He Hv Hm] Hi Et Ep Ew Hy. pose proof (at_range _ _ _ Hi) as Hir.
  assert (forall j f, at_ (put (files s) i y) j = Some f -> exists g, at_ (files s) j = Some g /\
    (forall w p, end_of f w p <-> end_of g w p) /\ (0 <= f_ref f /\ (f_ref f = 0 -> f_type f = FD_NONE))) as Hold.
  { intros j f Hj. destruct (Z.eq_dec i j) as [<-|Hne].
    - rewrite at_put_eq in Hj by lia. injection Hj as <-. exists x. split; [done|]. split; [|done].
      intros w p. unfold end_of. by rewrite Et, Ep, Ew.
    - rewrite at_put_ne in Hj by lia. exists f. split; [done|]. split; [done|]. by eapply Hr. }
  split; cbn; try done.
  - unfold put. by rewrite length_insert.
  - intros j f Hj. by destruct (Hold j f Hj) as (g & _ & _ & ?).
  - intros j f w p Hj Hf. destruct (Hold j f Hj) as (g & Hg & Hiff & _). by apply (Hp j g w p Hg), Hiff.
  - intros j k f g w p Hj Hk Hf Hg. destruct (Hold j f Hj) as (f' & Hf' & Hif & _). destruct (Hold k g Hk) as (g' & Hg' & Hig & _).
    apply (Ho j k f' g' w p); [done|done|by apply Hif|by apply Hig].
  - intros p z w Hz Hw. destruct (He p z w Hz Hw) as (j & f & Hj & Hf). destruct (Z.eq_dec i j) as [<-|Hne].
    + exists i, y. rewrite at_put_eq by lia. split; [done|]. unfold end_of in *. rewrite Et, Ep, Ew. rewrite Hi in Hj. by injection Hj as <-.
    + exists j, f. by rewrite at_put_ne by lia.
Qed.

Lemma filealloc_spec s : files_ok s -> wp filealloc (fun f s' =>
  f = NULL /\ s' = s /\ (forall j x, at_ (files s) j = Some x -> f_ref x <> 0) \/
  exists x, at_ (files s) f = Some x /\ f_ref x = 0 /\ (forall j x, j < f -> at_ (files s) j = Some x -> f_ref x <> 0) /\
    s' = set_files (put (files s) f (set_ref 1 x)) s) s.
Proof.
  intros Hok. pose proof Hok as [Hl Hn _ _ _ _ _ _]. unfold filealloc. wp_step. wp_step; [done|].
  apply wp_loop with (mu := fun f => Z.to_nat (100 - f)) (Inv := fun f s' => s' = lset ftable_lock true s /\ 0 <= f <= 100 /\
    forall j x, j < f -> at_ (files s) j = Some x -> f_ref x <> 0).
  - split; [done|]. split; [lia|]. intros j x Hj Hx. apply at_range in Hx. lia.
  - unfold NFILE. lia.
  - intros f s' (-> & Hf & Hno). unfold filealloc_body, NFILE. destruct (Z.ltb_spec f 100) as [Hlt|Hge].
    + destruct (at_is_Some (files s) f ltac:(lia)) as [x Hx]. wp_step. eapply wp_ld_f; [exact Hx|].
      destruct (Z.eqb_spec (f_ref x) 0) as [E0|E0].
      * wp_step. eapply wp_up_f; [exact Hx|]. wp_step. wp_step; [done|]. wp_step. right. exists x.
        split; [done|]. split; [done|]. split; [done|]. unfold set_files. cbn. by rewrite Hl.
      * wp_step. split; [|lia]. split; [done|]. split; [lia|]. intros j y Hj Hy.
        destruct (Z.eq_dec j f) as [->|]; [congruence|]. apply (Hno j y); [lia|done].
    + wp_step. wp_step; [done|]. wp_step. left. split; [done|]. split; [by destruct s; cbn in *; subst|].
      intros j x Hx. apply (Hno j x); [|done]. apply at_range in Hx. lia.
Qed.
Lemma lset_lock_id s : flock s = false -> lset ftable_lock false s = s.
Proof. destruct s. cbn. by intros ->. Qed.
Lemma filedup_spec s f x : flock s = false -> at_ (files s) f = Some x -> 1 <= f_ref x ->
  filedup f s = Done f (set_files (put (files s) f (set_ref (f_ref x + 1) x)) s).
Proof.
  intros Hl Hf Hr. enough (wp (filedup f) (fun r s' => r = f /\ s' = set_files (put (files s) f (set_ref (f_ref x + 1) x)) s) s) as H
    by (apply wp_done in H as (r & s' & H & -> & ->); exact H).
  unfold filedup. wp_step. wp_step; [done|]. wp_step. eapply wp_ld_f; [exact Hf|]. wp_step. wp_step; [lia|].
  wp_step. eapply wp_up_f; [exact Hf|]. wp_step. wp_step; [done|]. wp_step. split; [done|]. unfold set_files. cbn. by rewrite Hl.
Qed.

(** the entry fileclose leaves when the last reference goes *)
Definition closed_file (x : file) : file := set_type FD_NONE (set_ref 0 x).
(** what fileclose does with the last reference's file *)
Definition close_what (ff : file) : M st unit :=
  if f_type ff =? FD_PIPE then
    at_pipe (f_pipe ff) [] (Pipe.pipeclose (f_pipe ff) (negb (f_writable ff =? 0))) ;;
    modify (end_pipe (f_pipe ff))
  else when (f_type ff =? FD_INODE) (
    zoom fss_lens Fs.begin_trans ;;
    zoom fss_lens (Fs.iput (f_ip ff)) ;;
    zoom fss_lens Fs.commit_trans).

Lemma fileclose_more s f x : flock s = false -> at_ (files s) f = Some x -> 1 < f_ref x ->
  fileclose f s = Done tt (set_files (put (files s) f (set_ref (f_ref x - 1) x)) s).
Proof.
  intros Hl Hf Hr. enough (wp (fileclose f) (fun _ s' => s' = set_files (put (files s) f (set_ref (f_ref x - 1) x)) s) s) as H
    by (apply wp_done in H as ([] & s' & H & ->); exact H).
  pose proof (at_range _ _ _ Hf) as Hir.
  unfold fileclose. wp_step. wp_step; [done|]. wp_step. eapply wp_ld_f; [exact Hf|]. wp_step. wp_step; [lia|].
  wp_step. eapply wp_up_f; [exact Hf|]. wp_step. eapply wp_ld_f; [cbn; apply at_put_eq; lia|]. cbn [f_ref set_ref].
  destruct (Z.ltb_spec 0 (f_ref x - 1)); [|lia]. apply wp_release; [done|]. unfold set_files. cbn. by rewrite Hl.
Qed.
Lemma fileclose_last_eq s f x : flock s = false -> at_ (files s) f = Some x -> f_ref x = 1 ->
  fileclose f s = close_what x (set_files (put (files s) f (closed_file x)) s).
Proof.
  intros Hl Hf Hr. pose proof (at_range _ _ _ Hf) as Hir. unfold fileclose. set (s1 := lset ftable_lock true s).
  set (x1 := set_ref (f_ref x - 1) x). set (s2 := set_files (put (files s) f x1) s1).
  assert (at_ (files s2) f = Some x1) as H2 by (apply at_put_eq; lia).
  set (x3 := set_ref 0 x1). set (s3 := set_files (put (files s) f x3) s1).
  assert (at_ (files s3) f = Some x3) as H3 by (apply at_put_eq; lia).
  rewrite (bind_done _ _ s tt s1) by (unfold acquire; cbn; by rewrite Hl).
  rewrite (bind_done _ _ s1 x s1) by (by apply ld_f_eq).
  rewrite (bind_done _ _ s1 tt s1) by (by rewrite Hr).
  rewrite (bind_done _ _ s1 tt s2) by (by apply up_f_eq with (x := x)).
  rewrite (bind_done _ _ s2 x1 s2) by (by apply ld_f_eq).
  unfold x1 at 1. cbn [f_ref set_ref]. rewrite Hr. change (0 <? 1 - 1) with false. cbn iota.
  rewrite (bind_done _ _ s2 x1 s2) by (by apply ld_f_eq).
  rewrite (bind_done _ _ s2 tt s3) by (rewrite (up_f_eq s2 f _ x1 H2); unfold s2, s3; cbn; by rewrite put_put).
  rewrite (bind_done _ _ s3 tt (set_files (put (files s) f (closed_file x)) s1))
    by (rewrite (up_f_eq s3 f _ x3 H3); unfold s3; cbn; by rewrite put_put).
  rewrite (bind_done _ _ _ tt (set_files (put (files s) f (closed_file x)) s)); [done|].
  unfold release, set_files. cbn. by rewrite Hl.
Qed.
Lemma fileclose_last s f x Q : flock s = false -> at_ (files s) f = Some x -> f_ref x = 1 ->
  wp (close_what x) Q (set_files (put (files s) f (closed_file x)) s) -> wp (fileclose f) Q s.
Proof. intros Hl Hf Hr HQ. unfold wp. by rewrite (fileclose_last_eq s f x). Qed.

(** closing a file that is neither a pipe nor an inode *)
Lemma fileclose_fresh s f x : flock s = false -> at_ (files s) f = Some x -> f_ref x = 1 -> f_type x = FD_NONE ->
  fileclose f s = Done tt (set_files (put (files s) f (closed_file x)) s).
Proof.
  intros Hl Hf Hr Ht. enough (wp (fileclose f) (fun _ s' => s' = set_files (put (files s) f (closed_file x)) s) s) as H
    by (apply wp_done in H as ([] & s' & H & ->); exact H).
  eapply fileclose_last; [done|done|done|]. unfold close_what. rewrite Ht. by cbn.
Qed.

Lemma closed_ok s f x : files_ok s -> at_ (files s) f = Some x -> f_type x <> FD_PIPE ->
  files_ok (set_files (put (files s) f (closed_file x)) s).
Proof. intros Hok Hf Ht. eapply files_inert; try done. Qed.
Lemma counted_ok s f x r : files_ok s -> at_ (files s) f = Some x -> 0 < r ->
  files_ok (set_files (put (files s) f (set_ref r x)) s).
Proof. intros Hok Hf Ht. eapply files_inert; try done. cbn. lia. Qed.

(** the pipes once end [w] of pipe [z] at [p] is closed *)
Definition pipes_closed (m : gmap Z Pipe.pipe) (p : Z) (z : Pipe.pipe) (w : bool) : gmap Z Pipe.pipe :=
  if closed (Pipe.closed z w) then delete p m else <[p := Pipe.closed z w]> m.
Lemma pipes_closed_lookup m p z w q y : pipes_closed m p z w !! q = Some y <->
  q <> p /\ m !! q = Some y \/ q = p /\ y = Pipe.closed z w /\ closed y = false.
Proof.
  unfold pipes_closed. destruct (closed (Pipe.closed z w)) eqn:E.
  - rewrite lookup_delete_Some. naive_solver congruence.
  - destruct (decide (q = p)) as [->|Hne].
    + rewrite lookup_insert_eq. naive_solver congruence.
    + rewrite lookup_insert_ne by done. naive_solver.
Qed.
Lemma is_open_closed z w w' : is_open (Pipe.closed z w) w' <-> is_open z w' /\ w' <> w.
Proof. unfold is_open. destruct w, w'; cbn; naive_solver. Qed.
Lemma closed_spec z : closed z = true <-> forall w, ~ is_open z w.
Proof.
  unfold closed, is_open. rewrite andb_true_iff, !Z.eqb_eq. split.
  - intros [E1 E2] []; lia.
  - intros H. pose proof (H true). pose proof (H false). lia.
Qed.

(** the table without one end, and the pipe with that end closed *)
Lemma end_gone s f x w p z k wk : files_ok s -> at_ (files s) f = Some x -> end_of x w p -> pipes s !! p = Some z ->
  (exists lo hi, owns k lo hi (others ∪ pipe_blocks (pipes_closed (pipes s) p z w)) /\
    forall q y, pipes_closed (pipes s) p z w !! q = Some y -> (q, 10) ∉ others) ->
  files_ok (St (fss s) (flock s) (put (files s) f (closed_file x)) (pipes_closed (pipes s) p z w) k (raw s) (killed s) wk).
Proof.
  intros [Hl Hn Href Hp Ho He Hv _] Hf Hend Hz Hmem. pose proof (at_range _ _ _ Hf) as Hir.
  assert (forall j g, at_ (put (files s) f (closed_file x)) j = Some g ->
    j <> f /\ at_ (files s) j = Some g \/ j = f /\ g = closed_file x) as Htab.
  { intros j g Hj. destruct (Z.eq_dec f j) as [<-|Hne].
    - rewrite at_put_eq in Hj by lia. injection Hj as <-. by right.
    - rewrite at_put_ne in Hj by lia. by left. }
  assert (forall j g w' p', at_ (put (files s) f (closed_file x)) j = Some g -> end_of g w' p' ->
    at_ (files s) j = Some g /\ (w', p') <> (w, p)) as Hother.
  { intros j g w' p' Hj Hg. destruct (Htab j g Hj) as [[Hne Hj']|[_ ->]]; [|by destruct Hg].
    split; [done|]. intros [= -> ->]. apply Hne. by eapply Ho. }
  split; cbn [flock files pipes kmm]; try done.
  - unfold put. by rewrite length_insert.
  - intros j g Hj. destruct (Htab j g Hj) as [[_ Hj']|[_ ->]]; [by eapply Href|]. cbn. split; [lia|done].
  - intros j g w' p' Hj Hg. destruct (Hother j g w' p' Hj Hg) as [Hj' Hne].
    destruct (Hp j g w' p' Hj' Hg) as (y & Hy & Hyo). destruct (decide (p' = p)) as [->|Hpp].
    + rewrite Hz in Hy. injection Hy as <-. assert (is_open (Pipe.closed z w) w') as Hop by (apply is_open_closed; naive_solver).
      exists (Pipe.closed z w). split; [|done]. apply pipes_closed_lookup. right. split; [done|]. split; [done|].
      destruct (closed _) eqn:E; [|done]. by apply closed_spec with (w := w') in E.
    + exists y. split; [|done]. apply pipes_closed_lookup. by left.
  - intros i j g h w' p' Hi Hj Hg Hh. destruct (Hother i g w' p' Hi Hg) as [Hi' _]. destruct (Hother j h w' p' Hj Hh) as [Hj' _].
    by eapply Ho.
  - intros p' y w' Hy Hyo.
    assert (exists i g, at_ (files s) i = Some g /\ end_of g w' p' /\ (w', p') <> (w, p)) as (i & g & Hi & Hg & Hne).
    { apply pipes_closed_lookup in Hy as [[Hpp Hy]|(-> & -> & _)].
      - destruct (He p' y w' Hy Hyo) as (i & g & Hi & Hg). exists i, g. split; [done|]. split; [done|]. congruence.
      - apply is_open_closed in Hyo as [Hyo Hne]. destruct (He p z w' Hz Hyo) as (i & g & Hi & Hg). exists i, g.
        split; [done|]. split; [done|]. congruence. }
    exists i, g. split; [|done]. rewrite at_put_ne; [done|lia|]. intros <-. rewrite Hf in Hi. injection Hi as <-.
    destruct Hg as (_ & E1 & E2), Hend as (_ & E3 & E4). congruence.
  - intros p' y [[_ Hy]|(-> & -> & Hc)]%pipes_closed_lookup; [by eapply Hv|]. split; [done|].
    destruct (Hv p z Hz) as [_ Hzl]. by destruct w.
Qed.

(** the last reference to a pipe's end *)
Lemma pipe_end_closed s f x w p : files_ok s -> at_ (files s) f = Some x -> f_ref x = 1 -> end_of x w p ->
  wp (fileclose f) (fun _ s' => files_ok s' /\ files s' = put (files s) f (closed_file x)) s.
Proof.
  intros Hok Hf Hr Hend. pose proof Hok as [Hl _ _ Hp _ _ Hv (lo & hi & HA & Hno)].
  destruct (Hp f x w p Hf Hend) as (z & Hz & Hopen). destruct (Hv p z Hz) as [_ Hzl].
  eapply fileclose_last; [done|done|done|]. pose proof Hend as (Et & Ep & Ew). unfold close_what.
  rewrite Et, Ep, Ew. cbn [Z.eqb FD_PIPE Pos.eqb]. set (s1 := set_files _ s).
  wp_step. apply (wp_at_pipe _ _ _ _ s1 z Hz).
  pose proof (Pipe.pipeclose_eq p w (Pipe.St z [] (killed s1) [] (kmm s1)) Hzl) as Hrun. cbn zeta in Hrun.
  cbn [Pipe.pp] in Hrun. change ((Pipe.readopen _ =? 0) && (Pipe.writeopen _ =? 0)) with (closed (Pipe.closed z w)) in Hrun.
  pose proof (end_gone s f x w p z) as Hgone. unfold pipes_closed in Hgone.
  destruct (closed (Pipe.closed z w)) eqn:Ecl.
  - (* both ends are closed: the memory goes back *)
    assert ((p, 10) ∈ others ∪ pipe_blocks (pipes s)) as Hin by (apply elem_of_union_r, elem_of_pipe_blocks; by rewrite Hz).
    pose proof (buddy_kfree (kmm s) lo hi _ p 10 HA Hin) as Hfree. apply wp_done in Hfree as (u & k' & Hkf & Hk').
    unfold Pipe.after_close, zoom in Hrun. cbn [lget Pipe.kmm_lens Pipe.kmm Pipe.pp] in Hrun.
    change (kmm s1) with (kmm s) in Hrun. rewrite Hkf in Hrun. apply (wp_eq _ _ _ _ _ Hrun). wp_step.
    unfold end_pipe, in_pipe. cbn [lset Pipe.kmm_lens pipes Pipe.pp Pipe.kmm Pipe.wakes Pipe.ubuf].
    rewrite lookup_insert_eq, Ecl, delete_insert_eq. split; [|done]. apply Hgone; try done.
    exists lo, hi. split; [|intros p' y [Hpp Hy]%lookup_delete_Some; by eapply Hno]. rewrite pipe_blocks_delete.
    assert (others ∪ pipe_blocks (pipes s) ∖ {[(p, 10)]} = (others ∪ pipe_blocks (pipes s)) ∖ {[(p, 10)]}) as ->; [|done].
    specialize (Hno p z Hz). set_solver.
  - apply (wp_eq _ _ _ _ _ Hrun). wp_step. unfold end_pipe, in_pipe, Pipe.after_close. cbn [pipes Pipe.pp Pipe.kmm Pipe.wakes].
    rewrite lookup_insert_eq, Ecl. split; [|done]. apply Hgone; try done. exists lo, hi. split.
    + rewrite pipe_blocks_insert. assert ({[(p, 10)]} ∪ pipe_blocks (pipes s) = pipe_blocks (pipes s)) as ->; [|done].
      apply subseteq_union_1_L, singleton_subseteq_l, elem_of_pipe_blocks. by rewrite Hz.
    + intros p' y Hy. destruct (decide (p' = p)) as [->|Hpp]; [by eapply Hno|]. rewrite lookup_insert_ne in Hy by done. by eapply Hno.
Qed.

(** a new pipe between two fresh entries *)
Lemma pipe_added s f0 f1 x0 x1 p junk k lo hi : files_ok s -> at_ (files s) f0 = Some x0 -> at_ (files s) f1 = Some x1 ->
  f0 <> f1 -> f_type x0 = FD_NONE -> f_type x1 = FD_NONE -> 0 < f_ref x0 -> 0 < f_ref x1 ->
  ((p, 10) ∉ others ∪ pipe_blocks (pipes s)) -> owns k lo hi ({[(p, 10)]} ∪ (others ∪ pipe_blocks (pipes s))) ->
  files_ok (St (fss s) (flock s) (put (put (files s) f0 (pipe_file 1 0 p x0)) f1 (pipe_file 0 1 p x1))
    (<[p := new_pipe junk]> (pipes s)) k (raw s) (killed s) (pwakes s)).
Proof.
  intros [Hl Hn Href Hp Ho He Hv (lo0 & hi0 & _ & Hno)] H0 H1 Hne T0 T1 R0 R1 HpA HA'.
  apply not_elem_of_union in HpA as [HpO HpA].
  assert (pipes s !! p = None) as Hfresh by (destruct (pipes s !! p) as [y|] eqn:E; [destruct HpA; apply elem_of_pipe_blocks; by rewrite E|done]).
  pose proof (at_range _ _ _ H0) as Hr0. pose proof (at_range _ _ _ H1) as Hr1. set (l := put (put _ _ _) _ _).
  assert (at_ l f1 = Some (pipe_file 0 1 p x1)) as L1 by (apply at_put_eq; unfold put; rewrite length_insert; lia).
  assert (at_ l f0 = Some (pipe_file 1 0 p x0)) as L0 by (unfold l; rewrite at_put_ne by lia; apply at_put_eq; lia).
  assert (forall j, j <> f0 -> j <> f1 -> at_ l j = at_ (files s) j) as Lo by (intros; unfold l; by rewrite !at_put_ne by lia).
  assert (forall j g w q, at_ l j = Some g -> end_of g w q ->
    j = f0 /\ w = false /\ q = p \/ j = f1 /\ w = true /\ q = p \/ at_ (files s) j = Some g /\ q <> p) as Hends.
  { intros j g w q Hj Hg. destruct (Z.eq_dec j f0) as [->|]; [|destruct (Z.eq_dec j f1) as [->|]].
    - rewrite L0 in Hj. injection Hj as <-. destruct Hg as (_ & <- & <-). by left.
    - rewrite L1 in Hj. injection Hj as <-. destruct Hg as (_ & <- & <-). by right; left.
    - rewrite Lo in Hj by done. right; right. split; [done|]. intros ->. destruct (Hp j g w p Hj Hg) as (y & Hy & _). congruence. }
  split; cbn [flock files pipes kmm]; try done.
  - unfold l, put. by rewrite !length_insert.
  - intros j g Hj. destruct (Z.eq_dec j f0) as [->|]; [|destruct (Z.eq_dec j f1) as [->|]].
    + rewrite L0 in Hj. injection Hj as <-. cbn. lia.
    + rewrite L1 in Hj. injection Hj as <-. cbn. lia.
    + rewrite Lo in Hj by done. by eapply Href.
  - intros j g w q Hj Hg. destruct (Hends j g w q Hj Hg) as [(_ & -> & ->)|[(_ & -> & ->)|[Hj' Hq]]].
    + exists (new_pipe junk). by rewrite lookup_insert_eq.
    + exists (new_pipe junk). by rewrite lookup_insert_eq.
    + rewrite lookup_insert_ne by done. by eapply Hp.
  - intros i j g h w q Hi Hj Hg Hh.
    destruct (Hends i g w q Hi Hg) as [(-> & -> & ->)|[(-> & -> & ->)|[Hi' Hq]]],
      (Hends j h _ _ Hj Hh) as [(-> & ? & ?)|[(-> & ? & ?)|[Hj' Hq']]]; try done. by eapply Ho.
  - intros q y w Hy Hyo. destruct (decide (q = p)) as [->|Hq].
    + destruct w; [exists f1, (pipe_file 0 1 p x1)|exists f0, (pipe_file 1 0 p x0)]; done.
    + rewrite lookup_insert_ne in Hy by done. destruct (He q y w Hy Hyo) as (i & g & Hi & Hg). exists i, g. split; [|done].
      rewrite Lo; [done| |]; intros ->; destruct Hg as (Hg & _).
      * rewrite H0 in Hi. injection Hi as <-. by rewrite T0 in Hg.
      * rewrite H1 in Hi. injection Hi as <-. by rewrite T1 in Hg.
  - intros q y Hy. destruct (decide (q = p)) as [->|Hq].
    + rewrite lookup_insert_eq in Hy. by injection Hy as <-.
    + rewrite lookup_insert_ne in Hy by done. by eapply Hv.
  - exists lo, hi. split.
    + rewrite pipe_blocks_insert. by rewrite (union_assoc_L others), (union_comm_L others), <-(union_assoc_L _ others).
    + intros q y Hy. destruct (decide (q = p)) as [->|Hq]; [done|]. rewrite lookup_insert_ne in Hy by done. by eapply Hno.
Qed.

(** the cleanup after a failure, with the files allocated so far *)
Lemma close_fresh_ok s f x : files_ok s -> at_ (files s) f = Some x -> f_ref x = 1 -> f_type x = FD_NONE ->
  fileclose f s = Done tt (set_files (put (files s) f (closed_file x)) s) /\
  files_ok (set_files (put (files s) f (closed_file x)) s).
Proof. intros Hok Hf Hr Ht. split; [by apply fileclose_fresh; [apply Hok|..]|apply closed_ok; [done|done|by rewrite Ht]]. Qed.

Lemma order_10 (s : st) : zoom unit_lens (Buddy.get_order Pipe.sizeof_pipe) s = Done 10 s.
Proof.
  assert (Buddy.get_order Pipe.sizeof_pipe tt = Done 10 tt) as Ho by (vm_compute; reflexivity).
  unfold zoom. cbn [lget unit_lens]. by rewrite Ho.
Qed.

(** the entries in use stay as they are *)
Definition kept (l l' : list file) : Prop := forall i x, at_ l i = Some x -> 0 < f_ref x -> at_ l' i = Some x.
Lemma kept_put l l' f x y : kept l l' -> at_ l f = Some x -> f_ref x = 0 -> kept l (put l' f y).
Proof.
  intros Hk Hf H0 i z Hi Hz. pose proof (at_range _ _ _ Hf). destruct (Z.eq_dec f i) as [->|]; [naive_solver lia|].
  rewrite at_put_ne by lia. by apply Hk.
Qed.
(** an entry that was free and is an end of pipe [p] now *)
Definition new_end (s s' : st) (f : Z) (w : bool) (p : Z) : Prop :=
  (exists x0, at_ (files s) f = Some x0 /\ f_ref x0 = 0) /\
  exists x, at_ (files s') f = Some x /\ f_ref x = 1 /\ end_of x w p.

(** why pipealloc fails: fewer than two free entries, or no memory *)
Definition no_pipe (s : st) : Prop :=
  (forall f g x y, at_ (files s) f = Some x -> f_ref x = 0 -> at_ (files s) g = Some y -> f_ref y = 0 -> f = g) \/
  Buddy.kmalloc 10 (kmm s) = Done 0 (kmm s).
Lemma pipealloc_spec s : files_ok s -> wp pipealloc (fun r s' => files_ok s' /\ kept (files s) (files s') /\
  (r.1.1 = -1 /\ no_pipe s \/ r.1.1 = 0 /\ r.1.2 <> r.2 /\ exists p, new_end s s' r.1.2 false p /\ new_end s s' r.2 true p)) s.
Proof.
  intros Hok. unfold pipealloc. wp_step. eapply wp_mono; [by apply filealloc_spec|]. cbn beta.
  intros f0 s1 [(-> & -> & Hno)|(x0 & H0 & R0 & _ & ->)].
  { cbn. split; [done|]. split; [by intros i x|left]. split; [done|]. left. intros f g x y Hf Hz. by destruct (Hno f x Hf). }
  assert (0 <= f0) as Hf0 by (apply at_range in H0; lia). destruct (Z.eqb_spec f0 NULL) as [->|_]; [unfold NULL in Hf0; lia|].
  pose proof (fo_ref _ Hok _ _ H0) as [_ T0]. specialize (T0 R0).
  set (s1 := set_files _ s). assert (files_ok s1) as Hok1 by (apply counted_ok; done || lia).
  assert (at_ (files s1) f0 = Some (set_ref 1 x0)) as H01 by (apply at_put_eq; apply at_range in H0; lia).
  assert (forall y, kept (files s) (put (files s) f0 y)) as Hk0 by (intros y; apply (kept_put _ _ f0 x0); [by intros i x|done|done]).
  wp_step. eapply wp_mono; [by apply filealloc_spec|]. cbn beta. intros f1 s2 [(-> & -> & Hno)|(x1 & H1 & R1 & _ & ->)].
  { cbn [Z.eqb NULL Pos.eqb]. unfold pipealloc_bad. cbn [Z.eqb negb when]. wp_step. wp_step. wp_step.
    destruct (Z.eqb_spec f0 NULL) as [->|_]; [unfold NULL in Hf0; lia|]. cbn [negb when].
    destruct (close_fresh_ok s1 f0 _ Hok1 H01 eq_refl T0) as [Hrun Hok2]. apply (wp_eq _ _ _ _ _ Hrun).
    wp_step. change (NULL =? NULL) with true. cbn [negb when]. wp_step. wp_step. split; [done|].
    split; [cbn [files set_files]; unfold s1; cbn [files set_files]; rewrite put_put; apply Hk0|]. left. split; [done|]. left.
    assert (forall g y, at_ (files s) g = Some y -> f_ref y = 0 -> g = f0) as Hall; [|intros f g x y Hf Zf Hg Zg; by rewrite (Hall f x), (Hall g y)].
    intros g y Hg Zg. destruct (Z.eq_dec g f0) as [|Hgf]; [done|]. destruct (Hno g y); [|done]. unfold s1. cbn [files set_files]. by rewrite at_put_ne by lia. }
  assert (0 <= f1) as Hf1 by (apply at_range in H1; lia). destruct (Z.eqb_spec f1 NULL) as [->|_]; [unfold NULL in Hf1; lia|].
  pose proof (fo_ref _ Hok1 _ _ H1) as [_ T1]. specialize (T1 R1).
  set (s2 := set_files _ s1). assert (files_ok s2) as Hok2 by (apply counted_ok; done || lia).
  assert (f0 <> f1) as Hne by (intros <-; rewrite H01 in H1; injection H1 as <-; done).
  assert (at_ (files s2) f1 = Some (set_ref 1 x1)) as H12 by (apply at_put_eq; apply at_range in H1; lia).
  assert (at_ (files s2) f0 = Some (set_ref 1 x0)) as H02 by (unfold s2; cbn [files set_files]; rewrite at_put_ne by lia; done).
  assert (at_ (files s) f1 = Some x1) as H1' by (unfold s1 in H1; cbn [files set_files] in H1; by rewrite at_put_ne in H1 by lia).
  assert (forall y l, kept (files s) l -> kept (files s) (put l f0 y)) as Hk0' by (intros y l Hl; by apply (kept_put _ _ f0 x0)).
  assert (forall y l, kept (files s) l -> kept (files s) (put l f1 y)) as Hk1 by (intros y l Hl; by apply (kept_put _ _ f1 x1)).
  wp_step. apply (wp_eq _ _ _ _ _ (order_10 s2)). wp_step. wp_step.
  destruct (fo_mem _ Hok2) as (lo & hi & HA & _). pose proof (pa_alloc (kmm s2) lo hi _ 10 HA ltac:(lia)) as Hw.
  apply wp_done in Hw as (p & k & Hrun & Hpk). apply (wp_eq _ _ _ _ _ Hrun). destruct Hpk as [(-> & ->)|(Hp & Hk)].
  { cbn [Z.eqb]. change (lset kmm_lens (kmm s2) s2) with s2. unfold pipealloc_bad. cbn [Z.eqb negb when]. wp_step. wp_step.
    destruct (Z.eqb_spec f0 NULL) as [->|_]; [unfold NULL in Hf0; lia|]. cbn [negb when]. wp_step.
    destruct (close_fresh_ok s2 f0 _ Hok2 H02 eq_refl T0) as [Hrun1 Hok3]. apply (wp_eq _ _ _ _ _ Hrun1). wp_step.
    destruct (Z.eqb_spec f1 NULL) as [->|_]; [unfold NULL in Hf1; lia|]. cbn [negb when].
    set (s3 := set_files _ s2) in *. assert (at_ (files s3) f1 = Some (set_ref 1 x1)) as H13.
    { unfold s3. cbn [files set_files]. by rewrite at_put_ne by lia. }
    destruct (close_fresh_ok s3 f1 _ Hok3 H13 eq_refl T1) as [Hrun' Hok4]. apply (wp_eq _ _ _ _ _ Hrun'). wp_step.
    split; [done|]. split; [cbn [files set_files]; apply Hk1, Hk0', Hk1, Hk0|]. left. split; [done|]. right. exact Hrun. }
  assert (0 < p) as Hp0 by (by eapply (pa_block k lo hi _ p 10 Hk), elem_of_union_l, elem_of_singleton).
  destruct (Z.eqb_spec p 0) as [|_]; [lia|]. wp_step. wp_step. wp_step. eapply wp_up_f; [exact H02|]. wp_step.
  eapply wp_up_f. { cbn [files set_files]. rewrite at_put_ne by lia. exact H12. } wp_step.
  cbn [fst snd]. split; [by apply (pipe_added s2 f0 f1 (set_ref 1 x0) (set_ref 1 x1) p (raw s2 p) k lo hi)|].
  cbn [files set_files set_pipe lset kmm_lens]. split; [apply Hk1, Hk0', Hk1, Hk0|]. right. split; [done|]. split; [done|].
  exists p. pose proof (at_range _ _ _ H02). pose proof (at_range _ _ _ H12). split.
  - split; [by exists x0|]. exists (pipe_file 1 0 p (set_ref 1 x0)). split; [|done].
    cbn [files set_files set_pipe lset kmm_lens]. rewrite at_put_ne by lia. by apply at_put_eq.
  - split; [by exists x1|]. exists (pipe_file 0 1 p (set_ref 1 x1)). split; [|done].
    cbn [files set_files set_pipe lset kmm_lens]. apply at_put_eq. unfold put. by rewrite length_insert.
Qed.

(** ** The operations on the table *)
Inductive fop :=
| OpAlloc          (* filealloc() *)
| OpDup (f : Z)    (* filedup(f) *)
| OpClose (f : Z)  (* fileclose(f) *)
| OpPipe.          (* pipealloc(&f0, &f1) *)
Definition run_fop (op : fop) : M st unit :=
  match op with
  | OpAlloc => filealloc ;; mret tt
  | OpDup f => filedup f ;; mret tt
  | OpClose f => fileclose f
  | OpPipe => pipealloc ;; mret tt
  end.
(** filedup and fileclose are called on files that are open *)
Definition fop_ok (s : st) (op : fop) : Prop :=
  match op with
  | OpDup f | OpClose f => exists x, at_ (files s) f = Some x /\ 1 <= f_ref x
  | _ => True
  end.
(** fileclose goes on to iput *)
Definition puts_inode (s : st) (op : fop) : Prop :=
  match op with
  | OpClose f => exists x, at_ (files s) f = Some x /\ f_ref x = 1 /\ f_type x = FD_INODE
  | _ => False
  end.

(** the inode's end of fileclose does not touch the table *)
Lemma files_ok_fss s x : files_ok s -> files_ok (lset fss_lens x s).
Proof. intros [H1 H2 H3 H4 H5 H6 H7 H8]. by split. Qed.
(** the entry fileclose leaves *)
Definition dropped (x : file) : file := if 1 <? f_ref x then set_ref (f_ref x - 1) x else closed_file x.
Lemma fileclose_inode s f x : files_ok s -> at_ (files s) f = Some x -> f_ref x = 1 -> f_type x = FD_INODE ->
  wlp (fileclose f) (fun _ s' => files_ok s' /\ files s' = put (files s) f (closed_file x)) (fun _ => True) s.
Proof.
  intros Hok Hx R T. pose proof (fo_lock _ Hok) as Hl. set (Q := fun _ s' => _).
  assert (wlp (close_what x) Q (fun _ => True) (set_files (put (files s) f (closed_file x)) s)) as Hw.
  { unfold close_what. rewrite T. cbn [Z.eqb FD_INODE FD_PIPE Pos.eqb when].
    assert (forall {A} (m : M (Fs.st B) A) t, Q () t -> wlp (zoom fss_lens m) (fun _ s' => Q () s') (fun _ => True) t) as Hz.
    { intros A m t [H1 H2]. apply wlp_zoom. unfold wlp. destruct (m _); try done. split; [by apply files_ok_fss|done]. }
    assert (Q () (set_files (put (files s) f (closed_file x)) s)) as H0.
    { split; [|done]. apply closed_ok; [done|done|by rewrite T]. }
    apply wlp_bind. eapply wlp_mono; [by apply Hz| |done]. cbn beta. intros _ s1 H1.
    apply wlp_bind. eapply wlp_mono; [by apply Hz| |done]. cbn beta. intros _ s2 H2. eapply wlp_mono; [by apply Hz| |done]. by intros []. }
  unfold wlp in *. destruct (fileclose f s) as [u s'| | | | |] eqn:E; try done.
  rewrite (fileclose_last_eq s f x Hl Hx R) in E. by rewrite E in Hw.
Qed.

(** fileclose of an open file *)
Lemma fileclose_spec s f x : files_ok s -> at_ (files s) f = Some x -> 1 <= f_ref x ->
  let Q := fun (_ : unit) s' => files_ok s' /\ files s' = put (files s) f (dropped x) in
  wp (fileclose f) Q s \/ (f_ref x = 1 /\ f_type x = FD_INODE /\ wlp (fileclose f) Q (fun _ => True) s).
Proof.
  intros Hok Hx Hr Q. unfold Q, dropped. pose proof (fo_lock _ Hok) as Hl. destruct (Z.ltb_spec 1 (f_ref x)) as [H1|H1].
  { left. eapply wp_eq; [apply (fileclose_more s f x); done || lia|]. split; [|done]. apply counted_ok; done || lia. }
  assert (f_ref x = 1) as R1 by lia. destruct (Z.eq_dec (f_type x) FD_PIPE) as [T|T].
  { left. by eapply pipe_end_closed. }
  destruct (Z.eq_dec (f_type x) FD_INODE) as [T2|T2].
  - right. split; [done|]. split; [done|]. by apply fileclose_inode.
  - left. eapply fileclose_last; [done|done|done|]. unfold close_what.
    rewrite (proj2 (Z.eqb_neq _ _) T), (proj2 (Z.eqb_neq _ _) T2). split; [|done]. by apply closed_ok.
Qed.


End file.
Arguments st : clear implicits.

(** ** An example: a pipe on an empty table *)
Import Store.
Import FsSpec.
Definition no_file : file := MkFile FD_NONE 0 0 0 0 0 0.
Definition demo_files : st Log.st :=
  St FsSpec.FsSpec.demo false (replicate 100 no_file) ∅ Buddy.demo (fun _ => replicate 512 7) 0 [].
Lemma demo_files_ok : files_ok ∅ demo_files.
Proof.
  assert (forall i f, at_ (files demo_files) i = Some f -> f = no_file) as Hall.
  { intros i f Hi. unfold at_ in Hi. destruct (0 <=? i); [|done]. by apply lookup_replicate_1 in Hi as [-> _]. }
  split; try done.
  - intros i f Hi. rewrite (Hall i f Hi). split; [reflexivity|done].
  - intros i f w p Hi [E _]. rewrite (Hall i f Hi) in E. discriminate.
  - intros i j f g w p Hi _ [E _] _. rewrite (Hall i f Hi) in E. discriminate.
  - eexists _, _. change (∅ ∪ pipe_blocks (pipes demo_files)) with (∅ ∪ pipe_blocks ∅). unfold pipe_blocks. rewrite dom_empty_L, set_map_empty, union_empty_l_L.
    split; [exact (buddy_owns_none 7 Buddy.demo Buddy.demo_inv Buddy.demo_free)|]. intros p x Hp. cbn [pipes demo_files] in Hp. by rewrite lookup_empty in Hp.
Qed.

End File.
