(* ===== verification/FileIO.v ===== *)
(** * Reading and writing an open file

    fileread and filewrite of src/src/file.c over the file system's laws: a
    write runs as a sequence of transactions, one for each piece of at most
    [max_write] bytes, each small enough for the log. *)

From S2P Require Import Prelude.
From S2P Require Import Bytes.
From S2P Require Import Bio.
From S2P Require Import Log.
From S2P Require Import Store.
From S2P Require Import Fs.
From S2P Require Import Content.
From S2P Require Import Inode.
From S2P Require Import FsSpec.
From S2P Require Import File.

Module FileIO.
Import Fs.
Import Content.
Import Inode.

Section io.
Context {B : Type} {BS : BlockStore B} {DV : Devsw B} {BL : BlockStoreLaws B}.
Implicit Types (s : File.st B) (view : Z -> list Z) (sb : superblock) (n : inode).

(** File [f] of the table is open on inode [n], which is in the cache, valid
    and unlocked, and no transaction is open. *)
Record openf s (f : Z) (x : File.file) n sb view : Prop := {
  of_at : at_ (File.files s) f = Some x;
  of_type : File.f_type x = File.FD_INODE;
  of_lock : lock (File.fss s) = false;
  of_inode : at_ (inodes (File.fss s)) (File.f_ip x) = Some n;
  of_ref : 1 <= i_ref n;
  of_free : has (i_flags n) I_BUSY = false;
  of_valid : has (i_flags n) I_VALID = true;
  of_notdev : i_type n <> T_DEV;
  of_holds : holds false (blk (File.fss s)) ∅ ∅ view ∅;
  of_file : ifile sb view (nblk (blk (File.fss s))) n;
  of_ino : ino_ok sb n;
  of_fields : fields_ok n;
  of_disk : on_disk view n;
}.

(** [s] after input or output on [f]: its offset, its inode, the disk and the
    inode cache's wakeups *)
Definition io s (f : Z) (x : File.file) (b : B) n (wk : list chan) : File.st B :=
  File.St (St b (lock (File.fss s)) (put (inodes (File.fss s)) (File.f_ip x) n) (cwd (File.fss s)) wk)
    (File.flock s) (put (File.files s) f x) (File.pipes s) (File.kmm s) (File.raw s) (File.killed s) (File.pwakes s).
Lemma io_io s f x b n wk x2 b2 n2 wk2 : File.f_ip x2 = File.f_ip x ->
  io (io s f x b n wk) f x2 b2 n2 wk2 = io s f x2 b2 n2 wk2.
Proof. intros E. unfold io. cbn. by rewrite E, !put_put. Qed.

(** flags apart, an inode is what it was *)
Lemma on_disk_flags view n fl : on_disk view n -> on_disk view (set_flags fl n).
Proof.
  unfold on_disk. intros H. destruct (dinode_of_loaded _ _ _ _ H) as [_ H']. change (i_inum (set_flags fl n)) with (i_inum n).
  rewrite H'. by destruct n.
Qed.
Lemma ifile_flags sb view nb n fl : ifile sb view nb n -> ifile sb view nb (set_flags fl n).
Proof. intros [H1 H2 H3 H4 H5]. by split. Qed.
Lemma fields_flags n fl : fields_ok n -> fields_ok (set_flags fl n).
Proof. intros [H1 H2 H3 H4 H5 H6 H7]. by split. Qed.

(** unlocking what ilock locked *)
Lemma unbusy n fl : has (i_flags n) I_BUSY = false -> i_flags n = fl -> Z.land (Z.lor fl I_BUSY) (Z.lnot I_BUSY) = fl.
Proof.
  intros Hb <-. unfold has in Hb. apply Z.bits_inj'. intros k Hk. rewrite Z.land_spec, Z.lor_spec, Z.lnot_spec by lia.
  unfold I_BUSY in *. change 1 with (2 ^ 0) in *. rewrite !Z.pow2_bits_eqb by lia.
  rewrite (Bio.land_bit _ 0) in Hb by lia. rewrite negb_involutive in Hb.
  destruct (Z.eqb_spec 0 k) as [<-|]; cbn [orb andb negb]; [by rewrite Hb|by rewrite orb_false_r, andb_true_r].
Qed.

(** a valid, unlocked inode is locked, used and unlocked *)
Lemma ilock_open (b : B) (ino : list inode) c wk ip n Q : at_ ino ip = Some n -> 1 <= i_ref n ->
  has (i_flags n) I_BUSY = false -> has (i_flags n) I_VALID = true ->
  Q tt (St b false (put ino ip (busy n)) c wk) -> wp (ilock ip) Q (St b false ino c wk).
Proof. intros Hx Hr Hb Hv HQ. by apply (ilock_valid (St b false ino c wk) ip n eq_refl Hx Hr Hb). Qed.
Lemma iunlock_open (b : B) (ino : list inode) c wk ip n : at_ ino ip = Some (busy n) -> 1 <= i_ref n ->
  has (i_flags n) I_BUSY = false ->
  iunlock ip (St b false ino c wk) = Done tt (St b false (put ino ip n) c (wk ++ [ch_inode ip])).
Proof.
  intros Hx Hr Hb. rewrite (iunlock_spec (St b false ino c wk) ip (busy n)); [|done|done|done|].
  - do 3 f_equal. unfold busy. cbn [i_flags set_flags]. rewrite (unbusy n (i_flags n) Hb eq_refl). by destruct n.
  - unfold has, busy. cbn [i_flags set_flags]. unfold I_BUSY. change 1 with (2 ^ 0). rewrite Bio.land_bit by lia.
    rewrite Z.lor_spec, Z.pow2_bits_true by lia. by rewrite orb_true_r.
Qed.

(** one transaction's worth of filewrite *)
Lemma chunk_list {A} (c src : list A) (off i m : nat) : (i + m <= length src)%nat -> (off <= length c)%nat ->
  let ci := take off c ++ take i src ++ drop (off + i) c in
  take (off + i) ci ++ take m (drop i src) ++ drop (off + i + m) ci =
  take off c ++ take (i + m) src ++ drop (off + (i + m)) c.
Proof.
  intros Hs Hc ci. assert (length (take off c) = off) as H1 by (rewrite length_take; lia).
  assert (length (take i src) = i) as H2 by (rewrite length_take; lia).
  assert (take (off + i) ci = take off c ++ take i src) as ->.
  { unfold ci. rewrite take_app_ge by lia. rewrite H1. replace (off + i - off)%nat with i by lia.
    by rewrite take_app_length'. }
  assert (drop (off + i + m) ci = drop (off + (i + m)) c) as ->.
  { unfold ci. rewrite drop_app_ge by lia. rewrite H1, drop_app_ge by lia. rewrite H2, drop_drop. f_equal. lia. }
  rewrite <-!app_assoc. f_equal. rewrite app_assoc. f_equal. by rewrite take_take_drop.
Qed.
Lemma put_at {A} (l : list A) i x y : at_ l i = Some y -> at_ (put l i x) i = Some x.
Proof. intros H. apply at_put_eq. by eapply at_range. Qed.

Lemma filewrite_piece s f x n sb view addr N i : let m := Z.min File.max_write (N - i) in
  openf s f x n sb view -> 0 <= i < N -> N <= Z.of_nat (length addr) -> bytes_ok addr ->
  0 <= File.f_off x <= i_size n -> File.f_off x + m <= MAXFILE * 512 ->
  (2 * rounds (File.f_off x) m 0 <= base.size (frees sb view))%nat -> 8 <= cap (blk (File.fss s)) ->
  wp (File.filewrite_body f addr N i) (fun r s' => r = inl (i + m) /\ exists b n' view' wk,
    let x' := File.set_off (File.f_off x + m) x in
    s' = io s f x' b n' wk /\ openf s' f x' n' sb view' /\ same_store (File.fss s) b /\
    i_size n' = Z.max (i_size n) (File.f_off x + m) /\
    icontent view' n' = take (Z.to_nat (File.f_off x)) (icontent view n) ++ take (Z.to_nat m) (drop (Z.to_nat i) addr) ++
      drop (Z.to_nat (File.f_off x + m)) (icontent view n) /\
    (base.size (frees sb view) <= base.size (frees sb view') + 2 * rounds (File.f_off x) m 0)%nat) s.
Proof.
  intros m [O1 O2 O3 O4 O5 O6 O7 O8 O9 O10 O11 O12 O13] Hi HN Hby Hoff HE Hfree Hcap.
  set (off := File.f_off x) in *. destruct s as [[b0 lk ino c wk] fl fs ps km rw kl pw]. cbn in *. subst lk.
  change (File.max_write) with 1536 in *. assert (0 < m <= 1536) as Hm by lia.
  unfold File.filewrite_body. destruct (Z.ltb_spec i N) as [_|]; [|lia]. change File.max_write with 1536.
  assert ((if 1536 <? N - i then 1536 else N - i) = m) as -> by (destruct (Z.ltb_spec 1536 (N - i)); lia).
  (* begin_trans(); ilock(f->ip) *)
  wp_step. apply wp_zoom. unfold begin_trans. apply wp_zoom. eapply wp_mono; [by apply bs_begin|]. cbn beta.
  intros _ b1 (HB1 & N1 & C1). cbn [lget lset blk blk_lens File.fss_lens File.fss] in N1, C1. cbn [lset lget blk_lens set_blk File.fss_lens File.fss]. wp_step.
  eapply File.wp_ld_f; [exact O1|]. wp_step. apply wp_zoom. cbn [lget File.fss_lens File.fss].
  eapply (ilock_open b1 ino c wk); try done. cbn [lset File.fss_lens]. wp_step. eapply File.wp_ld_f; [exact O1|]. fold off.
  (* writei(f->ip, addr + i, f->off, n1) *)
  wp_step. apply wp_zoom. cbn [lget File.fss_lens File.fss]. set (ip := File.f_ip x) in *.
  set (s1 := St b1 false (put ino ip (busy n)) c wk). set (X := {[bitmap sb]} ∪ ({[IBLOCK (i_inum n)]} ∪ ∅) : gset Z).
  assert (rounds off m 0 <= 4)%nat as Hr.
  { unfold rounds. destruct (0 <? m); [|lia]. pose proof (Z.mod_pos_bound off 512). Z.div_mod_to_equations. lia. }
  eapply wp_mono.
  { apply (writei_spec s1 sb view ∅ X (busy n) ip off m (drop (Z.to_nat i) addr)); try done.
    - cbn. rewrite N1. by apply ifile_flags.
    - by eapply put_at.
    - by apply fields_flags.
    - by apply on_disk_flags.
    - rewrite length_drop. lia.
    - by apply Forall_drop.
    - unfold X. split; [set_solver|]. split; set_solver.
    - assert (base.size X <= 2)%nat as HX.
      { unfold X. rewrite union_empty_r_L. pose proof (size_union_alt {[bitmap sb]} ({[IBLOCK (i_inum n)]} : gset Z)) as Hu.
        rewrite Hu, size_singleton. assert (base.size (({[IBLOCK (i_inum n)]} : gset Z) ∖ {[bitmap sb]}) <= base.size ({[IBLOCK (i_inum n)]} : gset Z))%nat by (apply subseteq_size; set_solver).
        rewrite size_singleton in *. lia. }
      unfold room. rewrite dom_empty_L, union_empty_l_L. cbn [blk s1]. rewrite C1. lia. }
  cbn beta. intros r s2 (-> & b2 & n2 & view' & lg' & -> & Hd).
  pose proof Hd as [W1 [W2 W2'] W3 W4 W5 (a & Ha) W6 W7 W8 _ _]. cbn [lset File.fss_lens]. cbn [blk s1] in W2, W2'.
  set (n' := set_flags (i_flags n) n2).
  assert (n2 = busy n') as En2 by (rewrite Ha; unfold n', busy; rewrite Ha; by destruct n).
  (* f->off += r; iunlock(f->ip) *)
  wp_step. destruct (Z.ltb_spec 0 m) as [_|]; [|lia]. cbn [when]. eapply File.wp_up_f; [exact O1|]. fold off.
  rewrite (u32_id (off + m)) by (unfold MAXFILE, NDIRECT, NINDIRECT in HE; lia). set (x' := File.set_off (off + m) x).
  wp_step. eapply File.wp_ld_f; [by eapply put_at|]. wp_step. apply wp_zoom. cbn [lget File.fss_lens File.fss File.set_files].
  unfold ipst. cbn [blk s1 lock inodes cwd wakes]. change (File.f_ip x') with ip.
  assert (i_ref n' = i_ref n /\ i_flags n' = i_flags n) as [Er Ef] by (unfold n'; rewrite Ha; by destruct n).
  eapply wp_eq; [apply (iunlock_open b2 _ c wk ip n')|].
  { rewrite put_put, En2. by eapply put_at. } { by rewrite Er. } { by rewrite Ef. }
  (* commit_trans() *)
  cbn [lset File.fss_lens]. rewrite !put_put. wp_step. apply wp_zoom. unfold commit_trans. apply wp_zoom.
  cbn [lget File.fss_lens File.fss blk_lens blk]. eapply wp_mono; [eapply bs_commit; [exact W1|lia]|]. cbn beta.
  intros _ b3 (HB3 & N3 & C3). cbn [lget blk blk_lens File.fss_lens File.fss] in N3, C3. cbn [lset blk_lens set_blk File.fss_lens File.fss]. unfold set_blk. cbn [lock inodes cwd wakes].
  destruct (Z.ltb_spec m 0); [lia|]. rewrite Z.eqb_refl. wp_step. wp_step; [done|]. wp_step. split; [done|].
  exists b3, n', view', (wk ++ [ch_inode ip]). split; [done|].
  assert (nblk b3 = nblk b0) as En by congruence. assert (nblk b2 = nblk b0) as En' by congruence.
  split; [|split; [split; cbn; congruence|]].
  - split; cbn [File.files File.fss io lock inodes blk]; try done.
    + by eapply put_at.
    + by eapply put_at.
    + by rewrite Er.
    + unfold n'. rewrite Ha. by destruct n.
    + rewrite En, <-En'. by apply ifile_flags.
    + unfold ino_ok, n' in *. rewrite Ha. by destruct n.
    + by apply fields_flags.
    + by apply on_disk_flags.
  - split; [unfold n'; by rewrite Ha|]. split; [exact W8|]. lia.
Qed.

(** how many transactions a write of [N] bytes takes, and how many blocks it
    may need: two for each block a transaction touches *)
Definition pieces (N : Z) : Z := (N + 1535) / 1536.
Definition need (off N : Z) : Z := 2 * (Z.of_nat (rounds off N 0) + pieces N).
Lemma need_step off M : 0 <= off -> 0 < M -> let m := Z.min 1536 M in
  2 * Z.of_nat (rounds off m 0) + need (off + m) (M - m) <= need off M.
Proof.
  intros Ho HM m. unfold need, pieces, rounds. rewrite !Z.add_0_r. destruct (Z.ltb_spec 0 m), (Z.ltb_spec 0 M); try lia.
  assert (off / 512 <= (off + m - 1) / 512 <= (off + M - 1) / 512) as [H1 H2] by (split; apply Z.div_le_mono; lia).
  assert ((off + m - 1) / 512 <= (off + m) / 512) by (apply Z.div_le_mono; lia).
  destruct (Z.ltb_spec 0 (M - m)).
  - assert ((off + m) / 512 <= (off + m + (M - m) - 1) / 512) by (apply Z.div_le_mono; lia).
    replace (off + m + (M - m) - 1) with (off + M - 1) in * by lia.
    assert ((M - m + 1535) / 1536 + 1 = (M + 1535) / 1536); [|lia]. replace m with 1536 by lia. Z.div_mod_to_equations. lia.
  - replace (M - m) with 0 by lia. change ((0 + 1535) / 1536) with 0. replace m with M by lia.
    assert (0 <= (M + 1535) / 1536) by (apply Z.div_pos; lia). lia.
Qed.
Lemma need_pos off N : 0 <= N -> 0 <= need off N.
Proof. intros H. unfold need, pieces. assert (0 <= (N + 1535) / 1536) by (apply Z.div_pos; lia). lia. Qed.

(** [s'] is [s] after [i] bytes of [src] were written through [f] *)
Definition wrote s (f : Z) (x : File.file) n sb view (src : list Z) (i : Z) (s' : File.st B) (n' : inode) (view' : Z -> list Z) : Prop :=
  exists b wk, let x' := File.set_off (File.f_off x + i) x in
  s' = io s f x' b n' wk /\ openf s' f x' n' sb view' /\ same_store (File.fss s) b /\
  i_size n' = Z.max (i_size n) (File.f_off x + i) /\
  icontent view' n' = take (Z.to_nat (File.f_off x)) (icontent view n) ++ take (Z.to_nat i) src ++
    drop (Z.to_nat (File.f_off x + i)) (icontent view n).

Lemma wrote_start s f x n sb view src : openf s f x n sb view -> 0 <= File.f_off x <= i_size n ->
  wrote s f x n sb view src 0 s n view.
Proof.
  intros Ho Hoff. pose proof Ho as [O1 O2 O3 O4 O5 O6 O7 O8 O9 O10 O11 O12 O13].
  exists (blk (File.fss s)), (wakes (File.fss s)). cbn zeta. rewrite Z.add_0_r.
  assert (File.set_off (File.f_off x) x = x) as -> by by destruct x.
  assert (s = io s f x (blk (File.fss s)) n (wakes (File.fss s))) as Es.
  { unfold io. rewrite (put_id _ _ _ O1), (put_id _ _ _ O4). destruct s as [[? ? ? ? ?] ? ? ? ? ? ? ?]. done. }
  split; [done|]. split; [done|]. split; [apply same_refl|]. split; [lia|].
  change (take (Z.to_nat 0) src) with (@nil Z). by rewrite app_nil_l, take_drop.
Qed.

(** the bytes that fit the file: all [N], or the whole pieces below the maximum size *)
Definition fit (off N : Z) : Z :=
  if off + N <=? MAXFILE * 512 then N else File.max_write * ((MAXFILE * 512 - off) / File.max_write).
Lemma fit_range off N : 0 <= off <= MAXFILE * 512 -> 0 <= N -> 0 <= fit off N <= N /\ off + fit off N <= MAXFILE * 512.
Proof.
  intros Hoff HN. unfold fit. destruct (Z.leb_spec (off + N) (MAXFILE * 512)); [lia|]. change File.max_write with 1536.
  set (L := MAXFILE * 512) in *. Z.div_mod_to_equations. lia.
Qed.
(** the pieces below [fit] have their full length, the next one does not fit *)
Lemma fit_piece off N i : 0 <= i < fit off N -> Z.min File.max_write (N - i) = Z.min File.max_write (fit off N - i) \/ i mod File.max_write <> 0.
Proof.
  unfold fit. destruct (Z.leb_spec (off + N) (MAXFILE * 512)); [by left|]. change File.max_write with 1536. set (L := MAXFILE * 512) in *. intros Hi.
  destruct (decide (i mod 1536 = 0)) as [E|]; [left|by right]. assert (i + 1536 <= 1536 * ((L - off) / 1536)) by (Z.div_mod_to_equations; lia).
  assert (1536 * ((L - off) / 1536) <= L - off) by (Z.div_mod_to_equations; lia). lia.
Qed.
Lemma fit_end off N : 0 <= off -> fit off N < N -> MAXFILE * 512 < off + fit off N + Z.min File.max_write (N - fit off N).
Proof.
  intros Hoff. unfold fit. destruct (Z.leb_spec (off + N) (MAXFILE * 512)); [lia|]. change File.max_write with 1536. set (L := MAXFILE * 512) in *.
  intros Hlt. assert (L - off < 1536 * ((L - off) / 1536) + 1536) by (Z.div_mod_to_equations; lia). lia.
Qed.
Lemma fit_mod off N i : i mod File.max_write = 0 -> 0 <= i < fit off N -> (i + Z.min File.max_write (N - i)) mod File.max_write = 0 \/ i + Z.min File.max_write (N - i) = N.
Proof.
  change File.max_write with 1536. intros E Hi. destruct (Z.min_spec 1536 (N - i)) as [[H ->]|[H ->]]; [left|right; lia].
  rewrite <-Z.add_mod_idemp_l, E by lia. done.
Qed.

(** a piece that writei refuses: the transaction commits nothing *)
Lemma filewrite_refused s f x n sb view addr N i : let m := Z.min File.max_write (N - i) in
  openf s f x n sb view -> 0 <= i < N -> 0 <= File.f_off x < 2 ^ 32 -> 0 <= cap (blk (File.fss s)) ->
  i_size n < File.f_off x \/ MAXFILE * 512 < File.f_off x + m ->
  wp (File.filewrite_body f addr N i) (fun r s' => r = inr i /\ exists b wk,
    s' = io s f x b n wk /\ openf s' f x n sb view /\ same_store (File.fss s) b) s.
Proof.
  intros m [O1 O2 O3 O4 O5 O6 O7 O8 O9 O10 O11 O12 O13] Hi Hoff Hcap Hc.
  set (off := File.f_off x) in *. destruct s as [[b0 lk ino c wk] fl fs ps km rw kl pw]. cbn in *. subst lk.
  change (File.max_write) with 1536 in *. assert (0 < m <= 1536) as Hm by lia.
  unfold File.filewrite_body. destruct (Z.ltb_spec i N) as [_|]; [|lia]. change File.max_write with 1536.
  assert ((if 1536 <? N - i then 1536 else N - i) = m) as -> by (destruct (Z.ltb_spec 1536 (N - i)); lia).
  wp_step. apply wp_zoom. unfold begin_trans. apply wp_zoom. eapply wp_mono; [by apply bs_begin|]. cbn beta.
  intros _ b1 (HB1 & N1 & C1). cbn [lget lset blk blk_lens File.fss_lens File.fss] in N1, C1. cbn [lset lget blk_lens set_blk File.fss_lens File.fss]. wp_step.
  eapply File.wp_ld_f; [exact O1|]. wp_step. apply wp_zoom. cbn [lget File.fss_lens File.fss].
  eapply (ilock_open b1 ino c wk); try done. cbn [lset File.fss_lens]. wp_step. eapply File.wp_ld_f; [exact O1|]. fold off.
  wp_step. apply wp_zoom. cbn [lget File.fss_lens File.fss]. set (ip := File.f_ip x) in *.
  eapply wp_eq.
  { apply (writei_fail (St b1 false (put ino ip (busy n)) c wk) (busy n) ip (drop (Z.to_nat i) addr)); [by eapply put_at|done|]. cbn [i_size busy set_flags].
    destruct Hc as [Hc|Hc]; [by left|right]. unfold MAXFILE, NDIRECT, NINDIRECT in *. unfold u32. destruct (Z.ltb_spec (off + m) (2 ^ 32)) as [Hlt|Hge].
    - rewrite Z.mod_small by lia. by right.
    - rewrite <-(Z.mod_unique (off + m) (2 ^ 32) 1 (off + m - 2 ^ 32)) by lia. left. lia. }
  cbn [lset File.fss_lens]. wp_step. change (0 <? -1) with false. cbn [when]. wp_step.
  wp_step. eapply File.wp_ld_f; [exact O1|]. wp_step. apply wp_zoom. cbn [lget File.fss_lens File.fss]. fold ip.
  eapply wp_eq; [apply (iunlock_open b1 _ c wk ip n); [by eapply put_at|done|done]|].
  cbn [lset File.fss_lens]. rewrite !put_put. wp_step. apply wp_zoom. unfold commit_trans. apply wp_zoom.
  cbn [lget File.fss_lens File.fss blk_lens blk]. eapply wp_mono; [eapply bs_commit; [exact HB1|rewrite size_empty; cbn in *; lia]|]. cbn beta.
  intros _ b3 (HB3 & N3 & C3). cbn [lget blk blk_lens File.fss_lens File.fss] in N3, C3. cbn [lset blk_lens set_blk File.fss_lens File.fss]. unfold set_blk. cbn [lock inodes cwd wakes].
  change (-1 <? 0) with true. cbn iota. wp_step. split; [done|]. exists b3, (wk ++ [ch_inode ip]). assert (nblk b3 = nblk b0) as En by congruence.
  split; [unfold io; cbn; by rewrite (put_id fs f x O1)|]. split; [|split; cbn; congruence].
  split; cbn [File.files File.fss io lock inodes blk]; try done.
  - by eapply put_at.
  - by rewrite En.
Qed.

Lemma wrote_next s f x n sb view src N F i s' n' view' : let m := Z.min File.max_write (N - i) in
  openf s f x n sb view -> 0 <= File.f_off x <= i_size n -> m = Z.min File.max_write (F - i) -> F <= N -> File.f_off x + F <= MAXFILE * 512 ->
  N <= Z.of_nat (length src) -> bytes_ok src -> 8 <= cap (blk (File.fss s)) ->
  0 <= i < F -> wrote s f x n sb view src i s' n' view' -> need (File.f_off x + i) (F - i) <= Z.of_nat (base.size (frees sb view')) ->
  wp (File.filewrite_body f src N i) (fun r s2 => r = inl (i + m) /\ exists n2 view2,
    wrote s f x n sb view src (i + m) s2 n2 view2 /\
    need (File.f_off x + (i + m)) (F - (i + m)) <= Z.of_nat (base.size (frees sb view2))) s'.
Proof.
  intros m Ho Hoff EF HFN HE HN Hby Hcap Hi (b & wk & Es & Ho' & [Hnb Hc] & Hsz & Hcont) Hfr. cbn zeta in *.
  change File.max_write with 1536 in m, EF. set (x1 := File.set_off (File.f_off x + i) x) in *. assert (0 < m <= 1536) as Hm by lia.
  pose proof (need_step (File.f_off x + i) (F - i) ltac:(lia) ltac:(lia)) as Hn. cbn zeta in Hn. rewrite <-EF in Hn.
  rewrite <-Z.add_assoc, <-Z.sub_add_distr in Hn. pose proof (need_pos (File.f_off x + (i + m)) (F - (i + m)) ltac:(lia)).
  pose proof (filewrite_piece s' f x1 n' sb view' src N i Ho' ltac:(lia) HN Hby) as Hw. cbn zeta in Hw.
  change (File.f_off x1) with (File.f_off x + i) in Hw. change (Z.min File.max_write (N - i)) with m in Hw.
  assert (cap (blk (File.fss s')) = cap (blk (File.fss s))) as Ec by (rewrite Es; exact Hc).
  eapply wp_mono; [apply Hw; rewrite ?Ec; lia|]. cbn beta.
  intros r s2 (-> & b2 & n2 & view2 & wk2 & Es2 & Ho2 & [Hnb2 Hc2] & Hsz2 & Hcont2 & Hfr2). split; [done|].
  exists n2, view2. assert (File.set_off (File.f_off x + i + m) x1 = File.set_off (File.f_off x + (i + m)) x) as Ex.
  { unfold x1. destruct x; cbn. by rewrite Z.add_assoc. }
  rewrite Ex in Es2, Ho2. split; [|lia].
  exists b2, wk2. cbn zeta. split; [rewrite Es2, Es; by apply io_io|]. split; [done|].
  split; [|split; [lia|]].
  - subst s'. split; cbn in *; congruence.
  - pose proof (length_icontent _ _ _ _ _ _ _ _ (of_holds _ _ _ _ _ _ Ho) (of_file _ _ _ _ _ _ Ho)) as Hlen.
    rewrite Hcont2, Hcont. rewrite !Z2Nat.inj_add by lia.
    apply (chunk_list (icontent view n) src (Z.to_nat (File.f_off x)) (Z.to_nat i) (Z.to_nat m)); lia.
Qed.

(** a refused piece keeps what was written before *)
Lemma wrote_refused s f x n sb view src i s1 n' view' b wk : let x' := File.set_off (File.f_off x + i) x in
  wrote s f x n sb view src i s1 n' view' -> openf (io s1 f x' b n' wk) f x' n' sb view' -> same_store (File.fss s1) b ->
  wrote s f x n sb view src i (io s1 f x' b n' wk) n' view'.
Proof.
  intros x' (b1 & wk1 & -> & _ & [Hn1 Hc1] & Hsz & Hcont) Ho [Hn2 Hc2]. exists b, wk. cbn zeta. split; [by apply io_io|]. split; [exact Ho|].
  split; [|done]. cbn in *. split; congruence.
Qed.

Lemma filewrite_runs s f x n sb view src N (F := fit (File.f_off x) N) :
  openf s f x n sb view -> File.f_writable x <> 0 -> 0 <= File.f_off x <= i_size n ->
  0 <= N <= Z.of_nat (length src) -> bytes_ok src -> 8 <= cap (blk (File.fss s)) ->
  need (File.f_off x) F <= Z.of_nat (base.size (frees sb view)) ->
  exists s' n' view', File.filewrite f src N s = Done (Ret (if F =? N then N else -1)) s' /\ wrote s f x n sb view src F s' n' view'.
Proof.
  intros Ho Ew Hoff HN Hby Hcap Hfr. pose proof (of_at _ _ _ _ _ _ Ho) as Hat.
  assert (i_size n <= MAXFILE * 512) as Hmax by apply (if_size _ _ _ _ (of_file _ _ _ _ _ _ Ho)).
  destruct (fit_range (File.f_off x) N ltac:(lia) ltac:(lia)) as [HF HFm]. fold F in HF, HFm.
  enough (wp (File.filewrite f src N) (fun r s' => r = Ret (if F =? N then N else -1) /\ exists n' view', wrote s f x n sb view src F s' n' view') s) as Hw.
  { apply wp_done in Hw as (r & s' & Hrun & -> & n' & view' & H). by exists s', n', view'. }
  unfold File.filewrite. wp_step. eapply File.wp_ld_f; [exact Hat|]. rewrite (proj2 (Z.eqb_neq _ _) Ew), (of_type _ _ _ _ _ _ Ho).
  cbn [Z.eqb File.FD_INODE File.FD_PIPE Pos.eqb]. wp_step.
  apply wp_loop with (mu := fun i => Z.to_nat (N - i)) (Inv := fun i s' => 0 <= i <= F /\ (i mod File.max_write = 0 \/ i = F) /\
    exists n' view', wrote s f x n sb view src i s' n' view' /\ need (File.f_off x + i) (F - i) <= Z.of_nat (base.size (frees sb view'))).
  - split; [lia|]. split; [by left|]. exists n, view. rewrite Z.sub_0_r, Z.add_0_r. split; [by apply wrote_start|done].
  - lia.
  - intros i s' (Hi & Hmod & n' & view' & Hw & Hf). destruct (decide (i < F)) as [Hlt|Hge].
    + destruct Hmod as [Hmod|]; [|lia]. destruct (fit_piece (File.f_off x) N i ltac:(unfold F in *; lia)) as [Em|]; [|done]. fold F in Em.
      eapply wp_mono; [eapply (wrote_next s f x n sb view src N F i s' n' view'); try done; lia|]. cbn beta.
      intros r s2 (-> & n2 & view2 & Hw2 & Hf2). rewrite Em in *. change File.max_write with 1536 in *. split; [|lia]. split; [lia|].
      split; [|by exists n2, view2]. destruct (fit_mod (File.f_off x) N i Hmod ltac:(unfold F in *; lia)) as [H1|H1]; change File.max_write with 1536 in H1; rewrite Em in H1; [by left|right; lia].
    + assert (i = F) as -> by lia. destruct (Z.eqb_spec F N) as [EN|Hne].
      * unfold File.filewrite_body. destruct (Z.ltb_spec F N); [lia|]. wp_step. wp_step. rewrite (proj2 (Z.eqb_eq F N)) by done. split; [done|]. by exists n', view'.
      * pose proof (fit_end (File.f_off x) N ltac:(lia) ltac:(unfold F in *; lia)) as Hend. fold F in Hend.
        pose proof Hw as (b1 & wk1 & Es1 & Ho1 & [_ Hc1] & _ & _). cbn zeta in Ho1.
        eapply wp_mono; [apply (filewrite_refused s' f (File.set_off (File.f_off x + F) x) n' sb view' src N F Ho1); [lia| | |right; exact Hend]|].
        { cbn [File.f_off File.set_off]. unfold MAXFILE, NDIRECT, NINDIRECT in *. lia. }
        { rewrite Es1. cbn in *. lia. }
        cbn beta. intros r s2 (-> & b2 & wk2 & -> & Ho2 & Hss). wp_step. rewrite (proj2 (Z.eqb_neq F N)) by done. split; [done|].
        exists n', view'. by apply wrote_refused.
Qed.

(** C4: filewrite of [N] bytes on a file (no pipe) whose inode is cached and unlocked, outside of a transaction, on a disk whose log
    holds at least eight blocks.  A file not opened for writing gives -1 and is left alone, whatever [N].  A negative
    count gives -1 and 0 gives 0, with nothing changed.  At an offset inside the file, with free blocks on the disk for
    what is written, one transaction is run for each 1536 bytes, each fitting in the log with the blocks of the bitmap, the
    inode and the indirect block: if the bytes fit the maximum file size the result is [N] and the file has them at the
    offset; if not, the result is -1 and the file has the whole pieces of 1536 bytes that fit.  In both cases the offset has
    moved past the bytes written, the inode is unlocked and no transaction is open.  At an offset past the end the result is
    -1 and the file, the offset and the disk's contents are as before. *)
Theorem filewrite_correct s f x n sb view src N (off := File.f_off x) (F := fit off N) :
  openf s f x n sb view -> 0 <= off < 2 ^ 32 -> 8 <= cap (blk (File.fss s)) ->
  if File.f_writable x =? 0 then File.filewrite f src N s = Done (Ret (-1)) s
  else if N <=? 0 then File.filewrite f src N s = Done (Ret (if N =? 0 then 0 else -1)) s
  else if off <=? i_size n then
    N <= Z.of_nat (length src) -> bytes_ok src -> need off F <= Z.of_nat (base.size (frees sb view)) ->
    exists s' n' view', File.filewrite f src N s = Done (Ret (if F =? N then N else -1)) s' /\ wrote s f x n sb view src F s' n' view'
  else exists b wk, File.filewrite f src N s = Done (Ret (-1)) (io s f x b n wk) /\ openf (io s f x b n wk) f x n sb view.
Proof.
  intros Ho Hoff Hcap. pose proof (File.ld_f_eq s f x (of_at _ _ _ _ _ _ Ho)) as Hld.
  destruct (Z.eqb_spec (File.f_writable x) 0) as [Ew|Ew]; [unfold File.filewrite; rewrite (bind_done _ _ _ _ _ Hld); by rewrite Ew|].
  assert (forall Q, wp (i ← loop (S (Z.to_nat N)) (File.filewrite_body f src N) 0; mret (Ret (if i =? N then N else -1))) Q s -> wp (File.filewrite f src N) Q s) as Hrun.
  { intros Q HQ. unfold File.filewrite. wp_step. eapply File.wp_ld_f; [exact (of_at _ _ _ _ _ _ Ho)|]. rewrite (proj2 (Z.eqb_neq _ _) Ew), (of_type _ _ _ _ _ _ Ho). exact HQ. }
  destruct (Z.leb_spec N 0) as [HN|HN].
  - enough (wp (File.filewrite f src N) (fun r s' => r = Ret (if N =? 0 then 0 else -1) /\ s' = s) s) as Hw by (apply wp_done in Hw as (r & s' & E & -> & ->); exact E).
    apply Hrun. replace (Z.to_nat N) with 0%nat by lia. cbn [loop]. wp_step. wp_step. unfold File.filewrite_body. destruct (Z.ltb_spec 0 N); [lia|]. wp_step. wp_step. wp_step.
    rewrite (Z.eqb_sym 0 N). by destruct (Z.eqb_spec N 0) as [->|].
  - destruct (Z.leb_spec off (i_size n)) as [Hin|Hpast].
    + intros Hsrc Hby Hfr. apply filewrite_runs; try done; lia.
    + enough (wp (File.filewrite f src N) (fun r s' => r = Ret (-1) /\ exists b wk, s' = io s f x b n wk /\ openf s' f x n sb view) s) as Hw.
      { apply wp_done in Hw as (r & s' & E & -> & b & wk & -> & Ho'). by exists b, wk. }
      apply Hrun. cbn [loop]. wp_step. wp_step. eapply wp_mono; [apply (filewrite_refused s f x n sb view src N 0 Ho); [lia|done|lia|by left]|]. cbn beta.
      intros r s' (-> & b & wk & -> & Ho' & _). wp_step. wp_step. destruct (Z.eqb_spec 0 N); [lia|]. split; [done|]. by exists b, wk.
Qed.

(** fileread of an open file *)
Lemma fileread_spec s f x n sb view addr N : openf s f x n sb view -> File.f_readable x <> 0 ->
  0 <= File.f_off x < 2 ^ 32 -> 0 <= N <= Z.of_nat (length addr) -> N < 2 ^ 31 ->
  let r := readi_result (icontent view n) (File.f_off x) N in
  let x' := if 0 <? r.1 then File.set_off (u32 (File.f_off x + r.1)) x else x in
  exists b wk, File.fileread f addr N s = Done (Ret r.1, blit addr 0 r.2) (io s f x' b n wk) /\
    openf (io s f x' b n wk) f x' n sb view /\ same_store (File.fss s) b.
Proof.
  intros Ho Hrd Hoff HN HN' r x'.
  pose proof (length_icontent _ _ _ _ _ _ _ _ (of_holds _ _ _ _ _ _ Ho) (of_file _ _ _ _ _ _ Ho)) as Hlen.
  destruct Ho as [O1 O2 O3 O4 O5 O6 O7 O8 O9 O10 O11 O12 O13].
  destruct s as [[b0 lk ino c wk] fl fs ps km rw kl pw]. cbn in *. subst lk. set (ip := File.f_ip x) in *.
  set (s := File.St _ _ _ _ _ _ _ _).
  enough (wp (File.fileread f addr N) (fun v s' => v = (Ret r.1, blit addr 0 r.2) /\ exists b wk', s' = io s f x' b n wk' /\
    holds false b ∅ ∅ view ∅ /\ nblk b = nblk b0 /\ cap b = cap b0) s) as Hw.
  { apply wp_done in Hw as (v & s' & Hrun & -> & b & wk' & -> & HB & Hnb & Hcap). exists b, wk'. split; [exact Hrun|].
    assert (File.f_ip x' = ip /\ File.f_type x' = File.FD_INODE) as [Ei Et] by (unfold x'; by destruct (0 <? r.1)).
    split; [|by split]. split; cbn [File.files File.fss io lock inodes blk s]; try done.
    + by eapply put_at. + rewrite Ei. by eapply put_at. + by rewrite Hnb. }
  unfold File.fileread. wp_step. eapply File.wp_ld_f; [exact O1|].
  rewrite (proj2 (Z.eqb_neq _ _) Hrd), O2. cbn [Z.eqb File.FD_INODE File.FD_PIPE Pos.eqb].
  wp_step. apply wp_zoom. cbn [lget File.fss_lens File.fss s]. eapply (ilock_open b0 ino c wk); try done.
  cbn [lset File.fss_lens]. wp_step. eapply File.wp_ld_f; [exact O1|]. wp_step. apply wp_zoom. cbn [lget File.fss_lens File.fss].
  fold ip. rewrite (u32_id N) by lia. eapply wp_mono.
  { apply (readi_spec false (St b0 false (put ino ip (busy n)) c wk) view ∅ sb (busy n) ip (File.f_off x) N);
      [done|by apply ifile_flags|by eapply put_at|done|rewrite size_empty; lia|done|lia]. }
  cbn beta. intros v s1 (-> & b1 & -> & HB1 & [N1 C1]). change (icontent view (busy n)) with (icontent view n). fold r.
  cbn [lset File.fss_lens]. wp_step. eapply wp_deref; [apply splice_in; [lia|]|].
  { unfold r, readi_result. destruct (_ || _) eqn:E; cbn [snd length]; [lia|].
    apply orb_false_iff in E as [E1%Z.ltb_ge E2]. rewrite length_sub by lia. lia. }
  change (Z.to_nat 0) with 0%nat. wp_step.
  match goal with |- wp _ ?Q ?t => enough (wp (when (0 <? r.1) (File.up_f f (fun x => File.set_off (u32 (File.f_off x + r.1)) x)))
     (fun _ s' => s' = File.set_files (put fs f x') t) t) as Hup end.
  { eapply wp_mono; [exact Hup|]. cbn beta. intros _ s2 ->. cbn [File.set_files]. wp_step. eapply File.wp_ld_f; [by eapply put_at|].
    assert (File.f_ip x' = ip) as -> by (unfold x'; by destruct (0 <? r.1)). wp_step. apply wp_zoom.
    cbn [lget File.fss_lens File.fss File.set_files set_blk blk lock inodes cwd wakes].
    eapply wp_eq; [apply (iunlock_open b1 _ c wk ip n); [by eapply put_at|done|done]|]. cbn [lset File.fss_lens]. wp_step.
    split; [done|]. exists b1, (wk ++ [ch_inode ip]). split; [|done].
    unfold io, s. cbn. rewrite put_put. by assert (File.f_ip x' = ip) as -> by (unfold x'; by destruct (0 <? r.1)). }
  unfold x'. destruct (0 <? r.1) eqn:E; cbn [when].
  - by eapply File.wp_up_f.
  - wp_step. by rewrite (put_id _ _ _ O1).
Qed.


(** a second open file on the inode that was written *)
Lemma wrote_other s f x n sb view src N s' n' view' g y : wrote s f x n sb view src N s' n' view' ->
  f <> g -> 0 <= f -> at_ (File.files s) g = Some y -> File.f_type y = File.FD_INODE -> File.f_ip y = File.f_ip x ->
  openf s' g y n' sb view'.
Proof.
  intros (b & wk & -> & [O1 O2 O3 O4 O5 O6 O7 O8 O9 O10 O11 O12 O13] & _) Hne Hf Hg Ht Hip.
  split; try done.
  - cbn. by rewrite at_put_ne.
  - by rewrite Hip.
Qed.

(** C32: what is written through one open file is what is read
    back through another one open on the same inode at the same offset: the
    read returns the count and the bytes, over however many blocks and
    transactions the write went. *)
Theorem file_write_read s f g x y n sb view src N dst :
  openf s f x n sb view -> File.f_writable x <> 0 -> f <> g -> at_ (File.files s) g = Some y ->
  File.f_type y = File.FD_INODE -> File.f_readable y <> 0 -> File.f_ip y = File.f_ip x -> File.f_off y = File.f_off x ->
  0 <= File.f_off x <= i_size n -> File.f_off x + N <= MAXFILE * 512 ->
  0 <= N <= Z.of_nat (length src) -> N <= Z.of_nat (length dst) -> bytes_ok src -> 8 <= cap (blk (File.fss s)) ->
  need (File.f_off x) N <= Z.of_nat (base.size (frees sb view)) ->
  exists s1 s2, File.filewrite f src N s = Done (Ret N) s1 /\
    File.fileread g dst N s1 = Done (Ret N, take (Z.to_nat N) src ++ drop (Z.to_nat N) dst) s2.
Proof.
  intros Ho Hw Hne Hg Ht Hr Hip Hoffy Hoff HE HN HNd Hby Hcap Hfr.
  assert (fit (File.f_off x) N = N) as EF by (unfold fit; destruct (Z.leb_spec (File.f_off x + N) (MAXFILE * 512)); [done|lia]).
  destruct (filewrite_runs s f x n sb view src N Ho Hw Hoff HN Hby Hcap ltac:(by rewrite EF)) as (s1 & n' & view' & Hrun & Hwr).
  rewrite EF, Z.eqb_refl in Hrun. rewrite EF in Hwr.
  pose proof (at_range _ _ _ (of_at _ _ _ _ _ _ Ho)) as Hf. unfold MAXFILE, NDIRECT, NINDIRECT in HE.
  pose proof (wrote_other _ _ _ _ _ _ _ _ _ _ _ g y Hwr Hne ltac:(lia) Hg Ht Hip) as Ho'.
  destruct (fileread_spec s1 g y n' sb view' dst N Ho' Hr) as (b & wk & Hrd & _ & _); [lia|lia|lia|].
  exists s1, (io s1 g (if 0 <? (readi_result (icontent view' n') (File.f_off y) N).1
    then File.set_off (u32 (File.f_off y + (readi_result (icontent view' n') (File.f_off y) N).1)) y else y) b n' wk).
  split; [done|]. rewrite Hrd. f_equal.
  pose proof (length_icontent _ _ _ _ _ _ _ _ (of_holds _ _ _ _ _ _ Ho) (of_file _ _ _ _ _ _ Ho)) as Hlen.
  destruct Hwr as (_ & _ & _ & _ & _ & _ & Hc). set (off := File.f_off x) in *. rewrite Hoffy.
  assert (length (take (Z.to_nat off) (icontent view n)) = Z.to_nat off) as Ht1 by (rewrite length_take; lia).
  assert (length (take (Z.to_nat N) src) = Z.to_nat N) as Ht2 by (rewrite length_take; lia).
  assert (readi_result (icontent view' n') off N = (N, take (Z.to_nat N) src)) as ->.
  { unfold readi_result. rewrite u32_id by lia.
    assert (off + N <= Z.of_nat (length (icontent view' n'))) by (rewrite Hc, !length_app, Ht1, Ht2; lia).
    destruct (Z.ltb_spec (Z.of_nat (length (icontent view' n'))) off); [lia|]. destruct (Z.ltb_spec (off + N) off); [lia|].
    cbn [orb]. rewrite Z.min_l by lia. f_equal. rewrite Hc. unfold sub. rewrite drop_app_length' by done.
    by rewrite take_app_length'. }
  cbn [fst snd]. f_equal. unfold blit. rewrite Ht2. by rewrite take_0.
Qed.

End io.

(** ** On the example disk: files 0 and 1 open on "hello" at offset 2 *)
Import Store.
Import FsSpec.
Definition demo_open : inode := set_flags I_VALID demo_file.
Definition demo_fs : st Log.st :=
  St (Store.with_busy 0 (Store.boot_log demo_disk 12 11 23)) false ([demo_dir; demo_open] ++ replicate 48 free_inode) 0 [].
Definition demo_w : File.file := File.MkFile File.FD_INODE 1 0 1 0 1 2.
Definition demo_r : File.file := File.MkFile File.FD_INODE 1 1 0 0 1 2.
Definition demo_io : File.st Log.st :=
  File.St demo_fs false ([demo_w; demo_r] ++ replicate 98 File.no_file) ∅ Buddy.Buddy.demo (fun _ => []) 0 [].
Lemma demo_io_idle : holds false (blk (File.fss demo_io)) ∅ ∅ demo_view ∅.
Proof.
  destruct demo_disk_ok as [H1 H2].
  refine (Store.boot_holds demo_disk 12 11 23 false H1 H2 _ eq_refl _ _ _); [lia|lia|lia|].
  split; [vm_compute; reflexivity|]. split; [apply sub_bytes, H2|]. split; [vm_compute; reflexivity|].
  intros i v Hi. by rewrite lookup_nil in Hi.
Qed.
Lemma demo_openf : openf demo_io 0 demo_w demo_open demo_sb demo_view.
Proof.
  split; try reflexivity.
  - discriminate.
  - exact demo_io_idle.
  - apply ifile_flags. exact demo_ifile.
  - split; vm_compute; [discriminate|reflexivity].
  - apply fields_flags, demo_fields.
Qed.
Lemma demo_io_bytes : bytes_ok [76; 80; 33; 33].
Proof. apply (bool_decide_unpack _). vm_compute. exact I. Qed.
Lemma demo_need : need 2 4 <= Z.of_nat (base.size (frees demo_sb demo_view)).
Proof.
  change (need 2 4) with 4. assert ({[6; 7; 8; 9]} ⊆ frees demo_sb demo_view) as Hs.
  { intros x Hx. apply elem_of_frees. assert (x = 6 \/ x = 7 \/ x = 8 \/ x = 9) as [->|[->|[->| ->]]] by set_solver;
      (split; [cbn; lia|vm_compute; reflexivity]). }
  apply subseteq_size in Hs. assert (base.size ({[6; 7; 8; 9]} : gset Z) = 4%nat) as E by reflexivity. lia.
Qed.
Lemma filewrite_correct_witness :
  (exists s' n' view', File.filewrite 0 [76; 80; 33; 33] 4 demo_io = Done (Ret 4) s' /\
    icontent view' n' = [104; 101; 76; 80; 33; 33]) /\
  File.filewrite 0 [] (-5) demo_io = Done (Ret (-1)) demo_io.
Proof.
  split.
  - destruct (filewrite_correct demo_io 0 demo_w demo_open demo_sb demo_view [76; 80; 33; 33] 4 demo_openf
      ltac:(cbn; lia) ltac:(vm_compute; discriminate) ltac:(cbn; lia) demo_io_bytes demo_need) as (s' & n' & view' & Hrun & (b & wk & _ & _ & _ & _ & Hc)).
    exists s', n', view'. split; [exact Hrun|]. rewrite Hc. change (icontent demo_view demo_open) with (icontent demo_view demo_file).
    rewrite demo_content. vm_compute. reflexivity.
  - exact (filewrite_correct demo_io 0 demo_w demo_open demo_sb demo_view [] (-5) demo_openf ltac:(cbn; lia) ltac:(vm_compute; discriminate)).
Defined.
Lemma file_write_read_witness :
  exists s1 s2, File.filewrite 0 [76; 80; 33; 33] 4 demo_io = Done (Ret 4) s1 /\
    File.fileread 1 [0; 0; 0; 0; 9] 4 s1 = Done (Ret 4, [76; 80; 33; 33; 9]) s2.
Proof.
  exact (file_write_read demo_io 0 1 demo_w demo_r demo_open demo_sb demo_view [76; 80; 33; 33] 4 [0; 0; 0; 0; 9] demo_openf
    ltac:(discriminate) ltac:(discriminate) eq_refl eq_refl ltac:(discriminate) eq_refl eq_refl
    ltac:(cbn; lia) ltac:(unfold MAXFILE, NDIRECT, NINDIRECT; cbn; lia) ltac:(cbn; lia) ltac:(cbn; lia) demo_io_bytes
    ltac:(vm_compute; discriminate) demo_need).
Defined.

End FileIO.
