(* ===== verification/Syscall.v ===== *)
(** * System calls (src/src/syscall.c and src/src/sysproc.c)

    [uctx] is what a system call sees of its caller: the size of its memory,
    the bytes it can reach there (from address 0 on, through its own page
    table) and the registers saved in its trap frame.  A fetch that fails
    gives [None], the -1 of the source; one that succeeds gives the value the
    source stores through its pointer argument. *)

From S2P Require Import Prelude.
From S2P Require Import Bytes.
From S2P Require Import Spin.
From S2P Require Import Proc.

Module Syscall.

Record uctx := UCtx {
  usz : Z;          (* proc->sz *)
  umem : list Z;    (* the bytes at user addresses 0, 1, ... *)
  regs : list Z;    (* proc->tf: r0 to r30, sp, elr, spsr *)
}.

(** a long at a user address *)
Definition uld64 (a : Z) : M uctx Z := deref (fun u =>
  if (0 <=? a) && (a + 8 <=? Z.of_nat (length (umem u))) then Some (s64 (of_le (sub (umem u) (Z.to_nat a) 8))) else None).
Definition uld8 (a : Z) : M uctx Z := deref (fun u => at_ (umem u) a).

Definition fetchint (addr : Z) : M uctx (option Z) :=
  sz ← gets usz;
  if (sz <=? addr) || (sz <? u64 (addr + 8)) then mret None else
  v ← uld64 addr;
  mret (Some v).

(** one round of fetchstr's loop: the length once a nul is found *)
Definition fetchstr_body (ep addr s : Z) : M uctx (Z + option Z) :=
  if s <? ep then
    c ← uld8 s;
    if c =? 0 then mret (inr (Some (s - addr))) else mret (inl (s + 1))
  else mret (inr None).
(** the pointer and the length *)
Definition fetchstr (addr : Z) : M uctx (option (Z * Z)) :=
  sz ← gets usz;
  if sz <=? addr then mret None else
  r ← loop (S (Z.to_nat (sz - addr))) (fetchstr_body sz addr) addr;
  mret (match r with Some n => Some (addr, s32 n) | None => None end).

(** argint always succeeds or panics *)
Definition argint (n : Z) : M uctx Z :=
  panic_if (3 <? n) "too many system call parameters" ;;
  v ← deref (fun u => at_ (regs u) (1 + n));
  mret (s64 v).

Definition argptr (n size : Z) : M uctx (option Z) :=
  i ← argint n;
  sz ← gets usz;
  if (sz <=? u64 i) || (sz <? u64 (u64 i + size)) then mret None else mret (Some (u64 i)).

Definition argstr (n : Z) : M uctx (option (Z * Z)) :=
  addr ← argint n;
  fetchstr (u64 addr).

(** ** The dispatcher *)

Definition SYS_fork : Z := 1.
Definition SYS_exit : Z := 2.
Definition SYS_wait : Z := 3.
Definition SYS_pipe : Z := 4.
Definition SYS_read : Z := 5.
Definition SYS_kill : Z := 6.
Definition SYS_exec : Z := 7.
Definition SYS_fstat : Z := 8.
Definition SYS_chdir : Z := 9.
Definition SYS_dup : Z := 10.
Definition SYS_getpid : Z := 11.
Definition SYS_sbrk : Z := 12.
Definition SYS_sleep : Z := 13.
Definition SYS_uptime : Z := 14.
Definition SYS_open : Z := 15.
Definition SYS_write : Z := 16.
Definition SYS_mknod : Z := 17.
Definition SYS_unlink : Z := 18.
Definition SYS_link : Z := 19.
Definition SYS_mkdir : Z := 20.
Definition SYS_close : Z := 21.

(** a table indexed by the numbers: the designated initialisers of syscalls[] *)
Definition table {A} (l : list (Z * A)) : list (option A) :=
  (fun i => snd <$> find (fun e => e.1 =? i) l) <$> seqZ 0 (1 + foldr (fun e m => Z.max e.1 m) 0 l).

(** syscalls[], over the handlers *)
Section syscalls.
Context {H : Type} (sys_fork sys_exit sys_wait sys_pipe sys_read sys_kill sys_exec sys_fstat sys_chdir sys_dup sys_getpid
  sys_sbrk sys_sleep sys_uptime sys_open sys_write sys_mknod sys_unlink sys_link sys_mkdir sys_close : H).
Definition syscalls : list (option H) := table [
  (SYS_fork, sys_fork); (SYS_exit, sys_exit); (SYS_wait, sys_wait); (SYS_pipe, sys_pipe); (SYS_read, sys_read);
  (SYS_kill, sys_kill); (SYS_exec, sys_exec); (SYS_fstat, sys_fstat); (SYS_chdir, sys_chdir); (SYS_dup, sys_dup);
  (SYS_getpid, sys_getpid); (SYS_sbrk, sys_sbrk); (SYS_sleep, sys_sleep); (SYS_uptime, sys_uptime); (SYS_open, sys_open);
  (SYS_write, sys_write); (SYS_mknod, sys_mknod); (SYS_unlink, sys_unlink); (SYS_link, sys_link); (SYS_mkdir, sys_mkdir);
  (SYS_close, sys_close)].
End syscalls.

Section dispatch.
Context {S : Type} (ux : lens S uctx) (syscalls : list (option (M S Z))).

Definition set_reg (i v : Z) : M S unit := zoom ux (
  deref (fun u => at_ (regs u) i) ;;
  modify (fun u => UCtx (usz u) (umem u) (put (regs u) i v))).

(** the handler's address is read past the table when [num] is NELEM(syscalls) *)
Definition syscall : M S unit :=
  r0 ← zoom ux (deref (fun u => at_ (regs u) 0));
  let num := s32 r0 in
  h ← (if (0 <? num) && (num <=? Z.of_nat (length syscalls)) then deref (fun _ => at_ syscalls num) else mret None);
  match h with
  | Some f =>
      ret ← f;
      when (negb (num =? SYS_exec)) (set_reg 0 (u64 ret))
  | None => set_reg 0 (u64 (-1))
  end.
End dispatch.

(** ** sysproc.c *)

Section sysproc.
Context {E : Type} {PE : Proc.ProcEnv E} (sym : Proc.symbols).
(** tickslock and ticks (src/src/device/timer.c) *)
Context (tickslock : lens E Spin.spinlock) (ticks : E -> Z).

Record st := St { ps : Proc.st (E := E); ux : uctx }.
Definition ps_lens : lens st (Proc.st (E := E)) := Lens ps (fun p s => St p (ux s)).
Definition ux_lens : lens st uctx := Lens ux (fun u s => St (ps s) u).
Definition tick_lens : lens (Proc.st (E := E)) Spin.spinlock :=
  Lens (fun p => lget tickslock (Proc.env p)) (fun k p => Proc.set_env (lset tickslock k (Proc.env p)) p).
Definition ch_ticks : chan := Chan "ticks" 0.

Definition sys_fork : M st Z := zoom ps_lens (Proc.fork sym).
Definition sys_exit : M st Z := zoom ps_lens Proc.exit_ ;; mret 0.  (* not reached *)
Definition sys_wait : M st Z := zoom ps_lens Proc.wait.
Definition sys_kill : M st Z :=
  pid ← zoom ux_lens (argint 0);
  zoom ps_lens (Proc.kill (s32 pid)).
Definition sys_getpid : M st Z := zoom ps_lens (
  i ← Proc.self; p ← Proc.slot i; mret (Proc.pid p)).
Definition sys_sbrk : M st Z :=
  n ← zoom ux_lens (argint 0);
  addr ← zoom ps_lens (i ← Proc.self; p ← Proc.slot i; mret (Proc.sz p));
  r ← zoom ps_lens (Proc.growproc (s32 n));
  mret (if r <? 0 then -1 else s32 addr).

(** the loop of sys_sleep, from a test of its condition to its return or to
    the sleep; after the sleep [sys_sleep_resume] tests it again *)
Definition sys_sleep_pass (ticks0 n : Z) : M (Proc.st (E := E)) Z :=
  t ← gets (fun p => ticks (Proc.env p));
  if u32 (t - ticks0) <? n then
    i ← Proc.self; p ← Proc.slot i;
    if negb (Proc.killed p =? 0) then Spin.release Proc.cpu_lens tick_lens 0 ;; mret (-1)
    else Proc.sleep (Some ch_ticks) (Proc.OtherLock tick_lens)
  else Spin.release Proc.cpu_lens tick_lens 0 ;; mret 0.
Definition sys_sleep : M st Z :=
  n ← zoom ux_lens (argint 0);
  zoom ps_lens (
    Spin.acquire Proc.cpu_lens tick_lens 0 ;;
    ticks0 ← gets (fun p => ticks (Proc.env p));
    sys_sleep_pass ticks0 n).
Definition sys_sleep_resume (intena ticks0 n : Z) : M (Proc.st (E := E)) Z :=
  Proc.sleep_resume (Proc.OtherLock tick_lens) intena ;;
  sys_sleep_pass ticks0 n.

Definition sys_uptime : M st Z := zoom ps_lens (
  Spin.acquire Proc.cpu_lens tick_lens 0 ;;
  xticks ← gets (fun p => ticks (Proc.env p));
  Spin.release Proc.cpu_lens tick_lens 0 ;;
  mret (s32 xticks)).
End sysproc.

(** ** Arguments *)

(** A caller whose memory is mapped up to its size, with its registers. *)
Record uctx_ok (u : uctx) : Prop := {
  uo_sz : 0 <= usz u <= Z.of_nat (length (umem u));
  uo_max : usz u < 2 ^ 31;
  uo_regs : length (regs u) = 34%nat;
  uo_reg : Forall (fun r => 0 <= r < 2 ^ 64) (regs u);
}.
Lemma argint_spec n u : uctx_ok u -> 0 <= n <= 3 ->
  exists r, at_ (regs u) (1 + n) = Some r /\ 0 <= r < 2 ^ 64 /\ argint n u = Done (s64 r) u.
Proof.
  intros [_ _ Hr Hb] Hn. destruct (at_is_Some (regs u) (1 + n)) as [r Hat]; [rewrite Hr; lia|]. exists r. split; [done|]. split.
  - unfold at_ in Hat. destruct (0 <=? 1 + n); [|done]. by eapply (Forall_lookup_1 _ _ _ _ Hb).
  - unfold argint. rewrite (bind_done _ _ u tt u) by (unfold panic_if; destruct (Z.ltb_spec 3 n); [lia|done]).
    by rewrite (bind_done _ _ u r u) by (unfold deref; by rewrite Hat).
Qed.
Lemma u64_s64 r : 0 <= r < 2 ^ 64 -> u64 (s64 r) = r.
Proof.
  intros Hr. unfold u64, s64. rewrite Zminus_mod_idemp_l. replace (r + 2 ^ 63 - 2 ^ 63) with r by lia. by apply Z.mod_small.
Qed.

(** C38: for a process of less than 2^31 bytes, argptr with any int as the size succeeds exactly when the register's value
    [r] is an address of the process and [r + size] lies between 0 and its size, both included, and then gives [r].  So
    with a size of at least 0 the whole block lies inside the caller's memory and no pointer whose block leaves the process
    is let through, however large the register's value and however the sum wraps around in 64 bits.  A negative size, which
    sys_read and sys_write pass on unchecked, is accepted if the sum does not wrap below 0: there the test says nothing about
    the bytes from [r] on but the first. *)
Theorem argptr_correct n size u : uctx_ok u -> 0 <= n <= 3 -> - 2 ^ 31 <= size < 2 ^ 31 ->
  exists r, at_ (regs u) (1 + n) = Some r /\
    argptr n size u = Done (if (r <? usz u) && (0 <=? r + size) && (r + size <=? usz u) then Some r else None) u.
Proof.
  intros Hok Hn Hs. destruct (argint_spec n u Hok Hn) as (r & Hat & Hr & Hrun). exists r. split; [done|].
  destruct Hok as [Hsz Hmax _ _]. unfold argptr. rewrite (bind_done _ _ _ _ _ Hrun). rewrite (bind_done _ _ u (usz u) u) by done.
  rewrite u64_s64 by done. destruct (Z.leb_spec (usz u) r), (Z.ltb_spec r (usz u)); try lia; cbn [orb andb]; [done|].
  unfold u64. destruct (Z.leb_spec 0 (r + size)) as [Hge|Hneg]; cbn [andb].
  - rewrite (Z.mod_small (r + size)) by lia. destruct (Z.ltb_spec (usz u) (r + size)), (Z.leb_spec (r + size) (usz u)); done || lia.
  - rewrite <-(Z.mod_unique (r + size) (2 ^ 64) (-1) (r + size + 2 ^ 64)) by lia.
    destruct (Z.ltb_spec (usz u) (r + size + 2 ^ 64)); [done|lia].
Qed.

(** what a caller of argptr relies on *)
Lemma argptr_runs n size u : uctx_ok u -> 0 <= n <= 3 -> 0 <= size < 2 ^ 31 -> exists o, argptr n size u = Done o u /\
  match o with Some p => 0 <= p /\ p + size <= usz u | None => True end.
Proof.
  intros Hok Hn Hs. destruct (argint_spec n u Hok Hn) as (r & _ & Hr & Hrun). destruct Hok as [Hsz Hmax _ _].
  unfold argptr. rewrite (bind_done _ _ _ _ _ Hrun), (bind_done _ _ u (usz u) u), u64_s64 by done.
  exists (if (usz u <=? r) || (usz u <? u64 (r + size)) then None else Some r). split; [by destruct (_ || _)|].
  destruct (Z.leb_spec (usz u) r); cbn [orb]; [done|]. unfold u64. rewrite (Z.mod_small (r + size)) by lia.
  destruct (Z.ltb_spec (usz u) (r + size)); [done|]. lia.
Qed.

(** the length of the C string at an address, within the first [sz] bytes *)
Definition cstr_len (m : list Z) (sz a : Z) : option Z :=
  match list_find (fun c => c = 0) (sub m (Z.to_nat a) (Z.to_nat (sz - a))) with
  | Some (k, _) => Some (Z.of_nat k)
  | None => None
  end.

(** the bytes from an address to the end of the process *)
Lemma tail_at (m : list Z) sz a k : 0 <= a -> sz <= Z.of_nat (length m) -> 0 <= k < sz - a ->
  at_ m (a + k) = sub m (Z.to_nat a) (Z.to_nat (sz - a)) !! Z.to_nat k.
Proof.
  intros Ha Hsz Hk. unfold at_. destruct (Z.leb_spec 0 (a + k)); [|lia]. rewrite lookup_sub by lia. f_equal. lia.
Qed.

Lemma fetchstr_spec addr u : uctx_ok u -> 0 <= addr ->
  fetchstr addr u = Done (if usz u <=? addr then None else
    match cstr_len (umem u) (usz u) addr with Some n => Some (addr, n) | None => None end) u.
Proof.
  intros [Hsz Hmax _ _] Ha. unfold fetchstr. rewrite (bind_done _ _ u (usz u) u) by done.
  destruct (Z.leb_spec (usz u) addr) as [|Hlt]; [done|].
  set (x := sub (umem u) (Z.to_nat addr) (Z.to_nat (usz u - addr))).
  assert (length x = Z.to_nat (usz u - addr)) as Hx by (apply length_sub; lia).
  assert (forall k, 0 <= k < usz u - addr -> at_ (umem u) (addr + k) = x !! Z.to_nat k) as Hxk by (intros; apply tail_at; lia).
  enough (wp (loop (S (Z.to_nat (usz u - addr))) (fetchstr_body (usz u) addr) addr)
    (fun r u' => u' = u /\ r = match list_find (fun c => c = 0) x with Some (k, _) => Some (Z.of_nat k) | None => None end) u) as Hw.
  { apply wp_done in Hw as (r & u' & Hrun & -> & ->). rewrite (bind_done _ _ _ _ _ Hrun). unfold cstr_len. fold x.
    destruct (list_find _ x) as [[k c]|] eqn:E; [|done]. apply list_find_Some in E as (E & _). apply lookup_lt_Some in E.
    unfold s32. rewrite Z.mod_small by lia. do 3 f_equal. lia. }
  apply wp_loop with (mu := fun s => Z.to_nat (usz u - s)) (Inv := fun s u' => u' = u /\ addr <= s <= usz u /\
    forall k c, (k < Z.to_nat (s - addr))%nat -> x !! k = Some c -> c <> 0).
  - split; [done|]. split; [lia|]. intros k c Hk. lia.
  - lia.
  - intros s u' (-> & Hs & Hno). unfold fetchstr_body. destruct (Z.ltb_spec s (usz u)) as [Hlt'|Hge].
    + destruct (lookup_lt_is_Some_2 x (Z.to_nat (s - addr))) as [c Hc]; [lia|]. wp_step. unfold uld8. eapply wp_deref.
      { replace s with (addr + (s - addr)) by lia. rewrite Hxk by lia. exact Hc. }
      destruct (Z.eqb_spec c 0) as [->|Hc0].
      * wp_step. split; [done|]. assert (list_find (fun c => c = 0) x = Some (Z.to_nat (s - addr), 0)) as ->.
        { apply list_find_Some. split; [done|]. split; [done|]. intros j y Hj Hlt2. by eapply Hno. }
        f_equal. lia.
      * wp_step. split; [|lia]. split; [done|]. split; [lia|]. intros k c' Hk Hc'.
        destruct (decide (k = Z.to_nat (s - addr))) as [->|]; [congruence|]. apply (Hno k c'); [lia|done].
    + wp_step. split; [done|]. assert (list_find (fun c => c = 0) x = None) as ->; [|done].
      apply list_find_None, Forall_lookup. intros k c Hk. apply (Hno k c); [|done]. apply lookup_lt_Some in Hk. lia.
Qed.

(** C39: argstr gives the pointer and the length of the string at
    it exactly when a nul ends it inside the caller's memory: the bytes before
    the nul are not zero and all lie below the process's size.  The scan never
    leaves the process and always stops. *)
Theorem argstr_correct n u : uctx_ok u -> 0 <= n <= 3 ->
  exists p o, at_ (regs u) (1 + n) = Some p /\ argstr n u = Done o u /\
    match o with
    | Some (q, len) => q = p /\ 0 <= len /\ p + len < usz u /\ at_ (umem u) (p + len) = Some 0 /\
        forall k, 0 <= k < len -> exists c, at_ (umem u) (p + k) = Some c /\ c <> 0
    | None => forall k, p <= k < usz u -> at_ (umem u) k <> Some 0
    end.
Proof.
  intros Hok Hn. destruct (argint_spec n u Hok Hn) as (r & Hat & Hr & Hrun). pose proof Hok as [Hsz Hmax _ _].
  exists r. unfold argstr. rewrite (bind_done _ _ _ _ _ Hrun), u64_s64, fetchstr_spec by (done || lia).
  eexists. split; [done|]. split; [reflexivity|]. destruct (Z.leb_spec (usz u) r) as [|Hlt]; [intros k Hk; lia|].
  unfold cstr_len. set (x := sub (umem u) (Z.to_nat r) (Z.to_nat (usz u - r))).
  assert (length x = Z.to_nat (usz u - r)) as Hx by (apply length_sub; lia).
  assert (forall k, 0 <= k < usz u - r -> at_ (umem u) (r + k) = x !! Z.to_nat k) as Hxk by (intros; apply tail_at; lia).
  destruct (list_find (fun c => c = 0) x) as [[k c]|] eqn:E.
  - apply list_find_Some in E as (E & -> & Hno). pose proof (lookup_lt_Some _ _ _ E).
    split; [done|]. split; [lia|]. split; [lia|]. split; [rewrite Hxk, Nat2Z.id by lia; done|].
    intros j Hj. destruct (lookup_lt_is_Some_2 x (Z.to_nat j)) as [c Hc]; [lia|]. exists c. rewrite Hxk by lia.
    split; [done|]. eapply Hno; [exact Hc|lia].
  - apply list_find_None in E. intros k Hk H0. rewrite Forall_lookup in E.
    replace k with (r + (k - r)) in H0 by lia. rewrite Hxk in H0 by lia. by apply (E _ _ H0).
Qed.

(** ** Dispatch *)

Section calls.
Context {S : Type} (ux : lens S uctx) (h : Z -> M S Z).
(** syscalls[], every entry the handler of its number *)
Definition the_syscalls : list (option (M S Z)) :=
  syscalls (h 1) (h 2) (h 3) (h 4) (h 5) (h 6) (h 7) (h 8) (h 9) (h 10) (h 11) (h 12) (h 13) (h 14) (h 15) (h 16) (h 17)
    (h 18) (h 19) (h 20) (h 21).
Lemma the_syscalls_at num : 1 <= num <= 21 -> at_ the_syscalls num = Some (Some (h num)).
Proof.
  intros Hn. assert (the_syscalls = None :: ((fun i => Some (h i)) <$> seqZ 1 21)) as -> by reflexivity.
  unfold at_. destruct (Z.leb_spec 0 num); [|lia]. destruct (Z.to_nat num) as [|k] eqn:E; [lia|]. 
  change ((None :: ((fun i => Some (h i)) <$> seqZ 1 21)) !! Datatypes.S k) with (((fun i => Some (h i)) <$> seqZ 1 21) !! k).
  rewrite list_lookup_fmap, lookup_seqZ_lt by lia. cbn. do 3 f_equal. lia.
Qed.

(** system call number [num], the low 32 bits of r0 read as
    an int, runs the handler of that number and no other, and its result goes
    to r0 except for exec; a number the table does not have gives -1 in r0 and
    runs nothing, but for NELEM(syscalls) itself, which the guard lets through
    and which reads past the table. *)
Theorem syscall_dispatch s r0 : at_ (regs (lget ux s)) 0 = Some r0 -> (forall x, lset ux (lget ux x) x = x) ->
  let num := s32 r0 in
  syscall ux the_syscalls s =
    if (1 <=? num) && (num <=? 21) then (ret ← h num; when (negb (num =? SYS_exec)) (set_reg ux 0 (u64 ret))) s
    else if num =? 22 then Undef
    else set_reg ux 0 (u64 (-1)) s.
Proof.
  intros Hr Hlens num. unfold syscall.
  assert (zoom ux (deref (fun u => at_ (regs u) 0)) s = Done r0 s) as Hld.
  { unfold zoom, deref. by rewrite Hr, Hlens. }
  rewrite (bind_done _ _ _ _ _ Hld). fold num. change (Z.of_nat (length the_syscalls)) with 22.
  destruct (Z.leb_spec 1 num) as [H1|H1]; cbn [andb].
  - destruct (Z.leb_spec num 21) as [H2|H2].
    + destruct (Z.ltb_spec 0 num); [|lia]. destruct (Z.leb_spec num 22); [|lia]. cbn [andb].
      rewrite (bind_done _ _ s (Some (h num)) s); [done|]. unfold deref. by rewrite the_syscalls_at.
    + destruct (Z.ltb_spec 0 num); [|lia]. cbn [andb]. destruct (Z.eqb_spec num 22) as [->|].
      * change (22 <=? 22) with true. unfold mbind, M_bind, deref. by assert (at_ the_syscalls 22 = None) as -> by reflexivity.
      * destruct (Z.leb_spec num 22); [lia|]. by rewrite (bind_done _ _ s None s).
  - destruct (Z.ltb_spec 0 num); [lia|]. destruct (Z.eqb_spec num 22); [lia|]. cbn [andb]. by rewrite (bind_done _ _ s None s).
Qed.
End calls.

(** a process of sixteen bytes, "hi" at address 4, that calls uptime with 4 in r1 *)
Definition demo : uctx := UCtx 16 ([1; 2; 3; 4; 104; 105] ++ replicate 10 0) ([14; 4] ++ replicate 32 0).
Lemma demo_ok : uctx_ok demo.
Proof. split; try reflexivity; [cbn; lia|apply (bool_decide_unpack _); vm_compute; exact I]. Qed.
Lemma argptr_correct_witness : argptr 0 12 demo = Done (Some 4) demo /\ argptr 0 (-4) demo = Done (Some 4) demo /\ argptr 0 (-5) demo = Done None demo.
Proof.
  split; [|split].
  - destruct (argptr_correct 0 12 demo demo_ok ltac:(lia) ltac:(lia)) as (r & Hr & H). injection Hr as <-. exact H.
  - destruct (argptr_correct 0 (-4) demo demo_ok ltac:(lia) ltac:(lia)) as (r & Hr & H). injection Hr as <-. exact H.
  - destruct (argptr_correct 0 (-5) demo demo_ok ltac:(lia) ltac:(lia)) as (r & Hr & H). injection Hr as <-. exact H.
Defined.
Lemma argstr_correct_witness : exists o, argstr 0 demo = Done o demo /\ o = Some (4, 2).
Proof.
  destruct (argstr_correct 0 demo demo_ok ltac:(lia)) as (p & o & Hp & H & Ho). exists o. split; [exact H|].
  assert (argstr 0 demo = Done (Some (4, 2)) demo) as E by (vm_compute; reflexivity). rewrite E in H. by injection H as <-.
Defined.
Definition id_lens {A} : lens A A := Lens (fun x => x) (fun x _ => x).
Lemma syscall_dispatch_witness :
  syscall id_lens (the_syscalls (fun i => mret (100 + i))) demo =
  Done tt (UCtx 16 (umem demo) ([114; 4] ++ replicate 32 0)).
Proof.
  rewrite (syscall_dispatch id_lens (fun i => mret (100 + i)) demo 14 eq_refl (fun _ => eq_refl)). vm_compute. reflexivity.
Defined.

End Syscall.
