(* ===== verification/Sysfile.v ===== *)
(** * The system calls on files (src/src/sysfile.c)

    The state is the open files (File.v), the descriptors of the current
    process and what it passes ([uctx] of Syscall.v).  A descriptor's entry is
    the index of a struct file, [NULL] for none.  A user pointer is an address
    in the caller's memory; what a call is given there is the bytes from it to
    the end of the memory. *)

From S2P Require Import Prelude.
From S2P Require Import Bytes.
From S2P Require Import Log.
From S2P Require Import Store.
From S2P Require Import Fs.
From S2P Require Import Content.
From S2P Require Import Dir.
From S2P Require Import FsSpec.
From S2P Require Import File.
From S2P Require Import Syscall.

Module Sysfile.
Import Syscall.

Definition NOFILE : Z := 16.
Definition MAXARG : Z := 32.
Definition O_RDONLY : Z := 0.
Definition O_WRONLY : Z := 1.
Definition O_RDWR : Z := 2.
Definition O_CREATE : Z := 0x200.
Definition NULL : Z := -1.
(** sizeof(struct stat) and the stores of stati through the pointer *)
Definition sizeof_stat : Z := 20.
Definition st_stat (x : list Z) (s : Fs.stat) : option (list Z) :=
  x ← Fs.splice x 0 (le 2 (u16 (Fs.st_type s)));
  x ← Fs.splice x 4 (le 4 (u32 (Fs.st_dev s)));
  x ← Fs.splice x 8 (le 4 (u32 (Fs.st_ino s)));
  x ← Fs.splice x 12 (le 2 (u16 (Fs.st_nlink s)));
  Fs.splice x 16 (le 4 (u32 (Fs.st_size s))).

Definition set_nums (major minor nlink : Z) (i : Fs.inode) : Fs.inode :=
  Fs.Inode (Fs.i_dev i) (Fs.i_inum i) (Fs.i_ref i) (Fs.i_flags i) (Fs.i_type i) major minor nlink (Fs.i_size i) (Fs.i_addrs i).

Section sysfile.
Context {B : Type} {BS : BlockStore B} {DV : Fs.Devsw B}.

Record st := St {
  fsys : File.st B;
  ofile : list Z;
  ux : uctx;
}.
Definition file_lens : lens st (File.st B) := Lens fsys (fun f s => St f (ofile s) (ux s)).
Definition fs_lens : lens st (Fs.st B) :=
  Lens (fun s => File.fss (fsys s)) (fun x s => St (lset File.fss_lens x (fsys s)) (ofile s) (ux s)).
Definition ux_lens : lens st uctx := Lens ux (fun u s => St (fsys s) (ofile s) u).
Definition set_fd (fd f : Z) : M st unit := modify (fun s => St (fsys s) (put (ofile s) fd f) (ux s)).
Definition fs {A} (m : M (Fs.st B) A) : M st A := zoom fs_lens m.
Definition fl {A} (m : M (File.st B) A) : M st A := zoom file_lens m.
Definition us {A} (m : M uctx A) : M st A := zoom ux_lens m.

(** the bytes from user address [p] on, and a store of them *)
Definition user (p : Z) : M st (list Z) := us (deref (fun u =>
  if (0 <=? p) && (p <=? Z.of_nat (length (umem u))) then Some (drop (Z.to_nat p) (umem u)) else None)).
Definition set_user (p : Z) (x : list Z) : M st unit := us (
  m ← deref (fun u => Fs.splice (umem u) p x);
  modify (fun u => UCtx (usz u) m (regs u))).

(** ** Descriptors *)

(** the descriptor and its file, [None] for -1 *)
Definition argfd (n : Z) : M st (option (Z * Z)) :=
  fd ← us (argint n);
  if (fd <? 0) || (NOFILE <=? fd) then mret None else
  f ← deref (fun s => at_ (ofile s) fd);
  if f =? NULL then mret None else mret (Some (fd, f)).

Definition fdalloc_body (f fd : Z) : M st (Z + Z) :=
  if fd <? NOFILE then
    x ← deref (fun s => at_ (ofile s) fd);
    if x =? NULL then set_fd fd f ;; mret (inr fd) else mret (inl (fd + 1))
  else mret (inr (-1)).
Definition fdalloc (f : Z) : M st Z := loop (S (Z.to_nat NOFILE)) (fdalloc_body f) 0.

Definition sys_dup : M st Z :=
  a ← argfd 0;
  match a with
  | None => mret (-1)
  | Some (_, f) =>
      fd ← fdalloc f;
      if fd <? 0 then mret (-1) else
      fl (File.filedup f) ;;
      mret fd
  end.

(** the arguments of read and write: the file, the address and the count *)
Definition arg_rw : M st (option (Z * Z * Z)) :=
  a ← argfd 0;
  match a with
  | None => mret None
  | Some (_, f) =>
      n ← us (argint 2);
      p ← us (argptr 1 (s32 n));
      mret (match p with Some p => Some (f, p, s32 n) | None => None end)
  end.
Definition sys_read : M st (run Z) :=
  a ← arg_rw;
  match a with
  | None => mret (Ret (-1))
  | Some (f, p, n) =>
      x ← user p;
      r ← fl (File.fileread f x n);
      set_user p r.2 ;;
      mret r.1
  end.
Definition sys_write : M st (run Z) :=
  a ← arg_rw;
  match a with
  | None => mret (Ret (-1))
  | Some (f, p, n) => x ← user p; fl (File.filewrite f x n)
  end.

Definition sys_close : M st Z :=
  a ← argfd 0;
  match a with
  | None => mret (-1)
  | Some (fd, f) =>
      set_fd fd NULL ;;
      fl (File.fileclose f) ;;
      mret 0
  end.

Definition sys_fstat : M st Z :=
  a ← argfd 0;
  match a with
  | None => mret (-1)
  | Some (_, f) =>
      p ← us (argptr 1 sizeof_stat);
      match p with
      | None => mret (-1)
      | Some p =>
          r ← fl (File.filestat f);
          match r with
          | (v, Some s) => x ← user p; y ← deref (fun _ => st_stat x s); set_user p y ;; mret v
          | (v, None) => mret v
          end
      end
  end.

(** ** Links *)

Definition up_nlink (ip d : Z) : M st unit :=
  fs (Fs.up_ip ip (fun x => Fs.set_nlink (s16 (Fs.i_nlink x + d)) x)).
(** the label bad of sys_link *)
Definition link_bad (ip : Z) : M st Z :=
  fs (Fs.ilock ip) ;;
  up_nlink ip (-1) ;;
  fs (Fs.iupdate ip) ;;
  fs (Fs.iunlockput ip) ;;
  fs Fs.commit_trans ;;
  mret (-1).
Definition sys_link : M st Z :=
  o ← us (argstr 0);
  match o with None => mret (-1) | Some (old, _) =>
  n ← us (argstr 1);
  match n with None => mret (-1) | Some (new, _) =>
  path ← user old;
  ip ← fs (Dir.namei path);
  if ip =? NULL then mret (-1) else
  fs Fs.begin_trans ;;
  fs (Fs.ilock ip) ;;
  x ← fs (Fs.ld_ip ip);
  if Fs.i_type x =? Fs.T_DIR then
    fs (Fs.iunlockput ip) ;;
    fs Fs.commit_trans ;;
    mret (-1)
  else
  up_nlink ip 1 ;;
  fs (Fs.iupdate ip) ;;
  fs (Fs.iunlock ip) ;;
  path ← user new;
  r ← fs (Dir.nameiparent path (replicate (Z.to_nat Dir.DIRSIZ) 0));
  let '(dp, name) := r : Z * list Z in
  if dp =? NULL then link_bad ip else
  fs (Fs.ilock dp) ;;
  d ← fs (Fs.ld_ip dp);
  x ← fs (Fs.ld_ip ip);
  v ← (if negb (Fs.i_dev d =? Fs.i_dev x) then mret (-1) else fs (Dir.dirlink dp name (Fs.i_inum x)));
  if v <? 0 then fs (Fs.iunlockput dp) ;; link_bad ip else
  fs (Fs.iunlockput dp) ;;
  fs (Fs.iput ip) ;;
  fs Fs.commit_trans ;;
  mret 0
  end end.

Definition isdirempty_body (dp off : Z) : M (Fs.st B) (Z + bool) :=
  x ← Fs.ld_ip dp;
  if u32 off <? Fs.i_size x then
    de ← Dir.read_dirent dp (u32 off) "isdirempty: readi";
    if negb (Dir.de_inum de =? 0) then mret (inr false) else
    off' ← c_int (off + Dir.sizeof_dirent);
    mret (inl off')
  else mret (inr true).
Definition isdirempty (dp : Z) : M (Fs.st B) bool :=
  x ← Fs.ld_ip dp;
  loop (S (Z.to_nat (Fs.i_size x))) (isdirempty_body dp) (2 * Dir.sizeof_dirent).

Definition DOT : list Z := [46; 0].
Definition DOTDOT : list Z := [46; 46; 0].
(** the label bad of sys_unlink *)
Definition unlink_bad (dp : Z) : M st Z :=
  fs (Fs.iunlockput dp) ;;
  fs Fs.commit_trans ;;
  mret (-1).
Definition sys_unlink : M st Z :=
  o ← us (argstr 0);
  match o with None => mret (-1) | Some (p, _) =>
  path ← user p;
  r ← fs (Dir.nameiparent path (replicate (Z.to_nat Dir.DIRSIZ) 0));
  let '(dp, name) := r : Z * list Z in
  if dp =? NULL then mret (-1) else
  fs Fs.begin_trans ;;
  fs (Fs.ilock dp) ;;
  (* Cannot unlink "." or "..". *)
  c1 ← Dir.namecmp (S := st) name DOT;
  c2 ← (if c1 =? 0 then mret 0 else Dir.namecmp (S := st) name DOTDOT);
  if c2 =? 0 then unlink_bad dp else
  e ← fs (Dir.dirlookup dp name);
  match e with None => unlink_bad dp | Some (ip, off) =>
  fs (Fs.ilock ip) ;;
  x ← fs (Fs.ld_ip ip);
  panic_if (Fs.i_nlink x <? 1) "unlink: nlink < 1" ;;
  full ← (if Fs.i_type x =? Fs.T_DIR then b ← fs (isdirempty ip); mret (negb b) else mret false);
  if (full : bool) then fs (Fs.iunlockput ip) ;; unlink_bad dp else
  w ← fs (Fs.writei dp (replicate (Z.to_nat Dir.sizeof_dirent) 0) off Dir.sizeof_dirent);
  panic_if (negb (w =? Dir.sizeof_dirent)) "unlink: writei" ;;
  when (Fs.i_type x =? Fs.T_DIR) (up_nlink dp (-1) ;; fs (Fs.iupdate dp)) ;;
  fs (Fs.iunlockput dp) ;;
  up_nlink ip (-1) ;;
  fs (Fs.iupdate ip) ;;
  fs (Fs.iunlockput ip) ;;
  fs Fs.commit_trans ;;
  mret 0
  end end.

(** ** Creating and opening *)

(** the inode, locked, or a null pointer; [type], [major] and [minor] are short *)
Definition create (path : list Z) (type major minor : Z) : M (Fs.st B) Z :=
  r ← Dir.nameiparent path (replicate (Z.to_nat Dir.DIRSIZ) 0);
  let '(dp, name) := r : Z * list Z in
  if dp =? NULL then mret NULL else
  Fs.ilock dp ;;
  e ← Dir.dirlookup dp name;
  match e with
  | Some (ip, _) =>
      Fs.iunlockput dp ;;
      Fs.ilock ip ;;
      x ← Fs.ld_ip ip;
      if (type =? Fs.T_FILE) && (Fs.i_type x =? Fs.T_FILE) then mret ip else
      Fs.iunlockput ip ;;
      mret NULL
  | None =>
      d ← Fs.ld_ip dp;
      ip ← Fs.ialloc (Fs.i_dev d) type;
      panic_if (ip =? NULL) "create: ialloc" ;;
      Fs.ilock ip ;;
      Fs.up_ip ip (set_nums major minor 1) ;;
      Fs.iupdate ip ;;
      x ← Fs.ld_ip ip;
      when (type =? Fs.T_DIR) (  (* Create . and .. entries. *)
        Fs.up_ip dp (fun x => Fs.set_nlink (s16 (Fs.i_nlink x + 1)) x) ;;  (* for ".." *)
        Fs.iupdate dp ;;
        (* No ip->nlink++ for ".": avoid cyclic ref count. *)
        v ← Dir.dirlink ip DOT (Fs.i_inum x);
        panic_if (v <? 0) "create dots" ;;
        v ← Dir.dirlink ip DOTDOT (Fs.i_inum d);
        panic_if (v <? 0) "create dots") ;;
      v ← Dir.dirlink dp name (Fs.i_inum x);
      panic_if (v <? 0) "create: dirlink" ;;
      Fs.iunlockput dp ;;
      mret ip
  end.

Definition set_open (omode ip : Z) (f : File.file) : File.file :=
  File.MkFile File.FD_INODE (File.f_ref f) (b2z (Z.land omode O_WRONLY =? 0))
    (b2z (negb (Z.land omode O_WRONLY =? 0) || negb (Z.land omode O_RDWR =? 0))) (File.f_pipe f) ip 0.

(** the rest of sys_open, with the inode locked *)
Definition open_inode (omode ip : Z) : M st Z :=
  f ← fl File.filealloc;
  fd ← (if f =? NULL then mret (-1) else fdalloc f);
  if fd <? 0 then
    when (negb (f =? NULL)) (fl (File.fileclose f)) ;;
    fs (Fs.iunlockput ip) ;;
    mret (-1)
  else
  fs (Fs.iunlock ip) ;;
  fl (File.up_f f (set_open omode ip)) ;;
  mret fd.
Definition sys_open : M st Z :=
  o ← us (argstr 0);
  match o with None => mret (-1) | Some (p, _) =>
  omode ← us (argint 1);
  path ← user p;
  if negb (Z.land omode O_CREATE =? 0) then
    fs Fs.begin_trans ;;
    ip ← fs (create path Fs.T_FILE 0 0);
    fs Fs.commit_trans ;;
    if ip =? NULL then mret (-1) else open_inode omode ip
  else
    ip ← fs (Dir.namei path);
    if ip =? NULL then mret (-1) else
    fs (Fs.ilock ip) ;;
    x ← fs (Fs.ld_ip ip);
    if (Fs.i_type x =? Fs.T_DIR) && negb (omode =? O_RDONLY) then
      fs (Fs.iunlockput ip) ;;
      mret (-1)
    else open_inode omode ip
  end.

Definition sys_mkdir : M st Z :=
  fs Fs.begin_trans ;;
  o ← us (argstr 0);
  ip ← (match o with Some (p, _) => path ← user p; fs (create path Fs.T_DIR 0 0) | None => mret NULL end);
  if ip =? NULL then fs Fs.commit_trans ;; mret (-1) else
  fs (Fs.iunlockput ip) ;;
  fs Fs.commit_trans ;;
  mret 0.

Definition sys_mknod : M st Z :=
  fs Fs.begin_trans ;;
  o ← us (argstr 0);
  ip ← (match o with
        | Some (p, _) =>
            major ← us (argint 1);
            minor ← us (argint 2);
            path ← user p;
            fs (create path Fs.T_DEV (s16 major) (s16 minor))
        | None => mret NULL
        end);
  if ip =? NULL then fs Fs.commit_trans ;; mret (-1) else
  fs (Fs.iunlockput ip) ;;
  fs Fs.commit_trans ;;
  mret 0.

Definition set_cwd (ip : Z) (s : Fs.st B) : Fs.st B :=
  Fs.St (Fs.blk s) (Fs.lock s) (Fs.inodes s) ip (Fs.wakes s).
Definition sys_chdir : M st Z :=
  o ← us (argstr 0);
  match o with None => mret (-1) | Some (p, _) =>
  path ← user p;
  ip ← fs (Dir.namei path);
  if ip =? NULL then mret (-1) else
  fs (Fs.ilock ip) ;;
  x ← fs (Fs.ld_ip ip);
  if negb (Fs.i_type x =? Fs.T_DIR) then
    fs (Fs.iunlockput ip) ;;
    mret (-1)
  else
  fs (Fs.iunlock ip) ;;
  c ← fs (gets Fs.cwd);
  fs (Fs.iput c) ;;
  fs (modify (set_cwd ip)) ;;
  mret 0
  end.

(** ** exec and pipe *)

(** the loop that fetches argv: the strings' addresses, without the final null *)
Definition sys_exec_body (uargv : Z) (v : Z * list Z) : M st (Z * list Z + option (list Z)) :=
  let '(i, argv) := v : Z * list Z in
  if MAXARG <=? i then mret (inr None) else
  uarg ← us (fetchint (u64 (uargv + 8 * i)));
  match uarg with
  | None => mret (inr None)
  | Some uarg =>
      if uarg =? 0 then mret (inr (Some argv)) else
      a ← us (fetchstr (u64 uarg));
      match a with
      | None => mret (inr None)
      | Some (p, _) => mret (inl (i + 1, argv ++ [p]))
      end
  end.
(** [exec] is exec() (exec.c): the path's address and the arguments' *)
Definition sys_exec (exec : Z -> list Z -> M st Z) : M st Z :=
  o ← us (argstr 0);
  match o with None => mret (-1) | Some (path, _) =>
  uargv ← us (argint 1);
  r ← loop (S (Z.to_nat MAXARG)) (sys_exec_body (u64 uargv)) (0, []);
  match r with None => mret (-1) | Some argv => exec path argv end
  end.

Definition sys_pipe : M st Z :=
  p ← us (argptr 0 8);
  match p with None => mret (-1) | Some p =>
  r ← fl File.pipealloc;
  let '(v, rf, wf) := r : Z * Z * Z in
  if v <? 0 then mret (-1) else
  fd0 ← fdalloc rf;
  fd1 ← (if fd0 <? 0 then mret (-1) else fdalloc wf);
  if (fd0 <? 0) || (fd1 <? 0) then
    when (0 <=? fd0) (set_fd fd0 NULL) ;;
    fl (File.fileclose rf) ;;
    fl (File.fileclose wf) ;;
    mret (-1)
  else
  set_user p (le 4 (u32 fd0)) ;;
  set_user (p + 4) (le 4 (u32 fd1)) ;;
  mret 0
  end.
(** ** The descriptor table *)

(** how many descriptors refer to file [f] *)
Definition refs (l : list Z) (f : Z) : Z := Z.of_nat (length (filter (fun g => g = f) l)).
Lemma refs_app l k f : refs (l ++ k) f = refs l f + refs k f.
Proof. unfold refs. rewrite filter_app, length_app. lia. Qed.
Lemma refs_one g f : refs [g] f = b2z (bool_decide (g = f)).
Proof. unfold refs. rewrite filter_cons, filter_nil. case_decide; [by rewrite bool_decide_true|by rewrite bool_decide_false]. Qed.
Lemma refs_nonneg l f : 0 <= refs l f.
Proof. unfold refs. lia. Qed.
Lemma refs_put l i g f h : at_ l i = Some g ->
  refs (put l i f) h = refs l h - b2z (bool_decide (g = h)) + b2z (bool_decide (f = h)).
Proof.
  intros Hi. unfold at_ in Hi. destruct (Z.leb_spec 0 i); [|done]. unfold put.
  rewrite (insert_take_drop l (Z.to_nat i) f) by (by eapply lookup_lt_Some).
  rewrite <-(take_drop_middle l (Z.to_nat i) g Hi) at 3.
  change (f :: drop (S (Z.to_nat i)) l) with ([f] ++ drop (S (Z.to_nat i)) l).
  change (g :: drop (S (Z.to_nat i)) l) with ([g] ++ drop (S (Z.to_nat i)) l).
  rewrite !refs_app, !refs_one. lia.
Qed.
Lemma refs_pos l i f : at_ l i = Some f -> 0 < refs l f.
Proof.
  intros Hi. pose proof (refs_put l i f (f + 1) f Hi) as H. rewrite bool_decide_true, bool_decide_false in H by lia.
  pose proof (refs_nonneg (put l i (f + 1)) f). cbn in H. lia.
Qed.

(** the blocks of memory that are out at other users *)
Context (others : gset (Z * Z)).
Local Notation files_ok := (File.files_ok others).

(** Every descriptor in use refers to an open file, which counts a reference
    for each of them. *)
Record fds_ok (s : st) : Prop := {
  fd_files : files_ok (fsys s);
  fd_len : length (ofile s) = 16%nat;
  fd_ref : forall fd f, at_ (ofile s) fd = Some f -> f <> NULL ->
    exists x, at_ (File.files (fsys s)) f = Some x /\ refs (ofile s) f <= File.f_ref x;
  fd_ux : uctx_ok (ux s);
}.

Lemma us_run {A} (m : M uctx A) s v : m (ux s) = Done v (ux s) -> us m s = Done v s.
Proof. intros H. unfold us, zoom. cbn [lget ux_lens]. rewrite H. by destruct s. Qed.

(** the descriptor the caller's argument [n] names, with its file; [None] if it names none *)
Definition named_fd (n : Z) (s : st) : option (Z * Z) :=
  r ← at_ (regs (ux s)) (1 + n);
  let fd := s64 r in
  f ← at_ (ofile s) fd;
  if f =? NULL then None else Some (fd, f).
Lemma argfd_spec n s : fds_ok s -> 0 <= n <= 3 -> argfd n s = Done (named_fd n s) s.
Proof.
  intros Hok Hn. destruct (argint_spec n (ux s) (fd_ux _ Hok) Hn) as (r & Hr & _ & Hrun).
  unfold argfd, named_fd. rewrite (bind_done _ _ _ _ _ (us_run _ s _ Hrun)), Hr. cbn [mbind option_bind]. set (fd := s64 r).
  destruct (Z.ltb_spec fd 0) as [|H0]; cbn [orb].
  { assert (at_ (ofile s) fd = None) as -> by (unfold at_; destruct (Z.leb_spec 0 fd); [lia|done]). done. }
  unfold NOFILE. destruct (Z.leb_spec 16 fd) as [|H1].
  { destruct (at_ (ofile s) fd) as [f|] eqn:E; [|done]. apply at_range in E. rewrite (fd_len _ Hok) in E. lia. }
  destruct (at_is_Some (ofile s) fd) as [f Hf]; [rewrite (fd_len _ Hok); lia|].
  rewrite (bind_done _ _ s f s) by (unfold deref; by rewrite Hf). rewrite Hf. cbn [mbind option_bind]. by destruct (Z.eqb_spec f NULL) as [->|].
Qed.
Lemma named_fd_some n s fd f : named_fd n s = Some (fd, f) -> at_ (ofile s) fd = Some f /\ f <> NULL.
Proof.
  unfold named_fd. intros H. apply bind_Some in H as (r & _ & H). apply bind_Some in H as (g & Hg & H).
  destruct (Z.eqb_spec g NULL) as [|Hne]; [done|]. by injection H as <- <-.
Qed.

(** fdalloc takes the first free descriptor *)
Definition first_fd (l : list Z) (fd : Z) : Prop :=
  at_ l fd = Some NULL /\ forall j, 0 <= j < fd -> exists g, at_ l j = Some g /\ g <> NULL.
Lemma fdalloc_spec f s : length (ofile s) = 16%nat -> wp (fdalloc f) (fun fd s' =>
  fd = -1 /\ s' = s /\ (forall j, 0 <= j < 16 -> at_ (ofile s) j <> Some NULL) \/
  first_fd (ofile s) fd /\ s' = St (fsys s) (put (ofile s) fd f) (ux s)) s.
Proof.
  intros Hl. unfold fdalloc.
  apply wp_loop with (mu := fun fd => Z.to_nat (16 - fd)) (Inv := fun fd s' => s' = s /\ 0 <= fd <= 16 /\
    forall j, 0 <= j < fd -> exists g, at_ (ofile s) j = Some g /\ g <> NULL).
  - split; [done|]. split; [lia|]. intros j Hj. lia.
  - unfold NOFILE. lia.
  - intros fd s' (-> & Hfd & Hno). unfold fdalloc_body, NOFILE. destruct (Z.ltb_spec fd 16) as [Hlt|Hge].
    + destruct (at_is_Some (ofile s) fd ltac:(lia)) as [g Hg]. wp_step. eapply wp_deref; [exact Hg|].
      destruct (Z.eqb_spec g NULL) as [->|Hne].
      * wp_step. unfold set_fd. wp_step. wp_step. right. split; [by split|done].
      * wp_step. split; [|lia]. split; [done|]. split; [lia|]. intros j Hj.
        destruct (Z.eq_dec j fd) as [->|]; [by exists g|apply Hno; lia].
    + wp_step. left. split; [done|]. split; [done|]. intros j Hj E. destruct (Hno j ltac:(lia)) as (g & Hg & Hne). congruence.
Qed.

(** no descriptor is free *)
Definition no_fd (l : list Z) : Prop := forall j, 0 <= j < 16 -> at_ l j <> Some NULL.
(** what a call does to the descriptors and the open files; [r] is its result *)
Definition dup_post s (r : Z) s' : Prop :=
  match named_fd 0 s with
  | None => r = -1 /\ s' = s
  | Some (_, f) => r = -1 /\ s' = s /\ no_fd (ofile s) \/
      exists x, first_fd (ofile s) r /\ at_ (File.files (fsys s)) f = Some x /\
        s' = St (File.set_files (put (File.files (fsys s)) f (File.set_ref (File.f_ref x + 1) x)) (fsys s)) (put (ofile s) r f) (ux s)
  end.
Lemma sys_dup_spec s : fds_ok s -> wp sys_dup (fun r s' => fds_ok s' /\ dup_post s r s') s.
Proof.
  intros Hok. pose proof (fd_files _ Hok) as Hf. unfold sys_dup, dup_post. wp_step.
  apply (wp_eq _ _ _ _ _ (argfd_spec 0 s Hok ltac:(lia))).
  destruct (named_fd 0 s) as [[fd0 f]|] eqn:Ho; [|wp_step; by split]. apply named_fd_some in Ho as [Hfd0 Hne].
  wp_step. eapply wp_mono; [by apply fdalloc_spec, Hok|]. cbn beta. intros r s1 [(-> & -> & Hno)|[[Hr Hfirst] ->]].
  { cbn [Z.ltb Z.compare]. wp_step. split; [done|by left]. }
  pose proof (at_range _ _ _ Hr) as Hrr. destruct (Z.ltb_spec r 0); [lia|].
  destruct (fd_ref _ Hok fd0 f Hfd0 Hne) as (x & Hx & Hrefs). pose proof (refs_pos _ _ _ Hfd0) as Hpos.
  wp_step. unfold fl. apply wp_zoom. cbn [lget file_lens fsys].
  eapply wp_eq; [apply (File.filedup_spec (fsys s) f x); [apply Hf|done|lia]|]. cbn [lset file_lens]. wp_step.
  split; [|right; exists x; split; [by split|by split]].
  pose proof (at_range _ _ _ Hx) as Hxr. split; cbn [fsys ofile ux].
  - apply File.counted_ok; [done|done|lia].
  - unfold put. rewrite length_insert. apply Hok.
  - intros fd g Hg Hgne. rewrite (refs_put (ofile s) r NULL f g Hr). rewrite (bool_decide_false (NULL = g)) by done.
    destruct (Z.eq_dec f g) as [<-|Hfg].
    + rewrite bool_decide_true by done. exists (File.set_ref (File.f_ref x + 1) x). cbn [File.files File.set_files].
      rewrite at_put_eq by lia. split; [done|]. cbn. lia.
    + rewrite bool_decide_false by done. cbn [File.files File.set_files]. rewrite at_put_ne by lia.
      destruct (Z.eq_dec r fd) as [<-|Hrf]; [rewrite at_put_eq in Hg by lia; by injection Hg as <-|].
      rewrite at_put_ne in Hg by lia. destruct (fd_ref _ Hok fd g Hg Hgne) as (y & Hy & Hyr). exists y. split; [done|]. cbn. lia.
  - apply Hok.
Qed.

Lemma refs_in l f : 0 < refs l f -> exists i, at_ l i = Some f.
Proof.
  unfold refs. intros H. destruct (filter (fun g => g = f) l) as [|g k] eqn:E; [cbn in H; lia|].
  assert (g ∈ filter (fun g => g = f) l) as Hg by (rewrite E; left). apply list_elem_of_filter in Hg as [-> Hg].
  apply list_elem_of_lookup in Hg as [i Hi]. exists (Z.of_nat i). unfold at_. destruct (Z.leb_spec 0 (Z.of_nat i)); [|lia].
  by rewrite Nat2Z.id.
Qed.
(** a free file has no descriptor *)
Lemma refs_free s f x : fds_ok s -> f <> NULL -> at_ (File.files (fsys s)) f = Some x -> File.f_ref x = 0 -> refs (ofile s) f = 0.
Proof.
  intros Hok Hne Hx H0. pose proof (refs_nonneg (ofile s) f). destruct (Z.eq_dec (refs (ofile s) f) 0) as [|E]; [done|].
  destruct (refs_in (ofile s) f ltac:(lia)) as [fd Hfd]. destruct (fd_ref _ Hok fd f Hfd Hne) as (y & Hy & Hr).
  rewrite Hx in Hy. injection Hy as <-. lia.
Qed.

(** a descriptor given up with its file's reference *)
Lemma fds_dropped s fd f x t : fds_ok s -> at_ (ofile s) fd = Some f -> f <> NULL -> at_ (File.files (fsys s)) f = Some x ->
  refs (ofile s) f <= File.f_ref x -> files_ok t -> File.files t = put (File.files (fsys s)) f (File.dropped x) ->
  fds_ok (St t (put (ofile s) fd NULL) (ux s)).
Proof.
  intros Hok Hfd Hne Hx Hr Ht Ef. pose proof (at_range _ _ _ Hx) as Hxr. pose proof (at_range _ _ _ Hfd) as Hfr.
  split; cbn [fsys ofile ux]; [done|unfold put; rewrite length_insert; apply Hok| |apply Hok].
  intros j g Hj Hg. rewrite (refs_put (ofile s) fd f NULL g Hfd), (bool_decide_false (NULL = g)) by done. rewrite Ef.
  assert (at_ (ofile s) j = Some g) as Hj'.
  { destruct (Z.eq_dec fd j) as [<-|]; [rewrite at_put_eq in Hj by lia; by injection Hj as <-|by rewrite at_put_ne in Hj by lia]. }
  destruct (Z.eq_dec f g) as [<-|Hfg].
  - assert (1 < File.f_ref x) as H1.
    { assert (fd <> j) by (intros ->; rewrite at_put_eq in Hj by lia; by injection Hj as <-).
      pose proof (refs_put (ofile s) fd f NULL f Hfd) as E. rewrite bool_decide_true, (bool_decide_false (NULL = f)) in E by done.
      pose proof (refs_pos (put (ofile s) fd NULL) j f ltac:(by rewrite at_put_ne by lia)). cbn in E. lia. }
    unfold File.dropped. destruct (Z.ltb_spec 1 (File.f_ref x)); [|lia]. rewrite bool_decide_true by done.
    eexists. rewrite at_put_eq by lia. split; [reflexivity|]. cbn. lia.
  - rewrite bool_decide_false by done. rewrite at_put_ne by lia. destruct (fd_ref _ Hok j g Hj' Hg) as (y & Hy & Hyr).
    exists y. split; [done|]. cbn. lia.
Qed.

Definition close_post s (r : Z) s' : Prop :=
  match named_fd 0 s with
  | None => r = -1 /\ s' = s
  | Some (fd, f) => r = 0 /\ ofile s' = put (ofile s) fd NULL /\ ux s' = ux s /\
      exists x, at_ (File.files (fsys s)) f = Some x /\ File.files (fsys s') = put (File.files (fsys s)) f (File.dropped x)
  end.
Lemma sys_close_spec s : fds_ok s -> let Q := fun (r : Z) s' => fds_ok s' /\ close_post s r s' in
  wp sys_close Q s \/
  (exists fd f x, named_fd 0 s = Some (fd, f) /\ at_ (File.files (fsys s)) f = Some x /\ File.f_ref x = 1 /\ File.f_type x = File.FD_INODE) /\
    wlp sys_close Q (fun _ => True) s.
Proof.
  intros Hok Q. pose proof (fd_files _ Hok) as Hf. pose proof (argfd_spec 0 s Hok ltac:(lia)) as Hrun.
  assert (forall r s', (match named_fd 0 s with None => r = -1 /\ s' = s | Some (fd, f) => r = 0 /\ ofile s' = put (ofile s) fd NULL /\ ux s' = ux s /\
      exists x, at_ (File.files (fsys s)) f = Some x /\ File.files (fsys s') = put (File.files (fsys s)) f (File.dropped x) end) -> fds_ok s' -> Q r s') as HQ by (by split).
  unfold sys_close. destruct (named_fd 0 s) as [[fd f]|] eqn:Ho.
  2: { left. wp_step. apply (wp_eq _ _ _ _ _ Hrun). wp_step. by apply HQ. }
  apply named_fd_some in Ho as [Hfd Hne]. destruct (fd_ref _ Hok fd f Hfd Hne) as (x & Hx & Hr). pose proof (refs_pos _ _ _ Hfd) as Hpos.
  assert (forall t, files_ok t /\ File.files t = put (File.files (fsys s)) f (File.dropped x) ->
    Q 0 (St t (put (ofile s) fd NULL) (ux s))) as HQ0.
  { intros t [Ht Et]. apply HQ; [|by eapply fds_dropped]. split; [done|]. split; [done|]. split; [done|]. by exists x. }
  destruct (File.fileclose_spec _ (fsys s) f x Hf Hx ltac:(lia)) as [Hw|(R & T & Hw)].
  - left. wp_step. apply (wp_eq _ _ _ _ _ Hrun). unfold set_fd, fl. wp_step. wp_step. wp_step. apply wp_zoom.
    eapply wp_mono; [exact Hw|]. cbn beta. intros _ t Ht. wp_step. by apply HQ0.
  - right. split; [by exists fd, f, x|]. apply wlp_bind. unfold wlp at 1. rewrite Hrun. unfold set_fd, fl. apply wlp_bind, wlp_modify, wlp_bind, wlp_zoom.
    eapply wlp_mono; [exact Hw| |done]. cbn beta. intros _ t Ht. apply wlp_ret. by apply HQ0.
Qed.

(** new files, and the old ones as they were *)
Lemma fds_kept s t : fds_ok s -> files_ok t -> File.kept (File.files (fsys s)) (File.files t) -> fds_ok (St t (ofile s) (ux s)).
Proof.
  intros Hok Ht Hk. split; cbn [fsys ofile ux]; [done|apply Hok| |apply Hok].
  intros fd f Hfd Hne. destruct (fd_ref _ Hok fd f Hfd Hne) as (x & Hx & Hr). exists x. split; [|done].
  apply Hk; [done|]. pose proof (refs_pos _ _ _ Hfd). lia.
Qed.
(** a descriptor for a file that had none *)
Lemma fds_added s fd f x : fds_ok s -> at_ (ofile s) fd = Some NULL -> f <> NULL -> at_ (File.files (fsys s)) f = Some x ->
  refs (ofile s) f = 0 -> File.f_ref x = 1 -> fds_ok (St (fsys s) (put (ofile s) fd f) (ux s)).
Proof.
  intros Hok Hfd Hne Hx H0 H1. pose proof (at_range _ _ _ Hfd) as Hfr.
  split; cbn [fsys ofile ux]; [apply Hok|unfold put; rewrite length_insert; apply Hok| |apply Hok].
  intros j g Hj Hg. rewrite (refs_put (ofile s) fd NULL f g Hfd), (bool_decide_false (NULL = g)) by done.
  destruct (Z.eq_dec f g) as [<-|Hfg].
  - exists x. rewrite bool_decide_true by done. cbn. split; [done|]. lia.
  - rewrite bool_decide_false by done. destruct (Z.eq_dec fd j) as [<-|]; [rewrite at_put_eq in Hj by lia; congruence|].
    rewrite at_put_ne in Hj by lia. destruct (fd_ref _ Hok j g Hj Hg) as (y & Hy & Hyr). exists y. split; [done|]. cbn. lia.
Qed.

(** a store into the caller's memory *)
Definition stored (p : Z) (x : list Z) (u : uctx) : uctx := UCtx (usz u) (blit (umem u) (Z.to_nat p) x) (regs u).
Lemma set_user_spec p x s : fds_ok s -> 0 <= p -> p + Z.of_nat (length x) <= usz (ux s) ->
  wp (set_user p x) (fun _ s' => fds_ok s' /\ s' = St (fsys s) (ofile s) (stored p x (ux s))) s.
Proof.
  intros Hok Hp Hx. pose proof (fd_ux _ Hok) as [U1 U2 U3 U4]. unfold set_user, us. apply wp_zoom. cbn [lget ux_lens].
  wp_step. eapply wp_deref; [apply Content.splice_in; lia|]. wp_step. cbn [lset ux_lens]. split; [|done].
  destruct Hok as [F1 F2 F3 _]. split; cbn [fsys ofile ux]; try done. split; cbn; try done. rewrite length_blit; lia.
Qed.

(** both ends of a pipe that got no descriptors are closed again *)
Lemma close_ends s t rf wf p : fds_ok s -> files_ok t -> File.kept (File.files (fsys s)) (File.files t) ->
  rf <> wf -> File.new_end (fsys s) t rf false p -> File.new_end (fsys s) t wf true p ->
  wp (fl (File.fileclose rf) ;; fl (File.fileclose wf) ;; mret (-1))
     (fun r s' => r = -1 /\ fds_ok s' /\ ofile s' = ofile s /\ ux s' = ux s /\ File.kept (File.files (fsys s)) (File.files (fsys s')))
     (St t (ofile s) (ux s)).
Proof.
  intros Hok Ht Hk Hne ((x0 & Hx0 & Z0) & x & Hx & R & E) ((y0 & Hy0 & Z1) & y & Hy & R' & E').
  pose proof (at_range _ _ _ Hx) as Hxr. pose proof (at_range _ _ _ Hy) as Hyr.
  wp_step. unfold fl. apply wp_zoom. cbn [lget file_lens fsys]. eapply wp_mono; [by apply (File.pipe_end_closed others t rf x false p)|].
  cbn beta. intros _ t1 (Ht1 & Ef1). cbn [lset file_lens]. wp_step. apply wp_zoom. cbn [lget file_lens fsys].
  eapply wp_mono; [apply (File.pipe_end_closed others t1 wf y true p); [done|by rewrite Ef1, at_put_ne by lia|done|done]|].
  cbn beta. intros _ t2 (Ht2 & Ef2). cbn [lset file_lens]. wp_step. split; [done|].
  assert (File.kept (File.files (fsys s)) (File.files t2)) as Hk2.
  { rewrite Ef2, Ef1. apply (File.kept_put _ _ wf y0); [by apply (File.kept_put _ _ rf x0)|done|done]. }
  split; [by apply (fds_kept s t2)|]. done.
Qed.

(** the state after pipealloc, with no descriptor for its files yet *)
Lemma new_end_fds s t f w p : fds_ok s -> files_ok t -> File.kept (File.files (fsys s)) (File.files t) ->
  File.new_end (fsys s) t f w p -> refs (ofile s) f = 0 /\ f <> NULL /\ exists x, at_ (File.files t) f = Some x /\ File.f_ref x = 1.
Proof.
  intros Hok Ht Hk ((x0 & Hx0 & Z0) & x & Hx & R & E). pose proof (at_range _ _ _ Hx).
  assert (f <> NULL) by (unfold NULL; lia). split; [by eapply refs_free|]. split; [done|]. by exists x.
Qed.

(** fewer than two descriptors are free *)
Definition one_fd (l : list Z) : Prop := forall i j, at_ l i = Some NULL -> at_ l j = Some NULL -> i = j.
Definition pipe_post s (r : Z) s' : Prop :=
  match argptr 0 8 (ux s) with
  | Done (Some p) _ =>
      File.kept (File.files (fsys s)) (File.files (fsys s')) /\
      (r = -1 /\ ofile s' = ofile s /\ ux s' = ux s /\ (File.no_pipe (fsys s) \/ one_fd (ofile s)) \/
       r = 0 /\ exists fd0 fd1 rf wf q, first_fd (ofile s) fd0 /\ first_fd (put (ofile s) fd0 rf) fd1 /\
         ofile s' = put (put (ofile s) fd0 rf) fd1 wf /\ rf <> wf /\
         File.new_end (fsys s) (fsys s') rf false q /\ File.new_end (fsys s) (fsys s') wf true q /\
         ux s' = stored (p + 4) (le 4 fd1) (stored p (le 4 fd0) (ux s)))
  | _ => r = -1 /\ s' = s
  end.
Lemma sys_pipe_spec s : fds_ok s -> wp sys_pipe (fun r s' => fds_ok s' /\ pipe_post s r s') s.
Proof.
  intros Hok. pose proof (fd_ux _ Hok) as Hux. unfold sys_pipe, pipe_post. wp_step.
  destruct (argptr_runs 0 8 (ux s) Hux ltac:(lia) ltac:(lia)) as (o & Hrun & Ho). rewrite Hrun. apply (wp_eq _ _ _ _ _ (us_run _ s _ Hrun)).
  destruct o as [p|]; [|wp_step; by split]. wp_step. unfold fl at 1. apply wp_zoom. cbn [lget file_lens].
  eapply wp_mono; [apply (File.pipealloc_spec others), Hok|]. cbn beta. intros [[v rf] wf] t (Ht & Hk & Hv).
  cbn [fst snd] in Hv. cbn [lset file_lens]. pose proof (fds_kept s t Hok Ht Hk) as Hok1.
  destruct Hv as [[-> Hno]|(-> & Hne & q & Hrf & Hwf)].
  { cbn [Z.ltb Z.compare]. wp_step. split; [done|]. split; [done|]. left. split; [done|]. split; [done|]. split; [done|by left]. }
  cbn [Z.ltb Z.compare]. destruct (new_end_fds s t rf false q Hok Ht Hk Hrf) as (Z0 & N0 & x & Hx & R0).
  destruct (new_end_fds s t wf true q Hok Ht Hk Hwf) as (Z1 & N1 & y & Hy & R1). set (s1 := St t (ofile s) (ux s)) in *.
  assert (forall Q : Z -> st -> Prop, (forall s', fds_ok s' -> ofile s' = ofile s -> ux s' = ux s -> File.kept (File.files (fsys s)) (File.files (fsys s')) -> Q (-1) s') ->
    wp (fl (File.fileclose rf) ;; fl (File.fileclose wf) ;; mret (-1)) Q s1) as Hclose.
  { intros Q HQ. eapply wp_mono; [by eapply close_ends|]. cbn beta. intros r s' (-> & H1 & H2 & H3 & H4). by apply HQ. }
  wp_step. eapply wp_mono; [apply (fdalloc_spec rf s1), Hok1|]. cbn beta. intros fd0 s2 [(-> & -> & Hnofd)|[Hf0 ->]].
  { cbn [Z.ltb Z.compare orb]. wp_step. wp_step. cbn [Z.leb Z.compare when]. wp_step. wp_step.
    apply Hclose. intros s' H1 H2 H3 H4. split; [done|]. split; [done|]. left. split; [done|]. split; [done|]. split; [done|]. right.
    intros i j Hi. pose proof (at_range _ _ _ Hi) as Hir. rewrite (fd_len _ Hok) in Hir. by destruct (Hnofd i ltac:(lia)). }
  pose proof Hf0 as [Hf0' Hfirst0]. pose proof (at_range _ _ _ Hf0') as Hr0. destruct (Z.ltb_spec fd0 0); [lia|].
  pose proof (fds_added s1 fd0 rf x Hok1 Hf0' N0 Hx Z0 R0) as Hok2. set (s2 := St (fsys s1) (put (ofile s1) fd0 rf) (ux s1)) in *.
  wp_step. eapply wp_mono; [apply (fdalloc_spec wf s2), Hok2|]. cbn beta. intros fd1 s3 [(-> & -> & Hnofd)|[Hf1 ->]].
  { cbn [Z.ltb Z.compare orb]. destruct (Z.leb_spec 0 fd0); [|lia]. cbn [when]. unfold set_fd. wp_step. wp_step.
    assert (St (fsys s2) (put (ofile s2) fd0 NULL) (ux s2) = s1) as ->.
    { unfold s2, s1. cbn [fsys ofile ux]. by rewrite put_put, put_id. }
    apply Hclose. intros s' H1 H2 H3 H4. split; [done|]. split; [done|]. left. split; [done|]. split; [done|]. split; [done|]. right.
    assert (forall i, at_ (ofile s) i = Some NULL -> i = fd0) as Hall; [|intros i j Hi Hj; by rewrite (Hall i), (Hall j)].
    intros i Hi. pose proof (at_range _ _ _ Hi) as Hir. rewrite (fd_len _ Hok) in Hir. destruct (Z.eq_dec i fd0) as [|Hif]; [done|].
    destruct (Hnofd i ltac:(lia)). unfold s2, s1. cbn [ofile]. by rewrite at_put_ne by lia. }
  pose proof Hf1 as [Hf1' _]. pose proof (at_range _ _ _ Hf1') as Hr1. destruct (Z.ltb_spec fd1 0); [lia|]. cbn [orb].
  rewrite (fd_len _ Hok1) in Hr0. rewrite (fd_len _ Hok2) in Hr1. assert (u32 fd0 = fd0 /\ u32 fd1 = fd1) as [-> ->] by (split; apply Z.mod_small; lia).
  assert (refs (ofile s2) wf = 0) as Z2.
  { unfold s2. cbn [ofile]. rewrite (refs_put (ofile s1) fd0 NULL rf wf Hf0'), !bool_decide_false by done. change (ofile s1) with (ofile s). cbn [b2z]. lia. }
  pose proof (fds_added s2 fd1 wf y Hok2 Hf1' N1 Hy Z2 R1) as Hok3. set (s3 := St (fsys s2) (put (ofile s2) fd1 wf) (ux s2)) in *.
  destruct Ho as (Hp & Hp8). wp_step. eapply wp_mono; [apply set_user_spec; [done|lia|rewrite length_le; exact Hp8 || (cbn; lia)]|].
  cbn beta. intros _ s4 (Hok4 & ->). wp_step.
  eapply wp_mono; [apply set_user_spec; [done|lia|rewrite length_le; cbn; lia]|].
  cbn beta. intros _ s5 (Hok5 & ->). wp_step. split; [done|]. cbn [fsys ofile ux s3 s2 s1]. split; [done|]. right. split; [done|].
  by exists fd0, fd1, rf, wf, q.
Qed.

(** ** What dup, close and pipe do to the descriptors *)
Inductive fd_call := Dup | Close | Pipe.
Definition run_call (c : fd_call) : M st Z :=
  match c with Dup => sys_dup | Close => sys_close | Pipe => sys_pipe end.
(** the state after a call that returned [r] *)
Definition call_post (c : fd_call) : st -> Z -> st -> Prop :=
  match c with Dup => dup_post | Close => close_post | Pipe => pipe_post end.

End sysfile.
Arguments st : clear implicits.

(** ** An example: pipe() with the array at address 8 *)
Import Store.
Import FsSpec.
Definition demo_caller : uctx := UCtx 16 (replicate 16 7) ([4; 8] ++ replicate 32 0).
Definition demo_sys : st Log.st := St File.demo_files (replicate 16 NULL) demo_caller.
Lemma demo_caller_ok : uctx_ok demo_caller.
Proof. split; try reflexivity; [cbn; lia|apply (bool_decide_unpack _); vm_compute; exact I]. Qed.
Lemma demo_sys_ok : fds_ok ∅ demo_sys.
Proof.
  split; [exact File.demo_files_ok|reflexivity| |exact demo_caller_ok].
  intros fd f Hf Hne. unfold at_ in Hf. destruct (0 <=? fd); [|done]. by apply lookup_replicate_1 in Hf as [-> _].
Qed.

End Sysfile.
