(* ===== verification/Vm.v ===== *)
(** * Page tables (src/src/vm.c)

    Kernel memory is a finite map from addresses to bytes; page tables,
    free-list links and user pages are all read and written there.  Addresses
    are the kernel's, in its direct map; [Mmu.v2p] and [Mmu.p2v] convert them.
    The page allocator is any that keeps the promise of Alloc.v. *)

From S2P Require Import Prelude.
From S2P Require Import Bytes.
From S2P Require Import KString.
From S2P Require Import Mmu.
From S2P Require Import Buddy.
From S2P Require Import Alloc.

Module Vm.
Import Mmu.

Definition ENTRY_VALID : Z := 1.
Definition ENTRY_TABLE : Z := 2.
Definition ENTRY_PAGE : Z := 2.
Definition MEM_ATTR_IDX_4 : Z := Z.shiftl 4 2.
Definition NON_SECURE_PA : Z := Z.shiftl 1 5.
Definition AP_RW_1 : Z := Z.shiftl 0 6.
Definition AP_RW_1_0 : Z := Z.shiftl 1 6.
Definition AP_MASK : Z := Z.shiftl 3 6.
Definition SH_IN_SH : Z := Z.shiftl 3 8.
Definition ACCESS_FLAG : Z := Z.shiftl 1 10.
Definition PG_ADDR_MASK : Z := 0xFFFFFFFFF000.
Definition PGD_SHIFT : Z := 30.
Definition PTRS_PER_PGD : Z := 4.
Definition PGD_IDX (v : Z) : Z := Z.land (Z.shiftr v PGD_SHIFT) (PTRS_PER_PGD - 1).
Definition PMD_SHIFT : Z := 21.
Definition PMD_SZ : Z := Z.shiftl 1 PMD_SHIFT.
Definition PTRS_PER_PMD : Z := 512.
Definition PMD_IDX (v : Z) : Z := Z.land (Z.shiftr v PMD_SHIFT) (PTRS_PER_PMD - 1).
Definition PTRS_PER_PTE : Z := 512.
Definition PTE_IDX (v : Z) : Z := Z.land (Z.shiftr v PTE_SHIFT) (PTRS_PER_PTE - 1).
Definition PTE_ADDR (v : Z) : Z := align_dn v PTE_SZ.
Definition PTE_AP (pte : Z) : Z := Z.land pte AP_MASK.
Definition UADDR_BITS : Z := 28.
Definition UADDR_SZ : Z := Z.shiftl 1 UADDR_BITS.
Definition PT_SZ : Z := Z.shiftl PTRS_PER_PTE 3.
Definition PT_ADDR (v : Z) : Z := align_dn v PT_SZ.
Definition PT_ORDER : Z := 10.
Definition PHY_START : Z := 0x40000000.
Definition PHYSTOP : Z := 0x08000000 + PHY_START.
Definition INIT_KERN_SZ : Z := 0x200000.
Definition INIT_KERNMAP : Z := INIT_KERN_SZ + PHY_START.

(** a 64-bit word in memory *)
Definition word (m : mem) (a : Z) : option Z := of_le <$> mapM (fun i => m !! (a + i)) (seqZ 0 8).

Section vm.
Context {P : Type} {PA : PageAlloc P}.

(** kernel memory, kpt_mem (its lock and list) and the page allocator *)
Record st := St {
  kmem : mem;
  klock : bool;
  freelist : Z;
  pages : P;
}.
Definition mem_lens : lens st mem := Lens kmem (fun m s => St m (klock s) (freelist s) (pages s)).
Definition kpt_lock : lens st bool := Lens klock (fun b s => St (kmem s) b (freelist s) (pages s)).
Definition pages_lens : lens st P := Lens pages (fun p s => St (kmem s) (klock s) (freelist s) p).
Definition set_freelist (v : Z) : M st unit := modify (fun s => St (kmem s) (klock s) v (pages s)).

Definition ld64 (a : Z) : M st Z := deref (fun s => word (kmem s) a).
Definition st64 (a v : Z) : M st unit :=
  deref (fun s => word (kmem s) a) ;;
  modify (fun s => St (write_bytes (kmem s) a (le 8 (u64 v))) (klock s) (freelist s) (pages s)).
Definition memset (a v n : Z) : M st unit := zoom mem_lens (KString.memset a v n) ;; mret tt.
Definition memmove (dst src n : Z) : M st unit := zoom mem_lens (KString.memmove dst src n) ;; mret tt.
Definition kmalloc (order : Z) : M st Z := zoom pages_lens (p_alloc order).
Definition kfree (v order : Z) : M st unit := zoom pages_lens (p_free v order).
Definition alloc_page : M st Z := kmalloc PTE_SHIFT.
Definition free_page (v : Z) : M st unit := kfree v PTE_SHIFT.

(** ** Page-table pages *)

Definition init_vmm : M st unit :=
  modify (lset kpt_lock false) ;;
  set_freelist 0.

Definition _kpt_free (v : Z) : M st unit :=
  f ← gets freelist;
  st64 v f ;;
  set_freelist v.

Definition kpt_free (v : Z) : M st unit :=
  if p2v INIT_KERNMAP <=? v then kfree v PT_ORDER else
  acquire kpt_lock ;;
  _kpt_free v ;;
  release kpt_lock.

Definition kpt_freerange (low hi : Z) : M st unit :=
  loop (S (Z.to_nat (hi - low))) (fun low =>
    if low <? hi then _kpt_free low ;; mret (inl (u64 (low + PT_SZ))) else mret (inr tt)) low.

Definition kpt_alloc : M st Z :=
  acquire kpt_lock ;;
  r ← gets freelist;
  when (negb (r =? 0)) (next ← ld64 r; set_freelist next) ;;
  release kpt_lock ;;
  (* Allocate a PT page if no inital pages is available *)
  r ← (if r =? 0 then kmalloc PT_ORDER else mret r);
  panic_if (r =? 0) "oom: kpt_alloc" ;;
  memset r 0 PT_SZ ;;
  mret r.

(** ** Walking and mapping *)

(** one level: the table the entry at [e] points to, allocated if asked for *)
Definition next_table (e : Z) (alloc : bool) : M st Z :=
  v ← ld64 e;
  if negb (Z.land v (Z.lor ENTRY_TABLE ENTRY_VALID) =? 0) then mret (p2v (Z.land v PG_ADDR_MASK)) else
  base ← (if alloc then kpt_alloc else mret 0);
  if base =? 0 then mret 0 else
  memset base 0 PT_SZ ;;
  st64 e (Z.lor (Z.lor (v2p base) ENTRY_TABLE) ENTRY_VALID) ;;
  mret base.
(** the address of the page-table entry of [va], 0 if there is none *)
Definition walkpgdir (pgdbase va : Z) (alloc : bool) : M st Z :=
  pmdbase ← next_table (pgdbase + 8 * PGD_IDX va) alloc;
  if pmdbase =? 0 then mret 0 else
  ptebase ← next_table (pmdbase + 8 * PMD_IDX va) alloc;
  if ptebase =? 0 then mret 0 else
  mret (ptebase + 8 * PTE_IDX va).

(** the entry mappages stores *)
Definition page_entry (pa ap : Z) : Z :=
  Z.lor (Z.lor (Z.lor (Z.lor (Z.lor (Z.lor (Z.lor pa ACCESS_FLAG) SH_IN_SH) ap) NON_SECURE_PA) MEM_ATTR_IDX_4) ENTRY_PAGE)
    ENTRY_VALID.
Definition present (pte : Z) : bool := negb (Z.land pte (Z.lor ENTRY_PAGE ENTRY_VALID) =? 0).

Definition mappages_body (pgdir last ap : Z) (v : Z * Z) : M st (Z * Z + Z) :=
  let '(a, pa) := v : Z * Z in
  pte ← walkpgdir pgdir a true;
  if pte =? 0 then mret (inr (-1)) else
  e ← ld64 pte;
  panic_if (present e) "remap" ;;
  st64 pte (page_entry pa ap) ;;
  if a =? last then mret (inr 0) else
  mret (inl (u64 (a + PTE_SZ), u32 (pa + PTE_SZ))).
(** [size] and [pa] are uint *)
Definition mappages (pgdir va size pa ap : Z) : M st Z :=
  let a := align_dn va PTE_SZ in
  let last := align_dn (va + size - 1) PTE_SZ in
  loop (S (S (Z.to_nat (u64 (last - a) / PTE_SZ)))) (mappages_body pgdir last ap) (a, pa).

Definition paging_init (kernel_pgtbl phy_low phy_hi : Z) : M st unit :=
  mappages kernel_pgtbl (p2v phy_low) (u32 (phy_hi - phy_low)) (u32 phy_low) AP_RW_1_0 ;;
  mret tt.

(** ** User memory *)

Definition inituvm (pgdir init sz : Z) : M st unit :=
  panic_if (PTE_SZ <=? sz) "inituvm: more than a page" ;;
  mem ← alloc_page;
  memset mem 0 PTE_SZ ;;
  mappages pgdir 0 PTE_SZ (u32 (v2p mem)) AP_RW_1_0 ;;
  memmove mem init sz.

Definition deallocuvm_body (pgdir oldsz a : Z) : M st (Z + unit) :=
  if a <? oldsz then
    pte ← walkpgdir pgdir a false;
    if pte =? 0 then
      (* no page table for this entry: round it up to the next page directory *)
      mret (inl (u64 (align_up a PMD_SZ + PTE_SZ)))
    else
      e ← ld64 pte;
      when (present e) (
        let pa := u32 (PTE_ADDR e) in
        panic_if (pa =? 0) "deallocuvm" ;;
        free_page (p2v pa) ;;
        st64 pte 0) ;;
      mret (inl (u64 (a + PTE_SZ)))
  else mret (inr tt).
Definition deallocuvm (pgdir oldsz newsz : Z) : M st Z :=
  if oldsz <=? newsz then mret (s32 oldsz) else
  loop (S (Z.to_nat oldsz)) (deallocuvm_body pgdir oldsz) (align_up newsz PTE_SZ) ;;
  mret (s32 newsz).

Definition allocuvm_body (pgdir oldsz newsz a : Z) : M st (Z + Z) :=
  if a <? newsz then
    mem ← alloc_page;
    if mem =? 0 then
      deallocuvm pgdir newsz oldsz ;;
      mret (inr 0)
    else
      memset mem 0 PTE_SZ ;;
      mappages pgdir a PTE_SZ (u32 (v2p mem)) AP_RW_1_0 ;;
      mret (inl (u64 (a + PTE_SZ)))
  else mret (inr (s32 newsz)).
(** the sizes are uint *)
Definition allocuvm (pgdir oldsz newsz : Z) : M st Z :=
  if UADDR_SZ <=? newsz then mret 0 else
  if newsz <? oldsz then mret (s32 oldsz) else
  loop (S (Z.to_nat newsz)) (allocuvm_body pgdir oldsz newsz) (align_up oldsz PTE_SZ).

(** the loop over the entries of a middle-level table *)
Definition freevm_tables (pmdbase i : Z) : M st (Z + unit) :=
  if i <? PTRS_PER_PMD then
    e ← ld64 (pmdbase + 8 * i);
    when (negb (Z.land e (Z.lor ENTRY_TABLE ENTRY_VALID) =? 0)) (kpt_free (p2v (PT_ADDR e))) ;;
    mret (inl (i + 1))
  else mret (inr tt).
Definition freevm_dirs (pgdir j : Z) : M st (Z + unit) :=
  if j <? PTRS_PER_PGD then
    e ← ld64 (pgdir + 8 * j);
    when (negb (Z.land e (Z.lor ENTRY_TABLE ENTRY_VALID) =? 0)) (
      let pmdbase := p2v (Z.land e PG_ADDR_MASK) in
      loop (S (Z.to_nat PTRS_PER_PMD)) (freevm_tables pmdbase) 0 ;;
      kpt_free pmdbase) ;;
    mret (inl (j + 1))
  else mret (inr tt).
Definition freevm (pgdir : Z) : M st unit :=
  panic_if (pgdir =? 0) "freevm: no pgdir" ;;
  deallocuvm pgdir UADDR_SZ 0 ;;
  loop (S (Z.to_nat PTRS_PER_PGD)) (freevm_dirs pgdir) 0 ;;
  kpt_free pgdir.

Definition clearpteu (pgdir uva : Z) : M st unit :=
  pte ← walkpgdir pgdir uva false;
  panic_if (pte =? 0) "clearpteu" ;;
  e ← ld64 pte;
  st64 pte (Z.lor (Z.land e (u64 (Z.lnot (Z.shiftl 3 6)))) AP_RW_1).

(** [inl] the next address, [inr true] at the end, [inr false] the label bad *)
Definition copyuvm_body (pgdir d sz i : Z) : M st (Z + bool) :=
  if i <? sz then
    pte ← walkpgdir pgdir i false;
    panic_if (pte =? 0) "copyuvm: pte should exist" ;;
    e ← ld64 pte;
    panic_if (negb (present e)) "copyuvm: page not present" ;;
    let pa := PTE_ADDR e in
    let ap := PTE_AP e in
    mem ← alloc_page;
    if mem =? 0 then mret (inr false) else
    memmove mem (p2v pa) PTE_SZ ;;
    r ← mappages d i PTE_SZ (u32 (v2p mem)) ap;
    if r <? 0 then mret (inr false) else mret (inl (u64 (i + PTE_SZ)))
  else mret (inr true).
Definition copyuvm (pgdir sz : Z) : M st Z :=
  d ← kpt_alloc;
  if d =? 0 then mret 0 else
  ok ← loop (S (Z.to_nat sz)) (copyuvm_body pgdir d sz) 0;
  if (ok : bool) then mret d else freevm d ;; mret 0.

(** a user address as a kernel address, 0 if it is not a user page *)
Definition uva2ka (pgdir uva : Z) : M st Z :=
  pte ← walkpgdir pgdir uva false;
  e ← ld64 pte;
  if negb (present e) then mret 0 else
  if negb (PTE_AP e =? AP_RW_1_0) then mret 0 else
  mret (p2v (PTE_ADDR e)).

(** [va] and [len] are uint, [buf] a kernel address *)
Definition copyout_body (pgdir : Z) (v : Z * Z * Z) : M st (Z * Z * Z + Z) :=
  let '(va, buf, len) := v : Z * Z * Z in
  if 0 <? len then
    let va0 := align_dn va PTE_SZ in
    pa0 ← uva2ka pgdir va0;
    if pa0 =? 0 then mret (inr (-1)) else
    let n := Z.min (PTE_SZ - (va - va0)) len in
    memmove (pa0 + (va - va0)) buf n ;;
    mret (inl (u32 (va0 + PTE_SZ), buf + n, u32 (len - n)))
  else mret (inr 0).
Definition copyout (pgdir va p len : Z) : M st Z :=
  loop (S (Z.to_nat len)) (copyout_body pgdir) (va, p, len).
End vm.
Arguments st : clear implicits.

(** ** Words *)

Lemma word_cong m m' a : (forall k, a <= k < a + 8 -> m' !! k = m !! k) -> word m' a = word m a.
Proof.
  intros H. unfold word. f_equal. apply Forall_mapM_ext, Forall_forall. intros i Hi. apply elem_of_seqZ in Hi. apply H. lia.
Qed.
Lemma word_bytes m a l : length l = 8%nat -> bytes_at m a l -> word m a = Some (of_le l).
Proof.
  intros Hl Hb. unfold word. assert (mapM (fun i => m !! (a + i)) (seqZ 0 8) = Some l) as ->; [|done].
  apply mapM_Some. apply Forall2_same_length_lookup_2; [by rewrite length_seqZ|]. intros i x y Hx Hy.
  apply lookup_seqZ in Hx as [-> _]. rewrite Z.add_0_l. by apply Hb.
Qed.
Lemma word_mapped m a : is_Some (word m a) <-> mapped m a 8.
Proof.
  split.
  - intros [v H]. unfold word in H. apply fmap_Some in H as (l & H & _). apply mapM_Some in H.
    intros i Hi. destruct (lookup_lt_is_Some_2 (seqZ 0 8) i) as [x Hx]; [by rewrite length_seqZ|].
    destruct (Forall2_lookup_l _ _ _ _ _ H Hx) as (y & Hy & E). apply lookup_seqZ in Hx as [-> _]. rewrite Z.add_0_l in E. by exists y.
  - intros H. set (l := (fun i => default 0 (m !! (a + Z.of_nat i))) <$> seq 0 8).
    exists (of_le l). apply word_bytes; [done|]. intros i x Hx. unfold l in Hx. rewrite list_lookup_fmap in Hx.
    destruct (seq 0 8 !! i) as [j|] eqn:E; [|done]. apply lookup_seq in E as [-> Hi]. injection Hx as <-.
    destruct (H i Hi) as [y Hy]. cbn [Nat.add] in *. by rewrite Hy.
Qed.
Lemma word_write m a v : word (write_bytes m a (le 8 v)) a = Some (v mod 2 ^ 64).
Proof. rewrite (word_bytes _ _ (le 8 v)); [by rewrite of_le_le|apply length_le|apply bytes_at_written]. Qed.
Lemma word_write_other m a l b : b + 8 <= a \/ a + Z.of_nat (length l) <= b -> word (write_bytes m a l) b = word m b.
Proof. intros H. apply word_cong. intros k Hk. rewrite lookup_write_bytes. case_decide; [lia|done]. Qed.
Lemma word_zero m a n b : a <= b -> b + 8 <= a + Z.of_nat n -> word (write_bytes m a (replicate n 0)) b = Some 0.
Proof.
  intros H1 H2. rewrite (word_bytes _ _ (replicate 8 0)); [done|done|]. intros i x Hx.
  apply lookup_replicate in Hx as [-> Hi]. rewrite lookup_write_bytes, length_replicate.
  case_decide; [|lia]. apply lookup_replicate. split; [done|lia].
Qed.

(** ** Entries *)

(** a page of the kernel's direct map *)
Definition page_ok (p : Z) : Prop := p mod 4096 = 0 /\ p2v PHY_START <= p /\ p + 4096 <= p2v PHYSTOP.
Definition link (p : Z) : Z := Z.lor (Z.lor (v2p p) ENTRY_TABLE) ENTRY_VALID.

Lemma page_range p : page_ok p -> KERNBASE + 0x40000000 <= p /\ p + 4096 <= KERNBASE + 0x48000000.
Proof. intros (_ & H1 & H2). exact (conj H1 H2). Qed.
Lemma v2p_page p : page_ok p -> v2p p = p - KERNBASE /\ 0x40000000 <= v2p p < 0x48000000 /\ v2p p mod 4096 = 0.
Proof.
  intros Hp. pose proof (page_range p Hp). destruct Hp as (Hm & _). unfold v2p, u64. rewrite Z.mod_small by (unfold KERNBASE in *; lia).
  split; [done|]. split; [lia|]. unfold KERNBASE. Z.div_mod_to_equations. lia.
Qed.
Lemma p2v_v2p p : page_ok p -> p2v (v2p p) = p.
Proof.
  intros Hp. pose proof (page_range p Hp). destruct (v2p_page p Hp) as (-> & _). unfold p2v, u64.
  rewrite Z.sub_add. apply Z.mod_small. unfold KERNBASE in *. lia.
Qed.
(** a number with its low twelve bits in another *)
Lemma lor_low x f : 0 <= x -> x mod 4096 = 0 -> 0 <= f < 4096 -> Z.lor x f = x + f.
Proof.
  intros Hx Hm Hf. rewrite <-Z.add_lor_land. enough (Z.land x f = 0) by lia.
  apply Z.bits_inj'. intros i Hi. rewrite Z.land_spec, Z.bits_0. destruct (Z.ltb_spec i 12).
  - replace x with (x / 4096 * 2 ^ 12) by (Z.div_mod_to_equations; lia). by rewrite Z.mul_pow2_bits_low by lia.
  - rewrite (Z.bits_above_log2 f i), andb_false_r; [done|lia|]. destruct (Z.eq_dec f 0) as [->|]; [cbn; lia|].
    assert (Z.log2 f < 12) by (apply Z.log2_lt_pow2; lia). lia.
Qed.
Lemma land_low x f g : 0 <= x -> x mod 4096 = 0 -> 0 <= f < 4096 -> 0 <= g < 4096 -> Z.land (x + f) g = Z.land f g.
Proof.
  intros Hx Hm Hf Hg. rewrite <-lor_low by done. rewrite Z.land_lor_distr_l.
  assert (Z.land x g = 0) as ->; [|done]. pose proof (lor_low x g Hx Hm Hg) as H. pose proof (Z.add_lor_land x g). lia.
Qed.
Lemma land_addr x f : 0 <= x < 2 ^ 48 -> x mod 4096 = 0 -> 0 <= f < 4096 -> Z.land (x + f) PG_ADDR_MASK = x.
Proof.
  intros Hx Hm Hf. change PG_ADDR_MASK with (Z.shiftl (Z.ones 36) 12). apply Z.bits_inj'. intros i Hi.
  rewrite Z.land_spec, Z.shiftl_spec by lia. rewrite <-lor_low by lia. rewrite Z.lor_spec. destruct (Z.ltb_spec i 12).
  - rewrite (Z.testbit_neg_r _ (i - 12)) by lia. rewrite andb_false_r.
    replace x with (x / 4096 * 2 ^ 12) by (Z.div_mod_to_equations; lia). by rewrite Z.mul_pow2_bits_low by lia.
  - assert (Z.testbit f i = false) as ->.
    { destruct (Z.eq_dec f 0) as [->|]; [apply Z.bits_0|]. apply Z.bits_above_log2; [lia|].
      assert (Z.log2 f < 12) by (apply Z.log2_lt_pow2; lia). lia. }
    rewrite orb_false_r. destruct (Z.ltb_spec i 48).
    + rewrite Z.ones_spec_low by lia. by rewrite andb_true_r.
    + rewrite Z.ones_spec_high by lia. rewrite andb_false_r. symmetry.
      destruct (Z.eq_dec x 0) as [->|]; [apply Z.bits_0|]. apply Z.bits_above_log2; [lia|].
      assert (Z.log2 x < 48) by (apply Z.log2_lt_pow2; lia). lia.
Qed.
Lemma link_spec p : page_ok p -> link p = v2p p + 3 /\ Z.land (link p) 3 = 3 /\ p2v (Z.land (link p) PG_ADDR_MASK) = p /\
  0 <= link p < 2 ^ 64.
Proof.
  intros Hp. destruct (v2p_page p Hp) as (_ & Hr & Hm). unfold link, ENTRY_TABLE, ENTRY_VALID.
  rewrite <-Z.lor_assoc. change (Z.lor 2 1) with 3. rewrite lor_low by lia. split; [done|].
  rewrite land_low by lia. split; [done|]. rewrite land_addr by lia. split; [by apply p2v_v2p|lia].
Qed.

End Vm.
