(* ===== verification/PageTable.v ===== *)
(** * The page tables as a translation (src/src/vm.c)

    The tables in memory define a translation of addresses ([entry],
    [translate]), the one the hardware uses.  Well-formed tables ([tables])
    give each page of table memory one role; walkpgdir() keeps them and the
    translations of every directory, mappages() changes the translation of
    the pages it maps and of nothing else. *)

From S2P Require Import Prelude.
From S2P Require Import Bytes.
From S2P Require Import KString.
From S2P Require Import Mmu.
From S2P Require Import Arm.
From S2P Require Import Buddy.
From S2P Require Import Alloc.
From S2P Require Import Vm.

Module PageTable.
Import Mmu.
Import Vm.

(** ** Pages of words *)

(** the bytes of a page *)
Definition pg : nat := Z.to_nat 4096.
Lemma pg_Z : Z.of_nat pg = 4096.
Proof. reflexivity. Qed.
#[global] Opaque pg.

Lemma page_sep p q i j : page_ok p -> page_ok q -> p <> q -> 0 <= i < 4096 -> 0 <= j < 4096 -> p + i <> q + j.
Proof. intros (H1 & _) (H2 & _) Hne Hi Hj E. apply Hne. Z.div_mod_to_equations. lia. Qed.
Lemma page_disj p q : page_ok p -> page_ok q -> p <> q -> p + 4096 <= q \/ q + 4096 <= p.
Proof. intros (H1 & _) (H2 & _) Hne. Z.div_mod_to_equations. lia. Qed.
Lemma page_nz p : page_ok p -> p <> 0.
Proof. intros Hp. pose proof (page_range p Hp). unfold KERNBASE in *. lia. Qed.

(** word [j] of page [q] after word [i] of page [p] has been written *)
Lemma word_set m p i q j v : page_ok p -> page_ok q -> 0 <= i < 512 -> 0 <= j < 512 ->
  word (write_bytes m (p + 8 * i) (le 8 v)) (q + 8 * j) =
    if decide ((p, i) = (q, j)) then Some (v mod 2 ^ 64) else word m (q + 8 * j).
Proof.
  intros Hp Hq Hi Hj. case_decide as E; [injection E as <- <-; apply word_write|]. apply word_write_other. rewrite length_le.
  destruct (decide (p = q)) as [->|Hne]; [|destruct (page_disj _ _ Hp Hq Hne); lia]. assert (i <> j) by congruence. lia.
Qed.
Lemma word_clear m p q j : page_ok p -> page_ok q -> 0 <= j < 512 ->
  word (write_bytes m p (replicate pg 0)) (q + 8 * j) = if decide (p = q) then Some 0 else word m (q + 8 * j).
Proof.
  intros Hp Hq Hj. pose proof pg_Z. case_decide as E; [subst q; apply word_zero; lia|].
  apply word_write_other. rewrite length_replicate.
  destruct (page_disj _ _ Hp Hq E); lia.
Qed.
Lemma page_word m p i : mapped m p pg -> 0 <= i < 512 -> is_Some (word m (p + 8 * i)).
Proof.
  intros Hm Hi. apply word_mapped. intros k Hk. pose proof pg_Z. specialize (Hm (Z.to_nat (8 * i + Z.of_nat k)) ltac:(lia)).
  replace (p + 8 * i + Z.of_nat k) with (p + Z.of_nat (Z.to_nat (8 * i + Z.of_nat k))) by lia. done.
Qed.

(** ** The translation a page table defines

    [translate m root va] is what the processor makes of the low 32 bits of
    address [va] with the directory at kernel address [root]: the physical
    address and the access it lets through.  [entry m root va] is the word
    walkpgdir() finds for [va], 0 when a level is missing. *)

Definition translate (m : mem) (root va : Z) : option (Z * Arm.access) := Arm.walk (fun a => word m (p2v a)) (v2p root) va.
Definition table_at (m : mem) (a : Z) : option Z :=
  e ← word m a; if Z.land e 3 =? 0 then None else Some (p2v (Z.land e PG_ADDR_MASK)).
Definition slot (m : mem) (root va : Z) : option Z :=
  b ← table_at m (root + 8 * PGD_IDX va);
  c ← table_at m (b + 8 * PMD_IDX va);
  Some (c + 8 * PTE_IDX va).
Definition entry (m : mem) (root va : Z) : Z := default 0 (slot m root va ≫= word m).
(** what a last-level entry translates [va] to *)
Definition page_of (e va : Z) : option (Z * Arm.access) := if Arm.field e 0 2 =? 3 then Arm.leaf e 12 va else None.

(** the index of the page of [va] in the translation: 32 bits of address *)
Definition vpn (va : Z) : Z := va / 4096 mod 2 ^ 20.

Lemma idx_vpn va : PGD_IDX va = vpn va / 2 ^ 18 /\ PMD_IDX va = vpn va / 2 ^ 9 mod 2 ^ 9 /\ PTE_IDX va = vpn va mod 2 ^ 9.
Proof.
  unfold PGD_IDX, PMD_IDX, PTE_IDX, PTRS_PER_PGD, PTRS_PER_PMD, PTRS_PER_PTE, PGD_SHIFT, PMD_SHIFT, PTE_SHIFT, vpn.
  change (4 - 1) with (Z.ones 2). change (512 - 1) with (Z.ones 9). rewrite !Z.land_ones, !Z.shiftr_div_pow2 by lia.
  change 4096 with (2 ^ 12). set (x := va / 2 ^ 12). assert (va / 2 ^ 30 = x / 2 ^ 18 /\ va / 2 ^ 21 = x / 2 ^ 9) as [-> ->].
  { unfold x. rewrite !Z.div_div by lia. done. }
  clearbody x. change (2 ^ 18) with 262144. change (2 ^ 2) with 4. change (2 ^ 20) with 1048576. change (2 ^ 9) with 512.
  split; [|split]; Z.div_mod_to_equations; lia.
Qed.
Lemma idx_range va : 0 <= PGD_IDX va < 4 /\ 0 <= PMD_IDX va < 512 /\ 0 <= PTE_IDX va < 512.
Proof. destruct (idx_vpn va) as (-> & -> & ->). unfold vpn. Z.div_mod_to_equations. lia. Qed.
Lemma idx_inj x y : (PGD_IDX x, PMD_IDX x, PTE_IDX x) = (PGD_IDX y, PMD_IDX y, PTE_IDX y) <-> vpn x = vpn y.
Proof.
  destruct (idx_vpn x) as (-> & -> & ->), (idx_vpn y) as (-> & -> & ->). split; [|by intros ->].
  intros [= H1 H2 H3]. pose proof (Z.mod_pos_bound (x / 4096) (2 ^ 20) ltac:(lia)). pose proof (Z.mod_pos_bound (y / 4096) (2 ^ 20) ltac:(lia)).
  fold (vpn x) in *. fold (vpn y) in *. Z.div_mod_to_equations. lia.
Qed.

(** the translation depends on the page only *)
Lemma entry_vpn m root x y : vpn x = vpn y -> entry m root x = entry m root y.
Proof. intros H. apply idx_inj in H. injection H as H1 H2 H3. unfold entry, slot. by rewrite H1, H2, H3. Qed.

(** ** Well-formed tables

    Every page of kernel memory that page tables use has one role: a
    directory, the middle-level table of an entry of a directory, the
    last-level table of a pair of entries, or unused and on the list of
    kpt_mem.  Any number of directories share the pages. *)

Inductive role : Type := Dir | Mid (r i : Z) | Leaf (r i j : Z) | Spare.
#[export] Instance role_eq_dec : EqDecision role.
Proof. solve_decision. Defined.

(** the list of free pages from [f] *)
Fixpoint chain (m : mem) (f : Z) (L : list Z) : Prop :=
  match L with
  | [] => f = 0
  | p :: L => f = p /\ exists n, word m p = Some n /\ chain m n L
  end.
(** entry [i] of table [b] holds 0 or a link to a table of role [r] *)
Definition entry_ok (m : mem) (G : gmap Z role) (a : Z) (r : role) : Prop :=
  word m a = Some 0 \/ exists c, word m a = Some (link c) /\ G !! c = Some r.
Definition parent (G : gmap Z role) (b i : Z) (r : role) : Prop :=
  G !! b = Some Dir /\ 0 <= i < 4 /\ r = Mid b i \/
  exists t k, G !! b = Some (Mid t k) /\ 0 <= i < 512 /\ r = Leaf t k i.

Record tables (m : mem) (f : Z) (G : gmap Z role) (L : list Z) : Prop := {
  tb_page p r : G !! p = Some r -> page_ok p /\ mapped m p pg;
  tb_entry b i r : parent G b i r -> entry_ok m G (b + 8 * i) r;
  tb_chain : chain m f L;
  tb_spare p : p ∈ L -> G !! p = Some Spare;
  tb_nodup : NoDup L;
}.

Section vm_proofs.
Context {P : Type} {PA : PageAlloc P}.
Implicit Types (s : st P) (m : mem) (G : gmap Z role) (L : list Z).

Definition space s G L : Prop := klock s = false /\ tables (kmem s) (freelist s) G L.

(** bytes outside the tables *)
Definition frame m m' G : Prop := forall k, (forall p r, G !! p = Some r -> ~ p <= k < p + 4096) -> m' !! k = m !! k.

Lemma parent_typed G b i r : parent G b i r ->
  exists rb, G !! b = Some rb /\ rb <> Spare /\ 0 <= i < 512 /\ r <> Spare /\ r <> Dir.
Proof. intros [(Hb & Hi & ->)|(t & k & Hb & Hi & ->)]; eexists; (split; [done|]); repeat split; try done; lia. Qed.


Lemma chain_cong m m' f L : (forall p, p ∈ L -> word m' p = word m p) -> chain m f L -> chain m' f L.
Proof.
  revert f. induction L as [|p L IH]; intros f Hw; [done|]. cbn. intros (-> & n & Hn & Hc). split; [done|]. exists n.
  split; [rewrite Hw; [done|set_solver]|]. apply IH; [set_solver|done].
Qed.

Lemma ld64_wp s a v (Q : Z -> st P -> Prop) : word (kmem s) a = Some v -> Q v s -> wp (ld64 a) Q s.
Proof. intros H HQ. unfold ld64. by eapply wp_deref. Qed.
Definition put_mem (m : mem) s : st P := St m (klock s) (freelist s) (pages s).
Lemma st64_wp s a v (Q : unit -> st P -> Prop) : is_Some (word (kmem s) a) ->
  Q tt (put_mem (write_bytes (kmem s) a (le 8 (u64 v))) s) -> wp (st64 a v) Q s.
Proof. intros [x H] HQ. unfold st64. apply wp_bind. eapply wp_deref; [done|]. exact HQ. Qed.
Lemma memset_page s p (Q : unit -> st P -> Prop) : mapped (kmem s) p pg ->
  Q tt (put_mem (write_bytes (kmem s) p (replicate pg 0)) s) -> wp (memset p 0 PT_SZ) Q s.
Proof.
  intros Hm HQ. unfold memset. apply wp_bind, wp_zoom. eapply wp_eq; [|exact HQ].
  change PT_SZ with 4096. by rewrite (memset_fill _ _ _ _ Hm).
Qed.

(** the first page of the list, cleared *)
Lemma kpt_alloc_spec s G p L : space s G (p :: L) ->
  wp kpt_alloc (fun r s' => r = p /\ space s' G L /\ (forall j, 0 <= j < 512 -> word (kmem s') (p + 8 * j) = Some 0) /\
    (forall q j r, G !! q = Some r -> q <> p -> 0 <= j < 512 -> word (kmem s') (q + 8 * j) = word (kmem s) (q + 8 * j)) /\
    kmem s' = write_bytes (kmem s) p (replicate pg 0) /\ frame (kmem s) (kmem s') G /\ pages s' = pages s) s.
Proof.
  intros (Hl & Ht). destruct (tb_chain _ _ _ _ Ht) as (Hf & n & Hn & Hch).
  pose proof (tb_spare _ _ _ _ Ht p ltac:(set_solver)) as Hp. destruct (tb_page _ _ _ _ Ht _ _ Hp) as (Hpo & Hpm).
  pose proof (page_nz p Hpo) as Hnz. apply Z.eqb_neq in Hnz. pose proof (tb_nodup _ _ _ _ Ht) as Hnd. apply NoDup_cons in Hnd as [Hpl Hnd].
  unfold kpt_alloc. wp_steps. cbn [kpt_lock lset lget freelist klock kmem pages]. rewrite Hf, Hnz. cbn [negb when]. wp_steps. eapply ld64_wp; [done|]. unfold set_freelist. wp_steps.
  apply memset_page; [done|]. cbn. wp_steps.
  assert (forall q j r, G !! q = Some r -> 0 <= j < 512 -> word (write_bytes (kmem s) p (replicate pg 0)) (q + 8 * j) =
    if decide (p = q) then Some 0 else word (kmem s) (q + 8 * j)) as Hw.
  { intros q j r Hq Hj. apply word_clear; [done| |done]. by destruct (tb_page _ _ _ _ Ht _ _ Hq). }
  split; [done|]. split; [|split; [|split; [|split; [done|split]]]].
  - split; [done|]. cbn. constructor.
    + intros q r Hq. destruct (tb_page _ _ _ _ Ht _ _ Hq). split; [done|]. by apply mapped_write.
    + intros b i r Hpar. destruct (parent_typed _ _ _ _ Hpar) as (rb & Hb & Hns & Hi & _).
      unfold entry_ok. rewrite (Hw _ _ _ Hb Hi). case_decide; [congruence|]. by apply (tb_entry _ _ _ _ Ht).
    + eapply chain_cong; [|done]. intros q Hq.
      pose proof (Hw q 0 Spare (tb_spare _ _ _ _ Ht q ltac:(set_solver)) ltac:(lia)) as E.
      rewrite Z.mul_0_r, Z.add_0_r in E. rewrite E. case_decide; [set_solver|done].
    + intros q Hq. apply (tb_spare _ _ _ _ Ht). set_solver.
    + done.
  - intros j Hj. rewrite (Hw _ _ _ Hp Hj). by case_decide.
  - intros q j r Hq Hne Hj. rewrite (Hw _ _ _ Hq Hj). by case_decide.
  - intros k Hk. cbn. rewrite lookup_write_bytes, length_replicate, pg_Z. case_decide; [|done]. exfalso. apply (Hk _ _ Hp). lia.
  - done.
Qed.
Lemma link_at p : page_ok p -> Z.land (link p) 3 <> 0 /\ link p mod 2 ^ 64 = link p /\ p2v (Z.land (link p) PG_ADDR_MASK) = p.
Proof. intros Hp. destruct (link_spec p Hp) as (_ & -> & -> & Hr). split; [done|]. split; [by apply Z.mod_small|done]. Qed.
Lemma table_at_ok m f G L a r : tables m f G L -> entry_ok m G a r ->
  (word m a = Some 0 /\ table_at m a = None) \/ exists c, word m a = Some (link c) /\ G !! c = Some r /\ table_at m a = Some c.
Proof.
  intros Ht [H|(c & H & Hc)]; unfold table_at; rewrite H; cbn [mbind option_bind]; [by left|right]. exists c.
  destruct (link_at c) as (Hn & _ & ->); [by eapply tb_page|]. apply Z.eqb_neq in Hn. by rewrite Hn.
Qed.
(** the processor and walkpgdir() find the same entry *)
Lemma next_link p : page_ok p -> Arm.field (link p) 0 2 = 3 /\ Arm.next_level (link p) = Some (v2p p).
Proof.
  intros Hp. destruct (link_spec p Hp) as (-> & Hl & _). destruct (v2p_page p Hp) as (_ & Hr & Hm). split.
  - rewrite Arm.field_low by lia. done.
  - apply Arm.next_level_low; lia.
Qed.
Lemma p2v_at p i : page_ok p -> 0 <= i < 512 -> p2v (v2p p + 8 * i) = p + 8 * i.
Proof.
  intros Hp Hi. destruct (v2p_page p Hp) as (-> & Hr & _). pose proof (page_range p Hp). unfold p2v, u64, KERNBASE in *. rewrite Z.mod_small by lia. lia.
Qed.
Lemma translate_entry m root f G L va : tables m f G L -> G !! root = Some Dir -> translate m root va = page_of (entry m root va) va.
Proof.
  intros Ht Hroot. destruct (idx_range va) as (I1 & I2 & I3). destruct (tb_page _ _ _ _ Ht _ _ Hroot) as [Hro _].
  assert (parent G root (PGD_IDX va) (Mid root (PGD_IDX va))) as P1 by (left; done).
  unfold translate, Arm.walk, entry, slot. change (Arm.field va 30 2) with (PGD_IDX va). rewrite p2v_at by (done || lia).
  destruct (table_at_ok _ _ _ _ _ _ Ht (tb_entry _ _ _ _ Ht _ _ _ P1)) as [(-> & ->)|(b & -> & Hb & ->)]; [done|].
  destruct (tb_page _ _ _ _ Ht _ _ Hb) as [Hbo _]. cbn [mbind option_bind]. destruct (next_link b Hbo) as [-> ->]. change (3 =? 3) with true. cbn [mbind option_bind].
  unfold Arm.level2. change (Arm.field va 21 9) with (PMD_IDX va). rewrite p2v_at by (done || lia).
  assert (parent G b (PMD_IDX va) (Leaf root (PGD_IDX va) (PMD_IDX va))) as P2 by (right; by exists root, (PGD_IDX va)).
  destruct (table_at_ok _ _ _ _ _ _ Ht (tb_entry _ _ _ _ Ht _ _ _ P2)) as [(-> & ->)|(c & -> & Hc & ->)]; [done|].
  destruct (tb_page _ _ _ _ Ht _ _ Hc) as [Hco _]. cbn [mbind option_bind]. destruct (next_link c Hco) as [-> ->]. change (3 =? 3) with true. cbn [mbind option_bind].
  unfold Arm.level3. change (Arm.field va 12 9) with (PTE_IDX va). rewrite p2v_at by (done || lia). by destruct (word m (c + 8 * PTE_IDX va)).
Qed.
Lemma table_at_cong m m' a : word m' a = word m a -> table_at m' a = table_at m a.
Proof. unfold table_at. by intros ->. Qed.

(** linking the clear page [p] into an empty entry *)
Lemma install m f G L b i r p : tables m f G L -> parent G b i r -> word m (b + 8 * i) = Some 0 ->
  G !! p = Some Spare -> p ∉ L -> (forall j, 0 <= j < 512 -> word m (p + 8 * j) = Some 0) ->
  let m' := write_bytes m (b + 8 * i) (le 8 (link p)) in
  tables m' f (<[p := r]> G) L /\ word m' (b + 8 * i) = Some (link p) /\
  forall root va, G !! root = Some Dir -> entry m' root va = entry m root va.
Proof.
  intros Ht Hpar He Hp HpL Hz m'. destruct (parent_typed _ _ _ _ Hpar) as (rb & Hb & Hns & Hi & Hrs & Hrd).
  destruct (link_at p) as (Hl1 & Hl2 & Hl3); [by eapply tb_page|].
  assert (forall q j rq, G !! q = Some rq -> 0 <= j < 512 ->
    word m' (q + 8 * j) = if decide ((b, i) = (q, j)) then Some (link p) else word m (q + 8 * j)) as Hw.
  { intros q j rq Hq Hj. unfold m'. rewrite word_set; [by rewrite Hl2| | |done|done]; by eapply tb_page. }
  assert (b <> p) as Hbp by congruence.
  assert (forall j, 0 <= j < 512 -> word m' (p + 8 * j) = Some 0) as Hz'.
  { intros j Hj. rewrite (Hw _ _ _ Hp Hj). case_decide; [congruence|by apply Hz]. }
  assert (forall b' i' r', parent (<[p := r]> G) b' i' r' -> b' = p /\ 0 <= i' < 512 \/ b' <> p /\ parent G b' i' r') as Hpp.
  { intros b' i' r' [(H1 & H2 & ->)|(t & k & H1 & H2 & ->)].
    - destruct (decide (b' = p)) as [->|Hne]; [left; split; [done|lia]|]. rewrite lookup_insert_ne in H1 by done. right. split; [done|by left].
    - destruct (decide (b' = p)) as [->|Hne]; [by left|]. rewrite lookup_insert_ne in H1 by done. right. split; [done|]. right. by exists t, k. }
  assert (forall a r', r' <> Spare -> entry_ok m G a r' -> entry_ok m (<[p := r]> G) a r') as Hmono.
  { intros a r' Hr' [H|(c & H & Hc)]; [by left|right]. exists c. split; [done|]. rewrite lookup_insert_ne by congruence. done. }
  split; [constructor|split].
  - intros q rq Hq. assert (is_Some (G !! q)) as [rq' Hq']. { destruct (decide (q = p)) as [->|]; [by eexists|]. rewrite lookup_insert_ne in Hq by done. by eexists. }
    destruct (tb_page _ _ _ _ Ht _ _ Hq'). split; [done|]. by apply mapped_write.
  - intros b' i' r' [[-> Hi']|[Hne Hpar']]%Hpp.
    + left. by apply Hz'.
    + destruct (parent_typed _ _ _ _ Hpar') as (rb' & Hb' & Hns' & Hi' & Hrs' & _).
      unfold entry_ok. rewrite (Hw _ _ _ Hb' Hi'). case_decide as E.
      * injection E as <- <-. right. exists p. split; [done|]. rewrite lookup_insert_eq. f_equal.
        destruct Hpar as [(H1 & _ & ->)|(t & k & H1 & _ & ->)], Hpar' as [(H2 & _ & ->)|(t' & k' & H2 & _ & ->)]; congruence.
      * apply Hmono; [done|]. by apply (tb_entry _ _ _ _ Ht).
  - eapply chain_cong; [|apply Ht]. intros q Hq. pose proof (tb_spare _ _ _ _ Ht q Hq) as Hsq.
    pose proof (Hw q 0 Spare Hsq ltac:(lia)) as E. rewrite Z.mul_0_r, Z.add_0_r in E. rewrite E. case_decide; [congruence|done].
  - intros q Hq. rewrite lookup_insert_ne; [by apply (tb_spare _ _ _ _ Ht)|]. set_solver.
  - apply Ht.
  - rewrite (Hw _ _ _ Hb Hi). by case_decide.
  - intros root va Hroot. destruct (idx_range va) as (I1 & I2 & I3).
    assert (parent G root (PGD_IDX va) (Mid root (PGD_IDX va))) as P1 by (left; done).
    pose proof (Hw root (PGD_IDX va) Dir Hroot ltac:(lia)) as W1.
    assert (table_at m' (b + 8 * i) = Some p) as Hnew.
    { unfold table_at. rewrite (Hw _ _ _ Hb Hi). rewrite decide_True by done. cbn. rewrite Hl3. apply Z.eqb_neq in Hl1. by rewrite Hl1. }
    unfold entry, slot. case_decide as E1.
    + injection E1 as -> ->. rewrite Hnew. unfold table_at. rewrite He. cbn [mbind option_bind]. by rewrite Hz' by lia.
    + rewrite (table_at_cong _ _ _ W1). destruct (table_at_ok _ _ _ _ _ _ Ht (tb_entry _ _ _ _ Ht _ _ _ P1)) as [(_ & ->)|(b1 & _ & Hb1 & ->)]; [done|].
      cbn [mbind option_bind]. pose proof (Hw _ _ _ Hb1 I2) as W2.
      assert (parent G b1 (PMD_IDX va) (Leaf root (PGD_IDX va) (PMD_IDX va))) as P2 by (right; by exists root, (PGD_IDX va)).
      case_decide as E2.
      * injection E2 as -> ->. rewrite Hnew. unfold table_at. rewrite He. cbn [mbind option_bind]. by rewrite Hz' by lia.
      * rewrite (table_at_cong _ _ _ W2).
        destruct (table_at_ok _ _ _ _ _ _ Ht (tb_entry _ _ _ _ Ht _ _ _ P2)) as [(_ & ->)|(c & _ & Hc & ->)]; [done|].
        cbn [mbind option_bind]. rewrite (Hw _ _ _ Hc I3). case_decide as E3; [|done]. injection E3 as -> ->.
        destruct Hpar as [(H1 & _ & ->)|(t & k & H1 & _ & ->)]; congruence.
Qed.

(** the tables grow: at most [n] pages leave the list, no role is lost *)
Definition grows G L G' L' (n : nat) : Prop :=
  (forall p r, G !! p = Some r -> r <> Spare -> G' !! p = Some r) /\ dom G' = dom G /\
  exists L1, L = L1 ++ L' /\ (length L1 <= n)%nat.
Lemma grows_refl G L n : grows G L G L n.
Proof. split; [done|]. split; [done|]. exists []. split; [done|cbn; lia]. Qed.
Lemma grows_trans G L G1 L1 n1 G2 L2 n2 : grows G L G1 L1 n1 -> grows G1 L1 G2 L2 n2 -> grows G L G2 L2 (n1 + n2).
Proof.
  intros (R1 & D1 & K1 & -> & N1) (R2 & D2 & K2 & -> & N2). split; [eauto|]. split; [congruence|].
  exists (K1 ++ K2). split; [by rewrite app_assoc|]. rewrite length_app. lia.
Qed.
Lemma frame_trans m m1 m2 G G1 : dom G1 = dom G -> frame m m1 G -> frame m1 m2 G1 -> frame m m2 G.
Proof.
  intros Hd F1 F2 k Hk. rewrite F2; [by apply F1|]. intros p r Hp. assert (is_Some (G !! p)) as [r' Hr'].
  { apply elem_of_dom. rewrite <-Hd. apply elem_of_dom. by eexists. } by eapply Hk.
Qed.
Lemma clear_twice m p : write_bytes (write_bytes m p (replicate pg 0)) p (replicate pg 0) = write_bytes m p (replicate pg 0).
Proof. apply map_eq. intros k. rewrite !lookup_write_bytes. by case_decide. Qed.
Lemma frame_word m a v p r G : G !! p = Some r -> p <= a -> a + 8 <= p + 4096 -> frame m (write_bytes m a (le 8 v)) G.
Proof. intros Hp H1 H2 k Hk. rewrite lookup_write_bytes, length_le. case_decide; [|done]. exfalso. apply (Hk _ _ Hp). lia. Qed.

(** the walk reads the tables in use only *)
Definition inner (r : role) : Prop := match r with Dir | Mid _ _ => True | _ => False end.
Lemma slot_leaf m root f G L va pte : tables m f G L -> G !! root = Some Dir -> slot m root va = Some pte ->
  exists c, G !! c = Some (Leaf root (PGD_IDX va) (PMD_IDX va)) /\ pte = c + 8 * PTE_IDX va.
Proof.
  intros Ht Hroot. destruct (idx_range va) as (I1 & I2 & I3). unfold slot.
  assert (parent G root (PGD_IDX va) (Mid root (PGD_IDX va))) as P1 by (left; done).
  destruct (table_at_ok _ _ _ _ _ _ Ht (tb_entry _ _ _ _ Ht _ _ _ P1)) as [(_ & ->)|(b1 & _ & Hb1 & ->)]; [done|].
  cbn [mbind option_bind]. assert (parent G b1 (PMD_IDX va) (Leaf root (PGD_IDX va) (PMD_IDX va))) as P2 by (right; by exists root, (PGD_IDX va)).
  destruct (table_at_ok _ _ _ _ _ _ Ht (tb_entry _ _ _ _ Ht _ _ _ P2)) as [(_ & ->)|(c & _ & Hc & ->)]; [done|].
  intros [= <-]. by exists c.
Qed.
Lemma slot_cong m m' root f G L : tables m f G L -> G !! root = Some Dir ->
  (forall q j r, G !! q = Some r -> inner r -> 0 <= j < 512 -> word m' (q + 8 * j) = word m (q + 8 * j)) ->
  forall va, slot m' root va = slot m root va.
Proof.
  intros Ht Hroot Hw va. destruct (idx_range va) as (I1 & I2 & I3).
  assert (parent G root (PGD_IDX va) (Mid root (PGD_IDX va))) as P1 by (left; done).
  unfold slot. rewrite (table_at_cong m m') by (eapply Hw; [done|done|lia]).
  destruct (table_at_ok _ _ _ _ _ _ Ht (tb_entry _ _ _ _ Ht _ _ _ P1)) as [(_ & ->)|(b1 & _ & Hb1 & ->)]; [done|].
  cbn [mbind option_bind]. by rewrite (table_at_cong m m') by (by eapply Hw).
Qed.
Lemma walk_cong m m' root f G L : tables m f G L -> G !! root = Some Dir ->
  (forall q j r, G !! q = Some r -> r <> Spare -> 0 <= j < 512 -> word m' (q + 8 * j) = word m (q + 8 * j)) ->
  forall va, entry m' root va = entry m root va.
Proof.
  intros Ht Hroot Hw va. unfold entry. rewrite (slot_cong m m' root f G L Ht Hroot) by (intros q j r Hq Hr; apply (Hw _ _ _ Hq); by destruct r).
  destruct (slot m root va) as [pte|] eqn:E; [|done]. destruct (slot_leaf _ _ _ _ _ _ _ Ht Hroot E) as (c & Hc & ->). cbn [mbind option_bind].
  destruct (idx_range va) as (_ & _ & I3). by rewrite (Hw _ _ _ Hc).
Qed.

(** every directory translates as before *)
Definition same m m' G : Prop := forall root x, G !! root = Some Dir -> entry m' root x = entry m root x.
Lemma pt_same_trans m m1 m2 G L G1 L1 n : grows G L G1 L1 n -> same m m1 G -> same m1 m2 G1 -> same m m2 G.
Proof. intros (Hg & _) H1 H2 root x Hr. rewrite H2 by (by apply Hg). by apply H1. Qed.

Lemma next_table_found s G L b i r : space s G L -> parent G b i r -> word (kmem s) (b + 8 * i) <> Some 0 ->
  exists c, G !! c = Some r /\ word (kmem s) (b + 8 * i) = Some (link c) /\
    forall alloc, next_table (b + 8 * i) alloc s = Done c s.
Proof.
  intros (_ & Ht) Hpar Hne. destruct (tb_entry _ _ _ _ Ht _ _ _ Hpar) as [?|(c & Hw & Hc)]; [done|]. exists c.
  split; [done|]. split; [done|]. intros alloc. destruct (link_at c) as (H1 & _ & H3); [by eapply tb_page|].
  apply Z.eqb_neq in H1. unfold next_table, ld64, deref, mbind, M_bind. rewrite Hw.
  change (Z.lor ENTRY_TABLE ENTRY_VALID) with 3. rewrite H1. cbn [negb]. by rewrite H3.
Qed.
Lemma next_table_none s a : word (kmem s) a = Some 0 -> next_table a false s = Done 0 s.
Proof. intros Hw. unfold next_table, ld64, deref, mbind, M_bind. rewrite Hw. done. Qed.

Lemma next_table_alloc s G p L b i r : space s G (p :: L) -> parent G b i r ->
  wp (next_table (b + 8 * i) true) (fun c s' => exists G' L', space s' G' L' /\ G' !! c = Some r /\
    word (kmem s') (b + 8 * i) = Some (link c) /\ same (kmem s) (kmem s') G /\
    grows G (p :: L) G' L' 1 /\ frame (kmem s) (kmem s') G /\ pages s' = pages s /\
    (forall q j rq, G !! q = Some rq -> rq <> Spare -> 0 <= j < 512 -> (q, j) <> (b, i) ->
      word (kmem s') (q + 8 * j) = word (kmem s) (q + 8 * j))) s.
Proof.
  intros Hs Hpar. destruct (decide (word (kmem s) (b + 8 * i) = Some 0)) as [He|Hne].
  2:{ destruct (next_table_found s G (p :: L) b i r Hs Hpar Hne) as (c & Hc & Hw & Hrun). eapply wp_eq; [apply Hrun|].
      exists G, (p :: L). do 4 (split; [done|]). split; [apply grows_refl|done]. }
  destruct (parent_typed _ _ _ _ Hpar) as (rb & Hb & Hns & Hi & Hrs & _).
  pose proof (tb_spare _ _ _ _ (proj2 Hs) p ltac:(set_solver)) as Hp.
  pose proof (tb_nodup _ _ _ _ (proj2 Hs)) as Hnd. apply NoDup_cons in Hnd as [HpL _].
  destruct (tb_page _ _ _ _ (proj2 Hs) _ _ Hp) as [Hpo Hpm]. pose proof (page_nz p Hpo) as Hnz. apply Z.eqb_neq in Hnz.
  assert (b <> p) as Hbp by congruence. pose proof (link_at p Hpo) as (_ & Hl & _).
  unfold next_table. apply wp_bind. eapply ld64_wp; [done|]. cbn [Z.land Z.eqb negb].
  apply wp_bind. eapply wp_mono; [by apply (kpt_alloc_spec s G p L)|]. cbn beta.
  intros _ s1 (-> & Hs1 & Hz & Hw1 & Hm1 & Hf1 & Hpg). rewrite Hnz.
  apply wp_bind. apply memset_page. { rewrite Hm1. by apply mapped_write. }
  assert (put_mem (write_bytes (kmem s1) p (replicate pg 0)) s1 = s1) as ->.
  { rewrite Hm1, clear_twice, <-Hm1. by destruct s1. }
  assert (word (kmem s1) (b + 8 * i) = Some 0) as He1 by (by rewrite (Hw1 _ _ _ Hb Hbp Hi)).
  apply wp_bind. apply st64_wp; [by eexists|]. fold (link p). apply wp_ret. unfold u64. rewrite Hl.
  destruct (install _ _ _ _ _ _ _ _ (proj2 Hs1) Hpar He1 Hp HpL Hz) as (Ht2 & Hw2 & Hent).
  exists (<[p := r]> G), L. split; [by split; [apply Hs1|]|]. split; [apply lookup_insert_eq|]. split; [done|].
  split; [|split; [|split; [|split; [done|]]]].
  - intros root va Hroot. unfold put_mem. cbn [kmem]. rewrite Hent by done.
    apply (walk_cong _ _ _ _ _ _ (proj2 Hs) Hroot). intros q j rq Hq Hrq Hj. apply (Hw1 _ _ _ Hq); [congruence|done].
  - split; [|split; [by rewrite dom_insert_lookup_L by (by eexists)|by exists [p]]].
    intros q rq Hq Hrq. rewrite lookup_insert_ne by congruence. done.
  - eapply frame_trans; [|exact Hf1|by apply (frame_word _ _ _ _ _ _ Hb); lia]. done.
  - intros q j rq Hq Hrq Hj Hne. unfold put_mem. cbn [kmem].
    rewrite word_set; [| | |done|done]; [|by eapply (tb_page _ _ _ _ (proj2 Hs))|by eapply (tb_page _ _ _ _ (proj2 Hs))].
    rewrite decide_False by congruence. apply (Hw1 _ _ _ Hq); [congruence|done].
Qed.

Lemma walkpgdir_alloc s root G L va : space s G L -> G !! root = Some Dir -> (2 <= length L)%nat ->
  wp (walkpgdir root va true) (fun pte s' => exists G' L', space s' G' L' /\ slot (kmem s') root va = Some pte /\
    same (kmem s) (kmem s') G /\ grows G L G' L' 2 /\ frame (kmem s) (kmem s') G /\
    pages s' = pages s) s.
Proof.
  intros Hs Hroot HL. destruct L as [|p L]; [cbn in HL; lia|]. destruct (idx_range va) as (I1 & I2 & I3).
  assert (parent G root (PGD_IDX va) (Mid root (PGD_IDX va))) as P1 by (left; done).
  unfold walkpgdir. apply wp_bind. eapply wp_mono; [by apply (next_table_alloc s G p L)|]. cbn beta.
  intros b s1 (G1 & L1 & Hs1 & Hb & Hw1 & He1 & Hg1 & Hf1 & Hpg1 & _).
  destruct (tb_page _ _ _ _ (proj2 Hs1) _ _ Hb) as [Hbo _]. pose proof (page_nz b Hbo) as Hbn. apply Z.eqb_neq in Hbn. rewrite Hbn.
  destruct L1 as [|p1 L1]. { destruct Hg1 as (_ & _ & K & E & HK). rewrite app_nil_r in E. subst K. cbn in *. lia. }
  assert (parent G1 b (PMD_IDX va) (Leaf root (PGD_IDX va) (PMD_IDX va))) as P2 by (right; by exists root, (PGD_IDX va)).
  apply wp_bind. eapply wp_mono; [by apply (next_table_alloc s1 G1 p1 L1)|]. cbn beta.
  intros c s2 (G2 & L2 & Hs2 & Hc & Hw2 & He2 & Hg2 & Hf2 & Hpg2 & Ho2).
  destruct (tb_page _ _ _ _ (proj2 Hs2) _ _ Hc) as [Hco _]. pose proof (page_nz c Hco) as Hcn. apply Z.eqb_neq in Hcn. rewrite Hcn.
  apply wp_ret. exists G2, L2. split; [done|]. split; [|split; [|split; [|split]]].
  - pose proof (proj1 Hg1 _ _ Hroot ltac:(done)) as Hroot1. unfold slot, table_at. rewrite (Ho2 root (PGD_IDX va) Dir Hroot1), Hw1; [|done|lia|congruence]. cbn [mbind option_bind].
    destruct (link_at b Hbo) as (N1 & _ & ->). apply Z.eqb_neq in N1. rewrite N1. cbn [mbind option_bind]. rewrite Hw2. cbn [mbind option_bind].
    destruct (link_at c Hco) as (N2 & _ & ->). apply Z.eqb_neq in N2. by rewrite N2.
  - by eapply pt_same_trans.
  - by apply (grows_trans _ _ G1 (p1 :: L1) 1 _ _ 1).
  - eapply frame_trans; [|done|done]. apply Hg1.
  - congruence.
Qed.

Lemma walkpgdir_find s root G L va : space s G L -> G !! root = Some Dir ->
  walkpgdir root va false s = Done (default 0 (slot (kmem s) root va)) s.
Proof.
  intros Hs Hroot. destruct (idx_range va) as (I1 & I2 & I3). pose proof (proj2 Hs) as Ht.
  assert (parent G root (PGD_IDX va) (Mid root (PGD_IDX va))) as P1 by (left; done).
  unfold walkpgdir, slot. destruct (table_at_ok _ _ _ _ _ _ Ht (tb_entry _ _ _ _ Ht _ _ _ P1)) as [(H0 & ->)|(b & Hw & Hb & ->)].
  { by rewrite (bind_done _ _ _ _ _ (next_table_none _ _ H0)). }
  assert (forall p r, G !! p = Some r -> (p =? 0) = false) as Hnz.
  { intros p r Hp. apply Z.eqb_neq, page_nz. by eapply tb_page. }
  destruct (link_at b) as (N1 & _); [by eapply tb_page|].
  destruct (next_table_found s G L _ _ _ Hs P1) as (b' & Hb' & Hw' & Hrun).
  { rewrite Hw. intros [= E]. by rewrite E in N1. }
  rewrite (bind_done _ _ _ _ _ (Hrun false)). assert (b' = b) as ->.
  { rewrite Hw in Hw'. injection Hw' as E. destruct (link_at b) as (_ & _ & <-); [by eapply tb_page|].
    destruct (link_at b') as (_ & _ & <-); [by eapply tb_page|]. by rewrite E. }
  rewrite (Hnz _ _ Hb). cbn [mbind option_bind].
  assert (parent G b (PMD_IDX va) (Leaf root (PGD_IDX va) (PMD_IDX va))) as P2 by (right; by exists root, (PGD_IDX va)).
  destruct (table_at_ok _ _ _ _ _ _ Ht (tb_entry _ _ _ _ Ht _ _ _ P2)) as [(H0 & ->)|(c & Hw2 & Hc & ->)].
  { by rewrite (bind_done _ _ _ _ _ (next_table_none _ _ H0)). }
  destruct (link_at c) as (N2 & _); [by eapply tb_page|].
  destruct (next_table_found s G L _ _ _ Hs P2) as (c' & Hc' & Hw2' & Hrun2).
  { rewrite Hw2. intros [= E]. by rewrite E in N2. }
  rewrite (bind_done _ _ _ _ _ (Hrun2 false)). assert (c' = c) as ->.
  { rewrite Hw2 in Hw2'. injection Hw2' as E. destruct (link_at c) as (_ & _ & <-); [by eapply tb_page|].
    destruct (link_at c') as (_ & _ & <-); [by eapply tb_page|]. by rewrite E. }
  by rewrite (Hnz _ _ Hc).
Qed.

(** storing an entry of a last-level table *)
Lemma set_entry m root f G L va pte v : tables m f G L -> G !! root = Some Dir -> slot m root va = Some pte -> 0 <= v < 2 ^ 64 ->
  let m' := write_bytes m pte (le 8 v) in
  is_Some (word m pte) /\ tables m' f G L /\ frame m m' G /\
  (forall q j r, G !! q = Some r -> inner r -> 0 <= j < 512 -> word m' (q + 8 * j) = word m (q + 8 * j)) /\
  forall t x, G !! t = Some Dir -> entry m' t x = if decide (t = root /\ vpn x = vpn va) then v else entry m t x.
Proof.
  intros Ht Hroot Hslot Hv m'. destruct (slot_leaf _ _ _ _ _ _ _ Ht Hroot Hslot) as (c & Hc & Hpte). destruct (idx_range va) as (I1 & I2 & I3).
  destruct (tb_page _ _ _ _ Ht _ _ Hc) as [Hco Hcm].
  assert (forall q j r, G !! q = Some r -> 0 <= j < 512 ->
    word m' (q + 8 * j) = if decide ((c, PTE_IDX va) = (q, j)) then Some v else word m (q + 8 * j)) as Hw.
  { intros q j r Hq Hj. unfold m'. rewrite Hpte. rewrite word_set; [by rewrite Z.mod_small|done|by eapply tb_page|done|done]. }
  assert (forall q j r, G !! q = Some r -> inner r -> 0 <= j < 512 -> word m' (q + 8 * j) = word m (q + 8 * j)) as Hin.
  { intros q j r Hq Hr Hj. rewrite (Hw _ _ _ Hq Hj). case_decide as E; [|done]. injection E as <- <-. rewrite Hc in Hq. by injection Hq as <-. }
  assert (forall t x, G !! t = Some Dir -> slot m' t x = slot m t x) as Hs by (intros t x Hdir; by apply (slot_cong _ _ _ _ _ _ Ht Hdir)).
  split; [rewrite Hpte; by apply page_word|]. split; [|split; [|split; [done|]]].
  - constructor; try apply Ht.
    + intros q r Hq. destruct (tb_page _ _ _ _ Ht _ _ Hq). split; [done|]. by apply mapped_write.
    + intros b i r Hpar. destruct (parent_typed _ _ _ _ Hpar) as (rb & Hb & _ & Hi & _).
      unfold entry_ok. rewrite (Hw _ _ _ Hb Hi). case_decide as E; [|by apply (tb_entry _ _ _ _ Ht)].
      injection E as <- _. destruct Hpar as [(Hk & _)|(t & k & Hk & _)]; congruence.
    + eapply chain_cong; [|apply Ht]. intros q Hq. pose proof (tb_spare _ _ _ _ Ht q Hq) as Hsq.
      pose proof (Hw q 0 Spare Hsq ltac:(lia)) as E. rewrite Z.mul_0_r, Z.add_0_r in E. rewrite E. case_decide as E'; [|done].
      injection E' as <- _. congruence.
  - unfold m'. rewrite Hpte. apply (frame_word _ _ _ _ _ _ Hc); lia.
  - intros t x Hdir. unfold entry. rewrite (Hs _ _ Hdir).
    assert (t = root /\ vpn x = vpn va -> slot m t x = Some pte) as Heq.
    { intros [-> Ev]. apply idx_inj in Ev. injection Ev as E1 E2 E3. unfold slot in Hslot |- *. by rewrite E1, E2, E3. }
    destruct (slot m t x) as [a|] eqn:Ex.
    + destruct (slot_leaf _ _ _ _ _ _ _ Ht Hdir Ex) as (c' & Hc' & ->). destruct (idx_range x) as (_ & _ & J3). cbn [mbind option_bind].
      rewrite (Hw _ _ _ Hc' J3). destruct (decide (t = root /\ vpn x = vpn va)) as [Ev|Hne].
      * destruct Ev as [-> Ev]. specialize (Heq (conj eq_refl Ev)). injection Heq as E. apply idx_inj in Ev. injection Ev as _ _ E3.
        rewrite decide_True; [done|]. f_equal; [lia|congruence].
      * rewrite decide_False; [done|]. intros [= -> E3]. rewrite Hc in Hc'. injection Hc' as -> E1 E2. apply Hne. split; [done|]. apply idx_inj. congruence.
    + destruct (decide (t = root /\ vpn x = vpn va)) as [Ev|Hne]; [|done]. by specialize (Heq Ev).
Qed.

(** ** The entry of a page *)

Definition perm_ok (ap : Z) : Prop := ap ∈ [0; 64; 128; 192].
(** normal memory, write-back cached (attribute 4), inner shareable, executable *)
Definition page_access (ap : Z) : Arm.access := Arm.Access (ap / 64) 4 3 false false.
Lemma page_entry_low pa ap : 0 <= pa -> pa mod 4096 = 0 -> perm_ok ap -> page_entry pa ap = pa + Z.lor 1843 ap /\ 0 <= Z.lor 1843 ap < 4096.
Proof.
  unfold perm_ok. rewrite !elem_of_cons, elem_of_nil. intros Hpa Hm Hap. assert (0 <= Z.lor 1843 ap < 4096) as Hr by (destruct Hap as [->|[->|[->|[->|[]]]]]; vm_compute; split; congruence).
  split; [|done]. rewrite <-lor_low by lia. unfold page_entry. rewrite <-!Z.lor_assoc. f_equal. by destruct Hap as [->|[->|[->|[->|[]]]]].
Qed.
Lemma page_entry_hw pa ap va : 0 <= pa < 2 ^ 48 -> pa mod 4096 = 0 -> perm_ok ap -> page_of (page_entry pa ap) va = Some (pa + va mod 4096, page_access ap).
Proof.
  intros Hpa Hm Hap. destruct (page_entry_low pa ap) as [-> Hr]; [lia|done|done|]. unfold page_of. rewrite Arm.field_low by lia.
  assert (Arm.field (Z.lor 1843 ap) 0 2 = 3 /\ Z.testbit (Z.lor 1843 ap) 10 = true /\
    Arm.Access (Arm.field (Z.lor 1843 ap) 6 2) (Arm.field (Z.lor 1843 ap) 2 3) (Arm.field (Z.lor 1843 ap) 8 2) false false = page_access ap) as (-> & Hb & <-).
  { unfold perm_ok in Hap. rewrite !elem_of_cons, elem_of_nil in Hap. by destruct Hap as [->|[->|[->|[->|[]]]]]. }
  change (3 =? 3) with true. cbn iota. by apply Arm.leaf_low.
Qed.
Lemma page_entry_spec pa ap : 0 <= pa < 2 ^ 48 -> pa mod 4096 = 0 -> perm_ok ap ->
  present (page_entry pa ap) = true /\ Z.land (page_entry pa ap) PG_ADDR_MASK = pa /\ PTE_ADDR (page_entry pa ap) = pa /\
  PTE_AP (page_entry pa ap) = ap /\ 0 <= page_entry pa ap < 2 ^ 64.
Proof.
  intros Hpa Hm Hap. destruct (page_entry_low pa ap) as [-> Hr]; [lia|done|done|].
  unfold present, PTE_AP, PTE_ADDR. change (Z.lor ENTRY_PAGE ENTRY_VALID) with 3. change PTE_SZ with (2 ^ 12).
  rewrite align_dn_pow2, !land_low, land_addr by (try done; lia).
  split; [|split; [done|split; [|split; [|lia]]]].
  - unfold perm_ok in Hap. rewrite !elem_of_cons, elem_of_nil in Hap. by destruct Hap as [->|[->|[->|[->|[]]]]].
  - change (2 ^ 12) with 4096. Z.div_mod_to_equations. lia.
  - change AP_MASK with 192. rewrite land_low by lia.
    unfold perm_ok in Hap. rewrite !elem_of_cons, elem_of_nil in Hap. by destruct Hap as [->|[->|[->|[->|[]]]]].
Qed.

(** ** mappages *)

(** how many pages [x] lies after the page of [va], in the 32 bits translated *)
Definition page_at (va x : Z) : Z := (x / 4096 - va / 4096) mod 2 ^ 20.
(** the pages that [size] bytes from [va] touch *)
Definition npages (va size : Z) : Z := (va + size - 1) / 4096 - va / 4096 + 1.

Lemma page_at_vpn va j x : 0 <= j < 2 ^ 20 -> vpn x = vpn (4096 * (va / 4096 + j)) <-> page_at va x = j.
Proof.
  intros Hj. unfold vpn, page_at. rewrite Z.mul_comm, Z.div_mul by lia. change (2 ^ 20) with 1048576 in *.
  split; intros H; Z.div_mod_to_equations; lia.
Qed.
Lemma page_at_range va x : 0 <= page_at va x < 2 ^ 20.
Proof. apply Z.mod_pos_bound. lia. Qed.

(** the tables after [j] pages *)
Definition mapped_upto s0 root G0 L0 va pa ap (j : Z) s : Prop := exists G L, space s G L /\
  grows G0 L0 G L (Z.to_nat (2 * j)) /\ frame (kmem s0) (kmem s) G0 /\ pages s = pages s0 /\
  forall t x, G0 !! t = Some Dir -> entry (kmem s) t x =
    if decide (t = root /\ page_at va x < j) then page_entry (pa + 4096 * page_at va x) ap else entry (kmem s0) t x.

Lemma mappages_step s0 root G0 L0 va pa ap j last s : 0 <= j < 2 ^ 20 -> 0 <= pa + 4096 * j < 2 ^ 32 -> pa mod 4096 = 0 -> perm_ok ap ->
  G0 !! root = Some Dir -> (2 * Z.to_nat (j + 1) <= length L0)%nat -> present (entry (kmem s0) root (4096 * (va / 4096 + j))) = false ->
  mapped_upto s0 root G0 L0 va pa ap j s ->
  wp (mappages_body root last ap (4096 * (va / 4096 + j), pa + 4096 * j)) (fun r s' =>
    mapped_upto s0 root G0 L0 va pa ap (j + 1) s' /\
    r = if 4096 * (va / 4096 + j) =? last then inr 0 else inl (u64 (4096 * (va / 4096 + j) + 4096), u32 (pa + 4096 * j + 4096))) s.
Proof.
  intros Hj Hpa Hm Hap Hroot0 HL Hfree (G & L & Hs & Hg & Hf & Hpg & He). set (a := 4096 * (va / 4096 + j)) in *.
  assert (page_at va a = j) as Ha by (by apply page_at_vpn).
  pose proof (proj1 Hg _ _ Hroot0 ltac:(done)) as Hroot.
  unfold mappages_body. apply wp_bind. eapply wp_mono; [apply (walkpgdir_alloc s root G L a Hs Hroot)|].
  { destruct Hg as (_ & _ & K & -> & HK). rewrite length_app in HL. lia. }
  cbn beta. intros pte s1 (G1 & L1 & Hs1 & Hsl & He1 & Hg1 & Hf1 & Hpg1).
  pose proof (proj1 Hg1 _ _ Hroot ltac:(done)) as Hroot1.
  destruct (page_entry_spec (pa + 4096 * j) ap) as (_ & _ & _ & _ & Hr); [lia|Z.div_mod_to_equations; lia|done|].
  destruct (set_entry _ _ _ _ _ _ _ _ (proj2 Hs1) Hroot1 Hsl Hr) as ([w Hw] & Ht2 & Hf2 & _ & He2).
  destruct (slot_leaf _ _ _ _ _ _ _ (proj2 Hs1) Hroot1 Hsl) as (c & Hc & Ec). destruct (tb_page _ _ _ _ (proj2 Hs1) _ _ Hc) as [Hco _].
  destruct (idx_range a) as (_ & _ & I3). assert ((pte =? 0) = false) as ->.
  { apply Z.eqb_neq. pose proof (page_range c Hco). unfold KERNBASE in *. lia. }
  apply wp_bind. eapply ld64_wp; [done|]. apply wp_bind. apply wp_panic_if.
  { specialize (He1 root a Hroot). rewrite He, decide_False in He1 by (done || lia). unfold entry in He1 at 1. rewrite Hsl in He1. cbn [mbind option_bind] in He1.
    rewrite Hw in He1. cbn in He1. by rewrite He1. }
  apply wp_bind, st64_wp; [by eexists|]. assert (u64 (page_entry (pa + 4096 * j) ap) = page_entry (pa + 4096 * j) ap) as -> by (by apply Z.mod_small). change PTE_SZ with 4096.
  assert (mapped_upto s0 root G0 L0 va pa ap (j + 1) (put_mem (write_bytes (kmem s1) pte (le 8 (page_entry (pa + 4096 * j) ap))) s1)) as Hup.
  { exists G1, L1. split; [exact (conj (proj1 Hs1) Ht2)|]. split; [|split; [|split; [unfold put_mem; cbn [pages]; congruence|]]].
    - replace (Z.to_nat (2 * (j + 1))) with (Z.to_nat (2 * j) + 2)%nat by lia. by eapply grows_trans.
    - destruct Hg as (_ & Hd & _), Hg1 as (_ & Hd1 & _). eapply frame_trans; [|exact Hf|]; [done|]. by eapply frame_trans.
    - intros t x Hdir0. pose proof (proj1 Hg _ _ Hdir0 ltac:(done)) as Hdir. unfold put_mem. cbn [kmem].
      rewrite He2 by (by apply Hg1). rewrite He1, He by done.
      destruct (decide (t = root /\ vpn x = vpn a)) as [[-> Ev]|Hne].
      + apply page_at_vpn in Ev; [|done]. rewrite Ev, decide_True by (split; [done|lia]). done.
      + assert (~ (t = root /\ page_at va x = j)) by (intros [-> E]; apply Hne; split; [done|by apply page_at_vpn]).
        destruct (decide (t = root /\ page_at va x < j)), (decide (t = root /\ page_at va x < j + 1)); done || lia. }
  by destruct (a =? last); apply wp_ret.
Qed.

Lemma mappages_spec s root G L va size pa ap : space s G L -> G !! root = Some Dir -> 0 <= va -> 0 < size -> va + size <= 2 ^ 64 ->
  npages va size <= 2 ^ 20 -> 0 <= pa -> pa mod 4096 = 0 -> pa + 4096 * npages va size <= 2 ^ 32 -> perm_ok ap ->
  2 * npages va size <= Z.of_nat (length L) ->
  (forall x, page_at va x < npages va size -> present (entry (kmem s) root x) = false) ->
  wp (mappages root va size pa ap) (fun r s' => r = 0 /\ mapped_upto s root G L va pa ap (npages va size) s') s.
Proof.
  intros Hs Hroot Hva Hsz Hend Hn Hpa Hm Hpe Hap HL Hfree. unfold mappages. change PTE_SZ with (2 ^ 12).
  rewrite !align_dn_pow2 by lia. change (2 ^ 12) with 4096. set (n := npages va size) in *.
  assert (4096 * ((va + size - 1) / 4096) = 4096 * (va / 4096 + (n - 1))) as -> by (unfold n, npages; lia).
  assert (1 <= n) as Hn1. { unfold n, npages. Z.div_mod_to_equations. lia. }
  set (k := va / 4096) in *. assert (0 <= k /\ 4096 * (k + (n - 1)) < 2 ^ 64) as [Hk Hk2].
  { unfold k, n, npages. Z.div_mod_to_equations. lia. }
  assert (u64 (4096 * (k + (n - 1)) - 4096 * k) / 4096 = n - 1) as ->.
  { unfold u64. rewrite Z.mod_small by lia. replace (4096 * (k + (n - 1)) - 4096 * k) with ((n - 1) * 4096) by lia. apply Z.div_mul. lia. }
  eapply (wp_loop _ _ _ _ _ (fun v s' => exists j, 0 <= j < n /\ v = (4096 * (k + j), pa + 4096 * j) /\ mapped_upto s root G L va pa ap j s')
    (fun v => Z.to_nat (n - 1 - (fst v / 4096 - k)))).
  - exists 0. split; [lia|]. split; [f_equal; lia|]. exists G, L. split; [done|]. split; [apply grows_refl|]. do 2 (split; [done|]).
    intros t x _. pose proof (page_at_range va x). rewrite decide_False by lia. done.
  - cbn [fst]. rewrite (Z.mul_comm 4096 k), Z.div_mul by lia. lia.
  - intros v s' (j & Hj & -> & Hup). eapply wp_mono; [eapply mappages_step; [lia|lia|done|done|done| | |exact Hup]|].
    + lia.
    + apply Hfree. replace (page_at va _) with j; [lia|]. symmetry. by apply page_at_vpn; [lia|].
    + cbn beta. fold k. intros r s2 [Hup2 ->]. destruct (Z.eqb_spec (4096 * (k + j)) (4096 * (k + (n - 1)))) as [E|Hne].
      * split; [done|]. by replace n with (j + 1) by lia.
      * assert (j < n - 1) by lia. cbn [fst]. unfold u64, u32. rewrite !Z.mod_small by lia. split.
        -- exists (j + 1). split; [lia|]. split; [f_equal; lia|done].
        -- replace (4096 * (k + j) + 4096) with ((k + j + 1) * 4096) by lia. rewrite Z.div_mul by lia.
           rewrite (Z.mul_comm 4096 (k + j)), Z.div_mul by lia. lia.
Qed.


End vm_proofs.

End PageTable.
