(* ===== verification/UserMem.v ===== *)
(** * User memory (src/src/vm.c)

    An address space is the list of the pages mapped from address 0 on, each
    with its access permissions; [aspace] relates it to the page tables in
    memory.  allocuvm(), deallocuvm(), copyuvm() and copyout() are verified
    against it, over any page allocator that keeps the promise of Alloc.v. *)

From S2P Require Import Prelude.
From S2P Require Import Bytes.
From S2P Require Import KString.
From S2P Require Import Mmu.
From S2P Require Import Buddy.
From S2P Require Import Alloc.
From S2P Require Import Vm.
From S2P Require Import PageTable.

Module UserMem.
Import Mmu.
Import Vm.
Import PageTable.

(** a page and its permissions *)
Abbreviation upage := (Z * Z)%type.
(** the entry of page [k] of the address space *)
Definition uentry (U : list upage) (k : Z) : Z :=
  match U !! Z.to_nat k with Some (p, ap) => page_entry (v2p p) ap | None => 0 end.
(** the blocks of the allocator an address space holds *)
Definition blocks (U : list upage) : gset (Z * Z) := list_to_set ((fun u => (fst u, 12)) <$> U).
(** the byte at user address [x] *)
Definition ubyte (m : mem) (U : list upage) (x : Z) : option Z :=
  p ← fst <$> U !! Z.to_nat (x / 4096); m !! (p + x mod 4096).
(** the number of pages [sz] bytes take *)
Definition npg (sz : Z) : Z := (sz + 4095) / 4096.

Section user.
Context {P : Type} {PA : PageAlloc P} {PL : PageAllocLaws P}.
Implicit Types (s : st P) (m : mem) (G : gmap Z role) (L : list Z) (U : list upage) (A : gset (Z * Z)).

(** the kernel's memory: the tables are below the pool of the allocator, whose
    memory is all there *)
Record vmem s G L lo hi A : Prop := {
  vm_space : space s G L;
  vm_owns : owns (pages s) lo hi A;
  vm_low : p2v INIT_KERNMAP <= lo;
  vm_high : hi <= p2v PHYSTOP;
  vm_pool k : lo <= k < hi -> exists b, kmem s !! k = Some b /\ is_byte b;
  vm_tables p r : G !! p = Some r -> p + 4096 <= p2v INIT_KERNMAP;
}.
(** page [k] of the space of [root] has entry [f k] *)
Definition entries s (root : Z) (f : Z -> Z) : Prop := forall k, 0 <= k < 2 ^ 20 -> entry (kmem s) root (4096 * k) = f k.
Record aspace s G root U A : Prop := {
  as_root : G !! root = Some Dir;
  as_entries : entries s root (uentry U);
  as_len : Z.of_nat (length U) <= 2 ^ 16;
  as_perm : Forall (fun u => perm_ok (snd u)) U;
  as_nodup : NoDup (fst <$> U);
  as_owns : blocks U ⊆ A;
}.

Lemma elem_blocks U p : (p, 12) ∈ blocks U <-> p ∈ fst <$> U.
Proof.
  unfold blocks. rewrite elem_of_list_to_set, !list_elem_of_fmap. split.
  - intros (u & [= ->] & Hu). by exists u.
  - intros (u & -> & Hu). by exists u.
Qed.
(** a page of the allocator is a page of the direct map, apart from the tables *)
Lemma vm_page s G L lo hi A p : vmem s G L lo hi A -> (p, 12) ∈ A ->
  page_ok p /\ lo <= p /\ p + 4096 <= hi /\ mapped (kmem s) p pg /\ G !! p = None.
Proof.
  intros Hv Hp. destruct (pa_block _ _ _ _ _ _ (vm_owns _ _ _ _ _ _ Hv) Hp) as (_ & H0 & Hm & H1 & H2 & _).
  change (2 ^ 12) with 4096 in *. pose proof (vm_low _ _ _ _ _ _ Hv) as Hlo. pose proof (vm_high _ _ _ _ _ _ Hv) as Hhi.
  assert (p2v PHY_START <= p2v INIT_KERNMAP) by (vm_compute; congruence).
  split; [split; [done|lia]|]. split; [done|]. split; [done|]. split.
  - intros i Hi. pose proof pg_Z. destruct (vm_pool _ _ _ _ _ _ Hv (p + Z.of_nat i)) as (b & Hb & _); [lia|by exists b].
  - destruct (G !! p) as [r|] eqn:E; [|done]. pose proof (vm_tables _ _ _ _ _ _ Hv _ _ E). lia.
Qed.
Lemma vm_disj s G L lo hi A p q : vmem s G L lo hi A -> (p, 12) ∈ A -> (q, 12) ∈ A -> p <> q -> p + 4096 <= q \/ q + 4096 <= p.
Proof. intros Hv Hp Hq Hne. apply (pa_disj _ _ _ _ p 12 q 12 (vm_owns _ _ _ _ _ _ Hv) Hp Hq). congruence. Qed.

(** writes outside the tables change no translation *)
Lemma space_cong s s' G L : space s G L -> klock s' = klock s -> freelist s' = freelist s ->
  (forall k p r, G !! p = Some r -> p <= k < p + 4096 -> kmem s' !! k = kmem s !! k) ->
  space s' G L /\ same (kmem s) (kmem s') G.
Proof.
  intros [Hl Ht] Hk Hf Hm. assert (forall q j r, G !! q = Some r -> 0 <= j < 512 -> word (kmem s') (q + 8 * j) = word (kmem s) (q + 8 * j)) as Hw.
  { intros q j r Hq Hj. apply word_cong. intros k Hkk. apply (Hm k q r Hq). lia. }
  split; [split; [congruence|]|].
  - rewrite Hf. constructor.
    + intros p r Hp. destruct (tb_page _ _ _ _ Ht _ _ Hp) as [Hpo Hpm]. split; [done|]. intros i Hi. pose proof pg_Z.
      rewrite (Hm _ p r Hp) by lia. by apply Hpm.
    + intros b i r Hpar. destruct (parent_typed _ _ _ _ Hpar) as (rb & Hb & _ & Hi & _). unfold entry_ok.
      rewrite (Hw _ _ _ Hb Hi). by apply (tb_entry _ _ _ _ Ht).
    + eapply chain_cong; [|apply Ht]. intros q Hq. pose proof (Hw q 0 Spare (tb_spare _ _ _ _ Ht q Hq) ltac:(lia)) as E.
      by rewrite Z.mul_0_r, Z.add_0_r in E.
    + apply Ht.
    + apply Ht.
  - intros root x Hr. apply (walk_cong _ _ _ _ _ _ Ht Hr). intros q j r Hq _ Hj. by apply (Hw _ _ r).
Qed.
Lemma entries_same s s' G root f : same (kmem s) (kmem s') G -> G !! root = Some Dir -> entries s root f -> entries s' root f.
Proof. intros H Hr He k Hk. rewrite H by done. by apply He. Qed.

(** filling a page of the pool with bytes *)
Lemma vmem_fill s G L lo hi A p l : vmem s G L lo hi A -> (p, 12) ∈ A -> Forall is_byte l -> forall o, 0 <= o -> o + Z.of_nat (length l) <= 4096 ->
  let s' := put_mem (write_bytes (kmem s) (p + o) l) s in vmem s' G L lo hi A /\ same (kmem s) (kmem s') G.
Proof.
  intros Hv Hp Hl o H0 H1 s'. destruct (vm_page _ _ _ _ _ _ _ Hv Hp) as (Hpo & Hlo & Hhi & _).
  destruct (space_cong s s' G L (vm_space _ _ _ _ _ _ Hv) eq_refl eq_refl) as [Hs Hsame].
  { intros k q r Hq Hk. cbn. rewrite lookup_write_bytes. case_decide; [|done]. pose proof (vm_tables _ _ _ _ _ _ Hv _ _ Hq).
    pose proof (vm_low _ _ _ _ _ _ Hv). lia. }
  split; [|done]. destruct Hv as [_ Ho Hlow Hhigh Hpool Htab]. constructor; try done.
  intros k Hk. cbn. rewrite lookup_write_bytes. case_decide; [|by apply Hpool].
  destruct (l !! Z.to_nat (k - (p + o))) as [b|] eqn:E; [|apply lookup_ge_None in E; lia].
  exists b. split; [done|]. by apply (Forall_lookup_1 _ _ _ _ Hl E).
Qed.
Lemma alloc_page_spec s G L lo hi A : vmem s G L lo hi A ->
  wp alloc_page (fun p s' => p = 0 /\ s' = s \/
    ((p, 12) ∉ A) /\ kmem s' = kmem s /\ freelist s' = freelist s /\ vmem s' G L lo hi ({[(p, 12)]} ∪ A)) s.
Proof.
  intros Hv. unfold alloc_page, kmalloc. apply wp_zoom.
  eapply wp_mono; [apply (pa_alloc _ _ _ _ 12 (vm_owns _ _ _ _ _ _ Hv)); lia|]. cbn beta.
  intros p k [[-> Hk]|[Hp Hk]]; [left|right].
  - split; [done|]. cbn [lget pages_lens] in Hk. subst k. by destruct s.
  - do 3 (split; [done|]). by destruct Hv; constructor.
Qed.
Lemma free_page_spec s G L lo hi A p : vmem s G L lo hi A -> (p, 12) ∈ A ->
  wp (free_page p) (fun _ s' => kmem s' = kmem s /\ freelist s' = freelist s /\ vmem s' G L lo hi (A ∖ {[(p, 12)]})) s.
Proof.
  intros Hv Hp. unfold free_page, kfree. apply wp_zoom.
  eapply wp_mono; [apply (pa_free _ _ _ _ p 12 (vm_owns _ _ _ _ _ _ Hv) Hp)|]. cbn beta.
  intros _ k Hk. do 2 (split; [done|]). by destruct Hv; constructor.
Qed.

(** table memory does not meet the pool: code that writes tables only keeps it *)
Lemma vmem_tables s G L lo hi A s' G' L' : vmem s G L lo hi A -> space s' G' L' -> dom G' = dom G -> frame (kmem s) (kmem s') G ->
  pages s' = pages s -> vmem s' G' L' lo hi A.
Proof.
  intros Hv Hs Hd Hf Hp. destruct Hv as [_ Ho Hlow Hhigh Hpool Htab]. constructor; try done.
  - by rewrite Hp.
  - intros k Hk. rewrite Hf; [by apply Hpool|]. intros p r Hpr. specialize (Htab _ _ Hpr). lia.
  - intros p r Hpr. assert (is_Some (G !! p)) as [r' Hr'] by (apply elem_of_dom; rewrite <-Hd; apply elem_of_dom; by eexists).
    by eapply Htab.
Qed.
Lemma pool_frame s G L lo hi A m' k : vmem s G L lo hi A -> frame (kmem s) m' G -> lo <= k -> m' !! k = kmem s !! k.
Proof. intros Hv Hf Hk. apply Hf. intros p r Hp. pose proof (vm_tables _ _ _ _ _ _ Hv _ _ Hp). pose proof (vm_low _ _ _ _ _ _ Hv). lia. Qed.

(** one page of an address space *)
Lemma map_page s G L lo hi A root p k ap : vmem s G L lo hi A -> G !! root = Some Dir -> (p, 12) ∈ A -> 0 <= k < 2 ^ 20 ->
  (2 <= length L)%nat -> perm_ok ap -> entry (kmem s) root (4096 * k) = 0 ->
  wp (mappages root (4096 * k) PTE_SZ (u32 (v2p p)) ap) (fun r s' => r = 0 /\ exists G' L', vmem s' G' L' lo hi A /\
    grows G L G' L' 2 /\ frame (kmem s) (kmem s') G /\ pages s' = pages s /\
    forall t x, G !! t = Some Dir -> entry (kmem s') t x =
      if decide (t = root /\ vpn x = k) then page_entry (v2p p) ap else entry (kmem s) t x) s.
Proof.
  intros Hv Hr Hp Hk HL Hap He. destruct (vm_page _ _ _ _ _ _ _ Hv Hp) as (Hpo & _). destruct (v2p_page p Hpo) as (_ & Hrange & Hmod).
  assert (npages (4096 * k) 4096 = 1) as Hn. { unfold npages. Z.div_mod_to_equations. lia. }
  assert (u32 (v2p p) = v2p p) as Eu by (apply Z.mod_small; lia). rewrite Eu.
  assert (forall x, page_at (4096 * k) x = 0 <-> vpn x = k) as Hat.
  { intros x. rewrite <-(page_at_vpn (4096 * k) 0 x) by lia. rewrite (Z.mul_comm 4096 k), Z.div_mul by lia. rewrite Z.add_0_r.
    unfold vpn at 2. rewrite (Z.mul_comm 4096 k), Z.div_mul by lia. by rewrite Z.mod_small. }
  change PTE_SZ with 4096. eapply wp_mono; [apply (mappages_spec s root G L (4096 * k) 4096 (v2p p) ap)|]; rewrite ?Hn; try done; try lia.
  - by apply vm_space in Hv.
  - intros x Hx. pose proof (page_at_range (4096 * k) x). assert (vpn x = k) as Ev by (apply Hat; lia).
    assert (entry (kmem s) root x = entry (kmem s) root (4096 * k)) as ->; [|by rewrite He].
    apply entry_vpn. rewrite Ev. unfold vpn. rewrite (Z.mul_comm 4096 k), Z.div_mul by lia. by rewrite Z.mod_small.
  - cbn beta. intros r s' [-> (G' & L' & Hs' & Hg & Hf & Hpg & Hent)]. split; [done|]. exists G', L'. split; [|split; [done|split; [done|split; [done|]]]].
    + eapply vmem_tables; [done|done| |done|done]. apply Hg.
    + intros t x Ht. rewrite (Hent t x Ht). pose proof (page_at_range (4096 * k) x). specialize (Hat x).
      destruct (decide (t = root /\ page_at (4096 * k) x < 1)) as [[-> Hx]|Hne].
      * rewrite decide_True by (split; [done|]; apply Hat; lia). f_equal. assert (page_at (4096 * k) x = 0) as -> by lia. lia.
      * rewrite decide_False; [done|]. intros [-> Hx]. apply Hne. split; [done|]. apply Hat in Hx. lia.
Qed.

Lemma vpn_page k : 0 <= k < 2 ^ 20 -> vpn (4096 * k) = k.
Proof. intros Hk. unfold vpn. rewrite (Z.mul_comm 4096 k), Z.div_mul by lia. by apply Z.mod_small. Qed.

(** ** deallocuvm *)

(** the pages from [w] up to [k] *)
Definition removed U (w k : Z) : gset (Z * Z) := blocks (take (Z.to_nat (k - w)) (drop (Z.to_nat w) U)).
Lemma elem_removed U w k p : 0 <= w -> (p, 12) ∈ removed U w k <-> exists j ap, w <= Z.of_nat j < k /\ U !! j = Some (p, ap).
Proof.
  intros Hm. unfold removed. rewrite elem_blocks, list_elem_of_fmap. split.
  - intros ([q ap] & -> & Hu). apply list_elem_of_lookup in Hu as [i Hi]. apply lookup_take_Some in Hi as [Hi Hlt].
    rewrite lookup_drop in Hi. exists (Z.to_nat w + i)%nat, ap. split; [lia|done].
  - intros (j & ap & Hj & Hu). exists (p, ap). split; [done|]. apply list_elem_of_lookup. exists (j - Z.to_nat w)%nat.
    apply lookup_take_Some. rewrite lookup_drop. split; [|lia]. rewrite <-Hu. f_equal. lia.
Qed.
Lemma page_inj U i j p a b : NoDup (fst <$> U) -> U !! i = Some (p, a) -> U !! j = Some (p, b) -> i = j.
Proof. intros Hnd Hi Hj. apply (NoDup_lookup (fst <$> U) i j p Hnd); by rewrite list_lookup_fmap, ?Hi, ?Hj. Qed.
Lemma removed_S U w k p ap : NoDup (fst <$> U) -> 0 <= w <= k -> U !! Z.to_nat k = Some (p, ap) ->
  removed U w (k + 1) = removed U w k ∪ {[(p, 12)]} /\ (p, 12) ∉ removed U w k.
Proof.
  intros Hnd Hm Hu. assert ((p, 12) ∉ removed U w k) as Hno.
  { rewrite elem_removed by lia. intros (j & b & Hj & Hb). pose proof (page_inj _ _ _ _ _ _ Hnd Hu Hb). lia. }
  split; [|done]. unfold removed. replace (Z.to_nat (k + 1 - w)) with (S (Z.to_nat (k - w))) by lia.
  rewrite (take_S_r _ _ (p, ap)); [unfold blocks; rewrite fmap_app, list_to_set_app_L; set_solver|].
  rewrite lookup_drop, <-Hu. f_equal. lia.
Qed.
Lemma removed_end U w k k' : Z.of_nat (length U) <= k -> k <= k' -> 0 <= w <= k -> removed U w k' = removed U w k.
Proof. intros H1 H2 H3. unfold removed. by rewrite !take_ge by (rewrite length_drop; lia). Qed.
Lemma removed_none U w : removed U w w = ∅.
Proof. unfold removed. rewrite Z.sub_diag. done. Qed.

Lemma uentry_present U k : Forall (fun u => perm_ok (snd u)) U -> (forall p ap, U !! Z.to_nat k = Some (p, ap) -> page_ok p) ->
  uentry U k <> 0 -> exists p ap, U !! Z.to_nat k = Some (p, ap) /\ perm_ok ap /\ uentry U k = page_entry (v2p p) ap.
Proof.
  unfold uentry. intros Hp Hpo. destruct (U !! Z.to_nat k) as [[p ap]|] eqn:E; [|done]. intros _. exists p, ap.
  split; [done|]. split; [|done]. exact (Forall_lookup_1 _ _ _ _ Hp E).
Qed.
Lemma user_entry p ap : page_ok p -> perm_ok ap -> let e := page_entry (v2p p) ap in
  present e = true /\ PTE_ADDR e = v2p p /\ PTE_AP e = ap /\ 0 <= e < 2 ^ 64 /\ u32 (v2p p) = v2p p /\ v2p p <> 0 /\ p2v (v2p p) = p.
Proof.
  intros Hpo Hap e. destruct (v2p_page p Hpo) as (_ & Hr & Hm). destruct (page_entry_spec (v2p p) ap) as (H1 & _ & H2 & H3 & H4); [lia|done|done|].
  repeat (split; [done|]). split; [apply Z.mod_small; lia|]. split; [lia|by apply p2v_v2p].
Qed.

Record dinv s0 G L lo hi A root U w s (k : Z) : Prop := {
  di_vmem : vmem s G L lo hi (A ∖ removed U w k);
  di_entries : entries s root (fun j => if decide (w <= j < k) then 0 else uentry U j);
  di_frame : frame (kmem s0) (kmem s) G;
  di_other t x : t <> root -> G !! t = Some Dir -> entry (kmem s) t x = entry (kmem s0) t x;
  di_inner q j r : G !! q = Some r -> inner r -> 0 <= j < 512 -> word (kmem s) (q + 8 * j) = word (kmem s0) (q + 8 * j);
}.

Lemma dinv_skip s0 G L lo hi A root U w s k k' : 0 <= w <= k -> Z.of_nat (length U) <= k -> k <= k' ->
  dinv s0 G L lo hi A root U w s k -> dinv s0 G L lo hi A root U w s k'.
Proof.
  intros Hm Hl Hk [Hv He Hf Ho Hin]. constructor; [by rewrite (removed_end U w k k')| |done|done|done].
  intros j Hj. rewrite (He j Hj). destruct (decide (w <= j < k)), (decide (w <= j < k')); try lia; try done.
  unfold uentry. by rewrite lookup_ge_None_2 by lia.
Qed.

Lemma dealloc_step s0 G L lo hi A root U w s k oldsz : aspace s0 G root U A -> (forall p ap, (p, ap) ∈ U -> page_ok p) ->
  0 <= w <= k -> 4096 * k < oldsz -> oldsz <= UADDR_SZ -> dinv s0 G L lo hi A root U w s k ->
  wp (deallocuvm_body root oldsz (4096 * k)) (fun r s' => exists k', k < k' <= 2 ^ 20 /\ r = inl (4096 * k') /\
    dinv s0 G L lo hi A root U w s' k') s.
Proof.
  intros Has Hpo Hm Hk Hold Hd. pose proof Hd as [Hv He Hf Ho Hin]. pose proof (vm_space _ _ _ _ _ _ Hv) as Hs.
  change UADDR_SZ with (2 ^ 28) in Hold. assert (0 <= k < 2 ^ 20) as Hk20 by lia.
  pose proof (He k Hk20) as Hek. cbn beta in Hek. rewrite decide_False in Hek by lia.
  assert (uentry U k <> 0 -> exists p ap, U !! Z.to_nat k = Some (p, ap) /\ perm_ok ap /\ uentry U k = page_entry (v2p p) ap) as Hpres.
  { apply uentry_present; [apply Has|]. intros p ap Hp. eapply Hpo, list_elem_of_lookup. by eexists. }
  assert (uentry U k = 0 -> Z.of_nat (length U) <= k) as Hnone.
  { intros E. destruct (decide (Z.of_nat (length U) <= k)) as [|Hlt]; [done|].
    destruct (lookup_lt_is_Some_2 U (Z.to_nat k)) as [[p ap] Hp]; [lia|]. unfold uentry in E. rewrite Hp in E.
    destruct (user_entry p ap) as (H1 & _); [eapply Hpo, list_elem_of_lookup; by eexists|exact (Forall_lookup_1 _ _ _ _ (as_perm _ _ _ _ _ Has) Hp)|].
    by rewrite E in H1. }
  unfold deallocuvm_body. destruct (Z.ltb_spec (4096 * k) oldsz); [|lia].
  apply wp_bind. eapply wp_eq; [apply (walkpgdir_find s root G L _ Hs), Has|].
  destruct (slot (kmem s) root (4096 * k)) as [pte|] eqn:Esl; cbn [default from_option id].
  2:{ (* no table *) cbn. assert (Z.of_nat (length U) <= k) as Hl. { apply Hnone. rewrite <-Hek. unfold entry. by rewrite Esl. }
      change PMD_SZ with (2 ^ 21). change PTE_SZ with 4096. rewrite align_up_pow2 by lia.
      exists (512 * ((4096 * k + 2 ^ 21 - 1) / 2 ^ 21) + 1). split; [Z.div_mod_to_equations; lia|]. split.
      - f_equal. unfold u64. rewrite Z.mod_small; [lia|]. Z.div_mod_to_equations. lia.
      - apply (dinv_skip _ _ _ _ _ _ _ _ _ _ k); try done; Z.div_mod_to_equations; lia. }
  destruct (slot_leaf _ _ _ _ _ _ _ (proj2 Hs) (as_root _ _ _ _ _ Has) Esl) as (c & Hc & Epte).
  assert ((pte =? 0) = false) as ->.
  { destruct (tb_page _ _ _ _ (proj2 Hs) _ _ Hc) as [Hco _]. pose proof (page_range c Hco). destruct (idx_range (4096 * k)) as (_ & _ & I3).
    apply Z.eqb_neq. unfold KERNBASE in *. lia. }
  destruct (set_entry _ _ _ _ _ _ _ 0 (proj2 Hs) (as_root _ _ _ _ _ Has) Esl) as ([e He0] & Ht' & Hf' & Hin' & Hent'); [lia|].
  assert (e = uentry U k) as -> by (rewrite <-Hek; unfold entry; rewrite Esl; cbn; by rewrite He0).
  apply wp_bind. eapply ld64_wp; [done|].
  assert (u64 (4096 * k + PTE_SZ) = 4096 * (k + 1)) as Enext by (change PTE_SZ with 4096; unfold u64; rewrite Z.mod_small by lia; lia).
  destruct (decide (uentry U k = 0)) as [E0|Hne0].
  - rewrite E0. cbn [present Z.land Z.eqb negb when]. wp_steps. rewrite Enext. exists (k + 1). split; [lia|]. split; [done|].
    apply (dinv_skip _ _ _ _ _ _ _ _ _ _ k); [lia|by apply Hnone|lia|done].
  - destruct (Hpres Hne0) as (p & ap & Hp & Hap & ->). destruct (user_entry p ap) as (-> & -> & _ & _ & -> & Hnz & ->); [eapply Hpo, list_elem_of_lookup; by eexists|done|].
    cbn [when]. apply Z.eqb_neq in Hnz. rewrite Hnz. cbn [panic_if]. wp_step. wp_step. wp_step. wp_step.
    destruct (removed_S U w k p ap (as_nodup _ _ _ _ _ Has) ltac:(lia) Hp) as [Erem Hnew].
    assert ((p, 12) ∈ A ∖ removed U w k) as HpA.
    { apply elem_of_difference. split; [|done]. apply (as_owns _ _ _ _ _ Has), elem_blocks. apply list_elem_of_fmap. exists (p, ap).
      split; [done|]. apply list_elem_of_lookup. by eexists. }
    eapply wp_mono; [by apply (free_page_spec _ _ _ _ _ _ _ Hv HpA)|]. cbn beta. intros _ s1 (Hk1 & Hfl & Hv1).
    apply st64_wp; [rewrite Hk1; by eexists|]. apply wp_ret. rewrite Enext. exists (k + 1). split; [lia|]. split; [done|].
    change (u64 0) with 0. set (s2 := put_mem _ s1). assert (kmem s2 = write_bytes (kmem s) pte (le 8 0)) as Hk2 by (cbn; by rewrite Hk1).
    constructor.
    + rewrite Erem. replace (A ∖ (removed U w k ∪ {[(p, 12)]})) with ((A ∖ removed U w k) ∖ {[(p, 12)]}) by set_solver.
      eapply (vmem_tables s1); [exact Hv1| |done|rewrite Hk2, Hk1; exact Hf'|done].
      split; [apply Hv1|]. rewrite Hk2. cbn [freelist put_mem s2]. by rewrite Hfl.
    + intros j Hj. rewrite Hk2, Hent' by apply Has. rewrite !vpn_page by lia.
      destruct (decide (root = root /\ j = k)) as [[_ ->]|Hne]; [by rewrite decide_True by lia|].
      rewrite (He j Hj). assert (j <> k) by tauto. destruct (decide (w <= j < k)), (decide (w <= j < k + 1)); done || lia.
    + eapply frame_trans; [|exact Hf|rewrite Hk2; exact Hf']. done.
    + intros t x Ht Hdir. rewrite Hk2, Hent' by done. rewrite decide_False by tauto. by apply Ho.
    + intros q j r Hq Hr Hj. rewrite Hk2. rewrite (Hin' q j r) by done. by apply (Hin q j r).
Qed.

Lemma align_up_page sz : 0 <= sz <= 2 ^ 32 -> align_up sz PTE_SZ = 4096 * npg sz.
Proof. intros H. change PTE_SZ with (2 ^ 12). rewrite align_up_pow2 by lia. unfold npg. do 2 f_equal. lia. Qed.
Lemma aspace_pages s G L lo hi A root U p ap : vmem s G L lo hi A -> aspace s G root U A -> (p, ap) ∈ U -> (p, 12) ∈ A /\ page_ok p.
Proof.
  intros Hv Has Hp. assert ((p, 12) ∈ A) as HA. { apply (as_owns _ _ _ _ _ Has), elem_blocks, list_elem_of_fmap. by exists (p, ap). }
  split; [done|]. by eapply vm_page.
Qed.
Lemma blocks_split U n : NoDup (fst <$> U) -> blocks (take n U) ## blocks (drop n U) /\ blocks (take n U) ∪ blocks (drop n U) = blocks U.
Proof.
  intros Hnd. split.
  - rewrite <-(firstn_skipn n U), fmap_app in Hnd. apply NoDup_app in Hnd as (_ & Hd & _).
    intros [p o] Hp Hq. unfold blocks in Hp, Hq. rewrite elem_of_list_to_set, list_elem_of_fmap in Hp, Hq.
    destruct Hp as (u & [= -> ->] & Hu), Hq as (v & [= E] & Hv). apply (Hd (fst u)); apply list_elem_of_fmap; [by exists u|by exists v].
  - rewrite <-(firstn_skipn n U) at 3. unfold blocks. by rewrite fmap_app, list_to_set_app_L.
Qed.
Lemma uentry_take U n j : uentry (take n U) j = if decide (Z.to_nat j < n)%nat then uentry U j else 0.
Proof.
  unfold uentry. case_decide; [by rewrite lookup_take_lt|]. rewrite lookup_ge_None_2; [done|]. rewrite length_take. lia.
Qed.

(** ** The operations *)

Lemma deallocuvm_same s root oldsz newsz : oldsz <= newsz -> deallocuvm root oldsz newsz s = Done (s32 oldsz) s.
Proof. intros H. unfold deallocuvm. by destruct (Z.leb_spec oldsz newsz); [|lia]. Qed.
Lemma s32_small n : 0 <= n < 2 ^ 31 -> s32 n = n.
Proof. intros H. unfold s32. rewrite Z.mod_small; lia. Qed.

Lemma deallocuvm_spec s G L lo hi A root U oldsz newsz : vmem s G L lo hi A -> aspace s G root U A ->
  0 <= newsz < oldsz -> oldsz <= UADDR_SZ -> Z.of_nat (length U) <= npg oldsz ->
  let n := Z.to_nat (npg newsz) in
  wp (deallocuvm root oldsz newsz) (fun r s' => r = newsz /\ vmem s' G L lo hi (A ∖ blocks (drop n U)) /\
    aspace s' G root (take n U) (A ∖ blocks (drop n U)) /\ frame (kmem s) (kmem s') G /\
    (forall t x, t <> root -> G !! t = Some Dir -> entry (kmem s') t x = entry (kmem s) t x) /\
    forall q j r, G !! q = Some r -> inner r -> 0 <= j < 512 -> word (kmem s') (q + 8 * j) = word (kmem s) (q + 8 * j)) s.
Proof.
  intros Hv Has Hsz Hold HU n. change UADDR_SZ with (2 ^ 28) in Hold. unfold deallocuvm. destruct (Z.leb_spec oldsz newsz); [lia|].
  rewrite align_up_page by lia. set (w := npg newsz). subst n. fold w.
  assert (0 <= w <= npg oldsz /\ 4096 * w <= oldsz + 4095 /\ w <= 2 ^ 16) as (Hw & Hw2 & Hw3).
  { unfold w, npg. Z.div_mod_to_equations. lia. }
  apply wp_bind. eapply (wp_loop _ _ _ _ _ (fun a s' => exists k, w <= k <= 2 ^ 20 /\ a = 4096 * k /\ dinv s G L lo hi A root U w s' k)
    (fun a => Z.to_nat (oldsz - a))).
  - exists w. split; [lia|]. split; [done|]. constructor; try done.
    + rewrite removed_none. by rewrite difference_empty_L.
    + intros j Hj. rewrite decide_False by lia. by apply Has.
  - lia.
  - intros a s' (k & Hk & -> & Hd). destruct (decide (4096 * k < oldsz)) as [Hlt|Hge].
    + eapply wp_mono; [eapply (dealloc_step s G L lo hi A root U w s' k oldsz); try done; try lia|].
      { intros p ap Hp. by eapply aspace_pages. }
      cbn beta. intros r s2 (k' & Hk' & -> & Hd'). cbn beta iota. split; [exists k'; split; [lia|done]|lia].
    + unfold deallocuvm_body. destruct (Z.ltb_spec (4096 * k) oldsz); [lia|]. apply wp_ret.
      destruct Hd as [Hv' He Hf Ho Hin]. apply wp_ret. split; [apply s32_small; lia|].
      assert (Z.of_nat (length U) <= k) as Hl. { unfold npg in HU. Z.div_mod_to_equations. lia. }
      assert (removed U w k = blocks (drop (Z.to_nat w) U)) as Er by (unfold removed; rewrite take_ge; [done|rewrite length_drop; lia]).
      rewrite Er in Hv'. destruct (blocks_split U (Z.to_nat w) (as_nodup _ _ _ _ _ Has)) as [Hdis Hun].
      split; [done|]. split; [|split; [done|split; [done|done]]]. destruct Has as [Hr _ Hlen Hperm Hnd Hown]. constructor.
      * done.
      * intros j Hj. rewrite (He j Hj), uentry_take. destruct (decide (w <= j < k)), (decide (Z.to_nat j < Z.to_nat w)%nat); try lia; try done.
        unfold uentry. by rewrite lookup_ge_None_2 by lia.
      * rewrite length_take. lia.
      * by apply Forall_take.
      * rewrite <-(firstn_skipn (Z.to_nat w) U), fmap_app in Hnd. by apply NoDup_app in Hnd as [? _].
      * intros x Hx. apply elem_of_difference. split; [apply Hown; rewrite <-Hun; by apply elem_of_union_l|by intros Hx'; apply (Hdis x)].
Qed.

(** ** allocuvm *)

(** bytes outside the tables and the pages [N] *)
Definition mframe m m' G (N : list Z) : Prop := forall k, (forall p r, G !! p = Some r -> ~ p <= k < p + 4096) ->
  (forall p, p ∈ N -> ~ p <= k < p + 4096) -> m' !! k = m !! k.
Lemma mframe_frame m m' G N : frame m m' G -> mframe m m' G N.
Proof. intros H k Hk _. by apply H. Qed.
Lemma mframe_trans m m1 m2 G G1 N N1 : dom G1 = dom G -> mframe m m1 G N -> mframe m1 m2 G1 N1 -> mframe m m2 G (N ++ N1).
Proof.
  intros Hd F1 F2 k Hk HN. rewrite F2; [apply F1; [done|]| |]; try (intros p Hp; apply HN; set_solver).
  intros p r Hp. assert (is_Some (G !! p)) as [r' Hr'] by (apply elem_of_dom; rewrite <-Hd; apply elem_of_dom; by eexists).
  by eapply Hk.
Qed.

(** the new pages, readable and writable by the process *)
Definition fresh (N : list Z) : list upage := (fun p => (p, AP_RW_1_0)) <$> N.
Lemma fst_fresh N : fst <$> fresh N = N.
Proof. unfold fresh. rewrite <-list_fmap_compose. by rewrite list_fmap_id. Qed.
Lemma fresh_app N N' : fresh (N ++ N') = fresh N ++ fresh N'.
Proof. apply fmap_app. Qed.
Lemma length_fresh N : length (fresh N) = length N.
Proof. apply length_fmap. Qed.

(** a page added at the end of an address space *)
Lemma aspace_add s s' G G' root U A p ap : aspace s G root U A -> G' !! root = Some Dir -> perm_ok ap -> ((p, 12) ∉ A) ->
  Z.of_nat (length U) < 2 ^ 16 ->
  (forall x, entry (kmem s') root x = if decide (vpn x = Z.of_nat (length U)) then page_entry (v2p p) ap else entry (kmem s) root x) ->
  aspace s' G' root (U ++ [(p, ap)]) ({[(p, 12)]} ∪ A).
Proof.
  intros [Hr He Hlen Hperm Hnd Hown] Hr' Hap Hp Hl Hent. constructor.
  - done.
  - intros k Hk. rewrite Hent, vpn_page by done. unfold uentry. case_decide as E.
    + rewrite lookup_app_r by lia. by replace (Z.to_nat k - length U)%nat with 0%nat by lia.
    + rewrite (He k Hk). unfold uentry. destruct (decide (Z.to_nat k < length U)%nat); [by rewrite lookup_app_l by lia|].
      rewrite lookup_ge_None_2 by lia. rewrite lookup_ge_None_2; [done|]. rewrite length_app. cbn. lia.
  - rewrite length_app. cbn. lia.
  - apply Forall_app. split; [done|]. by constructor.
  - rewrite fmap_app. apply NoDup_app. split; [done|]. split; [|apply NoDup_singleton].
    intros q Hq Hq'. apply list_elem_of_singleton in Hq'. cbn in Hq'. subst q. apply Hp, Hown. by apply elem_blocks.
  - unfold blocks. rewrite fmap_app, list_to_set_app_L. cbn. fold (blocks U). set_solver.
Qed.

Definition ainv s0 G0 L0 lo hi A0 root U (N : list Z) s : Prop := exists G L,
  vmem s G L lo hi (blocks (fresh N) ∪ A0) /\ aspace s G root (U ++ fresh N) (blocks (fresh N) ∪ A0) /\
  grows G0 L0 G L (2 * length N) /\ (forall p, p ∈ N -> ((p, 12) ∉ A0) /\ forall i, 0 <= i < 4096 -> kmem s !! (p + i) = Some 0) /\
  mframe (kmem s0) (kmem s) G0 N /\ forall t x, t <> root -> G0 !! t = Some Dir -> entry (kmem s) t x = entry (kmem s0) t x.

Lemma memset_page_user s p (Q : unit -> st P -> Prop) : mapped (kmem s) p pg ->
  Q tt (put_mem (write_bytes (kmem s) p (replicate pg 0)) s) -> wp (memset p 0 PTE_SZ) Q s.
Proof. change PTE_SZ with PT_SZ. apply memset_page. Qed.
Lemma zeros_bytes n : Forall is_byte (replicate n 0).
Proof. apply Forall_replicate. unfold is_byte. lia. Qed.

(** a zeroed page of the pool becomes the next page of the process *)
Lemma grow_step s0 G0 L0 lo hi A0 root U N s p : ainv s0 G0 L0 lo hi A0 root U N s ->
  Z.of_nat (length U + length N) < 2 ^ 16 -> (2 * length N + 2 <= length L0)%nat ->
  forall s1 G L, vmem s G L lo hi (blocks (fresh N) ∪ A0) -> ((p, 12) ∉ blocks (fresh N) ∪ A0) -> kmem s1 = kmem s ->
  vmem s1 G L lo hi ({[(p, 12)]} ∪ (blocks (fresh N) ∪ A0)) -> aspace s G root (U ++ fresh N) (blocks (fresh N) ∪ A0) ->
  grows G0 L0 G L (2 * length N) ->
  wp (memset p 0 PTE_SZ ;; mappages root (4096 * Z.of_nat (length U + length N)) PTE_SZ (u32 (v2p p)) AP_RW_1_0)
    (fun r s' => ainv s0 G0 L0 lo hi A0 root U (N ++ [p]) s') s1.
Proof.
  intros (_ & _ & _ & _ & _ & HN & Hf & Ho) Hk HL s1 G L Hv Hp Hk1 Hv1 Has Hg. set (k := Z.of_nat (length U + length N)) in *.
  assert ((p, 12) ∈ {[(p, 12)]} ∪ (blocks (fresh N) ∪ A0)) as Hp1 by (by apply elem_of_union_l, elem_of_singleton).
  destruct (vm_page _ _ _ _ _ _ _ Hv1 Hp1) as (Hpo & Hplo & Hphi & Hpm & _). pose proof pg_Z as Hpg.
  apply wp_bind, memset_page_user; [done|].
  destruct (vmem_fill _ _ _ _ _ _ _ (replicate pg 0) Hv1 Hp1 (zeros_bytes pg) 0) as [Hv2 Hsame]; [lia|rewrite length_replicate; lia|].
  rewrite Z.add_0_r in Hv2, Hsame. set (s2 := put_mem _ s1) in *.
  assert (Hkm2 : kmem s2 = write_bytes (kmem s) p (replicate pg 0)) by (unfold s2, put_mem; cbn [kmem]; by rewrite Hk1).
  pose proof (as_root _ _ _ _ _ Has) as Hr. assert (Z.of_nat (length (U ++ fresh N)) = k) as Hlen by (rewrite length_app, length_fresh; done).
  assert (forall t x, G !! t = Some Dir -> entry (kmem s2) t x = entry (kmem s) t x) as He2 by (intros t x Ht; rewrite <-Hk1; by apply Hsame).
  assert (perm_ok AP_RW_1_0) as Hperm by (unfold perm_ok; change AP_RW_1_0 with 64; set_solver).
  eapply wp_mono; [apply (map_page s2 G L lo hi _ root p k AP_RW_1_0 Hv2 Hr Hp1); [lia| |done|]|].
  - destruct Hg as (_ & _ & K & -> & HK). rewrite length_app in HL. lia.
  - rewrite He2 by done. rewrite (as_entries _ _ _ _ _ Has) by lia. unfold uentry. by rewrite lookup_ge_None_2 by lia.
  - cbn beta. intros r s' (_ & G' & L' & Hv' & Hg' & Hf' & Hpages & He'). exists G', L'.
    assert (blocks (fresh (N ++ [p])) = {[(p, 12)]} ∪ blocks (fresh N)) as Eb.
    { rewrite fresh_app. unfold blocks. rewrite fmap_app, list_to_set_app_L. cbn. rewrite union_empty_r_L. apply union_comm_L. }
    rewrite Eb, <-union_assoc_L. split; [done|]. split; [|split; [|split; [|split]]].
    + rewrite fresh_app, app_assoc. apply (aspace_add s s' G G' root _ _ p AP_RW_1_0 Has); try done; try lia.
      * by apply Hg'.
      * intros x. rewrite He', He2, Hlen by done. destruct (decide (root = root /\ vpn x = k)) as [[_ ->]|Hne]; [by rewrite decide_True|].
        rewrite decide_False; [done|]. intros E. by apply Hne.
    + rewrite length_app. cbn [length]. replace (2 * (length N + 1))%nat with (2 * length N + 2)%nat by lia. by eapply grows_trans.
    + intros q [Hq| ->%list_elem_of_singleton]%elem_of_app.
      * destruct (HN q Hq) as [Hq1 Hq2]. split; [done|]. intros i Hi.
        assert ((q, 12) ∈ blocks (fresh N) ∪ A0) as Hqb by (apply elem_of_union_l, elem_blocks; by rewrite fst_fresh).
        destruct (vm_page _ _ _ _ _ _ _ Hv Hqb) as (Hqo & Hqlo & Hqhi & _). assert (q <> p) as Hqp by congruence.
        rewrite (pool_frame _ _ _ _ _ _ _ _ Hv2 Hf') by lia. rewrite Hkm2, lookup_write_bytes, length_replicate, Hpg.
        case_decide; [|by apply Hq2]. destruct (page_disj q p Hqo Hpo Hqp); lia.
      * split; [by intros Hin; apply Hp, elem_of_union_r|]. intros i Hi. rewrite (pool_frame _ _ _ _ _ _ _ _ Hv2 Hf') by lia.
        rewrite Hkm2, lookup_write_bytes, length_replicate, Hpg. rewrite decide_True by lia. apply lookup_replicate. split; [done|lia].
    + eapply (mframe_trans _ _ _ _ G0); [done|exact Hf|]. intros x Hx HN'. transitivity (kmem s2 !! x).
      * apply Hf'. intros q r' Hq. assert (is_Some (G0 !! q)) as [r0 Hr0]. { destruct Hg as (_ & Hd & _). apply elem_of_dom. rewrite <-Hd. apply elem_of_dom. by eexists. }
        by eapply Hx.
      * rewrite Hkm2, lookup_write_bytes, length_replicate, Hpg. rewrite decide_False; [done|]. by apply HN', list_elem_of_singleton.
    + intros t x Ht Hdir. assert (G !! t = Some Dir) as Hdir' by (by apply Hg). rewrite He', He2 by done.
      rewrite decide_False by tauto. by apply Ho.
Qed.

(** the pages held before keep their bytes *)
Lemma kept_pages s0 G0 L0 lo hi A0 s G L N q o : vmem s0 G0 L0 lo hi A0 -> vmem s G L lo hi (blocks (fresh N) ∪ A0) ->
  (forall p, p ∈ N -> (p, 12) ∉ A0) -> mframe (kmem s0) (kmem s) G0 N -> (q, 12) ∈ A0 -> 0 <= o < 4096 ->
  kmem s !! (q + o) = kmem s0 !! (q + o).
Proof.
  intros Hv0 Hv HN Hf HqA Ho. destruct (vm_page _ _ _ _ _ _ _ Hv0 HqA) as (_ & Hlo & Hhi & _). apply Hf.
  - intros p r Hp. pose proof (vm_tables _ _ _ _ _ _ Hv0 _ _ Hp). pose proof (vm_low _ _ _ _ _ _ Hv0). lia.
  - intros p Hp. assert (q <> p) as Hne by (intros ->; by apply (HN p Hp)).
    assert ((p, 12) ∈ blocks (fresh N) ∪ A0) as HpA by (apply elem_of_union_l, elem_blocks; by rewrite fst_fresh).
    assert ((q, 12) ∈ blocks (fresh N) ∪ A0) as HqA' by (by apply elem_of_union_r).
    destruct (vm_disj _ _ _ _ _ _ _ _ Hv HqA' HpA Hne); lia.
Qed.
Lemma fresh_out A N : (forall p, p ∈ N -> (p, 12) ∉ A) -> (blocks (fresh N) ∪ A) ∖ blocks (fresh N) = A.
Proof.
  intros HN. apply leibniz_equiv. intros x. rewrite elem_of_difference, elem_of_union. split; [tauto|]. intros Hx. split; [by right|].
  unfold blocks. rewrite elem_of_list_to_set, list_elem_of_fmap. intros ([p b] & -> & Hp). cbn in Hx.
  assert (p ∈ N) as HpN by (rewrite <-(fst_fresh N); apply list_elem_of_fmap; by exists (p, b)). by apply (HN p HpN).
Qed.
Lemma in_fresh p N A : p ∈ N -> (p, 12) ∈ blocks (fresh N) ∪ A.
Proof. intros Hp. apply elem_of_union_l, elem_blocks. by rewrite fst_fresh. Qed.

(** after a failure: the address space is as it was *)
Definition released s0 G0 L0 lo hi A0 root U s : Prop := exists G L,
  vmem s G L lo hi A0 /\ aspace s G root U A0 /\ grows G0 L0 G L (length L0) /\
  (forall q o, (q, 12) ∈ A0 -> 0 <= o < 4096 -> kmem s !! (q + o) = kmem s0 !! (q + o)) /\ forall t x, t <> root -> G0 !! t = Some Dir -> entry (kmem s) t x = entry (kmem s0) t x.

Lemma alloc_undo s0 G0 L0 lo hi A0 root U N s oldsz newsz : vmem s0 G0 L0 lo hi A0 -> ainv s0 G0 L0 lo hi A0 root U N s ->
  0 <= oldsz < newsz -> newsz < UADDR_SZ -> npg oldsz = Z.of_nat (length U) -> Z.of_nat (length U + length N) <= npg newsz ->
  (2 * length N <= length L0)%nat ->
  wp (deallocuvm root newsz oldsz) (fun _ s' => released s0 G0 L0 lo hi A0 root U s') s.
Proof.
  intros Hv0 (G & L & Hv & Has & Hg & HN & Hf & Ho) Hsz Hnew HU Hlen HL.
  eapply wp_mono; [apply (deallocuvm_spec s G L lo hi _ root _ newsz oldsz Hv Has Hsz); [lia|rewrite length_app, length_fresh; lia]|].
  cbn beta zeta. rewrite HU, Nat2Z.id, drop_app_length, take_app_length, fresh_out by (intros p Hp; by apply HN).
  intros _ s' (_ & Hv' & Has' & Hf' & Ho' & _). exists G, L. split; [done|]. split; [done|]. split; [|split].
  - destruct Hg as (H1 & H2 & K & H3 & H4). split; [done|]. split; [done|]. exists K. split; [done|]. subst L0. rewrite length_app. lia.
  - intros q o Hq Hoo. destruct (vm_page _ _ _ _ _ _ _ Hv0 Hq) as (_ & Hlo & _). rewrite (pool_frame _ _ _ _ _ _ _ _ Hv Hf') by lia.
    apply (kept_pages s0 G0 L0 lo hi A0 s G L N); try done. intros p Hp. by apply HN.
  - intros t x Ht Hd. rewrite Ho' by (done || by apply Hg). by apply Ho.
Qed.

Lemma allocuvm_spec s G L lo hi A root U oldsz newsz : vmem s G L lo hi A -> aspace s G root U A ->
  0 <= oldsz <= newsz -> newsz < UADDR_SZ -> npg oldsz = Z.of_nat (length U) -> 2 * (npg newsz - npg oldsz) <= Z.of_nat (length L) ->
  wp (allocuvm root oldsz newsz) (fun r s' =>
    (exists N, r = newsz /\ npg newsz = Z.of_nat (length U + length N) /\ ainv s G L lo hi A root U N s') \/
    r = 0 /\ released s G L lo hi A root U s') s.
Proof.
  intros Hv Has Hsz Hnew HU HL. pose proof Hnew as Hnew'. change UADDR_SZ with (2 ^ 28) in Hnew'.
  unfold allocuvm. destruct (Z.leb_spec UADDR_SZ newsz); [lia|]. destruct (Z.ltb_spec newsz oldsz); [lia|].
  rewrite align_up_page by lia. rewrite HU.
  eapply (wp_loop _ _ _ _ _ (fun a s' => exists N, a = 4096 * Z.of_nat (length U + length N) /\ Z.of_nat (length U + length N) <= npg newsz /\
    ainv s G L lo hi A root U N s') (fun a => Z.to_nat (newsz - a))).
  - exists []. rewrite Nat.add_0_r. split; [done|]. split; [unfold npg in *; Z.div_mod_to_equations; lia|]. exists G, L.
    assert (blocks (fresh []) ∪ A = A) as -> by apply union_empty_l_L. rewrite app_nil_r. do 2 (split; [done|]). split; [apply grows_refl|].
    split; [by intros p Hp; apply elem_of_nil in Hp|]. split; [by intros k|done].
  - lia.
  - intros a s' (N & -> & Hle & Hi). set (k := Z.of_nat (length U + length N)) in *. unfold allocuvm_body.
    destruct (Z.ltb_spec (4096 * k) newsz) as [Hlt|Hge].
    2:{ apply wp_ret. left. exists N. split; [apply s32_small; lia|]. split; [|done]. unfold npg in *. Z.div_mod_to_equations. lia. }
    assert (k < npg newsz) as Hk by (unfold npg; Z.div_mod_to_equations; lia).
    assert (oldsz <= 4096 * k) as Hok. { unfold npg in HU. fold k. Z.div_mod_to_equations. lia. }
    pose proof Hi as (G1 & L1 & Hv1 & Has1 & Hg1 & _).
    apply wp_bind. eapply wp_mono; [by apply (alloc_page_spec _ _ _ _ _ _ Hv1)|]. cbn beta. intros p s1 [[-> ->]|(Hp & Hk1 & _ & Hv2)].
    + cbn [Z.eqb]. apply wp_bind. eapply wp_mono; [apply (alloc_undo s G L lo hi A root U N s' oldsz newsz Hv Hi); lia|]. cbn beta.
      intros _ s2 Hr. apply wp_ret. by right.
    + assert ((p =? 0) = false) as ->. { apply Z.eqb_neq. eapply page_nz, vm_page; [exact Hv2|]. by apply elem_of_union_l, elem_of_singleton. }
      pose proof (grow_step s G L lo hi A root U N s' p Hi ltac:(lia) ltac:(lia) s1 G1 L1 Hv1 Hp Hk1 Hv2 Has1 Hg1) as Hstep.
      apply wp_bind_inv in Hstep. apply wp_bind. eapply wp_mono; [exact Hstep|]. cbn beta. intros _ s2 Hmap. apply wp_bind.
      eapply wp_mono; [exact Hmap|]. cbn beta. intros r s3 Hi3. apply wp_ret. fold k. split.
      * exists (N ++ [p]). rewrite length_app. cbn [length]. split; [|split; [lia|done]]. change PTE_SZ with 4096. unfold u64.
        rewrite Z.mod_small by lia. lia.
      * change PTE_SZ with 4096. unfold u64. rewrite Z.mod_small by lia. lia.
Qed.

(** ** copyuvm *)

(** the next page of an address space *)
Lemma map_next s G L lo hi A root W B p ap : vmem s G L lo hi A -> (p, 12) ∈ A -> aspace s G root W B -> ((p, 12) ∉ B) ->
  Z.of_nat (length W) < 2 ^ 16 -> (2 <= length L)%nat -> perm_ok ap ->
  wp (mappages root (4096 * Z.of_nat (length W)) PTE_SZ (u32 (v2p p)) ap) (fun r s' => r = 0 /\ exists G' L', vmem s' G' L' lo hi A /\
    aspace s' G' root (W ++ [(p, ap)]) ({[(p, 12)]} ∪ B) /\ grows G L G' L' 2 /\ frame (kmem s) (kmem s') G /\
    forall t x, t <> root -> G !! t = Some Dir -> entry (kmem s') t x = entry (kmem s) t x) s.
Proof.
  intros Hv Hp Has HpB Hlen HL Hap. pose proof (as_root _ _ _ _ _ Has) as Hr.
  eapply wp_mono; [apply (map_page s G L lo hi A root p (Z.of_nat (length W)) ap Hv Hr Hp); [lia|done|done|]|].
  - rewrite (as_entries _ _ _ _ _ Has) by lia. unfold uentry. by rewrite lookup_ge_None_2 by lia.
  - cbn beta. intros r s' (-> & G' & L' & Hv' & Hg' & Hf' & Hpages & He'). split; [done|]. exists G', L'. split; [done|]. split; [|split; [done|split; [done|]]].
    + apply (aspace_add s s' G G' root W B p ap Has); try done; [by apply Hg'|]. intros x. rewrite He' by done.
      destruct (decide (vpn x = Z.of_nat (length W))) as [E|Hne]; [by rewrite decide_True|]. rewrite decide_False; [done|]. intros [_ E]. by apply Hne.
    + intros t x Ht Hd. rewrite He' by done. rewrite decide_False; [done|]. by intros [E _].
Qed.

(** the entry of a mapped page, where walkpgdir finds it *)
Lemma walk_page s G L root U A k p ap : space s G L -> aspace s G root U A -> 0 <= k < 2 ^ 20 -> U !! Z.to_nat k = Some (p, ap) -> page_ok p ->
  exists pte, walkpgdir root (4096 * k) false s = Done pte s /\ pte <> 0 /\ word (kmem s) pte = Some (page_entry (v2p p) ap) /\ perm_ok ap.
Proof.
  intros Hs Has Hk Hp Hpo. assert (perm_ok ap) as Hap by exact (Forall_lookup_1 _ _ _ _ (as_perm _ _ _ _ _ Has) Hp).
  destruct (user_entry p ap Hpo Hap) as (Hpres & _). pose proof (as_entries _ _ _ _ _ Has k Hk) as He. unfold uentry in He. rewrite Hp in He.
  destruct (slot (kmem s) root (4096 * k)) as [pte|] eqn:Esl.
  2:{ exfalso. unfold entry in He. rewrite Esl in He. cbn [mbind option_bind default from_option id] in He. by rewrite <-He in Hpres. }
  exists pte. destruct (slot_leaf _ _ _ _ _ _ _ (proj2 Hs) (as_root _ _ _ _ _ Has) Esl) as (c & Hc & Epte).
  split; [rewrite (walkpgdir_find s root G L _ Hs (as_root _ _ _ _ _ Has)); by rewrite Esl|]. split; [|split; [|done]].
  - destruct (tb_page _ _ _ _ (proj2 Hs) _ _ Hc) as [Hco _]. pose proof (page_range c Hco). destruct (idx_range (4096 * k)) as (_ & _ & I3).
    unfold KERNBASE in *. lia.
  - unfold entry in He. rewrite Esl in He. cbn [mbind option_bind] in He. destruct (word (kmem s) pte) as [w|]; [by cbn in He; rewrite He|].
    cbn in He. by rewrite <-He in Hpres.
Qed.

(** the bytes of a page *)
Lemma page_bytes s G L lo hi A p : vmem s G L lo hi A -> (p, 12) ∈ A -> exists l, length l = pg /\ bytes_at (kmem s) p l /\ Forall is_byte l.
Proof.
  intros Hv Hp. destruct (vm_page _ _ _ _ _ _ _ Hv Hp) as (_ & Hlo & Hhi & _). pose proof pg_Z.
  exists ((fun i => default 0 (kmem s !! (p + Z.of_nat i))) <$> seq 0 pg). split; [by rewrite length_fmap, length_seq|].
  assert (forall i, (i < pg)%nat -> exists b, kmem s !! (p + Z.of_nat i) = Some b /\ is_byte b) as Hb by (intros i Hi; apply (vm_pool _ _ _ _ _ _ Hv); lia).
  split.
  - intros i x Hx. rewrite list_lookup_fmap in Hx. destruct (seq 0 pg !! i) as [j|] eqn:E; [|done]. apply lookup_seq in E as [-> Hi].
    cbn in Hx. injection Hx as <-. destruct (Hb i Hi) as (b & Hb' & _). by rewrite Hb'.
  - apply Forall_fmap, Forall_forall. intros i Hi. apply elem_of_seq in Hi. destruct (Hb i ltac:(lia)) as (b & Hb' & Hby). cbn. by rewrite Hb'.
Qed.
Lemma memmove_wp s dst src l n (Q : unit -> st P -> Prop) : n = Z.of_nat (length l) -> bytes_at (kmem s) src l -> Forall is_byte l ->
  mapped (kmem s) dst (length l) -> Q tt (put_mem (write_bytes (kmem s) dst l) s) -> wp (memmove dst src n) Q s.
Proof.
  intros -> Hb Hl Hm HQ. unfold memmove. apply wp_bind, wp_zoom. eapply wp_eq; [|exact HQ]. by apply memmove_copies.
Qed.

(** the pages [N] with the permissions of the pages they are copies of *)
Definition copied U (N : list Z) : list upage := zip_with (fun p u => (p, snd u)) N U.
Definition same_page m m' (q p : Z) : Prop := forall o, 0 <= o < 4096 -> m' !! (p + o) = m !! (q + o).
Definition cinv s0 G0 L0 lo hi A0 d U (N : list Z) s : Prop := exists G L,
  vmem s G L lo hi (blocks (fresh N) ∪ A0) /\ aspace s G d (copied U N) (blocks (fresh N) ∪ A0) /\
  grows G0 L0 G L (2 * length N) /\ (forall p, p ∈ N -> (p, 12) ∉ A0) /\
  (forall i p u, N !! i = Some p -> U !! i = Some u -> same_page (kmem s0) (kmem s) (fst u) p) /\
  mframe (kmem s0) (kmem s) G0 N /\ forall t x, t <> d -> G0 !! t = Some Dir -> entry (kmem s) t x = entry (kmem s0) t x.

Lemma length_copied U N : (length N <= length U)%nat -> length (copied U N) = length N.
Proof. intros H. unfold copied. rewrite length_zip_with. lia. Qed.
Lemma copied_S U N p u : U !! length N = Some u -> copied U (N ++ [p]) = copied U N ++ [(p, snd u)].
Proof.
  intros Hu. unfold copied. pose proof (lookup_lt_Some _ _ _ Hu).
  rewrite <-(take_drop_middle U (length N) u Hu) at 1. rewrite zip_with_app by (rewrite length_take; lia). cbn [zip_with].
  f_equal. by apply zip_with_take_r.
Qed.

(** an address space that other code left alone *)
Lemma aspace_other s s' G G' root U A B : aspace s G root U A -> G' !! root = Some Dir -> A ⊆ B ->
  (forall x, entry (kmem s') root x = entry (kmem s) root x) -> aspace s' G' root U B.
Proof. intros [Hr He Hl Hp Hnd Hown] Hr' HAB Hsame. constructor; try done; [|set_solver]. intros k Hk. rewrite Hsame. by apply He. Qed.

(** the parent's pages during the copy *)
Lemma parent_page s0 G0 L0 lo hi A0 d U N s root u o : vmem s0 G0 L0 lo hi A0 -> aspace s0 G0 root U A0 ->
  cinv s0 G0 L0 lo hi A0 d U N s -> u ∈ U -> 0 <= o < 4096 -> kmem s !! (fst u + o) = kmem s0 !! (fst u + o).
Proof.
  intros Hv0 Has (G & L & Hv & _ & _ & HN & _ & Hf & _) Hu Ho. destruct u as [q ap]. cbn [fst].
  destruct (aspace_pages _ _ _ _ _ _ _ _ q ap Hv0 Has Hu) as [HqA _]. by apply (kept_pages s0 G0 L0 lo hi A0 s G L N).
Qed.

Lemma copy_step s0 G0 L0 lo hi A0 root d U N s sz : vmem s0 G0 L0 lo hi A0 -> aspace s0 G0 root U A0 -> root <> d ->
  cinv s0 G0 L0 lo hi A0 d U N s -> (length N < length U)%nat -> (2 * length N + 2 <= length L0)%nat ->
  let k := Z.of_nat (length N) in 4096 * k < sz ->
  wp (copyuvm_body root d sz (4096 * k)) (fun r s' =>
    (exists p, r = inl (4096 * (k + 1)) /\ cinv s0 G0 L0 lo hi A0 d U (N ++ [p]) s') \/ r = inr false /\ s' = s) s.
Proof.
  intros Hv0 Has0 Hne Hc HNU HL k Hsz. pose proof Hc as (G & L & Hv & Hasd & Hg & HN & Hcopy & Hf & Ho).
  pose proof (as_len _ _ _ _ _ Has0) as HlenU. pose proof pg_Z as Hpg.
  destruct (lookup_lt_is_Some_2 U (length N) HNU) as [[q ap] Hu]. assert ((q, ap) ∈ U) as HuU by (eapply list_elem_of_lookup_2; exact Hu).
  destruct (aspace_pages _ _ _ _ _ _ _ _ q ap Hv0 Has0 HuU) as [HqA Hqo].
  assert (aspace s G root U (blocks (fresh N) ∪ A0)) as Has.
  { apply (aspace_other s0 s G0 G root U A0); [done| | |]; [apply Hg; [apply Has0|done]|by apply union_subseteq_r|]. intros x. apply Ho; [done|apply Has0]. }
  unfold copyuvm_body. destruct (Z.ltb_spec (4096 * k) sz); [|lia].
  destruct (walk_page s G L root U _ k q ap (vm_space _ _ _ _ _ _ Hv) Has) as (pte & Hrun & Hnz & Hw & Hap); [lia|by unfold k; rewrite Nat2Z.id|done|].
  destruct (user_entry q ap Hqo Hap) as (Hpres & Haddr & Hpap & Hr64 & Hu32 & Hv0' & Hpv).
  apply wp_bind. apply (wp_eq _ _ _ _ _ Hrun). apply Z.eqb_neq in Hnz. rewrite Hnz. cbn [panic_if]. wp_step. wp_step.
  apply wp_bind. eapply ld64_wp; [exact Hw|]. rewrite Hpres. cbn [negb panic_if]. wp_step. wp_step. rewrite Haddr, Hpap. cbv zeta.
  apply wp_bind. eapply wp_mono; [by apply (alloc_page_spec _ _ _ _ _ _ Hv)|]. cbn beta. intros p s1 [[-> ->]|(Hp & Hk1 & _ & Hv1)].
  { cbn [Z.eqb]. apply wp_ret. by right. }
  assert ((p, 12) ∈ {[(p, 12)]} ∪ (blocks (fresh N) ∪ A0)) as Hp1 by (by apply elem_of_union_l, elem_of_singleton).
  destruct (vm_page _ _ _ _ _ _ _ Hv1 Hp1) as (Hpo & Hplo & Hphi & Hpm & _).
  pose proof (page_nz p Hpo) as Hpnz. apply Z.eqb_neq in Hpnz. rewrite Hpnz, Hpv.
  assert ((q, 12) ∈ blocks (fresh N) ∪ A0) as HqA' by (by apply elem_of_union_r).
  destruct (page_bytes _ _ _ _ _ _ _ Hv HqA') as (l & Hl & Hlb & Hly).
  apply wp_bind. apply (memmove_wp _ _ _ l); [rewrite Hl; by rewrite Hpg|by rewrite Hk1|done|by rewrite Hl|].
  destruct (vmem_fill _ _ _ _ _ _ _ l Hv1 Hp1 Hly 0) as [Hv2 Hsame]; [lia|rewrite Hl; lia|].
  rewrite Z.add_0_r in Hv2, Hsame. set (s2 := put_mem _ s1) in *.
  assert (Hkm2 : kmem s2 = write_bytes (kmem s) p l) by (unfold s2, put_mem; cbn [kmem]; by rewrite Hk1).
  assert (forall t x, G !! t = Some Dir -> entry (kmem s2) t x = entry (kmem s) t x) as He2 by (intros t x Ht; rewrite <-Hk1; by apply Hsame).
  assert (length (copied U N) = length N) as Hlc by (apply length_copied; lia).
  assert (aspace s2 G d (copied U N) (blocks (fresh N) ∪ A0)) as Hasd2.
  { apply (aspace_other s s2 G G d _ _ _ Hasd); [apply Hasd|done|]. intros x. apply He2, Hasd. }
  pose proof (map_next s2 G L lo hi _ d (copied U N) _ p ap Hv2 Hp1 Hasd2 Hp) as Hmap. rewrite Hlc in Hmap. fold k in Hmap.
  assert (2 <= length L)%nat as HL2 by (destruct Hg as (_ & _ & K & -> & HK); rewrite length_app in HL; lia).
  apply wp_bind. eapply wp_mono; [apply Hmap; [lia|done|done]|]. cbn beta. clear Hmap.
  intros r s' (-> & G' & L' & Hv' & Has' & Hg' & Hf' & Ho'). cbn [Z.ltb Z.compare]. apply wp_ret. left. exists p.
  split. { f_equal. change PTE_SZ with 4096. unfold u64. rewrite Z.mod_small by lia. lia. }
  assert (blocks (fresh (N ++ [p])) = {[(p, 12)]} ∪ blocks (fresh N)) as Eb.
  { rewrite fresh_app. unfold blocks. rewrite fmap_app, list_to_set_app_L. cbn. rewrite union_empty_r_L. apply union_comm_L. }
  exists G', L'. rewrite Eb, <-union_assoc_L. split; [done|]. split; [|split; [|split; [|split; [|split]]]].
  - rewrite (copied_S U N p (q, ap) Hu). exact Has'.
  - rewrite length_app. cbn [length]. replace (2 * (length N + 1))%nat with (2 * length N + 2)%nat by lia. by eapply grows_trans.
  - intros x [Hx| ->%list_elem_of_singleton]%elem_of_app; [by apply HN|]. intros Hin. by apply Hp, elem_of_union_r.
  - intros i x u Hx Hui o Hoo. destruct (decide (i < length N)%nat) as [Hi|Hi].
    + rewrite lookup_app_l in Hx by done. assert (x ∈ N) as HxN by (eapply list_elem_of_lookup_2; exact Hx).
      assert ((x, 12) ∈ blocks (fresh N) ∪ A0) as HxA by (by apply in_fresh).
      destruct (vm_page _ _ _ _ _ _ _ Hv HxA) as (Hxo & Hxlo & Hxhi & _). assert (x <> p) as Hxp by congruence.
      rewrite (pool_frame _ _ _ _ _ _ _ _ Hv2 Hf') by lia. rewrite Hkm2, lookup_write_bytes, Hl, Hpg.
      case_decide; [destruct (page_disj x p Hxo Hpo Hxp); lia|]. by apply (Hcopy i x u).
    + rewrite lookup_app_r in Hx by lia. destruct (i - length N)%nat as [|j] eqn:Ei; [|by destruct j]. injection Hx as <-.
      assert (i = length N) as -> by lia. rewrite Hu in Hui. injection Hui as <-. cbn [fst].
      rewrite (pool_frame _ _ _ _ _ _ _ _ Hv2 Hf') by lia. rewrite Hkm2, lookup_write_bytes, Hl, Hpg. rewrite decide_True by lia.
      pose proof (parent_page s0 G0 L0 lo hi A0 d U N s root (q, ap) o Hv0 Has0 Hc HuU Hoo) as Epar. cbn [fst] in Epar. rewrite <-Epar.
      replace (p + o - p) with o by lia. destruct (lookup_lt_is_Some_2 l (Z.to_nat o)) as [b Hb]; [lia|].
      rewrite Hb. symmetry. rewrite <-(Z2Nat.id o) at 1 by lia. by apply Hlb.
  - eapply (mframe_trans _ _ _ _ G0); [done|exact Hf|]. intros x Hx HN'. transitivity (kmem s2 !! x).
    + apply Hf'. intros t r' Ht. assert (is_Some (G0 !! t)) as [r0 Hr0]. { destruct Hg as (_ & Hd & _). apply elem_of_dom. rewrite <-Hd. apply elem_of_dom. by eexists. }
      by eapply Hx.
    + rewrite Hkm2, lookup_write_bytes, Hl, Hpg. rewrite decide_False; [done|]. by apply HN', list_elem_of_singleton.
  - intros t x Ht Hdir. assert (G !! t = Some Dir) as Hdir' by (by apply Hg). rewrite Ho', He2 by done. by apply Ho.
Qed.


End user.
End UserMem.
