(* ===== verification/PtFree.v ===== *)
(** * Freeing page tables (the second half of freevm() of src/src/vm.c)

    The tables of one directory go back to the list of kpt_mem, last-level
    tables first.  While that runs the entries still link pages that are
    free; [forget] takes the directory's pages out of the roles beforehand, so
    that the tables of the other directories stay well formed throughout. *)

From S2P Require Import Prelude.
From S2P Require Import Bytes.
From S2P Require Import KString.
From S2P Require Import Mmu.
From S2P Require Import Buddy.
From S2P Require Import Alloc.
From S2P Require Import Vm.
From S2P Require Import PageTable.

Module PtFree.
Import Mmu.
Import Vm.
Import PageTable.

(** the pages of directory [d] *)
Definition mine (d p : Z) (r : role) : bool :=
  match r with Dir => p =? d | Mid t _ => t =? d | Leaf t _ _ => t =? d | Spare => false end.
Definition forget (d : Z) (G : gmap Z role) : gmap Z role :=
  map_imap (fun p r => Some (if mine d p r then Spare else r)) G.

Lemma forget_lookup d G p : forget d G !! p = (fun r => if mine d p r then Spare else r) <$> G !! p.
Proof. unfold forget. rewrite map_lookup_imap. by destruct (G !! p). Qed.
Lemma forget_dom d G : dom (forget d G) = dom G.
Proof. apply set_eq. intros p. rewrite !elem_of_dom, forget_lookup, fmap_is_Some. done. Qed.
Lemma forget_other d G p r : forget d G !! p = Some r -> r <> Spare -> G !! p = Some r /\ mine d p r = false.
Proof. rewrite forget_lookup. destruct (G !! p) as [r'|]; [|done]. cbn. destruct (mine d p r') eqn:E; intros [= <-]; done. Qed.
Lemma forget_keep d G p r : G !! p = Some r -> mine d p r = false -> forget d G !! p = Some r.
Proof. intros Hp Hm. rewrite forget_lookup, Hp. cbn. by rewrite Hm. Qed.
Lemma forget_mine d G p r : G !! p = Some r -> mine d p r = true -> forget d G !! p = Some Spare.
Proof. intros Hp Hm. rewrite forget_lookup, Hp. cbn. by rewrite Hm. Qed.

Lemma forget_tables m f G L d : tables m f G L -> tables m f (forget d G) L.
Proof.
  intros Ht. constructor.
  - intros p r Hp. rewrite forget_lookup in Hp. destruct (G !! p) as [r'|] eqn:E; [|done]. by eapply tb_page.
  - intros b i r Hpar. assert (parent G b i r /\ forall c, mine d c r = false) as [Hpar' Hm].
    { destruct Hpar as [(H1 & H2 & ->)|(t & k & H1 & H2 & ->)]; apply forget_other in H1 as [H1 H1m]; try done.
      - split; [by left|by intros c]. - split; [right; by exists t, k|by intros c]. }
    destruct (tb_entry _ _ _ _ Ht _ _ _ Hpar') as [H|(c & H & Hc)]; [by left|right]. exists c. split; [done|]. by apply forget_keep.
  - apply Ht.
  - intros p Hp. apply forget_keep; [by apply (tb_spare _ _ _ _ Ht)|done].
  - apply Ht.
Qed.

Section free.
Context {P : Type} {PA : PageAlloc P}.
Implicit Types (s : st P) (m : mem) (G : gmap Z role) (L : list Z).

(** one page back on the list *)
Lemma push_page s G L p : space s G L -> G !! p = Some Spare -> p ∉ L ->
  wp (_kpt_free p) (fun _ s' => space s' G (p :: L) /\ kmem s' = write_bytes (kmem s) p (le 8 (freelist s)) /\ pages s' = pages s /\
    same (kmem s) (kmem s') G) s.
Proof.
  intros (Hl & Ht) Hp HpL. destruct (tb_page _ _ _ _ Ht _ _ Hp) as [Hpo Hpm].
  assert (0 <= freelist s < 2 ^ 64) as Hf.
  { pose proof (tb_chain _ _ _ _ Ht) as Hc. destruct L as [|q L]; [cbn in Hc; lia|]. destruct Hc as (-> & _).
    pose proof (tb_spare _ _ _ _ Ht q ltac:(set_solver)) as Hq. destruct (tb_page _ _ _ _ Ht _ _ Hq) as [Hqo _].
    pose proof (page_range q Hqo). unfold KERNBASE in *. lia. }
  unfold _kpt_free. apply wp_bind, wp_gets, wp_bind, st64_wp.
  { pose proof (page_word _ p 0 Hpm ltac:(lia)) as Hw. by rewrite Z.mul_0_r, Z.add_0_r in Hw. }
  unfold set_freelist. apply wp_modify. cbn [put_mem kmem freelist pages klock].
  assert (u64 (freelist s) = freelist s) as -> by (by apply Z.mod_small).
  cbn [kmem freelist]. set (m' := write_bytes _ _ _).
  assert (forall q j r, G !! q = Some r -> 0 <= j < 512 -> word m' (q + 8 * j) = if decide ((p, 0) = (q, j)) then Some (freelist s) else word (kmem s) (q + 8 * j)) as Hw.
  { intros q j r Hq Hj. unfold m'. replace p with (p + 8 * 0) at 1 by lia. rewrite word_set; [by rewrite Z.mod_small|done| |lia|done]. by eapply tb_page. }
  split; [split; [done|]|split; [done|split; [done|]]].
  2:{ intros root x Hr. apply (walk_cong _ _ _ _ _ _ Ht Hr). intros q j r Hq Hrq Hj. rewrite (Hw q j r Hq Hj). case_decide; [congruence|done]. }
  cbn [kmem freelist]. fold m'. constructor.
  - intros q r Hq. destruct (tb_page _ _ _ _ Ht _ _ Hq). split; [done|]. by apply mapped_write.
  - intros b i r Hpar. destruct (parent_typed _ _ _ _ Hpar) as (rb & Hb & Hns & Hi & _). unfold entry_ok.
    rewrite (Hw _ _ _ Hb Hi). case_decide; [congruence|]. by apply (tb_entry _ _ _ _ Ht).
  - split; [done|]. exists (freelist s). split.
    + pose proof (Hw p 0 Spare Hp ltac:(lia)) as E. rewrite Z.mul_0_r, Z.add_0_r in E. rewrite E. by rewrite decide_True.
    + eapply chain_cong; [|apply Ht]. intros q Hq. pose proof (tb_spare _ _ _ _ Ht q Hq) as Hsq.
      pose proof (Hw q 0 Spare Hsq ltac:(lia)) as E. rewrite Z.mul_0_r, Z.add_0_r in E. rewrite E. case_decide; [congruence|done].
  - intros q [->|Hq]%elem_of_cons; [done|]. by apply (tb_spare _ _ _ _ Ht).
  - apply NoDup_cons. split; [done|apply Ht].
Qed.
Lemma kpt_free_spec s G L p : space s G L -> G !! p = Some Spare -> p ∉ L -> p < p2v INIT_KERNMAP ->
  wp (kpt_free p) (fun _ s' => space s' G (p :: L) /\ kmem s' = write_bytes (kmem s) p (le 8 (freelist s)) /\
    pages s' = pages s) s.
Proof.
  intros Hs Hp HpL Hlow. unfold kpt_free. destruct (Z.leb_spec (p2v INIT_KERNMAP) p); [lia|]. apply wp_bind, wp_acquire; [apply Hs|].
  pose proof (push_page s G L p Hs Hp HpL) as Hpush. apply wp_done in Hpush as ([] & s1 & Hrun & (_ & Ht') & Hk & Hpg & _).
  apply wp_bind. eapply (wp_eq _ _ _ tt (lset kpt_lock true s1)).
  { revert Hrun. unfold _kpt_free, st64, gets, deref, modify, set_freelist, mbind, M_bind. cbn. destruct (word (kmem s) p); [|done]. by intros [= <-]. }
  apply wp_release; [done|]. by split.
Qed.

(** the list main() starts with: the pages from [low] to [hi] *)
Lemma kpt_freerange_spec s G L low n : space s G L -> 0 <= low -> low + 4096 * Z.of_nat n < 2 ^ 64 ->
  (forall i, 0 <= i < Z.of_nat n -> G !! (low + 4096 * i) = Some Spare /\ low + 4096 * i ∉ L) ->
  wp (kpt_freerange low (low + 4096 * Z.of_nat n)) (fun _ s' => exists K, space s' G (K ++ L) /\ length K = n /\
    (forall p, p ∈ K <-> exists i, 0 <= i < Z.of_nat n /\ p = low + 4096 * i) /\ frame (kmem s) (kmem s') G /\ pages s' = pages s /\
    same (kmem s) (kmem s') G) s.
Proof.
  intros Hs Hlow Hhi Hsp. unfold kpt_freerange.
  eapply (wp_loop _ _ _ _ _ (fun a s' => exists j K, 0 <= j <= Z.of_nat n /\ a = low + 4096 * j /\ space s' G (K ++ L) /\ length K = Z.to_nat j /\
    (forall p, p ∈ K <-> exists i, 0 <= i < j /\ p = low + 4096 * i) /\ frame (kmem s) (kmem s') G /\ pages s' = pages s /\
    same (kmem s) (kmem s') G)
    (fun a => Z.to_nat (low + 4096 * Z.of_nat n - a))).
  - exists 0, []. split; [lia|]. split; [lia|]. split; [done|]. split; [done|]. split; [|done].
    intros p. split; [by intros Hp%elem_of_nil|intros (i & Hi & _); lia].
  - lia.
  - intros a s1 (j & K & Hj & -> & Hs1 & HK & Hmem & Hf & Hp & Hsm). destruct (Z.ltb_spec (low + 4096 * j) (low + 4096 * Z.of_nat n)) as [Hlt|Hge].
    2:{ apply wp_ret. assert (j = Z.of_nat n) as -> by lia. exists K. split; [done|]. split; [lia|done]. }
    destruct (Hsp j ltac:(lia)) as [Hgj HjL]. apply wp_bind. eapply wp_mono; [apply (push_page s1 G (K ++ L) _ Hs1 Hgj)|].
    { rewrite elem_of_app, Hmem. intros [(i & Hi & E)|Hin]; [lia|done]. }
    cbn beta. intros _ s2 (Hs2 & Hk2 & Hp2 & Hsm2). apply wp_ret. change PT_SZ with 4096. unfold u64. rewrite Z.mod_small by lia. split; [|lia].
    exists (j + 1), ((low + 4096 * j) :: K). split; [lia|]. split; [lia|]. split; [done|]. split; [cbn; lia|]. split; [|split; [|split]].
    + intros p. rewrite elem_of_cons, Hmem. split.
      * intros [->|(i & Hi & ->)]; [exists j|exists i]; split; lia.
      * intros (i & Hi & ->). destruct (decide (i = j)) as [->|]; [by left|right]. exists i. split; [lia|done].
    + eapply frame_trans; [|exact Hf|]; [done|]. rewrite Hk2. apply (frame_word _ _ _ _ _ _ Hgj); lia.
    + congruence.
    + intros root x Hr. rewrite Hsm2 by done. by apply Hsm.
Qed.

(** ** The loops of freevm *)

Section directory.
Context (s0 : st P) (G : gmap Z role) (L0 : list Z) (d : Z).
Hypothesis (Hs0 : space s0 G L0) (Hdir : G !! d = Some Dir) (Hlow : forall p r, G !! p = Some r -> p < p2v INIT_KERNMAP).

(** the pages [F] have been freed *)
Record finv (F : list Z) s : Prop := {
  fi_space : space s (forget d G) (F ++ L0);
  fi_mine p : p ∈ F -> exists r, G !! p = Some r /\ mine d p r = true;
  fi_words q j r : G !! q = Some r -> r <> Spare -> q ∉ F -> 0 <= j < 512 -> word (kmem s) (q + 8 * j) = word (kmem s0) (q + 8 * j);
  fi_frame : frame (kmem s0) (kmem s) G;
  fi_pages : pages s = pages s0;
}.

Lemma free_one F s p r : finv F s -> G !! p = Some r -> mine d p r = true -> p ∉ F -> wp (kpt_free p) (fun _ s' => finv (p :: F) s') s.
Proof.
  intros [Hs Hm Hw Hf Hp] Hr Hmine HpF. assert (r <> Spare) as Hns by (by intros ->).
  assert (p ∉ F ++ L0) as HpL. { rewrite elem_of_app. intros [?|HL]; [done|]. pose proof (tb_spare _ _ _ _ (proj2 Hs0) _ HL). congruence. }
  eapply wp_mono; [apply (kpt_free_spec s (forget d G) (F ++ L0) p Hs (forget_mine _ _ _ _ Hr Hmine) HpL (Hlow _ _ Hr))|].
  cbn beta. intros _ s' (Hs' & Hk & Hpg). constructor.
  - exact Hs'.
  - intros q [->|Hq]%elem_of_cons; [by exists r|by apply Hm].
  - intros q j rq Hq Hrq HqF Hj. rewrite Hk, word_write_other; [apply (Hw q j rq); try done; set_solver|]. rewrite length_le.
    assert (q <> p) by set_solver. destruct (tb_page _ _ _ _ (proj2 Hs0) _ _ Hq) as [Hqo _], (tb_page _ _ _ _ (proj2 Hs0) _ _ Hr) as [Hpo _].
    destruct (page_disj q p); try done; lia.
  - eapply frame_trans; [|exact Hf|]; [done|]. rewrite Hk. apply (frame_word _ _ _ p _ _ Hr); lia.
  - congruence.
Qed.

(** what has been freed when the loops are at entry [i] of table [j] *)
Definition before (j i : Z) (r : role) : Prop :=
  match r with Leaf t j' i' => t = d /\ (j' < j \/ j' = j /\ i' < i) | Mid t j' => t = d /\ j' < j | _ => False end.
Definition covers (j : Z) (F : list Z) : Prop := forall j' b, 0 <= j' < j -> word (kmem s0) (d + 8 * j') = Some (link b) -> page_ok b ->
  b ∈ F /\ forall i c, 0 <= i < 512 -> word (kmem s0) (b + 8 * i) = Some (link c) -> page_ok c -> c ∈ F.

Lemma before_mono j i j' i' r : (j < j' \/ j = j' /\ i <= i') -> before j i r -> before j' i' r.
Proof. destruct r; cbn; intros; try done; lia. Qed.
Lemma link_inj b c : page_ok b -> page_ok c -> link b = link c -> b = c.
Proof. intros Hb Hc E. destruct (link_at b Hb) as (_ & _ & <-), (link_at c Hc) as (_ & _ & <-). by rewrite E. Qed.
Lemma link_pt_addr c : page_ok c -> p2v (PT_ADDR (link c)) = c.
Proof.
  intros Hc. destruct (link_spec c Hc) as (-> & _). destruct (v2p_page c Hc) as (_ & Hr & Hm). unfold PT_ADDR. change PT_SZ with (2 ^ 12).
  rewrite align_dn_pow2 by lia. rewrite <-(p2v_v2p c Hc) at 2. f_equal. change (2 ^ 12) with 4096. Z.div_mod_to_equations. lia.
Qed.

Lemma inner_loop F s j b : finv F s -> 0 <= j < 4 -> word (kmem s0) (d + 8 * j) = Some (link b) -> G !! b = Some (Mid d j) ->
  (forall p r, p ∈ F -> G !! p = Some r -> before j 0 r) ->
  wp (loop (S (Z.to_nat PTRS_PER_PMD)) (freevm_tables b) 0) (fun _ s' => exists F', finv (F' ++ F) s' /\
    (forall p r, p ∈ F' ++ F -> G !! p = Some r -> before j 512 r) /\
    forall i c, 0 <= i < 512 -> word (kmem s0) (b + 8 * i) = Some (link c) -> page_ok c -> c ∈ F' ++ F) s.
Proof.
  intros Hfi Hj Hw0 Hb Hbef.
  eapply (wp_loop _ _ _ _ _ (fun i s' => 0 <= i <= 512 /\ exists F', finv (F' ++ F) s' /\
    (forall p r, p ∈ F' ++ F -> G !! p = Some r -> before j i r) /\
    forall i' c, 0 <= i' < i -> word (kmem s0) (b + 8 * i') = Some (link c) -> page_ok c -> c ∈ F' ++ F) (fun i => Z.to_nat (512 - i))).
  - split; [lia|]. exists []. split; [done|]. split; [done|]. intros i' c Hi'. lia.
  - change (Z.to_nat PTRS_PER_PMD) with 512%nat. lia.
  - intros i s1 (Hi & F' & Hfi1 & Hbef1 & Hcov). unfold freevm_tables. change PTRS_PER_PMD with 512. destruct (Z.ltb_spec i 512) as [Hlt|Hge].
    2:{ apply wp_ret. exists F'. assert (i = 512) as -> by lia. done. }
    assert (b ∉ F' ++ F) as HbF. { intros Hin. pose proof (Hbef1 b _ Hin Hb) as Hc. cbn in Hc. lia. }
    assert (parent G b i (Leaf d j i)) as Hpar by (right; exists d, j; split; [done|split; [lia|done]]).
    pose proof (fi_words _ _ Hfi1 b i _ Hb ltac:(done) HbF ltac:(lia)) as Ew.
    destruct (tb_entry _ _ _ _ (proj2 Hs0) _ _ _ Hpar) as [E0|(c & Ec & Hc)].
    + apply wp_bind. eapply ld64_wp; [by rewrite Ew, E0|]. cbn [Z.land Z.eqb negb when]. apply wp_ret, wp_ret. split; [|lia]. split; [lia|].
      exists F'. split; [done|]. split; [intros p r Hp Hr; eapply before_mono; [|by eapply Hbef1]; lia|].
      intros i' c Hi' Hwc Hc. destruct (decide (i' = i)) as [->|]; [|apply (Hcov i'); try done; lia]. rewrite E0 in Hwc. injection Hwc as Hwc.
      destruct (link_at c Hc) as (Hn & _). by rewrite <-Hwc in Hn.
    + destruct (tb_page _ _ _ _ (proj2 Hs0) _ _ Hc) as [Hco _]. destruct (link_at c Hco) as (Hn & _). apply Z.eqb_neq in Hn.
      apply wp_bind. eapply ld64_wp; [by rewrite Ew, Ec|]. change (Z.lor ENTRY_TABLE ENTRY_VALID) with 3. rewrite Hn. cbn [negb when].
      rewrite (link_pt_addr c Hco). assert (c ∉ F' ++ F) as HcF. { intros Hin. pose proof (Hbef1 _ _ Hin Hc) as Hx. cbn in Hx. lia. }
      apply wp_bind. eapply wp_mono; [apply (free_one _ _ c _ Hfi1 Hc); [cbn; by rewrite Z.eqb_refl|done]|]. cbn beta. intros _ s2 Hfi2.
      apply wp_ret. split; [|lia]. split; [lia|]. exists (c :: F'). split; [done|]. split.
      * intros p r [->|Hp]%elem_of_cons Hr; [rewrite Hc in Hr; injection Hr as <-; cbn; lia|]. eapply before_mono; [|by eapply Hbef1]. lia.
      * intros i' c' Hi' Hwc Hc'. destruct (decide (i' = i)) as [->|]; [|apply elem_of_cons; right; apply (Hcov i'); try done; lia].
        rewrite Ec in Hwc. injection Hwc as Hwc. apply link_inj in Hwc as ->; [|done|done]. by apply elem_of_cons; left.
Qed.

Lemma outer_loop : wp (loop (S (Z.to_nat PTRS_PER_PGD)) (freevm_dirs d) 0 ;; kpt_free d)
  (fun _ s' => exists F, finv F s' /\ d ∈ F /\ covers 4 F) s0.
Proof.
  apply wp_bind. eapply (wp_loop _ _ _ _ _ (fun j s' => 0 <= j <= 4 /\ exists F, finv F s' /\
    (forall p r, p ∈ F -> G !! p = Some r -> before j 0 r) /\ covers j F) (fun j => Z.to_nat (4 - j))).
  - split; [lia|]. exists []. split; [|split; [by intros p r Hp%elem_of_nil|intros j' b Hj'; lia]]. constructor; try done.
    + split; [apply Hs0|]. by apply forget_tables, Hs0.
    + by intros p Hp%elem_of_nil.
  - change (Z.to_nat PTRS_PER_PGD) with 4%nat. lia.
  - intros j s1 (Hj & F & Hfi & Hbef & Hcov). unfold freevm_dirs. change PTRS_PER_PGD with 4. assert (d ∉ F) as HdF by (intros Hin; exact (Hbef _ _ Hin Hdir)).
    destruct (Z.ltb_spec j 4) as [Hlt|Hge].
    2:{ apply wp_ret. eapply wp_mono; [apply (free_one F s1 d _ Hfi Hdir); [cbn; by rewrite Z.eqb_refl|done]|]. cbn beta. intros _ s2 Hfi2.
        exists (d :: F). split; [done|]. split; [by apply elem_of_cons; left|]. assert (j = 4) as -> by lia.
        intros j' b Hj' Hw Hb. destruct (Hcov j' b Hj' Hw Hb) as [H1 H2]. split; [by apply elem_of_cons; right|]. intros i c Hi Hc Hco.
        apply elem_of_cons. right. by eapply H2. }
    assert (parent G d j (Mid d j)) as Hpar by (left; split; [done|split; [lia|done]]). pose proof (fi_words _ _ Hfi d j _ Hdir ltac:(done) HdF ltac:(lia)) as Ew.
    destruct (tb_entry _ _ _ _ (proj2 Hs0) _ _ _ Hpar) as [E0|(b & Eb & Hb)].
    + apply wp_bind. eapply ld64_wp; [by rewrite Ew, E0|]. cbn [Z.land Z.eqb negb when]. apply wp_ret, wp_ret. split; [|lia]. split; [lia|].
      exists F. split; [done|]. split; [intros p r Hp Hr; eapply before_mono; [|by eapply Hbef]; lia|].
      intros j' b Hj' Hw Hbo. destruct (decide (j' = j)) as [->|]; [|apply (Hcov j'); try done; lia]. rewrite E0 in Hw. injection Hw as Hw.
      destruct (link_at b Hbo) as (Hn & _). by rewrite <-Hw in Hn.
    + destruct (tb_page _ _ _ _ (proj2 Hs0) _ _ Hb) as [Hbo _]. destruct (link_at b Hbo) as (Hn & _ & Hpv). apply Z.eqb_neq in Hn.
      apply wp_bind. eapply ld64_wp; [by rewrite Ew, Eb|]. change (Z.lor ENTRY_TABLE ENTRY_VALID) with 3. rewrite Hn. cbn [negb when]. cbv zeta. rewrite Hpv.
      apply wp_bind, wp_bind. eapply wp_mono; [apply (inner_loop F s1 j b Hfi); [lia|done|done|done]|]. cbn beta. intros _ s2 (F' & Hfi2 & Hbef2 & Hcov2).
      assert (b ∉ F' ++ F) as HbF. { intros Hin. pose proof (Hbef2 _ _ Hin Hb) as Hx. cbn in Hx. lia. }
      eapply wp_mono; [apply (free_one _ _ b _ Hfi2 Hb); [cbn; by rewrite Z.eqb_refl|done]|]. cbn beta. intros _ s3 Hfi3.
      apply wp_ret. split; [|lia]. split; [lia|]. exists (b :: F' ++ F). split; [done|]. split.
      * intros p r [->|Hp]%elem_of_cons Hr; [rewrite Hb in Hr; injection Hr as <-; cbn; lia|]. specialize (Hbef2 p r Hp Hr).
        destruct r as [|t j'|t j' i'|]; cbn in *; try done; try lia.
      * intros j' b' Hj' Hw Hb'. destruct (decide (j' = j)) as [->|].
        -- rewrite Eb in Hw. injection Hw as Hw. apply link_inj in Hw as <-; [|done|done]. split; [by apply elem_of_cons; left|].
           intros i c Hi Hwc Hc. apply elem_of_cons. right. by eapply Hcov2.
        -- destruct (Hcov j' b' ltac:(lia) Hw Hb') as [H1 H2]. split; [apply elem_of_cons; right; by apply elem_of_app; right|].
           intros i c Hi Hwc Hc. apply elem_of_cons. right. apply elem_of_app. right. by eapply H2.
Qed.
End directory.


End free.
End PtFree.
