(* ===== verification/AddrSpace.v ===== *)
(** * Address spaces: copying, freeing and reaching them (src/src/vm.c)

    freevm(), copyuvm() and copyout() over the address spaces of UserMem.v,
    with the theorems about user memory. *)

From S2P Require Import Prelude.
From S2P Require Import Bytes.
From S2P Require Import KString.
From S2P Require Import Mmu.
From S2P Require Import Arm.
From S2P Require Import Buddy.
From S2P Require Import Alloc.
From S2P Require Import Vm.
From S2P Require Import PageTable.
From S2P Require Import UserMem.
From S2P Require Import PtFree.

Module AddrSpace.
Import Mmu.
Import Vm.
Import PageTable.
Import UserMem.
Import PtFree.
Import Alloc.

Section spaces.
Context {P : Type} {PA : PageAlloc P} {PL : PageAllocLaws P}.
Implicit Types (s : st P) (m : mem) (G : gmap Z role) (L : list Z) (U : list upage) (A : gset (Z * Z)).

Lemma covers_cong s s' d j F G : G !! d = Some Dir ->
  (forall i b, 0 <= i < 4 -> word (kmem s) (d + 8 * i) = Some (link b) -> page_ok b -> G !! b = Some (Mid d i)) ->
  (forall q i r, G !! q = Some r -> inner r -> 0 <= i < 512 -> word (kmem s') (q + 8 * i) = word (kmem s) (q + 8 * i)) ->
  0 <= j <= 4 -> covers s' d j F -> covers s d j F.
Proof.
  intros Hd Hmid Hw Hj Hc j' b Hj' Hb Hbo. assert (G !! b = Some (Mid d j')) as Hrb by (apply Hmid; [lia|done|done]).
  destruct (Hc j' b Hj') as [H1 H2]; [by rewrite (Hw d j' Dir) by (done || lia)|done|]. split; [done|].
  intros i c Hi Hwc. apply (H2 i c Hi). by rewrite (Hw b i (Mid d j')).
Qed.

Lemma freevm_spec s G L lo hi A d U : vmem s G L lo hi A -> aspace s G d U A ->
  wp (freevm d) (fun _ s' => exists F, vmem s' (forget d G) (F ++ L) lo hi (A ∖ blocks U) /\ d ∈ F /\ covers s d 4 F /\
    frame (kmem s) (kmem s') G /\ forall t x, t <> d -> G !! t = Some Dir -> entry (kmem s') t x = entry (kmem s) t x) s.
Proof.
  intros Hv Has. pose proof (as_root _ _ _ _ _ Has) as Hd. pose proof (vm_space _ _ _ _ _ _ Hv) as Hs.
  destruct (tb_page _ _ _ _ (proj2 Hs) _ _ Hd) as [Hdo _]. pose proof (page_nz d Hdo) as Hnz. apply Z.eqb_neq in Hnz.
  unfold freevm. rewrite Hnz. cbn [panic_if]. wp_step. wp_step. apply wp_bind.
  eapply wp_mono; [apply (deallocuvm_spec s G L lo hi A d U UADDR_SZ 0 Hv Has)|].
  { split; [done|]. by vm_compute. } { done. } { pose proof (as_len _ _ _ _ _ Has). change (npg UADDR_SZ) with (2 ^ 16). done. }
  cbn beta zeta. change (Z.to_nat (npg 0)) with 0%nat. rewrite drop_0. intros _ s1 (_ & Hv1 & Has1 & Hf1 & Ho1 & Hin1).
  pose proof (vm_space _ _ _ _ _ _ Hv1) as Hs1.
  eapply wp_mono; [apply (outer_loop s1 G L d Hs1 Hd)|].
  { intros p r Hp. pose proof (vm_tables _ _ _ _ _ _ Hv _ _ Hp). lia. }
  cbn beta. intros _ s' (F & [Hs' Hmine Hw' Hf' Hp'] & HdF & Hcov). exists F. split; [|split; [done|split; [|split]]].
  - eapply (vmem_tables s1 G L lo hi _ s'); [exact Hv1|exact Hs'|apply forget_dom|exact Hf'|exact Hp'].
  - apply (covers_cong s s1 d 4 F G); [done| |done|lia|done]. intros i b Hi Hb Hbo.
    destruct (tb_entry _ _ _ _ (proj2 Hs) d i (Mid d i)) as [E|(c & E & Hc)]; [left; done| |]; rewrite Hb in E; injection E as E.
    + destruct (link_at b Hbo) as (Hn & _). by rewrite E in Hn.
    + apply link_inj in E as ->; [done|done|]. by destruct (tb_page _ _ _ _ (proj2 Hs) _ _ Hc).
  - eapply frame_trans; [|exact Hf1|exact Hf']. done.
  - intros t x Ht Hdir. rewrite <-Ho1 by done.
    apply (walk_cong _ _ _ (freelist s1) (forget d G) L); [apply forget_tables, Hs1|apply forget_keep; [done|cbn; by apply Z.eqb_neq]|].
    intros q j r Hq Hr Hj. apply forget_other in Hq as [Hq Hm]; [|done]. apply (Hw' q j r); try done.
    intros HqF. destruct (Hmine q HqF) as (r' & Hr' & Hm'). congruence.
Qed.
(** ** copyuvm *)

(** a clear page becomes an empty directory *)
Lemma new_dir m f G L d : tables m f G L -> G !! d = Some Spare -> d ∉ L -> (forall j, 0 <= j < 512 -> word m (d + 8 * j) = Some 0) ->
  tables m f (<[d := Dir]> G) L /\ (forall x, entry m d x = 0) /\ dom (<[d := Dir]> G) = dom G.
Proof.
  intros Ht Hd HdL Hz.
  assert (forall a r, r <> Spare -> entry_ok m G a r -> entry_ok m (<[d := Dir]> G) a r) as Hmono.
  { intros a r Hr [H|(c & H & Hc)]; [by left|right]. exists c. split; [done|]. rewrite lookup_insert_ne by congruence. done. }
  split; [constructor|split].
  - intros q r Hq. assert (is_Some (G !! q)) as [r' Hr']. { destruct (decide (q = d)) as [->|]; [by eexists|]. rewrite lookup_insert_ne in Hq by done. by eexists. }
    by eapply tb_page.
  - intros b i r [(H1 & H2 & ->)|(t & k & H1 & H2 & ->)].
    + destruct (decide (b = d)) as [->|Hne]; [left; apply Hz; lia|]. rewrite lookup_insert_ne in H1 by done.
      apply Hmono; [done|]. apply (tb_entry _ _ _ _ Ht). by left.
    + destruct (decide (b = d)) as [->|Hne]; [by rewrite lookup_insert_eq in H1|]. rewrite lookup_insert_ne in H1 by done.
      apply Hmono; [done|]. apply (tb_entry _ _ _ _ Ht). right. by exists t, k.
  - apply Ht.
  - intros q Hq. rewrite lookup_insert_ne; [by apply (tb_spare _ _ _ _ Ht)|set_solver].
  - apply Ht.
  - intros x. destruct (idx_range x) as (I1 & _). unfold entry, slot, table_at. rewrite Hz by lia. done.
  - by rewrite dom_insert_lookup_L by (by eexists).
Qed.

(** the parent's address space and its bytes, once the copy is over *)
Definition kept_space s G (root : Z) U A s' : Prop := aspace s' G root U A /\ forall x, 0 <= x -> ubyte (kmem s') U x = ubyte (kmem s) U x.

Lemma ubyte_same m m' U x : 0 <= x -> (forall u o, u ∈ U -> 0 <= o < 4096 -> m' !! (fst u + o) = m !! (fst u + o)) -> ubyte m' U x = ubyte m U x.
Proof.
  intros Hx H. unfold ubyte. destruct (U !! Z.to_nat (x / 4096)) as [u|] eqn:E; [|done]. cbn. apply H; [by eapply list_elem_of_lookup_2|].
  apply Z.mod_pos_bound. lia.
Qed.

Lemma fst_copied U N : (length N <= length U)%nat -> fst <$> copied U N = N.
Proof. intros H. unfold copied. by rewrite fmap_zip_with_l. Qed.
Lemma blocks_copied U N : (length N <= length U)%nat -> blocks (copied U N) = blocks (fresh N).
Proof.
  intros H. assert (forall W, blocks W = list_to_set ((fun p => (p, 12)) <$> (fst <$> W))) as E.
  { intros W. unfold blocks. by rewrite <-list_fmap_compose. }
  by rewrite !E, fst_copied, fst_fresh.
Qed.
(** the copy done: the child's pages are new and hold the parent's bytes *)
Definition forked s G L (lo hi : Z) A (root : Z) U (d : Z) s' : Prop := exists (N : list Z) G' L', length N = length U /\ (forall p, p ∈ N -> ((p, 12) ∉ A)) /\
  vmem s' G' L' lo hi (blocks (fresh N) ∪ A) /\ aspace s' G' d (copied U N) (blocks (fresh N) ∪ A) /\
  (forall x, 0 <= x -> ubyte (kmem s') (copied U N) x = ubyte (kmem s) U x) /\ kept_space s G' root U (blocks (fresh N) ∪ A) s' /\
  (length L <= length L' + 2 * length U + 1)%nat /\ forall t x, t <> d -> G !! t = Some Dir -> entry (kmem s') t x = entry (kmem s) t x.
(** the copy given up: nothing is left of it *)
Definition gave_up s G (lo hi : Z) A (root : Z) U s' : Prop := exists G' L', vmem s' G' L' lo hi A /\ kept_space s G' root U A s' /\
  forall t x, G !! t = Some Dir -> entry (kmem s') t x = entry (kmem s) t x.

Lemma copy_done s G L0 lo hi A root U d s1 G1 L N s' : vmem s G L0 lo hi A -> aspace s G root U A -> G !! d = Some Spare -> root <> d ->
  G1 = <[d := Dir]> G -> vmem s1 G1 L lo hi A -> aspace s1 G1 root U A -> frame (kmem s) (kmem s1) G ->
  (forall t x, t <> d -> G !! t = Some Dir -> entry (kmem s1) t x = entry (kmem s) t x) ->
  L0 = d :: L -> length N = length U -> cinv s1 G1 L lo hi A d U N s' -> forked s G L0 lo hi A root U d s'.
Proof.
  intros Hv Has Hd Hrd -> Hv1 Has1 Hf1 Ho1 -> HN Hc. pose proof Hc as (G' & L' & Hv' & Hasd & Hg & HNA & Hcopy & Hf & Ho).
  assert (forall u o, u ∈ U -> 0 <= o < 4096 -> kmem s' !! (fst u + o) = kmem s !! (fst u + o)) as Hkeep.
  { intros u o Hu Hoo. rewrite (parent_page s1 _ L lo hi A d U N s' root u o Hv1 Has1 Hc Hu Hoo). destruct u as [q ap]. cbn [fst].
    destruct (aspace_pages _ _ _ _ _ _ _ _ q ap Hv Has Hu) as [HqA _]. destruct (vm_page _ _ _ _ _ _ _ Hv HqA) as (_ & Hlo & _).
    apply (pool_frame _ _ _ _ _ _ _ _ Hv Hf1). lia. }
  exists N, G', L'. split; [done|]. split; [done|]. split; [done|]. split; [done|]. split; [|split; [|split]].
  - intros x Hx. pose proof (Z.mod_pos_bound x 4096 ltac:(lia)) as Hxm. unfold ubyte, copied. rewrite lookup_zip_with.
    destruct (U !! Z.to_nat (x / 4096)) as [u|] eqn:EU.
    + destruct (lookup_lt_is_Some_2 N (Z.to_nat (x / 4096))) as [p Hp]; [rewrite HN; by eapply lookup_lt_Some|]. rewrite Hp. cbn.
      rewrite (Hcopy _ _ _ Hp EU) by done. destruct u as [q ap]. cbn [fst].
      destruct (aspace_pages _ _ _ _ _ _ _ _ q ap Hv Has (list_elem_of_lookup_2 _ _ _ EU)) as [HqA _].
      destruct (vm_page _ _ _ _ _ _ _ Hv HqA) as (_ & Hlo & _). apply (pool_frame _ _ _ _ _ _ _ _ Hv Hf1). lia.
    + destruct (N !! Z.to_nat (x / 4096)); done.
  - split.
    + apply (aspace_other s1 s' _ G' root U A _ Has1); [apply Hg; [apply Has1|done]|by apply union_subseteq_r|].
      intros x. apply Ho; [done|apply Has1].
    + intros x Hx. by apply ubyte_same.
  - destruct Hg as (_ & _ & K & -> & HK). cbn. rewrite length_app. lia.
  - intros t x Ht Hdir. rewrite Ho; [by apply Ho1|done|]. by rewrite lookup_insert_ne.
Qed.

Lemma copy_failed s G L0 lo hi A root U d s1 G1 L N s' : vmem s G L0 lo hi A -> aspace s G root U A -> G !! d = Some Spare -> root <> d ->
  G1 = <[d := Dir]> G -> vmem s1 G1 L lo hi A -> aspace s1 G1 root U A -> frame (kmem s) (kmem s1) G ->
  (forall t x, t <> d -> G !! t = Some Dir -> entry (kmem s1) t x = entry (kmem s) t x) ->
  (length N <= length U)%nat -> cinv s1 G1 L lo hi A d U N s' -> wp (freevm d) (fun _ s2 => gave_up s G lo hi A root U s2) s'.
Proof.
  intros Hv Has Hd Hrd -> Hv1 Has1 Hf1 Ho1 HN Hc. pose proof Hc as (G' & L' & Hv' & Hasd & Hg & HNA & Hcopy & Hf & Ho).
  eapply wp_mono; [apply (freevm_spec s' G' L' lo hi _ d (copied U N) Hv' Hasd)|]. cbn beta.
  rewrite blocks_copied, fresh_out by done. intros _ s2 (F & Hv2 & _ & _ & Hf2 & Ho2).
  assert (forall t, t <> d -> G !! t = Some Dir -> <[d := Dir]> G !! t = Some Dir) as Hins by (intros t Ht Hdir; by rewrite lookup_insert_ne).
  assert (forall t x, t <> d -> G !! t = Some Dir -> entry (kmem s2) t x = entry (kmem s) t x) as Hent.
  { intros t x Ht Hdir. rewrite Ho2; [rewrite Ho; [by apply Ho1|done|by apply Hins]|done|]. apply Hg; [by apply Hins|done]. }
  exists (forget d G'), (F ++ L'). split; [done|]. split; [split|].
  - apply (aspace_other s s2 G _ root U A A Has); [|done|intros x; apply Hent; [done|apply Has]].
    apply forget_keep; [|cbn; by apply Z.eqb_neq]. apply Hg; [apply Hins; [done|apply Has]|done].
  - intros x Hx. apply ubyte_same; [done|]. intros u o Hu Hoo. destruct u as [q ap]. cbn [fst].
    destruct (aspace_pages _ _ _ _ _ _ _ _ q ap Hv Has Hu) as [HqA _]. destruct (vm_page _ _ _ _ _ _ _ Hv HqA) as (_ & Hlo & _).
    rewrite (pool_frame _ _ _ _ _ _ _ _ Hv' Hf2) by lia.
    pose proof (parent_page s1 _ L lo hi A d U N s' root (q, ap) o Hv1 Has1 Hc Hu Hoo) as E. cbn [fst] in E. rewrite E. apply (pool_frame _ _ _ _ _ _ _ _ Hv Hf1). lia.
  - intros t x Hdir. apply Hent; [congruence|done].
Qed.

Lemma copyuvm_spec s G L lo hi A root U sz : vmem s G L lo hi A -> aspace s G root U A -> 0 <= sz -> npg sz = Z.of_nat (length U) ->
  (2 * length U + 1 <= length L)%nat ->
  wp (copyuvm root sz) (fun d s' => d <> 0 /\ forked s G L lo hi A root U d s' \/ d = 0 /\ gave_up s G lo hi A root U s') s.
Proof.
  intros Hv Has Hsz HU HL. destruct L as [|d L]; [cbn in HL; lia|]. pose proof (vm_space _ _ _ _ _ _ Hv) as Hs.
  pose proof (tb_spare _ _ _ _ (proj2 Hs) d ltac:(set_solver)) as Hd. pose proof (as_root _ _ _ _ _ Has) as Hr.
  pose proof (tb_nodup _ _ _ _ (proj2 Hs)) as Hnd. apply NoDup_cons in Hnd as [HdL _].
  destruct (tb_page _ _ _ _ (proj2 Hs) _ _ Hd) as [Hdo _]. pose proof (page_nz d Hdo) as Hnz. pose proof Hnz as Hnz'. apply Z.eqb_neq in Hnz'.
  assert (root <> d) as Hrd by congruence. pose proof (as_len _ _ _ _ _ Has) as Hlen.
  unfold copyuvm. apply wp_bind. eapply wp_mono; [by apply (kpt_alloc_spec s G d L)|]. cbn beta.
  intros _ s1 (-> & Hs1 & Hz1 & Hw1 & _ & Hf1 & Hp1). rewrite Hnz'.
  destruct (new_dir _ _ _ _ _ (proj2 Hs1) Hd HdL Hz1) as (Ht1 & He1 & Hdom). set (G1 := <[d := Dir]> G) in *.
  assert (forall t x, t <> d -> G !! t = Some Dir -> entry (kmem s1) t x = entry (kmem s) t x) as Ho1.
  { intros t x Ht Hdir. apply (walk_cong _ _ _ _ _ _ (proj2 Hs) Hdir). intros q j r Hq Hrq Hj. apply (Hw1 q j r Hq); [congruence|done]. }
  assert (vmem s1 G1 L lo hi A) as Hv1 by (eapply vmem_tables; [exact Hv|by split; [apply Hs1|]|done|done|done]).
  assert (aspace s1 G1 root U A) as Has1.
  { apply (aspace_other s s1 G G1 root U A A Has); [unfold G1; by rewrite lookup_insert_ne|done|]. intros x. by apply Ho1. }
  assert (cinv s1 G1 L lo hi A d U [] s1) as Hc1.
  { exists G1, L. assert (blocks (fresh []) ∪ A = A) as -> by apply union_empty_l_L. split; [done|]. split.
    - constructor; [apply lookup_insert_eq| |cbn; lia|by constructor|by constructor|done].
      intros k Hk. rewrite He1. unfold uentry. cbn. by rewrite lookup_nil.
    - split; [apply grows_refl|]. split; [by intros p Hp%elem_of_nil|]. split; [by intros i p u Hp|]. split; [by intros k|done]. }
  apply wp_bind. eapply (wp_loop _ _ _ _ _ (fun i s' => exists N, i = 4096 * Z.of_nat (length N) /\ (length N <= length U)%nat /\ cinv s1 G1 L lo hi A d U N s')
    (fun i => Z.to_nat (sz - i))).
  - exists []. split; [done|]. split; [cbn; lia|done].
  - lia.
  - intros i s' (N & -> & HN & Hc). destruct (decide (4096 * Z.of_nat (length N) < sz)) as [Hlt|Hge].
    + assert (length N < length U)%nat as HNU by (unfold npg in HU; Z.div_mod_to_equations; lia).
      eapply wp_mono; [apply (copy_step s1 G1 L lo hi A root d U N s' sz Hv1 Has1 Hrd Hc HNU); [cbn in HL; lia|done]|].
      cbn beta. intros r s2 [(p & -> & Hc2)|[-> ->]].
      * cbn beta iota. split; [|lia]. exists (N ++ [p]). rewrite length_app. cbn [length]. split; [lia|]. split; [lia|done].
      * cbn beta iota. apply wp_bind. eapply wp_mono; [apply (copy_failed s G (d :: L) lo hi A root U d s1 G1 L N s'); done|].
        cbn beta. intros _ s3 Hgu. apply wp_ret. by right.
    + unfold copyuvm_body. destruct (Z.ltb_spec (4096 * Z.of_nat (length N)) sz); [lia|]. apply wp_ret. cbn beta iota. apply wp_ret. left.
      split; [done|]. apply (copy_done s G (d :: L) lo hi A root U d s1 G1 L N s'); try done. unfold npg in HU. Z.div_mod_to_equations. lia.
Qed.

(** ** copyout *)

Lemma uva2ka_spec s G L lo hi A root U k p ap : vmem s G L lo hi A -> aspace s G root U A -> 0 <= k < 2 ^ 20 ->
  U !! Z.to_nat k = Some (p, ap) -> uva2ka root (4096 * k) s = Done (if ap =? AP_RW_1_0 then p else 0) s.
Proof.
  intros Hv Has Hk Hp. destruct (aspace_pages _ _ _ _ _ _ _ _ p ap Hv Has (list_elem_of_lookup_2 _ _ _ Hp)) as [_ Hpo].
  destruct (walk_page s G L root U A k p ap (vm_space _ _ _ _ _ _ Hv) Has Hk Hp Hpo) as (pte & Hrun & _ & Hw & Hap).
  destruct (user_entry p ap Hpo Hap) as (Hpres & Haddr & Hpap & _ & _ & _ & Hpv).
  unfold uva2ka. rewrite (bind_done _ _ _ _ _ Hrun). unfold ld64, deref, mbind, M_bind. rewrite Hw, Hpres, Hpap, Haddr, Hpv.
  cbn [negb]. by destruct (ap =? AP_RW_1_0).
Qed.

(** a write into a page of the address space, seen from the process *)
Lemma ubyte_write s G L lo hi A root U k o p ap l x : vmem s G L lo hi A -> aspace s G root U A -> 0 <= x -> 0 <= k ->
  U !! Z.to_nat k = Some (p, ap) -> 0 <= o -> o + Z.of_nat (length l) <= 4096 ->
  ubyte (write_bytes (kmem s) (p + o) l) U x =
    if decide (4096 * k + o <= x < 4096 * k + o + Z.of_nat (length l)) then l !! Z.to_nat (x - (4096 * k + o)) else ubyte (kmem s) U x.
Proof.
  intros Hv Has Hx Hk Hp Ho Hl. pose proof (Z.mod_pos_bound x 4096 ltac:(lia)) as Hm. pose proof (Z.div_mod x 4096 ltac:(lia)) as Hdm.
  unfold ubyte. destruct (decide (x / 4096 = k)) as [Ek|Hne].
  - rewrite Ek, Hp. cbn. rewrite lookup_write_bytes. destruct (decide (4096 * k + o <= x < 4096 * k + o + Z.of_nat (length l))) as [Hin|Hout].
    + rewrite decide_True by lia. f_equal. lia.
    + rewrite decide_False by lia. done.
  - rewrite (decide_False (P := 4096 * k + o <= x < _)) by lia. destruct (U !! Z.to_nat (x / 4096)) as [[q b]|] eqn:Eq; [|done]. cbn.
    rewrite lookup_write_bytes. rewrite decide_False; [done|]. intros Hin.
    destruct (aspace_pages _ _ _ _ _ _ _ _ p ap Hv Has (list_elem_of_lookup_2 _ _ _ Hp)) as [HpA _].
    destruct (aspace_pages _ _ _ _ _ _ _ _ q b Hv Has (list_elem_of_lookup_2 _ _ _ Eq)) as [HqA _].
    assert (p <> q) as Hpq.
    { intros ->. pose proof (page_inj _ _ _ _ _ _ (as_nodup _ _ _ _ _ Has) Hp Eq). apply Hne. pose proof (Z.div_pos x 4096). lia. }
    destruct (vm_disj _ _ _ _ _ _ _ _ Hv HpA HqA Hpq); lia.
Qed.

(** the process's bytes after [n] bytes of [buf] have been stored from [va] on *)
Definition stored m m' U (va : Z) (buf : list Z) (n : Z) : Prop := forall x, 0 <= x ->
  ubyte m' U x = if decide (va <= x < va + n) then buf !! Z.to_nat (x - va) else ubyte m U x.
(** the memory at [p] is outside the address space *)
Definition apart U (p len : Z) : Prop := forall u k, u ∈ U -> p <= k < p + len -> ~ fst u <= k < fst u + 4096.

Record oinv s0 G L lo hi A root U va p buf (n : Z) s : Prop := {
  oi_vmem : vmem s G L lo hi A;
  oi_space : aspace s G root U A;
  oi_stored : stored (kmem s0) (kmem s) U va buf n;
  oi_src : bytes_at (kmem s) p buf;
}.

Lemma copyout_step s0 G L lo hi A root U va p buf n s k q ap : oinv s0 G L lo hi A root U va p buf n s ->
  Forall is_byte buf -> apart U p (Z.of_nat (length buf)) -> 0 <= va -> 0 <= n < Z.of_nat (length buf) -> va + Z.of_nat (length buf) <= 2 ^ 28 ->
  k = (va + n) / 4096 -> U !! Z.to_nat k = Some (q, ap) ->
  let o := (va + n) mod 4096 in let c := Z.min (4096 - o) (Z.of_nat (length buf) - n) in
  wp (copyout_body root (va + n, p + n, Z.of_nat (length buf) - n)) (fun r s' =>
    if ap =? AP_RW_1_0 then oinv s0 G L lo hi A root U va p buf (n + c) s' /\ r = inl (va + n - o + 4096, p + (n + c), Z.of_nat (length buf) - (n + c))
    else s' = s /\ r = inr (-1)) s.
Proof.
  intros [Hv Has Hst Hsrc] Hby Hap Hva Hn Hend -> Hq o c. pose proof (Z.mod_pos_bound (va + n) 4096 ltac:(lia)) as Ho. fold o in Ho.
  pose proof (Z.div_mod (va + n) 4096 ltac:(lia)) as Hdm. fold o in Hdm. set (k := (va + n) / 4096) in *.
  unfold copyout_body. destruct (Z.ltb_spec 0 (Z.of_nat (length buf) - n)); [|lia].
  change PTE_SZ with (2 ^ 12). rewrite align_dn_pow2 by lia. change (2 ^ 12) with 4096. fold k. cbv zeta.
  apply wp_bind. eapply wp_eq; [apply (uva2ka_spec s G L lo hi A root U k q ap Hv Has); [lia|done]|].
  destruct (aspace_pages _ _ _ _ _ _ _ _ q ap Hv Has (list_elem_of_lookup_2 _ _ _ Hq)) as [HqA Hqo].
  destruct (ap =? AP_RW_1_0); cbn [Z.eqb]; [|by apply wp_ret].
  pose proof (page_nz q Hqo) as Hnz. apply Z.eqb_neq in Hnz. rewrite Hnz.
  replace (va + n - 4096 * k) with o by lia. fold c. assert (0 < c <= 4096 - o /\ c <= Z.of_nat (length buf) - n) as [Hc1 Hc2] by lia.
  set (l := take (Z.to_nat c) (drop (Z.to_nat n) buf)). assert (Z.of_nat (length l) = c) as Hl by (unfold l; rewrite length_take, length_drop; lia).
  assert (forall i, (i < length l)%nat -> l !! i = buf !! (Z.to_nat n + i)%nat) as Hli by (intros i Hi; unfold l; rewrite lookup_take_lt by lia; apply lookup_drop).
  destruct (vm_page _ _ _ _ _ _ _ Hv HqA) as (_ & Hqlo & Hqhi & Hqm & _). pose proof pg_Z as Hpg.
  apply wp_bind. apply (memmove_wp _ _ _ l); [done| | | |].
  - intros i x Hx. rewrite Hli in Hx by (by eapply lookup_lt_Some). apply Hsrc in Hx. rewrite <-Hx. f_equal. lia.
  - unfold l. by apply Forall_take, Forall_drop.
  - intros i Hi. replace (q + o + Z.of_nat i) with (q + Z.of_nat (Z.to_nat o + i)) by lia. apply Hqm. lia.
  - apply wp_ret. destruct (vmem_fill s G L lo hi A q l Hv HqA) with (o := o) as [Hv' Hsame]; [unfold l; by apply Forall_take, Forall_drop|lia|lia|].
    split.
    + constructor.
      * exact Hv'.
      * apply (aspace_other s _ G G root U A A Has); [apply Has|done|]. intros x. apply Hsame, Has.
      * intros x Hx. unfold put_mem. cbn [kmem].
        rewrite (ubyte_write s G L lo hi A root U k o q ap l x Hv Has Hx ltac:(lia) Hq ltac:(lia) ltac:(lia)), (Hst x Hx), Hl.
        replace (4096 * k + o) with (va + n) by lia. destruct (decide (va + n <= x < va + n + c)) as [Hin|Hout].
        -- rewrite (decide_True (P := va <= x < va + (n + c))) by lia. rewrite Hli by lia. f_equal. lia.
        -- destruct (decide (va <= x < va + n)), (decide (va <= x < va + (n + c))); done || lia.
      * intros i x Hx. unfold put_mem. cbn [kmem]. rewrite lookup_write_bytes. pose proof (lookup_lt_Some _ _ _ Hx).
        rewrite decide_False; [by apply Hsrc|]. rewrite Hl. intros Hin.
        apply (Hap (q, ap) (p + Z.of_nat i)); [by eapply list_elem_of_lookup_2|lia|cbn; lia].
    + f_equal. f_equal; [f_equal|]; [unfold u32; rewrite Z.mod_small by lia; lia|lia|]. unfold u32. rewrite Z.mod_small by lia. lia.
Qed.

(** the first page of the range the process may not write, if any *)
Lemma copyout_spec s G L lo hi A root U va p buf : vmem s G L lo hi A -> aspace s G root U A ->
  0 <= va -> va + Z.of_nat (length buf) <= 4096 * Z.of_nat (length U) -> Z.of_nat (length buf) < 2 ^ 28 ->
  bytes_at (kmem s) p buf -> Forall is_byte buf -> apart U p (Z.of_nat (length buf)) ->
  wp (copyout root va p (Z.of_nat (length buf))) (fun r s' => exists n, oinv s G L lo hi A root U va p buf n s' /\
    (r = 0 /\ n = Z.of_nat (length buf) /\ (forall x, va <= x < va + n -> snd <$> U !! Z.to_nat (x / 4096) = Some AP_RW_1_0) \/
     r = -1 /\ 0 <= n < Z.of_nat (length buf) /\ (forall x, va <= x < va + n -> snd <$> U !! Z.to_nat (x / 4096) = Some AP_RW_1_0) /\
     snd <$> U !! Z.to_nat ((va + n) / 4096) <> Some AP_RW_1_0)) s.
Proof.
  intros Hv Has Hva Hend Hlen Hsrc Hby Hap. pose proof (as_len _ _ _ _ _ Has) as HU. unfold copyout.
  eapply (wp_loop _ _ _ _ _ (fun v s' => exists n a, v = (a, p + n, Z.of_nat (length buf) - n) /\ 0 <= n <= Z.of_nat (length buf) /\
    (n < Z.of_nat (length buf) -> a = va + n) /\ oinv s G L lo hi A root U va p buf n s' /\
    forall x, va <= x < va + n -> snd <$> U !! Z.to_nat (x / 4096) = Some AP_RW_1_0)
    (fun v => Z.to_nat (snd v))).
  - exists 0, va. split; [f_equal; [f_equal|]; lia|]. split; [lia|]. split; [lia|]. split; [|lia]. constructor; try done.
    intros x Hx. rewrite decide_False by lia. done.
  - cbn [snd]. lia.
  - intros v s' (n & a & -> & Hn & Ha & Hoi & Hpre). destruct (decide (n = Z.of_nat (length buf))) as [->|Hne].
    { unfold copyout_body. rewrite Z.sub_diag. cbn [Z.ltb Z.compare]. apply wp_ret. exists (Z.of_nat (length buf)). split; [done|]. by left. }
    rewrite Ha by lia. pose proof (Z.div_mod (va + n) 4096 ltac:(lia)) as Hdm. pose proof (Z.mod_pos_bound (va + n) 4096 ltac:(lia)) as Hm.
    destruct (lookup_lt_is_Some_2 U (Z.to_nat ((va + n) / 4096))) as [[q ap] Hq]; [lia|].
    eapply wp_mono; [apply (copyout_step s G L lo hi A root U va p buf n s' _ q ap Hoi Hby Hap Hva ltac:(lia) ltac:(lia) eq_refl Hq)|]. cbn beta zeta.
    intros r s2 Hr. destruct (Z.eqb_spec ap AP_RW_1_0) as [->|Hnap]; destruct Hr as [Hr ->].
    + split; [|cbn [snd]; lia]. set (o := (va + n) mod 4096) in *. set (c := Z.min (4096 - o) (Z.of_nat (length buf) - n)) in *.
      exists (n + c), (va + n - o + 4096). split; [done|]. split; [lia|]. split; [lia|]. split; [done|].
      intros x Hx. destruct (decide (x < va + n)); [apply Hpre; lia|]. replace (x / 4096) with ((va + n) / 4096); [by rewrite Hq|].
      unfold c, o in *. Z.div_mod_to_equations. lia.
    + subst s2. exists n. split; [done|]. right. split; [done|]. split; [lia|]. split; [done|]. rewrite Hq. cbn. congruence.
Qed.


(** ** The theorems *)

(** C16: mappages of [size] bytes at [va], where none of the pages they touch has an entry yet, makes the hardware translate every
    address of those pages to the physical address at the same distance from [pa], as cached memory with the permissions given, and
    changes no other translation, of this page directory or of any other: the tables it allocates on the way hold no stray entries, and no
    byte outside table pages changes.  The pages lie below 4 GiB, as [pa] does, and the list has two table pages for each of them, which is enough. *)
Theorem mappages_correct s root G L va size pa ap : space s G L -> G !! root = Some Dir -> 0 <= va -> 0 < size -> va + size <= 2 ^ 64 ->
  npages va size <= 2 ^ 20 -> 0 <= pa -> pa mod 4096 = 0 -> pa + 4096 * npages va size <= 2 ^ 32 -> perm_ok ap ->
  2 * npages va size <= Z.of_nat (length L) ->
  (forall x, page_at va x < npages va size -> present (entry (kmem s) root x) = false) ->
  wp (mappages root va size pa ap) (fun r s' => r = 0 /\ (exists G' L', space s' G' L' /\ dom G' = dom G) /\ frame (kmem s) (kmem s') G /\
    forall t x, G !! t = Some Dir -> translate (kmem s') t x =
      if decide (t = root /\ page_at va x < npages va size)
      then Some (pa + 4096 * page_at va x + x mod 4096, page_access ap) else translate (kmem s) t x) s.
Proof.
  intros Hs Hr Hva Hsz Hend Hn Hpa Hm Hpe Hap HL Hfree. eapply wp_mono; [apply (mappages_spec s root G L va size pa ap); try done|].
  cbn beta. intros r s' (-> & G' & L' & Hs' & Hg & Hf & _ & He). split; [done|]. split; [exists G', L'; split; [done|apply Hg]|].
  split; [done|]. intros t x Ht. rewrite (translate_entry _ _ _ _ _ x (proj2 Hs') (proj1 Hg _ _ Ht ltac:(done))), (translate_entry _ _ _ _ _ x (proj2 Hs) Ht), (He t x Ht).
  case_decide as E; [|done]. destruct E as [-> Hx]. pose proof (page_at_range va x). apply page_entry_hw; try done; [lia|].
  Z.div_mod_to_equations. lia.
Qed.

(** C23: growing an address space from [oldsz] to [newsz] bytes, with table pages to spare, either returns [newsz] and
    adds exactly the pages that were missing, new ones of the allocator that nobody else holds, readable as zeros, with every byte
    the process had where it was; or, when the allocator has no page left, returns 0 and leaves the address space and its bytes as
    they were, the pages taken on the way given back. No other address space changes. *)
Theorem allocuvm_correct s G L lo hi A root U oldsz newsz : vmem s G L lo hi A -> aspace s G root U A ->
  0 <= oldsz <= newsz -> newsz < UADDR_SZ -> npg oldsz = Z.of_nat (length U) -> 2 * (npg newsz - npg oldsz) <= Z.of_nat (length L) ->
  wp (allocuvm root oldsz newsz) (fun r s' =>
    (r = newsz /\ (exists N G' L', npg newsz = Z.of_nat (length U + length N) /\ (forall p, p ∈ N -> ((p, 12) ∉ A)) /\
       vmem s' G' L' lo hi (blocks (fresh N) ∪ A) /\ aspace s' G' root (U ++ fresh N) (blocks (fresh N) ∪ A) /\
       forall x, 0 <= x < 4096 * npg newsz -> ubyte (kmem s') (U ++ fresh N) x =
         if decide (x < 4096 * npg oldsz) then ubyte (kmem s) U x else Some 0) \/
     r = 0 /\ exists G' L', vmem s' G' L' lo hi A /\ kept_space s G' root U A s') /\
    forall t x, t <> root -> G !! t = Some Dir -> entry (kmem s') t x = entry (kmem s) t x) s.
Proof.
  intros Hv Has Hsz Hnew HU HL. eapply wp_mono; [by apply (allocuvm_spec s G L lo hi A root U oldsz newsz)|]. cbn beta.
  intros r s' [(N & -> & Hn & G' & L' & Hv' & Has' & Hg & HN & Hf & Ho)|(-> & G' & L' & Hv' & Has' & Hg & Hk & Ho)].
  - split; [|done]. left. split; [done|]. exists N, G', L'. split; [done|]. split; [intros p Hp; by apply HN|]. split; [done|]. split; [done|].
    intros x Hx. pose proof (Z.mod_pos_bound x 4096 ltac:(lia)) as Hm. pose proof (Z.div_mod x 4096 ltac:(lia)) as Hdm. rewrite HU. case_decide as Hlt.
    + transitivity (ubyte (kmem s') U x); [unfold ubyte; by rewrite lookup_app_l by lia|]. apply ubyte_same; [lia|].
      intros [q ap] o Hu Hoo. cbn [fst]. destruct (aspace_pages _ _ _ _ _ _ _ _ q ap Hv Has Hu) as [HqA _].
      apply (kept_pages s G L lo hi A s' G' L' N); try done. intros p Hp. by apply HN.
    + unfold ubyte, fresh. rewrite lookup_app_r, list_lookup_fmap by lia.
      destruct (lookup_lt_is_Some_2 N (Z.to_nat (x / 4096) - length U)) as [p Hp]; [lia|]. rewrite Hp. cbn.
      apply HN; [by eapply list_elem_of_lookup_2|done].
  - split; [|done]. right. split; [done|]. exists G', L'. split; [done|]. split; [done|]. intros x Hx. apply ubyte_same; [done|].
    intros [q ap] o Hu Hoo. cbn [fst]. apply Hk; [|done]. by eapply (aspace_pages s G L).
Qed.

(** shrinking an address space to [newsz] bytes returns [newsz], gives exactly the pages past the end back to the
    allocator and takes them out of the translation, the last-level tables staying; what is left keeps its pages and its bytes, and no
    other address space changes. Asked to grow it changes nothing. *)
Theorem deallocuvm_correct s G L lo hi A root U oldsz newsz : vmem s G L lo hi A -> aspace s G root U A ->
  0 <= newsz -> 0 <= oldsz <= UADDR_SZ -> Z.of_nat (length U) <= npg oldsz ->
  wp (deallocuvm root oldsz newsz) (fun r s' =>
    if oldsz <=? newsz then r = oldsz /\ s' = s else
    let n := Z.to_nat (npg newsz) in
    r = newsz /\ vmem s' G L lo hi (A ∖ blocks (drop n U)) /\ aspace s' G root (take n U) (A ∖ blocks (drop n U)) /\
    (forall x, 0 <= x -> ubyte (kmem s') (take n U) x = if decide (x < 4096 * npg newsz) then ubyte (kmem s) U x else None) /\
    forall t x, t <> root -> G !! t = Some Dir -> entry (kmem s') t x = entry (kmem s) t x) s.
Proof.
  intros Hv Has Hn Hold HU. change UADDR_SZ with (2 ^ 28) in Hold. destruct (Z.leb_spec oldsz newsz) as [Hle|Hlt].
  { eapply wp_eq; [by apply deallocuvm_same|]. split; [apply s32_small; lia|done]. }
  eapply wp_mono; [apply (deallocuvm_spec s G L lo hi A root U oldsz newsz Hv Has); [lia|change UADDR_SZ with (2 ^ 28); lia|done]|]. cbn beta zeta.
  intros r s' (-> & Hv' & Has' & Hf & Ho & _). split; [done|]. split; [done|]. split; [done|]. split; [|done].
  intros x Hx. pose proof (Z.div_mod x 4096 ltac:(lia)) as Hdm. pose proof (Z.mod_pos_bound x 4096 ltac:(lia)) as Hm. unfold ubyte. case_decide as Hlt'.
  - rewrite lookup_take_lt by lia. destruct (U !! Z.to_nat (x / 4096)) as [[q ap]|] eqn:Eq; [|done]. cbn.
    destruct (aspace_pages _ _ _ _ _ _ _ _ q ap Hv Has (list_elem_of_lookup_2 _ _ _ Eq)) as [HqA _].
    destruct (vm_page _ _ _ _ _ _ _ Hv HqA) as (_ & Hlo & _). apply (pool_frame _ _ _ _ _ _ _ _ Hv Hf). lia.
  - rewrite lookup_take_ge by lia. done.
Qed.

(** C15: copying the address space of a process of [sz] bytes, with table pages to spare, either returns a new page directory whose
    address space has as many pages, all of them new, with the same permissions and the same bytes, so that parent and child
    share no memory; or, when the allocator runs out of pages, returns 0 with every page and table of the unfinished copy given
    back. Either way the parent's address space and bytes, and every other address space, are as they were. *)
Theorem copyuvm_correct s G L lo hi A root U sz : vmem s G L lo hi A -> aspace s G root U A -> 0 <= sz -> npg sz = Z.of_nat (length U) ->
  (2 * length U + 1 <= length L)%nat ->
  wp (copyuvm root sz) (fun d s' => d <> 0 /\ forked s G L lo hi A root U d s' \/ d = 0 /\ gave_up s G lo hi A root U s') s.
Proof. apply copyuvm_spec. Qed.

(** C25: freeing an address space gives its pages back to the allocator, and its directory and every table linked from it back to
    the list of table pages; the page directories of other processes translate as before, and no memory but table pages changes. *)
Theorem freevm_correct s G L lo hi A d U : vmem s G L lo hi A -> aspace s G d U A ->
  wp (freevm d) (fun _ s' => exists F, vmem s' (forget d G) (F ++ L) lo hi (A ∖ blocks U) /\ d ∈ F /\ covers s d 4 F /\
    frame (kmem s) (kmem s') G /\ forall t x, t <> d -> G !! t = Some Dir -> translate (kmem s') t x = translate (kmem s) t x) s.
Proof.
  intros Hv Has. eapply wp_mono; [by apply (freevm_spec s G L lo hi A d U)|]. cbn beta.
  intros _ s' (F & H1 & H2 & H3 & H4 & H5). exists F. do 4 (split; [done|]). intros t x Ht Hd.
  rewrite (translate_entry _ _ _ _ _ x (proj2 (vm_space _ _ _ _ _ _ Hv)) Hd), <-(H5 t x Ht Hd).
  apply (translate_entry _ _ (freelist s') (forget d G) (F ++ L)); [apply (vm_space _ _ _ _ _ _ H1)|]. by apply forget_keep; [|cbn; apply Z.eqb_neq].
Qed.

(** C24: copyout of [len] bytes, fewer than 2^28, to user addresses that lie in the process, from kernel memory outside the process,
    stores them page by page up to the first page the process may not write itself. It returns 0 when there is none, and then exactly
    the bytes at [va] on have changed, across page boundaries and however scattered the pages; else -1, with the bytes before that page
    stored. The tables and the pages stay as they are. (Past the end of the process uva2ka() follows the null pointer of walkpgdir() where
    no table covers the page, which this leaves out.) *)
Theorem copyout_correct s G L lo hi A root U va p buf : vmem s G L lo hi A -> aspace s G root U A ->
  0 <= va -> va + Z.of_nat (length buf) <= 4096 * Z.of_nat (length U) -> Z.of_nat (length buf) < 2 ^ 28 ->
  bytes_at (kmem s) p buf -> Forall is_byte buf -> apart U p (Z.of_nat (length buf)) ->
  wp (copyout root va p (Z.of_nat (length buf))) (fun r s' => exists n, vmem s' G L lo hi A /\ aspace s' G root U A /\
    stored (kmem s) (kmem s') U va buf n /\ (forall x, va <= x < va + n -> snd <$> U !! Z.to_nat (x / 4096) = Some AP_RW_1_0) /\
    (r = 0 /\ n = Z.of_nat (length buf) \/
     r = -1 /\ 0 <= n < Z.of_nat (length buf) /\ snd <$> U !! Z.to_nat ((va + n) / 4096) <> Some AP_RW_1_0)) s.
Proof.
  intros Hv Has Hva Hend Hlen Hsrc Hby Hap. eapply wp_mono; [by apply (copyout_spec s G L lo hi A root U va p buf)|]. cbn beta.
  intros r s' (n & [Hv' Has' Hst _] & H). exists n. do 3 (split; [done|]). naive_solver.
Qed.

End spaces.
(** ** A machine to run on: a directory, nine table pages, a pool of seven pages *)

Definition demo_root : Z := 0xFFFFFFFF40100000.
Definition demo_src : Z := 0xFFFFFFFF4010A000.
Definition demo_lo : Z := 0xFFFFFFFF40200000.
Definition demo_mem : mem :=
  write_bytes (write_bytes (write_bytes ∅ demo_lo (replicate (8 * pg) 0)) demo_src [1; 2; 3]) demo_root (replicate (10 * pg) 0).
Definition demo_roles : gmap Z role :=
  <[0xFFFFFFFF40100000 := Dir]> (<[0xFFFFFFFF40101000 := Spare]> (<[0xFFFFFFFF40102000 := Spare]>
  (<[0xFFFFFFFF40103000 := Spare]> (<[0xFFFFFFFF40104000 := Spare]> (<[0xFFFFFFFF40105000 := Spare]>
  (<[0xFFFFFFFF40106000 := Spare]> (<[0xFFFFFFFF40107000 := Spare]> (<[0xFFFFFFFF40108000 := Spare]>
  (<[0xFFFFFFFF40109000 := Spare]> ∅))))))))).
Definition demo_pool : Buddy.kmem :=
  match Buddy.kmem_init2 demo_lo (demo_lo + 0x8000) Buddy.demo0 with Done _ k => k | _ => Buddy.demo0 end.
Definition demo_page : Z := match Buddy.kmalloc 12 demo_pool with Done p _ => p | _ => 0 end.
Definition demo_pool1 : Buddy.kmem := match Buddy.kmalloc 12 demo_pool with Done _ k => k | _ => Buddy.demo0 end.

Lemma demo_pool_inv : Buddy.Inv 7 demo_pool /\ Buddy.start_heap demo_pool = demo_lo + 0x1000 /\
  forall g, 0 <= g < 64 * 7 -> Buddy.granule_free 7 demo_pool g = true.
Proof.
  assert (Buddy.pool_ok demo_lo (demo_lo + 0x8000)) as Hp by (split; vm_compute; done).
  pose proof (Buddy.kmem_init2_spec demo_lo (demo_lo + 0x8000) Buddy.demo0 Hp eq_refl eq_refl ltac:(vm_compute; discriminate)) as Hw.
  cbn zeta in Hw. apply (Buddy.wp_Done (Buddy.kmem_init2 demo_lo (demo_lo + 0x8000))) in Hw as ([] & k' & Hk & HI & Hs & Hg).
  assert (Buddy.heap_blocks demo_lo (demo_lo + 0x8000) = 7) as E by (vm_compute; reflexivity). rewrite E in HI, Hg.
  unfold demo_pool. rewrite Hk. split; [exact HI|]. split; [rewrite Hs; vm_compute; reflexivity|]. apply Hg.
Qed.
Lemma demo_owns : owns demo_pool (demo_lo + 0x1000) (demo_lo + 0x8000) ∅ /\
  owns demo_pool1 (demo_lo + 0x1000) (demo_lo + 0x8000) {[(demo_page, 12)]}.
Proof.
  destruct demo_pool_inv as (HI & Hs & Hg). pose proof (buddy_owns_none 7 demo_pool HI Hg) as H0. rewrite Hs in H0.
  assert (demo_lo + 0x1000 + 7 * 4096 = demo_lo + 0x8000) as E by reflexivity. rewrite E in H0. clear E. split; [exact H0|].
  pose proof (buddy_kmalloc demo_pool _ _ ∅ 12 H0 ltac:(lia)) as Hw. apply Buddy.wp_Done in Hw as (p & k & Hk & [[E _]|[_ Ho]]).
  - exfalso. assert (match Buddy.kmalloc 12 demo_pool with Done p _ => p | _ => 0 end <> 0) as Hne by (vm_compute; congruence).
    rewrite Hk in Hne. exact (Hne E).
  - unfold demo_pool1, demo_page. rewrite Hk. rewrite union_empty_r_L in Ho. exact Ho.
Qed.

Lemma demo_mem_at k : demo_mem !! k =
  if decide (demo_root <= k < demo_root + 40960) then Some 0 else
  if decide (demo_src <= k < demo_src + 3) then [1; 2; 3] !! Z.to_nat (k - demo_src) else
  if decide (demo_lo <= k < demo_lo + 32768) then Some 0 else None.
Proof.
  pose proof pg_Z. unfold demo_mem. rewrite !lookup_write_bytes, !length_replicate.
  replace (Z.of_nat (10 * pg)) with 40960 by lia. replace (Z.of_nat (8 * pg)) with 32768 by lia. cbn [length].
  case_decide; [apply lookup_replicate_2; lia|]. change (Z.of_nat 3) with 3. case_decide; [reflexivity|].
  case_decide; [apply lookup_replicate_2; lia|reflexivity].
Qed.
Lemma demo_roles_in p r : demo_roles !! p = Some r ->
  exists i, 0 <= i < 10 /\ p = demo_root + 4096 * i /\ (i = 0 /\ r = Dir \/ i <> 0 /\ r = Spare).
Proof.
  unfold demo_roles. rewrite !lookup_insert_Some, lookup_empty.
  intros [[<- <-]|[_ [[<- <-]|[_ [[<- <-]|[_ [[<- <-]|[_ [[<- <-]|[_ [[<- <-]|[_ [[<- <-]|[_ [[<- <-]|[_ [[<- <-]|[_ [[<- <-]|[_ H]]]]]]]]]]]]]]]]]]]]; [exists 0|exists 1|exists 2|exists 3|exists 4|exists 5|exists 6|exists 7|exists 8|exists 9|done];
    (split; [lia|]); (split; [reflexivity|]); first [by left|by right].
Qed.
Lemma demo_zero i j : 0 <= i < 10 -> 0 <= j < 512 -> word demo_mem (demo_root + 4096 * i + 8 * j) = Some 0.
Proof.
  intros Hi Hj. pose proof pg_Z. rewrite (word_cong (write_bytes ∅ demo_root (replicate (10 * pg) 0))).
  - apply word_zero; lia.
  - intros k Hk. rewrite demo_mem_at, lookup_write_bytes, length_replicate. replace (Z.of_nat (10 * pg)) with 40960 by lia.
    rewrite !decide_True by lia. symmetry. apply lookup_replicate_2. lia.
Qed.

Definition demo_state (k : Buddy.kmem) : st Buddy.kmem := St demo_mem false 0 k.
Lemma demo_space k : space (demo_state k) demo_roles [] /\ forall x, entry demo_mem demo_root x = 0.
Proof.
  split; [split; [done|constructor]|].
  - intros p r Hp. apply demo_roles_in in Hp as (i & Hi & -> & _). split.
    + split; [unfold demo_root; Z.div_mod_to_equations; lia|]. unfold demo_root.
      change (p2v PHY_START) with 0xFFFFFFFF40000000. change (p2v PHYSTOP) with 0xFFFFFFFF48000000. lia.
    + intros j Hj. pose proof pg_Z. cbn [kmem demo_state]. rewrite demo_mem_at, decide_True by lia. by eexists.
  - intros b i r Hpar. left. destruct (parent_typed _ _ _ _ Hpar) as (rb & Hb & _ & Hi & _).
    apply demo_roles_in in Hb as (k' & Hk & -> & _). by apply demo_zero.
  - done.
  - by intros p Hp%elem_of_nil.
  - constructor.
  - intros x. destruct (idx_range x) as (I1 & _). unfold entry, slot, table_at.
    replace (demo_root + 8 * PGD_IDX x) with (demo_root + 4096 * 0 + 8 * PGD_IDX x) by lia. by rewrite demo_zero by lia.
Qed.

#[local] Opaque demo_mem demo_pool demo_pool1 demo_page demo_roles.

(** the machine after main() has built the list of table pages *)
Lemma demo_vm_boot k A : owns k (demo_lo + 0x1000) (demo_lo + 0x8000) A -> exists s L, length L = 9%nat /\ pages s = k /\
  vmem s demo_roles L (demo_lo + 0x1000) (demo_lo + 0x8000) A /\ aspace s demo_roles demo_root [] ∅ /\ bytes_at (kmem s) demo_src [1; 2; 3].
Proof.
  intros Hk. destruct (demo_space k) as [Hs He].
  assert (forall i, 0 <= i < 9 -> demo_roles !! (demo_root + 4096 + 4096 * i) = Some Spare) as Hsp.
  { intros i Hi. assert (i = 0 \/ i = 1 \/ i = 2 \/ i = 3 \/ i = 4 \/ i = 5 \/ i = 6 \/ i = 7 \/ i = 8) as [->|[->|[->|[->|[->|[->|[->|[->| ->]]]]]]]] by lia; reflexivity. }
  pose proof (kpt_freerange_spec (demo_state k) demo_roles [] (demo_root + 4096) 9 Hs) as Hw.
  assert (0 <= demo_root + 4096 /\ demo_root + 4096 + 4096 * Z.of_nat 9 < 2 ^ 64) as [H1 H2] by (unfold demo_root; lia).
  specialize (Hw H1 H2). destruct (proj1 (wp_done _ _ _) (Hw ltac:(intros i Hi; split; [apply Hsp; lia|by intros ?%elem_of_nil])))
    as (_ & s1 & _ & L & Hs1 & HL & _ & Hf & Hp & Hsame). rewrite app_nil_r in Hs1.
  assert (demo_roles !! demo_root = Some Dir) as Hr by reflexivity.
  assert (forall q, demo_root + 40960 <= q -> kmem s1 !! q = demo_mem !! q) as Hm.
  { intros q Hq. apply Hf. intros p r Hpr. apply demo_roles_in in Hpr as (i & Hi & -> & _). lia. }
  exists s1, L. split; [exact HL|]. split; [exact Hp|]. split; [constructor|split; [constructor|]].
  - exact Hs1.
  - rewrite Hp. exact Hk.
  - vm_compute. discriminate.
  - vm_compute. discriminate.
  - intros q Hq. rewrite Hm by (unfold demo_root, demo_lo in *; lia). exists 0. rewrite demo_mem_at.
    rewrite decide_False, decide_False, decide_True by (unfold demo_root, demo_src, demo_lo in *; lia). split; [reflexivity|unfold is_byte; lia].
  - intros p r Hpr. apply demo_roles_in in Hpr as (i & Hi & -> & _). change (p2v INIT_KERNMAP) with 0xFFFFFFFF40200000. unfold demo_root. lia.
  - exact Hr.
  - intros j Hj. rewrite Hsame by exact Hr. cbn [kmem demo_state]. rewrite He. unfold uentry. by rewrite lookup_nil.
  - cbn. lia.
  - constructor.
  - constructor.
  - apply empty_subseteq.
  - intros i x Hx. pose proof (lookup_lt_Some _ _ _ Hx) as Hi. cbn [length] in Hi. rewrite Hm by (unfold demo_root, demo_src; lia).
    rewrite demo_mem_at, decide_False, decide_True by (unfold demo_root, demo_src; lia). rewrite <-Hx. f_equal. lia.
Qed.
(** a process with one page *)
Lemma demo_process : exists s G L, (7 <= length L)%nat /\
  vmem s G L (demo_lo + 0x1000) (demo_lo + 0x8000) {[(demo_page, 12)]} /\ aspace s G demo_root [(demo_page, AP_RW_1_0)] {[(demo_page, 12)]} /\
  bytes_at (kmem s) demo_src [1; 2; 3].
Proof.
  destruct (demo_vm_boot demo_pool1 _ (proj2 demo_owns)) as (s & L & HL & _ & Hv & Has & Hsrc).
  assert (perm_ok AP_RW_1_0) as Hap by (unfold perm_ok; change AP_RW_1_0 with 64; set_solver).
  pose proof (map_next s demo_roles L _ _ _ demo_root [] ∅ demo_page AP_RW_1_0 Hv ltac:(set_solver) Has ltac:(set_solver) ltac:(cbn; lia) ltac:(lia) Hap) as Hw.
  apply wp_done in Hw as (r & s' & _ & _ & G' & L' & Hv' & Has' & Hg & Hf & _). exists s', G', L'. split.
  { destruct Hg as (_ & _ & K & -> & HK). rewrite length_app in HL. lia. }
  split; [done|]. split; [by rewrite union_empty_r_L in Has'|].
  intros i x Hx. rewrite Hf; [by apply Hsrc|]. intros p ro Hpr. apply demo_roles_in in Hpr as (j & Hj & -> & _).
  pose proof (lookup_lt_Some _ _ _ Hx) as Hi. cbn [length] in Hi. unfold demo_src, demo_root. lia.
Qed.

Lemma mappages_correct_witness : exists s s', mappages demo_root 8192 5000 0x40200000 AP_RW_1_0 s = Done 0 s' /\
  translate (kmem s') demo_root 8200 = Some (0x40200008, Arm.Access 1 4 3 false false) /\
  translate (kmem s') demo_root 12300 = Some (0x4020100C, Arm.Access 1 4 3 false false) /\
  translate (kmem s') demo_root 100 = None.
Proof.
  destruct (demo_vm_boot demo_pool _ (proj1 demo_owns)) as (s & L & HL & _ & Hv & Has & _).
  assert (forall x, present (entry (kmem s) demo_root x) = false) as Hnone.
  { intros x. rewrite (entry_vpn _ _ x (4096 * vpn x)) by (rewrite vpn_page; [done|apply Z.mod_pos_bound; lia]).
    rewrite (as_entries _ _ _ _ _ Has) by (apply Z.mod_pos_bound; lia). unfold uentry. by rewrite lookup_nil. }
  assert (perm_ok AP_RW_1_0) as Hap by (unfold perm_ok; change AP_RW_1_0 with 64; set_solver).
  pose proof (mappages_correct s demo_root demo_roles L 8192 5000 0x40200000 AP_RW_1_0 (vm_space _ _ _ _ _ _ Hv) (as_root _ _ _ _ _ Has)
    ltac:(lia) ltac:(lia) ltac:(lia) ltac:(by vm_compute) ltac:(lia) eq_refl ltac:(by vm_compute) Hap ltac:(rewrite HL; by vm_compute) ltac:(intros; apply Hnone)) as Hw.
  apply wp_done in Hw as (r & s' & Hrun & -> & _ & _ & Ht). exists s, s'. split; [exact Hrun|].
  rewrite !Ht by apply Has. rewrite decide_True, decide_True, decide_False.
  - split; [reflexivity|]. split; [reflexivity|].
    rewrite (translate_entry _ _ _ _ _ _ (proj2 (vm_space _ _ _ _ _ _ Hv)) (as_root _ _ _ _ _ Has)). unfold page_of.
    rewrite (entry_vpn _ _ 100 (4096 * 0)) by done. rewrite (as_entries _ _ _ _ _ Has) by done. reflexivity.
  - intros [_ H]. by vm_compute in H.
  - split; [done|]. by vm_compute.
  - split; [done|]. by vm_compute.
Defined.

Lemma allocuvm_correct_witness : exists s, aspace s demo_roles demo_root [] ∅ /\
  wp (allocuvm demo_root 0 5000) (fun r s' => r = 5000 /\ (exists p q G' A', aspace s' G' demo_root (fresh [p; q]) A') \/ r = 0) s.
Proof.
  destruct (demo_vm_boot demo_pool _ (proj1 demo_owns)) as (s & L & HL & _ & Hv & Has & _). exists s. split; [exact Has|].
  pose proof (allocuvm_correct s demo_roles L _ _ ∅ demo_root [] 0 5000 Hv Has ltac:(lia) ltac:(by vm_compute) eq_refl
    ltac:(rewrite HL; by vm_compute)) as Hw.
  eapply wp_mono; [exact Hw|]. cbn beta. intros r s' [[[-> (N & G' & L' & Hn & _ & _ & Has' & _)]|[-> _]] _]; [left|by right].
  split; [reflexivity|]. change (npg 5000) with 2 in Hn. cbn [length] in Hn. destruct N as [|p [|q [|? ?]]]; cbn [length] in Hn; try lia.
  exists p, q, G', (blocks (fresh [p; q]) ∪ ∅). exact Has'.
Defined.

Lemma deallocuvm_correct_witness : exists s s', deallocuvm demo_root 4096 0 s = Done 0 s' /\
  ubyte (kmem s') [] 7 = None /\ exists L G, vmem s' G L (demo_lo + 0x1000) (demo_lo + 0x8000) ∅.
Proof.
  destruct demo_process as (s & G & L & HL & Hv & Has & _).
  pose proof (deallocuvm_correct s G L _ _ _ demo_root _ 4096 0 Hv Has ltac:(lia) ltac:(by vm_compute) ltac:(by vm_compute)) as Hw.
  apply wp_done in Hw as (r & s' & Hrun & Hq). change (4096 <=? 0) with false in Hq. cbv iota zeta in Hq. destruct Hq as (-> & Hv' & _). exists s, s'. split; [exact Hrun|]. split; [reflexivity|].
  exists L, G. assert ({[(demo_page, 12)]} ∖ blocks [(demo_page, AP_RW_1_0)] = ∅) as E by (unfold blocks; cbn; set_solver).
  change (Z.to_nat (npg 0)) with 0%nat in Hv'. rewrite drop_0, E in Hv'. exact Hv'.
Defined.

Lemma copyuvm_correct_witness : exists s G L, wp (copyuvm demo_root 4096) (fun d s' =>
  d <> 0 /\ forked s G L (demo_lo + 0x1000) (demo_lo + 0x8000) {[(demo_page, 12)]} demo_root [(demo_page, AP_RW_1_0)] d s' \/
  d = 0 /\ gave_up s G (demo_lo + 0x1000) (demo_lo + 0x8000) {[(demo_page, 12)]} demo_root [(demo_page, AP_RW_1_0)] s') s.
Proof.
  destruct demo_process as (s & G & L & HL & Hv & Has & _). exists s, G, L.
  apply (copyuvm_correct s G L _ _ _ demo_root _ 4096 Hv Has); [lia|reflexivity|cbn; lia].
Defined.

Lemma freevm_correct_witness : exists s s', freevm demo_root s = Done tt s' /\
  exists G F L, vmem s' (forget demo_root G) (F ++ L) (demo_lo + 0x1000) (demo_lo + 0x8000) ∅ /\ demo_root ∈ F.
Proof.
  destruct demo_process as (s & G & L & HL & Hv & Has & _).
  pose proof (freevm_correct s G L _ _ _ demo_root _ Hv Has) as Hw.
  apply wp_done in Hw as ([] & s' & Hrun & F & Hv' & HF & _). exists s, s'. split; [exact Hrun|]. exists G, F, L.
  assert ({[(demo_page, 12)]} ∖ blocks [(demo_page, AP_RW_1_0)] = ∅) as E by (unfold blocks; cbn; set_solver).
  split; [by rewrite E in Hv'|exact HF].
Defined.

Lemma copyout_correct_witness : exists s s', copyout demo_root 4000 demo_src 3 s = Done 0 s' /\
  ubyte (kmem s') [(demo_page, AP_RW_1_0)] 4001 = Some 2.
Proof.
  destruct demo_process as (s & G & L & HL & Hv & Has & Hsrc).
  assert (apart [(demo_page, AP_RW_1_0)] demo_src (Z.of_nat (length [1; 2; 3]))) as Hap.
  { intros u k Hu Hk. apply list_elem_of_singleton in Hu as ->. cbn [fst]. cbn in Hk.
    destruct (vm_page _ _ _ _ _ _ demo_page Hv ltac:(set_solver)) as (_ & Hlo & _). unfold demo_src, demo_lo in *. lia. }
  pose proof (copyout_correct s G L _ _ _ demo_root _ 4000 demo_src [1; 2; 3] Hv Has ltac:(lia) ltac:(cbn; lia) ltac:(cbn; lia) Hsrc
    ltac:(repeat constructor; unfold is_byte; lia) Hap) as Hw.
  apply wp_done in Hw as (r & s' & Hrun & n & _ & _ & Hst & _ & [[-> ->]|(_ & Hn & Hbad)]).
  - exists s, s'. split; [exact Hrun|]. rewrite Hst by lia. reflexivity.
  - exfalso. apply Hbad. cbn in Hn. assert ((4000 + n) / 4096 = 0) as -> by (apply Z.div_small; lia). reflexivity.
Defined.


End AddrSpace.
