(* ===== verification/Exec.v ===== *)
(** * Loading a program (src/src/exec.c, loaduvm and switchuvm of src/src/vm.c)

    exec() over the page tables of Vm.v, the file system behind an interface
    (the calls exec makes, with what readi promises), and the fields of the
    process that exec sets.  What exec only passes on as a pointer is given as
    what it points to: the path and the arguments as the strings in the old
    address space, which no call here changes before it is freed, and the
    headers readi() fills as the bytes it has stored. *)

From S2P Require Import Prelude.
From S2P Require Import Bytes.
From S2P Require Import KString.
From S2P Require Import Mmu.
From S2P Require Import Alloc.
From S2P Require Import Vm.

(** the calls of fs.c; readi returns what it returns and the bytes it stored *)
Class ExecFs (F : Type) : Type := {
  x_namei : list Z -> M F Z;
  x_ilock : Z -> M F unit;
  x_readi : Z -> Z -> Z -> M F (Z * list Z);
  x_iunlockput : Z -> M F unit;
}.

Module Exec.
Import Mmu.
Import Vm.

Definition ELF_MAGIC : Z := 0x464C457F.
Definition ELF_PROG_LOAD : Z := 1.
Definition MAXARG : Z := 32.
(** struct elfhdr and struct proghdr *)
Definition sizeof_elfhdr : Z := 64.
Definition sizeof_proghdr : Z := 56.
Definition ld64 := ldn 8.
Definition elf_magic (h : list Z) : option Z := ld32 h 0.
Definition elf_entry (h : list Z) : option Z := ld64 h 24.
Definition elf_phoff (h : list Z) : option Z := ld64 h 32.
Definition elf_phnum (h : list Z) : option Z := ld16 h 56.
Definition ph_type (h : list Z) : option Z := ld32 h 0.
Definition ph_off (h : list Z) : option Z := ld64 h 8.
Definition ph_vaddr (h : list Z) : option Z := ld64 h 16.
Definition ph_filesz (h : list Z) : option Z := ld64 h 32.
Definition ph_memsz (h : list Z) : option Z := ld64 h 40.

Section exec.
Context {P F : Type} {PA : PageAlloc P} {XF : ExecFs F}.

(** what exec sets of the running process and its trap frame, and the table the processor walks *)
Record proc : Type := Proc {
  p_pgdir : Z;
  p_sz : Z;
  p_name : list Z;
  tf_r0 : Z;
  tf_r1 : Z;
  tf_elr : Z;
  tf_sp : Z;
  ttbr0 : Z;
}.
Record st : Type := St {
  vm : Vm.st P;
  fs : F;
  pr : proc;
  llvaddr : Z;
}.
Definition vm_lens : lens st (Vm.st P) := Lens vm (fun v s => St v (fs s) (pr s) (llvaddr s)).
Definition fs_lens : lens st F := Lens fs (fun f s => St (vm s) f (pr s) (llvaddr s)).
Definition set_pr (f : proc -> proc) : M st unit := modify (fun s => St (vm s) (fs s) (f (pr s)) (llvaddr s)).
Definition set_llvaddr (a : Z) : M st unit := modify (fun s => St (vm s) (fs s) (pr s) a).

(** a field of a header: [None] when readi did not fill it *)
Definition field (f : list Z -> option Z) (h : list Z) : M st Z := deref (fun _ => f h).
(** a store into memory of the bytes a routine copies *)
Definition store_bytes (a : Z) (l : list Z) : M (Vm.st P) unit := fun s =>
  if forallb (fun i => bool_decide (is_Some (kmem s !! (a + i)))) (seqZ 0 (Z.of_nat (length l)))
  then Done tt (Vm.St (write_bytes (kmem s) a l) (klock s) (freelist s) (pages s)) else Undef.

(** copyout() of vm.c, the source given by its bytes *)
Definition copyout_body (pgdir : Z) (p : list Z) (v : Z * Z * Z) : M (Vm.st P) (Z * Z * Z + Z) :=
  let '(va, i, len) := v : Z * Z * Z in
  if 0 <? len then
    let va0 := align_dn va PTE_SZ in
    pa0 ← uva2ka pgdir va0;
    if pa0 =? 0 then mret (inr (-1)) else
    let n := Z.min (PTE_SZ - (va - va0)) len in
    store_bytes (pa0 + (va - va0)) (sub p (Z.to_nat i) (Z.to_nat n)) ;;
    mret (inl (u32 (va0 + PTE_SZ), i + n, u32 (len - n)))
  else mret (inr 0).
Definition copyout (pgdir va : Z) (p : list Z) : M (Vm.st P) Z :=
  let len := Z.of_nat (length p) in
  loop (S (Z.to_nat len)) (copyout_body pgdir p) (u32 va, 0, len).

(** i, pa and n are uint *)
Definition loaduvm_body (pgdir addr ip offset sz i : Z) : M st (Z + Z) :=
  if i <? sz then
    pte ← zoom vm_lens (walkpgdir pgdir (u64 (addr + i)) false);
    panic_if (pte =? 0) "loaduvm: address should exist" ;;
    e ← zoom vm_lens (Vm.ld64 pte);
    let pa := u32 (PTE_ADDR e) in
    let n := if u32 (sz - i) <? PTE_SZ then u32 (sz - i) else PTE_SZ in
    r ← zoom fs_lens (x_readi ip (u32 (offset + i)) n);
    let '(r, l) := r : Z * list Z in
    zoom vm_lens (store_bytes (p2v pa) l) ;;
    if negb (r =? n) then mret (inr (-1)) else
    set_llvaddr (p2v pa) ;;
    mret (inl (u32 (i + PTE_SZ)))
  else mret (inr 0).
Definition loaduvm (pgdir addr ip offset sz : Z) : M st Z :=
  panic_if (negb (addr mod PTE_SZ =? 0)) "loaduvm: addr must be page aligned" ;;
  loop (S (Z.to_nat sz)) (loaduvm_body pgdir addr ip offset sz) 0.

(** between pushcli() and popcli(), which leave interrupts as they were; the TLB holds no state of the model *)
Definition switchuvm : M st unit :=
  pgdir ← gets (fun s => p_pgdir (pr s));
  panic_if (pgdir =? 0) "switchuvm: no pgdir" ;;
  set_pr (fun p => Proc (p_pgdir p) (p_sz p) (p_name p) (tf_r0 p) (tf_r1 p) (tf_elr p) (tf_sp p) (v2p pgdir)).

(** the label bad; [ip] is 0 once the inode has been put *)
Definition exec_bad (pgdir ip : Z) : M st Z :=
  when (negb (pgdir =? 0)) (zoom vm_lens (freevm pgdir)) ;;
  when (negb (ip =? 0)) (zoom fs_lens (x_iunlockput ip)) ;;
  mret (-1).

(** one program header: [inr None] is the label bad.  off is an int, the sum with
    sizeof(ph) is converted back to one; the sizes handed on are uint *)
Definition exec_seg (ip pgdir phnum : Z) (v : Z * Z * Z) : M st (Z * Z * Z + option Z) :=
  let '(i, off, sz) := v : Z * Z * Z in
  if i <? phnum then
    r ← zoom fs_lens (x_readi ip (u32 off) sizeof_proghdr);
    let '(r, ph) := r : Z * list Z in
    if negb (r =? sizeof_proghdr) then mret (inr None) else
    let next sz := mret (inl (i + 1, s32 (off + sizeof_proghdr), sz)) in
    ty ← field ph_type ph;
    if negb (ty =? ELF_PROG_LOAD) then next sz else
    memsz ← field ph_memsz ph;
    filesz ← field ph_filesz ph;
    if memsz <? filesz then mret (inr None) else
    vaddr ← field ph_vaddr ph;
    sz ← zoom vm_lens (allocuvm pgdir (u32 sz) (u32 (vaddr + memsz)));
    if sz =? 0 then mret (inr None) else
    o ← field ph_off ph;
    r ← loaduvm pgdir vaddr ip (u32 o) (u32 filesz);
    if r <? 0 then mret (inr None) else next (u64 sz)
  else mret (inr (Some sz)).

(** pushing the arguments; ustack has room for 3 + MAXARG + 1 words *)
Definition exec_arg (pgdir : Z) (argv : list (list Z)) (v : Z * Z * list Z) : M st (Z * Z * list Z + option (Z * Z * list Z)) :=
  let '(argc, sp, ustack) := v : Z * Z * list Z in
  match argv !! Z.to_nat argc with
  | None => mret (inr (Some (argc, sp, ustack)))
  | Some a =>
      if MAXARG <=? argc then mret (inr None) else
      let len := Z.of_nat (length a) + 1 in
      let sp := Z.land (u64 (sp - len)) (u64 (Z.lnot 7)) in
      r ← zoom vm_lens (copyout pgdir sp (a ++ [0]));
      if r <? 0 then mret (inr None) else
      mret (inl (argc + 1, sp, put ustack argc sp))
  end.

(** for (last = s = path; *s; s++) if ( *s == '/') last = s + 1 *)
Fixpoint base_name (last s : list Z) : list Z :=
  match s with [] => last | c :: s => base_name (if c =? 47 then s else last) s end.
(** safestrcpy(proc->name, last, sizeof(proc->name)) *)
Definition save_name (name last : list Z) : option (list Z) :=
  match safestrcpy 0 100 16 (write_bytes (write_bytes ∅ 0 name) 100 (last ++ [0])) with
  | Done _ m => mapM (fun i => m !! i) (seqZ 0 16)
  | _ => None
  end.

(** from the stack on: the inode has been put *)
Definition exec_stack (pgdir sz entry : Z) (path : list Z) (argv : list (list Z)) : M st Z :=
  let sz := align_up sz PTE_SZ in
  r ← zoom vm_lens (allocuvm pgdir (u32 sz) (u32 (sz + 2 * PTE_SZ)));
  let sz := u64 r in
  if sz =? 0 then exec_bad pgdir 0 else
  zoom vm_lens (clearpteu pgdir (u64 (sz - 2 * PTE_SZ))) ;;
  v ← loop (S (S (Z.to_nat MAXARG))) (exec_arg pgdir argv) (0, sz, replicate (Z.to_nat (3 + MAXARG + 1)) 0);
  match v with
  | None => exec_bad pgdir 0
  | Some (argc, sp, ustack) =>
      let ustack := put ustack argc 0 in
      set_pr (fun p => Proc (p_pgdir p) (p_sz p) (p_name p) argc (u64 (sp - (argc + 1) * 8)) (tf_elr p) (tf_sp p) (ttbr0 p)) ;;
      let sp := u64 (sp - (argc + 1) * 8) in
      r ← zoom vm_lens (copyout pgdir sp (concat (le 8 <$> take (Z.to_nat (argc + 1)) ustack)));
      if r <? 0 then exec_bad pgdir 0 else
      (* save program name for debugging *)
      name ← deref (fun s => save_name (p_name (pr s)) (base_name path path));
      (* commit to the user image *)
      oldpgdir ← gets (fun s => p_pgdir (pr s));
      set_pr (fun p => Proc pgdir sz name (tf_r0 p) (tf_r1 p) entry sp (ttbr0 p)) ;;
      switchuvm ;;
      zoom vm_lens (freevm oldpgdir) ;;
      mret 0
  end.

Definition exec (path : list Z) (argv : list (list Z)) : M st Z :=
  ip ← zoom fs_lens (x_namei path);
  if ip =? 0 then mret (-1) else
  zoom fs_lens (x_ilock ip) ;;
  (* check ELF header: the comparison is between unsigned numbers *)
  r ← zoom fs_lens (x_readi ip 0 sizeof_elfhdr);
  let '(r, elf) := r : Z * list Z in
  if u64 r <? sizeof_elfhdr then exec_bad 0 ip else
  magic ← field elf_magic elf;
  if negb (magic =? ELF_MAGIC) then exec_bad 0 ip else
  pgdir ← zoom vm_lens kpt_alloc;
  if pgdir =? 0 then exec_bad 0 ip else
  (* load program into memory *)
  phoff ← field elf_phoff elf;
  phnum ← field elf_phnum elf;
  v ← loop (S (Z.to_nat phnum)) (exec_seg ip pgdir phnum) (0, s32 phoff, 0);
  match v with
  | None => exec_bad pgdir ip
  | Some sz =>
      zoom fs_lens (x_iunlockput ip) ;;
      entry ← field elf_entry elf;
      exec_stack pgdir sz entry path argv
  end.
End exec.
End Exec.
