(* ===== verification/ExecSpec.v ===== *)
(** * What exec() promises (Exec.v)

    The new address space while it is built: its pages, the image they hold,
    and everything the rest of the system owns left as it was. *)

From S2P Require Import Prelude.
From S2P Require Import Bytes.
From S2P Require Import KString.
From S2P Require Import Mmu.
From S2P Require Import Alloc.
From S2P Require Import Vm.
From S2P Require Import PageTable.
From S2P Require Import UserMem.
From S2P Require Import PtFree.
From S2P Require Import AddrSpace.
From S2P Require Import Exec.

Module ExecSpec.
Import Mmu Vm PageTable UserMem PtFree AddrSpace Exec.

(** the image of a program: a byte at every address, zero where nothing was stored *)
Definition image : Type := Z -> Z.
Definition over (img : image) (a : Z) (l : list Z) : image := fun x =>
  if decide (a <= x < a + Z.of_nat (length l)) then default 0 (l !! Z.to_nat (x - a)) else img x.
Definition ends (img : image) (n : Z) : Prop := forall x, n <= x -> img x = 0.
Definition holds (m : mem) (U : list upage) (img : image) : Prop := forall x, 0 <= x < 4096 * Z.of_nat (length U) -> ubyte m U x = Some (img x).

Section building.
Context {P : Type} {PA : PageAlloc P} {PL : PageAllocLaws P}.
Context (s1 : Vm.st P) (G1 : gmap Z role) (lo hi : Z) (A0 : gset (Z * Z)) (d : Z).
Implicit Types (s : Vm.st P) (G : gmap Z role) (L : list Z) (U : list upage).

(** the space of [d] being built from the state [s1] on *)
Record live s G L U : Prop := {
  lv_vmem : vmem s G L lo hi (blocks U ∪ A0);
  lv_space : aspace s G d U (blocks U ∪ A0);
  lv_new p : p ∈ fst <$> U -> (p, 12) ∉ A0;
  lv_dirs t : t <> d -> G1 !! t = Some Dir -> G !! t = Some Dir;
  lv_entries t x : t <> d -> G1 !! t = Some Dir -> entry (kmem s) t x = entry (kmem s1) t x;
  lv_bytes q o : (q, 12) ∈ A0 -> 0 <= o < 4096 -> kmem s !! (q + o) = kmem s1 !! (q + o);
}.

Lemma blocks_app U V : blocks (U ++ V) = blocks U ∪ blocks V.
Proof. unfold blocks. by rewrite fmap_app, list_to_set_app_L. Qed.

Lemma live_page s G L U k p ap : live s G L U -> U !! k = Some (p, ap) -> (p, 12) ∈ blocks U ∪ A0 /\ page_ok p /\ mapped (kmem s) p pg /\ lo <= p /\ p + 4096 <= hi.
Proof.
  intros Hl Hp. assert ((p, 12) ∈ blocks U ∪ A0) as HA.
  { apply elem_of_union_l, elem_blocks, list_elem_of_fmap. exists (p, ap). split; [done|]. by eapply list_elem_of_lookup_2. }
  destruct (vm_page _ _ _ _ _ _ _ (lv_vmem _ _ _ _ Hl) HA) as (? & ? & ? & ? & _). done.
Qed.

(** growing: new pages of zeros *)
Lemma live_grow s G L U img oldsz newsz : live s G L U -> holds (kmem s) U img -> ends img (4096 * Z.of_nat (length U)) ->
  0 <= oldsz <= newsz -> newsz < UADDR_SZ -> npg oldsz = Z.of_nat (length U) -> 2 * (npg newsz - npg oldsz) <= Z.of_nat (length L) ->
  wp (allocuvm d oldsz newsz) (fun r s' =>
    (exists N G' L', r = newsz /\ npg newsz = Z.of_nat (length (U ++ fresh N)) /\ live s' G' L' (U ++ fresh N) /\ holds (kmem s') (U ++ fresh N) img /\
      (length L <= length L' + 2 * length N)%nat) \/
    r = 0 /\ exists G' L', live s' G' L' U) s.
Proof using PL.
  intros Hl Hh He Hsz Hnew HU HL. pose proof Hl as [Hv Has Hn Hd Ho Hb].
  eapply wp_mono; [by apply (allocuvm_spec s G L lo hi _ d U oldsz newsz Hv Has)|]. cbn beta.
  intros r s' [(N & -> & Hpg & G' & L' & Hv' & Has' & Hg' & HN & Hf' & Ho')|(-> & G' & L' & Hv' & Has' & Hg' & Hb' & Ho')].
  - left. exists N, G', L'. split; [done|]. split; [rewrite length_app, length_fresh; lia|].
    assert (blocks (U ++ fresh N) ∪ A0 = blocks (fresh N) ∪ (blocks U ∪ A0)) as Eb by (rewrite blocks_app, (union_comm_L (blocks U)); symmetry; apply union_assoc_L).
    assert (forall p, p ∈ N -> (p, 12) ∉ blocks U ∪ A0) as HN' by (intros p Hp; by apply HN).
    assert (forall q o, (q, 12) ∈ blocks U ∪ A0 -> 0 <= o < 4096 -> kmem s' !! (q + o) = kmem s !! (q + o)) as Hkeep.
    { intros q o Hq Hoo. by apply (kept_pages s G L lo hi (blocks U ∪ A0) s' G' L' N). }
    split; [|split].
    + constructor; try rewrite Eb; try done.
      * intros p Hp. rewrite fmap_app, fst_fresh in Hp. apply elem_of_app in Hp as [Hp|Hp]; [by apply Hn|]. intros Hin. apply (HN' p Hp). by apply elem_of_union_r.
      * intros t Ht Hdir. apply Hg'; [by apply Hd|done].
      * intros t x Ht Hdir. rewrite Ho'; [by apply Ho|done|by apply Hd].
      * intros q o Hq Hoo. rewrite Hkeep; [by apply Hb|by apply elem_of_union_r|done].
    + intros x Hx. unfold ubyte. pose proof (Z.mod_pos_bound x 4096 ltac:(lia)) as Hm. destruct (decide (x < 4096 * Z.of_nat (length U))) as [Hlt|Hge].
      * rewrite lookup_app_l by (Z.div_mod_to_equations; lia). rewrite <-(Hh x) by lia. unfold ubyte. destruct (U !! Z.to_nat (x / 4096)) as [[p ap]|] eqn:EU; [|done].
        cbn. apply Hkeep; [|done]. by eapply live_page.
      * rewrite lookup_app_r by (Z.div_mod_to_equations; lia). destruct (fresh N !! (Z.to_nat (x / 4096) - length U)%nat) as [[p ap]|] eqn:EN.
        2:{ apply lookup_ge_None in EN. rewrite length_app in Hx. exfalso. Z.div_mod_to_equations; lia. }
        cbn. rewrite He by lia. apply HN; [|done]. rewrite <-(fst_fresh N). apply list_elem_of_fmap. exists (p, ap). split; [done|]. by eapply list_elem_of_lookup_2.
    + destruct Hg' as (_ & _ & K & -> & HK). rewrite length_app. lia.
  - right. split; [done|]. exists G', L'. constructor; try done.
    + intros t Ht Hdir. apply Hg'; [by apply Hd|done].
    + intros t x Ht Hdir. rewrite Ho'; [by apply Ho|done|by apply Hd].
    + intros q o Hq Hoo. rewrite Hb'; [by apply Hb|by apply elem_of_union_r|done].
Qed.

(** storing the bytes of a routine *)
Lemma wp_store_bytes a l (Q : unit -> Vm.st P -> Prop) s : mapped (kmem s) a (length l) -> Q tt (put_mem (write_bytes (kmem s) a l) s) ->
  wp (store_bytes a l) Q s.
Proof.
  intros Hm HQ. unfold wp, store_bytes. assert (forallb (fun i => bool_decide (is_Some (kmem s !! (a + i)))) (seqZ 0 (Z.of_nat (length l))) = true) as ->; [|exact HQ].
  apply forallb_forall. intros i Hi%list_elem_of_In%elem_of_seqZ. apply bool_decide_eq_true. specialize (Hm (Z.to_nat i) ltac:(lia)).
  by replace (a + Z.of_nat (Z.to_nat i)) with (a + i) in Hm by lia.
Qed.
Lemma live_store s G L U img k q ap o l : live s G L U -> holds (kmem s) U img -> 0 <= k -> U !! Z.to_nat k = Some (q, ap) ->
  Forall is_byte l -> 0 <= o -> o + Z.of_nat (length l) <= 4096 ->
  wp (store_bytes (q + o) l) (fun _ s' => live s' G L U /\ holds (kmem s') U (over img (4096 * k + o) l)) s.
Proof using PL.
  intros Hl Hh Hk Hq Hby Ho Hlen. pose proof pg_Z as Hpg. destruct (live_page _ _ _ _ _ _ _ Hl Hq) as (HqA & Hqo & Hqm & Hqlo & Hqhi).
  pose proof Hl as [Hv Has Hn Hd Hoth Hb]. apply wp_store_bytes.
  { intros i Hi. replace (q + o + Z.of_nat i) with (q + Z.of_nat (Z.to_nat o + i)) by lia. apply Hqm. lia. }
  destruct (vmem_fill s G L lo hi _ q l Hv HqA Hby o Ho Hlen) as [Hv' Hsame]. split; [constructor; try done|].
  - apply (aspace_other s _ G G d U _ _ Has); [apply Has|done|]. intros x. apply Hsame, Has.
  - intros t x Ht Hdir. rewrite Hsame by (by apply Hd). by apply Hoth.
  - intros p i Hp Hi. cbn. rewrite lookup_write_bytes. rewrite decide_False; [by apply Hb|]. intros Hin.
    assert (p <> q) as Hne. { intros ->. apply (Hn q); [|done]. apply list_elem_of_fmap. exists (q, ap). split; [done|]. by eapply list_elem_of_lookup_2. }
    destruct (vm_disj _ _ _ _ _ _ _ _ Hv (elem_of_union_r _ _ _ Hp) HqA Hne); lia.
  - intros x Hx. unfold put_mem. cbn [kmem]. rewrite (ubyte_write s G L lo hi _ d U k o q ap l x Hv Has ltac:(lia) Hk Hq Ho Hlen), (Hh x Hx).
    unfold over. case_decide as Hin; [|done]. destruct (lookup_lt_is_Some_2 l (Z.to_nat (x - (4096 * k + o)))) as [b ->]; [lia|done].
Qed.

(** the guard page: its bytes stay, the process may not touch them *)
Definition guarded (U : list upage) (k : nat) : list upage := alter (fun u => (fst u, AP_RW_1)) k U.
Lemma fst_guarded U k : fst <$> guarded U k = fst <$> U.
Proof.
  apply list_eq. intros i. unfold guarded. rewrite !list_lookup_fmap. destruct (decide (i = k)) as [->|Hne].
  - rewrite list_lookup_alter_eq. by destruct (U !! k).
  - by rewrite list_lookup_alter_ne.
Qed.
Lemma blocks_fst U V : fst <$> U = fst <$> V -> blocks U = blocks V.
Proof.
  intros E. assert (forall W, blocks W = list_to_set ((fun p => (p, 12)) <$> (fst <$> W))) as Eb by (intros W; unfold blocks; by rewrite <-list_fmap_compose).
  by rewrite !Eb, E.
Qed.
Lemma ubyte_fst m U V x : fst <$> U = fst <$> V -> ubyte m U x = ubyte m V x.
Proof.
  intros E. unfold ubyte. assert (fst <$> U !! Z.to_nat (x / 4096) = fst <$> V !! Z.to_nat (x / 4096)) as El by (by rewrite <-!list_lookup_fmap, E).
  destruct (U !! Z.to_nat (x / 4096)) as [u|], (V !! Z.to_nat (x / 4096)) as [v|]; try done. cbn in *. by injection El as ->.
Qed.
Lemma clear_entry pa ap : 0 <= pa < 2 ^ 48 -> pa mod 4096 = 0 -> perm_ok ap ->
  Z.lor (Z.land (page_entry pa ap) (u64 (Z.lnot (Z.shiftl 3 6)))) AP_RW_1 = page_entry pa AP_RW_1.
Proof.
  intros Hpa Hm Hap. destruct (page_entry_spec pa ap Hpa Hm Hap) as (_ & _ & _ & Hp & Hr). unfold PTE_AP in Hp. change AP_MASK with 192 in Hp.
  change AP_RW_1 with 0. rewrite Z.lor_0_r. change (Z.shiftl 3 6) with 192. unfold u64. rewrite <-Z.land_ones by lia.
  rewrite (Z.land_comm _ (Z.ones 64)), Z.land_assoc, Z.land_ones by lia. rewrite Z.mod_small by lia. rewrite <-Z.ldiff_land.
  assert (Z.ldiff (page_entry pa ap) 192 = page_entry pa ap - ap) as ->.
  { transitivity (page_entry pa ap - Z.land (page_entry pa ap) 192); [|by rewrite Hp]. rewrite Z.sub_nocarry_ldiff.
    - apply Z.bits_inj'. intros n Hn. rewrite !Z.ldiff_spec, Z.land_spec. by destruct (Z.testbit (page_entry pa ap) n), (Z.testbit 192 n).
    - apply Z.bits_inj'. intros n Hn. rewrite Z.ldiff_spec, Z.land_spec, Z.bits_0. by destruct (Z.testbit (page_entry pa ap) n), (Z.testbit 192 n). }
  assert (forall b, perm_ok b -> page_entry pa b = pa + (1843 + b)) as E.
  { intros b Hb. unfold page_entry. rewrite <-!Z.lor_assoc. unfold perm_ok in Hb. rewrite !elem_of_cons, elem_of_nil in Hb.
    assert (forall c, Z.lor ACCESS_FLAG (Z.lor SH_IN_SH (Z.lor b (Z.lor NON_SECURE_PA (Z.lor MEM_ATTR_IDX_4 (Z.lor ENTRY_PAGE ENTRY_VALID))))) = c -> 0 <= c < 4096 -> c = 1843 + b ->
      Z.lor pa (Z.lor ACCESS_FLAG (Z.lor SH_IN_SH (Z.lor b (Z.lor NON_SECURE_PA (Z.lor MEM_ATTR_IDX_4 (Z.lor ENTRY_PAGE ENTRY_VALID)))))) = pa + (1843 + b)) as H.
    { intros c -> Hc ->. apply lor_low; lia. }
    apply (H (1843 + b)); [by destruct Hb as [->|[->|[->|[->|[]]]]]|lia|done]. }
  rewrite (E ap Hap), (E 0) by (by left). lia.
Qed.
Lemma live_clear s G L U img k p ap : live s G L U -> holds (kmem s) U img -> 0 <= k < 2 ^ 20 -> U !! Z.to_nat k = Some (p, ap) ->
  wp (clearpteu d (4096 * k)) (fun _ s' => live s' G L (guarded U (Z.to_nat k)) /\ holds (kmem s') (guarded U (Z.to_nat k)) img) s.
Proof using PL.
  intros Hl Hh Hk Hp. pose proof Hl as [Hv Has Hn Hd Hoth Hb]. pose proof (vm_space _ _ _ _ _ _ Hv) as Hs. pose proof (as_root _ _ _ _ _ Has) as Hr.
  destruct (live_page _ _ _ _ _ _ _ Hl Hp) as (HpA & Hpo & _ & Hplo & _).
  destruct (walk_page s G L d U _ k p ap Hs Has Hk Hp Hpo) as (pte & Hrun & Hnz & Hw & Hap).
  assert (slot (kmem s) d (4096 * k) = Some pte) as Hslot.
  { pose proof (walkpgdir_find s d G L (4096 * k) Hs Hr) as Hfind. rewrite Hrun in Hfind. injection Hfind as E.
    destruct (slot (kmem s) d (4096 * k)); cbn in E; congruence. }
  destruct (v2p_page p Hpo) as (_ & Hvr & Hvm). destruct (user_entry p AP_RW_1 Hpo) as (_ & _ & _ & Hr64 & _); [by left|].
  unfold clearpteu. wp_step. apply (wp_eq _ _ _ _ _ Hrun). apply Z.eqb_neq in Hnz. rewrite Hnz. wp_step. wp_step; [done|]. wp_step.
  eapply ld64_wp; [exact Hw|]. rewrite clear_entry by (done || lia).
  destruct (set_entry (kmem s) d _ G L (4096 * k) pte (page_entry (v2p p) AP_RW_1) (proj2 Hs) Hr Hslot Hr64) as (Hpw & Ht' & Hf' & _ & He').
  apply st64_wp; [done|]. assert (u64 (page_entry (v2p p) AP_RW_1) = page_entry (v2p p) AP_RW_1) as -> by (apply Z.mod_small; lia).
  set (s' := put_mem _ s). assert (vmem s' G L lo hi (blocks U ∪ A0)) as Hv'.
  { eapply vmem_tables; [exact Hv|split; [apply Hs|exact Ht']|done|exact Hf'|done]. }
  assert (forall i, lo <= i -> kmem s' !! i = kmem s !! i) as Hpool by (intros i Hi; by apply (pool_frame _ _ _ _ _ _ _ _ Hv Hf')).
  rewrite (vpn_page k Hk) in He'. pose proof (fst_guarded U (Z.to_nat k)) as Hfst. pose proof (blocks_fst _ _ Hfst) as Hbl. split; [constructor|].
  - by rewrite Hbl.
  - rewrite Hbl. destruct Has as [_ He Hlen Hperm Hnd Hown]. constructor.
    + done.
    + intros j Hj. unfold s', put_mem. cbn [kmem]. rewrite He', vpn_page by done. unfold uentry, guarded. destruct (decide (d = d /\ j = k)) as [[_ ->]|Hne].
      * by rewrite list_lookup_alter_eq, Hp.
      * rewrite list_lookup_alter_ne by (intros E; apply Hne; split; [done|lia]). by apply He.
    + unfold guarded. by rewrite length_alter.
    + apply Forall_lookup_2. intros i u Hu. unfold guarded in Hu. destruct (decide (i = Z.to_nat k)) as [->|Hne].
      * rewrite list_lookup_alter_eq, Hp in Hu. injection Hu as <-. by left.
      * rewrite list_lookup_alter_ne in Hu by done. exact (Forall_lookup_1 _ _ _ _ Hperm Hu).
    + by rewrite Hfst.
    + by rewrite Hbl.
  - intros q Hq. rewrite Hfst in Hq. by apply Hn.
  - done.
  - intros t x Ht Hdir. unfold s', put_mem. cbn [kmem]. rewrite He' by (by apply Hd). rewrite decide_False by tauto. by apply Hoth.
  - intros q o Hq Hoo. destruct (vm_page _ _ _ _ _ _ _ Hv (elem_of_union_r _ _ _ Hq)) as (_ & Hqlo & _). rewrite Hpool by lia. by apply Hb.
  - intros x Hx. unfold guarded in Hx. rewrite length_alter in Hx. rewrite (ubyte_fst _ _ _ _ Hfst), <-(Hh x Hx). apply ubyte_same; [lia|].
    intros [q b] o Hu Hoo. cbn [fst]. apply list_elem_of_lookup_1 in Hu as [i Hu]. destruct (live_page _ _ _ _ _ _ _ Hl Hu) as (_ & _ & _ & Hqlo & _).
    apply Hpool. lia.
Qed.

(** giving up *)
Lemma live_free s G L U root Uold : live s G L U -> aspace s1 G1 root Uold A0 -> root <> d ->
  wp (freevm d) (fun _ s' => exists G' L', vmem s' G' L' lo hi A0 /\ kept_space s1 G' root Uold A0 s' /\
    (forall t x, t <> d -> G1 !! t = Some Dir -> entry (kmem s') t x = entry (kmem s1) t x) /\
    forall q o, (q, 12) ∈ A0 -> 0 <= o < 4096 -> kmem s' !! (q + o) = kmem s1 !! (q + o)) s.
Proof using PL.
  intros Hl Hold Hne. pose proof Hl as [Hv Has Hn Hd Hoth Hb].
  eapply wp_mono; [apply (freevm_spec s G L lo hi _ d U Hv Has)|]. cbn beta. intros _ s' (F & Hv' & _ & _ & Hf' & Ho').
  assert ((blocks U ∪ A0) ∖ blocks U = A0) as EA.
  { apply leibniz_equiv. intros x. rewrite elem_of_difference, elem_of_union. split; [tauto|]. intros Hx. split; [by right|].
    unfold blocks. rewrite elem_of_list_to_set, list_elem_of_fmap. intros ([p b] & -> & Hp). cbn in Hx.
    apply (Hn p); [|done]. apply list_elem_of_fmap. by exists (p, b). }
  rewrite EA in Hv'. assert (forall t x, t <> d -> G1 !! t = Some Dir -> entry (kmem s') t x = entry (kmem s1) t x) as He.
  { intros t x Ht Hdir. rewrite Ho'; [by apply Hoth|done|by apply Hd]. }
  assert (forall q o, (q, 12) ∈ A0 -> 0 <= o < 4096 -> kmem s' !! (q + o) = kmem s1 !! (q + o)) as Hby.
  { intros q o Hq Hoo. destruct (vm_page _ _ _ _ _ _ _ Hv (elem_of_union_r _ _ _ Hq)) as (_ & Hqlo & _).
    rewrite (pool_frame _ _ _ _ _ _ _ _ Hv Hf') by lia. by apply Hb. }
  exists (forget d G), (F ++ L). split; [done|]. split; [split|done].
  - apply (aspace_other s1 s' G1 _ root Uold A0 A0 Hold); [|done|intros x; apply He; [done|apply Hold]].
    apply forget_keep; [apply Hd; [done|apply Hold]|cbn; by apply Z.eqb_neq].
  - intros x Hx. apply ubyte_same; [done|]. intros [q ap] o Hu Hoo. cbn [fst]. apply Hby; [|done].
    apply (as_owns _ _ _ _ _ Hold), elem_blocks, list_elem_of_fmap. by exists (q, ap).
Qed.

(** copyout: all of it, and then only into pages of the process, or nothing promised of the rest *)
Definition user_page U x : Prop := snd <$> U !! Z.to_nat (x / 4096) = Some AP_RW_1_0.
Lemma holds_ext m U img img' : (forall x, img' x = img x) -> holds m U img -> holds m U img'.
Proof. intros E H x Hx. rewrite E. by apply H. Qed.
Lemma over_nil img a x : over img a [] x = img x.
Proof. unfold over. rewrite decide_False; [done|]. cbn. lia. Qed.
Lemma over_app img a l l' x : over (over img a l) (a + Z.of_nat (length l)) l' x = over img a (l ++ l') x.
Proof.
  unfold over. rewrite length_app. destruct (decide (a + Z.of_nat (length l) <= x < a + Z.of_nat (length l) + Z.of_nat (length l'))).
  - rewrite (decide_True (P := a <= x < _)) by lia. rewrite lookup_app_r by lia. do 2 f_equal. lia.
  - destruct (decide (a <= x < a + Z.of_nat (length l))).
    + rewrite (decide_True (P := a <= x < _)) by lia. by rewrite lookup_app_l by lia.
    + by rewrite decide_False by lia.
Qed.
Lemma live_copyout s G L U img va buf : live s G L U -> holds (kmem s) U img -> Forall is_byte buf -> 0 <= va ->
  va + Z.of_nat (length buf) <= 4096 * Z.of_nat (length U) -> va + Z.of_nat (length buf) < 2 ^ 29 ->
  wp (copyout d va buf) (fun r s' => live s' G L U /\ exists n, holds (kmem s') U (over img va (take n buf)) /\
    (r = 0 /\ (length buf <= n)%nat /\ (forall x, va <= x < va + Z.of_nat (length buf) -> user_page U x) \/ r = -1)) s.
Proof using PL.
  intros Hl Hh Hby Hva Hend Hmax. unfold copyout.
  eapply (wp_loop _ _ _ _ _ (fun v s' => exists (n : nat) a, v = (a, Z.of_nat n, Z.of_nat (length buf - n)) /\ (n <= length buf)%nat /\
    ((n < length buf)%nat -> a = va + Z.of_nat n) /\ (forall x, va <= x < va + Z.of_nat n -> user_page U x) /\ live s' G L U /\ holds (kmem s') U (over img va (take n buf))) (fun v => Z.to_nat (snd v))).
  - exists 0%nat, (u32 va). split; [f_equal; lia|]. split; [lia|]. split; [|split; [lia|split; [done|]]].
    + intros _. unfold u32. rewrite Z.mod_small; lia.
    + eapply holds_ext; [|exact Hh]. intros x. by rewrite take_0, over_nil.
  - cbn [snd]. lia.
  - intros v s' (n & a & -> & Hn & Ha & Hacc & Hl' & Hh'). unfold copyout_body. destruct (decide (n = length buf)) as [->|Hne].
    { rewrite Nat.sub_diag. change (0 <? Z.of_nat 0) with false. cbn iota. wp_step. split; [done|]. exists (length buf). split; [done|]. left. split; [done|]. by split. }
    rewrite Ha by lia. destruct (Z.ltb_spec 0 (Z.of_nat (length buf - n))); [|lia].
    pose proof (Z.div_mod (va + Z.of_nat n) 4096 ltac:(lia)) as Hdm. pose proof (Z.mod_pos_bound (va + Z.of_nat n) 4096 ltac:(lia)) as Hm.
    set (k := (va + Z.of_nat n) / 4096) in *. set (o := (va + Z.of_nat n) mod 4096) in *.
    change PTE_SZ with (2 ^ 12). rewrite align_dn_pow2 by lia. change (2 ^ 12) with 4096. fold k. cbv zeta.
    destruct (lookup_lt_is_Some_2 U (Z.to_nat k)) as [[q ap] Hq]; [lia|]. destruct (live_page _ _ _ _ _ _ _ Hl' Hq) as (_ & Hqo & _).
    pose proof (as_len _ _ _ _ _ (lv_space _ _ _ _ Hl')) as HlenU.
    wp_step. eapply wp_eq; [apply (uva2ka_spec s' G L lo hi _ d U k q ap (lv_vmem _ _ _ _ Hl') (lv_space _ _ _ _ Hl')); [lia|done]|].
    destruct (Z.eqb_spec ap AP_RW_1_0) as [->|_]; cbn [Z.eqb].
    2:{ wp_step. split; [done|]. exists n. split; [done|]. by right. }
    pose proof (page_nz q Hqo) as Hnz. apply Z.eqb_neq in Hnz. rewrite Hnz. replace (va + Z.of_nat n - 4096 * k) with o by lia.
    set (c := Z.min (4096 - o) (Z.of_nat (length buf - n))). assert (0 < c <= 4096 - o /\ c <= Z.of_nat (length buf - n)) as [Hc1 Hc2] by lia.
    rewrite Nat2Z.id. set (l := sub buf n (Z.to_nat c)). assert (Z.of_nat (length l) = c) as Hlen by (unfold l, sub; rewrite length_take, length_drop; lia).
    wp_step. eapply wp_mono; [apply (live_store s' G L U _ k q AP_RW_1_0 o l Hl' Hh'); [lia|done|unfold l, sub; by apply Forall_take, Forall_drop|lia|lia]|].
    cbn beta. intros _ s2 [Hl2 Hh2]. wp_step. split; [|cbn [snd]; unfold u32; rewrite Z.mod_small by lia; lia].
    exists (n + Z.to_nat c)%nat, (4096 * k + 4096). split.
    { f_equal; [f_equal|]; [unfold u32; rewrite Z.mod_small; lia|lia|unfold u32; rewrite Z.mod_small; lia]. }
    split; [lia|]. split; [lia|]. split; [|split; [done|]].
    { intros x Hx. destruct (decide (x < va + Z.of_nat n)); [apply Hacc; lia|]. unfold user_page.
      replace (x / 4096) with k by (Z.div_mod_to_equations; lia). by rewrite Hq. }
    eapply holds_ext; [|exact Hh2]. intros x.
    replace (4096 * k + o) with (va + Z.of_nat (length (take n buf))) by (rewrite length_take; lia). rewrite over_app. f_equal.
    unfold l, sub. by rewrite take_take_drop.
Qed.
End building.
End ExecSpec.
