(* ===== verification/ExecLoad.v ===== *)
(** * Loading the segments of a program (src/src/exec.c, loaduvm of src/src/vm.c)

    What the program headers of a file say the new memory is, as a function of
    the file's bytes, and that the loop over the headers builds exactly that. *)

From S2P Require Import Prelude.
From S2P Require Import Bytes.
From S2P Require Import KString.
From S2P Require Import Mmu.
From S2P Require Import Alloc.
From S2P Require Import Vm.
From S2P Require Import PageTable.
From S2P Require Import UserMem.
From S2P Require Import PtFree.
From S2P Require Import AddrSpace.
From S2P Require Import Exec.
From S2P Require Import ExecSpec.

(** ** What exec relies on of the file system *)

(** what readi returns for a file with bytes [c], and the bytes it stores *)
Definition file_read (c : list Z) (off n : Z) : Z * list Z :=
  if (Z.of_nat (length c) <? off) || (u32 (off + n) <? off) then (-1, [])
  else let m := Z.min n (Z.of_nat (length c) - off) in (m, sub c (Z.to_nat off) (Z.to_nat m)).

Class ExecFsLaws (F : Type) {XF : ExecFs F} : Type := {
  (** [ip] is a reference exec may lock to a file of these bytes; it is locked; it has been put *)
  x_ref : F -> Z -> list Z -> Prop;
  x_locked : F -> Z -> list Z -> Prop;
  x_put : F -> Prop;
  x_ilock_law f ip c : x_ref f ip c -> wp (x_ilock ip) (fun _ f' => x_locked f' ip c) f;
  x_readi_law f ip c off n : x_locked f ip c -> 0 <= off < 2 ^ 32 -> 0 <= n < 2 ^ 31 ->
    wp (x_readi ip off n) (fun r f' => r = file_read c off n /\ x_locked f' ip c) f;
  x_iunlockput_law f ip c : x_locked f ip c -> wp (x_iunlockput ip) (fun _ f' => x_put f') f;
}.

Module ExecLoad.
Import Mmu Vm PageTable UserMem PtFree AddrSpace Exec ExecSpec.

(** ** The memory a file asks for *)

Definition hdr (f : list Z -> option Z) (h : list Z) : Z := default 0 (f h).
(** one program header: the size and the image so far, or no program at all *)
Definition load_one (c h : list Z) (v : Z * image) : option (Z * image) :=
  let '(sz, img) := v : Z * image in
  if negb (hdr ph_type h =? ELF_PROG_LOAD) then Some v else
  let top := hdr ph_vaddr h + hdr ph_memsz h in
  let filesz := hdr ph_filesz h in
  let data := sub c (Z.to_nat (hdr ph_off h)) (Z.to_nat filesz) in
  if (hdr ph_memsz h <? filesz) || (UADDR_SZ <=? top) || (Z.max sz top =? 0) || (Z.of_nat (length data) <? filesz) then None
  else Some (Z.max sz top, over img (hdr ph_vaddr h) data).
(** [n] headers at byte [off] of the file *)
Fixpoint load_segs (c : list Z) (n : nat) (off : Z) (v : Z * image) : option (Z * image) :=
  match n with
  | O => Some v
  | S n =>
      let h := sub c (Z.to_nat off) 56 in
      if (length h <? 56)%nat then None else
      v ← load_one c h v; load_segs c n (off + 56) v
  end.
(** a header the loader gets through without a panic or a wrapped number, asking for [room] pages at most *)
Definition seg_ok (room : Z) (h : list Z) : Prop := hdr ph_type h = ELF_PROG_LOAD -> hdr ph_filesz h <= hdr ph_memsz h ->
  hdr ph_vaddr h mod 4096 = 0 /\ hdr ph_vaddr h + hdr ph_memsz h < 2 ^ 32 /\ hdr ph_off h + hdr ph_filesz h < 2 ^ 32 /\
  (hdr ph_vaddr h + hdr ph_memsz h < UADDR_SZ -> npg (hdr ph_vaddr h + hdr ph_memsz h) <= room).

Lemma field_in n h o : (0 <=? o) && (o + Z.of_nat n <=? Z.of_nat (length h)) = true -> bytes_ok h ->
  exists v, ldn n h o = Some v /\ 0 <= v < 2 ^ (8 * Z.of_nat n).
Proof.
  intros Ho Hby. unfold ldn. rewrite Ho. eexists. split; [done|]. apply andb_true_iff in Ho as [H1%Z.leb_le H2%Z.leb_le].
  assert (length (sub h (Z.to_nat o) n) = n) as Hl by (apply length_sub; lia).
  pose proof (of_le_range (sub h (Z.to_nat o) n) ltac:(by apply Forall_take, Forall_drop)) as Hr. by rewrite Hl in Hr.
Qed.
(** the fields of a whole header *)
Lemma ph_fields h : length h = 56%nat -> bytes_ok h ->
  (ph_type h = Some (hdr ph_type h) /\ ph_off h = Some (hdr ph_off h) /\ ph_vaddr h = Some (hdr ph_vaddr h) /\
   ph_filesz h = Some (hdr ph_filesz h) /\ ph_memsz h = Some (hdr ph_memsz h)) /\
  0 <= hdr ph_off h < 2 ^ 64 /\ 0 <= hdr ph_vaddr h < 2 ^ 64 /\ 0 <= hdr ph_filesz h < 2 ^ 64 /\ 0 <= hdr ph_memsz h < 2 ^ 64.
Proof.
  intros Hl Hby. unfold hdr, ph_type, ph_off, ph_vaddr, ph_filesz, ph_memsz, ld64, ld32.
  destruct (field_in 4 h 0) as (v0 & -> & _); [by rewrite Hl|done|].
  destruct (field_in 8 h 8) as (v1 & -> & H1); [by rewrite Hl|done|]. destruct (field_in 8 h 16) as (v2 & -> & H2); [by rewrite Hl|done|].
  destruct (field_in 8 h 32) as (v3 & -> & H3); [by rewrite Hl|done|]. destruct (field_in 8 h 40) as (v4 & -> & H4); [by rewrite Hl|done|].
  done.
Qed.

Section load.
Context {P F : Type} {PA : PageAlloc P} {PL : PageAllocLaws P} {XF : ExecFs F} {XL : ExecFsLaws F}.
Context (s1 : Vm.st P) (G1 : gmap Z role) (lo hi : Z) (A0 : gset (Z * Z)) (d : Z) (ip : Z) (c : list Z) (p0 : proc).
Hypothesis Hc : bytes_ok c.
Implicit Types (s : Exec.st (P := P) (F := F)).

(** the segment's bytes from the file, a page at a time *)
Lemma loaduvm_spec s G L U img vaddr off sz : live s1 G1 lo hi A0 d (vm s) G L U -> holds (kmem (vm s)) U img -> x_locked (fs s) ip c -> pr s = p0 ->
  0 <= vaddr -> vaddr mod 4096 = 0 -> 0 <= off -> off + sz < 2 ^ 32 -> 0 <= sz -> vaddr + sz <= 4096 * Z.of_nat (length U) ->
  let data := sub c (Z.to_nat off) (Z.to_nat sz) in
  wp (loaduvm d vaddr ip off sz) (fun r s' => live s1 G1 lo hi A0 d (vm s') G L U /\ x_locked (fs s') ip c /\ pr s' = p0 /\
    (r = 0 /\ Z.of_nat (length data) = sz /\ holds (kmem (vm s')) U (over img vaddr data) \/ r = -1 /\ Z.of_nat (length data) < sz)) s.
Proof using Hc PL.
  intros Hl Hh Hlk Hpr Hva Hal Hoff Hend Hsz Htop data. pose proof (as_len _ _ _ _ _ (lv_space _ _ _ _ _ _ _ _ _ _ Hl)) as HlenU.
  unfold loaduvm. change PTE_SZ with 4096. rewrite Hal. wp_step. wp_step; [done|].
  eapply (wp_loop _ _ _ _ _ (fun i s' => exists j : Z, i = 4096 * j /\ 0 <= j /\ live s1 G1 lo hi A0 d (vm s') G L U /\ x_locked (fs s') ip c /\ pr s' = p0 /\
    i < sz + 4096 /\
    let l := sub c (Z.to_nat off) (Z.to_nat (Z.min i sz)) in Z.of_nat (length l) = Z.min i sz /\ holds (kmem (vm s')) U (over img vaddr l))
    (fun i => Z.to_nat (sz - i))).
  - exists 0. do 5 (split; [done|]). split; [lia|]. rewrite Z.min_l by lia. split; [done|].
    eapply holds_ext; [|exact Hh]. intros x. apply over_nil.
  - lia.
  - intros i s' (j & -> & Hj & Hl' & Hlk' & Hpr' & Hi & Hlen & Hh'). unfold loaduvm_body.
    destruct (Z.ltb_spec (4096 * j) sz) as [Hlt|Hge].
    2:{ wp_step. rewrite Z.min_r in Hlen, Hh' by lia. do 3 (split; [done|]). left. done. }
    rewrite Z.min_l in Hlen, Hh' by lia. set (l0 := sub c (Z.to_nat off) (Z.to_nat (4096 * j))) in *.
    pose proof (Z.div_mod vaddr 4096 ltac:(lia)) as Hdm. rewrite Hal in Hdm. pose proof (Z.div_pos vaddr 4096 Hva ltac:(lia)) as Hq0. set (k := vaddr / 4096 + j).
    assert (vaddr + 4096 * j = 4096 * k) as Ek by (unfold k; lia). rewrite Ek.
    destruct (lookup_lt_is_Some_2 U (Z.to_nat k)) as [[q ap] Hq]; [lia|].
    destruct (live_page _ _ _ _ _ _ _ _ _ _ _ _ _ Hl' Hq) as (_ & Hqo & _). pose proof (lv_space _ _ _ _ _ _ _ _ _ _ Hl') as Has.
    destruct (walk_page (vm s') G L d U _ k q ap (vm_space _ _ _ _ _ _ (lv_vmem _ _ _ _ _ _ _ _ _ _ Hl')) Has ltac:(lia) Hq Hqo) as (pte & Hrun & Hnz & Hw & Hap).
    destruct (user_entry q ap Hqo Hap) as (_ & Haddr & _ & _ & Hu32 & _ & Hpv).
    assert (u64 (4096 * k) = 4096 * k) as -> by (apply Z.mod_small; lia).
    wp_step. apply wp_zoom. eapply wp_eq; [exact Hrun|]. cbn beta. wp_step. wp_step; [by apply Z.eqb_neq|].
    wp_step. apply wp_zoom. eapply ld64_wp; [exact Hw|]. rewrite Haddr, Hu32, Hpv.
    assert ((if u32 (sz - 4096 * j) <? PTE_SZ then u32 (sz - 4096 * j) else PTE_SZ) = Z.min 4096 (sz - 4096 * j)) as ->.
    { change PTE_SZ with 4096. unfold u32. rewrite Z.mod_small by lia. destruct (Z.ltb_spec (sz - 4096 * j) 4096); lia. }
    set (n := Z.min 4096 (sz - 4096 * j)). assert (u32 (off + 4096 * j) = off + 4096 * j) as -> by (apply Z.mod_small; lia).
    wp_step. apply wp_zoom. eapply wp_mono; [apply (x_readi_law _ ip c); [exact Hlk'|lia|lia]|]. cbn beta. intros [r l] f [E Hlk2].
    unfold file_read in E. assert (u32 (off + 4096 * j + n) = off + 4096 * j + n) as Eu by (apply Z.mod_small; lia). rewrite Eu in E.
    destruct (Z.ltb_spec (off + 4096 * j + n) (off + 4096 * j)); [lia|]. rewrite orb_false_r in E.
    assert (forall m, 0 <= m -> Z.of_nat (length (sub c (Z.to_nat off) (Z.to_nat m))) = Z.max 0 (Z.min m (Z.of_nat (length c) - off))) as Hsub.
    { intros m Hm. unfold sub. rewrite length_take, length_drop. lia. }
    assert (Z.of_nat (length l) <= n /\ bytes_ok l /\ (r = n -> l = sub c (Z.to_nat (off + 4096 * j)) (Z.to_nat n) /\ off + 4096 * j + n <= Z.of_nat (length c)) /\
      (r <> n -> Z.of_nat (length c) < off + 4096 * j + n)) as (Hl1 & Hl2 & Hl3 & Hl4).
    { destruct (Z.ltb_spec (Z.of_nat (length c)) (off + 4096 * j)); injection E as -> ->.
      - split; [cbn; lia|]. split; [by constructor|]. split; lia.
      - split; [rewrite length_sub; lia|]. split; [by apply Forall_take, Forall_drop|]. split; [|lia]. intros En. split; [by rewrite En|lia]. }
    wp_step. apply wp_zoom. change (lget vm_lens (lset fs_lens f s')) with (vm s').
    rewrite <-(Z.add_0_r q). eapply wp_mono; [apply (live_store _ _ _ _ _ _ (vm s') G L U _ k q ap 0 l Hl' Hh' ltac:(lia) Hq Hl2); lia|].
    cbn beta. intros _ v2 [Hl2' Hh2]. destruct (Z.eqb_spec r n) as [->|Hrn]; cbn [negb].
    + destruct (Hl3 eq_refl) as [-> Hcl]. wp_step. unfold set_llvaddr. wp_step. wp_step.
      assert (u32 (4096 * j + PTE_SZ) = 4096 * (j + 1)) as -> by (change PTE_SZ with 4096; unfold u32; rewrite Z.mod_small; lia). split; [|lia].
      exists (j + 1). split; [done|]. split; [lia|]. split; [exact Hl2'|].
      split; [exact Hlk2|]. split; [exact Hpr'|]. split; [lia|].
      assert (Z.min (4096 * (j + 1)) sz = 4096 * j + n) as -> by lia. split; [rewrite Hsub; lia|].
      eapply holds_ext; [|exact Hh2]. intros x. replace (4096 * k + 0) with (vaddr + Z.of_nat (length l0)) by lia. rewrite over_app. f_equal. unfold l0.
      rewrite !Z2Nat.inj_add by lia. apply sub_app.
    + wp_step. split; [exact Hl2'|]. split; [exact Hlk2|]. split; [exact Hpr'|]. right. split; [done|].
      specialize (Hl4 Hrn). unfold data. rewrite Hsub by lia. lia.
Qed.

(** the pages [U] hold [sz] bytes of [img]; the list of table pages is enough for [room] pages *)
Record built (room : Z) (v : Vm.st P) G L U sz img : Prop := {
  bu_live : live s1 G1 lo hi A0 d v G L U;
  bu_holds : holds (kmem v) U img;
  bu_ends : ends img (4096 * Z.of_nat (length U));
  bu_pages : npg sz = Z.of_nat (length U);
  bu_size : 0 <= sz < UADDR_SZ;
  bu_fresh : U = fresh (fst <$> U);
  bu_tables : 2 * room <= Z.of_nat (length L) + 2 * Z.of_nat (length U);
}.
Lemma npg_mono a b : a <= b -> npg a <= npg b.
Proof. intros H. unfold npg. apply Z.div_le_mono; lia. Qed.
Lemma built_grow room v G L U sz img newsz : built room v G L U sz img -> 0 <= newsz -> (newsz < UADDR_SZ -> npg newsz <= room) ->
  wp (allocuvm d sz newsz) (fun r v' =>
    (newsz < UADDR_SZ /\ r = Z.max sz newsz /\ exists N G' L', built room v' G' L' (U ++ fresh N) r img) \/
    r = 0 /\ exists G' L', live s1 G1 lo hi A0 d v' G' L' U) v.
Proof using PL.
  intros [Hl Hh He Hpg Hsz Hfr HL] Hnew Hroom. assert (UADDR_SZ < 2 ^ 31) as HU by done. destruct (Z.leb_spec UADDR_SZ newsz) as [Hge|Hlt].
  { unfold allocuvm. destruct (Z.leb_spec UADDR_SZ newsz); [|lia]. wp_step. right. split; [done|]. by exists G, L. }
  destruct (Z.ltb_spec newsz sz) as [Hless|Hmore].
  { unfold allocuvm. destruct (Z.leb_spec UADDR_SZ newsz); [lia|]. destruct (Z.ltb_spec newsz sz); [|lia]. wp_step. left. split; [done|].
    assert (s32 sz = sz) as -> by (unfold s32; rewrite Z.mod_small by lia; lia). split; [lia|]. exists [], G, L. by rewrite app_nil_r. }
  specialize (Hroom Hlt). pose proof (npg_mono sz newsz Hmore).
  eapply wp_mono; [apply (live_grow s1 G1 lo hi A0 d v G L U img sz newsz Hl Hh He); lia|]. cbn beta.
  intros r v' [(N & G' & L' & -> & Hpg' & Hl' & Hh' & HLL)|[-> Hf]]; [left|by right]. split; [done|]. split; [lia|].
  exists N, G', L'. constructor; try done.
  - intros x Hx. apply He. rewrite length_app in Hx. lia.
  - by rewrite fmap_app, fst_fresh, fresh_app, <-Hfr.
  - rewrite length_app, length_fresh. lia.
Qed.

Definition loading (room : Z) s G L U (v : Z * image) : Prop := built room (vm s) G L U (fst v) (snd v) /\ x_locked (fs s) ip c /\ pr s = p0.
Definition load_failed s : Prop := exists G L U, live s1 G1 lo hi A0 d (vm s) G L U /\ x_locked (fs s) ip c /\ pr s = p0.

Lemma ends_over img n a l : ends img n -> a + Z.of_nat (length l) <= n -> ends (over img a l) n.
Proof. intros He Hl x Hx. unfold over. rewrite decide_False by lia. by apply He. Qed.
Lemma npg_ge sz n : npg sz = n -> sz <= 4096 * n.
Proof. intros <-. unfold npg. Z.div_mod_to_equations. lia. Qed.

Lemma seg_step room s G L U v phnum i off : loading room s G L U v -> i < phnum -> 0 <= off -> off + 56 < 2 ^ 31 ->
  let h := sub c (Z.to_nat off) 56 in (length h = 56%nat -> seg_ok room h) ->
  wp (exec_seg ip d phnum (i, off, fst v)) (fun r s' =>
    (length h = 56%nat /\ exists v', load_one c h v = Some v' /\ r = inl (i + 1, off + 56, fst v') /\ exists G' L' U', loading room s' G' L' U' v') \/
    r = inr None /\ load_failed s') s.
Proof using Hc PL.
  intros (Hb & Hlk & Hpr) Hi Hoff Hoff' h Hseg. destruct v as [sz img]. cbn [fst snd] in *. assert (UADDR_SZ < 2 ^ 31) as HU by done.
  unfold exec_seg. destruct (Z.ltb_spec i phnum); [|lia]. change sizeof_proghdr with 56.
  assert (u32 off = off) as -> by (apply Z.mod_small; lia).
  wp_step. apply wp_zoom. eapply wp_mono; [apply (x_readi_law _ ip c); [exact Hlk|lia|lia]|]. cbn beta. intros [r l] f [E Hlk1].
  set (s' := lset fs_lens f s). assert (load_failed s') as Hfail by (exists G, L, U; split; [apply (bu_live _ _ _ _ _ _ _ Hb)|done]).
  assert (r = 56 -> l = h /\ length h = 56%nat) as Hl.
  { unfold file_read in E. assert (u32 (off + 56) = off + 56) as Eu by (apply Z.mod_small; lia). rewrite Eu in E.
    destruct (Z.ltb_spec (off + 56) off); [lia|]. rewrite orb_false_r in E. destruct (Z.ltb_spec (Z.of_nat (length c)) off); injection E as -> ->; [done|].
    intros Er. rewrite Er. split; [done|]. apply length_sub. lia. }
  clear E. destruct (Z.eqb_spec r 56) as [->|]; cbn [negb]; [|wp_step; by right]. destruct (Hl eq_refl) as [-> Hlen]. clear Hl. specialize (Hseg Hlen).
  assert (bytes_ok h) as Hbh by (by apply Forall_take, Forall_drop).
  destruct (ph_fields h Hlen Hbh) as ((Ety & Eoff & Eva & Efs & Ems) & Roff & Rva & Rfs & Rms).
  assert (forall v' (Q : Z * Z * Z + option Z -> Exec.st -> Prop) s2, load_one c h (sz, img) = Some v' -> Q (inl (i + 1, off + 56, fst v')) s2 ->
    wp (mret (inl (i + 1, s32 (off + 56), fst v'))) Q s2) as Hnext.
  { intros v' Q s2 _ HQ. wp_step. assert (s32 (off + 56) = off + 56) as -> by (unfold s32; rewrite Z.mod_small by lia; lia). exact HQ. }
  unfold field. wp_step. eapply wp_deref; [exact Ety|]. unfold load_one in *.
  destruct (Z.eqb_spec (hdr ph_type h) ELF_PROG_LOAD) as [Hty|Hty]; cbn [negb] in *.
  2:{ apply (Hnext (sz, img)); [done|]. left. split; [done|]. exists (sz, img). split; [done|]. split; [done|]. exists G, L, U. done. }
  wp_step. eapply wp_deref; [exact Ems|]. wp_step. eapply wp_deref; [exact Efs|].
  destruct (Z.ltb_spec (hdr ph_memsz h) (hdr ph_filesz h)) as [Hlt|Hge]; cbn [orb] in *; [wp_step; by right|].
  destruct (Hseg Hty ltac:(lia)) as (Hal & Hwrap & Hoffw & Htop). set (va := hdr ph_vaddr h) in *. set (msz := hdr ph_memsz h) in *. set (fsz := hdr ph_filesz h) in *.
  wp_step. eapply wp_deref; [exact Eva|]. assert (u32 (va + msz) = va + msz) as -> by (apply Z.mod_small; lia).
  pose proof (bu_size _ _ _ _ _ _ _ Hb) as Hsz. assert (u32 sz = sz) as -> by (apply Z.mod_small; lia).
  wp_step. apply wp_zoom. change (lget vm_lens s') with (vm s). eapply wp_mono; [apply (built_grow room (vm s) G L U sz img (va + msz) Hb); [lia|done]|].
  cbn beta. intros r v1 [(Hlt & -> & N & G' & L' & Hb1)|(-> & G' & L' & Hl1)].
  2:{ cbn [Z.eqb]. wp_step. right. split; [done|]. by exists G', L', U. }
  destruct (Z.leb_spec UADDR_SZ (va + msz)); [lia|]. cbn [orb] in *. set (top := Z.max sz (va + msz)) in *.
  set (s2 := lset vm_lens v1 s'). destruct (Z.eqb_spec top 0) as [Htop0|Htop0].
  { wp_step. right. split; [done|]. exists G', L', (U ++ fresh N). split; [apply (bu_live _ _ _ _ _ _ _ Hb1)|done]. }
  cbn [orb] in *. wp_step. eapply wp_deref; [exact Eoff|]. set (o := hdr ph_off h) in *.
  assert (u32 o = o) as -> by (apply Z.mod_small; lia). assert (u32 fsz = fsz) as -> by (apply Z.mod_small; lia).
  pose proof (npg_ge _ _ (bu_pages _ _ _ _ _ _ _ Hb1)) as Hpages. wp_step.
  eapply wp_mono; [apply (loaduvm_spec s2 G' L' (U ++ fresh N) img va o fsz (bu_live _ _ _ _ _ _ _ Hb1) (bu_holds _ _ _ _ _ _ _ Hb1) Hlk1 Hpr); lia|].
  cbn beta. intros r s3 (Hl3 & Hlk3 & Hpr3 & [(-> & Hdata & Hh3)|(-> & Hdata)]).
  - cbn [Z.ltb Z.compare]. assert (u64 top = top) as -> by (apply Z.mod_small; lia).
    destruct (Z.ltb_spec (Z.of_nat (length (sub c (Z.to_nat o) (Z.to_nat fsz)))) fsz); [lia|].
    apply (Hnext (top, over img va (sub c (Z.to_nat o) (Z.to_nat fsz)))); [done|]. left. split; [done|]. eexists. split; [done|]. split; [done|].
    exists G', L', (U ++ fresh N). split; [|done]. cbn [fst snd]. destruct Hb1 as [_ _ He1 Hp1 Hs1 Hf1 Ht1]. constructor; try done.
    apply ends_over; [done|]. lia.
  - change (-1 <? 0) with true. cbn iota. wp_step. right. split; [done|]. by exists G', L', (U ++ fresh N).
Qed.

(** the loop over the headers *)
Lemma segs_spec room s G L U phnum phoff : loading room s G L U (0, fun _ => 0) -> 0 <= phnum -> 0 <= phoff -> phoff + 56 * phnum < 2 ^ 31 ->
  (forall i, 0 <= i < phnum -> let h := sub c (Z.to_nat (phoff + 56 * i)) 56 in length h = 56%nat -> seg_ok room h) ->
  wp (loop (S (Z.to_nat phnum)) (exec_seg ip d phnum) (0, phoff, 0)) (fun r s' =>
    (exists v, r = Some (fst v) /\ load_segs c (Z.to_nat phnum) phoff (0, fun _ => 0) = Some v /\ exists G' L' U', loading room s' G' L' U' v) \/
    r = None /\ load_failed s') s.
Proof using Hc PL.
  intros Hld Hn Hoff Hmax Hseg. set (v0 := (0, fun _ => 0) : Z * image). set (all := load_segs c (Z.to_nat phnum) phoff v0).
  eapply (wp_loop _ _ _ _ _ (fun x s' => exists i v, x = (i, phoff + 56 * i, fst v) /\ 0 <= i <= phnum /\
    load_segs c (Z.to_nat (phnum - i)) (phoff + 56 * i) v = all /\ exists G' L' U', loading room s' G' L' U' v) (fun x => Z.to_nat (phnum - fst (fst x)))).
  - exists 0, v0. split; [by rewrite Z.mul_0_r, Z.add_0_r|]. split; [lia|]. split; [by rewrite Z.mul_0_r, Z.add_0_r, Z.sub_0_r|]. by exists G, L, U.
  - cbn. lia.
  - intros x s' (i & v & -> & Hi & Hall & G' & L' & U' & Hld'). destruct (Z.ltb_spec i phnum) as [Hlt|Hge].
    + eapply wp_mono; [apply (seg_step room s' G' L' U' v phnum i (phoff + 56 * i) Hld'); [done|lia|lia|exact (Hseg i ltac:(lia))]|].
      cbn beta zeta. intros r s2 [(Hlen & v' & Hone & -> & Hld2)|[-> Hf]]; [|by right]. cbn beta iota. cbn [fst]. split; [|lia].
      exists (i + 1), v'. split; [do 2 f_equal; lia|]. split; [lia|]. split; [|done]. rewrite <-Hall.
      replace (Z.to_nat (phnum - i)) with (S (Z.to_nat (phnum - (i + 1)))) by lia. cbn [load_segs]. rewrite Hlen. change (56 <? 56)%nat with false. cbn iota.
      rewrite Hone. cbn [mbind option_bind]. f_equal. lia.
    + unfold exec_seg. destruct (Z.ltb_spec i phnum); [lia|]. wp_step. left. exists v. split; [done|]. split; [|by exists G', L', U'].
      rewrite <-Hall. by replace (Z.to_nat (phnum - i)) with O by lia.
Qed.
End load.
End ExecLoad.
