(* ===== verification/ExecCorrect.v ===== *)
(** * exec() as a whole (src/src/exec.c)

    The stack of the new program, and the theorem that exec() replaces the
    address space of the process by the one its file and arguments describe,
    or leaves it alone. *)

From S2P Require Import Prelude.
From S2P Require Import Bytes.
From S2P Require Import KString.
From S2P Require Import Mmu.
From S2P Require Import Buddy.
From S2P Require Import Alloc.
From S2P Require Import Vm.
From S2P Require Import PageTable.
From S2P Require Import UserMem.
From S2P Require Import PtFree.
From S2P Require Import AddrSpace.
From S2P Require Import Exec.
From S2P Require Import ExecSpec.
From S2P Require Import ExecLoad.

Module ExecCorrect.
Import Mmu Alloc Vm PageTable UserMem PtFree AddrSpace Exec ExecSpec ExecLoad.

(** ** The arguments on the stack *)

(** each string and its NUL below the last, at a multiple of 8: the stack pointer, the addresses, the image *)
Definition push1 (a : list Z) (v : Z * list Z * image) : Z * list Z * image :=
  let '(sp, ps, img) := v : Z * list Z * image in
  let sp := 8 * ((sp - (Z.of_nat (length a) + 1)) / 8) in (sp, ps ++ [sp], over img sp (a ++ [0])).
Fixpoint push (argv : list (list Z)) (v : Z * list Z * image) : Z * list Z * image :=
  match argv with [] => v | a :: argv => push argv (push1 a v) end.
(** and the table of the addresses below them *)
Definition push_args (argv : list (list Z)) (top : Z) (img : image) : Z * image :=
  let '(sp, ps, img) := push argv (top, [], img) in
  let sp := sp - 8 * (Z.of_nat (length argv) + 1) in (sp, over img sp (concat (le 8 <$> (ps ++ [0])))).

Lemma push_snoc argv a v : push (argv ++ [a]) v = push1 a (push argv v).
Proof. revert v. induction argv as [|b argv IH]; intros v; [done|]. apply IH. Qed.

(** ** The name of the process *)

(** the last element of a path: what follows its last slash *)
Lemma base_name_last pre x s : 47 ∉ x -> exists pre', pre ++ x ++ s = pre' ++ base_name (x ++ s) s /\ (47 ∉ base_name (x ++ s) s) /\
  (pre' = pre \/ (exists q, pre' = q ++ [47])).
Proof.
  revert pre x. induction s as [|b s IH]; intros pre x Hx; cbn [base_name].
  - rewrite app_nil_r. exists pre. split; [done|]. split; [done|]. by left.
  - destruct (Z.eqb_spec b 47) as [->|Hb].
    + destruct (IH (pre ++ x ++ [47]) [] ltac:(by intros ?%elem_of_nil)) as (pre' & E & H47 & Hp). exists pre'. split; [|split; [done|]].
      * cbn [app] in E. rewrite <-E. by rewrite <-!app_assoc.
      * right. destruct Hp as [->|Hp]; [|done]. exists (pre ++ x). by rewrite <-app_assoc.
    + destruct (IH pre (x ++ [b])) as (pre' & E & H). { rewrite elem_of_app, list_elem_of_singleton. by intros [?|?]. }
      rewrite <-!app_assoc in E, H. cbn [app] in E, H. by exists pre'.
Qed.
(** a name field: the name, a NUL, and anything *)
Definition named (f l : list Z) : Prop := length f = 16%nat /\ take (S (length l)) f = l ++ [0].
Lemma save_name_spec name last : length name = 16%nat -> bytes_ok last -> 0 ∉ last -> exists f, save_name name last = Some f /\ named f (take 15 last).
Proof.
  intros Hn Hby H0. unfold save_name. set (m := write_bytes (write_bytes ∅ 0 name) 100 (last ++ [0])). set (l := take 15 last).
  assert (bytes_at m 100 (last ++ [0])) as Hat.
  { intros i x Hi. unfold m. rewrite lookup_write_bytes. pose proof (lookup_lt_Some _ _ _ Hi). rewrite decide_True by lia. by replace (Z.to_nat (100 + Z.of_nat i - 100)) with i by lia. }
  assert (mapped m 0 (Z.to_nat 16)) as Hm.
  { intros i Hi. unfold m. rewrite lookup_write_bytes. rewrite decide_False by lia. rewrite lookup_write_bytes. rewrite decide_True by lia. apply lookup_lt_is_Some_2. lia. }
  pose proof (cstr_name_at m 100 15 last (conj Hat H0)) as Hna. fold l in Hna.
  assert (length l <= 15)%nat as Hl by (unfold l; rewrite length_take; lia).
  rewrite (safestrcpy_field m 0 100 16 l ltac:(lia) Hna ltac:(by apply Forall_take) Hm ltac:(lia)).
  set (g := safe_field (Z.to_nat 16) l). set (m' := write_bytes m 0 g).
  assert (length g <= 16)%nat as Hg by (unfold g, safe_field; rewrite length_app, length_replicate; lia).
  destruct (mapM (fun i => m' !! i) (seqZ 0 16)) as [f|] eqn:Ef.
  2:{ exfalso. apply mapM_None in Ef. apply Exists_exists in Ef as (i & Hi & Hno). apply elem_of_seqZ in Hi.
      destruct (mapped_write m 0 (Z.to_nat 16) 0 g Hm (Z.to_nat i) ltac:(lia)) as [b Hb]. replace (0 + Z.of_nat (Z.to_nat i)) with i in Hb by lia. fold m' in Hb. congruence. }
  exists f. split; [done|]. apply mapM_Some in Ef. pose proof (Forall2_length _ _ _ Ef) as Hlf. rewrite length_seqZ in Hlf. split; [lia|].
  apply list_eq. intros i. destruct (decide (i < S (length l))%nat) as [Hi|Hi].
  2:{ rewrite !(proj2 (lookup_ge_None _ _)); [done| |]; rewrite ?length_take, ?length_app; cbn [length]; lia. }
  rewrite lookup_take_lt by done. destruct (lookup_lt_is_Some_2 f i) as [x Hx]; [lia|]. rewrite Hx.
  destruct (Forall2_lookup_r _ _ _ _ _ Ef Hx) as (k & Hk & Hmk). apply lookup_seqZ in Hk as [-> Hk]. cbn beta in Hmk. rewrite <-Hmk. unfold m'.
  rewrite lookup_write_bytes. assert (length l < length g)%nat by (unfold g, safe_field; rewrite length_app, length_replicate; lia).
  rewrite decide_True by lia. replace (Z.to_nat (0 + Z.of_nat i - 0)) with i by lia. unfold g, safe_field.
  destruct (decide (i < length l)%nat); [by rewrite !lookup_app_l by lia|]. rewrite !lookup_app_r by lia. replace (i - length l)%nat with O by lia.
  destruct (Nat.min 2 (Z.to_nat 16 - length l)) eqn:E; [lia|done].
Qed.

Section stack.
Context {P F : Type} {PA : PageAlloc P} {PL : PageAllocLaws P} {XF : ExecFs F}.
Context (s1 : Vm.st P) (G1 : gmap Z role) (lo hi : Z) (A0 : gset (Z * Z)) (d : Z).
Implicit Types (s : Exec.st (P := P) (F := F)).

(** the pages [U] with a stack page from [bot] to [top], and a guard page below it *)
Record stacked U (bot : Z) : Prop := {
  sk_bot : bot mod 4096 = 0;
  sk_low : 4096 <= bot;
  sk_top : bot + 4096 = 4096 * Z.of_nat (length U);
  sk_guard x : bot - 4096 <= x < bot -> ~ user_page U x;
}.

Definition pushed G L U bot img0 argv (s : Exec.st (P := P) (F := F)) (j : nat) (v : Z * Z * list Z) s' : Prop := exists sp ps img vm',
  v = (Z.of_nat j, sp, ps ++ replicate (36 - j) 0) /\ push (take j argv) (bot + 4096, [], img0) = (sp, ps, img) /\ length ps = j /\ (j <= 32)%nat /\
  (j <= length argv)%nat /\ bot <= sp <= bot + 4096 /\ sp mod 8 = 0 /\ s' = lset vm_lens vm' s /\
  live s1 G1 lo hi A0 d vm' G L U /\ holds (kmem vm') U img.

Lemma arg_step G L U bot img0 argv s j v s' : Z.of_nat (length U) <= 2 ^ 16 -> stacked U bot -> Forall bytes_ok argv ->
  Forall (fun a => Z.of_nat (length a) + 8 <= bot) argv -> pushed G L U bot img0 argv s j v s' ->
  wp (exec_arg d argv v) (fun r s2 => match r with
    | inl v' => (j < length argv)%nat /\ pushed G L U bot img0 argv s (S j) v' s2
    | inr (Some v') => v' = v /\ j = length argv /\ s2 = s'
    | inr None => exists vm', s2 = lset vm_lens vm' s /\ live s1 G1 lo hi A0 d vm' G L U
    end) s'.
Proof using PL.
  intros HlenU [Hbot Hlow Htop Hguard] Hby Hfit (sp & ps & img & vm' & -> & Hpush & Hps & Hj & Hja & Hsp & Hsp8 & -> & Hl & Hh).
  unfold exec_arg. rewrite Nat2Z.id. destruct (argv !! j) as [a|] eqn:Ea.
  2:{ wp_step. split; [done|]. split; [|done]. apply lookup_ge_None in Ea. lia. }
  change MAXARG with 32. destruct (Z.leb_spec 32 (Z.of_nat j)); [wp_step; by exists vm'|].
  pose proof (Forall_lookup_1 _ _ _ _ Hby Ea) as Hba. pose proof (Forall_lookup_1 _ _ _ _ Hfit Ea) as Hfa. cbn beta in Hfa. set (n := Z.of_nat (length a) + 1) in *.
  assert (Z.land (u64 (sp - n)) (u64 (Z.lnot 7)) = 8 * ((sp - n) / 8)) as ->.
  { exact (align_dn_pow2 (sp - n) 3 ltac:(lia) ltac:(lia)). }
  set (sp' := 8 * ((sp - n) / 8)). assert (0 <= sp' /\ sp - n - 7 <= sp' <= sp - n) as [Hsp0 Hsp'] by (unfold sp'; Z.div_mod_to_equations; lia).
  assert (Z.of_nat (length (a ++ [0])) = n) as Hlen by (rewrite length_app; unfold n; cbn; lia).
  wp_step. apply wp_zoom. eapply wp_mono; [apply (live_copyout s1 G1 lo hi A0 d vm' G L U img sp' (a ++ [0]) Hl Hh)|].
  { apply Forall_app. split; [done|]. by repeat constructor. } { done. } { lia. } { lia. }
  cbn beta. intros r v2 (Hl2 & m & Hh2 & [(-> & Hm & Hacc)| ->]).
  2:{ change (-1 <? 0) with true. cbn iota. wp_step. by exists v2. }
  change (0 <? 0) with false. cbn iota. wp_step. split; [apply lookup_lt_Some in Ea; lia|]. rewrite Hlen in Hacc. rewrite firstn_all2 in Hh2 by done.
  assert (sp' mod 8 = 0) as Hal by (unfold sp'; rewrite Z.mul_comm; apply Z_mod_mult).
  exists sp', (ps ++ [sp']), (over img sp' (a ++ [0])), v2. split; [|split; [|split; [|split; [|split; [|split; [|split; [|split]]]]]]].
  - f_equal; [f_equal; lia|]. assert (36 - j = S (36 - S j))%nat as -> by lia. cbn [replicate].
    unfold put. rewrite insert_app_r_alt by lia. rewrite Nat2Z.id, Hps, Nat.sub_diag. cbn. by rewrite <-app_assoc.
  - by rewrite (take_S_r _ _ _ Ea), push_snoc, Hpush.
  - rewrite length_app. cbn. lia.
  - lia.
  - apply lookup_lt_Some in Ea. lia.
  - split; [|lia]. destruct (Z.leb_spec bot sp') as [|Hbad]; [done|exfalso]. apply (Hguard (Z.min (bot - 1) (sp' + n - 1))); [lia|]. apply Hacc. lia.
  - done.
  - done.
  - done.
Qed.

Lemma args_spec G L U bot img0 argv s vm0 : Z.of_nat (length U) <= 2 ^ 16 -> stacked U bot -> Forall bytes_ok argv ->
  Forall (fun a => Z.of_nat (length a) + 8 <= bot) argv -> live s1 G1 lo hi A0 d vm0 G L U -> holds (kmem vm0) U img0 ->
  wp (loop (S (S (Z.to_nat MAXARG))) (exec_arg d argv) (0, bot + 4096, replicate (Z.to_nat (3 + MAXARG + 1)) 0)) (fun r s' => match r with
    | Some v => pushed G L U bot img0 argv s (length argv) v s'
    | None => exists vm', s' = lset vm_lens vm' s /\ live s1 G1 lo hi A0 d vm' G L U
    end) (lset vm_lens vm0 s).
Proof using PL.
  intros HlenU Hst Hby Hfit Hl Hh.
  apply (wp_loop _ _ _ _ _ (fun v s' => exists j, pushed G L U bot img0 argv s j v s') (fun v => Z.to_nat (32 - fst (fst v)))).
  - exists O, (bot + 4096), [], img0, vm0. pose proof (sk_bot _ _ Hst) as Hb. pose proof (sk_low _ _ Hst).
    do 4 (split; [done || lia|]). split; [lia|]. split; [lia|]. split; [|done]. Z.div_mod_to_equations. lia.
  - change MAXARG with 32. cbn [fst]. lia.
  - intros v s' (j & Hp). eapply wp_mono; [by apply (arg_step G L U bot img0 argv s j v s')|]. cbn beta. intros [v'|[v'|]] s2 H; [|destruct H as (-> & -> & ->)|done].
    + destruct H as [_ Hp']. split; [by exists (S j)|]. destruct Hp as (? & ? & ? & ? & -> & _). destruct Hp' as (? & ? & ? & ? & -> & _ & _ & Hj & _).
      cbn [fst]. lia.
    + done.
Qed.

(** a page made the guard of a stack *)
Lemma stacked_guarded N sz : npg sz + 2 = Z.of_nat (length N) -> 0 <= sz -> stacked (guarded (fresh N) (Z.to_nat (npg sz))) (4096 * (npg sz + 1)).
Proof.
  intros HN Hsz. assert (0 <= npg sz) as Hp by (unfold npg; apply Z.div_pos; lia). constructor.
  - rewrite Z.mul_comm. apply Z_mod_mult.
  - lia.
  - unfold guarded. rewrite length_alter, length_fresh. lia.
  - intros x Hx. unfold user_page. replace (x / 4096) with (npg sz) by (Z.div_mod_to_equations; lia). unfold guarded.
    rewrite list_lookup_alter_eq. by destruct (fresh N !! Z.to_nat (npg sz)).
Qed.

(** the old address space given back, the new one in place *)
Definition replaced root Uold U img v' : Prop := exists G' L', vmem v' G' L' lo hi (blocks U ∪ (A0 ∖ blocks Uold)) /\
  aspace v' G' d U (blocks U ∪ (A0 ∖ blocks Uold)) /\ holds (kmem v') U img /\
  (forall t x, t <> d -> t <> root -> G1 !! t = Some Dir -> entry (kmem v') t x = entry (kmem s1) t x) /\
  forall q o, (q, 12) ∈ A0 ∖ blocks Uold -> 0 <= o < 4096 -> kmem v' !! (q + o) = kmem s1 !! (q + o).
Lemma live_replace v G L U root Uold img : live s1 G1 lo hi A0 d v G L U -> aspace s1 G1 root Uold A0 -> root <> d -> holds (kmem v) U img ->
  wp (freevm root) (fun _ v' => replaced root Uold U img v') v.
Proof using PL.
  intros Hl Hold Hne Hh. pose proof Hl as [Hv Has Hn Hd Hoth Hb].
  assert (aspace v G root Uold (blocks U ∪ A0)) as Hold'.
  { apply (aspace_other s1 v G1 G root Uold A0 _ Hold); [apply Hd; [done|apply Hold]|by apply union_subseteq_r|]. intros x. apply Hoth; [done|apply Hold]. }
  eapply wp_mono; [apply (freevm_spec v G L lo hi _ root Uold Hv Hold')|]. cbn beta. intros _ v' (F' & Hv' & _ & _ & Hf' & Ho').
  assert ((blocks U ∪ A0) ∖ blocks Uold = blocks U ∪ (A0 ∖ blocks Uold)) as EA.
  { apply leibniz_equiv. intros x. rewrite elem_of_difference, !elem_of_union, elem_of_difference. split; [tauto|]. intros [Hx|?]; [|tauto]. split; [by left|].
    intros Hxo. apply (as_owns _ _ _ _ _ Hold) in Hxo. unfold blocks in Hx. rewrite elem_of_list_to_set, list_elem_of_fmap in Hx. destruct Hx as ([p b] & -> & Hp).
    apply (Hn p); [|done]. apply list_elem_of_fmap. by exists (p, b). }
  rewrite EA in Hv'. exists (forget root G), (F' ++ L). split; [done|].
  assert (forall q, (q, 12) ∈ blocks U ∪ A0 -> forall o, 0 <= o < 4096 -> kmem v' !! (q + o) = kmem v !! (q + o)) as Hkeep.
  { intros q Hq o Hoo. destruct (vm_page _ _ _ _ _ _ _ Hv Hq) as (_ & Hqlo & _). apply (pool_frame _ _ _ _ _ _ _ _ Hv Hf'). lia. }
  split; [|split; [|split]].
  - destruct Has as [Hr He Hlen Hperm Hnd Hown]. constructor; try done.
    + apply forget_keep; [done|]. cbn. apply Z.eqb_neq. done.
    + intros k Hk. rewrite Ho' by done. by apply He.
    + apply union_subseteq_l.
  - intros x Hx. rewrite <-(Hh x Hx). apply ubyte_same; [lia|]. intros [q ap] o Hu Hoo. cbn [fst]. apply Hkeep; [|done].
    apply elem_of_union_l, elem_blocks, list_elem_of_fmap. by exists (q, ap).
  - intros t x Ht Htr Hdir. rewrite Ho'; [by apply Hoth|done|by apply Hd].
  - intros q o Hq Hoo. apply elem_of_difference in Hq as [Hq _]. rewrite Hkeep by (done || by apply elem_of_union_r). by apply Hb.
Qed.

Lemma length_addrs (l : list Z) : length (concat (le 8 <$> l)) = (8 * length l)%nat.
Proof. induction l as [|x l IH]; [done|]. cbn [fmap list_fmap concat]. rewrite length_app, length_le, IH. cbn [length]. lia. Qed.
Lemma bytes_addrs (l : list Z) : bytes_ok (concat (le 8 <$> l)).
Proof. induction l as [|x l IH]; [constructor|]. cbn [fmap list_fmap concat]. apply Forall_app. split; [apply le_bytes|done]. Qed.

(** what is set of the process *)
Definition started (top sp entry : Z) path (argv : list (list Z)) (p : proc) : Prop := exists name,
  p = Proc d top name (Z.of_nat (length argv)) sp entry sp (v2p d) /\ named name (take 15 (base_name path path)).
Definition with_args (r0 r1 : Z) (p : proc) : proc := Proc (p_pgdir p) (p_sz p) (p_name p) r0 r1 (tf_elr p) (tf_sp p) (ttbr0 p).
(** nothing of the new space is left *)
Definition kept_old root Uold v' : Prop := exists G' L', vmem v' G' L' lo hi A0 /\ kept_space s1 G' root Uold A0 v' /\
  (forall t x, t <> d -> G1 !! t = Some Dir -> entry (kmem v') t x = entry (kmem s1) t x) /\
  forall q o, (q, 12) ∈ A0 -> 0 <= o < 4096 -> kmem v' !! (q + o) = kmem s1 !! (q + o).

Lemma bad_spec s G L U root Uold (ip : Z) : live s1 G1 lo hi A0 d (vm s) G L U -> d <> 0 -> aspace s1 G1 root Uold A0 -> root <> d ->
  wp (exec_bad d 0) (fun r s' => r = -1 /\ kept_old root Uold (vm s') /\ fs s' = fs s /\ pr s' = pr s) s.
Proof using PL.
  intros Hl Hd Hold Hne. unfold exec_bad. apply Z.eqb_neq in Hd. rewrite Hd. cbn [negb when Z.eqb]. wp_step. apply wp_zoom.
  eapply wp_mono; [by apply (live_free s1 G1 lo hi A0 d (vm s) G L U root Uold)|]. cbn beta. intros _ v' H. wp_step. wp_step. wp_step. done.
Qed.

Lemma stack_spec room s G L U sz img root Uold entry path argv : built s1 G1 lo hi A0 d room (vm s) G L U sz img -> npg sz + 2 <= room ->
  Forall bytes_ok argv -> Forall (fun a => Z.of_nat (length a) + 8 <= 4096 * (npg sz + 1)) argv -> bytes_ok path -> 0 ∉ path ->
  d <> 0 -> aspace s1 G1 root Uold A0 -> root <> d -> p_pgdir (pr s) = root -> root <> 0 -> length (p_name (pr s)) = 16%nat ->
  wp (exec_stack d sz entry path argv) (fun r s' => fs s' = fs s /\
    ((r = 0 /\ (length argv <= 32)%nat /\ exists N, let top := 4096 * npg sz + 8192 in let '(sp, img') := push_args argv top img in
        Z.of_nat (length N) = npg top /\ replaced root Uold (guarded (fresh N) (Z.to_nat (npg sz))) img' (vm s') /\ top - 4096 <= sp /\
        started top sp entry path argv (pr s')) \/
     r = -1 /\ kept_old root Uold (vm s') /\ exists r0 r1, pr s' = with_args r0 r1 (pr s))) s.
Proof using PL.
  intros Hb Hroom Hby Hfit Hpath Hp0 Hd Hold Hne Hpg Hroot Hname. pose proof (bu_size _ _ _ _ _ _ _ _ _ _ _ _ _ Hb) as Hsz. assert (UADDR_SZ = 2 ^ 28) as HU by done.
  assert (0 <= npg sz <= 2 ^ 16) as Hnp by (unfold npg; Z.div_mod_to_equations; lia).
  assert (forall p, exists r0 r1, p = with_args r0 r1 p) as Hsame by (intros []; eexists _, _; done).
  unfold exec_stack. rewrite align_up_page by lia. change (2 * PTE_SZ) with 8192. cbv zeta. set (top := 4096 * npg sz + 8192).
  assert (u32 (4096 * npg sz) = 4096 * npg sz) as -> by (apply Z.mod_small; lia). assert (u32 top = top) as -> by (apply Z.mod_small; lia).
  wp_step. apply wp_zoom.
  eapply (wp_mono _ (fun r v' => (exists N G' L', r = top /\ built s1 G1 lo hi A0 d room v' G' L' (U ++ fresh N) top img) \/
    r = 0 /\ exists G' L', live s1 G1 lo hi A0 d v' G' L' U)).
  { destruct (Z.leb_spec UADDR_SZ top) as [Hge|Hlt].
    - unfold allocuvm. destruct (Z.leb_spec UADDR_SZ top); [|lia]. wp_step. right. split; [done|]. exists G, L. apply Hb.
    - assert (built s1 G1 lo hi A0 d room (vm s) G L U (4096 * npg sz) img) as Hb'.
      { destruct Hb as [H1 H2 H3 H4 H5 H6 H7]. constructor; try done; [|lia]. rewrite <-H4. unfold npg. Z.div_mod_to_equations. lia. }
      eapply wp_mono; [apply (built_grow s1 G1 lo hi A0 d room (vm s) G L U (4096 * npg sz) img top Hb'); [lia|]|].
      { intros _. unfold top, npg in *. Z.div_mod_to_equations. lia. }
      cbn beta. intros r v' [(_ & -> & H)|H]; [left|by right]. replace (Z.max (4096 * npg sz) top) with top in * by lia. destruct H as (N & G' & L' & H). by exists N, G', L'. }
  cbn beta. intros r v1 H. destruct H as [(N & G' & L' & -> & Hb1)|(-> & G' & L' & Hl1)].
  2:{ change (u64 0 =? 0) with true. cbv iota. eapply wp_mono; [by eapply (bad_spec (lset vm_lens v1 s) G' L' U root Uold 0)|]. cbn beta.
      intros r s' (-> & Hk & Hf & Hp). split; [done|]. right. split; [done|]. split; [done|]. rewrite Hp. apply Hsame. }
  assert (u64 top = top) as -> by (apply Z.mod_small; lia). destruct (Z.eqb_spec top 0); [lia|].
  assert (u64 (top - 8192) = 4096 * npg sz) as -> by (unfold u64; rewrite Z.mod_small; lia).
  destruct Hb1 as [Hl1 Hh1 He1 Hpg1 Hs1 Hfr1 _]. set (U1 := U ++ fresh N) in *. set (M := fst <$> U1) in *.
  assert (Z.of_nat (length M) = npg sz + 2) as HM by (unfold M; rewrite length_fmap, <-Hpg1; unfold top, npg; Z.div_mod_to_equations; lia).
  destruct (lookup_lt_is_Some_2 U1 (Z.to_nat (npg sz))) as [[q ap] Hq]; [unfold M in HM; rewrite length_fmap in HM; lia|].
  wp_step. apply wp_zoom. change (lget vm_lens (lset vm_lens v1 s)) with v1.
  eapply wp_mono; [apply (live_clear s1 G1 lo hi A0 d v1 G' L' U1 img (npg sz) q ap Hl1 Hh1); [lia|done]|]. cbn beta. intros _ v2 [Hl2 Hh2].
  change (lset vm_lens v2 (lset vm_lens v1 s)) with (lset vm_lens v2 s). rewrite Hfr1 in Hl2, Hh2. set (U2 := guarded (fresh M) (Z.to_nat (npg sz))) in *.
  assert (length U2 = length M) as HU2 by (unfold U2, guarded; by rewrite length_alter, length_fresh).
  pose proof (stacked_guarded M sz ltac:(lia) ltac:(lia)) as Hst. fold U2 in Hst. set (bot := 4096 * (npg sz + 1)) in *.
  replace top with (bot + 4096) by lia. wp_step.
  eapply wp_mono; [apply (args_spec G' L' U2 bot img argv s v2); [lia|done..]|]. cbn beta. intros [v|] s3.
  2:{ intros (v3 & -> & Hl3). eapply wp_mono; [by eapply (bad_spec (lset vm_lens v3 s) G' L' U2 root Uold 0)|]. cbn beta.
      intros r s' (-> & Hk & Hf & Hp). split; [done|]. right. split; [done|]. split; [done|]. rewrite Hp. apply Hsame. }
  intros (sp & ps & img2 & v3 & -> & Hpush & Hps & Hj & _ & Hsp & Hsp8 & -> & Hl3 & Hh3). rewrite firstn_all in Hpush.
  set (argc := Z.of_nat (length argv)). cbv beta iota zeta. assert (u64 (sp - (argc + 1) * 8) = sp - 8 * (argc + 1)) as -> by (unfold u64; rewrite Z.mod_small; lia).
  set (sp2 := sp - 8 * (argc + 1)) in *. assert (0 <= sp2) as Hsp2 by lia.
  assert (take (Z.to_nat (argc + 1)) (put (ps ++ replicate (36 - length argv) 0) argc 0) = ps ++ [0]) as ->.
  { assert (36 - length argv = S (35 - length argv))%nat as -> by lia. cbn [replicate]. unfold put. rewrite insert_app_r_alt by lia.
    replace (Z.to_nat argc - length ps)%nat with O by lia. cbn [insert list_insert]. rewrite take_app_ge by lia.
    replace (Z.to_nat (argc + 1) - length ps)%nat with 1%nat by lia. done. }
  set (tab := concat (le 8 <$> (ps ++ [0]))). assert (Z.of_nat (length tab) = 8 * (argc + 1)) as Htab by (unfold tab; rewrite length_addrs, length_app; cbn [length]; lia).
  wp_step. unfold set_pr at 1. wp_step. wp_step. apply wp_zoom. cbn [lget vm_lens vm lset].
  eapply wp_mono; [apply (live_copyout s1 G1 lo hi A0 d v3 G' L' U2 img2 sp2 tab Hl3 Hh3 (bytes_addrs _) Hsp2); lia|].
  cbn beta. intros r v4 (Hl4 & m & Hh4 & [(-> & Hm & Hacc)| ->]).
  2:{ change (-1 <? 0) with true. cbn iota. eapply wp_mono; [by eapply (bad_spec (St v4 _ _ _) G' L' U2 root Uold 0)|]. cbn beta.
      intros r s' (-> & Hk & Hf & Hp). split; [done|]. right. split; [done|]. split; [done|]. rewrite Hp. by eexists _, _. }
  change (0 <? 0) with false. cbn iota. rewrite firstn_all2 in Hh4 by done.
  assert (47 ∉ ([] : list Z)) as H47 by (by intros ?%elem_of_nil). destruct (base_name_last [] [] path H47) as (pre & Epath & _). cbn [app] in Epath.
  destruct (save_name_spec (p_name (pr s)) (base_name path path) Hname) as (name & Hsave & Hnamed).
  { unfold bytes_ok in Hpath |- *. rewrite Epath in Hpath. by apply Forall_app in Hpath as [_ ?]. } { intros Hin. apply Hp0. rewrite Epath. apply elem_of_app. by right. }
  wp_step. eapply wp_deref; [exact Hsave|]. wp_step. wp_step. unfold set_pr at 1. wp_step. wp_step. wp_step. unfold switchuvm.
  wp_step. wp_step. cbn [pr p_pgdir]. wp_step. wp_step; [by apply Z.eqb_neq|]. unfold set_pr. wp_step. wp_step. apply wp_zoom. cbn [pr p_pgdir lget vm_lens vm lset].
  rewrite Hpg. eapply wp_mono; [apply (live_replace v4 G' L' U2 root Uold _ Hl4 Hold Hne Hh4)|]. cbn beta. intros _ v5 Hrep. wp_step.
  split; [done|]. left. split; [done|]. split; [lia|]. exists M. unfold push_args. rewrite Hpush.
  replace (bot + 4096) with top by lia. split; [unfold top, npg in *; Z.div_mod_to_equations; lia|]. split; [done|]. split; [|by exists name].
  destruct (Z.leb_spec (top - 4096) sp2) as [|Hbad]; [done|exfalso]. apply (sk_guard _ _ Hst (Z.min (bot - 1) (sp - 1))); [lia|]. apply Hacc. lia.
Qed.
End stack.

(** ** The whole of it *)

(** the size and the memory a file asks for; [None] when it is no program *)
Definition ehdr (c : list Z) : list Z := sub c 0 64.
Definition is_elf (c : list Z) : bool := (64 <=? length c)%nat && (hdr elf_magic (ehdr c) =? ELF_MAGIC).
Definition file_image (c : list Z) : option (Z * image) :=
  if is_elf c then load_segs c (Z.to_nat (hdr elf_phnum (ehdr c))) (hdr elf_phoff (ehdr c)) (0, fun _ => 0) else None.
(** a file exec can handle without a panic or a wrapped number, its segments ending within [n] pages *)
Record program_ok (n : Z) (c : list Z) : Prop := {
  po_bytes : bytes_ok c;
  po_table : is_elf c = true -> hdr elf_phoff (ehdr c) + 56 * hdr elf_phnum (ehdr c) < 2 ^ 31;
  po_segs i : is_elf c = true -> 0 <= i < hdr elf_phnum (ehdr c) ->
    let h := sub c (Z.to_nat (hdr elf_phoff (ehdr c) + 56 * i)) 56 in length h = 56%nat -> seg_ok n h;
}.

Lemma elf_fields h : length h = 64%nat -> bytes_ok h ->
  (elf_magic h = Some (hdr elf_magic h) /\ elf_entry h = Some (hdr elf_entry h) /\ elf_phoff h = Some (hdr elf_phoff h) /\
   elf_phnum h = Some (hdr elf_phnum h)) /\ 0 <= hdr elf_phoff h /\ 0 <= hdr elf_phnum h.
Proof.
  intros Hl Hby. unfold hdr, elf_magic, elf_entry, elf_phoff, elf_phnum, ld64, ld32, ld16.
  destruct (field_in 4 h 0) as (v0 & -> & _); [by rewrite Hl|done|].
  destruct (field_in 8 h 24) as (v1 & -> & _); [by rewrite Hl|done|]. destruct (field_in 8 h 32) as (v2 & -> & H2); [by rewrite Hl|done|].
  destruct (field_in 2 h 56) as (v3 & -> & H3); [by rewrite Hl|done|]. cbn [default from_option id]. split; [done|]. lia.
Qed.
Lemma load_size n c k off v v' : load_segs c k off v = Some v' -> 0 <= off -> 0 <= fst v -> npg (fst v) <= n ->
  (forall i, (i < k)%nat -> let h := sub c (Z.to_nat (off + 56 * Z.of_nat i)) 56 in length h = 56%nat -> seg_ok n h) -> 0 <= fst v' /\ npg (fst v') <= n.
Proof.
  revert off v. induction k as [|k IH]; intros off v Hload Hoff Hv Hn Hseg; cbn [load_segs] in Hload; [by injection Hload as <-|].
  destruct (Nat.ltb_spec (length (sub c (Z.to_nat off) 56)) 56) as [|Hlen]; [done|]. set (h := sub c (Z.to_nat off) 56) in *.
  assert (length h = 56%nat) as Hh by (unfold h, sub in *; rewrite length_take in *; lia).
  pose proof (Hseg O ltac:(lia)) as Hok. cbn zeta in Hok. rewrite Z.mul_0_r, Z.add_0_r in Hok. specialize (Hok Hh).
  destruct (load_one c h v) as [v1|] eqn:E1; [|done]. cbn [mbind option_bind] in Hload.
  assert (0 <= fst v1 /\ npg (fst v1) <= n) as [Hv1 Hn1].
  { unfold load_one in E1. destruct v as [sz img]. cbn [fst] in *. destruct (Z.eqb_spec (hdr ph_type h) ELF_PROG_LOAD) as [Hty|]; cbn [negb] in E1; [|by injection E1 as <-].
    destruct (Z.ltb_spec (hdr ph_memsz h) (hdr ph_filesz h)) as [|Hfs]; cbn [orb] in E1; [done|]. destruct (Z.leb_spec UADDR_SZ (hdr ph_vaddr h + hdr ph_memsz h)) as [|Hlt]; cbn [orb] in E1; [done|].
    destruct ((_ =? 0) || _); [done|]. injection E1 as <-. cbn [fst]. destruct (Hok Hty Hfs) as (_ & _ & _ & Htop). specialize (Htop Hlt).
    split; [lia|]. destruct (Z.max_spec sz (hdr ph_vaddr h + hdr ph_memsz h)) as [[_ ->]|[_ ->]]; done. }
  apply (IH (off + 56) v1 Hload); [lia|done|done|]. intros i Hi. specialize (Hseg (S i) ltac:(lia)). cbn zeta in Hseg |- *.
  replace (off + 56 + 56 * Z.of_nat i) with (off + 56 * Z.of_nat (S i)) by lia. exact Hseg.
Qed.

Section exec.
Context {P F : Type} {PA : PageAlloc P} {PL : PageAllocLaws P} {XF : ExecFs F} {XL : ExecFsLaws F}.
Context (s : Exec.st (P := P) (F := F)) (G : gmap Z role) (L : list Z) (lo hi : Z) (A : gset (Z * Z)) (root : Z) (Uold : list upage).
Hypothesis Hv : vmem (vm s) G L lo hi A.
Hypothesis Has : aspace (vm s) G root Uold A.

(** the process goes on in the memory it has *)
Definition undisturbed (v' : Vm.st P) : Prop := exists G' L', vmem v' G' L' lo hi A /\ kept_space (vm s) G' root Uold A v' /\
  (forall t x, G !! t = Some Dir -> entry (kmem v') t x = entry (kmem (vm s)) t x) /\
  forall q o, (q, 12) ∈ A -> 0 <= o < 4096 -> kmem v' !! (q + o) = kmem (vm s) !! (q + o).
Lemma undisturbed_refl : undisturbed (vm s).
Proof using Hv Has. exists G, L. split; [exact Hv|]. split; [by split|done]. Qed.

(** an empty address space to start with *)
Lemma empty_space : (1 <= length L)%nat -> wp kpt_alloc (fun d v1 => exists G1 L1, L = d :: L1 /\ d <> 0 /\ G !! d = Some Spare /\ root <> d /\
  live v1 G1 lo hi A d v1 G1 L1 [] /\ aspace v1 G1 root Uold A /\ (forall t, t <> d -> G !! t = Some Dir -> G1 !! t = Some Dir) /\
  (forall t x, t <> d -> G !! t = Some Dir -> entry (kmem v1) t x = entry (kmem (vm s)) t x) /\
  forall q o, (q, 12) ∈ A -> 0 <= o < 4096 -> kmem v1 !! (q + o) = kmem (vm s) !! (q + o)) (vm s).
Proof using Hv Has.
  intros HL. destruct L as [|d L1]; [cbn in HL; lia|]. pose proof (vm_space _ _ _ _ _ _ Hv) as Hs.
  pose proof (tb_spare _ _ _ _ (proj2 Hs) d ltac:(by apply list_elem_of_here)) as Hd. pose proof (as_root _ _ _ _ _ Has) as Hr.
  pose proof (tb_nodup _ _ _ _ (proj2 Hs)) as Hnd. apply NoDup_cons in Hnd as [HdL _].
  destruct (tb_page _ _ _ _ (proj2 Hs) _ _ Hd) as [Hdo _]. pose proof (page_nz d Hdo) as Hnz. assert (root <> d) as Hrd by congruence.
  eapply wp_mono; [by apply (kpt_alloc_spec (vm s) G d L1)|]. cbn beta. intros _ v1 (-> & Hs1 & Hz1 & Hw1 & _ & Hf1 & Hp1).
  destruct (new_dir _ _ _ _ _ (proj2 Hs1) Hd HdL Hz1) as (Ht1 & He1 & Hdom). set (G1 := <[d := Dir]> G) in *.
  assert (forall t x, t <> d -> G !! t = Some Dir -> entry (kmem v1) t x = entry (kmem (vm s)) t x) as Ho1.
  { intros t x Ht Hdir. apply (walk_cong _ _ _ _ _ _ (proj2 Hs) Hdir). intros q j r Hq Hrq Hj. apply (Hw1 q j r Hq); [congruence|done]. }
  assert (forall t, t <> d -> G !! t = Some Dir -> G1 !! t = Some Dir) as Hins by (intros t Ht Hdir; unfold G1; by rewrite lookup_insert_ne).
  assert (vmem v1 G1 L1 lo hi A) as Hv1 by (eapply vmem_tables; [exact Hv|by split; [apply Hs1|]|done|done|done]).
  exists G1, L1. do 4 (split; [done|]). split; [|split; [|split; [done|split; [done|]]]].
  - assert (blocks [] ∪ A = A) as E by apply union_empty_l_L. constructor; rewrite ?E; try done; [|by intros p ?%elem_of_nil].
    constructor; [apply lookup_insert_eq| |cbn; lia|by constructor|by constructor|done]. intros k Hk. rewrite He1. unfold uentry. by rewrite lookup_nil.
  - apply (aspace_other (vm s) v1 G G1 root Uold A A Has); [by apply Hins|done|]. intros x. by apply Ho1.
  - intros q o Hq Hoo. destruct (vm_page _ _ _ _ _ _ _ Hv Hq) as (_ & Hlo & _). apply (pool_frame _ _ _ _ _ _ _ _ Hv Hf1). lia.
Qed.

(** what [kept_old] and [replaced] say from the call on *)
Lemma kept_undisturbed d v1 G1 v' : G !! d = Some Spare -> root <> d ->
  (forall t, t <> d -> G !! t = Some Dir -> G1 !! t = Some Dir) ->
  (forall t x, t <> d -> G !! t = Some Dir -> entry (kmem v1) t x = entry (kmem (vm s)) t x) ->
  (forall q o, (q, 12) ∈ A -> 0 <= o < 4096 -> kmem v1 !! (q + o) = kmem (vm s) !! (q + o)) ->
  kept_old v1 G1 lo hi A d root Uold v' -> undisturbed v'.
Proof using Has.
  intros Hd Hrd Hdirs He Hb (G' & L' & Hv' & [Has' Hu] & He' & Hb'). exists G', L'. split; [done|]. split; [split; [done|]|split].
  - intros x Hx. rewrite Hu by done. apply ubyte_same; [done|]. intros [q ap] o Hin Hoo. cbn [fst]. apply Hb; [|done].
    apply (as_owns _ _ _ _ _ Has), elem_blocks, list_elem_of_fmap. by exists (q, ap).
  - intros t x Ht. assert (t <> d) by congruence. rewrite He' by (done || by apply Hdirs). by apply He.
  - intros q o Hq Hoo. rewrite Hb' by done. by apply Hb.
Qed.
Lemma replaced_here d v1 G1 U img v' :
  (forall t, t <> d -> G !! t = Some Dir -> G1 !! t = Some Dir) ->
  (forall t x, t <> d -> G !! t = Some Dir -> entry (kmem v1) t x = entry (kmem (vm s)) t x) ->
  (forall q o, (q, 12) ∈ A -> 0 <= o < 4096 -> kmem v1 !! (q + o) = kmem (vm s) !! (q + o)) ->
  replaced v1 G1 lo hi A d root Uold U img v' -> replaced (vm s) G lo hi A d root Uold U img v'.
Proof.
  intros Hdirs He Hb (G' & L' & Hv' & Has' & Hh & He' & Hb'). exists G', L'. do 3 (split; [done|]). split.
  - intros t x Ht Htr Hdir. rewrite He' by (done || by apply Hdirs). by apply He.
  - intros q o Hq Hoo. rewrite Hb' by done. apply Hb; [|done]. by apply elem_of_difference in Hq as [? _].
Qed.

(** C9: exec of a path of which namei finds nothing or a file with bytes [c].  Assumed: if [c] is a program, its header
    table ends below 2^31 and every segment to be loaded is page aligned, has its end and its offsets within 32 bits, and
    ends within [n] pages ([program_ok]: other files make loaduvm panic or wrap around); there are 2n + 5 spare table
    pages; the path and the arguments are strings of bytes, each argument shorter than the address it is pushed from.
    Then exec returns, the inode is put back, and:  When it returns 0, the file is a program, there are at most 32
    arguments, and the process runs in a new address space: as many pages as the size the headers ask for, a guard page and
    a stack page, holding exactly the segments of the file at their addresses, zeros elsewhere, and the argument strings with
    the table of their addresses, all of that within the stack page; r0, r1, the stack pointer, the entry point, the name, the
    size and the translation table are set to match, the pages of the old space are free again and every other address
    space and page is as it was.  Otherwise it returns -1 (no such file, no program, no memory for a page of the process,
    too many or too long arguments), the process still has its memory, as it was, and nothing is left of the new one; r0
    and r1 may have changed. *)
Theorem exec_correct path argv c n : p_pgdir (pr s) = root -> length (p_name (pr s)) = 16%nat -> 0 <= n -> 2 * n + 5 <= Z.of_nat (length L) ->
  wp (x_namei path) (fun ip f => ip = 0 /\ x_put f \/ ip <> 0 /\ x_ref f ip c) (fs s) -> program_ok n c ->
  bytes_ok path -> 0 ∉ path -> Forall bytes_ok argv ->
  (forall v, file_image c = Some v -> Forall (fun a => Z.of_nat (length a) + 8 <= 4096 * (npg (fst v) + 1)) argv) ->
  wp (exec path argv) (fun r s' => x_put (fs s') /\
    ((r = 0 /\ (length argv <= 32)%nat /\ exists sz img d N, file_image c = Some (sz, img) /\ G !! d = Some Spare /\
        let top := 4096 * npg sz + 8192 in let '(sp, img') := push_args argv top img in
        Z.of_nat (length N) = npg top /\ replaced (vm s) G lo hi A d root Uold (guarded (fresh N) (Z.to_nat (npg sz))) img' (vm s') /\
        top - 4096 <= sp /\ started d top sp (hdr elf_entry (ehdr c)) path argv (pr s')) \/
     r = -1 /\ undisturbed (vm s') /\ exists r0 r1, pr s' = with_args r0 r1 (pr s))) s.
Proof using Hv Has PL.
  intros Hpg Hname Hn HL Hnamei [Hc Htable Hsegs] Hpath Hp0 Hby Hfit. assert (root <> 0) as Hroot.
  { pose proof (as_root _ _ _ _ _ Has) as Hr. destruct (tb_page _ _ _ _ (proj2 (vm_space _ _ _ _ _ _ Hv)) _ _ Hr) as [Hro _]. by apply page_nz. }
  assert (forall p, exists r0 r1, p = with_args r0 r1 p) as Hsame by (intros []; eexists _, _; done).
  unfold exec. wp_step. apply wp_zoom. eapply wp_mono; [exact Hnamei|]. cbn beta. intros ip f1 [[-> Hput]|[Hip Href]].
  { change (0 =? 0) with true. cbn iota. wp_step. split; [done|]. right. split; [done|]. split; [apply undisturbed_refl|apply Hsame]. }
  apply Z.eqb_neq in Hip. rewrite Hip. wp_step. apply wp_zoom. eapply wp_mono; [by apply (x_ilock_law _ ip c)|]. cbn beta. intros _ f2 Hlk. wp_step. apply wp_zoom.
  eapply wp_mono; [apply (x_readi_law _ ip c 0 sizeof_elfhdr Hlk); done|]. cbn beta. intros [r l] f3 [E Hlk3]. unfold file_read in E.
  change (u32 (0 + sizeof_elfhdr) <? 0) with false in E. change sizeof_elfhdr with 64 in E |- *. rewrite orb_false_r, Z.sub_0_r in E.
  destruct (Z.ltb_spec (Z.of_nat (length c)) 0); [lia|]. injection E as -> ->.
  set (s3 := lset fs_lens f3 (lset fs_lens f2 (lset fs_lens f1 s))).
  unfold u64. rewrite Z.mod_small by lia. assert (forall f p lv Q, x_locked f ip c -> p = pr s -> (forall f', x_put f' -> Q (-1) (St (vm s) f' p lv)) ->
    wp (exec_bad 0 ip) Q (St (vm s) f p lv)) as Hbad. {
    intros f p lv Q Hf -> HQ. unfold exec_bad. rewrite Hip. cbn [negb when Z.eqb]. wp_step. wp_step. wp_step. apply wp_zoom.
    eapply wp_mono; [by apply (x_iunlockput_law _ ip c)|]. cbn beta. intros _ f' Hf'. wp_step. by apply HQ. }
  destruct (Z.ltb_spec (Z.min 64 (Z.of_nat (length c))) 64) as [Hshort|Hlong].
  { apply Hbad; [done|done|]. intros f' Hf'. split; [done|]. right. split; [done|]. split; [apply undisturbed_refl|apply Hsame]. }
  rewrite Z.min_l by lia. fold (ehdr c). assert (length (ehdr c) = 64%nat) as Hel by (apply length_sub; lia). change (sub c (Z.to_nat 0) (Z.to_nat 64)) with (ehdr c).
  destruct (elf_fields (ehdr c) Hel) as ((Emag & Eent & Eoff & Enum) & Roff & Rnum); [unfold ehdr, sub; rewrite drop_0; by apply (Forall_take _ 64)|].
  assert (is_elf c = (hdr elf_magic (ehdr c) =? ELF_MAGIC)) as Eelf by (unfold is_elf; destruct (Nat.leb_spec 64 (length c)); [done|lia]).
  unfold file_image in *. unfold field. wp_step. eapply wp_deref; [exact Emag|]. destruct (hdr elf_magic (ehdr c) =? ELF_MAGIC) eqn:Emagic; cbn [negb].
  2:{ apply Hbad; [done|done|]. intros f' Hf'. split; [done|]. right. split; [done|]. split; [apply undisturbed_refl|apply Hsame]. }
  rewrite Eelf in *. specialize (Htable eq_refl). specialize (fun i => Hsegs i eq_refl). set (phoff := hdr elf_phoff (ehdr c)) in *. set (phnum := hdr elf_phnum (ehdr c)) in *.
  wp_step. apply wp_zoom. eapply wp_mono; [apply empty_space; lia|]. cbn beta. intros d v1 (G1 & L1 & EL & Hd & HGd & Hrd & Hl1 & Hold & Hdirs & He & Hb).
  pose proof Hd as Hd'. apply Z.eqb_neq in Hd'. rewrite Hd'. wp_step. eapply wp_deref; [exact Eoff|]. wp_step. eapply wp_deref; [exact Enum|].
  assert (s32 phoff = phoff) as -> by (unfold s32; rewrite Z.mod_small; lia).
  set (s4 := lset vm_lens v1 s3). assert (loading v1 G1 lo hi A d ip c (pr s) (n + 2) s4 G1 L1 [] (0, fun _ => 0)) as Hld.
  { split; [|done]. constructor; try done; [intros x Hx; cbn in Hx; lia|]. assert (length L = S (length L1)) by (by rewrite EL). cbn [length]. lia. }
  wp_step. eapply wp_mono; [apply (segs_spec v1 G1 lo hi A d ip c (pr s) Hc (n + 2) s4 G1 L1 [] phnum phoff Hld); [lia|lia|lia|]|].
  { intros i Hi h Hh Hty Hfs. destruct (Hsegs i Hi Hh Hty Hfs) as (H1 & H2 & H3 & H4). split; [done|]. split; [done|]. split; [done|]. intros Hlt. etrans; [exact (H4 Hlt)|lia]. }
  cbn beta. intros r s5 [([sz img] & -> & Eimg & G5 & L5 & U5 & Hb5 & Hlk5 & Hpr5)|[-> (G5 & L5 & U5 & Hl5 & Hlk5 & Hpr5)]].
  2:{ unfold exec_bad. rewrite Hd', Hip. cbn [negb when]. wp_step. apply wp_zoom.
      eapply wp_mono; [by apply (live_free v1 G1 lo hi A d (vm s5) G5 L5 U5 root Uold)|]. cbn beta. intros _ v6 Hk. wp_step. apply wp_zoom.
      eapply wp_mono; [by apply (x_iunlockput_law _ ip c)|]. cbn beta. intros _ f7 Hf7. wp_step. split; [done|]. right. split; [done|].
      split; [by apply (kept_undisturbed d v1 G1)|]. cbn [pr lset fs_lens vm_lens]. rewrite Hpr5. apply Hsame. }
  wp_step. apply wp_zoom. eapply wp_mono; [by apply (x_iunlockput_law _ ip c)|]. cbn beta. intros _ f6 Hf6.
  wp_step. eapply wp_deref; [exact Eent|]. set (s6 := lset fs_lens f6 s5). cbn [fst].
  destruct (load_size n c (Z.to_nat phnum) phoff (0, fun _ => 0) (sz, img) Eimg ltac:(lia) ltac:(done) ltac:(done)) as [Hsz Hnsz].
  { intros i Hi. apply Hsegs. lia. }
  cbn [fst] in *. specialize (Hfit (sz, img) Eimg). cbn [fst] in Hfit.
  eapply wp_mono; [apply (stack_spec v1 G1 lo hi A d (n + 2) s6 G5 L5 U5 sz img root Uold _ path argv Hb5); try done; [lia|cbn; by rewrite Hpr5..]|].
  cbn beta zeta. intros r s7 (Hf7 & H7). split; [by rewrite Hf7|]. destruct H7 as [(-> & Hargc & N & Hrest)|(-> & Hk & r0 & r1 & Hp)]; [left|right].
  - split; [done|]. split; [done|]. exists sz, img, d, N. split; [done|]. split; [done|]. destruct (push_args argv (4096 * npg sz + 8192) img) as [sp img'].
    destruct Hrest as (HN & Hrep & Hsp & Hst). split; [done|]. split; [|done]. by apply (replaced_here d v1 G1).
  - split; [done|]. split; [by apply (kept_undisturbed d v1 G1)|]. exists r0, r1. rewrite Hp. cbn [pr s6 lset fs_lens]. by rewrite Hpr5.
Qed.
End exec.

(** ** A program to run *)

(** one segment: four bytes of the file at address 0, 100 bytes in memory, entry point 2 *)
Definition demo_program : list Z :=
  le 4 ELF_MAGIC ++ replicate 20 0 ++ le 8 2 ++ le 8 64 ++ replicate 16 0 ++ le 2 1 ++ replicate 6 0 ++
  le 4 ELF_PROG_LOAD ++ replicate 4 0 ++ le 8 120 ++ le 8 0 ++ le 8 0 ++ le 8 4 ++ le 8 100 ++ le 8 0 ++ [11; 12; 13; 14].
(** a file system with that one file *)
#[local] Instance demo_files : ExecFs unit := {
  x_namei _ := mret 1; x_ilock _ := mret tt; x_readi _ off n := mret (file_read demo_program off n); x_iunlockput _ := mret tt
}.
#[local] Instance demo_files_laws : ExecFsLaws unit.
Proof.
  refine {| x_ref _ _ c := c = demo_program; x_locked _ _ c := c = demo_program; x_put _ := True |}; try done.
  intros f ip c off n -> _ _. by apply wp_ret.
Defined.
Definition demo_proc : proc := Proc demo_root 4096 (replicate 16 0) 0 0 0 0 0.

Lemma demo_program_ok : program_ok 1 demo_program.
Proof.
  constructor.
  - apply (bool_decide_unpack _). vm_compute. exact I.
  - intros _. vm_compute. reflexivity.
  - intros i _ Hi. assert (hdr elf_phnum (ehdr demo_program) = 1) as E by (vm_compute; reflexivity). rewrite E in Hi. assert (i = 0) as -> by lia.
    intros h _ _ _. unfold h. clear. split; [vm_compute; reflexivity|]. split; [vm_compute; reflexivity|]. split; [vm_compute; reflexivity|].
    intros _. vm_compute. discriminate.
Qed.

(** the second byte of the program, and the number of arguments *)
Lemma exec_correct_witness : exists v : Vm.st Buddy.kmem, wp (exec [47; 97] [[97]; [120; 121]]) (fun r s' =>
  r = 0 /\ tf_r0 (pr s') = 2 /\ tf_elr (pr s') = 2 /\ (exists U, ubyte (kmem (vm s')) U 1 = Some 12) \/ r = -1 /\ p_pgdir (pr s') = demo_root)
  (Exec.St v tt demo_proc 0).
Proof.
  destruct demo_process as (v & G & L & HL & Hv & Has & _). exists v.
  assert (Forall bytes_ok [[97]; [120; 121]]) as Hargs by (apply (bool_decide_unpack _); vm_compute; exact I).
  assert (bytes_ok [47; 97]) as Hpath by (apply (bool_decide_unpack _); vm_compute; exact I).
  set (s := Exec.St v tt demo_proc 0). assert (p_pgdir (pr s) = demo_root /\ length (p_name (pr s)) = 16%nat) as [H1 H2] by done.
  assert (wp (x_namei [47; 97]) (fun ip f => ip = 0 /\ x_put f \/ ip <> 0 /\ x_ref f ip demo_program) (fs s)) as H3 by (apply wp_ret; right; done).
  assert (0 ∉ [47; 97]) as H4 by (apply (bool_decide_unpack _); vm_compute; exact I).
  pose proof (exec_correct s G L _ _ _ demo_root _ Hv Has [47; 97] [[97]; [120; 121]] demo_program 1
    H1 H2 ltac:(lia) ltac:(lia) H3 demo_program_ok Hpath H4 Hargs) as Hw.
  assert (fst <$> file_image demo_program = Some 100) as Esz by (vm_compute; reflexivity).
  eapply wp_mono; [apply Hw|].
  - intros w Ew. rewrite Ew in Esz. injection Esz as Esz. rewrite Esz. change (npg 100) with 1. do 2 (apply Forall_cons; split; [cbn [length]; lia|]). by apply Forall_nil.
  - clear Hw. cbn beta. intros r s' [_ [(-> & _ & sz & img & d & N & Eimg & _ & Hrest)|(-> & _ & r0 & r1 & ->)]]; [left|by right].
    rewrite Eimg in Esz. injection Esz as Esz. cbn [fst] in Esz. subst sz. change (npg 100) with 1 in Hrest. cbn zeta in Hrest.
    assert (img = snd (default (0, fun _ => 0) (file_image demo_program))) as -> by (by rewrite Eimg). clear Eimg.
    set (q := push_args _ _ _) in Hrest. assert (fst q = 12248 /\ snd q 1 = 12) as [E1 E2] by (vm_compute; done). clearbody q. destruct q as [sp img'].
    cbn [fst snd] in *. destruct Hrest as (HN & (G' & L' & _ & _ & Hh & _) & _ & (name & -> & _)). split; [done|]. split; [done|].
    split; [vm_compute; reflexivity|]. eexists. rewrite Hh; [by rewrite E2|]. unfold guarded. rewrite length_alter, length_fresh, HN. vm_compute. done.
Defined.
End ExecCorrect.
