(* ===== verification/Namei.v ===== *)
(** * Looking up paths (namex, namei, nameiparent of src/src/fs.c)

    The tree of directories a disk holds, the references the inode cache
    counts, and that walking a path finds the inode the tree says, takes one
    reference to it and gives back every other one. *)

From S2P Require Import Prelude.
From S2P Require Import Bytes.
From S2P Require Import Bio.
From S2P Require Import Log.
From S2P Require Import Store.
From S2P Require Import Fs.
From S2P Require Import Content.
From S2P Require Import Inode.
From S2P Require Import FsSpec.
From S2P Require Import Dir.

Module Namei.
Import Fs Content Inode Dir.

(** ** The tree on the disk *)

(** the inode the disk has under a number *)
Definition disk_inode (view : Z -> list Z) (i : Z) : option inode := dinode_of view i (Inode 1 i 0 0 0 0 0 0 0 []).
Definition directory (view : Z -> list Z) (i : Z) : option inode :=
  n ← disk_inode view i; if i_type n =? T_DIR then Some n else None.
(** an entry in use with the name of a path element *)
Definition named (e : list Z) (de : dirent) : Prop := de_inum de <> 0 /\ chars 14 (de_name de) = take 14 e.
#[export] Instance named_dec e de : Decision (named e de).
Proof. unfold named. apply _. Defined.
(** the inode a path of these elements leads to from [i], or the directory its last element is in *)
Fixpoint target (parent : bool) (view : Z -> list Z) (i : Z) (es : list (list Z)) : option Z :=
  match es with
  | [] => if parent then None else Some i
  | e :: es =>
      n ← directory view i;
      if parent && (length es =? 0)%nat then Some i else
      kde ← list_find (named e) (dents (icontent view n));
      target parent view (de_inum kde.2) es
  end.

(** the inodes in [T] are on the disk, have a link, and those of directories lead to inodes in [T] again *)
Record tree (sb : superblock) (view : Z -> list Z) (nb : Z) (T : Z -> Prop) : Prop := {
  tr_layout : layout sb view nb;
  tr_ino i : T i -> 0 <= i < sb_ninodes sb;
  tr_inode i : T i -> exists n, disk_inode view i = Some n /\ i_type n <> 0 /\ i_nlink n <> 0;
  tr_dir i n : T i -> directory view i = Some n -> ifile sb view nb n /\ i_size n mod 16 = 0;
  tr_child i n de : T i -> directory view i = Some n -> de ∈ dents (icontent view n) -> de_inum de <> 0 -> T (de_inum de);
}.

(** ** The references of the cache *)

Definition with_refs (i r : Z) (R : gmap Z Z) : gmap Z Z := if r =? 0 then delete i R else <[i := r]> R.
Definition refs (i : Z) (R : gmap Z Z) : Z := default 0 (R !! i).

(** the disk copy says nothing of the reference count and the flags *)
Lemma on_disk_ref view n r : on_disk view n -> on_disk view (set_ref r n).
Proof.
  unfold on_disk. intros H. destruct (dinode_of_loaded _ _ _ _ H) as [_ H']. change (i_inum (set_ref r n)) with (i_inum n). rewrite H'. by destruct n.
Qed.
Lemma on_disk_flag view n fl : on_disk view n -> on_disk view (set_flags fl n).
Proof.
  unfold on_disk. intros H. destruct (dinode_of_loaded _ _ _ _ H) as [_ H']. change (i_inum (set_flags fl n)) with (i_inum n). rewrite H'. by destruct n.
Qed.

Section cache.
Context {B : Type} {BS : BlockStore B} {DV : Devsw B} {BL : BlockStoreLaws B}.
Implicit Types (s : st B) (view : Z -> list Z) (n : inode) (R : gmap Z Z).

(** the cache counts [R i] references to inode [i], agrees with the disk, and only entry [lk] is locked *)
Record cache view (lk : option Z) R s : Prop := {
  ca_ok : icache_ok s;
  ca_refs i r : R !! i = Some r <-> 0 < r /\ exists j x, at_ (inodes s) j = Some x /\ i_inum x = i /\ i_ref x = r;
  ca_dev j x : at_ (inodes s) j = Some x -> 0 < i_ref x -> i_dev x = 1;
  ca_busy j x : at_ (inodes s) j = Some x -> 0 < i_ref x -> has (i_flags x) I_BUSY = bool_decide (lk = Some j);
  ca_disk j x : at_ (inodes s) j = Some x -> 0 < i_ref x -> has (i_flags x) I_VALID = true -> on_disk view x;
  ca_lk j : lk = Some j -> exists x, at_ (inodes s) j = Some x /\ 0 < i_ref x;
}.

Lemma icache_ok_ino s s' : icache_ok s -> inodes s' = inodes s -> lock s' = false -> icache_ok s'.
Proof. intros [H1 H2 H3 H4] E Hl. split; [done|by rewrite E|by rewrite E|by rewrite E]. Qed.
Lemma cache_ino view lk R s s' : cache view lk R s -> inodes s' = inodes s -> lock s' = false -> cache view lk R s'.
Proof. intros [H1 H2 H3 H4 H5 H6] E Hl. split; rewrite ?E; try done. by eapply icache_ok_ino. Qed.

Lemma cache_ref view lk R s j x : cache view lk R s -> at_ (inodes s) j = Some x -> 0 < i_ref x -> R !! i_inum x = Some (i_ref x).
Proof. intros Hc Hx Hr. apply (ca_refs _ _ _ _ Hc). split; [done|]. by exists j, x. Qed.

(** one entry in use changed, its number aside *)
Lemma cache_upd view lk lk' R s s' ip x y : cache view lk R s -> at_ (inodes s) ip = Some x -> 0 < i_ref x ->
  inodes s' = put (inodes s) ip y -> lock s' = false -> i_dev y = i_dev x -> i_inum y = i_inum x -> 0 <= i_ref y ->
  (0 < i_ref y -> has (i_flags y) I_BUSY = bool_decide (lk' = Some ip)) -> (0 < i_ref y -> has (i_flags y) I_VALID = true -> on_disk view y) ->
  (forall j, j <> ip -> lk' = Some j <-> lk = Some j) -> (lk' = Some ip -> 0 < i_ref y) -> cache view lk' (with_refs (i_inum x) (i_ref y) R) s'.
Proof.
  intros Hc Hx Hr E Hl Hd Hi Hy Hb Hdisk Hlk Hlk'. pose proof Hc as [C1 C2 C3 C4 C5 C6].
  pose proof (at_put_eq (inodes s) ip y (at_range _ _ _ Hx)) as Hip. rewrite <-E in Hip. pose proof (at_range _ _ _ Hx) as Hrg.
  assert (forall j, j <> ip -> at_ (inodes s') j = at_ (inodes s) j) as Hoth by (intros j Hj; rewrite E, at_put_ne by lia; done).
  assert (forall j z, at_ (inodes s') j = Some z -> j = ip /\ z = y \/ j <> ip /\ at_ (inodes s) j = Some z) as Hcase.
  { intros j z Hz. destruct (decide (j = ip)) as [->|Hne]; [left; split; [done|congruence]|right; split; [done|by rewrite <-Hoth]]. }
  assert (forall j z, j <> ip -> at_ (inodes s) j = Some z -> 0 < i_ref z -> i_inum z <> i_inum x) as Hne.
  { intros j z Hj Hz Hzr Ez. apply Hj. apply (ic_uniq _ C1 j ip z x); try done. rewrite (C3 _ _ Hz Hzr). by rewrite (C3 _ _ Hx Hr). }
  split.
  - eapply (icache_ok_ino (ipst s (blk s) ip y)); [by eapply icache_ok_upd|done|done].
  - intros i r. split.
    + intros HR. destruct (decide (i = i_inum x)) as [->|Hi'].
      * unfold with_refs in HR. destruct (Z.eqb_spec (i_ref y) 0); [by rewrite lookup_delete_eq in HR|]. rewrite lookup_insert_eq in HR. injection HR as <-.
        split; [lia|]. by exists ip, y.
      * assert (R !! i = Some r) as HR'. { unfold with_refs in HR. destruct (i_ref y =? 0); [by rewrite lookup_delete_ne in HR|by rewrite lookup_insert_ne in HR]. }
        apply C2 in HR' as (Hrp & j & z & Hz & Ez & Er). split; [done|]. exists j, z. split; [|done]. rewrite Hoth; [done|]. intros ->. congruence.
    + intros (Hrp & j & z & Hz & Ez & Er). apply Hcase in Hz as [[-> ->]|[Hj Hz]].
      * subst i r. unfold with_refs. destruct (Z.eqb_spec (i_ref y) 0); [lia|]. rewrite Hi. by apply lookup_insert_eq.
      * assert (i <> i_inum x) as Hi'. { subst i. apply (Hne j z Hj Hz). lia. }
        assert (R !! i = Some r) as HR by (apply C2; split; [done|]; by exists j, z).
        unfold with_refs. destruct (i_ref y =? 0); [by rewrite lookup_delete_ne|by rewrite lookup_insert_ne].
  - intros j z Hz Hzr. apply Hcase in Hz as [[-> ->]|[Hj Hz]]; [rewrite Hd; by eapply C3|by eapply C3].
  - intros j z Hz Hzr. apply Hcase in Hz as [[-> ->]|[Hj Hz]]; [by apply Hb|]. rewrite (C4 _ _ Hz Hzr). apply bool_decide_ext. symmetry. by apply Hlk.
  - intros j z Hz Hzr Hv. apply Hcase in Hz as [[-> ->]|[Hj Hz]]; [by apply Hdisk|by eapply C5].
  - intros j Hj. destruct (decide (j = ip)) as [->|Hne']; [exists y; split; [done|by apply Hlk']|]. rewrite Hoth by done. apply C6. by apply Hlk.
Qed.

(** a free entry taken over *)
Lemma cache_fresh view lk R s s' ip x i : cache view lk R s -> at_ (inodes s) ip = Some x -> i_ref x = 0 ->
  (forall j y, at_ (inodes s) j = Some y -> is_entry 1 i y = false) -> inodes s' = put (inodes s) ip (fresh_entry 1 i x) -> lock s' = false ->
  cache view lk (<[i := 1]> R) s'.
Proof.
  intros Hc Hx Hr Hno E Hl. pose proof Hc as [C1 C2 C3 C4 C5 C6]. set (y := fresh_entry 1 i x) in *.
  pose proof (at_put_eq (inodes s) ip y (at_range _ _ _ Hx)) as Hip. rewrite <-E in Hip. pose proof (at_range _ _ _ Hx) as Hrg.
  assert (forall j, j <> ip -> at_ (inodes s') j = at_ (inodes s) j) as Hoth by (intros j Hj; rewrite E, at_put_ne by lia; done).
  assert (forall j z, at_ (inodes s') j = Some z -> j = ip /\ z = y \/ j <> ip /\ at_ (inodes s) j = Some z) as Hcase.
  { intros j z Hz. destruct (decide (j = ip)) as [->|Hne]; [left; split; [done|congruence]|right; split; [done|by rewrite <-Hoth]]. }
  assert (forall j z, at_ (inodes s) j = Some z -> 0 < i_ref z -> i_inum z <> i) as Hne.
  { intros j z Hz Hzr <-. specialize (Hno j z Hz). unfold is_entry in Hno. rewrite (C3 _ _ Hz Hzr), !Z.eqb_refl in Hno.
    destruct (Z.ltb_spec 0 (i_ref z)); [done|lia]. }
  assert (lk <> Some ip) as Hlk. { intros Hlk. destruct (C6 ip Hlk) as (z & Hz & Hzr). rewrite Hx in Hz. injection Hz as <-. lia. }
  split.
  - eapply (icache_ok_ino (ipst s (blk s) ip y)); [by eapply icache_ok_fresh|done|done].
  - intros k r. destruct (decide (k = i)) as [->|Hk].
    + rewrite lookup_insert_eq. split; [intros [= <-]; split; [lia|]; by exists ip, y|]. intros (Hrp & j & z & Hz & Ez & Er).
      apply Hcase in Hz as [[-> ->]|[Hj Hz]]; [by rewrite <-Er|]. exfalso. apply (Hne j z Hz); [lia|done].
    + rewrite lookup_insert_ne by done. rewrite C2. split; intros (Hrp & j & z & Hz & Ez & Er); (split; [done|]); exists j, z.
      * split; [|done]. rewrite Hoth; [done|]. intros ->. rewrite Hx in Hz. injection Hz as <-. lia.
      * apply Hcase in Hz as [[-> ->]|[Hj Hz]]; [by destruct Hk|done].
  - intros j z Hz Hzr. apply Hcase in Hz as [[-> ->]|[Hj Hz]]; [done|by eapply C3].
  - intros j z Hz Hzr. apply Hcase in Hz as [[-> ->]|[Hj Hz]]; [|by eapply C4]. symmetry. by apply bool_decide_eq_false.
  - intros j z Hz Hzr Hv. apply Hcase in Hz as [[-> ->]|[Hj Hz]]; [done|by eapply C5].
  - intros j Hj. rewrite Hoth by congruence. by apply C6.
Qed.

(** fewer inodes referenced than entries: one is free *)
Lemma cache_room view lk R s : cache view lk R s -> (base.size R < 50)%nat -> icache_room s.
Proof.
  intros Hc Hsz. pose proof Hc as [C1 C2 C3 _ _ _]. pose proof (ic_len _ C1) as Hlen.
  destruct (decide (Exists (fun x => i_ref x = 0) (inodes s))) as [Hex|Hno].
  { apply Exists_exists in Hex as (x & Hx & Hr). apply list_elem_of_lookup_1 in Hx as [k Hk]. exists (Z.of_nat k), x. split; [|done].
    unfold at_. destruct (Z.leb_spec 0 (Z.of_nat k)); [|lia]. by rewrite Nat2Z.id. }
  exfalso. assert (forall k x, inodes s !! k = Some x -> at_ (inodes s) (Z.of_nat k) = Some x /\ 0 < i_ref x) as Hall.
  { intros k x Hk. assert (at_ (inodes s) (Z.of_nat k) = Some x) as Hat by (unfold at_; destruct (Z.leb_spec 0 (Z.of_nat k)); [by rewrite Nat2Z.id|lia]).
    split; [done|]. pose proof (ic_ref _ C1 _ _ Hat). destruct (decide (i_ref x = 0)); [|lia]. exfalso. apply Hno, Exists_exists. exists x. split; [|done].
    by eapply list_elem_of_lookup_2. }
  assert (NoDup (i_inum <$> inodes s)) as Hnd.
  { apply NoDup_alt. intros k j i Hk Hj. rewrite list_lookup_fmap in Hk, Hj. destruct (inodes s !! k) as [x|] eqn:Ek; [|done]. destruct (inodes s !! j) as [y|] eqn:Ej; [|done].
    injection Hk as Ex. injection Hj as Ey. destruct (Hall _ _ Ek) as [Hx Hxr]. destruct (Hall _ _ Ej) as [Hy Hyr].
    assert (Z.of_nat k = Z.of_nat j); [|lia]. apply (ic_uniq _ C1 _ _ x y); try done; [by rewrite (C3 _ _ Hx Hxr), (C3 _ _ Hy Hyr)|congruence]. }
  assert (list_to_set (i_inum <$> inodes s) ⊆ dom R) as Hsub.
  { intros i Hi. rewrite elem_of_list_to_set, list_elem_of_fmap in Hi. destruct Hi as (x & -> & Hx). apply list_elem_of_lookup_1 in Hx as [k Hk].
    destruct (Hall _ _ Hk) as [Hat Hr]. apply elem_of_dom. exists (i_ref x). by eapply cache_ref. }
  apply subseteq_size in Hsub. rewrite size_list_to_set, length_fmap, Hlen in Hsub by done. rewrite size_dom in Hsub. lia.
Qed.

(** ** The operations *)

(** [s'] differs from [s] in the cache only *)
Definition near s s' : Prop := blk s' = blk s /\ cwd s' = cwd s.

Lemma cache_iget view lk R s i : cache view lk R s -> (base.size R < 50)%nat -> wp (iget 1 i) (fun ip s' => near s s' /\
  cache view lk (<[i := refs i R + 1]> R) s' /\ (forall j y, at_ (inodes s) j = Some y -> 0 < i_ref y -> exists r, at_ (inodes s') j = Some (set_ref r y) /\ 0 < r) /\
  exists x, at_ (inodes s') ip = Some x /\ i_inum x = i /\ 0 < i_ref x) s.
Proof using BL.
  intros Hc Hsz. destruct (iget_got s 1 i (ca_ok _ _ _ _ Hc) (cache_room _ _ _ _ Hc Hsz)) as (ip & s' & Hrun & x & x' & Hx & -> & Hcase).
  apply (wp_eq _ _ _ _ _ Hrun). split; [done|]. pose proof (ipst_at s (blk s) ip x x' Hx) as Hip. pose proof (ic_lock _ (ca_ok _ _ _ _ Hc)) as Hl.
  assert (forall j y, at_ (inodes s) j = Some y -> 0 < i_ref y -> (j = ip -> exists r, x' = set_ref r y /\ 0 < r) -> exists r, at_ (inodes (ipst s (blk s) ip x')) j = Some (set_ref r y) /\ 0 < r) as Hkeep.
  { intros j y Hy Hyr Hsame. destruct (decide (j = ip)) as [->|Hne]; [destruct (Hsame eq_refl) as (r & -> & Hr); by exists r|]. exists (i_ref y). split; [|done].
    assert (set_ref (i_ref y) y = y) as -> by (by destruct y). cbn [inodes ipst]. by rewrite at_put_ne by (pose proof (at_range _ _ _ Hx); lia). }
  destruct Hcase as [[He ->]|(Hno & Hr0 & ->)].
  - unfold is_entry in He. apply andb_true_iff in He as [[Hr%Z.ltb_lt Hd%Z.eqb_eq]%andb_true_iff Hi%Z.eqb_eq]. subst i. split; [|split].
    + pose proof (cache_ref _ _ _ _ _ _ Hc Hx Hr) as HR. unfold refs. rewrite HR. cbn [default from_option id].
      pose proof (cache_upd view lk lk R s (ipst s (blk s) ip (set_ref (i_ref x + 1) x)) ip x (set_ref (i_ref x + 1) x) Hc Hx Hr) as Hu.
      assert (with_refs (i_inum x) (i_ref x + 1) R = <[i_inum x := i_ref x + 1]> R) as E by (unfold with_refs; destruct (Z.eqb_spec (i_ref x + 1) 0); [lia|done]).
      cbn [i_ref set_ref] in Hu. rewrite E in Hu. apply Hu; [done|done|done|done|lia| | |done|lia].
      * intros _. exact (ca_busy _ _ _ _ Hc ip x Hx Hr).
      * intros _ Hv. apply on_disk_ref. exact (ca_disk _ _ _ _ Hc ip x Hx Hr Hv).
    + intros j y Hy Hyr. apply Hkeep; [done|done|]. intros ->. rewrite Hx in Hy. injection Hy as <-. exists (i_ref x + 1). split; [done|lia].
    + exists (set_ref (i_ref x + 1) x). split; [done|]. cbn. split; [done|lia].
  - assert (R !! i = None) as HR.
    { destruct (R !! i) as [r|] eqn:HR; [|done]. exfalso. apply (ca_refs _ _ _ _ Hc) in HR as (Hr & j & y & Hy & Ey & Er). specialize (Hno j y Hy).
      unfold is_entry in Hno. rewrite (ca_dev _ _ _ _ Hc _ _ Hy), Ey, !Z.eqb_refl in Hno by lia. destruct (Z.ltb_spec 0 (i_ref y)); [done|lia]. }
    split; [|split].
    + unfold refs. rewrite HR. by eapply (cache_fresh view lk R s).
    + intros j y Hy Hyr. apply Hkeep; [done|done|]. intros ->. rewrite Hx in Hy. injection Hy as <-. lia.
    + exists (fresh_entry 1 i x). by split.
Qed.

Lemma with_refs_same i r R : R !! i = Some r -> 0 < r -> with_refs i r R = R.
Proof. intros H Hr. unfold with_refs. destruct (Z.eqb_spec r 0); [lia|]. by apply insert_id. Qed.

(** the two flags *)
Lemma busy_flags f : has (Z.lor f I_BUSY) I_BUSY = true /\ has (Z.lor f I_BUSY) I_VALID = has f I_VALID /\
  has (Z.land f (Z.lnot I_BUSY)) I_BUSY = false /\ has (Z.land f (Z.lnot I_BUSY)) I_VALID = has f I_VALID /\
  has (Z.lor f I_VALID) I_BUSY = has f I_BUSY /\ has (Z.lor f I_VALID) I_VALID = true.
Proof.
  unfold has, I_BUSY, I_VALID. change 1 with (2 ^ 0). change 2 with (2 ^ 1). rewrite !Bio.land_bit by lia.
  rewrite !Z.lor_spec, !Z.land_spec, !Z.lnot_spec by lia. rewrite !Z.pow2_bits_eqb by lia. cbn [Z.eqb].
  destruct (Z.testbit f 0), (Z.testbit f 1); done.
Qed.

(** an entry that holds the disk's inode *)
Lemma disk_same view n d : on_disk view n -> disk_inode view (i_inum n) = Some d -> n = loaded d n.
Proof. intros Hn Hd. destruct (dinode_of_loaded _ _ _ _ Hd) as [_ Hd']. unfold on_disk in Hn. rewrite Hd' in Hn. by injection Hn. Qed.

Section disk.
Context (a : bool) (view : Z -> list Z) (lg : gset Z) (sb : superblock) (T : Z -> Prop).
Hypothesis Hlg : (base.size lg < 10)%nat.
Definition on_store s : Prop := holds a (blk s) ∅ ∅ view lg /\ tree sb view (nblk (blk s)) T.

Lemma on_store_same s s' : on_store s -> holds a (blk s') ∅ ∅ view lg -> nblk (blk s') = nblk (blk s) -> on_store s'.
Proof. intros [_ H2] H E. split; [done|by rewrite E]. Qed.

Lemma cache_ilock R s ip x : cache view None R s -> on_store s -> at_ (inodes s) ip = Some x -> 0 < i_ref x -> T (i_inum x) ->
  wp (ilock ip) (fun _ s' => on_store s' /\ same_store s (blk s') /\ cwd s' = cwd s /\ cache view (Some ip) R s' /\
    exists n, at_ (inodes s') ip = Some n /\ on_disk view n /\ i_inum n = i_inum x /\ i_dev n = 1 /\ 0 < i_ref n) s.
Proof using BL Hlg.
  intros Hc [Hh Ht] Hx Hr HT. pose proof (ic_lock _ (ca_ok _ _ _ _ Hc)) as Hl. pose proof (ca_dev _ _ _ _ Hc _ _ Hx Hr) as Hd.
  assert (has (i_flags x) I_BUSY = false) as Hb by (rewrite (ca_busy _ _ _ _ Hc _ _ Hx Hr); by apply bool_decide_eq_false).
  destruct (busy_flags (i_flags x)) as (F1 & F2 & _ & _ & _ & _). pose proof (cache_ref _ _ _ _ _ _ Hc Hx Hr) as HR.
  assert (forall b y, i_dev y = i_dev x -> i_inum y = i_inum x -> i_ref y = i_ref x -> has (i_flags y) I_BUSY = true -> on_disk view y ->
    holds a b ∅ ∅ view lg -> same_store s b -> on_store (ipst s b ip y) /\ same_store s (blk (ipst s b ip y)) /\ cwd (ipst s b ip y) = cwd s /\
    cache view (Some ip) R (ipst s b ip y) /\ exists n, at_ (inodes (ipst s b ip y)) ip = Some n /\ on_disk view n /\ i_inum n = i_inum x /\ i_dev n = 1 /\ 0 < i_ref n) as Hpost.
  { intros b y Ed Ei Er Hby Hdy Hb2 Hs2. split; [apply (on_store_same s); [done|done|apply Hs2]|]. split; [done|]. split; [done|]. split.
    - rewrite <-(with_refs_same (i_inum x) (i_ref x) R HR Hr), <-Er.
      apply (cache_upd view None (Some ip) R s _ ip x y Hc Hx Hr); try done; [lia|..].
      + intros _. rewrite Hby. symmetry. by apply bool_decide_eq_true.
      + intros j Hj. split; [intros [= ->]; done|done].
      + intros _. lia.
    - exists y. split; [by eapply ipst_at|]. split; [done|]. split; [done|]. split; [congruence|lia]. }
  destruct (has (i_flags x) I_VALID) eqn:Hv.
  - apply (ilock_valid s ip x Hl Hx ltac:(lia) Hb); [done|]. apply Hpost; try done. apply on_disk_flag. by apply (ca_disk _ _ _ _ Hc _ _ Hx Hr).
  - destruct (tr_inode _ _ _ _ Ht _ HT) as (d & Hdi & Hty & _). pose proof (tr_ino _ _ _ _ Ht _ HT) as Hino.
    destruct (dinode_of_loaded _ _ _ _ Hdi) as [_ Hdx].
    eapply (ilock_load a s view lg sb ip x Hl Hx ltac:(lia) Hb); [done|done|apply Ht|done|done|done|exact (Hdx x)|done|].
    intros b Hb2 Hs2. assert (loaded (loaded d x) x = loaded d x) as -> by (by destruct d, x). apply Hpost; try done.
    + unfold valid, busy. cbn [i_flags set_flags]. destruct (busy_flags (Z.lor (i_flags (loaded d x)) I_BUSY)) as (_ & _ & _ & _ & -> & _). apply busy_flags.
    + unfold valid, busy. do 2 apply on_disk_flag. unfold on_disk. change (i_inum (loaded d x)) with (i_inum x). rewrite Hdx. by destruct d, x.
Qed.

Lemma cache_iunlock R s ip n : cache view (Some ip) R s -> at_ (inodes s) ip = Some n -> 0 < i_ref n -> on_disk view n ->
  wp (iunlock ip) (fun _ s' => near s s' /\ cache view None R s' /\ exists y, at_ (inodes s') ip = Some y /\ i_inum y = i_inum n /\ 0 < i_ref y /\ on_disk view y) s.
Proof using BL.
  clear Hlg. intros Hc Hx Hr Hd. pose proof (ic_lock _ (ca_ok _ _ _ _ Hc)) as Hl. destruct (busy_flags (i_flags n)) as (_ & _ & F3 & F4 & _).
  assert (has (i_flags n) I_BUSY = true) as Hb by (rewrite (ca_busy _ _ _ _ Hc _ _ Hx Hr); by apply bool_decide_eq_true).
  eapply wp_eq; [apply (iunlock_spec s ip n Hl Hx ltac:(lia) Hb)|]. split; [done|]. split.
  - rewrite <-(with_refs_same (i_inum n) (i_ref n) R (cache_ref _ _ _ _ _ _ Hc Hx Hr) Hr).
    apply (cache_upd view (Some ip) None R s _ ip n (set_flags (Z.land (i_flags n) (Z.lnot I_BUSY)) n) Hc Hx Hr); [done|done|done|done|cbn; lia| | | |done].
    + intros _. etrans; [exact F3|]. symmetry. by apply bool_decide_eq_false.
    + intros _ _. by apply on_disk_flag.
    + intros j Hj. split; [done|]. intros [= ->]. done.
  - eexists. split; [by eapply at_put_of|]. split; [done|]. split; [done|]. by apply on_disk_flag.
Qed.

Lemma cache_iput R s ip x : cache view None R s -> on_store s -> at_ (inodes s) ip = Some x -> 0 < i_ref x -> T (i_inum x) ->
  wp (iput ip) (fun _ s' => near s s' /\ cache view None (with_refs (i_inum x) (refs (i_inum x) R - 1) R) s') s.
Proof using BL.
  clear Hlg. intros Hc [_ Ht] Hx Hr HT. pose proof (ic_lock _ (ca_ok _ _ _ _ Hc)) as Hl.
  eapply wp_eq.
  { apply (iput_keep s ip x Hl Hx). destruct (has (i_flags x) I_VALID) eqn:Hv; [|by rewrite andb_false_r].
    destruct (tr_inode _ _ _ _ Ht _ HT) as (d & Hdi & _ & Hln). pose proof (disk_same view x d (ca_disk _ _ _ _ Hc _ _ Hx Hr Hv) Hdi) as E.
    destruct (Z.eqb_spec (i_nlink x) 0) as [E0|]; [|by rewrite andb_false_r]. exfalso. apply Hln. rewrite E in E0. exact E0. }
  split; [done|]. unfold refs. rewrite (cache_ref _ _ _ _ _ _ Hc Hx Hr). cbn [default from_option id].
  apply (cache_upd view None None R s _ ip x (set_ref (i_ref x - 1) x) Hc Hx Hr); try done; [cbn; lia| |].
  - intros _. exact (ca_busy _ _ _ _ Hc ip x Hx Hr).
  - intros _ Hv. apply on_disk_ref. exact (ca_disk _ _ _ _ Hc ip x Hx Hr Hv).
Qed.

(** references taken and given back *)
Definition counted R : Prop := forall i r, R !! i = Some r -> 0 < r.
Lemma cache_counted lk R s : cache view lk R s -> counted R.
Proof. intros Hc i r H. by apply (ca_refs _ _ _ _ Hc) in H as [? _]. Qed.
Lemma lookup_with_refs i r R j : with_refs i r R !! j = if decide (j = i) then if r =? 0 then None else Some r else R !! j.
Proof.
  unfold with_refs. destruct (Z.eqb_spec r 0); case_decide; subst; by rewrite ?lookup_delete_eq, ?lookup_insert_eq, ?lookup_delete_ne, ?lookup_insert_ne by done.
Qed.
Lemma refs_insert i r R j : refs j (<[i := r]> R) = if decide (j = i) then r else refs j R.
Proof. unfold refs. case_decide; subst; by rewrite ?lookup_insert_eq, ?lookup_insert_ne by done. Qed.
Lemma refs_back i R : counted R -> with_refs i (refs i (<[i := refs i R + 1]> R) - 1) (<[i := refs i R + 1]> R) = R.
Proof.
  intros Hp. rewrite refs_insert, decide_True by done. rewrite Z.add_simpl_r. apply map_eq. intros j. rewrite lookup_with_refs.
  case_decide as Hj; [subst j|by rewrite lookup_insert_ne by done]. unfold refs. destruct (R !! i) as [r|] eqn:E; [|done]. cbn [default from_option id].
  specialize (Hp i r E). by destruct (Z.eqb_spec r 0); [lia|].
Qed.
Lemma refs_move i k R : counted R -> let R1 := <[i := refs i R + 1]> R in let R2 := <[k := refs k R1 + 1]> R1 in
  with_refs i (refs i R2 - 1) R2 = <[k := refs k R + 1]> R.
Proof.
  intros Hp R1 R2. apply map_eq. intros j. unfold R2, R1. rewrite lookup_with_refs, !refs_insert. destruct (decide (j = i)) as [->|Hj].
  - rewrite (decide_True (P := i = i)) by done. destruct (decide (i = k)) as [->|Hk].
    + rewrite (decide_True (P := k = k)), lookup_insert_eq by done. rewrite Z.add_simpl_r. assert (0 <= refs k R) by (unfold refs; destruct (R !! k) eqn:E; [apply Hp in E|]; cbn; lia).
      destruct (Z.eqb_spec (refs k R + 1) 0); [lia|done].
    + rewrite lookup_insert_ne by done. rewrite Z.add_simpl_r. unfold refs. destruct (R !! i) as [r|] eqn:E; [|done]. cbn [default from_option id].
      specialize (Hp i r E). by destruct (Z.eqb_spec r 0); [lia|].
  - destruct (decide (j = k)) as [->|Hk]; [rewrite !lookup_insert_eq, decide_False by done; done|]. by rewrite !lookup_insert_ne by done.
Qed.

Lemma named_hit name e : length name = 14%nat -> 0 ∉ e -> forall de, hit (stored name e) de <-> named e de.
Proof. intros Hn He de. unfold hit, named. by rewrite chars_stored. Qed.

(** a directory as the disk has it and as it is in the cache *)
Lemma disk_dir s n : on_store s -> T (i_inum n) -> on_disk view n -> i_dev n = 1 ->
  match directory view (i_inum n) with
  | Some d => i_type n = T_DIR /\ icontent view n = icontent view d /\ ifile sb view (nblk (blk s)) n /\ i_size n mod 16 = 0
  | None => i_type n <> T_DIR
  end.
Proof.
  intros [_ Ht] HT Hd Hdev. destruct (tr_inode _ _ _ _ Ht _ HT) as (d & Hdi & _). pose proof (disk_same view n d Hd Hdi) as E.
  assert (i_type n = i_type d) as Ety by (by rewrite E). pose proof (fun x => tr_dir _ _ _ _ Ht _ x HT) as Htd. unfold directory in *. rewrite Hdi in *. cbn [mbind option_bind] in *.
  rewrite Ety. destruct (Z.eqb_spec (i_type d) T_DIR) as [Hdir|]; [|done]. destruct (Htd d eq_refl) as [[F1 F2 F3 F4 F5] Hsz].
  split; [done|]. split; [by rewrite E|]. split; [|by rewrite E]. rewrite E. by split.
Qed.

Definition at_inode s ip i : Prop := exists x, at_ (inodes s) ip = Some x /\ i_inum x = i /\ 0 < i_ref x.
Lemma cache_iunlockput R s ip n : cache view (Some ip) R s -> on_store s -> at_ (inodes s) ip = Some n -> 0 < i_ref n -> on_disk view n -> T (i_inum n) ->
  wp (iunlockput ip) (fun _ s' => near s s' /\ cache view None (with_refs (i_inum n) (refs (i_inum n) R - 1) R) s' /\
    forall j k, at_inode s j k -> (j = ip -> 1 < i_ref n) -> at_inode s' j k) s.
Proof using BL.
  clear Hlg. intros Hc Hs Hx Hr Hd HT. unfold iunlockput. wp_step. pose proof (cache_iunlock R s ip n Hc Hx Hr Hd) as Hw.
  assert (has (i_flags n) I_BUSY = true) as Hb by (rewrite (ca_busy _ _ _ _ Hc _ _ Hx Hr); by apply bool_decide_eq_true).
  pose proof (iunlock_spec s ip n (ic_lock _ (ca_ok _ _ _ _ Hc)) Hx ltac:(lia) Hb) as Hrun. set (s1 := St _ _ _ _ _) in Hrun.
  apply wp_done in Hw as ([] & s1' & Hrun' & [N1 N1'] & Hc1 & y & Hy & Ey & Hyr & Hyd). rewrite Hrun in Hrun'. injection Hrun' as <-. apply (wp_eq _ _ _ _ _ Hrun).
  assert (on_store s1) as Hs1 by exact Hs. pose proof (cache_iput R s1 ip y Hc1 Hs1 Hy Hyr ltac:(by rewrite Ey)) as Hw.
  assert (y = set_flags (Z.land (i_flags n) (Z.lnot I_BUSY)) n) as Ey'. { cbn [s1 inodes] in Hy. rewrite (at_put_of _ _ _ _ Hx) in Hy. by injection Hy as <-. }
  assert ((i_ref y =? 1) && has (i_flags y) I_VALID && (i_nlink y =? 0) = false) as Hkeep.
  { destruct (has (i_flags y) I_VALID) eqn:Hv; [|by rewrite andb_false_r]. destruct Hs as [_ Ht].
    destruct (tr_inode _ _ _ _ Ht _ HT) as (d & Hdi & _ & Hln). rewrite <-Ey in Hdi. pose proof (disk_same view y d Hyd Hdi) as E.
    destruct (Z.eqb_spec (i_nlink y) 0) as [E0|]; [|by rewrite andb_false_r]. exfalso. apply Hln. rewrite E in E0. exact E0. }
  pose proof (iput_keep s1 ip y (ic_lock _ (ca_ok _ _ _ _ Hc1)) Hy Hkeep) as Hrun2. apply wp_done in Hw as ([] & s2 & Hrun2' & [N2 N2'] & Hc2).
  rewrite Hrun2 in Hrun2'. injection Hrun2' as <-. apply (wp_eq _ _ _ _ _ Hrun2). split; [split; congruence|]. split; [by rewrite <-Ey|].
  intros j k (x & Hxj & Exj & Hxr) Hone. pose proof (at_range _ _ _ Hx) as Hrg. destruct (decide (j = ip)) as [->|Hj].
  - rewrite Hx in Hxj. injection Hxj as <-. exists (set_ref (i_ref y - 1) y). split; [by eapply ipst_at|]. split; [by rewrite <-Exj, <-Ey|]. rewrite Ey'. cbn. specialize (Hone eq_refl). lia.
  - exists x. split; [|done]. unfold ipst. cbn [inodes s1]. by rewrite !at_put_ne by lia.
Qed.

(** what a lookup returns: an inode with one reference more, or null and the references as they were *)
Definition found (parent : bool) R (es : list (list Z)) (goal : option Z) (r : Z * list Z) s : Prop :=
  match goal with
  | None => r.1 = NULL /\ cache view None R s
  | Some i => cache view None (<[i := refs i R + 1]> R) s /\ at_inode s r.1 i /\
      (parent = true -> exists e, last es = Some e /\ chars 14 r.2 = take 14 e)
  end.
Definition unmoved s s' : Prop := on_store s' /\ same_store s (blk s') /\ cwd s' = cwd s.
Lemma unmoved_trans s s1 s2 : unmoved s s1 -> unmoved s1 s2 -> unmoved s s2.
Proof. intros (_ & H1 & E1) (H & H2 & E2). split; [done|]. split; [|congruence]. destruct H1, H2. split; congruence. Qed.
Lemma unmoved_near s s1 s2 : unmoved s s1 -> near s1 s2 -> unmoved s s2.
Proof. intros (H1 & H2 & H3) [E1 E2]. unfold unmoved, on_store. rewrite E1, E2. done. Qed.

Lemma namex_round parent R s ip cur p r name : (0 ∉ p) -> length name = 14%nat -> (base.size R <= 48)%nat -> counted R ->
  cache view None (<[cur := refs cur R + 1]> R) s -> at_inode s ip cur -> T cur -> on_store s ->
  wp (namex_body parent (ip, p ++ 0 :: r, name)) (fun res s' => unmoved s s' /\ match res with
    | inl (ip', path', name') => exists e p' nx, elements p = e :: elements p' /\ path' = p' ++ 0 :: r /\ (0 ∉ p') /\ (length p' < length p)%nat /\
        length name' = 14%nat /\ T nx /\ cache view None (<[nx := refs nx R + 1]> R) s' /\ at_inode s' ip' nx /\
        target parent view cur (elements p) = target parent view nx (elements p') /\ (parent = true -> elements p' <> [])
    | inr (false, ip', name') => elements p = [] /\ ip' = ip /\ s' = s
    | inr (true, ip', name') => found parent R (elements p) (target parent view cur (elements p)) (ip', name') s'
    end) s.
Proof using BL Hlg.
  intros H0 Hn Hsz Hcnt Hc (x & Hx & Ex & Hr) HT Hs. unfold namex_body. wp_step. destruct (decide (strip p = [])) as [Hp|Hp].
  { eapply wp_deref; [by apply skipelem_none|]. cbn beta iota. wp_step. split; [split; [done|split; [apply same_refl|done]]|]. split; [by apply strip_nil|done]. }
  destruct (skipelem_some p r name H0 Hp Hn) as (e & p' & H0' & H0e & Hel & Hlen & Hlast & Hsk).
  eapply wp_deref; [exact Hsk|]. cbn beta iota. set (R1 := <[cur := refs cur R + 1]> R) in *.
  wp_step. eapply wp_mono; [apply (cache_ilock R1 s ip x); by rewrite ?Ex|]. cbn beta. intros _ s1 (Hs1 & Hsame1 & Ecw1 & Hc1 & n & Hat & Hd & Ei & Hdev & Hnr).
  assert (unmoved s s1) as Hu1 by done. rewrite Ex in Ei. wp_step. eapply wp_ld_ip; [exact Hat|].
  assert (forall b, holds a b ∅ ∅ view lg -> same_store s1 b -> unmoved s (set_blk b s1) /\ cache view (Some ip) R1 (set_blk b s1)) as Hblk.
  { intros b Hb Hsb. split; [|by apply (cache_ino _ _ _ s1); [|done|apply (ca_ok _ _ _ _ Hc1)]]. split; [apply (on_store_same s1); [done|done|apply Hsb]|].
    split; [|done]. destruct Hsame1, Hsb. split; cbn; congruence. }
  assert (forall b, holds a b ∅ ∅ view lg -> same_store s1 b -> wp (iunlockput ip) (fun _ s2 => unmoved s s2 /\ cache view None R s2) (set_blk b s1)) as Hgive.
  { intros b Hb Hsb. destruct (Hblk b Hb Hsb) as [Hub Hcb]. eapply wp_mono; [apply (cache_iunlockput R1 (set_blk b s1) ip n); [done|apply Hub|done|done|done|by rewrite Ei]|].
    cbn beta. intros _ s2 (Hn2 & Hc2 & _). split; [by eapply unmoved_near|]. rewrite Ei in Hc2. unfold R1 in Hc2. by rewrite refs_back in Hc2. }
  pose proof (disk_dir s1 n Hs1 ltac:(by rewrite Ei) Hd Hdev) as Hdir. rewrite Ei in Hdir. rewrite Hel. cbn [target]. destruct (directory view cur) as [d|] eqn:Edir.
  2:{ apply Z.eqb_neq in Hdir. rewrite Hdir. cbn [negb]. wp_step. pose proof (Hgive (blk s1) (proj1 Hs1) (same_refl s1)) as Hg. rewrite set_blk_id in Hg. eapply wp_mono; [exact Hg|]. cbn beta. intros _ s2 [Hu2 Hc2]. wp_step. by split. }
  destruct Hdir as (Hty & Hcon & Hif & Hmod). rewrite Hty. change (negb (T_DIR =? T_DIR)) with false. cbn iota. cbn [mbind option_bind].
  wp_step. eapply (wp_deref _ _ _ (default 0 (head p'))); [by destruct p'|].
  assert ((default 0 (head p') =? 0) = (length (elements p') =? 0)%nat) as ->.
  { destruct p' as [|b p']; [done|]. cbn [head default from_option id]. assert (b <> 0) as Hb by (intros ->; apply H0'; by left). apply Z.eqb_neq in Hb. rewrite Hb.
    destruct (elements (b :: p')) eqn:E; [by specialize (Hlast eq_refl)|done]. }
  destruct (parent && (length (elements p') =? 0)%nat) eqn:Ep.
  { apply andb_true_iff in Ep as [-> Ee%Nat.eqb_eq]. wp_step. eapply wp_mono; [by apply (cache_iunlock R1 s1 ip n)|]. cbn beta. intros _ s2 (Hn2 & Hc2 & y & Hy & Ey & Hyr & _).
    wp_step. split; [by eapply unmoved_near|]. cbn [found fst snd]. split; [done|]. split; [exists y; split; [done|]; split; [congruence|done]|]. intros _. exists e. split; [by destruct (elements p')|by apply chars_stored]. }
  pose proof Hs1 as [Hh1 Ht1].
  assert (dir_at a s1 view lg sb ip n) as Hda by (constructor; done).
  assert (obj_ok 14 (stored name e)) as Hobj by (left; rewrite length_stored by done; lia).
  assert (list_find (hit (stored name e)) (dents (icontent view n)) = list_find (named e) (dents (icontent view d))) as Hfind.
  { rewrite Hcon. apply list_find_ext. by apply named_hit. }
  wp_step. eapply (dirlookup_spec a s1 view lg sb ip n); [exact Hda|exact Hobj|..]; rewrite Hfind.
  - intros b Hb Hsb ->. cbn [mbind option_bind]. wp_step.
    eapply wp_mono; [by apply Hgive|]. cbn beta. intros _ s2 [Hu2 Hc2]. wp_step. by split.
  - intros b k de Hb Hsb Efind. cbn [mbind option_bind]. rewrite Efind. cbn [mbind option_bind snd]. rewrite Hdev. destruct (Hblk b Hb Hsb) as [Hub Hcb].
    set (s2 := set_blk b s1) in *. set (nx := de_inum de).
    eapply wp_mono; [apply (cache_iget view (Some ip) R1 s2 nx Hcb)|].
    { unfold R1. rewrite map_size_insert. destruct (R !! cur); cbn; lia. }
    cbn beta. intros ip' s3 (Hn3 & Hc3 & Hkeep & Hnx). cbn beta iota. wp_step. destruct (Hkeep ip n Hat Hnr) as (rn & Hat3 & Hrn).
    pose proof (unmoved_near _ _ _ Hub Hn3) as Hu3.
    eapply wp_mono; [apply (cache_iunlockput _ s3 ip (set_ref rn n) Hc3); [apply Hu3|done|done|by apply on_disk_ref|cbn; by rewrite Ei]|].
    cbn beta. intros _ s4 (Hn4 & Hc4 & Hent). wp_step. cbn [i_inum set_ref] in Hc4. rewrite Ei in Hc4. unfold R1 in Hc4. rewrite refs_move in Hc4 by done.
    split; [by eapply unmoved_near|]. exists e, p', nx. split; [done|]. split; [done|]. split; [done|]. split; [done|]. split; [by apply length_stored|].
    apply list_find_Some in Efind as (Hde & [Hde0 _] & _). split; [|split; [done|split; [|split; [done|]]]].
    + apply (tr_child _ _ _ _ Ht1 cur d de HT); [done|by eapply list_elem_of_lookup_2|done].
    + apply Hent; [done|]. intros ->. destruct Hnx as (z & Hz & Ez & _). rewrite Hat3 in Hz. injection Hz as <-. cbn [i_inum set_ref i_ref] in *.
      pose proof (cache_ref _ _ _ _ _ _ Hc3 Hat3 Hrn) as HR. cbn [i_inum set_ref i_ref] in HR. rewrite Ez, lookup_insert_eq in HR. injection HR as <-.
      assert (nx = cur) as -> by congruence. unfold R1. rewrite refs_insert, decide_True by done. unfold refs. destruct (R !! cur) as [v|] eqn:E; [apply Hcnt in E|]; cbn; lia.
    + intros -> E. rewrite E in Ep. done.
Qed.

Lemma cache_idup R s ip i : cache view None R s -> on_store s -> at_inode s ip i -> wp (idup ip) (fun ip' s' => ip' = ip /\ unmoved s s' /\
  cache view None (<[i := refs i R + 1]> R) s' /\ at_inode s' ip i) s.
Proof using BL.
  clear Hlg. intros Hc Hs (x & Hx & Ex & Hr). eapply wp_eq; [by apply idup_spec; [apply (ca_ok _ _ _ _ Hc)|]|].
  split; [done|]. split; [split; [exact Hs|by split]|]. split; [|exists (set_ref (i_ref x + 1) x); split; [by eapply ipst_at|split; [done|cbn; lia]]].
  pose proof (cache_ref _ _ _ _ _ _ Hc Hx Hr) as HR. rewrite Ex in HR. unfold refs. rewrite HR. cbn [default from_option id].
  pose proof (cache_upd view None None R s (ipst s (blk s) ip (set_ref (i_ref x + 1) x)) ip x (set_ref (i_ref x + 1) x) Hc Hx Hr) as Hu.
  assert (with_refs (i_inum x) (i_ref x + 1) R = <[i := i_ref x + 1]> R) as E by (unfold with_refs; rewrite Ex; destruct (Z.eqb_spec (i_ref x + 1) 0); [lia|done]).
  cbn [i_ref set_ref] in Hu. rewrite E in Hu. apply Hu; [done|apply (ca_ok _ _ _ _ Hc)|done|done|lia| | |done|lia].
  - intros _. exact (ca_busy _ _ _ _ Hc ip x Hx Hr).
  - intros _ Hv. apply on_disk_ref. exact (ca_disk _ _ _ _ Hc ip x Hx Hr Hv).
Qed.

(** where a path starts: the root, or the current directory [c] *)
Definition start (c : Z) (p : list Z) : Z := if default 0 (head p) =? SLASH then ROOTINO else c.

Lemma namex_spec parent R s c p r name : cache view None R s -> on_store s -> at_inode s (cwd s) c -> T c -> T ROOTINO ->
  (0 ∉ p) -> length name = 14%nat -> (base.size R <= 48)%nat ->
  wp (namex (p ++ 0 :: r) parent name) (fun res s' => unmoved s s' /\
    found parent R (elements p) (target parent view (start c p) (elements p)) res s') s.
Proof using BL Hlg.
  intros Hc Hs Hcwd HTc HTr H0 Hn Hsz. pose proof (cache_counted _ _ _ Hc) as Hcnt. set (es := elements p). set (goal := target parent view (start c p) es).
  assert (T (start c p)) as HT by (unfold start; by destruct (_ =? _)).
  unfold namex. wp_step. eapply (wp_deref _ _ _ (default 0 (head p))); [by destruct p|]. wp_step.
  eapply (wp_mono _ (fun ip s' => unmoved s s' /\ cache view None (<[start c p := refs (start c p) R + 1]> R) s' /\ at_inode s' ip (start c p))).
  { unfold start. destruct (default 0 (head p) =? SLASH).
    - change ROOTDEV with 1. eapply wp_mono; [apply (cache_iget view None R s ROOTINO Hc); lia|]. cbn beta. intros ip s' (Hn' & Hc' & _ & Hat).
      split; [|done]. eapply unmoved_near; [|exact Hn']. split; [done|]. split; [apply same_refl|done].
    - wp_step. wp_step. eapply wp_mono; [by apply (cache_idup R s (cwd s) c)|]. cbn beta. intros ip s' (-> & Hu & Hc' & Hat). done. }
  cbn beta. intros ip s1 (Hu1 & Hc1 & Hat1). wp_step.
  apply (wp_loop _ _ _ _ _ (fun v s' => exists ip cur p' name', v = (ip, p' ++ 0 :: r, name') /\ (0 ∉ p') /\ length name' = 14%nat /\ unmoved s s' /\
    cache view None (<[cur := refs cur R + 1]> R) s' /\ at_inode s' ip cur /\ T cur /\ target parent view cur (elements p') = goal /\
    (elements p' <> [] -> last (elements p') = last es) /\ (parent = true -> elements p' = [] -> es = [])) (fun v => length (snd (fst v)))).
  - exists ip, (start c p), p, name. done.
  - cbn [fst snd]. lia.
  - intros v s' (ip' & cur & p' & name' & -> & H0' & Hn' & Hu' & Hc' & Hat' & HT' & Hgoal & Hlast & Hpar).
    eapply wp_mono; [apply (namex_round parent R s' ip' cur p' r name' H0' Hn' Hsz Hcnt Hc' Hat' HT'); apply Hu'|]. cbn beta.
    intros [[[ip2 path2] name2]|[[[] ip2] name2]] s2 [Hu2 H].
    + destruct H as (e & p2 & nx & Eel & -> & H02 & Hlen & Hn2 & HT2 & Hc2 & Hat2 & Htg & Hne). split; [|cbn [fst snd]; rewrite !length_app; cbn [length]; lia].
      exists ip2, nx, p2, name2. split; [done|]. split; [done|]. split; [done|]. split; [by eapply unmoved_trans|]. split; [done|]. split; [done|]. split; [done|].
      split; [congruence|]. split; [|by intros Hp Ep; destruct (Hne Hp)]. intros Hne2. rewrite <-Hlast by (by rewrite Eel). rewrite Eel. by destruct (elements p2).
    + cbn beta iota zeta. wp_step. split; [by eapply unmoved_trans|]. rewrite Hgoal in H. destruct goal as [i|]; [|done]. destruct H as (H1 & H2 & H3). split; [done|]. split; [done|].
      intros Hp. destruct (H3 Hp) as (e & He & Hch). exists e. split; [|done]. rewrite <-Hlast; [done|]. by intros E; rewrite E in He.
    + destruct H as (Eel & -> & ->). cbn beta iota zeta. rewrite Eel in Hgoal. destruct parent.
      * wp_step. destruct Hat' as (x & Hx & Ex & Hr). eapply wp_mono; [apply (cache_iput _ s' ip' x Hc'); [apply Hu'|done|done|by rewrite Ex]|]. cbn beta.
        intros _ s3 [Hn3 Hc3]. wp_step. split; [by eapply unmoved_near|]. rewrite <-Hgoal. cbn [target found fst]. split; [done|]. rewrite Ex, refs_back in Hc3 by done. done.
      * wp_step. split; [done|]. rewrite <-Hgoal. cbn [target found fst]. split; [done|]. split; [done|]. by intros [=].
Qed.

(** C6: on a disk whose directories form a tree, with no inode locked, an inode cache that agrees
    with the disk and counts its references, and two entries of it to spare, namei of a path returns the
    inode the tree leads to from the root or the current directory, element by element, compared in their first
    DIRSIZ characters, with exactly one reference more; or null and every reference as it was when an element on the way
    is missing or no directory.  nameiparent does the same for the directory the last element is to be looked up in, and
    leaves that element in the name array.  Both return, no disk block changes, nothing stays locked. *)
Theorem namei_correct R s c p r name : cache view None R s -> on_store s -> at_inode s (cwd s) c -> T c -> T ROOTINO ->
  (0 ∉ p) -> length name = 14%nat -> (base.size R <= 48)%nat ->
  (exists ip s', namei (p ++ 0 :: r) s = Done ip s' /\ unmoved s s' /\
     match target false view (start c p) (elements p) with
     | Some i => cache view None (<[i := refs i R + 1]> R) s' /\ at_inode s' ip i
     | None => ip = NULL /\ cache view None R s'
     end) /\
  exists ip name' s', nameiparent (p ++ 0 :: r) name s = Done (ip, name') s' /\ unmoved s s' /\
     match target true view (start c p) (elements p) with
     | Some i => cache view None (<[i := refs i R + 1]> R) s' /\ at_inode s' ip i /\
         exists e, last (elements p) = Some e /\ chars 14 name' = take 14 e
     | None => ip = NULL /\ cache view None R s'
     end.
Proof using BL Hlg.
  intros Hc Hs Hcwd HTc HTr H0 Hn Hsz. split.
  - pose proof (namex_spec false R s c p r (replicate (Z.to_nat DIRSIZ) 0) Hc Hs Hcwd HTc HTr H0 (length_replicate _ _) Hsz) as Hw.
    apply wp_done in Hw as ([ip name'] & s' & Hrun & Hu & Hf). exists ip, s'. unfold namei. rewrite (bind_done _ _ _ _ _ Hrun). split; [done|]. split; [done|].
    destruct (target _ _ _ _); [|done]. by destruct Hf as (? & ? & _).
  - pose proof (namex_spec true R s c p r name Hc Hs Hcwd HTc HTr H0 Hn Hsz) as Hw.
    apply wp_done in Hw as ([ip name'] & s' & Hrun & Hu & Hf). exists ip, name', s'. split; [exact Hrun|]. split; [done|].
    destruct (target _ _ _ _); [|done]. destruct Hf as (? & ? & Hlast). split; [done|]. split; [done|]. by apply Hlast.
Qed.
End disk.
End cache.

(** ** On the example disk *)

Import Store FsSpec.

(** the root is the current directory, and nothing else is in the cache *)
Definition demo_cwd : st Log.st := St demo_store false (demo_dir :: replicate 49 free_inode) 0 [].
Definition demo_tree (i : Z) : Prop := i = 1 \/ i = 2.

Lemma demo_entry j x : at_ (inodes demo_cwd) j = Some x -> j = 0 /\ x = demo_dir \/ j <> 0 /\ x = free_inode.
Proof.
  intros Hx. pose proof (at_range _ _ _ Hx) as Hr. destruct (decide (j = 0)) as [->|Hj]; [left; split; [done|by injection Hx]|right; split; [done|]].
  unfold at_ in Hx. destruct (Z.leb_spec 0 j); [|done]. replace (Z.to_nat j) with (S (Z.to_nat (j - 1))) in Hx by lia. cbn [inodes demo_cwd lookup list_lookup] in Hx.
  by apply lookup_replicate in Hx as [-> _].
Qed.
Lemma demo_cwd_cache : cache demo_view None {[1 := 1]} demo_cwd.
Proof.
  constructor.
  - constructor; [done|done| |].
    + intros j x Hx. by apply demo_entry in Hx as [[-> ->]|[_ ->]].
    + intros i j x y Hx Hy Hxr Hyr _ _. apply demo_entry in Hx as [[-> ->]|[_ ->]], Hy as [[-> ->]|[_ ->]]; done.
  - intros i r. rewrite lookup_singleton_Some. split; [intros [<- <-]; split; [lia|]; by exists 0, demo_dir|].
    intros (Hr & j & x & Hx & <- & <-). apply demo_entry in Hx as [[-> ->]|[_ ->]]; [done|]. cbn in Hr. lia.
  - intros j x Hx Hr. by apply demo_entry in Hx as [[-> ->]|[_ ->]].
  - intros j x Hx Hr. apply demo_entry in Hx as [[-> ->]|[_ ->]]; [done|cbn in Hr; lia].
  - intros j x Hx Hr Hv. apply demo_entry in Hx as [[-> ->]|[_ ->]]; done.
  - done.
Qed.
Lemma demo_disk_tree : tree demo_sb demo_view (nblk (blk demo_cwd)) demo_tree.
Proof.
  assert (directory demo_view 2 = None) as E2 by (vm_compute; reflexivity).
  assert (directory demo_view 1 = Some (set_ref 0 demo_dir)) as E1 by (vm_compute; reflexivity).
  constructor.
  - exact demo_layout.
  - intros i [->| ->]; cbn; lia.
  - intros i [->| ->]; eexists; (split; [vm_compute; reflexivity|]); done.
  - intros i n [->| ->] Hn; [|congruence]. rewrite E1 in Hn. injection Hn as <-. split; [|done]. destruct demo_dir_file as [H1 H2 H3 H4 H5]. by split.
  - intros i n de [->| ->] Hn Hde H0; [|congruence]. rewrite E1 in Hn. injection Hn as <-.
    assert (dents (icontent demo_view (set_ref 0 demo_dir)) = [Dirent 1 (46 :: replicate 13 0); Dirent 1 (46 :: 46 :: replicate 12 0); Dirent 2 (102 :: replicate 13 0)]) as E by (vm_compute; reflexivity).
    rewrite E in Hde. rewrite !elem_of_cons, elem_of_nil in Hde. destruct Hde as [->|[->|[->|[]]]]; [by left|by left|by right].
Qed.
(** "/..//f": the file, inode 2, and for its parent the root and the name "f" *)
Lemma namei_correct_witness :
  (exists ip s', namei [47; 46; 46; 47; 47; 102; 0] demo_cwd = Done ip s' /\ at_inode s' ip 2) /\
  exists ip name' s', nameiparent [47; 46; 46; 47; 47; 102; 0] (replicate 14 0) demo_cwd = Done (ip, name') s' /\ at_inode s' ip 1 /\ chars 14 name' = [102].
Proof.
  assert (holds true (blk demo_cwd) ∅ ∅ demo_view ∅ /\ tree demo_sb demo_view (nblk (blk demo_cwd)) demo_tree) as Hs by (split; [exact demo_holds|exact demo_disk_tree]).
  assert (at_inode demo_cwd (cwd demo_cwd) 1) as Hcwd by (exists demo_dir; done).
  assert ((0 ∉ [47; 46; 46; 47; 47; 102])) as H0 by (apply (bool_decide_unpack _); vm_compute; exact I).
  destruct (namei_correct true demo_view ∅ demo_sb demo_tree ltac:(rewrite size_empty; lia) {[1 := 1]} demo_cwd 1 [47; 46; 46; 47; 47; 102] [] (replicate 14 0)
    demo_cwd_cache Hs Hcwd ltac:(by left) ltac:(by left) H0 eq_refl ltac:(rewrite map_size_singleton; lia)) as [(ip & s' & Hrun & _ & Hf) (ip2 & nm & s2 & Hrun2 & _ & Hf2)].
  assert (target false demo_view (start 1 [47; 46; 46; 47; 47; 102]) (elements [47; 46; 46; 47; 47; 102]) = Some 2) as E by (vm_compute; reflexivity).
  assert (target true demo_view (start 1 [47; 46; 46; 47; 47; 102]) (elements [47; 46; 46; 47; 47; 102]) = Some 1) as E2 by (vm_compute; reflexivity).
  rewrite E in Hf. rewrite E2 in Hf2. split; [exists ip, s'; split; [exact Hrun|apply Hf]|]. exists ip2, nm, s2. destruct Hf2 as (_ & Hat & e & He & Hch).
  split; [exact Hrun2|]. split; [exact Hat|]. rewrite Hch. vm_compute in He. by injection He as <-.
Defined.
End Namei.
