(* ===== verification/ExecFile.v ===== *)
(** * exec() on the file system (src/src/exec.c over src/src/fs.c)

    The file system of Fs.v keeps the promise exec() relies on: a regular file
    whose inode is in the cache, locked, read and put; and namei() of Namei.v
    finds it. *)

From S2P Require Import Prelude.
From S2P Require Import Bytes.
From S2P Require Import Bio.
From S2P Require Import Log.
From S2P Require Import Store.
From S2P Require Import Fs.
From S2P Require Import Content.
From S2P Require Import Inode.
From S2P Require Import Dir.
From S2P Require Import FsSpec.
From S2P Require Import Namei.
From S2P Require Import FileIO.
From S2P Require Import Exec.
From S2P Require Import ExecLoad.

Module ExecFile.
Import Fs Content Inode FileIO.

Section fs.
Context {B : Type} {BS : BlockStore B} {DV : Devsw B} {BL : BlockStoreLaws B}.
Implicit Types (s : st B) (view : Z -> list Z) (n : inode).

(** an inode pointer is 0 for null, else one more than its index in the cache *)
Definition inode_ptr (i : Z) : Z := i + 1.
Definition inode_index (ip : Z) : Z := ip - 1.
#[export] Instance fs_exec : ExecFs (st B) := {
  x_namei path := i ← Dir.namei (path ++ [0]); mret (inode_ptr i);
  x_ilock ip := ilock (inode_index ip);
  x_readi ip off m := readi (inode_index ip) off m;
  x_iunlockput ip := iunlockput (inode_index ip);
}.

(** [n] describes a file of bytes [c] that is not going away *)
Record plain_file a s view (lg : gset Z) sb n (c : list Z) : Prop := {
  pf_holds : holds a (blk s) ∅ ∅ view lg;
  pf_file : ifile sb view (nblk (blk s)) n;
  pf_type : i_type n <> T_DEV;
  pf_nlink : i_nlink n <> 0;
  pf_room : (base.size lg < 10)%nat;
  pf_bytes : icontent view n = c;
  pf_lock : lock s = false;
}.
Definition fs_ref s ip c : Prop := exists a view lg sb x n, at_ (inodes s) (inode_index ip) = Some x /\ 1 <= i_ref x /\
  has (i_flags x) I_BUSY = false /\ plain_file a s view lg sb n c /\
  (has (i_flags x) I_VALID = true /\ n = x \/
   has (i_flags x) I_VALID = false /\ ino_ok sb x /\ i_dev x = 1 /\ exists d, dinode_of view (i_inum x) x = Some d /\ i_type d <> 0 /\ n = loaded d x).
Definition fs_locked s ip c : Prop := exists a view lg sb n, at_ (inodes s) (inode_index ip) = Some n /\ 1 <= i_ref n /\
  has (i_flags n) I_BUSY = true /\ plain_file a s view lg sb n c.
Definition fs_put s : Prop := exists a view lg, holds a (blk s) ∅ ∅ view lg /\ lock s = false.

Lemma plain_flags a s view lg sb n c fl : plain_file a s view lg sb n c -> plain_file a s view lg sb (set_flags fl n) c.
Proof. intros [H1 H2 H3 H4 H5 H6 H7]. split; try done. by apply ifile_flags. Qed.
Lemma plain_same a s view lg sb n c i y b : plain_file a s view lg sb n c -> same_store s b -> holds a b ∅ ∅ view lg -> plain_file a (ipst s b i y) view lg sb n c.
Proof. intros [H1 H2 H3 H4 H5 H6 H7] [E _] Hb. split; try done. cbn. by rewrite E. Qed.
Lemma busy_busy n : has (i_flags (busy n)) I_BUSY = true.
Proof.
  unfold has, busy. cbn [i_flags set_flags]. unfold I_BUSY. change 1 with (2 ^ 0). rewrite Bio.land_bit by lia.
  rewrite Z.lor_spec, Z.pow2_bits_true by lia. by rewrite orb_true_r.
Qed.
Lemma valid_busy n : has (i_flags n) I_BUSY = true -> has (i_flags (valid n)) I_BUSY = true.
Proof.
  unfold has, valid. cbn [i_flags set_flags]. unfold I_BUSY. change 1 with (2 ^ 0). rewrite !Bio.land_bit by lia.
  rewrite Z.lor_spec. rewrite !negb_involutive. by intros ->.
Qed.

Lemma fs_ilock s ip c : fs_ref s ip c -> wp (x_ilock ip) (fun _ s' => fs_locked s' ip c) s.
Proof.
  intros (a & view & lg & sb & x & n & Hx & Hr & Hb & Hp & [[Hv ->]|(Hv & Hino & Hdev & d & Hd & Hty & ->)]); cbn [x_ilock fs_exec].
  - apply (ilock_valid s _ x (pf_lock _ _ _ _ _ _ _ Hp) Hx Hr Hb); [done|]. exists a, view, lg, sb, (busy x).
    split; [by eapply ipst_at|]. split; [done|]. split; [apply busy_busy|]. apply plain_flags. apply plain_same; [done|by split|apply Hp].
  - eapply (ilock_load a s view lg sb _ x (pf_lock _ _ _ _ _ _ _ Hp) Hx Hr Hb); [done|apply Hp|apply (if_layout _ _ _ _ (pf_file _ _ _ _ _ _ _ Hp))|done|done|apply Hp|exact Hd|done|].
    intros b Hb2 Hs2. exists a, view, lg, sb, (valid (busy (loaded d x))). split; [by eapply ipst_at|]. split; [done|].
    split; [apply valid_busy, busy_busy|]. unfold valid, busy. do 2 apply plain_flags. by apply plain_same.
Qed.
Lemma fs_readi s ip c off m : fs_locked s ip c -> 0 <= off < 2 ^ 32 -> 0 <= m < 2 ^ 31 ->
  wp (x_readi ip off m) (fun r s' => r = file_read c off m /\ fs_locked s' ip c) s.
Proof.
  intros (a & view & lg & sb & x & Hx & Hr & Hb & Hp) Hoff Hn. cbn [x_readi fs_exec].
  eapply wp_mono; [apply (readi_spec a s view lg sb x _ off m); try apply Hp; [done|lia|lia]|]. cbn beta. intros r s' (-> & b & -> & Hb' & Hs').
  rewrite (pf_bytes _ _ _ _ _ _ _ Hp). split; [done|]. exists a, view, lg, sb, x. split; [done|]. split; [done|]. split; [done|].
  destruct Hp as [H1 H2 H3 H4 H5 H6 H7], Hs' as [E _]. split; try done. cbn. by rewrite E.
Qed.
Lemma fs_iunlockput s ip c : fs_locked s ip c -> wp (x_iunlockput ip) (fun _ s' => fs_put s') s.
Proof.
  intros (a & view & lg & sb & x & Hx & Hr & Hb & Hp). cbn [x_iunlockput fs_exec]. unfold iunlockput. wp_step.
  eapply wp_eq; [by apply (iunlock_spec s _ x (pf_lock _ _ _ _ _ _ _ Hp))|]. eapply wp_eq.
  { eapply iput_keep; [apply Hp|by eapply put_at|]. cbn. destruct (Z.eqb_spec (i_nlink x) 0) as [E|]; [by destruct (pf_nlink _ _ _ _ _ _ _ Hp)|by rewrite andb_false_r]. }
  exists a, view, lg. split; [apply Hp|]. apply Hp.
Qed.
#[export] Instance fs_exec_laws : ExecFsLaws (st B) := {
  x_ref := fs_ref; x_locked := fs_locked; x_put := fs_put;
  x_ilock_law := fs_ilock; x_readi_law := fs_readi; x_iunlockput_law := fs_iunlockput;
}.

(** what namei finds in the tree of the disk is a file exec may use *)
Lemma target_tree sb view nb (T : Z -> Prop) i es k : Namei.tree sb view nb T -> T i -> Namei.target false view i es = Some k -> T k.
Proof.
  intros Ht. revert i. induction es as [|e es IH]; intros i Hi Hk; cbn [Namei.target] in Hk; [by injection Hk as <-|].
  destruct (Namei.directory view i) as [n|] eqn:En; [|done]. cbn [mbind option_bind andb] in Hk.
  destruct (list_find (Namei.named e) (Dir.dents (icontent view n))) as [[j de]|] eqn:Ef; [|done]. cbn [mbind option_bind snd] in Hk.
  apply list_find_Some in Ef as (Hde & [H0 _] & _). apply (IH (Dir.de_inum de)); [|done]. apply (Namei.tr_child _ _ _ _ Ht i n); [done|done|by eapply list_elem_of_lookup_2|done].
Qed.
Lemma fs_namei a view lg sb (T : Z -> Prop) R s c p data : (base.size lg < 10)%nat -> Namei.cache view None R s -> Namei.on_store a view lg sb T s ->
  Namei.at_inode s (cwd s) c -> T c -> T ROOTINO -> (0 ∉ p) -> (base.size R <= 48)%nat ->
  (forall i, Namei.target false view (Namei.start c p) (Dir.elements p) = Some i -> exists d, Namei.disk_inode view i = Some d /\
     ifile sb view (nblk (blk s)) d /\ i_type d <> T_DEV /\ icontent view d = data) ->
  wp (x_namei p) (fun ip f => ip = 0 /\ x_put f \/ ip <> 0 /\ x_ref f ip data) s.
Proof.
  intros Hlg Hc Hs Hcwd HTc HTr H0 Hsz Hfile. cbn [x_namei fs_exec]. wp_step. unfold Dir.namei. wp_step.
  eapply wp_mono; [by apply (Namei.namex_spec a view lg sb T Hlg false R s c p [])|]. cbn beta. intros [i nm] s' [([Hh Ht] & [En _] & _) Hf]. wp_step. wp_step.
  cbn [fst]. unfold Namei.found in Hf. cbn [fst] in Hf. destruct (Namei.target _ _ _ _) as [k|] eqn:Etg.
  2:{ left. destruct Hf as [-> Hc']. split; [done|]. exists a, view, lg. split; [done|apply (Namei.ca_ok _ _ _ _ Hc')]. }
  right. destruct Hf as (Hc' & (x & Hx & Ex & Hr) & _). cbn [fst] in Hx. pose proof (at_range _ _ _ Hx). unfold inode_ptr. split; [lia|].
  assert (T k) as HTk by (eapply (target_tree sb view _ T); [exact Ht| |exact Etg]; unfold Namei.start; by destruct (_ =? _)).
  destruct (Hfile k eq_refl) as (d & Hd & Hif & Hty & Hdata). subst k.
  destruct (Namei.tr_inode _ _ _ _ Ht _ HTk) as (d' & Hd' & Ht0 & Hln). rewrite Hd in Hd'. injection Hd' as <-. destruct (dinode_of_loaded _ _ _ _ Hd) as [_ Hdx].
  pose proof (Namei.ca_dev _ _ _ _ Hc' _ _ Hx Hr) as Hdev. pose proof (ic_lock _ (Namei.ca_ok _ _ _ _ Hc')) as Hl.
  exists a, view, lg, sb, x, (loaded d x). unfold inode_index. rewrite Z.add_simpl_r. split; [done|]. split; [lia|].
  split; [rewrite (Namei.ca_busy _ _ _ _ Hc' _ _ Hx Hr); by apply bool_decide_eq_false|]. split.
  - constructor; try done. rewrite En. destruct Hif as [F1 F2 F3 F4 F5]. by split.
  - destruct (has (i_flags x) I_VALID) eqn:Hv; [left; split; [done|]|right].
    + symmetry. by apply (Namei.disk_same view x d (Namei.ca_disk _ _ _ _ Hc' _ _ Hx Hr Hv)).
    + split; [done|]. split; [by apply (Namei.tr_ino _ _ _ _ Ht)|]. split; [done|]. exists (loaded d x). split; [exact (Hdx x)|]. split; [done|by destruct d, x].
Qed.
End fs.
End ExecFile.
