(* ===== verification/Mkfs.v ===== *)
(** * The builder of file system images (src/src/tools/mkfs.c)

    mkfs writes, on the host, the disk the kernel starts from.  The image file
    is the list of its sectors; a struct dinode in memory is the inode record
    of Fs.v, of which only the fields on disk count.  The host is little-endian,
    as the target is.  exit(1) and a failed assert() are [Panic].  What the
    host holds is given: the space for the image in sectors, which files can be
    created, and for a file that can be opened what successive calls of read()
    return (an empty piece is the end of the file, or an error, which the loop
    takes for the same). *)

From S2P Require Import Prelude.
From S2P Require Import Bytes.
From S2P Require Import KString.
From S2P Require Import Bio.
From S2P Require Import Store.
From S2P Require Import Fs.
From S2P Require Import Content.
From S2P Require Import Inode.
From S2P Require Import Dir.
From S2P Require Import Namei.

Module Mkfs.
Import Fs Content Inode Dir Namei.

Definition LOGSIZE : Z := 10.
Definition nblocks : Z := 985.
Definition nlog : Z := LOGSIZE.
Definition ninodes : Z := 200.
(** the global variable size *)
Definition nsectors : Z := 1024.

(** the image and the global counters *)
Record st := St {
  img : list (list Z);      (* fsfd *)
  freeblock : Z;
  usedblocks : Z;
  freeinode : Z;
}.
Definition set_img (i : list (list Z)) (s : st) : st := St i (freeblock s) (usedblocks s) (freeinode s).
Definition zeroes : list Z := replicate 512 0.

(** convert to intel byte order: the bytes of the result, read on this host *)
Definition xshort (x : Z) : Z := of_le [u8 x; u8 (Z.shiftr x 8)].
Definition xint (x : Z) : Z := of_le [u8 x; u8 (Z.shiftr x 8); u8 (Z.shiftr x 16); u8 (Z.shiftr x 24)].

(** a write of one sector behind the end of a file leaves a hole of zeros *)
Definition write_at (l : list (list Z)) (sec : Z) (x : list Z) : list (list Z) :=
  if sec <? Z.of_nat (length l) then put l sec x
  else l ++ replicate (Z.to_nat sec - length l) zeroes ++ [x].

(** [strcpy] or [strncpy] of a name into the zeroed name of a struct dirent *)
Definition new_dirent (inum : Z) (name : list Z) : list Z := le 2 (xshort inum) ++ fillpad 14 (take 14 name).

Section host.
Context (space : Z) (host : list Z -> option (list (list Z))) (create : list Z -> bool).

Definition wsect (sec : Z) (buf : list Z) : M st unit :=
  panic_if (negb (sec <? space)) "write" ;;
  modify (fun s => set_img (write_at (img s) sec buf) s).
Definition rsect (sec : Z) : M st (list Z) :=
  s ← get;
  match at_ (img s) sec with Some x => mret x | None => panic "read" end.
Definition i2b (inum : Z) : Z := u32 (inum / IPB + 2).
Definition winode (inum : Z) (ip : inode) : M st unit :=
  let bn := i2b inum in
  buf ← rsect bn;
  buf ← deref (fun _ => st_dinode buf (inum mod IPB * sizeof_dinode) ip);
  wsect bn buf.
Definition rinode (inum : Z) : M st inode :=
  let bn := i2b inum in
  buf ← rsect bn;
  deref (fun _ => ld_dinode buf (inum mod IPB * sizeof_dinode) (Inode 1 inum 0 0 0 0 0 0 0 [])).

Definition ialloc (type : Z) : M st Z :=
  inum ← gets freeinode;
  modify (fun s => St (img s) (freeblock s) (usedblocks s) (u32 (inum + 1))) ;;
  winode inum (Inode 1 inum 0 0 (s16 (xshort type)) 0 0 (s16 (xshort 1)) (xint 0) (replicate 13 0)) ;;
  mret inum.

Definition balloc_body (used : Z) (v : Z * list Z) : M st (Z * list Z + list Z) :=
  let '(i, buf) := v in
  if i <? used then
    c ← deref (fun _ => at_ buf (i / 8));
    mret (inl (i + 1, put buf (i / 8) (u8 (Z.lor c (Z.shiftl 1 (i mod 8))))))
  else mret (inr buf).
Definition balloc (used : Z) : M st unit :=
  panic_if (negb (used <? 512 * 8)) "assert" ;;
  buf ← loop (S (Z.to_nat used)) (balloc_body used) (0, zeroes);
  wsect (ninodes / IPB + 3) buf.

(** [xint(freeblock++); usedblocks++] *)
Definition new_block : M st Z :=
  f ← gets freeblock;
  modify (fun s => St (img s) (u32 (freeblock s + 1)) (u32 (usedblocks s + 1)) (freeinode s)) ;;
  mret (xint f).
(** [din.addrs[i]], allocated if it is zero *)
Definition addr_block (i : Z) (din : inode) : M st (inode * Z) :=
  v ← deref (fun _ => at_ (i_addrs din) i);
  din ← (if xint v =? 0 then f ← new_block; mret (set_addrs (put (i_addrs din) i f) din) else mret din);
  v ← deref (fun _ => at_ (i_addrs din) i);
  mret (din, xint v).
(** the sector of the file's block [fbn] *)
Definition file_block (fbn : Z) (din : inode) : M st (inode * Z) :=
  if fbn <? NDIRECT then addr_block fbn din
  else
    '(din, ind) ← addr_block NDIRECT din;
    indirect ← rsect ind;
    e ← deref (fun _ => ld32 indirect (4 * (fbn - NDIRECT)));
    indirect ← (if e =? 0 then
        f ← new_block;
        x ← deref (fun _ => st32 indirect (4 * (fbn - NDIRECT)) f);
        wsect ind x ;; mret x
      else mret indirect);
    e ← deref (fun _ => ld32 indirect (4 * (fbn - NDIRECT)));
    mret (din, xint e).
Definition iappend_body (v : Z * Z * list Z * inode) : M st (Z * Z * list Z * inode + Z * inode) :=
  let '(n, off, p, din) := v in
  if 0 <? n then
    let fbn := off / 512 in
    panic_if (negb (fbn <? MAXFILE)) "assert" ;;
    '(din, x) ← file_block fbn din;
    let n1 := Z.min n (u32 ((fbn + 1) * 512 - off)) in
    buf ← rsect x;
    c ← deref (fun _ => slice p 0 n1);
    buf ← deref (fun _ => splice buf (off - fbn * 512) c);
    wsect x buf ;;
    mret (inl (n - n1, u32 (off + n1), drop (Z.to_nat n1) p, din))
  else mret (inr (off, din)).
Definition iappend (inum : Z) (xp : list Z) (n : Z) : M st unit :=
  din ← rinode inum;
  '(off, din) ← loop (S (Z.to_nat n)) iappend_body (n, xint (i_size din), xp, din);
  winode inum (set_size (xint off) din).

(** [while((cc = read(fd, buf, sizeof(buf))) > 0) iappend(inum, buf, cc);] *)
Fixpoint copy_file (inum : Z) (pieces : list (list Z)) : M st unit :=
  match pieces with
  | [] => mret tt
  | p :: pieces =>
      let cc := Z.of_nat (length p) in
      if 0 <? cc then iappend inum p cc ;; copy_file inum pieces else mret tt
  end.
(** the name in the image: a leading _ is left out *)
Definition image_name (arg : list Z) : list Z := match arg with 95 :: l => l | _ => arg end.
Definition add_file (rootino : Z) (arg : list Z) : M st unit :=
  panic_if (bool_decide (47 ∈ arg)) "assert" ;;
  match host arg with
  | None => panic "open"
  | Some pieces =>
      inum ← ialloc T_FILE;
      iappend rootino (new_dirent inum (image_name arg)) sizeof_dirent ;;
      copy_file inum pieces
  end.
Fixpoint add_files (rootino : Z) (args : list (list Z)) : M st unit :=
  match args with [] => mret tt | a :: args => add_file rootino a ;; add_files rootino args end.

Definition zero_image (n : Z) : M st unit :=
  loop (S (Z.to_nat n)) (fun i => if i <? n then wsect i zeroes ;; mret (inl (i + 1)) else mret (inr tt)) 0.
Definition sb_sector : list Z :=
  enc32s [xint nsectors; xint nblocks; xint ninodes; xint nlog] ++ replicate 496 0.
(** [off = ((off/BSIZE) + 1) * BSIZE] for the root directory *)
Definition round_root (rootino : Z) : M st unit :=
  din ← rinode rootino;
  let off := xint (i_size din) in
  let off := u32 ((off / BSIZE + 1) * BSIZE) in
  winode rootino (set_size (xint off) din).

(** [argv] from its second element *)
Definition main (argv : list (list Z)) : M st unit :=
  match argv with
  | [] => panic "usage"
  | image :: files =>
      panic_if (negb (create image)) "open" ;;
      modify (set_img []) ;;
      let bitblocks := nsectors / (512 * 8) + 1 in
      let used := ninodes / IPB + 3 + bitblocks in
      modify (fun s => St (img s) used used (freeinode s)) ;;
      panic_if (negb (nblocks + used + nlog =? nsectors)) "assert" ;;
      zero_image (nblocks + used + nlog) ;;
      wsect 1 sb_sector ;;
      rootino ← ialloc T_DIR;
      panic_if (negb (rootino =? ROOTINO)) "assert" ;;
      iappend rootino (new_dirent rootino [46]) sizeof_dirent ;;
      iappend rootino (new_dirent rootino [46; 46]) sizeof_dirent ;;
      add_files rootino files ;;
      round_root rootino ;;
      used ← gets usedblocks;
      balloc used
  end.
End host.

(** the globals of a program that starts *)
Definition boot : st := St [] 0 0 1.
End Mkfs.
