(* ===== verification/MkfsSpec.v ===== *)
(** * What mkfs leaves on the disk (src/src/tools/mkfs.c)

    The image while it is built, as the kernel's file system (Fs.v) sees it:
    mkfs fills in the bitmap at the end, so that the view of the disk kept here
    has the bitmap mkfs will write, the log's blocks marked in addition. *)

From S2P Require Import Prelude.
From S2P Require Import Bytes.
From S2P Require Import KString.
From S2P Require Import Bio.
From S2P Require Import Store.
From S2P Require Import Fs.
From S2P Require Import Content.
From S2P Require Import Inode.
From S2P Require Import Dir.
From S2P Require Import Namei.
From S2P Require Import Mkfs.

Module MkfsSpec.
Import Fs Content Inode Dir Namei Mkfs.

(** the superblock mkfs writes, and the first block of the log *)
Definition image_sb : superblock := Sb 1024 985 200 10.
Definition log_start : Z := 1014.

Lemma xint_id x : 0 <= x < 2 ^ 32 -> xint x = x.
Proof.
  intros Hx. unfold xint. change [u8 x; u8 (Z.shiftr x 8); u8 (Z.shiftr x 16); u8 (Z.shiftr x 24)] with
    ([u8 x; u8 (Z.shiftr x 8); u8 (Z.shiftr x (8 + 8)); u8 (Z.shiftr x (8 + 8 + 8))]).
  rewrite <-!Z.shiftr_shiftr by lia. apply of_le_le_u32. done.
Qed.
Lemma xshort_id x : 0 <= x < 2 ^ 16 -> xshort x = x.
Proof. intros Hx. unfold xshort. change [u8 x; u8 (Z.shiftr x 8)] with (le 2 x). rewrite of_le_le. by apply Z.mod_small. Qed.

(** ** Sectors *)

Record image (view : Z -> list Z) (s : st) : Prop := {
  im_len : length (img s) = 1024%nat;
  im_view b : 0 <= b < 1024 -> b <> 28 -> at_ (img s) b = Some (view b);
  im_bytes b : 0 <= b < 1024 -> length (view b) = 512%nat /\ bytes_ok (view b);
  im_used b : 0 <= b < 4096 -> used image_sb view b = (b <? freeblock s) || (log_start <=? b);
  im_free : 29 <= freeblock s <= log_start;
  im_count : usedblocks s = freeblock s;
  im_zero b : freeblock s <= b < 1024 -> view b = zeroes;
  im_sb : sb_at (view 1) image_sb;
}.

Lemma image_layout view s : image view s -> layout image_sb view log_start.
Proof.
  intros I. pose proof (im_free _ _ I). unfold log_start in *. split; try done; change (bitmap image_sb) with 28; cbn; try lia.
  - apply (im_sb _ _ I).
  - intros b Hb _. rewrite (im_used _ _ I) by lia. apply orb_true_iff. left. lia.
  - intros b Hb. rewrite (im_used _ _ I) by lia. apply orb_true_iff. right. unfold log_start. lia.
Qed.
Lemma image_first_free view s : image view s -> freeblock s < log_start -> first_free image_sb view (freeblock s).
Proof.
  intros I Hlt. pose proof (im_free _ _ I). unfold log_start in *. split; [cbn; lia|]. split.
  - rewrite (im_used _ _ I) by lia. unfold log_start. lia.
  - intros b Hb. rewrite (im_used _ _ I) by lia. unfold log_start. lia.
Qed.
Lemma image_bytes view s b : image view s -> 0 <= b < log_start -> length (view b) = 512%nat /\ bytes_ok (view b).
Proof. intros I Hb. unfold log_start in *. apply (im_bytes _ _ I). lia. Qed.

Lemma new_block_spec view s : image view s -> freeblock s < log_start ->
  wp new_block (fun f s' => f = freeblock s /\ image (balloced image_sb view f) s' /\ freeblock s' = freeblock s + 1 /\ freeinode s' = freeinode s) s.
Proof.
  intros I Hlt. pose proof (im_free _ _ I) as Hfr. pose proof (image_layout _ _ I) as Hl. pose proof (image_first_free _ _ I Hlt) as Hf.
  unfold log_start in *. unfold new_block. wp_step. wp_step. wp_step. wp_step. rewrite (xint_id (freeblock s)) by lia.
  assert (u32 (freeblock s + 1) = freeblock s + 1) as E by (apply u32_id; lia).
  pose proof (image_bytes _ _ 28 I ltac:(unfold log_start; lia)) as Hbm.
  split; [done|]. cbn [freeblock freeinode]. split; [|by rewrite E]. split; cbn [img freeblock usedblocks]; rewrite ?(im_count _ _ I), ?E.
  - apply (im_len _ _ I).
  - intros b Hb H28. destruct (Z.eq_dec b (freeblock s)) as [->|Hne].
    + rewrite balloced_new, (im_view _ _ I) by done. f_equal. apply (im_zero _ _ I). unfold log_start. lia.
    + rewrite balloced_other by done. by apply (im_view _ _ I).
  - intros b Hb. unfold balloced, Bio.vupd. destruct (Z.eqb_spec b (freeblock s)); [by apply bzeros_ok|].
    destruct (Z.eqb_spec b (bitmap image_sb)); [|by apply (im_bytes _ _ I)]. destruct Hbm. by apply set_bit_ok.
  - intros b Hb. rewrite (used_balloced _ _ 1014) by done. rewrite (im_used _ _ I) by done. unfold log_start.
    case_bool_decide; lia.
  - unfold log_start. lia.
  - done.
  - intros b Hb. rewrite balloced_other by (change (bitmap image_sb) with 28; lia). apply (im_zero _ _ I). lia.
  - rewrite balloced_other by (change (bitmap image_sb) with 28; lia). apply (im_sb _ _ I).
Qed.

Section host.
Context (space : Z).
Hypothesis Hspace : 1024 <= space.

Lemma rsect_spec view s b Q : image view s -> 0 <= b < 1024 -> b <> 28 -> Q (view b) s -> wp (rsect b) Q s.
Proof using.
  intros I Hb H28 HQ. unfold rsect. wp_step. wp_step. rewrite (im_view _ _ I) by done. by wp_step.
Qed.
Lemma wsect_spec view s b x Q : image view s -> 2 <= b < freeblock s -> b <> 28 -> length x = 512%nat -> bytes_ok x ->
  (forall s', image (Bio.vupd view b x) s' -> freeblock s' = freeblock s -> freeinode s' = freeinode s -> Q tt s') -> wp (wsect space b x) Q s.
Proof using Hspace.
  intros I Hb H28 Hl Hby HQ. pose proof (im_free _ _ I) as Hfr. unfold log_start in *. pose proof (im_len _ _ I) as Hlen.
  unfold wsect. wp_step. wp_step; [destruct (Z.ltb_spec b space); [done|lia]|]. wp_step. apply HQ; [|done|done].
  unfold write_at. destruct (Z.ltb_spec b (Z.of_nat (length (img s)))); [|lia].
  split; cbn [img set_img freeblock usedblocks]; try apply I.
  - by rewrite length_put.
  - intros c Hc Hc28. destruct (Z.eq_dec c b) as [->|Hne]; [by rewrite at_put_eq, Bio.vupd_eq by lia|].
    rewrite at_put_ne, Bio.vupd_ne by lia. by apply (im_view _ _ I).
  - intros c Hc. unfold Bio.vupd. destruct (c =? b); [done|]. by apply (im_bytes _ _ I).
  - intros c Hc. unfold used. change (bitmap image_sb) with 28. rewrite Bio.vupd_ne by lia. by apply (im_used _ _ I).
  - intros c Hc. rewrite Bio.vupd_ne by lia. by apply (im_zero _ _ I).
  - rewrite Bio.vupd_ne by lia. apply (im_sb _ _ I).
Qed.

(** ** The blocks of a file *)

Lemma slot_bound view nb a i : layout image_sb view nb -> nb <= 1014 -> file_ok image_sb view nb a -> 0 <= i < 141 -> 0 <= slot a view i < 1014.
Proof using.
  intros Hl Hnb Hf Hi. destruct (fo_range _ _ _ _ Hf i Hi) as [->|(Hr & _)]; [lia|]. change (bitmap image_sb) with 28 in Hr. lia.
Qed.

Definition grown (view : Z -> list Z) (s : st) (n : Z) (view' : Z -> list Z) (s' : st) : Prop :=
  image view' s' /\ freeblock s' = freeblock s + n /\ freeinode s' = freeinode s.

Lemma addr_block_spec view s din i : image view s -> file_ok image_sb view log_start (i_addrs din) -> 0 <= i < 13 ->
  (slot (i_addrs din) view i = 0 -> freeblock s < log_start) ->
  wp (addr_block i din) (fun r s' => exists view' a', r = (set_addrs a' din, slot a' view' i) /\
      grown view s (b2z (slot (i_addrs din) view i =? 0)) view' s' /\
      filled image_sb view log_start (i_addrs din) i (slot a' view' i) view' a') s.
Proof using.
  intros I Hf Hi Hfree. pose proof (image_layout _ _ I) as Hl. pose proof (fo_len _ _ _ _ Hf) as Hlen.
  pose proof (slot_bound _ _ _ i Hl ltac:(done) Hf ltac:(lia)) as Hb.
  unfold addr_block. wp_step. eapply wp_deref; [by apply (slot_at _ view)|]. rewrite xint_id by lia. wp_step.
  destruct (Z.eqb_spec (slot (i_addrs din) view i) 0) as [H0|H0].
  - specialize (Hfree H0). wp_step. eapply wp_mono; [by apply new_block_spec|]. cbn beta. intros f s1 (-> & I1 & E1 & E2).
    pose proof (filled_addr image_sb view log_start _ _ Hl (image_first_free _ _ I Hfree) ltac:(intros; by eapply image_bytes) Hf i Hi H0) as HF.
    wp_step. wp_step. set (a' := put (i_addrs din) i (freeblock s)) in *. set (view' := balloced image_sb view (freeblock s)) in *.
    pose proof (fl_slot _ _ _ _ _ _ _ _ HF) as Es. pose proof (im_free _ _ I). unfold log_start in *.
    eapply wp_deref; [apply (slot_at _ view'); [apply (fl_file _ _ _ _ _ _ _ _ HF)|done]|]. wp_step.
    change (i_addrs (set_addrs a' din)) with a'. rewrite xint_id by (rewrite Es; lia). exists view', a'. split; [done|]. split; [done|]. by rewrite Es.
  - wp_step. wp_step. eapply wp_deref; [by apply (slot_at _ view)|]. wp_step. rewrite xint_id by lia.
    exists view, (i_addrs din). rewrite set_addrs_id. split; [done|]. split; [split; [done|split; [cbn; lia|done]]|]. by apply filled_old.
Qed.

(** what the block [fbn] of the file costs *)
Definition new_blocks (view : Z -> list Z) (a : list Z) (fbn : Z) : Z :=
  b2z (slot a view (sl fbn) =? 0) + b2z ((12 <=? fbn) && (slot a view 12 =? 0)).

Lemma file_block_spec view s din fbn : image view s -> file_ok image_sb view log_start (i_addrs din) -> 0 <= fbn < MAXFILE ->
  freeblock s + new_blocks view (i_addrs din) fbn <= log_start ->
  wp (file_block space fbn din) (fun r s' => exists view' a' f, r = (set_addrs a' din, f) /\
      grown view s (new_blocks view (i_addrs din) fbn) view' s' /\
      bmapped image_sb view log_start (i_addrs din) fbn f view' a' /\
      (fbn < 12 -> slot a' view' 12 = slot (i_addrs din) view 12)) s.
Proof using Hspace.
  intros I Hf Hfbn Hroom. pose proof (image_layout _ _ I) as Hl. unfold file_block, NDIRECT, new_blocks in *.
  destruct (Z.ltb_spec fbn 12) as [Hlt|Hge].
  - assert (sl fbn = fbn) as Es by (unfold sl, NDIRECT; destruct (Z.ltb_spec fbn 12); lia). rewrite Es in *.
    destruct (Z.leb_spec 12 fbn); [lia|]. cbn [andb b2z] in *. rewrite Z.add_0_r in *.
    eapply wp_mono; [apply (addr_block_spec view); [done|done|lia|]|].
    + intros H0. rewrite H0 in Hroom. cbn in Hroom. lia.
    + cbn beta. intros r s' (view' & a' & -> & Hg & HF). exists view', a', (slot a' view' fbn). split; [done|]. split; [done|].
      split; [apply filled_direct; [lia|done]|]. intros _. apply (fl_others _ _ _ _ _ _ _ _ HF); lia.
  - destruct (Z.leb_spec 12 fbn); [|lia]. cbn [andb] in *. unfold MAXFILE, NDIRECT, NINDIRECT in Hfbn.
    assert (sl fbn = fbn + 1) as Es by (unfold sl, NDIRECT; destruct (Z.ltb_spec fbn 12); lia). rewrite Es in *.
    wp_step. eapply wp_mono; [apply (addr_block_spec view); [done|done|lia|]|].
    { intros H0. rewrite H0 in Hroom. cbn in Hroom. destruct (_ =? 0); cbn in Hroom; lia. }
    cbn beta. intros r s1 (view1 & a1 & -> & (I1 & E1 & E1') & HF). pose proof HF as [F1 F2 F3 F4 F5 F6 F7 F8 F9 F10].
    cbn iota beta. set (ind := slot a1 view1 12) in *. set (e := slot a1 view1 (fbn + 1)).
    assert (e = slot (i_addrs din) view (fbn + 1)) as Ee by (apply F5; lia).
    destruct (slot_range _ _ _ _ 12 F1 F2 ltac:(lia) F4) as (Hr1 & Hr2 & Hr3). fold ind in Hr1, Hr2, Hr3. change (bitmap image_sb) with 28 in Hr1. unfold log_start in *.
    destruct (im_bytes _ _ I1 ind ltac:(lia)) as [Hil Hib].
    assert (ld32 (view1 ind) (4 * (fbn - 12)) = Some e) as Hld.
    { unfold e. rewrite slot_large by lia. fold ind. destruct (Z.eqb_spec ind 0); [done|]. replace (fbn + 1 - 13) with (fbn - 12) by lia.
      unfold ld32. by rewrite ldn_in by (rewrite Hil; lia). }
    wp_step. eapply rsect_spec; [done|lia|lia|]. wp_step. eapply wp_deref; [exact Hld|]. wp_step.
    destruct (Z.eqb_spec e 0) as [H0|H0].
    + rewrite <-Ee, H0 in Hroom |- *. cbn [Z.eqb b2z] in Hroom.
      assert (freeblock s1 < 1014) as Hlt1 by (rewrite E1; lia).
      wp_step. eapply wp_mono; [by apply new_block_spec|]. cbn beta. intros f s2 (-> & I2 & E2 & E2').
      pose proof (im_free _ _ I1) as Hfr. set (f := freeblock s1) in *. assert (ind < f) as Hne.
      { rewrite (im_used _ _ I1) in Hr3 by lia. unfold log_start in *. lia. }
      wp_step. eapply wp_deref. { unfold st32. by rewrite stn_in by (rewrite Hil; lia). }
      set (x := blit _ _ _). assert (length x = 512%nat) as Hx by (unfold x; rewrite length_blit; rewrite ?length_le; lia).
      wp_step. eapply (wsect_spec (balloced image_sb view1 f)); [done|lia|lia|done|apply blit_bytes; [done|apply le_bytes]|].
      intros s3 I3 E3 E3'. wp_step. wp_step.
      pose proof (filled_entry image_sb view1 1014 f a1 F1 (image_first_free _ _ I1 Hlt1) ltac:(intros; by eapply image_bytes) F2 (fbn + 1) ltac:(lia) F4 H0) as HG.
      fold ind in HG. replace (fbn + 1 - 13) with (fbn - 12) in HG by lia. change (blit (view1 ind) (Z.to_nat (4 * (fbn - 12))) (le 4 f)) with x in HG.
      set (view3 := Bio.vupd (balloced image_sb view1 f) ind x) in *. pose proof (fl_slot _ _ _ _ _ _ _ _ HG) as Esl.
      unfold log_start in *.
      apply (wp_deref _ _ _ f). { unfold ld32, x. rewrite ldn_stn by (rewrite Hil; lia). f_equal. apply (Z.mod_small f). change (8 * Z.of_nat 4) with 32. lia. }
      wp_step. rewrite xint_id by lia. exists view3, a1, f. split; [done|]. split; [|split; [|lia]].
      2: { eapply filled_indirect; [unfold MAXFILE, NDIRECT, NINDIRECT; lia|exact HF|exact HG|done|done]. }
      split; [done|]. cbn [b2z Z.eqb]. split; [|congruence]. lia.
    + wp_step. wp_step. eapply wp_deref; [exact Hld|]. wp_step. assert (0 <= e < 1014) as Hbe by (eapply (slot_bound view1 1014); try done; lia).
      rewrite xint_id by lia. exists view1, a1, e. split; [done|]. split; [|split; [|lia]].
      * split; [done|]. split; [|done]. rewrite E1, <-Ee. destruct (Z.eqb_spec e 0); [done|]. done.
      * eapply filled_indirect; [unfold MAXFILE, NDIRECT, NINDIRECT; lia|exact HF| |done|done]. by apply filled_old.
Qed.

(** ** Appending to a file *)

(** no blocks behind the end, and zeros behind the end in the last block *)
Definition tight (a : list Z) (view : Z -> list Z) (len : Z) : Prop :=
  (forall k, 0 <= k < MAXFILE -> len <= 512 * k -> slot a view (sl k) = 0) /\ (slot a view 12 <> 0 -> 6144 < len).
Definition slack (a : list Z) (view : Z -> list Z) (len : Z) : Prop :=
  forall i, len <= i < 512 * blocks_of len -> fbyte a view i = Some 0.
(** the sectors of a file of [len] bytes, its indirect block among them *)
Definition cost (len : Z) : Z := blocks_of len + b2z (6144 <? len).

Lemma cost_mono l1 l2 : l1 <= l2 -> cost l1 <= cost l2.
Proof using.
  intros H. unfold cost, blocks_of. assert ((l1 + 511) / 512 <= (l2 + 511) / 512) by (apply Z.div_le_mono; lia).
  destruct (Z.ltb_spec 6144 l1), (Z.ltb_spec 6144 l2); cbn; lia.
Qed.
Lemma blocks_step o p : 0 < p -> o mod 512 + p <= 512 -> blocks_of (o + p) = o / 512 + 1.
Proof using. intros Hp Hm. unfold blocks_of. Z.div_mod_to_equations. lia. Qed.

Lemma new_blocks_cost a view o p : 0 <= o -> 0 < p -> o mod 512 + p <= 512 -> o + p <= MAXFILE * 512 -> has_blocks a view o -> tight a view o ->
  new_blocks view a (o / 512) = cost (o + p) - cost o.
Proof using.
  intros Ho Hp Hm HE Hb [Ht Ht12]. unfold MAXFILE, NDIRECT, NINDIRECT in *. unfold new_blocks, cost. rewrite blocks_step by done.
  pose proof (Z.div_mod o 512 ltac:(lia)) as Eo. pose proof (Z.mod_pos_bound o 512 eq_refl) as Hmo. set (k := o / 512) in *.
  assert (b2z (slot a view (sl k) =? 0) = k + 1 - blocks_of o) as ->.
  { destruct (Z.eq_dec (o mod 512) 0) as [E|E].
    - rewrite Ht by lia. unfold blocks_of. cbn. subst k. Z.div_mod_to_equations; lia.
    - destruct (Z.eqb_spec (slot a view (sl k)) 0) as [E0|_]; [by destruct (Hb k); [lia|lia|]|]. unfold blocks_of. cbn. subst k. Z.div_mod_to_equations; lia. }
  assert (b2z ((12 <=? k) && (slot a view 12 =? 0)) = b2z (6144 <? o + p) - b2z (6144 <? o)) as ->; [|lia].
  destruct (Z.leb_spec 12 k) as [H12|H12]; cbn [andb].
  - destruct (Z.ltb_spec 6144 (o + p)); [|lia]. destruct (Z.ltb_spec 6144 o) as [Hlt|Hge].
    + destruct (Z.eqb_spec (slot a view 12) 0) as [E0|]; [|done]. destruct (Hb 12); [lia|lia|]. change (sl 12) with 13. rewrite slot_large by lia. by rewrite E0.
    + destruct (Z.eqb_spec (slot a view 12) 0) as [|E0]; [done|]. specialize (Ht12 E0). lia.
  - destruct (Z.ltb_spec 6144 (o + p)), (Z.ltb_spec 6144 o); try lia; done.
Qed.

Section append.
Context (view0 : Z -> list Z) (s0 : st) (n0 : inode) (m : Z) (src : list Z).
Let sz := i_size n0.
Hypothesis I0 : image view0 s0.
Hypothesis Hf0 : ifile image_sb view0 log_start n0.
Hypothesis Ht0 : tight (i_addrs n0) view0 sz.
Hypothesis Hs0 : slack (i_addrs n0) view0 sz.
Hypothesis Hm : 0 <= m <= Z.of_nat (length src).
Hypothesis Hby : bytes_ok src.
Hypothesis HE : sz + m <= MAXFILE * 512.
Hypothesis Hroom : freeblock s0 + cost (sz + m) - cost sz <= log_start.

(** [tot] bytes have been appended *)
Record appended (tot : Z) (view : Z -> list Z) (a : list Z) (s : st) : Prop := {
  ap_image : image view s;
  ap_written : written image_sb view0 log_start sz (i_addrs n0) sz src tot view a;
  ap_tight : tight a view (sz + tot);
  ap_slack : slack a view (sz + tot);
  ap_free : freeblock s = freeblock s0 + cost (sz + tot) - cost sz;
  ap_next : freeinode s = freeinode s0;
}.

Section round.
Context (tot : Z) (view : Z -> list Z) (a : list Z) (s : st) (view1 : Z -> list Z) (a1 : list Z) (r p : Z).
Let o := sz + tot.
Hypothesis Htot : 0 <= tot < m.
Hypothesis Hap : appended tot view a s.
Hypothesis Hp : 0 < p /\ o mod 512 + p <= 512 /\ tot + p <= m.
Hypothesis Hbm : bmapped image_sb view log_start a (o / 512) r view1 a1.
Hypothesis H12 : o / 512 < 12 -> slot a1 view1 12 = slot a view 12.
Hypothesis Hlen : forall b, 0 <= b < log_start -> length (view1 b) = 512%nat.
Let view2 := Bio.vupd view1 r (blit (view1 r) (Z.to_nat (o mod 512)) (sub src (Z.to_nat tot) (Z.to_nat p))).

Lemma round_sizes : 0 <= sz <= MAXFILE * 512 /\ 0 <= o /\ 0 < p /\ o mod 512 + p <= 512 /\ o + p <= MAXFILE * 512 /\ tot + p <= Z.of_nat (length src).
Proof using Hf0 Hp Htot Hm HE.
  clear Hap Hbm. pose proof (if_size _ _ _ _ Hf0). unfold o, sz in *. lia.
Qed.
Lemma round_tight : tight a1 view2 (o + p).
Proof using Hf0 Hp Htot Hm HE Hap Hbm H12.
  destruct round_sizes as (R1 & R2 & R3 & R4 & R5 & R6). destruct (ap_tight _ _ _ _ Hap) as [Ht Ht12]. fold o in Ht, Ht12.
  assert (forall j, 0 <= j < 141 -> slot a1 view2 j = slot a1 view1 j) as Hsl by (intros j Hj; eapply (step_slot image_sb view view1 log_start sz tot); try done; lia).
  pose proof (Z.div_mod o 512 ltac:(lia)) as Eo. pose proof (Z.mod_pos_bound o 512 eq_refl) as Hmo. split.
  - intros k Hk Hle. destruct (sl_range k Hk) as [Hr Hne]. rewrite Hsl, (bm_others _ _ _ _ _ _ _ _ Hbm) by (done || intros E%sl_inj; lia).
    apply Ht; [done|lia].
  - rewrite Hsl by lia. destruct (Z.ltb_spec (o / 512) 12) as [Hlt|]; [|lia]. rewrite H12 by done. intros E. specialize (Ht12 E). lia.
Qed.
Lemma round_slack : slack a1 view2 (o + p).
Proof using Hf0 Hp Htot Hm HE Hap Hbm Hlen.
  clear H12. destruct round_sizes as (R1 & R2 & R3 & R4 & R5 & R6). pose proof (ap_slack _ _ _ _ Hap) as Hsk. fold o in Hsk.
  pose proof (Z.div_mod o 512 ltac:(lia)) as Eo. pose proof (Z.mod_pos_bound o 512 eq_refl) as Hmo.
  intros i Hi. rewrite blocks_step in Hi by done. set (k := o / 512) in *.
  assert (i / 512 = k) as Ek by (Z.div_mod_to_equations; lia). pose proof (Z.mod_pos_bound i 512 eq_refl) as Hmi. pose proof (Z.div_mod i 512 ltac:(lia)) as Ei.
  assert (0 <= k < MAXFILE) as Hk by (unfold MAXFILE, NDIRECT, NINDIRECT in *; lia).
  pose proof (step_range image_sb view view1 log_start sz tot a a1 src ltac:(lia) ltac:(lia) p r ltac:(fold o; lia) Hbm) as Hr. change (bitmap image_sb) with 28 in Hr.
  assert (slot a1 view1 (sl k) = r) as Esl by apply (bm_slot _ _ _ _ _ _ _ _ Hbm).
  assert (fblock a1 view2 k = blit (view1 r) (Z.to_nat (o mod 512)) (sub src (Z.to_nat tot) (Z.to_nat p))) as Hfb.
  { pose proof (step_fblock image_sb view view1 log_start sz tot a a1 src ltac:(lia) ltac:(lia) p r ltac:(fold o; lia) Hbm k Hk) as Hfb.
    fold o in Hfb. fold k in Hfb. rewrite Z.eqb_refl in Hfb. apply Hfb. rewrite Esl. lia. }
  unfold fbyte. rewrite Ek, Hfb. pose proof (Hlen r ltac:(lia)) as Hl.
  assert (length (sub src (Z.to_nat tot) (Z.to_nat p)) = Z.to_nat p) as Hls by (apply length_sub; lia).
  rewrite lookup_blit by (rewrite Hl, Hls; lia). rewrite Hls. rewrite decide_False by lia.
  destruct (Z.eq_dec (slot a view (sl k)) 0) as [E0|E0].
  - destruct (bm_new _ _ _ _ _ _ _ _ Hbm E0) as [-> _]. apply lookup_replicate_2. lia.
  - destruct (bm_old _ _ _ _ _ _ _ _ Hbm E0) as [-> ->]. specialize (Hsk i). unfold fbyte, fblock in Hsk. rewrite Ek, Esl in Hsk. apply Hsk. clear Hsk.
    assert (512 * k < o). { destruct (Z.ltb_spec (512 * k) o); [done|]. destruct E0. apply (proj1 (ap_tight _ _ _ _ Hap)); [done|]. fold o. lia. }
    unfold blocks_of. Z.div_mod_to_equations; lia.
Qed.
End round.

Definition ainv (v : Z * Z * list Z * inode) (s : st) : Prop :=
  exists tot view a, 0 <= tot <= m /\ v = (m - tot, sz + tot, drop (Z.to_nat tot) src, set_addrs a n0) /\ appended tot view a s.

Lemma iappend_round v s : ainv v s -> wp (iappend_body space v) (fun r s' => match r with
    | inl v' => ainv v' s' /\ v'.1.1.1 < v.1.1.1 /\ 0 < v.1.1.1
    | inr (off, din) => exists view a, off = sz + m /\ din = set_addrs a n0 /\ appended m view a s' end) s.
Proof using Hspace I0 Hf0 Ht0 Hs0 Hm Hby HE Hroom.
  intros (tot & view & a & Htot & -> & Hap). unfold iappend_body. destruct (Z.ltb_spec 0 (m - tot)) as [Hlt|Hge].
  2: { wp_step. exists view, a. assert (tot = m) as <- by lia. done. }
  set (o := sz + tot) in *. destruct (piece_range o (m - tot) ltac:(lia)) as [Hp Hfit]. set (p := piece o (m - tot)) in *.
  assert (0 < p /\ o mod 512 + p <= 512 /\ tot + p <= m) as Hpp by lia.
  destruct (round_sizes tot p ltac:(lia) Hpp) as (R1 & R2 & R3 & R4 & R5 & R6). fold o in R2, R4, R5. pose proof (ap_image _ _ _ _ Hap) as I. pose proof (ap_written _ _ _ _ Hap) as Hw.
  pose proof (Z.div_mod o 512 ltac:(lia)) as Eo. pose proof (Z.mod_pos_bound o 512 eq_refl) as Hmo.
  assert (0 <= o / 512 < MAXFILE) as Hk by (unfold MAXFILE, NDIRECT, NINDIRECT in *; lia).
  assert (new_blocks view a (o / 512) = cost (o + p) - cost o) as Hnb.
  { apply new_blocks_cost; try done; try apply Hap. pose proof (w_blocks _ _ _ _ _ _ _ _ _ _ Hw) as Hb. by rewrite Z.max_r in Hb by lia. }
  pose proof (ap_free _ _ _ _ Hap) as Hfr. fold o in Hfr. pose proof (cost_mono (o + p) (sz + m) ltac:(unfold o; lia)) as Hcm.
  wp_step. wp_step; [destruct (Z.ltb_spec (o / 512) MAXFILE); [done|lia]|]. wp_step.
  eapply wp_mono; [apply (file_block_spec view); [done|apply (w_file _ _ _ _ _ _ _ _ _ _ Hw)|done|cbn [i_addrs set_addrs]; rewrite Hnb; lia]|].
  cbn beta. intros rr s1 (view1 & a1 & r & -> & (I1 & E1 & E1') & Hbm & H12). cbn [i_addrs set_addrs] in *. rewrite Hnb in E1.
  assert (forall b, 0 <= b < log_start -> length (view1 b) = 512%nat) as Hlen by (intros b Hb; by eapply image_bytes).
  pose proof (step_range image_sb view view1 log_start sz tot a a1 src ltac:(lia) ltac:(lia) p r ltac:(fold o; lia) Hbm) as Hr. change (bitmap image_sb) with 28 in Hr.
  assert (r < freeblock s1) as Hrf.
  { destruct (sl_range _ Hk) as [Hr1 _]. destruct (slot_range _ _ _ _ (sl (o / 512)) (bm_layout _ _ _ _ _ _ _ _ Hbm) (bm_file _ _ _ _ _ _ _ _ Hbm) Hr1) as (_ & _ & Hu).
    - rewrite (bm_slot _ _ _ _ _ _ _ _ Hbm). lia.
    - rewrite (bm_slot _ _ _ _ _ _ _ _ Hbm) in Hu. rewrite (im_used _ _ I1) in Hu by (unfold log_start in *; lia). lia. }
  assert (Z.min (m - tot) (u32 ((o / 512 + 1) * 512 - o)) = p) as ->.
  { rewrite u32_id by lia. unfold p, piece. f_equal. lia. }
  cbn iota beta. unfold log_start in *. pose proof (Hlen r ltac:(lia)) as Hl.
  wp_step. eapply rsect_spec; [done|lia|lia|].
  wp_step. eapply wp_deref; [apply slice_in; [lia|rewrite length_drop; lia]|]. set (c := sub _ _ _).
  assert (c = sub src (Z.to_nat tot) (Z.to_nat p)) as Ec by (unfold c, sub; by rewrite drop_0).
  assert (length c = Z.to_nat p) as Hlc by (rewrite Ec; apply length_sub; lia).
  wp_step. eapply wp_deref; [apply splice_in; [lia|rewrite Hlc, Hl; lia]|]. replace (o - o / 512 * 512) with (o mod 512) by lia.
  wp_step. destruct (im_bytes _ _ I1 r ltac:(lia)) as [_ Hbr].
  eapply (wsect_spec view1); [done|lia|lia|rewrite length_blit; [done|rewrite Hlc, Hl; lia]|apply blit_bytes; [done|rewrite Ec; by apply sub_bytes]|].
  intros s2 I2 E2 E2'. wp_step. cbn [fst snd]. split; [|lia].
  exists (tot + p), (Bio.vupd view1 r (blit (view1 r) (Z.to_nat (o mod 512)) c)), a1. split; [lia|]. split.
  - rewrite u32_id by (unfold MAXFILE, NDIRECT, NINDIRECT in *; lia). rewrite drop_drop. replace (Z.to_nat tot + Z.to_nat p)%nat with (Z.to_nat (tot + p)) by lia.
    unfold o. by rewrite Z.sub_add_distr, Z.add_assoc.
  - rewrite Ec in *. split; [done| | | | |].
    + eapply (written_step image_sb view0 view view1); try done; fold o; lia.
    + replace (sz + (tot + p)) with (o + p) by (unfold o; lia). eapply round_tight; try done; lia.
    + replace (sz + (tot + p)) with (o + p) by (unfold o; lia). eapply round_slack; try done; lia.
    + replace (sz + (tot + p)) with (o + p) by (unfold o; lia). lia.
    + rewrite E2', E1'. apply Hap.
Qed.
End append.

(** ** The inodes of the image *)

Record good (view : Z -> list Z) (k : nat) (n : inode) : Prop := {
  gd_disk : disk_inode view (Z.of_nat k + 1) = Some n;
  gd_fields : fields_ok n;
  gd_file : ifile image_sb view log_start n;
  gd_nlink : i_nlink n = 1;
  gd_tight : tight (i_addrs n) view (i_size n);
  gd_slack : slack (i_addrs n) view (i_size n);
}.
Definition total (N : list inode) : Z := foldr (fun n x => cost (i_size n) + x) 0 N.
Record built (N : list inode) (view : Z -> list Z) (s : st) : Prop := {
  bu_image : image view s;
  bu_len : (length N <= 199)%nat;
  bu_next : freeinode s = Z.of_nat (length N) + 1;
  bu_good k n : N !! k = Some n -> good view k n;
  bu_apart k1 k2 n1 n2 i j : N !! k1 = Some n1 -> N !! k2 = Some n2 -> k1 <> k2 -> 0 <= i < 141 -> 0 <= j < 141 ->
    slot (i_addrs n2) view j <> 0 -> slot (i_addrs n1) view i <> slot (i_addrs n2) view j;
  bu_count : freeblock s = 29 + total N;
}.

Lemma disk_inode_loaded view i n : disk_inode view i = Some n -> n = loaded n (Inode 1 i 0 0 0 0 0 0 0 []) /\ on_disk view n.
Proof using.
  intros H. destruct (dinode_of_loaded _ _ _ _ H) as [E Hd]. split; [done|]. unfold on_disk.
  assert (i_inum n = i) as -> by (by rewrite E). rewrite Hd. by rewrite loaded_self.
Qed.
Lemma good_inum view k n : good view k n -> i_inum n = Z.of_nat k + 1.
Proof using. intros G. destruct (disk_inode_loaded _ _ _ (gd_disk _ _ _ G)) as [E _]. by rewrite E. Qed.
Lemma total_insert N k n n' : N !! k = Some n -> total (<[k := n']> N) = total N + cost (i_size n') - cost (i_size n).
Proof using.
  revert k. induction N as [|x N IH]; intros [|k] H; try done.
  - injection H as ->. cbn. lia.
  - change (total (<[S k := n']> (x :: N))) with (cost (i_size x) + total (<[k := n']> N)).
    change (total (x :: N)) with (cost (i_size x) + total N). rewrite (IH k) by done. lia.
Qed.
Lemma total_app N1 N2 : total (N1 ++ N2) = total N1 + total N2.
Proof using.
  induction N1 as [|x N1 IH]; [done|]. change (total ((x :: N1) ++ N2)) with (cost (i_size x) + total (N1 ++ N2)).
  change (total (x :: N1)) with (cost (i_size x) + total N1). lia.
Qed.

(** an inode whose blocks are as they were *)
Lemma kept_tight a view view' len : (forall i, 0 <= i < 141 -> slot a view' i = slot a view i) -> tight a view len -> tight a view' len.
Proof using.
  intros Hs [H1 H2]. split; [|by rewrite Hs by lia]. intros k Hk Hle. destruct (sl_range k Hk) as [? _]. rewrite Hs by done. by apply H1.
Qed.
Lemma kept_slack a view view' len : 0 <= len <= MAXFILE * 512 -> has_blocks a view len ->
  (forall j, 0 <= j < 141 -> slot a view j <> 0 -> view' (slot a view j) = view (slot a view j)) -> slack a view len -> slack a view' len.
Proof using.
  intros Hlen Hb Hv Hs i Hi. rewrite <-(Hs i Hi). unfold fbyte, fblock.
  assert (512 * (i / 512) < len) as Hlt by (unfold blocks_of in Hi; Z.div_mod_to_equations; lia).
  assert (0 <= i / 512 < MAXFILE) as Hk by (unfold MAXFILE, NDIRECT, NINDIRECT in *; Z.div_mod_to_equations; lia).
  destruct (sl_range _ Hk) as [Hr _]. rewrite (kept_slots _ view) by done. by rewrite Hv by (done || apply Hb; lia).
Qed.
Lemma kept_good view view' k n : good view k n -> layout image_sb view' log_start ->
  (forall b, 0 <= b < 4096 -> used image_sb view b = true -> used image_sb view' b = true) ->
  (forall j, 0 <= j < 141 -> slot (i_addrs n) view j <> 0 -> view' (slot (i_addrs n) view j) = view (slot (i_addrs n) view j)) ->
  disk_inode view' (Z.of_nat k + 1) = disk_inode view (Z.of_nat k + 1) ->
  good view' k n /\ icontent view' n = icontent view n.
Proof using.
  intros [G1 G2 G3 G4 G5 G6] Hl Hu Hv Hd. destruct (file_kept _ _ _ _ _ G3 Hl Hu Hv) as [G3' Hc]. split; [|done]. split; try done.
  - by rewrite Hd.
  - apply (kept_tight _ view); [by apply kept_slots|done].
  - apply (kept_slack _ view); [apply (if_size _ _ _ _ G3)|apply (if_blocks _ _ _ _ G3)|done|done].
Qed.

(** ** The operations on the image *)

Lemma ioff_nat i : 0 <= i -> i mod IPB * sizeof_dinode = Z.of_nat (Z.to_nat (ioff i)).
Proof using. intros Hi. destruct (ioff_range i) as (H1 & _). rewrite Z2Nat.id by done. done. Qed.
Lemma iblock_image i : 0 <= i < 200 -> 2 <= IBLOCK i < 28 /\ i2b i = IBLOCK i.
Proof using.
  intros Hi. assert (2 <= IBLOCK i < 28) as H by (unfold IBLOCK, IPB; Z.div_mod_to_equations; lia). split; [done|].
  unfold i2b. change (i / IPB + 2) with (IBLOCK i). apply u32_id. lia.
Qed.

Lemma rinode_spec view s i n Q : image view s -> 0 <= i < 200 -> disk_inode view i = Some n -> Q n s -> wp (rinode i) Q s.
Proof using.
  intros I Hi Hd HQ. destruct (iblock_image i Hi) as [Hb E]. unfold rinode. rewrite E. wp_step. eapply rsect_spec; [done|lia|lia|].
  by eapply wp_deref.
Qed.
Lemma winode_spec view s i n Q : image view s -> 0 <= i < 200 -> i_inum n = i -> fields_ok n ->
  (forall s', image (iupdated view n) s' -> freeblock s' = freeblock s -> freeinode s' = freeinode s -> Q tt s') -> wp (winode space i n) Q s.
Proof using Hspace.
  intros I Hi En Hf HQ. destruct (iblock_image i Hi) as [Hb E]. destruct (ioff_range i) as (H1 & H2 & _). pose proof (length_enc n (fk_len _ Hf)) as He.
  destruct (im_bytes _ _ I (IBLOCK i) ltac:(lia)) as [Hl Hby]. pose proof (im_free _ _ I).
  unfold winode. rewrite E, ioff_nat by lia. wp_step. eapply rsect_spec; [done|lia|lia|].
  wp_step. eapply wp_deref; [apply st_dinode_blit; [lia|apply (fk_len _ Hf)]|].
  eapply (wsect_spec view); [done|lia|lia|rewrite length_blit; lia|apply blit_bytes; [done|apply enc_bytes]|].
  intros s' I' E1 E2. apply HQ; [|done|done]. unfold iupdated. by rewrite En.
Qed.

(** an inode written: it is on the disk, and the others are as they were *)
Lemma disk_inode_updated view s n i : image view s -> 0 <= i_inum n < 200 -> fields_ok n -> 0 <= i -> n = loaded n (Inode 1 (i_inum n) 0 0 0 0 0 0 0 []) ->
  disk_inode (iupdated view n) i = if decide (i = i_inum n) then Some n else disk_inode view i.
Proof using.
  intros I Hn Hf Hi En. destruct (iblock_image (i_inum n) Hn) as [Hb _]. destruct (im_bytes _ _ I (IBLOCK (i_inum n)) ltac:(lia)) as [Hl _].
  case_decide as E; [subst i|].
  - destruct (dinode_of_loaded _ _ _ _ (iupdated_on_disk view n Hl Hf)) as [_ H]. unfold disk_inode. rewrite H. by rewrite <-En.
  - unfold disk_inode. apply iupdated_other; [done|apply (fk_len _ Hf)|done|lia|done].
Qed.
Lemma good_updated view s k n k' n' : image view s -> layout image_sb view log_start -> 0 <= i_inum n < 200 -> fields_ok n -> n = loaded n (Inode 1 (i_inum n) 0 0 0 0 0 0 0 []) ->
  Z.of_nat k + 1 = i_inum n -> k' <> k -> good view k' n' -> good (iupdated view n) k' n' /\ icontent (iupdated view n) n' = icontent view n'.
Proof using.
  intros I Hl Hn Hf En Hk Hne G. destruct (iblock_image (i_inum n) Hn) as [Hb _].
  assert (forall b, 28 <= b -> iupdated view n b = view b) as Hv by (intros b Hb'; unfold iupdated; apply Bio.vupd_ne; lia).
  apply kept_good; [done| | | |].
  - eapply layout_ext; [done|unfold iupdated; apply Bio.vupd_ne; lia|by apply Hv].
  - intros b Hb' Hu. unfold used in *. change (bitmap image_sb) with 28 in *. by rewrite Hv by lia.
  - intros j Hj Hj0. destruct (slot_range _ _ _ _ j Hl (if_file _ _ _ _ (gd_file _ _ _ G)) Hj Hj0) as ((Hr & _) & _).
    change (bitmap image_sb) with 28 in Hr. apply Hv. lia.
  - erewrite disk_inode_updated by (try done; lia). by rewrite decide_False by lia.
Qed.

(** the blocks of one file have changed, and its inode is written *)
Section replace.
Context (N : list inode) (view : Z -> list Z) (s : st) (view' : Z -> list Z) (s' : st) (k : nat) (n n' : inode).
Hypothesis Hb : built N view s.
Hypothesis Hk : N !! k = Some n.
Hypothesis I' : image view' s'.
Hypothesis Hnext : freeinode s' = freeinode s.
Hypothesis Hfree : freeblock s' = freeblock s + cost (i_size n') - cost (i_size n).
Hypothesis Hfl : fields_ok n'.
Hypothesis Hfile : ifile image_sb view' log_start n'.
Hypothesis Hnl : i_nlink n' = 1.
Hypothesis Htg : tight (i_addrs n') view' (i_size n').
Hypothesis Hsk : slack (i_addrs n') view' (i_size n').
Hypothesis En : n' = loaded n' (Inode 1 (Z.of_nat k + 1) 0 0 0 0 0 0 0 []).
Hypothesis Hslots : forall j, 0 <= j < 141 -> slot (i_addrs n') view' j = 0 \/ slot (i_addrs n') view' j = slot (i_addrs n) view j \/
  used image_sb view (slot (i_addrs n') view' j) = false.
Hypothesis Hmono : forall b, 0 <= b < 4096 -> used image_sb view b = true -> used image_sb view' b = true.
Hypothesis Hkeep : forall b, 0 <= b < 4096 -> used image_sb view b = true -> b <> 28 ->
  (forall j, 0 <= j < 141 -> slot (i_addrs n) view j <> b) -> view' b = view b.

Lemma replace_number : i_inum n' = Z.of_nat k + 1 /\ 0 <= i_inum n' < 200.
Proof using Hb Hk En.
  clear Hnext Hfree Hnl. assert (i_inum n' = Z.of_nat k + 1) as E by (by rewrite En). split; [done|].
  pose proof (lookup_lt_Some _ _ _ Hk). pose proof (bu_len _ _ _ Hb). lia.
Qed.
(** the other inodes *)
Lemma replace_others k2 n2 : k2 <> k -> N !! k2 = Some n2 -> good (iupdated view' n') k2 n2 /\ icontent (iupdated view' n') n2 = icontent view n2 /\
  forall j, 0 <= j < 141 -> slot (i_addrs n2) (iupdated view' n') j = slot (i_addrs n2) view j.
Proof using Hb Hk I' Hfl En Hmono Hkeep.
  clear Hnext Hfree Hnl. destruct replace_number as [Ein Hr]. intros Hne H2. pose proof Hb as [B1 B2 B3 B4 B5 B6]. pose proof (B4 _ _ H2) as G. pose proof (lookup_lt_Some _ _ _ H2) as Hlt2.
  pose proof (image_layout _ _ B1) as Hl. pose proof (image_layout _ _ I') as Hl'. destruct (iblock_image (i_inum n') Hr) as [Hib _].
  assert (forall j, 0 <= j < 141 -> slot (i_addrs n2) view j <> 0 -> view' (slot (i_addrs n2) view j) = view (slot (i_addrs n2) view j)) as Hv.
  { intros j Hj Hj0. destruct (slot_range _ _ _ _ j Hl (if_file _ _ _ _ (gd_file _ _ _ G)) Hj Hj0) as (R1 & R2 & R3).
    change (bitmap image_sb) with 28 in R1. unfold log_start in *. apply Hkeep; [lia|done|lia|]. intros i Hi. by eapply B5. }
  destruct (kept_good view view' k2 n2 G Hl' Hmono Hv) as [G' Hc].
  - unfold disk_inode, dinode_of. destruct (iblock_image (Z.of_nat k2 + 1) ltac:(lia)) as [Hb2 _]. f_equal. apply Hkeep; [lia| |lia|].
    + rewrite (im_used _ _ B1) by lia. pose proof (im_free _ _ B1). lia.
    + intros j Hj E. destruct (fo_range _ _ _ _ (if_file _ _ _ _ (gd_file _ _ _ (B4 _ _ Hk))) j Hj) as [E0|(R1 & _)]; [lia|].
      change (bitmap image_sb) with 28 in R1. lia.
  - destruct (good_updated view' s' k n' k2 n2 I' Hl' Hr Hfl ltac:(by rewrite Ein) ltac:(lia) Hne G') as [G'' Hc'].
    split; [done|]. split; [by rewrite Hc', Hc|]. intros j Hj.
    rewrite (kept_slots _ view'); [by apply (kept_slots _ view)| |done]. intros i Hi Hi0.
    destruct (slot_range _ _ _ _ i Hl' (if_file _ _ _ _ (gd_file _ _ _ G')) Hi Hi0) as ((R1 & _) & _).
    change (bitmap image_sb) with 28 in R1. unfold iupdated. apply Bio.vupd_ne. lia.
Qed.
(** the inode itself *)
Lemma replace_self : good (iupdated view' n') k n' /\ icontent (iupdated view' n') n' = icontent view' n' /\
  forall j, 0 <= j < 141 -> slot (i_addrs n') (iupdated view' n') j = slot (i_addrs n') view' j.
Proof using Hb Hk I' Hfl Hfile Hnl Htg Hsk En.
  clear Hnext Hfree. destruct replace_number as [Ein Hr]. pose proof (image_layout _ _ I') as Hl'. destruct (iblock_image (i_inum n') Hr) as [Hib _].
  destruct (iupdated_files _ _ _ n' n' Hl' ltac:(unfold ino_ok; cbn; lia) Hfile) as [Hfile'' Hc''].
  assert (forall j, 0 <= j < 141 -> slot (i_addrs n') view' j <> 0 -> iupdated view' n' (slot (i_addrs n') view' j) = view' (slot (i_addrs n') view' j)) as Hself.
  { intros j Hj Hj0. destruct (slot_range _ _ _ _ j Hl' (if_file _ _ _ _ Hfile) Hj Hj0) as ((R1 & _) & _).
    change (bitmap image_sb) with 28 in R1. unfold iupdated. apply Bio.vupd_ne. lia. }
  pose proof (kept_slots _ _ _ Hself) as Hself'. split; [split|split]; try done.
  - rewrite (disk_inode_updated view' s') by first [exact I'|exact Hfl|lia|by rewrite Ein]. by rewrite decide_True by lia.
  - by apply (kept_tight _ view').
  - apply (kept_slack _ view'); [apply (if_size _ _ _ _ Hfile)|apply (if_blocks _ _ _ _ Hfile)|done|done].
Qed.
Lemma replace_apart k2 n2 i j : k2 <> k -> N !! k2 = Some n2 -> 0 <= i < 141 -> 0 <= j < 141 ->
  slot (i_addrs n') view' i <> 0 -> slot (i_addrs n2) view j <> 0 -> slot (i_addrs n') view' i <> slot (i_addrs n2) view j.
Proof using Hb Hk Hslots.
  intros Hne H2 Hi Hj H0 Hj0 E. pose proof Hb as [B1 B2 B3 B4 B5 B6]. destruct (Hslots i Hi) as [E1|[E1|E1]]; [done| |].
  - apply (B5 _ _ _ _ _ j Hk H2 (not_eq_sym Hne) Hi Hj Hj0). by rewrite <-E1.
  - rewrite E in E1. destruct (slot_range _ _ _ _ j (image_layout _ _ B1) (if_file _ _ _ _ (gd_file _ _ _ (B4 _ _ H2))) Hj Hj0) as (_ & _ & Hu). congruence.
Qed.
Lemma replace_inode : wp (winode space (Z.of_nat k + 1) n') (fun _ s'' => exists view'', built (<[k := n']> N) view'' s'' /\
  icontent view'' n' = icontent view' n' /\ forall k2 n2, k2 <> k -> N !! k2 = Some n2 -> icontent view'' n2 = icontent view n2) s'.
Proof using All.
  destruct replace_number as [Ein Hr], replace_self as (Gn & Hc & Hself). pose proof Hb as [B1 B2 B3 B4 B5 B6]. pose proof (lookup_lt_Some _ _ _ Hk) as Hlt.
  eapply winode_spec; [exact I'|lia|exact Ein|done|]. intros s'' I'' E1 E2. exists (iupdated view' n'). split; [|split; [done|]].
  2: { intros k2 n2 Hne H2. by destruct (replace_others k2 n2 Hne H2) as (_ & ? & _). }
  split; rewrite ?length_insert; [done|done|lia| | |].
  - intros k2 n2 H2. destruct (decide (k2 = k)) as [->|Hne].
    + rewrite list_lookup_insert_eq in H2 by done. by injection H2 as <-.
    + rewrite list_lookup_insert_ne in H2 by done. by destruct (replace_others k2 n2 Hne H2).
  - intros k1 k2 n1 n2 i j H1 H2 Hne Hi Hj. destruct (decide (k1 = k)) as [->|Hk1], (decide (k2 = k)) as [->|Hk2]; [done| | |].
    + rewrite list_lookup_insert_eq in H1 by done. injection H1 as <-. rewrite list_lookup_insert_ne in H2 by done.
      destruct (replace_others k2 n2 Hk2 H2) as (_ & _ & Hs2). rewrite Hself, Hs2 by done. intros Hj0 E. apply (replace_apart k2 n2 i j Hk2 H2 Hi Hj); [by rewrite E|done|done].
    + rewrite list_lookup_insert_ne in H1 by done. rewrite list_lookup_insert_eq in H2 by done. injection H2 as <-.
      destruct (replace_others k1 n1 Hk1 H1) as (_ & _ & Hs1). rewrite Hself, Hs1 by done. intros Hj0 E. apply (replace_apart k1 n1 j i Hk1 H1 Hj Hi); [done|by rewrite E|done].
    + rewrite list_lookup_insert_ne in H1, H2 by done. destruct (replace_others k1 n1 Hk1 H1) as (_ & _ & Hs1). destruct (replace_others k2 n2 Hk2 H2) as (_ & _ & Hs2).
      rewrite Hs1, Hs2 by done. by eapply B5.
  - rewrite (total_insert _ _ n) by done. lia.
Qed.
End replace.

(** ** The image as a list of files *)

(** each inode's type and bytes, from the root directory on *)
Definition files (F : list (Z * list Z)) (s : st) : Prop :=
  exists N view, built N view s /\ F = (fun n => (i_type n, icontent view n)) <$> N.
Definition space_of (F : list (Z * list Z)) : Z := foldr (fun f x => cost (Z.of_nat (length f.2)) + x) 0 F.

Lemma good_length view s k n : image view s -> good view k n -> Z.of_nat (length (icontent view n)) = i_size n.
Proof using.
  intros I G. pose proof (if_size _ _ _ _ (gd_file _ _ _ G)) as Hs. unfold icontent. rewrite length_content; [lia|done|].
  intros k' Hk Hks. destruct (block_range _ _ _ _ _ (gd_file _ _ _ G) Hk Hks) as (_ & _ & Hr). change (bitmap image_sb) with 28 in Hr.
  unfold fblock. apply (im_bytes _ _ I). unfold log_start in *. lia.
Qed.
Lemma files_space (N : list inode) view s : built N view s -> space_of ((fun n => (i_type n, icontent view n)) <$> N) = total N.
Proof using.
  intros Hb. pose proof (bu_good _ _ _ Hb) as Hg. pose proof (bu_image _ _ _ Hb) as I. clear Hb.
  assert (forall k0, (forall k n, N !! k = Some n -> good view (k0 + k) n) -> space_of ((fun n => (i_type n, icontent view n)) <$> N) = total N) as H.
  2: { by apply (H 0%nat). }
  clear Hg. induction N as [|n N IH]; intros k0 Hg; [done|].
  change (cost (Z.of_nat (length (icontent view n))) + space_of ((fun n => (i_type n, icontent view n)) <$> N) = cost (i_size n) + total N).
  rewrite (IH (S k0)).
  - rewrite (good_length view s k0); [done|done|]. specialize (Hg 0%nat n eq_refl). by rewrite Nat.add_0_r in Hg.
  - intros k n2 H2. specialize (Hg (S k) n2 H2). by replace (S k0 + k)%nat with (k0 + S k)%nat by lia.
Qed.
Lemma files_insert (N : list inode) view view' k n n' : N !! k = Some n -> i_type n' = i_type n ->
  (forall k2 n2, k2 <> k -> N !! k2 = Some n2 -> icontent view' n2 = icontent view n2) ->
  (fun n => (i_type n, icontent view' n)) <$> <[k := n']> N = <[k := (i_type n, icontent view' n')]> ((fun n => (i_type n, icontent view n)) <$> N).
Proof using.
  intros Hk Ht Ho. apply list_eq_lookup. intros j. rewrite list_lookup_fmap. pose proof (lookup_lt_Some _ _ _ Hk).
  destruct (decide (j = k)) as [->|Hne].
  - rewrite !list_lookup_insert_eq by (rewrite ?length_fmap; done). cbn. by rewrite Ht.
  - rewrite !list_lookup_insert_ne, list_lookup_fmap by done. destruct (N !! j) as [n2|] eqn:E; [|done]. cbn. by rewrite (Ho j n2 Hne E).
Qed.

Lemma iappend_spec F s k t c src m : files F s -> F !! k = Some (t, c) -> 0 <= m <= Z.of_nat (length src) -> bytes_ok src ->
  Z.of_nat (length c) + m <= MAXFILE * 512 ->
  let F' := <[k := (t, c ++ take (Z.to_nat m) src)]> F in 29 + space_of F + cost (Z.of_nat (length c) + m) - cost (Z.of_nat (length c)) <= log_start ->
  wp (iappend space (Z.of_nat k + 1) src m) (fun _ s' => files F' s') s.
Proof using Hspace.
  intros (N & view & Hb & ->) Hk Hm Hby HE F' Hroom. rewrite (files_space _ _ _ Hb) in Hroom. rewrite list_lookup_fmap in Hk.
  destruct (N !! k) as [n|] eqn:En; [|done]. injection Hk as <- <-. pose proof Hb as [B1 B2 B3 B4 B5 B6]. pose proof (B4 _ _ En) as G.
  pose proof G as [G1 G2 G3 G4 G5 G6]. rewrite (good_length _ _ _ _ B1 G) in HE, Hroom. pose proof (lookup_lt_Some _ _ _ En) as Hlt.
  pose proof (good_inum _ _ _ G) as Ein. destruct (disk_inode_loaded _ _ _ G1) as [El _].
  pose proof (if_size _ _ _ _ G3) as Hsz. unfold iappend. wp_step. eapply rinode_spec; [done|lia|exact G1|]. wp_step.
  rewrite xint_id by (unfold MAXFILE, NDIRECT, NINDIRECT in *; lia).
  apply wp_mono with (Q := fun r s' => exists view' a, r = (i_size n + m, set_addrs a n) /\ appended view s n src m view' a s').
  { apply wp_loop with (mu := fun v => Z.to_nat v.1.1.1) (Inv := ainv view s n m src); [|cbn; lia|].
    - exists 0, view, (i_addrs n). rewrite drop_0, set_addrs_id, Z.sub_0_r, Z.add_0_r. split; [lia|]. split; [done|].
      split; rewrite ?Z.add_0_r; try done; [by apply written_start|lia].
    - intros v s1 Hv. eapply wp_mono; [by apply iappend_round; first [done|lia]|]. cbn beta. intros [v'|[off din]] s2 Hr.
      + destruct Hr as (Hr & Hd1 & Hd2). split; [done|]. lia.
      + destruct Hr as (view' & a & -> & -> & Ha). by exists view', a. }
  intros r s' (view' & a & -> & [A1 A2 A3 A4 A5 A6]).
  set (n' := set_size (xint (i_size n + m)) (set_addrs a n)).
  assert (n' = set_size (Z.max (i_size n) (i_size n + m)) (set_addrs a n)) as En'.
  { unfold n'. rewrite Z.max_r by lia. by rewrite xint_id by (unfold MAXFILE, NDIRECT, NINDIRECT in *; lia). }
  assert (i_size n' = i_size n + m) as Es by (rewrite En'; cbn; lia).
  pose proof (fun b H => image_bytes _ _ b B1 H) as Hold. pose proof (fun b H => image_bytes _ _ b A1 H) as Hnew.
  pose proof (written_ifile log_start image_sb view view' n (i_size n) m a src G3 ltac:(lia) Hm HE A2) as R1.
  pose proof (written_content log_start image_sb view view' n (i_size n) m a src Hold Hnew G3 ltac:(lia) Hm HE A2) as R2.
  pose proof (written_fields log_start image_sb view view' n (i_size n) m a src G3 ltac:(unfold log_start; lia) G2 ltac:(lia) Hm HE A2) as R3.
  rewrite <-En' in R1, R2, R3.
  eapply wp_mono; [eapply (replace_inode N view s view' s' k n n'); try done|].
  - rewrite Es. lia.
  - by rewrite Es.
  - by rewrite Es.
  - rewrite En', El. done.
  - apply (w_slots _ _ _ _ _ _ _ _ _ _ A2).
  - apply (w_used _ _ _ _ _ _ _ _ _ _ A2).
  - apply (w_keep _ _ _ _ _ _ _ _ _ _ A2).
  - cbn beta. intros _ s2 (view2 & Hb2 & Hc & Ho). exists (<[k := n']> N), view2. split; [done|].
    rewrite (files_insert N view view2 k n n') by done. unfold F'. do 2 f_equal. rewrite Hc, R2.
    pose proof (good_length _ _ _ _ B1 G). rewrite (take_ge (icontent view n)) by lia. rewrite (drop_ge (icontent view n)) by lia. by rewrite app_nil_r.
Qed.

Lemma space_insert (F : list (Z * list Z)) k t c c' : F !! k = Some (t, c) ->
  space_of (<[k := (t, c')]> F) = space_of F + cost (Z.of_nat (length c')) - cost (Z.of_nat (length c)).
Proof using.
  revert k. induction F as [|x F IH]; intros [|k] H; try done.
  - injection H as ->. cbn. lia.
  - change (space_of (<[S k := (t, c')]> (x :: F))) with (cost (Z.of_nat (length x.2)) + space_of (<[k := (t, c')]> F)).
    change (space_of (x :: F)) with (cost (Z.of_nat (length x.2)) + space_of F). rewrite (IH k) by done. lia.
Qed.
Lemma space_app F1 F2 : space_of (F1 ++ F2) = space_of F1 + space_of F2.
Proof using.
  induction F1 as [|x F1 IH]; [done|]. change (space_of ((x :: F1) ++ F2)) with (cost (Z.of_nat (length x.2)) + space_of (F1 ++ F2)).
  change (space_of (x :: F1)) with (cost (Z.of_nat (length x.2)) + space_of F1). lia.
Qed.

(** a new inode with no blocks *)
Definition empty_inode (i ty : Z) : inode := Inode 1 i 0 0 ty 0 0 1 0 (replicate 13 0).
Lemma slot_empty view j : slot (replicate 13 0) view j = 0.
Proof using.
  assert (forall i, i < 13 -> slot (replicate 13 0) view i = 0) as H.
  { intros i Hi. rewrite slot_small by done. unfold at_. destruct (0 <=? i); [|done]. destruct (replicate 13 0 !! Z.to_nat i) as [v|] eqn:E; [|done].
    by apply lookup_replicate_1 in E as [-> _]. }
  destruct (Z.ltb_spec j 13); [by apply H|]. rewrite slot_large by done. by rewrite (H 12).
Qed.
Lemma empty_fields i ty : 0 <= ty < 2 ^ 15 -> fields_ok (empty_inode i ty).
Proof using. intros H. split; cbn -[Z.pow]; try lia. by apply (Forall_replicate _ 13). Qed.
Lemma empty_ifile view i ty : layout image_sb view log_start -> ifile image_sb view log_start (empty_inode i ty).
Proof using.
  intros Hl. split; [done| | | |done].
  - split; [done| |]; cbn [i_addrs empty_inode]; intros; rewrite !slot_empty in *; [by left|done].
  - cbn [i_size empty_inode]. unfold MAXFILE, NDIRECT, NINDIRECT. lia.
  - intros k Hk Hlt. cbn in Hlt. lia.
Qed.

Lemma ialloc_spec F s ty : files F s -> (length F < 199)%nat -> 0 <= ty < 2 ^ 15 ->
  wp (ialloc space ty) (fun r s' => r = Z.of_nat (length F) + 1 /\ files (F ++ [(ty, [])]) s') s.
Proof using Hspace.
  intros (N & view & Hb & ->) Hlen Hty. rewrite length_fmap in *. pose proof Hb as [B1 B2 B3 B4 B5 B6]. pose proof (image_layout _ _ B1) as Hl.
  unfold ialloc. wp_step. wp_step. wp_step. wp_step. wp_step. rewrite !B3.
  assert (s16 (xshort ty) = ty) as ->. { rewrite xshort_id by lia. unfold s16. rewrite Z.mod_small by lia. lia. }
  change (s16 (xshort 1)) with 1. change (xint 0) with 0. rewrite u32_id by lia. set (i := Z.of_nat (length N) + 1). change (Inode 1 i 0 0 ty 0 0 1 0 (replicate 13 0)) with (empty_inode i ty).
  set (s1 := St _ _ _ _). assert (image view s1) as I1 by (split; apply B1). pose proof (empty_fields i ty Hty) as Hfl. set (n := empty_inode i ty) in *.
  assert (0 <= i_inum n < 200) as Hr by (cbn; lia). destruct (iblock_image (i_inum n) Hr) as [Hbk _].
  eapply (winode_spec view); [done|exact Hr|done|done|]. intros s2 I2 E2 E2'. wp_step. split; [done|]. exists (N ++ [n]), (iupdated view n).
  assert (forall k n2, N !! k = Some n2 -> good (iupdated view n) k n2 /\ icontent (iupdated view n) n2 = icontent view n2 /\
    forall j, 0 <= j < 141 -> slot (i_addrs n2) (iupdated view n) j = slot (i_addrs n2) view j) as Hoth.
  { intros k n2 H2. pose proof (lookup_lt_Some _ _ _ H2). destruct (good_updated view s1 (length N) n k n2) as [G Hc]; try done; try lia; [by apply B4|].
    split; [done|]. split; [done|]. apply kept_slots. intros j Hj Hj0.
    destruct (slot_range _ _ _ _ j Hl (if_file _ _ _ _ (gd_file _ _ _ (B4 _ _ H2))) Hj Hj0) as ((R1 & _) & _). change (bitmap image_sb) with 28 in R1.
    unfold iupdated. apply Bio.vupd_ne. lia. }
  split.
  - split; [done|rewrite length_app; cbn [length]; lia|rewrite E2', length_app; cbn [length freeinode s1]; lia| | |].
    + intros k n2 H2. apply lookup_app_Some in H2 as [H2|[Hk H2]]; [by apply Hoth|]. apply list_lookup_singleton_Some in H2 as [Hk0 <-].
      assert (k = length N) as -> by lia. split; try done.
      * rewrite (disk_inode_updated view s1) by first [exact I1|exact Hfl|lia|done]. by rewrite decide_True by done.
      * apply empty_ifile. by apply (image_layout _ s2).
      * split; cbn [i_addrs n empty_inode]; intros; rewrite slot_empty in *; done.
      * intros j Hj. change (i_size n) with 0 in Hj. change (blocks_of 0) with 0 in Hj. lia.
    + intros k1 k2 n1 n2 j1 j2 H1 H2 Hne Hj1 Hj2. apply lookup_app_Some in H1 as [H1|[Hl1 H1]], H2 as [H2|[Hl2 H2]].
      * destruct (Hoth _ _ H1) as (_ & _ & E1), (Hoth _ _ H2) as (_ & _ & E2''). rewrite E1, E2'' by done. by eapply B5.
      * apply list_lookup_singleton_Some in H2 as [_ <-]. cbn [i_addrs n empty_inode]. by rewrite slot_empty.
      * apply list_lookup_singleton_Some in H1 as [_ <-]. cbn [i_addrs n empty_inode]. rewrite slot_empty. congruence.
      * apply list_lookup_singleton_Some in H1 as [Hk1 _], H2 as [Hk2 _]. lia.
    + rewrite E2, total_app. change (total [n]) with 0. change (freeblock s1) with (freeblock s). lia.
  - rewrite fmap_app. f_equal. apply list_fmap_ext. intros k n2 H2. destruct (Hoth _ _ H2) as (_ & -> & _). done.
Qed.

(** ** Whole files *)

(** the bytes successive reads return, up to the first that returns none *)
Fixpoint read_bytes (pieces : list (list Z)) : list Z :=
  match pieces with
  | [] => []
  | p :: pieces => if (0 <? length p)%nat then p ++ read_bytes pieces else []
  end.
Lemma copy_file_spec ps F s k t c : files F s -> F !! k = Some (t, c) -> bytes_ok (read_bytes ps) ->
  let c' := c ++ read_bytes ps in Z.of_nat (length c') <= MAXFILE * 512 -> 29 + space_of (<[k := (t, c')]> F) <= log_start ->
  wp (copy_file space (Z.of_nat k + 1) ps) (fun _ s' => files (<[k := (t, c')]> F) s') s.
Proof using Hspace.
  revert F s c. induction ps as [|p ps IH]; intros F s c HF Hk Hby c' Hmax Hroom; subst c'; cbn [read_bytes copy_file] in *.
  - wp_step. rewrite app_nil_r. by rewrite list_insert_id.
  - destruct (Nat.ltb_spec 0 (length p)), (Z.ltb_spec 0 (Z.of_nat (length p))); try lia.
    2: { wp_step. rewrite app_nil_r. by rewrite list_insert_id. }
    apply Forall_app in Hby as [Hp Hby]. rewrite !length_app in Hmax. rewrite (space_insert F k t c) in Hroom by done. rewrite !length_app in Hroom.
    pose proof (lookup_lt_Some _ _ _ Hk).
    pose proof (cost_mono (Z.of_nat (length c) + Z.of_nat (length p)) (Z.of_nat (length c + (length p + length (read_bytes ps)))) ltac:(lia)).
    wp_step. eapply wp_mono; [apply (iappend_spec F s k t c p); try done; lia|]. cbn beta. intros _ s1 HF1. rewrite Nat2Z.id, (take_ge p) in HF1 by lia.
    eapply wp_mono; [apply (IH _ s1 (c ++ p) HF1)|].
    + by apply list_lookup_insert_eq.
    + done.
    + rewrite !length_app. lia.
    + rewrite list_insert_insert_eq, <-app_assoc, (space_insert F k t c), !length_app by done. lia.
    + cbn beta. intros _ s2. by rewrite list_insert_insert_eq, <-app_assoc.
Qed.

Context (host : list Z -> option (list (list Z))) (create : list Z -> bool).

(** the bytes of the file named on the command line *)
Definition host_file (arg : list Z) : list Z := default [] (read_bytes <$> host arg).
(** an argument mkfs can copy *)
Record arg_ok (arg : list Z) : Prop := {
  ag_name : 47 ∉ arg;
  ag_name_bytes : bytes_ok arg;
  ag_open : is_Some (host arg);
  ag_bytes : bytes_ok (host_file arg);
  ag_size : Z.of_nat (length (host_file arg)) <= MAXFILE * 512;
}.
Fixpoint entries (i : Z) (args : list (list Z)) : list Z :=
  match args with [] => [] | a :: args => new_dirent i (image_name a) ++ entries (i + 1) args end.
Definition copies (args : list (list Z)) : list (Z * list Z) := (fun a => (T_FILE, host_file a)) <$> args.

Lemma new_dirent_ok i name : bytes_ok name -> length (new_dirent i name) = 16%nat /\ bytes_ok (new_dirent i name).
Proof using.
  intros Hn. unfold new_dirent, fillpad. rewrite !length_app, length_le, length_replicate, length_take. split; [lia|].
  apply Forall_app. split; [apply le_bytes|]. apply Forall_app. split; [by apply Forall_take|]. apply Forall_replicate. lia.
Qed.
Lemma image_name_bytes a : bytes_ok a -> bytes_ok (image_name a).
Proof using.
  intros H. unfold image_name. destruct a as [|c a]; [done|]. repeat case_match; try done. by apply Forall_cons in H as [_ H].
Qed.
Lemma length_entries i args : Forall arg_ok args -> length (entries i args) = (16 * length args)%nat.
Proof using.
  revert i. induction args as [|a args IH]; intros i Ha; [done|]. apply Forall_cons in Ha as [Ha Hs]. cbn [entries length]. rewrite length_app, IH by done.
  destruct (new_dirent_ok i (image_name a)) as [-> _]; [by apply image_name_bytes, ag_name_bytes|lia].
Qed.
Lemma space_nonneg F : 0 <= space_of F.
Proof using.
  induction F as [|x F IH]; [done|]. change (space_of (x :: F)) with (cost (Z.of_nat (length x.2)) + space_of F).
  pose proof (cost_mono 0 (Z.of_nat (length x.2)) ltac:(lia)) as H. change (cost 0) with 0 in H. lia.
Qed.

(** adding a file to an image with the directory [d] and the files [R] *)
Lemma add_file_spec s d R arg : files ((T_DIR, d) :: R) s -> arg_ok arg -> (length R < 198)%nat -> Z.of_nat (length d) + 16 <= MAXFILE * 512 ->
  let F' := (T_DIR, d ++ new_dirent (Z.of_nat (length R) + 2) (image_name arg)) :: R ++ [(T_FILE, host_file arg)] in
  29 + space_of F' <= log_start -> wp (add_file space host ROOTINO arg) (fun _ s' => files F' s') s.
Proof using Hspace.
  intros HF [A1 A2 [ps A3] A4 A5] Hlen Hd F' Hroom. subst F'. unfold host_file in *. unfold add_file. rewrite A3 in *. cbn [fmap option_fmap option_map default from_option id] in *.
  set (de := new_dirent (Z.of_nat (length R) + 2) (image_name arg)) in *. destruct (new_dirent_ok (Z.of_nat (length R) + 2) (image_name arg) (image_name_bytes _ A2)) as [Hdl Hdb]. fold de in Hdl, Hdb.
  change (space_of (?x :: ?l)) with (cost (Z.of_nat (length x.2)) + space_of l) in Hroom. cbn [snd] in Hroom. rewrite length_app, Hdl, space_app in Hroom.
  change (space_of [(T_FILE, read_bytes ps)]) with (cost (Z.of_nat (length (read_bytes ps))) + 0) in Hroom.
  pose proof (cost_mono 0 (Z.of_nat (length (read_bytes ps))) ltac:(lia)) as Hc0. change (cost 0) with 0 in Hc0.
  wp_step. wp_step; [by apply bool_decide_eq_false|]. wp_step. eapply wp_mono; [apply (ialloc_spec ((T_DIR, d) :: R)); [done|cbn [length]; lia|unfold T_FILE; lia]|].
  cbn beta. intros i s1 [-> HF1]. cbn [length]. replace (Z.of_nat (S (length R)) + 1) with (Z.of_nat (length R) + 2) by lia.
  wp_step. fold de. change ROOTINO with (Z.of_nat 0 + 1). unfold sizeof_dirent. eapply wp_mono; [apply (iappend_spec (((T_DIR, d) :: R) ++ [(T_FILE, [])]) s1 0 T_DIR d de 16 HF1)|].
  - done.
  - lia.
  - done.
  - done.
  - change (space_of (((T_DIR, d) :: R) ++ [(T_FILE, [])])) with (cost (Z.of_nat (length d)) + space_of (R ++ [(T_FILE, [])])). rewrite space_app.
    change (space_of [(T_FILE, [])]) with 0. replace (Z.of_nat (length d + 16)) with (Z.of_nat (length d) + 16) in Hroom by lia. lia.
  - cbn beta. intros _ s2 HF2. change (Z.to_nat 16) with 16%nat in HF2. rewrite take_ge in HF2 by lia.
    change (<[0%nat := (T_DIR, d ++ de)]> (((T_DIR, d) :: R) ++ [(T_FILE, [])])) with ((T_DIR, d ++ de) :: R ++ [(T_FILE, [])]) in HF2.
    assert (<[S (length R) := (T_FILE, read_bytes ps)]> ((T_DIR, d ++ de) :: R ++ [(T_FILE, [])]) = (T_DIR, d ++ de) :: R ++ [(T_FILE, read_bytes ps)]) as E.
    { change (<[S (length R) := (T_FILE, read_bytes ps)]> ((T_DIR, d ++ de) :: R ++ [(T_FILE, [])])) with ((T_DIR, d ++ de) :: <[length R := (T_FILE, read_bytes ps)]> (R ++ [(T_FILE, [])])).
      f_equal. rewrite insert_app_r_alt by lia. by rewrite Nat.sub_diag. }
    replace (Z.of_nat (length R) + 2) with (Z.of_nat (S (length R)) + 1) by lia.
    eapply wp_mono; [apply (copy_file_spec ps _ s2 (S (length R)) T_FILE [] HF2)|].
    + change ((R ++ [(T_FILE, [])]) !! length R = Some (T_FILE, [])). rewrite lookup_app_r by lia. by rewrite Nat.sub_diag.
    + done.
    + done.
    + cbn [app]. rewrite E. change (space_of ((T_DIR, d ++ de) :: ?l)) with (cost (Z.of_nat (length (d ++ de))) + space_of l). rewrite length_app, Hdl, space_app.
      change (space_of [(T_FILE, read_bytes ps)]) with (cost (Z.of_nat (length (read_bytes ps))) + 0). lia.
    + cbn beta. intros _ s3 HF3. cbn [app] in HF3. by rewrite E in HF3.
Qed.
Lemma add_files_spec args s d R : files ((T_DIR, d) :: R) s -> Forall arg_ok args -> (length R + length args <= 198)%nat ->
  Z.of_nat (length d) + 16 * Z.of_nat (length args) <= MAXFILE * 512 ->
  let F' := (T_DIR, d ++ entries (Z.of_nat (length R) + 2) args) :: R ++ copies args in
  29 + space_of F' <= log_start -> wp (add_files space host ROOTINO args) (fun _ s' => files F' s') s.
Proof using Hspace.
  revert s d R. induction args as [|a args IH]; intros s d R HF Ha Hlen Hd F' Hroom; subst F'; cbn [add_files entries] in *.
  - wp_step. change (copies []) with (@nil (Z * list Z)). by rewrite !app_nil_r.
  - apply Forall_cons in Ha as [Ha Has]. cbn [length] in *. change (copies (a :: args)) with ((T_FILE, host_file a) :: copies args) in *.
    set (de := new_dirent (Z.of_nat (length R) + 2) (image_name a)) in *. pose proof (length_entries (Z.of_nat (length R) + 2 + 1) args Has) as Hle.
    destruct (new_dirent_ok (Z.of_nat (length R) + 2) (image_name a) (image_name_bytes _ (ag_name_bytes _ Ha))) as [Hdl _]. fold de in Hdl.
    rewrite (app_assoc d), (cons_middle (T_FILE, host_file a) R), app_assoc in Hroom |- *.
    replace (Z.of_nat (length R) + 2 + 1) with (Z.of_nat (length (R ++ [(T_FILE, host_file a)])) + 2) in * by (rewrite length_app; cbn [length]; lia).
    wp_step. eapply wp_mono; [apply (add_file_spec s d R a); try done; [lia|lia|]|].
    + pose proof (space_nonneg (copies args)) as Hn. change (space_of (?x :: ?l)) with (cost (Z.of_nat (length x.2)) + space_of l) in Hroom |- *. cbn [snd] in *. fold de.
      rewrite space_app in Hroom. pose proof (cost_mono (Z.of_nat (length (d ++ de))) (Z.of_nat (length ((d ++ de) ++ entries (Z.of_nat (length (R ++ [(T_FILE, host_file a)])) + 2) args))) ltac:(rewrite (length_app (d ++ de)); lia)). lia.
    + cbn beta. intros _ s1 HF1. apply IH; try done; rewrite ?length_app; cbn [length]; lia.
Qed.

(** ** The end of the image *)

(** what is left of the last block *)
Definition padding (d : list Z) : list Z := replicate (512 - length d mod 512) 0.
Lemma rounded sz : 0 <= sz <= MAXFILE * 512 -> sz mod 512 <> 0 ->
  (sz / 512 + 1) * 512 = 512 * blocks_of sz /\ sz < 512 * blocks_of sz <= MAXFILE * 512 /\ blocks_of (512 * blocks_of sz) = blocks_of sz /\
  cost (512 * blocks_of sz) = cost sz.
Proof using.
  unfold MAXFILE, NDIRECT, NINDIRECT. intros H1 H2. assert (blocks_of sz = sz / 512 + 1) as E by (unfold blocks_of; Z.div_mod_to_equations; lia).
  pose proof (Z.div_mod sz 512 ltac:(lia)). pose proof (Z.mod_pos_bound sz 512 eq_refl).
  assert (blocks_of (512 * blocks_of sz) = blocks_of sz) as E2 by (unfold blocks_of at 1; Z.div_mod_to_equations; lia).
  split; [lia|]. split; [lia|]. split; [done|]. unfold cost. rewrite E2. f_equal. f_equal. rewrite E. destruct (Z.ltb_spec 6144 sz), (Z.ltb_spec 6144 (512 * (sz / 512 + 1))); lia.
Qed.

Section rounding.
Context (view : Z -> list Z) (s : st) (n : inode).
Hypothesis I : image view s.
Hypothesis G : good view 0 n.
Hypothesis Hmod : i_size n mod 512 <> 0.
Let n' := set_size (512 * blocks_of (i_size n)) n.

Lemma rounded_ifile : ifile image_sb view log_start n' /\ tight (i_addrs n') view (i_size n') /\ slack (i_addrs n') view (i_size n').
Proof using G Hmod.
  destruct G as [_ _ [F1 F2 F3 F4 F5] _ [T1 T2] _]. destruct (rounded _ F3 Hmod) as (E1 & E2 & E3 & _).
  split; [|split]; cbn [n' i_addrs i_size set_size].
  - split; try done; cbn [n' i_addrs i_size set_size]; [lia|]. intros k Hk Hlt. apply F4; [done|]. unfold blocks_of in *. Z.div_mod_to_equations; lia.
  - split; [|intros H; specialize (T2 H); lia]. intros k Hk Hle. apply T1; [done|lia].
  - intros i Hi. rewrite E3 in Hi. lia.
Qed.
Lemma rounded_content : icontent view n' = icontent view n ++ padding (icontent view n).
Proof using I G Hmod.
  pose proof (good_length _ _ _ _ I G) as Hl. pose proof (gd_slack _ _ _ G) as Hs. pose proof (if_size _ _ _ _ (gd_file _ _ _ G)) as Hsz.
  destruct (rounded _ Hsz Hmod) as (E1 & E2 & _). destruct rounded_ifile as [Hf' _].
  assert (forall m k, ifile image_sb view log_start m -> 0 <= k -> 512 * k < i_size m -> length (fblock (i_addrs m) view k) = 512%nat) as Hblk.
  { intros m k Hm Hk Hlt. destruct (block_range _ _ _ _ _ Hm Hk Hlt) as (_ & _ & Hr). change (bitmap image_sb) with 28 in Hr.
    unfold fblock. apply (im_bytes _ _ I). unfold log_start in *. lia. }
  assert (length (padding (icontent view n)) = Z.to_nat (512 * blocks_of (i_size n) - i_size n)) as Hp.
  { unfold padding. rewrite length_replicate. assert (Z.of_nat (length (icontent view n) mod 512) = i_size n mod 512) as Em by (rewrite Nat2Z.inj_mod; by rewrite Hl).
    pose proof (Z.div_mod (i_size n) 512 ltac:(lia)). lia. }
  apply list_eq_lookup. intros i. unfold icontent at 1. cbn [n' i_addrs i_size set_size]. rewrite content_lookup; [|lia|].
  2: { intros k Hk Hlt. by apply (Hblk n' k Hf'). }
  destruct (decide (Z.of_nat i < i_size n)) as [Hi|Hi].
  - rewrite lookup_app_l by lia. rewrite decide_True by lia. unfold icontent. rewrite content_lookup; [by rewrite decide_True|done|]. intros k Hk Hlt. by apply Hblk; first [apply G|done].
  - rewrite lookup_app_r by lia. case_decide as Hi2.
    + rewrite Hs by lia. symmetry. apply lookup_replicate_2. unfold padding in Hp. rewrite length_replicate in Hp. lia.
    + symmetry. apply lookup_ge_None. lia.
Qed.
End rounding.

Lemma round_root_spec s d R : files ((T_DIR, d) :: R) s -> (length d mod 512 <> 0)%nat ->
  wp (round_root space ROOTINO) (fun _ s' => files ((T_DIR, d ++ padding d) :: R) s') s.
Proof using Hspace.
  intros (N & view & Hb & EF) Hmod. destruct N as [|n N]; [done|]. cbn [fmap list_fmap] in EF. injection EF as Ed -> ->. pose proof Hb as [B1 B2 B3 B4 B5 B6].
  pose proof (B4 0%nat n eq_refl) as G. pose proof (good_length _ _ _ _ B1 G) as Hl.
  assert (i_size n mod 512 <> 0) as Hm. { rewrite <-Hl. change 512 with (Z.of_nat 512). rewrite <-Nat2Z.inj_mod. lia. }
  pose proof (if_size _ _ _ _ (gd_file _ _ _ G)) as Hsz. destruct (rounded _ Hsz Hm) as (E1 & E2 & E3 & E4).
  destruct (rounded_ifile view n G Hm) as (R1 & R2 & R3). pose proof (rounded_content view s n B1 G Hm) as Rc.
  unfold MAXFILE, NDIRECT, NINDIRECT in *. unfold round_root. wp_step. eapply (rinode_spec view); [done|done|apply (gd_disk _ _ _ G)|].
  change BSIZE with 512. rewrite (xint_id (i_size n)) by lia. rewrite E1, u32_id, xint_id by lia.
  set (n' := set_size (512 * blocks_of (i_size n)) n) in *. destruct (disk_inode_loaded _ _ _ (gd_disk _ _ _ G)) as [El _].
  change ROOTINO with (Z.of_nat 0 + 1). eapply wp_mono; [eapply (replace_inode (n :: N) view s view s 0 n n'); try done|].
  - cbn [n' i_size set_size]. lia.
  - pose proof (gd_fields _ _ _ G) as []. split; try done. cbn [n' i_size set_size]. lia.
  - apply (gd_nlink _ _ _ G).
  - unfold n'. rewrite El. done.
  - intros j Hj. right. left. done.
  - cbn beta. intros _ s2 (view2 & Hb2 & Hc & Ho). exists (n' :: N), view2. split; [done|]. cbn [fmap list_fmap]. f_equal.
    + rewrite Hc, Rc, Ed. done.
    + apply list_fmap_ext. intros k n2 H2. by rewrite (Ho (S k) n2 ltac:(done) H2).
Qed.

(** the bitmap *)
Lemma mkfs_balloc_spec s used0 : 0 <= used0 < 4096 -> length (img s) = 1024%nat ->
  wp (balloc space used0) (fun _ s' => exists x, s' = set_img (put (img s) 28 x) s /\ length x = 512%nat /\ bytes_ok x /\
     forall b, 0 <= b < 4096 -> bit_of x b = (b <? used0)) s.
Proof using Hspace.
  intros Hu Hlen. unfold balloc. wp_step. wp_step; [destruct (Z.ltb_spec used0 (512 * 8)); [done|lia]|]. wp_step.
  apply wp_mono with (Q := fun x s' => s' = s /\ length x = 512%nat /\ bytes_ok x /\ forall b, 0 <= b < 4096 -> bit_of x b = (b <? used0)).
  - apply wp_loop with (mu := fun v => Z.to_nat (used0 - v.1))
      (Inv := fun v s' => s' = s /\ 0 <= v.1 <= used0 /\ length v.2 = 512%nat /\ bytes_ok v.2 /\ forall b, 0 <= b < 4096 -> bit_of v.2 b = (b <? v.1)).
    + cbn [fst snd]. split; [done|]. split; [lia|]. split; [apply length_replicate|]. split; [by apply bzeros_ok|].
      intros b Hb. pose proof (forallb_seqZ (fun b => negb (bit_of zeroes b)) 0 4096 ltac:(vm_compute; reflexivity) b Hb) as Hz.
      apply negb_true_iff in Hz. rewrite Hz. lia.
    + cbn. lia.
    + intros [i x] s1 (-> & Hi & Hl & Hby & Hbits). cbn [fst snd] in *. unfold balloc_body. destruct (Z.ltb_spec i used0) as [Hlt|Hge].
      * destruct (bit_byte x Hl Hby i ltac:(lia)) as (c & Hc & _). wp_step. eapply wp_deref; [exact Hc|]. wp_step.
        rewrite (set_bit_use x i c Hc). cbn [fst snd]. destruct (set_bit_ok x Hl Hby i) as [S1 S2]. split; [|lia].
        split; [done|]. split; [lia|]. split; [done|]. split; [done|]. intros b Hb. rewrite set_bit_spec, Hbits by (done || lia).
        case_bool_decide; lia.
      * wp_step. assert (i = used0) as -> by lia. done.
  - intros x s1 (-> & Hl & Hby & Hbits). unfold wsect. wp_step. wp_step; [change (ninodes / IPB + 3) with 28; destruct (Z.ltb_spec 28 space); [done|lia]|].
    wp_step. exists x. split; [|done]. unfold write_at. change (ninodes / IPB + 3) with 28. destruct (Z.ltb_spec 28 (Z.of_nat (length (img s)))); [done|lia].
Qed.
End host.
End MkfsSpec.
