(* ===== verification/MkfsCorrect.v ===== *)
(** * The image mkfs builds is a file system (src/src/tools/mkfs.c)

    The whole run of mkfs, and what the kernel's file system finds on the disk
    it leaves: the tree of Namei.v, with the files named on the command line. *)

From S2P Require Import Prelude.
From S2P Require Import Bytes.
From S2P Require Import KString.
From S2P Require Import Bio.
From S2P Require Import Store.
From S2P Require Import Fs.
From S2P Require Import Content.
From S2P Require Import Inode.
From S2P Require Import Dir.
From S2P Require Import Namei.
From S2P Require Import Mkfs.
From S2P Require Import MkfsSpec.

Module MkfsCorrect.
Import Fs Content Inode Dir Namei Mkfs MkfsSpec.

(** ** The empty image *)

(** the bitmap with the blocks below the data and those of the log marked *)
Definition first_bitmap : list Z := foldr (fun b x => set_bit x b) zeroes (seqZ 0 29 ++ seqZ 1014 3082).
Definition first_view (b : Z) : list Z := if b =? 28 then first_bitmap else if b =? 1 then sb_sector else zeroes.
Definition first_state : st := St (put (replicate 1024 zeroes) 1 sb_sector) 29 29 1.

Lemma first_image : image first_view first_state.
Proof.
  assert (length sb_sector = 512%nat /\ bytes_ok sb_sector) as [S1 S2].
  { split; [done|]. apply (bool_decide_unpack _). vm_compute. exact I. }
  assert (length first_bitmap = 512%nat /\ bytes_ok first_bitmap) as [M1 M2].
  { split; [vm_compute; reflexivity|]. apply (bool_decide_unpack _). vm_compute. exact I. }
  split.
  - done.
  - intros b Hb H28. unfold first_view. destruct (Z.eqb_spec b 28) as [E|_]; [by destruct (H28 E)|]. cbn [img first_state]. destruct (Z.eqb_spec b 1) as [->|Hne].
    + apply at_put_eq. rewrite length_replicate. lia.
    + rewrite at_put_ne by lia. apply at_replicate. lia.
  - intros b Hb. unfold first_view. destruct (b =? 28); [exact (conj M1 M2)|]. destruct (b =? 1); [exact (conj S1 S2)|]. apply bzeros_ok.
  - intros b Hb. pose proof (forallb_seqZ (fun b => Bool.eqb (bit_of first_bitmap b) ((b <? 29) || (log_start <=? b))) 0 4096 ltac:(vm_compute; reflexivity) b Hb) as H.
    apply eqb_prop in H. exact H.
  - cbn [freeblock first_state]. unfold log_start. lia.
  - reflexivity.
  - intros b Hb. cbn in Hb. unfold first_view, log_start in *. destruct (Z.eqb_spec b 28); [lia|]. destruct (Z.eqb_spec b 1); [lia|]. reflexivity.
  - repeat split; vm_compute; reflexivity.
Qed.
Lemma first_files : files [] first_state.
Proof.
  exists [], first_view. split; [|done]. split; try done; [apply first_image|cbn; lia].
Qed.

Section host.
Context (space : Z) (host : list Z -> option (list (list Z))) (create : list Z -> bool).
Hypothesis Hspace : 1024 <= space.

Lemma zero_image_spec s n : img s = [] -> 0 <= n <= 1024 -> wp (zero_image space n) (fun _ s' => s' = set_img (replicate (Z.to_nat n) zeroes) s) s.
Proof using Hspace.
  intros Hs Hn. unfold zero_image. apply wp_loop with (mu := fun i => Z.to_nat (n - i))
    (Inv := fun i s' => 0 <= i <= n /\ s' = set_img (replicate (Z.to_nat i) zeroes) s).
  - split; [lia|]. destruct s as [l]. cbn in *. by subst l.
  - lia.
  - intros i s1 [Hi ->]. destruct (Z.ltb_spec i n) as [Hlt|Hge].
    + wp_step. unfold wsect. wp_step. wp_step; [destruct (Z.ltb_spec i space); [done|lia]|]. wp_step. wp_step. split; [|lia]. split; [lia|].
      cbn [img set_img]. unfold write_at. rewrite length_replicate. destruct (Z.ltb_spec i (Z.of_nat (Z.to_nat i))); [lia|].
      rewrite Nat.sub_diag. cbn [replicate app]. replace (Z.to_nat (i + 1)) with (Z.to_nat i + 1)%nat by lia. by rewrite replicate_add.
    + wp_step. by assert (i = n) as -> by lia.
Qed.

Definition dot : list Z := new_dirent ROOTINO [46].
Definition dotdot : list Z := new_dirent ROOTINO [46; 46].
(** the bytes of the root directory *)
Definition root_bytes (args : list (list Z)) : list Z :=
  dot ++ dotdot ++ entries 2 args.
Definition image_files (args : list (list Z)) : list (Z * list Z) :=
  (T_DIR, root_bytes args ++ padding (root_bytes args)) :: copies host args.
(** the sectors the files take *)
Definition fits (args : list (list Z)) : Prop := 29 + cost (16 * (2 + Z.of_nat (length args))) + space_of (copies host args) <= log_start.

Lemma length_root args : Forall (arg_ok host) args -> length (root_bytes args) = (16 * (2 + length args))%nat.
Proof using.
  intros Ha. unfold root_bytes. rewrite !length_app, (length_entries host) by done.
  change (length (dot)) with 16%nat. change (length (dotdot)) with 16%nat. lia.
Qed.

Lemma main_spec image args s : create image = true -> freeinode s = 1 -> Forall (arg_ok host) args -> (length args <= 198)%nat -> ((2 + length args) mod 32 <> 0)%nat -> fits args ->
  wp (main space host create (image :: args)) (fun _ s' => exists s1 x, files (image_files args) s1 /\ s' = set_img (put (img s1) 28 x) s1 /\
     length x = 512%nat /\ bytes_ok x /\ forall b, 0 <= b < 4096 -> bit_of x b = (b <? freeblock s1)) s.
Proof using Hspace.
  intros Hc Hs Ha Hlen Hmod Hfit. unfold fits, log_start in Hfit. pose proof (length_root args Ha) as Hlr.
  pose proof (space_nonneg (copies host args)) as Hsp. pose proof (cost_mono 16 (16 * (2 + Z.of_nat (length args))) ltac:(lia)) as Hc16. pose proof (cost_mono 32 (16 * (2 + Z.of_nat (length args))) ltac:(lia)) as Hc32.
  unfold main. rewrite Hc. wp_step. wp_step; [done|]. wp_step. wp_step. wp_step. wp_step. wp_step. wp_step; [done|].
  change (ninodes / IPB + 3 + (nsectors / (512 * 8) + 1)) with 29. change (nblocks + 29 + nlog) with 1024.
  wp_step. eapply wp_mono; [apply zero_image_spec; [done|lia]|]. cbn beta. intros _ s1 ->. cbn [set_img img freeblock usedblocks freeinode]. rewrite Hs.
  wp_step. unfold wsect at 1. wp_step. wp_step; [destruct (Z.ltb_spec 1 space); [done|lia]|]. wp_step.
  match goal with |- wp _ _ ?s0 => change s0 with first_state end.
  wp_step. eapply wp_mono; [apply (ialloc_spec space Hspace [] _ _ first_files); [cbn; lia|unfold T_DIR; lia]|]. cbn beta. intros i s1 [-> HF1]. cbn [length app] in *.
  change (Z.of_nat 0 + 1) with ROOTINO. wp_step. wp_step; [done|].
  assert (bytes_ok [46] /\ bytes_ok [46; 46]) as [Hb1 Hb2] by (split; apply (bool_decide_unpack _); exact I).
  wp_step. change ROOTINO with (Z.of_nat 0 + 1) at 1. eapply wp_mono; [apply (iappend_spec space Hspace [(T_DIR, [])] s1 0 T_DIR [] (dot) 16 HF1); try done|].
  { apply (new_dirent_ok ROOTINO), Hb1. }
  cbn beta. intros _ s2 HF2. change (files [(T_DIR, dot)] s2) in HF2.
  wp_step. change ROOTINO with (Z.of_nat 0 + 1) at 1. eapply wp_mono; [apply (iappend_spec space Hspace [(T_DIR, dot)] s2 0 T_DIR (dot) (dotdot) 16 HF2); try done|].
  { apply (new_dirent_ok ROOTINO), Hb2. }
  cbn beta. intros _ s3 HF3. change (files [(T_DIR, dot ++ dotdot)] s3) in HF3.
  wp_step. eapply wp_mono; [apply (add_files_spec space Hspace host args s3 (dot ++ dotdot) [] HF3 Ha)|].
  - cbn [length]. lia.
  - rewrite length_app. change (length (dot) + length (dotdot))%nat with 32%nat. unfold MAXFILE, NDIRECT, NINDIRECT. lia.
  - change (space_of (?x :: ?l)) with (cost (Z.of_nat (length x.2)) + space_of l). cbn [snd app length]. rewrite <-app_assoc.
    change (Z.of_nat 0 + 2) with 2. change (dot ++ dotdot ++ entries 2 args) with (root_bytes args). rewrite Hlr. unfold log_start.
    replace (Z.of_nat (16 * (2 + length args))) with (16 * (2 + Z.of_nat (length args))) by lia. lia.
  - cbn beta. intros _ s4 HF4. cbn [app length] in HF4. rewrite <-app_assoc in HF4. change (Z.of_nat 0 + 2) with 2 in HF4.
    change (dot ++ dotdot ++ entries 2 args) with (root_bytes args) in HF4.
    wp_step. eapply wp_mono; [apply (round_root_spec space Hspace _ _ _ HF4)|].
    { rewrite Hlr. intros E. apply Hmod. clear -E. pose proof (Nat.div_mod_eq (16 * (2 + length args)) 512). pose proof (Nat.div_mod_eq (2 + length args) 32). pose proof (Nat.mod_upper_bound (2 + length args) 32). lia. }
    cbn beta. intros _ s5 HF5. wp_step. wp_step. pose proof HF5 as (N & view & Hb & _). pose proof (bu_image _ _ _ Hb) as Im. pose proof (im_free _ _ Im) as Hfr. unfold log_start in Hfr.
    rewrite (im_count _ _ Im). eapply wp_mono; [apply mkfs_balloc_spec; [done|lia|apply (im_len _ _ Im)]|]. cbn beta. intros _ s6 (x & -> & X1 & X2 & X3). by exists s5, x.
Qed.
End host.

(** ** What the kernel finds *)

(** the disk as the kernel reads it, and with the blocks of the log marked in the bitmap, which mkfs leaves out *)
Definition disk (s : st) (b : Z) : list Z := default [] (at_ (img s) b).
Definition log_marked (v v' : Z -> list Z) : Prop :=
  (forall b, b <> 28 -> v' b = v b) /\ forall b, 0 <= b < 4096 -> used image_sb v' b = used image_sb v b || (log_start <=? b).

(** the entries of the root directory *)
Definition entry (i : Z) (name : list Z) : dirent := Dirent i (fillpad 14 (take 14 name)).
Fixpoint listing (i : Z) (args : list (list Z)) : list dirent :=
  match args with [] => [] | a :: args => entry i (image_name a) :: listing (i + 1) args end.

Lemma dents_app e c : length e = 16%nat -> dents (e ++ c) = dent e 0 :: dents c.
Proof.
  intros He. unfold dents. rewrite length_app, He. replace ((16 + length c) / 16)%nat with (S (length c / 16)).
  2: { replace (16 + length c)%nat with (length c + 1 * 16)%nat by lia. rewrite Nat.div_add by lia. lia. }
  cbn [seq fmap list_fmap]. f_equal.
  - unfold dent, sub. rewrite Nat.mul_0_r, !drop_0. rewrite take_app_le by lia. f_equal. change (0 + 2)%nat with 2%nat.
    rewrite drop_app_le by lia. rewrite take_app_le by (rewrite length_drop; lia). done.
  - rewrite <-fmap_S_seq, <-list_fmap_compose. apply list_fmap_ext. intros j k _. cbn [compose]. unfold dent, sub.
    replace (16 * S k)%nat with (length e + 16 * k)%nat by lia. rewrite drop_app_add. f_equal.
    replace (length e + 16 * k + 2)%nat with (length e + (16 * k + 2))%nat by lia. by rewrite drop_app_add.
Qed.
Lemma dent_new i name : 0 <= i < 2 ^ 16 -> bytes_ok name -> dent (new_dirent i name) 0 = entry i name.
Proof.
  intros Hi Hn. unfold dent, entry, new_dirent. rewrite xshort_id by done. rewrite Nat.mul_0_r. unfold sub. rewrite drop_0, take_app_length' by (by rewrite length_le).
  rewrite of_le_le. f_equal; [by apply Z.mod_small|]. rewrite drop_app_length' by (rewrite length_le; done). apply take_ge.
  unfold fillpad. rewrite length_app, length_replicate, length_take. lia.
Qed.
Lemma dents_zeros k : dents (replicate (16 * k) 0) = replicate k (Dirent 0 (replicate 14 0)).
Proof.
  induction k as [|k IH]; [done|]. replace (16 * S k)%nat with (16 + 16 * k)%nat by lia. rewrite replicate_add, dents_app by done. by rewrite IH.
Qed.
Lemma dents_entries host i args c : 0 <= i -> i + Z.of_nat (length args) <= 2 ^ 16 -> Forall (arg_ok host) args ->
  dents (entries i args ++ c) = listing i args ++ dents c.
Proof.
  revert i. induction args as [|a args IH]; intros i Hi Hlen Ha; [done|]. apply Forall_cons in Ha as [Ha Has]. cbn [entries listing length] in *.
  pose proof (image_name_bytes _ (ag_name_bytes _ _ Ha)) as Hb.
  rewrite <-app_assoc, dents_app by (by apply new_dirent_ok). rewrite dent_new by (done || lia). cbn [app]. f_equal. apply IH; [lia|lia|done].
Qed.
Lemma dents_root host args : Forall (arg_ok host) args -> (length args <= 198)%nat -> ((2 + length args) mod 32 <> 0)%nat ->
  exists k, dents (root_bytes args ++ padding (root_bytes args)) = entry 1 [46] :: entry 1 [46; 46] :: listing 2 args ++ replicate k (Dirent 0 (replicate 14 0)).
Proof.
  intros Ha Hlen Hmod. assert (exists k, padding (root_bytes args) = replicate (16 * k) 0) as [k ->].
  { unfold padding. rewrite (length_root host) by done. exists (32 - (2 + length args) mod 32)%nat. f_equal.
    replace 512%nat with (16 * 32)%nat by lia. rewrite Nat.Div0.mul_mod_distr_l. lia. }
  exists k. unfold root_bytes. rewrite <-!app_assoc. unfold dot, dotdot.
  assert (bytes_ok [46] /\ bytes_ok [46; 46]) as [Hb1 Hb2] by (split; apply (bool_decide_unpack _); exact I).
  rewrite dents_app by (by apply new_dirent_ok). rewrite dents_app by (by apply new_dirent_ok). rewrite !dent_new by done.
  rewrite (dents_entries host), dents_zeros by (done || lia). done.
Qed.

(** a view that differs in the bitmap only *)
Section views.
Context (N : list inode) (view : Z -> list Z) (s : st) (w : Z -> list Z).
Hypothesis Hb : built N view s.
Hypothesis Hw : forall b, 0 <= b < 1024 -> b <> 28 -> w b = view b.

Lemma same_inode k n : N !! k = Some n -> disk_inode w (Z.of_nat k + 1) = Some n /\ icontent w n = icontent view n /\
  forall j, 0 <= j < 141 -> slot (i_addrs n) w j = slot (i_addrs n) view j.
Proof using Hb Hw.
  intros Hk. pose proof (bu_good _ _ _ Hb _ _ Hk) as G. pose proof (lookup_lt_Some _ _ _ Hk). pose proof (bu_len _ _ _ Hb).
  assert (forall j, 0 <= j < 141 -> slot (i_addrs n) view j <> 0 -> w (slot (i_addrs n) view j) = view (slot (i_addrs n) view j)) as Hv.
  { intros j Hj Hj0. destruct (slot_range _ _ _ _ j (if_layout _ _ _ _ (gd_file _ _ _ G)) (if_file _ _ _ _ (gd_file _ _ _ G)) Hj Hj0) as ((R1 & R2) & _).
    change (bitmap image_sb) with 28 in R1. unfold log_start in R2. apply Hw; lia. }
  split; [|split].
  - rewrite <-(gd_disk _ _ _ G). unfold disk_inode, dinode_of. destruct (iblock_image (Z.of_nat k + 1) ltac:(lia)) as [Hi _]. by rewrite Hw by lia.
  - eapply kept_content; [apply (gd_file _ _ _ G)|done].
  - by apply kept_slots.
Qed.
Lemma marked_inode k n : (forall b, 0 <= b < 4096 -> used image_sb w b = used image_sb view b) -> N !! k = Some n -> ifile image_sb w log_start n.
Proof using Hb Hw.
  intros Hu Hk. destruct (same_inode k n Hk) as (_ & _ & Hs). pose proof (gd_file _ _ _ (bu_good _ _ _ Hb _ _ Hk)) as [[L1 L2 L3 L4 L5 L6 L7] [F1 F2 F3] F4 F5 F6].
  change (bitmap image_sb) with 28 in *. cbn [sb_size image_sb] in *. unfold log_start in *. split; [|split| | |]; try done.
  - split; try done; change (bitmap image_sb) with 28; cbn [sb_size image_sb].
    + by rewrite Hw by lia.
    + intros b Hb1 Hb2. rewrite Hu by lia. by apply L5.
    + intros b Hb1. rewrite Hu by lia. by apply L6.
  - intros i Hi. rewrite !Hs by done. destruct (F2 i Hi) as [|(R1 & R2 & R3)]; [by left|right]. change (bitmap image_sb) with 28. rewrite Hu by lia. done.
  - intros i j Hi Hj. rewrite !Hs by done. by apply F3.
  - intros k' Hk' Hlt. destruct (sl_range k') as [Hr _]; [unfold MAXFILE, NDIRECT, NINDIRECT in *; lia|]. rewrite Hs by done. by apply F5.
Qed.
End views.

Section correct.
Context (space : Z) (host : list Z -> option (list (list Z))) (create : list Z -> bool).
Hypothesis Hspace : 1024 <= space.

(** the inodes of an image with these files *)
Definition in_image (args : list (list Z)) (i : Z) : Prop := 1 <= i <= Z.of_nat (length args) + 1.
(** no two inodes share a block, and each of them is a file the kernel can read and write *)
Record sound (view : Z -> list Z) (T : Z -> Prop) : Prop := {
  sd_tree : tree image_sb view log_start T;
  sd_file i n : T i -> disk_inode view i = Some n -> ifile image_sb view log_start n;
  sd_apart i1 i2 n1 n2 j1 j2 : T i1 -> T i2 -> i1 <> i2 -> disk_inode view i1 = Some n1 -> disk_inode view i2 = Some n2 ->
    0 <= j1 < 141 -> 0 <= j2 < 141 -> slot (i_addrs n2) view j2 <> 0 -> slot (i_addrs n1) view j1 <> slot (i_addrs n2) view j2;
}.
Record holds_files (args : list (list Z)) (s : st) : Prop := {
  hf_sectors : length (img s) = 1024%nat /\ forall b, 0 <= b < 1024 -> length (disk s b) = 512%nat /\ bytes_ok (disk s b);
  hf_super : sb_at (disk s 1) image_sb;
  hf_count : freeblock s = 29 + cost (16 * (2 + Z.of_nat (length args))) + space_of (copies host args) /\ freeblock s <= log_start;
  hf_used b : 0 <= b < 4096 -> used image_sb (disk s) b = (b <? freeblock s);
  hf_free b : freeblock s <= b < 1024 -> disk s b = zeroes;
  hf_root : exists n k, directory (disk s) ROOTINO = Some n /\
    dents (icontent (disk s) n) = entry 1 [46] :: entry 1 [46; 46] :: listing 2 args ++ replicate k (Dirent 0 (replicate 14 0));
  hf_files k a : args !! k = Some a -> exists n, disk_inode (disk s) (Z.of_nat k + 2) = Some n /\ i_type n = T_FILE /\ i_nlink n = 1 /\
    icontent (disk s) n = host_file host a;
  hf_sound view : log_marked (disk s) view -> sound view (in_image args);
}.

Lemma listing_range i args de : de ∈ listing i args -> i <= de_inum de < i + Z.of_nat (length args).
Proof using.
  revert i. induction args as [|a args IH]; intros i H; cbn [listing length] in *; [by apply elem_of_nil in H|].
  apply elem_of_cons in H as [->|H]; [cbn; lia|]. apply IH in H. lia.
Qed.

Section run.
Context (args : list (list Z)) (s1 : st) (x : list Z) (N : list inode) (view : Z -> list Z).
Let s := set_img (put (img s1) 28 x) s1.
Hypothesis Ha : Forall (arg_ok host) args.
Hypothesis Hlen : (length args <= 198)%nat.
Hypothesis Hmod : ((2 + length args) mod 32 <> 0)%nat.
Hypothesis Hb : built N view s1.
Hypothesis HN : image_files host args = (fun n => (i_type n, icontent view n)) <$> N.
Hypothesis Hx : length x = 512%nat.
Hypothesis Hxb : bytes_ok x.
Hypothesis Hbits : forall b, 0 <= b < 4096 -> bit_of x b = (b <? freeblock s1).

Lemma run_disk b : 0 <= b < 1024 -> b <> 28 -> disk s b = view b.
Proof using Hb.
  clear Hlen Hmod Hx. intros Hr H28. unfold disk, s. cbn [img set_img]. rewrite at_put_ne by lia. by rewrite (im_view _ _ (bu_image _ _ _ Hb)).
Qed.
Lemma run_bitmap : disk s 28 = x.
Proof using Hb.
  clear Hlen Hmod Hx. unfold disk, s. cbn [img set_img]. pose proof (im_len _ _ (bu_image _ _ _ Hb)). by rewrite at_put_eq by lia.
Qed.
Lemma run_length : length N = S (length args).
Proof using HN.
  assert (length ((fun n => (i_type n, icontent view n)) <$> N) = S (length args)) as H by (rewrite <-HN; unfold image_files, copies; cbn [length]; by rewrite length_fmap).
  by rewrite length_fmap in H.
Qed.
Lemma run_file k t c : image_files host args !! k = Some (t, c) -> exists n, N !! k = Some n /\ i_type n = t /\ icontent view n = c.
Proof using HN.
  rewrite HN, list_lookup_fmap. destruct (N !! k) as [n|]; [|done]. intros [= <- <-]. by exists n.
Qed.
Lemma run_root : exists n k, N !! 0%nat = Some n /\ i_type n = T_DIR /\
  dents (icontent view n) = entry 1 [46] :: entry 1 [46; 46] :: listing 2 args ++ replicate k (Dirent 0 (replicate 14 0)).
Proof using HN Ha Hlen Hmod.
  destruct (run_file 0 _ _ eq_refl) as (n & Hn & Ht & Hc). destruct (dents_root host args Ha Hlen Hmod) as [k Hk]. exists n, k. by rewrite Hc.
Qed.
Lemma run_child n de : N !! 0%nat = Some n -> de ∈ dents (icontent view n) -> de_inum de <> 0 -> in_image args (de_inum de).
Proof using HN Ha Hlen Hmod.
  clear Hx. intros Hn Hde H0. destruct run_root as (n' & k & Hn' & _ & Hd). rewrite Hn in Hn'. injection Hn' as <-. rewrite Hd in Hde. unfold in_image.
  apply elem_of_cons in Hde as [->|Hde]; [cbn; lia|]. apply elem_of_cons in Hde as [->|Hde]; [cbn; lia|].
  apply elem_of_app in Hde as [Hde|Hde]; [apply listing_range in Hde; lia|]. apply elem_of_replicate in Hde as [-> _]. done.
Qed.
(** every inode of the image, by its number *)
Lemma run_inode w i : (forall b, 0 <= b < 1024 -> b <> 28 -> w b = view b) -> in_image args i ->
  exists k n, i = Z.of_nat k + 1 /\ N !! k = Some n /\ disk_inode w i = Some n.
Proof using Hb HN.
  clear Hlen Hmod Hx. intros Hw Hi. unfold in_image in Hi. pose proof run_length. destruct (lookup_lt_is_Some_2 N (Z.to_nat (i - 1)) ltac:(lia)) as [n Hn].
  exists (Z.to_nat (i - 1)), n. split; [lia|]. split; [done|]. replace i with (Z.of_nat (Z.to_nat (i - 1)) + 1) by lia. by eapply same_inode.
Qed.

Lemma run_sound w : log_marked (disk s) w -> sound w (in_image args).
Proof using Hb HN Ha Hlen Hmod Hx Hxb Hbits.
  intros [Hw1 Hw2]. assert (forall b, 0 <= b < 1024 -> b <> 28 -> w b = view b) as Hw by (intros b Hr H28; rewrite Hw1 by done; by apply run_disk).
  assert (forall b, 0 <= b < 4096 -> used image_sb w b = used image_sb view b) as Hu.
  { intros b Hr. rewrite Hw2 by done. rewrite (im_used _ _ (bu_image _ _ _ Hb)) by done. unfold used at 1. change (bitmap image_sb) with 28. by rewrite run_bitmap, Hbits. }
  pose proof (bu_len _ _ _ Hb). pose proof run_length as HlN. destruct run_root as (r & _ & Hr & Htr & _).
  assert (forall i n, in_image args i -> directory w i = Some n -> i = 1 /\ n = r /\ N !! 0%nat = Some n) as Hdir.
  { intros i n Hi Hd. destruct (run_inode w i Hw Hi) as (k & n' & -> & Hk & Hdi). unfold directory in Hd. rewrite Hdi in Hd. cbn [mbind option_bind] in Hd.
    destruct (Z.eqb_spec (i_type n') T_DIR) as [Ht|]; [|done]. injection Hd as ->. destruct k as [|k]; [by simplify_eq|exfalso].
    assert (image_files host args !! S k = Some (i_type n, icontent view n)) as Hf by (by rewrite HN, list_lookup_fmap, Hk).
    change (copies host args !! k = Some (i_type n, icontent view n)) in Hf. unfold copies in Hf. rewrite list_lookup_fmap in Hf. destruct (args !! k); [|done].
    injection Hf as E _. rewrite Ht in E. done. }
  split; [split|..].
  - apply (if_layout _ _ _ _ (marked_inode N view s1 w Hb Hw 0 r Hu Hr)).
  - intros i Hi. unfold in_image in Hi. cbn. lia.
  - intros i Hi. destruct (run_inode w i Hw Hi) as (k & n & -> & Hk & Hd). exists n. split; [done|].
    pose proof (bu_good _ _ _ Hb _ _ Hk) as G. rewrite (gd_nlink _ _ _ G). split; [|done].
    assert (image_files host args !! k = Some (i_type n, icontent view n)) as Hf by (by rewrite HN, list_lookup_fmap, Hk).
    destruct k as [|k]; [by injection Hf as <- _|]. change (copies host args !! k = Some (i_type n, icontent view n)) in Hf.
    unfold copies in Hf. rewrite list_lookup_fmap in Hf. destruct (args !! k); [|done]. by injection Hf as <- _.
  - intros i n Hi Hd. destruct (Hdir i n Hi Hd) as (-> & -> & _). split; [by eapply marked_inode|].
    destruct (run_file 0 _ _ eq_refl) as (n' & Hn' & _ & Hc). rewrite Hr in Hn'. injection Hn' as <-.
    pose proof (good_length _ _ _ _ (bu_image _ _ _ Hb) (bu_good _ _ _ Hb _ _ Hr)) as Hl. rewrite Hc, length_app, (length_root host) in Hl by done. unfold padding in Hl.
    rewrite length_replicate, (length_root host) in Hl by done. rewrite <-Hl. clear. pose proof (Nat.div_mod_eq (16 * (2 + length args)) 512). pose proof (Nat.mod_upper_bound (16 * (2 + length args)) 512).
    Z.div_mod_to_equations; lia.
  - intros i n de Hi Hd. destruct (Hdir i n Hi Hd) as (-> & -> & _). destruct (same_inode N view s1 w Hb Hw 0 r Hr) as (_ & -> & _). by apply run_child.
  - intros i n Hi Hd. destruct (run_inode w i Hw Hi) as (k & n' & -> & Hk & Hd'). rewrite Hd in Hd'. injection Hd' as <-. by eapply marked_inode.
  - intros i1 i2 n1 n2 j1 j2 Hi1 Hi2 Hne Hd1 Hd2 Hj1 Hj2. destruct (run_inode w i1 Hw Hi1) as (k1 & n1' & -> & Hk1 & Hd1'). rewrite Hd1 in Hd1'. injection Hd1' as <-.
    destruct (run_inode w i2 Hw Hi2) as (k2 & n2' & -> & Hk2 & Hd2'). rewrite Hd2 in Hd2'. injection Hd2' as <-.
    destruct (same_inode N view s1 w Hb Hw _ _ Hk1) as (_ & _ & Hs1), (same_inode N view s1 w Hb Hw _ _ Hk2) as (_ & _ & Hs2). rewrite Hs1, Hs2 by done.
    eapply (bu_apart _ _ _ Hb); try done. lia.
Qed.
Lemma run_holds : holds_files args s.
Proof using Hb HN Ha Hlen Hmod Hx Hxb Hbits.
  pose proof (bu_image _ _ _ Hb) as I. pose proof (im_free _ _ I) as Hfr. split.
  - split; [unfold s; cbn [img set_img]; rewrite length_put; apply (im_len _ _ I)|]. intros b Hr.
    destruct (Z.eq_dec b 28) as [->|H28]; [by rewrite run_bitmap|]. rewrite run_disk by done. by apply (im_bytes _ _ I).
  - rewrite run_disk by lia. apply (im_sb _ _ I).
  - change (freeblock s) with (freeblock s1). split; [|lia]. rewrite (bu_count _ _ _ Hb), <-(files_space _ _ _ Hb), <-HN. unfold image_files.
    change (space_of (?y :: ?l)) with (cost (Z.of_nat (length y.2)) + space_of l). cbn [snd]. rewrite length_app. unfold padding. rewrite length_replicate, (length_root host) by done.
    set (l := Z.of_nat (16 * (2 + length args))). assert (16 * (2 + Z.of_nat (length args)) = l) as -> by lia.
    destruct (rounded l ltac:(unfold l, MAXFILE, NDIRECT, NINDIRECT; lia)) as (E1 & E2 & E3 & E4).
    { unfold l. change 512 with (Z.of_nat 512). rewrite <-Nat2Z.inj_mod. change 512%nat with (16 * 32)%nat. rewrite Nat.Div0.mul_mod_distr_l. lia. }
    rewrite <-E4. rewrite <-Z.add_assoc. do 3 f_equal. rewrite <-E1. unfold l. pose proof (Nat.div_mod_eq (16 * (2 + length args)) 512). pose proof (Nat.mod_upper_bound (16 * (2 + length args)) 512).
    rewrite <-(Nat2Z.inj_div _ 512). lia.
  - intros b Hr. unfold used. change (bitmap image_sb) with 28. rewrite run_bitmap. by apply Hbits.
  - intros b Hr. change (freeblock s) with (freeblock s1) in Hr. rewrite run_disk by lia. apply (im_zero _ _ I). lia.
  - destruct run_root as (n & k & Hn & Ht & Hd). destruct (same_inode N view s1 (disk s) Hb run_disk 0 n Hn) as (Hdi & Hc & _). exists n, k. split.
    + unfold directory. change (disk_inode (disk s) ROOTINO) with (disk_inode (disk s) (Z.of_nat 0 + 1)). rewrite Hdi. cbn [mbind option_bind]. by rewrite Ht.
    + by rewrite Hc.
  - intros k a Hk. destruct (run_file (S k) T_FILE (host_file host a)) as (n & Hn & Ht & Hc).
    { change (copies host args !! k = Some (T_FILE, host_file host a)). unfold copies. by rewrite list_lookup_fmap, Hk. }
    destruct (same_inode N view s1 (disk s) Hb run_disk (S k) n Hn) as (Hdi & Hc' & _). exists n. replace (Z.of_nat k + 2) with (Z.of_nat (S k) + 1) by lia.
    split; [done|]. split; [done|]. split; [apply (gd_nlink _ _ _ (bu_good _ _ _ Hb _ _ Hn))|]. by rewrite Hc'.
  - apply run_sound.
Qed.
End run.

(** C7: mkfs, run on files it can open, at most 198 of them with names of no slash and at most MAXFILE blocks
    each, whose blocks fit in front of the log, and of a number that leaves the last block of the root directory partly free,
    returns and leaves an image the kernel's file system can use: the superblock; a root directory with ".", ".." and the
    files in order (without a leading underscore, cut to fourteen characters) and nothing else; each file's inode with one
    link and the bytes read from the host; a bitmap with exactly the blocks in use marked, all others zero.  With the blocks
    of the log marked as well, which mkfs does not do, the directories form a tree as namei expects, every inode is a
    well-formed file, and no two share a block. *)
Theorem mkfs_correct image args : create image = true -> Forall (arg_ok host) args -> (length args <= 198)%nat ->
  ((2 + length args) mod 32 <> 0)%nat -> fits host args ->
  wp (main space host create (image :: args)) (fun _ s => holds_files args s) boot.
Proof using Hspace.
  intros Hc Ha Hlen Hmod Hfit. eapply wp_mono; [by apply main_spec|]. cbn beta. intros _ s' (s1 & x & (N & view & Hb & HN) & -> & X1 & X2 & X3).
  by eapply run_holds.
Qed.
End correct.

(** two files, one read in two pieces *)
Definition demo_host (arg : list Z) : option (list (list Z)) :=
  if bool_decide (arg = [95; 97]) then Some [replicate 512 7; [1; 2; 3]] else Some [].
Definition demo_args : list (list Z) := [[95; 97]; [98]].
Lemma demo_args_ok : Forall (arg_ok demo_host) demo_args.
Proof.
  apply Forall_cons; split; [split|apply Forall_cons; split; [split|done]].
  1, 6: apply (bool_decide_unpack _); exact I.
  2, 6: by eexists.
  all: apply (bool_decide_unpack _); vm_compute; exact I.
Qed.
Lemma mkfs_correct_witness : fits demo_host demo_args /\
  wp (main 1024 demo_host (fun _ => true) ([105] :: demo_args)) (fun _ s => holds_files demo_host demo_args s) boot.
Proof.
  assert (fits demo_host demo_args) as Hf by (unfold fits; apply Z.leb_le; vm_compute; reflexivity). split; [exact Hf|].
  apply (mkfs_correct 1024 demo_host (fun _ => true) (Z.le_refl _) [105] demo_args); [reflexivity|exact demo_args_ok|cbn; lia|cbn; lia|exact Hf].
Defined.

(** With thirty files the root directory fills its block, and the rounding gives it a second one that is not there. *)
Example root_hole : match main 1024 (fun _ => Some []) (fun _ => true) ([105] :: replicate 30 [97]) boot with
  | Done _ s => match disk_inode (disk s) ROOTINO with
                | Some n => i_size n = 1024 /\ slot (i_addrs n) (disk s) (sl 0) = 29 /\ slot (i_addrs n) (disk s) (sl 1) = 0
                | None => False
                end
  | _ => False
  end.
Proof. vm_compute. repeat split. Qed.
End MkfsCorrect.
