(* ===== verification/Grep.v ===== *)
(** * The matcher of grep (src/src/usr/grep.c)

    match(), matchhere() and matchstar() on strings in memory, and the language
    a pattern stands for: a sequence of characters, any of them followed by a
    star, possibly anchored at either end. *)

From S2P Require Import Prelude.
From S2P Require Import KString.

Module Grep.

(** the characters with a meaning *)
Definition STAR : Z := 42.
Definition DOT : Z := 46.
Definition CARET : Z := 94.
Definition DOLLAR : Z := 36.

(** search for c*re at the beginning of text; [here] is matchhere(re, .) *)
Definition matchstar (here : Z -> M mem Z) (c text : Z) : M mem Z :=
  fuel ← gets (fun m : mem => S (S (base.size m)));
  loop fuel (fun text =>
    (* a * matches zero or more instances *)
    r ← here text;
    if negb (r =? 0) then mret (inr 1) else
    x ← load8 text;
    if negb (x =? 0) && ((x =? c) || (c =? DOT)) then mret (inl (text + 1)) else mret (inr 0)) text.

(** search for re at the beginning of text; [fuel] bounds the length of re *)
Fixpoint matchhere (fuel : nat) (re text : Z) : M mem Z :=
  match fuel with
  | O => fun _ => NoFuel
  | S fuel =>
    c ← load8 re;
    if c =? 0 then mret 1 else
    c1 ← load8 (re + 1);
    if c1 =? STAR then matchstar (matchhere fuel (re + 2)) c text else
    x ← load8 text;
    if (c =? DOLLAR) && (c1 =? 0) then mret (b2z (x =? 0)) else
    if negb (x =? 0) && ((c =? DOT) || (c =? x)) then matchhere fuel (re + 1) (text + 1)
    else mret 0
  end.

Definition match_ (re text : Z) : M mem Z :=
  fuel ← gets (fun m : mem => S (S (base.size m)));
  c ← load8 re;
  if c =? CARET then matchhere fuel (re + 1) text else
  loop fuel (fun text =>
    (* must look at empty string *)
    r ← matchhere fuel re text;
    if negb (r =? 0) then mret (inr 1) else
    x ← load8 text;
    if negb (x =? 0) then mret (inl (text + 1)) else mret (inr 0)) text.

(** ** The language of a pattern *)

(** the characters of a pattern, each with its star, and the anchor at the end *)
Fixpoint items (re : list Z) : list (Z * bool) * bool :=
  match re with
  | [] => ([], false)
  | c :: re' =>
      match re' with
      | c1 :: re'' => if c1 =? STAR then let '(l, e) := items re'' in ((c, true) :: l, e)
                      else let '(l, e) := items re' in ((c, false) :: l, e)
      | [] => if c =? DOLLAR then ([], true) else ([(c, false)], false)
      end
  end.
Definition stands_for (c x : Z) : Prop := c = DOT \/ c = x.
(** the strings a sequence of items matches *)
Inductive den : list (Z * bool) -> list Z -> Prop :=
| den_nil : den [] []
| den_one c l x t : stands_for c x -> den l t -> den ((c, false) :: l) (x :: t)
| den_star c l r t : Forall (stands_for c) r -> den l t -> den ((c, true) :: l) (r ++ t).
(** the text has a part the pattern matches, up against the anchored ends *)
Definition here (re text : list Z) : Prop :=
  exists mid post, text = mid ++ post /\ den (fst (items re)) mid /\ (snd (items re) = true -> post = []).
Definition matches (re text : list Z) : Prop :=
  match re with
  | c :: re' => if c =? CARET then here re' text else exists pre rest, text = pre ++ rest /\ here re rest
  | [] => exists pre rest, text = pre ++ rest /\ here re rest
  end.

(** ** One step of the pattern *)

Lemma here_nil t : here [] t.
Proof. exists [], t. split; [done|]. split; [constructor|done]. Qed.
Lemma here_end t : here [DOLLAR] t <-> t = [].
Proof.
  split.
  - intros (mid & post & -> & Hd & He). cbn in *. rewrite (He eq_refl). by inversion Hd.
  - intros ->. exists [], []. split; [done|]. split; [constructor|done].
Qed.
Lemma here_char c re t : (forall re', re <> STAR :: re') -> ~ (c = DOLLAR /\ re = []) ->
  here (c :: re) t <-> exists x t', t = x :: t' /\ stands_for c x /\ here re t'.
Proof.
  intros Hs Hd. assert (items (c :: re) = ((c, false) :: fst (items re), snd (items re))) as E.
  { destruct re as [|c1 re].
    - cbn. destruct (Z.eqb_spec c DOLLAR) as [->|_]; [by destruct Hd|done].
    - change (items (c :: c1 :: re)) with (if c1 =? STAR then let '(l, e) := items re in ((c, true) :: l, e)
        else let '(l, e) := items (c1 :: re) in ((c, false) :: l, e)).
      destruct (Z.eqb_spec c1 STAR) as [->|_]; [by destruct (Hs re)|]. by destruct (items (c1 :: re)). }
  unfold here. rewrite E. cbn [fst snd]. split.
  - intros (mid & post & -> & Hm & He). inversion Hm as [|? ? x t Hx Ht|]; subst. exists x, (t ++ post). split; [done|]. split; [done|].
    by exists t, post.
  - intros (x & t' & -> & Hx & mid & post & -> & Hm & He). exists (x :: mid), post. split; [done|]. split; [by constructor|done].
Qed.
Lemma here_star c re t : here (c :: STAR :: re) t <-> exists r t', t = r ++ t' /\ Forall (stands_for c) r /\ here re t'.
Proof.
  unfold here. assert (items (c :: STAR :: re) = ((c, true) :: fst (items re), snd (items re))) as ->.
  { cbn. by destruct (items re). } cbn [fst snd]. split.
  - intros (mid & post & -> & Hm & He). inversion Hm as [| |? ? r t Hr Ht]; subst. exists r, (t ++ post). split; [by rewrite app_assoc|].
    split; [done|]. by exists t, post.
  - intros (r & t' & -> & Hr & mid & post & -> & Hm & He). exists (r ++ mid), post. split; [by rewrite app_assoc|].
    split; [by constructor|done].
Qed.

(** ** The code *)

Lemma cstr_cons m a x s : cstr m a (x :: s) <-> m !! a = Some x /\ x <> 0 /\ cstr m (a + 1) s.
Proof.
  unfold cstr. cbn [app]. rewrite bytes_at_cons, not_elem_of_cons. naive_solver.
Qed.
Lemma cstr_nil m a : cstr m a [] <-> m !! a = Some 0.
Proof. unfold cstr. cbn [app]. rewrite bytes_at_cons. split; [naive_solver|]. intros H. split; [by split; [|apply bytes_at_nil]|by apply not_elem_of_nil]. Qed.
Lemma cstr_head m a s : cstr m a s -> m !! a = Some (hd 0 s) /\ (hd 0 s = 0 -> s = []).
Proof. destruct s as [|x s]; [by rewrite cstr_nil|]. rewrite cstr_cons. cbn. naive_solver. Qed.
Lemma cstr_size m a s : cstr m a s -> (length s < base.size m)%nat.
Proof. intros [Hb _]. apply bytes_at_size in Hb. rewrite length_app in Hb. cbn in Hb. lia. Qed.

(** a predicate as a C truth value *)
Definition decides (r : Z) (Q : Prop) : Prop := r = 1 /\ Q \/ r = 0 /\ ~ Q.

Lemma matchstar_spec m f c text t Q : cstr m text t ->
  (forall a u, cstr m a u -> wp (f a) (fun r m' => m' = m /\ decides r (Q u)) m) ->
  wp (matchstar f c text) (fun r m' => m' = m /\ decides r (exists p u, t = p ++ u /\ Forall (stands_for c) p /\ Q u)) m.
Proof.
  intros Ht Hf. unfold matchstar. wp_steps.
  eapply (wp_loop _ _ _ _ _ (fun a m' => m' = m /\ exists p u, a = text + Z.of_nat (length p) /\ t = p ++ u /\ cstr m a u /\
    Forall (stands_for c) p /\ forall p' u', t = p' ++ u' -> (length p' < length p)%nat -> ~ Q u')
    (fun a => Z.to_nat (text + Z.of_nat (length t) - a))).
  - split; [done|]. exists [], t. split; [cbn; lia|]. split; [done|]. split; [done|]. split; [constructor|]. cbn. lia.
  - pose proof (cstr_size _ _ _ Ht). lia.
  - intros a m' (-> & p & u & -> & -> & Hu & Hp & Hno). wp_step. eapply wp_mono; [by apply Hf|]. cbn beta. intros r m' [-> [[-> HQ]|[-> HQ]]].
    { cbn. wp_steps. split; [done|]. left. split; [done|]. by exists p, u. }
    cbn [Z.eqb negb]. destruct (cstr_head _ _ _ Hu) as [Hx Hnil]. wp_step. eapply wp_load8; [done|].
    assert (negb (hd 0 u =? 0) && ((hd 0 u =? c) || (c =? DOT)) = true \/
      (negb (hd 0 u =? 0) && ((hd 0 u =? c) || (c =? DOT)) = false /\ forall x u', u = x :: u' -> ~ stands_for c x)) as [E|[E Hst]].
    { destruct (negb _ && _) eqn:E; [by left|right]. split; [done|]. intros x u' -> Hs. cbn in E. apply cstr_cons in Hu as (_ & Hx0 & _).
      apply Z.eqb_neq in Hx0. rewrite Hx0 in E. cbn in E. destruct (Z.eqb_spec x c), (Z.eqb_spec c DOT), Hs; done || congruence. }
    + rewrite E. wp_steps. destruct u as [|x u]; [by cbn in E|]. cbn [hd] in E. apply cstr_cons in Hu as (_ & Hx0 & Hu).
      split; [split; [done|]|rewrite length_app; cbn [length]; lia]. exists (p ++ [x]), u.
      split; [rewrite length_app; cbn [length]; lia|]. split; [by rewrite <-app_assoc|].
      split; [by replace (text + Z.of_nat (length (p ++ [x]))) with (text + Z.of_nat (length p) + 1) by (rewrite length_app; cbn; lia)|]. split.
      * apply Forall_app. split; [done|]. constructor; [|constructor]. apply andb_true_iff in E as [_ E]. apply orb_true_iff in E as [E|E]; apply Z.eqb_eq in E; [by right|by left].
      * intros p' u' Hpu Hlen. rewrite length_app in Hlen. cbn in Hlen. destruct (decide (length p' < length p)%nat) as [Hlt|Hge]; [by eapply Hno|].
        apply app_inj_1 in Hpu as [-> <-]; [done|lia].
    + rewrite E. wp_steps. split; [done|]. right. split; [done|]. intros (p' & u' & Hpu & Hp' & HQ').
      destruct (decide (length p' < length p)%nat) as [Hlt|Hge]; [by eapply Hno|].
      destruct (decide (length p' = length p)) as [El|Hgt]; [apply app_inj_1 in Hpu as [-> ->]; [done|done]|].
      destruct u as [|x u]. { rewrite app_nil_r in Hpu. apply (f_equal length) in Hpu. rewrite length_app in Hpu. lia. }
      apply (Hst x u eq_refl). rewrite Forall_forall in Hp'. apply Hp'. assert (p' !! length p = Some x) as Hl.
      { rewrite <-(lookup_app_l p' u') by lia. rewrite <-Hpu. by apply list_lookup_middle. }
      by eapply list_elem_of_lookup_2.
Qed.

Lemma matchhere_spec m fuel re text p t : (length p < fuel)%nat -> cstr m re p -> cstr m text t ->
  wp (matchhere fuel re text) (fun r m' => m' = m /\ decides r (here p t)) m.
Proof.
  revert re text p t. induction fuel as [|fuel IH]; intros re text p t Hf Hp Ht; [lia|]. cbn [matchhere].
  destruct (cstr_head _ _ _ Hp) as [Hc Hcn]. wp_step. eapply wp_load8; [done|].
  destruct p as [|c p]; cbn [hd] in *. { cbn. wp_steps. split; [done|]. left. split; [done|]. apply here_nil. }
  apply cstr_cons in Hp as (_ & Hc0 & Hp). apply Z.eqb_neq in Hc0 as Ec0. rewrite Ec0.
  destruct (cstr_head _ _ _ Hp) as [Hc1 Hc1n]. wp_step. eapply wp_load8; [done|]. cbn [length] in Hf.
  destruct (Z.eqb_spec (hd 0 p) STAR) as [Es|Hns].
  - destruct p as [|c1 p]; [done|]. cbn [hd] in Es. subst c1. apply cstr_cons in Hp as (_ & _ & Hp). cbn [length] in Hf.
    replace (re + 1 + 1) with (re + 2) in Hp by lia.
    eapply wp_mono; [apply (matchstar_spec m _ c text t (here p) Ht); intros a u Hu; by apply IH; [lia| |]|]. cbn beta.
    intros r m' [-> Hd]. split; [done|]. unfold decides in *. by rewrite here_star.
  - assert (forall re', p <> STAR :: re') as Hs by (intros re' ->; by apply Hns).
    destruct (cstr_head _ _ _ Ht) as [Hx Hxn]. wp_step. eapply wp_load8; [done|].
    destruct ((c =? DOLLAR) && (hd 0 p =? 0)) eqn:Ed.
    + apply andb_true_iff in Ed as [->%Z.eqb_eq Ep%Z.eqb_eq]. rewrite (Hc1n Ep). wp_steps. split; [done|]. unfold decides. rewrite here_end.
      destruct (Z.eqb_spec (hd 0 t) 0) as [E|Hne]; [left; split; [done|by apply Hxn]|right]. split; [done|]. by intros ->.
    + assert (~ (c = DOLLAR /\ p = [])) as Hd by (intros [-> ->]; by cbn in Ed).
      assert ((exists x t', t = x :: t' /\ stands_for c x /\ here p t') <-> here (c :: p) t) as Hh by by rewrite here_char.
      destruct (negb (hd 0 t =? 0) && ((c =? DOT) || (c =? hd 0 t))) eqn:E.
      * destruct t as [|x t]; [by cbn in E|]. cbn [hd] in E. apply cstr_cons in Ht as (_ & _ & Ht).
        eapply wp_mono; [by apply (IH (re + 1) (text + 1) p t); [lia| |]|]. cbn beta. intros r m' [-> Hdec]. split; [done|].
        apply andb_true_iff in E as [_ E]. assert (stands_for c x) as Hst by (apply orb_true_iff in E as [E|E]; apply Z.eqb_eq in E; [by left|by right]).
        unfold decides in *. rewrite <-Hh. destruct Hdec as [[-> H]|[-> H]]; [left|right]; (split; [done|]); [by exists x, t|].
        intros (x' & t' & [= <- <-] & _ & H'). by apply H.
      * wp_steps. split; [done|]. right. split; [done|]. rewrite <-Hh. intros (x & t' & -> & Hst & _). cbn [hd] in E.
        apply cstr_cons in Ht as (_ & Hx0 & _). apply Z.eqb_neq in Hx0. rewrite Hx0 in E. cbn in E.
        destruct (Z.eqb_spec c DOT), (Z.eqb_spec c x), Hst; done || congruence.
Qed.

(** C30: match of a pattern and a text stops and returns 1 exactly when the text has a part in the language of the
    pattern, at its beginning if the pattern starts with a caret and at its end if it ends with a dollar sign, and 0 otherwise; the
    longest and every other way of taking a star is tried. *)
Theorem grep_match_correct m re text p t : cstr m re p -> cstr m text t ->
  wp (match_ re text) (fun r m' => m' = m /\ (r = 1 /\ matches p t \/ r = 0 /\ ~ matches p t)) m.
Proof.
  intros Hp Ht. unfold match_. wp_steps. pose proof (cstr_size _ _ _ Hp) as Hsp. pose proof (cstr_size _ _ _ Ht) as Hst.
  destruct (cstr_head _ _ _ Hp) as [Hc Hcn]. eapply wp_load8; [done|]. destruct (Z.eqb_spec (hd 0 p) CARET) as [Ec|Hnc].
  - destruct p as [|c p]; [done|]. cbn [hd] in Ec. subst c. apply cstr_cons in Hp as (_ & _ & Hp). cbn [length] in Hsp.
    by apply matchhere_spec; [lia| |].
  - assert (matches p t <-> exists pre rest, t = pre ++ rest /\ here p rest) as Hm.
    { destruct p as [|c p]; [done|]. cbn [hd] in Hnc. apply Z.eqb_neq in Hnc. cbn [matches]. by rewrite Hnc. }
    eapply wp_mono; [eapply (wp_loop _ _ _ _ (fun r m' => m' = m /\ decides r (exists pre rest, t = pre ++ rest /\ here p rest))
      (fun a m' => m' = m /\ exists pre rest, a = text + Z.of_nat (length pre) /\ t = pre ++ rest /\ cstr m a rest /\
      forall pre' rest', t = pre' ++ rest' -> (length pre' < length pre)%nat -> ~ here p rest')
      (fun a => Z.to_nat (text + Z.of_nat (length t) - a)))|].
    + split; [done|]. exists [], t. split; [cbn; lia|]. split; [done|]. split; [done|]. cbn. lia.
    + lia.
    + intros a m' (-> & pre & rest & -> & -> & Hr & Hno). wp_step. eapply wp_mono; [by apply (matchhere_spec m _ re _ p rest); [lia| |]|].
      cbn beta. intros r m' [-> [[-> HQ]|[-> HQ]]]. { cbn. wp_steps. split; [done|]. left. split; [done|]. by exists pre, rest. }
      cbn [Z.eqb negb]. destruct (cstr_head _ _ _ Hr) as [Hx Hnil]. wp_step. eapply wp_load8; [done|].
      assert (forall pre' rest', pre ++ rest = pre' ++ rest' -> (length pre' <= length pre)%nat -> ~ here p rest') as Hno'.
      { intros pre' rest' E Hle. destruct (decide (length pre' < length pre)%nat) as [|]; [by eapply Hno|].
        apply app_inj_1 in E as [-> <-]; [done|lia]. }
      destruct (Z.eqb_spec (hd 0 rest) 0) as [E0|Hne]; cbn [negb]; wp_steps.
      * split; [done|]. right. split; [done|]. rewrite (Hnil E0) in *. intros (pre' & rest' & E & H'). eapply Hno'; [exact E| |exact H'].
        rewrite app_nil_r in E. apply (f_equal length) in E. rewrite length_app in E. lia.
      * destruct rest as [|x rest]; [done|]. apply cstr_cons in Hr as (_ & _ & Hr). split; [split; [done|]|rewrite length_app; cbn [length]; lia].
        exists (pre ++ [x]), rest. split; [rewrite length_app; cbn [length]; lia|]. split; [by rewrite <-app_assoc|].
        split; [by replace (text + Z.of_nat (length (pre ++ [x]))) with (text + Z.of_nat (length pre) + 1) by (rewrite length_app; cbn; lia)|].
        intros pre' rest' E Hlt. rewrite length_app in Hlt. cbn in Hlt. eapply Hno'; [exact E|lia].
    + cbn beta. intros r m' [-> Hd]. split; [done|]. unfold decides in Hd. by rewrite Hm.
Qed.

(** b.*d$ in abcd *)
Definition demo_re_mem : mem := write_bytes (write_bytes ∅ 100 [98; 46; 42; 100; 36; 0]) 200 [97; 98; 99; 100; 0].
Lemma grep_match_correct_witness : exists m', match_ 100 200 demo_re_mem = Done 1 m'.
Proof.
  assert (cstr demo_re_mem 100 [98; 46; 42; 100; 36]) as Hp.
  { split; [|set_solver]. intros i x Hx. do 6 (destruct i as [|i]; [injection Hx as <-; vm_compute; reflexivity|]). done. }
  assert (cstr demo_re_mem 200 [97; 98; 99; 100]) as Ht.
  { split; [|set_solver]. intros i x Hx. do 5 (destruct i as [|i]; [injection Hx as <-; vm_compute; reflexivity|]). done. }
  pose proof (grep_match_correct demo_re_mem 100 200 _ _ Hp Ht) as Hw. apply wp_done in Hw as (r & m' & Hrun & _ & Hr). exists m'. rewrite Hrun.
  f_equal. destruct Hr as [[-> _]|[_ Hno]]; [done|]. exfalso. apply Hno. exists [97], [98; 99; 100]. split; [done|]. exists [98; 99; 100], [].
  split; [done|]. split; [|done]. cbn. apply den_one; [by right|]. apply (den_star 46 _ [99] [100]); [by repeat constructor|]. apply den_one; [by right|]. constructor.
Defined.
End Grep.
