(* ===== verification/Words.v ===== *)
(** * Little-endian integers in a byte memory

    [num n m a] is the n-byte integer at address [a], the value a load of a
    uint (4) or of a pointer or uint64 (8) yields. *)

From S2P Require Import Prelude.
From S2P Require Import Bytes.
From S2P Require Import KString.

Module Words.
Export Mem.

Definition num (n : nat) (m : mem) (a : Z) : option Z := of_le <$> mapM (fun i => m !! (a + i)) (seqZ 0 (Z.of_nat n)).
Definition set_num (n : nat) (m : mem) (a v : Z) : mem := write_bytes m a (le n v).

Lemma num_cong n m m' a : (forall k, a <= k < a + Z.of_nat n -> m' !! k = m !! k) -> num n m' a = num n m a.
Proof.
  intros H. unfold num. f_equal. apply Forall_mapM_ext. apply Forall_forall. intros i Hi%elem_of_seqZ. apply H. lia.
Qed.
Lemma num_bytes n m a l : length l = n -> bytes_at m a l -> num n m a = Some (of_le l).
Proof.
  intros <- Hb. unfold num. assert (mapM (fun i => m !! (a + i)) (seqZ 0 (Z.of_nat (length l))) = Some l) as ->; [|done].
  apply mapM_Some. apply Forall2_same_length_lookup. split; [rewrite length_seqZ; lia|].
  intros i x y Hx%lookup_seqZ Hy. destruct Hx as [-> ?]. by apply (Hb i y).
Qed.
Lemma num_mapped n m a : is_Some (num n m a) <-> mapped m a n.
Proof.
  unfold num. rewrite fmap_is_Some. split.
  - intros [l Hl] i Hi. apply mapM_Some in Hl. eapply Forall2_lookup_l in Hl as (y & _ & Hy); [by rewrite Hy|].
    apply lookup_seqZ. split; [reflexivity|lia].
  - intros Hm. apply mapM_is_Some. apply Forall_forall. intros i Hi%elem_of_seqZ.
    specialize (Hm (Z.to_nat i)). rewrite Z2Nat.id in Hm by lia. apply Hm. lia.
Qed.
Lemma num_set n m a v : num n (set_num n m a v) a = Some (v mod 2 ^ (8 * Z.of_nat n)).
Proof. rewrite (num_bytes n _ _ (le n v)); [by rewrite of_le_le|apply length_le|apply KString.bytes_at_written]. Qed.
Lemma lookup_set_other n m a v k : k < a \/ a + Z.of_nat n <= k -> set_num n m a v !! k = m !! k.
Proof. intros H. unfold set_num. rewrite lookup_write_bytes, length_le. case_decide; [lia|done]. Qed.
Lemma num_set_other n n' m a v b : b + Z.of_nat n' <= a \/ a + Z.of_nat n <= b -> num n' (set_num n m a v) b = num n' m b.
Proof. intros H. apply num_cong. intros k Hk. apply lookup_set_other. lia. Qed.
Lemma mapped_set n m a v b k : mapped m b k -> mapped (set_num n m a v) b k.
Proof. apply mapped_write. Qed.

(** memory as a part of a larger state *)
Section access.
Context {S : Type} (L : lens S mem).
Definition load (n : nat) (a : Z) : M S Z := deref (fun s => num n (lget L s) a).
Definition store (n : nat) (a v : Z) : M S unit :=
  deref (fun s => num n (lget L s) a) ;;
  modify (fun s => lset L (set_num n (lget L s) a v) s).

Lemma wp_load n a v Q s : num n (lget L s) a = Some v -> Q v s -> wp (load n a) Q s.
Proof. intros H HQ. unfold load. by eapply wp_deref. Qed.
Lemma wp_store n a v Q s : mapped (lget L s) a n -> Q tt (lset L (set_num n (lget L s) a v) s) -> wp (store n a v) Q s.
Proof. intros [x Hx]%num_mapped HQ. unfold store. wp_step. by eapply wp_deref; [exact Hx|]. Qed.
End access.
End Words.
