(* ===== verification/Boot.v ===== *)
(** * Starting the kernel (src/src/start.c)

    start() runs at the physical addresses the loader has put it at.  It fills
    two sets of page tables, one for each translation base register, turns the
    MMU on and clears the kernel's data before it enters kmain().  The state is
    the memory, the system registers and what has been sent to the UART; the
    tables lie where kernel.ld puts them, behind [kernel_pgtbl].  The assembly
    statements are register writes; barriers, cache and TLB maintenance have
    no effect on the model.  Before start(), entry.S clears the tables. *)

From S2P Require Import Prelude.
From S2P Require Import Bytes.
From S2P Require Import KString.
From S2P Require Import Mmu.
From S2P Require Import Arm.
From S2P Require Import Words.
From S2P Require Import Vm.

Module Boot.
Import Mem Mmu Words.

Definition DEVBASE1 : Z := 0x08000000.
Definition DEVBASE2 : Z := 0x09000000.
Definition DEVBASE3 : Z := 0x0a000000.
Definition DEV_MEM_SZ : Z := 0x01000000.
Definition PHY_START : Z := Vm.PHY_START.
Definition INIT_KERN_SZ : Z := Vm.INIT_KERN_SZ.
Definition ENTRY_BLOCK : Z := 0.
Definition MEM_ATTR_IDX_0 : Z := Z.shiftl 0 2.
Definition UXN : Z := 0x40000000000000.
Definition PMD_MASK : Z := Z.lnot (Vm.PMD_SZ - 1).

Record st := St {
  ram : mem;
  regs : gmap string Z;     (* system registers *)
  uart : list Z;            (* bytes sent *)
}.
Definition ram_lens : lens st mem := Lens ram (fun m s => St m (regs s) (uart s)).
Definition ld64 (a : Z) : M st Z := load ram_lens 8 a.
Definition st64 (a v : Z) : M st unit := store ram_lens 8 a v.
Definition MRS (r : string) : M st Z := deref (fun s => regs s !! r).
Definition MSR (r : string) (v : Z) : M st unit := modify (fun s => St (ram s) (<[r := v]> (regs s)) (uart s)).

Definition _uart_putc (c : Z) : M st unit := modify (fun s => St (ram s) (regs s) (uart s ++ [u8 c])).
Fixpoint _puts (s : string) : M st unit :=
  match s with
  | EmptyString => mret tt
  | String c s => _uart_putc (Z.of_N (Ascii.N_of_ascii c)) ;; _puts s
  end.
(** a line of text *)
Definition ln (s : string) : string := String.append s (String (Ascii.ascii_of_nat 10) EmptyString).
Definition hex_digits : list Z := [48; 49; 50; 51; 52; 53; 54; 55; 56; 57; 65; 66; 67; 68; 69; 70].
Definition _putint (prefix : option string) (val : Z) (suffix : option string) : M st unit :=
  match prefix with Some p => _puts p | None => mret tt end ;;
  loop 9 (fun idx =>
    if 0 <=? idx then
      c ← deref (fun _ => at_ hex_digits (Z.land (Z.shiftr val idx) 0x0F));
      _uart_putc c ;; mret (inl (idx - 4))
    else mret (inr tt)) (4 * 8 - 4) ;;
  match suffix with Some p => _puts p | None => mret tt end.

Section boot.
(** the symbols of kernel.ld and vectors; kmain() never returns *)
Context (kernel_pgtbl vectors edata end_ : Z) (kmain : M st unit).
Definition user_pgtbl : Z := kernel_pgtbl + 0x1000.
Definition _K_l2_pgtbl : Z := user_pgtbl + 0x1000.
Definition _U_l2_pgtbl : Z := _K_l2_pgtbl + 0x4000.

Definition boot_pde (phy : Z) (dev_mem : bool) : Z :=
  let pde := Z.land phy PMD_MASK in
  if negb dev_mem then
    Z.lor pde (Z.lor (Z.lor (Z.lor (Z.lor (Z.lor (Z.lor (Z.lor Vm.ACCESS_FLAG Vm.SH_IN_SH) Vm.AP_RW_1) Vm.NON_SECURE_PA)
      Vm.MEM_ATTR_IDX_4) ENTRY_BLOCK) Vm.ENTRY_VALID) UXN)
  else
    Z.lor pde (Z.lor (Z.lor (Z.lor (Z.lor Vm.ACCESS_FLAG Vm.AP_RW_1) MEM_ATTR_IDX_0) ENTRY_BLOCK) Vm.ENTRY_VALID).
(** [level2 = (pgtbl[pgdidx] & PG_ADDR_MASK); level2[pmdidx] = pde] *)
Definition set_level2 (pgtbl virt pde : Z) : M st unit :=
  e ← ld64 (pgtbl + 8 * Vm.PGD_IDX virt);
  st64 (Z.land e Vm.PG_ADDR_MASK + 8 * Vm.PMD_IDX virt) pde.
Definition set_bootpgtbl_body (len : Z) (dev_mem : bool) (v : Z * Z * Z) : M st (Z * Z * Z + unit) :=
  let '(idx, virt, phy) := v in
  if idx <? len then
    let pde := boot_pde phy dev_mem in
    set_level2 kernel_pgtbl virt pde ;;
    set_level2 user_pgtbl virt pde ;;
    mret (inl (idx + 0x200000, u64 (virt + 0x200000), u64 (phy + 0x200000)))
  else mret (inr tt).
Definition set_bootpgtbl (virt phy len : Z) (dev_mem : bool) : M st unit :=
  loop (S (Z.to_nat len)) (set_bootpgtbl_body len dev_mem) (0, virt, phy).

Definition load_pgtlb : M st unit :=
  val64 ← MRS "MIDR_EL1";
  when (Z.shiftr val64 24 =? 0x41) (_puts (ln "Implementer: ARM Limited")) ;;
  let arch := Z.land (Z.shiftr val64 16) 0x0F in
  when (negb (arch =? 7) && negb (arch =? 0xF)) (_puts (ln "Need AARM v6 or higher")) ;;
  val64 ← MRS "CurrentEL";
  let val64 := Z.shiftr (Z.land val64 0x0C) 2 in
  _puts (ln (if val64 =? 0 then "Current EL: EL0" else if val64 =? 1 then "Current EL: EL1"
         else if val64 =? 2 then "Current EL: EL2" else if val64 =? 3 then "Current EL: EL3" else "Current EL: Unknown")) ;;
  _puts (ln "Flushing TLB and Instr Cache") ;;
  MSR "CPACR_EL1" (Z.shiftl 3 20) ;;
  MSR "MDSCR_EL1" 0 ;;
  MSR "MAIR_EL1" 0xFF440C0400 ;;
  _puts (ln "Setting Vector Base Address Register (VBAR_EL1)") ;;
  MSR "VBAR_EL1" vectors ;;
  _puts (ln "Setting Translation Control Register (TCR_EL1)") ;;
  MSR "TCR_EL1" (foldr Z.lor 0 [Z.shiftl 32 0; Z.shiftl 1 8; Z.shiftl 1 10; Z.shiftl 3 12; Z.shiftl 32 16; Z.shiftl 1 24; Z.shiftl 1 26;
    Z.shiftl 3 28; Z.shiftl 2 30; Z.shiftl 4 32; Z.shiftl 1 36; Z.shiftl 1 37]) ;;
  _puts (ln "Setting Translation Table Base Register 1 (TTBR1_EL1)") ;;
  MSR "TTBR1_EL1" kernel_pgtbl ;;
  _puts (ln "Setting Translation Table Base Register 0 (TTBR0_EL1)") ;;
  MSR "TTBR0_EL1" user_pgtbl ;;
  _puts (ln "Setting System Control Register (SCTLR_EL1)") ;;
  val64 ← MRS "SCTLR_EL1";
  MSR "SCTLR_EL1" (Z.lor val64 0x01) ;;
  _puts (ln (ln "System Configure Completed...")).

(** memset(&edata, 0x00, &end-&edata) at the memory behind the kernel's
    addresses; edata and end are declared as pointers, so that the difference
    of their addresses counts eight bytes as one *)
Definition clear_bss : M st unit :=
  _puts (ln "clearing BSS section for the main kernel") ;;
  zoom ram_lens (KString.memset (v2p edata) 0 (s32 ((end_ - edata) / 8))) ;;
  mret tt.

(** the loops over the four entries of a page directory *)
Definition set_pgd (pgtbl l2 : Z) : M st unit :=
  loop 5 (fun index =>
    if index <? 4 then
      let l2pgtbl := l2 + index * 4096 in
      let l2pgtbl := Z.lor (Z.lor l2pgtbl Vm.ENTRY_TABLE) Vm.ENTRY_VALID in
      st64 (pgtbl + 8 * index) l2pgtbl ;; mret (inl (index + 1))
    else mret (inr tt)) 0.
Definition start : M st unit :=
  _puts (ln "starting xv6 for ARMv8...") ;;
  set_pgd kernel_pgtbl _K_l2_pgtbl ;;
  set_pgd user_pgtbl _U_l2_pgtbl ;;
  set_bootpgtbl PHY_START PHY_START INIT_KERN_SZ false ;;
  set_bootpgtbl (KERNBASE + PHY_START) PHY_START INIT_KERN_SZ false ;;
  set_bootpgtbl DEVBASE2 DEVBASE2 DEV_MEM_SZ true ;;
  set_bootpgtbl (KERNBASE + DEVBASE1) DEVBASE1 DEV_MEM_SZ true ;;
  set_bootpgtbl (KERNBASE + DEVBASE2) DEVBASE2 DEV_MEM_SZ true ;;
  set_bootpgtbl (KERNBASE + DEVBASE3) DEVBASE2 DEV_MEM_SZ true ;;
  load_pgtlb ;;
  clear_bss ;;
  _puts (ln "Starting Kernel") ;;
  kmain.
End boot.

(** ** The tables in memory *)

(** the ten pages of tables: the words behind [k], by their number *)
Definition words (k : Z) (W : Z -> Z) (m : mem) : Prop := forall w, 0 <= w < 5120 -> num 8 m (k + 8 * w) = Some (W w).
Definition upd (W : Z -> Z) (w v : Z) : Z -> Z := fun x => if x =? w then v else W x.

Lemma words_set k W m w v : words k W m -> 0 <= w < 5120 -> 0 <= v < 2 ^ 64 -> words k (upd W w v) (set_num 8 m (k + 8 * w) v).
Proof.
  intros H Hw Hv x Hx. unfold upd. destruct (Z.eqb_spec x w) as [->|Hne].
  - rewrite num_set. f_equal. by apply Z.mod_small.
  - rewrite num_set_other by lia. by apply H.
Qed.
(** memory outside of the tables *)
Definition outside (k : Z) (m m' : mem) : Prop := forall a, a < k \/ k + 0xA000 <= a -> m' !! a = m !! a.
Lemma outside_set k m m' w v : outside k m m' -> 0 <= w < 5120 -> outside k m (set_num 8 m' (k + 8 * w) v).
Proof. intros H Hw a Ha. rewrite lookup_set_other by lia. by apply H. Qed.

(** the state after some words of the tables have been written *)
Definition tabled (k : Z) (s0 : st) (W : Z -> Z) (s : st) : Prop :=
  words k W (ram s) /\ outside k (ram s0) (ram s) /\ regs s = regs s0.

Lemma lor3 a : a mod 4096 = 0 -> Z.lor (Z.lor a Vm.ENTRY_TABLE) Vm.ENTRY_VALID = a + 3.
Proof.
  intros Ha. rewrite <-Z.lor_assoc. change (Z.lor Vm.ENTRY_TABLE Vm.ENTRY_VALID) with 3.
  assert (Z.land a 3 = 0) as E. { change 3 with (Z.ones 2). rewrite Z.land_ones by lia. change (2 ^ 2) with 4. Z.div_mod_to_equations; lia. }
  by rewrite Z.add_nocarry_lxor, Z.lxor_lor.
Qed.

(** the number of the block of an address *)
Definition block_no (va : Z) : Z := va / 2 ^ 21 mod 2048.
Lemma block_idx va : Vm.PGD_IDX va = block_no va / 512 /\ Vm.PMD_IDX va = block_no va mod 512 /\ 0 <= block_no va < 2048.
Proof.
  unfold Vm.PGD_IDX, Vm.PMD_IDX, Vm.PGD_SHIFT, Vm.PMD_SHIFT, block_no. change (Vm.PTRS_PER_PGD - 1) with (Z.ones 2). change (Vm.PTRS_PER_PMD - 1) with (Z.ones 9).
  rewrite !Z.land_ones, !Z.shiftr_div_pow2 by lia. change (2 ^ 30) with (2 ^ 21 * 512). rewrite <-Z.div_div by lia. change (2 ^ 2) with 4. change (2 ^ 9) with 512.
  split; [|split]; [| |apply Z.mod_pos_bound; lia]; set (x := va / 2 ^ 21); Z.div_mod_to_equations; lia.
Qed.

Lemma block_step virt j : 0 <= j -> virt mod 2 ^ 21 = 0 -> block_no virt + j < 2048 -> block_no (virt + j * 2 ^ 21) = block_no virt + j.
Proof.
  intros Hj Hm Hb. unfold block_no in *. rewrite Z.div_add by lia. set (x := virt / 2 ^ 21) in *. clear Hm. Z.div_mod_to_equations; lia.
Qed.
Section tables.
Context (k : Z) (s0 : st).
Hypothesis Hk : 0 <= k /\ k mod 4096 = 0 /\ k + 0xA000 <= 2 ^ 32.

Lemma tabled_ld W s w Q : tabled k s0 W s -> 0 <= w < 5120 -> Q (W w) s -> wp (ld64 (k + 8 * w)) Q s.
Proof using. intros (H & _) Hw HQ. unfold ld64. by eapply wp_load; [apply H|]. Qed.
Lemma tabled_st W s w v Q : tabled k s0 W s -> 0 <= w < 5120 -> 0 <= v < 2 ^ 64 ->
  (forall s', tabled k s0 (upd W w v) s' -> Q tt s') -> wp (st64 (k + 8 * w) v) Q s.
Proof using.
  intros (H & Ho & Hr) Hw Hv HQ. unfold st64. apply wp_store; [apply num_mapped; change (lget ram_lens s) with (ram s); rewrite (H w Hw); by eexists|]. apply HQ.
  split; [|split]; cbn [lset ram_lens ram regs lget]; [by apply words_set|by apply outside_set|done].
Qed.
Lemma tabled_puts W s str Q : tabled k s0 W s -> (forall s', tabled k s0 W s' -> Q tt s') -> wp (_puts str) Q s.
Proof using.
  revert s. induction str as [|c str IH]; intros s H HQ; cbn [_puts]; [wp_step; by apply HQ|].
  wp_step. unfold _uart_putc. wp_step. apply IH; [|done]. destruct H as (? & ? & ?). by split; [|split].
Qed.

(** a directory entry, and the index of the page it leads to *)
Definition dir_entry (i : Z) (l2 : Z) : Z := k + 4096 * (l2 + i) + 3.
Lemma table_addr p : 0 <= p < 10 -> Z.land (k + 4096 * p + 3) Vm.PG_ADDR_MASK = k + 4096 * p /\ Z.land (k + 4096 * p + 3) 3 = 3.
Proof using Hk.
  intros Hp. change Vm.PG_ADDR_MASK with (Z.shiftl (Z.ones 36) 12). split.
  - apply Z.bits_inj'. intros n Hn. rewrite Z.land_spec, Z.shiftl_spec by done. rewrite Z.testbit_ones by done.
    assert (k + 4096 * p = Z.shiftl (k / 4096 + p) 12) as E. { rewrite Z.shiftl_mul_pow2 by lia. change (2 ^ 12) with 4096. Z.div_mod_to_equations; lia. }
    assert (0 <= k / 4096 + p < 2 ^ 36) as Hr by (Z.div_mod_to_equations; lia).
    rewrite E, Z.shiftl_spec by done. destruct (Z.leb_spec 0 (n - 12)), (Z.ltb_spec (n - 12) 36); cbn [andb].
    + rewrite andb_true_r. rewrite (Z.add_nocarry_lxor _ 3).
      * rewrite Z.lxor_spec, Z.shiftl_spec by done. rewrite (Z.bits_above_log2 3 n) by (cbn; lia). apply xorb_false_r.
      * apply Z.bits_inj'. intros i Hi. rewrite Z.land_spec, Z.shiftl_spec, Z.bits_0 by done.
        destruct (Z.ltb_spec i 12); [by rewrite Z.testbit_neg_r by lia|]. rewrite (Z.bits_above_log2 3 i) by (cbn; lia). apply andb_false_r.
    + rewrite andb_false_r. symmetry. destruct (Z.eq_dec (k / 4096 + p) 0) as [->|Hne]; [apply Z.bits_0|].
      apply Z.bits_above_log2; [lia|]. apply Z.log2_lt_pow2; [lia|]. eapply Z.lt_le_trans; [apply Hr|]. apply Z.pow_le_mono_r; lia.
    + rewrite andb_false_r. by rewrite Z.testbit_neg_r by lia.
    + rewrite andb_false_r. by rewrite Z.testbit_neg_r by lia.
  - change 3 with (Z.ones 2) at 2. rewrite Z.land_ones by lia. change (2 ^ 2) with 4. Z.div_mod_to_equations; lia.
Qed.

(** ** Filling the tables *)

(** the directories [k] and [k + 4096], and the block entries both lead to, by the number of the block *)
Definition tables_of (E W : Z -> Z) : Prop :=
  (forall i, 0 <= i < 4 -> W i = k + 4096 * (2 + i) + 3 /\ W (512 + i) = k + 4096 * (6 + i) + 3) /\
  forall q, 0 <= q < 2048 -> W (1024 + q) = E q /\ W (3072 + q) = E q.
Definition booted (E : Z -> Z) (s : st) : Prop := exists W, tabled k s0 W s /\ tables_of E W.
Lemma booted_ext E E' s : booted E s -> (forall q, 0 <= q < 2048 -> E' q = E q) -> booted E' s.
Proof using. intros (W & H & HW & HE) H'. exists W. split; [done|]. split; [done|]. intros q Hq. rewrite H' by done. by apply HE. Qed.
Lemma booted_puts E s str Q : booted E s -> (forall s', booted E s' -> Q tt s') -> wp (_puts str) Q s.
Proof using. intros (W & H & HW) HQ. eapply tabled_puts; [done|]. intros s' H'. apply HQ. by exists W. Qed.

Lemma set_pgd_spec W s b p Q : tabled k s0 W s -> b = 0 \/ b = 512 -> 0 <= p -> p + 4 <= 10 ->
  (forall W' s', tabled k s0 W' s' -> (forall w, 0 <= w < 5120 -> W' w = if decide (b <= w < b + 4) then k + 4096 * (p + (w - b)) + 3 else W w) -> Q tt s') ->
  wp (set_pgd (k + 8 * b) (k + 4096 * p)) Q s.
Proof using Hk.
  intros H Hb Hp Hp4 HQ. unfold set_pgd.
  apply wp_mono with (Q := fun _ s' => exists W', tabled k s0 W' s' /\ forall w, 0 <= w < 5120 -> W' w = if decide (b <= w < b + 4) then k + 4096 * (p + (w - b)) + 3 else W w).
  2: { intros [] s' (W' & H' & HW'). by eapply HQ. }
  apply wp_loop with (mu := fun i => Z.to_nat (4 - i)) (Inv := fun i s' => 0 <= i <= 4 /\
    exists W', tabled k s0 W' s' /\ forall w, 0 <= w < 5120 -> W' w = if decide (b <= w < b + i) then k + 4096 * (p + (w - b)) + 3 else W w).
  - split; [lia|]. exists W. split; [done|]. intros w _. by rewrite decide_False by lia.
  - lia.
  - intros i s' (Hi & W' & H' & HW'). destruct (Z.ltb_spec i 4) as [Hlt|Hge].
    + wp_step. replace (k + 8 * b + 8 * i) with (k + 8 * (b + i)) by lia. rewrite lor3 by (Z.div_mod_to_equations; lia).
      eapply tabled_st; [done|lia|lia|]. intros s2 H2. wp_step. split; [|lia]. split; [lia|]. eexists. split; [exact H2|].
      intros w Hw. unfold upd. destruct (Z.eqb_spec w (b + i)) as [->|Hne].
      * rewrite decide_True by lia. lia.
      * rewrite HW' by done. repeat case_decide; try done; lia.
    + wp_step. exists W'. split; [done|]. intros w Hw. rewrite HW' by done. by replace i with 4 by lia.
Qed.

Lemma set_level2_spec W s b p va pde Q : tabled k s0 W s -> b = 0 \/ b = 512 -> 0 <= p -> p + 4 <= 10 ->
  (forall i, 0 <= i < 4 -> W (b + i) = k + 4096 * (p + i) + 3) -> 0 <= pde < 2 ^ 64 ->
  (forall s', tabled k s0 (upd W (512 * p + block_no va) pde) s' -> Q tt s') -> wp (set_level2 (k + 8 * b) va pde) Q s.
Proof using Hk.
  intros H Hb Hp Hp4 HW Hpde HQ. destruct (block_idx va) as (E1 & E2 & Hr). unfold set_level2. rewrite E1, E2. set (q := block_no va) in *.
  replace (k + 8 * b + 8 * (q / 512)) with (k + 8 * (b + q / 512)) by lia.
  assert (0 <= q / 512 < 4) as Hi by (Z.div_mod_to_equations; lia). assert (0 <= q mod 512 < 512) as Hj by (Z.div_mod_to_equations; lia). pose proof (Z.div_mod q 512 ltac:(lia)) as Eq.
  wp_step. eapply tabled_ld; [done|lia|]. rewrite HW by done. destruct (table_addr (p + q / 512)) as [-> _]; [lia|].
  replace (k + 4096 * (p + q / 512) + 8 * (q mod 512)) with (k + 8 * (512 * p + q)) by lia. eapply tabled_st; [done|lia|done|]. done.
Qed.

(** both tables get the block *)
Lemma set_both_spec E s va pde Q : booted E s -> 0 <= pde < 2 ^ 64 ->
  (forall s', booted (upd E (block_no va) pde) s' -> Q s') ->
  wp (set_level2 k va pde ;; set_level2 (user_pgtbl k) va pde) (fun _ => Q) s.
Proof using Hk.
  intros (W & H & HW & HE) Hpde HQ. destruct (block_idx va) as (_ & _ & Hr). set (q := block_no va) in *.
  wp_step. replace k with (k + 8 * 0) at 1 by lia. eapply (set_level2_spec W s 0 2); [done|by left|lia|lia|intros i Hi; by apply HW|done|].
  intros s1 H1. unfold user_pgtbl. replace (k + 0x1000) with (k + 8 * 512) by lia.
  eapply (set_level2_spec _ s1 512 6); [done|by right|lia|lia| |done|].
  - intros i Hi. unfold upd. destruct (Z.eqb_spec (512 + i) (512 * 2 + block_no va)); [lia|]. by apply HW.
  - intros s2 H2. apply HQ. eexists. split; [exact H2|]. fold q. split.
    + intros i Hi. unfold upd. rewrite !(proj2 (Z.eqb_neq _ _)) by lia. by apply HW.
    + intros q' Hq'. unfold upd. destruct (HE q' Hq') as [E1 E2]. rewrite <-E1 at 1. rewrite <-E2.
      destruct (Z.eqb_spec q' q) as [->|Hne]; [rewrite !Z.eqb_refl, (proj2 (Z.eqb_neq _ _)) by lia; done|].
      by rewrite !(proj2 (Z.eqb_neq _ _)) by lia.
Qed.

(** a range of [n] blocks *)
Definition filled_blocks (E : Z -> Z) (v0 n phy : Z) (dev : bool) (q : Z) : Z :=
  if decide (v0 <= q < v0 + n) then boot_pde (phy + (q - v0) * 2 ^ 21) dev else E q.
Lemma set_bootpgtbl_spec E s virt phy n dev Q : booted E s -> 0 <= virt -> virt + n * 2 ^ 21 < 2 ^ 64 -> virt mod 2 ^ 21 = 0 -> 0 <= phy -> phy + n * 2 ^ 21 < 2 ^ 48 ->
  0 <= n -> block_no virt + n <= 2048 -> (forall j, 0 <= j < n -> 0 <= boot_pde (phy + j * 2 ^ 21) dev < 2 ^ 64) ->
  (forall s', booted (filled_blocks E (block_no virt) n phy dev) s' -> Q tt s') -> wp (set_bootpgtbl k virt phy (n * 2 ^ 21) dev) Q s.
Proof using Hk.
  intros H Hv Hv2 Hvm Hp Hp2 Hn Hb Hpde HQ. unfold set_bootpgtbl.
  apply wp_mono with (Q := fun _ s' => booted (filled_blocks E (block_no virt) n phy dev) s'); [|intros [] s'; apply HQ].
  apply wp_loop with (mu := fun v => Z.to_nat (n * 2 ^ 21 - v.1.1)) (Inv := fun v s' => exists j, 0 <= j <= n /\ v = (j * 2 ^ 21, virt + j * 2 ^ 21, phy + j * 2 ^ 21) /\
    booted (filled_blocks E (block_no virt) j phy dev) s').
  - exists 0. split; [lia|]. rewrite !Z.add_0_r. split; [done|]. eapply booted_ext; [exact H|]. intros q _. unfold filled_blocks. by rewrite decide_False by lia.
  - cbn. lia.
  - intros v s' (j & Hj & -> & H'). unfold set_bootpgtbl_body. destruct (Z.ltb_spec (j * 2 ^ 21) (n * 2 ^ 21)) as [Hlt|Hge].
    + pose proof (block_step virt j ltac:(lia) Hvm ltac:(lia)) as Eb.
      assert (wp (set_level2 k (virt + j * 2 ^ 21) (boot_pde (phy + j * 2 ^ 21) dev) ;; set_level2 (user_pgtbl k) (virt + j * 2 ^ 21) (boot_pde (phy + j * 2 ^ 21) dev))
        (fun _ s2 => booted (filled_blocks E (block_no virt) (j + 1) phy dev) s2) s') as Hboth.
      { eapply set_both_spec; [exact H'|apply Hpde; lia|]. intros s2 H2. eapply booted_ext; [exact H2|]. intros q _. unfold filled_blocks, upd. rewrite Eb.
        destruct (Z.eqb_spec q (block_no virt + j)) as [->|Hne].
        - rewrite decide_True by lia. by replace (block_no virt + j - block_no virt) with j by lia.
        - repeat case_decide; try done; lia. }
      apply wp_bind_inv in Hboth. wp_step. eapply wp_mono; [exact Hboth|]. cbn beta. intros _ s1 Hboth1. wp_step. eapply wp_mono; [exact Hboth1|]. cbn beta. intros _ s2 H2.
      wp_step. cbn [fst snd]. split; [|lia]. exists (j + 1). split; [lia|]. split; [|done].
      change 0x200000 with (2 ^ 21). unfold u64. rewrite !Z.mod_small by lia. f_equal; [f_equal|]; lia.
    + wp_step. by replace n with j by lia.
Qed.
End tables.

(** ** The MMU *)

(** an address, what may be done there, and the memory type MAIR_EL1 has for it *)
Definition place : Type := Z * Arm.access * Z.
Definition typed (mair : Z) (x : Z * Arm.access) : place := (x, Arm.mair_attr mair (Arm.ac_attr x.2)).
(** what the hardware makes of a level 2 entry that is a block *)
Definition block_of (mair e va : Z) : option place :=
  if Arm.field e 0 2 =? 1 then typed mair <$> Arm.leaf e 21 va else None.
(** 32 bits of address in each half (TxSZ), pages of 4 KiB (TGx), the MMU on *)
Definition hw_ready (tcr sctlr : Z) : bool :=
  (Z.land tcr 63 =? 32) && (Z.land (Z.shiftr tcr 14) 3 =? 0) && (Z.land (Z.shiftr tcr 16) 63 =? 32) && (Z.land (Z.shiftr tcr 30) 3 =? 2) && Z.odd sctlr.
Definition hw_translate (s : st) (va : Z) : option place :=
  tcr ← regs s !! "TCR_EL1"; sctlr ← regs s !! "SCTLR_EL1"; mair ← regs s !! "MAIR_EL1";
  if hw_ready tcr sctlr then
    root ← (if va <? 2 ^ 32 then regs s !! "TTBR0_EL1" else if 2 ^ 64 - 2 ^ 32 <=? va then regs s !! "TTBR1_EL1" else None);
    typed mair <$> Arm.walk (num 8 (ram s)) root va
  else None.

(** the memory of the kernel's image and the device registers, at their physical addresses: for the kernel only (AP 0),
    the image as shared, write-back cached memory (0xFF) that user mode may not execute, the registers as device memory (0);
    the last range is the registers of virtio, which get the address of the UART *)
Definition image : Arm.access := Arm.Access 0 4 3 true false.
Definition device : Arm.access := Arm.Access 0 0 0 false false.
Definition boot_map (x : Z) : option place :=
  if decide (0x40000000 <= x < 0x40200000) then Some (x, image, 0xFF)
  else if decide (0x08000000 <= x < 0x0a000000) then Some (x, device, 0)
  else if decide (0x0a000000 <= x < 0x0b000000) then Some (x - 0x01000000, device, 0)
  else None.

Definition boot_entries : Z -> Z :=
  filled_blocks (filled_blocks (filled_blocks (filled_blocks (filled_blocks (filled_blocks (fun _ => 0)
    512 1 PHY_START false) 512 1 PHY_START false) 72 8 DEVBASE2 true) 64 8 DEVBASE1 true) 72 8 DEVBASE2 true) 80 8 DEVBASE2 true.
#[export] Instance place_eq_dec : EqDecision place.
Proof. unfold place. apply _. Defined.
Definition same_block (x y : option place) : bool := bool_decide (x = y).
Lemma boot_entries_map q : 0 <= q < 2048 -> block_of 0xFF440C0400 (boot_entries q) 0 = boot_map (q * 2 ^ 21).
Proof.
  intros Hq. apply (bool_decide_unpack (block_of 0xFF440C0400 (boot_entries q) 0 = boot_map (q * 2 ^ 21))), Is_true_true.
  exact (forallb_seqZ (fun q => same_block (block_of 0xFF440C0400 (boot_entries q) 0) (boot_map (q * 2 ^ 21))) 0 2048 ltac:(vm_compute; reflexivity) q Hq).
Qed.
(** a place further on in the block *)
Definition further (d : Z) (x : place) : place := (x.1.1 + d, x.1.2, x.2).
Lemma block_of_offset mair e va : block_of mair e va = further (va mod 2 ^ 21) <$> block_of mair e 0.
Proof. unfold block_of, Arm.leaf. destruct (Arm.field e 0 2 =? 1), (Z.testbit e 10); try done. cbn. unfold typed, further. cbn. by rewrite Z.add_0_r. Qed.
Lemma boot_map_block x : 0 <= x < 2 ^ 32 -> boot_map x = further (x mod 2 ^ 21) <$> boot_map (x / 2 ^ 21 * 2 ^ 21).
Proof.
  intros Hx. unfold boot_map. pose proof (Z.div_mod x (2 ^ 21) ltac:(lia)) as E. pose proof (Z.mod_pos_bound x (2 ^ 21) ltac:(lia)) as Hm. set (q := x / 2 ^ 21) in *.
  change (2 ^ 21) with 2097152 in *. repeat case_decide; try lia; cbn [fmap option_fmap option_map]; unfold further; cbn [fst snd]; try done; do 3 f_equal; lia.
Qed.

(** an entry of the level 2 tables is a block or nothing *)
Lemma boot_entries_block q : 0 <= q < 2048 -> Arm.field (boot_entries q) 0 2 <> 3.
Proof.
  intros Hq. apply Z.eqb_neq. apply negb_true_iff. exact (forallb_seqZ (fun q => negb (Arm.field (boot_entries q) 0 2 =? 3)) 0 2048 ltac:(vm_compute; reflexivity) q Hq).
Qed.
Lemma hw_walk_booted k m W base va : 0 <= k /\ k mod 4096 = 0 /\ k + 0xA000 <= 2 ^ 32 -> words k W m -> tables_of k boot_entries W -> base = 0 \/ base = 512 -> 0 <= va ->
  typed 0xFF440C0400 <$> Arm.walk (num 8 m) (k + 8 * base) va = boot_map (va mod 2 ^ 32).
Proof.
  intros Hk HW [HD HE] Hb Hva. destruct (block_idx va) as (E1 & E2 & Hr). unfold Arm.walk. change (Arm.field va 30 2) with (Vm.PGD_IDX va). rewrite E1. set (q := block_no va) in *.
  assert (0 <= q / 512 < 4) as Hi by (Z.div_mod_to_equations; lia). assert (0 <= q mod 512 < 512) as Hj by (Z.div_mod_to_equations; lia). pose proof (Z.div_mod q 512 ltac:(lia)) as Eq.
  set (p := if base =? 0 then 2 else 6). assert (num 8 m (k + 8 * base + 8 * (q / 512)) = Some (k + 4096 * (p + q / 512) + 3)) as ->.
  { replace (k + 8 * base + 8 * (q / 512)) with (k + 8 * (base + q / 512)) by lia. rewrite HW by lia. f_equal. destruct (HD _ Hi) as [D1 D2]. by destruct Hb as [->| ->]. }
  assert (0 <= p + q / 512 < 10) as Hp by (unfold p; destruct (base =? 0); lia). cbn [mbind option_bind].
  assert ((k + 4096 * (p + q / 512)) mod 4096 = 0) as Hpm by (Z.div_mod_to_equations; lia).
  rewrite Arm.field_low by lia. change (Arm.field 3 0 2 =? 3) with true. cbn iota. rewrite Arm.next_level_low by lia. cbn [mbind option_bind].
  unfold Arm.level2. change (Arm.field va 21 9) with (Vm.PMD_IDX va). rewrite E2.
  assert (num 8 m (k + 4096 * (p + q / 512) + 8 * (q mod 512)) = Some (boot_entries q)) as ->.
  { replace (k + 4096 * (p + q / 512) + 8 * (q mod 512)) with (k + 8 * (512 * p + q)) by lia. rewrite HW by (unfold p; destruct (base =? 0); lia). f_equal.
    destruct (HE q Hr) as [E3 E4]. unfold p. by destruct Hb as [->| ->]. }
  cbn [mbind option_bind]. pose proof (boot_entries_block q Hr) as Hnt. apply Z.eqb_neq in Hnt. rewrite Hnt.
  transitivity (block_of 0xFF440C0400 (boot_entries q) va); [unfold block_of; by destruct (Arm.field (boot_entries q) 0 2 =? 1)|].
  rewrite block_of_offset, boot_entries_map by done. rewrite (boot_map_block (va mod 2 ^ 32)) by (apply Z.mod_pos_bound; lia).
  assert (va mod 2 ^ 32 / 2 ^ 21 = q) as -> by (unfold q, block_no; change (2 ^ 32) with (2 ^ 21 * 2048); rewrite Z.rem_mul_r by lia; rewrite Z.add_comm, Z.mul_comm, Z.div_add_l by lia; rewrite (Z.div_small (va mod 2 ^ 21)) by (apply Z.mod_pos_bound; lia); lia).
  assert (va mod 2 ^ 32 mod 2 ^ 21 = va mod 2 ^ 21) as -> by (change (2 ^ 32) with (2 ^ 21 * 2048); rewrite Z.rem_mul_r by lia; rewrite Z.mul_comm, Z.mod_add by lia; by rewrite Z.mod_mod by lia).
  done.
Qed.

Lemma puts_spec s str : wp (_puts str) (fun _ s' => ram s' = ram s /\ regs s' = regs s) s.
Proof.
  revert s. induction str as [|c str IH]; intros s; cbn [_puts]; [by wp_step|]. wp_step. unfold _uart_putc. wp_step. exact (IH (St (ram s) (regs s) _)).
Qed.
Ltac puts := wp_step; eapply wp_mono; [apply puts_spec|]; cbn beta; intros _ ? [? ?].
Lemma when_puts_spec s b str : wp (when b (_puts str)) (fun _ s' => ram s' = ram s /\ regs s' = regs s) s.
Proof. destruct b; cbn [when]; [apply puts_spec|by wp_step]. Qed.

Definition configured (k vectors sctlr : Z) (r : gmap string Z) : gmap string Z :=
  <["SCTLR_EL1" := Z.lor sctlr 1]> (<["TTBR0_EL1" := user_pgtbl k]> (<["TTBR1_EL1" := k]> (<["TCR_EL1" := 0x34B5203520]>
  (<["VBAR_EL1" := vectors]> (<["MAIR_EL1" := 0xFF440C0400]> (<["MDSCR_EL1" := 0]> (<["CPACR_EL1" := 0x300000]> r))))))).
Lemma load_pgtlb_spec k vectors s midr el sctlr : regs s !! "MIDR_EL1" = Some midr -> regs s !! "CurrentEL" = Some el -> regs s !! "SCTLR_EL1" = Some sctlr ->
  wp (load_pgtlb k vectors) (fun _ s' => ram s' = ram s /\ regs s' = configured k vectors sctlr (regs s)) s.
Proof.
  intros H1 H2 H3. unfold load_pgtlb, MRS, MSR. wp_step. eapply wp_deref; [exact H1|].
  wp_step. eapply wp_mono; [apply when_puts_spec|]. cbn beta. intros _ s1 [A1 B1].
  wp_step. eapply wp_mono; [apply when_puts_spec|]. cbn beta. intros _ s2 [A2 B2].
  wp_step. eapply wp_deref; [by rewrite B2, B1|]. puts. puts. wp_step. wp_step. wp_step. wp_step. wp_step. wp_step. puts. wp_step. wp_step. puts. wp_step. wp_step.
  puts. wp_step. wp_step. puts. wp_step. wp_step. puts. wp_step. eapply wp_deref.
  { repeat match goal with H : regs ?x = _ |- context [regs ?x] => rewrite H; cbn [regs] end. rewrite !lookup_insert_ne by done. exact H3. }
  wp_step. wp_step. eapply wp_mono; [apply puts_spec|]. cbn beta. intros _ s9 [A9 B9]. cbn [ram regs] in *. split; [congruence|].
  repeat match goal with H : regs ?x = _ |- context [regs ?x] => rewrite H; cbn [regs]; clear H end. reflexivity.
Qed.

Lemma hw_configured k vectors sctlr r s va : regs s = configured k vectors sctlr r ->
  hw_translate s va = if va <? 2 ^ 32 then typed 0xFF440C0400 <$> Arm.walk (num 8 (ram s)) (user_pgtbl k) va
    else if 2 ^ 64 - 2 ^ 32 <=? va then typed 0xFF440C0400 <$> Arm.walk (num 8 (ram s)) k va else None.
Proof.
  intros H. unfold hw_translate. rewrite H. unfold configured.
  repeat first [rewrite lookup_insert_eq | rewrite lookup_insert_ne by done]. cbn [mbind option_bind].
  assert (hw_ready 0x34B5203520 (Z.lor sctlr 1) = true) as ->.
  { unfold hw_ready. assert (Z.odd (Z.lor sctlr 1) = true) as -> by (rewrite <-Z.bit0_odd, Z.lor_spec; apply orb_true_r). done. }
  destruct (va <? 2 ^ 32); [done|]. by destruct (2 ^ 64 - 2 ^ 32 <=? va).
Qed.

Section start.
Context (k vectors edata end_ : Z) (kmain : M st unit) (s0 : st) (midr el sctlr : Z).
Hypothesis Hk : 0 <= k /\ k mod 4096 = 0 /\ k + 0xA000 <= 2 ^ 32.
Hypothesis Hzero : words k (fun _ => 0) (ram s0).
Hypothesis Hmidr : regs s0 !! "MIDR_EL1" = Some midr.
Hypothesis Hel : regs s0 !! "CurrentEL" = Some el.
Hypothesis Hsctlr : regs s0 !! "SCTLR_EL1" = Some sctlr.
Let bss := v2p edata.
Let cleared := (end_ - edata) / 8.
Hypothesis Hbss : 0 <= end_ - edata < 2 ^ 31.
Hypothesis Hmapped : mapped (ram s0) bss (Z.to_nat (end_ - edata)).
Hypothesis Happart : bss + (end_ - edata) <= k \/ k + 0xA000 <= bss.

(** the tables alone *)
Lemma start_tables (rest : M st unit) s Q : s = s0 -> (forall s', booted k s0 boot_entries s' -> wp rest Q s') ->
  wp (_puts (ln "starting xv6 for ARMv8...") ;;
      set_pgd k (_K_l2_pgtbl k) ;; set_pgd (user_pgtbl k) (_U_l2_pgtbl k) ;;
      set_bootpgtbl k PHY_START PHY_START INIT_KERN_SZ false ;;
      set_bootpgtbl k (KERNBASE + PHY_START) PHY_START INIT_KERN_SZ false ;;
      set_bootpgtbl k DEVBASE2 DEVBASE2 DEV_MEM_SZ true ;;
      set_bootpgtbl k (KERNBASE + DEVBASE1) DEVBASE1 DEV_MEM_SZ true ;;
      set_bootpgtbl k (KERNBASE + DEVBASE2) DEVBASE2 DEV_MEM_SZ true ;;
      set_bootpgtbl k (KERNBASE + DEVBASE3) DEVBASE2 DEV_MEM_SZ true ;; rest) Q s.
Proof using Hk Hzero.
  clear Hmidr Hel Hsctlr Hbss Hmapped Happart bss cleared. intros -> HQ.
  assert (tabled k s0 (fun _ => 0) s0) as H0 by (split; [done|split; [by intros a _|done]]).
  wp_step. eapply tabled_puts; [exact H0|]. intros s1 H1.
  assert (set_pgd k (_K_l2_pgtbl k) = set_pgd (k + 8 * 0) (k + 4096 * 2)) as -> by (unfold _K_l2_pgtbl, user_pgtbl; f_equal; lia).
  assert (set_pgd (user_pgtbl k) (_U_l2_pgtbl k) = set_pgd (k + 8 * 512) (k + 4096 * 6)) as -> by (unfold _U_l2_pgtbl, _K_l2_pgtbl, user_pgtbl; f_equal; lia).
  wp_step. eapply set_pgd_spec; [exact Hk|exact H1|by left|lia|lia|]. intros W2 s2 H2 HW2.
  wp_step. eapply set_pgd_spec; [exact Hk|exact H2|by right|lia|lia|]. intros W3 s3 H3 HW3.
  assert (booted k s0 (fun _ => 0) s3) as HB.
  { exists W3. split; [done|]. split.
    - intros i Hi. rewrite !HW3, HW2 by lia. rewrite decide_False by lia. rewrite (decide_True (P := 0 <= i < 0 + 4)) by lia. rewrite decide_True by lia. split; f_equal; lia.
    - intros q Hq. rewrite !HW3, !HW2 by lia. by rewrite !decide_False by lia. }
  change INIT_KERN_SZ with (1 * 2 ^ 21). change DEV_MEM_SZ with (8 * 2 ^ 21).
  assert (forall n phy dev, forallb (fun j => (0 <=? boot_pde (phy + j * 2 ^ 21) dev) && (boot_pde (phy + j * 2 ^ 21) dev <? 2 ^ 64)) (seqZ 0 n) = true ->
    forall j, 0 <= j < n -> 0 <= boot_pde (phy + j * 2 ^ 21) dev < 2 ^ 64) as Hpde.
  { intros n phy dev H j Hj. pose proof (forallb_seqZ _ 0 n H j ltac:(lia)) as Hj2. apply andb_true_iff in Hj2 as [? ?]. lia. }
  wp_step. eapply (set_bootpgtbl_spec k s0 Hk _ s3 PHY_START PHY_START 1 false); [exact HB|done|done|done|done|done|done|done|by apply Hpde|]. intros s4 H4.
  wp_step. eapply (set_bootpgtbl_spec k s0 Hk _ s4 (KERNBASE + PHY_START) PHY_START 1 false); [exact H4|done|done|done|done|done|done|done|by apply Hpde|]. intros s5 H5.
  wp_step. eapply (set_bootpgtbl_spec k s0 Hk _ s5 DEVBASE2 DEVBASE2 8 true); [exact H5|done|done|done|done|done|done|done|by apply Hpde|]. intros s6 H6.
  wp_step. eapply (set_bootpgtbl_spec k s0 Hk _ s6 (KERNBASE + DEVBASE1) DEVBASE1 8 true); [exact H6|done|done|done|done|done|done|done|by apply Hpde|]. intros s7 H7.
  wp_step. eapply (set_bootpgtbl_spec k s0 Hk _ s7 (KERNBASE + DEVBASE2) DEVBASE2 8 true); [exact H7|done|done|done|done|done|done|done|by apply Hpde|]. intros s8 H8.
  wp_step. eapply (set_bootpgtbl_spec k s0 Hk _ s8 (KERNBASE + DEVBASE3) DEVBASE2 8 true); [exact H8|done|done|done|done|done|done|done|by apply Hpde|]. intros s9 H9.
  by apply HQ.
Qed.

(** what start() has done when it enters kmain() *)
Record started (s : st) : Prop := {
  sr_map va : 0 <= va < 2 ^ 32 -> hw_translate s va = boot_map va /\ hw_translate s (KERNBASE + va) = boot_map va;
  sr_vectors : regs s !! "VBAR_EL1" = Some vectors;
  sr_bss a : bss <= a < bss + cleared -> ram s !! a = Some 0;
  sr_kept a : ~ (k <= a < k + 0xA000) -> ~ (bss <= a < bss + cleared) -> ram s !! a = ram s0 !! a;
}.

Lemma clear_bss_spec s : outside k (ram s0) (ram s) -> wp (clear_bss edata end_) (fun _ s' => ram s' = write_bytes (ram s) bss (replicate (Z.to_nat cleared) 0) /\ regs s' = regs s) s.
Proof using Hk Hbss Hmapped Happart.
  clear Hmidr Hel Hsctlr. intros Ho. unfold clear_bss. wp_step. eapply wp_mono; [apply puts_spec|]. cbn beta. intros _ s1 [A1 B1].
  assert (0 <= cleared <= end_ - edata) as Hc by (unfold cleared; Z.div_mod_to_equations; lia).
  fold cleared. assert (s32 cleared = cleared) as -> by (unfold s32; rewrite Z.mod_small by lia; lia).
  assert (mapped (ram s1) (v2p edata) (Z.to_nat cleared)) as Hm.
  { rewrite A1. intros i Hi. rewrite Ho by (fold bss; lia). apply Hmapped. lia. }
  wp_step. apply wp_zoom. eapply wp_eq; [apply memset_correct; exact Hm|]. wp_step. cbn [lget lset ram_lens ram regs]. by rewrite A1, B1.
Qed.

Lemma start_done s s1 s2 : booted k s0 boot_entries s -> ram s1 = ram s -> regs s1 = configured k vectors sctlr (regs s) ->
  ram s2 = write_bytes (ram s1) bss (replicate (Z.to_nat cleared) 0) -> regs s2 = regs s1 -> started s2.
Proof using Hk Hbss Happart.
  clear Hmidr Hel Hsctlr Hmapped. intros (W & (HW & Ho & _) & HWE) A1 B1 A2 B2. assert (0 <= cleared <= end_ - edata) as Hc by (unfold cleared; Z.div_mod_to_equations; lia).
  assert (words k W (ram s2)) as HW2.
  { intros w Hw. rewrite <-HW by done. rewrite A2, A1. apply num_cong. intros a Ha. rewrite lookup_write_bytes, length_replicate. by rewrite decide_False by lia. }
  split.
  - intros va Hva. rewrite !(hw_configured k vectors sctlr (regs s)) by congruence. destruct (Z.ltb_spec va (2 ^ 32)); [|lia].
    destruct (Z.ltb_spec (KERNBASE + va) (2 ^ 32)); [unfold KERNBASE in *; lia|]. destruct (Z.leb_spec (2 ^ 64 - 2 ^ 32) (KERNBASE + va)); [|unfold KERNBASE in *; lia].
    replace (user_pgtbl k) with (k + 8 * 512) by (unfold user_pgtbl; lia). replace k with (k + 8 * 0) at 2 by lia.
    rewrite (hw_walk_booted k _ W 512), (hw_walk_booted k _ W 0) by first [exact Hk|exact HW2|exact HWE|by left|by right|unfold KERNBASE; lia].
    change KERNBASE with (0xFFFFFFFF * 2 ^ 32). rewrite Z.add_comm, Z.mod_add by lia. by rewrite Z.mod_small by lia.
  - rewrite B2, B1. unfold configured. repeat first [by rewrite lookup_insert_eq | rewrite lookup_insert_ne by done].
  - intros a Ha. rewrite A2, lookup_write_bytes, length_replicate. rewrite decide_True by lia. apply lookup_replicate_2. lia.
  - intros a Ha Ha2. rewrite A2, lookup_write_bytes, length_replicate. rewrite decide_False by lia. rewrite A1. apply Ho. lia.
Qed.
End start.

(** C36: start(), entered with zeroed page tables where kernel.ld puts them, reaches kmain() in a state where the
    MMU is on and the processor's walk of the tables translates both halves of the address space to the kernel's first 2 MiB and
    the device registers, each 32-bit address and its counterpart behind KERNBASE alike, and nothing else: for the kernel only, the
    image as write-back cached memory that user mode may not execute, the device ranges as device memory.  The range of
    the virtio registers (DEVBASE3) is mapped to the registers of the UART (DEVBASE2).  The vectors are set.  Of the kernel's
    uninitialised data the first eighth is cleared - the difference of the two pointers counts eight bytes as one - and the rest
    of memory outside the tables is as it was. *)
Theorem boot_correct k vectors edata end_ kmain s midr el sctlr (Q : unit -> st -> Prop) : 0 <= k /\ k mod 4096 = 0 /\ k + 0xA000 <= 2 ^ 32 ->
  words k (fun _ => 0) (ram s) -> regs s !! "MIDR_EL1" = Some midr -> regs s !! "CurrentEL" = Some el -> regs s !! "SCTLR_EL1" = Some sctlr ->
  0 <= end_ - edata < 2 ^ 31 -> mapped (ram s) (v2p edata) (Z.to_nat (end_ - edata)) -> v2p edata + (end_ - edata) <= k \/ k + 0xA000 <= v2p edata ->
  (forall s', started k vectors edata end_ s s' -> wp kmain Q s') -> wp (start k vectors edata end_ kmain) Q s.
Proof.
  intros Hk Hz H1 H2 H3 Hb Hm Ha HQ. unfold start. apply (start_tables k s Hk Hz); [done|]. intros s1 HB.
  assert (regs s1 = regs s) as Er by (by destruct HB as (W & (_ & _ & ?) & _)).
  wp_step. eapply wp_mono; [by eapply load_pgtlb_spec; rewrite Er|]. cbn beta. intros _ s2 [A2 B2].
  wp_step. eapply wp_mono; [eapply (clear_bss_spec k edata end_ s Hk Hb Hm Ha s2)|].
  { destruct HB as (W & (_ & Ho & _) & _). by rewrite A2. }
  cbn beta. intros _ s3 [A3 B3]. wp_step. eapply wp_mono; [apply puts_spec|]. cbn beta. intros _ s4 [A4 B4].
  apply HQ. rewrite Er in B2. apply (start_done k vectors edata end_ s sctlr Hk Hb Ha s1 s2 s4); congruence.
Qed.

(** a machine with zeroed tables behind 0x40014000, as kernel.ld places them, and sixteen bytes of uninitialised data *)
Lemma words_zero k m : (forall a, k <= a < k + 0xA000 -> m !! a = Some 0) -> words k (fun _ => 0) m.
Proof.
  intros H w Hw. rewrite (num_bytes 8 m _ (replicate 8 0)); [done|done|]. intros i x Hi. apply lookup_replicate in Hi as [-> Hi]. apply H. lia.
Qed.
Definition a_mem : mem := write_bytes (write_bytes ∅ 0x40050000 (replicate 16 7)) 0x40014000 (replicate (Z.to_nat 0xA000) 0).
Definition a_machine : st := St a_mem (<["MIDR_EL1" := 0x410FD083]> (<["CurrentEL" := 4]> (<["SCTLR_EL1" := 0xC50838]> ∅))) [].
Lemma a_mem_tables a : 0x40014000 <= a < 0x40014000 + 0xA000 -> a_mem !! a = Some 0.
Proof. intros Ha. unfold a_mem. rewrite lookup_write_bytes, length_replicate. rewrite decide_True by lia. apply lookup_replicate_2. lia. Qed.
Lemma a_mem_bss : mapped a_mem 0x40050000 16.
Proof.
  intros i Hi. unfold a_mem. rewrite lookup_write_bytes, length_replicate. rewrite decide_False by lia. rewrite lookup_write_bytes, length_replicate. rewrite decide_True by lia.
  apply lookup_lt_is_Some. rewrite length_replicate. lia.
Qed.
Example boot_correct_witness :
  wp (start 0x40014000 0xFFFFFFFF40030800 0xFFFFFFFF40050000 0xFFFFFFFF40050010 (mret tt))
    (fun _ s' => started 0x40014000 0xFFFFFFFF40030800 0xFFFFFFFF40050000 0xFFFFFFFF40050010 a_machine s') a_machine.
Proof.
  apply (boot_correct 0x40014000 0xFFFFFFFF40030800 0xFFFFFFFF40050000 0xFFFFFFFF40050010 (mret tt) a_machine 0x410FD083 4 0xC50838).
  - by vm_compute.
  - apply words_zero. exact a_mem_tables.
  - reflexivity.
  - reflexivity.
  - reflexivity.
  - lia.
  - exact a_mem_bss.
  - right. by vm_compute.
  - intros s' H. wp_step. exact H.
Defined.
End Boot.
