(* ===== verification/Umalloc.v ===== *)
(** * The allocator of user programs (src/src/usr/umalloc.c)

    free(), morecore() and malloc() over the byte memory of a process.  The free
    blocks form a circular list in the order of their addresses, starting and
    ending at the static header [base]; a block is a header of sixteen bytes
    (next pointer, size in headers) and the bytes behind it.  sbrk() is a system
    call: its promise is the class [SbrkLaws]. *)

From S2P Require Import Prelude.
From S2P Require Import Bytes.
From S2P Require Import KString.
From S2P Require Import Words.

Module Umalloc.
Import Words.

(** the process: its memory, its size and the static freep *)
Record st := St {
  umem : mem;
  brk : Z;
  freep : Z;
}.
Definition mem_lens : lens st mem := Lens umem (fun m s => St m (brk s) (freep s)).
Definition set_freep (p : Z) : M st unit := modify (fun s => St (umem s) (brk s) p).

(** union header *)
Definition sizeof_Header : Z := 16.
Definition ptr (p : Z) : M st Z := load mem_lens 8 p.
Definition hsize (p : Z) : M st Z := load mem_lens 4 (p + 8).
Definition set_ptr (p v : Z) : M st unit := store mem_lens 8 p v.
Definition set_hsize (p v : Z) : M st unit := store mem_lens 4 (p + 8) v.
(** p + n of a Header pointer *)
Definition padd (p n : Z) : Z := u64 (p + sizeof_Header * n).

(** sbrk: grows the process by [n] bytes, or returns -1 and changes nothing *)
Class Sbrk := { sbrk : Z -> M st Z }.
Definition usable : Z := 2 ^ 28.
Definition grown (n r : Z) (s s' : st) : Prop :=
  r = brk s /\ freep s' = freep s /\ brk s' = brk s + n /\ brk s' < usable /\
  (forall k, k < brk s -> umem s' !! k = umem s !! k) /\ mapped (umem s') (brk s) (Z.to_nat n).
Class SbrkLaws `{Sbrk} : Prop := {
  sbrk_grows s n : 0 < n < 2 ^ 31 -> wp (sbrk n) (fun r s' => r = 2 ^ 64 - 1 /\ s' = s \/ grown n r s s') s
}.

Section umalloc.
Context `{Sbrk}.
(** the address of the static header *)
Context (base : Z).

Definition free_body (bp p : Z) : M st (Z + Z) :=
  nx ← ptr p;
  if (p <? bp) && (bp <? nx) then mret (inr p) else
  if (nx <=? p) && ((p <? bp) || (bp <? nx)) then mret (inr p) else mret (inl nx).

Definition free (ap : Z) : M st unit :=
  let bp := padd ap (-1) in
  fuel ← gets (fun s => S (S (base.size (umem s))));
  p ← gets freep;
  p ← loop fuel (free_body bp) p;
  bn ← hsize bp;
  nx ← ptr p;
  (if padd bp bn =? nx then
     n ← hsize nx;
     set_hsize bp (u32 (bn + n)) ;;
     q ← ptr nx;
     set_ptr bp q
   else set_ptr bp nx) ;;
  pn ← hsize p;
  (if padd p pn =? bp then
     n ← hsize bp;
     set_hsize p (u32 (pn + n)) ;;
     q ← ptr bp;
     set_ptr p q
   else set_ptr p bp) ;;
  set_freep p.

Definition morecore (nu : Z) : M st Z :=
  let nu := if nu <? 4096 then 4096 else nu in
  (* sbrk takes an int *)
  p ← sbrk (s32 (u64 (nu * sizeof_Header)));
  if p =? 2 ^ 64 - 1 then mret 0 else
  set_hsize p nu ;;
  free (padd p 1) ;;
  gets freep.

Definition malloc_body (nunits : Z) (v : Z * Z) : M st (Z * Z + Z) :=
  let '(prevp, p) := v in
  n ← hsize p;
  if nunits <=? n then
    (if n =? nunits then
       q ← ptr p;
       set_ptr prevp q ;;
       mret p
     else
       set_hsize p (u32 (n - nunits)) ;;
       n ← hsize p;
       let p := padd p n in
       set_hsize p nunits ;;
       mret p) ≫= fun p =>
    set_freep prevp ;;
    mret (inr (padd p 1))
  else
    f ← gets freep;
    more ← (if p =? f then p ← morecore nunits; mret (if p =? 0 then None else Some p) else mret (Some p));
    match more with
    | None => mret (inr 0)
    | Some p => q ← ptr p; mret (inl (p, q))
    end.

Definition malloc (nbytes : Z) : M st Z :=
  let nunits := u32 (u64 (nbytes + sizeof_Header - 1) / sizeof_Header + 1) in
  fuel ← gets (fun s => 2 * base.size (umem s) + 8)%nat;
  prevp ← gets freep;
  prevp ← (if prevp =? 0 then
             set_freep base ;;
             set_ptr base base ;;
             set_hsize base 0 ;;
             mret base
           else mret prevp);
  p ← ptr prevp;
  loop fuel (malloc_body nunits) (prevp, p).
End umalloc.

(** ** Headers in memory *)

Definition hdr (m : mem) (a q n : Z) : Prop := num 8 m a = Some q /\ num 4 m (a + 8) = Some n.
Definition far (a b : Z) : Prop := a + 16 <= b \/ b + 16 <= a.
Definition with_mem (m : mem) (s : st) : st := St m (brk s) (freep s).

Lemma hdr_ptr_eq m p q n v : hdr m p q n -> 0 <= v < 2 ^ 64 -> hdr (set_num 8 m p v) p v n.
Proof.
  intros [_ Hn] Hv. split; [rewrite num_set, Z.mod_small by done; done|]. by rewrite num_set_other by lia.
Qed.
Lemma hdr_ptr_ne m p a q n v : hdr m a q n -> far a p -> hdr (set_num 8 m p v) a q n.
Proof. intros [Hq Hn] [?|?]; split; rewrite num_set_other by lia; done. Qed.
Lemma hdr_size_eq m p q n v : hdr m p q n -> 0 <= v < 2 ^ 32 -> hdr (set_num 4 m (p + 8) v) p q v.
Proof. intros [Hq _] Hv. split; [by rewrite num_set_other by lia|]. by rewrite num_set, Z.mod_small. Qed.
Lemma hdr_size_ne m p a q n v : hdr m a q n -> far a p -> hdr (set_num 4 m (p + 8) v) a q n.
Proof. intros [Hq Hn] [?|?]; split; rewrite num_set_other by lia; done. Qed.
Lemma hdr_mapped m a : mapped m a 16 -> exists q n, hdr m a q n.
Proof.
  intros Hm. assert (is_Some (num 8 m a)) as [q Hq] by (apply num_mapped; intros i Hi; apply Hm; lia).
  assert (is_Some (num 4 m (a + 8))) as [n Hn].
  { apply num_mapped. intros i Hi. specialize (Hm (8 + i)%nat). rewrite Nat2Z.inj_add, Z.add_assoc in Hm. apply Hm. lia. }
  by exists q, n.
Qed.

Lemma wp_ptr p q n Q s : hdr (umem s) p q n -> Q q s -> wp (ptr p) Q s.
Proof. intros [Hq _] HQ. by eapply wp_load. Qed.
Lemma wp_hsize p q n Q s : hdr (umem s) p q n -> Q n s -> wp (hsize p) Q s.
Proof. intros [_ Hn] HQ. by eapply wp_load. Qed.
Lemma wp_set_ptr p q n v Q s : hdr (umem s) p q n -> Q tt (with_mem (set_num 8 (umem s) p v) s) -> wp (set_ptr p v) Q s.
Proof. intros [Hq _] HQ. apply wp_store; [by apply num_mapped|done]. Qed.
Lemma wp_set_hsize p q n v Q s : hdr (umem s) p q n -> Q tt (with_mem (set_num 4 (umem s) (p + 8) v) s) -> wp (set_hsize p v) Q s.
Proof. intros [_ Hn] HQ. apply wp_store; [by apply num_mapped|done]. Qed.

(** memory that differs at most where [P] holds, and is mapped where it was *)
Definition only (P : Z -> Prop) (m m' : mem) : Prop :=
  (forall k, ~ P k -> m' !! k = m !! k) /\ (forall k, is_Some (m !! k) -> is_Some (m' !! k)).
Lemma only_refl P m : only P m m.
Proof. done. Qed.
Lemma only_trans P m1 m2 m3 : only P m1 m2 -> only P m2 m3 -> only P m1 m3.
Proof. intros [H1 D1] [H2 D2]. split; [intros k Hk; by rewrite H2, H1|auto]. Qed.
Lemma only_set P n m a v : (forall k, a <= k < a + Z.of_nat n -> P k) -> mapped m a n -> only P m (set_num n m a v).
Proof.
  intros HP Hm. split.
  - intros k Hk. apply lookup_set_other. destruct (decide (a <= k < a + Z.of_nat n)) as [Hin|]; [by destruct Hk; apply HP|lia].
  - intros k Hk. unfold set_num. rewrite lookup_write_bytes, length_le. case_decide; [|done]. apply lookup_lt_is_Some. rewrite length_le. lia.
Qed.
Lemma only_mono (P P' : Z -> Prop) m m' : only P m m' -> (forall k, P k -> P' k) -> only P' m m'.
Proof. intros [H D] HP. split; [|done]. intros k Hk. apply H. auto. Qed.

(** ** The list *)

Section list.
Context (base : Z).

(** a block of [n] headers behind the static one, below [hi] *)
Definition block (hi a n : Z) : Prop := base + 16 <= a /\ 1 <= n /\ a + 16 * n <= hi.
(** the free blocks [F] (the static header among them) and the blocks in use [A]: apart from each other, no two free ones adjacent *)
Record layout (hi : Z) (F A : gmap Z Z) : Prop := {
  l_base : F !! base = Some 0;
  l_free : forall a n, F !! a = Some n -> a <> base -> block hi a n;
  l_apart : forall a n b k, F !! a = Some n -> F !! b = Some k -> a < b -> a + 16 * n < b;
  l_used : forall a n, A !! a = Some n -> block hi a n;
  l_disj : forall a n b k, A !! a = Some n -> A !! b = Some k -> a < b -> a + 16 * n <= b;
  l_sep : forall a n b k, A !! a = Some n -> F !! b = Some k -> b <> base -> a + 16 * n <= b \/ b + 16 * k <= a
}.
(** the address that follows [a] in the circular order of [D] *)
Definition nxt (D : gset Z) (a b : Z) : Prop :=
  b ∈ D /\ (a < b /\ (forall c, c ∈ D -> ~ a < c < b) \/ b = base /\ forall c, c ∈ D -> c <= a).

Ltac lookups :=
  repeat match goal with
  | H : <[_ := _]> _ !! _ = Some _ |- _ => apply lookup_insert_Some in H as [[? ?]|[? H]]; subst
  | H : delete _ _ !! _ = Some _ |- _ => apply lookup_delete_Some in H as [? H]
  | H1 : ?F !! ?a = Some ?x, H2 : ?F !! ?a = Some ?y |- _ => assert (x = y) by congruence; subst; clear H2
  end.
Ltac learn p := let T := type of p in lazymatch goal with _ : T |- _ => fail | _ => pose proof p end.

Lemma at_free hi F A a n : layout hi F A -> F !! a = Some n -> a = base /\ n = 0 \/ base + 16 <= a /\ 1 <= n /\ a + 16 * n <= hi.
Proof.
  intros L Ha. destruct (decide (a = base)) as [->|Hne]; [left|right; by apply (l_free _ _ _ L)].
  split; [done|]. pose proof (l_base _ _ _ L). congruence.
Qed.
Lemma two_free hi F A a n b k : layout hi F A -> F !! a = Some n -> F !! b = Some k ->
  a = b \/ a + 16 * n < b /\ a + 16 <= b \/ b + 16 * k < a /\ b + 16 <= a.
Proof.
  intros L Ha Hb. destruct (at_free _ _ _ _ _ L Ha), (at_free _ _ _ _ _ L Hb); [lia..|].
  destruct (Z.lt_trichotomy a b) as [Hlt|[|Hlt]]; [|lia|].
  - pose proof (l_apart _ _ _ L a n b k Ha Hb Hlt). lia.
  - pose proof (l_apart _ _ _ L b k a n Hb Ha Hlt). lia.
Qed.
Lemma two_used hi F A a n b k : layout hi F A -> A !! a = Some n -> A !! b = Some k ->
  a = b \/ a + 16 * n <= b \/ b + 16 * k <= a.
Proof.
  intros L Ha Hb. destruct (Z.lt_trichotomy a b) as [Hlt|[|Hlt]]; [|lia|].
  - pose proof (l_disj _ _ _ L a n b k Ha Hb Hlt). lia.
  - pose proof (l_disj _ _ _ L b k a n Hb Ha Hlt). lia.
Qed.
Lemma used_free hi F A a n b k : layout hi F A -> A !! a = Some n -> F !! b = Some k ->
  a + 16 * n <= b /\ b <> base \/ b + 16 * k <= a /\ b + 16 <= a.
Proof.
  intros L Ha Hb. pose proof (l_used _ _ _ L _ _ Ha) as Hu. unfold block in Hu.
  destruct (at_free _ _ _ _ _ L Hb) as [[-> ->]|Hf]; [lia|]. pose proof (l_sep _ _ _ L a n b k Ha Hb). lia.
Qed.
(** all the facts of a layout about the blocks at hand *)
Ltac facts L :=
  lazymatch type of L with layout ?hi ?F ?A =>
    repeat match goal with
    | H : F !! ?a = Some ?n |- _ => learn (at_free hi F A a n L H)
    | H : A !! ?a = Some ?n |- _ => learn (l_used hi F A L a n H)
    | H1 : F !! ?a = Some ?n, H2 : F !! ?b = Some ?k |- _ =>
        lazymatch goal with
        | _ : b = a \/ b + 16 * k < a /\ _ \/ _ |- _ => fail
        | _ => tryif constr_eq a b then fail else learn (two_free hi F A a n b k L H1 H2)
        end
    | H1 : A !! ?a = Some ?n, H2 : A !! ?b = Some ?k |- _ =>
        lazymatch goal with
        | _ : b = a \/ b + 16 * k <= a \/ _ |- _ => fail
        | _ => tryif constr_eq a b then fail else learn (two_used hi F A a n b k L H1 H2)
        end
    | H1 : A !! ?a = Some ?n, H2 : F !! ?b = Some ?k |- _ => learn (used_free hi F A a n b k L H1 H2)
    end
  end; unfold block in *.
Ltac hyp H := repeat match goal with H1 : _ !! _ = Some _ |- _ => learn (H _ _ H1) end.
Ltac lay L := constructor; intros; lookups; facts L; unfold block in *; try lia.

(** the two blocks that become one when [bp] is given back before the free block behind it *)
Lemma lay_absorb hi F A bp n k : layout hi F A -> A !! bp = Some n -> F !! (bp + 16 * n) = Some k ->
  layout hi (delete (bp + 16 * n) F) (<[bp := n + k]> A).
Proof.
  intros L Hb Hk. pose proof (l_base _ _ _ L) as H0. lay L.
  rewrite lookup_delete_ne; [done|lia].
Qed.
Lemma lay_give hi F A bp n : layout hi F A -> A !! bp = Some n -> F !! (bp + 16 * n) = None ->
  (forall p k, F !! p = Some k -> p + 16 * k <> bp) -> layout hi (<[bp := n]> F) (delete bp A).
Proof.
  intros L Hb Hn Hp. pose proof (l_base _ _ _ L) as H0.
  assert (forall b k, F !! b = Some k -> b <> bp + 16 * n) as Hn' by (intros b k Hk ->; congruence).
  lay L.
  - rewrite lookup_insert_ne; [done|lia].
  - hyp Hp. lia.
  - hyp Hn'. lia.
Qed.
Lemma lay_join hi F A bp n p k : layout hi F A -> A !! bp = Some n -> F !! (bp + 16 * n) = None ->
  F !! p = Some k -> p + 16 * k = bp -> layout hi (<[p := k + n]> F) (delete bp A).
Proof.
  intros L Hb Hn Hp E. pose proof (l_base _ _ _ L) as H0.
  assert (forall b x, F !! b = Some x -> b <> bp + 16 * n) as Hn' by (intros b x Hx ->; congruence).
  facts L. lay L.
  - rewrite lookup_insert_ne; [done|lia].
  - hyp Hn'. lia.
Qed.
Lemma lay_take hi F A p n : layout hi F A -> F !! p = Some n -> p <> base -> layout hi (delete p F) (<[p := n]> A).
Proof.
  intros L Hp Hne. pose proof (l_base _ _ _ L) as H0. lay L. by rewrite lookup_delete_ne.
Qed.
Lemma lay_split hi F A p n nu : layout hi F A -> F !! p = Some n -> 1 <= nu < n ->
  layout hi (<[p := n - nu]> F) (<[p + 16 * (n - nu) := nu]> A).
Proof.
  intros L Hp Hnu. pose proof (l_base _ _ _ L) as H0. lay L. rewrite lookup_insert_ne; [done|]. intros ->. lia.
Qed.
Lemma lay_grow hi F A n : layout hi F A -> 1 <= n -> base + 16 <= hi -> layout (hi + 16 * n) F (<[hi := n]> A).
Proof. intros L Hn Hhi. pose proof (l_base _ _ _ L) as H0. lay L. done. Qed.

(** ** The order of the list *)

Lemma nxt_unique D a b b' : nxt D a b -> nxt D a b' -> base ∈ D -> b = b'.
Proof.
  intros [Hb [[Hab Hno]|[-> Hle]]] [Hb' [[Hab' Hno']|[-> Hle']]] H0; [| | |done].
  - specialize (Hno _ Hb'). specialize (Hno' _ Hb). lia.
  - specialize (Hle' _ Hb). lia.
  - specialize (Hle _ Hb'). lia.
Qed.
Ltac un := apply elem_of_union; first [by right | left; by apply elem_of_singleton].
Lemma nxt_insert D p bp nx : nxt D p nx -> p ∈ D -> p < bp -> bp < nx \/ nx = base ->
  (forall c, c ∈ D -> base <= c) ->
  nxt ({[bp]} ∪ D) p bp /\ nxt ({[bp]} ∪ D) bp nx /\ forall a b, a ∈ D -> a <> p -> nxt D a b -> nxt ({[bp]} ∪ D) a b.
Proof.
  intros [Hnx Hp] Hpin Hlt Hnb Hb. assert (bp < nx /\ (forall c, c ∈ D -> ~ p < c < nx) \/ nx = base /\ forall c, c ∈ D -> c <= p) as Hc.
  { destruct Hp as [[? Hno]|[-> Hle]]; [|by right]. destruct Hnb as [?| ->]; [by left|]. specialize (Hb _ Hpin). lia. }
  split; [|split].
  - split; [un|]. left. split; [done|]. intros c [->%elem_of_singleton|Hin]%elem_of_union; [lia|].
    destruct Hc as [[? Hno]|[-> Hle]]; [specialize (Hno _ Hin); lia|specialize (Hle _ Hin); lia].
  - split; [un|]. destruct Hc as [[? Hno]|[-> Hle]].
    + left. split; [done|]. intros c [->%elem_of_singleton|Hin]%elem_of_union; [lia|]. specialize (Hno _ Hin). lia.
    + right. split; [done|]. intros c [->%elem_of_singleton|Hin]%elem_of_union; [lia|]. specialize (Hle _ Hin). lia.
  - intros a b Ha Hap [Hbn Hab]. split; [un|]. destruct Hab as [[? Hno']|[-> Hle']].
    + left. split; [done|]. intros c [->%elem_of_singleton|Hin]%elem_of_union; [|by apply Hno'].
      intros Hcb. destruct Hc as [[? Hno]|[-> Hle]].
      * pose proof (Hno _ Hbn). pose proof (Hno' _ Hnx). specialize (Hno' _ Hpin). specialize (Hno _ Ha). lia.
      * specialize (Hle _ Hbn). lia.
    + right. split; [done|]. intros c [->%elem_of_singleton|Hin]%elem_of_union; [|by apply Hle'].
      destruct Hc as [[? Hno]|[-> Hle]]; [specialize (Hle' _ Hnx); lia|]. specialize (Hle _ Ha). specialize (Hle' _ Hpin). lia.
Qed.
Lemma nxt_delete D p x nx : nxt D p x -> nxt D x nx -> x <> base -> base ∈ D -> p ∈ D -> x ∈ D ->
  nxt (D ∖ {[x]}) p nx /\ forall a b, a ∈ D -> a <> p -> a <> x -> nxt D a b -> nxt (D ∖ {[x]}) a b.
Proof.
  intros [_ [[Hpx Hno]|[? _]]] Hxn Hx H0 Hp Hxin; [|done]. split.
  - destruct Hxn as [Hn Hc]. split; [apply elem_of_difference; split; [done|]; intros ->%elem_of_singleton; destruct Hc as [[? _]|[? _]]; [lia|done]|].
    destruct Hc as [[Hlt Hno']|[-> Hle]].
    + left. split; [lia|]. intros c [Hin Hne]%elem_of_difference. specialize (Hno _ Hin). specialize (Hno' _ Hin).
      rewrite elem_of_singleton in Hne. lia.
    + right. split; [done|]. intros c [Hin Hne]%elem_of_difference. specialize (Hno _ Hin). specialize (Hle _ Hin).
      rewrite elem_of_singleton in Hne. lia.
  - intros a b Ha Hap Hax [Hb Hc]. destruct (decide (b = x)) as [->|Hbx].
    { destruct Hc as [[Hlt Hno']|[? _]]; [|done]. specialize (Hno _ Ha). specialize (Hno' _ Hp). lia. }
    split; [apply elem_of_difference; split; [done|by rewrite elem_of_singleton]|].
    destruct Hc as [[Hlt Hno']|[-> Hle]]; [left|right]; (split; [done|]); intros c [Hin _]%elem_of_difference; auto.
Qed.
(** the steps left from [p] until [q] comes up *)
Definition dist (D : gset Z) (q p : Z) : nat :=
  if decide (p <= q) then size (filter (fun c => p < c <= q)%Z D)
  else (size (filter (fun c => p < c)%Z D) + 1 + size (filter (fun c => c <= q)%Z D))%nat.
Lemma dist_step D p q nx : nxt D p nx -> base ∈ D -> base <= q -> (p < nx -> ~ p < q < nx) -> (nx <= p -> q <= p) -> p <> q ->
  (dist D q nx < dist D q p)%nat.
Proof.
  intros [Hn Hc] H0 Hb Hq1 Hq2 Hpq. unfold dist.
  assert (forall (P Q : Z -> Prop) `(forall x, Decision (P x)) `(forall x, Decision (Q x)) x,
    x ∈ D -> Q x -> ~ P x -> (forall c, P c -> Q c) -> (size (filter P D) < size (filter Q D))%nat) as Hsub.
  { intros P Q ? ? x Hx HQ HP HPQ. apply subset_size. split.
    - intros c [Hc1 Hc2]%elem_of_filter. apply elem_of_filter. auto.
    - intros Hs. assert (x ∈ filter P D) as [? _]%elem_of_filter; [|done]. apply Hs. by apply elem_of_filter. }
  destruct Hc as [[Hlt Hno]|[-> Hle]].
  - specialize (Hq1 Hlt). repeat case_decide; try lia.
    + apply (Hsub _ _ _ _ nx); [done|lia..].
    + assert (size (filter (fun c => nx < c)%Z D) < size (filter (fun c => p < c)%Z D))%nat; [|lia]. apply (Hsub _ _ _ _ nx); [done|lia..].
  - assert (q <= p) by (destruct (Z.le_gt_cases base p); [auto|specialize (Hle _ H0); lia]). repeat case_decide; try lia.
    assert (size (filter (fun c => base < c <= q)%Z D) <= size (filter (fun c => c <= q)%Z D))%nat; [|lia].
    apply subseteq_size. intros c [Hc1 Hc2]%elem_of_filter. apply elem_of_filter. split; [lia|done].
Qed.

(** ** The invariant *)

(** the bytes of the free blocks *)
Definition cov (F : gmap Z Z) (k : Z) : Prop := exists a n, F !! a = Some n /\ a <= k < a + 16 * n.
Definition link (m : mem) (D : gset Z) (a n : Z) : Prop := exists b, hdr m a b n /\ nxt D a b.
Record inv (s : st) (F A : gmap Z Z) : Prop := {
  i_lay : layout (brk s) F A;
  i_link : forall a n, F !! a = Some n -> link (umem s) (dom F) a n;
  i_size : forall a n, A !! a = Some n -> num 4 (umem s) (a + 8) = Some n;
  i_map : forall a n, F !! a = Some n \/ A !! a = Some n -> mapped (umem s) a (Z.to_nat (16 * n));
  i_freep : freep s ∈ dom F;
  i_brk : base + 16 <= brk s < usable
}.
(** the list while [bp] is being put behind [p]: the entries of both are still open *)
Record half (s : st) (F A : gmap Z Z) (p bp n nx : Z) : Prop := {
  h_lay : layout (brk s) F A;
  h_bp : A !! bp = Some n;
  h_gap : F !! (bp + 16 * n) = None;
  h_p : p ∈ dom F;
  h_nxt : nxt (dom F) p nx;
  h_lt : p < bp /\ (bp < nx \/ nx = base);
  h_hbp : hdr (umem s) bp nx n;
  h_hp : forall k, F !! p = Some k -> exists q, hdr (umem s) p q k;
  h_link : forall a k, F !! a = Some k -> a <> p -> link (umem s) (dom F) a k;
  h_size : forall a k, A !! a = Some k -> num 4 (umem s) (a + 8) = Some k;
  h_map : forall a k, F !! a = Some k \/ A !! a = Some k -> mapped (umem s) a (Z.to_nat (16 * k));
  h_brk : base + 16 <= brk s < usable
}.

Lemma dom_at (F : gmap Z Z) a : a ∈ dom F <-> exists n, F !! a = Some n.
Proof. by rewrite elem_of_dom. Qed.
Lemma dom_base hi F A a : layout hi F A -> a ∈ dom F -> base <= a.
Proof. intros L [n Hn]%dom_at. facts L. lia. Qed.
Lemma base_in hi F A : layout hi F A -> base ∈ dom F.
Proof. intros L. apply dom_at. eexists. apply (l_base _ _ _ L). Qed.
Lemma size_dist D q p : (dist D q p <= S (size D))%nat.
Proof.
  unfold dist. case_decide.
  - assert (size (filter (fun c => p < c <= q)%Z D) <= size D)%nat; [|lia]. apply subseteq_size. intros c [_ ?]%elem_of_filter. done.
  - rewrite Nat.add_1_r, Nat.add_succ_l. apply le_n_S. rewrite <-size_union.
    + apply subseteq_size. intros c [[_ ?]%elem_of_filter|[_ ?]%elem_of_filter]%elem_of_union; done.
    + intros c [? _]%elem_of_filter [? _]%elem_of_filter. lia.
Qed.
Lemma inv_size s F A : inv s F A -> (size (dom F) <= base.size (umem s))%nat.
Proof.
  intros I. rewrite <-(size_dom (D := gset Z) (umem s)). apply subseteq_size. intros a [n Hn]%dom_at. apply elem_of_dom.
  destruct (i_link _ _ _ I _ _ Hn) as (b & [Hq _] & _). assert (mapped (umem s) a 8) as Hm by (apply num_mapped; eauto).
  specialize (Hm 0%nat). rewrite Z.add_0_r in Hm. apply Hm. lia.
Qed.
Lemma far_free hi F A a n b k : layout hi F A -> F !! a = Some n -> F !! b = Some k -> a <> b -> far a b.
Proof. intros L Ha Hb Hne. unfold far. facts L. lia. Qed.
Lemma far_used hi F A a n b k : layout hi F A -> A !! a = Some n -> A !! b = Some k -> a <> b -> far a b.
Proof. intros L Ha Hb Hne. unfold far. facts L. lia. Qed.
Lemma far_both hi F A a n b k : layout hi F A -> A !! a = Some n -> F !! b = Some k -> far a b.
Proof. intros L Ha Hb. unfold far. facts L. lia. Qed.

Lemma walk s F A bp n fuel : inv s F A -> A !! bp = Some n -> (S (size (dom F)) < fuel)%nat ->
  wp (loop fuel (free_body bp) (freep s)) (fun p s' => s' = s /\ p ∈ dom F /\ p < bp /\
    exists nx, nxt (dom F) p nx /\ (bp < nx \/ nx = base)) s.
Proof.
  intros I Hbp Hf. pose proof (i_lay _ _ _ I) as L. pose proof (l_used _ _ _ L _ _ Hbp) as Hu. unfold block in Hu.
  assert (bp ∉ dom F) as Hnin. { intros [k Hk]%dom_at. pose proof (far_both _ _ _ _ _ _ _ L Hbp Hk) as X. unfold far in X. lia. }
  eapply (wp_loop _ _ _ _ _ (fun p s' => s' = s /\ p ∈ dom F) (dist (dom F) bp)).
  - split; [done|apply (i_freep _ _ _ I)].
  - pose proof (size_dist (dom F) bp (freep s)). lia.
  - intros p s' [-> Hp]. unfold free_body. wp_step. destruct (proj1 (dom_at _ _) Hp) as [k Hk].
    destruct (i_link _ _ _ I _ _ Hk) as (nx & Hh & Hn). eapply wp_ptr; [exact Hh|].
    pose proof (dom_base _ _ _ _ L Hp) as Hbp0. pose proof (dom_base _ _ _ _ L (proj1 Hn)) as Hbn0.
    assert (p <> bp) as Hne by (intros ->; done). assert (nx <> bp) as Hnne by (intros ->; by destruct Hn).
    destruct (Z.ltb_spec p bp), (Z.ltb_spec bp nx), (Z.leb_spec nx p); cbn [andb orb]; wp_steps; try lia;
      try (split; [done|]; split; [done|]; split; [lia|]; exists nx; split; [done|]; lia).
    + split; [done|]. split; [done|]. split; [lia|]. exists nx. split; [done|right].
      destruct Hn as [_ [[? _]|[? _]]]; [lia|done].
    + split; [split; [done|by destruct Hn]|]. eapply dist_step; [exact Hn|by eapply base_in|lia..].
    + destruct Hn as [_ [[? _]|[-> _]]]; lia.
    + split; [split; [done|by destruct Hn]|]. eapply dist_step; [exact Hn|by eapply base_in|lia..].
    + split; [split; [done|by destruct Hn]|]. eapply dist_step; [exact Hn|by eapply base_in|lia..].
Qed.

(** a store into the header at [x] *)
Inductive store_at (x : Z) (m : mem) : mem -> Prop :=
| store_ptr v : store_at x m (set_num 8 m x v)
| store_size v : store_at x m (set_num 4 m (x + 8) v).
Lemma store_hdr x m m' a q n : store_at x m m' -> hdr m a q n -> far a x -> hdr m' a q n.
Proof. intros [v|v] Hh Hf; [by apply hdr_ptr_ne|by apply hdr_size_ne]. Qed.
Lemma store_link x m m' D a n : store_at x m m' -> link m D a n -> far a x -> link m' D a n.
Proof. intros Hs (b & Hh & Hn) Hf. exists b. split; [by eapply store_hdr|done]. Qed.
Lemma store_num x m m' a n : store_at x m m' -> num 4 m (a + 8) = Some n -> far a x -> num 4 m' (a + 8) = Some n.
Proof. intros [v|v] Hn [?|?]; rewrite num_set_other by lia; done. Qed.
Lemma store_mapped x m m' a n : store_at x m m' -> mapped m a n -> mapped m' a n.
Proof. intros [v|v]; apply mapped_set. Qed.
Lemma store_only x m m' q n : store_at x m m' -> hdr m x q n -> only (fun k => x <= k < x + 16) m m'.
Proof. intros Hs [Hq Hn]. destruct Hs as [v|v]; apply only_set; try (intros k Hk; lia); apply num_mapped; eauto. Qed.
Lemma mapped_join m a n k : mapped m a (Z.to_nat (16 * n)) -> mapped m (a + 16 * n) (Z.to_nat (16 * k)) -> 0 <= n -> 0 <= k ->
  mapped m a (Z.to_nat (16 * (n + k))).
Proof.
  intros H1 H2 Hn Hk i Hi. destruct (decide (i < Z.to_nat (16 * n))%nat); [by apply H1|].
  specialize (H2 (i - Z.to_nat (16 * n))%nat). rewrite Nat2Z.inj_sub, Z2Nat.id in H2 by lia.
  replace (a + 16 * n + (Z.of_nat i - 16 * n)) with (a + Z.of_nat i) in H2 by lia. apply H2. lia.
Qed.
Lemma mapped_part m a n b k : mapped m a (Z.to_nat (16 * n)) -> a <= b -> b + 16 * k <= a + 16 * n -> mapped m b (Z.to_nat (16 * k)).
Proof.
  intros H Hab Hbk i Hi. specialize (H (Z.to_nat (b - a) + i)%nat). rewrite Nat2Z.inj_add, Z2Nat.id in H by lia.
  replace (a + (b - a + Z.of_nat i)) with (b + Z.of_nat i) in H by lia. apply H. lia.
Qed.
Lemma used_hdr m a n : 1 <= n -> mapped m a (Z.to_nat (16 * n)) -> num 4 m (a + 8) = Some n -> mapped m a 16 /\ exists q, hdr m a q n.
Proof.
  intros Hn Hm Hs. assert (mapped m a 16) as H16 by (apply (mapped_part m a n a 1 Hm); lia). split; [done|].
  destruct (hdr_mapped m a H16) as (q & n' & [Hq _]). by exists q.
Qed.
Lemma padd_in p n : 0 <= p + 16 * n < 2 ^ 64 -> padd p n = p + 16 * n.
Proof. intros H. unfold padd, sizeof_Header, u64. by apply Z.mod_small. Qed.

Context (base_pos : 0 < base).

Lemma half_plain s F A bp n p nx m' : inv s F A -> A !! bp = Some n -> p ∈ dom F -> p < bp -> nxt (dom F) p nx -> bp < nx \/ nx = base ->
  F !! (bp + 16 * n) = None -> store_at bp (umem s) m' -> hdr m' bp nx n -> half (with_mem m' s) F A p bp n nx.
Proof.
  intros I Hbp Hp Hlt Hnx Hgt Hgap Hs Hh. pose proof (i_lay _ _ _ I) as L.
  assert (forall a k, F !! a = Some k -> link m' (dom F) a k) as Hl.
  { intros a k Ha. eapply store_link; [exact Hs|by apply (i_link _ _ _ I)|]. pose proof (far_both _ _ _ _ _ _ _ L Hbp Ha). unfold far in *. lia. }
  constructor; cbn [umem brk with_mem]; try done.
  - intros k Hk. destruct (Hl _ _ Hk) as (b & ? & _). by exists b.
  - intros a k Ha _. by apply Hl.
  - intros a k Ha. destruct (decide (a = bp)) as [->|Hne]; [destruct Hh; congruence|].
    eapply store_num; [exact Hs|by apply (i_size _ _ _ I)|by eapply far_used].
  - intros a k Hak. eapply store_mapped; [exact Hs|by apply (i_map _ _ _ I)].
  - apply (i_brk _ _ _ I).
Qed.
Lemma half_join s F A bp n p k q m1 m' : inv s F A -> A !! bp = Some n -> p ∈ dom F -> p < bp -> nxt (dom F) p (bp + 16 * n) ->
  F !! (bp + 16 * n) = Some k -> nxt (dom F) (bp + 16 * n) q ->
  store_at bp (umem s) m1 -> store_at bp m1 m' -> hdr m' bp q (n + k) ->
  half (with_mem m' s) (delete (bp + 16 * n) F) (<[bp := n + k]> A) p bp (n + k) q.
Proof.
  intros I Hbp Hp Hlt Hnx Hk Hq Hs1 Hs2 Hh. pose proof (i_lay _ _ _ I) as L. pose proof (lay_absorb _ _ _ _ _ _ L Hbp Hk) as L'.
  pose proof (base_in _ _ _ L) as H0. facts L.
  destruct (nxt_delete (dom F) p (bp + 16 * n) q Hnx Hq) as [Hn Ho]; [lia|done|done|by eapply elem_of_dom_2|].
  assert (forall a x, F !! a = Some x -> far a bp) as Hf.
  { intros a x Ha. pose proof (far_both _ _ _ _ _ _ _ L Hbp Ha). unfold far in *. lia. }
  constructor; cbn [umem brk with_mem]; try done.
  - by rewrite lookup_insert_eq.
  - destruct (delete _ F !! _) as [x|] eqn:E; [|done]. lookups. facts L. lia.
  - rewrite dom_delete_L. apply elem_of_difference. split; [done|]. rewrite elem_of_singleton. lia.
  - by rewrite dom_delete_L.
  - split; [done|]. destruct Hq as [_ [[? _]|[-> _]]]; [left; lia|by right].
  - intros x Hx. lookups. destruct (i_link _ _ _ I _ _ Hx) as (b & Hb & _). exists b.
    eapply store_hdr; [exact Hs2| |by eapply Hf]. eapply store_hdr; [exact Hs1|done|by eapply Hf].
  - intros a x Hx Hap. lookups. rewrite dom_delete_L. destruct (i_link _ _ _ I _ _ Hx) as (b & Hb & Hab). exists b. split.
    + eapply store_hdr; [exact Hs2| |by eapply Hf]. eapply store_hdr; [exact Hs1|done|by eapply Hf].
    + apply Ho; [by eapply elem_of_dom_2|done|done|done].
  - intros a x Hx. lookups; [by destruct Hh|]. pose proof (far_used _ _ _ _ _ _ _ L Hx Hbp ltac:(lia)) as Hfa.
    eapply store_num; [exact Hs2| |done]. eapply store_num; [exact Hs1|by apply (i_size _ _ _ I)|done].
  - intros a x Hx. eapply store_mapped; [exact Hs2|]. eapply store_mapped; [exact Hs1|]. destruct Hx as [Hx|Hx]; lookups.
    + apply (i_map _ _ _ I). by left.
    + apply mapped_join; [apply (i_map _ _ _ I); by right|apply (i_map _ _ _ I); by left|lia|lia].
    + apply (i_map _ _ _ I). by right.
  - apply (i_brk _ _ _ I).
Qed.
Lemma cov_delete hi F A x k z : layout hi F A -> F !! x = Some k -> cov F z <-> cov (delete x F) z \/ x <= z < x + 16 * k.
Proof.
  intros L Hx. split.
  - intros (a & n & Ha & Hz). destruct (decide (a = x)) as [->|Hne]; [right; by lookups|]. left. exists a, n. by rewrite lookup_delete_ne.
  - intros [(a & n & Ha & Hz)|Hz]; [|by exists x, k]. lookups. by exists a, n.
Qed.
Lemma cov_insert (F : gmap Z Z) x k z : F !! x = None -> cov (<[x := k]> F) z <-> cov F z \/ x <= z < x + 16 * k.
Proof.
  intros Hx. split.
  - intros (a & n & Ha & Hz). lookups; [by right|]. left. by exists a, n.
  - intros [(a & n & Ha & Hz)|Hz].
    + exists a, n. rewrite lookup_insert_ne; [done|]. intros ->. congruence.
    + exists x, k. by rewrite lookup_insert_eq.
Qed.

Lemma join_next s F A bp n p nx : inv s F A -> A !! bp = Some n -> p ∈ dom F -> p < bp -> nxt (dom F) p nx -> bp < nx \/ nx = base ->
  wp (if padd bp n =? nx then
        k ← hsize nx;
        set_hsize bp (u32 (n + k)) ;;
        q ← ptr nx;
        set_ptr bp q
      else set_ptr bp nx)
    (fun _ s' => exists F1 n1 nx1, half s' F1 (<[bp := n1]> A) p bp n1 nx1 /\ brk s' = brk s /\ n <= n1 /\ (dom F1 : gset Z) ⊆ dom F /\
      only (fun k => bp <= k < bp + 16) (umem s) (umem s') /\
      forall k, cov F1 k \/ bp <= k < bp + 16 * n1 <-> cov F k \/ bp <= k < bp + 16 * n) s.
Proof.
  intros I Hbp Hp Hlt Hnx Hgt. pose proof (i_lay _ _ _ I) as L. pose proof (i_brk _ _ _ I) as Hbrk. unfold usable in Hbrk.
  pose proof (l_used _ _ _ L _ _ Hbp) as Hu. unfold block in Hu. rewrite padd_in by lia.
  destruct (used_hdr (umem s) bp n) as (H16 & q0 & Hh); [lia|apply (i_map _ _ _ I); by right|by apply (i_size _ _ _ I)|].
  destruct (proj1 (dom_at _ _) Hp) as [pn Hpn].
  destruct (Z.eqb_spec (bp + 16 * n) nx) as [E|Hne].
  - subst nx. destruct (proj1 (dom_at _ _) (proj1 Hnx)) as [k Hk]. destruct (i_link _ _ _ I _ _ Hk) as (q & Hhx & Hq).
    facts L. assert (far (bp + 16 * n) bp) as Hf by (unfold far; lia).
    assert (exists r, F !! q = Some r) as [r Hr] by (apply dom_at; apply Hq). facts L.
    wp_step. eapply wp_hsize; [exact Hhx|]. wp_step.
    eapply wp_set_hsize; [exact Hh|]. unfold u32. rewrite Z.mod_small by lia. wp_step.
    eapply wp_ptr; [cbn [umem with_mem]; apply hdr_size_ne; [exact Hhx|done]|]. eapply wp_set_ptr; [cbn [umem with_mem]; eapply hdr_size_eq; [exact Hh|lia]|].
    cbn [umem with_mem brk freep]. eexists _, (n + k), q. split; [|split; [done|]; split; [lia|]; split; [rewrite dom_delete_L; by apply subseteq_difference_l|]; split].
    + eapply (half_join s F A bp n p k q); try done; [apply store_size|apply store_ptr|].
      eapply hdr_ptr_eq; [eapply hdr_size_eq; [exact Hh|lia]|lia].
    + eapply only_trans; eapply store_only; [apply store_size|exact Hh|apply store_ptr|eapply hdr_size_eq; [exact Hh|lia]].
    + intros z. rewrite (cov_delete _ F A _ _ z L Hk).
      assert (bp <= z < bp + 16 * (n + k) <-> bp <= z < bp + 16 * n \/ bp + 16 * n <= z < bp + 16 * n + 16 * k) as -> by lia. clear; tauto.
  - eapply wp_set_ptr; [exact Hh|]. exists F, n, nx. rewrite insert_id by done.
    assert (exists r, F !! nx = Some r) as [r Hr] by (apply dom_at; apply Hnx). facts L.
    split; [|split; [done|]; split; [lia|]; split; [done|]; split; [eapply store_only; [apply store_ptr|exact Hh]|done]].
    eapply half_plain; try done; [|apply store_ptr|apply (hdr_ptr_eq _ _ _ _ _ Hh); lia].
    destruct (F !! (bp + 16 * n)) as [x|] eqn:E; [|done]. facts L.
    exfalso. destruct Hnx as [_ [[? Hno]|[-> Hle]]].
    + specialize (Hno (bp + 16 * n) ltac:(by eapply elem_of_dom_2)). lia.
    + specialize (Hle (bp + 16 * n) ltac:(by eapply elem_of_dom_2)). lia.
Qed.

Lemma half_fresh s F A p bp n nx : half s F A p bp n nx -> F !! bp = None /\ bp ∉ dom F.
Proof.
  intros H. pose proof (h_lay _ _ _ _ _ _ _ H) as L. pose proof (h_bp _ _ _ _ _ _ _ H) as Hbp.
  assert (F !! bp = None) as E; [|split; [done|by apply not_elem_of_dom]].
  destruct (F !! bp) as [k|] eqn:E; [|done]. exfalso. facts L. lia.
Qed.
Lemma inv_join s F A p bp n nx pn q m1 m' : half s F A p bp n nx -> F !! p = Some pn -> p + 16 * pn = bp -> hdr (umem s) p q pn ->
  store_at p (umem s) m1 -> store_at p m1 m' -> hdr m' p nx (pn + n) ->
  inv (St m' (brk s) p) (<[p := pn + n]> F) (delete bp A).
Proof.
  intros H Hpn E Hh Hs1 Hs2 Hh'. pose proof (h_lay _ _ _ _ _ _ _ H) as L. pose proof (h_bp _ _ _ _ _ _ _ H) as Hbp.
  pose proof (lay_join _ _ _ _ _ _ _ L Hbp (h_gap _ _ _ _ _ _ _ H) Hpn E) as L'.
  assert ((dom (<[p := pn + n]> F) : gset Z) = dom F) as Ed.
  { rewrite dom_insert_L. apply set_eq. intros x. rewrite elem_of_union, elem_of_singleton. split; [|by right].
    intros [->|?]; [apply dom_at; by exists pn|done]. }
  constructor; cbn [umem brk freep]; rewrite ?Ed; [done| | | |by eapply elem_of_dom_2|apply (h_brk _ _ _ _ _ _ _ H)].
  - intros a k Ha. lookups; [exists nx; split; [done|apply (h_nxt _ _ _ _ _ _ _ H)]|].
    eapply store_link; [exact Hs2| |by apply (far_free _ _ _ _ _ _ _ L ltac:(eassumption) Hpn)]. eapply store_link; [exact Hs1| |by apply (far_free _ _ _ _ _ _ _ L ltac:(eassumption) Hpn)].
    apply (h_link _ _ _ _ _ _ _ H); [done|lia].
  - intros a k Ha. lookups. eapply store_num; [exact Hs2| |first [exact (far_both _ _ _ _ _ _ _ L ltac:(eassumption) Hpn)]]. eapply store_num; [exact Hs1| |first [exact (far_both _ _ _ _ _ _ _ L ltac:(eassumption) Hpn)]].
    by apply (h_size _ _ _ _ _ _ _ H).
  - intros a k Ha. eapply store_mapped; [exact Hs2|]. eapply store_mapped; [exact Hs1|]. destruct Ha as [Ha|Ha]; lookups.
    + facts L. apply mapped_join; [apply (h_map _ _ _ _ _ _ _ H); by left| |lia|lia]. apply (h_map _ _ _ _ _ _ _ H). by right.
    + apply (h_map _ _ _ _ _ _ _ H). by left.
    + apply (h_map _ _ _ _ _ _ _ H). by right.
Qed.
Lemma inv_give s F A p bp n nx pn q m' : half s F A p bp n nx -> F !! p = Some pn -> p + 16 * pn <> bp -> hdr (umem s) p q pn ->
  store_at p (umem s) m' -> hdr m' p bp pn -> inv (St m' (brk s) p) (<[bp := n]> F) (delete bp A) /\ nxt (dom (<[bp := n]> F)) p bp.
Proof.
  intros H Hpn E Hh Hs Hh'. pose proof (h_lay _ _ _ _ _ _ _ H) as L. pose proof (h_bp _ _ _ _ _ _ _ H) as Hbp.
  destruct (h_lt _ _ _ _ _ _ _ H) as [Hlt Hgt]. pose proof (h_nxt _ _ _ _ _ _ _ H) as Hnx. destruct (half_fresh _ _ _ _ _ _ _ H) as [Hfr Hfrd].
  destruct (nxt_insert (dom F) p bp nx Hnx (h_p _ _ _ _ _ _ _ H) Hlt Hgt) as (N1 & N2 & N3). { intros c. by eapply dom_base. }
  assert (layout (brk s) (<[bp := n]> F) (delete bp A)) as L'.
  { apply lay_give; [done|done|apply (h_gap _ _ _ _ _ _ _ H)|]. intros a k Ha Hak. destruct (decide (a = p)) as [->|Hne]; [congruence|].
    destruct Hnx as [_ [[? Hno]|[_ Hle]]].
    - specialize (Hno a ltac:(by eapply elem_of_dom_2)). facts L. lia.
    - specialize (Hle a ltac:(by eapply elem_of_dom_2)). facts L. lia. }
  rewrite dom_insert_L. split; [|done].
  constructor; cbn [umem brk freep]; rewrite ?dom_insert_L; [done| | | | |apply (h_brk _ _ _ _ _ _ _ H)].
  - intros a k Ha. lookups.
    + exists nx. split; [|done]. eapply store_hdr; [exact Hs|apply (h_hbp _ _ _ _ _ _ _ H)|first [exact (far_both _ _ _ _ _ _ _ L ltac:(eassumption) Hpn)]].
    + destruct (decide (a = p)) as [->|Hap]. { replace k with pn by congruence. by exists bp. }
      destruct (h_link _ _ _ _ _ _ _ H a k Ha Hap) as (b & Hb & Hab). exists b. split; [|apply N3; [by eapply elem_of_dom_2|done|done]].
      eapply store_hdr; [exact Hs|done|by apply (far_free _ _ _ _ _ _ _ L ltac:(eassumption) Hpn)].
  - intros a k Ha. lookups. eapply store_num; [exact Hs| |first [exact (far_both _ _ _ _ _ _ _ L ltac:(eassumption) Hpn)]]. by apply (h_size _ _ _ _ _ _ _ H).
  - intros a k Ha. eapply store_mapped; [exact Hs|]. destruct Ha as [Ha|Ha]; lookups.
    + apply (h_map _ _ _ _ _ _ _ H). by right.
    + apply (h_map _ _ _ _ _ _ _ H). by left.
    + apply (h_map _ _ _ _ _ _ _ H). by right.
  - apply elem_of_union. right. apply (h_p _ _ _ _ _ _ _ H).
Qed.
Lemma join_prev s F A p bp n nx : half s F A p bp n nx ->
  wp (pn ← hsize p;
      (if padd p pn =? bp then
         k ← hsize bp;
         set_hsize p (u32 (pn + k)) ;;
         q ← ptr bp;
         set_ptr p q
       else set_ptr p bp) ;;
      set_freep p)
    (fun _ s' => exists F', inv s' F' (delete bp A) /\ freep s' = p /\ brk s' = brk s /\ (dom F' : gset Z) ⊆ {[bp]} ∪ dom F /\
      only (fun k => p <= k < p + 16) (umem s) (umem s') /\
      (forall k, cov F' k <-> cov F k \/ bp <= k < bp + 16 * n) /\
      exists a k, F' !! a = Some k /\ n <= k /\ (a = p \/ nxt (dom F') p a)) s.
Proof.
  intros H. pose proof (h_lay _ _ _ _ _ _ _ H) as L. pose proof (h_bp _ _ _ _ _ _ _ H) as Hbp.
  pose proof (h_brk _ _ _ _ _ _ _ H) as Hbrk. unfold usable in Hbrk. destruct (half_fresh _ _ _ _ _ _ _ H) as [Hfr Hfrd].
  destruct (proj1 (dom_at _ _) (h_p _ _ _ _ _ _ _ H)) as [pn Hpn]. destruct (h_hp _ _ _ _ _ _ _ H _ Hpn) as [q Hh].
  pose proof (h_hbp _ _ _ _ _ _ _ H) as Hhb. destruct (proj1 (dom_at _ _) (proj1 (h_nxt _ _ _ _ _ _ _ H))) as [r Hr].
  facts L. wp_step. eapply wp_hsize; [exact Hh|]. rewrite padd_in by lia. destruct (Z.eqb_spec (p + 16 * pn) bp) as [E|Hne].
  - assert (far bp p) as Hf by (unfold far; lia). wp_step. wp_step. eapply wp_hsize; [exact Hhb|]. wp_step. eapply wp_set_hsize; [exact Hh|].
    unfold u32. rewrite Z.mod_small by lia. wp_step. eapply wp_ptr; [cbn [umem with_mem]; apply hdr_size_ne; [exact Hhb|done]|].
    eapply wp_set_ptr; [cbn [umem with_mem]; eapply hdr_size_eq; [exact Hh|lia]|]. apply wp_modify. cbn [umem with_mem brk freep].
    exists (<[p := pn + n]> F). split; [|split; [done|]; split; [done|]; split; [|split; [|split]]].
    + eapply inv_join; try done; [apply store_size|apply store_ptr|]. eapply hdr_ptr_eq; [eapply hdr_size_eq; [exact Hh|lia]|lia].
    + rewrite dom_insert_L. intros x [->%elem_of_singleton|Hx]%elem_of_union; apply elem_of_union; right; [apply dom_at; by exists pn|done].
    + eapply only_trans; eapply store_only; [apply store_size|exact Hh|apply store_ptr|eapply hdr_size_eq; [exact Hh|lia]].
    + intros z. rewrite <-insert_delete_eq. rewrite cov_insert by apply lookup_delete_eq. rewrite (cov_delete _ F A _ _ z L Hpn).
      assert (p <= z < p + 16 * (pn + n) <-> p <= z < p + 16 * pn \/ bp <= z < bp + 16 * n) as -> by lia. clear. tauto.
    + exists p, (pn + n). rewrite lookup_insert_eq. split; [done|]. split; [lia|by left].
  - wp_step. eapply wp_set_ptr; [exact Hh|]. apply wp_modify. cbn [umem with_mem brk freep]. exists (<[bp := n]> F).
    destruct (inv_give s F A p bp n nx pn q (set_num 8 (umem s) p bp)) as [I N]; try done; [apply store_ptr|eapply hdr_ptr_eq; [exact Hh|lia]|].
    split; [done|]. split; [done|]. split; [done|]. split; [by rewrite dom_insert_L|]. split; [eapply store_only; [apply store_ptr|exact Hh]|]. split; [intros z; by apply cov_insert|].
    exists bp, n. rewrite lookup_insert_eq. split; [done|]. split; [lia|by right].
Qed.

(** a free block of at least [n] headers is the first the next search looks at, or the last *)
Definition big (F : gmap Z Z) (f n : Z) : Prop := exists a k, F !! a = Some k /\ n <= k /\ (a = f \/ nxt (dom F) f a).
Definition freed (F A : gmap Z Z) (bp n : Z) (s s' : st) : Prop :=
  exists F', inv s' F' (delete bp A) /\ brk s' = brk s /\ (dom F' : gset Z) ⊆ {[bp]} ∪ dom F /\ big F' (freep s') n /\
    only (fun k => base <= k < base + 16 \/ cov F k \/ bp <= k < bp + 16 * n) (umem s) (umem s') /\
    forall k, cov F' k <-> cov F k \/ bp <= k < bp + 16 * n.

Lemma free_spec s F A bp n : inv s F A -> A !! bp = Some n -> wp (free (bp + 16)) (fun _ s' => freed F A bp n s s') s.
Proof.
  intros I Hbp. pose proof (i_lay _ _ _ I) as L. pose proof (i_brk _ _ _ I) as Hbrk. unfold usable in Hbrk.
  pose proof (l_used _ _ _ L _ _ Hbp) as Hu. unfold block in Hu.
  unfold free. rewrite padd_in by lia. replace (bp + 16 + 16 * -1) with bp by lia. wp_step. wp_step. wp_step. wp_step. wp_step.
  eapply wp_mono; [apply (walk s F A bp n); [done|done|]|].
  { pose proof (inv_size _ _ _ I). lia. }
  cbn beta. intros p s' (-> & Hp & Hlt & nx & Hnx & Hgt). destruct (proj1 (dom_at _ _) Hp) as [pn Hpn].
  destruct (i_link _ _ _ I _ _ Hpn) as (nx' & Hh & Hnx'). assert (nx' = nx) as -> by (eapply nxt_unique; [done|done|by eapply base_in]).
  destruct (used_hdr (umem s) bp n) as (H16 & q0 & Hhb); [lia|apply (i_map _ _ _ I); by right|by apply (i_size _ _ _ I)|].
  wp_step. eapply wp_hsize; [exact Hhb|]. wp_step. eapply wp_ptr; [exact Hh|]. wp_step.
  eapply wp_mono; [by eapply join_next|]. cbn beta. intros _ s1 (F1 & n1 & nx1 & Hhalf & Hb1 & Hn1 & Hd1 & Ho1 & Hc1).
  eapply wp_mono; [by eapply join_prev|]. cbn beta. intros _ s2 (F2 & I2 & Hf2 & Hb2 & Hd2 & Ho2 & Hc2 & a & k & Ha & Hk & Hnext).
  rewrite delete_insert_eq in I2. exists F2. split; [done|]. split; [congruence|].
  split; [etrans; [exact Hd2|]; by apply union_mono_l|]. split; [exists a, k; rewrite Hf2; split; [done|split; [lia|done]]|].
  split.
  - eapply only_trans; (eapply only_mono; [eassumption|]); cbn beta; intros z Hz; [right; right; lia|].
    facts L. destruct (decide (p = base)) as [->|Hne]; [left; lia|]. right; left. exists p, pn. split; [done|lia].
  - intros z. by rewrite Hc2, Hc1.
Qed.


Lemma inv_grown s F A r s1 nu : inv s F A -> 1 <= nu < 2 ^ 32 -> grown (16 * nu) r s s1 ->
  inv (with_mem (set_num 4 (umem s1) (brk s + 8) nu) s1) F (<[brk s := nu]> A).
Proof.
  intros I Hnu (-> & Hf & Hb & Hu & Hm & Hnew). pose proof (i_lay _ _ _ I) as L. pose proof (i_brk _ _ _ I) as Hbrk.
  assert (forall a b n, a + Z.of_nat n <= brk s -> num n (set_num 4 (umem s1) (brk s + 8) b) a = num n (umem s) a) as Hn.
  { intros a b n Ha. rewrite num_set_other by lia. apply num_cong. intros k Hk. apply Hm. lia. }
  constructor; cbn [umem brk freep with_mem].
  - rewrite Hb. apply lay_grow; [done|lia|lia].
  - intros a n Ha. destruct (i_link _ _ _ I _ _ Ha) as (b & [Hq Hz] & Hab). facts L. exists b. split; [|done].
    split; rewrite Hn by lia; done.
  - intros a n Ha. lookups; [rewrite num_set, Z.mod_small; [done|change (8 * Z.of_nat 4) with 32; lia]|]. facts L. rewrite Hn by lia. by apply (i_size _ _ _ I).
  - intros a n Ha. apply mapped_set. destruct Ha as [Ha|Ha]; lookups; [| done|]; facts L.
    all: intros j Hj; rewrite Hm by lia; exact (i_map _ _ _ I a n ltac:(auto) j Hj).
  - rewrite Hf. apply (i_freep _ _ _ I).
  - lia.
Qed.
Lemma only_keeps P m m' k : only P m m' -> ~ P k -> m' !! k = m !! k.
Proof. intros [H _] Hk. by apply H. Qed.

(** the free blocks after the process has grown: all the new bytes are free or behind *)
Definition more (F A : gmap Z Z) (nu : Z) (s s' : st) : Prop :=
  exists F', inv s' F' A /\ brk s <= brk s' /\ (dom F' : gset Z) ⊆ {[brk s]} ∪ dom F /\ big F' (freep s') nu /\
    (forall k, k < brk s -> ~ (base <= k < base + 16) -> ~ cov F k -> umem s' !! k = umem s !! k) /\
    forall k, cov F' k <-> cov F k \/ brk s <= k < brk s'.
Lemma big_mono F f n n' : big F f n -> n' <= n -> big F f n'.
Proof. intros (a & k & Ha & Hk & H) Hn. exists a, k. split; [done|]. split; [lia|done]. Qed.


(** [r] points behind the header of a block of [nu] headers taken from the free ones *)
Definition handed (F A : gmap Z Z) (nu : Z) (s : st) (r : Z) (s' : st) : Prop :=
  exists a F', r = a + 16 /\ A !! a = None /\ inv s' F' (<[a := nu]> A) /\ brk s' = brk s /\
    (forall k, ~ (base <= k < base + 16) -> ~ cov F k -> umem s' !! k = umem s !! k) /\
    forall k, cov F' k \/ a <= k < a + 16 * nu <-> cov F k.

Lemma free_not_used hi F A a n : layout hi F A -> F !! a = Some n -> A !! a = None.
Proof. intros L Ha. destruct (A !! a) as [k|] eqn:E; [|done]. facts L. lia. Qed.

Lemma take_exact s F A prevp p n q : inv s F A -> F !! p = Some n -> p <> base -> prevp ∈ dom F -> nxt (dom F) prevp p -> hdr (umem s) p q n ->
  handed F A n s (p + 16) (St (set_num 8 (umem s) prevp q) (brk s) prevp).
Proof.
  intros I Hp Hpb Hprev Hpp Hh. pose proof (i_lay _ _ _ I) as L. pose proof (i_brk _ _ _ I) as Hbrk. unfold usable in Hbrk.
  destruct (i_link _ _ _ I _ _ Hp) as (q' & Hh' & Hq). assert (q' = q) as -> by (destruct Hh, Hh'; congruence).
  destruct (proj1 (dom_at _ _) Hprev) as [x Hx]. destruct (i_link _ _ _ I _ _ Hx) as (b & Hhx & _).
  assert (prevp <> p) as Hne by (destruct Hpp as [_ [[? _]|[? _]]]; [lia|done]).
  destruct (proj1 (dom_at _ _) (proj1 Hq)) as [y Hy]. assert (0 <= q < 2 ^ 64) as Hq64 by (facts L; lia).
  destruct (nxt_delete (dom F) prevp p q Hpp Hq Hpb (base_in _ _ _ L) Hprev) as [Hn Ho]; [by eapply elem_of_dom_2|].
  pose proof (store_ptr prevp (umem s) q) as Hs. exists p, (delete p F). split; [done|]. split; [by eapply free_not_used|]. split; [|split; [done|split]].
  - constructor; cbn [umem brk freep]; rewrite ?dom_delete_L.
    + by apply lay_take.
    + intros a k Ha. lookups. destruct (decide (a = prevp)) as [->|Hap].
      * replace k with x by congruence. exists q. split; [by eapply hdr_ptr_eq|done].
      * destruct (i_link _ _ _ I _ _ Ha) as (c & Hc & Hac). exists c. split; [|apply Ho; [by eapply elem_of_dom_2|done..]].
        eapply store_hdr; [exact Hs|done|exact (far_free _ _ _ _ _ _ _ L Ha Hx Hap)].
    + intros a k Ha. lookups.
      * eapply store_num; [exact Hs|by destruct Hh|]. exact (far_free _ _ _ _ _ _ _ L Hp Hx ltac:(congruence)).
      * eapply store_num; [exact Hs|by apply (i_size _ _ _ I)|exact (far_both _ _ _ _ _ _ _ L Ha Hx)].
    + intros a k Ha. eapply store_mapped; [exact Hs|]. destruct Ha as [Ha|Ha]; lookups; apply (i_map _ _ _ I); auto.
    + apply elem_of_difference. split; [done|]. by rewrite elem_of_singleton.
    + done.
  - intros k Hkb Hkc. cbn [umem]. apply lookup_set_other. destruct (decide (prevp = base)) as [->|Hpvb]; [lia|].
    destruct (decide (k < prevp \/ prevp + 16 <= k)) as [|Hin]; [lia|]. destruct Hkc. exists prevp, x. split; [done|]. facts L. lia.
  - intros k. by rewrite (cov_delete _ _ _ _ _ k L Hp).
Qed.
Lemma take_split s F A prevp p n nu q : inv s F A -> F !! p = Some n -> prevp ∈ dom F -> 1 <= nu < n -> hdr (umem s) p q n ->
  handed F A nu s (p + 16 * (n - nu) + 16)
    (St (set_num 4 (set_num 4 (umem s) (p + 8) (n - nu)) (p + 16 * (n - nu) + 8) nu) (brk s) prevp).
Proof.
  intros I Hp Hprev Hnu Hh. pose proof (i_lay _ _ _ I) as L. pose proof (i_brk _ _ _ I) as Hbrk. unfold usable in Hbrk.
  destruct (i_link _ _ _ I _ _ Hp) as (q' & Hh' & Hq). assert (q' = q) as -> by (destruct Hh, Hh'; congruence).
  pose proof (lay_split _ _ _ _ _ _ L Hp Hnu) as L'. set (c := p + 16 * (n - nu)) in *.
  set (m1 := set_num 4 (umem s) (p + 8) (n - nu)). set (m' := set_num 4 m1 (c + 8) nu).
  assert (store_at p (umem s) m1) as Hs1 by apply store_size. assert (store_at c m1 m') as Hs2 by apply store_size.
  assert ((dom (<[p := n - nu]> F) : gset Z) = dom F) as Ed.
  { rewrite dom_insert_L. apply set_eq. intros x. rewrite elem_of_union, elem_of_singleton. split; [|by right].
    intros [->|?]; [by eapply elem_of_dom_2|done]. }
  assert (A !! c = None) as Hc. { destruct (A !! c) as [y|] eqn:E; [|done]. facts L. unfold c in *. lia. }
  assert (c = p + 16 * (n - nu)) as Ec by done. clearbody c.
  exists c, (<[p := n - nu]> F). split; [done|]. split; [done|]. split; [|split; [done|split]].
  - constructor; cbn [umem brk freep]; rewrite ?Ed; [done| | | |done|done].
    + intros a k Ha. lookups.
      * exists q. split; [|done]. eapply store_hdr; [exact Hs2|eapply hdr_size_eq; [exact Hh|facts L; lia]|]. facts L. unfold far. lia.
      * destruct (i_link _ _ _ I _ _ Ha) as (b & Hb & Hab). exists b. split; [|done]. facts L.
        eapply store_hdr; [exact Hs2| |unfold far; lia]. eapply store_hdr; [exact Hs1|done|unfold far; lia].
    + intros a k Ha. lookups; facts L.
      * unfold m'. rewrite num_set, Z.mod_small; [done|change (8 * Z.of_nat 4) with 32; lia].
      * eapply store_num; [exact Hs2| |unfold far; lia]. eapply store_num; [exact Hs1|by apply (i_size _ _ _ I)|unfold far; lia].
    + intros a k Ha. eapply store_mapped; [exact Hs2|]. eapply store_mapped; [exact Hs1|]. destruct Ha as [Ha|Ha]; lookups.
      * eapply (mapped_part _ _ n); [apply (i_map _ _ _ I); left; exact Hp|lia|lia].
      * apply (i_map _ _ _ I). by left.
      * eapply (mapped_part _ _ n); [apply (i_map _ _ _ I); left; exact Hp|lia|lia].
      * apply (i_map _ _ _ I). by right.
  - intros k Hkb Hkc. cbn [umem]. assert (~ p <= k < p + 16 * n) as Hk by (intros Hk; apply Hkc; by exists p, n).
    unfold m', m1. rewrite !lookup_set_other by lia. done.
  - intros k. rewrite <-insert_delete_eq, cov_insert by apply lookup_delete_eq. rewrite (cov_delete _ _ _ _ _ k L Hp).
    assert (p <= k < p + 16 * n <-> p <= k < p + 16 * (n - nu) \/ c <= k < c + 16 * nu) as -> by lia. clear. tauto.
Qed.


(** the same, the process perhaps having grown: what was free and what is new is free or handed out *)
Definition got (F A : gmap Z Z) (nu : Z) (s : st) (r : Z) (s' : st) : Prop :=
  exists a F', r = a + 16 /\ A !! a = None /\ inv s' F' (<[a := nu]> A) /\ brk s <= brk s' /\
    (forall k, k < brk s -> ~ (base <= k < base + 16) -> ~ cov F k -> umem s' !! k = umem s !! k) /\
    forall k, cov F' k \/ a <= k < a + 16 * nu <-> cov F k \/ brk s <= k < brk s'.
Lemma handed_got F A nu s r s' : handed F A nu s r s' -> got F A nu s r s'.
Proof.
  intros (a & F' & -> & Ha & I & Hb & Hm & Hc). exists a, F'. split; [done|]. split; [done|]. split; [done|]. split; [lia|].
  split; [auto|]. intros k. rewrite Hc, Hb. split; [by left|]. intros [?|?]; [done|lia].
Qed.
Lemma more_handed F A nu s s1 r s' F1 : brk s <= brk s1 ->
  (forall k, k < brk s -> ~ (base <= k < base + 16) -> ~ cov F k -> umem s1 !! k = umem s !! k) ->
  (forall k, cov F1 k <-> cov F k \/ brk s <= k < brk s1) -> handed F1 A nu s1 r s' -> got F A nu s r s'.
Proof.
  intros Hle Hk1 Hc1 (a & F' & -> & Ha & I & Hb & Hm & Hc). exists a, F'. split; [done|]. split; [done|]. split; [done|]. split; [lia|]. split.
  - intros k Hk Hkb Hkc. rewrite Hm; [by apply Hk1|done|]. rewrite Hc1. intros [?|?]; [done|lia].
  - intros k. by rewrite Hc, Hc1, Hb.
Qed.

Section search.
Context `{Sbrk}.

Lemma body_take s F A nu prevp p n : inv s F A -> F !! p = Some n -> 1 <= nu <= n -> prevp ∈ dom F -> nxt (dom F) prevp p ->
  wp (malloc_body nu (prevp, p)) (fun r s' => exists x, r = inr x /\ handed F A nu s x s') s.
Proof.
  intros I Hp Hnu Hprev Hpp. pose proof (i_lay _ _ _ I) as L. pose proof (i_brk _ _ _ I) as Hbrk. unfold usable in Hbrk.
  destruct (i_link _ _ _ I _ _ Hp) as (q & Hh & Hq). facts L. unfold malloc_body. wp_step. eapply wp_hsize; [exact Hh|].
  destruct (Z.leb_spec nu n); [|lia]. destruct (proj1 (dom_at _ _) Hprev) as [x Hx]. destruct (i_link _ _ _ I _ _ Hx) as (b & Hhx & _). wp_step.
  destruct (Z.eqb_spec n nu) as [->|Hne].
  - wp_step. eapply wp_ptr; [exact Hh|]. wp_step. eapply wp_set_ptr; [exact Hhx|]. wp_steps. apply wp_modify. wp_steps. rewrite padd_in by lia. eexists. split; [done|]. cbn [umem brk freep with_mem].
    eapply take_exact; try done. lia.
  - wp_step. eapply wp_set_hsize; [exact Hh|]. unfold u32. rewrite Z.mod_small by lia. wp_step.
    assert (hdr (set_num 4 (umem s) (p + 8) (n - nu)) p q (n - nu)) as Hh1 by (eapply hdr_size_eq; [exact Hh|lia]).
    eapply wp_hsize; [exact Hh1|]. rewrite padd_in by lia. wp_step.
    assert (mapped (umem s) (p + 16 * (n - nu)) 16) as H16.
    { eapply (mapped_part _ p n _ 1); [apply (i_map _ _ _ I); by left|lia|lia]. }
    destruct (hdr_mapped (set_num 4 (umem s) (p + 8) (n - nu)) _ (mapped_set _ _ _ _ _ _ H16)) as (q2 & n2 & Hh2).
    eapply wp_set_hsize; [exact Hh2|]. wp_steps. apply wp_modify. wp_steps. rewrite padd_in by lia. eexists. split; [done|]. cbn [umem brk freep with_mem].
    eapply take_split; try done. lia.
Qed.
Lemma search_big s F A nu prevp p fuel : inv s F A -> 1 <= nu -> prevp ∈ dom F -> nxt (dom F) prevp p ->
  (exists k, F !! p = Some k /\ nu <= k) \/ (exists k, F !! freep s = Some k /\ nu <= k) -> (dist (dom F) (freep s) p < fuel)%nat ->
  wp (loop fuel (malloc_body nu) (prevp, p)) (handed F A nu s) s.
Proof.
  intros I Hnu Hprev Hpp Hbig Hf. pose proof (i_lay _ _ _ I) as L.
  eapply (wp_loop _ _ _ _ _ (fun v s' => s' = s /\ v.1 ∈ dom F /\ nxt (dom F) v.1 v.2 /\
    ((exists k, F !! v.2 = Some k /\ nu <= k) \/ (exists k, F !! freep s = Some k /\ nu <= k))) (fun v => dist (dom F) (freep s) v.2)); [done|done|].
  intros [prev x] s' (-> & Hpr & Hn & Hb). cbn [fst snd] in *. destruct (proj1 (dom_at _ _) (proj1 Hn)) as [n Hx].
  destruct (decide (nu <= n)) as [Hle|Hgt].
  - eapply wp_mono; [by eapply body_take|]. cbn beta. intros r s' (y & -> & Hh). done.
  - destruct Hb as [(k & Hk & ?)|(k & Hk & ?)]; [assert (n = k) by congruence; lia|]. destruct (i_link _ _ _ I _ _ Hx) as (q & Hh & Hq).
    unfold malloc_body. wp_step. eapply wp_hsize; [exact Hh|]. destruct (Z.leb_spec nu n); [lia|]. wp_step. wp_step. wp_step.
    destruct (Z.eqb_spec x (freep s)) as [->|Hne]; [assert (n = k) by congruence; lia|]. wp_step.
    pose proof (dom_base _ _ _ _ L (proj1 Hn)) as Hxb. wp_step. eapply wp_ptr; [exact Hh|]. wp_steps.
    split; [split; [done|]; split; [apply Hn|]; split; [done|right; by exists k]|].
    pose proof (i_freep _ _ _ I) as Hfp. cbn [snd]. eapply dist_step; [done|by eapply base_in|by eapply dom_base| | |done].
    + intros Hlt. destruct Hq as [_ [[_ Hno]|[-> Hle]]]; [by apply Hno|]. specialize (Hle _ Hfp). lia.
    + intros Hle'. destruct Hq as [_ [[? _]|[-> Hle]]]; [lia|by apply Hle].
Qed.
End search.
Section laws.
Context `{SbrkLaws}.

(** the process was asked to grow for [nu] headers and did not *)
Definition refused (nu : Z) (s : st) : Prop := sbrk (16 * Z.max 4096 nu) s = Done (2 ^ 64 - 1) s.
Lemma morecore_spec s F A nu : inv s F A -> 1 <= nu -> 16 * nu < 2 ^ 31 ->
  wp (morecore nu) (fun r s' => r = 0 /\ s' = s /\ refused nu s \/ r = freep s' /\ more F A nu s s') s.
Proof.
  intros I Hnu Hmax. pose proof (i_lay _ _ _ I) as L. pose proof (i_brk _ _ _ I) as Hbrk. unfold usable in Hbrk. unfold morecore.
  set (n := if nu <? 4096 then 4096 else nu). assert (nu <= n /\ 16 * n < 2 ^ 31) as [Hn Hn31] by (unfold n; destruct (Z.ltb_spec nu 4096); lia).
  assert (s32 (u64 (n * sizeof_Header)) = 16 * n) as ->.
  { unfold s32, u64, sizeof_Header. rewrite (Z.mod_small (n * 16)) by lia. rewrite Z.mod_small by lia. lia. }
  wp_step. pose proof (sbrk_grows s (16 * n) ltac:(lia)) as Hsb. apply wp_done in Hsb as (r & s1 & Hrun & Hg). eapply wp_eq; [exact Hrun|].
  destruct Hg as [[-> ->]|Hg]; [cbn; wp_steps; left; unfold refused; replace (Z.max 4096 nu) with n by (unfold n; destruct (Z.ltb_spec nu 4096); lia); done|].
  pose proof (inv_grown s F A r s1 n I ltac:(lia) Hg) as I1. destruct Hg as (-> & Hf & Hb & Hu & Hm & Hnew).
  destruct (Z.eqb_spec (brk s) (2 ^ 64 - 1)) as [E|_]; [lia|]. wp_step.
  assert (mapped (umem s1) (brk s) 16) as H16 by (apply (mapped_part _ (brk s) n _ 1 Hnew); lia).
  destruct (hdr_mapped _ _ H16) as (q & x & Hh). eapply wp_set_hsize; [exact Hh|]. wp_step.
  rewrite padd_in by lia. eapply wp_mono; [apply (free_spec _ F _ (brk s) n I1); by rewrite lookup_insert_eq|]. cbn beta.
  intros _ s2 (F2 & I2 & Hb2 & Hd2 & Hbig & Ho & Hc). wp_steps. right. split; [done|]. cbn [brk with_mem umem] in *.
  rewrite delete_insert_id in I2. 2:{ destruct (A !! brk s) as [y|] eqn:E; [|done]. facts L. lia. }
  exists F2. split; [done|]. split; [lia|]. split; [done|]. split; [eapply big_mono; [exact Hbig|lia]|]. split.
  - intros k Hk Hkb Hkc. rewrite (only_keeps _ _ _ k Ho) by (intros [?|[?|?]]; [done|done|lia]). rewrite lookup_set_other by lia. by apply Hm.
  - intros k. by rewrite Hc, Hb2, Hb.
Qed.

(** what a search that found nothing has seen *)
Definition seen (D : gset Z) (f p c : Z) : Prop := if decide (f < p) then f < c < p else f < c \/ c < p.
Lemma seen_first D f p c : base ∈ D -> (forall c, c ∈ D -> base <= c) -> nxt D f p -> c ∈ D -> ~ seen D f p c.
Proof.
  intros Hin Hb [_ [[Hlt Hno]|[-> Hle]]] Hc; unfold seen; case_decide; [by apply Hno|lia|specialize (Hle _ Hin); lia|].
  specialize (Hb _ Hc). specialize (Hle _ Hc). lia.
Qed.
Lemma seen_step D f p q c : f ∈ D -> p ∈ D -> (forall c, c ∈ D -> base <= c) -> nxt D p q -> p <> f -> c ∈ D -> seen D f q c -> seen D f p c \/ c = p.
Proof.
  intros Hf Hp Hb [_ Hn] Hne Hc. pose proof (Hb _ Hc). pose proof (Hb _ Hf).
  unfold seen. destruct Hn as [[Hlt Hno]|[-> Hle]]; [pose proof (Hno _ Hc); pose proof (Hno _ Hf)|pose proof (Hle _ Hc); pose proof (Hle _ Hf)];
    repeat case_decide; lia.
Qed.
Lemma seen_last D f c : c <> f -> seen D f f c.
Proof. unfold seen. case_decide; lia. Qed.

Lemma search s F A nu fuel : inv s F A -> 1 <= nu -> 16 * nu < 2 ^ 31 -> forall prevp p,
  prevp ∈ dom F -> nxt (dom F) prevp p -> (forall c k, F !! c = Some k -> seen (dom F) (freep s) p c -> k < nu) ->
  (dist (dom F) (freep s) p + size (dom F) + 4 < fuel)%nat ->
  wp (loop fuel (malloc_body nu) (prevp, p)) (fun r s' => r = 0 /\ s' = s /\ (forall c k, F !! c = Some k -> k < nu) /\ refused nu s \/ got F A nu s r s') s.
Proof.
  intros I Hnu Hmax. pose proof (i_lay _ _ _ I) as L. induction fuel as [|fuel IH]; intros prevp p Hprev Hpp Hseen Hf; [lia|].
  destruct (proj1 (dom_at _ _) (proj1 Hpp)) as [n Hp]. cbn [loop]. apply wp_bind. pose proof (i_freep _ _ _ I) as Hfp.
  pose proof (dom_base _ _ _ _ L (proj1 Hpp)) as Hpb. destruct (i_link _ _ _ I _ _ Hp) as (q & Hh & Hq).
  destruct (decide (nu <= n)) as [Hle|Hgt].
  { eapply wp_mono; [by eapply body_take|]. cbn beta. intros r s' (y & -> & Hy). wp_steps. right. by apply handed_got. }
  unfold malloc_body at 1. wp_step. eapply wp_hsize; [exact Hh|]. destruct (Z.leb_spec nu n); [lia|]. wp_step. wp_step. wp_step.
  destruct (Z.eqb_spec p (freep s)) as [E|Hne].
  - wp_step. eapply wp_mono; [by eapply morecore_spec|]. cbn beta. intros r s1 [(-> & -> & Hrf)|(-> & F1 & I1 & Hb1 & Hd1 & Hbig & Hk1 & Hc1)].
    { cbn. wp_steps. left. split; [done|]. split; [done|]. split; [|done]. intros c k Hck. destruct (decide (c = freep s)) as [->|Hcf]; [congruence|].
      apply (Hseen c k Hck). rewrite E. by apply seen_last. }
    pose proof (i_lay _ _ _ I1) as L1. pose proof (dom_base _ _ _ _ L1 (i_freep _ _ _ I1)) as Hfb.
    destruct (Z.eqb_spec (freep s1) 0); [lia|]. destruct (proj1 (dom_at _ _) (i_freep _ _ _ I1)) as [x Hx].
    destruct (i_link _ _ _ I1 _ _ Hx) as (q1 & Hh1 & Hq1). wp_step. wp_step. eapply wp_ptr; [exact Hh1|]. wp_step.
    eapply wp_mono; [apply (search_big s1 F1 A nu); [done|done|apply (i_freep _ _ _ I1)|done| |]|].
    + destruct Hbig as (a & k & Ha & Hk & [->|Hn]); [right; by exists k|left]. exists k. split; [|done].
      replace q1 with a; [done|]. eapply nxt_unique; [done|done|by eapply base_in].
    + pose proof (size_dist (dom F1) (freep s1) q1). apply subseteq_size in Hd1. rewrite size_union_alt in Hd1.
      assert (size (dom F ∖ {[brk s]}) <= size (dom F))%nat by (apply subseteq_size; by apply subseteq_difference_l).
      rewrite size_singleton in Hd1. lia.
    + cbn beta. intros r s' Hh'. right. eapply more_handed; [exact Hb1|exact Hk1|exact Hc1|exact Hh'].
  - wp_step. wp_step. eapply wp_ptr; [exact Hh|]. wp_step. apply IH; [apply Hpp|done| |].
    + intros c k Hck Hs. destruct (seen_step (dom F) (freep s) p q c) as [?| ->]; try done; [apply Hpp|intros x; by eapply dom_base|by eapply elem_of_dom_2|by eapply Hseen|].
      assert (k = n) by congruence. lia.
    + assert (dist (dom F) (freep s) q < dist (dom F) (freep s) p)%nat; [|lia].
      eapply dist_step; [done|by eapply base_in|by eapply dom_base| | |done].
      * intros Hlt. destruct Hq as [_ [[_ Hno]|[-> Hle]]]; [by apply Hno|]. specialize (Hle _ Hfp). lia.
      * intros Hle'. destruct Hq as [_ [[? _]|[-> Hle]]]; [lia|by apply Hle].
Qed.

(** a process that has not called malloc yet, or one with a list *)
Definition heap (s : st) (F A : gmap Z Z) : Prop :=
  (freep s = 0 /\ F = {[base := 0]} /\ A = ∅ /\ mapped (umem s) base 16 /\ base + 16 <= brk s < usable) \/ inv s F A.
(** the list with the static header alone, as malloc sets it up *)
Definition set_up (s : st) : st := St (set_num 4 (set_num 8 (umem s) base base) (base + 8) 0) (brk s) base.
Lemma heap_first s : mapped (umem s) base 16 -> base + 16 <= brk s < usable -> inv (set_up s) {[base := 0]} ∅.
Proof.
  intros Hm Hb. unfold usable in *. destruct (hdr_mapped _ _ Hm) as (q & n & Hh). constructor; cbn [umem brk freep set_up].
  - constructor; intros *; rewrite ?lookup_singleton_Some, ?lookup_empty; try done; [by intros [<- <-] ?|].
    intros [<- <-] [<- <-]. lia.
  - intros a k [<- <-]%lookup_singleton_Some. exists base. split.
    + eapply hdr_size_eq; [eapply hdr_ptr_eq; [exact Hh|lia]|lia].
    + rewrite dom_singleton_L. split; [by apply elem_of_singleton|]. right. split; [done|]. intros c ->%elem_of_singleton. done.
  - intros a k Ha. by rewrite lookup_empty in Ha.
  - intros a k [[<- <-]%lookup_singleton_Some|Ha]; [intros i Hi; lia|by rewrite lookup_empty in Ha].
  - rewrite dom_singleton_L. by apply elem_of_singleton.
  - done.
Qed.

Lemma malloc_from s F A nbytes fuel : inv s F A -> 0 <= nbytes <= 2 ^ 31 - 32 -> (2 * size (dom F) + 5 < fuel)%nat ->
  wp (p ← ptr (freep s); loop fuel (malloc_body ((nbytes + 15) / 16 + 1)) (freep s, p))
    (fun r s' => r = 0 /\ s' = s /\ (forall c k, F !! c = Some k -> k < (nbytes + 15) / 16 + 1) /\ refused ((nbytes + 15) / 16 + 1) s \/ got F A ((nbytes + 15) / 16 + 1) s r s') s.
Proof.
  intros I Hnb Hf. pose proof (i_lay _ _ _ I) as L. pose proof (i_freep _ _ _ I) as Hfp. destruct (proj1 (dom_at _ _) Hfp) as [n Hn].
  destruct (i_link _ _ _ I _ _ Hn) as (q & Hh & Hq). wp_step. eapply wp_ptr; [exact Hh|].
  pose proof (Z.div_pos (nbytes + 15) 16 ltac:(lia) ltac:(lia)). pose proof (Z.mul_div_le (nbytes + 15) 16 ltac:(lia)).
  apply search; [done|lia|lia|done|done| |].
  - intros c k Hc Hs. destruct (seen_first (dom F) (freep s) q c); try done; [by eapply base_in|intros x; by eapply dom_base|by eapply elem_of_dom_2].
  - pose proof (size_dist (dom F) (freep s) q). lia.
Qed.

(** C18: malloc stops, for any request of up to 2 GiB. It returns 0 only if no free block is large enough and sbrk() has refused
    to grow the process by as much as the request needs (4096 headers at least), and then nothing has changed (but for the empty list a
    first call sets up); otherwise it returns the payload of a block of the size asked for, rounded up to headers, that was not in
    use. The list stays in order, merged and linked; the bytes that were free or that the process has grown by are free now or in the
    new block; and every other byte below the old end, the blocks in use among them, is as it was. *)
Theorem umalloc_correct s F A nbytes : heap s F A -> 0 <= nbytes <= 2 ^ 31 - 32 ->
  wp (malloc base nbytes) (fun r s' =>
    r = 0 /\ inv s' F A /\ brk s' = brk s /\ (forall k, ~ (base <= k < base + 16) -> umem s' !! k = umem s !! k) /\
      (forall c k, F !! c = Some k -> 16 * (k - 1) < nbytes) /\ sbrk (16 * Z.max 4096 ((nbytes + 15) / 16 + 1)) s' = Done (2 ^ 64 - 1) s' \/
    exists n, nbytes <= 16 * (n - 1) < nbytes + 16 /\ got F A n s r s') s.
Proof.
  intros Hh Hnb. unfold malloc.
  assert (u32 (u64 (nbytes + sizeof_Header - 1) / sizeof_Header + 1) = (nbytes + 15) / 16 + 1) as ->.
  { unfold u32, u64, sizeof_Header. replace (nbytes + 16 - 1) with (nbytes + 15) by lia.
    pose proof (Z.div_pos (nbytes + 15) 16 ltac:(lia) ltac:(lia)). pose proof (Z.mul_div_le (nbytes + 15) 16 ltac:(lia)).
    rewrite (Z.mod_small (nbytes + 15)) by lia. rewrite Z.mod_small by lia. done. }
  set (nu := (nbytes + 15) / 16 + 1). assert (nbytes <= 16 * (nu - 1) < nbytes + 16) as Hnu by (unfold nu; pose proof (Z.div_mod (nbytes + 15) 16 ltac:(done)); pose proof (Z.mod_pos_bound (nbytes + 15) 16 ltac:(lia)); lia).
  do 2 (wp_step; wp_step). destruct Hh as [(Hf & -> & -> & Hm & Hb)|I].
  - pose proof (heap_first s Hm Hb) as I. destruct (hdr_mapped _ _ Hm) as (q & n & Hh). rewrite Hf. cbn [Z.eqb]. wp_step. wp_step. apply wp_modify. wp_step.
    eapply wp_set_ptr; [exact Hh|]. wp_step. eapply wp_set_hsize; [eapply hdr_ptr_eq; [exact Hh|unfold usable in *; lia]|]. wp_step.
    eapply wp_mono; [apply (malloc_from (set_up s) _ _ nbytes _ I Hnb); rewrite dom_singleton_L, size_singleton; lia|]. cbn beta. fold nu.
    assert (forall k, ~ (base <= k < base + 16) -> umem (set_up s) !! k = umem s !! k) as Hk.
    { intros k Hk. cbn [umem set_up]. by rewrite !lookup_set_other by lia. }
    intros r s' [(-> & -> & Hsm & Hrf)|Hg]; [left|right].
    + split; [done|]. split; [done|]. split; [done|]. split; [done|]. split; [|exact Hrf]. intros c k Hc. specialize (Hsm _ _ Hc). lia.
    + exists nu. split; [done|]. destruct Hg as (a & F' & ? & ? & ? & ? & Hkeep & ?). exists a, F'. do 4 (split; [done|]). split; [|done].
      intros k Hkb Hk1 Hk2. rewrite Hkeep by done. by apply Hk.
  - pose proof (dom_base _ _ _ _ (i_lay _ _ _ I) (i_freep _ _ _ I)). destruct (Z.eqb_spec (freep s) 0); [lia|]. wp_step. wp_step.
    pose proof (inv_size _ _ _ I). eapply wp_mono; [apply (malloc_from s _ _ nbytes _ I Hnb); lia|]. cbn beta. fold nu.
    intros r s' [(-> & -> & Hsm & Hrf)|Hg]; [left|right].
    + split; [done|]. split; [done|]. split; [done|]. split; [done|]. split; [|exact Hrf]. intros c k Hc. specialize (Hsm _ _ Hc). lia.
    + by exists nu.
Qed.
End laws.

(** what the program writes into a block it was given leaves the list alone *)
Lemma inv_user s F A a n k x : inv s F A -> A !! a = Some n -> a + 16 <= k < a + 16 * n -> inv (with_mem (<[k := x]> (umem s)) s) F A.
Proof.
  intros I Ha Hk. pose proof (i_lay _ _ _ I) as L.
  assert (forall n b, k < b \/ b + Z.of_nat n <= k -> num n (<[k := x]> (umem s)) b = num n (umem s) b) as Hn.
  { intros i b Hb. apply num_cong. intros j Hj. apply lookup_insert_ne. lia. }
  constructor; cbn [umem brk freep with_mem]; [done| | | |apply (i_freep _ _ _ I)|apply (i_brk _ _ _ I)].
  - intros b y Hb. destruct (i_link _ _ _ I _ _ Hb) as (c & [Hc Hy] & Hbc). facts L. exists c. split; [split; rewrite Hn by lia; done|done].
  - intros b y Hb. facts L. rewrite Hn by lia. by apply (i_size _ _ _ I).
  - intros b y Hb. apply mapped_insert. by apply (i_map _ _ _ I).
Qed.

(** C19: free of a block in use stops and puts it back: the list stays in the order of the addresses and linked up, with
    no two free blocks adjacent, so that neighbours have been merged; the bytes that were free and those of the block are free; no byte
    outside them changes (the blocks still in use keep their contents). *)
Theorem ufree_correct s F A bp n : inv s F A -> A !! bp = Some n ->
  wp (free (bp + 16)) (fun _ s' => exists F', inv s' F' (delete bp A) /\ brk s' = brk s /\
    (forall k, cov F' k <-> cov F k \/ bp <= k < bp + 16 * n) /\
    (forall k, ~ (base <= k < base + 16) -> ~ cov F' k -> umem s' !! k = umem s !! k)) s.
Proof.
  intros I Hbp. eapply wp_mono; [by apply free_spec|]. cbn beta. intros _ s' (F' & I' & Hb & _ & _ & Ho & Hc).
  exists F'. split; [done|]. split; [done|]. split; [done|]. intros k Hkb Hk. rewrite Hc in Hk. apply (only_keeps _ _ _ k Ho). tauto.
Qed.

End list.

(** ** A process to try it on: sbrk grants what fits *)

#[local] Instance demo_sbrk : Sbrk := {
  sbrk n s :=
    if (0 <? n) && (brk s + n <? usable)
    then Done (brk s) (St (write_bytes (umem s) (brk s) (replicate (Z.to_nat n) 0)) (brk s + n) (freep s))
    else Done (2 ^ 64 - 1) s
}.
#[local] Instance demo_sbrk_laws : SbrkLaws.
Proof.
  constructor. intros s n Hn. cbn. unfold wp. destruct (Z.ltb_spec 0 n), (Z.ltb_spec (brk s + n) usable); cbn; [right|by left..].
  split; [done|]. split; [done|]. split; [done|]. split; [done|]. split.
  - intros k Hk. cbn [umem]. rewrite lookup_write_bytes. case_decide; [lia|done].
  - intros i Hi. cbn [umem]. rewrite lookup_write_bytes, length_replicate. case_decide; [|lia]. rewrite lookup_replicate_2; [done|lia].
Qed.
(** sixteen bytes at 1000 for the static header, the process ends at 2000 *)
Definition demo_user : st := St (write_bytes ∅ 1000 (replicate 16 0)) 2000 0.
Lemma demo_user_ok : heap 1000 demo_user {[1000 := 0]} ∅.
Proof. left. split; [done|]. split; [done|]. split; [done|]. split; [|done]. intros i Hi.
  change (is_Some (write_bytes ∅ 1000 (replicate 16 0) !! (1000 + Z.of_nat i))). rewrite lookup_write_bytes, length_replicate.
  case_decide; [|lia]. rewrite lookup_replicate_2; [done|lia].
Qed.
Lemma umalloc_correct_witness : exists r s', malloc 1000 100 demo_user = Done r s' /\
  (r = 0 \/ exists a F', r = a + 16 /\ inv 1000 s' F' {[a := 8]}).
Proof.
  pose proof (umalloc_correct 1000 ltac:(lia) demo_user _ _ 100 demo_user_ok ltac:(lia)) as Hw. destruct (proj1 (wp_done _ _ _) Hw) as (r & s' & E & Hr).
  exists r, s'. split; [exact E|]. destruct Hr as [[-> _]|(n & Hn & a & F' & Hra & _ & I & _)]; [by left|right].
  exists a, F'. split; [exact Hra|]. replace n with 8 in I by lia. exact I.
Defined.

(** one block in use at 1016 and nothing free *)
Definition demo_used : st :=
  St (set_num 4 (set_num 4 (set_num 8 (write_bytes ∅ 1000 (replicate 64 0)) 1000 1000) 1008 0) 1024 3) 1064 1000.
Lemma demo_used_ok : inv 1000 demo_used {[1000 := 0]} {[1016 := 3]}.
Proof.
  assert (forall a n, 1000 <= a -> a + Z.of_nat n <= 1064 -> mapped (umem demo_used) a n) as Hm.
  { intros a n Ha Hn. do 3 apply mapped_set. intros i Hi. rewrite lookup_write_bytes, length_replicate.
    case_decide; [|lia]. rewrite lookup_replicate_2; [done|lia]. }
  constructor.
  - constructor; intros *; rewrite ?lookup_singleton_Some; try done; unfold block; cbn [brk demo_used]; lia.
  - intros a n [<- <-]%lookup_singleton_Some. exists 1000. split; [split; vm_compute; reflexivity|]. rewrite dom_singleton_L.
    split; [by apply elem_of_singleton|]. right. split; [done|]. intros c ->%elem_of_singleton. done.
  - intros a n [<- <-]%lookup_singleton_Some. vm_compute. reflexivity.
  - intros a n [[<- <-]%lookup_singleton_Some|[<- <-]%lookup_singleton_Some]; apply Hm; lia.
  - rewrite dom_singleton_L. by apply elem_of_singleton.
  - done.
Qed.
Lemma ufree_correct_witness : exists s' F', free 1032 demo_used = Done tt s' /\ inv 1000 s' F' ∅ /\ cov F' 1063.
Proof.
  pose proof (ufree_correct 1000 ltac:(lia) demo_used _ {[1016 := 3]} 1016 3 demo_used_ok (lookup_singleton_eq _ _)) as Hw.
  destruct (proj1 (wp_done _ _ _) Hw) as ([] & s' & E & F' & I & _ & Hc & _). exists s', F'. split; [exact E|]. split.
  - by rewrite delete_singleton_eq in I.
  - apply Hc. right. lia.
Defined.

(** The size of a request near 4 GiB wraps in sbrk's int argument: malloc grows the process by sixteen bytes and hands out a block that
    claims 2^28 + 1 headers, its payload behind the end of the process. *)
Lemma malloc_wraps : exists s', malloc 1000 (2 ^ 32 - 1) demo_user = Done 2016 s' /\ brk s' = 2016 /\ num 4 (umem s') 2008 = Some (2 ^ 28 + 1).
Proof.
  assert (match malloc 1000 (2 ^ 32 - 1) demo_user with
          | Done r s' => r = 2016 /\ brk s' = 2016 /\ num 4 (umem s') 2008 = Some (2 ^ 28 + 1) | _ => False end) as H by (vm_compute; done).
  destruct (malloc _ _ _) as [r s'| | | | |]; [|done..]. destruct H as (-> & ? & ?). by exists s'.
Qed.
End Umalloc.
