(* ===== verification/Numeral.v ===== *)
(** * Numerals: the digit loops of printint() in console.c and usr/printf.c

    Both routines store the digits of a number in a buffer of sixteen
    characters, the lowest first, and print the buffer backwards. *)

From S2P Require Import Prelude.

Module Numeral.

(** buf[i++] = c *)
Definition bput {S : Type} (b : list Z) (i c : Z) : M S (list Z) :=
  deref (fun _ => at_ b i) ;; mret (put b i c).

(** the number a list of digits stands for, the lowest first *)
Definition value (base : Z) (ds : list Z) : Z := foldr (fun d v => d + base * v) 0 ds.
Lemma value_app base l1 l2 : value base (l1 ++ l2) = value base l1 + base ^ Z.of_nat (length l1) * value base l2.
Proof.
  induction l1 as [|d l1 IH]; [change (value base l2 = 0 + 1 * value base l2); lia|].
  change (value base ((d :: l1) ++ l2)) with (d + base * value base (l1 ++ l2)). change (value base (d :: l1)) with (d + base * value base l1).
  rewrite IH, length_cons, Nat2Z.inj_succ, Z.pow_succ_r by lia. ring.
Qed.
(** the numeral of [x]: its digits lowest first, without needless zeros *)
Record numeral (base x : Z) (ds : list Z) : Prop := {
  nu_digits : Forall (fun d => 0 <= d < base) ds;
  nu_value : value base ds = x;
  nu_least : (exists d, last ds = Some d /\ d <> 0) \/ ds = [0];
}.

(** a number has one numeral *)
Lemma value_unique base l1 l2 : 0 < base -> Forall (fun d => 0 <= d < base) l1 -> Forall (fun d => 0 <= d < base) l2 ->
  last l1 <> Some 0 -> last l2 <> Some 0 -> value base l1 = value base l2 -> l1 = l2.
Proof.
  intros Hb H1. revert l2. induction H1 as [|d l1 Hd H1 IH]; intros l2 H2 Hz1 Hz2 Hv.
  - induction H2 as [|d l2 Hd H2 IH]; [done|]. exfalso. assert (0 <= value base l2) as H0.
    { clear -H2 Hb. induction H2 as [|y l2 Hy _ IH]; [done|]. change (value base (y :: l2)) with (y + base * value base l2). nia. }
    change (value base (d :: l2)) with (d + base * value base l2) in Hv. change (value base []) with 0 in *. assert (d = 0 /\ value base l2 = 0) as [-> E] by nia.
    destruct l2 as [|y l2]; [by apply Hz2|]. by discriminate (IH Hz2 (eq_sym E)).
  - assert (forall y l, 0 <= y < base -> value base (y :: l) mod base = y /\ value base (y :: l) / base = value base l) as Hdm.
    { intros y l Hy. change (value base (y :: l)) with (y + base * value base l). rewrite Z.mul_comm, Z_mod_plus_full, Z.mod_small, Z_div_plus_full, Z.div_small by lia. lia. }
    pose proof (Hdm d l1 Hd) as [Hm Hq]. destruct H2 as [|y l2 Hy H2].
    + rewrite Hv in Hm, Hq. change (value base []) with 0 in Hm, Hq. rewrite Z.mod_0_l, Z.div_0_l in * by lia. subst d.
      destruct l1 as [|x l1]; [by destruct Hz1|]. by discriminate (IH [] (Forall_nil_2 _) Hz1 ltac:(done) (eq_sym Hq)).
    + pose proof (Hdm y l2 Hy) as [Hm' Hq']. rewrite Hv in Hm, Hq. rewrite Hm in Hm'. rewrite Hq in Hq'. subst y. f_equal. apply IH; [done| | |done].
      * by destruct l1.
      * by destruct l2.
Qed.
Lemma numeral_unique base x l1 l2 : 0 < base -> numeral base x l1 -> numeral base x l2 -> l1 = l2.
Proof.
  intros Hb [H1 <- L1] [H2 E L2]. assert (forall l, (exists d, last l = Some d /\ d <> 0) -> Forall (fun d => 0 <= d < base) l -> value base l <> 0) as Hnz.
  { intros l (d & Hl & Hd) Hf Hv. assert (l = []) as -> by (apply (value_unique base); [done|done|constructor|congruence|done|done]). done. }
  destruct L1 as [L1| ->], L2 as [L2| ->].
  - destruct L1 as (? & ? & ?), L2 as (? & ? & ?). apply (value_unique base); [done|done|done|congruence|congruence|done].
  - destruct (Hnz _ L1 H1). rewrite <-E. unfold value. cbn. lia.
  - destruct (Hnz _ L2 H2). rewrite E. unfold value. cbn. lia.
  - done.
Qed.

Section numeral.
Context {T : Type} (digs : list Z) (Hdigs : length digs = 16%nat).
Definition digit (d : Z) : Z := default 0 (at_ digs d).
Definition shown (ds : list Z) : list Z := rev (digit <$> ds).
Lemma at_digits d : 0 <= d < 16 -> at_ digs d = Some (digit d).
Proof using Hdigs. intros Hd. unfold digit. destruct (at_is_Some digs d) as [x ->]; [rewrite Hdigs; lia|done]. Qed.

Lemma print_digits fuel base x Q (s : T) : (16 < fuel)%nat -> 2 <= base <= 16 -> 0 <= x < base ^ 16 ->
  (forall b i ds, numeral base x ds -> length b = 16%nat -> i = Z.of_nat (length ds) -> (length ds <= 16)%nat ->
    (forall j d, ds !! j = Some d -> at_ b (Z.of_nat j) = Some (digit d)) -> Q (b, i) s) ->
  wp (loop fuel (fun v : list Z * Z * Z =>
    let '(b, i, x) := v in
    d ← deref (fun _ => at_ digs (x mod base));
    b ← bput b i d;
    let x := x / base in
    mret (if negb (x =? 0) then inl (b, i + 1, x) else inr (b, i + 1))) (replicate 16 0, 0, x)) Q s.
Proof using Hdigs.
  intros Hfuel Hbase Hx HQ.
  eapply (wp_loop _ _ _ _ _ (fun '(b, i, y) s' => s' = s /\ length b = 16%nat /\ 0 <= i < 16 /\ 0 <= y < base ^ (16 - i) /\ (i <> 0 -> y <> 0) /\
    exists ds, i = Z.of_nat (length ds) /\ Forall (fun d => 0 <= d < base) ds /\ x = value base ds + base ^ i * y /\
      forall j d, ds !! j = Some d -> at_ b (Z.of_nat j) = Some (digit d)) (fun '(b, i, y) => Z.to_nat (16 - i))).
  - split; [done|]. split; [done|]. split; [lia|]. split; [done|]. split; [done|]. exists []. cbn. split; [done|]. split; [constructor|]. split; [lia|done].
  - lia.
  - intros [[b i] y] s' (-> & Hb & Hi & Hy & Hnz & ds & Hlen & Hds & Hval & Hat). pose proof (Z.mod_pos_bound y base ltac:(lia)) as Hm.
    pose proof (at_digits (y mod base) ltac:(lia)) as Hd. wp_step. eapply wp_deref; [exact Hd|]. unfold bput. wp_step. wp_step.
    destruct (at_is_Some b i ltac:(lia)) as [z Hz]. eapply wp_deref; [exact Hz|]. wp_step. wp_step.
    pose proof (Z.div_mod y base ltac:(lia)) as Hdm. pose proof (Z.div_pos y base ltac:(lia) ltac:(lia)) as Hdp.
    assert (value base (ds ++ [y mod base]) + base ^ (i + 1) * (y / base) = x) as Hval'.
    { rewrite value_app, Hval, Z.pow_add_r, <-Hlen, Z.pow_1_r by lia. unfold value at 2. cbn [foldr]. rewrite Hdm at 3. lia. }
    assert (Forall (fun d => 0 <= d < base) (ds ++ [y mod base])) as Hds' by (apply Forall_app; split; [done|by apply Forall_singleton]).
    assert (forall j d, (ds ++ [y mod base]) !! j = Some d -> at_ (put b i (digit (y mod base))) (Z.of_nat j) = Some (digit d)) as Hat'.
    { intros j d [Hj|[Hge Hj]]%lookup_app_Some.
      - pose proof (lookup_lt_Some _ _ _ Hj). rewrite at_put_ne by lia. by apply Hat.
      - apply list_lookup_singleton_Some in Hj as [Hj <-]. replace (Z.of_nat j) with i by lia. apply at_put_eq. lia. }
    destruct (Z.eqb_spec (y / base) 0) as [E|Hne]; cbn [negb].
    + apply (HQ _ _ (ds ++ [y mod base])); [|by rewrite length_put|rewrite length_app; cbn; lia|rewrite length_app; cbn; lia|done].
      split; [done|rewrite E in Hval'; lia|]. rewrite last_snoc. destruct (decide (i = 0)) as [->|Hi0].
      * destruct ds; [|cbn in Hlen; lia]. destruct (decide (y mod base = 0)) as [Ey|Hne]; [right; cbn; by rewrite Ey|left; by eexists].
      * left. specialize (Hnz Hi0). rewrite E in Hdm. eexists. split; [done|]. lia.
    + assert (i + 1 < 16) as Hi1.
      { destruct (decide (i = 15)) as [->|]; [|lia]. exfalso. apply Hne. apply Z.div_small. change (16 - 15) with 1 in Hy. lia. }
      split; [|lia]. split; [done|]. split; [by rewrite length_put|]. split; [lia|]. split.
      { split; [lia|]. apply Z.div_lt_upper_bound; [lia|]. rewrite <-Z.pow_succ_r by lia. replace (Z.succ (16 - (i + 1))) with (16 - i) by lia. lia. }
      split; [done|]. exists (ds ++ [y mod base]). split; [rewrite length_app; cbn; lia|]. split; [done|]. split; [lia|done].
Qed.


(** printing the buffer: [emit] adds one character to what [add] adds to *)
Context (emit : Z -> M T unit) (add : list Z -> T -> T) (ok : T -> Prop).
Hypothesis add_nil : forall s, add [] s = s.
Hypothesis add_add : forall o o' s, add o' (add o s) = add (o ++ o') s.
Hypothesis add_ok : forall o s, ok s -> ok (add o s).
Hypothesis emit_add : forall d s, ok s -> 0 <= d < 16 -> wp (emit (digit d)) (fun _ s' => s' = add [digit d] s) s.
Lemma print_buf b ds Q (s : T) : ok s -> Forall (fun d => 0 <= d < 16) ds ->
  (forall j d, ds !! j = Some d -> at_ b (Z.of_nat j) = Some (digit d)) -> Q tt (add (shown ds) s) ->
  wp (loop (S (Z.to_nat (Z.of_nat (length ds)))) (fun i =>
    let i := i - 1 in
    if 0 <=? i then c ← deref (fun _ => at_ b i); emit c ;; mret (inl i) else mret (inr tt)) (Z.of_nat (length ds))) Q s.
Proof using Hdigs add_nil add_add add_ok emit_add.
  intros Hp Hds Hat HQ. rewrite Nat2Z.id. revert s Hp HQ. induction ds as [|d ds IH] using rev_ind; intros s Hp HQ.
  { cbn. unfold shown in HQ. cbn in HQ. by rewrite add_nil in HQ. }
  apply Forall_app in Hds as [Hds Hd]. rewrite Forall_singleton in Hd. rewrite length_app. cbn [length]. rewrite Nat.add_1_r.
  change (loop (S (S (length ds))) ?f) with (fun v => f v ≫= fun r => match r with inl v' => loop (S (length ds)) f v' | inr r => mret r end).
  cbn beta zeta. replace (Z.of_nat (S (length ds)) - 1) with (Z.of_nat (length ds)) by lia. destruct (Z.leb_spec 0 (Z.of_nat (length ds))); [|lia].
  wp_step. wp_step. eapply wp_deref; [apply Hat; by apply list_lookup_middle|]. wp_step.
  eapply wp_mono; [by apply emit_add|]. cbn beta. intros _ s' ->. wp_steps. apply IH; [done| |by apply add_ok|].
  - intros j x Hj. apply Hat. by apply lookup_app_l_Some.
  - rewrite add_add. unfold shown in *. rewrite fmap_app, rev_app_distr in HQ. exact HQ.
Qed.

End numeral.
End Numeral.
