(* ===== verification/Console.v ===== *)
(** * The console (src/src/console.c)

    The input buffer with its three 32-bit indices and the line editor that
    fills it from the keyboard, the reads that empty it, and cprintf.  What is
    sent to the UART is recorded; what has been received and not yet fetched
    waits in [rx].  consoleread is modelled from one sleep to the next, as the
    pipes are.  procdump() is the one of Proc.v printed line by line; the stack
    walk show_callstk() behind it is a parameter that only prints. *)

From S2P Require Import Prelude.
From S2P Require Import Bytes.
From S2P Require Import Numeral.
From S2P Require Import Store.
Import Numeral.
From S2P Require Import Fs.
From S2P Require Import Content.
From S2P Require Import Inode.
From S2P Require Import FileIO.

Module Console.
Import Store.

Definition INPUT_BUF : Z := 512.
Definition BACKSPACE : Z := 0x100.
(** Control-x *)
Definition C (x : Z) : Z := x - 64.
Definition NEWLINE : Z := 10.
Definition RETURN : Z := 13.
Definition DELETE : Z := 127.

(** struct input, but for its lock *)
Record input := MkInput {
  buf : list Z;
  r : Z;  (* Read index *)
  w : Z;  (* Write index *)
  e : Z;  (* Edit index *)
}.

Section console.
Context {B : Type} {BS : BlockStore B}.

(** the file system, the console with its two locks, the UART's two ends, and
    of the process that runs: the buffer it reads into or writes from and its killed flag *)
Record st := St {
  fs : Fs.st B;
  inp : input;
  inp_lock : bool;
  cons_lock : bool;
  locking : Z;
  panicked : Z;
  out : list Z;
  rx : list Z;
  ubuf : list Z;
  killed : Z;
  wakes : list chan;
  ptable : list (Z * string * list Z);
}.
Definition fs_lens : lens st (Fs.st B) := Lens fs (fun x s =>
  St x (inp s) (inp_lock s) (cons_lock s) (locking s) (panicked s) (out s) (rx s) (ubuf s) (killed s) (wakes s) (ptable s)).
Definition input_lock : lens st bool := Lens inp_lock (fun b s =>
  St (fs s) (inp s) b (cons_lock s) (locking s) (panicked s) (out s) (rx s) (ubuf s) (killed s) (wakes s) (ptable s)).
Definition conslock : lens st bool := Lens cons_lock (fun b s =>
  St (fs s) (inp s) (inp_lock s) b (locking s) (panicked s) (out s) (rx s) (ubuf s) (killed s) (wakes s) (ptable s)).
Definition with_inp (i : input) (s : st) : st :=
  St (fs s) i (inp_lock s) (cons_lock s) (locking s) (panicked s) (out s) (rx s) (ubuf s) (killed s) (wakes s) (ptable s).
Definition with_out (o : list Z) (s : st) : st :=
  St (fs s) (inp s) (inp_lock s) (cons_lock s) (locking s) (panicked s) (out s ++ o) (rx s) (ubuf s) (killed s) (wakes s) (ptable s).
Definition with_rx (l : list Z) (s : st) : st :=
  St (fs s) (inp s) (inp_lock s) (cons_lock s) (locking s) (panicked s) (out s) l (ubuf s) (killed s) (wakes s) (ptable s).
Definition with_ubuf (l : list Z) (s : st) : st :=
  St (fs s) (inp s) (inp_lock s) (cons_lock s) (locking s) (panicked s) (out s) (rx s) l (killed s) (wakes s) (ptable s).
Definition with_wake (c : chan) (s : st) : st :=
  St (fs s) (inp s) (inp_lock s) (cons_lock s) (locking s) (panicked s) (out s) (rx s) (ubuf s) (killed s) (wakes s ++ [c]) (ptable s).

(** uartputc() of uart.c *)
Definition uartputc (c : Z) : M st unit := modify (with_out [c]).
(** uartgetc() of uart.c: the next byte received, or -1 *)
Definition uartgetc : M st Z :=
  l ← gets rx;
  match l with [] => mret (-1) | c :: l => modify (with_rx l) ;; mret c end.

(** a panic on another processor freezes this one *)
Definition consputc (c : Z) : M st unit :=
  p ← gets panicked;
  panic_if (negb (p =? 0)) "frozen" ;;
  if c =? BACKSPACE then uartputc 8 ;; uartputc 32 ;; uartputc 8 else uartputc c.

(** ** Printing *)

Definition digits : list Z := [48; 49; 50; 51; 52; 53; 54; 55; 56; 57; 97; 98; 99; 100; 101; 102].
Definition printint (xx base sign : Z) : M st unit :=
  (* xx is a uint64 *)
  let neg := negb (sign =? 0) && (xx <? 0) in
  let x := if neg then u64 (- xx) else xx in
  v ← loop 65 (fun v : list Z * Z * Z =>
    let '(b, i, x) := v in
    d ← deref (fun _ => at_ digits (x mod base));
    b ← bput b i d;
    let x := x / base in
    mret (if negb (x =? 0) then inl (b, i + 1, x) else inr (b, i + 1))) (replicate 16 0, 0, x);
  let '(b, i) := v : list Z * Z in
  v ← (if neg then b ← bput b i 45; mret (b, i + 1) else mret (b, i));
  let '(b, i) := v : list Z * Z in
  loop (S (Z.to_nat i)) (fun i =>
    let i := i - 1 in
    if 0 <=? i then c ← deref (fun _ => at_ b i); consputc c ;; mret (inl i) else mret (inr tt)) i.

(** consputc of the characters up to the NUL *)
Definition putstr (s : list Z) : M st unit :=
  loop (S (length s)) (fun i =>
    c ← deref (fun _ => at_ (s ++ [0]) i);
    if c =? 0 then mret (inr tt) else consputc c ;; mret (inl (i + 1))) 0.
Definition chars (s : string) : list Z := (fun a => Z.of_nat (Ascii.nat_of_ascii a)) <$> String.list_ascii_of_string s.

(** what va_arg finds: an integer, or a char pointer that may be null *)
Inductive arg : Type :=
| AInt (v : Z)
| AStr (s : option (list Z)).
Definition next_int (l : list arg) : M st (Z * list arg) :=
  match l with AInt v :: l => mret (v, l) | _ => undef end.
Definition next_str (l : list arg) : M st (option (list Z) * list arg) :=
  match l with AStr s :: l => mret (s, l) | _ => undef end.

(** one % sequence, its letter being [c] *)
Definition cprintf_conv (c : Z) (l : list arg) : M st (list arg) :=
  if c =? 100 (* d *) then v ← next_int l; printint (u32 v.1) 10 1 ;; mret v.2
  else if (c =? 120) || (c =? 112) (* x, p *) then v ← next_int l; printint (u64 v.1) 16 0 ;; mret v.2
  else if c =? 115 (* s *) then
    v ← next_str l;
    putstr (default (chars "(null)") v.1) ;;
    mret v.2
  else if c =? 37 then consputc 37 ;; mret l
  else consputc 37 ;; consputc c ;; mret l.
Definition cprintf_body (fmt : list Z) (v : Z * list arg) : M st (Z * list arg + unit) :=
  let '(i, l) := v in
  c ← deref (fun _ => at_ (fmt ++ [0]) i);
  if c =? 0 then mret (inr tt) else
  if negb (c =? 37) then consputc c ;; mret (inl (i + 1, l)) else
  c ← deref (fun _ => at_ (fmt ++ [0]) (i + 1));
  if c =? 0 then mret (inr tt) else
  l ← cprintf_conv c l;
  mret (inl (i + 2, l)).
Definition cprintf (fmt : option (list Z)) (l : list arg) : M st unit :=
  lk ← gets locking;
  when (negb (lk =? 0)) (acquire conslock) ;;
  match fmt with
  | None => panic "null fmt"
  | Some fmt =>
      loop (S (length fmt)) (cprintf_body fmt) (0, l) ;;
      when (negb (lk =? 0)) (release conslock)
  end.

(** ** The line editor *)

Context (show_callstk : M st unit).

(** the loop of procdump() over the entries in use *)
Definition procdump : M st unit :=
  ps ← gets ptable;
  loop (S (length ps)) (fun ps : list (Z * string * list Z) =>
    match ps with
    | [] => mret (inr tt)
    | (pid, state, name) :: ps =>
        cprintf (Some (chars "%d %s %s" ++ [NEWLINE])) [AInt pid; AStr (Some (chars state)); AStr (Some name)] ;;
        mret (inl ps)
    end) ps ;;
  show_callstk.

(** the address slept on: &input.r *)
Definition ch_input : chan := Chan "input.r" 0.
Definition wakeup (c : chan) : M st unit := modify (with_wake c).
Definition input_at (i : Z) : M st Z := deref (fun s => at_ (buf (inp s)) (i mod INPUT_BUF)).
Definition set_r (v : Z) : M st unit := modify (fun s => with_inp (MkInput (buf (inp s)) v (w (inp s)) (e (inp s))) s).
Definition set_w (v : Z) : M st unit := modify (fun s => with_inp (MkInput (buf (inp s)) (r (inp s)) v (e (inp s))) s).
Definition set_e (v : Z) : M st unit := modify (fun s => with_inp (MkInput (buf (inp s)) (r (inp s)) (w (inp s)) v) s).
(** input.buf[input.e++ % INPUT_BUF] = c *)
Definition input_push (c : Z) : M st unit := modify (fun s => let i := inp s in
  with_inp (MkInput (put (buf i) (e i mod INPUT_BUF) (u8 c)) (r i) (w i) (u32 (e i + 1))) s).

(** Kill line *)
Definition kill_body (_ : unit) : M st (unit + unit) :=
  i ← gets inp;
  if negb (e i =? w i) then
    c ← input_at (u32 (e i - 1));
    if negb (c =? NEWLINE) then set_e (u32 (e i - 1)) ;; consputc BACKSPACE ;; mret (inl tt) else mret (inr tt)
  else mret (inr tt).
Definition consoleintr_key (c : Z) : M st unit :=
  if c =? C 80 then procdump else
  if c =? C 85 then
    i ← gets inp;
    loop (S (Z.to_nat (u32 (e i - w i)))) kill_body tt
  else if (c =? C 72) || (c =? DELETE) then
    i ← gets inp;
    when (negb (e i =? w i)) (set_e (u32 (e i - 1)) ;; consputc BACKSPACE)
  else
    i ← gets inp;
    when (negb (c =? 0) && (u32 (e i - r i) <? INPUT_BUF)) (
      let c := if c =? RETURN then NEWLINE else c in
      input_push c ;;
      consputc c ;;
      i ← gets inp;
      when ((c =? NEWLINE) || (c =? C 68) || (e i =? u32 (r i + INPUT_BUF))) (set_w (e i) ;; wakeup ch_input)).
Definition consoleintr_body (_ : unit) : M st (unit + unit) :=
  c ← uartgetc;
  if 0 <=? c then consoleintr_key c ;; mret (inl tt) else mret (inr tt).
(** consoleintr(uartgetc) *)
Definition consoleintr : M st unit :=
  acquire input_lock ;;
  fuel ← gets (fun s => S (length (rx s)));
  loop fuel consoleintr_body tt ;;
  release input_lock.

(** ** Reading and writing *)

(** one round of the outer loop; [inr None] is its end, [dst] the index target - n *)
Definition consoleread_body (ip target n : Z) : M st (Z + (Z + run Z)) :=
  if negb (0 <? n) then mret (inr (inl n)) else
  i ← gets inp;
  if r i =? w i then
    k ← gets killed;
    if negb (k =? 0) then release input_lock ;; zoom fs_lens (Fs.ilock ip) ;; mret (inr (inr (Ret (-1))))
    else release input_lock ;; mret (inr (inr (Asleep ch_input n)))
  else
    c ← input_at (r i);
    set_r (u32 (r i + 1)) ;;
    if c =? C 68 then (* EOF *)
      (* Save ^D for next time, to make sure caller gets a 0-byte result. *)
      when (u32 n <? target) (i ← gets inp; set_r (u32 (r i - 1))) ;;
      mret (inr (inl n))
    else
      deref (fun s => at_ (ubuf s) (target - n)) ;;
      modify (fun s => with_ubuf (put (ubuf s) (target - n) c) s) ;;
      if c =? NEWLINE then mret (inr (inl (n - 1))) else mret (inl (n - 1)).
(** from the lock's acquisition, or the return of sleep(), with [n] bytes to go *)
Definition consoleread_from (ip target n : Z) : M st (run Z) :=
  acquire input_lock ;;
  x ← loop (S (Z.to_nat n)) (consoleread_body ip target) n;
  match x with
  | inr y => mret y
  | inl n =>
      release input_lock ;;
      zoom fs_lens (Fs.ilock ip) ;;
      mret (Ret (s32 (u32 (target - n))))
  end.
Definition consoleread (ip n : Z) : M st (run Z) :=
  zoom fs_lens (Fs.iunlock ip) ;;
  consoleread_from ip (u32 n) n.

Definition consolewrite (ip n : Z) : M st Z :=
  zoom fs_lens (Fs.iunlock ip) ;;
  acquire conslock ;;
  loop (S (Z.to_nat n)) (fun i =>
    if i <? n then
      c ← deref (fun s => at_ (ubuf s) i);
      consputc (Z.land c 255) ;;
      mret (inl (i + 1))
    else mret (inr tt)) 0 ;;
  release conslock ;;
  zoom fs_lens (Fs.ilock ip) ;;
  mret n.

(** the state consoleinit leaves; the devsw entries it sets are consoleread and consolewrite *)
Definition consoleinit : M st unit :=
  modify (lset conslock false) ;;
  modify (lset input_lock false) ;;
  modify (fun s => St (fs s) (inp s) (inp_lock s) (cons_lock s) 1 (panicked s) (out s) (rx s) (ubuf s) (killed s) (wakes s) (ptable s)).
End console.

(** ** The line editor, abstractly *)

(** what a reader can take, and the line being typed *)
Record ed := Ed {
  queue : list Z;
  line : list Z;
}.
Definition EOT : Z := C 68.
(** a carriage return counts as a newline *)
Definition typed (c : Z) : Z := if c =? RETURN then NEWLINE else c.
Definition key (c : Z) (E : ed) : ed :=
  if c =? C 80 then E
  else if c =? C 85 then Ed (queue E) []
  else if (c =? C 72) || (c =? DELETE) then Ed (queue E) (removelast (line E))
  else if (c =? 0) || (512 <=? length (queue E) + length (line E))%nat then E
  else
    let l := line E ++ [typed c] in
    if (typed c =? NEWLINE) || (typed c =? EOT) || (length (queue E) + length l =? 512)%nat then Ed (queue E ++ l) []
    else Ed (queue E) l.
Definition rubout (n : nat) : list Z := concat (replicate n [8; 32; 8]).
(** what the key prints *)
Definition echo (c : Z) (E : ed) : list Z :=
  if c =? C 85 then rubout (length (line E))
  else if (c =? C 72) || (c =? DELETE) then rubout (match line E with [] => 0 | _ => 1 end)
  else if (c =? 0) || (512 <=? length (queue E) + length (line E))%nat then []
  else [typed c].
Fixpoint echoes (cs : list Z) (E : ed) : list Z :=
  match cs with [] => [] | c :: cs => echo c E ++ echoes cs (key c E) end.
Definition keys (cs : list Z) (E : ed) : ed := foldl (fun E c => key c E) E cs.

(** a read of up to [n] bytes: the bytes delivered, the queue left, and whether
    the read is over (or sleeps for more); [first] says that nothing has been
    delivered yet *)
Fixpoint take_line (first : bool) (n : nat) (q : list Z) : list Z * list Z * bool :=
  match n, q with
  | O, _ => ([], q, true)
  | _, [] => ([], [], false)
  | S n, c :: q' =>
      if c =? EOT then ([], if first then q' else q, true)
      else if c =? NEWLINE then ([c], q', true)
      else let '(l, q', over) := take_line false n q' in (c :: l, q', over)
  end.

Section spec.
Context {B : Type} {BS : BlockStore B}.

(** ** The buffer behind it *)

Record holds_ed (i : input) (E : ed) : Prop := {
  he_buf : length (buf i) = 512%nat;
  he_r : 0 <= r i < 2 ^ 32;
  he_w : w i = u32 (r i + Z.of_nat (length (queue E)));
  he_e : e i = u32 (w i + Z.of_nat (length (line E)));
  he_len : (length (queue E) + length (line E) <= 512)%nat;
  he_at : forall j x, (queue E ++ line E) !! j = Some x -> at_ (buf i) ((r i + Z.of_nat j) mod INPUT_BUF) = Some x;
  he_line : NEWLINE ∉ line E;
}.

Lemma u32_mod x : u32 x mod INPUT_BUF = x mod INPUT_BUF.
Proof. unfold u32, INPUT_BUF. Z.div_mod_to_equations; lia. Qed.
Lemma mod_ne a j k : 0 <= j < 512 -> 0 <= k < 512 -> j <> k -> (a + j) mod INPUT_BUF <> (a + k) mod INPUT_BUF.
Proof. unfold INPUT_BUF. intros. Z.div_mod_to_equations; lia. Qed.
Lemma he_e' i E : holds_ed i E -> e i = u32 (r i + Z.of_nat (length (queue E ++ line E))).
Proof.
  intros H. rewrite (he_e _ _ H), (he_w _ _ H), length_app. unfold u32. rewrite Zplus_mod_idemp_l. f_equal. lia.
Qed.
Lemma he_diff i E : holds_ed i E -> u32 (e i - w i) = Z.of_nat (length (line E)).
Proof.
  intros H. rewrite (he_e _ _ H). pose proof (he_len _ _ H). unfold u32. rewrite Zminus_mod_idemp_l.
  replace (w i + Z.of_nat (length (line E)) - w i) with (Z.of_nat (length (line E))) by lia. apply Z.mod_small. lia.
Qed.
Lemma he_total i E : holds_ed i E -> u32 (e i - r i) = Z.of_nat (length (queue E) + length (line E)).
Proof.
  intros H. rewrite (he_e' _ _ H). pose proof (he_len _ _ H). unfold u32. rewrite Zminus_mod_idemp_l.
  replace (r i + Z.of_nat (length (queue E ++ line E)) - r i) with (Z.of_nat (length (queue E) + length (line E))) by (rewrite length_app; lia).
  apply Z.mod_small. lia.
Qed.
Lemma he_ew i E : holds_ed i E -> (e i =? w i) = match line E with [] => true | _ => false end.
Proof.
  intros H. pose proof (he_diff _ _ H) as Hd. pose proof (he_len _ _ H). apply eq_true_iff_eq. rewrite Z.eqb_eq. split.
  - intros E1. rewrite E1, Z.sub_diag in Hd. destruct (line E); [done|by cbn in Hd].
  - destruct (line E) as [|x l] eqn:El; [|done]. intros _. rewrite (he_e _ _ H), El. cbn. rewrite Z.add_0_r, (he_w _ _ H).
    unfold u32. by rewrite Zmod_mod.
Qed.
Lemma he_rw i E : holds_ed i E -> (r i =? w i) = match queue E with [] => true | _ => false end.
Proof.
  intros H. pose proof (he_len _ _ H). pose proof (he_r _ _ H). rewrite (he_w _ _ H). apply eq_true_iff_eq. rewrite Z.eqb_eq.
  destruct (queue E) as [|x q]; cbn [length] in *; unfold u32; [rewrite Z.add_0_r, Z.mod_small by done; done|].
  split; [|done]. intros E1. exfalso. Z.div_mod_to_equations; lia.
Qed.

(** taking the last character of the line back *)
Lemma he_back i E l x : holds_ed i E -> line E = l ++ [x] ->
  holds_ed (MkInput (buf i) (r i) (w i) (u32 (e i - 1))) (Ed (queue E) l) /\
  at_ (buf i) (u32 (e i - 1) mod INPUT_BUF) = Some x.
Proof.
  intros H El. pose proof (he_len _ _ H) as Hlen. rewrite El, length_app in Hlen. cbn [length] in Hlen. split.
  - destruct H as [H1 H2 H3 H4 H5 H6 H7]. split; cbn [buf r w e queue line]; try done.
    + rewrite H4, El, length_app. cbn [length]. unfold u32. rewrite Zminus_mod_idemp_l. f_equal. lia.
    + lia.
    + intros j y Hj. apply H6. rewrite El, app_assoc. by apply lookup_app_l_Some.
    + rewrite El in H7. intros Hin. apply H7, elem_of_app. by left.
  - rewrite u32_mod. rewrite (he_e' _ _ H), El, !length_app. cbn [length].
    rewrite <-(he_at _ _ H (length (queue E) + length l)%nat x).
    + f_equal. unfold u32, INPUT_BUF. Z.div_mod_to_equations; lia.
    + rewrite El, app_assoc, lookup_app_r by (rewrite length_app; lia). rewrite length_app, Nat.sub_diag. done.
Qed.
(** one more character at its end, kept back or committed with the line *)
Definition stored (i : input) (c : Z) : input := MkInput (put (buf i) (e i mod INPUT_BUF) (u8 c)) (r i) (w i) (u32 (e i + 1)).
Definition committed (i : input) : input := MkInput (buf i) (r i) (e i) (e i).
Lemma he_stored i E c : holds_ed i E -> (length (queue E) + length (line E) < 512)%nat -> u8 c = c -> forall j x,
  (queue E ++ line E ++ [c]) !! j = Some x -> at_ (buf (stored i c)) ((r i + Z.of_nat j) mod INPUT_BUF) = Some x.
Proof.
  intros H Hlt Hc j x. rewrite app_assoc. cbn [buf stored]. rewrite Hc, (he_e' _ _ H), u32_mod.
  pose proof (he_buf _ _ H) as Hb. rewrite lookup_app_Some. intros [Hj|[Hge Hj]].
  - pose proof (lookup_lt_Some _ _ _ Hj) as Hl. rewrite length_app in *. rewrite at_put_ne; [by apply (he_at _ _ H)|apply Z.mod_pos_bound; done|].
    apply mod_ne; lia.
  - apply list_lookup_singleton_Some in Hj as [Hj <-]. replace j with (length (queue E ++ line E)) by lia. apply at_put_eq.
    rewrite Hb. change (Z.of_nat 512) with INPUT_BUF. by apply Z.mod_pos_bound.
Qed.
Lemma he_keep i E c : holds_ed i E -> (length (queue E) + length (line E) < 512)%nat -> u8 c = c -> c <> NEWLINE ->
  holds_ed (stored i c) (Ed (queue E) (line E ++ [c])).
Proof.
  intros H Hlt Hc Hn. pose proof (he_stored i E c H Hlt Hc) as Hat. split; cbn [queue line]; [|apply (he_r _ _ H)|apply (he_w _ _ H)| | |exact Hat|].
  - cbn [buf stored]. rewrite length_put. apply (he_buf _ _ H).
  - cbn [e w stored]. rewrite (he_e _ _ H), length_app. cbn [length]. unfold u32. rewrite Zplus_mod_idemp_l. f_equal. lia.
  - rewrite length_app. cbn. lia.
  - rewrite elem_of_app, list_elem_of_singleton. intros [?|?]; [by apply (he_line _ _ H)|congruence].
Qed.
Lemma he_commit i E c : holds_ed i E -> (length (queue E) + length (line E) < 512)%nat -> u8 c = c ->
  holds_ed (committed (stored i c)) (Ed (queue E ++ line E ++ [c]) []).
Proof.
  intros H Hlt Hc. pose proof (he_stored i E c H Hlt Hc) as Hat.
  assert (e (stored i c) = u32 (r i + Z.of_nat (length (queue E ++ line E ++ [c])))) as He.
  { cbn [e stored]. rewrite (he_e' _ _ H), app_assoc, (length_app (queue E ++ line E)). cbn [length]. unfold u32. rewrite Zplus_mod_idemp_l. f_equal. lia. }
  split; cbn [queue line committed w e r buf].
  - cbn [buf stored]. rewrite length_put. apply (he_buf _ _ H).
  - apply (he_r _ _ H).
  - exact He.
  - rewrite Z.add_0_r, He. unfold u32. by rewrite Zmod_mod.
  - rewrite !length_app. cbn. lia.
  - rewrite app_nil_r. exact Hat.
  - apply not_elem_of_nil.
Qed.
Lemma he_full i E c : holds_ed i E -> (length (queue E) + length (line E) < 512)%nat ->
  (e (stored i c) =? u32 (r (stored i c) + INPUT_BUF)) = (length (queue E) + length (line E ++ [c]) =? 512)%nat.
Proof.
  intros H Hlt. cbn [e r stored]. rewrite (he_e' _ _ H). rewrite !length_app. cbn [length]. apply eq_true_iff_eq. rewrite Z.eqb_eq, Nat.eqb_eq.
  unfold u32, INPUT_BUF. rewrite Zplus_mod_idemp_l. split; intros Hx; [|f_equal; lia].
  rewrite <-(Z.add_assoc (r i)) in Hx. assert ((Z.of_nat (length (queue E) + length (line E)) + 1 - 512) mod 2 ^ 32 = 0) as Hz.
  { replace (Z.of_nat (length (queue E) + length (line E)) + 1 - 512) with
      (r i + (Z.of_nat (length (queue E) + length (line E)) + 1) - (r i + 512)) by lia. by rewrite Zminus_mod, Hx, Z.sub_diag. }
  Z.div_mod_to_equations; lia.
Qed.
(** the oldest character taken *)
Lemma he_pop i E c q : holds_ed i E -> queue E = c :: q ->
  at_ (buf i) (r i mod INPUT_BUF) = Some c /\ holds_ed (MkInput (buf i) (u32 (r i + 1)) (w i) (e i)) (Ed q (line E)).
Proof.
  intros H Eq. split; [rewrite <-(Z.add_0_r (r i)); apply (he_at _ _ H 0%nat); by rewrite Eq|].
  destruct H as [H1 H2 H3 H4 H5 H6 H7]. rewrite Eq in *. cbn [length] in *. split; cbn [buf r w e queue line]; try done.
  - apply Z.mod_pos_bound. lia.
  - rewrite H3. unfold u32. rewrite Zplus_mod_idemp_l. f_equal. lia.
  - lia.
  - intros j x Hj. rewrite <-(H6 (S j) x Hj). f_equal. unfold u32, INPUT_BUF. Z.div_mod_to_equations; lia.
Qed.

(** ** Printing *)

Lemma out_out o1 o2 (s : st (B := B)) : with_out o2 (with_out o1 s) = with_out (o1 ++ o2) s.
Proof. unfold with_out. cbn. by rewrite app_assoc. Qed.
Lemma out_nil (s : st (B := B)) : with_out [] s = s.
Proof. unfold with_out. rewrite app_nil_r. by destruct s. Qed.
Lemma wp_consputc c Q (s : st (B := B)) : panicked s = 0 -> c <> BACKSPACE -> Q tt (with_out [c] s) -> wp (consputc c) Q s.
Proof.
  intros Hp Hc HQ. unfold consputc. do 3 wp_step. wp_step; [by rewrite Hp|]. apply Z.eqb_neq in Hc. by rewrite Hc.
Qed.
Lemma wp_backspace Q (s : st (B := B)) : panicked s = 0 -> Q tt (with_out [8; 32; 8] s) -> wp (consputc BACKSPACE) Q s.
Proof.
  intros Hp HQ. unfold consputc. do 3 wp_step. wp_step; [by rewrite Hp|]. cbn [Z.eqb BACKSPACE Pos.eqb]. unfold uartputc.
  wp_step. apply wp_modify. wp_step. apply wp_modify. apply wp_modify. by rewrite !out_out.
Qed.

(** the characters printint prints *)
Abbreviation numeral_out := (shown digits).
Lemma digit_char d : 0 <= d < 16 -> digit digits d <> BACKSPACE.
Proof.
  intros Hd. assert (forallb (fun d => negb (digit digits d =? BACKSPACE)) (seqZ 0 16) = true) as H by reflexivity.
  pose proof (forallb_seqZ _ _ _ H d ltac:(lia)) as Hx. apply negb_true_iff in Hx. by apply Z.eqb_neq.
Qed.
Lemma printint_prints xx base sign Q (s : st (B := B)) : panicked s = 0 -> 2 <= base <= 16 -> 0 <= xx < base ^ 16 ->
  (forall ds, numeral base xx ds -> Q tt (with_out (numeral_out ds) s)) -> wp (printint xx base sign) Q s.
Proof.
  intros Hp Hbase Hx HQ. unfold printint. assert (negb (sign =? 0) && (xx <? 0) = false) as ->.
  { destruct (Z.ltb_spec xx 0); [lia|]. by rewrite andb_false_r. }
  wp_step. apply (print_digits digits eq_refl); [lia|done|done|]. intros b i ds Hnu Hb Hi Hlen Hat. wp_step. wp_step. subst i.
  apply (print_buf digits eq_refl consputc with_out (fun s => panicked s = 0)); try done.
  - apply out_nil.
  - intros o o' s'. apply out_out.
  - intros d s' Hs Hd. apply wp_consputc; [done|by apply digit_char|done].
  - eapply Forall_impl; [exact (nu_digits _ _ _ Hnu)|]. cbn. lia.
  - by apply HQ.
Qed.

(** code that prints and does nothing else *)
Definition prints {A} (m : M (st (B := B)) A) (s : st) : Prop := wp m (fun _ s' => exists o, s' = with_out o s) s.
Lemma prints_bind {A A'} (m : M (st (B := B)) A) (f : A -> M st A') s :
  prints m s -> (forall a o, prints (f a) (with_out o s)) -> prints (m ≫= f) s.
Proof.
  intros Hm Hf. unfold prints. wp_step. eapply wp_mono; [exact Hm|]. cbn beta. intros a s' [o ->].
  eapply wp_mono; [apply Hf|]. cbn beta. intros a' s' [o' ->]. exists (o ++ o'). apply out_out.
Qed.
Lemma prints_ret {A} (a : A) (s : st (B := B)) : prints (mret a) s.
Proof. exists []. by rewrite out_nil. Qed.
Lemma prints_char c (s : st (B := B)) : panicked s = 0 -> prints (consputc c) s.
Proof.
  intros Hp. destruct (decide (c = BACKSPACE)) as [->|Hc]; [apply wp_backspace; [done|]; by eexists|]. apply wp_consputc; [done|done|]. by eexists.
Qed.
Lemma prints_loop {V R} fuel (body : V -> M (st (B := B)) (V + R)) v (Inv : V -> Prop) (mu : V -> nat) s : Inv v -> (mu v < fuel)%nat ->
  (forall v s', Inv v -> panicked s' = panicked s -> locking s' = locking s -> cons_lock s' = cons_lock s ->
    wp (body v) (fun x s'' => (exists o, s'' = with_out o s') /\ match x with inl v' => Inv v' /\ (mu v' < mu v)%nat | inr _ => True end) s') ->
  prints (loop fuel body v) s.
Proof.
  intros Hi Hmu Hb. eapply (wp_loop _ _ _ _ _ (fun v s' => Inv v /\ exists o, s' = with_out o s) mu); [|done|].
  - split; [done|]. exists []. by rewrite out_nil.
  - intros v' s' [Hv [o ->]]. eapply wp_mono; [by apply Hb|]. cbn beta. intros [v2|x] s' [[o' ->] H].
    + destruct H as [H ?]. split; [|done]. split; [done|]. exists (o ++ o'). by rewrite out_out.
    + exists (o ++ o'). by rewrite out_out.
Qed.
Lemma prints_str l (s : st (B := B)) : panicked s = 0 -> prints (putstr l) s.
Proof.
  intros Hp. unfold putstr. eapply (prints_loop _ _ _ (fun i => 0 <= i <= Z.of_nat (length l)) (fun i => Z.to_nat (Z.of_nat (length l) - i))); [lia|lia|].
  intros i s' Hi Hp' _ _. destruct (at_is_Some (l ++ [0]) i) as [c Hc]; [rewrite length_app; cbn; lia|]. wp_step. eapply wp_deref; [exact Hc|].
  destruct (Z.eqb_spec c 0) as [->|Hne]; [wp_step; split; [apply (prints_ret tt)|done]|].
  wp_step. eapply wp_mono; [apply prints_char; congruence|]. cbn beta. intros _ s2 [o ->]. wp_step. split; [by exists o|].
  assert (i <> Z.of_nat (length l)) as Hil; [|lia]. intros ->. unfold at_ in Hc. rewrite Nat2Z.id in Hc.
  destruct (Z.leb_spec 0 (Z.of_nat (length l))); [|lia]. rewrite list_lookup_middle in Hc by done. congruence.
Qed.
(** the arguments fit the conversions of the format *)
Fixpoint fits (fmt : list Z) (l : list arg) : Prop :=
  match fmt with
  | [] => True
  | c :: fmt' =>
      if c =? 37 then
        match fmt' with
        | [] => True
        | d :: fmt'' =>
            if (d =? 100) || (d =? 120) || (d =? 112) then match l with AInt _ :: l => fits fmt'' l | _ => False end
            else if d =? 115 then match l with AStr _ :: l => fits fmt'' l | _ => False end
            else fits fmt'' l
        end
      else fits fmt' l
  end.
Lemma prints_conv c l (s : st (B := B)) : panicked s = 0 -> (if (c =? 100) || (c =? 120) || (c =? 112) then exists v l', l = AInt v :: l'
    else if c =? 115 then exists t l', l = AStr t :: l' else True) ->
  wp (cprintf_conv c l) (fun l' s' => (exists o, s' = with_out o s) /\
    l' = if (c =? 100) || (c =? 120) || (c =? 112) || (c =? 115) then tail l else l) s.
Proof.
  intros Hp Hl. unfold cprintf_conv.
  assert (forall v base, 2 <= base <= 16 -> 0 <= v < base ^ 16 -> wp (printint v base 1) (fun _ s' => exists o, s' = with_out o s) s /\
    wp (printint v base 0) (fun _ s' => exists o, s' = with_out o s) s) as Hint.
  { intros v base Hb Hv. split; apply printint_prints; try done; intros ds _; by eexists. }
  destruct (Z.eqb_spec c 100) as [->|H1]; cbn [orb] in *.
  { destruct Hl as (v & l' & ->). cbn [next_int]. wp_step. wp_step. cbn [fst snd tail]. wp_step.
    eapply wp_mono; [apply Hint; [done|]|].
    - pose proof (Z.mod_pos_bound v (2 ^ 32) ltac:(lia)). unfold u32. lia.
    - cbn beta. intros _ s' Ho. by wp_step. }
  destruct (_ || _) eqn:E; cbn [orb] in *.
  { destruct Hl as (v & l' & ->). cbn [next_int]. wp_step. wp_step. cbn [fst snd tail]. wp_step.
    eapply wp_mono; [apply Hint; [done|]|].
    - pose proof (Z.mod_pos_bound v (2 ^ 64) ltac:(lia)). unfold u64. lia.
    - cbn beta. intros _ s' Ho. by wp_step. }
  destruct (Z.eqb_spec c 115) as [->|H4].
  { destruct Hl as (t & l' & ->). cbn [next_str]. wp_step. wp_step. cbn [fst snd tail]. wp_step. eapply wp_mono; [by apply prints_str|].
    cbn beta. intros _ s' Ho. by wp_step. }
  destruct (Z.eqb_spec c 37).
  - wp_step. eapply wp_mono; [by apply prints_char|]. cbn beta. intros _ s' Ho. by wp_step.
  - wp_step. eapply wp_mono; [by apply prints_char|]. cbn beta. intros _ s' [o ->]. wp_step. eapply wp_mono; [by apply prints_char|].
    cbn beta. intros _ s' [o' ->]. wp_step. split; [|done]. exists (o ++ o'). by rewrite out_out.
Qed.

Lemma prints_body fmt v (s : st (B := B)) : panicked s = 0 -> 0 <= v.1 <= Z.of_nat (length fmt) -> fits (drop (Z.to_nat v.1) fmt) v.2 ->
  wp (cprintf_body fmt v) (fun x s' => (exists o, s' = with_out o s) /\
    match x with inl v' => v.1 < v'.1 <= Z.of_nat (length fmt) /\ fits (drop (Z.to_nat v'.1) fmt) v'.2 | inr _ => True end) s.
Proof.
  destruct v as [i l]. cbn [fst snd]. intros Hp Hi Hf. unfold cprintf_body.
  assert (forall k, 0 <= k <= Z.of_nat (length fmt) -> exists c, at_ (fmt ++ [0]) k = Some c /\
    (c <> 0 -> k < Z.of_nat (length fmt) /\ drop (Z.to_nat k) fmt = c :: drop (Z.to_nat (k + 1)) fmt)) as Hat.
  { intros k Hk. destruct (at_is_Some (fmt ++ [0]) k) as [c Hc]; [rewrite length_app; cbn; lia|]. exists c. split; [done|]. intros Hc0.
    unfold at_ in Hc. destruct (Z.leb_spec 0 k); [|lia]. apply lookup_app_Some in Hc as [Hc|[_ Hc]].
    - split; [apply lookup_lt_Some in Hc; lia|]. replace (Z.to_nat (k + 1)) with (S (Z.to_nat k)) by lia. by apply drop_S.
    - apply list_lookup_singleton_Some in Hc as [_ <-]. done. }
  destruct (Hat i Hi) as (c & Hc & Hcn). wp_step. eapply wp_deref; [exact Hc|].
  destruct (Z.eqb_spec c 0) as [Ec0|Hc0]; [wp_step; split; [apply (prints_ret tt)|done]|]. destruct (Hcn Hc0) as [Hlt Hd]. rewrite Hd in Hf. cbn [fits] in Hf.
  destruct (Z.eqb_spec c 37) as [Ec37|Hne]; cbn [negb].
  - destruct (Hat (i + 1) ltac:(lia)) as (d & Hdc & Hdn). wp_step. eapply wp_deref; [exact Hdc|].
    destruct (Z.eqb_spec d 0) as [Ed0|Hd0]; [wp_step; split; [apply (prints_ret tt)|done]|]. destruct (Hdn Hd0) as [Hlt' Hd']. rewrite Hd' in Hf.
    replace (i + 1 + 1) with (i + 2) in Hf by lia. wp_step.
    assert (exists l', fits (drop (Z.to_nat (i + 2)) fmt) l' /\ l' = (if (d =? 100) || (d =? 120) || (d =? 112) || (d =? 115) then tail l else l)
      /\ if (d =? 100) || (d =? 120) || (d =? 112) then exists v l', l = AInt v :: l' else if d =? 115 then exists t l', l = AStr t :: l' else True)
      as (l' & Hl' & El & Hfit).
    { destruct ((d =? 100) || (d =? 120) || (d =? 112)); cbn [orb]; [destruct l as [|[v|t] l]; [done| |done]; exists l; split; [done|]; split; [done|]; by exists v, l|].
      destruct (d =? 115); [destruct l as [|[v|t] l]; [done|done|]; exists l; split; [done|]; split; [done|]; by exists t, l|]. by exists l. }
    eapply wp_mono; [by apply prints_conv|]. cbn beta. intros l2 s' [Ho ->]. wp_step. split; [done|]. cbn [fst snd]. rewrite <-El. split; [lia|done].
  - wp_step. eapply wp_mono; [by apply prints_char|]. cbn beta. intros _ s' Ho. wp_step. split; [done|]. cbn [fst snd]. split; [lia|done].
Qed.
Lemma prints_cprintf fmt l (s : st (B := B)) : panicked s = 0 -> cons_lock s = false -> fits fmt l -> prints (cprintf (Some fmt) l) s.
Proof.
  intros Hp Hlk Hf. unfold prints, cprintf. wp_step. wp_step. wp_step.
  assert (forall s0, panicked s0 = 0 -> prints (loop (S (length fmt)) (cprintf_body fmt) (0, l)) s0) as Hloop.
  { intros s0 Hp0. apply (prints_loop _ _ _ (fun v => 0 <= v.1 <= Z.of_nat (length fmt) /\ fits (drop (Z.to_nat v.1) fmt) v.2)
      (fun v => Z.to_nat (Z.of_nat (length fmt) - v.1))).
    - split; [cbn; lia|done].
    - cbn. lia.
    - intros v s' [Hv Hfv] Hp' _ _. eapply wp_mono; [apply prints_body; [congruence|done|done]|]. cbn beta. intros [v'|x] s2 [Ho H]; (split; [done|]); [|done].
      destruct H as [? ?]. split; [split; [lia|done]|]. lia. }
  destruct (Z.eqb_spec (locking s) 0) as [E|Hne]; cbn [negb when].
  - wp_step. wp_step. eapply wp_mono; [by apply Hloop|]. cbn beta. intros _ s' [o ->]. wp_step. by exists o.
  - wp_step; [done|]. wp_step. eapply wp_mono; [by apply Hloop|]. cbn beta. intros _ s' [o ->]. wp_step; [done|]. exists o.
    unfold with_out. cbn. by rewrite Hlk.
Qed.

Context (show_callstk : M (st (B := B)) unit).
Hypothesis callstk_prints : forall s, panicked s = 0 -> cons_lock s = false -> prints show_callstk s.

Lemma prints_procdump (s : st (B := B)) : panicked s = 0 -> cons_lock s = false -> prints (procdump show_callstk) s.
Proof using callstk_prints.
  intros Hp Hlk. unfold procdump. apply prints_bind; [by exists []; rewrite out_nil|]. intros ps o. apply prints_bind.
  - apply (prints_loop _ _ _ (fun _ => True) length); [done|lia|]. intros [|[[pid state] name] l] s' _ Hp' _ Hl'.
    + wp_step. split; [apply (prints_ret tt)|done].
    + wp_step. eapply wp_mono; [apply prints_cprintf; [by rewrite Hp'|by rewrite Hl'|done]|]. cbn beta. intros _ s2 Ho. wp_step. split; [done|]. cbn. split; [done|lia].
  - intros _ o'. by apply callstk_prints.
Qed.

(** ** The interrupt *)

(** the state after some keys: the buffer, what was printed, who was woken *)
Definition upd (i : input) (o : list Z) (ws : list chan) (s : st (B := B)) : st :=
  St (fs s) i (inp_lock s) (cons_lock s) (locking s) (panicked s) (out s ++ o) (rx s) (ubuf s) (killed s) (wakes s ++ ws) (ptable s).
Lemma upd_upd i o ws i' o' ws' s : upd i' o' ws' (upd i o ws s) = upd i' (o ++ o') (ws ++ ws') s.
Proof. unfold upd. cbn. by rewrite !app_assoc. Qed.
Lemma upd_nil s : upd (inp s) [] [] s = s.
Proof. unfold upd. rewrite !app_nil_r. by destruct s. Qed.
Lemma upd_out i o o' ws s : with_out o' (upd i o ws s) = upd i (o ++ o') ws s.
Proof. unfold upd, with_out. cbn. by rewrite app_assoc. Qed.
Lemma upd_inp i i' o ws s : with_inp i' (upd i o ws s) = upd i' o ws s.
Proof. done. Qed.

Lemma rubout_S n : rubout (S n) = [8; 32; 8] ++ rubout n.
Proof. done. Qed.
Lemma kill_line s E : holds_ed (inp s) E -> panicked s = 0 ->
  wp (loop (S (length (line E))) kill_body tt) (fun _ s' => exists i', s' = upd i' (rubout (length (line E))) [] s /\ holds_ed i' (Ed (queue E) [])) s.
Proof.
  remember (length (line E)) as n eqn:En. revert s E En. induction n as [|n IH]; intros s E En H Hp.
  - cbn [loop]. unfold kill_body. do 3 wp_step. rewrite (he_ew _ _ H). destruct E as [q l]. destruct l; [|done]. cbn [negb line queue]. wp_steps.
    exists (inp s). split; [|done]. change (rubout 0) with (@nil Z). by rewrite upd_nil.
  - destruct (line E) as [|x l _] eqn:El using rev_ind; [done|]. rewrite length_app in En. cbn [length] in En.
    destruct (he_back _ _ _ _ H El) as [Hb Hx]. assert (x <> NEWLINE) as Hn.
    { intros ->. apply (he_line _ _ H). rewrite El. apply elem_of_app. right. by apply list_elem_of_singleton. }
    rewrite rubout_S. change (loop (S (S n)) (kill_body (B := B))) with (fun v => kill_body (B := B) v ≫= fun r => match r with inl v' => loop (S n) kill_body v' | inr r => mret r end).
    cbn beta. wp_step. unfold kill_body at 1. do 2 wp_step. rewrite (he_ew _ _ H). rewrite El. destruct (l ++ [x]) as [|y l'] eqn:Ey; [by destruct l|]. cbn [negb].
    wp_step. unfold input_at at 1. eapply wp_deref; [exact Hx|]. apply Z.eqb_neq in Hn. rewrite Hn. cbn [negb]. wp_step. apply wp_modify. wp_step.
    apply wp_backspace; [done|]. wp_step. eapply wp_mono; [apply (IH _ (Ed (queue E) l)); [cbn; lia|exact Hb|done]|]. cbn beta.
    intros _ s' (i' & -> & Hi'). exists i'. split; [|done]. unfold upd, with_out, with_inp. cbn. by rewrite <-app_assoc.
Qed.
Lemma key_spec s E c : holds_ed (inp s) E -> panicked s = 0 -> 0 <= c < 256 -> c <> C 80 ->
  wp (consoleintr_key show_callstk c) (fun _ s' => exists i' ws, s' = upd i' (echo c E) ws s /\ holds_ed i' (key c E) /\
    (queue (key c E) <> queue E -> ch_input ∈ ws)) s.
Proof.
  intros H Hp Hc Hnp. unfold consoleintr_key, key, echo. apply Z.eqb_neq in Hnp as Enp. rewrite Enp.
  destruct (Z.eqb_spec c (C 85)) as [->|Hu].
  { do 2 wp_step. rewrite (he_diff _ _ H), Nat2Z.id. eapply wp_mono; [by apply kill_line|]. cbn beta. intros _ s' (i' & -> & Hi).
    exists i', []. done. }
  destruct ((c =? C 72) || (c =? DELETE)) eqn:Eb.
  { do 2 wp_step. rewrite (he_ew _ _ H). destruct (line E) as [|x l _] eqn:El using rev_ind.
    - apply wp_when; [done|]. intros _. exists (inp s), []. change (rubout 0) with (@nil Z). rewrite upd_nil. split; [done|]. split; [|done].
      destruct E as [q l]. cbn in El. by subst l.
    - destruct (he_back _ _ _ _ H El) as [Hb _]. rewrite removelast_last. destruct (l ++ [x]) eqn:Ey; [by destruct l|]. cbn [negb when].
      wp_step. apply wp_modify. apply wp_backspace; [done|]. eexists _, []. split; [|split; [exact Hb|done]].
      unfold upd, with_out, with_inp. cbn. by rewrite app_nil_r. }
  do 2 wp_step. rewrite (he_total _ _ H). change INPUT_BUF with (Z.of_nat 512).
  assert (negb (c =? 0) && (Z.of_nat (length (queue E) + length (line E)) <? Z.of_nat 512) =
    negb ((c =? 0) || (512 <=? length (queue E) + length (line E))%nat)) as ->.
  { rewrite negb_orb. f_equal. destruct (Z.ltb_spec (Z.of_nat (length (queue E) + length (line E))) (Z.of_nat 512)), (Nat.leb_spec 512 (length (queue E) + length (line E))); lia || done. }
  destruct ((c =? 0) || (512 <=? length (queue E) + length (line E))%nat) eqn:Eroom; cbn [negb when].
  { wp_step. exists (inp s), []. rewrite upd_nil. done. }
  apply orb_false_iff in Eroom as [_ Hlt%Nat.leb_gt].
  assert (u8 (typed c) = typed c /\ typed c <> BACKSPACE) as [Hu8 Hbs].
  { unfold typed, u8, BACKSPACE, NEWLINE. destruct (c =? RETURN); [done|]. split; [apply Z.mod_small; lia|lia]. }
  fold (typed c). wp_step. apply wp_modify. cbn zeta. wp_step. apply wp_consputc; [done|done|]. wp_step. wp_step.
  change (inp (with_out _ _)) with (stored (inp s) (typed c)). rewrite <-(he_full _ _ (typed c) H Hlt).
  change (Z.of_nat 512) with INPUT_BUF. change (C 68) with EOT.
  destruct ((typed c =? NEWLINE) || (typed c =? EOT) || _) eqn:Ec; cbn [when].
  - wp_step. apply wp_modify. apply wp_modify. exists (committed (stored (inp s) (typed c))), [ch_input]. split; [done|].
    split; [by apply he_commit|]. intros _. by apply list_elem_of_singleton.
  - wp_step. exists (stored (inp s) (typed c)), []. split; [unfold upd, with_out, with_inp; cbn; by rewrite app_nil_r|].
    split; [|done]. apply he_keep; [done|done|done|]. intros En. by rewrite En in Ec.
Qed.

Lemma key_or_dump s E c : holds_ed (inp s) E -> panicked s = 0 -> cons_lock s = false -> 0 <= c < 256 ->
  wp (consoleintr_key show_callstk c) (fun _ s' => exists i' o ws, s' = upd i' o ws s /\ holds_ed i' (key c E) /\
    (c <> C 80 -> o = echo c E) /\ (queue (key c E) <> queue E -> ch_input ∈ ws)) s.
Proof using callstk_prints.
  intros H Hp Hl Hc. destruct (decide (c = C 80)) as [->|Hne].
  - change (consoleintr_key show_callstk (C 80)) with (procdump show_callstk). eapply wp_mono; [by apply prints_procdump|].
    cbn beta. intros _ s' [o ->]. exists (inp s), o, []. split; [unfold upd, with_out; by rewrite app_nil_r|]. done.
  - eapply wp_mono; [by eapply key_spec|]. cbn beta. intros _ s' (i' & ws & -> & ? & ?). by exists i', (echo c E), ws.
Qed.
Lemma intr_keys cs : forall s E, rx s = cs -> holds_ed (inp s) E -> panicked s = 0 -> cons_lock s = false -> Forall (fun c => 0 <= c < 256) cs ->
  wp (loop (S (length cs)) (consoleintr_body show_callstk) tt) (fun _ s' => exists i' o ws, s' = with_rx [] (upd i' o ws s) /\ holds_ed i' (keys cs E) /\
    (C 80 ∉ cs -> o = echoes cs E) /\ (queue (keys cs E) <> queue E -> ch_input ∈ ws)) s.
Proof using callstk_prints.
  induction cs as [|c cs IH]; intros s E Hrx H Hp Hl Hcs.
  - cbn [loop]. unfold consoleintr_body, uartgetc. do 4 wp_step. rewrite Hrx. wp_steps. exists (inp s), [], []. rewrite upd_nil.
    split; [rewrite <-Hrx; by destruct s|]. done.
  - apply Forall_cons in Hcs as [Hc Hcs]. cbn [length].
    change (loop (S (S (length cs))) ?f) with (fun v => f v ≫= fun r => match r with inl v' => loop (S (length cs)) f v' | inr r => mret r end).
    cbn beta. wp_step. unfold consoleintr_body at 1, uartgetc. do 3 wp_step. rewrite Hrx. wp_step. apply wp_modify. wp_step.
    destruct (Z.leb_spec 0 c); [|lia]. wp_step. eapply wp_mono; [apply (key_or_dump (with_rx cs s) E c); done|]. cbn beta.
    intros _ s' (i1 & o1 & ws1 & -> & H1 & Ho1 & Hw1). wp_step. eapply wp_mono; [apply (IH _ (key c E)); done|]. cbn beta.
    intros _ s' (i2 & o2 & ws2 & -> & H2 & Ho2 & Hw2). exists i2, (o1 ++ o2), (ws1 ++ ws2). split; [|split; [done|]; split].
    + unfold with_rx, upd. cbn. by rewrite !app_assoc.
    + intros Hnin. apply not_elem_of_cons in Hnin as [Hne Hnin]. cbn [echoes]. rewrite Ho1 by congruence. by rewrite Ho2.
    + intros Hq. change (keys (c :: cs) E) with (keys cs (key c E)) in Hq. apply elem_of_app.
      destruct (decide (queue (key c E) = queue E)) as [Eq|Hne]; [right; apply Hw2; congruence|left; by apply Hw1].
Qed.

(** C17: the interrupt handler takes every character the UART has received, in order, and refines the line editor: with
    indices that wrap at 2^32 and a buffer of 512 bytes used as a ring, the characters between the read and the write index and those
    between the write and the edit index are those the editor has committed and those it is still editing, no character is lost or
    stored twice, the echo is the editor's, and the readers are woken when there is more to read. *)
Theorem consoleintr_correct s E : holds_ed (inp s) E -> panicked s = 0 -> inp_lock s = false -> cons_lock s = false ->
  Forall (fun c => 0 <= c < 256) (rx s) ->
  wp (consoleintr show_callstk) (fun _ s' => holds_ed (inp s') (keys (rx s) E) /\ rx s' = [] /\ inp_lock s' = false /\
    (exists o, out s' = out s ++ o /\ (C 80 ∉ rx s -> o = echoes (rx s) E)) /\
    (exists ws, wakes s' = wakes s ++ ws /\ (queue (keys (rx s) E) <> queue E -> ch_input ∈ ws)) /\
    fs s' = fs s /\ ubuf s' = ubuf s) s.
Proof using callstk_prints.
  intros H Hp Hi Hl Hrx. unfold consoleintr. wp_step. wp_step; [done|]. do 3 wp_step.
  eapply wp_mono; [apply (intr_keys (rx s) (lset input_lock true s) E); done|]. cbn beta. intros _ s' (i & o & ws & -> & H' & Ho & Hw).
  wp_step; [done|]. cbn. split; [done|]. split; [done|]. split; [done|]. split; [by exists o|]. split; [by exists ws|]. done.
Qed.

(** ** Reading *)

Lemma blit_cons {A} (l x : list A) o c : (o + S (length x) <= length l)%nat -> blit l o (c :: x) = blit (<[o := c]> l) (S o) x.
Proof.
  intros H. apply list_eq. intros i. rewrite !lookup_blit by (rewrite ?length_insert; cbn [length]; lia). cbn [length].
  destruct (decide (i = o)) as [->|Hne].
  - rewrite decide_True by lia. rewrite decide_False by lia. rewrite Nat.sub_diag. cbn. rewrite list_lookup_insert_eq by lia. done.
  - destruct (decide (o <= i < o + S (length x))%nat).
    + rewrite decide_True by lia. by replace (i - o)%nat with (S (i - S o)) by lia.
    + rewrite decide_False by lia. by rewrite list_lookup_insert_ne by lia.
Qed.
Lemma blit_nil {A} (l : list A) o : (o <= length l)%nat -> blit l o [] = l.
Proof. intros H. unfold blit. cbn. rewrite Nat.add_0_r. apply take_drop. Qed.

Lemma take_line_length first k q : (length (take_line first k q).1.1 <= k)%nat.
Proof.
  revert first q. induction k as [|k IH]; intros first q; [done|]. destruct q as [|c q]; cbn [take_line]; [cbn; lia|].
  destruct (c =? EOT); [cbn; lia|]. destruct (c =? NEWLINE); [cbn; lia|]. specialize (IH false q).
  destruct (take_line false k q) as [[l q'] over]. cbn in *. lia.
Qed.

(** the inode of the console, unlocked and in memory *)
Record ready (f : Fs.st B) (ip : Z) (n0 : Fs.inode) : Prop := {
  rd_lock : Fs.lock f = false;
  rd_at : at_ (Fs.inodes f) ip = Some n0;
  rd_ref : 1 <= Fs.i_ref n0;
  rd_busy : Fs.has (Fs.i_flags n0) Fs.I_BUSY = false;
  rd_valid : Fs.has (Fs.i_flags n0) Fs.I_VALID = true
}.
Definition relocked (f : Fs.st B) (ip : Z) (n0 : Fs.inode) : Fs.st B :=
  Fs.St (Fs.blk f) false (put (Fs.inodes f) ip (Inode.busy n0)) (Fs.cwd f) (Fs.wakes f).
Lemma wp_relock s ip n0 Q : ready (fs s) ip n0 -> Q tt (lset (fs_lens (B := B)) (relocked (fs s) ip n0) s) -> wp (zoom fs_lens (Fs.ilock ip)) Q s.
Proof.
  intros [H1 H2 H3 H4 H5] HQ. wp_step. cbn [lget fs_lens]. destruct (fs s) as [b lk ino c wk] eqn:E. cbn in *. subst lk.
  by apply (FileIO.ilock_open b ino c wk ip n0).
Qed.

Definition after (s : st (B := B)) (i : input) (u : list Z) : st (B := B) :=
  St (fs s) i (inp_lock s) (cons_lock s) (locking s) (panicked s) (out s) (rx s) u (killed s) (wakes s) (ptable s).
Lemma read_loop ip target n0 : 0 <= target < 2 ^ 31 -> forall k s E n, n = Z.of_nat k -> holds_ed (inp s) E -> inp_lock s = true ->
  ready (fs s) ip n0 -> n <= target <= Z.of_nat (length (ubuf s)) ->
  wp (loop (S k) (consoleread_body ip target) n) (fun x s' => exists i',
    let '(l, q, over) := take_line (n =? target) k (queue E) in
    let s1 := after s i' (blit (ubuf s) (Z.to_nat (target - n)) l) in
    holds_ed i' (Ed q (line E)) /\
    if over then x = inl (n - Z.of_nat (length l)) /\ s' = s1
    else if killed s =? 0 then x = inr (Asleep ch_input (n - Z.of_nat (length l))) /\ s' = lset input_lock false s1
    else x = inr (Ret (-1)) /\ s' = lset (fs_lens (B := B)) (relocked (fs s) ip n0) (lset input_lock false s1)) s.
Proof.
  intros Ht k. induction k as [|k IH]; intros s E n -> H Hlk Hr Hn.
  - cbn [loop]. unfold consoleread_body. wp_steps. exists (inp s). cbn [take_line]. destruct E as [q l]. cbn [queue line]. split; [done|].
    rewrite blit_nil by (cbn; lia). split; [done|]. by destruct s.
  - change (loop (S (S k)) ?f) with (fun v => f v ≫= fun r => match r with inl v' => loop (S k) f v' | inr r => mret r end).
    cbn beta. wp_step. unfold consoleread_body at 1. destruct (Z.ltb_spec 0 (Z.of_nat (S k))) as [_|?]; [|lia]. cbn [negb]. do 2 wp_step.
    rewrite (he_rw _ _ H). destruct (queue E) as [|c q] eqn:Eq.
    + do 2 wp_step. cbn [take_line].
      assert (after s (inp s) (blit (ubuf s) (Z.to_nat (target - Z.of_nat (S k))) []) = s) as Es.
      { rewrite blit_nil by lia. by destruct s. }
      destruct (Z.eqb_spec (killed s) 0) as [Ek|Ek]; cbn [negb].
      * wp_step. wp_step; [done|]. wp_steps. exists (inp s). rewrite Es. split; [destruct E; cbn in *; by subst|]. split; [f_equal; f_equal; cbn; lia|done].
      * wp_step. wp_step; [done|]. wp_step. apply (wp_relock _ ip n0); [done|]. wp_steps. exists (inp s). rewrite Es.
        split; [destruct E; cbn in *; by subst|]. done.
    + destruct (he_pop _ _ _ _ H Eq) as [Hc Hp]. wp_step. unfold input_at. eapply wp_deref; [exact Hc|]. wp_step. apply wp_modify.
      cbn [take_line]. change (C 68) with EOT. destruct (Z.eqb_spec c EOT) as [->|Hne].
      * wp_step. assert (u32 (Z.of_nat (S k)) = Z.of_nat (S k)) as -> by (unfold u32; apply Z.mod_small; lia).
        destruct (Z.eqb_spec (Z.of_nat (S k)) target) as [Et|Et].
        -- destruct (Z.ltb_spec (Z.of_nat (S k)) target); [lia|]. cbn [when]. wp_steps.
           exists (MkInput (buf (inp s)) (u32 (r (inp s) + 1)) (w (inp s)) (e (inp s))). split; [done|]. rewrite blit_nil by lia.
           split; [f_equal; cbn; lia|done].
        -- destruct (Z.ltb_spec (Z.of_nat (S k)) target); [|lia]. cbn [when]. do 2 wp_step. apply wp_modify. wp_steps. exists (inp s).
           assert (MkInput (buf (inp s)) (u32 (u32 (r (inp s) + 1) - 1)) (w (inp s)) (e (inp s)) = inp s) as Ei.
           { pose proof (he_r _ _ H). destruct (inp s) as [b r0 w0 e0]. cbn in *. f_equal. unfold u32. Z.div_mod_to_equations; lia. }
           split; [destruct E; cbn in *; by subst|]. rewrite blit_nil by lia. split; [f_equal; cbn; lia|].
           unfold with_inp, after. cbn. by rewrite Ei.
      * wp_step. destruct (at_is_Some (ubuf s) (target - Z.of_nat (S k))) as [x Hx]; [lia|]. eapply wp_deref; [exact Hx|]. wp_step. apply wp_modify.
        cbn [ubuf with_inp]. unfold put. destruct (Z.eqb_spec c NEWLINE) as [->|Hn'].
        -- wp_steps. exists (MkInput (buf (inp s)) (u32 (r (inp s) + 1)) (w (inp s)) (e (inp s))). split; [done|].
           rewrite blit_cons by (cbn; lia). rewrite blit_nil by (rewrite length_insert; lia). split; [f_equal; cbn; lia|done].
        -- wp_step. replace (Z.of_nat (S k) - 1) with (Z.of_nat k) by lia.
           eapply wp_mono; [apply (IH _ (Ed q (line E)) (Z.of_nat k) eq_refl); [exact Hp|done|done|cbn; rewrite length_insert; lia]|]. cbn beta.
           intros y s' (i' & Hres). exists i'. destruct (Z.eqb_spec (Z.of_nat k) target) as [?|_]; [lia|]. cbn [queue line] in Hres.
           destruct (take_line false k q) as [[l q'] over] eqn:El. destruct Hres as [Hh Hres]. split; [done|]. rewrite blit_cons.
           2:{ pose proof (take_line_length false k q) as Hl. rewrite El in Hl. cbn in Hl. lia. }
           cbn [length ubuf with_ubuf] in Hres |- *. replace (Z.to_nat (target - Z.of_nat k)) with (S (Z.to_nat (target - Z.of_nat (S k)))) in Hres by lia.
           destruct over; [|destruct (killed s =? 0) eqn:Ek; cbn [killed with_ubuf with_inp] in Hres; rewrite Ek in Hres]; destruct Hres as [-> ->]; (split; [first [done | f_equal; lia | do 2 f_equal; lia]|done]).
Qed.

(** how a read of [target] bytes goes on from where [n] are missing *)
Definition read_result (s : st (B := B)) (E : ed) (ip : Z) (n0 : Fs.inode) (target n : Z) (x : run Z) (s' : st) : Prop :=
  let '(l, q, over) := take_line (n =? target) (Z.to_nat n) (queue E) in
  holds_ed (inp s') (Ed q (line E)) /\ inp_lock s' = false /\
  ubuf s' = blit (ubuf s) (Z.to_nat (target - n)) l /\ out s' = out s /\ rx s' = rx s /\
  if over then x = Ret (target - n + Z.of_nat (length l)) /\ fs s' = relocked (fs s) ip n0
  else if killed s =? 0 then x = Asleep ch_input (n - Z.of_nat (length l)) /\ fs s' = fs s
  else x = Ret (-1) /\ fs s' = relocked (fs s) ip n0.
Lemma read_from ip target n n0 s E : 0 <= n <= target -> target < 2 ^ 31 -> target <= Z.of_nat (length (ubuf s)) ->
  holds_ed (inp s) E -> inp_lock s = false -> ready (fs s) ip n0 ->
  wp (consoleread_from ip target n) (read_result s E ip n0 target n) s.
Proof.
  intros Hn Ht Hu H Hl Hr. unfold consoleread_from. wp_step. wp_step; [done|]. wp_step.
  eapply wp_mono; [apply (read_loop ip target n0 ltac:(lia) (Z.to_nat n) (lset input_lock true s) E n); [lia|done|done|done|cbn; lia]|]. cbn beta.
  intros x s' (i' & Hres). unfold read_result. pose proof (take_line_length (n =? target) (Z.to_nat n) (queue E)) as Hlen.
  destruct (take_line (n =? target) (Z.to_nat n) (queue E)) as [[l q] over]. cbn [fst] in Hlen. destruct Hres as [Hh Hres].
  destruct over; [destruct Hres as [-> ->]|cbn [killed input_lock lset] in Hres; destruct (killed s =? 0); destruct Hres as [-> ->]].
  - wp_step. wp_step; [done|]. wp_step. apply (wp_relock _ ip n0); [done|]. wp_step. repeat (split; [done|]). split; [|done].
    unfold u32, s32. f_equal. rewrite (Z.mod_small (target - _)) by lia. rewrite Z.mod_small by lia. lia.
  - wp_step. by repeat (split; [done|]).
  - wp_step. by repeat (split; [done|]).
Qed.

(** C29: a read takes from the committed characters only, in order, and stores them at the caller's buffer: up to a
    newline (delivered), a control-D (which ends the read; it is used up by a read that would return 0 and left for the next one
    otherwise) or the number asked for. If the characters run out it sleeps with the inode unlocked and the missing number in hand, or
    returns -1 if the process has been killed, and it goes on in the same way when woken; the line still being edited is never touched. *)
Theorem consoleread_correct ip target n n0 s E : 0 <= n <= target -> target < 2 ^ 31 -> target <= Z.of_nat (length (ubuf s)) ->
  holds_ed (inp s) E -> inp_lock s = false -> ready (fs s) ip n0 ->
  wp (consoleread_from ip target n) (read_result s E ip n0 target n) s /\
  wp (consoleread ip target) (fun x s' => exists s0, read_result s0 E ip n0 target target x s' /\ inp s0 = inp s /\ ubuf s0 = ubuf s /\ ready (fs s0) ip n0)
    (lset (fs_lens (B := B)) (relocked (fs s) ip n0) s).
Proof.
  intros Hn Ht Hu H Hl Hr. split; [by apply read_from|]. unfold consoleread. wp_step. apply wp_zoom. cbn [lget fs_lens fs lset].
  pose proof Hr as [H1 H2 H3 H4 H5]. pose proof (at_range _ _ _ H2). unfold relocked. eapply wp_eq.
  { apply (FileIO.iunlock_open (Fs.blk (fs s)) _ (Fs.cwd (fs s)) (Fs.wakes (fs s)) ip n0); [by apply at_put_eq|done|done]. }
  rewrite put_put, put_id by done. cbn beta. replace (u32 target) with target by (unfold u32; rewrite Z.mod_small by lia; done).
  match goal with |- wp _ _ ?x => set (s0 := x) end. assert (ready (fs s0) ip n0) as Hr0 by by split.
  eapply wp_mono; [apply (read_from ip target target n0 s0 E); [lia|done|done|done|done|done]|]. cbn beta. intros x s' Hx. by exists s0.
Qed.

(** the console's printint prints the numeral of its argument in the given base, without needless zeros, and its
    buffer of sixteen characters is enough for any number below base^16: 2^64 in base 16, the 32-bit numbers in base 10. It never
    prints a sign, whatever the caller asked for. *)
Theorem printint_correct xx base sign s : panicked s = 0 -> 2 <= base <= 16 -> 0 <= xx < base ^ 16 ->
  wp (printint xx base sign) (fun _ s' => exists ds, numeral base xx ds /\ s' = with_out (rev (digit digits <$> ds)) (s : st (B := B))) s.
Proof. intros Hp Hb Hx. apply printint_prints; [done|done|done|]. intros ds Hds. by exists ds. Qed.
End spec.

(** ** A console to try it on *)

#[local] Instance no_blocks : BlockStore unit := {
  b_bread _ _ := undef; b_data _ := undef; b_set _ _ := undef; b_log _ := undef; b_brelse _ := undef; b_begin := undef; b_commit := undef
}.
Definition demo_console_inode : Fs.inode := Fs.Inode 1 3 1 Fs.I_VALID 3 1 1 1 0 (replicate 13 0).
(** indices about to wrap, an empty buffer, a b, backspace, c, return and d waiting at the UART *)
Definition demo_console : st (B := unit) :=
  St (Fs.St tt false [demo_console_inode] 0 []) (MkInput (replicate 512 0) (2 ^ 32 - 2) (2 ^ 32 - 2) (2 ^ 32 - 2)) false false 1 0 []
    [97; 98; 8; 99; 13; 100] (replicate 4 0) 0 [] [].
Lemma demo_console_ok : holds_ed (inp demo_console) (Ed [] []).
Proof. split; cbn [queue line length app]; try done; [lia|apply not_elem_of_nil]. Qed.
Definition demo_callstk : M (st (B := unit)) unit := mret tt.
Lemma demo_callstk_prints s : panicked s = 0 -> cons_lock s = false -> prints demo_callstk s.
Proof. intros _ _. apply prints_ret. Qed.
Lemma consoleintr_correct_witness : exists s', consoleintr demo_callstk demo_console = Done tt s' /\
  holds_ed (inp s') (Ed [97; 99; 10] [100]) /\ out s' = [97; 98; 8; 32; 8; 99; 10; 100].
Proof.
  pose proof (consoleintr_correct demo_callstk demo_callstk_prints demo_console _ demo_console_ok eq_refl eq_refl eq_refl ltac:(repeat constructor; cbn; lia)) as Hw.
  destruct (proj1 (wp_done _ _ _) Hw) as ([] & s' & E & H & _ & _ & (o & Ho & Hecho) & _). exists s'. split; [exact E|]. split; [exact H|].
  rewrite Ho, Hecho; [reflexivity|]. cbn. rewrite !not_elem_of_cons. repeat split; try done. apply not_elem_of_nil.
Defined.

(** two committed bytes and a line in progress *)
Definition demo_typed : st (B := unit) :=
  St (Fs.St tt false [demo_console_inode] 0 []) (MkInput (97 :: 10 :: 120 :: replicate 509 0) 0 2 3) false false 1 0 [] [] (replicate 4 0) 0 [] [].
Lemma demo_typed_ok : holds_ed (inp demo_typed) (Ed [97; 10] [120]).
Proof.
  split; cbn [queue line length app]; try done; [lia| |by apply not_elem_of_cons; split; [|apply not_elem_of_nil]].
  intros j x Hj. do 3 (destruct j as [|j]; [injection Hj as <-; reflexivity|]). done.
Qed.
Lemma consoleread_correct_witness : exists s', consoleread_from 0 4 4 demo_typed = Done (Ret 2) s' /\ ubuf s' = [97; 10; 0; 0].
Proof.
  pose proof (consoleread_correct 0 4 4 demo_console_inode demo_typed _ ltac:(lia) ltac:(lia) ltac:(cbn; lia) demo_typed_ok eq_refl
    ltac:(split; cbn; done || lia)) as [Hw _].
  destruct (proj1 (wp_done _ _ _) Hw) as (x & s' & E & H). exists s'. cbn in H. destruct H as (_ & _ & Hu & _ & _ & -> & _). split; [exact E|exact Hu].
Defined.
Lemma printint_correct_witness : exists s' ds, printint 255 16 1 demo_console = Done tt s' /\ numeral 16 255 ds /\ out s' = rev (digit digits <$> ds).
Proof.
  pose proof (printint_correct 255 16 1 demo_console eq_refl ltac:(lia) ltac:(lia)) as Hw.
  destruct (proj1 (wp_done _ _ _) Hw) as ([] & s' & E & ds & Hds & ->). exists (with_out (rev (digit digits <$> ds)) demo_console), ds. split; [exact E|].
  split; [exact Hds|reflexivity].
Defined.
(** The minus sign is lost: printint compares an unsigned number with zero, so that %d of -1 prints 4294967295. *)
Lemma printint_unsigned : exists s', cprintf (Some (chars "%d")) [AInt (-1)] demo_console = Done tt s' /\ out s' = chars "4294967295".
Proof. eexists. split; [vm_compute; reflexivity|reflexivity]. Qed.
End Console.
