(* ===== verification/Ulib.v ===== *)
(** * The library of user programs (src/src/usr/ulib.c, src/src/usr/printf.c)

    The string routines of ulib.c over a byte memory, gets() over the bytes
    standard input still holds, and printint() and printf() with what write()
    has been given.  strchr is needed with constant sets of characters only,
    and is a predicate on them. *)

From S2P Require Import Prelude.
From S2P Require Import KString.
From S2P Require Import Numeral.

Module Ulib.
Import Numeral.

(** the same code as memset() in lib/string.c *)
Definition memset (dst v n : Z) : M mem Z := KString.memset dst v n.

Definition strcpy (s t : Z) : M mem Z :=
  fuel ← gets (fun m : mem => S (base.size m));
  loop fuel (fun v : Z * Z =>
    let '(s', t) := v in
    x ← load8 t;
    store8 s' x ;;
    if negb (x =? 0) then mret (inl (s' + 1, t + 1)) else mret (inr s)) (s, t).

Definition strcmp (p q : Z) : M mem Z :=
  fuel ← gets (fun m : mem => S (base.size m));
  loop fuel (fun v : Z * Z =>
    let '(p, q) := v in
    x ← load8 p;
    y ← load8 q;
    if negb (x =? 0) && (x =? y) then mret (inl (p + 1, q + 1)) else mret (inr (x - y))) (p, q).

(** the length is an int, returned as a uint *)
Definition strlen (s : Z) : M mem Z :=
  fuel ← gets (fun m : mem => S (base.size m));
  loop fuel (fun n =>
    x ← load8 (s + n);
    if negb (x =? 0) then n ← c_int (n + 1); mret (inl n) else mret (inr (u32 n))) 0.

(** strchr(s, c) != 0 for a constant string [s] *)
Fixpoint strchr (s : list Z) (c : Z) : bool :=
  match s with [] => false | x :: s => if x =? c then true else strchr s c end.

(** forwards, whatever the overlap *)
Definition memmove (dst src n : Z) : M mem Z :=
  loop (S (Z.to_nat n)) (fun v : Z * Z * Z =>
    let '(d, s, n) := v in
    if 0 <? n then x ← load8 s; store8 d x ;; mret (inl (d + 1, s + 1, n - 1)) else mret (inr dst)) (dst, src, n).

Definition atoi (s : Z) : M mem Z :=
  fuel ← gets (fun m : mem => S (base.size m));
  loop fuel (fun v : Z * Z =>
    let '(s, n) := v in
    x ← load8 s;
    if (48 <=? x) && (x <=? 57) then
      n ← c_int (n * 10);
      n ← c_int (n + x);
      n ← c_int (n - 48);
      mret (inl (s + 1, n))
    else mret (inr n)) (s, 0).

(** ** Reading a line *)

(** memory and what standard input still holds; [read] of one byte takes the first *)
Record st := St {
  umem : mem;
  stdin : list Z;
}.
Definition mem_lens : lens st mem := Lens umem (fun m s => St m (stdin s)).
Definition read1 : M st (option Z) := fun s =>
  match stdin s with [] => Done None s | c :: l => Done (Some c) (St (umem s) l) end.
Definition gets_body (buf max i : Z) : M st (Z + Z) :=
  if i + 1 <? max then
    c ← read1;
    match c with
    | None => mret (inr i)
    | Some c =>
        zoom mem_lens (store8 (buf + i) c) ;;
        let i := i + 1 in
        if (c =? 10) || (c =? 13) then mret (inr i) else mret (inl i)
    end
  else mret (inr i).
Definition gets (buf max : Z) : M st Z :=
  i ← loop (S (Z.to_nat max)) (gets_body buf max) 0;
  zoom mem_lens (store8 (buf + i) 0) ;;
  mret buf.

(** ** Printing: the bytes given to write(), newest last *)

Definition out : Type := list Z.
Definition putc (c : Z) : M out unit := modify (fun o => o ++ [u8 c]).
Definition digits : list Z := [48; 49; 50; 51; 52; 53; 54; 55; 56; 57; 65; 66; 67; 68; 69; 70].
(** [xx] is an int, [base] and the digits are computed with a uint *)
Definition printint (xx base sgn : Z) : M out unit :=
  let neg := negb (sgn =? 0) && (xx <? 0) in
  x ← (if neg then c_int (- xx) else mret (u32 xx));
  v ← loop 33 (fun v : list Z * Z * Z =>
    let '(b, i, x) := v in
    d ← deref (fun _ => at_ digits (x mod base));
    b ← bput b i d;
    let x := x / base in
    mret (if negb (x =? 0) then inl (b, i + 1, x) else inr (b, i + 1))) (replicate 16 0, 0, x);
  let '(b, i) := v : list Z * Z in
  v ← (if neg then b ← bput b i 45; mret (b, i + 1) else mret (b, i));
  let '(b, i) := v : list Z * Z in
  loop (S (Z.to_nat i)) (fun i =>
    let i := i - 1 in
    if 0 <=? i then c ← deref (fun _ => at_ b i); putc c ;; mret (inl i) else mret (inr tt)) i.

(** what va_arg finds: an integer, or a char pointer that may be null *)
Inductive arg : Type :=
| AInt (v : Z)
| AStr (s : option (list Z)).
Definition next_int (l : list arg) : M out (Z * list arg) :=
  match l with AInt v :: l => mret (v, l) | _ => undef end.
Definition next_str (l : list arg) : M out (option (list Z) * list arg) :=
  match l with AStr s :: l => mret (s, l) | _ => undef end.
Definition null_text : list Z := [40; 110; 117; 108; 108; 41].
(** the loop over the characters of a string *)
Definition putstr (s : list Z) : M out unit :=
  loop (S (length s)) (fun i =>
    c ← deref (fun _ => at_ (s ++ [0]) i);
    if negb (c =? 0) then putc c ;; mret (inl (i + 1)) else mret (inr tt)) 0.
(** the character [c] behind a % *)
Definition printf_conv (c : Z) (l : list arg) : M out (list arg) :=
  if c =? 100 (* d *) then v ← next_int l; printint (s32 (u64 v.1)) 10 1 ;; mret v.2
  else if (c =? 120) || (c =? 112) (* x, p *) then v ← next_int l; printint (s32 (u64 v.1)) 16 0 ;; mret v.2
  else if c =? 115 (* s *) then
    v ← next_str l;
    putstr (default null_text v.1) ;;
    mret v.2
  else if c =? 99 (* c *) then v ← next_int l; putc (s32 v.1) ;; mret v.2
  else if c =? 37 then putc c ;; mret l
  else putc 37 ;; putc c ;; mret l.
(** the loop variables: i, state, and the arguments left *)
Definition printf_body (fmt : list Z) (v : Z * Z * list arg) : M out (Z * Z * list arg + unit) :=
  let '(i, state, l) := v in
  x ← deref (fun _ => at_ (fmt ++ [0]) i);
  if x =? 0 then mret (inr tt) else
  let c := Z.land x 0xff in
  if state =? 0 then
    if c =? 37 then mret (inl (i + 1, 37, l)) else putc c ;; mret (inl (i + 1, state, l))
  else if state =? 37 then
    l ← printf_conv c l;
    mret (inl (i + 1, 0, l))
  else mret (inl (i + 1, state, l)).
Definition printf (fmt : list Z) (l : list arg) : M out unit :=
  loop (S (length fmt)) (printf_body fmt) (0, 0, l).

(** ** Strings *)

Lemma ulib_strlen_cstr (m : mem) a l Q : cstr m a l -> Z.of_nat (length l) < 2 ^ 31 -> Q (Z.of_nat (length l)) m -> wp (strlen a) Q m.
Proof.
  intros [Hb H0] Hmax HQ. pose proof (bytes_at_size _ _ _ Hb) as Hsz. rewrite length_app in Hsz. cbn in Hsz. apply wp_bind, wp_gets.
  apply wp_loop with (mu := fun n => (length l - Z.to_nat n)%nat) (Inv := fun n m' => 0 <= n <= Z.of_nat (length l) /\ m' = m); [split; [lia|done]|cbn beta; lia|].
  intros n m' [Hn ->]. destruct (lookup_lt_is_Some_2 (l ++ [0]) (Z.to_nat n)) as [x Hx]; [rewrite length_app; cbn; lia|].
  wp_step. apply wp_load8 with x. { rewrite <-(Hb _ _ Hx). f_equal. lia. }
  apply lookup_app_Some in Hx as [Hx|[Hge Hx]].
  - destruct (Z.eqb_spec x 0) as [->|]; cbn [negb]; [destruct H0; eapply list_elem_of_lookup_2, Hx|].
    apply lookup_lt_Some in Hx. wp_step. wp_step; [lia|]. wp_step. cbn beta. split; [split; [lia|done]|lia].
  - assert (n = Z.of_nat (length l)) as -> by lia. replace (Z.to_nat _ - length l)%nat with 0%nat in Hx by lia. injection Hx as <-. cbn [Z.eqb negb]. wp_step.
    unfold u32. by rewrite Z.mod_small by lia.
Qed.

(** the difference of the first characters that differ, the end counting as 0 *)
Fixpoint difference (l1 l2 : list Z) : Z :=
  match l1, l2 with
  | x :: l1, y :: l2 => if x =? y then difference l1 l2 else x - y
  | x :: _, [] => x
  | [], y :: _ => - y
  | [], [] => 0
  end.
Lemma difference_0 l1 l2 : 0 ∉ l1 -> 0 ∉ l2 -> difference l1 l2 = 0 <-> l1 = l2.
Proof.
  revert l2. induction l1 as [|x l1 IH]; intros [|y l2] H1 H2; cbn [difference]; try rewrite not_elem_of_cons in H1; try rewrite not_elem_of_cons in H2.
  - done.
  - split; [lia|done].
  - split; [lia|done].
  - destruct (Z.eqb_spec x y) as [->|Hne].
    + rewrite IH by tauto. split; [by intros ->|by intros [= ->]].
    + split; [lia|]. by intros [= -> _].
Qed.
Lemma strcmp_correct (m : mem) p q l1 l2 Q : cstr m p l1 -> cstr m q l2 -> Q (difference l1 l2) m -> wp (strcmp p q) Q m.
Proof.
  intros [Hb1 H1] [Hb2 H2] HQ. unfold strcmp. wp_step. wp_step. pose proof (bytes_at_size _ _ _ Hb1) as Hsz. rewrite length_app in Hsz. cbn in Hsz.
  assert (length l1 < S (base.size m))%nat as Hf by lia. clear Hsz. revert Hf. generalize (S (base.size m)). intros fuel Hf. revert fuel p q l2 Hf Hb1 Hb2 H1 H2 HQ.
  induction l1 as [|x l1 IH]; intros [|fuel] p q l2 Hf Hb1 Hb2 H1 H2 HQ; cbn [length] in Hf; try lia; cbn [loop]; wp_step; wp_step;
    apply bytes_at_cons in Hb1 as [Hx Hb1]; (eapply wp_load8; [exact Hx|]); wp_step; destruct l2 as [|y l2]; apply bytes_at_cons in Hb2 as [Hy Hb2];
    (eapply wp_load8; [exact Hy|]); cbn [Z.eqb negb andb difference] in *.
  - by wp_steps.
  - by wp_steps.
  - apply not_elem_of_cons in H1 as [Hx0 H1]. replace (x =? 0) with false by lia. cbn [negb andb]. wp_steps. by rewrite Z.sub_0_r.
  - apply not_elem_of_cons in H1 as [Hx0 H1]. apply not_elem_of_cons in H2 as [Hy0 H2]. replace (x =? 0) with false by lia. cbn [negb andb].
    destruct (Z.eqb_spec x y) as [->|_]; wp_steps. by apply (IH fuel (p + 1) (q + 1) l2); [lia|..].
Qed.

(** the number the decimal digits [ds] stand for *)
Definition decimal (ds : list Z) : Z := foldl (fun n x => n * 10 + (x - 48)) 0 ds.
Lemma decimal_grows ds n : Forall (fun x => 48 <= x <= 57) ds -> 0 <= n -> n <= foldl (fun n x => n * 10 + (x - 48)) n ds.
Proof.
  intros Hds. revert n. induction Hds as [|x ds Hx _ IH]; intros n Hn; [cbn; lia|]. cbn [foldl]. specialize (IH (n * 10 + (x - 48)) ltac:(lia)). lia.
Qed.
(** the sum n*10 + *s is formed before '0' is taken off, hence the 48 *)
Lemma atoi_correct (m : mem) s ds c Q : bytes_at m s (ds ++ [c]) -> Forall (fun x => 48 <= x <= 57) ds -> ~ 48 <= c <= 57 -> decimal ds + 48 < 2 ^ 31 ->
  Q (decimal ds) m -> wp (atoi s) Q m.
Proof.
  intros Hb Hds Hc Hmax HQ. unfold atoi. wp_step. wp_step. pose proof (bytes_at_size _ _ _ Hb) as Hsz. rewrite length_app in Hsz. cbn in Hsz.
  assert (length ds < S (base.size m))%nat as Hf by lia. clear Hsz. revert Hf. generalize (S (base.size m)). intros fuel Hf. unfold decimal in *.
  assert (exists n, 0 <= n /\ n = 0) as (n & Hn & E) by (by exists 0). rewrite <-E in Hmax, HQ |- *. clear E. revert fuel s n Hf Hb Hn Hmax HQ.
  induction Hds as [|x ds Hx Hds IH]; intros [|fuel] s n Hf Hb Hn Hmax HQ; cbn [length] in Hf; try lia; cbn [loop]; wp_step; wp_step;
    apply bytes_at_cons in Hb as [Hm Hb]; (eapply wp_load8; [exact Hm|]).
  - replace ((48 <=? c) && (c <=? 57)) with false by lia. by wp_steps.
  - replace ((48 <=? x) && (x <=? 57)) with true by lia. cbn [foldl] in *.
    pose proof (decimal_grows ds (n * 10 + (x - 48)) Hds ltac:(lia)) as Hg. wp_step. wp_step; [lia|]. wp_step. wp_step; [lia|]. wp_step. wp_step; [lia|]. wp_step.
    replace (n * 10 + x - 48) with (n * 10 + (x - 48)) by lia. apply IH; [lia|done|lia|done|done].
Qed.

Lemma memmove_forward (m : mem) dst src l Q : bytes_at m src l -> Forall is_byte l -> mapped m dst (length l) ->
  dst <= src \/ src + Z.of_nat (length l) <= dst -> Q dst (write_bytes m dst l) -> wp (memmove dst src (Z.of_nat (length l))) Q m.
Proof.
  intros Hb Hl Hm Hd HQ. eapply wp_mono; [by apply (wp_copy_forward m dst src l)|]. cbn beta. by intros r m' [-> ->].
Qed.
(** a move to a higher address that overlaps copies what it has already overwritten *)
Example memmove_overlap : match memmove 1 0 3 (write_bytes ∅ 0 [1; 2; 3; 4]) with Done _ m => (fun i => default 0 (m !! i)) <$> [0; 1; 2; 3] | _ => [] end = [1; 1; 1; 1].
Proof. reflexivity. Qed.

Lemma strcpy_correct (m : mem) s t l Q : cstr m t l -> Forall is_byte l -> mapped m s (S (length l)) ->
  s <= t \/ t + Z.of_nat (S (length l)) <= s -> Q s (write_bytes m s (l ++ [0])) -> wp (strcpy s t) Q m.
Proof.
  intros [Hb H0] Hl Hm Hd HQ. pose proof (bytes_at_size _ _ _ Hb) as Hsz. rewrite length_app in Hsz. cbn in Hsz. unfold strcpy. wp_step. wp_step.
  eapply (wp_loop _ _ _ _ _ (fun v m' => exists k : nat, (k <= length l)%nat /\ v = (s + Z.of_nat k, t + Z.of_nat k) /\
    m' = write_bytes m s (take k l)) (fun v => (length l - Z.to_nat (v.1 - s))%nat)).
  - exists 0%nat. rewrite !Z.add_0_r. split; [lia|done].
  - cbn [fst]. lia.
  - intros v m' (k & Hk & -> & ->). cbn [fst]. destruct (lookup_lt_is_Some_2 (l ++ [0]) k) as [x Hx]; [rewrite length_app; cbn; lia|].
    wp_step. apply wp_load8 with x.
    { rewrite lookup_write_bytes, length_take. case_decide; [lia|]. by apply Hb. }
    wp_step. apply wp_store8; [apply (mapped_write _ _ _ _ _ Hm); lia|]. apply lookup_app_Some in Hx as [Hx|[Hge Hx]].
    + destruct (Z.eqb_spec x 0) as [->|_]; [destruct H0; by eapply list_elem_of_lookup_2|]. pose proof (lookup_lt_Some _ _ _ Hx). cbn [negb]. wp_step. split; [|cbn [fst]; lia].
      exists (S k). split; [lia|]. split; [f_equal; lia|]. rewrite u8_byte by (eapply Forall_lookup_1; eauto).
      rewrite (take_S_r l k x Hx), <-write_bytes_snoc, length_take, Nat.min_l by lia. rewrite write_bytes_comm; [done|]. rewrite length_take. lia.
    + assert (k = length l) as -> by lia. rewrite Nat.sub_diag in Hx. injection Hx as <-. cbn [Z.eqb negb]. wp_step. rewrite take_ge by lia.
      change (u8 0) with 0. rewrite <-write_bytes_snoc in HQ. rewrite write_bytes_comm in HQ by lia. done.
Qed.

(** ** Reading a line *)

Lemma gets_loop max buf l rest c m Q : (c = 10 \/ c = 13) -> Forall (fun x => x <> 10 /\ x <> 13 /\ is_byte x) l -> Z.of_nat (length l) + 2 <= max ->
  mapped m buf (length l + 2) ->
  Q buf (St (write_bytes m buf (l ++ [c; 0])) rest) -> wp (gets buf max) Q (St m (l ++ c :: rest)).
Proof.
  intros Hc Hl Hmax Hm HQ. unfold gets. wp_step.
  eapply (wp_loop _ _ _ _ _ (fun i s => exists k : nat, (k <= length l)%nat /\ i = Z.of_nat k /\ s = St (write_bytes m buf (take k l)) (drop k l ++ c :: rest))
    (fun i => (length l - Z.to_nat i)%nat)).
  - exists 0%nat. split; [lia|done].
  - lia.
  - intros i s (k & Hk & -> & ->). unfold gets_body. destruct (Z.ltb_spec (Z.of_nat k + 1) max); [|lia]. wp_step. unfold read1.
    assert (forall x, is_byte x -> wp (store8 (buf + Z.of_nat k) x) (fun _ m' => m' = write_bytes m buf (take k l ++ [x])) (write_bytes m buf (take k l))) as Hst.
    { intros x Hx. apply wp_store8; [apply (mapped_write _ _ _ _ _ Hm); lia|]. rewrite u8_byte by done.
      rewrite <-write_bytes_snoc, length_take, Nat.min_l by lia. rewrite write_bytes_comm; [done|]. rewrite length_take. lia. }
    destruct (lookup_lt_is_Some_2 (l ++ [c]) k) as [x Hx]; [rewrite length_app; cbn; lia|]. apply lookup_app_Some in Hx as [Hx|[Hge Hx]].
    + rewrite (drop_S _ _ _ Hx). unfold wp at 1. cbn [stdin umem app]. pose proof (Forall_lookup_1 _ _ _ _ Hl Hx) as (H10 & H13 & Hby).
      pose proof (lookup_lt_Some _ _ _ Hx). wp_step. wp_step. eapply wp_mono; [by apply Hst|]. cbn beta. intros _ m' ->. cbn zeta.
      replace ((x =? 10) || (x =? 13)) with false by lia. wp_step. split; [|lia]. exists (S k). split; [lia|]. split; [lia|].
      cbn. by rewrite (take_S_r l k x Hx).
    + assert (k = length l) as -> by lia. rewrite drop_ge, take_ge by lia. unfold wp at 1. cbn [stdin umem app]. wp_step. wp_step. rewrite take_ge in Hst by lia.
      eapply wp_mono; [apply Hst; unfold is_byte; lia|]. cbn beta. intros _ m' ->. cbn zeta. replace ((c =? 10) || (c =? 13)) with true by lia. wp_step. wp_step. wp_step.
      replace (buf + (Z.of_nat (length l) + 1)) with (buf + Z.of_nat (length l + 1)) by lia. cbn [mem_lens lget lset umem].
      apply wp_store8; [apply (mapped_write _ _ _ _ _ Hm); lia|]. wp_step. cbn [umem stdin]. change (u8 0) with 0.
      replace (l ++ [c; 0]) with ((l ++ [c]) ++ [0]) in HQ by (by rewrite <-app_assoc).
      rewrite <-write_bytes_snoc, length_app, write_bytes_comm in HQ by (rewrite length_app; cbn; lia). exact HQ.
Qed.

Lemma gets_eof max buf m Q : is_Some (m !! buf) -> Q buf (St (<[buf := 0]> m) []) -> wp (gets buf max) Q (St m []).
Proof.
  intros Hm HQ. unfold gets. wp_step. cbn [loop]. wp_step. unfold gets_body at 1.
  assert (forall Q', Q' (inr 0) (St m []) -> wp (if 0 + 1 <? max then read1 ≫= (fun c => match c with
    | Some c => zoom mem_lens (store8 (buf + 0) c) ;; (if (c =? 10) || (c =? 13) then mret (inr (0 + 1)) else mret (inl (0 + 1)))
    | None => mret (inr 0) end) else mret (inr 0)) Q' (St m [])) as Hw.
  { intros Q' HQ'. destruct (0 + 1 <? max); [|by wp_step]. wp_step. unfold wp at 1, read1. cbn [stdin]. by wp_step. }
  apply Hw. wp_step. wp_step. wp_step. cbn [mem_lens lget umem]. rewrite Z.add_0_r. apply wp_store8; [done|]. wp_step. exact HQ.
Qed.

(** ** Printing *)

Lemma digit_byte d : 0 <= d < 16 -> u8 (digit digits d) = digit digits d.
Proof.
  intros Hd. assert (forallb (fun d => u8 (digit digits d) =? digit digits d) (seqZ 0 16) = true) as H by reflexivity.
  by apply Z.eqb_eq, (forallb_seqZ _ _ _ H d).
Qed.
Lemma numeral_length base x ds : 2 <= base -> numeral base x ds -> (length ds <= 1)%nat \/ base ^ Z.of_nat (length ds - 1) <= x.
Proof.
  intros Hb [Hd <- Hl]. induction ds as [|d ds IH] using rev_ind; [left; cbn; lia|]. clear IH. rewrite last_snoc in Hl. apply Forall_app in Hd as [Hds Hd].
  rewrite Forall_singleton in Hd. destruct Hl as [(d' & [= <-] & Hl)|Hl]; [right|left; rewrite Hl; cbn; lia]. rewrite value_app, length_app. cbn [length].
  replace (length ds + 1 - 1)%nat with (length ds) by lia. assert (0 <= value base ds) as H0.
  { clear Hl Hd. induction Hds as [|y ds Hy _ IH]; cbn; [lia|]. unfold value in *. nia. }
  assert (0 < base ^ Z.of_nat (length ds)) by (apply Z.pow_pos_nonneg; lia). unfold value at 2. cbn [foldr]. nia.
Qed.

(** the text printint() writes *)
Definition int_text (xx base sgn : Z) (o : list Z) : Prop :=
  if negb (sgn =? 0) && (xx <? 0) then exists ds, numeral base (- xx) ds /\ o = 45 :: shown digits ds
  else exists ds, numeral base (u32 xx) ds /\ o = shown digits ds.
Lemma printint_text xx base sgn (s : out) : 10 <= base <= 16 -> - 2 ^ 31 <= xx < 2 ^ 31 -> (sgn <> 0 -> xx <> - 2 ^ 31) ->
  wp (printint xx base sgn) (fun _ s' => exists o, int_text xx base sgn o /\ s' = s ++ o) s.
Proof.
  intros Hb Hx Hmin. unfold printint, int_text. assert (2 ^ 32 < base ^ 10) as Hpow.
  { apply Z.lt_le_trans with (10 ^ 10); [done|]. apply Z.pow_le_mono_l. lia. }
  assert (base ^ 10 <= base ^ 16) as Hpow' by (apply Z.pow_le_mono_r; lia).
  assert (forall b ds, Forall (fun d => 0 <= d < base) ds -> (forall j d, ds !! j = Some d -> at_ b (Z.of_nat j) = Some (digit digits d)) ->
    forall Q (t : out), Q tt (t ++ shown digits ds) -> wp (loop (S (Z.to_nat (Z.of_nat (length ds)))) (fun i =>
      let i := i - 1 in if 0 <=? i then c ← deref (fun _ => at_ b i); putc c ;; mret (inl i) else mret (inr tt)) (Z.of_nat (length ds))) Q t) as Hprint.
  { intros b ds Hds Hat Q t HQ. apply (print_buf digits eq_refl putc (fun o t => t ++ o) (fun _ => True)); try done.
    - intros t'. apply app_nil_r.
    - intros o o' t'. by rewrite app_assoc.
    - intros d t' _ Hd. apply wp_modify. by rewrite digit_byte.
    - eapply Forall_impl; [exact Hds|]. cbn. lia. }
  destruct (negb (sgn =? 0) && (xx <? 0)) eqn:En.
  - apply andb_true_iff in En as [Es%negb_true_iff%Z.eqb_neq En%Z.ltb_lt]. specialize (Hmin Es). wp_step. wp_step; [lia|]. wp_step. apply (print_digits digits eq_refl); [lia|lia|lia|].
    intros b i ds Hnu Hlb -> Hl16 Hat. pose proof (numeral_length base (- xx) ds ltac:(lia) Hnu) as Hlen.
    assert (length ds <= 15)%nat as Hl15.
    { destruct Hlen as [|Hlen]; [lia|]. destruct (decide (length ds <= 15)%nat) as [|Hn]; [done|]. exfalso.
      assert (base ^ 10 <= base ^ Z.of_nat (length ds - 1)) by (apply Z.pow_le_mono_r; lia). lia. }
    wp_step. wp_step. unfold bput. destruct (at_is_Some b (Z.of_nat (length ds))) as [y Hy]; [lia|]. wp_step. eapply wp_deref; [exact Hy|]. wp_step. wp_step.
    cbn beta iota. replace (Z.to_nat (Z.of_nat (length ds) + 1)) with (S (Z.to_nat (Z.of_nat (length ds)))) by lia.
    change (loop (S (S (Z.to_nat (Z.of_nat (length ds))))) ?f) with (fun v => f v ≫= fun r => match r with inl v' => loop (S (Z.to_nat (Z.of_nat (length ds)))) f v' | inr r => mret r end).
    cbn beta zeta. replace (Z.of_nat (length ds) + 1 - 1) with (Z.of_nat (length ds)) by lia. destruct (Z.leb_spec 0 (Z.of_nat (length ds))); [|lia].
    wp_step. wp_step. eapply wp_deref; [apply at_put_eq; lia|]. wp_step. apply wp_modify. wp_step. change (u8 45) with 45.
    apply Hprint; [exact (nu_digits _ _ _ Hnu)| |].
    + intros j d Hj. pose proof (lookup_lt_Some _ _ _ Hj). rewrite at_put_ne by lia. by apply Hat.
    + exists (45 :: shown digits ds). split; [by exists ds|]. by rewrite <-app_assoc.
  - wp_step. wp_step. wp_step. pose proof (Z.mod_pos_bound xx (2 ^ 32) ltac:(lia)). apply (print_digits digits eq_refl); [lia|lia|unfold u32; lia|].
    intros b i ds Hnu Hlb -> Hl16 Hat. wp_step. wp_step. cbn beta iota. apply Hprint; [exact (nu_digits _ _ _ Hnu)|done|].
    exists (shown digits ds). split; [by exists ds|done].
Qed.

Lemma putstr_text (l : list Z) (s : out) Q : 0 ∉ l -> Forall is_byte l -> Q tt (s ++ l) -> wp (putstr l) Q s.
Proof.
  intros H0 Hl HQ. unfold putstr.
  eapply (wp_loop _ _ _ _ _ (fun i t => exists k : nat, (k <= length l)%nat /\ i = Z.of_nat k /\ t = s ++ take k l) (fun i => (length l - Z.to_nat i)%nat)).
  - exists 0%nat. rewrite take_0, app_nil_r. split; [lia|done].
  - lia.
  - intros i t (k & Hk & -> & ->). destruct (lookup_lt_is_Some_2 (l ++ [0]) k) as [x Hx]; [rewrite length_app; cbn; lia|]. wp_step.
    eapply wp_deref; [unfold at_; destruct (Z.leb_spec 0 (Z.of_nat k)); [rewrite Nat2Z.id; exact Hx|lia]|]. apply lookup_app_Some in Hx as [Hx|[Hge Hx]].
    + destruct (Z.eqb_spec x 0) as [->|_]; [destruct H0; by eapply list_elem_of_lookup_2|]. pose proof (lookup_lt_Some _ _ _ Hx). cbn [negb]. wp_step.
      apply wp_modify. wp_step. split; [|lia]. exists (S k). split; [lia|]. split; [lia|]. rewrite (take_S_r l k x Hx), app_assoc.
      rewrite u8_byte by (eapply Forall_lookup_1; eauto). done.
    + assert (k = length l) as -> by lia. rewrite Nat.sub_diag in Hx. injection Hx as <-. cbn [Z.eqb negb]. wp_step. by rewrite take_ge by lia.
Qed.

(** ** What printf() prints for a format and its arguments

    The least int has no numeral: its negation overflows in printint(). *)

Inductive renders : list Z -> list arg -> list Z -> Prop :=
| r_end l : renders [] l []
| r_cut l : renders [37] l []
| r_char c fmt l o : c <> 37 -> renders fmt l o -> renders (c :: fmt) l (c :: o)
| r_int v fmt l o t : s32 (u64 v) <> - 2 ^ 31 -> int_text (s32 (u64 v)) 10 1 t -> renders fmt l o -> renders (37 :: 100 :: fmt) (AInt v :: l) (t ++ o)
| r_hex c v fmt l o t : c = 120 \/ c = 112 -> int_text (s32 (u64 v)) 16 0 t -> renders fmt l o ->
    renders (37 :: c :: fmt) (AInt v :: l) (t ++ o)
| r_str s fmt l o : 0 ∉ s -> Forall is_byte s -> renders fmt l o -> renders (37 :: 115 :: fmt) (AStr (Some s) :: l) (s ++ o)
| r_null fmt l o : renders fmt l o -> renders (37 :: 115 :: fmt) (AStr None :: l) (null_text ++ o)
| r_chr v fmt l o : renders fmt l o -> renders (37 :: 99 :: fmt) (AInt v :: l) (u8 (s32 v) :: o)
| r_percent fmt l o : renders fmt l o -> renders (37 :: 37 :: fmt) l (37 :: o)
| r_other c fmt l o : c ∉ [100; 120; 112; 115; 99; 37] -> renders fmt l o -> renders (37 :: c :: fmt) l (37 :: c :: o).

Lemma printint_spec xx base sgn t (s : out) Q : 10 <= base <= 16 -> - 2 ^ 31 <= xx < 2 ^ 31 -> (sgn <> 0 -> xx <> - 2 ^ 31) -> int_text xx base sgn t -> Q tt (s ++ t) ->
  wp (printint xx base sgn) Q s.
Proof.
  intros Hb Hx Hmin Ht HQ. eapply wp_mono; [by apply printint_text|]. cbn beta. intros [] s' (t' & Ht' & ->). assert (t' = t) as ->; [|done].
  unfold int_text in *. destruct (negb (sgn =? 0) && (xx <? 0)); destruct Ht as (ds & Hds & ->), Ht' as (ds' & Hds' & ->);
    by rewrite (numeral_unique base _ ds ds' ltac:(lia) Hds Hds').
Qed.
Lemma s32_range z : - 2 ^ 31 <= s32 z < 2 ^ 31.
Proof. unfold s32. pose proof (Z.mod_pos_bound (z + 2 ^ 31) (2 ^ 32) ltac:(lia)). lia. Qed.
(** one conversion and what is behind it *)
Lemma printf_conv_text c fmt l o (s : out) : is_byte c -> renders (37 :: c :: fmt) l o ->
  exists t l' o', o = t ++ o' /\ renders fmt l' o' /\ wp (printf_conv c l) (fun x s' => x = l' /\ s' = s ++ t) s.
Proof.
  intros Hby Hr. remember (37 :: c :: fmt) as f eqn:E. destruct Hr as [| |? ? ? ? ? _|v f' l o t Hv Ht Hr|c' v f' l o t Hc Ht Hr|t f' l o H0 Ht Hr|f' l o Hr|v f' l o Hr|f' l o Hr|c' f' l o Hc Hr];
    try done; injection E; intros; subst; try done.
  - exists t, l, o. split; [done|]. split; [done|]. unfold printf_conv. cbn [Z.eqb Pos.eqb next_int]. wp_step. wp_step. cbn [fst snd]. wp_step.
    apply (printint_spec _ _ _ t); [lia|apply s32_range|done|done|]. by wp_step.
  - exists t, l, o. split; [done|]. split; [done|]. unfold printf_conv. replace (c =? 100) with false by lia. replace ((c =? 120) || (c =? 112)) with true by lia.
    cbn [next_int]. wp_step. wp_step. cbn [fst snd]. wp_step. apply (printint_spec _ _ _ t); [lia|apply s32_range|done|done|]. by wp_step.
  - exists t, l, o. split; [done|]. split; [done|]. unfold printf_conv. cbn [Z.eqb Pos.eqb orb next_str]. wp_step. wp_step. cbn [fst snd default]. wp_step.
    apply (putstr_text t); [done|done|]. by wp_step.
  - exists null_text, l, o. split; [done|]. split; [done|]. unfold printf_conv. cbn [Z.eqb Pos.eqb orb next_str]. wp_step. wp_step. cbn [fst snd default]. wp_step.
    apply (putstr_text null_text); [unfold null_text; rewrite !not_elem_of_cons; repeat split; try done; apply not_elem_of_nil|by repeat constructor|]. by wp_step.
  - exists [u8 (s32 v)], l, o. split; [done|]. split; [done|]. unfold printf_conv. cbn [Z.eqb Pos.eqb orb next_int]. wp_step. wp_step. cbn [fst snd]. wp_step.
    apply wp_modify. by wp_step.
  - exists [37], l, o. split; [done|]. split; [done|]. unfold printf_conv. cbn [Z.eqb Pos.eqb orb]. wp_step. apply wp_modify. by wp_step.
  - exists [37; c], l, o. split; [done|]. split; [done|]. rewrite !not_elem_of_cons in Hc. unfold printf_conv.
    replace (c =? 100) with false by lia. replace (c =? 120) with false by lia. replace (c =? 112) with false by lia. replace (c =? 115) with false by lia.
    replace (c =? 99) with false by lia. replace (c =? 37) with false by lia. cbn [orb]. wp_step. apply wp_modify. wp_step. apply wp_modify. wp_step.
    split; [done|]. rewrite (u8_byte c) by done. by rewrite <-app_assoc.
Qed.

Lemma at_mid (pre : list Z) x k : at_ (pre ++ x :: k) (Z.of_nat (length pre)) = Some x.
Proof. unfold at_. destruct (Z.leb_spec 0 (Z.of_nat (length pre))); [|lia]. rewrite Nat2Z.id. by apply list_lookup_middle. Qed.
Lemma land_byte c : is_byte c -> Z.land c 255 = c.
Proof. intros Hc. unfold is_byte in Hc. change 255 with (Z.ones 8). rewrite Z.land_ones by lia. apply Z.mod_small. lia. Qed.
Lemma printf_loop n : forall fuel pre fmt l o (s : out), (length fmt <= n)%nat -> (length fmt < fuel)%nat -> Forall (fun c => is_byte c /\ c <> 0) fmt ->
  renders fmt l o -> wp (loop fuel (printf_body (pre ++ fmt)) (Z.of_nat (length pre), 0, l)) (fun _ s' => s' = s ++ o) s.
Proof.
  assert (forall fuel pre l (s : out), wp (loop (S fuel) (printf_body (pre ++ [])) (Z.of_nat (length pre), 0, l)) (fun _ s' => s' = s ++ []) s) as Hend.
  { intros fuel pre l s. cbn [loop]. wp_step. unfold printf_body at 1. wp_step. rewrite <-app_assoc. eapply wp_deref; [apply at_mid|]. cbn [Z.eqb]. wp_steps.
    by rewrite app_nil_r. }
  assert (forall pre c (fmt : list Z), Z.of_nat (length pre) + 1 = Z.of_nat (length (pre ++ [c])) /\ pre ++ c :: fmt = (pre ++ [c]) ++ fmt) as Hmid.
  { intros pre c fmt. rewrite length_app, <-app_assoc. cbn. split; [lia|done]. }
  induction n as [|n IH]; intros [|fuel] pre fmt l o s Hn Hfuel Hf Hr; try lia.
  { destruct fmt; [|cbn in Hn; lia]. assert (o = []) as -> by (remember [] as f eqn:E; by destruct Hr). apply Hend. }
  destruct fmt as [|c fmt].
  { assert (o = []) as -> by (remember [] as f eqn:E; by destruct Hr). apply Hend. }
  apply Forall_cons in Hf as [[Hby Hc0] Hf]. cbn [length] in *. cbn [loop]. wp_step. unfold printf_body at 1. wp_step. rewrite <-app_assoc. cbn [app].
  eapply wp_deref; [apply at_mid|]. replace (c =? 0) with false by lia. cbn [Z.eqb]. rewrite land_byte by done. destruct (Hmid pre c fmt) as [-> ->].
  destruct (Z.eqb_spec c 37) as [->|Hc].
  - wp_step. destruct fmt as [|c fmt].
    + assert (o = []) as -> by (remember [37] as f eqn:E; destruct Hr; try done; by injection E). destruct fuel as [|fuel]; [cbn in Hfuel; lia|].
      cbn [loop]. wp_step. unfold printf_body at 1. wp_step. rewrite <-app_assoc. eapply wp_deref; [apply (at_mid (pre ++ [37]))|]. cbn [Z.eqb]. wp_steps.
      by rewrite app_nil_r.
    + apply Forall_cons in Hf as [[Hby' Hc0'] Hf]. cbn [length] in *. destruct fuel as [|fuel]; [lia|]. cbn [loop]. wp_step. unfold printf_body at 1. wp_step.
      rewrite <-app_assoc. cbn [app]. eapply wp_deref; [apply (at_mid (pre ++ [37]))|]. replace (c =? 0) with false by lia. cbn [Z.eqb Pos.eqb]. rewrite land_byte by done.
      destruct (printf_conv_text _ _ _ _ s Hby' Hr) as (t & l' & o' & -> & Hr' & Hw). wp_step. eapply wp_mono; [exact Hw|]. cbn beta. intros l'' s' [-> ->]. wp_step.
      destruct (Hmid (pre ++ [37]) c fmt) as [-> ->]. rewrite app_assoc. apply IH; [lia|lia|done|done].
  - wp_step. apply wp_modify. wp_step. rewrite (u8_byte c) by done. remember (c :: fmt) as f eqn:E.
    destruct Hr as [| |c' fmt' l' o' _ Hr| | | | | | |]; try done; injection E; intros; subst; try done.
    replace (s ++ c :: o') with ((s ++ [c]) ++ o') by (by rewrite <-app_assoc). apply IH; [lia|lia|done|done].
Qed.

(** C37: printf() writes what the format renders to: the characters of the format, and for each conversion the decimal or
    hexadecimal numeral of its argument (of its low 32 bits, with a minus sign where %d finds them negative), its string, "(null)" for a
    null one, its character, a percent sign, or the unknown sequence itself; a lone % at the end of the format prints nothing. *)
Theorem printf_correct fmt l o (s : out) : Forall (fun c => is_byte c /\ c <> 0) fmt -> renders fmt l o ->
  wp (printf fmt l) (fun _ s' => s' = s ++ o) s.
Proof. intros Hf Hr. apply (printf_loop (length fmt) _ []); [done|lia|done|done]. Qed.
(** "%d%%" of -1 *)
Lemma printf_correct_witness : printf [37; 100; 37; 37] [AInt (-1)] [] = Done tt [45; 49; 37].
Proof.
  assert (renders [37; 100; 37; 37] [AInt (-1)] ([45; 49] ++ [37])) as Hr.
  { apply r_int; [by vm_compute|by exists [1]; vm_compute; repeat split; try (repeat constructor; done); left; eexists|]. apply r_percent, r_end. }
  assert (Forall (fun c => is_byte c /\ c <> 0) [37; 100; 37; 37]) as Hf by (repeat constructor; done).
  pose proof (printf_correct _ _ _ [] Hf Hr) as Hw.
  destruct (proj1 (wp_done _ _ _) Hw) as ([] & s' & E & ->). exact E.
Defined.
End Ulib.
