(* ===== verification/Sh.v ===== *)
(** * The parser of the shell (src/src/usr/sh.c)

    The recursive-descent parser over the line in memory: gettoken() and
    peek() move the cursor [cur], the variable s of parsecmd() whose address
    every routine is given; the nodes of the tree are the blocks malloc() has
    handed out, a pointer to the n-th is n and 0 is null; the words of a
    command are pointers into the line, whose ends nulterminate() overwrites
    when the line has been read.  The header of each routine's loop gives
    the bound on its rounds; the recursion of the grammar is bounded by the
    length of the line. *)

From S2P Require Import Prelude.
From S2P Require Import KString.
From S2P Require Import Ulib.

Module Sh.

(** ** Data *)

Definition MAXARGS : Z := 10.
Definition O_RDONLY : Z := 0.
Definition O_WRONLY : Z := 1.
Definition O_CREATE : Z := 512.

(** struct cmd, by its type field *)
Inductive node : Type :=
| EXEC (argv eargv : list Z)
| REDIR (cmd file efile mode fd : Z)
| PIPE (left right : Z)
| LIST (left right : Z)
| BACK (cmd : Z).

Record st : Type := St {
  text : mem;
  cur : Z;
  heap : list node;
}.
Definition text_lens : lens st mem := Lens text (fun m s => St m (cur s) (heap s)).
Definition with_cur (c : Z) (s : st) : st := St (text s) c (heap s).
Definition with_heap (h : list node) (s : st) : st := St (text s) (cur s) h.
Definition load (p : Z) : M st Z := zoom text_lens (load8 p).

(** [limit]: how many commands malloc() finds memory for.  The constructors
    do not test its result: memset() of null is undefined. *)
Section parser.
Context (limit : nat).
Definition new (n : node) : M st Z := fun s =>
  if decide (length (heap s) < limit)%nat then Done (Z.of_nat (S (length (heap s)))) (with_heap (heap s ++ [n]) s) else Undef.
Definition cmd_at (h : list node) (p : Z) : option node := at_ h (p - 1).
(** a store through a pointer to a struct execcmd *)
Definition upd_exec (p : Z) (f : list Z -> list Z -> option (list Z * list Z)) : M st unit := fun s =>
  match cmd_at (heap s) p with
  | Some (EXEC a e) =>
      match f a e with Some (a, e) => Done tt (with_heap (put (heap s) (p - 1) (EXEC a e)) s) | None => Undef end
  | _ => Undef
  end.
Definition set_arg (i q eq : Z) (a e : list Z) : option (list Z * list Z) :=
  if (0 <=? i) && (i <? Z.of_nat (length a)) && (i <? Z.of_nat (length e)) then Some (put a i q, put e i eq) else None.

Definition execcmd : M st Z := new (EXEC (replicate (Z.to_nat MAXARGS) 0) (replicate (Z.to_nat MAXARGS) 0)).
Definition redircmd (subcmd file efile mode fd : Z) : M st Z := new (REDIR subcmd file efile mode fd).
Definition pipecmd (left right : Z) : M st Z := new (PIPE left right).
Definition listcmd (left right : Z) : M st Z := new (LIST left right).
Definition backcmd (subcmd : Z) : M st Z := new (BACK subcmd).

(** ** Tokens *)

(** space, tab, return, newline, vertical tab *)
Definition whitespace : list Z := [32; 9; 13; 10; 11].
(** < | > & ; ( and ) *)
Definition symbols : list Z := [60; 124; 62; 38; 59; 40; 41].

(** while (s < es && strchr(whitespace, *s)) s++ *)
Definition skip_white (es s : Z) : M st Z :=
  loop (S (Z.to_nat (es - s))) (fun s =>
    if s <? es then c ← load s; mret (if Ulib.strchr whitespace c then inl (s + 1) else inr s) else mret (inr s)) s.
Definition skip_word (es s : Z) : M st Z :=
  loop (S (Z.to_nat (es - s))) (fun s =>
    if s <? es then
      c ← load s;
      mret (if negb (Ulib.strchr whitespace c) && negb (Ulib.strchr symbols c) then inl (s + 1) else inr s)
    else mret (inr s)) s.

(** the token, and where it starts and ends *)
Definition gettoken (es : Z) : M st (Z * Z * Z) :=
  s ← gets cur;
  s ← skip_white es s;
  let q := s in
  c ← load s;
  v ← (if c =? 0 then mret (c, s)
       else if existsb (Z.eqb c) [124; 40; 41; 59; 38; 60] then mret (c, s + 1)
       else if c =? 62 then
         c' ← load (s + 1);
         mret (if c' =? 62 then (43, s + 2) else (c, s + 1))
       else s ← skip_word es s; mret (97, s));
  let '(ret, s) := v : Z * Z in
  let eq := s in
  s ← skip_white es s;
  modify (with_cur s) ;;
  mret (ret, q, eq).

Definition peek (es : Z) (toks : list Z) : M st bool :=
  s ← gets cur;
  s ← skip_white es s;
  modify (with_cur s) ;;
  c ← load s;
  mret (negb (c =? 0) && Ulib.strchr toks c).

(** ** Commands *)

Definition parseredirs_body (es cmd : Z) : M st (Z + Z) :=
  b ← peek es [60; 62];
  if b : bool then
    t ← gettoken es;
    w ← gettoken es;
    let '(tok, _, _) := t : Z * Z * Z in
    let '(r, q, eq) := w : Z * Z * Z in
    panic_if (negb (r =? 97)) "missing file for redirection" ;;
    cmd ← (if tok =? 60 then redircmd cmd q eq O_RDONLY 0
           else if tok =? 62 then redircmd cmd q eq (Z.lor O_WRONLY O_CREATE) 1
           else if tok =? 43 then redircmd cmd q eq (Z.lor O_WRONLY O_CREATE) 1
           else mret cmd);
    mret (inl cmd)
  else mret (inr cmd).
Definition parseredirs (cmd es : Z) : M st Z :=
  fuel ← gets (fun s => S (Z.to_nat (es - cur s)));
  loop fuel (parseredirs_body es) cmd.

(** one more argument of [cmd], whose redirections so far are [ret] *)
Definition parseexec_body (es cmd : Z) (v : Z * Z) : M st (Z * Z + Z * Z) :=
  let '(argc, ret) := v in
  b ← peek es [124; 41; 38; 59];
  if b : bool then mret (inr (argc, ret)) else
  t ← gettoken es;
  let '(tok, q, eq) := t : Z * Z * Z in
  if tok =? 0 then mret (inr (argc, ret)) else
  panic_if (negb (tok =? 97)) "syntax" ;;
  upd_exec cmd (set_arg argc q eq) ;;
  let argc := argc + 1 in
  panic_if (MAXARGS <=? argc) "too many args" ;;
  ret ← parseredirs ret es;
  mret (inl (argc, ret)).
Definition parseexec_args (es : Z) : M st Z :=
  ret ← execcmd;
  let cmd := ret in
  let argc := 0 in
  ret ← parseredirs ret es;
  v ← loop (S (Z.to_nat MAXARGS)) (parseexec_body es cmd) (argc, ret);
  let '(argc, ret) := v : Z * Z in
  upd_exec cmd (set_arg argc 0 0) ;;
  mret ret.

(** while (peek(ps, es, "&")) *)
Definition parseback (es cmd : Z) : M st Z :=
  fuel ← gets (fun s => S (Z.to_nat (es - cur s)));
  loop fuel (fun cmd =>
    b ← peek es [38];
    if b : bool then gettoken es ;; cmd ← backcmd cmd; mret (inl cmd) else mret (inr cmd)) cmd.

Fixpoint parseline (fuel : nat) (es : Z) : M st Z :=
  match fuel with O => fun _ => NoFuel | S fuel =>
    cmd ← parsepipe fuel es;
    cmd ← parseback es cmd;
    b ← peek es [59];
    if b : bool then
      gettoken es ;;
      r ← parseline fuel es;
      listcmd cmd r
    else mret cmd
  end
with parsepipe (fuel : nat) (es : Z) : M st Z :=
  match fuel with O => fun _ => NoFuel | S fuel =>
    cmd ← parseexec fuel es;
    b ← peek es [124];
    if b : bool then
      gettoken es ;;
      r ← parsepipe fuel es;
      pipecmd cmd r
    else mret cmd
  end
with parseblock (fuel : nat) (es : Z) : M st Z :=
  match fuel with O => fun _ => NoFuel | S fuel =>
    b ← peek es [40];
    panic_if (negb b) "parseblock" ;;
    gettoken es ;;
    cmd ← parseline fuel es;
    b ← peek es [41];
    panic_if (negb b) "syntax - missing )" ;;
    gettoken es ;;
    parseredirs cmd es
  end
with parseexec (fuel : nat) (es : Z) : M st Z :=
  match fuel with O => fun _ => NoFuel | S fuel =>
    b ← peek es [40];
    if b : bool then parseblock fuel es else parseexec_args es
  end.

(** *p = 0 *)
Definition store_nul (p : Z) : M st unit := zoom text_lens (store8 p 0).
Definition null_args (a e : list Z) : M st unit :=
  loop (S (Z.to_nat MAXARGS)) (fun i =>
    q ← deref (fun _ => at_ a i);
    if q =? 0 then mret (inr tt) else
    eq ← deref (fun _ => at_ e i);
    store_nul eq ;;
    mret (inl (i + 1))) 0.
(** the line is not one of the nodes: the stores leave the tree as it is *)
Fixpoint nulterminate (fuel : nat) (cmd : Z) : M st Z :=
  match fuel with O => fun _ => NoFuel | S fuel =>
    if cmd =? 0 then mret 0 else
    n ← deref (fun s => cmd_at (heap s) cmd);
    (match n with
     | EXEC argv eargv => null_args argv eargv
     | REDIR c file efile mode fd => nulterminate fuel c ;; store_nul efile
     | PIPE l r => nulterminate fuel l ;; nulterminate fuel r ;; mret tt
     | LIST l r => nulterminate fuel l ;; nulterminate fuel r ;; mret tt
     | BACK c => nulterminate fuel c ;; mret tt
     end) ;;
    mret cmd
  end.

Definition parsecmd (s : Z) : M st Z :=
  modify (with_cur s) ;;
  n ← zoom text_lens (Ulib.strlen s);
  let es := s + n in
  cmd ← parseline (4 * S (Z.to_nat n)) es;
  peek es [] ;;
  s ← gets cur;
  panic_if (negb (s =? es)) "syntax" ;;
  fuel ← gets (fun s => S (length (heap s)));
  nulterminate fuel cmd ;;
  mret cmd.
End parser.

(** ** Specification: the tokens of a line *)

Definition white (c : Z) : bool := Ulib.strchr whitespace c.
(** the characters of a word *)
Definition wordc (c : Z) : bool := negb (c =? 0) && negb (white c) && negb (Ulib.strchr symbols c).

Inductive tok : Type :=
| Word (w : list Z)
| Op (c : Z)
| Append.
#[export] Instance tok_eq_dec : EqDecision tok.
Proof. solve_decision. Defined.

(** the text [l] splits into the tokens [ts]: words as long as they can be, white space between tokens where there is any *)
Inductive lexes : list Z -> list tok -> Prop :=
| lex_nil : lexes [] []
| lex_white c l ts : white c = true -> lexes l ts -> lexes (c :: l) ts
| lex_op c l ts : c ∈ [124; 40; 41; 59; 38; 60] -> lexes l ts -> lexes (c :: l) (Op c :: ts)
| lex_out l ts : head l <> Some 62 -> lexes l ts -> lexes (62 :: l) (Op 62 :: ts)
| lex_append l ts : lexes l ts -> lexes (62 :: 62 :: l) (Append :: ts)
| lex_word w l ts : w <> [] -> Forall (fun c => wordc c = true) w -> (forall c, head l = Some c -> wordc c = false) ->
    lexes l ts -> lexes (w ++ l) (Word w :: ts).

Definition tok_code (ts : list tok) : Z :=
  match ts with [] => 0 | Word _ :: _ => 97 | Op c :: _ => c | Append :: _ => 43 end.
Definition peeks (toks : list Z) (ts : list tok) : bool :=
  match ts with Op c :: _ => Ulib.strchr toks c | Append :: _ => Ulib.strchr toks 62 | _ => false end.

Lemma strchr_elem l c : Ulib.strchr l c = true <-> c ∈ l.
Proof.
  induction l as [|x l IH]; cbn [Ulib.strchr]; [split; [done|by intros ?%not_elem_of_nil]|]. rewrite elem_of_cons.
  destruct (Z.eqb_spec x c) as [->|]; [by split; [left|]|]. rewrite IH. split; [by right|by intros [->|]].
Qed.
Lemma lexes_nonzero l ts : lexes l ts -> 0 ∉ l.
Proof.
  induction 1 as [|c l ts Hc _ IH|c l ts Hc _ IH|l ts _ _ IH|l ts _ IH|w l ts _ Hw _ _ IH]; intros H0.
  - by apply not_elem_of_nil in H0.
  - apply elem_of_cons in H0 as [<-|?]; done.
  - apply elem_of_cons in H0 as [<-|?]; [|done]. by repeat (apply elem_of_cons in Hc as [?|Hc]; [done|]); apply not_elem_of_nil in Hc.
  - by apply elem_of_cons in H0 as [?|?].
  - apply elem_of_cons in H0 as [?|H0]; [done|]. by apply elem_of_cons in H0 as [?|?].
  - apply elem_of_app in H0 as [H0|H0]; [|done]. rewrite Forall_forall in Hw. by apply Hw in H0.
Qed.
Lemma lexes_white_inv c l ts : white c = true -> lexes (c :: l) ts -> lexes l ts.
Proof.
  intros Hc Hl. remember (c :: l) as k eqn:E. destruct Hl as [|c' l' ts' _ Hl|c' l' ts' Hop _|l' ts' _ _|l' ts' _|w l' ts' Hne Hw _ _]; try done; simplify_eq.
  - done.
  - by repeat (apply elem_of_cons in Hop as [->|Hop]; [done|]); apply not_elem_of_nil in Hop.
  - destruct w as [|x w]; [done|]. cbn in E. simplify_eq. apply Forall_cons in Hw as [Hw _]. unfold wordc in Hw. rewrite Hc in Hw. by destruct (c =? 0).
Qed.
Lemma lexes_length l ts : lexes l ts -> (length ts <= length l)%nat.
Proof.
  induction 1 as [| | | | |w l ts Hne]; cbn; try lia. rewrite length_app. destruct w; [done|cbn; lia].
Qed.

(** ** The cursor *)

Section lexing.
Context (m : mem) (es : Z).

(** the text from [s] to [es] holds the tokens [ts] *)
Definition rest (s : Z) (ts : list tok) : Prop :=
  exists l, lexes l ts /\ bytes_at m s (l ++ [0]) /\ s + Z.of_nat (length l) = es /\ 0 < s.
(** and does not start with white space *)
Definition tight (s : Z) (ts : list tok) : Prop :=
  exists l, lexes l ts /\ bytes_at m s (l ++ [0]) /\ s + Z.of_nat (length l) = es /\ 0 < s /\ forall c, head l = Some c -> white c = false.
(** the word [w] is at [q], and ends at [eq] in front of another character *)
Definition word_at (q eq : Z) (w : list Z) : Prop :=
  bytes_at m q w /\ eq = q + Z.of_nat (length w) /\ Forall (fun c => wordc c = true) w /\ 0 < q /\ exists c, m !! eq = Some c /\ wordc c = false.

Lemma rest_length s ts : rest s ts -> Z.of_nat (length ts) <= es - s /\ 0 < s <= es.
Proof. intros (l & Hl%lexes_length & _ & He & Hs). lia. Qed.
Lemma wp_load_char p x Q S : text S = m -> m !! p = Some x -> Q x S -> wp (load p) Q S.
Proof. intros E Hx HQ. apply wp_zoom. eapply wp_load8; [cbn; by rewrite E|]. cbn. destruct S. exact HQ. Qed.

Lemma skip_white_loop fuel s ts Q S : text S = m -> es - s < Z.of_nat fuel -> rest s ts ->
  (forall s', tight s' ts -> Q s' S) ->
  wp (loop fuel (fun s => if s <? es then c ← load s; mret (if Ulib.strchr whitespace c then inl (s + 1) else inr s) else mret (inr s)) s) Q S.
Proof.
  intros E Hf (l & Hl & Hb & He & Hs) HQ. revert fuel s Hf Hb He Hs. induction l as [|c l IH]; intros [|fuel] s Hf Hb He Hs; cbn [length] in *; try lia;
    cbn [loop]; wp_step.
  - destruct (Z.ltb_spec s es); [lia|]. wp_steps. apply HQ. by exists [].
  - destruct (Z.ltb_spec s es); [|lia]. pose proof Hb as [Hc Hb']%bytes_at_cons. wp_step. eapply wp_load_char; [done..|]. wp_step.
    change (Ulib.strchr whitespace c) with (white c). destruct (white c) eqn:Ew.
    + apply IH; [by apply (lexes_white_inv c)|lia|done|lia|lia].
    + wp_step. apply HQ. exists (c :: l). repeat (split; [done|]). by intros ? [= <-].
Qed.
Lemma skip_white_spec s ts Q S : text S = m -> rest s ts -> (forall s', tight s' ts -> Q s' S) -> wp (skip_white es s) Q S.
Proof. intros E Hr HQ. apply (skip_white_loop _ _ ts); [done| |done|done]. pose proof (rest_length _ _ Hr). lia. Qed.
Lemma skip_word_loop fuel s w l Q t : text t = m -> Forall (fun c => wordc c = true) w -> (forall c, head l = Some c -> wordc c = false) -> 0 ∉ l ->
  bytes_at m s (w ++ l ++ [0]) -> s + Z.of_nat (length w + length l) = es -> es - s < Z.of_nat fuel ->
  Q (s + Z.of_nat (length w)) t ->
  wp (loop fuel (fun s => if s <? es then c ← load s;
       mret (if negb (Ulib.strchr whitespace c) && negb (Ulib.strchr symbols c) then inl (s + 1) else inr s) else mret (inr s)) s) Q t.
Proof.
  intros E. revert fuel s. induction w as [|c w IH]; intros [|fuel] s Hw Hl H0 Hb He Hf HQ; cbn [length app] in *; try lia; cbn [loop]; wp_step.
  - rewrite Z.add_0_r in HQ. destruct l as [|c l]; cbn [length app] in *.
    + destruct (Z.ltb_spec s es); [lia|]. by wp_steps.
    + destruct (Z.ltb_spec s es); [|lia]. apply bytes_at_cons in Hb as [Hc _]. wp_step. eapply wp_load_char; [done..|]. wp_step.
      specialize (Hl c eq_refl). assert (c <> 0) as Hc0 by (intros ->; apply H0, elem_of_cons; by left).
      unfold wordc, white in Hl. apply Z.eqb_neq in Hc0. rewrite Hc0 in Hl. cbn [negb andb] in Hl. rewrite Hl. by wp_step.
  - apply bytes_at_cons in Hb as [Hc Hb]. apply Forall_cons in Hw as [Hwc Hw]. destruct (Z.ltb_spec s es); [|lia]. wp_step. eapply wp_load_char; [done..|]. wp_step.
    unfold wordc, white in Hwc. apply andb_true_iff in Hwc as [Hwc ->]. apply andb_true_iff in Hwc as [_ ->]. cbn [andb].
    apply IH; [done|done|done|done|lia|lia|]. by replace (s + 1 + Z.of_nat (length w)) with (s + Z.of_nat (Datatypes.S (length w))) by lia.
Qed.

Lemma tight_nil s : tight s [] -> m !! s = Some 0 /\ s = es.
Proof.
  intros (l & Hl & Hb & He & _ & Hh). remember [] as ts eqn:E. destruct Hl as [|c l ts Hc| | | |]; try done.
  - split; [|cbn in He; lia]. by apply bytes_at_cons in Hb as [Hb _].
  - specialize (Hh c eq_refl). congruence.
Qed.
(** what the character the cursor is at says of the next token *)
Lemma tight_cons s t ts : tight s (t :: ts) -> exists c, m !! s = Some c /\ c <> 0 /\ white c = false /\
  match t with
  | Op o => c = o /\ o ∈ symbols /\ rest (s + 1) ts /\ (o = 62 -> exists c', m !! (s + 1) = Some c' /\ c' <> 62)
  | Append => c = 62 /\ m !! (s + 1) = Some 62 /\ rest (s + 2) ts
  | Word w => wordc c = true /\ word_at s (s + Z.of_nat (length w)) w /\ exists l, bytes_at m s (w ++ l ++ [0]) /\
      Forall (fun c => wordc c = true) w /\ (forall c, head l = Some c -> wordc c = false) /\ lexes l ts /\ s + Z.of_nat (length w + length l) = es
  end.
Proof.
  intros (l & Hl & Hb & He & Hs & Hh). remember (t :: ts) as ts0 eqn:E.
  destruct Hl as [|c l ts' Hc|c l ts' Hop Hl|l ts' Hne Hl|l ts' Hl|w l ts' Hne Hw Hl0 Hl]; simplify_eq.
  - specialize (Hh c eq_refl). congruence.
  - pose proof Hb as [Hc Hb']%bytes_at_cons. cbn [length] in He. exists c. split; [done|].
    assert (c ∈ symbols /\ c <> 0 /\ c <> 62) as (? & ? & ?).
    { repeat (apply elem_of_cons in Hop as [->|Hop]; [by split; [apply strchr_elem|]|]). by apply not_elem_of_nil in Hop. }
    split; [done|]. split; [by apply Hh|]. split; [done|]. split; [done|]. split; [exists l; repeat (split; [done || lia|]); lia|done].
  - pose proof Hb as [Hc Hb']%bytes_at_cons. cbn [length] in He. exists 62. repeat (split; [done|]). split; [by apply strchr_elem|].
    split; [exists l; repeat (split; [done || lia|]); lia|]. intros _. destruct l as [|c l]; apply bytes_at_cons in Hb' as [Hc' _].
    + by exists 0.
    + exists c. split; [done|]. intros ->. by apply Hne.
  - pose proof Hb as [Hc [Hc' Hb']%bytes_at_cons]%bytes_at_cons. cbn [length] in He. exists 62. repeat (split; [done|]).
    exists l. split; [done|]. replace (s + 2) with (s + 1 + 1) by lia. split; [done|]. lia.
  - destruct w as [|c w]; [done|]. pose proof Hb as [Hc _]%bytes_at_cons. exists c. pose proof Hw as [Hwc _]%Forall_cons.
    split; [done|]. split; [intros ->; done|]. split; [by apply Hh|]. split; [done|]. rewrite <-app_assoc in Hb.
    pose proof (proj1 (bytes_at_app _ _ _ _) Hb) as [Hbw Hbl]. split.
    { split; [done|]. split; [done|]. split; [done|]. split; [done|]. destruct l as [|x l]; apply bytes_at_cons in Hbl as [Hx _]; eexists; (split; [exact Hx|]); [done|by apply Hl0]. }
    exists l. rewrite ?length_app. repeat (split; [done|]). lia.
Qed.

(** a token is read with the white space on both sides *)
Lemma gettoken_spec ts Q t : text t = m -> rest (cur t) ts ->
  (forall q eq c, rest c (tail ts) -> (forall w ts', ts = Word w :: ts' -> word_at q eq w) -> Q (tok_code ts, q, eq) (with_cur c t)) ->
  wp (gettoken es) Q t.
Proof.
  intros E Hr HQ. unfold gettoken. wp_step. wp_step. wp_step. apply (skip_white_spec _ ts); [done..|]. intros s Ht. cbn zeta. wp_step.
  destruct ts as [|tk ts].
  - apply tight_nil in Ht as [Hc ->]. eapply wp_load_char; [done..|]. cbn [Z.eqb]. wp_step. wp_step. wp_step.
    assert (rest es []) as Hr0.
    { destruct Hr as (l & Hl & Hb & He & Hs). exists []. split; [constructor|]. split; [|split; cbn; lia]. apply bytes_at_cons. split; [done|apply bytes_at_nil]. }
    apply (skip_white_spec _ []); [done..|]. intros s Hs. wp_steps. apply HQ; [|done]. by apply tight_nil in Hs as [_ ->].
  - apply tight_cons in Ht as (c & Hc & Hc0 & Hw & Ht). eapply wp_load_char; [done..|]. apply Z.eqb_neq in Hc0. rewrite Hc0.
    destruct tk as [w|o|].
    + destruct Ht as (Hwc & Hat & l & Hb & Hall & Hl0 & Hl & He).
      assert (existsb (Z.eqb c) [124; 40; 41; 59; 38; 60] = false /\ (c =? 62) = false) as [-> ->].
      { unfold wordc in Hwc. apply andb_true_iff in Hwc as [_ Hs]. apply negb_true_iff in Hs. split; [apply not_true_iff_false; intros (x & Hx & ->%Z.eqb_eq)%existsb_exists; apply list_elem_of_In in Hx|apply Z.eqb_neq; intros ->; done].
        by repeat (apply elem_of_cons in Hx as [->|Hx]; [done|]); apply not_elem_of_nil in Hx. }
      wp_step. wp_step. assert (0 < s) by (by destruct Hat as (_ & _ & _ & ? & _)). apply (skip_word_loop _ _ w l); [done|done|done|by apply (lexes_nonzero _ ts)|done|done|lia|]. wp_step. cbn beta iota zeta. wp_step.
      apply (skip_white_spec _ ts); [done| |].
      { exists l. split; [done|]. split; [rewrite bytes_at_app in Hb; apply Hb|lia]. }
      intros s' Hs'. wp_steps. apply HQ; [|by intros ? ? [= -> ->]]. destruct Hs' as (l' & ? & ? & ? & ? & _). by exists l'.
    + destruct Ht as (-> & Ho & Hr' & H62). wp_step. destruct (existsb (Z.eqb o) [124; 40; 41; 59; 38; 60]) eqn:Ex.
      * wp_step. cbn beta iota zeta. wp_step. apply (skip_white_spec _ ts); [done..|]. intros s' Hs'. wp_steps. apply HQ; [|done].
        destruct Hs' as (l' & ? & ? & ? & ? & _). by exists l'.
      * assert (o = 62) as -> by (repeat (apply elem_of_cons in Ho as [->|Ho]; [done|]); by apply not_elem_of_nil in Ho).
        destruct (H62 eq_refl) as (c' & Hc' & Hne). cbn [Z.eqb Pos.eqb]. wp_step. eapply wp_load_char; [done..|]. apply Z.eqb_neq in Hne. rewrite Hne.
        wp_step. cbn beta iota zeta. wp_step. apply (skip_white_spec _ ts); [done..|]. intros s' Hs'. wp_steps. apply HQ; [|done].
        destruct Hs' as (l' & ? & ? & ? & ? & _). by exists l'.
    + destruct Ht as (-> & Hc' & Hr'). cbn. wp_step. wp_step. eapply wp_load_char; [done..|]. wp_step. cbn. wp_step.
      apply (skip_white_spec _ ts); [done..|]. intros s' Hs'. wp_steps. apply HQ; [|done]. destruct Hs' as (l' & ? & ? & ? & ? & _). by exists l'.
Qed.

Lemma peek_spec toks ts Q t : text t = m -> rest (cur t) ts -> forallb (Ulib.strchr symbols) toks = true ->
  (forall c, rest c ts -> (ts = [] -> c = es) -> Q (peeks toks ts) (with_cur c t)) ->
  wp (peek es toks) Q t.
Proof.
  intros E Hr Hsym HQ. unfold peek. wp_step. wp_step. wp_step. apply (skip_white_spec _ ts); [done..|]. intros s Ht. wp_step. wp_step. wp_step.
  assert (rest s ts) as Hr' by (destruct Ht as (l' & ? & ? & ? & ? & _); by exists l').
  assert (forall c, wordc c = true -> Ulib.strchr toks c = false) as Hout.
  { intros c Hw. apply not_true_iff_false. intros Hin%strchr_elem. rewrite forallb_forall in Hsym. apply list_elem_of_In in Hin. apply Hsym in Hin.
    unfold wordc in Hw. rewrite Hin in Hw. by rewrite andb_comm in Hw. }
  destruct ts as [|tk ts].
  - apply tight_nil in Ht as [Hc ->]. eapply wp_load_char; [done..|]. wp_step. by apply HQ.
  - apply tight_cons in Ht as (c & Hc & Hc0 & Hw & Ht). eapply wp_load_char; [done..|]. wp_step. apply Z.eqb_neq in Hc0. rewrite Hc0. cbn [negb andb].
    specialize (HQ s Hr' ltac:(done)). destruct tk as [w|o|]; cbn [peeks] in HQ.
    + destruct Ht as (Hwc & _). by rewrite (Hout _ Hwc).
    + by destruct Ht as (-> & _).
    + by destruct Ht as (-> & _).
Qed.
End lexing.

(** ** Specification: the grammar, and the tree of a command *)

Inductive redir : Type :=
| In (file : list Z)
| Out (file : list Z)
| App (file : list Z).
Definition rtoks (r : redir) : list tok :=
  match r with In f => [Op 60; Word f] | Out f => [Op 62; Word f] | App f => [Append; Word f] end.
Definition rfile (r : redir) : list Z := match r with In f | Out f | App f => f end.
Definition rmode (r : redir) : Z := match r with In _ => 0 | _ => 513 end.
Definition rfd (r : redir) : Z := match r with In _ => 0 | _ => 1 end.

Inductive cmd : Type :=
| Exec (argv : list (list Z))
| Redir (c : cmd) (r : redir)
| Pipe (l r : cmd)
| Seq (l r : cmd)
| Back (c : cmd).
(** a simple command: redirections, and words with redirections after each *)
Definition args : Type := list (list Z * list redir).
Definition args_toks (l : args) : list tok := l ≫= fun x => Word x.1 :: (x.2 ≫= rtoks).
Definition args_redirs (l : args) : list redir := l ≫= snd.

(** a line is a pipeline in the background any number of times, and perhaps a semicolon and another line *)
Inductive kind : Type := Line | Pipeline | Command.
Inductive gram : kind -> list tok -> cmd -> Prop :=
| gram_line n ts c : gram Pipeline ts c -> gram Line (ts ++ replicate n (Op 38)) (Nat.iter n Back c)
| gram_seq n ts c ts' c' : gram Pipeline ts c -> gram Line ts' c' -> gram Line (ts ++ replicate n (Op 38) ++ Op 59 :: ts') (Seq (Nat.iter n Back c) c')
| gram_single ts c : gram Command ts c -> gram Pipeline ts c
| gram_pipe ts c ts' c' : gram Command ts c -> gram Pipeline ts' c' -> gram Pipeline (ts ++ Op 124 :: ts') (Pipe c c')
| gram_exec rs l : (length l < 10)%nat -> gram Command ((rs ≫= rtoks) ++ args_toks l) (foldl Redir (Exec l.*1) (rs ++ args_redirs l))
| gram_block ts c rs : gram Line ts c -> gram Command (Op 40 :: ts ++ Op 41 :: (rs ≫= rtoks)) (foldl Redir c rs).

(** the nodes a command takes *)
Fixpoint nodes (c : cmd) : nat :=
  match c with Exec _ => 1 | Redir c _ | Back c => S (nodes c) | Pipe l r | Seq l r => S (nodes l + nodes r) end.
(** the tokens that can come behind *)
Definition follow (k : kind) (ts : list tok) : Prop :=
  match ts with
  | [] => True
  | t :: _ => t ∈ match k with Line => [Op 41] | Pipeline => [Op 41; Op 38; Op 59] | Command => [Op 41; Op 38; Op 59; Op 124] end
  end.

(** the tree at [p] stands for [c]; [word q eq w]: the pointers q and eq are the word w *)
Section tree.
Context (word : Z -> Z -> list Z -> Prop).
Definition exec_node (n : node) (ws : list (list Z)) : Prop :=
  match n with
  | EXEC a e => length a = 10%nat /\ length e = 10%nat /\ (length ws < 10)%nat /\ a !! length ws = Some 0 /\
      forall i w, ws !! i = Some w -> exists q eq, a !! i = Some q /\ e !! i = Some eq /\ word q eq w
  | _ => False
  end.
Fixpoint tree (h : list node) (p : Z) (c : cmd) : Prop :=
  match c with
  | Exec ws => exists n, cmd_at h p = Some n /\ exec_node n ws
  | Redir c r => exists pc q eq, cmd_at h p = Some (REDIR pc q eq (rmode r) (rfd r)) /\ word q eq (rfile r) /\ tree h pc c
  | Pipe l r => exists pl pr, cmd_at h p = Some (PIPE pl pr) /\ tree h pl l /\ tree h pr r
  | Seq l r => exists pl pr, cmd_at h p = Some (LIST pl pr) /\ tree h pl l /\ tree h pr r
  | Back c => exists pc, cmd_at h p = Some (BACK pc) /\ tree h pc c
  end.
(** the redirections [rs] around the node at [p0] end at [p] *)
Fixpoint wraps (h : list node) (p0 : Z) (rs : list redir) (p : Z) : Prop :=
  match rs with
  | [] => p = p0
  | r :: rs => exists p1 q eq, cmd_at h p1 = Some (REDIR p0 q eq (rmode r) (rfd r)) /\ word q eq (rfile r) /\ wraps h p1 rs p
  end.

(** [h'] has what [h] has, the words of simple commands apart *)
Definition grows (h h' : list node) : Prop :=
  forall p n, cmd_at h p = Some n -> (if n is EXEC _ _ then False else True) -> cmd_at h' p = Some n.
Lemma wraps_app h p0 rs rs' p1 p : wraps h p0 rs p1 -> wraps h p1 rs' p -> wraps h p0 (rs ++ rs') p.
Proof.
  revert p0. induction rs as [|r rs IH]; cbn; intros p0; [by intros ->|]. intros (p2 & q & eq & ? & ? & ?) ?. exists p2, q, eq. eauto.
Qed.
Lemma wraps_grows h h' p0 rs p : grows h h' -> wraps h p0 rs p -> wraps h' p0 rs p.
Proof.
  intros Hg. revert p0. induction rs as [|r rs IH]; cbn; [done|]. intros p0 (p1 & q & eq & Hc & ? & ?). exists p1, q, eq. split; [by apply Hg|eauto].
Qed.
Lemma wraps_tree h p0 rs p c : wraps h p0 rs p -> tree h p0 c -> tree h p (foldl Redir c rs).
Proof.
  revert p0 c. induction rs as [|r rs IH]; cbn; intros p0 c; [by intros ->|]. intros (p1 & q & eq & Hc & Hw & Hws) Ht. eapply IH; [done|]. by exists p0, q, eq.
Qed.
Lemma cmd_at_prefix h h' p n : h `prefix_of` h' -> cmd_at h p = Some n -> cmd_at h' p = Some n.
Proof.
  intros [k ->]. unfold cmd_at, at_. destruct (0 <=? p - 1); [|done]. apply lookup_app_l_Some.
Qed.
Lemma prefix_grows h h' : h `prefix_of` h' -> grows h h'.
Proof. intros Hp p n Hn _. by eapply cmd_at_prefix. Qed.
Lemma tree_prefix h h' p c : h `prefix_of` h' -> tree h p c -> tree h' p c.
Proof.
  intros Hp. revert p. induction c; cbn; intros p.
  - intros (n & Hn & ?). exists n. split; [by eapply cmd_at_prefix|done].
  - intros (pc & q & eq & Hn & ? & ?). exists pc, q, eq. split; [by eapply cmd_at_prefix|eauto].
  - intros (pl & pr & Hn & ? & ?). exists pl, pr. split; [by eapply cmd_at_prefix|eauto].
  - intros (pl & pr & Hn & ? & ?). exists pl, pr. split; [by eapply cmd_at_prefix|eauto].
  - intros (pc & Hn & ?). exists pc. split; [by eapply cmd_at_prefix|eauto].
Qed.
Lemma cmd_at_new h n : cmd_at (h ++ [n]) (Z.of_nat (S (length h))) = Some n.
Proof.
  unfold cmd_at, at_. destruct (Z.leb_spec 0 (Z.of_nat (S (length h)) - 1)); [|lia].
  replace (Z.to_nat (Z.of_nat (S (length h)) - 1)) with (length h) by lia. by apply list_lookup_middle.
Qed.
End tree.

(** words that stay what they are *)
Lemma tree_words (w1 w2 : Z -> Z -> list Z -> Prop) h p c : (forall q eq w, w1 q eq w -> w2 q eq w) -> tree w1 h p c -> tree w2 h p c.
Proof.
  intros Hw. revert p. induction c as [ws|c IH r|l IHl r IHr|l IHl r IHr|c IH]; cbn; intros p.
  - intros ([a e| | | |] & Hn & Hx); try done. exists (EXEC a e). split; [done|]. destruct Hx as (? & ? & ? & ? & Hx). repeat (split; [done|]).
    intros i w Hi. destruct (Hx i w Hi) as (q & eq & ? & ? & ?). exists q, eq. eauto.
  - intros (pc & q & eq & Hn & ? & ?). exists pc, q, eq. eauto.
  - intros (pl & pr & Hn & ? & ?). exists pl, pr. eauto.
  - intros (pl & pr & Hn & ? & ?). exists pl, pr. eauto.
  - intros (pc & Hn & ?). exists pc. eauto.
Qed.

(** ** Correctness of the parser *)

Section parse.
Context (m : mem) (es : Z) (limit : nat).
#[local] Abbreviation tree := (tree (word_at m)).
#[local] Abbreviation wraps := (wraps (word_at m)).

Lemma wp_new n Q t : (length (heap t) < limit)%nat -> Q (Z.of_nat (S (length (heap t)))) (with_heap (heap t ++ [n]) t) -> wp (new limit n) Q t.
Proof. intros Hl HQ. unfold wp, new. by rewrite decide_True. Qed.

Lemma parseredirs_loop fuel rs ts c0 Q t : (length rs < fuel)%nat -> text t = m -> rest m es (cur t) ((rs ≫= rtoks) ++ ts) -> peeks [60; 62] ts = false ->
  (length (heap t) + length rs <= limit)%nat ->
  (forall p c k, rest m es c ts -> length k = length rs -> wraps (heap t ++ k) c0 rs p -> Q p (St m c (heap t ++ k))) ->
  wp (loop fuel (parseredirs_body limit es) c0) Q t.
Proof.
  revert fuel c0 t. induction rs as [|r rs IH]; intros [|fuel] c0 t Hf E Hr Hp Hl HQ; cbn [length] in *; try lia; cbn [loop]; wp_step; unfold parseredirs_body at 1.
  - wp_step. eapply (peek_spec _ _ _ ts); [done..|]. intros c Hr' _. rewrite Hp. wp_steps. specialize (HQ c0 c [] Hr' eq_refl eq_refl).
    rewrite app_nil_r in HQ. by destruct t; cbn in *; subst.
  - destruct t as [tx cu h]. cbn in E, Hl, HQ. subst tx. rewrite bind_cons, <-app_assoc in Hr.
    assert (exists o, rtoks r = [o; Word (rfile r)] /\ peeks [60; 62] [o] = true /\ (tok_code [o] =? 60) = (rfd r =? 0) /\
      ((tok_code [o] =? 62) = true \/ (tok_code [o] =? 43) = true \/ rfd r = 0)) as (o & Eo & Hpo & H60 & H62).
    { destruct r; eexists; (split; [reflexivity|]); repeat (split; [reflexivity|]); auto. }
    rewrite Eo in Hr. cbn [app] in Hr.
    assert (peeks [60; 62] (o :: Word (rfile r) :: (rs ≫= rtoks) ++ ts) = true) as Hpk by (destruct o; exact Hpo).
    wp_step. eapply peek_spec; [done|done|done|]. intros c1 Hr1 _. rewrite Hpk. cbn [with_cur text cur heap]. wp_step.
    eapply gettoken_spec; [done..|]. cbn [tail with_cur text cur heap]. intros q1 eq1 c2 Hr2 _. wp_step. eapply gettoken_spec; [done..|].
    cbn [tail with_cur text cur heap tok_code]. intros q eq c3 Hr3 Hw. specialize (Hw _ _ eq_refl). cbn beta iota zeta. cbn [Z.eqb Pos.eqb negb].
    wp_step. wp_step; [done|]. wp_step.
    assert (forall b, wp (new limit (REDIR c0 q eq (rmode r) (rfd r))) b (St m c3 h) -> wp
      (if tok_code (o :: Word (rfile r) :: (rs ≫= rtoks) ++ ts) =? 60 then redircmd limit c0 q eq O_RDONLY 0
           else if tok_code (o :: Word (rfile r) :: (rs ≫= rtoks) ++ ts) =? 62 then redircmd limit c0 q eq (Z.lor O_WRONLY O_CREATE) 1
           else if tok_code (o :: Word (rfile r) :: (rs ≫= rtoks) ++ ts) =? 43 then redircmd limit c0 q eq (Z.lor O_WRONLY O_CREATE) 1
           else mret c0) b (St m c3 h)) as Hsel by (intros b Hb; destruct r; injection Eo as <-; exact Hb).
    apply Hsel. apply wp_new; [cbn; lia|]. cbn [heap with_heap text cur]. wp_step.
    eapply IH; [lia|done|done|done|cbn [with_heap heap]; rewrite length_app; cbn; lia|]. cbn [with_heap heap]. intros p c k Hrc Hk Hws. rewrite <-app_assoc in *. cbn [app] in *.
    apply HQ; [done|cbn; lia|]. exists (Z.of_nat (S (length h))), q, eq. split; [|done].
    eapply cmd_at_prefix; [|apply cmd_at_new]. exists k. by rewrite <-app_assoc.
Qed.
Lemma redirs_length (rs : list redir) ts : (length rs <= length ((rs ≫= rtoks) ++ ts))%nat.
Proof. induction rs as [|r rs IH]; [cbn; lia|]. rewrite bind_cons, <-app_assoc, length_app. destruct r; cbn; lia. Qed.
Lemma parseredirs_spec rs ts c0 Q t : text t = m -> rest m es (cur t) ((rs ≫= rtoks) ++ ts) -> peeks [60; 62] ts = false ->
  (length (heap t) + length rs <= limit)%nat ->
  (forall p c k, rest m es c ts -> length k = length rs -> wraps (heap t ++ k) c0 rs p -> Q p (St m c (heap t ++ k))) ->
  wp (parseredirs limit c0 es) Q t.
Proof.
  intros E Hr Hp Hl HQ. unfold parseredirs. wp_step. wp_step. eapply parseredirs_loop; [|done..]. pose proof (rest_length _ _ _ _ Hr) as [Hn _].
  pose proof (redirs_length rs ts). lia.
Qed.

(** the words [ws] are the first arguments of a node *)
Definition argv_ok (a e : list Z) (ws : list (list Z)) : Prop :=
  length a = 10%nat /\ length e = 10%nat /\
  forall i w, ws !! i = Some w -> exists q eq, a !! i = Some q /\ e !! i = Some eq /\ word_at m q eq w.
Lemma argv_push a e ws q eq w : argv_ok a e ws -> (length ws < 10)%nat -> word_at m q eq w ->
  argv_ok (put a (Z.of_nat (length ws)) q) (put e (Z.of_nat (length ws)) eq) (ws ++ [w]).
Proof.
  intros (Ha & He & H) Hl Hw. split; [by rewrite length_put|]. split; [by rewrite length_put|]. unfold put. rewrite Nat2Z.id.
  intros i w' [Hi|[Hge Hi]]%lookup_app_Some.
  - pose proof (lookup_lt_Some _ _ _ Hi). destruct (H _ _ Hi) as (q' & eq' & ? & ? & ?). exists q', eq'. rewrite !list_lookup_insert_ne by lia. done.
  - apply list_lookup_singleton_Some in Hi as [Hi <-]. assert (i = length ws) as -> by lia. exists q, eq. rewrite !list_lookup_insert_eq by lia. done.
Qed.
Lemma argv_end a e ws : argv_ok a e ws -> (length ws < 10)%nat ->
  exec_node (word_at m) (EXEC (put a (Z.of_nat (length ws)) 0) (put e (Z.of_nat (length ws)) 0)) ws.
Proof.
  intros (Ha & He & H) Hl. cbn. rewrite !length_put. repeat (split; [done|]). unfold put. rewrite Nat2Z.id. rewrite list_lookup_insert_eq by lia.
  split; [done|]. intros i w Hi. pose proof (lookup_lt_Some _ _ _ Hi). destruct (H _ _ Hi) as (q' & eq' & ? & ? & ?). exists q', eq'.
  rewrite !list_lookup_insert_ne by lia. done.
Qed.
Lemma cmd_at_mid h n k : cmd_at (h ++ n :: k) (Z.of_nat (S (length h))) = Some n.
Proof. eapply cmd_at_prefix; [|apply cmd_at_new]. exists k. by rewrite <-app_assoc. Qed.
Lemma wp_upd_exec h a e k i q eq tx c Q : length a = 10%nat -> length e = 10%nat -> 0 <= i < 10 ->
  Q tt (St tx c (h ++ EXEC (put a i q) (put e i eq) :: k)) ->
  wp (upd_exec (Z.of_nat (S (length h))) (set_arg i q eq)) Q (St tx c (h ++ EXEC a e :: k)).
Proof.
  intros Ha He Hi HQ. unfold wp, upd_exec. cbn [heap]. rewrite cmd_at_mid. unfold set_arg. rewrite Ha, He.
  destruct (Z.leb_spec 0 i); [|lia]. destruct (Z.ltb_spec i (Z.of_nat 10)); [|lia]. cbn [andb with_heap text cur]. unfold put at 1.
  replace (Z.to_nat (Z.of_nat (S (length h)) - 1)) with (length h + 0)%nat by lia. by rewrite insert_app_r.
Qed.

Lemma args_toks_cons w rs (l : args) : args_toks ((w, rs) :: l) = (Word w :: (rs ≫= rtoks)) ++ args_toks l.
Proof. reflexivity. Qed.
Lemma args_redirs_cons w rs (l : args) : args_redirs ((w, rs) :: l) = rs ++ args_redirs l.
Proof. reflexivity. Qed.
Lemma parseexec_loop fuel h l ws ts a e k cu ret Q : (length l < fuel)%nat -> rest m es cu (args_toks l ++ ts) -> follow Command ts ->
  argv_ok a e ws -> (length ws + length l < 10)%nat -> (length h + S (length k) + length (args_redirs l) <= limit)%nat ->
  (forall p c a' e' k', rest m es c ts -> argv_ok a' e' (ws ++ l.*1) -> length k' = length (args_redirs l) ->
    wraps (h ++ EXEC a' e' :: k ++ k') ret (args_redirs l) p ->
    Q (Z.of_nat (length ws + length l), p) (St m c (h ++ EXEC a' e' :: k ++ k'))) ->
  wp (loop fuel (parseexec_body limit es (Z.of_nat (S (length h)))) (Z.of_nat (length ws), ret)) Q (St m cu (h ++ EXEC a e :: k)).
Proof.
  revert fuel ws a e k cu ret. induction l as [|[w rs] l IH]; intros [|fuel] ws a e k cu ret Hf Hr Hfo Ha Hlen Hlim HQ; cbn [length] in *; try lia;
    cbn [loop]; wp_step; unfold parseexec_body at 1; wp_step.
  - eapply (peek_spec _ _ _ ts); [done..|]. cbn [text cur heap with_cur]. intros c Hc _. cbn [args_toks fmap list_fmap app] in *. specialize (HQ ret).
    rewrite Nat.add_0_r in HQ. destruct ts as [|tk ts]; cbn [peeks follow] in *.
    + wp_step. eapply gettoken_spec; [done|done|]. cbn [text cur heap with_cur tail tok_code]. intros q eq c' Hc' _. cbn beta iota. cbn [Z.eqb]. wp_steps.
      specialize (HQ c' a e []). rewrite !app_nil_r in HQ. by apply HQ.
    + assert (match tk with Op o => Ulib.strchr [124; 41; 38; 59] o | Append => false | Word _ => false end = true) as Hp
        by (repeat (apply elem_of_cons in Hfo as [->|Hfo]; [done|]); by apply not_elem_of_nil in Hfo).
      destruct tk as [|o|]; try done. rewrite Hp. wp_steps. specialize (HQ c a e []). rewrite !app_nil_r in HQ. by apply HQ.
  - rewrite args_redirs_cons, length_app in Hlim. rewrite args_redirs_cons, length_app in HQ. rewrite args_toks_cons, <-app_assoc in Hr. cbn [app] in Hr.
    eapply peek_spec; [done|exact Hr|done|]. cbn [text cur heap with_cur peeks]. intros c Hc _. wp_step. eapply gettoken_spec; [done|done|].
    cbn [text cur heap with_cur tail tok_code]. intros q eq c' Hc' Hw. specialize (Hw _ _ eq_refl). cbn beta iota. cbn [Z.eqb Pos.eqb negb].
    wp_step. wp_step; [done|]. wp_step. pose proof Ha as (Hla & Hle & _). apply wp_upd_exec; [done|done|lia|]. cbn zeta. wp_step.
    wp_step; [unfold MAXARGS; lia|]. wp_step. pose proof (argv_push _ _ _ _ _ _ Ha ltac:(lia) Hw) as Ha'.
    eapply (parseredirs_spec rs (args_toks l ++ ts)); [done|done| |cbn [heap]; rewrite length_app; cbn [length]; lia|].
    { destruct l as [|[w' rs'] l]; [|done]. cbn. destruct ts as [|tk ts]; [done|]. cbn in Hfo.
      repeat (apply elem_of_cons in Hfo as [->|Hfo]; [done|]); by apply not_elem_of_nil in Hfo. }
    intros p c2 k2 Hr2 Hk2 Hw2. cbn [heap] in *. wp_step. rewrite <-app_assoc in *. cbn [app] in *.
    replace (Z.of_nat (length ws) + 1) with (Z.of_nat (length (ws ++ [w]))) by (rewrite length_app; cbn; lia).
    apply IH; [lia|done|done|done|rewrite length_app; cbn; lia|rewrite length_app; lia|].
    intros p' c3 a' e' k' Hr3 Ha3 Hk3 Hw3. rewrite <-!app_assoc in *. cbn [app] in *. rewrite length_app in *. cbn [length] in *.
    replace (length ws + 1 + length l)%nat with (length ws + S (length l))%nat by lia. apply HQ; [done|done| |].
    + rewrite length_app. lia.
    + eapply wraps_app; [|exact Hw3]. eapply wraps_grows; [|exact Hw2].
      intros p0 n. unfold cmd_at, at_. destruct (0 <=? p0 - 1); [|done]. intros [Hn|[Hge Hn]]%lookup_app_Some Hne.
      * by apply lookup_app_l_Some.
      * rewrite lookup_app_r by done. destruct (Z.to_nat (p0 - 1) - length h)%nat as [|j]; cbn in *; [by injection Hn as <-|].
        rewrite app_assoc. by apply lookup_app_l_Some.
Qed.

Lemma nodes_back n c : nodes (Nat.iter n Back c) = (n + nodes c)%nat.
Proof. induction n as [|n IH]; [done|]. rewrite Nat.iter_succ. cbn [nodes]. rewrite IH. lia. Qed.
Lemma nodes_redirs rs c : nodes (foldl Redir c rs) = (length rs + nodes c)%nat.
Proof. revert c. induction rs as [|r rs IH]; intros c; [done|]. cbn [foldl]. rewrite IH. cbn. lia. Qed.

Lemma parseexec_args_spec rs l ts h cu Q : rest m es cu ((rs ≫= rtoks) ++ args_toks l ++ ts) -> follow Command ts -> (length l < 10)%nat ->
  (length h + S (length rs + length (args_redirs l)) <= limit)%nat ->
  (forall p c k, rest m es c ts -> length k = S (length rs + length (args_redirs l)) -> tree (h ++ k) p (foldl Redir (Exec l.*1) (rs ++ args_redirs l)) ->
    Q p (St m c (h ++ k))) ->
  wp (parseexec_args limit es) Q (St m cu h).
Proof.
  intros Hr Hfo Hl Hlim HQ. unfold parseexec_args. wp_step. unfold execcmd. apply wp_new; [cbn; lia|]. unfold with_heap; cbn [heap text cur]. cbn zeta. wp_step.
  eapply (parseredirs_spec rs (args_toks l ++ ts)); [done|done| |cbn; rewrite ?length_app; cbn; lia|].
  { destruct l as [|[w' rs'] l]; [|done]. cbn. destruct ts as [|tk ts]; [done|]. cbn in Hfo.
    repeat (apply elem_of_cons in Hfo as [->|Hfo]; [done|]); by apply not_elem_of_nil in Hfo. }
  cbn [heap]. intros p c k Hr1 Hk Hw1. rewrite <-app_assoc in *. cbn [app] in *. wp_step.
  apply (parseexec_loop (S (Z.to_nat MAXARGS)) h l [] ts _ _ k); [change (S (Z.to_nat MAXARGS)) with 11%nat; lia|done|done| |cbn; lia|lia|].
  { split; [done|]. split; [done|]. intros i w Hi. by rewrite lookup_nil in Hi. }
  intros p' c' a e k' Hr2 Ha Hk' Hw2. cbn [app length Nat.add] in *. cbn beta iota. wp_step. pose proof Ha as (Hla & Hle & _).
  apply wp_upd_exec; [done|done|lia|]. wp_step. replace (length l) with (length l.*1) by (by rewrite length_fmap).
  assert (forall a' e', grows (h ++ EXEC a e :: k ++ k') (h ++ EXEC a' e' :: k ++ k')) as Hg.
  { intros a' e' p0 n. unfold cmd_at, at_. destruct (0 <=? p0 - 1); [|done]. intros [Hn|[Hge Hn]]%lookup_app_Some Hne.
    - by apply lookup_app_l_Some.
    - rewrite lookup_app_r by done. destruct (Z.to_nat (p0 - 1) - length h)%nat as [|j]; cbn in *; [by injection Hn as <-|done]. }
  apply HQ; [done|cbn [length]; rewrite length_app; lia|]. eapply wraps_tree.
  - eapply wraps_app; [|eapply wraps_grows; [apply Hg|exact Hw2]]. eapply wraps_grows; [|exact Hw1].
    intros p0 n. unfold cmd_at, at_. destruct (0 <=? p0 - 1); [|done]. intros [Hn|[Hge Hn]]%lookup_app_Some Hne.
    + by apply lookup_app_l_Some.
    + rewrite lookup_app_r by done. destruct (Z.to_nat (p0 - 1) - length h)%nat as [|j]; cbn in *; [by injection Hn as <-|by apply lookup_app_l_Some].
  - cbn. eexists. split; [apply cmd_at_mid|]. apply argv_end; [done|by rewrite length_fmap].
Qed.

Lemma parseback_spec n ts p c h cu Q : rest m es cu (replicate n (Op 38) ++ ts) -> peeks [38] ts = false -> tree h p c -> (length h + n <= limit)%nat ->
  (forall p' c' k, rest m es c' ts -> length k = n -> tree (h ++ k) p' (Nat.iter n Back c) -> Q p' (St m c' (h ++ k))) ->
  wp (parseback limit es p) Q (St m cu h).
Proof.
  intros Hr Hp Ht Hl HQ. unfold parseback. wp_step. wp_step. cbn [cur]. pose proof (rest_length _ _ _ _ Hr) as [Hn _].
  rewrite length_app, length_replicate in Hn. assert (n < S (Z.to_nat (es - cu)))%nat as Hf by lia. clear Hn.
  generalize dependent (S (Z.to_nat (es - cu))). intros fuel Hf. revert fuel Hf p c h cu Hr Ht Hl HQ.
  induction n as [|n IH]; intros [|fuel] Hf p c h cu Hr Ht Hl HQ; try lia; cbn [loop]; wp_step; wp_step; cbn [replicate app] in Hr.
  - eapply (peek_spec _ _ _ ts); [done..|]. intros c' Hc' _. rewrite Hp. wp_steps. specialize (HQ p c' []). rewrite app_nil_r in HQ. by apply HQ.
  - eapply peek_spec; [done|exact Hr|done|]. cbn [peeks text cur heap with_cur]. intros c1 Hr1 _. cbn [Ulib.strchr Z.eqb Pos.eqb]. wp_step.
    eapply gettoken_spec; [done..|]. unfold with_cur; cbn [tail text cur heap]. intros q eq c2 Hr2 _. wp_step. unfold backcmd. apply wp_new; [cbn; lia|].
    unfold with_heap; cbn [heap text cur]. wp_steps. apply (IH fuel ltac:(lia) _ (Back c)); [done| |rewrite length_app; cbn; lia|].
    + exists p. split; [apply cmd_at_new|]. eapply tree_prefix; [|done]. by exists [BACK p].
    + intros p' c' k Hrc Hk Htk. rewrite <-app_assoc in *. apply HQ; [done|cbn; lia|]. by rewrite Nat.iter_swap in Htk.
Qed.

Definition parser (k : kind) (fuel : nat) : M st Z :=
  match k with Line => parseline limit fuel es | Pipeline => parsepipe limit fuel es | Command => parseexec limit fuel es end.
Definition need (k : kind) : nat := match k with Line => 4 | Pipeline => 3 | Command => 2 end.

Lemma parse_gram k ts c : gram k ts c -> forall fuel ts' h cu Q, (4 * length ts + need k <= fuel)%nat -> rest m es cu (ts ++ ts') -> follow k ts' ->
  (length h + nodes c <= limit)%nat ->
  (forall p c' k', rest m es c' ts' -> length k' = nodes c -> tree (h ++ k') p c -> Q p (St m c' (h ++ k'))) ->
  wp (parser k fuel) Q (St m cu h).
Proof.
  induction 1 as [n ts c _ IH|n ts1 c1 ts2 c2 _ IH1 _ IH2|ts c _ IH|ts1 c1 ts2 c2 _ IH1 _ IH2|rs l Hl|ts c rs _ IH];
    intros fuel ts' h cu Q Hf Hr Hfo Hlim HQ; cbn [parser need] in *.
  - destruct fuel as [|fuel]; [lia|]. cbn [parseline]. rewrite length_app, length_replicate in Hf. rewrite nodes_back in Hlim, HQ. rewrite <-app_assoc in Hr.
    wp_step. apply (IH fuel (replicate n (Op 38) ++ ts')); [lia|done| |lia|].
    { destruct n as [|n]; cbn; [|by right; left]. destruct ts' as [|t ts']; [done|]. apply list_elem_of_singleton in Hfo as ->. by left. }
    intros p c' k' Hr1 Hk Ht. wp_step. apply (parseback_spec n ts' p c); [done| |done|rewrite length_app; lia|].
    { destruct ts' as [|t ts']; [done|]. by apply list_elem_of_singleton in Hfo as ->. }
    intros p' c'' k2 Hr2 Hk2 Ht2. wp_step. eapply peek_spec; [done..|]. unfold with_cur; cbn [text cur heap]. intros c3 Hr3 _.
    replace (peeks [59] ts') with false by (destruct ts' as [|t ts']; [done|by apply list_elem_of_singleton in Hfo as ->]).
    wp_step. rewrite <-app_assoc in *. apply HQ; [done|rewrite length_app; lia|done].
  - destruct fuel as [|fuel]; [lia|]. cbn [parseline]. rewrite !length_app, length_replicate in Hf. cbn [length] in Hf. cbn [nodes] in Hlim, HQ.
    rewrite nodes_back in Hlim, HQ. rewrite <-!app_assoc in Hr. cbn [app] in Hr.
    wp_step. apply (IH1 fuel (replicate n (Op 38) ++ Op 59 :: ts2 ++ ts')); [lia|done| |lia|].
    { destruct n as [|n]; cbn; [by right; right; left|by right; left]. }
    intros p c' k' Hr1 Hk Ht. wp_step. apply (parseback_spec n (Op 59 :: ts2 ++ ts') p c1); [done|done|done|rewrite length_app; lia|].
    intros p' c'' k2 Hr2 Hk2 Ht2. wp_step. eapply peek_spec; [done|exact Hr2|done|]. unfold with_cur; cbn [text cur heap peeks]. intros c3 Hr3 _.
    cbn [Ulib.strchr Z.eqb Pos.eqb]. wp_step. eapply gettoken_spec; [done..|]. unfold with_cur; cbn [tail text cur heap]. intros q eq c4 Hr4 _. wp_step.
    apply (IH2 fuel ts'); [lia|done|done|rewrite !length_app; lia|]. intros p3 c5 k3 Hr5 Hk3 Ht3. unfold listcmd. apply wp_new; [cbn [heap]; rewrite ?length_app; lia|].
    unfold with_heap; cbn [heap text cur]. rewrite <-!app_assoc in *. apply HQ; [done|rewrite !length_app; cbn; lia|]. exists p', p3. rewrite !(app_assoc h), !(app_assoc (h ++ _)), !(app_assoc ((h ++ _) ++ _)).
    split; [apply cmd_at_new|]. split; (eapply tree_prefix; [|eassumption]); rewrite <-!app_assoc; repeat apply prefix_app; [apply prefix_app_r|]; try done; by apply prefix_app_r.
  - destruct fuel as [|fuel]; [lia|]. cbn [parsepipe]. wp_step. apply (IH fuel ts'); [lia|done| |done|].
    { destruct ts' as [|t ts']; [done|]. cbn in *. rewrite !elem_of_cons in *. tauto. }
    intros p c' k' Hr1 Hk Ht. wp_step. eapply peek_spec; [done..|]. unfold with_cur; cbn [text cur heap]. intros c3 Hr3 _.
    replace (peeks [124] ts') with false. 2:{ destruct ts' as [|t ts']; [done|]. repeat (apply elem_of_cons in Hfo as [->|Hfo]; [done|]); by apply not_elem_of_nil in Hfo. }
    wp_step. by apply HQ.
  - destruct fuel as [|fuel]; [lia|]. cbn [parsepipe]. rewrite length_app in Hf. cbn [length] in Hf. cbn [nodes] in Hlim, HQ. rewrite <-app_assoc in Hr. cbn [app] in Hr.
    wp_step. apply (IH1 fuel (Op 124 :: ts2 ++ ts')); [lia|done|by right; right; right; left|lia|].
    intros p c' k' Hr1 Hk Ht. wp_step. eapply peek_spec; [done|exact Hr1|done|]. unfold with_cur; cbn [text cur heap peeks]. intros c3 Hr3 _.
    cbn [Ulib.strchr Z.eqb Pos.eqb]. wp_step. eapply gettoken_spec; [done..|]. unfold with_cur; cbn [tail text cur heap]. intros q eq c4 Hr4 _. wp_step.
    apply (IH2 fuel ts'); [lia|done|done|rewrite !length_app; lia|]. intros p3 c5 k3 Hr5 Hk3 Ht3. unfold pipecmd. apply wp_new; [cbn [heap]; rewrite ?length_app; lia|].
    unfold with_heap; cbn [heap text cur]. rewrite <-!app_assoc in *. apply HQ; [done|rewrite !length_app; cbn; lia|]. exists p, p3. rewrite !(app_assoc h), !(app_assoc (h ++ _)).
    split; [apply cmd_at_new|]. split; (eapply tree_prefix; [|eassumption]); rewrite <-!app_assoc; repeat apply prefix_app; by apply prefix_app_r.
  - destruct fuel as [|fuel]; [lia|]. cbn [parseexec]. rewrite <-app_assoc in Hr. rewrite nodes_redirs, length_app in Hlim, HQ. cbn [nodes] in Hlim, HQ.
    wp_step. eapply peek_spec; [done|exact Hr|done|]. unfold with_cur; cbn [text cur heap]. intros c Hr1 _.
    replace (peeks [40] ((rs ≫= rtoks) ++ args_toks l ++ ts')) with false.
    2:{ destruct rs as [|[]]; [|done..]. destruct l as [|[w rs'] l]; [|done]. cbn. destruct ts' as [|t ts']; [done|].
        repeat (apply elem_of_cons in Hfo as [->|Hfo]; [done|]); by apply not_elem_of_nil in Hfo. }
    apply (parseexec_args_spec rs l ts'); [done|done|done|lia|]. intros p c' k Hr2 Hk Ht. apply HQ; [done|lia|done].
  - destruct fuel as [|[|fuel]]; [lia|lia|]. cbn [parseexec]. rewrite length_cons, length_app in Hf. cbn [length] in Hf. rewrite nodes_redirs in Hlim, HQ.
    cbn [app] in Hr. rewrite <-app_assoc in Hr. cbn [app] in Hr.
    wp_step. eapply peek_spec; [done|exact Hr|done|]. unfold with_cur; cbn [text cur heap peeks]. intros c1 Hr1 _. cbn [Ulib.strchr Z.eqb Pos.eqb parseblock].
    wp_step. eapply peek_spec; [done|exact Hr1|done|]. unfold with_cur; cbn [text cur heap peeks]. intros c2 Hr2 _. cbn [Ulib.strchr Z.eqb Pos.eqb negb].
    wp_step. wp_step; [done|]. wp_step. eapply gettoken_spec; [done..|]. unfold with_cur; cbn [tail text cur heap]. intros q eq c3 Hr3 _. wp_step.
    apply (IH fuel (Op 41 :: (rs ≫= rtoks) ++ ts')); [lia|done|by left|lia|]. intros p c4 k Hr4 Hk Ht. wp_step.
    eapply peek_spec; [done|exact Hr4|done|]. unfold with_cur; cbn [text cur heap peeks]. intros c5 Hr5 _. cbn [Ulib.strchr Z.eqb Pos.eqb negb].
    wp_step. wp_step; [done|]. wp_step. eapply gettoken_spec; [done..|]. unfold with_cur; cbn [tail text cur heap]. intros q' eq' c6 Hr6 _.
    apply (parseredirs_spec rs ts'); [done|done| |cbn [heap]; rewrite length_app; lia|].
    { destruct ts' as [|t ts']; [done|]. repeat (apply elem_of_cons in Hfo as [->|Hfo]; [done|]); by apply not_elem_of_nil in Hfo. }
    cbn [heap]. intros p' c7 k' Hr7 Hk' Hw. rewrite <-app_assoc in *. apply HQ; [done|rewrite length_app; lia|]. eapply wraps_tree; [exact Hw|].
    eapply tree_prefix; [|exact Ht]. rewrite app_assoc. by apply prefix_app_r.
Qed.
End parse.

(** ** nulterminate *)

Section terminate.
Context (m : mem).
(** only characters outside words have been overwritten, by NUL *)
Definition nulled (m' : mem) : Prop :=
  forall a, m' !! a = m !! a \/ m' !! a = Some 0 /\ exists c, m !! a = Some c /\ wordc c = false.
Definition keeps_nul (m1 m2 : mem) : Prop := forall a, m1 !! a = Some 0 -> m2 !! a = Some 0.
Definition terminated (m' : mem) (q eq : Z) (w : list Z) : Prop := word_at m q eq w /\ m' !! eq = Some 0.

Lemma wp_store_nul q eq w t Q : nulled (text t) -> word_at m q eq w ->
  (forall m', nulled m' -> keeps_nul (text t) m' -> m' !! eq = Some 0 -> Q tt (St m' (cur t) (heap t))) -> wp (store_nul eq) Q t.
Proof.
  intros Hn (_ & _ & _ & _ & c & Hc & Hw) HQ. unfold store_nul. apply wp_zoom. apply wp_store8.
  - cbn. destruct (Hn eq) as [->|[-> _]]; eauto.
  - cbn. change (u8 0) with 0. apply HQ.
    + intros a. destruct (decide (a = eq)) as [->|Hne]; [rewrite lookup_insert_eq; right; eauto|rewrite lookup_insert_ne by done; apply Hn].
    + intros a Ha. destruct (decide (a = eq)) as [->|Hne]; [by rewrite lookup_insert_eq|by rewrite lookup_insert_ne].
    + by rewrite lookup_insert_eq.
Qed.
Lemma exec_node_nul m1 m2 n ws : keeps_nul m1 m2 -> exec_node (terminated m1) n ws -> exec_node (terminated m2) n ws.
Proof.
  intros Hk. destruct n as [a e| | | |]; [|done..]. intros (? & ? & ? & ? & H). repeat (split; [done|]). intros i w Hi.
  destruct (H i w Hi) as (q & eq & ? & ? & ? & ?). exists q, eq. repeat (split; [done|]). by apply Hk.
Qed.
Lemma tree_nul m1 m2 h p c : keeps_nul m1 m2 -> tree (terminated m1) h p c -> tree (terminated m2) h p c.
Proof. intros Hk. apply tree_words. intros q eq w [? ?]. split; [done|by apply Hk]. Qed.

Lemma null_args_spec a e ws t Q : nulled (text t) -> exec_node (word_at m) (EXEC a e) ws ->
  (forall m', nulled m' -> keeps_nul (text t) m' -> exec_node (terminated m') (EXEC a e) ws -> Q tt (St m' (cur t) (heap t))) ->
  wp (null_args a e) Q t.
Proof.
  intros Hn (Hla & Hle & Hlen & Hend & Hws) HQ. unfold null_args.
  eapply (wp_loop _ _ _ _ _ (fun i t' => 0 <= i <= Z.of_nat (length ws) /\ exists m', t' = St m' (cur t) (heap t) /\ nulled m' /\ keeps_nul (text t) m' /\
    forall j eq, (Z.of_nat j < i) -> e !! j = Some eq -> m' !! eq = Some 0) (fun i => (10 - Z.to_nat i)%nat)).
  - split; [lia|]. exists (text t). split; [by destruct t|]. split; [done|]. split; [by intros ?|]. intros; lia.
  - change (S (Z.to_nat MAXARGS)) with 11%nat. lia.
  - intros i t' (Hi & m' & -> & Hn' & Hk & Hz). wp_step. destruct (decide (i = Z.of_nat (length ws))) as [->|Hne].
    + eapply wp_deref; [unfold at_; rewrite Nat2Z.id; destruct (Z.leb_spec 0 (Z.of_nat (length ws))); [exact Hend|lia]|]. cbn [Z.eqb]. wp_step. apply HQ; [done|done|].
      repeat (split; [done|]). intros j w Hj. destruct (Hws j w Hj) as (q & eq & ? & ? & ?). exists q, eq. repeat (split; [done|]). apply (Hz j); [|done].
      apply lookup_lt_Some in Hj. lia.
    + destruct (lookup_lt_is_Some_2 ws (Z.to_nat i)) as [w Hw]; [lia|]. destruct (Hws _ _ Hw) as (q & eq & Hq & He & Hword).
      eapply wp_deref; [unfold at_; destruct (Z.leb_spec 0 i); [exact Hq|lia]|]. destruct (Z.eqb_spec q 0) as [->|_]; [by destruct Hword as (_ & _ & _ & ? & _)|].
      wp_step. eapply wp_deref; [unfold at_; destruct (Z.leb_spec 0 i); [exact He|lia]|]. wp_step. eapply wp_store_nul; [done|done|]. cbn [text cur heap].
      intros m2 Hn2 Hk2 Hz2. wp_step. split; [|lia]. split; [lia|]. exists m2. split; [done|]. split; [done|]. split; [intros x Hx; by apply Hk2, Hk|].
      intros j eq' Hj Hj'. destruct (decide (j = Z.to_nat i)) as [->|]; [congruence|]. apply Hk2, (Hz j); [lia|done].
Qed.

Lemma nulterminate_spec c : forall fuel p t Q, (nodes c < fuel)%nat -> nulled (text t) -> tree (word_at m) (heap t) p c ->
  (forall m', nulled m' -> keeps_nul (text t) m' -> tree (terminated m') (heap t) p c -> Q p (St m' (cur t) (heap t))) ->
  wp (nulterminate fuel p) Q t.
Proof.
  assert (forall h p n, cmd_at h p = Some n -> (p =? 0) = false) as Hp0.
  { intros h p n. unfold cmd_at, at_. destruct (Z.leb_spec 0 (p - 1)); [|done]. intros _. apply Z.eqb_neq. lia. }
  induction c as [ws|c IH r|l IHl r IHr|l IHl r IHr|c IH]; intros [|fuel] p t Q Hf Hn Ht HQ; cbn [nodes] in Hf; try lia; cbn [nulterminate].
  - destruct Ht as (n & Hc & Hx). rewrite (Hp0 _ _ _ Hc). wp_step. eapply wp_deref; [exact Hc|]. wp_step. destruct n as [a e| | | |]; [|done..].
    eapply null_args_spec; [done|exact Hx|]. intros m' ? ? ?. wp_step. apply HQ; [done..|]. by exists (EXEC a e).
  - destruct Ht as (pc & q & eq & Hc & Hw & Ht). rewrite (Hp0 _ _ _ Hc). wp_step. eapply wp_deref; [exact Hc|]. wp_step. wp_step.
    eapply IH; [lia|done|done|]. intros m1 Hn1 Hk1 Ht1. eapply wp_store_nul; [done|exact Hw|]. cbn [text cur heap]. intros m2 Hn2 Hk2 Hz2. wp_step.
    apply HQ; [done|intros x Hx; by apply Hk2, Hk1|]. exists pc, q, eq. split; [done|]. split; [done|]. by eapply tree_nul.
  - destruct Ht as (pl & pr & Hc & Ht1 & Ht2). rewrite (Hp0 _ _ _ Hc). wp_step. eapply wp_deref; [exact Hc|]. wp_step. wp_step.
    eapply IHl; [lia|done|done|]. intros m1 Hn1 Hk1 Htl. wp_step. eapply IHr; [lia|done|done|]. cbn [text cur heap]. intros m2 Hn2 Hk2 Htr. wp_step. wp_step.
    apply HQ; [done|intros x Hx; by apply Hk2, Hk1|]. exists pl, pr. split; [done|]. split; [by eapply tree_nul|done].
  - destruct Ht as (pl & pr & Hc & Ht1 & Ht2). rewrite (Hp0 _ _ _ Hc). wp_step. eapply wp_deref; [exact Hc|]. wp_step. wp_step.
    eapply IHl; [lia|done|done|]. intros m1 Hn1 Hk1 Htl. wp_step. eapply IHr; [lia|done|done|]. cbn [text cur heap]. intros m2 Hn2 Hk2 Htr. wp_step. wp_step.
    apply HQ; [done|intros x Hx; by apply Hk2, Hk1|]. exists pl, pr. split; [done|]. split; [by eapply tree_nul|done].
  - destruct Ht as (pc & Hc & Ht). rewrite (Hp0 _ _ _ Hc). wp_step. eapply wp_deref; [exact Hc|]. wp_step. wp_step.
    eapply IH; [lia|done|done|]. intros m1 Hn1 Hk1 Ht1. wp_step. wp_step. apply HQ; [done|done|]. by exists pc.
Qed.

Lemma terminated_cstr m' q eq w : nulled m' -> terminated m' q eq w -> cstr m' q w.
Proof.
  intros Hn [(Hb & -> & Hw & _) H0]. rewrite Forall_forall in Hw. split.
  - apply bytes_at_app. split; [|apply bytes_at_cons; split; [done|apply bytes_at_nil]]. intros i x Hi. pose proof (Hb _ _ Hi) as Hx.
    destruct (Hn (q + Z.of_nat i)) as [->|[_ (c & Hc & Hwc)]]; [done|]. rewrite Hx in Hc. injection Hc as <-.
    rewrite (Hw x) in Hwc; [done|]. by eapply list_elem_of_lookup_2.
  - intros Hin. by apply Hw in Hin.
Qed.
End terminate.

(** a word of a finished tree: the string at [q] *)
Definition string_in (m : mem) (q eq : Z) (w : list Z) : Prop := 0 < q /\ cstr m q w.

Lemma parse_line limit s l ts c t : cstr (text t) s l -> 0 < s -> Z.of_nat (length l) < 2 ^ 31 -> lexes l ts -> gram Line ts c ->
  (length (heap t) + nodes c <= limit)%nat ->
  wp (parsecmd limit s) (fun p t' => tree (string_in (text t')) (heap t') p c /\ nulled (text t) (text t') /\
    heap t `prefix_of` heap t' /\ length (heap t') = (length (heap t) + nodes c)%nat) t.
Proof.
  intros Hs Hs0 Hmax Hl Hg Hlim. destruct t as [m cu h]. cbn [text heap] in *. unfold parsecmd. wp_step. wp_step. wp_step. wp_step.
  eapply Ulib.ulib_strlen_cstr; [exact Hs|done|]. cbn [text_lens lget lset text cur heap with_cur]. cbn zeta. wp_step.
  assert (rest m (s + Z.of_nat (length l)) s (ts ++ [])) as Hr.
  { exists l. rewrite app_nil_r. split; [done|]. destruct Hs as [Hb _]. split; [done|lia]. }
  apply (parse_gram m (s + Z.of_nat (length l)) limit Line ts c Hg _ []); [pose proof (lexes_length _ _ Hl); cbn [need]; rewrite Nat2Z.id; lia|done|done|done|].
  intros p c' k Hr' Hk Ht. wp_step. eapply peek_spec; [done|exact Hr'|done|]. intros c2 _ He. wp_step. wp_step. cbn [cur with_cur].
  rewrite He by done. wp_step. wp_step; [by rewrite Z.eqb_refl|]. wp_step. wp_step. wp_step. unfold with_cur. cbn [text cur heap].
  eapply (nulterminate_spec m); [|by intros a; left|exact Ht|].
  { rewrite length_app. lia. }
  intros m' Hn' _ Ht'. wp_step. cbn [text cur heap]. split; [|split; [done|split; [by exists k|rewrite length_app; lia]]].
  eapply tree_words; [|exact Ht']. intros q eq w Hw. split; [by destruct Hw as [(_ & _ & _ & ? & _) _]|by eapply terminated_cstr].
Qed.

(** C20: a line whose tokens derive a command in the grammar of the shell - words and redirections, a block in parentheses,
    pipelines, the background and lists, at most nine words in a simple command - is parsed into the tree of that command, without a
    syntax error, as long as malloc() has room for its nodes. The words of the tree are NUL-terminated strings in the line itself, and
    nulterminate() has overwritten nothing but characters outside words. *)
Theorem parsecmd_correct limit s l ts c t : cstr (text t) s l -> 0 < s -> Z.of_nat (length l) < 2 ^ 31 -> lexes l ts -> gram Line ts c ->
  (length (heap t) + nodes c <= limit)%nat ->
  wp (parsecmd limit s) (fun p t' => tree (string_in (text t')) (heap t') p c /\ nulled (text t) (text t') /\
    heap t `prefix_of` heap t' /\ length (heap t') = (length (heap t) + nodes c)%nat) t.
Proof. apply parse_line. Qed.

(** "(ls a|wc)>f;b&" *)
Definition demo_line : list Z := [40; 108; 115; 32; 97; 124; 119; 99; 41; 62; 102; 59; 98; 38; 10].
Definition demo_toks : list tok :=
  [Op 40; Word [108; 115]; Word [97]; Op 124; Word [119; 99]; Op 41; Op 62; Word [102]; Op 59; Word [98]; Op 38].
Definition demo_cmd : cmd := Seq (Redir (Pipe (Exec [[108; 115]; [97]]) (Exec [[119; 99]])) (Out [102])) (Back (Exec [[98]])).
Definition line_in (l : list Z) : st := St (write_bytes ∅ 100 (l ++ [0])) 0 [].
Ltac lex_word w :=
  apply (lex_word w); [done|repeat constructor|let c := fresh in let H := fresh in intros c H; by injection H as <-|].
Lemma demo_lexes : lexes demo_line demo_toks.
Proof.
  unfold demo_line, demo_toks. apply lex_op; [by in_list|]. lex_word [108; 115]. apply lex_white; [done|]. lex_word [97]. apply lex_op; [by in_list|].
  lex_word [119; 99]. apply lex_op; [by in_list|]. apply lex_out; [done|]. lex_word [102]. apply lex_op; [by in_list|]. lex_word [98].
  apply lex_op; [by in_list|]. apply lex_white; [done|]. constructor.
Qed.
Lemma demo_gram : gram Line demo_toks demo_cmd.
Proof.
  apply (gram_seq 0 [Op 40; Word [108; 115]; Word [97]; Op 124; Word [119; 99]; Op 41; Op 62; Word [102]]
    (Redir (Pipe (Exec [[108; 115]; [97]]) (Exec [[119; 99]])) (Out [102])) [Word [98]; Op 38] (Back (Exec [[98]]))).
  - apply gram_single. apply (gram_block [Word [108; 115]; Word [97]; Op 124; Word [119; 99]] (Pipe (Exec [[108; 115]; [97]]) (Exec [[119; 99]])) [Out [102]]).
    apply (gram_line 0 [Word [108; 115]; Word [97]; Op 124; Word [119; 99]]). apply (gram_pipe [Word [108; 115]; Word [97]] _ [Word [119; 99]]).
    + apply (gram_exec [] [([108; 115], []); ([97], [])]). cbn. lia.
    + apply gram_single, (gram_exec [] [([119; 99], [])]). cbn. lia.
  - apply (gram_line 1 [Word [98]] (Exec [[98]])). apply gram_single, (gram_exec [] [([98], [])]). cbn. lia.
Qed.
Lemma parsecmd_correct_witness : exists p t', parsecmd 20 100 (line_in demo_line) = Done p t' /\ tree (string_in (text t')) (heap t') p demo_cmd.
Proof.
  assert (cstr (text (line_in demo_line)) 100 demo_line) as Hs.
  { split; [apply bytes_at_written|by apply (lexes_nonzero _ demo_toks), demo_lexes]. }
  pose proof (parsecmd_correct 20 100 demo_line demo_toks demo_cmd (line_in demo_line) Hs ltac:(lia) ltac:(cbn; lia) demo_lexes demo_gram ltac:(cbn; lia)) as Hw.
  destruct (proj1 (wp_done _ _ _) Hw) as (p & t' & E & Ht & _). exists p, t'. by split.
Defined.

(** the errors: a parenthesis not closed, one not opened, a redirection without a file, a tenth word *)
Example parse_errors :
  parsecmd 20 100 (line_in [40; 97]) = Panic "syntax - missing )" /\
  parsecmd 20 100 (line_in [97; 41]) = Panic "syntax" /\
  parsecmd 20 100 (line_in [97; 60; 124]) = Panic "missing file for redirection" /\
  parsecmd 20 100 (line_in (concat (replicate 10 [97; 32]))) = Panic "too many args".
Proof. by vm_compute. Qed.
(** more and more is one and the same: > and >> both open the file for writing, at its start, and neither empties it *)
Example append_is_write : (heap <$> match parsecmd 20 100 (line_in [97; 62; 98]) with Done _ t => Some t | _ => None end) =
  Some [EXEC [100; 0; 0; 0; 0; 0; 0; 0; 0; 0] [101; 0; 0; 0; 0; 0; 0; 0; 0; 0]; REDIR 1 102 103 513 1] /\
  (heap <$> match parsecmd 20 100 (line_in [97; 62; 62; 98]) with Done _ t => Some t | _ => None end) =
  Some [EXEC [100; 0; 0; 0; 0; 0; 0; 0; 0; 0] [101; 0; 0; 0; 0; 0; 0; 0; 0; 0]; REDIR 1 103 104 513 1].
Proof. by vm_compute. Qed.
End Sh.
