(* ===== verification/Jobs.v ===== *)
(** * Processes that fork and wait, and the order of what they do

    A process is what it has still to do - calls whose effect others see, a
    fork with what the child is to do, a wait - and its children.  [pstep] runs
    any number of them in any order: wait() returns when a child has exited and
    blocks until then, exit() leaves the children behind.  [work] says the
    order of events without processes: one after the other, side by side, or in
    the background.  Code in which every wait() finds the children it is meant for
    ([code]) does exactly the work it denotes ([work_of]), in exactly the orders
    that allows, and never blocks for good. *)

From S2P Require Import Prelude.

Module Jobs.

Section jobs.
Context {E : Type}.

Inductive item : Type :=
| Ev (e : E)
| Spawn (t : list item)
| Wait.
Inductive proc : Type := Proc (todo : list item) (kids : list proc).
(** the process does an event or not; processes it leaves behind *)
Inductive pstep : proc -> option E -> proc -> list proc -> Prop :=
| p_ev e t ks : pstep (Proc (Ev e :: t) ks) (Some e) (Proc t ks) []
| p_spawn c t ks : pstep (Proc (Spawn c :: t) ks) None (Proc t (ks ++ [Proc c []])) []
| p_wait t ks1 ks2 : pstep (Proc (Wait :: t) (ks1 ++ Proc [] [] :: ks2)) None (Proc t (ks1 ++ ks2)) []
| p_wait_none t : pstep (Proc (Wait :: t) []) None (Proc t []) []
| p_exit ks : ks <> [] -> pstep (Proc [] ks) None (Proc [] []) ks
| p_kid t ks1 k ks2 x k' sp : pstep k x k' sp -> pstep (Proc t (ks1 ++ k :: ks2)) x (Proc t (ks1 ++ k' :: ks2)) sp.

Inductive work : Type :=
| Over
| Do (e : E) (w : work)
| Seq (a b : work)   (* [b] when [a] is over *)
| Par (a b : work)   (* over when both are *)
| Bg (a b : work).   (* [b] at once, [a] whenever *)
(** one step; work that starts in the background *)
Inductive wstep : work -> option E -> work -> list work -> Prop :=
| w_do e w : wstep (Do e w) (Some e) w []
| w_seq a x a' sp b : wstep a x a' sp -> wstep (Seq a b) x (Seq a' b) sp
| w_next b : wstep (Seq Over b) None b []
| w_left a x a' sp b : wstep a x a' sp -> wstep (Par a b) x (Par a' b) sp
| w_right a b x b' sp : wstep b x b' sp -> wstep (Par a b) x (Par a b') sp
| w_join : wstep (Par Over Over) None Over []
| w_bg a b : wstep (Bg a b) None b [a].

(** ** Runs of one in the foreground and others behind it *)

Section runs.
Context {A : Type} (step : A -> option E -> A -> list A -> Prop).
Inductive runs : A -> list A -> list E -> A -> list A -> Prop :=
| t_nil w B B' : B ≡ₚ B' -> runs w B [] w B'
| t_head w B x w1 sp es w' B' : step w x w1 sp -> runs w1 (sp ++ B) es w' B' -> runs w B (option_list x ++ es) w' B'
| t_rest w B v R x v1 sp es w' B' : B ≡ₚ v :: R -> step v x v1 sp -> runs w (v1 :: sp ++ R) es w' B' -> runs w B (option_list x ++ es) w' B'.

Lemma runs_perm w B es w' B' : runs w B es w' B' -> forall C C', B ≡ₚ C -> B' ≡ₚ C' -> runs w C es w' C'.
Proof.
  induction 1 as [w B B' H|w B x w1 sp es w' B' Hs _ IH|w B v R x v1 sp es w' B' H Hs _ IH]; intros C C' HC HC'.
  - apply t_nil. by rewrite <-HC, <-HC'.
  - eapply t_head; [done|]. apply IH; [by rewrite HC|done].
  - eapply t_rest; [by rewrite <-HC|done|]. by apply IH.
Qed.
Lemma runs_trans w B es w1 B1 : runs w B es w1 B1 -> forall es' w2 B2, runs w1 B1 es' w2 B2 -> runs w B (es ++ es') w2 B2.
Proof.
  induction 1 as [w B B' H|w B x w1 sp es w' B' Hs _ IH|w B v R x v1 sp es w' B' H Hs _ IH]; intros es' w2 B2 H2; rewrite <-?app_assoc.
  - eapply runs_perm; [exact H2|by symmetry|done].
  - eapply t_head; [done|by apply IH].
  - eapply t_rest; [done|done|by apply IH].
Qed.
Lemma runs_frame w B es w' B' : runs w B es w' B' -> forall X, runs w (B ++ X) es w' (B' ++ X).
Proof.
  induction 1 as [w B B' H|w B x w1 sp es w' B' Hs _ IH|w B v R x v1 sp es w' B' H Hs _ IH]; intros X.
  - apply t_nil. by rewrite H.
  - eapply t_head; [done|]. rewrite app_assoc. apply IH.
  - eapply (t_rest _ _ v (R ++ X)); [by rewrite H|done|]. rewrite app_assoc. apply (IH X).
Qed.
(** the same with another process in front *)
Lemma runs_behind v w B es w' B' : runs w B es w' B' -> runs v (w :: B) es v (w' :: B').
Proof.
  induction 1 as [w B B' H|w B x w1 sp es w' B' Hs _ IH|w B u R x u1 sp es w' B' H Hs _ IH].
  - apply t_nil. by rewrite H.
  - eapply t_rest; [done|done|exact IH].
  - eapply t_rest; [rewrite H; apply Permutation_swap|done|]. eapply runs_perm; [exact IH| |done].
    rewrite Permutation_swap. f_equiv. apply Permutation_middle.
Qed.
Lemma runs_ctx (F : A -> A) : (forall w x w' sp, step w x w' sp -> step (F w) x (F w') sp) ->
  forall w B es w' B', runs w B es w' B' -> runs (F w) B es (F w') B'.
Proof.
  intros HF. induction 1; [by apply t_nil|eapply t_head; [by apply HF|done]|by eapply t_rest].
Qed.
Lemma runs_one w x w1 sp B B' : step w x w1 sp -> sp ++ B ≡ₚ B' -> runs w B (option_list x) w1 B'.
Proof. intros H HB. rewrite <-(app_nil_r (option_list x)). eapply t_head; [done|by apply t_nil]. Qed.
End runs.

(** ** Code whose waits are met *)

Inductive code : Type :=
| Halt
| Emit (e : E) (c : code)
| Fork (child c : code)               (* fork, wait for the child, go on *)
| Both (l r : code)                   (* two children, wait for both *)
| Leave (child : code) (es : list E). (* a child nobody waits for *)
Fixpoint flat (c : code) : list item :=
  match c with
  | Halt => []
  | Emit e c => Ev e :: flat c
  | Fork c1 c => Spawn (flat c1) :: Wait :: flat c
  | Both l r => [Spawn (flat l); Spawn (flat r); Wait; Wait]
  | Leave c es => Spawn (flat c) :: (Ev <$> es)
  end.
Definition dos (es : list E) : work := foldr Do Over es.
Fixpoint work_of (c : code) : work :=
  match c with
  | Halt => Over
  | Emit e c => Do e (work_of c)
  | Fork c1 c => Seq (work_of c1) (work_of c)
  | Both l r => Par (work_of l) (work_of r)
  | Leave c es => Bg (work_of c) (dos es)
  end.

(** a process on its way, the work it has left, and that of those it will leave behind *)
Inductive rep : proc -> work -> list work -> Prop :=
| r_code c : rep (Proc (flat c) []) (work_of c) []
| r_fork c k w B : rep k w B -> rep (Proc (Wait :: flat c) [k]) (Seq w (work_of c)) B
| r_half r k w B : rep k w B -> rep (Proc [Spawn (flat r); Wait; Wait] [k]) (Par w (work_of r)) B
| r_both kl wl Bl kr wr Br : rep kl wl Bl -> rep kr wr Br -> rep (Proc [Wait; Wait] [kl; kr]) (Par wl wr) (Bl ++ Br)
| r_right k w B : rep k w B -> rep (Proc [Wait] [k]) (Par Over w) B
| r_left k w B : rep k w B -> rep (Proc [Wait] [k]) (Par w Over) B
| r_leave es k w B : rep k w B -> rep (Proc (Ev <$> es) [k]) (dos es) (w :: B).
Inductive reps : list proc -> list work -> Prop :=
| rs_nil : reps [] []
| rs_cons p w B ps L : rep p w B -> reps ps L -> reps (p :: ps) (w :: B ++ L).

Lemma reps_app O1 L1 O2 L2 : reps O1 L1 -> reps O2 L2 -> reps (O1 ++ O2) (L1 ++ L2).
Proof. induction 1 as [|p w B ps L Hp _ IH]; intros H2; [done|]. cbn. rewrite <-app_assoc. constructor; [done|by apply IH]. Qed.
Lemma reps_perm O L O' : reps O L -> O ≡ₚ O' -> exists L', reps O' L' /\ L ≡ₚ L'.
Proof.
  intros H HO. revert L H. induction HO as [|p O O' _ IH|p q O|O1 O2 O3 _ IH1 _ IH2]; intros L H.
  - exists L. done.
  - inversion H as [|? w B ? L0 Hp Hps]; subst. destruct (IH _ Hps) as (L' & HL & HP). exists (w :: B ++ L'). split; [by constructor|by rewrite HP].
  - inversion H as [|? w B ? L0 Hp Hps]; subst. inversion Hps as [|? v C ? L1 Hq Hqs]; subst. exists (v :: C ++ w :: B ++ L1). split; [by apply rs_cons; [|apply rs_cons]|].
    rewrite <-!Permutation_middle, Permutation_swap. do 2 f_equiv. rewrite !app_assoc. f_equiv. apply Permutation_app_comm.
  - destruct (IH1 _ H) as (L1 & H1 & P1). destruct (IH2 _ H1) as (L2 & H2 & P2). exists L2. split; [done|by rewrite P1].
Qed.

(** a process that is over *)
Definition gone : proc := Proc [] [].
Lemma rep_gone w B : rep gone w B -> w = Over /\ B = [].
Proof. inversion 1 as [c Hc| | | | | |]; subst. by destruct c. Qed.
Lemma gone_stuck x p sp : ~ pstep gone x p sp.
Proof. inversion 1; subst; [done|]. by destruct ks1. Qed.

(** what a step of a process with at most two children is *)
Lemma pstep_alone t x p sp : pstep (Proc t []) x p sp ->
  (exists e t', t = Ev e :: t' /\ x = Some e /\ p = Proc t' [] /\ sp = []) \/
  (exists c t', t = Spawn c :: t' /\ x = None /\ p = Proc t' [Proc c []] /\ sp = []) \/ exists t', t = Wait :: t'.
Proof. inversion 1; subst; [by left; eexists _, _|by right; left; eexists _, _|by destruct ks1|by right; right; eexists|done|by destruct ks1]. Qed.
Lemma pstep_one t k x p sp : pstep (Proc t [k]) x p sp ->
  (exists e t', t = Ev e :: t' /\ x = Some e /\ p = Proc t' [k] /\ sp = []) \/
  (exists c t', t = Spawn c :: t' /\ x = None /\ p = Proc t' [k; Proc c []] /\ sp = []) \/
  (exists t', t = Wait :: t' /\ k = gone /\ x = None /\ p = Proc t' [] /\ sp = []) \/
  (t = [] /\ x = None /\ p = gone /\ sp = [k]) \/ exists k', pstep k x k' sp /\ p = Proc t [k'].
Proof.
  inversion 1 as [| |t' ks1 ks2| | |t' ks1 k0 ks2 x' k' sp' Hk]; subst.
  - by left; eexists _, _.
  - by right; left; eexists _, _.
  - right; right; left. destruct ks1 as [|? [|]]; simplify_eq/=. by eexists.
  - by right; right; right; left.
  - right; right; right; right. destruct ks1 as [|? [|]]; simplify_eq/=. by eexists.
Qed.
Lemma pstep_both kl kr x p sp : pstep (Proc [Wait; Wait] [kl; kr]) x p sp ->
  (kl = gone /\ x = None /\ p = Proc [Wait] [kr] /\ sp = []) \/ (kr = gone /\ x = None /\ p = Proc [Wait] [kl] /\ sp = []) \/
  (exists k', pstep kl x k' sp /\ p = Proc [Wait; Wait] [k'; kr]) \/ exists k', pstep kr x k' sp /\ p = Proc [Wait; Wait] [kl; k'].
Proof.
  inversion 1 as [| |t' ks1 ks2| | |t' ks1 k0 ks2 x' k' sp' Hk]; subst; (destruct ks1 as [|? [|? [|]]]; simplify_eq/=); [by left|by right; left|right; right; left|right; right; right]; by eexists.
Qed.

(** the work keeps up with the processes *)
Definition follows (w : work) (B : list work) (x : option E) (p : proc) (sp : list proc) : Prop :=
  exists w' B' L, rep p w' B' /\ reps sp L /\ runs wstep w B (option_list x) w' (B' ++ L).
Lemma follows_here w B p : rep p w B -> follows w B None p [].
Proof. intros H. exists w, B, []. split; [done|]. split; [constructor|]. rewrite app_nil_r. by apply t_nil. Qed.
Lemma follows_one w B x w' sp B' p : wstep w x w' sp -> rep p w' B' -> sp ++ B ≡ₚ B' -> follows w B x p [].
Proof. intros Hs Hp HB. exists w', B', []. split; [done|]. split; [constructor|]. rewrite app_nil_r. by eapply runs_one. Qed.
Lemma follows_ctx (F : work -> work) (G : proc -> proc) X w B x k sp :
  (forall w x w' sp, wstep w x w' sp -> wstep (F w) x (F w') sp) -> (forall k w B, rep k w B -> rep (G k) (F w) (B ++ X)) ->
  follows w B x k sp -> follows (F w) (B ++ X) x (G k) sp.
Proof.
  intros HF HG (w' & B' & L & H1 & H2 & H3). exists (F w'), (B' ++ X), L. split; [by apply HG|]. split; [done|].
  eapply runs_perm; [apply runs_frame, (runs_ctx _ F HF), H3|done|]. rewrite <-!app_assoc. f_equiv. apply Permutation_app_comm.
Qed.
Lemma rep_step p w B : rep p w B -> forall x p' sp, pstep p x p' sp -> follows w B x p' sp.
Proof.
  induction 1 as [c|c k w B Hk IH|r k w B Hk IH|kl wl Bl kr wr Br Hl IHl Hr IHr|k w B Hk IH|k w B Hk IH|es k w B Hk IH]; intros x p' sp Hs.
  - apply pstep_alone in Hs as [(e & t & Ht & -> & -> & ->)|[(c1 & t & Ht & -> & -> & ->)|[t Ht]]]; destruct c as [|e' c|c1' c|l r|c1' es]; simplify_eq/=.
    + eapply follows_one; [apply w_do|apply (r_code c)|done].
    + apply follows_here. apply (r_fork c _ _ _ (r_code c1')).
    + apply follows_here. apply (r_half r _ _ _ (r_code l)).
    + eapply follows_one; [apply w_bg|apply (r_leave es _ _ _ (r_code c1'))|done].
  - apply pstep_one in Hs as [(e & t & ? & _)|[(c1 & t & ? & _)|[(t & ? & -> & -> & -> & ->)|[(? & _)|(k' & Hs & ->)]]]]; simplify_eq/=.
    + apply rep_gone in Hk as [-> ->]. eapply follows_one; [apply w_next|apply (r_code c)|done].
    + rewrite <-(app_nil_r B). apply (follows_ctx (fun w => Seq w (work_of c)) (fun k => Proc (Wait :: flat c) [k]) []); [intros; by constructor| |by apply IH].
      intros k0 w0 B0 H0. rewrite app_nil_r. by constructor.
  - apply pstep_one in Hs as [(e & t & ? & _)|[(c1 & t & ? & -> & -> & ->)|[(t & ? & _)|[(? & _)|(k' & Hs & ->)]]]]; simplify_eq/=.
    + apply follows_here. rewrite <-(app_nil_r B). apply (r_both _ _ _ _ _ _ Hk (r_code r)).
    + rewrite <-(app_nil_r B). apply (follows_ctx (fun w => Par w (work_of r)) (fun k => Proc [Spawn (flat r); Wait; Wait] [k]) []); [intros; by constructor| |by apply IH].
      intros k0 w0 B0 H0. rewrite app_nil_r. by constructor.
  - apply pstep_both in Hs as [(-> & -> & -> & ->)|[(-> & -> & -> & ->)|[(k' & Hs & ->)|(k' & Hs & ->)]]].
    + apply rep_gone in Hl as [-> ->]. apply follows_here. by apply r_right.
    + apply rep_gone in Hr as [-> ->]. rewrite app_nil_r. apply follows_here. by apply r_left.
    + apply (follows_ctx (fun w => Par w wr) (fun k => Proc [Wait; Wait] [k; kr])); [intros; by constructor| |by apply IHl].
      intros. by apply r_both.
    + destruct (IHr _ _ _ Hs) as (w' & B' & L & H1 & H2 & H3). exists (Par wl w'), (Bl ++ B'), L. split; [by apply r_both|]. split; [done|].
      eapply runs_perm; [apply runs_frame, (runs_ctx _ (Par wl)), H3; intros; by constructor|apply Permutation_app_comm|].
      rewrite <-app_assoc, (Permutation_app_comm Bl), <-app_assoc. f_equiv. apply Permutation_app_comm.
  - apply pstep_one in Hs as [(e & t & ? & _)|[(c1 & t & ? & _)|[(t & ? & -> & -> & -> & ->)|[(? & _)|(k' & Hs & ->)]]]]; simplify_eq/=.
    + apply rep_gone in Hk as [-> ->]. eapply follows_one; [apply w_join|apply (r_code Halt)|done].
    + rewrite <-(app_nil_r B). apply (follows_ctx (Par Over) (fun k => Proc [Wait] [k]) []); [intros; by constructor| |by apply IH].
      intros k0 w0 B0 H0. rewrite app_nil_r. by constructor.
  - apply pstep_one in Hs as [(e & t & ? & _)|[(c1 & t & ? & _)|[(t & ? & -> & -> & -> & ->)|[(? & _)|(k' & Hs & ->)]]]]; simplify_eq/=.
    + apply rep_gone in Hk as [-> ->]. eapply follows_one; [apply w_join|apply (r_code Halt)|done].
    + rewrite <-(app_nil_r B). apply (follows_ctx (fun w => Par w Over) (fun k => Proc [Wait] [k]) []); [intros; by constructor| |by apply IH].
      intros k0 w0 B0 H0. rewrite app_nil_r. by constructor.
  - apply pstep_one in Hs as [(e & t & Ht & -> & -> & ->)|[(c1 & t & ? & _)|[(t & ? & _)|[(Ht & -> & -> & ->)|(k' & Hs & ->)]]]]; try (by destruct es).
    + destruct es as [|e' es]; simplify_eq/=. eapply follows_one; [apply w_do|by apply r_leave|done].
    + apply fmap_nil_inv in Ht as ->. exists Over, [], (w :: B ++ []). split; [apply (r_code Halt)|]. split; [by apply rs_cons; [|apply rs_nil]|]. rewrite app_nil_r. by apply t_nil.
    + destruct (IH _ _ _ Hs) as (w' & B' & L & H1 & H2 & H3). exists (dos es), (w' :: B'), L. split; [by apply r_leave|]. split; [done|]. by apply runs_behind.
Qed.

(** ** And the processes keep up with the work *)

(** with calls nobody sees, a process gets to where its work is *)
Definition quiet (p : proc) (p' : proc) (O : list proc) : Prop := runs pstep p [] [] p' O.
Lemma quiet_one p p' : pstep p None p' [] -> quiet p p' [].
Proof. intros H. by eapply (runs_one _ p None). Qed.
Lemma quiet_refl p : quiet p p [].
Proof. by apply t_nil. Qed.
Lemma runs_kid t ks1 ks2 k B es k' B' : runs pstep k B es k' B' -> runs pstep (Proc t (ks1 ++ k :: ks2)) B es (Proc t (ks1 ++ k' :: ks2)) B'.
Proof. apply (runs_ctx pstep (fun k => Proc t (ks1 ++ k :: ks2))). intros. by apply p_kid. Qed.
Lemma rep_over p B : rep p Over B -> exists O L, quiet p gone O /\ reps O L /\ L ≡ₚ B.
Proof.
  inversion 1 as [c Hc| | | | | |es k w B0 Hk He]; subst.
  - exists [], []. destruct c; simplify_eq/=. split; [apply quiet_refl|]. split; [constructor|done].
  - destruct es; simplify_eq/=. exists [k], (w :: B0 ++ []). split; [|split; [apply rs_cons; [done|constructor]|by rewrite app_nil_r]].
    by eapply (runs_one _ _ None); [apply p_exit|].
Qed.
Lemma rep_seq p a b B : rep p (Seq a b) B -> exists c k, quiet p (Proc (Wait :: flat c) [k]) [] /\ rep k a B /\ b = work_of c.
Proof.
  inversion 1 as [c Hc|c k w B0 Hk| | | | |es k w B0 Hk He]; subst.
  - destruct c as [| |c1 c| |]; simplify_eq/=. exists c, (Proc (flat c1) []). split; [apply quiet_one, p_spawn|]. split; [constructor|done].
  - exists c, k. split; [apply quiet_refl|done].
  - by destruct es.
Qed.
Lemma rep_par p a b B : rep p (Par a b) B ->
  (exists kl kr Bl Br, quiet p (Proc [Wait; Wait] [kl; kr]) [] /\ rep kl a Bl /\ rep kr b Br /\ B = Bl ++ Br) \/
  exists k, p = Proc [Wait] [k] /\ (a = Over /\ rep k b B \/ b = Over /\ rep k a B).
Proof.
  inversion 1 as [c Hc| |r k w B0 Hk|kl wl Bl kr wr Br Hl Hr|k w B0 Hk|k w B0 Hk|es k w B0 Hk He]; subst.
  - destruct c as [| | |l r|]; simplify_eq/=. left. exists (Proc (flat l) []), (Proc (flat r) []), [], []. split; [|split; [constructor|split; [constructor|done]]].
    eapply (runs_trans _ _ _ []); [apply quiet_one, p_spawn|]. apply quiet_one. apply (p_spawn _ _ [_]).
  - left. exists k, (Proc (flat r) []), B, []. split; [apply quiet_one, (p_spawn _ _ [k])|]. split; [done|]. split; [constructor|by rewrite app_nil_r].
  - left. exists kl, kr, Bl, Br. split; [apply quiet_refl|done].
  - right. exists k. split; [done|]. by left.
  - right. exists k. split; [done|]. by right.
  - by destruct es.
Qed.

(** the process with work [w], and what is behind it, once the work has become [w'] and [B1] *)
Definition matched (p : proc) (x : option E) (w' : work) (B1 : list work) : Prop :=
  exists p' O B' L, runs pstep p [] (option_list x) p' O /\ rep p' w' B' /\ reps O L /\ B' ++ L ≡ₚ B1.
#[local] Instance matched_proper p x w : Proper ((≡ₚ) ==> iff) (matched p x w).
Proof. intros B B' HB. unfold matched. by setoid_rewrite HB. Qed.
Lemma matched_quiet p p1 x w' B1 : quiet p p1 [] -> matched p1 x w' B1 -> matched p x w' B1.
Proof. intros Hq (p' & O & B' & L & H1 & H). exists p', O, B', L. split; [|done]. by apply (runs_trans _ _ _ [] _ _ Hq). Qed.
Lemma matched_kid t ks1 ks2 k x wk Bk w' B1 : matched k x wk Bk ->
  (forall k' B' L, rep k' wk B' -> B' ++ L ≡ₚ Bk -> exists B2, rep (Proc t (ks1 ++ k' :: ks2)) w' B2 /\ B2 ++ L ≡ₚ B1) ->
  matched (Proc t (ks1 ++ k :: ks2)) x w' B1.
Proof.
  intros (k' & O & B' & L & H1 & H2 & H3 & H4) H. destruct (H k' B' L H2 H4) as (B2 & H5 & H6). exists (Proc t (ks1 ++ k' :: ks2)), O, B2, L.
  split; [by apply runs_kid|done].
Qed.
Lemma matched_over k B c : rep k Over B -> matched (Proc (Wait :: flat c) [k]) None (work_of c) B.
Proof.
  intros (O & L & H1 & H2 & H3)%rep_over. exists (Proc (flat c) []), O, [], L. split; [|split; [constructor|done]].
  eapply (runs_trans _ _ _ []); [apply (runs_kid _ [] []), H1|]. eapply (runs_one _ _ None); [apply (p_wait (flat c) [] [])|done].
Qed.
Lemma step_rep w x w' sp : wstep w x w' sp -> forall p B, rep p w B -> matched p x w' (sp ++ B).
Proof.
  induction 1 as [e w|a x a' sp b Hs IH|b|a x a' sp b Hs IH|a x b b' sp Hs IH| |a b]; intros p B Hp.
  - inversion Hp as [c Hc| | | | | |es k w0 B0 Hk He]; subst.
    + destruct c; simplify_eq/=. eexists _, [], [], []. split; [by eapply (runs_one _ _ (Some e)); [apply p_ev|]|]. split; [constructor|]. split; [constructor|done].
    + destruct es; simplify_eq/=. eexists _, [], (w0 :: B0), []. split; [by eapply (runs_one _ _ (Some e)); [apply p_ev|]|]. split; [by apply r_leave|]. split; [constructor|by rewrite app_nil_r].
  - apply rep_seq in Hp as (c & k & Hq & Hk & ->). eapply matched_quiet; [exact Hq|]. eapply (matched_kid _ [] []); [by apply IH|].
    intros k' B' L Hk' HB. exists B'. split; [by apply r_fork|done].
  - apply rep_seq in Hp as (c & k & Hq & Hk & ->). eapply matched_quiet; [exact Hq|]. by apply matched_over.
  - apply rep_par in Hp as [(kl & kr & Bl & Br & Hq & Hl & Hr & ->)|(k & -> & [[-> Hk]|[-> Hk]])].
    + eapply matched_quiet; [exact Hq|]. eapply (matched_kid _ [] [kr]); [by apply IH|]. intros k' B' L Hk' HB. exists (B' ++ Br). split; [by apply r_both|].
      rewrite <-app_assoc, (Permutation_app_comm Br), app_assoc, HB. by rewrite <-app_assoc.
    + inversion Hs.
    + eapply (matched_kid _ [] []); [by apply IH|]. intros k' B' L Hk' HB. exists B'. split; [by apply r_left|done].
  - apply rep_par in Hp as [(kl & kr & Bl & Br & Hq & Hl & Hr & ->)|(k & -> & [[-> Hk]|[-> Hk]])].
    + eapply matched_quiet; [exact Hq|]. eapply (matched_kid _ [kl] []); [by apply IH|]. intros k' B' L Hk' HB. exists (Bl ++ B'). split; [by apply r_both|].
      rewrite <-app_assoc, HB, !app_assoc. f_equiv. apply Permutation_app_comm.
    + eapply (matched_kid _ [] []); [by apply IH|]. intros k' B' L Hk' HB. exists B'. split; [by apply r_right|done].
    + inversion Hs.
  - apply rep_par in Hp as [(kl & kr & Bl & Br & Hq & Hl & Hr & ->)|(k & -> & [[_ Hk]|[_ Hk]])]; [|by apply (matched_over k B Halt)..].
    eapply matched_quiet; [exact Hq|]. apply rep_over in Hl as (O1 & L1 & Q1 & R1 & P1). apply rep_over in Hr as (O2 & L2 & Q2 & R2 & P2).
    exists gone, (O1 ++ O2), [], (L1 ++ L2). split; [|split; [apply (r_code Halt)|split; [by apply reps_app|cbn; by rewrite P1, P2]]].
    eapply (runs_trans _ _ _ []); [apply (runs_kid _ [] [kr]), Q1|].
    eapply (runs_trans _ _ _ []); [exact (runs_perm _ _ _ _ _ _ (runs_frame _ _ _ _ _ _ (runs_kid [Wait; Wait] [gone] [] _ _ _ _ _ Q2) O1) O1 (O1 ++ O2) (reflexivity _) (Permutation_app_comm _ _))|].
    eapply (runs_trans _ _ _ []); eapply (runs_one _ _ None); [apply (p_wait [Wait] [] [gone])|done|apply (p_wait [] [] [])|done].
  - inversion Hp as [c Hc| | | | | |es k w0 B0 Hk He]; subst; [|by destruct es].
    destruct c as [| | | |c1 es]; simplify_eq/=. eexists _, [], [work_of c1], []. split; [eapply (runs_one _ _ None); [apply p_spawn|done]|].
    split; [apply r_leave, r_code|]. split; [constructor|done].
Qed.
(** a step of the work a process will leave behind *)
Lemma step_behind p w B : rep p w B -> forall v R x v' sp, B ≡ₚ v :: R -> wstep v x v' sp -> matched p x w (v' :: sp ++ R).
Proof.
  induction 1 as [c|c k w B Hk IH|r k w B Hk IH|kl wl Bl kr wr Br Hl IHl Hr IHr|k w B Hk IH|k w B Hk IH|es k w B Hk IH]; intros v R x v' sp HB Hs.
  - by apply Permutation_nil_cons in HB.
  - eapply (matched_kid _ [] []); [by eapply IH|]. intros k' B' L Hk' HB'. exists B'. split; [by apply r_fork|done].
  - eapply (matched_kid _ [] []); [by eapply IH|]. intros k' B' L Hk' HB'. exists B'. split; [by apply r_half|done].
  - assert (v ∈ Bl ++ Br) as [Hv|Hv]%elem_of_app by (rewrite HB; apply list_elem_of_here); apply elem_of_Permutation in Hv as [B2 HB2].
    + assert (R ≡ₚ B2 ++ Br) as -> by (apply (Permutation_cons_inv (a := v)); by rewrite <-HB, HB2). eapply (matched_kid _ [] [kr]); [by eapply IHl|].
      intros k' B' L Hk' HB'. exists (B' ++ Br). split; [by apply r_both|]. rewrite <-app_assoc, (Permutation_app_comm Br), app_assoc, HB'. cbn. by rewrite <-app_assoc.
    + assert (R ≡ₚ Bl ++ B2) as -> by (apply (Permutation_cons_inv (a := v)); rewrite <-HB, HB2; symmetry; apply Permutation_middle). eapply (matched_kid _ [kl] []); [by eapply IHr|].
      intros k' B' L Hk' HB'. exists (Bl ++ B'). split; [by apply r_both|]. rewrite <-app_assoc, HB'. rewrite <-Permutation_middle. f_equiv. rewrite !app_assoc. f_equiv. apply Permutation_app_comm.
  - eapply (matched_kid _ [] []); [by eapply IH|]. intros k' B' L Hk' HB'. exists B'. split; [by apply r_right|done].
  - eapply (matched_kid _ [] []); [by eapply IH|]. intros k' B' L Hk' HB'. exists B'. split; [by apply r_left|done].
  - assert (v ∈ w :: B) as [->|Hv]%elem_of_cons by (rewrite HB; apply list_elem_of_here).
    + apply Permutation_cons_inv in HB. eapply (matched_kid _ [] []); [by eapply (step_rep _ _ _ _ Hs)|]. intros k' B' L Hk' HB'. exists (v' :: B'). split; [by apply r_leave|].
      cbn. by rewrite HB', HB.
    + apply elem_of_Permutation in Hv as [B2 HB2]. assert (R ≡ₚ w :: B2) as -> by (apply (Permutation_cons_inv (a := v)); rewrite <-HB, HB2; apply Permutation_swap).
      eapply (matched_kid _ [] []); [by eapply IH|]. intros k' B' L Hk' HB'. exists (w :: B'). split; [by apply r_leave|]. cbn. rewrite HB'.
      rewrite Permutation_swap. f_equiv. apply Permutation_middle.
Qed.

(** ** Whole runs *)

Lemma runs_work p O es p' O' : runs pstep p O es p' O' -> forall w B LO, rep p w B -> reps O LO ->
  exists w' B' LO', rep p' w' B' /\ reps O' LO' /\ runs wstep w (B ++ LO) es w' (B' ++ LO').
Proof.
  induction 1 as [p O O' HO|p O x p1 sp es p' O' Hs _ IH|p O q R x q1 sp es p' O' HO Hs _ IH]; intros w B LO Hp HL.
  - destruct (reps_perm _ _ _ HL HO) as (LO' & H1 & H2). exists w, B, LO'. split; [done|]. split; [done|]. apply t_nil. by rewrite H2.
  - destruct (rep_step _ _ _ Hp _ _ _ Hs) as (w1 & B1 & L1 & H1 & H2 & H3). destruct (IH w1 B1 (L1 ++ LO) H1) as (w' & B' & LO' & H4 & H5 & H6); [by apply reps_app|].
    exists w', B', LO'. split; [done|]. split; [done|]. eapply runs_trans; [apply runs_frame, H3|]. by rewrite <-app_assoc.
  - destruct (reps_perm _ _ _ HL HO) as (L2 & H1 & HP). inversion H1 as [|? v C ? LR Hq HR]; subst.
    destruct (rep_step _ _ _ Hq _ _ _ Hs) as (v1 & C1 & L1 & H2 & H3 & H4). destruct (IH w B (v1 :: C1 ++ L1 ++ LR) Hp) as (w' & B' & LO' & H5 & H6 & H7).
    { apply rs_cons; [done|]. by apply reps_app. }
    exists w', B', LO'. split; [done|]. split; [done|]. eapply runs_trans; [|exact H7].
    eapply runs_perm; [apply (runs_frame _ _ _ _ _ _ (runs_behind _ w _ _ _ _ _ H4) (B ++ LR))| |].
    + rewrite HP. cbn. rewrite <-Permutation_middle. f_equiv. rewrite !app_assoc. f_equiv. apply Permutation_app_comm.
    + solve_Permutation.
Qed.

(** the one of several processes that has the work [v], or will leave it behind *)
Lemma reps_in O L v : reps O L -> v ∈ L -> exists q O1 wq Bq L1, O ≡ₚ q :: O1 /\ rep q wq Bq /\ reps O1 L1 /\ L ≡ₚ (wq :: Bq) ++ L1 /\ v ∈ wq :: Bq.
Proof.
  induction 1 as [|p w B ps L Hp Hps IH]; intros Hv; [by apply elem_of_nil in Hv|]. rewrite app_comm_cons in Hv |- *. apply elem_of_app in Hv as [Hv|Hv].
  - by exists p, ps, w, B, L.
  - destruct (IH Hv) as (q & O1 & wq & Bq & L1 & H1 & H2 & H3 & H4 & H5). exists q, (p :: O1), wq, Bq, ((w :: B) ++ L1). split; [rewrite H1; apply Permutation_swap|].
    split; [done|]. split; [by apply rs_cons|]. split; [|done]. rewrite H4, !app_assoc. f_equiv. apply Permutation_app_comm.
Qed.
(** a step of any work a process has or will leave behind *)
Lemma step_any q w B v R x v' sp : rep q w B -> w :: B ≡ₚ v :: R -> wstep v x v' sp ->
  exists q' O w' B' L, runs pstep q [] (option_list x) q' O /\ rep q' w' B' /\ reps O L /\ w' :: B' ++ L ≡ₚ v' :: sp ++ R.
Proof.
  intros Hq HB Hs. assert (v ∈ w :: B) as [->|Hv]%elem_of_cons by (rewrite HB; apply list_elem_of_here).
  - apply Permutation_cons_inv in HB. destruct (step_rep _ _ _ _ Hs q B Hq) as (q' & O & B' & L & H1 & H2 & H3 & H4). exists q', O, v', B', L.
    split; [done|]. split; [done|]. split; [done|]. by rewrite H4, HB.
  - apply elem_of_Permutation in Hv as [B2 HB2]. destruct (step_behind _ _ _ Hq _ _ _ _ _ HB2 Hs) as (q' & O & B' & L & H1 & H2 & H3 & H4). exists q', O, w, B', L.
    split; [done|]. split; [done|]. split; [done|]. rewrite H4. assert (R ≡ₚ w :: B2) as -> by (apply (Permutation_cons_inv (a := v)); rewrite <-HB, HB2; apply Permutation_swap).
    rewrite Permutation_swap. f_equiv. apply Permutation_middle.
Qed.
Lemma runs_procs w X es w' X' : runs wstep w X es w' X' -> forall p B O LO, rep p w B -> reps O LO -> X ≡ₚ B ++ LO ->
  exists p' O', runs pstep p O es p' O'.
Proof.
  induction 1 as [w X X' HX|w X x w1 sp es w' X' Hs _ IH|w X v R x v1 sp es w' X' HX Hs _ IH]; intros p B O LO Hp HO HB.
  - exists p, O. by apply t_nil.
  - destruct (step_rep _ _ _ _ Hs p B Hp) as (p1 & O1 & B1 & L1 & H1 & H2 & H3 & H4). destruct (IH p1 B1 (O1 ++ O) (L1 ++ LO) H2) as (p' & O' & H5); [by apply reps_app|by rewrite HB, !app_assoc, H4|].
    exists p', O'. eapply runs_trans; [|exact H5]. apply (runs_frame _ _ _ _ _ _ H1).
  - assert (v ∈ B ++ LO) as Hv by (rewrite <-HB, HX; apply list_elem_of_here). apply elem_of_app in Hv as [Hv|Hv].
    + apply elem_of_Permutation in Hv as [B2 HB2]. destruct (step_behind _ _ _ Hp _ _ _ _ _ HB2 Hs) as (p1 & O1 & B1 & L1 & H1 & H2 & H3 & H4).
      assert (R ≡ₚ B2 ++ LO) as HR by (apply (Permutation_cons_inv (a := v)); by rewrite <-HX, HB, HB2).
      destruct (IH p1 B1 (O1 ++ O) (L1 ++ LO) H2) as (p' & O' & H5); [by apply reps_app|rewrite HR, (app_assoc B1), H4; cbn; by rewrite <-app_assoc|].
      exists p', O'. eapply runs_trans; [|exact H5]. apply (runs_frame _ _ _ _ _ _ H1).
    + destruct (reps_in _ _ _ HO Hv) as (q & OR & wq & Bq & LR & H1 & H2 & H3 & H4 & H5). apply elem_of_Permutation in H5 as [B2 HB2].
      assert (R ≡ₚ B2 ++ B ++ LR) as HR. { apply (Permutation_cons_inv (a := v)). rewrite <-HX, HB, H4, HB2. solve_Permutation. }
      destruct (step_any q wq Bq v B2 x v1 sp H2 HB2 Hs) as (q' & O1 & wq' & Bq' & L1 & H6 & H7 & H8 & H9).
      destruct (IH p B (q' :: O1 ++ OR) (wq' :: Bq' ++ L1 ++ LR) Hp) as (p' & O' & H10).
      { apply rs_cons; [done|by apply reps_app]. }
      { rewrite HR. transitivity ((v1 :: sp ++ B2) ++ B ++ LR); [solve_Permutation|]. rewrite <-H9. solve_Permutation. }
      exists p', O'. eapply runs_trans; [|exact H10]. eapply runs_perm; [apply (runs_frame _ _ _ _ _ _ (runs_behind _ p _ _ _ _ _ H6) OR)|by rewrite H1|done].
Qed.

Lemma rep_progress p w B : rep p w B -> p = gone \/ exists x p' sp, pstep p x p' sp.
Proof.
  induction 1 as [c|c k w B Hk [->|(x & k' & sp & IH)]|r k w B Hk _|kl wl Bl kr wr Br Hl [->|(x & k' & sp & IH)] Hr _|k w B Hk [->|(x & k' & sp & IH)]|k w B Hk [->|(x & k' & sp & IH)]|es k w B Hk _].
  - destruct c; [by left|right; eexists _, _, _; first [apply p_ev|apply p_spawn]..].
  - right. eexists _, _, _. apply (p_wait _ [] []).
  - right. eexists _, _, _. by apply (p_kid _ [] _ []).
  - right. eexists _, _, _. apply p_spawn.
  - right. eexists _, _, _. apply (p_wait _ [] [_]).
  - right. eexists _, _, _. by apply (p_kid _ [] _ [_]).
  - right. eexists _, _, _. apply (p_wait _ [] []).
  - right. eexists _, _, _. by apply (p_kid _ [] _ []).
  - right. eexists _, _, _. apply (p_wait _ [] []).
  - right. eexists _, _, _. by apply (p_kid _ [] _ []).
  - right. destruct es; eexists _, _, _; [by apply p_exit|apply p_ev].
Qed.

(** ** What a process does, as work

    Whatever order its processes run in, the events are those of the work in an
    order it allows; nothing is left of it when all have exited, and until then
    one of them can go on.  And every order the work allows is one in which they can run. *)
Record does (t : list item) (W : work) : Prop := {
  do_order es p O : runs pstep (Proc t []) [] es p O -> exists w B, runs wstep W [] es w B /\ (p = gone -> Forall (fun q => q = gone) O -> w = Over /\ Forall (fun b => b = Over) B);
  do_goes_on es p O : runs pstep (Proc t []) [] es p O -> (p = gone /\ Forall (fun q => q = gone) O) \/ exists q x q' sp, q ∈ p :: O /\ pstep q x q' sp;
  do_any es w B : runs wstep W [] es w B -> exists p O, runs pstep (Proc t []) [] es p O;
}.
Lemma reps_gone O L : reps O L -> Forall (fun q => q = gone) O -> Forall (fun b => b = Over) L.
Proof.
  induction 1 as [|p w B ps L Hp _ IH]; intros Hg; [done|]. apply Forall_cons in Hg as [-> Hg]. apply rep_gone in Hp as [-> ->]. by constructor; [|apply IH].
Qed.
Lemma reps_progress O L : reps O L -> Forall (fun q => q = gone) O \/ exists q x q' sp, q ∈ O /\ pstep q x q' sp.
Proof.
  induction 1 as [|p w B ps L Hp _ [IH|(q & x & q' & sp & Hq & Hs)]]; [by left| |right; exists q, x, q', sp; split; [by right|done]].
  destruct (rep_progress _ _ _ Hp) as [->|(x & p' & sp & Hs)]; [left; by constructor|right; exists p, x, p', sp; split; [by left|done]].
Qed.
Lemma code_does c : does (flat c) (work_of c).
Proof.
  split.
  - intros es p O H. destruct (runs_work _ _ _ _ _ H _ _ [] (r_code c) rs_nil) as (w & B & L & H1 & H2 & H3). exists w, (B ++ L). split; [done|].
    intros -> HO. apply rep_gone in H1 as [-> ->]. split; [done|]. by eapply reps_gone.
  - intros es p O H. destruct (runs_work _ _ _ _ _ H _ _ [] (r_code c) rs_nil) as (w & B & L & H1 & H2 & _).
    destruct (rep_progress _ _ _ H1) as [->|(x & p' & sp & Hs)]; [|right; exists p, x, p', sp; split; [by left|done]].
    destruct (reps_progress _ _ H2) as [HO|(q & x & q' & sp & Hq & Hs)]; [by left|right; exists q, x, q', sp; split; [by right|done]].
  - intros es w B H. by apply (runs_procs _ _ _ _ _ H _ [] [] [] (r_code c) rs_nil).
Qed.
End jobs.
Arguments item : clear implicits.
Arguments proc : clear implicits.
Arguments work : clear implicits.
End Jobs.
