(* ===== verification/Run.v ===== *)
(** * The shell: running a command, and the loop that reads them (src/src/usr/sh.c)

    runcmd(), fork1(), getcmd() and main(), over a process: its memory, its
    descriptors, and the calls of it that others notice, in order (Jobs.v).  A
    child has a copy of the memory and the descriptors, so that what it does is
    found by running its code on them; fork() records that as what the child has
    still to do, and the processes then run in any order.  Whether open(), exec(),
    fork(), pipe() and chdir() succeed is any function of the process and of how
    many calls it has made; a descriptor is given out as the kernel does it, the
    lowest first. A program that exec() starts ends some time later. *)

From S2P Require Import Prelude.
From S2P Require Import KString.
From S2P Require Import Ulib.
From S2P Require Import Sh.
From S2P Require Import Jobs.

Module Run.

Definition NOFILE : nat := 16.
(** a process by its ancestors' calls of fork(): each is the number of calls the parent had made *)
Definition pid : Type := list nat.
(** what a descriptor stands for: the console, a file, an end of the pipe a process made after some number of calls *)
Inductive handle : Type :=
| Console
| File (name : list Z) (mode : Z)
| ReadEnd (who : pid) (n : nat)
| WriteEnd (who : pid) (n : nat).
(** a program starts with its descriptors; it ends *)
Inductive event : Type :=
| Exec (path : list Z) (argv : list (list Z)) (fds : list (option handle))
| Ended (path : list Z)
| Open (name : list Z) (mode : Z) (ok : bool)
| Say (msg : string) (arg : list Z)
| Chdir (path : list Z).

Record world : Type := World {
  mem_ : Sh.st;
  fds : list (option handle);
  stdin : list Z;
  trace : list (Jobs.item event);
  me : pid;
}.
Definition with_fds (f : list (option handle)) (w : world) : world := World (mem_ w) f (stdin w) (trace w) (me w).
Definition call (i : Jobs.item event) : M world unit := modify (fun w => World (mem_ w) (fds w) (stdin w) (trace w ++ [i]) (me w)).
Definition happens (e : event) : M world unit := call (Jobs.Ev e).
Definition say (msg : string) (arg : list Z) : M world unit := happens (Say msg arg).
(** the process, and how many calls it has made *)
Definition now : M world (pid * nat) := gets (fun w => (me w, length (trace w))).
Definition sh_lens : lens world Sh.st := Lens mem_ (fun m w => World m (fds w) (stdin w) (trace w) (me w)).
Definition mem_lens : lens world mem :=
  Lens (fun w => Sh.text (mem_ w)) (fun m w => lset sh_lens (lset Sh.text_lens m (mem_ w)) w).
Definition ulib_lens : lens world Ulib.st :=
  Lens (fun w => Ulib.St (Sh.text (mem_ w)) (stdin w))
       (fun u w => World (lset Sh.text_lens (Ulib.umem u) (mem_ w)) (fds w) (Ulib.stdin u) (trace w) (me w)).

Section shell.
Context (limit : nat) (can_open : pid -> nat -> list Z -> Z -> bool) (can_exec can_chdir : pid -> nat -> list Z -> bool)
  (can_fork can_pipe : pid -> nat -> bool).

(** ** System calls *)

(** the string at a pointer, and the strings of argv up to the null pointer *)
Definition str_at (p : Z) : M mem (list Z) :=
  fuel ← gets (fun m : mem => S (base.size m));
  loop fuel (fun v : Z * list Z =>
    let '(p, acc) := v in
    x ← load8 p;
    mret (if x =? 0 then inr acc else inl (p + 1, acc ++ [x]))) (p, []).
Definition strs_at (argv : list Z) : M mem (list (list Z)) :=
  loop (S (length argv)) (fun v : Z * list (list Z) =>
    let '(i, acc) := v in
    q ← deref (fun _ => at_ argv i);
    if q =? 0 then mret (inr acc) else
    s ← str_at q;
    mret (inl (i + 1, acc ++ [s]))) (0, []).

Definition fdalloc (l : list (option handle)) : option Z :=
  match list_find (fun x => x = None) l with Some (i, _) => Some (Z.of_nat i) | None => None end.
Definition close (fd : Z) : M world unit := modify (fun w => with_fds (put (fds w) fd None) w).
Definition give (h : handle) : M world Z := fun w =>
  match fdalloc (fds w) with
  | Some fd => Done fd (with_fds (put (fds w) fd (Some h)) w)
  | None => Done (-1) w
  end.
Definition open (name : list Z) (mode : Z) : M world Z :=
  '(p, n) ← now;
  happens (Open name mode (can_open p n name mode)) ;;
  if can_open p n name mode then give (File name mode) else mret (-1).
Definition dup (fd : Z) : M world Z :=
  h ← gets (fun w => mjoin (at_ (fds w) fd));
  match h with Some h => give h | None => mret (-1) end.
Definition pipe : M world (option (Z * Z)) :=
  '(p, n) ← now;
  if can_pipe p n then
    p0 ← give (ReadEnd p n);
    p1 ← give (WriteEnd p n);
    mret (if (p0 <? 0) || (p1 <? 0) then None else Some (p0, p1))
  else mret None.
(** a program that starts does not come back: the process is over when it ends *)
Definition exec (path : list Z) (argv : list (list Z)) : M world bool :=
  '(p, n) ← now;
  f ← gets fds;
  if can_exec p n path then happens (Exec path argv f) ;; happens (Ended path) ;; mret true else mret false.
(** the child runs on copies and exits where its code returns; a panic of the parser is its message and exit().
    [dead]: what is left of the parent when fork() fails, which says so and exits too *)
Definition fork1 {A} (dead : A) (child : M world unit) (parent : M world A) : M world A := fun w =>
  let n := length (trace w) in
  if can_fork (me w) n then
    let forked t := (call (Jobs.Spawn t) ;; parent) w in
    match child (World (mem_ w) (fds w) (stdin w) [] (me w ++ [n])) with
    | Done _ w' => forked (trace w')
    | Panic msg => forked [Jobs.Ev (Say msg [])]
    | Undef => Undef
    | Block c w' => Block c w'
    | Deadlock => Deadlock
    | NoFuel => NoFuel
    end
  else (say "fork" [] ;; mret dead) w.
Definition wait : M world unit := call Jobs.Wait.

(** ** runcmd: returning is exit() *)

Definition runcmd_exec (argv : list Z) : M world unit :=
  q ← deref (fun _ => at_ argv 0);
  if q =? 0 then mret tt else
  path ← zoom mem_lens (str_at q);
  args ← zoom mem_lens (strs_at argv);
  ok ← exec path args;
  if ok : bool then mret tt else say "exec %s failed" path.
Fixpoint runcmd (fuel : nat) (cmd : Z) : M world unit :=
  match fuel with O => fun _ => NoFuel | S fuel =>
    if cmd =? 0 then mret tt else
    n ← deref (fun w => Sh.cmd_at (Sh.heap (mem_ w)) cmd);
    match n with
    | Sh.EXEC argv _ => runcmd_exec argv
    | Sh.REDIR c file _ mode fd =>
        close fd ;;
        name ← zoom mem_lens (str_at file);
        r ← open name mode;
        if r <? 0 then say "open %s failed" name else runcmd fuel c
    | Sh.LIST l r => fork1 tt (runcmd fuel l) (wait ;; runcmd fuel r)
    | Sh.PIPE l r =>
        p ← pipe;
        match p with
        | None => say "pipe" []
        | Some (p0, p1) =>
            fork1 tt (close 1 ;; dup p1 ;; close p0 ;; close p1 ;; runcmd fuel l)
              (fork1 tt (close 0 ;; dup p0 ;; close p0 ;; close p1 ;; runcmd fuel r)
                (close p0 ;; close p1 ;; wait ;; wait))
        end
    | Sh.BACK c => fork1 tt (runcmd fuel c) (mret tt)
    end
  end.

(** ** The loop of main: [false] at the end of the input *)

Definition getcmd (buf nbuf : Z) : M world Z :=
  say "$ " [] ;;
  zoom mem_lens (Ulib.memset buf 0 nbuf) ;;
  zoom ulib_lens (Ulib.gets buf nbuf) ;;
  x ← zoom mem_lens (load8 buf);
  mret (if x =? 0 then -1 else 0).
(** buf[0] == 'c' && buf[1] == 'd' && buf[2] == ' ' *)
Definition is_cd (buf : Z) : M mem bool :=
  x ← load8 buf;
  if negb (x =? 99) then mret false else
  x ← load8 (buf + 1);
  if negb (x =? 100) then mret false else
  x ← load8 (buf + 2);
  mret (x =? 32).
Definition main_body (buf nbuf : Z) : M world bool :=
  r ← getcmd buf nbuf;
  if r <? 0 then mret false else
  cd ← zoom mem_lens (is_cd buf);
  if cd : bool then
    n ← zoom mem_lens (Ulib.strlen buf);
    zoom mem_lens (store8 (buf + u32 (n - 1)) 0) ;;
    path ← zoom mem_lens (str_at (buf + 3));
    '(p, n) ← now;
    happens (Chdir path) ;;
    when (negb (can_chdir p n path)) (say "cannot cd %s" path) ;;
    mret true
  else
    fork1 false (
      p ← zoom sh_lens (Sh.parsecmd limit buf);
      fuel ← gets (fun w => S (length (Sh.heap (mem_ w))));
      runcmd fuel p) (wait ;; mret true).

(** "console", opened until descriptors 0, 1 and 2 are in use *)
Definition O_RDWR : Z := 2.
Definition console_name : list Z := [99; 111; 110; 115; 111; 108; 101].
Definition main_open : M world unit :=
  loop (S NOFILE) (fun _ =>
    fd ← open console_name O_RDWR;
    if fd <? 0 then mret (inr tt) else
    if 3 <=? fd then close fd ;; mret (inr tt) else mret (inl tt)) tt.
(** every line takes a byte of the input at least *)
Definition main (buf nbuf : Z) : M world unit :=
  main_open ;;
  fuel ← gets (fun w => S (length (stdin w)));
  loop fuel (fun _ => b ← main_body buf nbuf; mret (if b : bool then inl tt else inr tt)) tt.

(** ** What a command runs

    [den c p n i o e]: the work of command [c] in process [p] after [n] calls, its programs with the three
    descriptors [i], [o] and [e] and no others unless its redirections and pipes say otherwise: the parts of a list one after
    the other, those of a pipe side by side, and what is in the background whenever. *)
Definition table (i o e : handle) : list (option handle) := [Some i; Some o; Some e] ++ replicate 13 None.
Definition says (msg : string) (arg : list Z) : Jobs.work event := Jobs.Do (Say msg arg) Jobs.Over.
Fixpoint den (c : Sh.cmd) (p : pid) (n : nat) (i o e : handle) : Jobs.work event :=
  match c with
  | Sh.Exec [] => Jobs.Over
  | Sh.Exec (w :: ws) =>
      if can_exec p n w then Jobs.Do (Exec w (w :: ws) (table i o e)) (Jobs.Do (Ended w) Jobs.Over) else says "exec %s failed" w
  | Sh.Redir c r =>
      let f := File (Sh.rfile r) (Sh.rmode r) in
      let ok := can_open p n (Sh.rfile r) (Sh.rmode r) in
      Jobs.Do (Open (Sh.rfile r) (Sh.rmode r) ok)
        (if ok then if Sh.rfd r =? 0 then den c p (S n) f o e else den c p (S n) i f e else says "open %s failed" (Sh.rfile r))
  | Sh.Pipe l r =>
      if can_pipe p n then if can_fork p n then
        let left := den l (p ++ [n]) 0 i (WriteEnd p n) e in
        if can_fork p (S n) then Jobs.Par left (den r (p ++ [S n]) 0 (ReadEnd p n) o e) else Jobs.Bg left (says "fork" [])
      else says "fork" [] else says "pipe" []
  | Sh.Seq l r => if can_fork p n then Jobs.Seq (den l (p ++ [n]) 0 i o e) (den r p (S (S n)) i o e) else says "fork" []
  | Sh.Back c => if can_fork p n then Jobs.Bg (den c (p ++ [n]) 0 i o e) Jobs.Over else says "fork" []
  end.

(** the same as code: which processes do it *)
Definition tells (msg : string) (arg : list Z) : Jobs.code := Jobs.Emit (Say msg arg) Jobs.Halt.
Fixpoint plan (c : Sh.cmd) (p : pid) (n : nat) (i o e : handle) : Jobs.code :=
  match c with
  | Sh.Exec [] => Jobs.Halt
  | Sh.Exec (w :: ws) =>
      if can_exec p n w then Jobs.Emit (Exec w (w :: ws) (table i o e)) (Jobs.Emit (Ended w) Jobs.Halt) else tells "exec %s failed" w
  | Sh.Redir c r =>
      let f := File (Sh.rfile r) (Sh.rmode r) in
      let ok := can_open p n (Sh.rfile r) (Sh.rmode r) in
      Jobs.Emit (Open (Sh.rfile r) (Sh.rmode r) ok)
        (if ok then if Sh.rfd r =? 0 then plan c p (S n) f o e else plan c p (S n) i f e else tells "open %s failed" (Sh.rfile r))
  | Sh.Pipe l r =>
      if can_pipe p n then if can_fork p n then
        let left := plan l (p ++ [n]) 0 i (WriteEnd p n) e in
        if can_fork p (S n) then Jobs.Both left (plan r (p ++ [S n]) 0 (ReadEnd p n) o e) else Jobs.Leave left [Say "fork" []]
      else tells "fork" [] else tells "pipe" []
  | Sh.Seq l r => if can_fork p n then Jobs.Fork (plan l (p ++ [n]) 0 i o e) (plan r p (S (S n)) i o e) else tells "fork" []
  | Sh.Back c => if can_fork p n then Jobs.Leave (plan c (p ++ [n]) 0 i o e) [] else tells "fork" []
  end.
Lemma plan_den c : forall p n i o e, Jobs.work_of (plan c p n i o e) = den c p n i o e.
Proof.
  induction c as [[|w ws]|c IH r|l IHl r IHr|l IHl r IHr|c IH]; intros p n i o e; cbn [plan den]; repeat case_match; cbn; by rewrite ?IH, ?IHl, ?IHr.
Qed.

Lemma str_at_spec (m : mem) p s Q : cstr m p s -> Q s m -> wp (str_at p) Q m.
Proof.
  intros [Hb H0] HQ. pose proof (bytes_at_size _ _ _ Hb) as Hsz. rewrite length_app in Hsz. cbn in Hsz. unfold str_at. wp_step. wp_step.
  eapply (wp_loop _ _ _ _ _ (fun v m' => exists k : nat, (k <= length s)%nat /\ v = (p + Z.of_nat k, take k s) /\ m' = m)
    (fun v => (length s - Z.to_nat (v.1 - p))%nat)).
  - exists 0%nat. rewrite Z.add_0_r. split; [lia|done].
  - cbn [fst]. lia.
  - intros v m' (k & Hk & -> & ->). cbn [fst]. destruct (lookup_lt_is_Some_2 (s ++ [0]) k) as [x Hx]; [rewrite length_app; cbn; lia|].
    wp_step. apply wp_load8 with x; [by apply Hb|]. wp_step. apply lookup_app_Some in Hx as [Hx|[Hge Hx]].
    + destruct (Z.eqb_spec x 0) as [->|_]; [destruct H0; by eapply list_elem_of_lookup_2|]. pose proof (lookup_lt_Some _ _ _ Hx). split; [|cbn [fst]; lia].
      exists (S k). split; [lia|]. split; [f_equal; [lia|]|done]. by rewrite (take_S_r s k x Hx).
    + assert (k = length s) as -> by lia. rewrite Nat.sub_diag in Hx. injection Hx as <-. cbn [Z.eqb]. by rewrite take_ge by lia.
Qed.
Lemma strs_at_spec (m : mem) a ws Q : a !! length ws = Some 0 ->
  (forall i w, ws !! i = Some w -> exists q, a !! i = Some q /\ 0 < q /\ cstr m q w) -> Q ws m -> wp (strs_at a) Q m.
Proof.
  intros Hend Hws HQ. unfold strs_at.
  eapply (wp_loop _ _ _ _ _ (fun v m' => exists k : nat, (k <= length ws)%nat /\ v = (Z.of_nat k, take k ws) /\ m' = m) (fun v => (length ws - Z.to_nat v.1)%nat)).
  - exists 0%nat. split; [lia|done].
  - cbn [fst]. apply lookup_lt_Some in Hend. lia.
  - intros v m' (k & Hk & -> & ->). cbn [fst]. wp_step.
    assert (forall q, a !! k = Some q -> at_ a (Z.of_nat k) = Some q) as Hat by (intros q Hq; unfold at_; destruct (Z.leb_spec 0 (Z.of_nat k)); [by rewrite Nat2Z.id|lia]).
    destruct (decide (k = length ws)) as [->|Hne].
    + eapply wp_deref; [by apply Hat|]. cbn [Z.eqb]. wp_step. by rewrite firstn_all.
    + destruct (lookup_lt_is_Some_2 ws k) as [w Hw]; [lia|]. destruct (Hws _ _ Hw) as (q & Hq & Hq0 & Hs). eapply wp_deref; [by apply Hat|].
      replace (q =? 0) with false by lia. wp_step. eapply str_at_spec; [exact Hs|]. wp_step. split; [|cbn [fst]; lia]. exists (S k). split; [lia|].
      split; [f_equal; [lia|]|done]. by rewrite (take_S_r ws k w Hw).
Qed.

(** the process [w] after it has made the calls [t] *)
Definition called (t : list (Jobs.item event)) (w : world) : world := World (mem_ w) (fds w) (stdin w) (trace w ++ t) (me w).
Lemma called_app t u w : called u (called t w) = called (t ++ u) w.
Proof. unfold called. cbn. by rewrite app_assoc. Qed.
Lemma wp_say msg arg Q w : Q tt (called [Jobs.Ev (Say msg arg)] w) -> wp (say msg arg) Q w.
Proof. intros H. unfold say, happens, call. by wp_step. Qed.
Lemma wp_happens e Q w : Q tt (called [Jobs.Ev e] w) -> wp (happens e) Q w.
Proof. intros H. unfold happens, call. by wp_step. Qed.
Lemma wp_wait Q w : Q tt (called [Jobs.Wait] w) -> wp wait Q w.
Proof. intros H. unfold wait, call. by wp_step. Qed.
Lemma wp_now Q w : Q (me w, length (trace w)) w -> wp now Q w.
Proof. intros H. unfold now. by wp_step. Qed.
Lemma wp_fork1 {A} (dead : A) child parent Q w :
  (if can_fork (me w) (length (trace w)) then
     wp child (fun _ w' => wp parent Q (called [Jobs.Spawn (trace w')] w)) (World (mem_ w) (fds w) (stdin w) [] (me w ++ [length (trace w)]))
   else Q dead (called [Jobs.Ev (Say "fork" [])] w)) ->
  wp (fork1 dead child parent) Q w.
Proof.
  intros H. unfold wp, fork1 in *. destruct (can_fork _ _); [|exact H]. by destruct (child _).
Qed.

(** a process once its code has returned *)
Definition ran (c : Jobs.code) (w w' : world) : Prop := trace w' = trace w ++ Jobs.flat c.
Lemma runcmd_exec_spec a e ws w i o er Q : Sh.exec_node (Sh.string_in (Sh.text (mem_ w))) (Sh.EXEC a e) ws -> fds w = table i o er ->
  (forall w', ran (plan (Sh.Exec ws) (me w) (length (trace w)) i o er) w w' -> Q tt w') -> wp (runcmd_exec a) Q w.
Proof.
  intros (Hla & _ & Hlen & Hend & Hws) Hf HQ. unfold runcmd_exec. wp_step. destruct ws as [|w0 ws].
  - eapply wp_deref; [exact Hend|]. cbn [Z.eqb]. wp_step. apply HQ. unfold ran. cbn. by rewrite app_nil_r.
  - destruct (Hws 0%nat w0 eq_refl) as (q & eq & Hq & _ & Hq0 & Hs). eapply wp_deref; [exact Hq|]. replace (q =? 0) with false by lia. wp_step. wp_step.
    eapply str_at_spec; [exact Hs|]. cbn [mem_lens lget lset]. wp_step. wp_step. eapply (strs_at_spec _ _ (w0 :: ws)); [exact Hend| |].
    { intros j x Hj. destruct (Hws j x Hj) as (q' & eq' & ? & _ & ? & ?). exists q'. done. }
    unfold ran in HQ. cbn [plan] in HQ. wp_step. unfold exec. wp_step. apply wp_now. cbn beta iota. wp_step. wp_step. cbn. destruct (can_exec (me w) (length (trace w)) w0).
    + wp_step. apply wp_happens. wp_step. apply wp_happens. wp_steps. apply HQ. cbn. by rewrite Hf, <-app_assoc.
    + wp_step. apply wp_say. by apply HQ.
Qed.

Lemma wp_give h fd Q w : fdalloc (fds w) = Some fd -> Q fd (with_fds (put (fds w) fd (Some h)) w) -> wp (give h) Q w.
Proof. intros Hfd HQ. unfold wp, give. by rewrite Hfd. Qed.
Lemma wp_close fd Q w : Q tt (with_fds (put (fds w) fd None) w) -> wp (close fd) Q w.
Proof. intros H. unfold close. by wp_step. Qed.
(** pipe() and the calls that put its ends in place, with the descriptors 0, 1 and 2 open *)
Lemma wp_pipe i o er Q w : fds w = table i o er ->
  (let p := me w in let n := length (trace w) in
   if can_pipe p n then Q (Some (3, 4)) (with_fds (put (put (table i o er) 3 (Some (ReadEnd p n))) 4 (Some (WriteEnd p n))) w) else Q None w) ->
  wp pipe Q w.
Proof.
  intros Hfd HQ. unfold pipe. wp_step. apply wp_now. cbn beta iota. cbn zeta in HQ. destruct (can_pipe (me w) (length (trace w))); [|by wp_step].
  wp_step. eapply (wp_give _ 3); [by rewrite Hfd|]. wp_step. eapply (wp_give _ 4); [cbn; by rewrite Hfd|]. wp_step. unfold with_fds in *. cbn in *. by rewrite Hfd.
Qed.
Lemma runcmd_spec c : forall fuel p w i o er Q, (Sh.nodes c < fuel)%nat -> Sh.tree (Sh.string_in (Sh.text (mem_ w))) (Sh.heap (mem_ w)) p c ->
  fds w = table i o er -> (forall w', ran (plan c (me w) (length (trace w)) i o er) w w' -> Q tt w') -> wp (runcmd fuel p) Q w.
Proof.
  assert (forall h p n, Sh.cmd_at h p = Some n -> (p =? 0) = false) as Hp0.
  { intros h p n. unfold Sh.cmd_at, at_. destruct (Z.leb_spec 0 (p - 1)); [|done]. intros _. apply Z.eqb_neq. lia. }
  unfold ran. induction c as [ws|c IH r|l IHl r IHr|l IHl r IHr|c IH]; intros [|fuel] p w i o er Q Hf Ht Hfd HQ; cbn [Sh.nodes] in Hf; try lia; cbn [runcmd].
  - destruct Ht as (n & Hc & Hx). rewrite (Hp0 _ _ _ Hc). wp_step. eapply wp_deref; [exact Hc|]. destruct n as [a e| | | |]; [|done..].
    by eapply runcmd_exec_spec.
  - destruct Ht as (pc & q & eq & Hc & [Hq0 Hs] & Ht). rewrite (Hp0 _ _ _ Hc). wp_step. eapply wp_deref; [exact Hc|]. cbn beta iota. wp_step. apply wp_close. wp_step. wp_step.
    eapply str_at_spec; [exact Hs|]. wp_step. unfold open. wp_step. apply wp_now. cbn beta iota. wp_step. apply wp_happens. cbn [plan] in HQ. cbn.
    destruct (can_open (me w) (length (trace w)) (Sh.rfile r) (Sh.rmode r)) eqn:Eo.
    + destruct r as [f|f|f]; cbn [Sh.rfile Sh.rmode Sh.rfd Z.eqb] in *; (eapply wp_give; [cbn [called with_fds fds]; rewrite Hfd; reflexivity|]); cbn; rewrite Hfd;
        (eapply IH; [lia|exact Ht|reflexivity|]); intros w' Hw'; apply HQ; cbn in *; rewrite Hw', <-app_assoc; cbn; by rewrite length_app, Nat.add_1_r.
    + wp_step. apply wp_say. apply HQ. cbn. by rewrite <-app_assoc.
  - destruct Ht as (pl & pr & Hc & Ht1 & Ht2). rewrite (Hp0 _ _ _ Hc). wp_step. eapply wp_deref; [exact Hc|]. cbn beta iota. wp_step. eapply wp_pipe; [exact Hfd|]. cbn zeta. cbn [plan] in HQ.
    destruct (can_pipe (me w) (length (trace w))); [|by apply wp_say, HQ]. apply wp_fork1. cbn [with_fds me trace mem_ fds stdin].
    destruct (can_fork (me w) (length (trace w))); [|by apply HQ]. wp_step. apply wp_close. wp_step. unfold dup. wp_step. wp_step. cbn. eapply wp_give; [reflexivity|]. cbn. wp_step. apply wp_close. wp_step. apply wp_close. cbn.
    eapply (IHl fuel pl _ i (WriteEnd (me w) (length (trace w))) er); [lia|exact Ht1|reflexivity|]. cbn. intros w1 H1. cbn in H1. rewrite H1.
    apply wp_fork1. cbn [called with_fds me trace mem_ fds stdin]. rewrite length_app. cbn [length]. rewrite Nat.add_1_r. destruct (can_fork (me w) (S (length (trace w)))).
    2:{ apply HQ. cbn. by rewrite <-app_assoc. }
    wp_step. apply wp_close. wp_step. unfold dup. wp_step. wp_step. cbn. eapply wp_give; [reflexivity|]. cbn. wp_step. apply wp_close. wp_step. apply wp_close. cbn.
    eapply (IHr fuel pr _ (ReadEnd (me w) (length (trace w))) o er); [lia|exact Ht2|reflexivity|]. cbn. intros w2 H2. cbn in H2. rewrite H2.
    wp_step. apply wp_close. wp_step. apply wp_close. wp_step. apply wp_wait. apply wp_wait. apply HQ. cbn. by rewrite <-!app_assoc.
  - destruct Ht as (pl & pr & Hc & Ht1 & Ht2). rewrite (Hp0 _ _ _ Hc). wp_step. eapply wp_deref; [exact Hc|]. cbn beta iota. apply wp_fork1. cbn [plan] in HQ.
    destruct (can_fork (me w) (length (trace w))); [|by apply HQ].
    eapply IHl; [lia|exact Ht1|exact Hfd|]. cbn. intros w1 H1. wp_step. apply wp_wait. rewrite H1, called_app.
    eapply IHr; [lia|exact Ht2|exact Hfd|]. cbn. intros w2 H2. apply HQ. rewrite H2, <-app_assoc. cbn. rewrite length_app. cbn. by rewrite Nat.add_comm.
  - destruct Ht as (pc & Hc & Ht). rewrite (Hp0 _ _ _ Hc). wp_step. eapply wp_deref; [exact Hc|]. cbn beta iota. apply wp_fork1. cbn [plan] in HQ.
    destruct (can_fork (me w) (length (trace w))); [|by apply HQ].
    eapply IH; [lia|exact Ht|exact Hfd|]. cbn. intros w1 H1. rewrite H1. by apply HQ.
Qed.

(** ** The loop of main *)

Lemma is_cd_spec (m : mem) buf l Q : bytes_at m buf (l ++ [10; 0]) -> Q (bool_decide (take 3 l = [99; 100; 32])) m -> wp (is_cd buf) Q m.
Proof.
  intros Hb HQ. unfold is_cd.
  assert (take 3 l <> [99; 100; 32] -> Q false m) as Hno by (intros Hn; by rewrite bool_decide_false in HQ).
  destruct l as [|x l]; cbn [app] in Hb; pose proof Hb as [Hx Hb1]%bytes_at_cons; wp_step; (eapply wp_load8; [exact Hx|]).
  { cbn [Z.eqb Pos.eqb negb]. wp_step. by apply Hno. }
  destruct (Z.eqb_spec x 99) as [->|Hne]; cbn [negb]; [|wp_step; apply Hno; cbn; congruence].
  destruct l as [|y l]; cbn [app] in Hb1; apply bytes_at_cons in Hb1 as [Hy Hb2]; wp_step; (eapply wp_load8; [exact Hy|]).
  { cbn [Z.eqb Pos.eqb negb]. wp_step. by apply Hno. }
  destruct (Z.eqb_spec y 100) as [->|Hne]; cbn [negb]; [|wp_step; apply Hno; cbn; congruence].
  replace (buf + 1 + 1) with (buf + 2) in Hb2 by lia.
  destruct l as [|z l]; cbn [app] in Hb2; apply bytes_at_cons in Hb2 as [Hz _]; wp_step; (eapply wp_load8; [exact Hz|]); wp_step; [by apply Hno|].
  cbn [take firstn] in HQ. destruct (Z.eqb_spec z 32) as [->|Hne]; [by rewrite bool_decide_true in HQ by done|apply Hno; cbn; congruence].
Qed.

(** a line typed at the prompt *)
Definition typed (w : world) (buf nbuf : Z) (l more : list Z) : Prop :=
  stdin w = (l ++ 10 :: more) /\ Forall (fun x => x <> 10 /\ x <> 13 /\ is_byte x) l /\ (0 ∉ l) /\ (Z.of_nat (length l) + 2 <= nbuf < 2 ^ 31) /\
  mapped (Sh.text (mem_ w)) buf (Z.to_nat nbuf) /\ 0 < buf.
(** the line is in the buffer after getcmd() *)
Lemma getcmd_spec buf nbuf l more w Q : typed w buf nbuf l more ->
  (forall m, bytes_at m buf (l ++ [10; 0]) -> mapped m buf (Z.to_nat nbuf) ->
    Q 0 (World (lset Sh.text_lens m (mem_ w)) (fds w) more (trace w ++ [Jobs.Ev (Say "$ " [])]) (me w))) ->
  wp (getcmd buf nbuf) Q w.
Proof.
  intros (Hin & Hl & H0 & Hn & Hm & Hb) HQ. unfold getcmd. wp_step. apply wp_say. wp_step. wp_step.
  eapply wp_eq; [apply memset_fill; exact Hm|]. cbn. wp_step. wp_step. cbn. rewrite Hin. set (m := write_bytes _ _ (replicate _ _)).
  assert (mapped m buf (Z.to_nat nbuf)) as Hm' by by apply mapped_write.
  eapply (Ulib.gets_loop nbuf buf l more 10 m); [by left|done|lia| |].
  { intros i Hi. apply Hm'. lia. }
  cbn. set (m' := write_bytes m buf _). assert (bytes_at m' buf (l ++ [10; 0])) as Hb' by apply bytes_at_written. wp_step. wp_step. cbn.
  assert (exists x, m' !! buf = Some x /\ x <> 0) as (x & Hx & Hx0).
  { destruct l as [|x l]; pose proof Hb' as [Hx _]%bytes_at_cons; eexists; (split; [exact Hx|]); [done|]. apply not_elem_of_cons in H0. naive_solver. }
  eapply wp_load8; [exact Hx|]. replace (x =? 0) with false by lia. apply HQ; [done|]. by apply mapped_write.
Qed.

(** ** What the shell does with its input *)

Inductive request : Type :=
| Command (c : Sh.cmd)
| Cd (path : list Z).
Definition asks (l : list Z) (r : request) : Prop :=
  match r with
  | Command c => take 3 l <> [99; 100; 32] /\ (Sh.nodes c <= limit)%nat /\ exists ts, Sh.lexes (l ++ [10]) ts /\ Sh.gram Sh.Line ts c
  | Cd path => l = [99; 100; 32] ++ path
  end.
(** line by line: the prompt, then the line's work, or chdir() *)
Fixpoint session (l : list request) (p : pid) (n : nat) (i o e : handle) : Jobs.work event :=
  Jobs.Do (Say "$ " [])
    match l with
    | [] => Jobs.Over
    | Command c :: l =>
        if can_fork p (S n) then Jobs.Seq (den c (p ++ [S n]) 0 i o e) (session l p (S (S (S n))) i o e) else says "fork" []
    | Cd path :: l =>
        Jobs.Do (Chdir path)
          (if can_chdir p (S n) path then session l p (S (S n)) i o e else Jobs.Do (Say "cannot cd %s" path) (session l p (S (S (S n))) i o e))
    end.
Fixpoint rounds (l : list request) (p : pid) (n : nat) (i o e : handle) : Jobs.code :=
  Jobs.Emit (Say "$ " [])
    match l with
    | [] => Jobs.Halt
    | Command c :: l =>
        if can_fork p (S n) then Jobs.Fork (plan c (p ++ [S n]) 0 i o e) (rounds l p (S (S (S n))) i o e) else tells "fork" []
    | Cd path :: l =>
        Jobs.Emit (Chdir path)
          (if can_chdir p (S n) path then rounds l p (S (S n)) i o e else Jobs.Emit (Say "cannot cd %s" path) (rounds l p (S (S (S n))) i o e))
    end.
Lemma rounds_session l p i o e : forall n, Jobs.work_of (rounds l p n i o e) = session l p n i o e.
Proof. induction l as [|[c|path] l IH]; intros n; cbn [rounds session]; repeat case_match; cbn; by rewrite ?IH, ?plan_den. Qed.

(** one round of the loop serves one line: the calls it makes and whether the shell goes on *)
Definition round (r : request) (p : pid) (n : nat) (i o e : handle) : list (Jobs.item event) * bool :=
  match r with
  | Command c =>
      if can_fork p (S n) then ([Jobs.Ev (Say "$ " []); Jobs.Spawn (Jobs.flat (plan c (p ++ [S n]) 0 i o e)); Jobs.Wait], true)
      else ([Jobs.Ev (Say "$ " []); Jobs.Ev (Say "fork" [])], false)
  | Cd path =>
      ([Jobs.Ev (Say "$ " []); Jobs.Ev (Chdir path)] ++ (if can_chdir p (S n) path then [] else [Jobs.Ev (Say "cannot cd %s" path)]), true)
  end.
Lemma rounds_round r l p n i o e : let '(t, b) := round r p n i o e in
  Jobs.flat (rounds (r :: l) p n i o e) = t ++ if b then Jobs.flat (rounds l p (n + length t) i o e) else [].
Proof.
  destruct r as [c|path]; cbn [round rounds].
  - destruct (can_fork p (S n)); cbn; [|done]. by replace (n + 3)%nat with (S (S (S n))) by lia.
  - destruct (can_chdir p (S n) path); cbn; [by replace (n + 2)%nat with (S (S n)) by lia|by replace (n + 3)%nat with (S (S (S n))) by lia].
Qed.
Definition ready (w : world) (buf nbuf : Z) (i o e : handle) : Prop :=
  Sh.heap (mem_ w) = [] /\ fds w = table i o e /\ mapped (Sh.text (mem_ w)) buf (Z.to_nat nbuf).
Lemma main_body_line buf nbuf l more w r i o e : typed w buf nbuf l more -> asks l r -> ready w buf nbuf i o e ->
  wp (main_body buf nbuf) (fun b w' => let x := round r (me w) (length (trace w)) i o e in
    trace w' = trace w ++ x.1 /\ b = x.2 /\ stdin w' = more /\ me w' = me w /\ ready w' buf nbuf i o e) w.
Proof.
  intros Ht Hr (Hh & Hfd & _). pose proof Ht as (Hin & Hl & H0 & Hn & Hm & Hb). destruct r as [c|path]; cbn [round].
  - destruct Hr as (Hcd & Hlim & ts & Hlex & Hg). unfold main_body. wp_step. eapply getcmd_spec; [exact Ht|]. intros m Hbm Hmm. cbn [Z.ltb Z.compare].
    wp_step. wp_step. cbn. eapply is_cd_spec; [exact Hbm|]. rewrite bool_decide_false by done. cbn. apply wp_fork1. cbn. rewrite length_app. cbn. rewrite Nat.add_1_r.
    destruct (can_fork (me w) (S (length (trace w)))); [|cbn; by rewrite <-app_assoc]. wp_step. wp_step.
    assert (cstr m buf (l ++ [10])) as Hs.
    { split; [by rewrite <-app_assoc|]. intros [?|?%list_elem_of_singleton]%elem_of_app; done. }
    eapply wp_mono; [apply (Sh.parse_line limit buf (l ++ [10]) ts c); [exact Hs|done|rewrite length_app; cbn; lia|done|done|cbn; by rewrite Hh]|].
    cbn beta. intros p t' (Htree & _ & _ & Hlen). wp_step. wp_step.
    eapply (runcmd_spec c (S (length (Sh.heap t'))) p _ i o e); [cbn in Hlen; lia|exact Htree|exact Hfd|]. intros w' H1. unfold ran in H1. cbn in H1.
    wp_step. apply wp_wait. wp_step. rewrite H1, called_app. cbn. rewrite <-app_assoc. done.
  - cbn in Hr. subst l. unfold main_body. wp_step. eapply getcmd_spec; [exact Ht|]. intros m Hbm Hmm. cbn [Z.ltb Z.compare].
    wp_step. wp_step. cbn. eapply is_cd_spec; [exact Hbm|]. rewrite bool_decide_true by done.
    assert (cstr m buf (([99; 100; 32] ++ path) ++ [10])) as Hs.
    { split; [rewrite <-(app_assoc _ [10] [0]); exact Hbm|]. intros [?|?%list_elem_of_singleton]%elem_of_app; done. }
    cbn in Hn. wp_step. wp_step. eapply Ulib.ulib_strlen_cstr; [exact Hs|rewrite length_app; cbn; lia|]. wp_step. wp_step.
    replace (u32 (Z.of_nat (length (([99; 100; 32] ++ path) ++ [10])) - 1)) with (3 + Z.of_nat (length path)).
    2:{ rewrite length_app. cbn. unfold u32. rewrite Z.mod_small; lia. }
    apply wp_store8; [specialize (Hmm (3 + length path)%nat ltac:(lia)); replace (3 + Z.of_nat (length path)) with (Z.of_nat (3 + length path)) by lia; exact Hmm|].
    change (u8 0) with 0. wp_step. wp_step. set (m' := <[_ := 0]> _).
    assert (cstr m' (buf + 3) path) as Hs'.
    { destruct Hs as [Hbs _]. rewrite <-!app_assoc in Hbs. apply bytes_at_app in Hbs as [_ Hbs]. cbn [length] in Hbs.
      apply bytes_at_app in Hbs as [Hbs _]. split; [|intros Hin0; apply H0; by do 3 (apply elem_of_cons; right)].
      apply bytes_at_app. split.
      - intros k x Hi. pose proof (lookup_lt_Some _ _ _ Hi). unfold m'. rewrite lookup_insert_ne by lia. by apply Hbs.
      - apply bytes_at_cons. split; [|apply bytes_at_nil]. unfold m'. replace (buf + 3 + Z.of_nat (length path)) with (buf + (3 + Z.of_nat (length path))) by lia.
        by rewrite lookup_insert_eq. }
    eapply str_at_spec; [exact Hs'|]. wp_step. apply wp_now. cbn. rewrite length_app. cbn. rewrite Nat.add_1_r. wp_step. apply wp_happens. wp_step.
    assert (mapped m' buf (Z.to_nat nbuf)) as Hm' by by apply mapped_insert.
    destruct (can_chdir (me w) (S (length (trace w))) path); cbn [negb when].
    + wp_steps. cbn. by rewrite <-app_assoc.
    + apply wp_say. wp_steps. cbn. by rewrite <-!app_assoc.
Qed.

Lemma getcmd_eof buf nbuf w Q : stdin w = [] -> 2 <= nbuf -> mapped (Sh.text (mem_ w)) buf (Z.to_nat nbuf) ->
  (forall w', trace w' = trace w ++ [Jobs.Ev (Say "$ " [])] -> Q (-1) w') -> wp (getcmd buf nbuf) Q w.
Proof.
  intros Hin Hn Hm HQ. unfold getcmd. wp_step. apply wp_say. wp_step. wp_step.
  eapply wp_eq; [apply memset_fill; exact Hm|]. cbn. wp_step. wp_step. cbn. rewrite Hin. set (m := write_bytes _ _ (replicate _ _)).
  assert (mapped m buf (Z.to_nat nbuf)) as Hm' by by apply mapped_write.
  apply Ulib.gets_eof; [specialize (Hm' 0%nat ltac:(lia)); by rewrite Z.add_0_r in Hm'|]. wp_step. wp_step. cbn.
  eapply wp_load8; [by rewrite lookup_insert_eq|]. cbn. by apply HQ.
Qed.

(** the console is opened once, as descriptor 3, and closed *)
Definition opening (p : pid) (n : nat) : event := Open console_name O_RDWR (can_open p n console_name O_RDWR).
Lemma main_open_spec i o e Q w : fds w = table i o e -> Q tt (called [Jobs.Ev (opening (me w) (length (trace w)))] w) -> wp main_open Q w.
Proof.
  intros Hfd HQ. unfold main_open. cbn [loop NOFILE]. wp_step. wp_step. unfold open. wp_step. apply wp_now. cbn beta iota. wp_step. apply wp_happens. fold (opening (me w) (length (trace w))).
  destruct (can_open (me w) (length (trace w)) console_name O_RDWR).
  - eapply (wp_give _ 3); [cbn; rewrite Hfd; reflexivity|]. cbn [Z.ltb Z.leb Z.compare Pos.compare Pos.compare_cont]. wp_step. apply wp_close. wp_step. wp_step.
    destruct w. cbn in *. subst. exact HQ.
  - wp_step. cbn [Z.ltb Z.compare]. wp_step. by wp_step.
Qed.

(** the lines of the input and what they ask for *)
Definition script (nbuf : Z) (l : list (list Z * request)) : Prop :=
  Forall (fun x => asks x.1 x.2 /\ Forall (fun c => c <> 10 /\ c <> 13 /\ is_byte c) x.1 /\ (0 ∉ x.1) /\ Z.of_nat (length x.1) + 2 <= nbuf) l.
Definition input (l : list (list Z * request)) : list Z := l ≫= fun x => x.1 ++ [10].
Lemma input_length l : (length l <= length (input l))%nat.
Proof. induction l as [|[k r] l IH]; [done|]. unfold input. rewrite bind_cons, !length_app. cbn in *. fold (input l). lia. Qed.

Lemma main_loop_spec buf nbuf i o e l : script nbuf l -> 0 < buf -> 2 <= nbuf < 2 ^ 31 -> forall fuel w, (length l < fuel)%nat -> stdin w = input l -> ready w buf nbuf i o e ->
  wp (loop fuel (fun _ => b ← main_body buf nbuf; mret (if b : bool then inl tt else inr tt)) tt)
    (fun _ w' => trace w' = trace w ++ Jobs.flat (rounds l.*2 (me w) (length (trace w)) i o e)) w.
Proof.
  intros Hl Hb Hn. induction Hl as [|[k r] l (Hr & Hk & H0 & Hlen) Hl IH]; intros [|fuel] w Hf Hin Hw; cbn [length] in Hf; try lia; cbn [loop]; wp_step; wp_step.
  - unfold main_body. wp_step. apply getcmd_eof; [done|lia|apply Hw|]. intros w' Htr. cbn [Z.ltb Z.compare]. wp_steps.
  - cbn [fst snd] in *. unfold input in Hin. rewrite bind_cons, <-app_assoc in Hin. cbn [fst app] in Hin. fold (input l) in Hin.
    eapply wp_mono; [apply (main_body_line buf nbuf k (input l) w r i o e); [|done|done]|].
    { split; [done|]. split; [done|]. split; [done|]. split; [lia|split; [apply Hw|done]]. }
    cbn beta zeta. intros b w' (Htr & Hbb & Hin' & Hme & Hw'). wp_step. cbn [fmap list_fmap snd].
    pose proof (rounds_round r l.*2 (me w) (length (trace w)) i o e) as Hround. destruct (round r (me w) (length (trace w)) i o e) as [t b']. cbn [fst snd] in *. subst b'. rewrite Hround.
    destruct b.
    + eapply wp_mono; [apply IH; [lia|done|done]|]. cbn beta. intros _ w2 H2. by rewrite H2, Htr, Hme, length_app, <-app_assoc.
    + wp_step. by rewrite Htr, app_nil_r.
Qed.

End shell.

(** ** "(ls a|wc)>f;b&" and "cd d" at the prompt *)

Definition demo_script : list (list Z * request) := [(take 14 Sh.demo_line, Command Sh.demo_cmd); ([99; 100; 32; 100], Cd [100])].
Definition demo : world := World (Sh.St (write_bytes ∅ 100 (replicate 100 0)) 0 []) (table Console Console Console) (input demo_script) [] [].
Definition demo_main : M world unit := main 20 (fun _ _ _ _ => true) (fun _ _ _ => true) (fun _ _ _ => true) (fun _ _ => true) (fun _ _ => true) 100 100.
Lemma demo_script_ok : script 20 100 demo_script.
Proof.
  assert (forall l, forallb (fun c => negb (c =? 0)) l = true -> 0 ∉ l) as H0.
  { intros l Hl Hin. rewrite forallb_forall in Hl. by discriminate (Hl 0 (proj1 (list_elem_of_In _ _) Hin)). }
  repeat constructor; cbn [fst snd asks]; try done; try (by apply H0); try (cbn; lia).
  exists Sh.demo_toks. split; [exact Sh.demo_lexes|exact Sh.demo_gram].
Qed.
(** what it does: f is opened, ls and wc run side by side, joined by a pipe, wc writing to f; b starts in the background when they have
    ended, the shell having asked for the next line *)
Definition demo_work : Jobs.work event :=
  let run w ws i o := Jobs.Do (Exec w (w :: ws) (table i o Console)) (Jobs.Do (Ended w) Jobs.Over) in
  Jobs.Do (Open console_name 2 true) (Jobs.Do (Say "$ " [])
    (Jobs.Seq
      (Jobs.Seq
        (Jobs.Do (Open [102] 513 true) (Jobs.Par (run [108; 115] [[97]] Console (WriteEnd [2; 0]%nat 1)) (run [119; 99] [] (ReadEnd [2; 0]%nat 1) (File [102] 513))))
        (Jobs.Bg (run [98] [] Console Console) Jobs.Over))
      (Jobs.Do (Say "$ " []) (Jobs.Do (Chdir [100]) (Jobs.Do (Say "$ " []) Jobs.Over))))).
End Run.
